(* ===== verification/_CoqProject ===== *)
-Q . S2P
Prelude.v
Text.v
CanonicalJson.v
TransactionJob.v
Bonds.v
Rewards.v
ChainAnchor.v
Clarity.v
Principals.v
OperationPlan.v
SweepPlan.v
Signer.v
NakamotoBlock.v
AnchorCapture.v
RewardReads.v
Broadcast.v
LiveReader.v
Recipe.v
Receipt.v
RunStore.v
SweepStore.v
Cadence.v
RunService.v
LiveDriver.v
StakerClaims.v
LiveFacts.v
SweepService.v
GasWallet.v
RewardActions.v
Schedule.v
WalletRequest.v
WalletVerify.v
SignerGrant.v
WalletFacts.v
IntentStore.v
IntentService.v
RunProtocol.v
SweepProtocol.v
RunLogic.v
RunSafety.v
RunCorrect.v
SweepSafety.v
SweepSystem.v
SweepCorrect.v
RunScenario.v
SweepScenario.v
LiveScenario.v
GasWalletCorrect.v
ScheduleCorrect.v
ScheduleScenario.v
WalletFactsCorrect.v
IntentStoreCorrect.v
IntentRegistry.v
IntentSystem.v
IntentLogic.v
IntentSteps.v
IntentMethods.v
IntentCorrect.v
IntentScenario.v
ObserverInbox.v
ObserverInboxCorrect.v
ObserverProcess.v
ObserverCorrect.v
ObserverStatus.v
ObserverDrain.v
ObserverReconcile.v
ObserverReconcileCorrect.v
ObserverScenario.v
EngineTables.v
EngineStore.v
EngineProtocol.v
EngineCorrect.v
EngineListing.v
EngineScenario.v
ClaimDocuments.v
ManagerClaim.v
ManagerClaimCorrect.v
ManagerClaimScenario.v
