(* ===== verification/Prelude.v ===== *)
(** * Signer Sidekick: verification library

    Signer Sidekick is the program an operator of a Stacks signer pool runs beside the signer.
    Its authority is narrow: it may spend the fees of one gas wallet on reward transactions
    (calculate, collect, pay, settle, reclaim) that the operator approved as a bounded recipe,
    and sweep the wallet's balance to an address the operator entered.
    This library models the part of the program that holds that authority, and the protocol
    code it relies on, and proves what the operator relies on.  Paths are relative to src/.

    ** The program and the files

    The flow of a reward run is: chain facts -> recipe -> approval -> for each child of the
    recipe, in order: materialize a plan, check it, seal it, check the wallet, sign, store the
    attempt, broadcast, reconcile, move on.  A sweep is: plan -> approval -> sign, store,
    broadcast -> refresh until the chain shows its end.  Both take the same wallet leases.

    Shared ground:
    - [Prelude], [Text]: the [result] monad of throwing code, JavaScript sorting, strings,
      decimal text of bigints.
    - [CanonicalJson]: the text that is hashed for every seal (packages/protocol/src/
      reward-operation-plan.ts, and again in apps/sidekick/src/transaction-engine/
      reward-run-service.ts).

    The protocol of the chain, packages/protocol/src/:
    - [Principals], [Bonds], [Rewards], [Clarity]: principals.ts, pox5-bonds.ts,
      pox5-calculate-rewards.ts, clarity-codecs.ts with pox5-events.ts and manager-events.ts.

    Plans, keys and the network, apps/sidekick/src/ and its transaction-engine/:
    - [OperationPlan]: packages/protocol/src/reward-operation-plan.ts; [SweepPlan]:
      gas-wallet-sweep.ts; [TransactionJob]: state-machine.ts and fee-policy.ts.
    - [Signer]: gas-payer-signer.ts; [Broadcast]: transaction-broadcaster.ts.

    Reads of the chain, apps/sidekick/src/:
    - [ChainAnchor]: chain-anchor.ts and canonical-anchor-proof.ts; [AnchorCapture]: the anchor
      part of chain-clients.ts; [NakamotoBlock]: nakamoto-block.ts and canonical-node-block.ts.
    - [RewardReads]: pox5-calculate-rewards.ts; [LiveReader]: live-transaction-reader.ts;
      [Receipt]: canonical-api-transaction.ts, submitted-transaction-outcome.ts and
      calculation-receipt.ts; [Cadence]: submitted-observation-cadence.ts.

    Reward runs:
    - [Recipe]: the run shapes of packages/api-contracts/src/reward-runs.ts and
      [buildRewardRunRecipe] of reward-run-service.ts.
    - [RunStore]: storage/reward-run-repository.ts over its tables in storage/migrations.ts.
    - [RunService]: the class [RewardRunService] of reward-run-service.ts, and the process it
      runs in.
    - [LiveDriver], [LiveFacts]: live-reward-run.ts, the driver whose results are the arguments
      of the service's segments, and the discovery of the facts a recipe is built from;
      [StakerClaims]: the pages of claims it reads, [stakerClaims] of operator-service.ts over
      [discoverStakerClaims] of reward-status.ts.
    - [RunProtocol], [RunLogic], [RunSafety], [RunCorrect]: the abstract protocol of a reward
      run, a small program logic for repository computations, the proof that the service
      implements the protocol, and the guarantees that follow.

    - [RewardActions], [Schedule]: packages/api-contracts/src/reward-actions.ts with
      reward-schedule-selection.ts, and reward-schedule.ts over its repository, which starts
      and approves runs by itself; [ScheduleCorrect] and [ScheduleScenario] prove and execute it.

    The gas wallet:
    - [GasWallet]: the recorded wallet, its key file, the signer the engine holds and the status
      (gas-wallet.ts, storage/gas-wallet-repository.ts, transaction-engine/runtime.ts);
      [GasWalletCorrect]: its invariant, guarantees and a concrete life.
    - [SweepStore]: storage/gas-wallet-sweep-repository.ts; [SweepService]: the sweeps of
      gas-wallet.ts.
    - [SweepProtocol], [SweepSafety], [SweepSystem], [SweepCorrect]: the protocol of the stored
      sweeps, the proof that the service implements it, the two services in one process, and
      what they guarantee together.

    Wallet intents, the transactions an operator signs in the browser wallet:
    - [WalletRequest]: the request, transaction and manifest shapes of packages/api-contracts/src/
      v1.ts and wallet-operation-contracts.ts; [WalletVerify]: wallet-transaction-verification.ts;
      [SignerGrant]: signer-grant.ts; [WalletFacts]: [authoritativeFacts] of
      wallet-intent-service.ts with transaction-engine/manager-claim-proposal.ts.
    - [IntentStore]: storage/wallet-intent-repository.ts over its two tables and their triggers;
      [IntentService]: every method of wallet-intent-service.ts, as a program that asks questions
      of the outside (the class [IntentLibrary] holds the third-party code).
    - [WalletFactsCorrect]: what a prepared call is and may move; [IntentStoreCorrect],
      [IntentRegistry]: what the repository promises; [IntentSystem]: the process, its calls
      interleaved at every question, with stops and an outside that shows what it answers
      ([IntentWorld]); [IntentLogic], [IntentSteps], [IntentMethods], [IntentCorrect]: a program
      logic for these programs, the methods in it, and the guarantees.

    The event observer, which takes the node's callbacks as untrusted prompts:
    - [ObserverInbox]: storage/observer-inbox-repository.ts over its table (migrations 23, 24 and
      41), with the totals and the status it keeps in memory; [ObserverProcess]: the callback
      handler of observer-server.ts, the verification and the processor of observer-inbox.ts.
    - [ObserverReconcile]: observer-reconciliation.ts and observer-gap-monitor.ts, which turn
      verified prompts and silence into work for the readers of the chain.
    - [ObserverInboxCorrect]: how each operation moves the table; [ObserverCorrect],
      [ObserverStatus], [ObserverDrain], [ObserverReconcileCorrect]: the invariant of the process,
      the status, the work of the drain, and the service of requests.

    The transaction engine of earlier releases, whose jobs are only observed to their end now:
    - [EngineTables]: the tables of migrations 14 and 15 with their constraints and triggers;
      [EngineStore]: every operation of transaction-engine/repository.ts over them;
      [EngineProtocol]: the abstract protocol of the store and the proof that each call makes at
      most one step of it; [EngineCorrect], [EngineListing]: what follows for every history of
      calls, and for a client that pages through the jobs.
    - [ClaimDocuments]: the schemas of the stored claim documents (manager-claim-observer.ts and
      packages/api-contracts/src/engine.ts); [ManagerClaim]: the planner of that file, the service
      of manager-claim-observation-service.ts and a round of runtime.ts; [ManagerClaimCorrect].

    [RunScenario], [SweepScenario], [LiveScenario], [ScheduleScenario], [IntentScenario],
    [ObserverScenario], [EngineScenario] and [ManagerClaimScenario] execute the definitions on a
    concrete run, sweep, chain, wallet transaction, callback, engine job and legacy claim: the
    guarantees are applied there, and schedules that show defects.

    ** How the program is modelled

    Code that throws returns [result E A].  Code that reads and writes the database is a
    computation in the [repo] monad of [RunStore]: it returns or throws, and yields every
    database it committed on the way, so that a stop of the process may be placed after any
    commit.  [transaction] makes one commit of several writes, and rolls back on a throw.
    An async method is cut at its awaits: each segment is one [repo] computation, and a [Phase]
    holds the locals of a waiting tick.  What a segment awaits comes back as an argument, so a
    theorem over all arguments covers every behaviour of the chain, the signer and the node.
    [RunService.step] is the run process: tick segments, operator actions between them,
    approvals that wait for their wallet check, sweeps that take the same wallet leases, and
    stops.  The tick queue runs one tick at a time, which is why [phase] holds at most one; the
    order in which runs are ticked is left open.  [SweepService] has the same shape with the
    approvals, refreshes and preparations in flight; [SweepSystem] runs the two side by side.

    Wallet intents take another shape, because their methods ask the outside many times and call
    each other: a method is a [prog] of [IntentService], an inductive tree that writes to the
    database, asks and goes on with the answer.  [IntentSystem] runs any number of these at once,
    each up to its next question, and may stop them all after any commit; what was answered is an
    arbitrary predicate [Shown], so a theorem says which answers an outcome rests on.

    A method of the engine store is one synchronous transaction over tables whose constraints guard
    every write, so its histories are sequences of calls with arbitrary arguments; a pass over a
    legacy claim is several of them, with the controls of the API between its two halves.

    The observer is one process whose every stage is an action: callbacks, status reads, stops and
    the stages of the drain interleave at will, and a restart may follow any commit.

    Code that only reads the chain is a function of the answers.  Where each read is made once
    the answers are a record ([MaterializeReads], [ReceiptReads]); where calls are made at a tip
    the node is a function of the call.  A [Promise.all] is a list of results: when several
    reject, which rejection is thrown is a parameter [settle].

    Third-party code is a parameter: SHA-256, [localeCompare], [JSON.parse], the serialisation,
    signing and address validation of @stacks/transactions, UUID validation.  Theorems about
    seals say "equal, or a collision of the hash".  Amounts that the code only writes with
    [toString] and reads with [BigInt] are [Z]; a Clarity [uint] width is checked where the
    source checks it.  Times are milliseconds.

    ** What is proved

    - Runs ([RunCorrect]): each step of the service is a sequence of writes of the protocol
      [RunProtocol.write]; hence at every commit, also after a stop, at most one transaction of
      a run is unresolved, the gas budget holds, a wallet has one run, every row passes its
      integrity check, what was approved never changes, an approval names the hash of the
      stored recipe, a completed run is complete, and a run past its deadline can be ended.
      While a signature or a broadcast is awaited, whatever the operator does, the plan is the
      stored one, earlier attempts were rejected, and the attempt is stored before it is sent.
      [materialized_within_recipe] says which plans may be sealed for a child.
    - The driver ([LiveDriver], [LiveFacts]): a plan is made of reads at one fresh anchor, a
      payment is planned only when the manager holds what the operator reviewed, planning and
      recognition of an effect agree, reconciliation reports only what the chain shows, and the
      service's check of a plan fails only on the chain going back, the fee cap or the amount.
      Discovery reads the whole roster and gives recipes on which this agreement holds.
    - Sweeps ([SweepPlan], [SweepCorrect]): a sweep sends exactly balance minus fee to the
      entered address, beside the runs it never shares a wallet with one that is open, it is
      stored before it is sent, and it stays open until its end is proven.  Whatever the sweeps
      do, the run service sees only steps it already allows for.
    - The schedule ([ScheduleCorrect], [RewardActions]): it approves only the sealed run of a
      request it tracked itself, while it is switched on for the present deployment and nothing
      forbids it; a halt holds until the operator acts; settings take effect only at the revision
      they were read at and never drop a run that may still act; it picks the oldest work.
    - The wallet ([GasWalletCorrect]): whatever is called, fails or stops, the file of a recorded
      wallet holds its key and is never written over, and the engine signs only with the key the
      environment configured or an enabled wallet that passed its checks.
    - Wallet intents ([IntentCorrect], [IntentRegistry], [WalletVerify], [WalletFactsCorrect]): what
      the wallet is asked to sign is the reviewed call of one anchored state and moves no more
      than it says; a reported transaction is recorded whatever happened to its intent meanwhile;
      nothing is reported pending, executed, complete or failed that was not shown by bytes that
      pass the exact verifier; one intent of a scope is active, and records only grow.
    - The observer ([ObserverCorrect], [ObserverStatus], [ObserverDrain],
      [ObserverReconcileCorrect]): an acknowledged callback
      is never lost, contradictions are quarantined, what is called verified the local node served
      as canonical under an unchanged tip, the queue and the payloads stay within their limits,
      the remembered status equals the table, nothing stays stuck in processing, the
      drain makes a bounded number of steps until any time and, undisturbed, is idle only with
      the queue served, and a request for reconciliation is served or still has its timer.
    - The engine store ([EngineProtocol], [EngineCorrect], [EngineListing]): a call is one step of
      the protocol or none; jobs of one scope, nonces of one gas payer, attempts and approvals
      exclude each other as the tables say, whatever is signed was approved and not expired, the
      two controls are final, records are never rewritten, a transaction is committed once, and
      following the cursors lists every job once.
    - Legacy claims ([ManagerClaimCorrect]): a pass only closes work, and reconciles a claim only on
      proven final evidence that binds what was sealed.
    - Keys and the network ([Signer], [Broadcast]): only revalidated plans of the signer's own
      wallet are signed; an answer of the node is classified as accepted or rejected only when
      it is about exactly this transaction.
    - Evidence ([NakamotoBlock], [Receipt], [LiveReader], [AnchorCapture], [ChainAnchor]): the
      block walk is exact against the consensus encoding, a confirmation has evidence of the
      node, observed transactions are bound to their ID, anchors are fenced between equal tips.
    - Recipes ([Recipe]): a recipe is the first part of the eligible work, within its bounds,
      and what the operator reviews is what is sealed.
    - Plans ([OperationPlan], [CanonicalJson]): the bytes of a plan are those of a deny-mode
      call with exactly the stated effect; revalidation accepts exactly the planner's output;
      a seal determines the material.
    - Rewards, bonds, events, principals: conservation and order of the reward simulation, which
      fails only by an overflow and returns within the stated bounds on its inputs; the
      estimates taken from it ([RewardReads]), exact bond periods, decoders that implement the
      event grammars, exact parsing.

    [RunScenario] also proves four defects of runs: a run cancelled during a broadcast ends with
    a live transaction; a stop can lose a paid fee from the gas account; recovery may watch
    another transaction than the interrupted one; a refused retry counts as a submission.
    [SweepCorrect.sweep_fee_ignores_estimate] shows that the node's fee estimate of a sweep is
    never used, [SweepScenario] that an approval can overwrite a cancellation, and
    [GasWalletCorrect.ConcreteWallet.stale_status_survives] that a status read while the wallet
    is switched can replace the newer one.  [ManagerClaimCorrect.included_claim_stays_open] shows
    that a legacy claim whose own transaction was recorded as included is never reconciled.

    ** Fuel and bounds

    Loops of the source run on their own trip count ([Bonds.bondPeriodsLoop]: the number of
    candidate periods; [ChainAnchor.AnchorProof] and [AnchorCapture.captureLoop]: the attempts
    and the steps the source bounds).  The page loops of [LiveFacts] have no bound in the source
    and run on fuel; enough fuel is the number of pages, and with it the loops are proved to
    finish with every item counted when every read of a page answers.  Everything else is structural.

    ** Not modelled

    HTTP and request URLs, SQL text and logging; the refresh of the withdrawal ledger and the
    withdrawal status lookup (a parameter of the driver); the snapshot the operator service
    takes before a page of claims (its rewards are an answer); the ledgers and projections, forecasts, health monitoring, configuration and the dashboard. *)

From Stdlib Require Export ZArith Lia Bool.
From stdpp Require Export base list strings gmap relations.
From Stdlib Require Export Sorted Permutation.

Set Default Proof Using "Type".
#[global] Open Scope Z_scope.

(** ** Results of fallible code

    A TypeScript function that may throw is a function into [result E A]: [Ok] is a
    normal return and [Err] a thrown error.  The [MRet]/[MBind] instances give the
    [x ← m; k] notation, which propagates an error the way an uncaught throw does. *)

Inductive result (E A : Type) : Type :=
  | Ok (a : A)
  | Err (e : E).
Arguments Ok {E A} a.
Arguments Err {E A} e.

#[global] Instance result_ret {E} : MRet (result E) := fun A a => Ok a.
#[global] Instance result_bind {E} : MBind (result E) :=
  fun A B k m => match m with Ok a => k a | Err e => Err e end.
#[global] Instance result_fmap {E} : FMap (result E) :=
  fun A B f m => match m with Ok a => Ok (f a) | Err e => Err e end.

(** [require b e] is [if (!b) throw e]. *)
Definition require {E} (b : bool) (e : E) : result E unit :=
  if b then Ok tt else Err e.

Definition is_ok {E A} (r : result E A) : bool :=
  match r with Ok _ => true | Err _ => false end.

Definition ok_opt {E A} (r : result E A) : option A :=
  match r with Ok a => Some a | Err _ => None end.

(** [map] of a throwing callback: the first error wins, as in [Array.prototype.map]. *)
Fixpoint mapM_res {E A B} (f : A -> result E B) (l : list A) : result E (list B) :=
  match l with
  | [] => Ok []
  | x :: l' => y ← f x; ys ← mapM_res f l'; Ok (y :: ys)
  end.

(** [reduce]/[for ... of] with a throwing body. *)
Fixpoint foldM_res {E A S} (f : S -> A -> result E S) (s : S) (l : list A) : result E S :=
  match l with
  | [] => Ok s
  | x :: l' => s' ← f s x; foldM_res f s' l'
  end.

Section result_lemmas.
  Context {E : Type}.

Lemma bind_Ok {A B} (m : result E A) (k : A -> result E B) b :
    (m ≫= k) = Ok b <-> exists a, m = Ok a /\ k a = Ok b.
  Proof.
    destruct m as [a|e]; cbn; split.
    - eauto.
    - intros (a' & [= ->] & ?); done.
    - done.
    - intros (a' & ? & ?); done.
  Qed.

  (** Sequencing is associative: a read followed by its decoder is one decoder. *)
Lemma bind_assoc {A B C} (m : result E A) (k : A -> result E B) (j : B -> result E C) :
    (m ≫= fun a => k a ≫= j) = ((m ≫= k) ≫= j).
  Proof. by destruct m. Qed.

Lemma require_Ok (b : bool) (e : E) u : require b e = Ok u <-> b = true.
  Proof. destruct b, u; cbn; split; congruence. Qed.

Lemma require_true (e : E) : require true e = Ok tt.
  Proof. done. Qed.

Lemma mapM_res_Forall2 {A B} (f : A -> result E B) l k :
    mapM_res f l = Ok k <-> Forall2 (fun x y => f x = Ok y) l k.
  Proof.
    revert k; induction l as [|x l IH]; intros k; cbn.
    - split; [intros [= <-]; constructor | inversion 1; done].
    - rewrite bind_Ok; split.
      + intros (y & Hy & (ys & Hys & [= <-])%bind_Ok).
        constructor; [done | by apply IH].
      + inversion 1 as [|? y ? ys Hy Hys]; subst.
        exists y; split; [done|]. apply bind_Ok.
        exists ys; split; [by apply IH | done].
  Qed.

Lemma mapM_res_length {A B} (f : A -> result E B) l k :
    mapM_res f l = Ok k -> length k = length l.
  Proof. intros H%mapM_res_Forall2. by apply Forall2_length in H. Qed.

Lemma mapM_res_total {A B} (f : A -> result E B) (g : A -> B) l :
    (forall x, x ∈ l -> f x = Ok (g x)) -> mapM_res f l = Ok (map g l).
  Proof.
    induction l as [|x l IH]; intros H; cbn; [done|].
    rewrite H by constructor. cbn. rewrite IH; [done|].
    intros y Hy; apply H; by constructor.
  Qed.
End result_lemmas.

(** ** Automation

    [case_res] destructs the scrutinee of a [result] computation in hypothesis [H];
    [inv_ok] turns a successful computation into the facts of its steps. *)

Ltac inv_ok_in H :=
  lazymatch type of H with
  | (mbind _ _) = Ok _ =>
      let a := fresh "v" in let H1 := fresh "Hstep" in
      apply bind_Ok in H; destruct H as (a & H1 & H);
      inv_ok_in H1; inv_ok_in H
  | require _ _ = Ok _ => apply require_Ok in H
  | Ok _ = Ok _ => injection H as H
  | Err _ = Ok _ => discriminate H
  | _ => idtac
  end.

Tactic Notation "inv_ok" hyp(H) := cbn [mbind result_bind] in H || idtac; inv_ok_in H.

(** Reflects boolean comparisons on [Z] and boolean connectives into propositions. *)
Ltac breflect :=
  repeat match goal with
  | H : andb _ _ = true |- _ => apply andb_true_iff in H; destruct H
  | H : orb _ _ = false |- _ => apply orb_false_iff in H; destruct H
  | H : negb _ = true |- _ => apply negb_true_iff in H
  | H : negb _ = false |- _ => apply negb_false_iff in H
  | H : Z.eqb _ _ = true |- _ => apply Z.eqb_eq in H
  | H : Z.eqb _ _ = false |- _ => apply Z.eqb_neq in H
  | H : Z.ltb _ _ = true |- _ => apply Z.ltb_lt in H
  | H : Z.ltb _ _ = false |- _ => apply Z.ltb_ge in H
  | H : Z.leb _ _ = true |- _ => apply Z.leb_le in H
  | H : Z.leb _ _ = false |- _ => apply Z.leb_gt in H
  | H : Z.gtb _ _ = _ |- _ => rewrite Z.gtb_ltb in H
  | H : Z.geb _ _ = _ |- _ => rewrite Z.geb_leb in H
  | H : String.eqb _ _ = true |- _ => apply String.eqb_eq in H
  | H : String.eqb _ _ = false |- _ => apply String.eqb_neq in H
  | H : bool_decide _ = true |- _ => apply bool_decide_eq_true in H
  | H : bool_decide _ = false |- _ => apply bool_decide_eq_false in H
  end.

(** Membership in a list of constructors, decided by evaluation. *)
Ltac is_in := apply (proj1 (bool_decide_eq_true _)); reflexivity.
Ltac not_in H := exfalso; revert H; apply (proj1 (bool_decide_eq_false _)); reflexivity.

Create HintDb sidekick.
#[export] Hint Extern 5 (_ <= _)%Z => lia : sidekick.
#[export] Hint Extern 5 (_ < _)%Z => lia : sidekick.

(** ** [Array.prototype.sort]

    ECMAScript's sort is stable.  It is modelled by left-to-right insertion: each element
    goes in front of the first earlier one the comparator puts strictly after it. *)

Section js_sort.
  Context {A : Type} (cmp : A -> A -> Z).

Fixpoint insert_sorted (p : A) (l : list A) : list A :=
    match l with
    | [] => [p]
    | m :: l' => if cmp p m <? 0 then p :: m :: l' else m :: insert_sorted p l'
    end.

Definition js_sort (l : list A) : list A :=
    fold_left (fun acc p => insert_sorted p acc) l [].

Lemma insert_sorted_perm p l : Permutation (insert_sorted p l) (p :: l).
  Proof.
    induction l as [|m l IH]; cbn; [done|].
    destruct (cmp p m <? 0); [done|].
    rewrite IH. apply Permutation_swap.
  Qed.

Lemma fold_insert_perm l acc :
    Permutation (fold_left (fun acc p => insert_sorted p acc) l acc) (l ++ acc).
  Proof.
    revert acc; induction l as [|x l IH]; intros acc; cbn; [done|].
    rewrite IH, insert_sorted_perm. symmetry; apply Permutation_middle.
  Qed.

Lemma js_sort_perm l : Permutation (js_sort l) l.
  Proof. unfold js_sort. rewrite fold_insert_perm. by rewrite app_nil_r. Qed.

Lemma js_sort_length l : length (js_sort l) = length l.
  Proof. apply Permutation_length, js_sort_perm. Qed.

Lemma elem_of_js_sort x l : x ∈ js_sort l <-> x ∈ l.
  Proof. by rewrite js_sort_perm. Qed.

  (** A comparator that is a total preorder; [cmp_le x y] reads "x may come first". *)
Definition cmp_le (x y : A) : Prop := cmp x y <= 0.

  Context (cmp_anti : forall x y, cmp x y < 0 <-> 0 < cmp y x).
  Context (cmp_trans : forall x y z, cmp_le x y -> cmp_le y z -> cmp_le x z).

Lemma cmp_not_lt x y : ~ cmp x y < 0 -> cmp_le y x.
  Proof using cmp_anti.
    unfold cmp_le; intros H.
    destruct (Z_lt_ge_dec 0 (cmp y x)) as [Hlt|]; [|lia].
    apply cmp_anti in Hlt. lia.
  Qed.

Lemma insert_sorted_sorted p l :
    StronglySorted cmp_le l -> StronglySorted cmp_le (insert_sorted p l).
  Proof using cmp_anti cmp_trans.
    induction 1 as [|m l Hl IH Hm]; cbn; [repeat constructor|].
    destruct (cmp p m <? 0) eqn:E; breflect.
    - constructor; [by constructor|].
      constructor; [unfold cmp_le; lia|].
      eapply Forall_impl; [exact Hm|]. intros y Hy. eapply cmp_trans; [|exact Hy].
      unfold cmp_le; lia.
    - constructor; [done|].
      rewrite insert_sorted_perm. constructor; [|done].
      apply cmp_not_lt; lia.
  Qed.

Lemma fold_insert_sorted l acc :
    StronglySorted cmp_le acc ->
    StronglySorted cmp_le (fold_left (fun acc p => insert_sorted p acc) l acc).
  Proof using cmp_anti cmp_trans.
    revert acc; induction l as [|x l IH]; intros acc Hacc; cbn; [done|].
    apply IH, insert_sorted_sorted, Hacc.
  Qed.

Lemma js_sort_sorted l : StronglySorted cmp_le (js_sort l).
  Proof using cmp_anti cmp_trans. apply fold_insert_sorted; constructor. Qed.
End js_sort.

(** A sorted list is determined by its elements when ties are equalities. *)
Lemma StronglySorted_perm_unique {A} (R : A -> A -> Prop) (l k : list A) :
  (forall x y, x ∈ l -> y ∈ l -> R x y -> R y x -> x = y) ->
  StronglySorted R l -> StronglySorted R k -> Permutation l k -> l = k.
Proof.
  intros Hanti Hl; revert k Hanti; induction Hl as [|x l Hl IH Hx]; intros k Hanti Hk Hp.
  - by apply Permutation_nil in Hp.
  - destruct Hk as [|y k Hk Hy]; [by apply Permutation_sym, Permutation_nil in Hp|].
    rewrite Forall_forall in Hx, Hy.
    assert (Hyl : y ∈ x :: l) by (rewrite Hp; constructor).
    assert (Hxk : x ∈ y :: k) by (rewrite <- Hp; constructor).
    assert (x = y) as ->.
    { apply elem_of_cons in Hyl as [->|Hyl]; [done|].
      apply elem_of_cons in Hxk as [->|Hxk]; [done|].
      apply Hanti; [constructor | by constructor | by apply Hx | by apply Hy]. }
    f_equal. apply IH; [|done|by eapply Permutation_cons_inv].
    intros u v Hu Hv. apply Hanti; by constructor.
Qed.
