(* ===== verification/Text.v ===== *)
(** * Text

    The JavaScript string operations the components share: ASCII case folding, the hex and
    decimal patterns of the zod schemas, and the decimal text of an unsigned [bigint]
    ([toString] and [BigInt]), with its round trip. *)

From Stdlib Require Export Ascii String.
From Stdlib Require Import DecimalString DecimalZ DecimalPos DecimalFacts.
From S2P Require Import Prelude.

Open Scope Z_scope.
Open Scope list_scope.

Definition chars (s : string) : list ascii := String.list_ascii_of_string s.

Definition code (c : ascii) : Z := Z.of_nat (nat_of_ascii c).

Definition in_range (lo hi : ascii) (c : ascii) : bool := (code lo <=? code c) && (code c <=? code hi).

Definition is_digit (c : ascii) : bool := in_range "0" "9" c.
Definition is_lower_hex (c : ascii) : bool := is_digit c || in_range "a" "f" c.
Definition is_hex (c : ascii) : bool := is_lower_hex c || in_range "A" "F" c.

(** [toLowerCase] on one ASCII character, and on a string. *)
Definition lower_char (c : ascii) : ascii :=
  if in_range "A" "Z" c then ascii_of_nat (nat_of_ascii c + 32) else c.

Fixpoint toLowerCase (s : string) : string :=
  match s with
  | EmptyString => EmptyString
  | String c s' => String (lower_char c) (toLowerCase s')
  end.

Lemma lower_char_idem c : lower_char (lower_char c) = lower_char c.
Proof. destruct c as [[] [] [] [] [] [] [] []]; reflexivity. Qed.

Lemma toLowerCase_idem s : toLowerCase (toLowerCase s) = toLowerCase s.
Proof. induction s as [|c s IH]; cbn; [done|]. by rewrite lower_char_idem, IH. Qed.

Lemma chars_toLowerCase s : chars (toLowerCase s) = lower_char <$> chars s.
Proof. unfold chars. induction s as [|c s IH]; cbn; [done|]. by rewrite IH. Qed.

(** [/^0x[0-9a-f]{n}$/] and its case-insensitive form. *)
Definition prefixed_hex (digit : ascii -> bool) (n : nat) (s : string) : bool :=
  match s with
  | String "0" (String "x" rest) =>
      bool_decide (String.length rest = n) && forallb digit (chars rest)
  | _ => false
  end.

Definition prefixed_hex_i (n : nat) (s : string) : bool :=
  match s with
  | String "0" (String c rest) =>
      (Ascii.eqb c "x" || Ascii.eqb c "X") &&
      (bool_decide (String.length rest = n) && forallb is_hex (chars rest))
  | _ => false
  end.

Lemma length_toLowerCase s : String.length (toLowerCase s) = String.length s.
Proof. induction s as [|c s IH]; cbn; congruence. Qed.

Lemma lower_hex c : is_hex c = true -> is_lower_hex (lower_char c) = true.
Proof. destruct c as [[] [] [] [] [] [] [] []]; reflexivity || discriminate. Qed.

Lemma lower_hex_chars l : forallb is_hex l = true -> forallb is_lower_hex (lower_char <$> l) = true.
Proof.
  induction l as [|c l IH]; cbn; [done|]. rewrite !andb_true_iff.
  intros [Hc Hl]. split; [by apply lower_hex | by apply IH].
Qed.

Lemma prefixed_hex_lower n s :
  prefixed_hex_i n s = true -> prefixed_hex is_lower_hex n (toLowerCase s) = true.
Proof.
  intros H. destruct s as [|c0 [|c1 rest]];
    [discriminate H | destruct c0 as [[] [] [] [] [] [] [] []]; discriminate H |].
  assert (c0 = "0"%char) as ->.
  { destruct c0 as [[] [] [] [] [] [] [] []]; done || discriminate. }
  cbn in H. breflect.
  assert (lower_char c1 = "x"%char) as Hx.
  { destruct (Ascii.eqb_spec c1 "x") as [->|]; [done|].
    destruct (Ascii.eqb_spec c1 "X") as [->|]; done. }
  cbn [toLowerCase]. rewrite Hx. cbn.
  rewrite length_toLowerCase, chars_toLowerCase.
  apply andb_true_iff; split; [by apply bool_decide_eq_true|]. by apply lower_hex_chars.
Qed.

Lemma lower_hex_is_hex l : forallb is_lower_hex l = true -> forallb is_hex l = true.
Proof.
  induction l as [|c l IH]; cbn; [done|]. rewrite !andb_true_iff; unfold is_hex at 1.
  intros [Hc Hl]. rewrite Hc. auto.
Qed.

Lemma prefixed_hex_i_of_lower n s :
  prefixed_hex is_lower_hex n s = true -> prefixed_hex_i n s = true.
Proof.
  intros H. destruct s as [|c0 [|c1 rest]];
    [discriminate H | destruct c0 as [[] [] [] [] [] [] [] []]; discriminate H |].
  assert (c0 = "0"%char) as -> by
    (destruct c0 as [[] [] [] [] [] [] [] []]; done || discriminate).
  assert (c1 = "x"%char) as -> by
    (destruct c1 as [[] [] [] [] [] [] [] []]; done || discriminate).
  cbn in *. breflect. apply andb_true_iff; split; [by apply bool_decide_eq_true|].
  by apply lower_hex_is_hex.
Qed.

Lemma lower_char_digit c : is_lower_hex c = true -> lower_char c = c.
Proof. destruct c as [[] [] [] [] [] [] [] []]; reflexivity || discriminate. Qed.

Lemma toLowerCase_lower_hex s : forallb is_lower_hex (chars s) = true -> toLowerCase s = s.
Proof.
  induction s as [|c s IH]; cbn; [done|]. rewrite andb_true_iff.
  intros [Hc Hs]. by rewrite (lower_char_digit c Hc), (IH Hs).
Qed.

(** ** White space *)

Definition is_space (c : ascii) : bool := in_range "009" "013" c || Ascii.eqb c " ".

Fixpoint trimStart (s : string) : string :=
  match s with
  | EmptyString => EmptyString
  | String c rest => if is_space c then trimStart rest else s
  end.

(** [trim] on ASCII white space. *)
Fixpoint trimEnd (s : string) : string :=
  match s with
  | EmptyString => EmptyString
  | String c rest =>
      match trimEnd rest with
      | EmptyString => if is_space c then EmptyString else String c EmptyString
      | kept => String c kept
      end
  end.

Definition trim (s : string) : string := trimEnd (trimStart s).

Lemma trimEnd_idem s : trimEnd (trimEnd s) = trimEnd s.
Proof.
  induction s as [|c s IH]; [done|]. cbn. destruct (trimEnd s) as [|d k] eqn:E.
  - destruct (is_space c) eqn:Hc; [done|]. cbn. by rewrite Hc.
  - cbn [trimEnd] in *. by rewrite IH.
Qed.

Lemma trimStart_end s : trimStart s = s -> trimStart (trimEnd s) = trimEnd s.
Proof.
  destruct s as [|c s]; [done|]. cbn. destruct (is_space c) eqn:Hc.
  - intros H. assert (Hlen : forall u, (String.length (trimStart u) <= String.length u)%nat).
    { induction u as [|x u IH]; cbn; [lia|]. destruct (is_space x); cbn; lia. }
    specialize (Hlen s). rewrite H in Hlen. cbn in Hlen. lia.
  - intros _. destruct (trimEnd s); cbn; by rewrite ?Hc.
Qed.

Lemma trimStart_idem s : trimStart (trimStart s) = trimStart s.
Proof. induction s as [|c s IH]; [done|]. cbn. destruct (is_space c) eqn:Hc; [done|]. cbn. by rewrite Hc. Qed.

Lemma trim_idem s : trim (trim s) = trim s.
Proof. unfold trim. by rewrite (trimStart_end (trimStart s) (trimStart_idem s)), trimEnd_idem. Qed.

Definition startsWith (s prefix : string) : bool := String.prefix prefix s.

(** ** Decimal text of unsigned integers *)

(** [value.toString()] of a [bigint]. *)
Definition bigint_toString (v : Z) : string := NilZero.string_of_int (Z.to_int v).

(** [/^(?:0|[1-9][0-9]* )$/], the pattern of the unsigned decimal fields. *)
Definition uintText (s : string) : bool :=
  match chars s with
  | [] => false
  | c :: rest =>
      if Ascii.eqb c "0" then bool_decide (rest = [])
      else is_digit c && forallb is_digit rest
  end.

(** [BigInt(text)] on text that matches the pattern; [None] is the thrown [SyntaxError]. *)
Definition BigInt (s : string) : option Z :=
  Z.of_int <$> NilZero.int_of_string s.

Lemma to_int_nonnil v : Z.to_int v <> Decimal.Pos Decimal.Nil /\ Z.to_int v <> Decimal.Neg Decimal.Nil.
Proof.
  destruct v as [|p|p]; cbn; [split; discriminate| |];
    pose proof (DecimalPos.Unsigned.to_uint_nonnil p) as H; split; congruence.
Qed.

Lemma BigInt_toString v : BigInt (bigint_toString v) = Some v.
Proof.
  unfold BigInt, bigint_toString. destruct (to_int_nonnil v).
  rewrite NilZero.isi by done. cbn. by rewrite DecimalZ.of_to.
Qed.

Lemma bigint_toString_inj v w : bigint_toString v = bigint_toString w -> v = w.
Proof. intros H. enough (Some v = Some w) by congruence. by rewrite <- !BigInt_toString, H. Qed.

(** A string of digits as a [Decimal.uint]. *)
Lemma digits_uint s :
  forallb is_digit (chars s) = true -> exists d, NilEmpty.uint_of_string s = Some d.
Proof.
  induction s as [|c s IH]; cbn; [eauto|]. rewrite andb_true_iff.
  intros [Hc (d & ->)%IH].
  destruct c as [[] [] [] [] [] [] [] []]; try discriminate Hc; cbn; eauto.
Qed.

Lemma uintText_digits s : uintText s = true -> forallb is_digit (chars s) = true.
Proof.
  unfold uintText. destruct (chars s) as [|c rest]; [done|].
  destruct (Ascii.eqb_spec c "0") as [->|]; cbn; [|done].
  intros H%bool_decide_eq_true. by subst.
Qed.

(** Text matching the pattern is the [toString] of the integer it denotes. *)
Lemma uintText_BigInt s :
  uintText s = true -> exists v, 0 <= v /\ BigInt s = Some v /\ bigint_toString v = s.
Proof.
  intros Hu. pose proof (uintText_digits s Hu) as Hd.
  destruct (digits_uint s Hd) as (d & Hds).
  assert (Hi : NilZero.int_of_string s = Some (Decimal.Pos d)).
  { destruct s as [|c s]; [done|]. cbn in Hd; breflect.
    unfold NilZero.int_of_string, NilZero.uint_of_string. rewrite Hds.
    destruct (Ascii.eqb_spec c "-") as [->|]; done. }
  assert (Hn : Decimal.norm (Decimal.Pos d) = Decimal.Pos d).
  { destruct s as [|c s]; [done|]. cbn in Hd; breflect. unfold uintText in Hu. cbn [chars String.list_ascii_of_string] in Hu.
    cbn in Hds. destruct (digits_uint s) as (e & He); [done|]. rewrite He in Hds.
    destruct (Ascii.eqb_spec c "0") as [->|Hc].
    - apply bool_decide_eq_true in Hu.
      assert (s = "") as -> by (destruct s; done). cbn in He, Hds.
      injection He as <-. injection Hds as <-. done.
    - destruct c as [[] [] [] [] [] [] [] []]; try discriminate; try congruence;
        injection Hds as <-; reflexivity. }
  exists (Z.of_int (Decimal.Pos d)). split_and!.
  - apply N2Z.is_nonneg.
  - unfold BigInt. by rewrite Hi.
  - unfold bigint_toString. rewrite DecimalZ.to_of, Hn. by apply NilZero.sis.
Qed.

Example BigInt_example : BigInt "18446744073709551616" = Some (2 ^ 64) /\ uintText "007" = false.
Proof. done. Qed.

(** ** Hex text of bytes *)

Definition hex_value (c : ascii) : Z :=
  if is_digit c then code c - code "0" else code (lower_char c) - code "a" + 10.

(** [Buffer.from(hex, "hex")] on an even number of hex digits. *)
Fixpoint hexBytes (l : list ascii) : list Z :=
  match l with
  | hi :: lo :: rest => (16 * hex_value hi + hex_value lo)%Z :: hexBytes rest
  | _ => []
  end.

(** The bytes of an ASCII text, as [Hash.update] reads a string. *)
Definition text_bytes (s : string) : list Z := code <$> chars s.

Lemma code_inj c d : code c = code d -> c = d.
Proof.
  unfold code. intros H%Nat2Z.inj. rewrite <- (ascii_nat_embedding c), <- (ascii_nat_embedding d).
  by rewrite H.
Qed.

Lemma text_bytes_inj s t : text_bytes s = text_bytes t -> s = t.
Proof.
  unfold text_bytes, chars. revert t; induction s as [|c s IH]; intros [|d t]; cbn; try done.
  intros [= Hc Ht]. f_equal; [by apply code_inj | by apply IH].
Qed.

(** ** Concatenation *)

#[global] Arguments String.append : simpl nomatch.

Lemma append_nil_r s : (s ++ "")%string = s.
Proof. induction s; cbn; congruence. Qed.

Lemma append_assoc s t u : ((s ++ t) ++ u)%string = (s ++ t ++ u)%string.
Proof. induction s; cbn; congruence. Qed.

Lemma chars_append s t : chars (s ++ t)%string = chars s ++ chars t.
Proof. unfold chars. induction s as [|c s IH]; cbn; congruence. Qed.

Lemma append_inj_l s t u : (s ++ t)%string = (s ++ u)%string -> t = u.
Proof. induction s; cbn; [done|]. intros [= H]; auto. Qed.

Definition head_char (s : string) : option ascii :=
  match s with EmptyString => None | String c _ => Some c end.

(** Two texts of [P] characters followed by rests that do not start with one are equal. *)
Lemma span_inj (P : ascii -> bool) s t r q :
  forallb P (chars s) = true -> forallb P (chars t) = true ->
  (forall c, head_char r = Some c -> P c = false) ->
  (forall c, head_char q = Some c -> P c = false) ->
  (s ++ r)%string = (t ++ q)%string -> s = t /\ r = q.
Proof.
  revert t; induction s as [|c s IH]; intros [|d t]; cbn; intros Hs Ht Hr Hq H.
  - done.
  - subst r. breflect. by rewrite (Hr d eq_refl) in *.
  - subst q. breflect. by rewrite (Hq c eq_refl) in *.
  - injection H as -> H. breflect. destruct (IH t) as [-> ->]; done.
Qed.
