(* ===== verification/CanonicalJson.v ===== *)
(** * Canonical JSON

    The [canonicalJson] of packages/protocol/src/reward-operation-plan.ts and of
    apps/sidekick/src/transaction-engine/reward-run-service.ts (the same function): the text
    whose SHA-256 seals a plan, a recipe and a prepare request.  Keys are ordered by
    [localeCompare], a parameter here.  The text is shown to determine the value up to the
    order of object entries, so a seal binds every field. *)

From S2P Require Import Prelude Text.

Open Scope Z_scope.

Inductive Json :=
  | JNull
  | JBool (b : bool)
  | JNum (n : Z)
  | JStr (s : string)
  | JArr (l : list Json)
  | JObj (entries : list (string * Json)).

(** ** [JSON.stringify] of a string

    The two-character escapes, [\u00xx] for the other control characters, and every other
    character as it is. *)

Definition hex_digit (n : nat) : ascii :=
  match n with
  | 0 => "0" | 1 => "1" | 2 => "2" | 3 => "3" | 4 => "4" | 5 => "5" | 6 => "6" | 7 => "7"
  | 8 => "8" | 9 => "9" | 10 => "a" | 11 => "b" | 12 => "c" | 13 => "d" | 14 => "e" | _ => "f"
  end%nat%char.

Definition quote_char : ascii := ascii_of_nat 34.
Definition backslash : ascii := ascii_of_nat 92.

Definition escape (c : ascii) : string :=
  let n := nat_of_ascii c in
  let short d := String backslash (String d "") in
  match n with
  | 8 => short "b"%char | 9 => short "t"%char | 10 => short "n"%char
  | 12 => short "f"%char | 13 => short "r"%char
  | 34 => short quote_char | 92 => short backslash
  | _ => if (n <? 32)%nat
         then String backslash (String "u" (String "0" (String "0"
                (String (hex_digit (n / 16)) (String (hex_digit (n mod 16)) "")))))
         else String c ""
  end%nat.

Fixpoint escapes (s : string) : string :=
  match s with
  | EmptyString => EmptyString
  | String c s' => (escape c ++ escapes s')%string
  end.

Definition quote (s : string) : string :=
  String quote_char (escapes s ++ String quote_char "")%string.

Section Canonical.

Context (localeCompare : string -> string -> Z).

Definition by_key {A} (left right : string * A) : Z := localeCompare left.1 right.1.

Fixpoint canonicalJson (value : Json) : string :=
  match value with
  | JNull => "null"
  | JBool true => "true"
  | JBool false => "false"
  | JNum n => bigint_toString n
  | JStr s => quote s
  | JArr l => "[" ++ String.concat "," (map canonicalJson l) ++ "]"
  | JObj entries =>
      "{" ++ String.concat ","
        (map (fun '(key, child) => (quote key ++ ":" ++ child)%string)
           (js_sort by_key (map (fun '(key, child) => (key, canonicalJson child)) entries)))
      ++ "}"
  end%string.

(** ** The text as a plain print of the sorted value *)

Fixpoint normal (value : Json) : Json :=
  match value with
  | JArr l => JArr (map normal l)
  | JObj entries =>
      JObj (js_sort by_key (map (fun '(key, child) => (key, normal child)) entries))
  | v => v
  end.

Fixpoint print (value : Json) : string :=
  match value with
  | JNull => "null"
  | JBool true => "true"
  | JBool false => "false"
  | JNum n => bigint_toString n
  | JStr s => quote s
  | JArr l => "[" ++ String.concat "," (map print l) ++ "]"
  | JObj entries =>
      "{" ++ String.concat ","
        (map (fun '(key, child) => (quote key ++ ":" ++ print child)%string) entries) ++ "}"
  end%string.

Lemma insert_sorted_map {A B} (f : A -> B) (p : string * A) l :
  map (fun '(k, a) => (k, f a)) (insert_sorted by_key p l) =
  insert_sorted by_key (p.1, f p.2) (map (fun '(k, a) => (k, f a)) l).
Proof.
  induction l as [|[k a] l IH]; cbn [map insert_sorted]; [by destruct p|].
  unfold by_key at 1 3; cbn [fst]. destruct (localeCompare p.1 k <? 0); cbn [map].
  - by destruct p.
  - by rewrite IH.
Qed.

Lemma js_sort_map {A B} (f : A -> B) (l : list (string * A)) :
  map (fun '(k, a) => (k, f a)) (js_sort by_key l) =
  js_sort by_key (map (fun '(k, a) => (k, f a)) l).
Proof.
  unfold js_sort. change (@nil (string * B)) with (map (fun '(k, a) => (k, f a)) (@nil (string * A))).
  generalize (@nil (string * A)) as acc.
  induction l as [|[k a] l IH]; intros acc; cbn [map fold_left]; [done|].
  by rewrite IH, insert_sorted_map.
Qed.

End Canonical.

(** Induction through arrays and objects. *)
Section Json_induction.
  Context (P : Json -> Prop)
    (Hnull : P JNull) (Hbool : forall b, P (JBool b)) (Hnum : forall n, P (JNum n))
    (Hstr : forall s, P (JStr s)) (Harr : forall l, Forall P l -> P (JArr l))
    (Hobj : forall l, Forall (fun e => P (e.2)) l -> P (JObj l)).

Fixpoint Json_nested_ind (v : Json) : P v :=
    match v with
    | JNull => Hnull
    | JBool b => Hbool b
    | JNum n => Hnum n
    | JStr s => Hstr s
    | JArr l => Harr l ((fix go l : Forall P l :=
        match l with [] => Forall_nil_2 _ | x :: l' => Forall_cons_2 _ _ _ (Json_nested_ind x) (go l') end) l)
    | JObj l => Hobj l ((fix go l : Forall (fun e => P (e.2)) l :=
        match l with [] => Forall_nil_2 _ | x :: l' => Forall_cons_2 _ _ _ (Json_nested_ind x.2) (go l') end) l)
    end.
End Json_induction.

Lemma canonicalJson_print localeCompare v :
  canonicalJson localeCompare v = print (normal localeCompare v).
Proof.
  induction v as [| | | |l IH|l IH] using Json_nested_ind; cbn; try done.
  - do 2 f_equal. f_equal. rewrite map_map. induction IH as [|x l Hx Hl IHl]; cbn; congruence.
  - do 3 f_equal.
    assert (map (fun '(key, child) => (key, canonicalJson localeCompare child)) l =
            map (fun '(k, a) => (k, print a)) (map (fun '(key, child) => (key, normal localeCompare child)) l)) as ->.
    { induction IH as [|[k x] l Hx Hl IHl]; cbn; [done|]. cbn in Hx. congruence. }
    rewrite <- js_sort_map, map_map. apply map_ext. by intros [].
Qed.

(** ** Reading a quoted string back *)

Definition hex_nat (c : ascii) : nat := Z.to_nat (hex_value c).

(** The next character of a quoted text, and the rest; [None] at the closing quote. *)
Definition unescape (t : string) : option (ascii * string) :=
  match t with
  | String c rest =>
      if Ascii.eqb c quote_char then None
      else if Ascii.eqb c backslash then
        match rest with
        | String "b" r => Some (ascii_of_nat 8, r)
        | String "t" r => Some (ascii_of_nat 9, r)
        | String "n" r => Some (ascii_of_nat 10, r)
        | String "f" r => Some (ascii_of_nat 12, r)
        | String "r" r => Some (ascii_of_nat 13, r)
        | String "u" (String _ (String _ (String h (String l r)))) =>
            Some (ascii_of_nat (16 * hex_nat h + hex_nat l), r)
        | String d r => Some (d, r)
        | EmptyString => None
        end
      else Some (c, rest)
  | EmptyString => None
  end.

Lemma unescape_escape c r : unescape (escape c ++ r) = Some (c, r).
Proof. destruct c as [[] [] [] [] [] [] [] []]; reflexivity. Qed.

Lemma escapes_inj s t r q :
  (escapes s ++ String quote_char r)%string = (escapes t ++ String quote_char q)%string ->
  s = t /\ r = q.
Proof.
  revert t; induction s as [|c s IH]; intros [|d t]; cbn [escapes]; rewrite ?append_assoc; intros H.
  - by injection H.
  - apply (f_equal unescape) in H. by rewrite unescape_escape in H.
  - apply (f_equal unescape) in H. by rewrite unescape_escape in H.
  - apply (f_equal unescape) in H. rewrite !unescape_escape in H.
    injection H as -> H. by destruct (IH t H) as [-> ->].
Qed.

Lemma quote_inj s t r q : (quote s ++ r)%string = (quote t ++ q)%string -> s = t /\ r = q.
Proof.
  unfold quote. cbn. rewrite !append_assoc. cbn. intros [= H]. by apply escapes_inj.
Qed.

(** ** Items separated by commas

    [delimited r] is what can follow a value: nothing, a comma or a closing bracket. *)

Definition is_delimiter (c : ascii) : bool :=
  Ascii.eqb c "," || Ascii.eqb c "]" || Ascii.eqb c "}".

Definition delimited (r : string) : Prop := forall c, head_char r = Some c -> is_delimiter c = true.

Definition closing (close : ascii) : Prop := close = "]"%char \/ close = "}"%char.

(** [f] prints [a] in a way that determines it in front of any delimited rest. *)
Definition readable {A} (f : A -> string) (a : A) : Prop :=
  (forall b r q, delimited r -> delimited q ->
     (f a ++ r)%string = (f b ++ q)%string -> a = b /\ r = q) /\
  (exists c, head_char (f a) = Some c /\ is_delimiter c = false).

Lemma closing_delimited close r : closing close -> delimited (String close r).
Proof. intros [-> | ->] c [= <-]; done. Qed.

Lemma comma_delimited r : delimited (String "," r).
Proof. by intros c [= <-]. Qed.

Lemma concat_cons sep x l :
  String.concat sep (x :: l) = (x ++ match l with [] => "" | _ => sep ++ String.concat sep l end)%string.
Proof. destruct l; cbn; [by rewrite append_nil_r | done]. Qed.

Lemma head_char_append s r c : head_char s = Some c -> head_char (s ++ r)%string = Some c.
Proof. by destruct s. Qed.

Lemma items_inj {A} (f : A -> string) l close r k q :
  closing close ->
  Forall (readable f) l -> (forall b, exists c, head_char (f b) = Some c /\ is_delimiter c = false) ->
  (String.concat "," (map f l) ++ String close r)%string =
    (String.concat "," (map f k) ++ String close q)%string ->
  l = k /\ r = q.
Proof.
  intros Hc Hl Hh. revert k; induction Hl as [|a l [Ha _] Hl IH]; intros [|b k] H.
  - by injection H.
  - exfalso. destruct (Hh b) as (c & Hb & Hd). cbn [map] in H. rewrite concat_cons, append_assoc in H.
    apply (f_equal head_char) in H. rewrite (head_char_append _ _ _ Hb) in H. cbn in H.
    injection H as ->. by destruct Hc; subst.
  - exfalso. destruct (Hh a) as (c & Hb & Hd). cbn [map] in H. rewrite concat_cons, append_assoc in H.
    apply (f_equal head_char) in H. rewrite (head_char_append _ _ _ Hb) in H. cbn in H.
    injection H as ->. by destruct Hc; subst.
  - cbn [map] in H. rewrite !concat_cons, !append_assoc in H.
    apply Ha in H as [-> H].
    + destruct l as [|x l], k as [|y k]; cbn in H.
      * by injection H.
      * injection H as H0. by destruct Hc; subst.
      * injection H as H0. by destruct Hc; subst.
      * injection H as H. destruct (IH (y :: k) H) as [-> ->]. done.
    + destruct l; cbn; [by apply closing_delimited | apply comma_delimited].
    + destruct k; cbn; [by apply closing_delimited | apply comma_delimited].
Qed.

(** ** Numbers *)

Definition number_char (c : ascii) : bool := is_digit c || Ascii.eqb c "-".

Lemma uint_digits d : forallb is_digit (chars (DecimalString.NilEmpty.string_of_uint d)) = true.
Proof. induction d; cbn; done. Qed.

Lemma bigint_toString_cons n :
  exists c s, bigint_toString n = String c s /\ number_char c = true /\
    forallb number_char (chars s) = true.
Proof.
  assert (Hd : forall l, forallb is_digit l = true -> forallb number_char l = true).
  { induction l as [|c l IH]; cbn; [done|]. rewrite !andb_true_iff.
    intros [Hc Hl]. unfold number_char at 1. by rewrite Hc, IH. }
  assert (Hz : forall d, exists c s, DecimalString.NilZero.string_of_uint d = String c s /\
            is_digit c = true /\ forallb is_digit (chars s) = true).
  { intros []; cbn; eexists _, _; (split; [reflexivity | split; [done | first [done | apply uint_digits]]]). }
  unfold bigint_toString, DecimalString.NilZero.string_of_int.
  destruct (Z.to_int n) as [d|d].
  - destruct (Hz d) as (c & s & -> & Hc & Hs). exists c, s. split_and!; [done| |by apply Hd].
    unfold number_char. by rewrite Hc.
  - destruct (Hz d) as (c & s & -> & Hc & Hs). eexists _, _. split_and!; [done|done|].
    cbn. unfold number_char at 1. rewrite Hc. by apply Hd.
Qed.

Lemma number_chars n : forallb number_char (chars (bigint_toString n)) = true.
Proof. destruct (bigint_toString_cons n) as (c & s & -> & Hc & Hs). cbn. by rewrite Hc. Qed.

Lemma delimited_not_number r : delimited r -> forall c, head_char r = Some c -> number_char c = false.
Proof.
  intros Hr c Hc. specialize (Hr c Hc). unfold is_delimiter in Hr.
  destruct c as [[] [] [] [] [] [] [] []]; try discriminate Hr; reflexivity.
Qed.

Lemma number_inj n m r q :
  delimited r -> delimited q ->
  (bigint_toString n ++ r)%string = (bigint_toString m ++ q)%string -> n = m /\ r = q.
Proof.
  intros Hr Hq H. apply (span_inj number_char) in H as [Hn ->];
    try apply number_chars; try (by apply delimited_not_number).
  split; [by apply bigint_toString_inj | done].
Qed.

(** ** The print determines the value *)

(** The constructor of a value, by the first character of its text. *)
Definition first_char (v : Json) : ascii :=
  match v with
  | JNull => "n" | JBool true => "t" | JBool false => "f" | JStr _ => quote_char
  | JArr _ => "[" | JObj _ => "{"
  | JNum n => match bigint_toString n with String c _ => c | EmptyString => "0" end
  end%char.

Lemma print_head v : head_char (print v) = Some (first_char v).
Proof.
  destruct v as [|[]|n|s|l|l]; try done. cbn.
  destruct (bigint_toString_cons n) as (c & s & -> & _). done.
Qed.

Lemma first_char_number n : number_char (first_char (JNum n)) = true.
Proof. cbn. by destruct (bigint_toString_cons n) as (c & s & -> & Hc & _). Qed.

Lemma first_char_delimiter v : is_delimiter (first_char v) = false.
Proof.
  destruct v as [|[]|n|s|l|l]; try done. generalize (first_char_number n).
  generalize (first_char (JNum n)) as c.
  intros c Hn. destruct c as [[] [] [] [] [] [] [] []]; try discriminate Hn; reflexivity.
Qed.

Lemma first_char_same v w r q :
  (print v ++ r)%string = (print w ++ q)%string -> first_char v = first_char w.
Proof.
  intros H. apply (f_equal head_char) in H.
  rewrite (head_char_append _ _ _ (print_head v)), (head_char_append _ _ _ (print_head w)) in H.
  congruence.
Qed.

Lemma print_head_ok v : exists c, head_char (print v) = Some c /\ is_delimiter c = false.
Proof. exists (first_char v). split; [apply print_head | apply first_char_delimiter]. Qed.

(** Every value starting like a number is one. *)
Lemma first_char_num v n :
  first_char v = first_char (JNum n) -> exists m, v = JNum m.
Proof.
  intros H. pose proof (first_char_number n) as Hn. rewrite <- H in Hn.
  destruct v as [|[]|m|s|l|l]; try discriminate Hn. eauto.
Qed.

Definition print_entry (e : string * Json) : string :=
  let '(key, child) := e in (quote key ++ ":" ++ print child)%string.

Lemma entry_readable k v : readable print v -> readable print_entry (k, v).
Proof.
  intros [Hv _]. split.
  - intros [k' v'] r q Hr Hq. unfold print_entry. rewrite !append_assoc.
    intros [-> H]%quote_inj. cbn in H. injection H as H. by destruct (Hv v' r q Hr Hq H) as [-> ->].
  - by exists quote_char.
Qed.

Lemma print_readable v : readable print v.
Proof.
  induction v as [|b|n|s|l IH|l IH] using Json_nested_ind; (split; [|apply print_head_ok]);
    intros w r q Hr Hq H; pose proof (first_char_same _ _ _ _ H) as Hf.
  - destruct w as [|[]|m| | |]; try discriminate Hf.
    + by injection H.
    + by apply (first_char_num JNull m) in Hf as [? ?].
  - destruct b, w as [|[]|m| | |]; try discriminate Hf; try (by injection H);
      by apply (first_char_num (JBool _) m) in Hf as [? ?].
  - symmetry in Hf. apply first_char_num in Hf as [m ->]. cbn in H.
    by apply number_inj in H as [-> ->].
  - destruct w as [|[]|m|t| |]; try discriminate Hf.
    + by apply (first_char_num (JStr s) m) in Hf as [? ?].
    + cbn [print] in H. by apply quote_inj in H as [-> ->].
  - destruct w as [|[]|m|t|k|]; try discriminate Hf.
    + by apply (first_char_num (JArr l) m) in Hf as [? ?].
    + cbn [print] in H. rewrite !append_assoc in H. cbn in H. injection H as H.
      apply items_inj in H as [-> ->]; [done|by left|done|apply print_head_ok].
  - destruct w as [|[]|m|t| |k]; try discriminate Hf.
    + by apply (first_char_num (JObj l) m) in Hf as [? ?].
    + cbn [print] in H. rewrite !append_assoc in H. cbn in H. injection H as H.
      apply (items_inj print_entry) in H as [-> ->]; [done|by right| |].
      * apply Forall_forall. intros [key v] Hv. apply entry_readable.
        rewrite Forall_forall in IH. by apply (IH (key, v)).
      * intros [key v]. by exists quote_char.
Qed.

Lemma canonicalJson_normal localeCompare v w :
  canonicalJson localeCompare v = canonicalJson localeCompare w ->
  normal localeCompare v = normal localeCompare w.
Proof.
  rewrite !canonicalJson_print. intros H.
  destruct (print_readable (normal localeCompare v)) as [Hr _].
  apply (Hr _ "" ""); [done|done|]. by rewrite !append_nil_r.
Qed.

(** ** Equality up to the order of object entries *)

Inductive json_equiv : Json -> Json -> Prop :=
  | equiv_refl v : json_equiv v v
  | equiv_arr l k : Forall2 json_equiv l k -> json_equiv (JArr l) (JArr k)
  | equiv_obj l l' k :
      Permutation l l' ->
      Forall2 (fun a b => a.1 = b.1 /\ json_equiv a.2 b.2) l' k ->
      json_equiv (JObj l) (JObj k).

(** No object has two entries under one key, as no JavaScript object has. *)
Fixpoint distinct_keys (v : Json) : Prop :=
  match v with
  | JArr l => fold_right (fun x P => distinct_keys x /\ P) True l
  | JObj l => NoDup (map fst l) /\ fold_right (fun e P => distinct_keys (e.2) /\ P) True l
  | _ => True
  end.

Lemma fold_right_Forall {A} (P : A -> Prop) l :
  fold_right (fun x Q => P x /\ Q) True l <-> Forall P l.
Proof. induction l as [|x l IH]; cbn; [by rewrite Forall_nil|]. by rewrite Forall_cons, IH. Qed.

Definition normal_entry localeCompare (e : string * Json) : string * Json :=
  let '(key, child) := e in (key, normal localeCompare child).

Lemma normal_obj localeCompare l k :
  normal localeCompare (JObj l) = normal localeCompare (JObj k) ->
  Permutation (map (normal_entry localeCompare) l) (map (normal_entry localeCompare) k).
Proof.
  intros [= H]. rewrite <- (js_sort_perm (by_key localeCompare) (map _ l)).
  rewrite <- (js_sort_perm (by_key localeCompare) (map _ k)).
  unfold normal_entry. by rewrite H.
Qed.

Lemma normal_equiv localeCompare v w :
  normal localeCompare v = normal localeCompare w -> json_equiv v w.
Proof.
  revert w; induction v as [| | | |l IH|l IH] using Json_nested_ind; intros w H;
    try (destruct w; cbn in H; try discriminate H; injection H as <-; constructor);
    try (destruct w; cbn in H; try discriminate H; constructor).
  - injection H as H. revert l0 H. induction IH as [|x l Hx Hl IHl]; intros [|y k] H; try done.
    injection H as Hxy H. constructor; [by apply Hx | by apply IHl].
  - destruct w as [| | | | |k]; try discriminate H.
    apply normal_obj, Permutation_sym, Permutation_map_inv in H as (l' & Hk & Hp).
    econstructor; [exact Hp|]. rewrite Hp in IH. clear Hp.
    revert k Hk. induction IH as [|[a x] l' Hx Hl IHl]; intros [|[b y] k] Hk; try done.
    injection Hk as -> Hxy Hk. constructor; [|by apply IHl]. split; [done|]. by apply Hx.
Qed.

(** ** Inverting the equivalence *)

Lemma perm_same_keys {A} (l k : list (string * A)) :
  Permutation l k -> NoDup (map fst l) -> map fst l = map fst k -> l = k.
Proof.
  revert k; induction l as [|[a x] l IH]; intros [|[b y] k] Hp Hd Hk; try done.
  injection Hk as <- Hk. cbn in Hd. apply NoDup_cons in Hd as [Ha Hd].
  assert ((a, x) ∈ (a, y) :: k) as Hin by (rewrite <- Hp; constructor).
  apply elem_of_cons in Hin as [[= ->]|Hin].
  - f_equal. apply IH; [by apply Permutation_cons_inv in Hp | done | done].
  - destruct Ha. rewrite Hk. apply list_elem_of_fmap. by exists (a, x).
Qed.

(** The entries of two equivalent values. *)
Definition entry_equiv (a b : string * Json) : Prop := a.1 = b.1 /\ json_equiv a.2 b.2.

Lemma json_equiv_obj l k :
  json_equiv (JObj l) (JObj k) -> NoDup (map fst l) -> map fst l = map fst k ->
  Forall2 entry_equiv l k.
Proof.
  inversion 1 as [| |? l' ? Hp Hf]; subst; intros Hd Hk.
  - clear. induction k as [|[a x] k IH]; constructor; [split; [done | constructor] | done].
  - assert (map fst l' = map fst k) as Hlk.
    { clear -Hf. induction Hf as [|[a x] [b y] l' k [Hab _] _ IH]; cbn in *; congruence. }
    by rewrite (perm_same_keys l l') by congruence.
Qed.

Lemma json_equiv_entry l k key v :
  json_equiv (JObj l) (JObj k) -> (key, v) ∈ l -> exists w, (key, w) ∈ k /\ json_equiv v w.
Proof.
  inversion 1 as [| |? l' ? Hp Hf]; subst; intros Hin.
  - exists v. split; [done | constructor].
  - rewrite Hp in Hin. apply list_elem_of_lookup in Hin as [i Hi].
    destruct (Forall2_lookup_l _ _ _ _ _ Hf Hi) as ([key' w] & Hw & Hk & He). cbn in *; subst.
    exists w. split; [by eapply list_elem_of_lookup_2 | done].
Qed.

Lemma json_equiv_str s t : json_equiv (JStr s) (JStr t) -> s = t.
Proof. by inversion 1. Qed.
Lemma json_equiv_num n m : json_equiv (JNum n) (JNum m) -> n = m.
Proof. by inversion 1. Qed.
Lemma Forall2_refl {A} (R : A -> A -> Prop) l : (forall x, R x x) -> Forall2 R l l.
Proof. intros H. induction l as [|x l IH]; [constructor | by constructor]. Qed.

Lemma json_equiv_arr l k : json_equiv (JArr l) (JArr k) -> Forall2 json_equiv l k.
Proof. inversion 1 as [|? ? Hf|]; subst; [|done]. apply Forall2_refl. constructor. Qed.

Lemma json_equiv_strs l k : json_equiv (JArr (map JStr l)) (JArr (map JStr k)) -> l = k.
Proof.
  intros H%json_equiv_arr. revert k H; induction l as [|s l IH]; intros [|t k] Hf;
    try (by inversion Hf).
  apply Forall2_cons in Hf as [Hs%json_equiv_str Hf]. f_equal; auto.
Qed.

(** Two values with the same canonical text are equal up to the order of object
    entries, whatever [localeCompare] does: a digest of the text binds every field. *)
Theorem canonicalJson_determines localeCompare v w :
  canonicalJson localeCompare v = canonicalJson localeCompare w -> json_equiv v w.
Proof. intros H. by eapply normal_equiv, canonicalJson_normal. Qed.

(** The text does not depend on the order entries were written in, when [localeCompare]
    orders distinct keys strictly, as it does on the ASCII keys of the sealed records. *)
Section key_order.

Context (localeCompare : string -> string -> Z)
  (compare_anti : forall x y, localeCompare x y < 0 <-> 0 < localeCompare y x)
  (compare_trans : forall x y z,
     localeCompare x y <= 0 -> localeCompare y z <= 0 -> localeCompare x z <= 0)
  (compare_eq : forall x y, localeCompare x y = 0 -> x = y).

Lemma sorted_entries_eq {A} (l k : list (string * A)) :
  NoDup (map fst l) -> Permutation l k ->
  js_sort (by_key localeCompare) l = js_sort (by_key localeCompare) k.
Proof using compare_anti compare_trans compare_eq.
  intros Hd Hp. apply (StronglySorted_perm_unique (cmp_le (by_key localeCompare))).
  - intros [a x] [b y] Hx Hy H1 H2. unfold cmp_le, by_key in H1, H2; cbn in H1, H2.
    assert (a = b) as ->.
    { apply compare_eq. destruct (Z_lt_ge_dec (localeCompare a b) 0) as [H|H]; [|lia].
      apply compare_anti in H. lia. }
    rewrite elem_of_js_sort in Hx, Hy. f_equal.
    clear H1 H2 Hp. induction l as [|[c z] l IH]; [by apply elem_of_nil in Hx|].
    cbn in Hd. apply NoDup_cons in Hd as [Hc Hd].
    apply elem_of_cons in Hx as [Hx|Hx], Hy as [Hy|Hy]; [congruence| | |by apply IH].
    + injection Hx as <- _. destruct Hc. apply list_elem_of_fmap. by exists (b, y).
    + injection Hy as <- _. destruct Hc. apply list_elem_of_fmap. by exists (b, x).
  - apply js_sort_sorted.
    + intros x y. apply compare_anti.
    + intros x y z. apply compare_trans.
  - apply js_sort_sorted.
    + intros x y. apply compare_anti.
    + intros x y z. apply compare_trans.
  - by rewrite !js_sort_perm.
Qed.

Lemma normal_complete v w :
  distinct_keys v -> json_equiv v w -> normal localeCompare v = normal localeCompare w.
Proof using compare_anti compare_trans compare_eq.
  revert w; induction v as [| | | |l IH|l IH] using Json_nested_ind; intros w Hd He;
    inversion He as [|? k Hlk|? l' k Hp Hlk]; subst; try done; cbn.
  - cbn in Hd. apply fold_right_Forall in Hd. f_equal.
    clear He. induction Hlk as [|x y l k Hxy Hlk IHk]; [done|].
    apply Forall_cons in IH as [IHx IH], Hd as [Hdx Hd]. cbn. f_equal; auto.
  - cbn in Hd. destruct Hd as [Hn Hd]. apply fold_right_Forall in Hd. f_equal.
    rewrite Hp in IH, Hd.
    transitivity (js_sort (by_key localeCompare) (map (normal_entry localeCompare) l')).
    + apply sorted_entries_eq; [|by apply Permutation_map].
      rewrite map_map. erewrite map_ext; [exact Hn|]. by intros [].
    + unfold normal_entry. f_equal. clear He Hp Hn.
      induction Hlk as [|[a x] [b y] l' k [Hab Hxy] Hlk IHk]; [done|].
      apply Forall_cons in IH as [IHx IH], Hd as [Hdx Hd]. cbn in *. subst. f_equal; [|auto].
      f_equal. by apply IHx.
Qed.

(** The canonical text is independent of the order in which the entries of any object,
    at any depth, were written. *)
Theorem canonicalJson_key_order v w :
  distinct_keys v -> json_equiv v w ->
  canonicalJson localeCompare v = canonicalJson localeCompare w.
Proof using compare_anti compare_trans compare_eq.
  intros Hd He. rewrite !canonicalJson_print. f_equal. by apply normal_complete.
Qed.

End key_order.

(** Code-unit order: [localeCompare] on the lower-case ASCII keys of a concrete record. *)
Fixpoint code_unit_compare (s t : string) : Z :=
  match s, t with
  | EmptyString, EmptyString => 0
  | EmptyString, _ => -1
  | _, EmptyString => 1
  | String c s', String d t' =>
      if code c <? code d then -1 else if code d <? code c then 1 else code_unit_compare s' t'
  end.

Lemma code_unit_compare_eq s t : code_unit_compare s t = 0 -> s = t.
Proof.
  revert t; induction s as [|c s IH]; intros [|d t]; cbn; try done.
  destruct (code c <? code d) eqn:E1; [done|]. destruct (code d <? code c) eqn:E2; [done|].
  breflect. intros H. f_equal; [apply code_inj; lia | by apply IH].
Qed.

Lemma code_unit_compare_anti s t : code_unit_compare s t < 0 <-> 0 < code_unit_compare t s.
Proof.
  revert t; induction s as [|c s IH]; intros [|d t]; cbn; try lia.
  destruct (code c <? code d) eqn:E1, (code d <? code c) eqn:E2; breflect; try lia. apply IH.
Qed.

Lemma code_unit_compare_trans s t u :
  code_unit_compare s t <= 0 -> code_unit_compare t u <= 0 -> code_unit_compare s u <= 0.
Proof.
  revert t u; induction s as [|c s IH]; intros [|d t] [|e u]; cbn; try lia.
  destruct (code c <? code d) eqn:E1, (code d <? code c) eqn:E2, (code d <? code e) eqn:E3,
    (code e <? code d) eqn:E4, (code c <? code e) eqn:E5, (code e <? code c) eqn:E6;
    breflect; try lia. apply IH.
Qed.

Example canonicalJson_example :
  canonicalJson code_unit_compare
    (JObj [("nonce", JNum 7); ("asset", JStr "sbtc"); ("bond", JArr [JNull; JBool true])]) =
  String.concat (String quote_char "")
    ["{"; "asset"; ":"; "sbtc"; ","; "bond"; ":[null,true],"; "nonce"; ":7}"].
Proof. reflexivity. Qed.

Lemma canonicalJson_determines_witness :
  json_equiv (JObj [("b", JNull); ("a", JNum 1)]) (JObj [("a", JNum 1); ("b", JNull)]).
Proof. apply (canonicalJson_determines code_unit_compare). reflexivity. Defined.

Lemma canonicalJson_key_order_witness :
  canonicalJson code_unit_compare (JObj [("b", JNull); ("a", JNum 1)]) =
  canonicalJson code_unit_compare (JObj [("a", JNum 1); ("b", JNull)]).
Proof.
  apply (canonicalJson_key_order code_unit_compare code_unit_compare_anti
           code_unit_compare_trans code_unit_compare_eq).
  - cbn. split; [|done]. repeat constructor; set_solver.
  - eapply equiv_obj; [apply perm_swap|]. repeat constructor.
Defined.
