(* ===== verification/TransactionJob.v ===== *)
(** * Transaction jobs and fees

    [Module Job] is apps/sidekick/src/transaction-engine/state-machine.ts: the states of a
    transaction job, the transition table and its three readers.  [Module Fee] is
    fee-policy.ts of the same directory: the clamp of a node estimate into the standard
    band under the sealed cap. *)

From S2P Require Import Prelude.

Module Job.

Inductive TransactionJobState : Type :=
  | prepared | preflighted | awaiting_approval | nonce_reserved | broadcast | confirmed
  | reconciled | blocked | superseded | ambiguous | noncanonical_reobserve.

#[global] Instance TransactionJobState_eq_dec : EqDecision TransactionJobState.
Proof. solve_decision. Defined.

Definition transactionJobStates : list TransactionJobState :=
  [prepared; preflighted; awaiting_approval; nonce_reserved; broadcast; confirmed;
   reconciled; blocked; superseded; ambiguous; noncanonical_reobserve].

Definition transitions (s : TransactionJobState) : list TransactionJobState :=
  match s with
  | prepared => [preflighted; confirmed; blocked; superseded; reconciled]
  | preflighted => [awaiting_approval; confirmed; blocked; superseded; reconciled]
  | awaiting_approval => [nonce_reserved; confirmed; blocked; superseded; reconciled]
  | nonce_reserved => [broadcast; confirmed; ambiguous; blocked; reconciled]
  | broadcast => [confirmed; ambiguous; blocked; reconciled]
  | confirmed => [reconciled; noncanonical_reobserve; blocked]
  | reconciled => []
  | blocked => [prepared; confirmed; superseded; reconciled]
  | superseded => []
  | ambiguous => [broadcast; confirmed; blocked; reconciled]
  | noncanonical_reobserve => [prepared; confirmed; blocked; superseded; reconciled]
  end.

Definition canTransitionTransactionJob (from to : TransactionJobState) : bool :=
  bool_decide (to ∈ transitions from).

(** The thrown [InvalidTransactionJobTransitionError], with the states it carries. *)
Record InvalidTransactionJobTransitionError := {
  error_from : TransactionJobState;
  error_to : TransactionJobState;
}.

Definition assertTransactionJobTransition (from to : TransactionJobState)
    : result InvalidTransactionJobTransitionError unit :=
  if negb (canTransitionTransactionJob from to)
  then Err {| error_from := from; error_to := to |}
  else Ok tt.

Definition allowedTransactionJobTransitions (from : TransactionJobState)
    : list TransactionJobState := transitions from.

(** ** The job as a transition system *)

Definition step (s t : TransactionJobState) : Prop :=
  assertTransactionJobTransition s t = Ok tt.

#[global] Instance step_dec : RelDecision step.
Proof. intros s t; unfold step; destruct (assertTransactionJobTransition s t) as [[]|e];
  [by left | by right]. Defined.

Lemma step_transitions s t : step s t <-> t ∈ transitions s.
Proof.
  unfold step, assertTransactionJobTransition, canTransitionTransactionJob.
  case_bool_decide; cbn; split; congruence || done.
Qed.

Lemma transactionJobStates_complete s : s ∈ transactionJobStates.
Proof. destruct s; unfold transactionJobStates; set_solver. Qed.

(** A run of the machine: the states visited, oldest first. *)
Inductive path : TransactionJobState -> list TransactionJobState -> TransactionJobState -> Prop :=
  | path_nil s : path s [] s
  | path_step s t tr u : step s t -> path t tr u -> path s (t :: tr) u.

Lemma path_snoc s tr t u : path s tr t -> step t u -> path s (tr ++ [u]) u.
Proof. induction 1; intros Hu; cbn; repeat (econstructor; eauto). Qed.

(** States from which the job may still sign or send without a fresh approval. *)
Definition past_approval (s : TransactionJobState) : bool :=
  match s with
  | awaiting_approval | nonce_reserved | broadcast | ambiguous => true
  | _ => false
  end.

Lemma past_approval_entry s t :
  step s t -> past_approval t = true -> past_approval s = false -> t = awaiting_approval.
Proof.
  intros H%step_transitions Ht Hs.
  destruct s; try discriminate Hs; cbn in H;
    repeat (apply elem_of_cons in H as [->|H]; [done|]); by apply elem_of_nil in H.
Qed.

Lemma path_through_approval s tr t :
  path s tr t -> past_approval s = false -> past_approval t = true ->
  awaiting_approval ∈ tr.
Proof.
  induction 1 as [s|s u tr t Hsu Hut IH]; intros Hs Ht; [congruence|].
  destruct (past_approval u) eqn:Hu.
  - rewrite (past_approval_entry s u Hsu Hu Hs). constructor.
  - apply elem_of_cons; right; auto.
Qed.

(** Paths of the machine are exactly [rtc step]. *)
Lemma path_rtc s t : rtc step s t <-> exists tr, path s tr t.
Proof.
  split.
  - induction 1 as [s|s u t Hsu _ [tr Htr]]; [exists []; constructor|].
    exists (u :: tr); econstructor; eauto.
  - intros [tr H]; induction H; [constructor | econstructor; eauto].
Qed.

(** No job is ever broadcast without an approval on the way: every run from a state
    before approval ([prepared], [preflighted], [blocked], [noncanonical_reobserve], ...) to
    [broadcast] visits [awaiting_approval], so a job that was blocked or reorganised away
    after an approval has to be approved again before a transaction can be sent. *)
Theorem broadcast_needs_approval s tr :
  path s tr broadcast -> past_approval s = false -> awaiting_approval ∈ tr.
Proof. intros Hp Hs. by apply (path_through_approval s tr broadcast). Qed.

Lemma broadcast_needs_approval_witness :
  path blocked [prepared; preflighted; awaiting_approval; nonce_reserved; broadcast] broadcast /\
  awaiting_approval ∈ [prepared; preflighted; awaiting_approval; nonce_reserved; broadcast].
Proof.
  assert (H : path blocked
    [prepared; preflighted; awaiting_approval; nonce_reserved; broadcast] broadcast)
    by (repeat (eapply path_step; [reflexivity|]); constructor).
  split; [exact H|].
  apply (broadcast_needs_approval blocked); [exact H | reflexivity].
Defined.

(** The table has no trap: a state is terminal exactly when it is [reconciled] or
    [superseded], and every other state can be reconciled in at most two legal steps. *)
Theorem terminal_or_reconcilable s :
  (allowedTransactionJobTransitions s = [] <-> s = reconciled \/ s = superseded) /\
  (s <> reconciled -> s <> superseded -> step s reconciled).
Proof.
  split.
  - destruct s; cbn; intuition congruence.
  - intros H1 H2. apply step_transitions.
    destruct s; try congruence; cbn; set_solver.
Qed.

Lemma terminal_or_reconcilable_witness : step ambiguous reconciled.
Proof. apply terminal_or_reconcilable; discriminate. Defined.

End Job.

Module Fee.

Record TransactionFeePolicy := {
  minimumFeeUstx : Z;
  standardFeeUstx : Z;
  maximumFeeUstx : Z;
}.

Inductive FeeBasis := basis_estimate | basis_minimum | basis_standard_ceiling | basis_default.

Record FeeSelection := {
  feeUstx : Z;
  basis : FeeBasis;
  estimateUstx : option Z;
}.

(** What the policy reads of [LiveObservation<TransactionFeeObservation>]: whether the node
    answered, and its middle estimate. *)
Inductive FeeObservation := fee_observed (middleFeeUstx : Z) | fee_unobserved.

Definition min (left right : Z) : Z := if left <? right then left else right.

Definition selectTransactionFee (estimate : option FeeObservation)
    (policy : TransactionFeePolicy) : FeeSelection :=
  let ceiling := min (standardFeeUstx policy) (maximumFeeUstx policy) in
  let floor := min (minimumFeeUstx policy) ceiling in
  let middle := match estimate with Some (fee_observed m) => Some m | _ => None end in
  match middle with
  | None => {| feeUstx := floor; basis := basis_default; estimateUstx := None |}
  | Some m =>
      if m <=? 0 then {| feeUstx := floor; basis := basis_default; estimateUstx := None |}
      else if m >? ceiling
        then {| feeUstx := ceiling; basis := basis_standard_ceiling; estimateUstx := Some m |}
      else if m <? floor
        then {| feeUstx := floor; basis := basis_minimum; estimateUstx := Some m |}
      else {| feeUstx := m; basis := basis_estimate; estimateUstx := Some m |}
  end.

Lemma min_spec l r : min l r = Z.min l r.
Proof. unfold min; destruct (Z.ltb_spec l r); lia. Qed.

Definition ceilingOf (p : TransactionFeePolicy) : Z :=
  Z.min (standardFeeUstx p) (maximumFeeUstx p).
Definition floorOf (p : TransactionFeePolicy) : Z := Z.min (minimumFeeUstx p) (ceilingOf p).

(** The selected fee is the clamp of a usable estimate into the band. *)
Lemma selectTransactionFee_clamp e p :
  feeUstx (selectTransactionFee e p) =
  match e with
  | Some (fee_observed m) =>
      if m <=? 0 then floorOf p else Z.max (floorOf p) (Z.min m (ceilingOf p))
  | _ => floorOf p
  end.
Proof.
  unfold selectTransactionFee, floorOf, ceilingOf; rewrite !min_spec.
  destruct e as [[m|]|]; cbn; [|done|done].
  destruct (Z.leb_spec m 0); [done|]. rewrite Z.gtb_ltb.
  destruct (Z.ltb_spec (Z.min (standardFeeUstx p) (maximumFeeUstx p)) m); cbn; [lia|].
  destruct (Z.ltb_spec m (Z.min (minimumFeeUstx p)
    (Z.min (standardFeeUstx p) (maximumFeeUstx p)))); cbn; lia.
Qed.

(** Whatever the node estimates, the selected fee never exceeds the sealed cap or the
    standard ceiling, is never below the floor of the band (so an estimate spike or an
    estimate of zero cannot move it out), and is the node's own estimate whenever that lies
    in the band. *)
Theorem selected_fee_in_band e p :
  let fee := feeUstx (selectTransactionFee e p) in
  fee <= maximumFeeUstx p /\ fee <= standardFeeUstx p /\ floorOf p <= fee /\
  (forall m, e = Some (fee_observed m) -> 0 < m -> floorOf p <= m <= ceilingOf p ->
     selectTransactionFee e p =
       {| feeUstx := m; basis := basis_estimate; estimateUstx := Some m |}).
Proof.
  cbn zeta. rewrite selectTransactionFee_clamp. unfold floorOf, ceilingOf.
  repeat split.
  1-3: destruct e as [[m|]|]; try lia; destruct (m <=? 0); lia.
  intros m -> Hm [Hlo Hhi]. unfold selectTransactionFee; rewrite !min_spec.
  destruct (Z.leb_spec m 0); [lia|]. rewrite Z.gtb_ltb.
  destruct (Z.ltb_spec (Z.min (standardFeeUstx p) (maximumFeeUstx p)) m); [lia|].
  destruct (Z.ltb_spec m (Z.min (minimumFeeUstx p)
    (Z.min (standardFeeUstx p) (maximumFeeUstx p)))); [lia|done].
Qed.

Lemma selected_fee_in_band_witness :
  selectTransactionFee (Some (fee_observed 5000))
    {| minimumFeeUstx := 3000; standardFeeUstx := 300000; maximumFeeUstx := 500000 |}
  = {| feeUstx := 5000; basis := basis_estimate; estimateUstx := Some 5000 |}.
Proof.
  apply (selected_fee_in_band (Some (fee_observed 5000))
    {| minimumFeeUstx := 3000; standardFeeUstx := 300000; maximumFeeUstx := 500000 |});
    vm_compute; intuition congruence.
Defined.

Example fee_spike :
  selectTransactionFee (Some (fee_observed 8000000)) (Build_TransactionFeePolicy 3000 300000 500000)
  = {| feeUstx := 300000; basis := basis_standard_ceiling; estimateUstx := Some 8000000 |}.
Proof. reflexivity. Qed.

End Fee.
