(* ===== verification/Bonds.v ===== *)
(** * PoX-5 bond periods

    packages/protocol/src/pox5-bonds.ts.  Bond period [i] starts at reward cycle
    [first + i * BOND_GAP_CYCLES] and holds shares for [BOND_LENGTH_CYCLES] cycles;
    [bondPeriodsForRewardCycle] lists every period whose term contains a cycle.  The
    [for] loop over [index] runs on fuel [latest - start + 1], which is its trip count. *)

From S2P Require Import Prelude.

Definition BOND_LENGTH_CYCLES : Z := 12.
Definition BOND_GAP_CYCLES : Z := 2.
Definition MAX_BOND_PERIODS_PER_CYCLE : nat := 6.

(** The [Pox5BondError] messages. *)
Inductive Pox5BondError :=
  | bond_index_negative
  | first_bond_cycle_negative
  | reward_cycle_negative
  | too_many_bond_periods (derived : nat) (rewardCycle : Z).

Definition bondPeriodFirstRewardCycle (bondIndex firstBondPeriodCycle : Z)
    : result Pox5BondError Z :=
  if bondIndex <? 0 then Err bond_index_negative
  else if firstBondPeriodCycle <? 0 then Err first_bond_cycle_negative
  else Ok (firstBondPeriodCycle + bondIndex * BOND_GAP_CYCLES).

(** The body of [for (let index = ...; index <= latest; index += 1n)], [fuel] iterations. *)
Fixpoint bondPeriodsLoop (fuel : nat) (index latest rewardCycle firstBondPeriodCycle : Z)
    (periods : list Z) : result Pox5BondError (list Z) :=
  match fuel with
  | O => Ok periods
  | S fuel =>
      if index <=? latest then
        firstCycle ← bondPeriodFirstRewardCycle index firstBondPeriodCycle;
        let periods :=
          if (firstCycle <=? rewardCycle) && (rewardCycle <? firstCycle + BOND_LENGTH_CYCLES)
          then periods ++ [index] else periods in
        bondPeriodsLoop fuel (index + 1) latest rewardCycle firstBondPeriodCycle periods
      else Ok periods
  end.

Definition bondPeriodsForRewardCycle (rewardCycle firstBondPeriodCycle : Z)
    : result Pox5BondError (list Z) :=
  if rewardCycle <? 0 then Err reward_cycle_negative
  else if firstBondPeriodCycle <? 0 then Err first_bond_cycle_negative
  else if rewardCycle <? firstBondPeriodCycle then Ok []
  else
    let latest := Z.quot (rewardCycle - firstBondPeriodCycle) BOND_GAP_CYCLES in
    let start := if 5 <=? latest then latest - 5 else 0 in
    periods ← bondPeriodsLoop (Z.to_nat (latest - start + 1)) start latest
                rewardCycle firstBondPeriodCycle [];
    if bool_decide (MAX_BOND_PERIODS_PER_CYCLE < length periods)%nat
    then Err (too_many_bond_periods (length periods) rewardCycle)
    else Ok periods.

(** ** Specification *)

(** The contract's rule: period [i] can hold shares for cycle [c]. *)
Definition bond_active (first c i : Z) : Prop :=
  0 <= i /\ first + i * BOND_GAP_CYCLES <= c < first + i * BOND_GAP_CYCLES + BOND_LENGTH_CYCLES.

Definition interval (start : Z) (n : nat) : list Z := (fun k => start + Z.of_nat k) <$> seq 0 n.

Lemma interval_S start n : interval start (S n) = start :: interval (start + 1) n.
Proof.
  unfold interval; cbn [seq fmap list_fmap]. f_equal; [lia|].
  rewrite <- seq_shift, <- list_fmap_compose.
  apply list_fmap_ext; intros ? ? _; cbn; lia.
Qed.

Lemma elem_of_interval i start n :
  i ∈ interval start n <-> start <= i < start + Z.of_nat n.
Proof.
  unfold interval; rewrite list_elem_of_fmap; split.
  - intros (k & -> & Hk%elem_of_seq); lia.
  - intros H. exists (Z.to_nat (i - start)). split; [lia|]. apply elem_of_seq; lia.
Qed.

Lemma length_interval start n : length (interval start n) = n.
Proof. unfold interval. by rewrite length_fmap, length_seq. Qed.

Lemma interval_sorted start n : StronglySorted Z.lt (interval start n).
Proof.
  revert start; induction n as [|n IH]; intros start; [constructor|].
  rewrite interval_S; constructor; [apply IH|].
  apply Forall_forall; intros i Hi%elem_of_interval; lia.
Qed.

Definition in_term (c first i : Z) : bool :=
  (first + i * BOND_GAP_CYCLES <=? c) && (c <? first + i * BOND_GAP_CYCLES + BOND_LENGTH_CYCLES).

(** The loop collects the indices in term, in order: it never runs out of fuel. *)
Lemma bondPeriodsLoop_spec n start latest c first acc :
  0 <= start -> 0 <= first -> start + Z.of_nat n = latest + 1 ->
  bondPeriodsLoop n start latest c first acc =
  Ok (acc ++ List.filter (in_term c first) (interval start n)).
Proof.
  revert start acc; induction n as [|n IH]; intros start acc Hs Hf Hn; cbn [bondPeriodsLoop].
  - by rewrite app_nil_r.
  - destruct (Z.leb_spec start latest) as [_|]; [|lia].
    unfold bondPeriodFirstRewardCycle.
    destruct (Z.ltb_spec start 0) as [|_]; [lia|].
    destruct (Z.ltb_spec first 0) as [|_]; [lia|].
    cbn [mbind result_bind]. rewrite IH by lia.
    rewrite interval_S; cbn [List.filter]. unfold in_term at 2.
    destruct (_ && _); [by rewrite <- app_assoc | done].
Qed.

Lemma in_term_active c first i :
  0 <= i -> in_term c first i = true <-> bond_active first c i.
Proof.
  unfold in_term, bond_active; intros Hi.
  rewrite andb_true_iff, Z.leb_le, Z.ltb_lt. tauto.
Qed.

Lemma filter_length_le {A} (f : A -> bool) l : (length (List.filter f l) <= length l)%nat.
Proof. induction l as [|x l IH]; cbn; [lia|]; destruct (f x); cbn; lia. Qed.

Lemma filter_sorted {A} (R : A -> A -> Prop) (f : A -> bool) l :
  StronglySorted R l -> StronglySorted R (List.filter f l).
Proof.
  induction 1 as [|x l Hl IH Hx]; cbn; [constructor|].
  destruct (f x); [|done]. constructor; [done|].
  rewrite Forall_forall in Hx |- *. intros y Hy. apply Hx.
  apply list_elem_of_In. apply list_elem_of_In, filter_In in Hy. tauto.
Qed.

(** For a cycle and a first bond cycle that are not negative, the candidate set is
    computed without an error (in particular the "too many bond periods" error cannot be
    thrown), is strictly ascending, has at most six entries, and contains exactly the bond
    periods whose twelve-cycle term includes the cycle. *)
Theorem bondPeriods_exact c first :
  0 <= c -> 0 <= first ->
  exists periods, bondPeriodsForRewardCycle c first = Ok periods /\
    StronglySorted Z.lt periods /\
    (length periods <= MAX_BOND_PERIODS_PER_CYCLE)%nat /\
    forall i, i ∈ periods <-> bond_active first c i.
Proof.
  intros Hc Hf. unfold bondPeriodsForRewardCycle.
  destruct (Z.ltb_spec c 0) as [|_]; [lia|].
  destruct (Z.ltb_spec first 0) as [|_]; [lia|].
  destruct (Z.ltb_spec c first) as [Hlt|Hge].
  { exists []. split_and!; [done | apply SSorted_nil | cbn; lia |].
    intros i; split; [by intros ?%elem_of_nil|].
    unfold bond_active, BOND_GAP_CYCLES, BOND_LENGTH_CYCLES; lia. }
  cbv zeta. set (latest := Z.quot _ _).
  assert (Hl : 2 * latest <= c - first < 2 * latest + 2 /\ 0 <= latest).
  { unfold latest, BOND_GAP_CYCLES. rewrite Z.quot_div_nonneg by lia.
    pose proof (Z.div_mod (c - first) 2). pose proof (Z.mod_pos_bound (c - first) 2). lia. }
  set (start := if 5 <=? latest then latest - 5 else 0).
  assert (Hs : 0 <= start <= latest /\ latest - start <= 5 /\ (5 < latest -> start = latest - 5)).
  { unfold start; destruct (Z.leb_spec 5 latest); lia. }
  rewrite bondPeriodsLoop_spec by lia. cbn [mbind result_bind app].
  set (ps := List.filter _ _).
  assert (Hlen : (length ps <= 6)%nat).
  { unfold ps. etransitivity; [apply filter_length_le|]. rewrite length_interval. lia. }
  rewrite bool_decide_false by (unfold MAX_BOND_PERIODS_PER_CYCLE; lia).
  exists ps. split_and!; [done | apply filter_sorted, interval_sorted | done |].
  intros i; split.
  - intros Hi%list_elem_of_In%filter_In. destruct Hi as [Hi Ht].
    apply list_elem_of_In, elem_of_interval in Hi. apply in_term_active; [lia|done].
  - intros Ha. pose proof Ha as Ha'.
    unfold bond_active, BOND_GAP_CYCLES, BOND_LENGTH_CYCLES in Ha'.
    apply list_elem_of_In, filter_In; split; [|apply in_term_active; tauto].
    apply list_elem_of_In, elem_of_interval.
    assert (latest - 5 <= i <= latest) by lia.
    unfold start; destruct (Z.leb_spec 5 latest); lia.
Qed.

Lemma bondPeriods_exact_witness :
  exists periods, bondPeriodsForRewardCycle 23 4 = Ok periods /\
    StronglySorted Z.lt periods /\
    (length periods <= MAX_BOND_PERIODS_PER_CYCLE)%nat /\
    forall i, i ∈ periods <-> bond_active 4 23 i.
Proof. apply (bondPeriods_exact 23 4); lia. Defined.

Example bondPeriods_23_4 : bondPeriodsForRewardCycle 23 4 = Ok [4; 5; 6; 7; 8; 9].
Proof. reflexivity. Qed.
