(* ===== verification/Rewards.v ===== *)
(** * PoX-5 reward calculation

    packages/protocol/src/pox5-calculate-rewards.ts: the canonical bond order and the replay
    of the contract's [calculate-rewards] with its integer-operation order.  JavaScript
    [bigint] is unbounded, so the Clarity [uint] width is the explicit [checkedUint] guard of
    the source; [/] on [bigint] truncates ([Z.quot]).  The zod schemas are boolean checks
    whose failure is the [schema_error] result. *)

From S2P Require Import Prelude Bonds.

Definition POX5_REWARD_PRECISION : Z := 1000000000000000000.
Definition POX5_REWARD_RESERVE_RATIO_BIPS : Z := 1500.
Definition UINT128_MAX : Z := Z.shiftl 1 128 - 1.

(** What the thrown error names: the bond, when there is one, and the operation. *)
Record Label := label { label_bond : option Z; label_what : string }.

Inductive Pox5RewardSimulationError :=
  | schema_error
  | exceeds_uint_bounds (l : Label)
  | divides_by_zero (l : Label)
  | missing_simulation_state (bondIndex : Z).

Definition uint128Schema (v : Z) : bool := (0 <=? v) && (v <=? UINT128_MAX).

(** ** Canonical bond order *)

Record Pox5CalculationBond := {
  cb_bondIndex : Z;
  cb_targetRateBips : Z;
  cb_stxValueRatio : Z;
  cb_minUstxRatioBips : Z;
}.

Definition pox5CalculationBondSchema (b : Pox5CalculationBond) : bool :=
  uint128Schema (cb_bondIndex b) && uint128Schema (cb_targetRateBips b) &&
  uint128Schema (cb_stxValueRatio b) && uint128Schema (cb_minUstxRatioBips b).

(** The duplicate scan of [superRefine]: a [Set] of the indices seen so far. *)
Fixpoint no_duplicate_index (seen : gset Z) (l : list Z) : bool :=
  match l with
  | [] => true
  | i :: l' => negb (bool_decide (i ∈ seen)) && no_duplicate_index ({[i]} ∪ seen) l'
  end.

Definition pox5CalculationBondsSchema (bonds : list Pox5CalculationBond) : bool :=
  forallb pox5CalculationBondSchema bonds &&
  bool_decide (length bonds <= MAX_BOND_PERIODS_PER_CYCLE)%nat &&
  no_duplicate_index ∅ (cb_bondIndex <$> bonds).

(** [comparePox5CalculationBondOrder] reads only the ratio and the index of a bond. *)
Definition compareBondOrder (left right : Z * Z) : Z :=
  let '(leftRatio, leftIndex) := left in
  let '(rightRatio, rightIndex) := right in
  if negb (leftRatio =? rightRatio) then (if leftRatio >? rightRatio then -1 else 1)
  else if leftIndex =? rightIndex then 0
  else if leftIndex <? rightIndex then -1 else 1.

Definition comparePox5CalculationBondOrder (left right : Pox5CalculationBond) : Z :=
  compareBondOrder (cb_stxValueRatio left, cb_bondIndex left)
                   (cb_stxValueRatio right, cb_bondIndex right).

Definition orderPox5CalculationBonds (input : list Pox5CalculationBond)
    : result Pox5RewardSimulationError (list Pox5CalculationBond) :=
  if pox5CalculationBondsSchema input
  then Ok (js_sort comparePox5CalculationBondOrder input)
  else Err schema_error.

(** ** Checked arithmetic *)

Definition checkedUint (value : Z) (l : Label) : result Pox5RewardSimulationError Z :=
  if (value <? 0) || (value >? UINT128_MAX) then Err (exceeds_uint_bounds l) else Ok value.

Definition checkedAdd (left right : Z) (l : Label) := checkedUint (left + right) l.
Definition checkedMultiply (left right : Z) (l : Label) := checkedUint (left * right) l.

Definition integerDivide (numerator denominator : Z) (l : Label)
    : result Pox5RewardSimulationError Z :=
  if denominator =? 0 then Err (divides_by_zero l) else Ok (Z.quot numerator denominator).

(** ** The simulation *)

Record SimulationBond := {
  bondIndex : Z;
  targetRateBips : Z;
  stxValueRatio : Z;
  totalSharesSats : Z;
  currentRewardsPerSat : Z;
  managerSharesSats : option Z;
}.

Record Pox5RewardSimulationInput := {
  grossAccruedRewardsSats : Z;
  currentReserveBalanceSats : Z;
  cycleStakedUstx : Z;
  currentRewardsPerUstx : Z;
  managerStxSharesUstx : option Z;
  bonds : list SimulationBond;
}.

Definition optional_uint128 (o : option Z) : bool :=
  match o with Some v => uint128Schema v | None => true end.

Definition within (o : option Z) (total : Z) : bool :=
  match o with Some v => negb (v >? total) | None => true end.

Definition pox5RewardSimulationBondSchema (b : SimulationBond) : bool :=
  uint128Schema (bondIndex b) && uint128Schema (targetRateBips b) &&
  uint128Schema (stxValueRatio b) && uint128Schema (totalSharesSats b) &&
  uint128Schema (currentRewardsPerSat b) && optional_uint128 (managerSharesSats b) &&
  within (managerSharesSats b) (totalSharesSats b).

Definition pox5RewardSimulationInputSchema (i : Pox5RewardSimulationInput) : bool :=
  uint128Schema (grossAccruedRewardsSats i) && uint128Schema (currentReserveBalanceSats i) &&
  uint128Schema (cycleStakedUstx i) && uint128Schema (currentRewardsPerUstx i) &&
  optional_uint128 (managerStxSharesUstx i) &&
  forallb pox5RewardSimulationBondSchema (bonds i) &&
  bool_decide (length (bonds i) <= MAX_BOND_PERIODS_PER_CYCLE)%nat &&
  within (managerStxSharesUstx i) (cycleStakedUstx i).

Record SimulatedBond := {
  sb_bondIndex : Z;
  sb_targetYieldSats : Z;
  sb_bondRewardSats : Z;
  sb_bondStakedSats : Z;
  sb_accruedRewardsPerSat : Z;
  sb_cumulativeRewardsPerSat : Z;
  sb_managerSharesSats : option Z;
  sb_managerRewardSats : option Z;
}.

Record ManagerReward := {
  mr_stxRewardSats : Z;
  mr_bondRewardSats : Z;
  mr_grossRewardSats : Z;
}.

Record Pox5RewardSimulation := {
  r_grossAccruedRewardsSats : Z;
  r_totalBondRewardsSats : Z;
  r_remainingRewardsAfterBondsSats : Z;
  r_reserveDepositSats : Z;
  r_reserveBalanceSats : Z;
  r_totalStxStakerRewardsSats : Z;
  r_cycleStakedUstx : Z;
  r_accruedRewardsPerUstx : Z;
  r_cumulativeRewardsPerUstx : Z;
  r_accountedRewardsDeltaSats : Z;
  r_bonds : list SimulatedBond;
  r_manager : option ManagerReward;
}.

Definition compareSimulationBonds (left right : SimulationBond) : Z :=
  compareBondOrder (stxValueRatio left, bondIndex left) (stxValueRatio right, bondIndex right).

(** [new Map(input.bonds.map((bond) => [bond.bondIndex.toString(), bond]))]: a later bond
    with the same index replaces an earlier one. *)
Definition bondStateByIndex (l : list SimulationBond) : gmap Z SimulationBond :=
  fold_left (fun m b => <[bondIndex b := b]> m) l ∅.

(** One iteration of [for (const orderedBond of orderedBonds)]; the state is
    [availableRewards] and the [bonds] pushed so far. *)
Definition simulateBond (states : gmap Z SimulationBond) (st : Z * list SimulatedBond)
    (orderedBond : SimulationBond) : result Pox5RewardSimulationError (Z * list SimulatedBond) :=
  let '(availableRewards, pushed) := st in
  bond ← match states !! bondIndex orderedBond with
         | Some b => Ok b
         | None => Err (missing_simulation_state (bondIndex orderedBond))
         end;
  let lbl what := label (Some (bondIndex bond)) what in
  product ← checkedMultiply (totalSharesSats bond) (targetRateBips bond)
              (lbl "target-yield product");
  perYear ← integerDivide product 10000 (lbl "target-yield basis-points division");
  targetYieldSats ← integerDivide perYear 50 (lbl "target-yield distribution division");
  let bondRewardSats :=
    if availableRewards >=? targetYieldSats then targetYieldSats else availableRewards in
  accruedRewardsPerSat ←
    (if totalSharesSats bond =? 0 then Ok 0
     else p ← checkedMultiply bondRewardSats POX5_REWARD_PRECISION (lbl "rewards-per-sat product");
          integerDivide p (totalSharesSats bond) (lbl "rewards-per-sat division"));
  managerRewardSats ←
    match managerSharesSats bond with
    | None => Ok None
    | Some shares =>
        p ← checkedMultiply shares accruedRewardsPerSat (lbl "manager reward product");
        q ← integerDivide p POX5_REWARD_PRECISION (lbl "manager reward division");
        Ok (Some q)
    end;
  cumulative ← checkedAdd (currentRewardsPerSat bond) accruedRewardsPerSat
                 (lbl "cumulative rewards per sat");
  Ok (availableRewards - bondRewardSats,
      pushed ++ [{| sb_bondIndex := bondIndex bond;
                    sb_targetYieldSats := targetYieldSats;
                    sb_bondRewardSats := bondRewardSats;
                    sb_bondStakedSats := totalSharesSats bond;
                    sb_accruedRewardsPerSat := accruedRewardsPerSat;
                    sb_cumulativeRewardsPerSat := cumulative;
                    sb_managerSharesSats := managerSharesSats bond;
                    sb_managerRewardSats := managerRewardSats |}]).

Definition total_of (l : list (option Z)) : Z :=
  fold_left (fun total reward => total + default 0 reward) l 0.

Definition every_some (l : list (option Z)) : bool :=
  forallb (fun o => match o with Some _ => true | None => false end) l.

(** The [manager] field: present only when the STX shares and every bond share were given. *)
Definition managerReward (managerStxRewardSats : option Z) (managerBondRewards : list (option Z))
    : result Pox5RewardSimulationError (option ManagerReward) :=
  match managerStxRewardSats with
  | Some stx =>
      if every_some managerBondRewards then
        let bond := total_of managerBondRewards in
        gross ← checkedAdd stx bond (label None "manager gross reward");
        Ok (Some {| mr_stxRewardSats := stx; mr_bondRewardSats := bond;
                    mr_grossRewardSats := gross |})
      else Ok None
  | None => Ok None
  end.

Definition simulatePox5CalculateRewards (input : Pox5RewardSimulationInput)
    : result Pox5RewardSimulationError Pox5RewardSimulation :=
  _ ← require (pox5RewardSimulationInputSchema input) schema_error;
  let orderedBonds := js_sort compareSimulationBonds (bonds input) in
  let states := bondStateByIndex (bonds input) in
  st ← foldM_res (simulateBond states) (grossAccruedRewardsSats input, []) orderedBonds;
  let '(availableRewards, outBonds) := st in
  cut ← checkedMultiply availableRewards POX5_REWARD_RESERVE_RATIO_BIPS
          (label None "reserve-cut product");
  reserveDepositBaseSats ← integerDivide cut 10000 (label None "reserve-cut division");
  let totalStxStakerRewardsSats := availableRewards - reserveDepositBaseSats in
  let noStxStakers := cycleStakedUstx input =? 0 in
  accruedRewardsPerUstx ←
    (if noStxStakers then Ok 0
     else p ← checkedMultiply totalStxStakerRewardsSats POX5_REWARD_PRECISION
                (label None "STX rewards-per-ustx product");
          integerDivide p (cycleStakedUstx input) (label None "STX rewards-per-ustx division"));
  reserveDepositSats ←
    (if noStxStakers
     then checkedAdd reserveDepositBaseSats totalStxStakerRewardsSats
            (label None "unallocated STX reserve deposit")
     else Ok reserveDepositBaseSats);
  managerStxRewardSats ←
    match managerStxSharesUstx input with
    | None => Ok None
    | Some shares =>
        p ← checkedMultiply shares accruedRewardsPerUstx (label None "manager STX reward product");
        q ← integerDivide p POX5_REWARD_PRECISION (label None "manager STX reward division");
        Ok (Some q)
    end;
  manager ← managerReward managerStxRewardSats (sb_managerRewardSats <$> outBonds);
  reserveBalanceSats ← checkedAdd (currentReserveBalanceSats input) reserveDepositSats
                         (label None "reserve balance");
  cumulativeRewardsPerUstx ← checkedAdd (currentRewardsPerUstx input) accruedRewardsPerUstx
                               (label None "cumulative rewards per ustx");
  Ok {| r_grossAccruedRewardsSats := grossAccruedRewardsSats input;
        r_totalBondRewardsSats := grossAccruedRewardsSats input - availableRewards;
        r_remainingRewardsAfterBondsSats := availableRewards;
        r_reserveDepositSats := reserveDepositSats;
        r_reserveBalanceSats := reserveBalanceSats;
        r_totalStxStakerRewardsSats := totalStxStakerRewardsSats;
        r_cycleStakedUstx := cycleStakedUstx input;
        r_accruedRewardsPerUstx := accruedRewardsPerUstx;
        r_cumulativeRewardsPerUstx := cumulativeRewardsPerUstx;
        r_accountedRewardsDeltaSats := grossAccruedRewardsSats input - reserveDepositSats;
        r_bonds := outBonds;
        r_manager := manager |}.

(** ** Lemmas on the order *)

Section order.
Lemma compareBondOrder_anti x y : compareBondOrder x y < 0 <-> 0 < compareBondOrder y x.
  Proof.
    destruct x as [r i], y as [s j]; unfold compareBondOrder.
    rewrite (Z.eqb_sym s r), (Z.eqb_sym j i), !Z.gtb_ltb.
    destruct (Z.eqb_spec r s); cbn [negb].
    - destruct (Z.eqb_spec i j); [lia|]. destruct (Z.ltb_spec i j), (Z.ltb_spec j i); lia.
    - destruct (Z.ltb_spec s r), (Z.ltb_spec r s); lia.
  Qed.

Lemma compareBondOrder_le x y :
    compareBondOrder x y <= 0 <-> snd x = snd y /\ fst x = fst y \/ fst y < fst x \/
                                  fst x = fst y /\ snd x < snd y.
  Proof.
    destruct x as [r i], y as [s j]; unfold compareBondOrder; cbn [fst snd].
    rewrite Z.gtb_ltb.
    destruct (Z.eqb_spec r s); cbn [negb].
    - destruct (Z.eqb_spec i j); [lia|]. destruct (Z.ltb_spec i j); lia.
    - destruct (Z.ltb_spec s r); lia.
  Qed.

Lemma compareBondOrder_trans x y z :
    compareBondOrder x y <= 0 -> compareBondOrder y z <= 0 -> compareBondOrder x z <= 0.
  Proof. rewrite !compareBondOrder_le. lia. Qed.

Lemma compareBondOrder_tie x y :
    compareBondOrder x y <= 0 -> compareBondOrder y x <= 0 -> x = y.
  Proof. destruct x, y; rewrite !compareBondOrder_le; cbn; intros; f_equal; lia. Qed.
End order.

(** Sorting by the comparator sorts by descending ratio, then ascending index. *)
Lemma canonical_sorted {A} (key : A -> Z * Z) (l : list A) :
  StronglySorted (fun a b => fst (key b) < fst (key a) \/
    fst (key a) = fst (key b) /\ snd (key a) <= snd (key b))
    (js_sort (fun a b => compareBondOrder (key a) (key b)) l).
Proof.
  pose proof (js_sort_sorted (fun a b => compareBondOrder (key a) (key b))
    (fun x y => compareBondOrder_anti _ _) (fun x y z => compareBondOrder_trans _ _ _) l) as S.
  induction S as [|b k _ IH Hk]; [constructor|].
  constructor; [exact IH|]. eapply Forall_impl; [exact Hk|].
  intros c Hc. apply compareBondOrder_le in Hc. lia.
Qed.

Lemma no_duplicate_index_NoDup seen l :
  no_duplicate_index seen l = true <-> NoDup l /\ forall i, i ∈ l -> i ∉ seen.
Proof.
  revert seen; induction l as [|i l IH]; intros seen; cbn.
  - split; [|done]. intros _; split; [constructor|]. by intros i ?%elem_of_nil.
  - rewrite andb_true_iff, negb_true_iff, bool_decide_eq_false, IH, NoDup_cons.
    split.
    + intros (Hi & Hnd & Hl). repeat split.
      * intros Hin; apply (Hl i Hin), elem_of_union; left; by apply elem_of_singleton.
      * done.
      * intros j [->|Hj]%elem_of_cons; [done|].
        intros Hs; apply (Hl j Hj), elem_of_union; by right.
    + intros ((Hi & Hnd) & Hl). repeat split; [apply Hl; constructor | done |].
      intros j Hj [->%elem_of_singleton|Hs]%elem_of_union; [done|].
      eapply Hl; [by constructor | exact Hs].
Qed.

(** The canonical order is accepted exactly for sets of at most six bonds with in-range
    fields and pairwise distinct indices; it is a permutation of the input sorted by
    descending STX-value ratio and ascending index, and it does not depend on the order in
    which the bonds were read: any two listings of the same bonds give the same encoding. *)
Theorem orderPox5CalculationBonds_canonical input input' out :
  orderPox5CalculationBonds input = Ok out -> Permutation input input' ->
  Permutation out input /\
  StronglySorted (fun a b => cb_stxValueRatio b < cb_stxValueRatio a \/
    cb_stxValueRatio a = cb_stxValueRatio b /\ cb_bondIndex a <= cb_bondIndex b) out /\
  orderPox5CalculationBonds input' = Ok out.
Proof.
  unfold orderPox5CalculationBonds.
  destruct (pox5CalculationBondsSchema input) eqn:Hs; [|done].
  intros [= <-] Hp.
  assert (Hs' : pox5CalculationBondsSchema input' = true).
  { unfold pox5CalculationBondsSchema in *; breflect.
    rewrite !andb_true_iff, bool_decide_eq_true. repeat split.
    - rewrite forallb_forall in *. intros b Hb. apply H.
      by apply (Permutation_in _ (Permutation_sym Hp)).
    - by rewrite <- (Permutation_length Hp).
    - rewrite no_duplicate_index_NoDup in *. rewrite <- Hp.
      split; [tauto|]. intros i _. apply not_elem_of_empty. }
  rewrite Hs'.
  pose proof (js_sort_perm comparePox5CalculationBondOrder input) as P1.
  pose proof (js_sort_perm comparePox5CalculationBondOrder input') as P2.
  assert (S : forall l, StronglySorted (cmp_le comparePox5CalculationBondOrder)
                (js_sort comparePox5CalculationBondOrder l)).
  { intros l; apply js_sort_sorted.
    - intros x y; apply compareBondOrder_anti.
    - intros x y z; apply compareBondOrder_trans. }
  split; [done|]. split.
  - apply (canonical_sorted (fun b => (cb_stxValueRatio b, cb_bondIndex b)) input).
  - f_equal. symmetry. apply (StronglySorted_perm_unique (cmp_le comparePox5CalculationBondOrder));
      [| apply S | apply S |].
    + intros x y Hx Hy Hxy Hyx.
      unfold pox5CalculationBondsSchema in Hs; breflect.
      match goal with H : no_duplicate_index _ _ = true |- _ =>
        apply no_duplicate_index_NoDup in H as [Hnd _] end.
      pose proof (compareBondOrder_tie _ _ Hxy Hyx) as [= Heq Hix].
      apply elem_of_js_sort, list_elem_of_lookup in Hx as [i Hi], Hy as [j Hj].
      assert (i = j) as ->; [|congruence].
      eapply (NoDup_lookup _ i j (cb_bondIndex x) Hnd);
        rewrite list_lookup_fmap; [rewrite Hi | rewrite Hj]; cbn; congruence.
    + by rewrite P1, P2.
Qed.

Definition bond_a : Pox5CalculationBond :=
  {| cb_bondIndex := 4; cb_targetRateBips := 500; cb_stxValueRatio := 20; cb_minUstxRatioBips := 1 |}.
Definition bond_b : Pox5CalculationBond :=
  {| cb_bondIndex := 7; cb_targetRateBips := 500; cb_stxValueRatio := 30; cb_minUstxRatioBips := 1 |}.

Lemma orderPox5CalculationBonds_canonical_witness :
  orderPox5CalculationBonds [bond_b; bond_a] = Ok [bond_b; bond_a].
Proof.
  apply (orderPox5CalculationBonds_canonical [bond_a; bond_b] [bond_b; bond_a]);
    [vm_compute; reflexivity | apply Permutation_swap].
Defined.

(** ** Lemmas on the simulation *)

Lemma checkedUint_Ok v l w : checkedUint v l = Ok w <-> w = v /\ 0 <= v <= UINT128_MAX.
Proof.
  unfold checkedUint. rewrite Z.gtb_ltb.
  destruct (Z.ltb_spec v 0), (Z.ltb_spec UINT128_MAX v); cbn;
    split; intros H'; try injection H' as <-; try discriminate; try lia; f_equal; lia.
Qed.

Lemma integerDivide_Ok n d l w : integerDivide n d l = Ok w <-> d <> 0 /\ w = Z.quot n d.
Proof.
  unfold integerDivide. destruct (Z.eqb_spec d 0); split; intros H';
    try injection H' as <-; try discriminate; try tauto. destruct H'; congruence.
Qed.

Lemma quot_bounds a b : 0 <= a -> 0 < b -> 0 <= Z.quot a b /\ b * Z.quot a b <= a < b * (Z.quot a b + 1).
Proof.
  intros Ha Hb. rewrite Z.quot_div_nonneg by lia.
  pose proof (Z.div_mod a b). pose proof (Z.mod_pos_bound a b).
  pose proof (Z.div_pos a b). lia.
Qed.

Lemma precision_pos : 0 < POX5_REWARD_PRECISION.
Proof. reflexivity. Qed.

(** A share of a per-token rate never exceeds the reward the rate was computed from. *)
Lemma share_of_rate_le shares total reward :
  0 <= shares <= total -> 0 < total -> 0 <= reward ->
  0 <= Z.quot (shares * Z.quot (reward * POX5_REWARD_PRECISION) total) POX5_REWARD_PRECISION <= reward.
Proof.
  intros Hs Ht Hr. pose proof precision_pos as HP.
  set (P := POX5_REWARD_PRECISION) in *. clearbody P.
  destruct (quot_bounds (reward * P) total) as [Ha Hb]; [nia|lia|].
  set (rate := Z.quot (reward * P) total) in *. clearbody rate.
  destruct (quot_bounds (shares * rate) P) as [Hc Hd]; [nia|lia|].
  split; [done|]. assert (shares * rate <= reward * P) by nia. nia.
Qed.

Definition schema_bond_facts (b : SimulationBond) : Prop :=
  0 <= targetRateBips b /\ 0 <= totalSharesSats b /\ 0 <= currentRewardsPerSat b /\
  forall s, managerSharesSats b = Some s -> 0 <= s <= totalSharesSats b.

Lemma bond_schema_facts b : pox5RewardSimulationBondSchema b = true -> schema_bond_facts b.
Proof.
  unfold pox5RewardSimulationBondSchema, uint128Schema, schema_bond_facts; intros H; breflect.
  split_and!; [lia..|]. intros s Hs. rewrite Hs in *.
  cbn [optional_uint128 within] in *; unfold uint128Schema in *; breflect; lia.
Qed.

(** What one iteration computes: the reward is the minimum of the target and the available
    rewards, and the manager's part of it is within it. *)
Definition bond_outcome (available : Z) (sb : SimulatedBond) : Prop :=
  0 <= sb_targetYieldSats sb /\
    sb_bondRewardSats sb = Z.min available (sb_targetYieldSats sb) /\
    (forall m, sb_managerRewardSats sb = Some m -> 0 <= m <= sb_bondRewardSats sb) /\
  (forall s, sb_managerSharesSats sb = Some s -> exists m, sb_managerRewardSats sb = Some m).

(** The per-token rate of a pot: zero when nothing is staked, the floor of the scaled
    quotient otherwise. *)
Definition rate_of (reward total : Z) : Z :=
  if total =? 0 then 0 else Z.quot (reward * POX5_REWARD_PRECISION) total.

Lemma rate_step_Ok reward total l1 l2 rate :
  (if total =? 0 then Ok 0
   else p ← checkedMultiply reward POX5_REWARD_PRECISION l1; integerDivide p total l2) = Ok rate ->
  rate = rate_of reward total.
Proof.
  unfold rate_of. destruct (Z.eqb_spec total 0); intros H; inv_ok H; [done|].
  apply checkedUint_Ok in Hstep as [-> _]. by apply integerDivide_Ok in H as [_ ->].
Qed.

Lemma manager_step_Ok shares total reward l1 l2 mr :
  0 <= total -> 0 <= reward -> (forall s, shares = Some s -> 0 <= s <= total) ->
  match shares with
  | None => Ok None
  | Some s => p ← checkedMultiply s (rate_of reward total) l1;
              q ← integerDivide p POX5_REWARD_PRECISION l2; Ok (Some q)
  end = Ok mr ->
  (forall m, mr = Some m -> 0 <= m <= reward /\ (total = 0 -> m = 0)) /\
  (forall s, shares = Some s -> exists m, mr = Some m).
Proof.
  intros Ht Hr Hs H. destruct shares as [s|]; inv_ok H; [|by subst mr].
  apply checkedUint_Ok in Hstep as [-> _].
  apply integerDivide_Ok in Hstep0 as [_ ->]. subst mr.
  split; [|eauto]. intros m [= <-]. specialize (Hs s eq_refl).
  unfold rate_of. destruct (Z.eqb_spec total 0).
  - rewrite Z.mul_0_r, Z.quot_0_l by done. lia.
  - pose proof (share_of_rate_le s total reward). lia.
Qed.

Lemma simulateBond_Ok states a out b a' out' :
  map_Forall (fun _ b => schema_bond_facts b) states -> 0 <= a ->
  simulateBond states (a, out) b = Ok (a', out') ->
  exists sb, out' = out ++ [sb] /\ bond_outcome a sb /\ a' = a - sb_bondRewardSats sb /\
    exists st, states !! bondIndex b = Some st /\ sb_bondIndex sb = bondIndex st /\
    sb_targetYieldSats sb =
        Z.quot (Z.quot (totalSharesSats st * targetRateBips st) 10000) 50 /\
    sb_bondStakedSats sb = totalSharesSats st /\
    sb_managerSharesSats sb = managerSharesSats st.
Proof.
  intros Hst Ha H. unfold simulateBond in H.
  destruct (states !! bondIndex b) as [st|] eqn:Hl; [|done].
  destruct (Hst _ _ Hl) as (Hr & Ht & Hc & Hm).
  inv_ok H.
  apply checkedUint_Ok in Hstep as [-> Hprod].
  apply integerDivide_Ok in Hstep0 as [_ ->].
  apply integerDivide_Ok in Hstep1 as [_ ->].
  assert (Htgt : 0 <= Z.quot (Z.quot (totalSharesSats st * targetRateBips st) 10000) 50).
  { apply Z.quot_pos; [|lia]. apply Z.quot_pos; lia. }
  set (tgt := Z.quot (Z.quot _ 10000) 50) in *.
  set (reward := if a >=? tgt then tgt else a) in *.
  assert (Hrw : reward = Z.min a tgt).
  { unfold reward; rewrite Z.geb_leb; destruct (Z.leb_spec tgt a); lia. }
  apply rate_step_Ok in Hstep2 as ->.
  apply (manager_step_Ok (managerSharesSats st) (totalSharesSats st) reward) in Hstep3
    as [Hm1 Hm2]; [|lia|lia|done].
  subst a' out'. eexists; split; [reflexivity|].
  unfold bond_outcome; cbn.
  split_and!; [lia | done | intros m Hm'; by apply Hm1 | done | done |].
  exists st; split_and!; done.
Qed.

(** The bonds are paid one after the other from what the earlier ones left. *)
Inductive paid_from : Z -> list SimulatedBond -> Z -> Prop :=
  | paid_nil a : paid_from a [] a
  | paid_cons a sb l a' :
      bond_outcome a sb -> paid_from (a - sb_bondRewardSats sb) l a' ->
      paid_from a (sb :: l) a'.

Definition sumZ (l : list Z) : Z := fold_right Z.add 0 l.

Lemma sumZ_cons x l : sumZ (x :: l) = x + sumZ l.
Proof. done. Qed.

Lemma paid_from_total a l a' :
  0 <= a -> paid_from a l a' ->
  0 <= a' /\ a = sumZ (sb_bondRewardSats <$> l) + a' /\
  Forall (fun sb => 0 <= sb_bondRewardSats sb <= sb_targetYieldSats sb) l.
Proof.
  intros Ha H; induction H as [a|a sb l a' (Ht & Hr & _) _ IH].
  { split_and!; [lia | cbn; lia | constructor]. }
  destruct IH as (H1 & H2 & H3); [lia|]. split_and!; [done | rewrite fmap_cons, sumZ_cons; lia|].
  constructor; [lia|done].
Qed.

Lemma foldM_simulateBond_Ok states l a out a' out' :
  map_Forall (fun _ b => schema_bond_facts b) states -> 0 <= a ->
  foldM_res (simulateBond states) (a, out) l = Ok (a', out') ->
  exists new, out' = out ++ new /\ paid_from a new a' /\
    Forall2 (fun b sb => exists st, states !! bondIndex b = Some st /\
      sb_bondIndex sb = bondIndex st /\ sb_bondStakedSats sb = totalSharesSats st /\
      sb_managerSharesSats sb = managerSharesSats st) l new.
Proof.
  revert a out; induction l as [|b l IH]; intros a out Hst Ha; cbn [foldM_res].
  - intros [= <- <-]. exists []. rewrite app_nil_r. split_and!; constructor.
  - intros H; inv_ok H. destruct v as [a1 out1].
    apply simulateBond_Ok in Hstep as (sb & -> & Hsb & -> & st & ? & ? & ? & ? & ?); [|done..].
    assert (0 <= a - sb_bondRewardSats sb) by (destruct Hsb as (? & ? & _); lia).
    apply IH in H as (new & -> & Hp & Hf); [|done..].
    exists (sb :: new). split_and!; [by rewrite <- app_assoc | by constructor |].
    constructor; [by exists st | done].
Qed.

Lemma bondStateByIndex_Forall (P : Z -> SimulationBond -> Prop) l :
  Forall (fun b => P (bondIndex b) b) l -> map_Forall P (bondStateByIndex l).
Proof.
  unfold bondStateByIndex.
  assert (H : forall m : gmap Z SimulationBond, map_Forall P m ->
    Forall (fun b => P (bondIndex b) b) l ->
    map_Forall P (fold_left (fun m b => <[bondIndex b := b]> m) l m)).
  { induction l as [|b l IH]; intros m Hm Hl; cbn; [done|].
    inversion Hl; subst. apply IH; [|done]. by apply map_Forall_insert_2. }
  apply H, map_Forall_empty.
Qed.

Lemma bondStateByIndex_key l k b : bondStateByIndex l !! k = Some b -> bondIndex b = k.
Proof.
  apply (bondStateByIndex_Forall (fun k b => bondIndex b = k)).
  by apply Forall_forall.
Qed.

Definition schema_input_facts (i : Pox5RewardSimulationInput) : Prop :=
  0 <= grossAccruedRewardsSats i /\ 0 <= cycleStakedUstx i /\
  Forall schema_bond_facts (bonds i) /\
  forall s, managerStxSharesUstx i = Some s -> 0 <= s <= cycleStakedUstx i.

Lemma input_schema_facts i : pox5RewardSimulationInputSchema i = true -> schema_input_facts i.
Proof.
  unfold pox5RewardSimulationInputSchema, uint128Schema; intros H; breflect.
  unfold schema_input_facts; split_and!; [lia | lia | |].
  - apply Forall_forall; intros b Hb. apply bond_schema_facts.
    match goal with H : forallb _ _ = true |- _ => rewrite forallb_forall in H; apply H end.
    by apply list_elem_of_In.
  - intros s Hs. rewrite Hs in *.
    cbn [optional_uint128 within] in *; unfold uint128Schema in *; breflect; lia.
Qed.

(** The outcome of a successful simulation, in the terms of the contract. *)
Record simulation_facts (i : Pox5RewardSimulationInput) (r : Pox5RewardSimulation) : Prop := {
  sf_paid : paid_from (grossAccruedRewardsSats i) (r_bonds r) (r_remainingRewardsAfterBondsSats r);
  sf_gross : r_grossAccruedRewardsSats r = grossAccruedRewardsSats i;
  sf_total : r_totalBondRewardsSats r =
    grossAccruedRewardsSats i - r_remainingRewardsAfterBondsSats r;
  sf_stx : r_totalStxStakerRewardsSats r = r_remainingRewardsAfterBondsSats r -
    Z.quot (r_remainingRewardsAfterBondsSats r * POX5_REWARD_RESERVE_RATIO_BIPS) 10000;
  sf_reserve : r_reserveDepositSats r =
    if cycleStakedUstx i =? 0 then r_remainingRewardsAfterBondsSats r
    else r_remainingRewardsAfterBondsSats r - r_totalStxStakerRewardsSats r;
  sf_balance : r_reserveBalanceSats r = currentReserveBalanceSats i + r_reserveDepositSats r;
  sf_rate : r_accruedRewardsPerUstx r =
    rate_of (r_totalStxStakerRewardsSats r) (cycleStakedUstx i);
  sf_cumulative : r_cumulativeRewardsPerUstx r =
    currentRewardsPerUstx i + r_accruedRewardsPerUstx r;
  sf_delta : r_accountedRewardsDeltaSats r = grossAccruedRewardsSats i - r_reserveDepositSats r;
  sf_manager : forall m, r_manager r = Some m ->
    0 <= mr_stxRewardSats m <= r_totalStxStakerRewardsSats r /\
    (cycleStakedUstx i = 0 -> mr_stxRewardSats m = 0) /\
    mr_bondRewardSats m = sumZ (default 0 ∘ sb_managerRewardSats <$> r_bonds r) /\
    mr_grossRewardSats m = mr_stxRewardSats m + mr_bondRewardSats m;
  sf_order : Forall2 (fun b sb => sb_bondIndex sb = bondIndex b)
    (js_sort compareSimulationBonds (bonds i)) (r_bonds r);
}.

Lemma total_of_sumZ l : total_of l = sumZ (default 0 <$> l).
Proof.
  unfold total_of, sumZ.
  assert (H : forall acc, fold_left (fun total reward => total + default 0 reward) l acc =
                     acc + fold_right Z.add 0 (default 0 <$> l)).
  { induction l as [|o l IH]; intros acc; cbn; [lia|]. rewrite IH; cbn. lia. }
  rewrite H; lia.
Qed.

Lemma managerReward_Ok stx bonds m :
  managerReward stx bonds = Ok (Some m) ->
  stx = Some (mr_stxRewardSats m) /\ mr_bondRewardSats m = sumZ (default 0 <$> bonds) /\
  mr_grossRewardSats m = mr_stxRewardSats m + mr_bondRewardSats m.
Proof.
  unfold managerReward. destruct stx as [s|]; [|done].
  destruct (every_some bonds); [|done]. intros H; inv_ok H.
  apply checkedUint_Ok in Hstep as [-> _]. subst m. cbn.
  by rewrite total_of_sumZ.
Qed.

Lemma simulate_facts i r :
  simulatePox5CalculateRewards i = Ok r -> simulation_facts i r.
Proof.
  intros H; unfold simulatePox5CalculateRewards in H; inv_ok H.
  apply input_schema_facts in Hstep as (Hg & Hc & Hb & Hm).
  destruct v0 as [avail out]. inv_ok H.
  apply checkedUint_Ok in Hstep as [-> _].
  apply integerDivide_Ok in Hstep1 as [_ ->].
  apply rate_step_Ok in Hstep2 as ->.
  apply checkedUint_Ok in Hstep6 as [-> _], Hstep7 as [-> _].
  apply foldM_simulateBond_Ok in Hstep0 as (new & Hout & Hpaid & Hf);
    [|by apply (bondStateByIndex_Forall (fun _ b => schema_bond_facts b)) | done].
  cbn [app] in Hout; subst new.
  destruct (paid_from_total _ _ _ Hg Hpaid) as (Hav & _ & _).
  set (base := Z.quot (avail * _) 10000) in *.
  assert (Hbase : 0 <= base <= avail).
  { unfold base, POX5_REWARD_RESERVE_RATIO_BIPS.
    destruct (quot_bounds (avail * 1500) 10000); lia. }
  assert (Hv3 : v3 = if cycleStakedUstx i =? 0 then avail else base).
  { destruct (cycleStakedUstx i =? 0); inv_ok Hstep3; [|done].
    apply checkedUint_Ok in Hstep3 as [-> _]. lia. }
  subst r. constructor; cbn; try done.
  - rewrite Hv3. destruct (cycleStakedUstx i =? 0); lia.
  - intros m ->. apply managerReward_Ok in Hstep5 as (-> & Hb' & Hgr).
    apply (manager_step_Ok (managerStxSharesUstx i) (cycleStakedUstx i) (avail - base))
      in Hstep4 as [Hm1 _]; [|lia..|done].
    destruct (Hm1 _ eq_refl). split_and!; [lia..| |done].
    by rewrite Hb', <- list_fmap_compose.
  - eapply Forall2_impl; [exact Hf|]. intros b sb (st & Hst & -> & _).
    by apply bondStateByIndex_key in Hst.
Qed.

#[export] Hint Resolve simulate_facts : sidekick.

Lemma manager_bonds_bound a l a' :
  paid_from a l a' -> 0 <= a ->
  0 <= sumZ (default 0 ∘ sb_managerRewardSats <$> l) <= sumZ (sb_bondRewardSats <$> l).
Proof.
  induction 1 as [a|a sb l a' (Ht & Hr & Hm & _) _ IH]; intros Ha; [cbn; lia|].
  rewrite !fmap_cons, !sumZ_cons. cbn [compose].
  destruct (sb_managerRewardSats sb) as [m|] eqn:E; cbn [default from_option id];
    [specialize (Hm m eq_refl)|]; lia.
Qed.

(** The pots of a successful simulation are within the accrual. *)
Lemma simulation_pots i r : simulatePox5CalculateRewards i = Ok r ->
  0 <= grossAccruedRewardsSats i /\ 0 <= r_remainingRewardsAfterBondsSats r /\
  grossAccruedRewardsSats i = sumZ (sb_bondRewardSats <$> r_bonds r) + r_remainingRewardsAfterBondsSats r /\
  Forall (fun sb => 0 <= sb_bondRewardSats sb <= sb_targetYieldSats sb) (r_bonds r) /\
  0 <= r_totalStxStakerRewardsSats r <= r_remainingRewardsAfterBondsSats r.
Proof.
  intros H. pose proof (simulate_facts _ _ H) as [Hpaid _ _ Hs _ _ _ _ _ _ _].
  assert (Hgross : 0 <= grossAccruedRewardsSats i).
  { unfold simulatePox5CalculateRewards in H; inv_ok H.
    by apply input_schema_facts in Hstep as (? & _). }
  destruct (paid_from_total _ _ _ Hgross Hpaid) as (Hav & Hsum & Hall).
  split_and!; try done; rewrite Hs; unfold POX5_REWARD_RESERVE_RATIO_BIPS;
    destruct (quot_bounds (r_remainingRewardsAfterBondsSats r * 1500) 10000); lia.
Qed.

(** The manager's projected reward is within what the simulation pays out. *)
Lemma manager_within_accounted i r m :
  simulatePox5CalculateRewards i = Ok r -> r_manager r = Some m ->
  0 <= mr_grossRewardSats m <= r_accountedRewardsDeltaSats r /\ 0 <= r_reserveDepositSats r.
Proof.
  intros H Hm. destruct (simulation_pots _ _ H) as (Hg & Hav & Hsum & _ & Hstx).
  apply simulate_facts in H as [Hpaid _ _ _ Hres _ _ _ Hd Hf _].
  destruct (Hf m Hm) as (Hm1 & Hm0 & Hm2 & Hm3).
  pose proof (manager_bonds_bound _ _ _ Hpaid Hg) as Hmb. rewrite Hd, Hres.
  destruct (Z.eqb_spec (cycleStakedUstx i) 0) as [E|E]; [specialize (Hm0 E)|]; lia.
Qed.

(** C39. Value is conserved by the simulated distribution: the gross accrual splits exactly
    into the bond rewards, the reserve deposit and, when somebody stakes STX, the STX-staker
    pot; the bond total is the sum of the per-bond rewards, no bond gets more than its
    target yield, nothing is negative, the reserve balance and the accounted delta move by
    exactly these amounts, and the manager's projected reward never exceeds what is paid. *)
Theorem simulation_conserves i r :
  simulatePox5CalculateRewards i = Ok r ->
  grossAccruedRewardsSats i = r_totalBondRewardsSats r + r_reserveDepositSats r +
    (if cycleStakedUstx i =? 0 then 0 else r_totalStxStakerRewardsSats r) /\
  r_totalBondRewardsSats r = sumZ (sb_bondRewardSats <$> r_bonds r) /\
  Forall (fun sb => 0 <= sb_bondRewardSats sb <= sb_targetYieldSats sb) (r_bonds r) /\
  0 <= r_reserveDepositSats r /\ 0 <= r_totalStxStakerRewardsSats r /\
  r_reserveBalanceSats r = currentReserveBalanceSats i + r_reserveDepositSats r /\
  r_accountedRewardsDeltaSats r = grossAccruedRewardsSats i - r_reserveDepositSats r /\
  (forall m, r_manager r = Some m ->
     0 <= mr_grossRewardSats m <= r_accountedRewardsDeltaSats r).
Proof.
  intros H. destruct (simulation_pots _ _ H) as (Hg & Hav & Hsum & Hall & Hstx).
  pose proof (fun m Hm => proj1 (manager_within_accounted _ _ m H Hm)) as Hmax.
  apply simulate_facts in H as [_ _ Ht _ Hres Hbal _ _ Hd _ _].
  split_and!; try lia; try done; rewrite Hres; destruct (cycleStakedUstx i =? 0); lia.
Qed.

Definition sim_example : Pox5RewardSimulationInput :=
  {| grossAccruedRewardsSats := 1000; currentReserveBalanceSats := 10;
     cycleStakedUstx := 3000000; currentRewardsPerUstx := 0;
     managerStxSharesUstx := Some 1000000;
     bonds := [ {| bondIndex := 4; targetRateBips := 5000; stxValueRatio := 20;
                   totalSharesSats := 50000; currentRewardsPerSat := 0;
                   managerSharesSats := Some 25000 |};
                {| bondIndex := 7; targetRateBips := 10000; stxValueRatio := 30;
                   totalSharesSats := 10000; currentRewardsPerSat := 0;
                   managerSharesSats := Some 10000 |} ] |}.

Definition sim_result : Pox5RewardSimulation :=
  Eval vm_compute in match simulatePox5CalculateRewards sim_example with
                     | Ok r => r
                     | Err _ => {| r_grossAccruedRewardsSats := 0; r_totalBondRewardsSats := 0;
                         r_remainingRewardsAfterBondsSats := 0; r_reserveDepositSats := 0;
                         r_reserveBalanceSats := 0; r_totalStxStakerRewardsSats := 0;
                         r_cycleStakedUstx := 0; r_accruedRewardsPerUstx := 0;
                         r_cumulativeRewardsPerUstx := 0; r_accountedRewardsDeltaSats := 0;
                         r_bonds := []; r_manager := None |}
                     end.

Lemma simulation_conserves_witness :
  simulatePox5CalculateRewards sim_example = Ok sim_result /\
  1000 = r_totalBondRewardsSats sim_result + r_reserveDepositSats sim_result +
    r_totalStxStakerRewardsSats sim_result.
Proof.
  assert (H : simulatePox5CalculateRewards sim_example = Ok sim_result)
    by (vm_compute; reflexivity).
  split; [exact H|]. apply (simulation_conserves sim_example sim_result H).
Defined.

(** ** Priority *)

Lemma paid_from_app_inv a l1 l2 a' :
  paid_from a (l1 ++ l2) a' -> exists b, paid_from a l1 b /\ paid_from b l2 a'.
Proof.
  revert a; induction l1 as [|sb l1 IH]; intros a H; cbn in H.
  - exists a; split; [constructor | done].
  - inversion H as [|? ? ? ? Ho Hp]; subst. apply IH in Hp as (b & H1 & H2).
    exists b; split; [by constructor | done].
Qed.

Lemma paid_from_leftover a l a' :
  paid_from a l a' -> 0 <= a -> 0 < a' ->
  Forall (fun sb => sb_bondRewardSats sb = sb_targetYieldSats sb) l.
Proof.
  induction 1 as [a|a sb l a' (Ht & Hr & _) Hp IH]; intros Ha Ha'; [constructor|].
  assert (H0 : 0 <= a - sb_bondRewardSats sb) by lia.
  destruct (paid_from_total _ _ _ H0 Hp) as (_ & Hsum & Hall).
  constructor; [|by apply IH].
  enough (0 <= sumZ (sb_bondRewardSats <$> l)) by lia.
  clear -Hall. induction Hall as [|sb l Hsb _ IH]; [cbn; lia|].
  rewrite fmap_cons, sumZ_cons; lia.
Qed.

(** Bonds are paid strictly by priority: the simulated bonds come in canonical order
    (higher STX-value ratio first, then lower index), a bond receives anything only if
    every bond before it received its whole target yield, and the STX stakers and the
    reserve share a positive remainder only if every bond was paid in full. *)
Theorem simulation_waterfall i r before sb after :
  simulatePox5CalculateRewards i = Ok r ->
  r_bonds r = before ++ sb :: after ->
  (sb_bondIndex <$> r_bonds r =
     bondIndex <$> js_sort compareSimulationBonds (bonds i)) /\
  StronglySorted (fun a b => stxValueRatio b < stxValueRatio a \/
    stxValueRatio a = stxValueRatio b /\ bondIndex a <= bondIndex b)
    (js_sort compareSimulationBonds (bonds i)) /\
  (0 < sb_bondRewardSats sb ->
     Forall (fun s => sb_bondRewardSats s = sb_targetYieldSats s) before) /\
  (0 < r_remainingRewardsAfterBondsSats r ->
     Forall (fun s => sb_bondRewardSats s = sb_targetYieldSats s) (r_bonds r)).
Proof.
  intros H Hb.
  assert (Hg : 0 <= grossAccruedRewardsSats i).
  { unfold simulatePox5CalculateRewards in H; inv_ok H.
    by apply input_schema_facts in Hstep as (? & _). }
  apply simulate_facts in H as [Hpaid _ _ _ _ _ _ _ _ _ Hord].
  split_and!.
  - clear -Hord. induction Hord as [|b s l k Hbs _ IH]; cbn; [done|]. by rewrite Hbs, IH.
  - apply (canonical_sorted (fun b => (stxValueRatio b, bondIndex b)) (bonds i)).
  - intros Hpos. rewrite Hb in Hpaid.
    apply paid_from_app_inv in Hpaid as (b & Hp1 & Hp2).
    destruct (paid_from_total _ _ _ Hg Hp1) as (Hb0 & _).
    apply (paid_from_leftover _ _ _ Hp1 Hg).
    inversion Hp2 as [|? ? ? ? (Ht & Hr & _) _]; subst. lia.
  - intros Hpos. by apply (paid_from_leftover _ _ _ Hpaid).
Qed.

Lemma simulation_waterfall_witness :
  exists before sb after, r_bonds sim_result = before ++ sb :: after /\
    Forall (fun s => sb_bondRewardSats s = sb_targetYieldSats s) before.
Proof.
  exists (take 1 (r_bonds sim_result)). eexists. eexists.
  split; [vm_compute; reflexivity|].
  eapply (simulation_waterfall sim_example sim_result);
    [vm_compute; reflexivity | vm_compute; reflexivity | vm_compute; reflexivity].
Defined.

(** ** Totality under the supply bounds

    21 million bitcoin in sats bound every sat amount.  The schema accepts any [uint128] for the
    rest, with which the checked operations do overflow: bounds on the target rates of the bonds and
    on the running per-token totals are asked for besides. *)
Definition SATS_SUPPLY : Z := 2100000000000000.

Definition bond_in_supply (b : SimulationBond) : bool :=
  (totalSharesSats b <=? SATS_SUPPLY) && (targetRateBips b <=? POX5_REWARD_PRECISION) &&
  (currentRewardsPerSat b <=? Z.shiftl 1 127).

(** The sat amounts are within the supply. *)
Definition amounts_in_supply (i : Pox5RewardSimulationInput) : bool :=
  (grossAccruedRewardsSats i <=? SATS_SUPPLY) && (currentReserveBalanceSats i <=? SATS_SUPPLY) &&
  forallb (fun b => totalSharesSats b <=? SATS_SUPPLY) (bonds i).

(** The target rates are at most 10^18 basis points, and the running totals of rewards per token at
    most half the [uint] range. *)
Definition rates_in_range (i : Pox5RewardSimulationInput) : bool :=
  (currentRewardsPerUstx i <=? Z.shiftl 1 127) &&
  forallb (fun b => (targetRateBips b <=? POX5_REWARD_PRECISION) && (currentRewardsPerSat b <=? Z.shiftl 1 127)) (bonds i).

(** A rate that the schema accepts and that is out of range: the simulation overflows. *)
Example rate_out_of_range :
  let bond := {| bondIndex := 4; targetRateBips := UINT128_MAX; stxValueRatio := 20; totalSharesSats := 2;
                 currentRewardsPerSat := 0; managerSharesSats := None |} in
  let i := {| grossAccruedRewardsSats := 1000; currentReserveBalanceSats := 10; cycleStakedUstx := 3000000;
              currentRewardsPerUstx := 0; managerStxSharesUstx := None; bonds := [bond] |} in
  amounts_in_supply i = true /\
  simulatePox5CalculateRewards i = Err (exceeds_uint_bounds (label (Some 4) "target-yield product")).
Proof. vm_compute. by split. Qed.

Lemma UINT128_MAX_eq : UINT128_MAX = 340282366920938463463374607431768211455.
Proof. reflexivity. Qed.

Lemma half_uint_eq : Z.shiftl 1 127 = 170141183460469231731687303715884105728.
Proof. reflexivity. Qed.

(** Arithmetic with the concrete bounds of the contract. *)
Ltac supply_lia :=
  rewrite ?UINT128_MAX_eq in *; rewrite ?half_uint_eq in *;
  unfold SATS_SUPPLY, POX5_REWARD_PRECISION, POX5_REWARD_RESERVE_RATIO_BIPS in *;
  first [lia | nia].

Lemma checkedUint_total v l : 0 <= v <= UINT128_MAX -> checkedUint v l = Ok v.
Proof. intros H. by apply checkedUint_Ok. Qed.

Lemma checkedMultiply_total a b l :
  0 <= a * b <= UINT128_MAX -> checkedMultiply a b l = Ok (a * b).
Proof. apply checkedUint_total. Qed.

Lemma checkedAdd_total a b l :
  0 <= a + b <= UINT128_MAX -> checkedAdd a b l = Ok (a + b).
Proof. apply checkedUint_total. Qed.

Lemma integerDivide_total n d l : d <> 0 -> integerDivide n d l = Ok (Z.quot n d).
Proof. intros H. by apply integerDivide_Ok. Qed.

Lemma rate_of_bounds reward total :
  0 <= total -> 0 <= reward <= SATS_SUPPLY ->
  0 <= rate_of reward total /\ total * rate_of reward total <= reward * POX5_REWARD_PRECISION /\
  rate_of reward total <= SATS_SUPPLY * POX5_REWARD_PRECISION.
Proof.
  intros Ht Hr. unfold rate_of.
  destruct (Z.eqb_spec total 0) as [->|E]; [unfold SATS_SUPPLY, POX5_REWARD_PRECISION in *; lia|].
  destruct (quot_bounds (reward * POX5_REWARD_PRECISION) total) as [Hq1 Hq2];
    [unfold POX5_REWARD_PRECISION; lia|lia|].
  set (q := Z.quot _ _) in *.
  assert (q <= total * q) by nia.
  assert (reward * POX5_REWARD_PRECISION <= SATS_SUPPLY * POX5_REWARD_PRECISION)
    by (apply Z.mul_le_mono_nonneg_r; [discriminate | lia]).
  split_and!; lia.
Qed.

Lemma rate_step_total reward total l1 l2 :
  0 <= total -> 0 <= reward <= SATS_SUPPLY ->
  (if total =? 0 then Ok 0
   else p ← checkedMultiply reward POX5_REWARD_PRECISION l1; integerDivide p total l2)
  = Ok (rate_of reward total).
Proof.
  intros Ht Hr. unfold rate_of. destruct (Z.eqb_spec total 0) as [E|E]; [done|].
  rewrite checkedMultiply_total; [cbn; by apply integerDivide_total|].
  supply_lia.
Qed.

Lemma manager_step_total shares total reward l1 l2 :
  0 <= total -> 0 <= reward <= SATS_SUPPLY ->
  (forall s, shares = Some s -> 0 <= s <= total) ->
  match shares with
  | None => Ok None
  | Some s => p ← checkedMultiply s (rate_of reward total) l1;
              q ← integerDivide p POX5_REWARD_PRECISION l2; Ok (Some q)
  end = Ok ((fun s => Z.quot (s * rate_of reward total) POX5_REWARD_PRECISION) <$> shares).
Proof.
  intros Ht Hr Hs. destruct shares as [s|]; [|done]. specialize (Hs s eq_refl).
  destruct (rate_of_bounds reward total Ht Hr) as (H1 & H2 & _).
  rewrite checkedMultiply_total; [done|].
  assert (s * rate_of reward total <= reward * POX5_REWARD_PRECISION) by nia.
  supply_lia.
Qed.

Lemma simulateBond_total states a out b st :
  states !! bondIndex b = Some st -> schema_bond_facts st -> bond_in_supply st = true ->
  0 <= a <= SATS_SUPPLY ->
  exists a' out', simulateBond states (a, out) b = Ok (a', out') /\ 0 <= a' <= SATS_SUPPLY /\
    exists sb, out' = out ++ [sb] /\
      (forall m, sb_managerRewardSats sb = Some m -> 0 <= m <= SATS_SUPPLY).
Proof.
  intros Hl (Hr & Ht & Hc & Hm) Hsup Ha. unfold bond_in_supply in Hsup; breflect.
  unfold simulateBond; rewrite Hl; cbn [mbind result_bind].
  rewrite checkedMultiply_total by supply_lia.
  cbn [mbind result_bind]. rewrite integerDivide_total by done. cbn [mbind result_bind].
  rewrite integerDivide_total by done. cbn [mbind result_bind].
  assert (Htgt : 0 <= Z.quot (Z.quot (totalSharesSats st * targetRateBips st) 10000) 50).
  { apply Z.quot_pos; [|lia]. apply Z.quot_pos; nia. }
  set (tgt := Z.quot (Z.quot _ 10000) 50) in *.
  set (reward := if a >=? tgt then tgt else a).
  assert (Hrw : 0 <= reward <= a).
  { unfold reward; rewrite Z.geb_leb; destruct (Z.leb_spec tgt a); lia. }
  rewrite rate_step_total by lia. cbn [mbind result_bind].
  rewrite manager_step_total by (done || lia). cbn [mbind result_bind].
  destruct (rate_of_bounds reward (totalSharesSats st)) as (Hq0 & _ & Hq); [lia|lia|].
  rewrite checkedAdd_total by supply_lia.
  cbn [mbind result_bind]. eexists _, _. split; [reflexivity|]. split; [lia|].
  eexists; split; [reflexivity|]. cbn. intros m Hmm.
  destruct (managerSharesSats st) as [s|]; [|done]. injection Hmm as <-.
  specialize (Hm s eq_refl). unfold rate_of.
  destruct (Z.eqb_spec (totalSharesSats st) 0); [rewrite Z.mul_0_r, Z.quot_0_l by done; lia|].
  pose proof (share_of_rate_le s (totalSharesSats st) reward ltac:(lia) ltac:(lia) ltac:(lia)).
  set (q := Z.quot (s * _) _) in *. lia.
Qed.

Lemma foldM_simulateBond_total states l a out :
  (forall b, b ∈ l -> exists st, states !! bondIndex b = Some st /\ schema_bond_facts st /\
                            bond_in_supply st = true) ->
  0 <= a <= SATS_SUPPLY ->
  exists a' new, foldM_res (simulateBond states) (a, out) l = Ok (a', out ++ new) /\
    0 <= a' <= SATS_SUPPLY /\ length new = length l /\
    Forall (fun sb => forall m, sb_managerRewardSats sb = Some m -> 0 <= m <= SATS_SUPPLY) new.
Proof.
  revert a out; induction l as [|b l IH]; intros a out Hl Ha; cbn [foldM_res].
  - exists a, []. rewrite app_nil_r. split_and!; first [done | lia | constructor].
  - destruct (Hl b) as (st & Hst & Hf & Hs); [constructor|].
    destruct (simulateBond_total states a out b st) as (a1 & out1 & -> & Ha1 & sb & -> & Hsb);
      [done..|].
    cbn [mbind result_bind].
    destruct (IH a1 (out ++ [sb])) as (a' & new & -> & ? & ? & ?); [|done|].
    { intros c Hc; apply Hl; by constructor. }
    exists a', (sb :: new). rewrite <- app_assoc. split_and!; cbn; first [done | lia | by constructor].
Qed.

Lemma bondStateByIndex_lookup l b :
  b ∈ l -> exists st, bondStateByIndex l !! bondIndex b = Some st /\ st ∈ l.
Proof.
  unfold bondStateByIndex.
  assert (H : forall m : gmap Z SimulationBond, (is_Some (m !! bondIndex b) \/ b ∈ l) ->
    exists st, fold_left (fun m b => <[bondIndex b := b]> m) l m !! bondIndex b = Some st /\
      (st ∈ l \/ m !! bondIndex b = Some st)).
  { induction l as [|c l IH]; intros m Hm; cbn.
    - destruct Hm as [[st Hst]|Hm]; [eauto | by apply elem_of_nil in Hm].
    - destruct (IH (<[bondIndex c := c]> m)) as (st & Hst & Hor).
      + destruct (decide (bondIndex c = bondIndex b)) as [E|E].
        * left. rewrite E, lookup_insert_eq. eauto.
        * rewrite lookup_insert_ne by done.
          destruct Hm as [Hm|[->|Hm]%elem_of_cons]; [by left | done | by right].
      + exists st; split; [done|]. destruct Hor as [Hor|Hor]; [left; by constructor|].
        destruct (decide (bondIndex c = bondIndex b)) as [E|E].
        * rewrite E, lookup_insert_eq in Hor. injection Hor as <-. left; constructor.
        * rewrite lookup_insert_ne in Hor by done. by right. }
  intros Hb. destruct (H ∅) as (st & Hst & [Hin|Hem]); [by right | eauto |].
  by rewrite lookup_empty in Hem.
Qed.

Lemma total_of_bounds l :
  Forall (fun sb => forall m, sb_managerRewardSats sb = Some m -> 0 <= m <= SATS_SUPPLY) l ->
  0 <= total_of (sb_managerRewardSats <$> l) <= Z.of_nat (length l) * SATS_SUPPLY.
Proof.
  rewrite total_of_sumZ. induction 1 as [|sb l Hsb _ IH]; [cbn; lia|].
  rewrite !fmap_cons, sumZ_cons, length_cons.
  destruct (sb_managerRewardSats sb) as [m|]; cbn [default from_option id];
    [specialize (Hsb m eq_refl)|]; unfold SATS_SUPPLY in *; lia.
Qed.

Lemma simulation_returns i :
  pox5RewardSimulationInputSchema i = true -> amounts_in_supply i = true -> rates_in_range i = true ->
  exists r, simulatePox5CalculateRewards i = Ok r.
Proof.
  intros Hsch Hsup Hrates. pose proof (input_schema_facts _ Hsch) as (Hg & Hc & Hb & Hm).
  assert (Hres0 : 0 <= currentReserveBalanceSats i /\ 0 <= currentRewardsPerUstx i /\
                  (length (bonds i) <= 6)%nat).
  { unfold pox5RewardSimulationInputSchema, uint128Schema in Hsch; breflect.
    unfold MAX_BOND_PERIODS_PER_CYCLE in *. split_and!; lia. }
  unfold amounts_in_supply, rates_in_range in *; breflect.
  unfold simulatePox5CalculateRewards. rewrite Hsch; cbn [require mbind result_bind].
  destruct (foldM_simulateBond_total (bondStateByIndex (bonds i))
    (js_sort compareSimulationBonds (bonds i)) (grossAccruedRewardsSats i) [])
    as (avail & new & -> & Hav & Hlen & Hnew); [|lia|].
  { intros b Hbin%elem_of_js_sort.
    destruct (bondStateByIndex_lookup _ _ Hbin) as (st & Hst & Hin).
    exists st; split_and!; [done | by rewrite Forall_forall in Hb; apply Hb |].
    apply list_elem_of_In in Hin. rewrite !forallb_forall in *. unfold bond_in_supply.
    by rewrite <- andb_assoc, andb_true_iff; auto. }
  cbn [mbind result_bind app]. rewrite checkedMultiply_total by
    supply_lia.
  cbn [mbind result_bind]. rewrite integerDivide_total by done. cbn [mbind result_bind].
  set (base := Z.quot (avail * _) 10000).
  assert (Hbase : 0 <= base <= avail).
  { unfold base, POX5_REWARD_RESERVE_RATIO_BIPS.
    destruct (quot_bounds (avail * 1500) 10000); lia. }
  rewrite rate_step_total by lia. cbn [mbind result_bind].
  destruct (rate_of_bounds (avail - base) (cycleStakedUstx i)) as (Hq0 & _ & Hq); [lia|lia|].
  assert (Hdep : exists dep, (if cycleStakedUstx i =? 0
     then checkedAdd base (avail - base) (label None "unallocated STX reserve deposit")
     else Ok base) = Ok dep /\ 0 <= dep <= avail).
  { destruct (cycleStakedUstx i =? 0); [|eauto]. exists avail. split; [|lia].
    rewrite checkedAdd_total; [f_equal; lia|].
    supply_lia. }
  destruct Hdep as (dep & -> & Hdep). cbn [mbind result_bind].
  rewrite manager_step_total by (done || lia). cbn [mbind result_bind].
  assert (Hmgr : exists mgr, managerReward ((fun s => Z.quot (s * rate_of (avail - base)
       (cycleStakedUstx i)) POX5_REWARD_PRECISION) <$> managerStxSharesUstx i)
       (sb_managerRewardSats <$> new) = Ok mgr).
  { unfold managerReward. destruct (managerStxSharesUstx i) as [s|]; cbn; [|eauto].
    destruct (every_some _); [|eauto].
    rewrite checkedAdd_total; [cbn; eauto|].
    pose proof (total_of_bounds _ Hnew) as Htb. rewrite Hlen, js_sort_length in Htb.
    specialize (Hm s eq_refl).
    assert (0 <= Z.quot (s * rate_of (avail - base) (cycleStakedUstx i))
              POX5_REWARD_PRECISION <= avail).
    { unfold rate_of. destruct (Z.eqb_spec (cycleStakedUstx i) 0).
      - rewrite Z.mul_0_r, Z.quot_0_l by done. lia.
      - pose proof (share_of_rate_le s (cycleStakedUstx i) (avail - base)). lia. }
    supply_lia. }
  destruct Hmgr as (mgr & ->). cbn [mbind result_bind].
  rewrite !checkedAdd_total by supply_lia.
  cbn [mbind result_bind]. eauto.
Qed.

(** *** What can be thrown *)

Definition only_overflows {A} (m : result Pox5RewardSimulationError A) : Prop :=
  forall e, m = Err e -> exists l, e = exceeds_uint_bounds l.

Lemma overflows_bind {A B} (m : result Pox5RewardSimulationError A) (k : A -> result Pox5RewardSimulationError B) :
  only_overflows m -> (forall a, m = Ok a -> only_overflows (k a)) -> only_overflows (m ≫= k).
Proof. intros Hm Hk e H. destruct m as [a|e0]; [by apply (Hk a)|]. injection H as ->. by apply Hm. Qed.

Lemma overflows_Ok {A} (a : A) : only_overflows (Ok a).
Proof. done. Qed.

Lemma overflows_uint v l : only_overflows (checkedUint v l).
Proof. intros e. unfold checkedUint. destruct (_ || _); [|done]. intros [= <-]. by exists l. Qed.

Lemma overflows_divide n d l : d <> 0 -> only_overflows (integerDivide n d l).
Proof. intros H. rewrite integerDivide_total by done. apply overflows_Ok. Qed.

(** One step after the other of a simulation. *)
Ltac only_overflow :=
  repeat (first [apply overflows_bind; [|intros ? _] | apply overflows_uint | apply overflows_Ok
                | apply overflows_divide; (done || by apply Z.eqb_neq)
                | match goal with
                  | |- context [if ?x =? 0 then _ else _] => destruct (x =? 0) eqn:?
                  | |- context [match ?o with Some _ => _ | None => _ end] => destruct o
                  end]).

Lemma simulateBond_overflows states st b : is_Some (states !! bondIndex b) -> only_overflows (simulateBond states st b).
Proof.
  intros [bond Hb]. destruct st as [available pushed]. unfold simulateBond. rewrite Hb. cbn zeta. only_overflow.
Qed.

Lemma foldM_overflows states l st :
  (forall b, b ∈ l -> is_Some (states !! bondIndex b)) -> only_overflows (foldM_res (simulateBond states) st l).
Proof.
  revert st. induction l as [|b l IH]; intros st H; [apply overflows_Ok|]. cbn [foldM_res].
  apply overflows_bind; [apply simulateBond_overflows, H; by constructor|]. intros st' _. apply IH.
  intros c Hc. apply H. by constructor.
Qed.

Lemma simulation_overflows i :
  pox5RewardSimulationInputSchema i = true -> only_overflows (simulatePox5CalculateRewards i).
Proof.
  intros Hsch. unfold simulatePox5CalculateRewards. rewrite Hsch. cbn [require mbind result_bind]. cbn zeta.
  apply overflows_bind.
  { apply foldM_overflows. intros b Hb%elem_of_js_sort. destruct (bondStateByIndex_lookup _ _ Hb) as (st & Hst & _).
    by exists st. }
  intros [available out] _. unfold managerReward. only_overflow. all: destruct (every_some _); only_overflow.
Qed.

(** C40. The replay ends with a result on a state the chain can be in, and otherwise only with an
    overflow.  On every input the schema accepts it throws nothing but the overflow of a checked
    128-bit operation: nothing divides by zero and no bond state is missing.  And it returns a
    result when the sat amounts (the accrual, the reserve, every bond's shares) are within the
    bitcoin supply, every bond's target rate is at most 10^18 basis points, and the running totals
    of rewards per sat and per uSTX are at most 2^127.  Without these bounds an accepted input can
    overflow. *)
Theorem simulation_total i :
  pox5RewardSimulationInputSchema i = true ->
  (forall e, simulatePox5CalculateRewards i = Err e -> exists l, e = exceeds_uint_bounds l) /\
  (amounts_in_supply i = true -> rates_in_range i = true -> exists r, simulatePox5CalculateRewards i = Ok r).
Proof.
  intros Hsch. split; [exact (simulation_overflows i Hsch)|]. intros Ha Hr. by apply simulation_returns.
Qed.


Lemma simulation_total_witness :
  exists r, simulatePox5CalculateRewards sim_example = Ok r.
Proof. apply (simulation_total sim_example); vm_compute; reflexivity. Defined.
