(* ===== verification/ChainAnchor.v ===== *)
(** * Chain anchors

    [Module Anchor] is apps/sidekick/src/chain-anchor.ts: the anchor schema, the reward
    calculation an anchor lets the operator expect, and anchor equality.  [Module AnchorProof] is
    apps/sidekick/src/transaction-engine/canonical-anchor-proof.ts: the bounded, fenced proof
    that two anchors lie on one canonical chain, against an API that may answer differently
    on every call. *)

From S2P Require Import Prelude Text.

Module Anchor.

Inductive Phase := phase_reward | phase_prepare.
Inductive Checkpoint := first_half | second_half.

#[global] Instance Phase_eq_dec : EqDecision Phase.
Proof. solve_decision. Defined.
#[global] Instance Checkpoint_eq_dec : EqDecision Checkpoint.
Proof. solve_decision. Defined.

Record ChainAnchor := {
  stacksBlockHeight : Z;
  indexBlockHash : string;
  burnBlockHeight : Z;
  rewardCycle : Z;
  rewardCycleLength : Z;
  prepareCycleLength : Z;
  cyclePosition : Z;
  phase : Phase;
  checkpoint : Checkpoint;
}.

#[global] Instance ChainAnchor_eq_dec : EqDecision ChainAnchor.
Proof. solve_decision. Defined.

Definition MAX_SAFE_INTEGER : Z := 9007199254740991.

Definition isSafeInteger (n : Z) : bool := (- MAX_SAFE_INTEGER <=? n) && (n <=? MAX_SAFE_INTEGER).

(** [z.number().int().nonnegative()] and [.positive()]; zod's [int] is the safe integers. *)
Definition nonnegativeInt (n : Z) : bool := isSafeInteger n && (0 <=? n).
Definition positiveInt (n : Z) : bool := isSafeInteger n && (0 <? n).

Inductive AnchorIssue :=
  | issue_shape
  | issue_prepareCycleLength
  | issue_cyclePosition
  | issue_phase (expected : Phase)
  | issue_checkpoint (expected : Checkpoint).

Definition expectedPhase (value : ChainAnchor) : Phase :=
  if cyclePosition value >=? rewardCycleLength value - prepareCycleLength value
  then phase_prepare else phase_reward.

Definition expectedCheckpoint (value : ChainAnchor) : Checkpoint :=
  if cyclePosition value <? rewardCycleLength value / 2 then first_half else second_half.

Definition anchorShape (value : ChainAnchor) : bool :=
  nonnegativeInt (stacksBlockHeight value) &&
  (* /^0x[0-9a-f]{64}$/i: the literal prefix is matched case-insensitively too *)
  prefixed_hex_i 64 (indexBlockHash value) &&
  nonnegativeInt (burnBlockHeight value) && nonnegativeInt (rewardCycle value) &&
  positiveInt (rewardCycleLength value) && nonnegativeInt (prepareCycleLength value) &&
  nonnegativeInt (cyclePosition value).

Definition when (b : bool) (i : AnchorIssue) : list AnchorIssue := if b then [i] else [].

Definition anchorIssues (value : ChainAnchor) : list AnchorIssue :=
  when (prepareCycleLength value >? rewardCycleLength value) issue_prepareCycleLength ++
  when (cyclePosition value >=? rewardCycleLength value) issue_cyclePosition ++
  when (negb (bool_decide (phase value = expectedPhase value)))
    (issue_phase (expectedPhase value)) ++
  when (negb (bool_decide (checkpoint value = expectedCheckpoint value)))
    (issue_checkpoint (expectedCheckpoint value)).

(** [chainAnchorSchema.parse]: the shape, the lower-casing transform, then the refinement. *)
Definition parseChainAnchor (value : ChainAnchor) : result (list AnchorIssue) ChainAnchor :=
  if negb (anchorShape value) then Err [issue_shape]
  else
    let value' :=
      {| stacksBlockHeight := stacksBlockHeight value;
         indexBlockHash := toLowerCase (indexBlockHash value);
         burnBlockHeight := burnBlockHeight value;
         rewardCycle := rewardCycle value;
         rewardCycleLength := rewardCycleLength value;
         prepareCycleLength := prepareCycleLength value;
         cyclePosition := cyclePosition value;
         phase := phase value;
         checkpoint := checkpoint value |} in
    match anchorIssues value' with
    | [] => Ok value'
    | issues => Err issues
    end.

Inductive InvalidTarget :=
  | odd_reward_cycle_length | no_previous_reward_cycle
  | invalid_cycle_start | before_first_reward_cycle.

Record RewardCalculationTarget := {
  targetRewardCycle : Z;
  calculationCheckpoint : Checkpoint;
  expectedLastRewardComputeBurnHeight : Z;
}.

(** [firstRewardCycleId?: number | null]; [None] covers both [undefined] and [null]. *)
Definition deriveRewardCalculationTarget (anchor : ChainAnchor) (firstRewardCycleId : option Z)
    : result InvalidTarget RewardCalculationTarget :=
  if negb (Z.rem (rewardCycleLength anchor) 2 =? 0) then Err odd_reward_cycle_length
  else if match firstRewardCycleId with
          | Some f => negb (isSafeInteger f) || (f <? 0)
          | None => false
          end
  then Err before_first_reward_cycle
  else
    let cycleStart := burnBlockHeight anchor - cyclePosition anchor in
    if negb (isSafeInteger cycleStart) || (cycleStart <? 0) then Err invalid_cycle_start
    else if match firstRewardCycleId with
            | Some f => rewardCycle anchor <? f
            | None => false
            end
    then Err before_first_reward_cycle
    else
      let firstHalfTarget :=
        {| targetRewardCycle := rewardCycle anchor;
           calculationCheckpoint := first_half;
           expectedLastRewardComputeBurnHeight :=
             cycleStart + rewardCycleLength anchor / 2 - 1 |} in
      match checkpoint anchor with
      | second_half => Ok firstHalfTarget
      | first_half =>
          if match firstRewardCycleId with
             | Some f => rewardCycle anchor =? f
             | None => false
             end
          then Ok firstHalfTarget
          else if (rewardCycle anchor =? 0) || (cycleStart =? 0)
          then Err no_previous_reward_cycle
          else Ok {| targetRewardCycle := rewardCycle anchor - 1;
                     calculationCheckpoint := second_half;
                     expectedLastRewardComputeBurnHeight := cycleStart - 1 |}
      end.

Definition chainAnchorsEqual (left right : ChainAnchor) : bool :=
  (stacksBlockHeight left =? stacksBlockHeight right) &&
  String.eqb (indexBlockHash left) (indexBlockHash right) &&
  (burnBlockHeight left =? burnBlockHeight right) &&
  (rewardCycle left =? rewardCycle right) &&
  (rewardCycleLength left =? rewardCycleLength right) &&
  (prepareCycleLength left =? prepareCycleLength right) &&
  (cyclePosition left =? cyclePosition right) &&
  bool_decide (phase left = phase right) &&
  bool_decide (checkpoint left = checkpoint right).

(** ** Properties *)

Lemma when_nil b i : when b i = [] <-> b = false.
Proof. destruct b; cbn; split; congruence. Qed.

(** The invariant of a parsed anchor. *)
Record wf_anchor (a : ChainAnchor) : Prop := {
  wf_stacks : 0 <= stacksBlockHeight a;
  wf_burn : 0 <= burnBlockHeight a <= MAX_SAFE_INTEGER;
  wf_cycle : 0 <= rewardCycle a;
  wf_prepare : 0 <= prepareCycleLength a <= rewardCycleLength a;
  wf_position : 0 <= cyclePosition a < rewardCycleLength a;
  wf_phase : phase a = expectedPhase a;
  wf_checkpoint : checkpoint a = expectedCheckpoint a;
  wf_hash : prefixed_hex is_lower_hex 64 (indexBlockHash a) = true;
}.

Lemma parse_wf value a : parseChainAnchor value = Ok a -> wf_anchor a.
Proof.
  unfold parseChainAnchor. destruct (anchorShape value) eqn:Hs; [|done]. cbn [negb].
  set (v := {| stacksBlockHeight := _ |}).
  destruct (anchorIssues v) eqn:Hi; [|done]. intros [= <-].
  unfold anchorIssues in Hi. apply app_eq_nil in Hi as [H1 Hi].
  apply app_eq_nil in Hi as [H2 Hi]. apply app_eq_nil in Hi as [H3 H4].
  apply when_nil in H1, H2, H3, H4.
  unfold anchorShape, nonnegativeInt, positiveInt, isSafeInteger in Hs. breflect.
  constructor; cbn in *; try lia; try done. by apply prefixed_hex_lower.
Qed.

Lemma prefixed_hex_lowered n s : prefixed_hex is_lower_hex n s = true -> toLowerCase s = s.
Proof.
  intros H. destruct s as [|c0 [|c1 rest]];
    [discriminate H | destruct c0 as [[] [] [] [] [] [] [] []]; discriminate H |].
  assert (c0 = "0"%char) as -> by
    (destruct c0 as [[] [] [] [] [] [] [] []]; done || discriminate).
  assert (c1 = "x"%char) as -> by
    (destruct c1 as [[] [] [] [] [] [] [] []]; done || discriminate).
  cbn in H. breflect. cbn [toLowerCase]. by rewrite toLowerCase_lower_hex.
Qed.

(** Parsing is a normalisation: a parsed anchor satisfies every consistency rule between
    its position, phase, checkpoint and lengths and carries a lower-case hash, and parsing
    it again returns it unchanged. *)
Theorem parseChainAnchor_normal value a :
  parseChainAnchor value = Ok a -> wf_anchor a /\ parseChainAnchor a = Ok a.
Proof.
  intros H. pose proof (parse_wf _ _ H) as Hwf. split; [done|].
  unfold parseChainAnchor in H.
  destruct (anchorShape value) eqn:Hs; [|done]. cbn [negb] in H.
  destruct (anchorIssues _) eqn:Hi in H; [|done]. injection H as <-.
  unfold parseChainAnchor.
  assert (Hidem : toLowerCase (toLowerCase (indexBlockHash value)) =
                  toLowerCase (indexBlockHash value)) by apply toLowerCase_idem.
  assert (Hs' : anchorShape {| stacksBlockHeight := stacksBlockHeight value;
     indexBlockHash := toLowerCase (indexBlockHash value);
     burnBlockHeight := burnBlockHeight value; rewardCycle := rewardCycle value;
     rewardCycleLength := rewardCycleLength value;
     prepareCycleLength := prepareCycleLength value; cyclePosition := cyclePosition value;
     phase := phase value; checkpoint := checkpoint value |} = true).
  { unfold anchorShape in *; cbn. breflect. rewrite !andb_true_iff. split_and!; try done.
    by apply prefixed_hex_i_of_lower, prefixed_hex_lower. }
  rewrite Hs'. cbn [negb indexBlockHash stacksBlockHeight burnBlockHeight rewardCycle
    rewardCycleLength prepareCycleLength cyclePosition phase checkpoint].
  rewrite Hidem, Hi. done.
Qed.

Definition hash0 : string := "0xABCDEF0123456789abcdef0123456789abcdef0123456789abcdef0123456789".

Definition anchor0 : ChainAnchor :=
  {| stacksBlockHeight := 500; indexBlockHash := hash0; burnBlockHeight := 2060;
     rewardCycle := 20; rewardCycleLength := 100; prepareCycleLength := 10;
     cyclePosition := 60; phase := phase_reward; checkpoint := second_half |}.

Definition anchor1 : ChainAnchor :=
  {| stacksBlockHeight := 500; indexBlockHash := toLowerCase hash0; burnBlockHeight := 2060;
     rewardCycle := 20; rewardCycleLength := 100; prepareCycleLength := 10;
     cyclePosition := 60; phase := phase_reward; checkpoint := second_half |}.

Lemma anchor0_parses : parseChainAnchor anchor0 = Ok anchor1.
Proof. vm_compute. reflexivity. Qed.

Lemma parseChainAnchor_normal_witness : parseChainAnchor anchor1 = Ok anchor1.
Proof. apply (parseChainAnchor_normal anchor0 anchor1), anchor0_parses. Defined.

(** Half-cycles numbered consecutively: [2c] and [2c+1] are the halves of cycle [c]. *)
Definition half_index (cycle : Z) (h : Checkpoint) : Z :=
  2 * cycle + match h with first_half => 0 | second_half => 1 end.

Definition half_start (a : ChainAnchor) : Z :=
  burnBlockHeight a - cyclePosition a +
  match checkpoint a with first_half => 0 | second_half => rewardCycleLength a / 2 end.

(** The first half of the first active PoX-5 cycle: no calculation is behind the anchor. *)
Definition at_activation (a : ChainAnchor) (first : option Z) : Prop :=
  checkpoint a = first_half /\ first = Some (rewardCycle a).

Lemma wf_half a :
  wf_anchor a -> Z.rem (rewardCycleLength a) 2 = 0 ->
  half_start a <= burnBlockHeight a < half_start a + rewardCycleLength a / 2.
Proof.
  intros [_ _ _ Hp Hpos _ Hc _] He. unfold half_start.
  rewrite Z.rem_mod_nonneg in He by lia.
  pose proof (Z.div_mod (rewardCycleLength a) 2).
  rewrite Hc; unfold expectedCheckpoint.
  destruct (Z.ltb_spec (cyclePosition a) (rewardCycleLength a / 2)); lia.
Qed.

(** The expected calculation is the one that closes the half-cycle before the anchor:
    its (cycle, checkpoint) is the predecessor of the anchor's half, and its burn height is
    the last block before the anchor's half began, hence strictly behind the anchor and
    within one half-cycle plus one block of it. The only exception is activation (the first
    half of the first PoX-5 cycle), where the target is that very half and lies ahead. *)
Theorem derived_target_is_previous_half a first t :
  wf_anchor a -> deriveRewardCalculationTarget a first = Ok t ->
  (~ at_activation a first ->
     half_index (targetRewardCycle t) (calculationCheckpoint t) =
       half_index (rewardCycle a) (checkpoint a) - 1 /\
     expectedLastRewardComputeBurnHeight t = half_start a - 1 /\
     expectedLastRewardComputeBurnHeight t < burnBlockHeight a
       <= expectedLastRewardComputeBurnHeight t + rewardCycleLength a / 2) /\
  (at_activation a first ->
     half_index (targetRewardCycle t) (calculationCheckpoint t) =
       half_index (rewardCycle a) (checkpoint a) /\
     burnBlockHeight a <= expectedLastRewardComputeBurnHeight t).
Proof.
  intros Hwf H. unfold deriveRewardCalculationTarget in H.
  destruct (Z.eqb_spec (Z.rem (rewardCycleLength a) 2) 0) as [He|]; [|done]. cbn [negb] in H.
  pose proof (wf_half a Hwf He) as Hhalf. pose proof (wf_position a Hwf).
  destruct (match first with Some f => _ | None => false end) in H; [done|].
  destruct (_ || _) in H; [done|].
  destruct (match first with Some f => rewardCycle a <? f | None => false end) in H; [done|].
  unfold half_start, half_index, at_activation in *.
  destruct (checkpoint a) eqn:Hc.
  - destruct first as [f|]; [destruct (Z.eqb_spec (rewardCycle a) f) as [<-|Hne]|].
    + injection H as <-. cbn. split; [tauto|]. intros _. lia.
    + destruct (_ || _) in H; [done|]. injection H as <-. cbn.
      split; [lia|]. intros [_ [=]]; congruence.
    + destruct (_ || _) in H; [done|]. injection H as <-. cbn.
      split; [lia|]. intros [_ ?]; congruence.
  - injection H as <-. cbn. split; [lia|]. intros [? _]; congruence.
Qed.

Lemma derived_target_is_previous_half_witness :
  exists t, deriveRewardCalculationTarget anchor1 (Some 18) = Ok t /\
    expectedLastRewardComputeBurnHeight t = 2049 /\
    expectedLastRewardComputeBurnHeight t < burnBlockHeight anchor1.
Proof.
  eexists. split; [vm_compute; reflexivity|]. split; [reflexivity|].
  eapply (derived_target_is_previous_half anchor1 (Some 18));
    [exact (parse_wf _ _ anchor0_parses) | vm_compute; reflexivity |].
  intros [H _]; discriminate H.
Defined.

Lemma chainAnchorsEqual_spec a b : chainAnchorsEqual a b = true <-> a = b.
Proof.
  unfold chainAnchorsEqual. rewrite !andb_true_iff, !Z.eqb_eq, !bool_decide_eq_true, String.eqb_eq.
  split; [|by intros ->].
  destruct a, b; cbn. intros; repeat match goal with H : _ /\ _ |- _ => destruct H end. by subst.
Qed.

End Anchor.

Module AnchorProof.

Record ApiStatus := {
  tip_block_height : Z;
  tip_block_hash : string;
  tip_index_block_hash : string;
  tip_burn_block_height : Z;
}.

Record StacksBlockSummary := {
  canonical : bool;
  height : Z;
  index_block_hash : string;
  burn_block_height : Z;
}.

Record CanonicalStacksBlockReference := {
  ref_stacksBlockHeight : Z;
  ref_indexBlockHash : string;
  ref_burnBlockHeight : option Z;
}.

Inductive InvalidReason :=
  | planned_anchor_after_live_anchor | planned_anchor_noncanonical | planned_anchor_mismatch.

Inductive UnavailableReason :=
  | api_unavailable | api_tip_behind_live_anchor | api_tip_unstable | live_anchor_stale.

Inductive CanonicalAnchorProof :=
  | proven (apiTipHeight : Z) (apiTipIndexBlockHash : string)
  | invalid (r : InvalidReason)
  | unavailable (r : UnavailableReason).

Definition sameTip (left right : ApiStatus) : bool :=
  (tip_block_height left =? tip_block_height right) &&
  String.eqb (tip_block_hash left) (tip_block_hash right) &&
  String.eqb (tip_index_block_hash left) (tip_index_block_hash right) &&
  (tip_burn_block_height left =? tip_burn_block_height right).

Definition blockMatchesReference (block : StacksBlockSummary)
    (reference : CanonicalStacksBlockReference) : bool :=
  canonical block && (height block =? ref_stacksBlockHeight reference) &&
  String.eqb (index_block_hash block) (ref_indexBlockHash reference) &&
  match ref_burnBlockHeight reference with
  | None => true
  | Some b => burn_block_height block =? b
  end.

Section Api.

(** The indexed API is not under the repository's control: its answer to the [n]-th call is
    arbitrary, and [Err tt] is a rejected promise. *)
Context (getStatus : nat -> result unit ApiStatus)
        (getBlock : nat -> Z -> result unit StacksBlockSummary).

(** One pass of the [try] block from call number [n]; [None] is [continue]. *)
Definition proofAttempt (planned live : CanonicalStacksBlockReference) (last : bool) (n : nat)
    : option CanonicalAnchorProof * nat :=
  let caught := (Some (unavailable api_unavailable), n) in
  match getStatus n with
  | Err _ => caught
  | Ok before =>
      if tip_block_height before <? ref_stacksBlockHeight live
      then (Some (unavailable api_tip_behind_live_anchor), S n)
      else match getBlock (S n) (ref_stacksBlockHeight planned) with
      | Err _ => caught
      | Ok plannedBlock =>
          let same := ref_stacksBlockHeight planned =? ref_stacksBlockHeight live in
          let m := if same then S (S n) else S (S (S n)) in
          match (if same then Ok plannedBlock
                 else getBlock (S (S n)) (ref_stacksBlockHeight live)) with
          | Err _ => caught
          | Ok liveBlock =>
              match getStatus m with
              | Err _ => caught
              | Ok after =>
                  if negb (sameTip before after) then
                    (if last then Some (unavailable api_tip_unstable) else None, S m)
                  else if negb (canonical plannedBlock)
                  then (Some (invalid planned_anchor_noncanonical), S m)
                  else if negb (blockMatchesReference plannedBlock planned)
                  then (Some (invalid planned_anchor_mismatch), S m)
                  else if negb (blockMatchesReference liveBlock live)
                  then (Some (unavailable live_anchor_stale), S m)
                  else (Some (proven (tip_block_height after) (tip_index_block_hash after)), S m)
              end
          end
      end
  end.

(** [for (attempt = 1; attempt <= maximumAttempts; ...)], [left] attempts remaining. *)
Fixpoint proofLoop (planned live : CanonicalStacksBlockReference) (left n : nat)
    : CanonicalAnchorProof :=
  match left with
  | O => unavailable api_tip_unstable
  | S left' =>
      match proofAttempt planned live (bool_decide (left' = O)) n with
      | (Some p, _) => p
      | (None, n') => proofLoop planned live left' n'
      end
  end.

Definition proveCanonicalReferenceRelationship (planned live : CanonicalStacksBlockReference)
    (maximumAttempts : nat) : CanonicalAnchorProof :=
  if ref_stacksBlockHeight planned >? ref_stacksBlockHeight live
  then invalid planned_anchor_after_live_anchor
  else proofLoop planned live maximumAttempts 0.

Definition refOfAnchor (a : Anchor.ChainAnchor) : CanonicalStacksBlockReference :=
  {| ref_stacksBlockHeight := Anchor.stacksBlockHeight a;
     ref_indexBlockHash := Anchor.indexBlockHash a;
     ref_burnBlockHeight := Some (Anchor.burnBlockHeight a) |}.

(** [maximumAttempts] outside 1..3 is the thrown zod error. *)
Definition proveCanonicalAnchorRelationship (plannedAnchor liveAnchor : Anchor.ChainAnchor)
    (maximumAttempts : option nat) : result unit CanonicalAnchorProof :=
  let attempts := default 2%nat maximumAttempts in
  if bool_decide (1 <= attempts <= 3)%nat then
    Ok (if Anchor.burnBlockHeight plannedAnchor >? Anchor.burnBlockHeight liveAnchor
        then invalid planned_anchor_after_live_anchor
        else proveCanonicalReferenceRelationship
               (refOfAnchor plannedAnchor) (refOfAnchor liveAnchor) attempts)
  else Err tt.

(** What a proof rests on: between two reads of one and the same API tip, at or above the
    live anchor, the API served the canonical block at both heights and both blocks were
    the anchors' own. *)
Definition fenced_evidence (planned live : CanonicalStacksBlockReference)
    (tipHeight : Z) (tipHash : string) : Prop :=
  exists n b l m before after pb lb,
    (n < b)%nat /\ (b <= l)%nat /\ (l < m)%nat /\
    getStatus n = Ok before /\ getStatus m = Ok after /\ sameTip before after = true /\
    ref_stacksBlockHeight live <= tip_block_height before /\
    tip_block_height after = tipHeight /\ tip_index_block_hash after = tipHash /\
    getBlock b (ref_stacksBlockHeight planned) = Ok pb /\ blockMatchesReference pb planned = true /\
    getBlock l (ref_stacksBlockHeight live) = Ok lb /\ blockMatchesReference lb live = true.

Lemma proofAttempt_proven planned live last n th tx n' :
  proofAttempt planned live last n = (Some (proven th tx), n') -> fenced_evidence planned live th tx.
Proof.
  unfold proofAttempt.
  destruct (getStatus n) as [before|] eqn:Hb; [|done].
  destruct (Z.ltb_spec (tip_block_height before) (ref_stacksBlockHeight live)); [done|].
  destruct (getBlock (S n) _) as [pb|] eqn:Hp; [|done].
  set (same := _ =? _). set (m := if same then S (S n) else S (S (S n))).
  destruct (if same then Ok pb else _) as [lb|] eqn:Hl; [|done].
  destruct (getStatus m) as [after|] eqn:Ha; [|done].
  destruct (sameTip before after) eqn:Ht; [|by destruct last]. cbn [negb].
  destruct (canonical pb); [|done]. cbn [negb].
  destruct (blockMatchesReference pb planned) eqn:Hpm; [|done]. cbn [negb].
  destruct (blockMatchesReference lb live) eqn:Hlm; [|done]. cbn [negb].
  intros [= <- <- <-]. unfold fenced_evidence.
  destruct same eqn:Hs; unfold same in Hs; breflect.
  - injection Hl as <-. exists n, (S n), (S n), m, before, after, pb, pb.
    unfold m; rewrite <- Hs. split_and!; done || lia.
  - exists n, (S n), (S (S n)), m, before, after, pb, lb. unfold m. split_and!; done || lia.
Qed.

Lemma proofAttempt_last planned live n : fst (proofAttempt planned live true n) <> None.
Proof.
  unfold proofAttempt.
  repeat (match goal with |- context [match ?x with _ => _ end] => destruct x end; try done).
Qed.

(** The canonicality proof fails closed. Whatever the API answers and however its tip
    moves between calls, a [proven] result rests on fenced evidence for both anchors and on
    the planned anchor not being above the live one; in every other case the result is
    [invalid] or [unavailable], within the bounded number of attempts. *)
Theorem proven_is_fenced plannedAnchor liveAnchor attempts th tx :
  proveCanonicalAnchorRelationship plannedAnchor liveAnchor attempts = Ok (proven th tx) ->
  Anchor.burnBlockHeight plannedAnchor <= Anchor.burnBlockHeight liveAnchor /\
  Anchor.stacksBlockHeight plannedAnchor <= Anchor.stacksBlockHeight liveAnchor /\
  fenced_evidence (refOfAnchor plannedAnchor) (refOfAnchor liveAnchor) th tx.
Proof.
  unfold proveCanonicalAnchorRelationship, proveCanonicalReferenceRelationship.
  case_bool_decide; [|done]. intros [= Hok].
  rewrite !Z.gtb_ltb in Hok.
  destruct (Z.ltb_spec (Anchor.burnBlockHeight liveAnchor) (Anchor.burnBlockHeight plannedAnchor));
    [done|].
  cbn [ref_stacksBlockHeight refOfAnchor] in Hok.
  destruct (Z.ltb_spec (Anchor.stacksBlockHeight liveAnchor)
    (Anchor.stacksBlockHeight plannedAnchor)); [done|].
  split; [lia|]. split; [lia|].
  revert Hok; generalize 0%nat as n, (default 2%nat attempts) as left.
  intros n left; revert n; induction left as [|left IH]; intros n; cbn [proofLoop]; [done|].
  destruct (proofAttempt _ _ _ n) as [[p|] n'] eqn:Hp; [|apply IH].
  intros ->. by eapply proofAttempt_proven.
Qed.

End Api.

Definition status0 : ApiStatus :=
  {| tip_block_height := 510; tip_block_hash := "b"; tip_index_block_hash := "i";
     tip_burn_block_height := 2061 |}.
Definition status1 : ApiStatus :=
  {| tip_block_height := 511; tip_block_hash := "c"; tip_index_block_hash := "j";
     tip_burn_block_height := 2061 |}.

(** An API whose tip moves once during the first attempt. *)
Definition moving_status (n : nat) : result unit ApiStatus :=
  Ok (if bool_decide (n < 2)%nat then status0 else status1).
Definition serving_block (n : nat) (h : Z) : result unit StacksBlockSummary :=
  Ok {| canonical := true; height := h; index_block_hash := toLowerCase Anchor.hash0;
        burn_block_height := 2060 |}.

Lemma proven_is_fenced_witness :
  proveCanonicalAnchorRelationship moving_status serving_block Anchor.anchor1 Anchor.anchor1 None
    = Ok (proven 511 "j") /\
  fenced_evidence moving_status serving_block
    (refOfAnchor Anchor.anchor1) (refOfAnchor Anchor.anchor1) 511 "j".
Proof.
  assert (H : proveCanonicalAnchorRelationship moving_status serving_block
    Anchor.anchor1 Anchor.anchor1 None = Ok (proven 511 "j")) by (vm_compute; reflexivity).
  split; [exact H|].
  exact (proj2 (proj2 (proven_is_fenced _ _ _ _ _ _ _ H))).
Defined.

End AnchorProof.
