(* ===== verification/Clarity.v ===== *)
(** * Clarity values and their decoders

    packages/protocol/src/clarity-codecs.ts (module [Codecs]), pox5-events.ts (module
    [Pox5Events]) and manager-events.ts (module [ManagerEvents]).  [ClarityValue] is the
    tagged union of @stacks/transactions as the source reads it: a [type] tag and the
    [value] under it.  The wire format of that library ([cvToHex], [deserializeCV]) and its
    checked constructors are parameters.  A decoder is a function into [result CodecError];
    the error carries the path the source reports. *)

From S2P Require Import Prelude Text.

Open Scope string_scope.

Inductive ClarityType :=
  | TInt | TUInt | TBuffer | TBoolTrue | TBoolFalse | TPrincipalStandard | TPrincipalContract
  | TResponseOk | TResponseErr | TOptionalNone | TOptionalSome | TList | TTuple
  | TStringASCII | TStringUTF8.

#[global] Instance ClarityType_eq_dec : EqDecision ClarityType.
Proof. solve_decision. Defined.

Inductive ClarityValue :=
  | CInt (v : Z)
  | CUInt (v : Z)
  | CBuffer (hex : string)
  | CBoolTrue
  | CBoolFalse
  | CPrincipalStandard (principal : string)
  | CPrincipalContract (principal : string)
  | CResponseOk (v : ClarityValue)
  | CResponseErr (v : ClarityValue)
  | COptionalNone
  | COptionalSome (v : ClarityValue)
  | CList (l : list ClarityValue)
  | CTuple (fields : list (string * ClarityValue))
  | CStringASCII (s : string)
  | CStringUTF8 (s : string).

Definition type_of (v : ClarityValue) : ClarityType :=
  match v with
  | CInt _ => TInt | CUInt _ => TUInt | CBuffer _ => TBuffer
  | CBoolTrue => TBoolTrue | CBoolFalse => TBoolFalse
  | CPrincipalStandard _ => TPrincipalStandard | CPrincipalContract _ => TPrincipalContract
  | CResponseOk _ => TResponseOk | CResponseErr _ => TResponseErr
  | COptionalNone => TOptionalNone | COptionalSome _ => TOptionalSome
  | CList _ => TList | CTuple _ => TTuple
  | CStringASCII _ => TStringASCII | CStringUTF8 _ => TStringUTF8
  end.

Inductive CodecMessage :=
  | expected_hex
  | expected_type (expected received : ClarityType)
  | expected_boolean (received : ClarityType)
  | expected_principal (received : ClarityType)
  | expected_string (received : ClarityType)
  | expected_optional (received : ClarityType)
  | missing_tuple_field (field : string)
  | contract_returned_err (v : ClarityValue)
  | expected_even_hex
  | too_many_bond_periods
  | library_error.

(** [ClarityCodecError]: the message and the path. *)
Record CodecError := codec_error { error_message : CodecMessage; error_path : string }.

Abbreviation decoder A := (result CodecError A).

(** [tuple.value[field]]: the property of the tuple object, [None] when undefined. *)
Fixpoint property (field : string) (fields : list (string * ClarityValue)) : option ClarityValue :=
  match fields with
  | [] => None
  | (k, v) :: rest => if String.eqb k field then Some v else property field rest
  end.

Module Codecs.

(** [expectType(value, type, path).value], one definition per tag the source expects. *)
Definition mismatch {A} (v : ClarityValue) (t : ClarityType) (path : string) : decoder A :=
  Err (codec_error (expected_type t (type_of v)) path).

Definition expectUInt (v : ClarityValue) (path : string) : decoder Z :=
  match v with CUInt n => Ok n | _ => mismatch v TUInt path end.
Definition expectSome (v : ClarityValue) (path : string) : decoder ClarityValue :=
  match v with COptionalSome w => Ok w | _ => mismatch v TOptionalSome path end.
Definition expectBuffer (v : ClarityValue) (path : string) : decoder string :=
  match v with CBuffer h => Ok h | _ => mismatch v TBuffer path end.
Definition expectResponseOk (v : ClarityValue) (path : string) : decoder ClarityValue :=
  match v with CResponseOk w => Ok w | _ => mismatch v TResponseOk path end.
Definition expectTuple (v : ClarityValue) (path : string)
    : decoder (list (string * ClarityValue)) :=
  match v with CTuple f => Ok f | _ => mismatch v TTuple path end.
Definition expectList (v : ClarityValue) (path : string) : decoder (list ClarityValue) :=
  match v with CList l => Ok l | _ => mismatch v TList path end.

Definition decodeUInt (value : ClarityValue) (path : string) : decoder Z := expectUInt value path.

Definition decodeOptionalUInt (value : ClarityValue) (path : string) : decoder (option Z) :=
  match value with
  | COptionalNone => Ok None
  | _ => v ← expectSome value path; n ← decodeUInt v path; Ok (Some n)
  end.

Definition decodeBoolean (value : ClarityValue) (path : string) : decoder bool :=
  match value with
  | CBoolTrue => Ok true
  | CBoolFalse => Ok false
  | _ => Err (codec_error (expected_boolean (type_of value)) path)
  end.

Definition decodeBuffer (value : ClarityValue) (path : string) : decoder string :=
  expectBuffer value path.

Definition decodeOptionalBuffer (value : ClarityValue) (path : string) : decoder (option string) :=
  match value with
  | COptionalNone => Ok None
  | _ => v ← expectSome value path; b ← expectBuffer v path; Ok (Some b)
  end.

Definition decodeResponseOk (value : ClarityValue) (path : string) : decoder ClarityValue :=
  match value with
  | CResponseErr e => Err (codec_error (contract_returned_err e) path)
  | _ => expectResponseOk value path
  end.

Definition tupleField (value : ClarityValue) (field path : string) : decoder ClarityValue :=
  fields ← expectTuple value path;
  match property field fields with
  | Some child => Ok child
  | None => Err (codec_error (missing_tuple_field field) path)
  end.

(** The inline principal check of the PoX-5 decoders. *)
Definition expectPrincipal (value : ClarityValue) (path : string) : decoder string :=
  match value with
  | CPrincipalStandard p | CPrincipalContract p => Ok p
  | _ => Err (codec_error (expected_principal (type_of value)) path)
  end.

Definition uintField (value : ClarityValue) (field path : string) : decoder Z :=
  v ← tupleField value field path; decodeUInt v (path ++ "." ++ field).

Record EarnedStakerRewards := { earned : Z; fees : Z }.

Definition decodeEarnedStakerRewards (value : ClarityValue) (path : string)
    : decoder EarnedStakerRewards :=
  e ← uintField value "earned" path;
  f ← uintField value "fees" path;
  Ok {| earned := e; fees := f |}.

Record PoxAddressPreference := { versionHex : string; hashbytesHex : string; maxFee : Z }.

Definition decodePoxAddressPreference (value : ClarityValue) (path : string)
    : decoder (option PoxAddressPreference) :=
  match value with
  | COptionalNone => Ok None
  | _ =>
      preference ← expectSome value path;
      poxAddress ← tupleField preference "pox-addr" path;
      v ← tupleField poxAddress "version" (path ++ ".pox-addr");
      version ← expectBuffer v (path ++ ".pox-addr.version");
      h ← tupleField poxAddress "hashbytes" (path ++ ".pox-addr");
      hashbytes ← expectBuffer h (path ++ ".pox-addr.hashbytes");
      fee ← uintField preference "max-fee" path;
      Ok (Some {| versionHex := version; hashbytesHex := hashbytes; maxFee := fee |})
  end.

Definition decodeOptionalPrincipal (value : ClarityValue) (path : string)
    : decoder (option string) :=
  match value with
  | COptionalNone => Ok None
  | _ => principal ← expectSome value path; p ← expectPrincipal principal path; Ok (Some p)
  end.

Record Pox5StakerInfo := {
  si_amountUstx : Z; si_firstRewardCycle : Z; si_numCycles : Z; si_signer : string }.

Definition decodePox5StakerInfo (value : ClarityValue) (path : string)
    : decoder (option Pox5StakerInfo) :=
  match value with
  | COptionalNone => Ok None
  | _ =>
      info ← expectSome value path;
      s ← tupleField info "signer" path;
      signer ← expectPrincipal s (path ++ ".signer");
      amount ← uintField info "amount-ustx" path;
      first ← uintField info "first-reward-cycle" path;
      num ← uintField info "num-cycles" path;
      Ok (Some {| si_amountUstx := amount; si_firstRewardCycle := first;
                  si_numCycles := num; si_signer := signer |})
  end.

Record Pox5CycleMembership := { cm_amountUstx : Z; cm_signer : string }.

Definition decodePox5CycleMembership (value : ClarityValue) (path : string)
    : decoder (option Pox5CycleMembership) :=
  match value with
  | COptionalNone => Ok None
  | _ =>
      membership ← expectSome value path;
      s ← tupleField membership "signer" path;
      signer ← expectPrincipal s (path ++ ".signer");
      amount ← uintField membership "amount-ustx" path;
      Ok (Some {| cm_amountUstx := amount; cm_signer := signer |})
  end.

Record Pox5BondMembership := {
  bm_bondIndex : Z; bm_amountUstx : Z; bm_amountSats : Z; bm_isL1Lock : bool; bm_signer : string }.

Definition decodePox5BondMembership (value : ClarityValue) (path : string)
    : decoder (option Pox5BondMembership) :=
  match value with
  | COptionalNone => Ok None
  | _ =>
      membership ← expectSome value path;
      s ← tupleField membership "signer" path;
      signer ← expectPrincipal s (path ++ ".signer");
      bondIndex ← uintField membership "bond-index" path;
      amountUstx ← uintField membership "amount-ustx" path;
      amountSats ← uintField membership "amount-sats" path;
      l ← tupleField membership "is-l1-lock" path;
      isL1Lock ← decodeBoolean l (path ++ ".is-l1-lock");
      Ok (Some {| bm_bondIndex := bondIndex; bm_amountUstx := amountUstx;
                  bm_amountSats := amountSats; bm_isL1Lock := isL1Lock; bm_signer := signer |})
  end.

Record Pox5ProtocolBond := { pb_targetRate : Z; pb_stxValueRatio : Z; pb_minUstxRatio : Z }.

Definition decodePox5ProtocolBond (value : ClarityValue) (path : string)
    : decoder (option Pox5ProtocolBond) :=
  match value with
  | COptionalNone => Ok None
  | _ =>
      bond ← expectSome value path;
      rate ← uintField bond "target-rate" path;
      ratio ← uintField bond "stx-value-ratio" path;
      minimum ← uintField bond "min-ustx-ratio" path;
      Ok (Some {| pb_targetRate := rate; pb_stxValueRatio := ratio; pb_minUstxRatio := minimum |})
  end.

Record RewardBucket := { rb_earned : Z; rb_rewardsPerToken : Z }.

Record ClaimRewardsResult := {
  cr_totalRewards : Z;
  cr_bondTotals : Z;
  cr_stxRewards : RewardBucket;
  cr_bondRewards : list (Z * RewardBucket);
}.

(** [bondRewards.value.map((entry, index) => ...)]: the index is part of the error path. *)
Fixpoint decodeBondRewards (entries : list ClarityValue) (index : nat) (path : string)
    : decoder (list (Z * RewardBucket)) :=
  match entries with
  | [] => Ok []
  | entry :: rest =>
      let p := path ++ ".bond-rewards[" ++ bigint_toString (Z.of_nat index) ++ "]" in
      b ← uintField entry "bond-index" p;
      e ← uintField entry "earned" p;
      r ← uintField entry "rewards-per-token" p;
      more ← decodeBondRewards rest (S index) path;
      Ok ((b, {| rb_earned := e; rb_rewardsPerToken := r |}) :: more)
  end.

Definition decodeClaimRewardsResult (value : ClarityValue) (path : string)
    : decoder ClaimRewardsResult :=
  res ← decodeResponseOk value path;
  stxRewards ← tupleField res "stx-rewards" path;
  bl ← tupleField res "bond-rewards" path;
  bondRewards ← expectList bl (path ++ ".bond-rewards");
  total ← uintField res "total-rewards" path;
  bondTotals ← uintField res "bond-totals" path;
  e ← tupleField stxRewards "earned" path;
  stxEarned ← decodeUInt e (path ++ ".stx-rewards.earned");
  r ← tupleField stxRewards "rewards-per-token" path;
  stxRate ← decodeUInt r (path ++ ".stx-rewards.rewards-per-token");
  bonds ← decodeBondRewards bondRewards 0 path;
  Ok {| cr_totalRewards := total; cr_bondTotals := bondTotals;
        cr_stxRewards := {| rb_earned := stxEarned; rb_rewardsPerToken := stxRate |};
        cr_bondRewards := bonds |}.

(** ** Encoders, over the library's constructors and wire format

    [uintCV], [principalCV] and [bufferCV] are the library's checked constructors ([None] is
    their throw), [cvToHex] and [deserializeCV] its wire format. *)

Section Wire.

Context (cvToHex : ClarityValue -> string)
        (deserializeCV : string -> option ClarityValue)
        (uintCV : Z -> option ClarityValue)
        (principalCV : string -> option ClarityValue)
        (bufferCV : list Z -> ClarityValue).

(** A throw of the library, which carries no [ClarityCodecError] path. *)
Definition library {A} (o : option A) : decoder A :=
  match o with Some a => Ok a | None => Err (codec_error library_error "") end.

Definition encodeOptionalBondIndex (value : option Z) : decoder ClarityValue :=
  match value with
  | None => Ok COptionalNone
  | Some v => u ← library (uintCV v); Ok (COptionalSome u)
  end.

Definition encodeBondPeriods (values : list Z) : decoder ClarityValue :=
  if bool_decide (6 < List.length values)%nat
  then Err (codec_error too_many_bond_periods "value")
  else l ← mapM_res (fun v => library (uintCV v)) values; Ok (CList l).

Definition strip_0x (hex : string) : string :=
  match hex with
  | String "0" (String "x" rest) => rest
  | _ => hex
  end.

Definition decodeClarityHex (hex : string) : decoder ClarityValue :=
  let digits := strip_0x hex in
  if negb (bool_decide (digits <> "") && forallb is_hex (chars digits))
  then Err (codec_error expected_hex "value")
  else library (deserializeCV digits).

Definition encodePrincipalHex (principal : string) : decoder string :=
  v ← library (principalCV principal); Ok (cvToHex v).

Definition encodeUIntHex (value : Z) : decoder string :=
  v ← library (uintCV value); Ok (cvToHex v).

Definition encodeOptionalUIntHex (value : option Z) : decoder string :=
  v ← encodeOptionalBondIndex value; Ok (cvToHex v).

Definition encodeBufferHex (hex : string) : decoder string :=
  if negb (Nat.even (String.length hex) && forallb is_hex (chars hex))
  then Err (codec_error expected_even_hex "value")
  else Ok (cvToHex (bufferCV (hexBytes (chars hex)))).

End Wire.

End Codecs.

(** ** The PoX-5 reward calculation print *)

Module Pox5Events.
Import Codecs.

Record Pox5CalculateRewardsEvent := {
  bondPeriods : list string;
  calculationBurnHeight : string;
  grossAccruedRewardsSats : string;
  totalBondRewardsSats : string;
  reserveDepositSats : string;
  reserveBalanceSats : string;
  rewardCycle : string;
  totalStxStakerRewardsSats : string;
  cycleStakedUstx : string;
  accruedRewardsPerUstx : string;
  cumulativeRewardsPerUstx : string;
}.

Definition tuple (value : ClarityValue) (path : string) : decoder (list (string * ClarityValue)) :=
  expectTuple value path.

Definition field (value : list (string * ClarityValue)) (name path : string)
    : decoder ClarityValue :=
  match property name value with
  | Some child => Ok child
  | None => Err (codec_error (missing_tuple_field name) path)
  end.

Definition uintText (value : list (string * ClarityValue)) (name path : string)
    : decoder string :=
  v ← field value name path;
  n ← decodeUInt v (path ++ "." ++ name);
  Ok (bigint_toString n).

Definition topic (value : ClarityValue) (path : string) : decoder string :=
  match value with
  | CStringASCII s | CStringUTF8 s => Ok s
  | _ => Err (codec_error (expected_string (type_of value)) path)
  end.

(** [bondPeriods.value.map((entry, index) => ...)]. *)
Fixpoint periodTexts (entries : list ClarityValue) (index : nat) (path : string)
    : decoder (list string) :=
  match entries with
  | [] => Ok []
  | entry :: rest =>
      n ← decodeUInt entry (path ++ ".bond-periods[" ++ bigint_toString (Z.of_nat index) ++ "]");
      more ← periodTexts rest (S index) path;
      Ok (bigint_toString n :: more)
  end.

Definition decodePox5CalculateRewardsEvent (value : ClarityValue) (path : string)
    : decoder (option Pox5CalculateRewardsEvent) :=
  event ← tuple value path;
  t ← field event "topic" path;
  eventTopic ← topic t (path ++ ".topic");
  if negb (String.eqb eventTopic "calculate-rewards") then Ok None
  else
    periods ← field event "bond-periods" path;
    match periods with
    | CList l =>
        texts ← periodTexts l 0 path;
        height ← uintText event "calculation-height" path;
        gross ← uintText event "gross-accrued-rewards" path;
        total ← uintText event "total-bond-rewards" path;
        deposit ← uintText event "reserve-deposit" path;
        balance ← uintText event "reserve-balance" path;
        cycle ← uintText event "stx-cycle" path;
        stx ← uintText event "total-stx-staker-rewards" path;
        staked ← uintText event "cycle-staked-ustx" path;
        accrued ← uintText event "accrued-rewards-per-ustx" path;
        cumulative ← uintText event "cumulative-rewards-per-ustx" path;
        Ok (Some {| bondPeriods := texts; calculationBurnHeight := height;
                    grossAccruedRewardsSats := gross; totalBondRewardsSats := total;
                    reserveDepositSats := deposit; reserveBalanceSats := balance;
                    rewardCycle := cycle; totalStxStakerRewardsSats := stx;
                    cycleStakedUstx := staked; accruedRewardsPerUstx := accrued;
                    cumulativeRewardsPerUstx := cumulative |})
    | v => Err (codec_error (expected_type TList (type_of v)) (path ++ ".bond-periods"))
    end.

End Pox5Events.

(** ** The signer manager's prints *)

Module ManagerEvents.
Import Codecs.

Record L1Withdrawal := { l1_requestId : string; l1_amountSats : string; l1_maxFeeSats : string }.

Inductive ManagerPrintEvent :=
  | claim_staker_rewards (stakerPrincipal rewardCycle : string) (bondIndex : option string)
      (amountSats : string) (l1Withdrawal : option L1Withdrawal)
  | reclaim_failed_withdrawal (requestId stakerPrincipal amountSats : string)
  | settle_accepted_withdrawal (requestId stakerPrincipal liabilityReleasedSats : string)
  | update_admin (adminPrincipal : string) (enabled : bool)
  | other (topic : string).

Definition manager_tuple (value : ClarityValue) (path : string) : decoder (list (string * ClarityValue)) :=
  expectTuple value path.

Definition manager_field (value : list (string * ClarityValue)) (name path : string)
    : decoder ClarityValue :=
  match property name value with
  | Some child => Ok child
  | None => Err (codec_error (missing_tuple_field name) path)
  end.

Definition principal (value : ClarityValue) (path : string) : decoder string :=
  expectPrincipal value path.

Definition optionalUInt (value : ClarityValue) (path : string) : decoder (option string) :=
  match value with
  | COptionalNone => Ok None
  | COptionalSome v => n ← decodeUInt v path; Ok (Some (bigint_toString n))
  | _ => Err (codec_error (expected_optional (type_of value)) path)
  end.

Definition manager_topic (value : ClarityValue) (path : string) : decoder string :=
  match value with
  | CStringASCII s | CStringUTF8 s => Ok s
  | _ => Err (codec_error (expected_string (type_of value)) path)
  end.

(** [decodeUInt(field(t, name, path), `${path}.${name}`).toString()]. *)
Definition uintOf (t : list (string * ClarityValue)) (name path : string) : decoder string :=
  v ← manager_field t name path;
  n ← decodeUInt v (path ++ "." ++ name);
  Ok (bigint_toString n).

Definition principalOf (t : list (string * ClarityValue)) (name path : string) : decoder string :=
  v ← manager_field t name path; principal v (path ++ "." ++ name).

(** The [l1-withdrawal] field of a claim. *)
Definition l1WithdrawalOf (event : list (string * ClarityValue)) (path : string)
    : decoder (option L1Withdrawal) :=
  l1Value ← manager_field event "l1-withdrawal" path;
  match l1Value with
  | COptionalSome v =>
      l1 ← manager_tuple v (path ++ ".l1-withdrawal");
      request ← uintOf l1 "withdrawal-request" (path ++ ".l1-withdrawal");
      amount ← uintOf l1 "amount" (path ++ ".l1-withdrawal");
      fee ← uintOf l1 "max-fee" (path ++ ".l1-withdrawal");
      Ok (Some {| l1_requestId := request; l1_amountSats := amount; l1_maxFeeSats := fee |})
  | COptionalNone => Ok None
  | _ => Err (codec_error (expected_optional (type_of l1Value)) (path ++ ".l1-withdrawal"))
  end.

(** The branches on the topic. *)
Definition decodeTopic (event : list (string * ClarityValue)) (eventTopic path : string)
    : decoder ManagerPrintEvent :=
  if String.eqb eventTopic "claim-staker-rewards" then
    l1Withdrawal ← l1WithdrawalOf event path;
    staker ← principalOf event "staker" path;
    cycle ← uintOf event "reward-cycle" path;
    b ← manager_field event "bond-index" path;
    bondIndex ← optionalUInt b (path ++ ".bond-index");
    amount ← uintOf event "amount-sats" path;
    Ok (claim_staker_rewards staker cycle bondIndex amount l1Withdrawal)
  else if String.eqb eventTopic "reclaim-failed-withdrawal" then
    request ← uintOf event "request-id" path;
    staker ← principalOf event "staker" path;
    amount ← uintOf event "amount-sats" path;
    Ok (reclaim_failed_withdrawal request staker amount)
  else if String.eqb eventTopic "settle-accepted-withdrawal" then
    request ← uintOf event "request-id" path;
    staker ← principalOf event "staker" path;
    released ← uintOf event "liability-released" path;
    Ok (settle_accepted_withdrawal request staker released)
  else if String.eqb eventTopic "update-admin" then
    admin ← principalOf event "admin" path;
    e ← manager_field event "enabled" path;
    enabled ← decodeBoolean e (path ++ ".enabled");
    Ok (update_admin admin enabled)
  else Ok (other eventTopic).

Definition decodeManagerPrintEvent (value : ClarityValue) (path : string)
    : decoder ManagerPrintEvent :=
  event ← manager_tuple value path;
  t ← manager_field event "topic" path;
  eventTopic ← manager_topic t (path ++ ".topic");
  decodeTopic event eventTopic path.

End ManagerEvents.

(** * What the decoders accept

    The fields a decoder reads, as facts about the tuple: the shapes under which it returns. *)

Definition has_uint (f : list (string * ClarityValue)) (name : string) (n : Z) : Prop :=
  property name f = Some (CUInt n).

Definition has_uint_text (f : list (string * ClarityValue)) (name text : string) : Prop :=
  exists n, has_uint f name n /\ text = bigint_toString n.

Definition has_principal (f : list (string * ClarityValue)) (name p : string) : Prop :=
  property name f = Some (CPrincipalStandard p) \/ property name f = Some (CPrincipalContract p).

Definition has_topic (f : list (string * ClarityValue)) (t : string) : Prop :=
  property "topic" f = Some (CStringASCII t) \/ property "topic" f = Some (CStringUTF8 t).

Definition has_bool (f : list (string * ClarityValue)) (name : string) (b : bool) : Prop :=
  property name f = Some (if b then CBoolTrue else CBoolFalse).

Lemma decodeUInt_Ok v path n : Codecs.decodeUInt v path = Ok n <-> v = CUInt n.
Proof. unfold Codecs.decodeUInt, Codecs.expectUInt, Codecs.mismatch. destruct v; split; congruence. Qed.

Lemma expectTuple_Ok v path f : Codecs.expectTuple v path = Ok f <-> v = CTuple f.
Proof. unfold Codecs.expectTuple, Codecs.mismatch. destruct v; split; congruence. Qed.

Lemma expectPrincipal_Ok v path p :
  Codecs.expectPrincipal v path = Ok p <-> v = CPrincipalStandard p \/ v = CPrincipalContract p.
Proof.
  unfold Codecs.expectPrincipal. destruct v; split; try (intros [|]; congruence);
    intros [= ->]; auto.
Qed.

Lemma decodeBoolean_Ok v path b :
  Codecs.decodeBoolean v path = Ok b <-> v = if b then CBoolTrue else CBoolFalse.
Proof. unfold Codecs.decodeBoolean. destruct v, b; split; congruence. Qed.

Lemma topic_Ok v path t :
  Pox5Events.topic v path = Ok t <-> v = CStringASCII t \/ v = CStringUTF8 t.
Proof.
  unfold Pox5Events.topic. destruct v; split; try (intros [|]; congruence);
    intros [= ->]; auto.
Qed.

Lemma field_Ok f name path v :
  ManagerEvents.manager_field f name path = Ok v <-> property name f = Some v.
Proof. unfold ManagerEvents.manager_field. destruct (property name f); split; congruence. Qed.

Lemma tupleField_Ok v name path w :
  Codecs.tupleField v name path = Ok w <-> exists f, v = CTuple f /\ property name f = Some w.
Proof.
  unfold Codecs.tupleField. rewrite bind_Ok. setoid_rewrite expectTuple_Ok. split.
  - intros (f & -> & H). exists f. destruct (property name f); split; congruence.
  - intros (f & -> & H). exists f. by rewrite H.
Qed.

Lemma uintOf_Ok f name path s :
  ManagerEvents.uintOf f name path = Ok s <-> has_uint_text f name s.
Proof.
  unfold ManagerEvents.uintOf, has_uint_text, has_uint. rewrite bind_Ok. split.
  - intros (v & Hv%field_Ok & (n & ->%decodeUInt_Ok & [= <-])%bind_Ok). eauto.
  - intros (n & Hn & ->). exists (CUInt n). by rewrite field_Ok.
Qed.

Lemma uintText_Ok f name path s :
  Pox5Events.uintText f name path = Ok s <-> has_uint_text f name s.
Proof. apply uintOf_Ok. Qed.

Lemma principalOf_Ok f name path p :
  ManagerEvents.principalOf f name path = Ok p <-> has_principal f name p.
Proof.
  unfold ManagerEvents.principalOf, ManagerEvents.principal, has_principal. rewrite bind_Ok.
  setoid_rewrite field_Ok. setoid_rewrite expectPrincipal_Ok. split.
  - intros (v & Hv & [-> | ->]); auto.
  - intros [H | H]; eauto.
Qed.

Lemma boolOf_Ok f name path q b :
  (e ← ManagerEvents.manager_field f name path; Codecs.decodeBoolean e q) = Ok b <-> has_bool f name b.
Proof.
  rewrite bind_Ok. setoid_rewrite field_Ok. setoid_rewrite decodeBoolean_Ok. unfold has_bool. split.
  - by intros (v & Hv & ->).
  - eauto.
Qed.

Lemma topicOf_Ok f path q t :
  (v ← ManagerEvents.manager_field f "topic" path; ManagerEvents.manager_topic v q) = Ok t <-> has_topic f t.
Proof.
  rewrite bind_Ok. setoid_rewrite field_Ok. setoid_rewrite topic_Ok. unfold has_topic. split.
  - intros (v & Hv & [-> | ->]); auto.
  - intros [H | H]; eauto.
Qed.

Lemma has_topic_det f t u : has_topic f t -> has_topic f u -> t = u.
Proof. unfold has_topic. intros [H|H] [K|K]; congruence. Qed.

Lemma periodTexts_Ok l i path texts :
  Pox5Events.periodTexts l i path = Ok texts <->
  exists ns, l = CUInt <$> ns /\ texts = bigint_toString <$> ns.
Proof.
  revert i texts; induction l as [|v l IH]; intros i texts; cbn [Pox5Events.periodTexts].
  - split.
    + intros [= <-]. by exists [].
    + intros (ns & H & ->). by destruct ns.
  - rewrite bind_Ok. split.
    + intros (n & ->%decodeUInt_Ok & (more & (ns & -> & ->)%IH & [= <-])%bind_Ok).
      by exists (n :: ns).
    + intros ([|n ns] & H & ->); [done|]. injection H as -> ->.
      exists n. split; [done|]. apply bind_Ok. exists (bigint_toString <$> ns).
      split; [apply IH; eauto | done].
Qed.

(** ** The manager prints, declaratively *)

Import ManagerEvents.

Definition has_optional_uint_text (f : list (string * ClarityValue)) (name : string)
    (text : option string) : Prop :=
  match text with
  | None => property name f = Some COptionalNone
  | Some t => exists n, property name f = Some (COptionalSome (CUInt n)) /\ t = bigint_toString n
  end.

Definition has_l1_withdrawal (f : list (string * ClarityValue)) (w : option L1Withdrawal) : Prop :=
  match w with
  | None => property "l1-withdrawal" f = Some COptionalNone
  | Some l1 => exists g,
      property "l1-withdrawal" f = Some (COptionalSome (CTuple g)) /\
      has_uint_text g "withdrawal-request" (l1_requestId l1) /\
      has_uint_text g "amount" (l1_amountSats l1) /\
      has_uint_text g "max-fee" (l1_maxFeeSats l1)
  end.

Definition known_topics : list string :=
  ["claim-staker-rewards"; "reclaim-failed-withdrawal"; "settle-accepted-withdrawal"; "update-admin"].

Inductive manager_print (f : list (string * ClarityValue)) : ManagerPrintEvent -> Prop :=
  | print_claim s c b a w :
      has_topic f "claim-staker-rewards" ->
      has_l1_withdrawal f w -> has_principal f "staker" s -> has_uint_text f "reward-cycle" c ->
      has_optional_uint_text f "bond-index" b -> has_uint_text f "amount-sats" a ->
      manager_print f (claim_staker_rewards s c b a w)
  | print_reclaim r s a :
      has_topic f "reclaim-failed-withdrawal" ->
      has_uint_text f "request-id" r -> has_principal f "staker" s ->
      has_uint_text f "amount-sats" a ->
      manager_print f (reclaim_failed_withdrawal r s a)
  | print_settle r s a :
      has_topic f "settle-accepted-withdrawal" ->
      has_uint_text f "request-id" r -> has_principal f "staker" s ->
      has_uint_text f "liability-released" a ->
      manager_print f (settle_accepted_withdrawal r s a)
  | print_admin p b :
      has_topic f "update-admin" -> has_principal f "admin" p -> has_bool f "enabled" b ->
      manager_print f (update_admin p b)
  | print_other t :
      has_topic f t -> t ∉ known_topics -> manager_print f (other t).

Lemma l1WithdrawalOf_Ok f path w :
  l1WithdrawalOf f path = Ok w <-> has_l1_withdrawal f w.
Proof.
  unfold l1WithdrawalOf. rewrite bind_Ok. setoid_rewrite field_Ok.
  split.
  - intros (v & Hv & H). destruct v; try discriminate H.
    + by injection H as <-.
    + apply bind_Ok in H as (g & ->%expectTuple_Ok & H).
      apply bind_Ok in H as (r & Hr%uintOf_Ok & H).
      apply bind_Ok in H as (a & Ha%uintOf_Ok & H).
      apply bind_Ok in H as (m & Hm%uintOf_Ok & [= <-]).
      exists g. split_and!; done.
  - destruct w as [[r a m]|]; cbn.
    + intros (g & Hg & Hr & Ha & Hm). eexists; split; [exact Hg|].
      repeat (apply bind_Ok; eexists; split; [first [by apply uintOf_Ok | done]|]). done.
    + eauto.
Qed.

Lemma bondIndexOf_Ok f path q b :
  (v ← manager_field f "bond-index" path; optionalUInt v q) = Ok b <->
  has_optional_uint_text f "bond-index" b.
Proof.
  rewrite bind_Ok. setoid_rewrite field_Ok. split.
  - intros (v & Hv & H). destruct v; try discriminate H; cbn in H.
    + by injection H as <-.
    + apply bind_Ok in H as (n & ->%decodeUInt_Ok & [= <-]). cbn; eauto.
  - destruct b as [t|]; cbn.
    + intros (n & Hn & ->). eauto.
    + eauto.
Qed.


(** Chains the steps of a successful decoder: [ok_steps] splits the goal. *)
Ltac ok_step tac :=
  apply bind_Ok; eexists; split; [solve [tac] | cbn beta].

(** The first read of every print: the tuple and its topic. *)
Lemma print_prefix_Ok {A} (k : _ -> string -> decoder A) v path a :
  (event ← ManagerEvents.manager_tuple v path;
   t ← ManagerEvents.manager_field event "topic" path;
   eventTopic ← ManagerEvents.manager_topic t (path ++ ".topic");
   k event eventTopic) = Ok a <->
  exists f t, v = CTuple f /\ has_topic f t /\ k f t = Ok a.
Proof.
  rewrite bind_Ok. unfold ManagerEvents.manager_tuple. setoid_rewrite expectTuple_Ok. split.
  - intros (f & -> & H). exists f. rewrite bind_assoc in H.
    apply bind_Ok in H as (t & Ht%topicOf_Ok & H). eauto.
  - intros (f & t & -> & Ht & Hk). exists f. split; [done|]. rewrite bind_assoc.
    apply bind_Ok. exists t. split; [by apply topicOf_Ok | done].
Qed.

Lemma decode_sound f t path e :
  has_topic f t -> decodeTopic f t path = Ok e -> manager_print f e.
Proof.
  intros Ht H. unfold decodeTopic in H.
  destruct (String.eqb_spec t "claim-staker-rewards") as [->|H1].
  { apply bind_Ok in H as (w & Hw%l1WithdrawalOf_Ok & H).
    apply bind_Ok in H as (s & Hs%principalOf_Ok & H).
    apply bind_Ok in H as (c & Hc%uintOf_Ok & H).
    rewrite bind_assoc in H. apply bind_Ok in H as (b & Hb%bondIndexOf_Ok & H).
    apply bind_Ok in H as (a & Ha%uintOf_Ok & [= <-]). by constructor. }
  destruct (String.eqb_spec t "reclaim-failed-withdrawal") as [->|H2].
  { apply bind_Ok in H as (r & Hr%uintOf_Ok & H).
    apply bind_Ok in H as (s & Hs%principalOf_Ok & H).
    apply bind_Ok in H as (a & Ha%uintOf_Ok & [= <-]). by constructor. }
  destruct (String.eqb_spec t "settle-accepted-withdrawal") as [->|H3].
  { apply bind_Ok in H as (r & Hr%uintOf_Ok & H).
    apply bind_Ok in H as (s & Hs%principalOf_Ok & H).
    apply bind_Ok in H as (a & Ha%uintOf_Ok & [= <-]). by constructor. }
  destruct (String.eqb_spec t "update-admin") as [->|H4].
  { apply bind_Ok in H as (s & Hs%principalOf_Ok & H).
    rewrite bind_assoc in H. apply bind_Ok in H as (b & Hb%boolOf_Ok & [= <-]). by constructor. }
  injection H as <-. constructor; [done|]. unfold known_topics.
  rewrite !elem_of_cons, elem_of_nil. intuition congruence.
Qed.

Lemma decodeTopic_unknown f t path :
  t ∉ known_topics -> decodeTopic f t path = Ok (other t).
Proof.
  unfold known_topics, decodeTopic. intros Hn.
  rewrite !elem_of_cons, elem_of_nil in Hn. apply Decidable.not_or in Hn as [? Hn].
  apply Decidable.not_or in Hn as [? Hn]. apply Decidable.not_or in Hn as [? Hn].
  apply Decidable.not_or in Hn as [? Hn]. by repeat (rewrite (proj2 (String.eqb_neq t _)) by done).
Qed.

(** The manager print decoder implements the event grammar: it returns an event exactly
    when the value is a tuple whose topic and fields have the shapes that event's print has,
    and every other topic is passed through as [other]. *)
Theorem decodeManagerPrintEvent_spec v path e :
  decodeManagerPrintEvent v path = Ok e <-> exists f, v = CTuple f /\ manager_print f e.
Proof.
  unfold decodeManagerPrintEvent.
  rewrite (print_prefix_Ok (fun f t => decodeTopic f t path)). split.
  - intros (f & t & -> & Ht & H). exists f. split; [done|]. by eapply decode_sound.
  - intros (f & -> & H). exists f.
    destruct H as [s c b a w Ht Hw Hs Hc Hb Ha|r s a Ht Hr Hs Ha|r s a Ht Hr Hs Ha|p b Ht Hp Hb|t Ht Hn];
      eexists; (split_and!; [done | exact Ht |]);
      [unfold decodeTopic; cbn ..|].
    + ok_step ltac:(by apply l1WithdrawalOf_Ok). ok_step ltac:(by apply principalOf_Ok).
      ok_step ltac:(by apply uintOf_Ok). rewrite bind_assoc.
      ok_step ltac:(by apply bondIndexOf_Ok). by ok_step ltac:(by apply uintOf_Ok).
    + ok_step ltac:(by apply uintOf_Ok). ok_step ltac:(by apply principalOf_Ok).
      by ok_step ltac:(by apply uintOf_Ok).
    + ok_step ltac:(by apply uintOf_Ok). ok_step ltac:(by apply principalOf_Ok).
      by ok_step ltac:(by apply uintOf_Ok).
    + ok_step ltac:(by apply principalOf_Ok). rewrite bind_assoc.
      by ok_step ltac:(by apply boolOf_Ok).
    + by apply decodeTopic_unknown.
Qed.

(** ** The calculation print, declaratively *)

Definition calculation_print (f : list (string * ClarityValue))
    (e : Pox5Events.Pox5CalculateRewardsEvent) : Prop :=
  (exists ns, property "bond-periods" f = Some (CList (CUInt <$> ns)) /\
     Pox5Events.bondPeriods e = bigint_toString <$> ns) /\
  has_uint_text f "calculation-height" (Pox5Events.calculationBurnHeight e) /\
  has_uint_text f "gross-accrued-rewards" (Pox5Events.grossAccruedRewardsSats e) /\
  has_uint_text f "total-bond-rewards" (Pox5Events.totalBondRewardsSats e) /\
  has_uint_text f "reserve-deposit" (Pox5Events.reserveDepositSats e) /\
  has_uint_text f "reserve-balance" (Pox5Events.reserveBalanceSats e) /\
  has_uint_text f "stx-cycle" (Pox5Events.rewardCycle e) /\
  has_uint_text f "total-stx-staker-rewards" (Pox5Events.totalStxStakerRewardsSats e) /\
  has_uint_text f "cycle-staked-ustx" (Pox5Events.cycleStakedUstx e) /\
  has_uint_text f "accrued-rewards-per-ustx" (Pox5Events.accruedRewardsPerUstx e) /\
  has_uint_text f "cumulative-rewards-per-ustx" (Pox5Events.cumulativeRewardsPerUstx e).

(** The PoX-5 calculation decoder returns [Some e] exactly on tuples whose topic is
    [calculate-rewards] and whose eleven fields have the shapes of [e], and [None] exactly on
    tuples with any other topic; nothing else decodes. *)
Theorem decodePox5CalculateRewardsEvent_spec v path r :
  Pox5Events.decodePox5CalculateRewardsEvent v path = Ok r <->
  exists f t, v = CTuple f /\ has_topic f t /\
    match r with
    | Some e => t = "calculate-rewards" /\ calculation_print f e
    | None => t <> "calculate-rewards"
    end.
Proof.
  unfold Pox5Events.decodePox5CalculateRewardsEvent.
  rewrite (print_prefix_Ok _ v path r). split.
  - intros (f & t & -> & Ht & H). exists f, t. split_and!; [done|done|].
    destruct (String.eqb_spec t "calculate-rewards") as [->|Hn]; cbn [negb] in H;
      [|by injection H as <-].
    apply bind_Ok in H as (p & Hp%field_Ok & H). destruct p as [| | | | | | | | | | |l| | |]; try discriminate H.
    apply bind_Ok in H as (ts & (ns & -> & ->)%periodTexts_Ok & H).
    do 10 (let x := fresh "x" in let Hx := fresh "Hx" in
           apply bind_Ok in H as (x & Hx%uintText_Ok & H)).
    injection H as <-. unfold calculation_print; cbn. split_and!; eauto.
  - intros (f & t & -> & Ht & H). exists f, t. split_and!; [done|done|].
    destruct r as [e|].
    + destruct H as (-> & (ns & Hp & Hns) & H). cbn [negb String.eqb].
      rewrite (bool_decide_eq_true_2 _ eq_refl) || idtac. cbn.
      ok_step ltac:(by apply field_Ok).
      ok_step ltac:(apply periodTexts_Ok; eauto).
      destruct_and!. do 10 (ok_step ltac:(eapply uintText_Ok; eassumption)).
      destruct e; cbn in *. by subst.
    + apply String.eqb_neq in H. by rewrite H.
Qed.

(** ** The claim result, declaratively *)

Lemma uintField_Ok v name path n :
  Codecs.uintField v name path = Ok n <-> exists f, v = CTuple f /\ has_uint f name n.
Proof.
  unfold Codecs.uintField, has_uint. rewrite bind_Ok. setoid_rewrite tupleField_Ok.
  setoid_rewrite decodeUInt_Ok. split.
  - intros (w & (f & -> & Hw) & ->). eauto.
  - intros (f & -> & Hf). eauto.
Qed.

Lemma decodeResponseOk_Ok v path w : Codecs.decodeResponseOk v path = Ok w <-> v = CResponseOk w.
Proof.
  unfold Codecs.decodeResponseOk, Codecs.expectResponseOk, Codecs.mismatch.
  destruct v; split; congruence.
Qed.

Definition bond_print (v : ClarityValue) (r : Z * Codecs.RewardBucket) : Prop :=
  exists f, v = CTuple f /\ has_uint f "bond-index" r.1 /\
    has_uint f "earned" (Codecs.rb_earned r.2) /\
    has_uint f "rewards-per-token" (Codecs.rb_rewardsPerToken r.2).

Definition claim_result (f : list (string * ClarityValue)) (r : Codecs.ClaimRewardsResult) : Prop :=
  has_uint f "total-rewards" (Codecs.cr_totalRewards r) /\
  has_uint f "bond-totals" (Codecs.cr_bondTotals r) /\
  (exists g, property "stx-rewards" f = Some (CTuple g) /\
     has_uint g "earned" (Codecs.rb_earned (Codecs.cr_stxRewards r)) /\
     has_uint g "rewards-per-token" (Codecs.rb_rewardsPerToken (Codecs.cr_stxRewards r))) /\
  (exists l, property "bond-rewards" f = Some (CList l) /\
     Forall2 bond_print l (Codecs.cr_bondRewards r)).

Lemma decodeBondRewards_Ok l i path r :
  Codecs.decodeBondRewards l i path = Ok r <-> Forall2 bond_print l r.
Proof.
  revert i r; induction l as [|v l IH]; intros i r; cbn [Codecs.decodeBondRewards].
  - split; [intros [= <-]; constructor | inversion 1; done].
  - split.
    + intros H.
      apply bind_Ok in H as (b & (f & -> & Hb)%uintField_Ok & H).
      apply bind_Ok in H as (e & (g & [= <-] & He)%uintField_Ok & H).
      apply bind_Ok in H as (t & (h & [= <-] & Ht)%uintField_Ok & H).
      apply bind_Ok in H as (more & Hm%IH & [= <-]).
      constructor; [exists f; split_and!; done | done].
    + inversion 1 as [|? [b [e t]] ? more (f & -> & Hb & He & Ht) Hm]; subst. cbn in Hb, He, Ht.
      do 3 (ok_step ltac:(apply uintField_Ok; eauto)).
      by ok_step ltac:(by apply IH).
Qed.

(** [decodeClaimRewardsResult] returns a result exactly for an [ok] response carrying a
    tuple whose totals, STX bucket and per-bond buckets (in list order) are the result's; in
    particular an [err] response never decodes. *)
Theorem decodeClaimRewardsResult_spec v path r :
  Codecs.decodeClaimRewardsResult v path = Ok r <->
  exists f, v = CResponseOk (CTuple f) /\ claim_result f r.
Proof.
  unfold Codecs.decodeClaimRewardsResult, claim_result. split.
  - intros H. apply bind_Ok in H as (w & ->%decodeResponseOk_Ok & H).
    apply bind_Ok in H as (s & (f & -> & Hs)%tupleField_Ok & H).
    apply bind_Ok in H as (bl & (? & [= <-] & Hbl)%tupleField_Ok & H).
    apply bind_Ok in H as (l & Hl & H).
    apply bind_Ok in H as (total & (? & [= <-] & Ht)%uintField_Ok & H).
    apply bind_Ok in H as (bonds & (? & [= <-] & Hb)%uintField_Ok & H).
    apply bind_Ok in H as (e & (g & -> & He)%tupleField_Ok & H).
    apply bind_Ok in H as (en & ->%decodeUInt_Ok & H).
    apply bind_Ok in H as (t & (? & [= <-] & Htk)%tupleField_Ok & H).
    apply bind_Ok in H as (tn & ->%decodeUInt_Ok & H).
    apply bind_Ok in H as (rs & Hrs%decodeBondRewards_Ok & [= <-]).
    destruct bl; try discriminate Hl. injection Hl as ->.
    exists f. split; [done|]. cbn. split_and!; [done|done|eauto|eauto].
  - intros (f & -> & Ht & Hb & (g & Hg & He & Hr) & (l & Hl & Hrs)).
    ok_step ltac:(by apply decodeResponseOk_Ok).
    do 2 (ok_step ltac:(apply tupleField_Ok; eauto)).
    ok_step ltac:(done). do 2 (ok_step ltac:(apply uintField_Ok; eauto)).
    do 2 (ok_step ltac:(apply tupleField_Ok; eauto); ok_step ltac:(by apply decodeUInt_Ok)).
    ok_step ltac:(by apply decodeBondRewards_Ok). by destruct r as [? ? [] ?].
Qed.

Example decode_other_print :
  decodeManagerPrintEvent (CTuple [("topic", CStringASCII "withdraw"); ("x", CBoolTrue)]) "e" =
    Ok (other "withdraw") /\
  decodeManagerPrintEvent (CTuple [("topic", CStringASCII "update-admin");
    ("admin", CPrincipalStandard "SP1"); ("enabled", CUInt 1)]) "e" =
    Err (codec_error (expected_boolean TUInt) "e.enabled").
Proof. split; reflexivity. Qed.
