(* ===== verification/Principals.v ===== *)
(** * Contract principals

    packages/protocol/src/principals.ts.  [validateStacksAddress] is the library's address
    check, a parameter.  Parsing a contract principal is shown to be exact: it accepts
    [ADDRESS.name] for a valid address and a well-formed name and nothing else. *)

From S2P Require Import Prelude Text.

Open Scope Z_scope.

Inductive Network := mainnet | testnet.

#[global] Instance Network_eq_dec : EqDecision Network.
Proof. solve_decision. Defined.

Inductive PrincipalError := not_a_contract | invalid_address | invalid_contract_name.

Record ContractPrincipalParts := {
  address : string;
  contractName : string;
  network : Network;
}.

(** [(s.slice(0, i), s.slice(i + 1))] for [i = s.indexOf(".")], [None] when it is [-1]. *)
Fixpoint cut_dot (s : string) : option (string * string) :=
  match s with
  | EmptyString => None
  | String "." rest => Some (EmptyString, rest)
  | String c rest =>
      match cut_dot rest with
      | Some (before, after) => Some (String c before, after)
      | None => None
      end
  end.

Definition includes_dot (s : string) : bool := if cut_dot s is Some _ then true else false.

Definition is_letter (c : ascii) : bool := in_range "a" "z" c || in_range "A" "Z" c.

(** [/^[a-zA-Z][a-zA-Z0-9-_]{0,39}$/] *)
Definition contractNamePattern (s : string) : bool :=
  match s with
  | EmptyString => false
  | String c rest =>
      is_letter c && bool_decide (String.length rest <= 39)%nat &&
      forallb (fun d => is_letter d || is_digit d || Ascii.eqb d "-" || Ascii.eqb d "_") (chars rest)
  end.

(** [address.slice(0, 2)] *)
Definition prefix2 (s : string) : string := String.substring 0 2 s.

Definition network_of (address : string) : Network :=
  if String.eqb (prefix2 address) "SP" || String.eqb (prefix2 address) "SM"
  then mainnet else testnet.

Section Principals.

Context (validateStacksAddress : string -> bool).

Definition parseContractPrincipal (principal : string)
    : result PrincipalError ContractPrincipalParts :=
  match cut_dot principal with
  | None => Err not_a_contract
  | Some (address, contractName) =>
      if String.eqb address "" || includes_dot contractName then Err not_a_contract
      else if negb (validateStacksAddress address) then Err invalid_address
      else if negb (contractNamePattern contractName) then Err invalid_contract_name
      else Ok {| address := address; contractName := contractName; network := network_of address |}
  end.

Definition validatePrincipal (principal : string) : bool :=
  if negb (includes_dot principal) then validateStacksAddress principal
  else is_ok (parseContractPrincipal principal).

(** [ADDRESS.name] *)
Definition contract_principal (parts : ContractPrincipalParts) : string :=
  (address parts ++ "." ++ contractName parts)%string.

Definition valid_parts (parts : ContractPrincipalParts) : Prop :=
  address parts <> ""%string /\ includes_dot (address parts) = false /\
  validateStacksAddress (address parts) = true /\
  contractNamePattern (contractName parts) = true /\
  network parts = network_of (address parts).

Lemma cut_dot_cons c rest :
  c <> "."%char ->
  cut_dot (String c rest) =
    match cut_dot rest with Some (b, a) => Some (String c b, a) | None => None end.
Proof. intros H. destruct c as [[] [] [] [] [] [] [] []]; done || (by destruct H). Qed.

Lemma cut_dot_spec s a b :
  cut_dot s = Some (a, b) <-> s = (a ++ "." ++ b)%string /\ includes_dot a = false.
Proof.
  unfold includes_dot. revert a; induction s as [|c s IH]; intros a.
  - split; [done|]. by intros [H _]; destruct a.
  - destruct (ascii_dec c ".") as [->|Hc].
    + cbn. split; [by intros [= <- <-]|]. intros [H Ha]. destruct a as [|d a]; [by injection H as ->|].
      injection H as <- _. done.
    + rewrite cut_dot_cons by done. split.
      * destruct (cut_dot s) as [[a' b']|] eqn:E; [|done]. intros [= <- <-].
        destruct (proj1 (IH a') eq_refl) as [-> Ha]. split; [done|]. rewrite cut_dot_cons by done.
        by destruct (cut_dot a') as [[]|].
      * intros [H Ha]. destruct a as [|d a]; cbn in H; [by injection H|].
        injection H as <- H. rewrite cut_dot_cons in Ha by done.
        assert (cut_dot s = Some (a, b)) as ->; [|done].
        apply IH. split; [done|]. by destruct (cut_dot a) as [[]|].
Qed.

Lemma name_char_not_dot d :
  is_letter d || is_digit d || Ascii.eqb d "-" || Ascii.eqb d "_" = true -> d <> "."%char.
Proof. by intros H ->. Qed.

Lemma contractName_no_dot s : contractNamePattern s = true -> includes_dot s = false.
Proof.
  assert (Hrest : forall t, forallb (fun d => is_letter d || is_digit d || Ascii.eqb d "-" ||
            Ascii.eqb d "_") (chars t) = true -> includes_dot t = false).
  { intros t. unfold includes_dot. induction t as [|c t IH]; cbn [chars String.list_ascii_of_string forallb]; [done|].
    rewrite andb_true_iff. intros [Hc Ht]. apply name_char_not_dot in Hc.
    rewrite cut_dot_cons by done. specialize (IH Ht). by destruct (cut_dot t) as [[]|]. }
  destruct s as [|c s]; cbn; [done|]. rewrite !andb_true_iff. intros [[Hc _] Hs].
  specialize (Hrest s Hs). unfold includes_dot in *. rewrite cut_dot_cons.
  - by destruct (cut_dot s) as [[]|].
  - by intros ->.
Qed.

Lemma parse_contract_principal_text principal parts :
  parseContractPrincipal principal = Ok parts -> principal = contract_principal parts.
Proof.
  unfold parseContractPrincipal, contract_principal.
  destruct (cut_dot principal) as [[a n]|] eqn:E; [|done].
  apply cut_dot_spec in E as [-> _]. repeat case_match; try done. by intros [= <-].
Qed.

(** Parsing is exact: it returns [parts] exactly when the text is [address.name] for a
    non-empty dot-free valid address and a well-formed name, with the network of the address
    prefix; so printing the parts gives the text back. *)
Theorem parseContractPrincipal_spec principal parts :
  parseContractPrincipal principal = Ok parts <->
  principal = contract_principal parts /\ valid_parts parts.
Proof.
  unfold parseContractPrincipal, contract_principal, valid_parts. split.
  - destruct (cut_dot principal) as [[a n]|] eqn:E; [|done].
    apply cut_dot_spec in E as [-> Ha].
    destruct (String.eqb a "" || includes_dot n) eqn:E1; [done|]. breflect.
    destruct (validateStacksAddress a) eqn:E2; [|done].
    destruct (contractNamePattern n) eqn:E3; [|done]. intros [= <-]. cbn. split_and!; done.
  - destruct parts as [a n net]; cbn. intros (-> & Hne & Ha & Hv & Hn & ->).
    assert (cut_dot (a ++ String "." n)%string = Some (a, n)) as -> by (by apply cut_dot_spec).
    rewrite (contractName_no_dot n) by done. rewrite Hv, Hn.
    by apply String.eqb_neq in Hne as ->.
Qed.

Lemma parseContractPrincipal_Ok principal parts :
  parseContractPrincipal principal = Ok parts -> network parts = network_of (address parts).
Proof.
  unfold parseContractPrincipal. destruct (cut_dot principal) as [[a n]|]; [|done].
  repeat case_match; try done. by intros [= <-].
Qed.

End Principals.

Example parse_examples :
  let valid s := String.eqb s "SP1" || String.eqb s "ST1" in
  parseContractPrincipal valid "SP1.signer-manager" =
    Ok {| address := "SP1"; contractName := "signer-manager"; network := mainnet |} /\
  parseContractPrincipal valid "ST1.a.b" = Err not_a_contract /\
  parseContractPrincipal valid "ST2.a" = Err invalid_address /\
  parseContractPrincipal valid "ST1.9a" = Err invalid_contract_name /\
  validatePrincipal valid "ST1" = true /\ validatePrincipal valid ".a" = false.
Proof. split_and!; reflexivity. Qed.
