(* ===== verification/OperationPlan.v ===== *)
(** * Sealed reward-operation plans

    packages/protocol/src/reward-operation-plan.ts.  A plan input is turned into one
    deny-mode contract call, the call into unsigned bytes (the library's part, a parameter),
    and both into a sealed plan; before signing a plan is rebuilt from its own material and
    compared.  Strings keep their text: [uintTextSchema] and [toString]/[BigInt] are the
    functions of [Text].  Zod schemas are boolean predicates; literal fields of the schemas
    ([schemaVersion], [kind]) appear in the JSON but not in the records. *)

From S2P Require Import Prelude Text CanonicalJson Principals.

Open Scope Z_scope.

(** ** Data *)

Inductive AdapterId :=
  | pox5_calculate_rewards
  | reference_manager_claim_rewards
  | reference_manager_claim_staker_rewards
  | reference_manager_settle_accepted_withdrawal
  | reference_manager_reclaim_failed_withdrawal.

#[global] Instance AdapterId_eq_dec : EqDecision AdapterId.
Proof. solve_decision. Defined.

Definition adapterIdText (id : AdapterId) : string :=
  match id with
  | pox5_calculate_rewards => "pox5-calculate-rewards"
  | reference_manager_claim_rewards => "reference-manager-claim-rewards"
  | reference_manager_claim_staker_rewards => "reference-manager-claim-staker-rewards"
  | reference_manager_settle_accepted_withdrawal => "reference-manager-settle-accepted-withdrawal"
  | reference_manager_reclaim_failed_withdrawal => "reference-manager-reclaim-failed-withdrawal"
  end.

Definition REWARD_OPERATION_ADAPTER_REVISIONS (id : AdapterId) : Z :=
  match id with
  | pox5_calculate_rewards => 1
  | reference_manager_claim_rewards => 3
  | reference_manager_claim_staker_rewards => 2
  | reference_manager_settle_accepted_withdrawal => 1
  | reference_manager_reclaim_failed_withdrawal => 1
  end.

Inductive OperationKind :=
  | op_calculate_rewards | op_claim_rewards | op_claim_staker_rewards
  | op_settle_accepted_withdrawal | op_reclaim_failed_withdrawal.

#[global] Instance OperationKind_eq_dec : EqDecision OperationKind.
Proof. solve_decision. Defined.

Definition kindText (k : OperationKind) : string :=
  match k with
  | op_calculate_rewards => "calculate-rewards"
  | op_claim_rewards => "claim-rewards"
  | op_claim_staker_rewards => "claim-staker-rewards"
  | op_settle_accepted_withdrawal => "settle-accepted-withdrawal"
  | op_reclaim_failed_withdrawal => "reclaim-failed-withdrawal"
  end.

(** [operatorRunAuthorizationSchema] *)
Record Authorization := { runId : string; recipeSha256 : string }.
(** [networkSchema] *)
Record NetworkId := { netKind : Network; chainId : Z }.
(** [anchorSchema] *)
Record Anchor := { stacksBlockHeight : Z; burnBlockHeight : Z; indexBlockHash : string }.
(** [senderSchema] *)
Record Sender := { sender_principal : string; publicKey : string }.

Inductive Checkpoint := first_half | second_half.
Inductive PayoutRoute := direct_sbtc | bitcoin_l1.

(** The operation-specific fields, over the type [T] of integers: [Z] in a plan input (a
    [bigint]), [string] in the sealed material (its decimal text). *)
Record Calculate (T : Type) := {
  ca_pox5Contract : string; ca_bondPeriods : list T; ca_targetRewardCycle : T;
  ca_targetCheckpoint : Checkpoint; ca_expectedLastRewardComputeBurnHeight : Z }.
Record Collect (T : Type) := {
  co_managerContract : string; co_pox5Contract : string; co_sbtcTokenContract : string;
  co_rewardCycle : T; co_bondPeriods : list T }.
Record StakerClaim (T : Type) := {
  st_managerContract : string; st_sbtcTokenContract : string; st_stakerPrincipal : string;
  st_rewardCycle : T; st_bondIndex : option T; st_payoutRoute : PayoutRoute;
  st_grossSats : T; st_feeSats : T }.
Record Settle (T : Type) := {
  se_managerContract : string; se_requestId : T; se_stakerPrincipal : string }.
Record Reclaim (T : Type) := {
  re_managerContract : string; re_sbtcTokenContract : string; re_requestId : T;
  re_stakerPrincipal : string; re_withdrawalAmountSats : T; re_maxFeeSats : T }.
Arguments Build_Calculate {T}. Arguments Build_Collect {T}. Arguments Build_StakerClaim {T}.
Arguments Build_Settle {T}. Arguments Build_Reclaim {T}.
Arguments ca_pox5Contract {T}. Arguments ca_bondPeriods {T}. Arguments ca_targetRewardCycle {T}.
Arguments ca_targetCheckpoint {T}. Arguments ca_expectedLastRewardComputeBurnHeight {T}.
Arguments co_managerContract {T}. Arguments co_pox5Contract {T}.
Arguments co_sbtcTokenContract {T}. Arguments co_rewardCycle {T}. Arguments co_bondPeriods {T}.
Arguments st_managerContract {T}. Arguments st_sbtcTokenContract {T}.
Arguments st_stakerPrincipal {T}. Arguments st_rewardCycle {T}. Arguments st_bondIndex {T}.
Arguments st_payoutRoute {T}. Arguments st_grossSats {T}. Arguments st_feeSats {T}.
Arguments se_managerContract {T}. Arguments se_requestId {T}. Arguments se_stakerPrincipal {T}.
Arguments re_managerContract {T}. Arguments re_sbtcTokenContract {T}. Arguments re_requestId {T}.
Arguments re_stakerPrincipal {T}. Arguments re_withdrawalAmountSats {T}.
Arguments re_maxFeeSats {T}.

(** [exactEffectSchema] *)
Record ExactEffect := { asset : string; from : string; recipient : string; amountSats : string }.

(** The common and the operation-specific part of a plan input. *)
Record CommonInput := {
  authorization : Authorization; network : NetworkId; chainAnchor : Anchor; sender : Sender;
  managerSourceFingerprint : option string; nonce : Z; feeUstx : Z }.

Inductive InputBody :=
  | in_calculate (c : Calculate Z)
  | in_collect (c : Collect Z) (expectedSbtcOutflow : Z)
  | in_staker (c : StakerClaim Z) (expectedNetSats : Z)
  | in_settle (c : Settle Z)
  | in_reclaim (c : Reclaim Z).

Record PlanInput := { common : CommonInput; input_body : InputBody }.

(** The material: the operation-specific part, then [commonMaterialSchema]. *)
Inductive MaterialBody :=
  | m_calculate (c : Calculate string)
  | m_collect (c : Collect string) (effect : ExactEffect)
  | m_staker (c : StakerClaim string) (effect : ExactEffect)
  | m_settle (c : Settle string)
  | m_reclaim (c : Reclaim string) (effect : ExactEffect).

Record Material := {
  body : MaterialBody;
  m_adapterId : AdapterId; m_adapterRevision : Z;
  m_authorization : Authorization; m_network : NetworkId; m_chainAnchor : Anchor;
  m_sender : Sender; m_managerSourceFingerprint : option string;
  m_nonce : string; m_feeUstx : string; m_unsignedTransactionSha256 : string }.

Record Plan := {
  planSha256 : string; unsignedTransactionHex : string;
  unsignedTransactionSha256 : string; material : Material }.

#[global] Instance Authorization_eq_dec : EqDecision Authorization.
Proof. solve_decision. Defined.
#[global] Instance NetworkId_eq_dec : EqDecision NetworkId.
Proof. solve_decision. Defined.
#[global] Instance Anchor_eq_dec : EqDecision Anchor.
Proof. solve_decision. Defined.
#[global] Instance Sender_eq_dec : EqDecision Sender.
Proof. solve_decision. Defined.
#[global] Instance Checkpoint_eq_dec : EqDecision Checkpoint.
Proof. solve_decision. Defined.
#[global] Instance PayoutRoute_eq_dec : EqDecision PayoutRoute.
Proof. solve_decision. Defined.
#[global] Instance ExactEffect_eq_dec : EqDecision ExactEffect.
Proof. solve_decision. Defined.
#[global] Instance Calculate_eq_dec `{EqDecision T} : EqDecision (Calculate T).
Proof. solve_decision. Defined.
#[global] Instance Collect_eq_dec `{EqDecision T} : EqDecision (Collect T).
Proof. solve_decision. Defined.
#[global] Instance StakerClaim_eq_dec `{EqDecision T} : EqDecision (StakerClaim T).
Proof. solve_decision. Defined.
#[global] Instance Settle_eq_dec `{EqDecision T} : EqDecision (Settle T).
Proof. solve_decision. Defined.
#[global] Instance Reclaim_eq_dec `{EqDecision T} : EqDecision (Reclaim T).
Proof. solve_decision. Defined.
#[global] Instance MaterialBody_eq_dec : EqDecision MaterialBody.
Proof. solve_decision. Defined.
#[global] Instance Material_eq_dec : EqDecision Material.
Proof. solve_decision. Defined.
#[global] Instance Plan_eq_dec : EqDecision Plan.
Proof. solve_decision. Defined.

(** One contract call: what the library serialises. *)
Inductive Arg :=
  | arg_uint_list (l : list Z)
  | arg_uint (n : Z)
  | arg_optional_uint (n : option Z)
  | arg_principal (p : string).

(** [Pc.principal(p).willSendEq(amount).ft(contract, token)] *)
Record PostCondition := {
  pc_principal : string; pc_willSendEq : Z; pc_contract : string; pc_token : string }.

Record Call := {
  contract : string; functionName : string; functionArgs : list Arg;
  postConditions : list PostCondition; call_material : MaterialBody }.

Inductive PostConditionMode := Allow | Deny.

(** The argument of [makeUnsignedContractCall]. *)
Record UnsignedCall := {
  u_contractAddress : string; u_contractName : string; u_functionName : string;
  u_functionArgs : list Arg; u_publicKey : string; u_nonce : Z; u_fee : Z;
  u_network : Network; u_postConditionMode : PostConditionMode;
  u_postConditions : list PostCondition }.

Inductive PlanError :=
  | invalid_input | sender_mismatch | negative_nonce_or_fee | mainnet_chain_id
  | testnet_chain_id | collect_not_positive | staker_payout_mismatch | reclaim_not_positive
  | invalid_call_contract (e : PrincipalError) | network_mismatch | library_throw
  | invalid_material | invalid_plan | invalid_number | sealed_plan_mismatch.

Abbreviation plan_result A := (result PlanError A).

(** ** The effects and amounts of a body *)

Definition material_kind (b : MaterialBody) : OperationKind :=
  match b with
  | m_calculate _ => op_calculate_rewards
  | m_collect _ _ => op_claim_rewards
  | m_staker _ _ => op_claim_staker_rewards
  | m_settle _ => op_settle_accepted_withdrawal
  | m_reclaim _ _ => op_reclaim_failed_withdrawal
  end.

Definition exact_effect (b : MaterialBody) : option ExactEffect :=
  match b with
  | m_collect _ e | m_staker _ e | m_reclaim _ e => Some e
  | _ => None
  end.

(** The sBTC contract a body names. *)
Definition token_contract (b : MaterialBody) : string :=
  match b with
  | m_collect c _ => co_sbtcTokenContract c
  | m_staker c _ => st_sbtcTokenContract c
  | m_reclaim c _ => re_sbtcTokenContract c
  | _ => ""
  end.

(** ** Text and numbers of the operation-specific fields *)

Definition calculate_text (c : Calculate Z) : Calculate string :=
  {| ca_pox5Contract := ca_pox5Contract c;
     ca_bondPeriods := bigint_toString <$> ca_bondPeriods c;
     ca_targetRewardCycle := bigint_toString (ca_targetRewardCycle c);
     ca_targetCheckpoint := ca_targetCheckpoint c;
     ca_expectedLastRewardComputeBurnHeight := ca_expectedLastRewardComputeBurnHeight c |}.

Definition collect_text (c : Collect Z) : Collect string :=
  {| co_managerContract := co_managerContract c; co_pox5Contract := co_pox5Contract c;
     co_sbtcTokenContract := co_sbtcTokenContract c;
     co_rewardCycle := bigint_toString (co_rewardCycle c);
     co_bondPeriods := bigint_toString <$> co_bondPeriods c |}.

Definition staker_text (c : StakerClaim Z) : StakerClaim string :=
  {| st_managerContract := st_managerContract c; st_sbtcTokenContract := st_sbtcTokenContract c;
     st_stakerPrincipal := st_stakerPrincipal c;
     st_rewardCycle := bigint_toString (st_rewardCycle c);
     st_bondIndex := bigint_toString <$> st_bondIndex c; st_payoutRoute := st_payoutRoute c;
     st_grossSats := bigint_toString (st_grossSats c);
     st_feeSats := bigint_toString (st_feeSats c) |}.

Definition settle_text (c : Settle Z) : Settle string :=
  {| se_managerContract := se_managerContract c;
     se_requestId := bigint_toString (se_requestId c);
     se_stakerPrincipal := se_stakerPrincipal c |}.

Definition reclaim_text (c : Reclaim Z) : Reclaim string :=
  {| re_managerContract := re_managerContract c; re_sbtcTokenContract := re_sbtcTokenContract c;
     re_requestId := bigint_toString (re_requestId c);
     re_stakerPrincipal := re_stakerPrincipal c;
     re_withdrawalAmountSats := bigint_toString (re_withdrawalAmountSats c);
     re_maxFeeSats := bigint_toString (re_maxFeeSats c) |}.

(** [BigInt] of each field; [None] is a thrown [SyntaxError]. *)
Definition calculate_read (c : Calculate string) : option (Calculate Z) :=
  periods ← mapM BigInt (ca_bondPeriods c);
  cycle ← BigInt (ca_targetRewardCycle c);
  Some {| ca_pox5Contract := ca_pox5Contract c; ca_bondPeriods := periods;
          ca_targetRewardCycle := cycle; ca_targetCheckpoint := ca_targetCheckpoint c;
          ca_expectedLastRewardComputeBurnHeight := ca_expectedLastRewardComputeBurnHeight c |}.

Definition collect_read (c : Collect string) : option (Collect Z) :=
  cycle ← BigInt (co_rewardCycle c);
  periods ← mapM BigInt (co_bondPeriods c);
  Some {| co_managerContract := co_managerContract c; co_pox5Contract := co_pox5Contract c;
          co_sbtcTokenContract := co_sbtcTokenContract c; co_rewardCycle := cycle;
          co_bondPeriods := periods |}.

Definition optional_read (o : option string) : option (option Z) :=
  match o with None => Some None | Some t => n ← BigInt t; Some (Some n) end.

Definition staker_read (c : StakerClaim string) : option (StakerClaim Z) :=
  cycle ← BigInt (st_rewardCycle c);
  bond ← optional_read (st_bondIndex c);
  gross ← BigInt (st_grossSats c);
  fee ← BigInt (st_feeSats c);
  Some {| st_managerContract := st_managerContract c;
          st_sbtcTokenContract := st_sbtcTokenContract c;
          st_stakerPrincipal := st_stakerPrincipal c; st_rewardCycle := cycle;
          st_bondIndex := bond; st_payoutRoute := st_payoutRoute c;
          st_grossSats := gross; st_feeSats := fee |}.

Definition settle_read (c : Settle string) : option (Settle Z) :=
  request ← BigInt (se_requestId c);
  Some {| se_managerContract := se_managerContract c; se_requestId := request;
          se_stakerPrincipal := se_stakerPrincipal c |}.

Definition reclaim_read (c : Reclaim string) : option (Reclaim Z) :=
  request ← BigInt (re_requestId c);
  amount ← BigInt (re_withdrawalAmountSats c);
  fee ← BigInt (re_maxFeeSats c);
  Some {| re_managerContract := re_managerContract c;
          re_sbtcTokenContract := re_sbtcTokenContract c; re_requestId := request;
          re_stakerPrincipal := re_stakerPrincipal c;
          re_withdrawalAmountSats := amount; re_maxFeeSats := fee |}.

(** ** The material as JSON *)

Definition network_text (n : Network) : string :=
  match n with mainnet => "mainnet" | testnet => "testnet" end.

Definition checkpoint_text (c : Checkpoint) : string :=
  match c with first_half => "first-half" | second_half => "second-half" end.

Definition route_text (r : PayoutRoute) : string :=
  match r with direct_sbtc => "direct-sbtc" | bitcoin_l1 => "bitcoin-l1" end.

Definition JOptStr (o : option string) : Json :=
  match o with None => JNull | Some s => JStr s end.

Definition effect_json (e : ExactEffect) : Json :=
  JObj [("kind", JStr "exact-ft-transfer"); ("asset", JStr (asset e)); ("sender", JStr (from e));
        ("recipient", JStr (recipient e)); ("amountSats", JStr (amountSats e))].

Definition no_asset_json : Json := JObj [("kind", JStr "no-asset-transfer")].

Definition body_json (b : MaterialBody) : list (string * Json) :=
  match b with
  | m_calculate c =>
      [("kind", JStr "calculate-rewards"); ("pox5Contract", JStr (ca_pox5Contract c));
       ("bondPeriods", JArr (JStr <$> ca_bondPeriods c));
       ("targetRewardCycle", JStr (ca_targetRewardCycle c));
       ("targetCheckpoint", JStr (checkpoint_text (ca_targetCheckpoint c)));
       ("expectedLastRewardComputeBurnHeight", JNum (ca_expectedLastRewardComputeBurnHeight c));
       ("expectedEffect", no_asset_json)]
  | m_collect c e =>
      [("kind", JStr "claim-rewards"); ("managerContract", JStr (co_managerContract c));
       ("pox5Contract", JStr (co_pox5Contract c));
       ("sbtcTokenContract", JStr (co_sbtcTokenContract c));
       ("rewardCycle", JStr (co_rewardCycle c));
       ("bondPeriods", JArr (JStr <$> co_bondPeriods c)); ("expectedEffect", effect_json e)]
  | m_staker c e =>
      [("kind", JStr "claim-staker-rewards"); ("managerContract", JStr (st_managerContract c));
       ("sbtcTokenContract", JStr (st_sbtcTokenContract c));
       ("stakerPrincipal", JStr (st_stakerPrincipal c));
       ("rewardCycle", JStr (st_rewardCycle c)); ("bondIndex", JOptStr (st_bondIndex c));
       ("payoutRoute", JStr (route_text (st_payoutRoute c)));
       ("grossSats", JStr (st_grossSats c)); ("feeSats", JStr (st_feeSats c));
       ("expectedEffect", effect_json e)]
  | m_settle c =>
      [("kind", JStr "settle-accepted-withdrawal");
       ("managerContract", JStr (se_managerContract c)); ("requestId", JStr (se_requestId c));
       ("stakerPrincipal", JStr (se_stakerPrincipal c)); ("expectedEffect", no_asset_json)]
  | m_reclaim c e =>
      [("kind", JStr "reclaim-failed-withdrawal");
       ("managerContract", JStr (re_managerContract c));
       ("sbtcTokenContract", JStr (re_sbtcTokenContract c));
       ("requestId", JStr (re_requestId c)); ("stakerPrincipal", JStr (re_stakerPrincipal c));
       ("withdrawalAmountSats", JStr (re_withdrawalAmountSats c));
       ("maxFeeSats", JStr (re_maxFeeSats c)); ("expectedEffect", effect_json e)]
  end.

Definition common_json (m : Material) : list (string * Json) :=
  [("schemaVersion", JNum 2);
   ("adapter", JObj [("id", JStr (adapterIdText (m_adapterId m)));
                     ("revision", JNum (m_adapterRevision m))]);
   ("authorization", JObj [("schemaVersion", JNum 2); ("kind", JStr "operator-run");
                           ("runId", JStr (runId (m_authorization m)));
                           ("recipeSha256", JStr (recipeSha256 (m_authorization m)))]);
   ("network", JObj [("kind", JStr (network_text (netKind (m_network m))));
                     ("chainId", JNum (chainId (m_network m)))]);
   ("chainAnchor", JObj [("stacksBlockHeight", JNum (stacksBlockHeight (m_chainAnchor m)));
                         ("burnBlockHeight", JNum (burnBlockHeight (m_chainAnchor m)));
                         ("indexBlockHash", JStr (indexBlockHash (m_chainAnchor m)))]);
   ("sender", JObj [("principal", JStr (sender_principal (m_sender m)));
                    ("publicKey", JStr (publicKey (m_sender m)))]);
   ("managerSourceFingerprint", JOptStr (m_managerSourceFingerprint m));
   ("transaction", JObj [("nonce", JStr (m_nonce m)); ("feeUstx", JStr (m_feeUstx m));
                         ("unsignedTransactionSha256", JStr (m_unsignedTransactionSha256 m))])].

Definition material_json (m : Material) : Json := JObj (body_json (body m) ++ common_json m).

(** ** The planner *)

(** Zod's [int()] is a safe integer. *)
Definition safe_nonnegative (n : Z) : bool := (0 <=? n) && (n <=? 2 ^ 53 - 1).
Definition hash64 (s : string) : bool :=
  bool_decide (String.length s = 64%nat) && forallb is_lower_hex (chars s).

Section Plan.

Context (validateStacksAddress : string -> bool)
        (compressPublicKey : string -> option string)
        (getAddressFromPublicKey : string -> Network -> option string)
        (isUuid : string -> bool)
        (makeUnsignedContractCall : UnsignedCall -> option string)
        (deserializeTransaction : string -> bool)
        (sha256 : list Z -> string)
        (localeCompare : string -> string -> Z).

Abbreviation parseContractPrincipal := (parseContractPrincipal validateStacksAddress).
Abbreviation validatePrincipal := (validatePrincipal validateStacksAddress).

Definition standardPrincipalSchema (s : string) : bool :=
  negb (includes_dot s) && validatePrincipal s.
Definition contractPrincipalSchema (s : string) : bool := is_ok (parseContractPrincipal s).

(** [/^(02|03)[0-9a-f]{64}$/] and its refinement. *)
Definition publicKeySchema (s : string) : bool :=
  (String.eqb (prefix2 s) "02" || String.eqb (prefix2 s) "03") &&
  bool_decide (String.length s = 66%nat) && forallb is_lower_hex (chars s) &&
  bool_decide (compressPublicKey s = Some s).

Definition authorizationSchema (a : Authorization) : bool :=
  isUuid (runId a) && hash64 (recipeSha256 a).
Definition networkSchema (n : NetworkId) : bool := safe_nonnegative (chainId n).
Definition anchorSchema (a : Anchor) : bool :=
  safe_nonnegative (stacksBlockHeight a) && safe_nonnegative (burnBlockHeight a) &&
  prefixed_hex is_lower_hex 64 (indexBlockHash a).
Definition senderSchema (s : Sender) : bool :=
  standardPrincipalSchema (sender_principal s) && publicKeySchema (publicKey s).
Definition nonempty (s : string) : bool := negb (String.eqb s "").
Definition exactEffectSchema (e : ExactEffect) : bool :=
  nonempty (asset e) && nonempty (from e) && nonempty (recipient e) && uintText (amountSats e).

Definition bodySchema (b : MaterialBody) : bool :=
  match b with
  | m_calculate c =>
      contractPrincipalSchema (ca_pox5Contract c) && forallb uintText (ca_bondPeriods c) &&
      bool_decide (List.length (ca_bondPeriods c) <= 6)%nat && uintText (ca_targetRewardCycle c) &&
      safe_nonnegative (ca_expectedLastRewardComputeBurnHeight c)
  | m_collect c e =>
      contractPrincipalSchema (co_managerContract c) && contractPrincipalSchema (co_pox5Contract c) &&
      contractPrincipalSchema (co_sbtcTokenContract c) && uintText (co_rewardCycle c) &&
      forallb uintText (co_bondPeriods c) && bool_decide (List.length (co_bondPeriods c) <= 6)%nat &&
      exactEffectSchema e
  | m_staker c e =>
      contractPrincipalSchema (st_managerContract c) &&
      contractPrincipalSchema (st_sbtcTokenContract c) && validatePrincipal (st_stakerPrincipal c) &&
      uintText (st_rewardCycle c) &&
      match st_bondIndex c with None => true | Some t => uintText t end &&
      uintText (st_grossSats c) && uintText (st_feeSats c) && exactEffectSchema e
  | m_settle c =>
      contractPrincipalSchema (se_managerContract c) && uintText (se_requestId c) &&
      validatePrincipal (se_stakerPrincipal c)
  | m_reclaim c e =>
      contractPrincipalSchema (re_managerContract c) &&
      contractPrincipalSchema (re_sbtcTokenContract c) && uintText (re_requestId c) &&
      validatePrincipal (re_stakerPrincipal c) && uintText (re_withdrawalAmountSats c) &&
      uintText (re_maxFeeSats c) && exactEffectSchema e
  end.

Definition operationMaterialSchema (m : Material) : bool :=
  bodySchema (body m) && (0 <? m_adapterRevision m) && (m_adapterRevision m <=? 2 ^ 53 - 1) &&
  authorizationSchema (m_authorization m) && networkSchema (m_network m) &&
  anchorSchema (m_chainAnchor m) && senderSchema (m_sender m) &&
  match m_managerSourceFingerprint m with None => true | Some h => hash64 h end &&
  uintText (m_nonce m) && uintText (m_feeUstx m) && hash64 (m_unsignedTransactionSha256 m).

Definition rewardOperationPlanSchema (p : Plan) : bool :=
  hash64 (planSha256 p) &&
  nonempty (unsignedTransactionHex p) && forallb is_lower_hex (chars (unsignedTransactionHex p)) &&
  hash64 (unsignedTransactionSha256 p) && operationMaterialSchema (material p).

(** [(chainId & 0x8000_0000) === 0]: bit 31 of the 32-bit value is clear. *)
Definition testnetBit (n : Z) : bool := Z.testbit n 31.

Definition assertCommon (input : CommonInput) : plan_result unit :=
  _ ← require (authorizationSchema (authorization input)) invalid_input;
  _ ← require (networkSchema (network input)) invalid_input;
  _ ← require (anchorSchema (chainAnchor input)) invalid_input;
  _ ← require (senderSchema (sender input)) invalid_input;
  _ ← require (bool_decide (getAddressFromPublicKey (publicKey (sender input))
                  (netKind (network input)) = Some (sender_principal (sender input))))
        sender_mismatch;
  _ ← require (negb ((nonce input <? 0) || (feeUstx input <? 0))) negative_nonce_or_fee;
  match netKind (network input) with
  | mainnet => require (chainId (network input) =? 1) mainnet_chain_id
  | testnet => require (testnetBit (chainId (network input))) testnet_chain_id
  end.

Definition sbtc_asset (token : string) : string := (token ++ "::sbtc-token")%string.

Definition sbtc_transfer (token sender recipient : string) (amount : Z) : ExactEffect :=
  {| asset := sbtc_asset token; from := sender; recipient := recipient;
     amountSats := bigint_toString amount |}.

Definition will_send_sbtc (sender token : string) (amount : Z) : PostCondition :=
  {| pc_principal := sender; pc_willSendEq := amount; pc_contract := token;
     pc_token := "sbtc-token" |}.

Definition contractCall (input : InputBody) : plan_result Call :=
  match input with
  | in_calculate c =>
      Ok {| contract := ca_pox5Contract c; functionName := "calculate-rewards";
            functionArgs := [arg_uint_list (ca_bondPeriods c)]; postConditions := [];
            call_material := m_calculate (calculate_text c) |}
  | in_collect c outflow =>
      _ ← require (0 <? outflow) collect_not_positive;
      Ok {| contract := co_managerContract c; functionName := "claim-rewards";
            functionArgs := [arg_uint_list (co_bondPeriods c); arg_uint (co_rewardCycle c)];
            postConditions := [will_send_sbtc (co_pox5Contract c) (co_sbtcTokenContract c) outflow];
            call_material := m_collect (collect_text c)
              (sbtc_transfer (co_sbtcTokenContract c) (co_pox5Contract c) (co_managerContract c)
                 outflow) |}
  | in_staker c net =>
      _ ← require (negb ((net <=? 0) || negb (st_grossSats c - st_feeSats c =? net)))
            staker_payout_mismatch;
      let recipient := match st_payoutRoute c with
                       | direct_sbtc => st_stakerPrincipal c
                       | bitcoin_l1 => "sbtc-withdrawal" end in
      Ok {| contract := st_managerContract c; functionName := "claim-staker-rewards";
            functionArgs := [arg_principal (st_stakerPrincipal c); arg_uint (st_rewardCycle c);
                             arg_optional_uint (st_bondIndex c)];
            postConditions := [will_send_sbtc (st_managerContract c) (st_sbtcTokenContract c) net];
            call_material := m_staker (staker_text c)
              (sbtc_transfer (st_sbtcTokenContract c) (st_managerContract c) recipient net) |}
  | in_settle c =>
      Ok {| contract := se_managerContract c; functionName := "settle-accepted-withdrawal";
            functionArgs := [arg_uint (se_requestId c)]; postConditions := [];
            call_material := m_settle (settle_text c) |}
  | in_reclaim c =>
      let refund := re_withdrawalAmountSats c + re_maxFeeSats c in
      _ ← require (negb (refund <=? 0)) reclaim_not_positive;
      Ok {| contract := re_managerContract c; functionName := "reclaim-failed-withdrawal";
            functionArgs := [arg_uint (re_requestId c)];
            postConditions := [will_send_sbtc (re_managerContract c) (re_sbtcTokenContract c) refund];
            call_material := m_reclaim (reclaim_text c)
              (sbtc_transfer (re_sbtcTokenContract c) (re_managerContract c)
                 (re_stakerPrincipal c) refund) |}
  end.

Definition adapter (input : InputBody) : AdapterId :=
  match input with
  | in_calculate _ => pox5_calculate_rewards
  | in_collect _ _ => reference_manager_claim_rewards
  | in_staker _ _ => reference_manager_claim_staker_rewards
  | in_settle _ => reference_manager_settle_accepted_withdrawal
  | in_reclaim _ => reference_manager_reclaim_failed_withdrawal
  end.

Definition unsigned_call (input : CommonInput) (call : Call) (parts : ContractPrincipalParts)
    : UnsignedCall :=
  {| u_contractAddress := address parts; u_contractName := contractName parts;
     u_functionName := functionName call; u_functionArgs := functionArgs call;
     u_publicKey := publicKey (sender input); u_nonce := nonce input; u_fee := feeUstx input;
     u_network := netKind (network input); u_postConditionMode := Deny;
     u_postConditions := postConditions call |}.

Definition material_of (input : PlanInput) (call : Call) (unsignedSha256 : string) : Material :=
  let c := common input in
  {| body := call_material call;
     m_adapterId := adapter (input_body input);
     m_adapterRevision := REWARD_OPERATION_ADAPTER_REVISIONS (adapter (input_body input));
     m_authorization := authorization c; m_network := network c; m_chainAnchor := chainAnchor c;
     m_sender := sender c; m_managerSourceFingerprint := managerSourceFingerprint c;
     m_nonce := bigint_toString (nonce c); m_feeUstx := bigint_toString (feeUstx c);
     m_unsignedTransactionSha256 := unsignedSha256 |}.

(** The hashed text: domain tag, NUL, canonical JSON. *)
Definition seal_bytes (m : Material) : list Z :=
  text_bytes "signer-sidekick:reward-operation-plan:v2" ++ [0] ++
  text_bytes (canonicalJson localeCompare (material_json m)).

Definition planRewardOperation (input : PlanInput) : plan_result Plan :=
  _ ← assertCommon (common input);
  call ← contractCall (input_body input);
  parts ← match parseContractPrincipal (contract call) with
          | Ok p => Ok p
          | Err e => Err (invalid_call_contract e)
          end;
  _ ← require (bool_decide (Principals.network parts = netKind (network (common input))))
        network_mismatch;
  hex ← match makeUnsignedContractCall (unsigned_call (common input) call parts) with
        | Some h => Ok h
        | None => Err library_throw
        end;
  _ ← require (deserializeTransaction hex) library_throw;
  let unsignedSha256 := sha256 (hexBytes (chars hex)) in
  let m := material_of input call unsignedSha256 in
  _ ← require (operationMaterialSchema m) invalid_material;
  let plan := {| planSha256 := sha256 (seal_bytes m); unsignedTransactionHex := hex;
                 unsignedTransactionSha256 := unsignedSha256; material := m |} in
  _ ← require (rewardOperationPlanSchema plan) invalid_plan;
  Ok plan.

(** ** Revalidation *)

Definition rebuildBody (b : MaterialBody) : option InputBody :=
  match b with
  | m_calculate c => c' ← calculate_read c; Some (in_calculate c')
  | m_collect c e =>
      c' ← collect_read c; amount ← BigInt (amountSats e); Some (in_collect c' amount)
  | m_staker c e =>
      c' ← staker_read c; amount ← BigInt (amountSats e); Some (in_staker c' amount)
  | m_settle c => c' ← settle_read c; Some (in_settle c')
  | m_reclaim c _ => c' ← reclaim_read c; Some (in_reclaim c')
  end.

Definition rebuildInput (plan : Plan) : option PlanInput :=
  let m := material plan in
  n ← BigInt (m_nonce m);
  fee ← BigInt (m_feeUstx m);
  b ← rebuildBody (body m);
  Some {| common := {| authorization := m_authorization m; network := m_network m;
                       chainAnchor := m_chainAnchor m; sender := m_sender m;
                       managerSourceFingerprint := m_managerSourceFingerprint m;
                       nonce := n; feeUstx := fee |};
          input_body := b |}.

Definition revalidateRewardOperationPlan (input : Plan) : plan_result Plan :=
  _ ← require (rewardOperationPlanSchema input) invalid_plan;
  rebuilt_input ← match rebuildInput input with Some i => Ok i | None => Err invalid_number end;
  rebuilt ← planRewardOperation rebuilt_input;
  _ ← require (bool_decide (input = rebuilt)) sealed_plan_mismatch;
  Ok rebuilt.

End Plan.

(** * Properties *)

(** ** Reading the text of a number back *)

Lemma mapM_BigInt l : mapM BigInt (bigint_toString <$> l) = Some l.
Proof.
  induction l as [|n l IH]; [done|]. cbn [fmap list_fmap mapM]. rewrite BigInt_toString. cbn.
  by rewrite IH.
Qed.

Lemma optional_read_text o : optional_read (bigint_toString <$> o) = Some o.
Proof. destruct o as [n|]; [|done]. cbn. by rewrite BigInt_toString. Qed.

(** Reads back every number text of the goal. *)
Ltac read_texts :=
  repeat (first [rewrite BigInt_toString | rewrite mapM_BigInt | rewrite optional_read_text];
          cbn [mbind option_bind fmap]).

Lemma calculate_read_text c : calculate_read (calculate_text c) = Some c.
Proof. unfold calculate_read. cbn. read_texts. by destruct c. Qed.

Lemma collect_read_text c : collect_read (collect_text c) = Some c.
Proof. unfold collect_read. cbn. read_texts. by destruct c. Qed.

Lemma staker_read_text c : staker_read (staker_text c) = Some c.
Proof. unfold staker_read. cbn. read_texts. by destruct c. Qed.

Lemma settle_read_text c : settle_read (settle_text c) = Some c.
Proof. unfold settle_read. cbn. read_texts. by destruct c. Qed.

Lemma reclaim_read_text c : reclaim_read (reclaim_text c) = Some c.
Proof. unfold reclaim_read. cbn. read_texts. by destruct c. Qed.

(** The material of a call reads back as the input it was built from. *)
Lemma rebuildBody_call input call :
  contractCall input = Ok call -> rebuildBody (call_material call) = Some input.
Proof.
  destruct input as [c|c a|c a|c|c]; cbn; intros H; inv_ok H; subst;
    cbn [call_material rebuildBody mbind option_bind];
    rewrite ?calculate_read_text, ?collect_read_text, ?staker_read_text, ?settle_read_text,
      ?reclaim_read_text; cbn [mbind option_bind];
    unfold sbtc_transfer; cbn [amountSats]; by read_texts.
Qed.

(** ** The effect of a call *)

(** What a call may move: [None] is nothing, [Some (sender, amount, token)] exactly that. *)
Definition call_effect (call : Call) : option (string * Z * string) :=
  match postConditions call with
  | [pc] => Some (pc_principal pc, pc_willSendEq pc, sbtc_asset (pc_contract pc))
  | _ => None
  end.

(** The material's stated effect is the one the post-conditions enforce. *)
Definition effect_enforced (call : Call) (b : MaterialBody) : Prop :=
  match exact_effect b with
  | None => postConditions call = []
  | Some e => exists amount, 0 < amount /\ amountSats e = bigint_toString amount /\
      asset e = sbtc_asset (token_contract b) /\
      postConditions call = [{| pc_principal := from e; pc_willSendEq := amount;
                                pc_contract := token_contract b; pc_token := "sbtc-token" |}]
  end.

(** The amount arithmetic behind each exact effect: the collect amount is the input's, the others
    are computed of the figures the material shows. *)
Definition amount_matches (input : InputBody) (b : MaterialBody) (amount : string) : Prop :=
  match input, b with
  | in_collect _ outflow, m_collect _ _ => amount = bigint_toString outflow
  | in_staker _ net, m_staker c _ => exists gross fee, st_grossSats c = bigint_toString gross /\
      st_feeSats c = bigint_toString fee /\ net = gross - fee /\ amount = bigint_toString (gross - fee)
  | in_reclaim _, m_reclaim c _ => exists w fee, re_withdrawalAmountSats c = bigint_toString w /\
      re_maxFeeSats c = bigint_toString fee /\ amount = bigint_toString (w + fee)
  | _, _ => False
  end.

(** Who pays whom: PoX-5 the manager, the manager the staker (or the withdrawal contract). *)
Definition parties (input : InputBody) : option (string * string) :=
  match input with
  | in_collect c _ => Some (co_pox5Contract c, co_managerContract c)
  | in_staker c _ =>
      Some (st_managerContract c,
            match st_payoutRoute c with direct_sbtc => st_stakerPrincipal c | bitcoin_l1 => "sbtc-withdrawal" end)
  | in_reclaim c => Some (re_managerContract c, re_stakerPrincipal c)
  | in_calculate _ | in_settle _ => None
  end.

Lemma contractCall_effect input call :
  contractCall input = Ok call ->
  effect_enforced call (call_material call) /\
  (forall e, exact_effect (call_material call) = Some e ->
     amount_matches input (call_material call) (amountSats e)) /\
  (fun e => (from e, recipient e)) <$> exact_effect (call_material call) = parties input.
Proof.
  destruct input as [c|c a|c a|c|c]; cbn; intros H.
  - injection H as <-. done.
  - inv_ok H. subst. breflect. split_and!; [by exists a| |done]. by intros e [= <-].
  - inv_ok H. subst. breflect. split_and!; [by exists a| |done].
    intros e [= <-]. cbn. exists (st_grossSats c), (st_feeSats c). by split_and!; [..|congruence].
  - injection H as <-. done.
  - inv_ok H. subst. breflect. split_and!; [| |done].
    + cbn. by exists (re_withdrawalAmountSats c + re_maxFeeSats c).
    + intros e [= <-]. cbn. by exists (re_withdrawalAmountSats c), (re_maxFeeSats c).
Qed.

(** ** The JSON of the material determines it *)

Lemma adapterIdText_inj a b : adapterIdText a = adapterIdText b -> a = b.
Proof. by destruct a, b. Qed.
Lemma network_text_inj a b : network_text a = network_text b -> a = b.
Proof. by destruct a, b. Qed.
Lemma checkpoint_text_inj a b : checkpoint_text a = checkpoint_text b -> a = b.
Proof. by destruct a, b. Qed.
Lemma route_text_inj a b : route_text a = route_text b -> a = b.
Proof. by destruct a, b. Qed.
Lemma JOptStr_inj a b : json_equiv (JOptStr a) (JOptStr b) -> a = b.
Proof. destruct a, b; cbn; inversion 1; congruence. Qed.

(** Decides [NoDup] of a concrete list of keys. *)
Ltac nodup_keys := apply (bool_decide_unpack _); vm_compute; exact I.

(** Inverts the equivalences of two objects with the same concrete keys. *)
Ltac invert_json :=
  repeat match goal with
  | H : json_equiv (JObj _) (JObj _) |- _ =>
      apply json_equiv_obj in H; [|nodup_keys|reflexivity]
  | H : Forall2 entry_equiv [] [] |- _ => clear H
  | H : Forall2 entry_equiv (_ :: _) (_ :: _) |- _ =>
      let H1 := fresh "He" in apply Forall2_cons in H as [[_ H1] H]; cbn [snd] in H1
  | H : json_equiv (JStr _) (JStr _) |- _ => apply json_equiv_str in H
  | H : json_equiv (JNum _) (JNum _) |- _ => apply json_equiv_num in H
  | H : json_equiv (JOptStr _) (JOptStr _) |- _ => apply JOptStr_inj in H
  | H : json_equiv (JArr (JStr <$> _)) (JArr (JStr <$> _)) |- _ => apply json_equiv_strs in H
  | H : adapterIdText _ = adapterIdText _ |- _ => apply adapterIdText_inj in H
  | H : network_text _ = network_text _ |- _ => apply network_text_inj in H
  | H : checkpoint_text _ = checkpoint_text _ |- _ => apply checkpoint_text_inj in H
  | H : route_text _ = route_text _ |- _ => apply route_text_inj in H
  end.

Lemma effect_json_inj e e' : json_equiv (effect_json e) (effect_json e') -> e = e'.
Proof. unfold effect_json. intros H. invert_json. destruct e, e'; cbn in *; congruence. Qed.

Definition other_keys : list string :=
  ["schemaVersion"; "adapter"; "authorization"; "network"; "chainAnchor"; "sender";
   "managerSourceFingerprint"; "transaction"].

Lemma kind_entry m : ("kind", JStr (kindText (material_kind (body m)))) ∈ body_json (body m) ++ common_json m.
Proof. apply elem_of_app; left. destruct (body m); constructor. Qed.

Lemma kind_entry_only m v :
  ("kind", v) ∈ body_json (body m) ++ common_json m ->
  v = JStr (kindText (material_kind (body m))).
Proof.
  destruct m as [[] ? ? ? ? ? ? ? ? ? ?]; cbn;
    repeat (intros [[= ->]|H]%elem_of_cons || (intros [H|H]%elem_of_cons; [discriminate H|]; revert H));
    try done; try (by intros ?%elem_of_nil); revert H;
    repeat (intros [H|H]%elem_of_cons; [discriminate H|]; revert H); by intros ?%elem_of_nil.
Qed.

Lemma kindText_inj a b : kindText a = kindText b -> a = b.
Proof. by destruct a, b. Qed.

Lemma material_json_kind m m' :
  json_equiv (material_json m) (material_json m') ->
  material_kind (body m) = material_kind (body m').
Proof.
  intros H. destruct (json_equiv_entry _ _ _ _ H (kind_entry m)) as (w & Hw & He).
  apply kind_entry_only in Hw as ->. apply json_equiv_str in He. by apply kindText_inj.
Qed.

Lemma Authorization_eq a b : runId a = runId b -> recipeSha256 a = recipeSha256 b -> a = b.
Proof. destruct a, b; cbn; congruence. Qed.

Lemma body_split b b' m m' :
  material_kind b = material_kind b' ->
  json_equiv (JObj (body_json b ++ common_json m)) (JObj (body_json b' ++ common_json m')) ->
  Forall2 entry_equiv (body_json b) (body_json b') /\
  Forall2 entry_equiv (common_json m) (common_json m').
Proof.
  intros Hk H. destruct b, b'; try discriminate Hk;
    (apply json_equiv_obj in H; [|nodup_keys|reflexivity];
     apply Forall2_app_inv in H; [exact H | reflexivity]).
Qed.

Lemma body_json_inj b b' :
  material_kind b = material_kind b' ->
  Forall2 entry_equiv (body_json b) (body_json b') -> b = b'.
Proof.
  intros Hk H. destruct b as [c|c e|c e|c|c e], b' as [c'|c' e'|c' e'|c'|c' e'];
    try discriminate Hk; unfold body_json in H; clear Hk;
    invert_json;
    try match goal with H : json_equiv (effect_json _) (effect_json _) |- _ =>
      apply effect_json_inj in H end;
    destruct c, c'; cbn in *; subst; reflexivity.
Qed.

Lemma material_json_inj m m' : json_equiv (material_json m) (material_json m') -> m = m'.
Proof.
  intros H. pose proof (material_json_kind _ _ H) as Hk.
  apply body_split in H as [Hb Hc]; [|done]. apply body_json_inj in Hb; [|done].
  unfold common_json in Hc. invert_json.
  destruct m as [? ? ? [] [] [] [] ? ? ? ?], m' as [? ? ? [] [] [] [] ? ? ? ?]; cbn in *; subst.
  reflexivity.
Qed.

Section Properties.

Context (validateStacksAddress : string -> bool)
        (compressPublicKey : string -> option string)
        (getAddressFromPublicKey : string -> Network -> option string)
        (isUuid : string -> bool)
        (makeUnsignedContractCall : UnsignedCall -> option string)
        (deserializeTransaction : string -> bool)
        (sha256 : list Z -> string)
        (localeCompare : string -> string -> Z).

#[local] Abbreviation plan_of := (planRewardOperation validateStacksAddress compressPublicKey
  getAddressFromPublicKey isUuid makeUnsignedContractCall deserializeTransaction sha256 localeCompare).
#[local] Abbreviation revalidate := (revalidateRewardOperationPlan validateStacksAddress
  compressPublicKey getAddressFromPublicKey isUuid makeUnsignedContractCall
  deserializeTransaction sha256 localeCompare).

(** Everything a returned plan is made of. *)
Lemma plan_inv input p :
  plan_of input = Ok p ->
  exists call parts,
    assertCommon validateStacksAddress compressPublicKey getAddressFromPublicKey isUuid
      (common input) = Ok tt /\
    contractCall (input_body input) = Ok call /\
    parseContractPrincipal validateStacksAddress (contract call) = Ok parts /\
    Principals.network parts = netKind (network (common input)) /\
    makeUnsignedContractCall (unsigned_call (common input) call parts) =
      Some (unsignedTransactionHex p) /\
    unsignedTransactionSha256 p = sha256 (hexBytes (chars (unsignedTransactionHex p))) /\
    material p = material_of input call (unsignedTransactionSha256 p) /\
    planSha256 p = sha256 (seal_bytes localeCompare (material p)) /\
    rewardOperationPlanSchema validateStacksAddress compressPublicKey isUuid p = true.
Proof.
  unfold planRewardOperation. intros H.
  apply bind_Ok in H as ([] & Hcommon & H). apply bind_Ok in H as (call & Hcall & H).
  apply bind_Ok in H as (parts & Hparts & H).
  destruct (Principals.parseContractPrincipal _ (contract call)) as [parts'|] eqn:Hp; [|done].
  injection Hparts as ->.
  apply bind_Ok in H as (? & Hnet%require_Ok & H). apply bool_decide_eq_true in Hnet.
  apply bind_Ok in H as (hex & Hhex & H).
  destruct (makeUnsignedContractCall _) as [hex'|] eqn:Hu; [|done]. injection Hhex as ->.
  apply bind_Ok in H as (? & Hd%require_Ok & H). apply bind_Ok in H as (? & Hm%require_Ok & H).
  apply bind_Ok in H as (? & Hs%require_Ok & [= <-]).
  exists call, parts. split_and!; done.
Qed.

(** The material rebuilds the input. *)
Lemma rebuildInput_plan input p : plan_of input = Ok p -> rebuildInput p = Some input.
Proof.
  intros H. destruct (plan_inv _ _ H) as (call & parts & _ & Hcall & _ & _ & _ & _ & Hm & _).
  unfold rebuildInput. rewrite Hm. cbn. read_texts.
  rewrite (rebuildBody_call _ _ Hcall). cbn. by destruct input as [[] ?].
Qed.

(** C35. Revalidation accepts exactly the planner's own outputs and returns them unchanged:
    a plan read back from storage or an API is signed only if rebuilding it from its material
    gives the same bytes, hashes and fields, and a fresh plan always passes. *)
Theorem revalidate_spec p q :
  revalidate p = Ok q <-> q = p /\ exists input, plan_of input = Ok p.
Proof.
  unfold revalidateRewardOperationPlan. split.
  - intros H. apply bind_Ok in H as (? & Hs%require_Ok & H).
    apply bind_Ok in H as (i & Hi & H). apply bind_Ok in H as (r & Hr & H).
    apply bind_Ok in H as (? & He%require_Ok & [= <-]). apply bool_decide_eq_true in He as <-.
    eauto.
  - intros [-> [input H]]. pose proof (rebuildInput_plan _ _ H) as Hi.
    destruct (plan_inv _ _ H) as (call & parts & _ & _ & _ & _ & _ & _ & _ & _ & Hs).
    rewrite Hs, Hi. cbn -[planRewardOperation].
    rewrite H. cbn. by rewrite bool_decide_eq_true_2.
Qed.

(** C36. The bytes of a plan are those of a deny-mode call on the operation's contract, in the
    input's network, whose post-conditions are exactly the effect the material states: nothing
    for a calculation or settlement, and otherwise one exact, positive sBTC transfer between the
    operation's parties, whose amount is the input's collect amount, gross minus fee, or withdrawal
    plus fee. *)
Theorem plan_effect input p :
  plan_of input = Ok p ->
  exists call parts,
    contractCall (input_body input) = Ok call /\
    contract call = contract_principal parts /\
    Principals.network parts = netKind (m_network (material p)) /\
    makeUnsignedContractCall (unsigned_call (common input) call parts) =
      Some (unsignedTransactionHex p) /\
    u_postConditionMode (unsigned_call (common input) call parts) = Deny /\
    body (material p) = call_material call /\
    effect_enforced call (body (material p)) /\
    (forall e, exact_effect (body (material p)) = Some e ->
       amount_matches (input_body input) (body (material p)) (amountSats e)) /\
    (fun e => (from e, recipient e)) <$> exact_effect (body (material p)) = parties (input_body input).
Proof.
  intros H. destruct (plan_inv _ _ H) as (call & parts & _ & Hcall & Hp & Hn & Hu & _ & Hm & _).
  destruct (contractCall_effect _ _ Hcall) as (He & Ha & Hr).
  exists call, parts. rewrite Hm. split_and!; try done.
  by apply parse_contract_principal_text in Hp.
Qed.

(** The plan digest seals the material: two plans of the planner with one [planSha256]
    have the same material, field for field, unless the two sealed texts are a collision of
    the hash. *)
Theorem plan_sealed i j p q :
  plan_of i = Ok p -> plan_of j = Ok q -> planSha256 p = planSha256 q ->
  material p = material q \/
  (seal_bytes localeCompare (material p) <> seal_bytes localeCompare (material q) /\
   sha256 (seal_bytes localeCompare (material p)) = sha256 (seal_bytes localeCompare (material q))).
Proof.
  intros Hp Hq Heq.
  destruct (plan_inv _ _ Hp) as (? & ? & _ & _ & _ & _ & _ & _ & _ & Hsp & _).
  destruct (plan_inv _ _ Hq) as (? & ? & _ & _ & _ & _ & _ & _ & _ & Hsq & _).
  rewrite Hsp, Hsq in Heq.
  destruct (decide (seal_bytes localeCompare (material p) = seal_bytes localeCompare (material q)))
    as [H|H]; [left | by right].
  unfold seal_bytes in H. apply app_inv_head, app_inv_head, text_bytes_inj in H.
  by apply canonicalJson_normal, normal_equiv, material_json_inj in H.
Qed.

(** No plan is built outside its network or for another sender: the sender address is the
    one of its public key in the plan's network, a mainnet plan has chain ID 1, a testnet plan
    has the testnet bit, nonce and fee are non-negative, and the adapter is the operation's
    registered one at its registered revision. *)
Theorem plan_guards input p :
  plan_of input = Ok p ->
  let m := material p in
  getAddressFromPublicKey (publicKey (m_sender m)) (netKind (m_network m)) =
    Some (sender_principal (m_sender m)) /\
  match netKind (m_network m) with
  | mainnet => chainId (m_network m) = 1
  | testnet => Z.testbit (chainId (m_network m)) 31 = true
  end /\
  (exists n f, 0 <= n /\ 0 <= f /\ m_nonce m = bigint_toString n /\ m_feeUstx m = bigint_toString f) /\
  m_adapterId m = adapter (input_body input) /\
  m_adapterRevision m = REWARD_OPERATION_ADAPTER_REVISIONS (m_adapterId m) /\
  m_authorization m = authorization (common input).
Proof.
  intros H. destruct (plan_inv _ _ H) as (call & parts & Hc & _ & _ & _ & _ & _ & -> & _).
  unfold assertCommon in Hc. inv_ok Hc. breflect. cbn. split_and!; try done.
  - destruct (netKind _); apply require_Ok in Hc; breflect; done.
  - exists (nonce (common input)), (feeUstx (common input)). by split_and!.
Qed.

End Properties.

(** ** A concrete instance

    A toy library: one valid address per network, a serialiser that writes the call's numbers
    and function name in hex, and a 64-digit checksum as the hash. *)

Module Concrete.

Definition validAddress (s : string) : bool := String.eqb s "SPW" || String.eqb s "SPM".
Definition key : string := "02" ++ String.concat "" (repeat "ab" 32).
Definition compress (k : string) : option string := Some k.
Definition addressOf (k : string) (n : Network) : option string :=
  match n with mainnet => Some "SPW"%string | testnet => None end.
Definition hex_byte (n : Z) : string :=
  String (hex_digit (Z.to_nat (n / 16 mod 16))) (String (hex_digit (Z.to_nat (n mod 16))) "").
Definition serialize (u : UnsignedCall) : option string :=
  Some (String.concat "" (map hex_byte
    (text_bytes (u_functionName u) ++ [u_nonce u; u_fee u] ++
     map pc_willSendEq (u_postConditions u)))).
Definition checksum (bytes : list Z) : string :=
  let n := fold_left (fun h b => (h * 257 + b) mod 2 ^ 61) bytes 7 in
  String.concat "" (map (fun i => hex_byte (n / 2 ^ (8 * Z.of_nat (i mod 8)))) (seq 0 32)).

Definition uuid (s : string) : bool := bool_decide (String.length s = 36)%nat.

#[local] Abbreviation plan_of := (planRewardOperation validAddress compress addressOf uuid serialize
  (fun _ => true) checksum code_unit_compare).

Definition input : PlanInput :=
  {| common :=
       {| authorization := {| runId := "0f0e0d0c-0b0a-4908-8706-050403020100";
                              recipeSha256 := checksum [] |};
          network := {| netKind := mainnet; chainId := 1 |};
          chainAnchor := {| stacksBlockHeight := 100; burnBlockHeight := 50;
                            indexBlockHash := "0x" ++ checksum [1] |};
          sender := {| sender_principal := "SPW"; publicKey := key |};
          managerSourceFingerprint := None; nonce := 4; feeUstx := 300 |};
     input_body := in_staker
       {| st_managerContract := "SPM.manager"; st_sbtcTokenContract := "SPM.sbtc-token";
          st_stakerPrincipal := "SPW"; st_rewardCycle := 12; st_bondIndex := None;
          st_payoutRoute := direct_sbtc; st_grossSats := 1000; st_feeSats := 30 |} 970 |}.

Lemma plan_exists : exists p, plan_of input = Ok p.
Proof. vm_compute. eexists. reflexivity. Qed.

Lemma plan_effect_witness : exists p call,
  plan_of input = Ok p /\ contractCall (input_body input) = Ok call /\
  effect_enforced call (body (material p)).
Proof.
  destruct plan_exists as [p Hp].
  destruct (plan_effect validAddress compress addressOf uuid serialize (fun _ => true) checksum
    code_unit_compare input p Hp) as (call & parts & Hc & _ & _ & _ & _ & _ & He & _).
  exists p, call. split_and!; assumption.
Defined.

Lemma plan_sealed_witness : exists p, plan_of input = Ok p /\
  (material p = material p \/ seal_bytes code_unit_compare (material p) <>
                             seal_bytes code_unit_compare (material p)).
Proof.
  destruct plan_exists as [p Hp]. exists p. split; [exact Hp|].
  destruct (plan_sealed validAddress compress addressOf uuid serialize (fun _ => true) checksum
    code_unit_compare input input p p Hp Hp eq_refl) as [H|[H _]]; [left | right]; exact H.
Defined.

Lemma plan_guards_witness : exists p, plan_of input = Ok p /\
  m_adapterId (material p) = reference_manager_claim_staker_rewards.
Proof.
  destruct plan_exists as [p Hp]. exists p. split; [exact Hp|].
  destruct (plan_guards validAddress compress addressOf uuid serialize (fun _ => true) checksum
    code_unit_compare input p Hp) as (_ & _ & _ & Ha & _). exact Ha.
Defined.

End Concrete.
