(* ===== verification/SweepPlan.v ===== *)
(** * Sealed gas-wallet sweeps

    apps/sidekick/src/gas-wallet-sweep.ts: the plan that moves [balance - fee] STX of the gas
    wallet to an address the operator entered.  The library's part (the address check, building
    and reading back an unsigned transfer, SHA-256) is a parameter.  Instants are milliseconds
    and printed by [toISOString] where the seal prints them. *)

From S2P Require Import Prelude Text CanonicalJson Principals OperationPlan.

Open Scope Z_scope.

(** ** Instants *)

(** [n] in [width] decimal digits. *)
Fixpoint pad (width : nat) (n : Z) : string :=
  match width with
  | O => ""
  | S w => pad w (n / 10) ++ String (ascii_of_nat (Z.to_nat (48 + n mod 10))) ""
  end.

(** Year, month and day of a day number counted from 1970-01-01. *)
Definition civil (day : Z) : Z * Z * Z :=
  let z := day + 719468 in
  let era := z / 146097 in
  let doe := z mod 146097 in
  let yoe := (doe - doe / 1460 + doe / 36524 - doe / 146096) / 365 in
  let doy := doe - (365 * yoe + yoe / 4 - yoe / 100) in
  let mp := (5 * doy + 2) / 153 in
  let month := if mp <? 10 then mp + 3 else mp - 9 in
  (yoe + era * 400 + (if month <=? 2 then 1 else 0), month, doy - (153 * mp + 2) / 5 + 1).

(** [new Date(ms).toISOString()] for the years 0 to 9999. *)
Definition toISOString (ms : Z) : string :=
  let '(y, m, d) := civil (ms / 86400000) in
  let t := ms mod 86400000 in
  (pad 4 y ++ "-" ++ pad 2 m ++ "-" ++ pad 2 d ++ "T" ++ pad 2 (t / 3600000) ++ ":" ++
   pad 2 (t / 60000 mod 60) ++ ":" ++ pad 2 (t / 1000 mod 60) ++ "." ++ pad 3 (t mod 1000) ++ "Z")%string.

Example iso_epoch : toISOString 0 = "1970-01-01T00:00:00.000Z"%string.
Proof. reflexivity. Qed.
Example iso_leap : toISOString 1709210096789 = "2024-02-29T12:34:56.789Z"%string.
Proof. reflexivity. Qed.

(** ** Data *)

(** [GasWalletSweepPlanMaterial] *)
Record SweepMaterial := {
  sm_network : NetworkId;
  sm_sender : Sender;
  sm_recipient : string;
  sm_amountUstx : string;
  sm_feeUstx : string;
  sm_nonce : string;
  sm_balanceUstx : string;
  sm_indexBlockHash : string;
  sm_createdAt : Z;
  sm_expiresAt : Z;
}.

(** [GasWalletSweepPlan] *)
Record SweepPlan := {
  sp_planSha256 : string;
  sp_unsignedTransactionHex : string;
  sp_unsignedTransactionSha256 : string;
  sp_material : SweepMaterial;
}.

#[global] Instance SweepMaterial_eq_dec : EqDecision SweepMaterial.
Proof. solve_decision. Defined.
#[global] Instance SweepPlan_eq_dec : EqDecision SweepPlan.
Proof. solve_decision. Defined.

Inductive SweepPlanError :=
  | invalid_recipient | recipient_is_wallet | insufficient_balance | sweep_invalid_material
  | plan_mismatch | sweep_library_throw.

(** The argument of [makeUnsignedSTXTokenTransfer], memo and network constants left out. *)
Record Transfer := {
  tr_recipient : string; tr_amount : Z; tr_fee : Z; tr_nonce : Z; tr_publicKey : string;
  tr_network : NetworkId;
}.

Inductive PayloadType := TokenTransfer | ContractCall | OtherPayload.

#[global] Instance PayloadType_eq_dec : EqDecision PayloadType.
Proof. solve_decision. Defined.

(** What the library shows of a transaction text: [rb_recipient] is [sweepPayloadRecipient],
    [null] for a contract principal; [rb_serialized] the transaction serialised again,
    [rb_estimatedLength] its [estimateTransactionByteLength], [rb_txid] the [txidFromBytes] of
    the text's bytes, and [rb_originVerifies] whether [verifyOrigin] returns. *)
Record ReadBack := {
  rb_payloadType : PayloadType; rb_amount : Z; rb_recipient : option string; rb_nonce : Z; rb_fee : Z;
  rb_standardAuth : bool; rb_singleSig : bool; rb_signature : string; rb_serialized : string;
  rb_payloadHex : string; rb_estimatedLength : Z; rb_originVerifies : bool; rb_txid : string;
}.

Definition sweep_material_json (m : SweepMaterial) : Json :=
  JObj [("schemaVersion", JNum 1);
        ("network", JObj [("kind", JStr (network_text (netKind (sm_network m))));
                          ("chainId", JNum (chainId (sm_network m)))]);
        ("sender", JObj [("principal", JStr (sender_principal (sm_sender m)));
                         ("publicKey", JStr (publicKey (sm_sender m)))]);
        ("recipient", JStr (sm_recipient m)); ("amountUstx", JStr (sm_amountUstx m));
        ("feeUstx", JStr (sm_feeUstx m)); ("nonce", JStr (sm_nonce m));
        ("balanceUstx", JStr (sm_balanceUstx m));
        ("anchor", JObj [("indexBlockHash", JStr (sm_indexBlockHash m))]);
        ("createdAt", JStr (toISOString (sm_createdAt m)));
        ("expiresAt", JStr (toISOString (sm_expiresAt m)))]%string.

(** [/^(02|03)[0-9a-f]{64}$/] *)
Definition sweepPublicKey (s : string) : bool :=
  (String.eqb (prefix2 s) "02" || String.eqb (prefix2 s) "03") &&
  bool_decide (String.length s = 66%nat) && forallb is_lower_hex (chars s).

(** [gasWalletSweepPlanMaterialSchema] *)
Definition gasWalletSweepPlanMaterialSchema (m : SweepMaterial) : bool :=
  safe_nonnegative (chainId (sm_network m)) &&
  nonempty (sender_principal (sm_sender m)) && sweepPublicKey (publicKey (sm_sender m)) &&
  nonempty (sm_recipient m) && uintText (sm_amountUstx m) && uintText (sm_feeUstx m) &&
  uintText (sm_nonce m) && uintText (sm_balanceUstx m) &&
  prefixed_hex is_lower_hex 64 (sm_indexBlockHash m).

(** [gasWalletSweepPlanSchema] *)
Definition gasWalletSweepPlanSchema (p : SweepPlan) : bool :=
  hash64 (sp_planSha256 p) && nonempty (sp_unsignedTransactionHex p) &&
  forallb is_lower_hex (chars (sp_unsignedTransactionHex p)) &&
  hash64 (sp_unsignedTransactionSha256 p) && gasWalletSweepPlanMaterialSchema (sp_material p).

Record SweepPlanInput := {
  sw_network : NetworkId; sw_sender : Sender; sw_recipient : string; sw_balanceUstx : Z;
  sw_feeUstx : Z; sw_nonce : Z; sw_indexBlockHash : string; sw_createdAt : Z; sw_expiresAt : Z;
}.

Section Sweep.

Context (validateStacksAddress : string -> bool)
        (makeUnsigned : Transfer -> option string)
        (deserialize : string -> option ReadBack)
        (sha256 : list Z -> string).

Definition network_prefixes (n : Network) : list string :=
  match n with mainnet => ["SP"; "SM"]%string | testnet => ["ST"; "SN"]%string end.

Definition validateSweepRecipient (recipient : string) (n : Network) (walletPrincipal : string)
    : result SweepPlanError string :=
  let value := trim recipient in
  _ ← require (nonempty value && negb (includes_dot value) && validateStacksAddress value)
        invalid_recipient;
  _ ← require (existsb (startsWith value) (network_prefixes n)) invalid_recipient;
  _ ← require (negb (String.eqb value walletPrincipal)) recipient_is_wallet;
  Ok value.

(** [BigInt] of a field the schema checked. *)
Definition big (s : string) : Z := match BigInt s with Some n => n | None => 0 end.

Definition transfer_of (m : SweepMaterial) : Transfer :=
  {| tr_recipient := sm_recipient m; tr_amount := big (sm_amountUstx m);
     tr_fee := big (sm_feeUstx m); tr_nonce := big (sm_nonce m);
     tr_publicKey := publicKey (sm_sender m); tr_network := sm_network m |}.

(** The read-back test: the bytes are a transfer of exactly the sealed terms. *)
Definition preserves (m : SweepMaterial) (b : ReadBack) : bool :=
  bool_decide (rb_payloadType b = TokenTransfer) && (rb_amount b =? big (sm_amountUstx m)) &&
  bool_decide (rb_recipient b = Some (sm_recipient m)) && (rb_nonce b =? big (sm_nonce m)) &&
  (rb_fee b =? big (sm_feeUstx m)).

Definition buildUnsignedSweep (m : SweepMaterial) : result SweepPlanError string :=
  match makeUnsigned (transfer_of m) with
  | None => Err sweep_library_throw
  | Some hex =>
      match deserialize hex with
      | None => Err sweep_library_throw
      | Some b => _ ← require (preserves m b) plan_mismatch; Ok hex
      end
  end.

Definition sweep_seal (m : SweepMaterial) : string :=
  sha256 (text_bytes (canonicalJson code_unit_compare (sweep_material_json m))).

Definition sweep_material (input : SweepPlanInput) (recipient : string) : SweepMaterial :=
  {| sm_network := sw_network input;
     sm_sender := {| sender_principal := sender_principal (sw_sender input);
                     publicKey := toLowerCase (publicKey (sw_sender input)) |};
     sm_recipient := recipient;
     sm_amountUstx := bigint_toString (sw_balanceUstx input - sw_feeUstx input);
     sm_feeUstx := bigint_toString (sw_feeUstx input);
     sm_nonce := bigint_toString (sw_nonce input);
     sm_balanceUstx := bigint_toString (sw_balanceUstx input);
     sm_indexBlockHash := sw_indexBlockHash input;
     sm_createdAt := sw_createdAt input; sm_expiresAt := sw_expiresAt input |}.

Definition planGasWalletSweep (input : SweepPlanInput) : result SweepPlanError SweepPlan :=
  recipient ← validateSweepRecipient (sw_recipient input) (netKind (sw_network input))
                (sender_principal (sw_sender input));
  _ ← require (0 <? sw_feeUstx input) sweep_invalid_material;
  _ ← require (sw_feeUstx input <? sw_balanceUstx input) insufficient_balance;
  let m := sweep_material input recipient in
  _ ← require (gasWalletSweepPlanMaterialSchema m) sweep_invalid_material;
  hex ← buildUnsignedSweep m;
  Ok {| sp_planSha256 := sweep_seal m; sp_unsignedTransactionHex := hex;
        sp_unsignedTransactionSha256 := sha256 (hexBytes (chars hex)); sp_material := m |}.

Definition revalidateGasWalletSweepPlan (p : SweepPlan) : result SweepPlanError SweepPlan :=
  _ ← require (gasWalletSweepPlanSchema p) sweep_invalid_material;
  let m := sp_material p in
  _ ← validateSweepRecipient (sm_recipient m) (netKind (sm_network m)) (sender_principal (sm_sender m));
  _ ← require (big (sm_balanceUstx m) =? big (sm_amountUstx m) + big (sm_feeUstx m)) plan_mismatch;
  hex ← buildUnsignedSweep m;
  _ ← require (String.eqb hex (sp_unsignedTransactionHex p) &&
               String.eqb (sha256 (hexBytes (chars hex))) (sp_unsignedTransactionSha256 p) &&
               String.eqb (sweep_seal m) (sp_planSha256 p)) plan_mismatch;
  Ok p.

(** ** What a plan is *)

Definition wallet_other (m : SweepMaterial) (value : string) : Prop :=
  nonempty value = true /\ includes_dot value = false /\ validateStacksAddress value = true /\
  (exists prefix, prefix ∈ network_prefixes (netKind (sm_network m)) /\ startsWith value prefix = true) /\
  value <> sender_principal (sm_sender m).

Lemma validateSweepRecipient_Ok recipient n wallet v :
  validateSweepRecipient recipient n wallet = Ok v <->
  v = trim recipient /\ nonempty v = true /\ includes_dot v = false /\
  validateStacksAddress v = true /\ existsb (startsWith v) (network_prefixes n) = true /\ v <> wallet.
Proof.
  unfold validateSweepRecipient. split.
  - intros H. inv_ok H. subst v. rewrite !andb_true_iff, negb_true_iff in Hstep.
    apply negb_true_iff, String.eqb_neq in Hstep1. by destruct_and! Hstep.
  - intros (-> & -> & -> & -> & -> & Hn). cbn. apply String.eqb_neq in Hn. by rewrite Hn.
Qed.

Lemma buildUnsignedSweep_Ok m hex :
  buildUnsignedSweep m = Ok hex <->
  makeUnsigned (transfer_of m) = Some hex /\
  exists b, deserialize hex = Some b /\ preserves m b = true.
Proof.
  unfold buildUnsignedSweep. destruct (makeUnsigned (transfer_of m)) as [h|]; [|by split; [|intros []]].
  destruct (deserialize h) as [b|] eqn:Hd.
  - rewrite bind_Ok. split.
    + intros (u & Hp%require_Ok & [= <-]). split; [done|]. by exists b.
    + intros ([= <-] & b' & Hb & Hp). rewrite Hd in Hb. injection Hb as <-.
      exists tt. by rewrite require_Ok.
  - split; [done|]. intros ([= <-] & b & Hb & _). by rewrite Hd in Hb.
Qed.

Lemma big_toString n : big (bigint_toString n) = n.
Proof. unfold big. by rewrite BigInt_toString. Qed.

Lemma big_text s : uintText s = true -> bigint_toString (big s) = s /\ 0 <= big s.
Proof. intros (v & Hv & Hb & Ht)%uintText_BigInt. unfold big. by rewrite Hb. Qed.

(** Everything a returned plan is made of. *)
Lemma sweep_plan_inv input p :
  planGasWalletSweep input = Ok p ->
  let recipient := trim (sw_recipient input) in
  let m := sweep_material input recipient in
  validateSweepRecipient (sw_recipient input) (netKind (sw_network input))
    (sender_principal (sw_sender input)) = Ok recipient /\
  0 < sw_feeUstx input /\ sw_feeUstx input < sw_balanceUstx input /\
  gasWalletSweepPlanMaterialSchema m = true /\
  buildUnsignedSweep m = Ok (sp_unsignedTransactionHex p) /\
  p = {| sp_planSha256 := sweep_seal m; sp_unsignedTransactionHex := sp_unsignedTransactionHex p;
         sp_unsignedTransactionSha256 := sha256 (hexBytes (chars (sp_unsignedTransactionHex p)));
         sp_material := m |}.
Proof.
  unfold planGasWalletSweep. intros H. apply bind_Ok in H as (v & Hv & H).
  assert (v = trim (sw_recipient input)) as ->. { by apply validateSweepRecipient_Ok in Hv as [-> _]. }
  apply bind_Ok in H as (? & Hf%require_Ok & H). apply bind_Ok in H as (? & Hb%require_Ok & H).
  apply bind_Ok in H as (? & Hs%require_Ok & H). apply bind_Ok in H as (hex & Hhex & [= <-]).
  breflect. done.
Qed.

(** The bytes of a sweep move exactly the rest of the wallet: they read back as a token
    transfer of the balance less the fee, both positive, under the sealed nonce and fee, to the
    address the operator entered, which is a standard address of the wallet's network and not
    the wallet itself. *)
Theorem sweep_effect input p :
  planGasWalletSweep input = Ok p ->
  exists b, deserialize (sp_unsignedTransactionHex p) = Some b /\ rb_payloadType b = TokenTransfer /\
    rb_amount b = sw_balanceUstx input - sw_feeUstx input /\ 0 < rb_amount b /\
    rb_fee b = sw_feeUstx input /\ 0 < rb_fee b /\ rb_nonce b = sw_nonce input /\
    rb_recipient b = Some (trim (sw_recipient input)) /\
    wallet_other (sp_material p) (trim (sw_recipient input)).
Proof.
  intros H. destruct (sweep_plan_inv _ _ H) as (Hv & Hf & Hb & _ & Hu & Hp).
  apply buildUnsignedSweep_Ok in Hu as (_ & b & Hd & Hpr). exists b.
  unfold preserves in Hpr. cbn in Hpr. rewrite !big_toString in Hpr.
  rewrite !andb_true_iff, !Z.eqb_eq, !bool_decide_eq_true in Hpr. destruct_and! Hpr.
  apply validateSweepRecipient_Ok in Hv as (_ & ? & ? & ? & Hpre & ?).
  apply existsb_exists in Hpre as (pre & Hin & Hs).
  split_and!; try done; try lia. rewrite Hp. split_and!; try done.
  exists pre. split; [by apply list_elem_of_In | done].
Qed.

(** ** Revalidation *)

(** What the library documents: a digest is 64 lower-case hex digits, a serialised transaction
    is non-empty lower-case hex, and a recipient that is read back is an address, without white
    space around it. *)
Record library_formats : Prop := {
  lib_digest : forall bytes, hash64 (sha256 bytes) = true;
  lib_hex : forall t hex, makeUnsigned t = Some hex ->
    nonempty hex = true /\ forallb is_lower_hex (chars hex) = true;
  lib_recipient : forall hex b r, deserialize hex = Some b -> rb_recipient b = Some r -> trim r = r;
}.

(** The input a plan is rebuilt from. *)
Definition sweep_input (m : SweepMaterial) : SweepPlanInput :=
  {| sw_network := sm_network m; sw_sender := sm_sender m; sw_recipient := sm_recipient m;
     sw_balanceUstx := big (sm_balanceUstx m); sw_feeUstx := big (sm_feeUstx m);
     sw_nonce := big (sm_nonce m); sw_indexBlockHash := sm_indexBlockHash m;
     sw_createdAt := sm_createdAt m; sw_expiresAt := sm_expiresAt m |}.

Lemma rebuilt_material m :
  gasWalletSweepPlanMaterialSchema m = true ->
  big (sm_balanceUstx m) = big (sm_amountUstx m) + big (sm_feeUstx m) ->
  sweep_material (sweep_input m) (sm_recipient m) = m.
Proof.
  unfold gasWalletSweepPlanMaterialSchema. rewrite !andb_true_iff. intros H He. destruct_and! H.
  match goal with K : sweepPublicKey _ = true |- _ =>
    unfold sweepPublicKey in K; apply andb_true_iff in K as [_ K] end.
  destruct m as [net [pr pk] rec am fee nonce bal hash c e]. cbn in *.
  repeat match goal with K : uintText _ = true |- _ => apply big_text in K as [? _] end.
  unfold sweep_material. cbn. rewrite (toLowerCase_lower_hex pk) by done.
  replace (big bal - big fee) with (big am) by lia. congruence.
Qed.

Lemma revalidate_inv p q :
  revalidateGasWalletSweepPlan p = Ok q ->
  q = p /\ let m := sp_material p in
  gasWalletSweepPlanSchema p = true /\
  (exists v, validateSweepRecipient (sm_recipient m) (netKind (sm_network m))
    (sender_principal (sm_sender m)) = Ok v) /\
  big (sm_balanceUstx m) = big (sm_amountUstx m) + big (sm_feeUstx m) /\
  buildUnsignedSweep m = Ok (sp_unsignedTransactionHex p) /\
  sha256 (hexBytes (chars (sp_unsignedTransactionHex p))) = sp_unsignedTransactionSha256 p /\
  sweep_seal m = sp_planSha256 p.
Proof.
  unfold revalidateGasWalletSweepPlan. intros H. apply bind_Ok in H as (? & Hs%require_Ok & H).
  apply bind_Ok in H as (v & Hv & H). apply bind_Ok in H as (? & Hb%require_Ok & H).
  apply bind_Ok in H as (hex & Hu & H). apply bind_Ok in H as (? & He%require_Ok & [= <-]).
  breflect. subst hex. split_and!; try done. by exists v.
Qed.

Lemma plan_revalidates input p :
  library_formats -> planGasWalletSweep input = Ok p -> revalidateGasWalletSweepPlan p = Ok p.
Proof.
  intros [Hsha Hhex _] H. destruct (sweep_plan_inv _ _ H) as (Hv & Hf & Hb & Hs & Hu & Hp).
  destruct (proj1 (buildUnsignedSweep_Ok _ _) Hu) as (Hm & b & Hd & Hpr).
  destruct (Hhex _ _ Hm) as [Hne Hlow].
  assert (Hschema : gasWalletSweepPlanSchema p = true).
  { rewrite Hp. unfold gasWalletSweepPlanSchema. cbn [sp_planSha256 sp_unsignedTransactionHex
      sp_unsignedTransactionSha256 sp_material]. unfold sweep_seal. by rewrite !Hsha, Hne, Hlow, Hs. }
  unfold revalidateGasWalletSweepPlan. rewrite Hschema. cbn [require mbind result_bind].
  assert (Hmat : sp_material p = sweep_material input (trim (sw_recipient input))) by by rewrite Hp.
  assert (Hv' := Hv). apply validateSweepRecipient_Ok in Hv' as (_ & ? & ? & ? & ? & ?).
  assert (Htrim : trim (trim (sw_recipient input)) = trim (sw_recipient input)) by apply trim_idem.
  assert (Hv2 : validateSweepRecipient (sm_recipient (sp_material p)) (netKind (sm_network (sp_material p)))
            (sender_principal (sm_sender (sp_material p))) = Ok (trim (sw_recipient input))).
  { rewrite Hmat. cbn. by apply validateSweepRecipient_Ok. }
  rewrite Hv2, Hmat, Hu. cbn [mbind result_bind]. cbn [sweep_material sm_balanceUstx sm_amountUstx sm_feeUstx].
  rewrite !big_toString. replace (_ =? _) with true by (symmetry; apply Z.eqb_eq; lia).
  cbn [require]. rewrite Hp. cbn [sp_planSha256 sp_unsignedTransactionSha256 sp_unsignedTransactionHex].
  by rewrite !String.eqb_refl.
Qed.

(** Revalidation before the signature accepts exactly the planner's plans: a stored plan
    that moves a positive amount for a positive fee passes, and is returned unchanged, exactly
    when the planner produces it. *)
Theorem sweep_revalidate_spec p q :
  library_formats ->
  (revalidateGasWalletSweepPlan p = Ok q /\
   0 < big (sm_amountUstx (sp_material p)) /\ 0 < big (sm_feeUstx (sp_material p))) <->
  (q = p /\ exists input, planGasWalletSweep input = Ok p).
Proof.
  intros Hlib. split.
  - intros (H & Ha & Hf). apply revalidate_inv in H as (-> & Hs & (v & Hv) & Hb & Hu & Hh & Hseal).
    split; [done|]. exists (sweep_input (sp_material p)). set (m := sp_material p) in *.
    assert (Hm : gasWalletSweepPlanMaterialSchema m = true).
    { unfold gasWalletSweepPlanSchema in Hs. by apply andb_true_iff in Hs as [_ Hs]. }
    destruct (proj1 (buildUnsignedSweep_Ok _ _) Hu) as (_ & b & Hd & Hpr).
    assert (Htrim : trim (sm_recipient m) = sm_recipient m).
    { eapply (lib_recipient Hlib); [exact Hd|]. unfold preserves in Hpr. by breflect. }
    unfold planGasWalletSweep. cbn [sweep_input sw_recipient sw_network sw_sender sw_feeUstx sw_balanceUstx].
    rewrite Hv. cbn [mbind result_bind].
    assert (v = sm_recipient m) as ->. { apply validateSweepRecipient_Ok in Hv as [-> _]. done. }
    rewrite (proj2 (Z.ltb_lt 0 _) Hf). cbn [require]. rewrite (proj2 (Z.ltb_lt (big (sm_feeUstx m)) _)) by lia.
    fold (sweep_input m). rewrite rebuilt_material by done. rewrite Hm. cbn [require]. rewrite Hu. cbn [mbind result_bind].
    rewrite Hseal, Hh. by destruct p.
  - intros [-> [input H]]. split; [by eapply plan_revalidates|].
    destruct (sweep_plan_inv _ _ H) as (_ & Hf & Hb & _ & _ & Hp). rewrite Hp. cbn.
    rewrite !big_toString. lia.
Qed.

End Sweep.

(** ** A concrete instance

    A toy library whose transactions are the hex of their terms separated by bars. *)

Module ConcreteSweep.

Definition hex_byte (n : Z) : string :=
  let digit d := ascii_of_nat (Z.to_nat (if d <? 10 then 48 + d else 87 + d)) in
  String (digit (n / 16 mod 16)) (String (digit (n mod 16)) "").

Definition text_hex (s : string) : string := String.concat "" (map hex_byte (text_bytes s)).

Fixpoint split_bar (l : list Z) (word : list Z) : list (list Z) :=
  match l with
  | [] => [rev word]
  | c :: rest => if c =? 124 then rev word :: split_bar rest [] else split_bar rest (c :: word)
  end.

Definition text_of (l : list Z) : string :=
  String.string_of_list_ascii (map (fun n => ascii_of_nat (Z.to_nat n)) l).

Definition validAddress (s : string) : bool := String.eqb s "SPWALLET" || String.eqb s "SPOWNER".

Definition serialize (t : Transfer) : option string :=
  if validAddress (tr_recipient t)
  then Some (text_hex (String.concat "|" [tr_recipient t; bigint_toString (tr_amount t);
                          bigint_toString (tr_fee t); bigint_toString (tr_nonce t)]))
  else None.

Definition read_back (hex : string) : option ReadBack :=
  match map text_of (split_bar (hexBytes (chars hex)) []) with
  | [r; amount; fee; nonce] =>
      Some {| rb_payloadType := TokenTransfer; rb_amount := big amount; rb_nonce := big nonce;
              rb_fee := big fee; rb_recipient := if validAddress r then Some r else None;
              rb_standardAuth := true; rb_singleSig := true;
              rb_signature := String.concat "" (repeat "00"%string 65); rb_serialized := hex;
              rb_payloadHex := hex; rb_estimatedLength := 180; rb_originVerifies := false;
              rb_txid := "" |}
  | _ => None
  end.

(** The first byte, and zeros. *)
Definition sha (bytes : list Z) : string :=
  hex_byte (match bytes with b :: _ => b | [] => 0 end) ++ String.concat "" (repeat "00"%string 31).

Definition input : SweepPlanInput :=
  {| sw_network := {| netKind := mainnet; chainId := 1 |};
     sw_sender := {| sender_principal := "SPWALLET";
                     publicKey := "02" ++ String.concat "" (repeat "AB"%string 32) |};
     sw_recipient := " SPOWNER "; sw_balanceUstx := 1000000; sw_feeUstx := 2500; sw_nonce := 7;
     sw_indexBlockHash := "0x" ++ sha []; sw_createdAt := 1709210096789; sw_expiresAt := 1709211896789 |}.

Definition planned : result SweepPlanError SweepPlan :=
  planGasWalletSweep validAddress serialize read_back sha input.

Lemma planned_exists : exists p, planned = Ok p.
Proof. vm_compute. eexists. reflexivity. Qed.

Lemma sweep_effect_witness : exists p b, planned = Ok p /\
  read_back (sp_unsignedTransactionHex p) = Some b /\ rb_amount b = 997500.
Proof.
  destruct planned_exists as [p Hp].
  destruct (sweep_effect validAddress serialize read_back sha input p Hp) as (b & Hb & _ & Ha & _).
  exists p, b. split; [exact Hp|]. split; [exact Hb | exact Ha].
Defined.

Lemma digit_ok d : 0 <= d < 16 ->
  is_lower_hex (ascii_of_nat (Z.to_nat (if d <? 10 then 48 + d else 87 + d))) = true.
Proof.
  intros Hd. assert (d ∈ (Z.of_nat <$> seq 0 16)) as Hin.
  { apply list_elem_of_fmap. exists (Z.to_nat d). split; [lia|]. apply elem_of_seq. lia. }
  clear Hd. cbn in Hin. rewrite !elem_of_cons, elem_of_nil in Hin.
  repeat destruct Hin as [->|Hin]; try reflexivity. done.
Qed.

Lemma hex_byte_lower n : forallb is_lower_hex (chars (hex_byte n)) = true.
Proof. unfold chars. cbn. rewrite !digit_ok; [done| |]; apply Z.mod_pos_bound; lia. Qed.

Lemma concat_lower (l : list string) :
  (forall s, s ∈ l -> forallb is_lower_hex (chars s) = true) ->
  forallb is_lower_hex (chars (String.concat "" l)) = true.
Proof.
  induction l as [|s l IH]; intros H; [done|]. destruct l as [|s' l].
  - cbn. apply H. constructor.
  - change (String.concat "" (s :: s' :: l)) with (s ++ String.concat "" (s' :: l))%string.
    rewrite chars_append, forallb_app, H, IH; [done| |constructor].
    intros x Hx. apply H. by constructor.
Qed.

Lemma text_hex_lower s : forallb is_lower_hex (chars (text_hex s)) = true.
Proof.
  apply concat_lower. intros x (n & -> & _)%list_elem_of_fmap. apply hex_byte_lower.
Qed.

Lemma text_hex_nonempty c s : nonempty (text_hex (String c s)) = true.
Proof. unfold text_hex, text_bytes, chars. cbn. by destruct (map hex_byte _). Qed.

Lemma formats : library_formats serialize read_back sha.
Proof.
  split.
  - intros bytes. unfold sha, hash64. rewrite chars_append, forallb_app, hex_byte_lower. done.
  - intros t hex. unfold serialize, validAddress.
    destruct (String.eqb_spec (tr_recipient t) "SPWALLET") as [->|]; cbn [orb].
    + intros [= <-]. split; [apply (text_hex_nonempty "S") | apply text_hex_lower].
    + destruct (String.eqb_spec (tr_recipient t) "SPOWNER") as [->|]; [|done].
      intros [= <-]. split; [apply (text_hex_nonempty "S") | apply text_hex_lower].
  - intros hex b r. unfold read_back.
    destruct (map text_of _) as [|x [|? [|? [|? [|? ?]]]]]; try done. intros [= <-]. cbn.
    unfold validAddress. destruct (String.eqb_spec x "SPWALLET") as [->|]; cbn [orb]; [by intros [= <-]|].
    destruct (String.eqb_spec x "SPOWNER") as [->|]; [by intros [= <-] | done].
Qed.

Lemma sweep_revalidate_spec_witness : exists p, planned = Ok p /\
  revalidateGasWalletSweepPlan validAddress serialize read_back sha p = Ok p.
Proof.
  destruct planned_exists as [p Hp]. exists p. split; [exact Hp|].
  apply (sweep_revalidate_spec validAddress serialize read_back sha p p formats).
  split; [reflexivity|]. exists input. exact Hp.
Defined.

End ConcreteSweep.
