(* ===== verification/Signer.v ===== *)
(** * The gas-payer signer

    apps/sidekick/src/transaction-engine/gas-payer-signer.ts: the one holder of the wallet's
    private key.  It reads the key from a checked file, and signs only plans that revalidate
    and belong to its wallet.  File reads come in as answers; key and address derivation and
    the signature itself are the library's. *)

From S2P Require Import Prelude Text CanonicalJson Principals OperationPlan SweepPlan.

Open Scope Z_scope.

Inductive GasPayerSignerErrorCode :=
  | invalid_configuration | secret_unavailable | secret_symlink | secret_not_regular_file
  | secret_insecure_permissions | secret_owner_mismatch | secret_changed_during_read
  | secret_invalid_format | identity_mismatch | signer_destroyed | sealed_plan_invalid
  | plan_signer_mismatch | signing_failed.

(** ** The private key *)

Definition hexNibble (value : Z) : Z :=
  if (48 <=? value) && (value <=? 57) then value - 48
  else if (65 <=? value) && (value <=? 70) then value - 65 + 10
  else if (97 <=? value) && (value <=? 102) then value - 97 + 10
  else -1.

(** Without a last byte [c]. *)
Definition strip_last (c : Z) (l : list Z) : list Z :=
  match rev l with
  | x :: r => if x =? c then rev r else l
  | [] => l
  end.

Fixpoint decode_pairs (l : list Z) : option (list Z) :=
  match l with
  | [] => Some []
  | [_] => None
  | a :: b :: rest =>
      if (hexNibble a <? 0) || (hexNibble b <? 0) then None
      else bytes ← decode_pairs rest; Some (Z.lor (Z.shiftl (hexNibble a) 4) (hexNibble b) :: bytes)
  end.

Definition decodeRawPrivateKey (encoded : list Z) : result GasPayerSignerErrorCode (list Z) :=
  let text := strip_last 13 (strip_last 10 encoded) in
  let n := List.length text in
  _ ← require (bool_decide (n = 64%nat) || bool_decide (n = 66%nat)) secret_invalid_format;
  match decode_pairs text with
  | None => Err secret_invalid_format
  | Some decoded =>
      _ ← require (bool_decide (n = 64%nat) || bool_decide (decoded !! 32%nat = Some 1)) secret_invalid_format;
      Ok (take 32 decoded ++ [1])
  end.

(** ** The secret file *)

Record FileStat := {
  fs_isSymbolicLink : bool;
  fs_isFile : bool;
  fs_dev : Z;
  fs_ino : Z;
  fs_mode : Z;
  fs_uid : Z;
  fs_size : Z;
  fs_mtimeMs : Z;
  fs_ctimeMs : Z;
}.

(** What the file system answers, in the order it is asked. *)
Record SecretFile := {
  sf_lstat : option FileStat;
  sf_open : bool;
  sf_stat : FileStat;
  sf_content : list Z;
  sf_after : FileStat;
}.

Record SignerOptions := {
  sig_absolutePath : bool;
  sig_expectedPrincipal : string;
  sig_network : Network;
  sig_uid : option Z;
}.

Definition secure_mode (mode : Z) : bool :=
  let permissions := Z.land mode 511 in
  (Z.land permissions 63 =? 0) && negb (Z.land permissions 256 =? 0) && (Z.land permissions 73 =? 0).

Definition loadPrivateKey (options : SignerOptions) (file : SecretFile)
    : result GasPayerSignerErrorCode (list Z) :=
  _ ← require (sig_absolutePath options) invalid_configuration;
  match sf_lstat file with
  | None => Err secret_unavailable
  | Some path =>
      _ ← require (negb (fs_isSymbolicLink path)) secret_symlink;
      _ ← require (fs_isFile path) secret_not_regular_file;
      _ ← require (sf_open file) secret_unavailable;
      let stat := sf_stat file in
      _ ← require (fs_isFile stat) secret_not_regular_file;
      _ ← require ((fs_dev stat =? fs_dev path) && (fs_ino stat =? fs_ino path)) secret_changed_during_read;
      _ ← require (secure_mode (fs_mode stat)) secret_insecure_permissions;
      _ ← require (match sig_uid options with None => true | Some uid => fs_uid stat =? uid end)
            secret_owner_mismatch;
      _ ← require (negb ((fs_size stat <? 64) || (68 <? fs_size stat))) secret_invalid_format;
      let later := sf_after file in
      _ ← require ((fs_size later =? fs_size stat) && (fs_mtimeMs later =? fs_mtimeMs stat) &&
                   (fs_ctimeMs later =? fs_ctimeMs stat)) secret_changed_during_read;
      decodeRawPrivateKey (sf_content file)
  end.

(** ** Signing *)

Record Signer := {
  sn_privateKey : list Z;
  sn_principal : string;
  sn_publicKey : string;
  sn_network : Network;
  sn_destroyed : bool;
}.

(** [SignedGasWalletSweepTransaction] and [SignedRewardOperationTransaction]. *)
Record SignedTransaction := {
  stx_bytes : list Z;
  stx_operation : option OperationKind;
  stx_planSha256 : string;
  stx_unsignedTransactionSha256 : string;
  stx_precomputedTxid : string;
  stx_nonce : string;
  stx_fee : string;
}.

Section Signing.

Context (privateKeyToPublic : list Z -> option string)
        (getAddressFromPublicKey : string -> Network -> string)
        (signOrigin : string -> list Z -> option (list Z * string))
        (revalidateReward : Plan -> option Plan) (revalidateSweep : SweepPlan -> option SweepPlan).

Definition fromSecretFile (options : SignerOptions) (file : SecretFile)
    : result GasPayerSignerErrorCode Signer :=
  privateKey ← loadPrivateKey options file;
  match privateKeyToPublic privateKey with
  | None => Err secret_invalid_format
  | Some key =>
      let publicKey := toLowerCase key in
      let principal := getAddressFromPublicKey publicKey (sig_network options) in
      _ ← require (String.eqb principal (sig_expectedPrincipal options)) identity_mismatch;
      Ok {| sn_privateKey := privateKey; sn_principal := principal; sn_publicKey := publicKey;
            sn_network := sig_network options; sn_destroyed := false |}
  end.

(** The plan's network and sender are the signer's. *)
Definition own_wallet (signer : Signer) (network : Network) (sender : Sender) : bool :=
  bool_decide (network = sn_network signer) &&
  String.eqb (sender_principal sender) (sn_principal signer) &&
  String.eqb (publicKey sender) (sn_publicKey signer).

Definition signGasWalletSweepPlan (signer : Signer) (plan : SweepPlan)
    : result GasPayerSignerErrorCode SignedTransaction :=
  _ ← require (negb (sn_destroyed signer)) signer_destroyed;
  match revalidateSweep plan with
  | None => Err sealed_plan_invalid
  | Some validated =>
      let m := sp_material validated in
      _ ← require (own_wallet signer (netKind (sm_network m)) (sm_sender m)) plan_signer_mismatch;
      match signOrigin (sp_unsignedTransactionHex validated) (sn_privateKey signer) with
      | None => Err signing_failed
      | Some (bytes, txid) =>
          Ok {| stx_bytes := bytes; stx_operation := None; stx_planSha256 := sp_planSha256 validated;
                stx_unsignedTransactionSha256 := sp_unsignedTransactionSha256 validated;
                stx_precomputedTxid := ("0x" ++ txid)%string; stx_nonce := sm_nonce m;
                stx_fee := sm_feeUstx m |}
      end
  end.

Definition signRewardOperation (signer : Signer) (plan : Plan) (expectedKind : OperationKind)
    : result GasPayerSignerErrorCode SignedTransaction :=
  _ ← require (negb (sn_destroyed signer)) signer_destroyed;
  match revalidateReward plan with
  | None => Err sealed_plan_invalid
  | Some validated =>
      let m := material validated in
      _ ← require (bool_decide (material_kind (body m) = expectedKind)) sealed_plan_invalid;
      _ ← require (own_wallet signer (netKind (m_network m)) (m_sender m)) plan_signer_mismatch;
      match signOrigin (unsignedTransactionHex validated) (sn_privateKey signer) with
      | None => Err signing_failed
      | Some (bytes, txid) =>
          Ok {| stx_bytes := bytes; stx_operation := Some expectedKind;
                stx_planSha256 := planSha256 validated;
                stx_unsignedTransactionSha256 := unsignedTransactionSha256 validated;
                stx_precomputedTxid := ("0x" ++ txid)%string; stx_nonce := m_nonce m;
                stx_fee := m_feeUstx m |}
      end
  end.

Definition signPox5CalculateRewardsPlan signer plan := signRewardOperation signer plan op_calculate_rewards.
Definition signManagerClaimRewardsRunPlan signer plan := signRewardOperation signer plan op_claim_rewards.
Definition signClaimStakerRewardsPlan signer plan := signRewardOperation signer plan op_claim_staker_rewards.
Definition signSettleAcceptedWithdrawalPlan signer plan :=
  signRewardOperation signer plan op_settle_accepted_withdrawal.
Definition signReclaimFailedWithdrawalPlan signer plan :=
  signRewardOperation signer plan op_reclaim_failed_withdrawal.

(** [#sign] of the reward-run service: the method of the operation. *)
Definition sign (signer : Signer) (operation : OperationKind) (plan : Plan)
    : result GasPayerSignerErrorCode SignedTransaction :=
  match operation with
  | op_calculate_rewards => signPox5CalculateRewardsPlan signer plan
  | op_claim_rewards => signManagerClaimRewardsRunPlan signer plan
  | op_claim_staker_rewards => signClaimStakerRewardsPlan signer plan
  | op_settle_accepted_withdrawal => signSettleAcceptedWithdrawalPlan signer plan
  | op_reclaim_failed_withdrawal => signReclaimFailedWithdrawalPlan signer plan
  end.

Definition destroy (signer : Signer) : Signer :=
  {| sn_privateKey := map (fun _ => 0) (sn_privateKey signer); sn_principal := sn_principal signer;
     sn_publicKey := sn_publicKey signer; sn_network := sn_network signer; sn_destroyed := true |}.

Lemma sign_kind signer operation plan :
  sign signer operation plan = signRewardOperation signer plan operation.
Proof. by destruct operation. Qed.

Lemma own_wallet_true signer network sender :
  own_wallet signer network sender = true <->
  network = sn_network signer /\ sender_principal sender = sn_principal signer /\
  publicKey sender = sn_publicKey signer.
Proof. unfold own_wallet. rewrite !andb_true_iff, bool_decide_eq_true, !String.eqb_eq. tauto. Qed.

(** C31. The signer cannot be made to sign anything else: a signature is only ever over the bytes
    of a plan that passed its sealed revalidation, is of the requested operation, and belongs
    to the loaded wallet, by principal and public key, in its network; the result carries that plan's hashes, nonce and fee.
    A destroyed signer holds no key and signs nothing. *)
Theorem signs_only_sealed_plans signer operation plan sweep tx :
  (sign signer operation plan = Ok tx -> exists q,
     revalidateReward plan = Some q /\ sn_destroyed signer = false /\
     material_kind (body (material q)) = operation /\
     netKind (m_network (material q)) = sn_network signer /\
     sender_principal (m_sender (material q)) = sn_principal signer /\
     publicKey (m_sender (material q)) = sn_publicKey signer /\
     (exists txid, signOrigin (unsignedTransactionHex q) (sn_privateKey signer) = Some (stx_bytes tx, txid) /\
        stx_precomputedTxid tx = ("0x" ++ txid)%string) /\
     stx_planSha256 tx = planSha256 q /\ stx_nonce tx = m_nonce (material q) /\
     stx_fee tx = m_feeUstx (material q)) /\
  (signGasWalletSweepPlan signer sweep = Ok tx -> exists q,
     revalidateSweep sweep = Some q /\ sn_destroyed signer = false /\
     netKind (sm_network (sp_material q)) = sn_network signer /\
     sender_principal (sm_sender (sp_material q)) = sn_principal signer /\
     publicKey (sm_sender (sp_material q)) = sn_publicKey signer /\
     (exists txid, signOrigin (sp_unsignedTransactionHex q) (sn_privateKey signer) = Some (stx_bytes tx, txid) /\
        stx_precomputedTxid tx = ("0x" ++ txid)%string) /\
     stx_planSha256 tx = sp_planSha256 q /\ stx_nonce tx = sm_nonce (sp_material q) /\
     stx_fee tx = sm_feeUstx (sp_material q)) /\
  sign (destroy signer) operation plan = Err signer_destroyed /\
  signGasWalletSweepPlan (destroy signer) sweep = Err signer_destroyed /\
  Forall (fun b => b = 0) (sn_privateKey (destroy signer)).
Proof.
  rewrite !sign_kind. split_and!; try done.
  - unfold signRewardOperation. intros H. apply bind_Ok in H as (? & Hd%require_Ok & H).
    destruct (revalidateReward plan) as [q|]; [|done].
    apply bind_Ok in H as (? & Hk%require_Ok & H). apply bind_Ok in H as (? & Ho%require_Ok & H).
    destruct (signOrigin _ _) as [[bytes txid]|] eqn:Hs; [|done]. injection H as <-.
    apply bool_decide_eq_true in Hk. apply own_wallet_true in Ho as (Hn & Hp & Hpk).
    apply negb_true_iff in Hd. exists q. split_and!; try done. by exists txid.
  - unfold signGasWalletSweepPlan. intros H. apply bind_Ok in H as (? & Hd%require_Ok & H).
    destruct (revalidateSweep sweep) as [q|]; [|done].
    apply bind_Ok in H as (? & Ho%require_Ok & H).
    destruct (signOrigin _ _) as [[bytes txid]|] eqn:Hs; [|done]. injection H as <-.
    apply own_wallet_true in Ho as (Hn & Hp & Hpk). apply negb_true_iff in Hd.
    exists q. split_and!; try done. by exists txid.
  - cbn. apply Forall_map, Forall_true. done.
Qed.

End Signing.

(** ** The key text *)

Definition nibble_text (n : Z) : Z := if n <? 10 then 48 + n else 87 + n.

(** Two hex digits per byte. *)
Definition key_text (bytes : list Z) : list Z :=
  List.concat (map (fun b => [nibble_text (b / 16); nibble_text (b mod 16)]) bytes).

Definition is_byte (b : Z) : Prop := 0 <= b < 256.

Lemma hexNibble_text n : 0 <= n < 16 -> hexNibble (nibble_text n) = n.
Proof.
  intros Hn. unfold nibble_text, hexNibble. destruct (Z.ltb_spec n 10).
  - rewrite (proj2 (Z.leb_le 48 (48 + n))), (proj2 (Z.leb_le (48 + n) 57)) by lia. cbn. lia.
  - rewrite (proj2 (Z.leb_gt (87 + n) 57)), (proj2 (Z.leb_le 97 (87 + n))), (proj2 (Z.leb_le (87 + n) 102)),
      (proj2 (Z.leb_gt (87 + n) 70)) by lia. rewrite !andb_false_r. cbn. lia.
Qed.

Lemma byte_of_nibbles b : is_byte b -> Z.lor (Z.shiftl (b / 16) 4) (b mod 16) = b.
Proof.
  unfold is_byte. intros Hb. change 16 with (2 ^ 4). rewrite <- (Z.land_ones b 4), <- (Z.shiftr_div_pow2 b 4) by lia.
  apply Z.bits_inj'. intros i Hi. rewrite Z.lor_spec, Z.land_spec.
  destruct (Z.ltb_spec i 4).
  - rewrite Z.shiftl_spec_low, Z.ones_spec_low by lia. by rewrite andb_true_r.
  - rewrite Z.shiftl_spec_high, Z.shiftr_spec, Z.ones_spec_high by lia.
    rewrite andb_false_r, orb_false_r. f_equal. lia.
Qed.

Lemma decode_key_text bytes :
  Forall is_byte bytes -> decode_pairs (key_text bytes) = Some bytes.
Proof.
  induction 1 as [|b bytes Hb _ IH]; [done|]. cbn [key_text map List.concat app decode_pairs].
  assert (0 <= b / 16 < 16) by (split; [apply Z.div_pos | apply Z.div_lt_upper_bound]; unfold is_byte in Hb; lia).
  assert (0 <= b mod 16 < 16) by (apply Z.mod_pos_bound; lia).
  rewrite !hexNibble_text by done. rewrite !(proj2 (Z.ltb_ge _ 0)) by lia. cbn [orb].
  fold (key_text bytes). rewrite IH. cbn. by rewrite byte_of_nibbles.
Qed.

Lemma length_key_text bytes : List.length (key_text bytes) = (2 * List.length bytes)%nat.
Proof. induction bytes as [|b bytes IH]; [done|]. cbn in *. unfold key_text in IH. lia. Qed.

Lemma strip_last_at c l : strip_last c (l ++ [c]) = l.
Proof. unfold strip_last. rewrite rev_app_distr. cbn. by rewrite Z.eqb_refl, rev_involutive. Qed.

Lemma strip_last_other c l : (forall x, last l = Some x -> x <> c) -> strip_last c l = l.
Proof.
  unfold strip_last. intros H. destruct (rev l) as [|x r] eqn:E; [done|].
  assert (Hl : l = rev r ++ [x]) by (rewrite <- (rev_involutive l), E; done).
  destruct (Z.eqb_spec x c) as [->|]; [|done]. rewrite Hl, last_snoc in H. by destruct (H c eq_refl).
Qed.

Lemma nibble_printable n : 0 <= n < 16 -> 48 <= nibble_text n.
Proof. unfold nibble_text. destruct (n <? 10); lia. Qed.

Lemma key_text_printable bytes : Forall is_byte bytes -> Forall (fun x => 48 <= x) (key_text bytes).
Proof.
  induction 1 as [|b bytes Hb _ IH]; [constructor|]. unfold is_byte in Hb. cbn.
  constructor; [|constructor; [|done]]; apply nibble_printable; [|apply Z.mod_pos_bound; lia].
  split; [apply Z.div_pos | apply Z.div_lt_upper_bound]; lia.
Qed.

Definition line_ends : list (list Z) := [[]; [10]; [13]; [13; 10]].

Lemma strip_line_end l ending :
  Forall (fun x => 48 <= x) l -> ending ∈ line_ends -> strip_last 13 (strip_last 10 (l ++ ending)) = l.
Proof.
  intros Hl He. assert (Hp : forall c, c < 48 -> strip_last c l = l).
  { intros c Hc. apply strip_last_other. intros x Hx. rewrite last_lookup in Hx.
    assert (48 <= x) by exact (Forall_lookup_1 _ _ _ _ Hl Hx). lia. }
  unfold line_ends in He. rewrite !elem_of_cons, elem_of_nil in He.
  destruct He as [->|[->|[->|[->|[]]]]].
  - rewrite app_nil_r. by rewrite !Hp.
  - rewrite strip_last_at. by apply Hp.
  - rewrite (strip_last_other 10), strip_last_at; [done|]. intros x. rewrite last_snoc. by intros [= <-].
  - change [13; 10] with ([13] ++ [10]). by rewrite app_assoc, !strip_last_at.
Qed.

(** What the program writes, it reads back. *)
Lemma decode_printed_key bytes flag ending :
  List.length bytes = 32%nat -> Forall is_byte bytes -> flag ∈ [[]; [48; 49]] -> ending ∈ line_ends ->
  decodeRawPrivateKey (key_text bytes ++ flag ++ ending) = Ok (bytes ++ [1]).
Proof.
  intros Hlen Hb Hf He. unfold decodeRawPrivateKey.
  assert (Hlk := length_key_text bytes). rewrite Hlen in Hlk.
  rewrite !elem_of_cons, elem_of_nil in Hf. destruct Hf as [->|[->|[]]].
  - rewrite strip_line_end by (done || by apply key_text_printable). rewrite Hlk.
    cbn [bool_decide decide require mbind result_bind orb]. rewrite bool_decide_eq_true_2 by done.
    rewrite decode_key_text by done. cbn. by rewrite take_ge by lia.
  - assert (Hk : key_text bytes ++ [48; 49] = key_text (bytes ++ [1])).
    { unfold key_text. rewrite map_app, concat_app. done. }
    assert (Hb' : Forall is_byte (bytes ++ [1])) by (apply Forall_app; split; [done|]; repeat constructor; done).
    rewrite app_assoc, Hk, strip_line_end by (done || by apply key_text_printable).
    rewrite length_key_text, length_app, Hlen, decode_key_text by done. cbn [List.length].
    rewrite (bool_decide_eq_true_2 (2 * (32 + 1) = 66)%nat) by done. rewrite orb_true_r. cbn [require mbind result_bind].
    rewrite lookup_app_r by lia. rewrite Hlen. cbn. by rewrite take_app_length' by done.
Qed.

(** The key file is read back exactly: the hex text of any 32-byte key, with or without the
    compression suffix and with any usual line end, decodes to that key with its suffix byte;
    whatever else is accepted, the result is a 33-byte key ending in that byte. *)
Theorem private_key_roundtrip :
  (forall bytes flag ending, List.length bytes = 32%nat -> Forall is_byte bytes ->
     flag ∈ [[]; [48; 49]] -> ending ∈ line_ends ->
     decodeRawPrivateKey (key_text bytes ++ flag ++ ending) = Ok (bytes ++ [1])) /\
  (forall encoded key, decodeRawPrivateKey encoded = Ok key ->
     List.length key = 33%nat /\ last key = Some 1).
Proof.
  split.
  - intros bytes flag ending. apply decode_printed_key.
  - intros encoded key H. unfold decodeRawPrivateKey in H. set (text := strip_last 13 _) in H.
    apply bind_Ok in H as (? & Hn%require_Ok & H). destruct (decode_pairs text) as [decoded|] eqn:Hd; [|done].
    apply bind_Ok in H as (? & _ & [= <-]). split; [|by rewrite last_snoc].
    assert (Hl : forall l k, decode_pairs l = Some k -> List.length l = (2 * List.length k)%nat).
    { fix IH 1. intros [|a [|b l]] k; cbn; [by intros [= <-] | done |].
      destruct ((hexNibble a <? 0) || (hexNibble b <? 0)); [discriminate|]. destruct (decode_pairs l) as [k'|] eqn:Hk; [|discriminate].
      intros [= <-]. cbn. rewrite (IH _ _ Hk). lia. }
    apply Hl in Hd. rewrite length_app, length_take. cbn [List.length].
    apply orb_true_iff in Hn as [Hn%bool_decide_eq_true|Hn%bool_decide_eq_true]; lia.
Qed.

(** ** A concrete instance *)

Module ConcreteSigner.

Definition revalidateReward (p : Plan) : option Plan :=
  ok_opt (revalidateRewardOperationPlan Concrete.validAddress Concrete.compress Concrete.addressOf
    Concrete.uuid Concrete.serialize (fun _ => true) Concrete.checksum code_unit_compare p).

Definition revalidateSweep (p : SweepPlan) : option SweepPlan :=
  ok_opt (revalidateGasWalletSweepPlan ConcreteSweep.validAddress ConcreteSweep.serialize
    ConcreteSweep.read_back ConcreteSweep.sha p).

Definition signOrigin (hex : string) (key : list Z) : option (list Z * string) :=
  Some (key ++ text_bytes hex, ConcreteSweep.sha (text_bytes hex)).

Definition signer : Signer :=
  {| sn_privateKey := repeat 7 32 ++ [1]; sn_principal := "SPWALLET";
     sn_publicKey := "02" ++ String.concat "" (repeat "ab"%string 32); sn_network := mainnet;
     sn_destroyed := false |}.

Definition reward_signer : Signer :=
  {| sn_privateKey := repeat 7 32 ++ [1]; sn_principal := "SPW"; sn_publicKey := Concrete.key;
     sn_network := mainnet; sn_destroyed := false |}.

Definition reward_planned : plan_result Plan :=
  planRewardOperation Concrete.validAddress Concrete.compress Concrete.addressOf Concrete.uuid
    Concrete.serialize (fun _ => true) Concrete.checksum code_unit_compare Concrete.input.

(** A plan that exists and is signed. *)
Lemma planned_signed {E A} (m : result E A) (s : A -> result GasPayerSignerErrorCode SignedTransaction) :
  match m with Ok p => is_ok (s p) | Err _ => false end = true ->
  exists p tx, m = Ok p /\ s p = Ok tx.
Proof. destruct m as [p|]; [|done]. destruct (s p) as [tx|] eqn:H; [|done]. by exists p, tx. Qed.

Lemma reward_signed : exists p tx, reward_planned = Ok p /\
  sign signOrigin revalidateReward reward_signer op_claim_staker_rewards p = Ok tx.
Proof. apply planned_signed. vm_compute. reflexivity. Qed.

Lemma sweep_signed : exists p tx, ConcreteSweep.planned = Ok p /\
  signGasWalletSweepPlan signOrigin revalidateSweep signer p = Ok tx.
Proof. apply planned_signed. vm_compute. reflexivity. Qed.

Lemma signs_only_sealed_plans_witness :
  (exists p tx q, sign signOrigin revalidateReward reward_signer op_claim_staker_rewards p = Ok tx /\
     revalidateReward p = Some q /\ stx_fee tx = m_feeUstx (material q)) /\
  (exists p tx q, signGasWalletSweepPlan signOrigin revalidateSweep signer p = Ok tx /\
     revalidateSweep p = Some q /\ stx_fee tx = sm_feeUstx (sp_material q)).
Proof.
  destruct reward_signed as (p & tx & _ & Hs). destruct sweep_signed as (p' & tx' & _ & Hs'). split.
  - exists p, tx. destruct (signs_only_sealed_plans signOrigin revalidateReward revalidateSweep
      reward_signer op_claim_staker_rewards p p' tx) as [H _].
    destruct (H Hs) as (q & Hq & _ & _ & _ & _ & _ & _ & _ & _ & Hf). exists q.
    split; [exact Hs | split; [exact Hq | exact Hf]].
  - exists p', tx'. destruct (signs_only_sealed_plans signOrigin revalidateReward revalidateSweep signer
      op_claim_staker_rewards p p' tx') as (_ & H & _).
    destruct (H Hs') as (q & Hq & _ & _ & _ & _ & _ & _ & _ & Hf). exists q.
    split; [exact Hs' | split; [exact Hq | exact Hf]].
Defined.

Lemma private_key_roundtrip_witness :
  decodeRawPrivateKey (key_text (repeat 171 32) ++ [48; 49] ++ [13; 10]) = Ok (repeat 171 32 ++ [1]).
Proof.
  destruct private_key_roundtrip as [H _]. apply H; [reflexivity | | |].
  - apply Forall_forall. intros x Hx. apply list_elem_of_In, repeat_spec in Hx as ->. split; lia.
  - apply elem_of_cons. right. constructor.
  - unfold line_ends. do 3 (apply elem_of_cons; right). constructor.
Defined.

End ConcreteSigner.
