(* ===== verification/NakamotoBlock.v ===== *)
(** * Transactions of a Nakamoto block

    apps/sidekick/src/nakamoto-block.ts and canonical-node-block.ts: a transaction is proven to
    be in a block by reading the block the node served, without a transaction index.  Bytes are
    integers from 0 to 255; the library's transaction reader is a parameter that returns the
    transaction at the head of the bytes and how many bytes it took.  [encodeBlock] is the
    consensus format the comments of the source describe. *)

From S2P Require Import Prelude Text.

Open Scope Z_scope.

(** ** Errors of chain reads *)

(** The classes of apps/sidekick/src/chain-clients.ts a read may throw. *)
Inductive ReadError :=
  | UpstreamUnavailableError
  | RateLimitedError (retryAfterMs : option Z)
  | UpstreamHttpError (status : Z)
  | ChainAnchorError (retryable : bool)
  | OtherError.

Definition isRetryableChainReadError (e : ReadError) : bool :=
  match e with
  | UpstreamUnavailableError | RateLimitedError _ => true
  | ChainAnchorError retryable => retryable
  | _ => false
  end.

(** ** The block header *)

Definition FIXED_HEADER_BYTES : nat := 206.
Definition MESSAGE_SIGNATURE_BYTES : nat := 65.
Definition PROBLEMATIC_TX_MARKER_BYTES : nat := 5.
Definition HEADER_VERSION_MASK : Z := 127.
Definition HEADER_VERSION_EPOCH_4 : Z := 1.

Definition requireBytes (block : list Z) (offset length : nat) : result ReadError unit :=
  require (negb (List.length block <? offset + length)%nat) OtherError.

(** [DataView.getUint32], big-endian; it throws past the end. *)
Definition getUint32 (block : list Z) (offset : nat) : result ReadError nat :=
  match drop offset block with
  | a :: b :: c :: d :: _ => Ok (Z.to_nat (((a * 256 + b) * 256 + c) * 256 + d))
  | _ => Err OtherError
  end.

Definition getUint8 (block : list Z) (offset : nat) : result ReadError Z :=
  match drop offset block with a :: _ => Ok a | [] => Err OtherError end.

(** A vector of [width]-byte elements: its length prefix, then a skip. *)
Definition skipVector (block : list Z) (offset width : nat) : result ReadError nat :=
  n ← getUint32 block offset;
  _ ← requireBytes block (offset + 4) (n * width);
  Ok (offset + 4 + n * width)%nat.

Definition transactionArrayOffset (block : list Z) : result ReadError nat :=
  _ ← requireBytes block 0 (FIXED_HEADER_BYTES + 4);
  version ← getUint8 block 0;
  offset ← skipVector block FIXED_HEADER_BYTES MESSAGE_SIGNATURE_BYTES;
  _ ← requireBytes block offset 6;
  offset ← skipVector block (offset + 2) 1;
  if HEADER_VERSION_EPOCH_4 <=? Z.land version HEADER_VERSION_MASK then
    _ ← requireBytes block offset 4;
    skipVector block offset PROBLEMATIC_TX_MARKER_BYTES
  else Ok offset.

(** ** Transactions *)

(** What the source uses of a deserialised transaction. *)
Record BlockTx := { tx_id : string; tx_hex : string }.

Section Walk.

Context (deserializeTransaction : list Z -> option (BlockTx * nat)).

(** [count] transactions from the head of the bytes, and what is left. *)
Fixpoint readTransactions (count : nat) (bytes : list Z) : result ReadError (list BlockTx * list Z) :=
  match count with
  | O => Ok ([], bytes)
  | S count' =>
      match deserializeTransaction bytes with
      | None => Err OtherError
      | Some (tx, taken) =>
          '(txs, rest) ← readTransactions count' (drop taken bytes); Ok (tx :: txs, rest)
      end
  end.

(** The transactions visited, in order. *)
Definition walkNakamotoBlockTransactions (block : list Z) : result ReadError (list BlockTx) :=
  offset ← transactionArrayOffset block;
  count ← getUint32 block offset;
  '(txs, rest) ← readTransactions count (drop (offset + 4) block);
  _ ← require (bool_decide (rest = [])) OtherError;
  Ok txs.

Definition visible_id (tx : BlockTx) : string := ("0x" ++ toLowerCase (tx_id tx))%string.

Definition readNakamotoBlockTxids (block : list Z) : result ReadError (list string) :=
  map visible_id <$> walkNakamotoBlockTransactions block.

(** The last transaction with the ID, once the whole block is read. *)
Definition findNakamotoBlockTransaction (block : list Z) (txId : string)
    : result ReadError (option BlockTx) :=
  txs ← walkNakamotoBlockTransactions block;
  Ok (fold_left (fun found tx => if String.eqb (visible_id tx) (toLowerCase txId) then Some tx else found)
        txs None).

Definition nakamotoBlockContainsTxid (block : list Z) (txId : string) : result ReadError bool :=
  existsb (fun candidate => String.eqb candidate (toLowerCase txId)) <$> readNakamotoBlockTxids block.

(** ** Proofs against the node's canonical chain *)

(** What the node answers: its tip height, and the block by ID and by height. *)
Record NodeBlockReads := {
  nb_tip : result ReadError Z;
  nb_identified : result ReadError (list Z);
  nb_canonical : result ReadError (list Z);
}.

Inductive CanonicalTransactionProof :=
  | proof_included (transaction : BlockTx) | proof_absent | proof_reorged.

Definition canonicalBlockBytes (reads : NodeBlockReads) (blockHeight : Z)
    : result ReadError (option (list Z)) :=
  tip ← nb_tip reads;
  _ ← require (negb (tip <? blockHeight)) UpstreamUnavailableError;
  identified ← nb_identified reads;
  canonical ← nb_canonical reads;
  Ok (if bool_decide (identified = canonical) then Some identified else None).

Definition checkTransactionInCanonicalBlock (reads : NodeBlockReads) (blockHeight : Z) (txId : string)
    : result ReadError CanonicalTransactionProof :=
  block ← canonicalBlockBytes reads blockHeight;
  match block with
  | None => Ok proof_reorged
  | Some bytes =>
      found ← findNakamotoBlockTransaction bytes txId;
      Ok (match found with Some tx => proof_included tx | None => proof_absent end)
  end.

(** [true] is "canonical", [false] is "reorged". *)
Definition checkCanonicalNodeBlock (reads : NodeBlockReads) (blockHeight : Z) : result ReadError bool :=
  block ← canonicalBlockBytes reads blockHeight;
  Ok (match block with Some _ => true | None => false end).

Definition proveTransactionInCanonicalBlock (reads : NodeBlockReads) (blockHeight : Z) (txId : string)
    : result ReadError unit :=
  proof ← checkTransactionInCanonicalBlock reads blockHeight txId;
  match proof with proof_included _ => Ok tt | _ => Err OtherError end.

End Walk.

(** ** The consensus format *)

Record BlockHeader := {
  bh_fixed : list Z;
  bh_signatures : list (list Z);
  bh_bits : list Z;
  bh_treatment : list Z;
  bh_markers : list (list Z);
}.

Definition u32_bytes (n : nat) : list Z :=
  let v := Z.of_nat n in [v / 16777216 mod 256; v / 65536 mod 256; v / 256 mod 256; v mod 256].

Definition has_markers (h : BlockHeader) : bool :=
  HEADER_VERSION_EPOCH_4 <=? Z.land (hd 0 (bh_fixed h)) HEADER_VERSION_MASK.

Definition encodeHeader (h : BlockHeader) : list Z :=
  bh_fixed h ++ u32_bytes (List.length (bh_signatures h)) ++ List.concat (bh_signatures h) ++
  bh_bits h ++ u32_bytes (List.length (bh_treatment h)) ++ bh_treatment h ++
  (if has_markers h then u32_bytes (List.length (bh_markers h)) ++ List.concat (bh_markers h) else []).

Definition encodeBlock (encodeTx : BlockTx -> list Z) (h : BlockHeader) (txs : list BlockTx) : list Z :=
  encodeHeader h ++ u32_bytes (List.length txs) ++ List.concat (map encodeTx txs).

Definition u32 (n : nat) : Prop := Z.of_nat n < 2 ^ 32.

Record header_ok (h : BlockHeader) : Prop := {
  hd_fixed : List.length (bh_fixed h) = FIXED_HEADER_BYTES;
  hd_signatures : u32 (List.length (bh_signatures h)) /\
    Forall (fun s => List.length s = MESSAGE_SIGNATURE_BYTES) (bh_signatures h);
  hd_bits : List.length (bh_bits h) = 2%nat;
  hd_treatment : u32 (List.length (bh_treatment h));
  hd_markers : u32 (List.length (bh_markers h)) /\
    Forall (fun m => List.length m = PROBLEMATIC_TX_MARKER_BYTES) (bh_markers h);
}.

(** ** Reading the format back *)

Lemma requireBytes_ok block offset length u :
  requireBytes block offset length = Ok u <-> (offset + length <= List.length block)%nat.
Proof.
  unfold requireBytes. rewrite require_Ok, negb_true_iff, Nat.ltb_ge. lia.
Qed.

Lemma getUint32_at pre n rest :
  u32 n -> getUint32 (pre ++ u32_bytes n ++ rest) (List.length pre) = Ok n.
Proof.
  unfold u32. intros Hn. unfold getUint32. rewrite drop_app_length. cbn -[Z.div Z.modulo Z.mul Z.add].
  f_equal. set (v := Z.of_nat n) in *. assert (0 <= v) by lia.
  assert (Hv : ((v / 16777216 mod 256 * 256 + v / 65536 mod 256) * 256 + v / 256 mod 256) * 256 +
               v mod 256 = v).
  { rewrite (Z.mod_small (v / 16777216)) by (split; [apply Z.div_pos | apply Z.div_lt_upper_bound]; lia).
    replace (v / 16777216) with (v / 256 / 256 / 256) by (rewrite !Z.div_div by lia; f_equal; lia).
    replace (v / 65536) with (v / 256 / 256) by (rewrite !Z.div_div by lia; f_equal; lia).
    assert (H1 := Z.div_mod v 256 ltac:(lia)). assert (H2 := Z.div_mod (v / 256) 256 ltac:(lia)).
    assert (H3 := Z.div_mod (v / 256 / 256) 256 ltac:(lia)). lia. }
  rewrite Hv. lia.
Qed.

Lemma length_u32 n : List.length (u32_bytes n) = 4%nat.
Proof. done. Qed.

Lemma concat_width (l : list (list Z)) width :
  Forall (fun s => List.length s = width) l -> List.length (List.concat l) = (List.length l * width)%nat.
Proof. induction 1 as [|s l Hs _ IH]; cbn; [done|]. rewrite length_app. lia. Qed.

Lemma requireBytes_at block offset length :
  (offset + length <= List.length block)%nat -> requireBytes block offset length = Ok tt.
Proof. intros H. by apply requireBytes_ok. Qed.

(** One vector of the header, between what was read and what is left. *)
Lemma skipVector_at block offset pre n width body rest :
  block = pre ++ u32_bytes n ++ body ++ rest -> offset = List.length pre -> u32 n ->
  List.length body = (n * width)%nat ->
  skipVector block offset width = Ok (offset + 4 + n * width)%nat.
Proof.
  intros -> -> Hn Hb. unfold skipVector. rewrite getUint32_at by done. cbn [mbind result_bind].
  rewrite requireBytes_at by (rewrite !length_app, length_u32; lia). done.
Qed.

Lemma length_encodeHeader h :
  header_ok h -> List.length (encodeHeader h) =
    (216 + List.length (bh_signatures h) * 65 + List.length (bh_treatment h) +
     if has_markers h then 4 + List.length (bh_markers h) * 5 else 0)%nat.
Proof.
  intros [Hf [_ Hs%concat_width] Hb _ [_ Hm%concat_width]]. unfold encodeHeader.
  unfold FIXED_HEADER_BYTES, MESSAGE_SIGNATURE_BYTES, PROBLEMATIC_TX_MARKER_BYTES in *.
  rewrite !length_app, !length_u32. destruct (has_markers h); [rewrite length_app, length_u32|cbn]; lia.
Qed.

Lemma header_read h rest :
  header_ok h -> (4 <= List.length rest)%nat ->
  transactionArrayOffset (encodeHeader h ++ rest) = Ok (List.length (encodeHeader h)).
Proof.
  intros Hok Hrest. assert (Hlen := length_encodeHeader h Hok).
  destruct Hok as [Hf [Hs1 Hs%concat_width] Hb Ht [Hm1 Hm%concat_width]].
  unfold FIXED_HEADER_BYTES, MESSAGE_SIGNATURE_BYTES, PROBLEMATIC_TX_MARKER_BYTES in *.
  set (block := encodeHeader h ++ rest). assert (Hall := length_app (encodeHeader h) rest). fold block in Hall.
  unfold transactionArrayOffset. rewrite requireBytes_at by (unfold FIXED_HEADER_BYTES; lia).
  assert (Hv : getUint8 block 0 = Ok (hd 0 (bh_fixed h))).
  { unfold block, encodeHeader. by destruct (bh_fixed h). }
  rewrite Hv. cbn [mbind result_bind].
  rewrite (skipVector_at block _ (bh_fixed h) (List.length (bh_signatures h)) _ (List.concat (bh_signatures h))
    (bh_bits h ++ u32_bytes (List.length (bh_treatment h)) ++ bh_treatment h ++
     (if has_markers h then u32_bytes (List.length (bh_markers h)) ++ List.concat (bh_markers h) else []) ++ rest));
    [|by unfold block, encodeHeader; rewrite <- !app_assoc | done | done | done].
  cbn [mbind result_bind]. unfold FIXED_HEADER_BYTES, MESSAGE_SIGNATURE_BYTES.
  rewrite requireBytes_at by (destruct (has_markers h); lia). cbn [mbind result_bind].
  rewrite (skipVector_at block _ (bh_fixed h ++ u32_bytes (List.length (bh_signatures h)) ++
      List.concat (bh_signatures h) ++ bh_bits h) (List.length (bh_treatment h)) _ (bh_treatment h)
    ((if has_markers h then u32_bytes (List.length (bh_markers h)) ++ List.concat (bh_markers h) else []) ++ rest));
    [|by unfold block, encodeHeader; rewrite <- !app_assoc
     |rewrite !length_app, length_u32; lia | done | lia].
  cbn [mbind result_bind]. change (1 <=? Z.land (hd 0 (bh_fixed h)) 127) with (has_markers h).
  change (HEADER_VERSION_EPOCH_4 <=? Z.land (hd 0 (bh_fixed h)) HEADER_VERSION_MASK) with (has_markers h).
  destruct (has_markers h) eqn:Hmk; [|f_equal; lia].
  rewrite requireBytes_at by lia. cbn [mbind result_bind].
  rewrite (skipVector_at block _ (bh_fixed h ++ u32_bytes (List.length (bh_signatures h)) ++
      List.concat (bh_signatures h) ++ bh_bits h ++ u32_bytes (List.length (bh_treatment h)) ++ bh_treatment h)
    (List.length (bh_markers h)) _ (List.concat (bh_markers h)) rest);
    [|by unfold block, encodeHeader; rewrite Hmk; rewrite <- !app_assoc
     |rewrite !length_app, !length_u32; lia | done | done].
  unfold PROBLEMATIC_TX_MARKER_BYTES. f_equal. lia.
Qed.

(** ** Inclusion *)

Section Inclusion.

Context (deserializeTransaction : list Z -> option (BlockTx * nat)) (encodeTx : BlockTx -> list Z).

(** What the library documents: it reads back a serialised transaction, and exactly its bytes. *)
Definition reads_back (txs : list BlockTx) : Prop := forall tx rest, tx ∈ txs ->
  deserializeTransaction (encodeTx tx ++ rest) = Some (tx, List.length (encodeTx tx)).

Lemma readTransactions_at txs rest :
  reads_back txs ->
  readTransactions deserializeTransaction (List.length txs) (List.concat (map encodeTx txs) ++ rest) =
    Ok (txs, rest).
Proof.
  induction txs as [|tx txs IH]; intros Hrb; [done|].
  cbn [map List.concat List.length readTransactions].
  rewrite <- app_assoc, Hrb by constructor. rewrite drop_app_length, IH; [done|].
  intros x r Hx. apply Hrb. by constructor.
Qed.

Lemma walk_encoded h txs :
  reads_back txs -> header_ok h -> u32 (List.length txs) ->
  walkNakamotoBlockTransactions deserializeTransaction (encodeBlock encodeTx h txs) = Ok txs.
Proof.
  intros Hrb Hh Hn. unfold walkNakamotoBlockTransactions, encodeBlock.
  rewrite header_read by (done || (rewrite length_app, length_u32; lia)). cbn [mbind result_bind].
  rewrite getUint32_at by done. cbn [mbind result_bind].
  rewrite app_assoc, drop_app_length' by (by rewrite length_app, length_u32).
  rewrite <- (app_nil_r (List.concat (map encodeTx txs))), readTransactions_at by done. done.
Qed.

Lemma find_last txs needle found :
  fold_left (fun found tx => if String.eqb (visible_id tx) needle then Some tx else found) txs found =
    match last (List.filter (fun tx => String.eqb (visible_id tx) needle) txs) with
    | Some tx => Some tx
    | None => found
    end.
Proof.
  revert found. induction txs as [|tx txs IH]; intros found; [done|].
  cbn [fold_left List.filter]. rewrite IH. destruct (String.eqb (visible_id tx) needle); [|done].
  destruct (List.filter _ txs) as [|x l]; [done|]. change (last (tx :: x :: l)) with (last (x :: l)).
  destruct (last (x :: l)) eqn:E; [done|]. by apply last_None in E.
Qed.

(** C33. Inclusion is read from the block itself: of a block in the consensus format, whatever
    its header, the transactions come back exactly as they were written; for an ID that one of them
    has, and only then, the check answers "included", with a transaction of the block that has it,
    and otherwise it answers "absent". *)
Theorem block_inclusion h txs reads height tip txId :
  reads_back txs -> header_ok h -> u32 (List.length txs) ->
  nb_tip reads = Ok tip -> height <= tip ->
  nb_identified reads = Ok (encodeBlock encodeTx h txs) ->
  nb_canonical reads = Ok (encodeBlock encodeTx h txs) ->
  readNakamotoBlockTxids deserializeTransaction (encodeBlock encodeTx h txs) =
    Ok (map visible_id txs) /\
  (forall tx, checkTransactionInCanonicalBlock deserializeTransaction reads height txId =
       Ok (proof_included tx) -> tx ∈ txs /\ visible_id tx = toLowerCase txId) /\
  ((exists tx, checkTransactionInCanonicalBlock deserializeTransaction reads height txId = Ok (proof_included tx)) <->
   exists tx, tx ∈ txs /\ visible_id tx = toLowerCase txId) /\
  (checkTransactionInCanonicalBlock deserializeTransaction reads height txId = Ok proof_absent <->
   forall tx, tx ∈ txs -> visible_id tx <> toLowerCase txId).
Proof.
  intros Hrb Hh Hn Htip Hle Hi Hc. assert (Hw := walk_encoded h txs Hrb Hh Hn).
  unfold readNakamotoBlockTxids. rewrite Hw. split; [done|].
  unfold checkTransactionInCanonicalBlock, canonicalBlockBytes, findNakamotoBlockTransaction.
  rewrite Htip, Hi, Hc. cbn [mbind result_bind].
  rewrite (proj2 (Z.ltb_ge tip height)) by done. cbn [negb require mbind result_bind].
  rewrite bool_decide_eq_true_2 by done. rewrite Hw. cbn [mbind result_bind]. rewrite find_last.
  assert (Hin : forall tx, tx ∈ List.filter (fun tx => String.eqb (visible_id tx) (toLowerCase txId)) txs <->
            tx ∈ txs /\ visible_id tx = toLowerCase txId).
  { intros tx. by rewrite !list_elem_of_In, filter_In, String.eqb_eq. }
  destruct (last _) as [found|] eqn:Hl.
  - assert (Hf : found ∈ List.filter (fun tx => String.eqb (visible_id tx) (toLowerCase txId)) txs).
    { rewrite last_lookup in Hl. by eapply list_elem_of_lookup_2. }
    apply Hin in Hf as [Hf1 Hf2]. split; [by intros tx [= <-]|].
    split; [split; intros _; by exists found|]. split; [done|]. intros Hall. by destruct (Hall found Hf1).
  - assert (Hno : forall tx, tx ∈ txs -> visible_id tx <> toLowerCase txId).
    { intros tx Htx He. apply last_None in Hl.
      assert (tx ∈ @nil BlockTx) as Hnil by (rewrite <- Hl; by apply Hin). by apply elem_of_nil in Hnil. }
    split; [done|]. split; [|by split].
    split; [by intros [tx [=]]|]. intros (tx & Htx & He). by destruct (Hno tx Htx).
Qed.

End Inclusion.

(** A malformed or partial block is never evidence: the check only answers when the node
    reached the height, served the same bytes by ID and by height, and the transactions used
    the block up to its last byte; bytes that differ are a reorg whatever they hold. *)
Theorem block_evidence_is_exact deserialize reads height txId proof :
  checkTransactionInCanonicalBlock deserialize reads height txId = Ok proof ->
  exists tip block canonical, nb_tip reads = Ok tip /\ height <= tip /\
    nb_identified reads = Ok block /\ nb_canonical reads = Ok canonical /\
    (proof = proof_reorged <-> block <> canonical) /\
    (proof <> proof_reorged -> exists offset count txs,
       transactionArrayOffset block = Ok offset /\ getUint32 block offset = Ok count /\
       readTransactions deserialize count (drop (offset + 4) block) = Ok (txs, []) /\
       List.length txs = count).
Proof.
  unfold checkTransactionInCanonicalBlock, canonicalBlockBytes. intros H.
  apply bind_Ok in H as (o & H0 & H). apply bind_Ok in H0 as (tip & Htip & H0).
  apply bind_Ok in H0 as (? & Hle%require_Ok & H0). apply bind_Ok in H0 as (block & Hb & H0).
  apply bind_Ok in H0 as (canonical & Hc & [= <-]). apply negb_true_iff, Z.ltb_ge in Hle.
  exists tip, block, canonical. split_and!; try done.
  - destruct (bool_decide_reflect (block = canonical)) as [->|Hne]; [|by injection H as <-].
    apply bind_Ok in H as (found & _ & [= <-]). by destruct found.
  - intros Hn. destruct (bool_decide_reflect (block = canonical)) as [->|Hne]; [|by injection H as <-].
    apply bind_Ok in H as (found & Hf & _). unfold findNakamotoBlockTransaction in Hf.
    apply bind_Ok in Hf as (txs & Hw & _). unfold walkNakamotoBlockTransactions in Hw.
    apply bind_Ok in Hw as (offset & Ho & Hw). apply bind_Ok in Hw as (count & Hcount & Hw).
    apply bind_Ok in Hw as ([l rest] & Hr & Hw). apply bind_Ok in Hw as (? & He%require_Ok & [= <-]).
    apply bool_decide_eq_true in He as ->. exists offset, count, l. split_and!; try done.
    clear -Hr. revert Hr. generalize (drop (offset + 4) canonical). revert l.
    induction count as [|count IH]; intros l bytes Hr; cbn in Hr; [by injection Hr as <-|].
    destruct (deserialize bytes) as [[tx taken]|]; [|done].
    apply bind_Ok in Hr as ([l' rest'] & Hr & [= <- ->]). cbn. f_equal. by eapply IH.
Qed.

(** ** A concrete instance *)

Module ConcreteBlock.

(** A transaction is its length and the bytes of its ID. *)
Definition encodeTx (tx : BlockTx) : list Z :=
  Z.of_nat (List.length (text_bytes (tx_id tx))) :: text_bytes (tx_id tx).

Definition deserialize (bytes : list Z) : option (BlockTx * nat) :=
  match bytes with
  | [] => None
  | n :: rest =>
      let id := String.string_of_list_ascii
                  (map (fun b => ascii_of_nat (Z.to_nat b)) (take (Z.to_nat n) rest)) in
      Some ({| tx_id := id; tx_hex := "" |}, S (Z.to_nat n))
  end.

Definition header : BlockHeader :=
  {| bh_fixed := 1 :: repeat 0 205; bh_signatures := [repeat 5 65; repeat 6 65]; bh_bits := [0; 8];
     bh_treatment := [255]; bh_markers := [[0; 0; 0; 1; 9]] |}.

Definition block : list Z :=
  encodeBlock encodeTx header [{| tx_id := "aa"; tx_hex := "" |}; {| tx_id := "bb"; tx_hex := "" |}].

Definition reads : NodeBlockReads :=
  {| nb_tip := Ok 10; nb_identified := Ok block; nb_canonical := Ok block |}.

Example reads_both : readNakamotoBlockTxids deserialize block = Ok ["0xaa"; "0xbb"]%string.
Proof. vm_compute. reflexivity. Qed.

Lemma block_inclusion_witness :
  readNakamotoBlockTxids deserialize block = Ok ["0xaa"; "0xbb"]%string /\
  exists tx, checkTransactionInCanonicalBlock deserialize reads 7 "0xBB" = Ok (proof_included tx).
Proof.
  assert (Hrb : reads_back deserialize encodeTx
    [{| tx_id := "aa"; tx_hex := "" |}; {| tx_id := "bb"; tx_hex := "" |}]).
  { intros tx rest Htx. apply elem_of_cons in Htx as [->|Htx]; [reflexivity|].
    apply elem_of_cons in Htx as [->|Htx]; [reflexivity | by apply elem_of_nil in Htx]. }
  assert (Hh : header_ok header) by (split; try split; vm_compute; repeat constructor).
  destruct (block_inclusion deserialize encodeTx header _ reads 7 10 "0xBB" Hrb Hh) as (H1 & _ & H3 & _);
    [vm_compute; reflexivity | reflexivity | lia | reflexivity | reflexivity |].
  split; [exact H1|]. apply H3. exists {| tx_id := "bb"; tx_hex := "" |}.
  split; [apply elem_of_cons; right; apply elem_of_cons; left; reflexivity | reflexivity].
Defined.

Lemma block_evidence_is_exact_witness : exists tip,
  checkTransactionInCanonicalBlock deserialize reads 7 "0xBB" =
    Ok (proof_included {| tx_id := "bb"; tx_hex := "" |}) /\ nb_tip reads = Ok tip /\ 7 <= tip.
Proof.
  assert (H : checkTransactionInCanonicalBlock deserialize reads 7 "0xBB" =
    Ok (proof_included {| tx_id := "bb"; tx_hex := "" |})) by (vm_compute; reflexivity).
  destruct (block_evidence_is_exact deserialize reads 7 "0xBB" _ H) as (tip & b & c & Ht & Hle & _).
  exists tip. split; [exact H|]. split; [exact Ht | exact Hle].
Defined.

End ConcreteBlock.
