(* ===== verification/AnchorCapture.v ===== *)
(** * Capturing a chain anchor

    The anchor part of apps/sidekick/src/chain-clients.ts: an anchor is built from what the node
    (or the node and the API) report, between two reads of one and the same tip, and a capture
    that saw the tip move is tried again at most twice.  The values of the responses have passed
    their schemas; a [Promise.all] is one answer, its first rejection or the values. *)

From S2P Require Import Prelude Text ChainAnchor NakamotoBlock.

Open Scope Z_scope.

(** ** Responses *)

Record NodeInfo := {
  ni_burn_block_height : Z;
  ni_stacks_tip_height : Z;
  ni_stacks_tip : option string;
}.

Record NodeTenureInfo := {
  ti_tip_block_id : string;
  ti_tip_height : Z;
  ti_reward_cycle : Z;
}.

Record NextCycle := { nc_id : Z; nc_reward_phase_start_block_height : Z }.

Record PoxInfo := {
  px_current_burnchain_block_height : Z;
  px_reward_cycle_id : Z;
  px_reward_cycle_length : Z;
  px_prepare_cycle_length : Z;
  px_next_cycle : option NextCycle;
}.

(** A block summary with its own hash. *)
Record TipBlock := { tb_hash : string; tb_summary : AnchorProof.StacksBlockSummary }.

Abbreviation ApiStatus := AnchorProof.ApiStatus.
Abbreviation Anchored := Anchor.ChainAnchor.

(** What the schema of [PoxInfo] guarantees of the lengths. *)
Definition pox_lengths_ok (p : PoxInfo) : bool :=
  Anchor.positiveInt (px_reward_cycle_length p) && Anchor.nonnegativeInt (px_prepare_cycle_length p).

(** ** One position of the chain *)

Definition sameApiTip (left right : ApiStatus) : bool :=
  (AnchorProof.tip_block_height left =? AnchorProof.tip_block_height right) &&
  String.eqb (toLowerCase (AnchorProof.tip_index_block_hash left))
             (toLowerCase (AnchorProof.tip_index_block_hash right)) &&
  (AnchorProof.tip_burn_block_height left =? AnchorProof.tip_burn_block_height right).

Definition apiStatusAtNodeTip (nodeInfo : NodeInfo) (block : TipBlock) : result ReadError ApiStatus :=
  let s := tb_summary block in
  if negb (AnchorProof.canonical s) ||
     negb (AnchorProof.height s =? ni_stacks_tip_height nodeInfo) ||
     negb (bool_decide (Some (tb_hash block) = ni_stacks_tip nodeInfo))
  then Err (ChainAnchorError true)
  else Ok {| AnchorProof.tip_block_height := AnchorProof.height s;
             AnchorProof.tip_block_hash := tb_hash block;
             AnchorProof.tip_index_block_hash := AnchorProof.index_block_hash s;
             AnchorProof.tip_burn_block_height := AnchorProof.burn_block_height s |}.

(** [getBlock] is [api.getBlock]. *)
Definition sharedApiStatus (getBlock : string -> result ReadError TipBlock) (apiStatus : ApiStatus)
    (nodeInfo : NodeInfo) : result ReadError ApiStatus :=
  if ni_stacks_tip_height nodeInfo =? AnchorProof.tip_block_height apiStatus then Ok apiStatus
  else
    match ni_stacks_tip nodeInfo with
    | Some tip =>
        if AnchorProof.tip_block_height apiStatus =? ni_stacks_tip_height nodeInfo + 1
        then block ← getBlock tip; apiStatusAtNodeTip nodeInfo block
        else Ok apiStatus
    | None => Ok apiStatus
    end.

(** The cycle of a Bitcoin height: [Math.floor] of the quotient is the floor division. *)
Definition cycleStart (p : PoxInfo) (next : NextCycle) : Z :=
  nc_reward_phase_start_block_height next - px_reward_cycle_length p.

Definition createChainAnchor (nodeInfo : NodeInfo) (apiStatus : ApiStatus) (poxInfo : PoxInfo)
    : result ReadError Anchored :=
  let burn := AnchorProof.tip_burn_block_height apiStatus in
  if (ni_stacks_tip_height nodeInfo <? AnchorProof.tip_block_height apiStatus) ||
     (ni_burn_block_height nodeInfo - burn <? 0) ||
     negb (px_current_burnchain_block_height poxInfo =? ni_burn_block_height nodeInfo)
  then Err (ChainAnchorError true)
  else
    match px_next_cycle poxInfo with
    | None => Err (ChainAnchorError false)
    | Some next =>
        if negb (nc_id next =? px_reward_cycle_id poxInfo + 1) then Err (ChainAnchorError false)
        else
          let length := px_reward_cycle_length poxInfo in
          let start := cycleStart poxInfo next in
          let offset := (burn - start) / length in
          let cycle := px_reward_cycle_id poxInfo + offset in
          let position := burn - (start + offset * length) in
          if (cycle <? 0) || negb (Anchor.isSafeInteger cycle) || (position <? 0) ||
             (length <=? position)
          then Err (ChainAnchorError false)
          else
            match Anchor.parseChainAnchor
              {| Anchor.stacksBlockHeight := AnchorProof.tip_block_height apiStatus;
                 Anchor.indexBlockHash := AnchorProof.tip_index_block_hash apiStatus;
                 Anchor.burnBlockHeight := burn; Anchor.rewardCycle := cycle;
                 Anchor.rewardCycleLength := length;
                 Anchor.prepareCycleLength := px_prepare_cycle_length poxInfo;
                 Anchor.cyclePosition := position;
                 Anchor.phase := if length - px_prepare_cycle_length poxInfo <=? position
                                 then Anchor.phase_prepare else Anchor.phase_reward;
                 Anchor.checkpoint := if position <? length / 2
                                      then Anchor.first_half else Anchor.second_half |} with
            | Ok a => Ok a
            | Err _ => Err OtherError
            end
    end.

Definition createNodeChainAnchor (nodeInfo : NodeInfo) (tenureInfo : NodeTenureInfo) (poxInfo : PoxInfo)
    : result ReadError Anchored :=
  if negb (ni_stacks_tip_height nodeInfo =? ti_tip_height tenureInfo) ||
     negb (ni_burn_block_height nodeInfo =? px_current_burnchain_block_height poxInfo)
  then Err (ChainAnchorError true)
  else
    anchor ← createChainAnchor nodeInfo
      {| AnchorProof.tip_block_height := ti_tip_height tenureInfo;
         AnchorProof.tip_block_hash := ti_tip_block_id tenureInfo;
         AnchorProof.tip_index_block_hash := ti_tip_block_id tenureInfo;
         AnchorProof.tip_burn_block_height := ni_burn_block_height nodeInfo |} poxInfo;
    _ ← require (Anchor.rewardCycle anchor =? ti_reward_cycle tenureInfo) (ChainAnchorError true);
    Ok anchor.

Definition sameNodeTip (leftInfo : NodeInfo) (leftTenure : NodeTenureInfo)
    (rightInfo : NodeInfo) (rightTenure : NodeTenureInfo) : bool :=
  (ni_stacks_tip_height leftInfo =? ni_stacks_tip_height rightInfo) &&
  (ni_burn_block_height leftInfo =? ni_burn_block_height rightInfo) &&
  (ti_tip_height leftTenure =? ti_tip_height rightTenure) &&
  String.eqb (ti_tip_block_id leftTenure) (ti_tip_block_id rightTenure) &&
  (ti_reward_cycle leftTenure =? ti_reward_cycle rightTenure).

(** ** The captures *)

(** [retryChainAnchorCapture]: [left] attempts remain, [attempt] is the next one's number. *)
Fixpoint captureLoop {A} (capture : nat -> result ReadError A) (left attempt : nat)
    : result ReadError A :=
  match left with
  | O => Err (ChainAnchorError false)
  | S left' =>
      match capture attempt with
      | Err (ChainAnchorError true) =>
          match left' with
          | O => Err (ChainAnchorError true)
          | S _ => captureLoop capture left' (S attempt)
          end
      | r => r
      end
  end.

Definition maxAttempts : nat := 3.

Definition retryChainAnchorCapture {A} (capture : nat -> result ReadError A) : result ReadError A :=
  captureLoop capture maxAttempts 1.

(** The answers of one attempt of the node capture; [nr_pox] is [getPoxInfo] at a tip. *)
Record NodeReads := {
  nr_before : result ReadError (NodeInfo * NodeTenureInfo);
  nr_pox : string -> result ReadError PoxInfo;
  nr_after : result ReadError (NodeInfo * NodeTenureInfo);
}.

Definition captureNodeAttempt (r : NodeReads) : result ReadError Anchored :=
  '(beforeInfo, beforeTenure) ← nr_before r;
  poxInfo ← nr_pox r (ti_tip_block_id beforeTenure);
  '(afterInfo, afterTenure) ← nr_after r;
  _ ← require (sameNodeTip beforeInfo beforeTenure afterInfo afterTenure) (ChainAnchorError true);
  createNodeChainAnchor beforeInfo beforeTenure poxInfo.

Definition captureNodeChainAnchor (reads : nat -> NodeReads) : result ReadError Anchored :=
  retryChainAnchorCapture (fun attempt => captureNodeAttempt (reads attempt)).

(** The answers of one attempt of the shared capture. *)
Record SharedReads := {
  sh_before : result ReadError ApiStatus;
  sh_info : result ReadError NodeInfo;
  sh_block : string -> result ReadError TipBlock;
  sh_pox : string -> result ReadError PoxInfo;
  sh_after : result ReadError ApiStatus;
}.

Definition captureSharedAttempt (r : SharedReads) : result ReadError Anchored :=
  before ← sh_before r;
  nodeInfo ← sh_info r;
  sharedStatus ← sharedApiStatus (sh_block r) before nodeInfo;
  poxInfo ← match sh_pox r (AnchorProof.tip_index_block_hash sharedStatus) with
            | Err (UpstreamHttpError status) =>
                Err (if status =? 404 then ChainAnchorError true else UpstreamHttpError status)
            | answer => answer
            end;
  after ← sh_after r;
  _ ← require (sameApiTip before after) (ChainAnchorError true);
  createChainAnchor nodeInfo sharedStatus poxInfo.

Definition captureChainAnchor (reads : nat -> SharedReads) : result ReadError Anchored :=
  retryChainAnchorCapture (fun attempt => captureSharedAttempt (reads attempt)).

(** ** What a captured anchor shows *)

(** The height at which a reward cycle starts, from the boundary PoX reports. *)
Definition start_of_cycle (p : PoxInfo) (next : NextCycle) (cycle : Z) : Z :=
  nc_reward_phase_start_block_height next + (cycle - nc_id next) * px_reward_cycle_length p.

(** The anchor is at the status' tip, in the cycle whose span holds its Bitcoin block. *)
Record positioned (a : Anchored) (s : ApiStatus) (p : PoxInfo) (next : NextCycle) : Prop := {
  ps_height : Anchor.stacksBlockHeight a = AnchorProof.tip_block_height s;
  ps_hash : Anchor.indexBlockHash a = toLowerCase (AnchorProof.tip_index_block_hash s);
  ps_burn : Anchor.burnBlockHeight a = AnchorProof.tip_burn_block_height s;
  ps_lengths : Anchor.rewardCycleLength a = px_reward_cycle_length p /\
               Anchor.prepareCycleLength a = px_prepare_cycle_length p;
  ps_position : Anchor.burnBlockHeight a =
                start_of_cycle p next (Anchor.rewardCycle a) + Anchor.cyclePosition a;
  ps_wf : Anchor.wf_anchor a;
}.

Lemma parse_fields v a : Anchor.parseChainAnchor v = Ok a ->
  a = {| Anchor.stacksBlockHeight := Anchor.stacksBlockHeight v;
         Anchor.indexBlockHash := toLowerCase (Anchor.indexBlockHash v);
         Anchor.burnBlockHeight := Anchor.burnBlockHeight v; Anchor.rewardCycle := Anchor.rewardCycle v;
         Anchor.rewardCycleLength := Anchor.rewardCycleLength v;
         Anchor.prepareCycleLength := Anchor.prepareCycleLength v;
         Anchor.cyclePosition := Anchor.cyclePosition v; Anchor.phase := Anchor.phase v;
         Anchor.checkpoint := Anchor.checkpoint v |}.
Proof.
  unfold Anchor.parseChainAnchor. destruct (Anchor.anchorShape v); [|done]. cbn [negb].
  destruct (Anchor.anchorIssues _); [|done]. by intros [= <-].
Qed.

Lemma createChainAnchor_inv info s p a : createChainAnchor info s p = Ok a ->
  exists next, px_next_cycle p = Some next /\ nc_id next = px_reward_cycle_id p + 1 /\
    AnchorProof.tip_block_height s <= ni_stacks_tip_height info /\
    AnchorProof.tip_burn_block_height s <= ni_burn_block_height info /\
    px_current_burnchain_block_height p = ni_burn_block_height info /\ positioned a s p next.
Proof.
  unfold createChainAnchor.
  destruct (_ || _ || _) eqn:Hg; [done|]. breflect.
  destruct (px_next_cycle p) as [next|]; [|done].
  destruct (Z.eqb_spec (nc_id next) (px_reward_cycle_id p + 1)) as [Hn|]; [|done]. cbn [negb].
  destruct (_ || _ || _ || _) in |- *; [done|].
  destruct (Anchor.parseChainAnchor _) as [a'|] eqn:Hp; [|done]. intros [= ->].
  exists next. split_and!; try done; try lia.
  pose proof (Anchor.parse_wf _ _ Hp) as Hwf. apply parse_fields in Hp. subst a. cbn in *.
  split; cbn; try done. unfold start_of_cycle, cycleStart. lia.
Qed.

(** The fixed position of one Bitcoin height: cycles do not overlap. *)
Lemma positioned_unique a b s p next : 0 < px_reward_cycle_length p ->
  positioned a s p next -> positioned b s p next -> Anchor.rewardCycle a = Anchor.rewardCycle b.
Proof.
  intros Hl [_ _ Ha [La _] Pa Wa] [_ _ Hb [Lb _] Pb Wb].
  pose proof (Anchor.wf_position _ Wa). pose proof (Anchor.wf_position _ Wb).
  unfold start_of_cycle in Pa, Pb. nia.
Qed.

Lemma captureLoop_inv {A} (capture : nat -> result ReadError A) left attempt a :
  captureLoop capture left attempt = Ok a ->
  exists n, (attempt <= n < attempt + left)%nat /\ capture n = Ok a.
Proof.
  revert attempt. induction left as [|left IH]; intros attempt; cbn [captureLoop]; [done|].
  destruct (capture attempt) as [x|e] eqn:Hc.
  - intros [= ->]. exists attempt. split; [lia | done].
  - destruct e as [| | |[]|]; try done. destruct left as [|left']; [done|].
    intros (n & Hn & Hok)%IH. exists n. split; [lia | done].
Qed.

(** An anchor captured from the node is a position the node held: in one of three attempts
    the node reported the same tip before and after the reads, PoX answered at exactly that tip
    with the node's own Bitcoin height, and the anchor is that tip, in the reward cycle whose
    span holds its Bitcoin block, which is also the cycle of the tenure. *)
Theorem captured_anchor_is_fenced reads a :
  captureNodeChainAnchor reads = Ok a ->
  exists n info tenure info' tenure' pox next, (1 <= n <= 3)%nat /\
    nr_before (reads n) = Ok (info, tenure) /\ nr_after (reads n) = Ok (info', tenure') /\
    sameNodeTip info tenure info' tenure' = true /\
    nr_pox (reads n) (ti_tip_block_id tenure) = Ok pox /\ px_next_cycle pox = Some next /\
    px_current_burnchain_block_height pox = ni_burn_block_height info /\
    Anchor.stacksBlockHeight a = ti_tip_height tenure /\
    Anchor.indexBlockHash a = toLowerCase (ti_tip_block_id tenure) /\
    Anchor.burnBlockHeight a = ni_burn_block_height info /\
    Anchor.rewardCycle a = ti_reward_cycle tenure /\ Anchor.wf_anchor a /\
    start_of_cycle pox next (Anchor.rewardCycle a) <= Anchor.burnBlockHeight a <
      start_of_cycle pox next (Anchor.rewardCycle a + 1).
Proof.
  intros (n & Hn & H)%captureLoop_inv. unfold captureNodeAttempt in H.
  apply bind_Ok in H as ([info tenure] & Hb & H). apply bind_Ok in H as (pox & Hp & H).
  apply bind_Ok in H as ([info' tenure'] & Ha & H). apply bind_Ok in H as (u & Hs & H).
  apply require_Ok in Hs. unfold createNodeChainAnchor in H.
  destruct (_ || _) eqn:Hg in H; [done|]. apply bind_Ok in H as (a' & Hc & H).
  apply bind_Ok in H as (u' & Ht & [= ->]). apply require_Ok in Ht.
  apply createChainAnchor_inv in Hc as (next & Hx & _ & _ & _ & Hpx & [P1 P2 P3 [P4 P5] P6 W]).
  cbn in P1, P2, P3. exists n, info, tenure, info', tenure', pox, next.
  pose proof (Anchor.wf_position _ W). unfold start_of_cycle in *. unfold maxAttempts in Hn.
  split_and!; try done; lia.
Qed.

(** An anchor shared with the API is at the API's stable tip, or one block below it at the node's
    tip, which the API served as canonical; the node could execute there. *)
Theorem captured_shared_anchor_is_fenced reads a :
  captureChainAnchor reads = Ok a ->
  exists n before after info shared pox next, (1 <= n <= 3)%nat /\
    sh_before (reads n) = Ok before /\ sh_after (reads n) = Ok after /\
    sameApiTip before after = true /\ sh_info (reads n) = Ok info /\
    sh_pox (reads n) (AnchorProof.tip_index_block_hash shared) = Ok pox /\
    positioned a shared pox next /\ Anchor.stacksBlockHeight a <= ni_stacks_tip_height info /\
    (shared = before \/ exists block, sh_block (reads n) (tb_hash block) = Ok block /\
       ni_stacks_tip info = Some (tb_hash block) /\
       AnchorProof.canonical (tb_summary block) = true /\
       Anchor.stacksBlockHeight a = ni_stacks_tip_height info /\
       AnchorProof.tip_block_height before = ni_stacks_tip_height info + 1).
Proof.
  intros (n & Hn & H)%captureLoop_inv. unfold captureSharedAttempt in H.
  apply bind_Ok in H as (before & Hb & H). apply bind_Ok in H as (info & Hi & H).
  apply bind_Ok in H as (shared & Hsh & H). apply bind_Ok in H as (pox & Hp & H).
  apply bind_Ok in H as (after & Ha & H). apply bind_Ok in H as (u & Hs & H).
  apply require_Ok in Hs. apply createChainAnchor_inv in H as (next & _ & _ & Hh & _ & _ & P).
  assert (Hpox : sh_pox (reads n) (AnchorProof.tip_index_block_hash shared) = Ok pox)
    by (destruct (sh_pox _ _) as [x|[| |status| |]]; done).
  exists n, before, after, info, shared, pox, next. unfold maxAttempts in Hn.
  pose proof (ps_height _ _ _ _ P). split_and!; try done; try lia.
  unfold sharedApiStatus in Hsh.
  destruct (_ =? _); [left; congruence|].
  destruct (ni_stacks_tip info) as [tip|] eqn:Htip; [|left; congruence].
  destruct (Z.eqb_spec (AnchorProof.tip_block_height before) (ni_stacks_tip_height info + 1))
    as [Heq|]; [|left; congruence].
  right. apply bind_Ok in Hsh as (block & Hblock & Hsh). unfold apiStatusAtNodeTip in Hsh.
  destruct (_ || _ || _) eqn:Hg in Hsh; [done|]. breflect. injection Hsh as <-. cbn in *.
  rewrite Htip in *. exists block. split_and!; try done; try congruence; try lia.
Qed.

(** ** A capture whose tip moves once *)

Module ConcreteCapture.

Definition tip : string := toLowerCase Anchor.hash0.
Definition info (height burn : Z) : NodeInfo :=
  {| ni_burn_block_height := burn; ni_stacks_tip_height := height; ni_stacks_tip := None |}.
Definition tenure (height : Z) : NodeTenureInfo :=
  {| ti_tip_block_id := tip; ti_tip_height := height; ti_reward_cycle := 20 |}.
Definition pox (burn : Z) : PoxInfo :=
  {| px_current_burnchain_block_height := burn; px_reward_cycle_id := 20;
     px_reward_cycle_length := 100; px_prepare_cycle_length := 10;
     px_next_cycle := Some {| nc_id := 21; nc_reward_phase_start_block_height := 2100 |} |}.

Definition reads (attempt : nat) : NodeReads :=
  {| nr_before := Ok (info 500 2060, tenure 500);
     nr_pox := fun _ => Ok (pox 2060);
     nr_after := Ok (if (attempt <? 2)%nat then (info 501 2060, tenure 501)
                     else (info 500 2060, tenure 500)) |}.

Example second_attempt_captures :
  captureNodeAttempt (reads 1) = Err (ChainAnchorError true) /\
  exists a, captureNodeChainAnchor reads = Ok a /\ Anchor.rewardCycle a = 20 /\
    Anchor.cyclePosition a = 60 /\ Anchor.checkpoint a = Anchor.second_half.
Proof. split; [by vm_compute|]. eexists. split; [vm_compute; reflexivity|]. done. Qed.

Lemma captured_anchor_is_fenced_witness : exists a n,
  captureNodeChainAnchor reads = Ok a /\ (1 <= n <= 3)%nat /\ Anchor.wf_anchor a /\
  Anchor.stacksBlockHeight a = 500.
Proof.
  destruct (captureNodeChainAnchor reads) as [a|] eqn:H; [|vm_compute in H; discriminate H].
  pose proof (captured_anchor_is_fenced reads a H) as
    (n & i & t & i' & t' & p & x & Hn & Hb & _ & _ & _ & _ & _ & Hh & _ & _ & _ & W & _).
  exists a, n. split; [done|]. split; [done|]. split; [exact W|].
  rewrite Hh. unfold reads in Hb. injection Hb as _ <-. reflexivity.
Defined.

End ConcreteCapture.
