(* ===== verification/RewardReads.v ===== *)
(** * Reads of the reward state at an anchor

    apps/sidekick/src/pox5-calculate-rewards.ts, and [managerCollectAtAnchor] of
    transaction-engine/live-reward-run.ts: what the program reads of PoX-5 and of the manager
    before it plans an operation.  The node is a record of functions: one answer per call at a
    tip.  Reads of one [Promise.all] are independent; when several of them fail, which of the
    rejections is the one thrown is left to [settle]. *)

From S2P Require Import Prelude Text Bonds Rewards ChainAnchor Clarity NakamotoBlock.

Open Scope Z_scope.

(** ** The node and the library's wire format *)

Record Node := {
  callReadOnly : forall (contract function sender : string) (args : list string) (tip : string),
    result ReadError ClarityValue;
  getMapEntry : forall (contract map key tip : string), result ReadError ClarityValue;
}.

Record ClarityLibrary := {
  cl_cvToHex : ClarityValue -> string;
  cl_uintCV : Z -> option ClarityValue;
  cl_principalCV : string -> option ClarityValue;
}.

(** [Pox5CalculateRewardsError] *)
Inductive CalculateCode := invalid_target | already_computed | incomplete_bond_state.

#[global] Instance CalculateCode_eq_dec : EqDecision CalculateCode.
Proof. solve_decision. Defined.

(** What a read may throw: its own error class, or a class of chain-clients.ts. *)
Inductive Thrown :=
  | pox5_calculate_rewards_error (code : CalculateCode)
  | thrown (e : ReadError).

Definition of_read {A} (r : result ReadError A) : result Thrown A :=
  match r with Ok a => Ok a | Err e => Err (thrown e) end.

(** A throw of any other class: codec, simulation and schema errors. *)
Definition of_other {E A} (r : result E A) : result Thrown A :=
  match r with Ok a => Ok a | Err _ => Err (thrown OtherError) end.

Definition rejections {A} (l : list (result Thrown A)) : list Thrown :=
  omap (fun r => match r with Ok _ => None | Err e => Some e end) l.

Record Pox5CalculateRewardsObservation := {
  cr_targetRewardCycle : Z;
  cr_targetCheckpoint : Anchor.Checkpoint;
  cr_expectedLastRewardComputeBurnHeight : Z;
  cr_observedLastRewardComputeBurnHeight : Z;
  cr_grossAccruedRewardsSats : Z;
  cr_activeBonds : list Pox5CalculationBond;
  cr_functionArgs : string;
}.

Record EstimateBond := {
  eb_bondIndex : Z;
  eb_targetRateBips : Z;
  eb_globalSharesSats : Z;
  eb_managerSharesSats : Z;
}.

Record Pox5CurrentPoolEstimate := {
  ce_targetRewardCycle : Z;
  ce_targetCheckpoint : Anchor.Checkpoint;
  ce_calculationBurnHeight : Z;
  ce_grossSats : Z;
  ce_stxSats : Z;
  ce_bondSats : Z;
  ce_globalStxSharesUstx : Z;
  ce_managerStxSharesUstx : Z;
  ce_activeBonds : list EstimateBond;
}.

Record Pox5PoolSimulationSnapshot := {
  sn_currentEstimate : Pox5CurrentPoolEstimate;
  sn_simulationInput : Pox5RewardSimulationInput;
}.

(** What the manager may collect: the bond periods of the claim and the total. *)
Record ManagerCollect := { mc_bondPeriods : list Z; mc_totalSats : Z }.

Section Reads.

Context (lib : ClarityLibrary) (node : Node) (settle : string -> list Thrown -> Thrown).

Definition Promise_all {A} (site : string) (l : list (result Thrown A)) : result Thrown (list A) :=
  match mapM_res (fun r => r) l with
  | Ok v => Ok v
  | Err _ => Err (settle site (rejections l))
  end.

Definition encodeUIntHex (n : Z) : decoder string :=
  Codecs.encodeUIntHex (cl_cvToHex lib) (cl_uintCV lib) n.
Definition encodePrincipalHex (p : string) : decoder string :=
  Codecs.encodePrincipalHex (cl_cvToHex lib) (cl_principalCV lib) p.
Definition encodeOptionalUIntHex (n : option Z) : decoder string :=
  Codecs.encodeOptionalUIntHex (cl_cvToHex lib) (cl_uintCV lib) n.

(** [node.callReadOnly(contract, function, sender, [...], { tip })] *)
Definition call (contract function sender : string) (args : list (decoder string)) (tip : string)
    : result Thrown ClarityValue :=
  hexes ← of_other (mapM_res (fun a => a) args);
  of_read (callReadOnly node contract function sender hexes tip).

(** ** The active bonds *)

Definition candidateBond (pox5 sender tip : string) (height bondIndex : Z)
    : result Thrown (option Pox5CalculationBond) :=
  values ← Promise_all ("bond " ++ bigint_toString bondIndex)
    [call pox5 "get-protocol-bond" sender [encodeUIntHex bondIndex] tip;
     call pox5 "is-bond-active-at-height" sender [encodeUIntHex bondIndex; encodeUIntHex height] tip];
  match values with
  | [bondValue; activeValue] =>
      bond ← of_other (Codecs.decodePox5ProtocolBond bondValue "get-protocol-bond");
      active ← of_other (Codecs.decodeBoolean activeValue "is-bond-active-at-height");
      match bond with
      | None => if active : bool then Err (pox5_calculate_rewards_error incomplete_bond_state) else Ok None
      | Some b =>
          Ok (if active : bool
              then Some {| cb_bondIndex := bondIndex; cb_targetRateBips := Codecs.pb_targetRate b;
                           cb_stxValueRatio := Codecs.pb_stxValueRatio b;
                           cb_minUstxRatioBips := Codecs.pb_minUstxRatio b |}
              else None)
      end
  | _ => Err (thrown OtherError)
  end.

Definition readActiveCalculationBonds (pox5 sender tip : string)
    (rewardCycle calculationBurnHeight firstBondPeriodCycle : Z)
    : result Thrown (list Pox5CalculationBond) :=
  candidatePeriods ← of_other (bondPeriodsForRewardCycle rewardCycle firstBondPeriodCycle);
  candidates ← Promise_all "candidates"
    (candidateBond pox5 sender tip calculationBurnHeight <$> candidatePeriods);
  of_other (orderPox5CalculationBonds (omap (fun b => b) candidates)).

(** ** The calculation *)

(** The one argument: the list of the ordered bond indices. *)
Definition encodePox5CalculateRewardsArguments (input : list Pox5CalculationBond)
    : result Thrown string :=
  ordered ← of_other (orderPox5CalculationBonds input);
  indices ← of_other (mapM_res (fun b => Codecs.library (cl_uintCV lib (cb_bondIndex b))) ordered);
  Ok (cl_cvToHex lib (CList indices)).

Definition readPox5CalculateRewardsObservation (pox5 sender : string)
    (chainAnchor : Anchor.ChainAnchor) (firstRewardCycleId : option Z)
    : result Thrown Pox5CalculateRewardsObservation :=
  match Anchor.deriveRewardCalculationTarget chainAnchor firstRewardCycleId with
  | Err _ => Err (pox5_calculate_rewards_error invalid_target)
  | Ok target =>
      let tip := Anchor.indexBlockHash chainAnchor in
      let expected := Anchor.expectedLastRewardComputeBurnHeight target in
      values ← Promise_all "calculation"
        [call pox5 "get-last-reward-compute-height" sender [] tip;
         call pox5 "get-new-rewards" sender [] tip;
         call pox5 "bond-period-to-reward-cycle" sender [encodeUIntHex 0] tip];
      match values with
      | [lastComputeValue; accruedValue; firstBondCycleValue] =>
          observed ← of_other (Codecs.decodeUInt lastComputeValue "get-last-reward-compute-height");
          if expected <=? observed then Err (pox5_calculate_rewards_error already_computed)
          else
            first ← of_other (Codecs.decodeUInt firstBondCycleValue "bond-period-to-reward-cycle");
            activeBonds ← readActiveCalculationBonds pox5 sender tip
                            (Anchor.targetRewardCycle target) expected first;
            gross ← of_other (Codecs.decodeUInt accruedValue "get-new-rewards");
            args ← encodePox5CalculateRewardsArguments activeBonds;
            Ok {| cr_targetRewardCycle := Anchor.targetRewardCycle target;
                  cr_targetCheckpoint := Anchor.calculationCheckpoint target;
                  cr_expectedLastRewardComputeBurnHeight := expected;
                  cr_observedLastRewardComputeBurnHeight := observed;
                  cr_grossAccruedRewardsSats := gross; cr_activeBonds := activeBonds;
                  cr_functionArgs := args |}
      | _ => Err (thrown OtherError)
      end
  end.

(** ** What the manager may collect *)

Definition bucketText (bondIndex : option Z) : string :=
  match bondIndex with Some i => bigint_toString i | None => "stx" end.

Definition earnedOf (pox5 managerPrincipal tip : string) (rewardCycle : Z) (bondIndex : option Z)
    : result Thrown Z :=
  v ← call pox5 "get-earned" managerPrincipal
        [encodePrincipalHex managerPrincipal; encodeUIntHex rewardCycle;
         encodeOptionalUIntHex bondIndex] tip;
  of_other (Codecs.decodeUInt v ("get-earned(" ++ bucketText bondIndex ++ ")")).

Definition managerCollectAtAnchor (pox5 managerPrincipal : string) (rewardCycle : Z)
    (chainAnchor : Anchor.ChainAnchor) : result Thrown ManagerCollect :=
  let tip := Anchor.indexBlockHash chainAnchor in
  v ← call pox5 "bond-period-to-reward-cycle" managerPrincipal [encodeUIntHex 0] tip;
  firstBondCycle ← of_other (Codecs.decodeUInt v "bond-period-to-reward-cycle");
  bondPeriods ← of_other (bondPeriodsForRewardCycle rewardCycle firstBondCycle);
  earned ← Promise_all "earned"
    (earnedOf pox5 managerPrincipal tip rewardCycle <$> (None :: (Some <$> bondPeriods)));
  Ok {| mc_bondPeriods := bondPeriods; mc_totalSats := fold_left Z.add earned 0 |}.

(** ** The pool estimate *)

Definition with_gross (i : Pox5RewardSimulationInput) (gross : Z) : Pox5RewardSimulationInput :=
  {| grossAccruedRewardsSats := gross; currentReserveBalanceSats := currentReserveBalanceSats i;
     cycleStakedUstx := cycleStakedUstx i; currentRewardsPerUstx := currentRewardsPerUstx i;
     managerStxSharesUstx := managerStxSharesUstx i; bonds := bonds i |}.

Definition estimateBond (bond : SimulationBond) : result Thrown EstimateBond :=
  match managerSharesSats bond with
  | None => Err (thrown OtherError)
  | Some shares =>
      Ok {| eb_bondIndex := bondIndex bond; eb_targetRateBips := targetRateBips bond;
            eb_globalSharesSats := totalSharesSats bond; eb_managerSharesSats := shares |}
  end.

Definition simulateManagerPoolEstimate (simulationInput : Pox5RewardSimulationInput) (gross : Z)
    (targetRewardCycle : Z) (targetCheckpoint : Anchor.Checkpoint) (calculationBurnHeight : Z)
    : result Thrown Pox5CurrentPoolEstimate :=
  simulation ← of_other (simulatePox5CalculateRewards (with_gross simulationInput gross));
  match r_manager simulation, managerStxSharesUstx simulationInput with
  | Some manager, Some managerStxShares =>
      activeBonds ← mapM_res estimateBond (bonds simulationInput);
      Ok {| ce_targetRewardCycle := targetRewardCycle; ce_targetCheckpoint := targetCheckpoint;
            ce_calculationBurnHeight := calculationBurnHeight;
            ce_grossSats := mr_grossRewardSats manager; ce_stxSats := mr_stxRewardSats manager;
            ce_bondSats := mr_bondRewardSats manager;
            ce_globalStxSharesUstx := r_cycleStakedUstx simulation;
            ce_managerStxSharesUstx := managerStxShares; ce_activeBonds := activeBonds |}
  | _, _ => Err (thrown OtherError)
  end.

(** The simulation's state of one active bond. *)
Definition simulationBond (pox5 managerPrincipal tip : string) (rewardCycle : Z)
    (bond : Pox5CalculationBond) : result Thrown SimulationBond :=
  let cycleArg := encodeUIntHex rewardCycle in
  let bondArg := encodeOptionalUIntHex (Some (cb_bondIndex bond)) in
  values ← Promise_all ("shares " ++ bigint_toString (cb_bondIndex bond))
    [call pox5 "get-total-shares-staked-for-cycle" managerPrincipal [cycleArg; bondArg] tip;
     call pox5 "get-rewards-per-token-for-cycle" managerPrincipal [cycleArg; bondArg] tip;
     call pox5 "get-signer-shares-staked-for-cycle" managerPrincipal
       [encodePrincipalHex managerPrincipal; cycleArg; bondArg] tip];
  match values with
  | [totalSharesValue; currentRptValue; managerSharesValue] =>
      total ← of_other (Codecs.decodeUInt totalSharesValue "get-total-shares-staked-for-cycle");
      rpt ← of_other (Codecs.decodeUInt currentRptValue "get-rewards-per-token-for-cycle");
      shares ← of_other (Codecs.decodeUInt managerSharesValue "get-signer-shares-staked-for-cycle");
      Ok {| bondIndex := cb_bondIndex bond; targetRateBips := cb_targetRateBips bond;
            stxValueRatio := cb_stxValueRatio bond; totalSharesSats := total;
            currentRewardsPerSat := rpt; managerSharesSats := Some shares |}
  | _ => Err (thrown OtherError)
  end.

Definition readPox5PoolSimulationSnapshot (pox5 managerPrincipal : string)
    (chainAnchor : Anchor.ChainAnchor) (targetRewardCycle : Z) (targetCheckpoint : Anchor.Checkpoint)
    (calculationBurnHeight gross : Z) : result Thrown Pox5PoolSimulationSnapshot :=
  let tip := Anchor.indexBlockHash chainAnchor in
  let stxBucket := encodeOptionalUIntHex None in
  let cycleArg := encodeUIntHex targetRewardCycle in
  values ← Promise_all "snapshot"
    [call pox5 "bond-period-to-reward-cycle" managerPrincipal [encodeUIntHex 0] tip;
     call pox5 "get-reserve-balance" managerPrincipal [] tip;
     call pox5 "get-total-shares-staked-for-cycle" managerPrincipal [cycleArg; stxBucket] tip;
     call pox5 "get-rewards-per-token-for-cycle" managerPrincipal [cycleArg; stxBucket] tip;
     call pox5 "get-signer-shares-staked-for-cycle" managerPrincipal
       [encodePrincipalHex managerPrincipal; cycleArg; stxBucket] tip];
  match values with
  | [firstBondCycleValue; reserveValue; totalStxValue; currentStxRptValue; managerStxValue] =>
      first ← of_other (Codecs.decodeUInt firstBondCycleValue "bond-period-to-reward-cycle");
      activeBonds ← readActiveCalculationBonds pox5 managerPrincipal tip targetRewardCycle
                      calculationBurnHeight first;
      simulationBonds ← Promise_all "simulation"
        (simulationBond pox5 managerPrincipal tip targetRewardCycle <$> activeBonds);
      reserve ← of_other (Codecs.decodeUInt reserveValue "get-reserve-balance");
      totalStx ← of_other (Codecs.decodeUInt totalStxValue "get-total-shares-staked-for-cycle(stx)");
      rpt ← of_other (Codecs.decodeUInt currentStxRptValue "get-rewards-per-token-for-cycle(stx)");
      managerStx ← of_other (Codecs.decodeUInt managerStxValue "get-signer-shares-staked-for-cycle(stx)");
      let simulationInput :=
        {| grossAccruedRewardsSats := gross; currentReserveBalanceSats := reserve;
           cycleStakedUstx := totalStx; currentRewardsPerUstx := rpt;
           managerStxSharesUstx := Some managerStx; bonds := simulationBonds |} in
      estimate ← simulateManagerPoolEstimate simulationInput gross targetRewardCycle
                   targetCheckpoint calculationBurnHeight;
      Ok {| sn_currentEstimate := estimate; sn_simulationInput := simulationInput |}
  | _ => Err (thrown OtherError)
  end.

Definition simulatePox5PoolEstimateAtGross (snapshot : Pox5PoolSimulationSnapshot) (gross : Z)
    : result Thrown Pox5CurrentPoolEstimate :=
  let current := sn_currentEstimate snapshot in
  simulateManagerPoolEstimate (sn_simulationInput snapshot) gross (ce_targetRewardCycle current)
    (ce_targetCheckpoint current) (ce_calculationBurnHeight current).

End Reads.

(** ** What the reads establish *)

Section Facts.

Context (lib : ClarityLibrary) (node : Node) (settle : string -> list Thrown -> Thrown).

Lemma of_other_Ok {E A} (r : result E A) a : of_other r = Ok a <-> r = Ok a.
Proof. destruct r; cbn; split; congruence. Qed.

Lemma of_read_Ok {A} (r : result ReadError A) a : of_read r = Ok a <-> r = Ok a.
Proof. destruct r; cbn; split; congruence. Qed.

(** Every read of a successful [Promise.all] succeeded. *)
Lemma Promise_all_Ok {A} site (l : list (result Thrown A)) v :
  Promise_all settle site l = Ok v <-> Forall2 (fun r a => r = Ok a) l v.
Proof.
  unfold Promise_all. rewrite <- (mapM_res_Forall2 (fun r => r)).
  destruct (mapM_res _ l); split; congruence.
Qed.

Lemma Promise_all_map {A B} site (f : A -> result Thrown B) l v :
  Promise_all settle site (f <$> l) = Ok v <-> Forall2 (fun x a => f x = Ok a) l v.
Proof. by rewrite Promise_all_Ok, Forall2_fmap_l. Qed.

(** The node's account of one bond at the tip: defined, and active at the height. *)
Definition active_on_node (pox5 sender tip : string) (height : Z) (b : Pox5CalculationBond) : Prop :=
  exists bondValue activeValue pb,
    call node pox5 "get-protocol-bond" sender [encodeUIntHex lib (cb_bondIndex b)] tip
      = Ok bondValue /\
    Codecs.decodePox5ProtocolBond bondValue "get-protocol-bond" = Ok (Some pb) /\
    call node pox5 "is-bond-active-at-height" sender
      [encodeUIntHex lib (cb_bondIndex b); encodeUIntHex lib height] tip = Ok activeValue /\
    Codecs.decodeBoolean activeValue "is-bond-active-at-height" = Ok true /\
    b = {| cb_bondIndex := cb_bondIndex b; cb_targetRateBips := Codecs.pb_targetRate pb;
           cb_stxValueRatio := Codecs.pb_stxValueRatio pb;
           cb_minUstxRatioBips := Codecs.pb_minUstxRatio pb |}.

Lemma candidateBond_Ok pox5 sender tip height i o :
  candidateBond lib node settle pox5 sender tip height i = Ok o ->
  forall b, (cb_bondIndex b = i /\ active_on_node pox5 sender tip height b) <-> o = Some b.
Proof.
  unfold candidateBond. intros H. apply bind_Ok in H as (values & Hv & H).
  apply Promise_all_Ok in Hv.
  inversion Hv as [|? bv ? l1 Hb Hv1]; subst. inversion Hv1 as [|? av ? l2 Ha Hv2]; subst.
  inversion Hv2; subst. apply bind_Ok in H as (bond & Hbond & H). rewrite of_other_Ok in Hbond.
  apply bind_Ok in H as (active & Hactive & H). rewrite of_other_Ok in Hactive.
  intros b. unfold active_on_node. split.
  - intros [<- (bv' & av' & pb & Hb' & Hd & Ha' & Ht & Heq)].
    rewrite Hb in Hb'. injection Hb' as <-. rewrite Ha in Ha'. injection Ha' as <-.
    rewrite Hbond in Hd. injection Hd as ->. rewrite Hactive in Ht. injection Ht as ->.
    injection H as <-. by rewrite Heq.
  - intros ->. destruct bond as [pb|]; [|by destruct active].
    destruct active; [|done]. injection H as <-. cbn. split; [done|]. by exists bv, av, pb.
Qed.

(** The active bonds are those of all periods that can hold shares of the cycle, in order. *)
Lemma readActiveCalculationBonds_Ok pox5 sender tip cycle height first l :
  0 <= cycle -> 0 <= first ->
  readActiveCalculationBonds lib node settle pox5 sender tip cycle height first = Ok l ->
  orderPox5CalculationBonds l = Ok l /\
  forall b, b ∈ l <-> bond_active first cycle (cb_bondIndex b) /\
                      active_on_node pox5 sender tip height b.
Proof.
  intros Hc Hf. unfold readActiveCalculationBonds. intros H. apply bind_Ok in H as (ps & Hp & H).
  rewrite of_other_Ok in Hp. destruct (bondPeriods_exact cycle first Hc Hf) as (ps' & Hp' & _ & _ & Hps).
  rewrite Hp in Hp'. injection Hp' as <-.
  apply bind_Ok in H as (os & Hos & H). apply Promise_all_map in Hos. rewrite of_other_Ok in H.
  destruct (orderPox5CalculationBonds_canonical _ l l H) as (Hperm & _ & Hl);
    [by symmetry; apply (orderPox5CalculationBonds_canonical _ _ _ H (reflexivity _))|].
  split; [done|]. intros b. rewrite Hperm, list_elem_of_omap. split.
  - intros (o & Ho & Hob). cbn in Hob. subst o.
    apply list_elem_of_lookup_1 in Ho as [k Hk].
    destruct (Forall2_lookup_r _ _ _ _ _ Hos Hk) as (i & Hi & Hcand).
    destruct (proj2 (candidateBond_Ok _ _ _ _ _ _ Hcand b) eq_refl) as [<- Hact].
    split; [|done]. apply Hps. by eapply list_elem_of_lookup_2.
  - intros [Hper Hact]. apply Hps in Hper. apply list_elem_of_lookup_1 in Hper as [k Hk].
    destruct (Forall2_lookup_l _ _ _ _ _ Hos Hk) as (o & Ho & Hcand).
    pose proof (proj1 (candidateBond_Ok _ _ _ _ _ _ Hcand b) (conj eq_refl Hact)) as ->.
    exists (Some b). split; [by eapply list_elem_of_lookup_2 | done].
Qed.

(** A calculation is planned for the derived target, before PoX-5 has computed it, over exactly
    the bond periods that can hold shares of its cycle and that the node reports active at its
    checkpoint, in the contract's order. *)
Theorem observation_is_complete pox5 sender anchor first o :
  readPox5CalculateRewardsObservation lib node settle pox5 sender anchor first = Ok o ->
  0 <= cr_targetRewardCycle o ->
  exists target firstBond, Anchor.deriveRewardCalculationTarget anchor first = Ok target /\
    cr_targetRewardCycle o = Anchor.targetRewardCycle target /\
    cr_targetCheckpoint o = Anchor.calculationCheckpoint target /\
    cr_expectedLastRewardComputeBurnHeight o = Anchor.expectedLastRewardComputeBurnHeight target /\
    cr_observedLastRewardComputeBurnHeight o < cr_expectedLastRewardComputeBurnHeight o /\
    call node pox5 "bond-period-to-reward-cycle" sender [encodeUIntHex lib 0]
      (Anchor.indexBlockHash anchor) = Ok (CUInt firstBond) /\
    (0 <= firstBond -> orderPox5CalculationBonds (cr_activeBonds o) = Ok (cr_activeBonds o) /\
       forall b, b ∈ cr_activeBonds o <->
         bond_active firstBond (cr_targetRewardCycle o) (cb_bondIndex b) /\
         active_on_node pox5 sender (Anchor.indexBlockHash anchor)
           (cr_expectedLastRewardComputeBurnHeight o) b).
Proof.
  unfold readPox5CalculateRewardsObservation.
  destruct (Anchor.deriveRewardCalculationTarget anchor first) as [target|] eqn:Ht; [|done].
  intros H Hcycle. apply bind_Ok in H as (values & Hv & H). apply Promise_all_Ok in Hv.
  inversion Hv as [|? lv ? l1 Hl Hv1]; subst. inversion Hv1 as [|? gv ? l2 Hg Hv2]; subst.
  inversion Hv2 as [|? fv ? l3 Hf Hv3]; subst. inversion Hv3; subst.
  apply bind_Ok in H as (observed & Hobs & H).
  destruct (Z.leb_spec (Anchor.expectedLastRewardComputeBurnHeight target) observed); [done|].
  apply bind_Ok in H as (fb & Hfb & H). rewrite of_other_Ok in Hfb.
  apply bind_Ok in H as (l & Hbonds & H). apply bind_Ok in H as (g & _ & H).
  apply bind_Ok in H as (args & _ & H). injection H as <-. cbn in *.
  assert (fv = CUInt fb) as -> by (by apply decodeUInt_Ok in Hfb).
  exists target, fb. split_and!; try done. intros Hpos.
  by apply (readActiveCalculationBonds_Ok pox5 sender).
Qed.

(** ** Collection *)

Definition earned_in (pox5 manager tip : string) (cycle : Z) (bucket : option Z) (sats : Z) : Prop :=
  earnedOf lib node pox5 manager tip cycle bucket = Ok sats.

Lemma fold_add_sumZ l acc : fold_left Z.add l acc = acc + sumZ l.
Proof.
  revert acc. induction l as [|x l IH]; intros acc; [cbn; lia|].
  cbn [fold_left]. rewrite IH, sumZ_cons. lia.
Qed.

(** What the manager may collect is the sum over the STX bucket and every bond period that can
    hold shares of the cycle: no bucket is left out. *)
Theorem collect_is_complete pox5 manager cycle anchor c firstBond :
  managerCollectAtAnchor lib node settle pox5 manager cycle anchor = Ok c ->
  call node pox5 "bond-period-to-reward-cycle" manager [encodeUIntHex lib 0]
    (Anchor.indexBlockHash anchor) = Ok (CUInt firstBond) ->
  0 <= cycle -> 0 <= firstBond ->
  (forall i, i ∈ mc_bondPeriods c <-> bond_active firstBond cycle i) /\
  exists stx sats, earned_in pox5 manager (Anchor.indexBlockHash anchor) cycle None stx /\
    Forall2 (fun i s => earned_in pox5 manager (Anchor.indexBlockHash anchor) cycle (Some i) s)
      (mc_bondPeriods c) sats /\
    mc_totalSats c = stx + sumZ sats.
Proof.
  unfold managerCollectAtAnchor. intros H Hcall Hc Hf. rewrite Hcall in H.
  cbn [mbind result_bind] in H. apply bind_Ok in H as (fb & Hfb & H). injection Hfb as <-.
  apply bind_Ok in H as (ps & Hp & H). rewrite of_other_Ok in Hp.
  destruct (bondPeriods_exact cycle firstBond Hc Hf) as (ps' & Hp' & _ & _ & Hps).
  rewrite Hp in Hp'. injection Hp' as <-.
  apply bind_Ok in H as (earned & He & H). injection H as <-. cbn.
  apply Promise_all_map in He. inversion He as [|? stx ? sats Hs Hrest]; subst.
  rewrite Forall2_fmap_l in Hrest. split; [done|]. exists stx, sats. split_and!; try done.
  cbn. rewrite fold_add_sumZ. lia.
Qed.

(** ** The estimate *)

Definition manager_shares_known (i : Pox5RewardSimulationInput) : Prop :=
  is_Some (managerStxSharesUstx i) /\ Forall (fun b => is_Some (managerSharesSats b)) (bonds i).

Lemma paid_managers_known a l a' :
  paid_from a l a' -> Forall (fun sb => is_Some (sb_managerSharesSats sb)) l ->
  every_some (sb_managerRewardSats <$> l) = true.
Proof.
  induction 1 as [a|a sb l a' (_ & _ & _ & Hm) _ IH]; intros Hl; [done|].
  inversion Hl as [|? ? [s Hs] Hl']; subst. destruct (Hm s Hs) as [m Hm'].
  unfold every_some in *. cbn. rewrite Hm'. cbn. by apply IH.
Qed.

Lemma simulation_has_manager i r :
  simulatePox5CalculateRewards i = Ok r -> manager_shares_known i -> is_Some (r_manager r).
Proof.
  intros H [[stx Hstx] Hbonds]. unfold simulatePox5CalculateRewards in H. inv_ok H.
  apply input_schema_facts in Hstep as (Hg & _ & Hb & _). destruct v0 as [avail out].
  rewrite Hstx in *. inv_ok H. inv_ok Hstep4.
  assert (Hout : every_some (sb_managerRewardSats <$> out) = true).
  { apply foldM_simulateBond_Ok in Hstep0 as (new & -> & Hpaid & Hf);
      [|by apply (bondStateByIndex_Forall (fun _ b => schema_bond_facts b)) | done].
    apply (paid_managers_known _ _ _ Hpaid). cbn [app]. apply Forall_forall. intros sb Hin.
    apply list_elem_of_lookup_1 in Hin as [k Hk].
    destruct (Forall2_lookup_r _ _ _ _ _ Hf Hk) as (b & _ & st & Hst & _ & _ & ->).
    pose proof (bondStateByIndex_Forall (fun _ b => is_Some (managerSharesSats b)) (bonds i) Hbonds) as P.
    exact (P _ _ Hst). }
  match goal with Hm : managerReward _ _ = _ |- _ => rename Hm into Hmanager end.
  subst v4. unfold managerReward in Hmanager. rewrite Hout in Hmanager.
  apply bind_Ok in Hmanager as (g & _ & Hmanager). injection Hmanager as <-. subst r. by eexists.
Qed.

Lemma estimate_of_simulation i gross cycle checkpoint height : manager_shares_known i ->
  match simulatePox5CalculateRewards (with_gross i gross) with
  | Err _ => simulateManagerPoolEstimate i gross cycle checkpoint height = Err (thrown OtherError)
  | Ok r => exists m estimate, r_manager r = Some m /\
      simulateManagerPoolEstimate i gross cycle checkpoint height = Ok estimate /\
      ce_targetRewardCycle estimate = cycle /\ ce_targetCheckpoint estimate = checkpoint /\
      ce_calculationBurnHeight estimate = height /\ ce_grossSats estimate = mr_grossRewardSats m /\
      ce_stxSats estimate = mr_stxRewardSats m /\ ce_bondSats estimate = mr_bondRewardSats m
  end.
Proof.
  intros Hk. unfold simulateManagerPoolEstimate.
  destruct (simulatePox5CalculateRewards _) as [r|e] eqn:Hs; [|done]. cbn [of_other mbind result_bind].
  destruct (simulation_has_manager _ _ Hs Hk) as [m Hm]. destruct Hk as [[stx Hstx] Hb].
  rewrite Hm, Hstx.
  rewrite (mapM_res_total estimateBond (fun b =>
    {| eb_bondIndex := bondIndex b; eb_targetRateBips := targetRateBips b;
       eb_globalSharesSats := totalSharesSats b;
       eb_managerSharesSats := default 0 (managerSharesSats b) |})).
  - cbn. exists m. eexists. by split_and!.
  - intros b Hin. rewrite Forall_forall in Hb. destruct (Hb b Hin) as [s Hs'].
    unfold estimateBond. by rewrite Hs'.
Qed.

Lemma simulationBond_known pox5 manager tip cycle b sb :
  simulationBond lib node settle pox5 manager tip cycle b = Ok sb -> is_Some (managerSharesSats sb).
Proof.
  unfold simulationBond. intros H. apply bind_Ok in H as (values & _ & H).
  destruct values as [|x [|y [|z [|w rest]]]]; try done.
  apply bind_Ok in H as (t & _ & H). apply bind_Ok in H as (r & _ & H).
  apply bind_Ok in H as (s & _ & H). injection H as <-. by eexists.
Qed.

(** A snapshot answers every other accrual without another read: its own estimate is the one
    at its own accrual, and at any accrual the estimate is the manager's part of the contract's
    simulation, or the simulation's own error; the errors for incomplete manager shares cannot
    occur.  No estimate exceeds what the simulation accounts for. *)
Theorem snapshot_estimates pox5 manager anchor cycle checkpoint height gross s :
  readPox5PoolSimulationSnapshot lib node settle pox5 manager anchor cycle checkpoint height gross = Ok s ->
  simulatePox5PoolEstimateAtGross s gross = Ok (sn_currentEstimate s) /\
  forall other,
    match simulatePox5CalculateRewards (with_gross (sn_simulationInput s) other) with
    | Err _ => simulatePox5PoolEstimateAtGross s other = Err (thrown OtherError)
    | Ok r => exists m estimate, r_manager r = Some m /\
        simulatePox5PoolEstimateAtGross s other = Ok estimate /\
        ce_targetRewardCycle estimate = cycle /\ ce_targetCheckpoint estimate = checkpoint /\
        ce_calculationBurnHeight estimate = height /\
        ce_grossSats estimate = ce_stxSats estimate + ce_bondSats estimate /\
        0 <= ce_grossSats estimate <= other
    end.
Proof.
  unfold readPox5PoolSimulationSnapshot. intros H. apply bind_Ok in H as (values & _ & H).
  destruct values as [|fv [|rv [|tv [|cv [|mv [|x rest]]]]]]; try done.
  apply bind_Ok in H as (first & _ & H). apply bind_Ok in H as (l & _ & H).
  apply bind_Ok in H as (sbs & Hsbs & H). apply bind_Ok in H as (reserve & _ & H).
  apply bind_Ok in H as (total & _ & H). apply bind_Ok in H as (rpt & _ & H).
  apply bind_Ok in H as (stx & _ & H). set (input := {| managerStxSharesUstx := Some stx |}) in H.
  apply bind_Ok in H as (estimate & He & H). injection H as <-.
  apply Promise_all_map in Hsbs.
  assert (Hk : manager_shares_known input).
  { split; [by eexists|]. apply Forall_forall. intros sb Hin.
    apply list_elem_of_lookup_1 in Hin as [k Hi].
    destruct (Forall2_lookup_r _ _ _ _ _ Hsbs Hi) as (b & _ & Hb). by eapply simulationBond_known. }
  assert (Hfields : ce_targetRewardCycle estimate = cycle /\ ce_targetCheckpoint estimate = checkpoint /\
                    ce_calculationBurnHeight estimate = height).
  { pose proof (estimate_of_simulation input gross cycle checkpoint height Hk) as E.
    destruct (simulatePox5CalculateRewards _) as [r|]; [|by rewrite E in He].
    destruct E as (m & e & _ & E & ? & ? & ? & _). rewrite E in He. injection He as <-. done. }
  destruct Hfields as (F1 & F2 & F3). unfold simulatePox5PoolEstimateAtGross.
  cbn [sn_currentEstimate sn_simulationInput]. rewrite F1, F2, F3. split; [done|]. intros other.
  pose proof (estimate_of_simulation input other cycle checkpoint height Hk) as E.
  destruct (simulatePox5CalculateRewards _) as [r|] eqn:Hr; [|done].
  destruct E as (m & e & Hm & E & ? & ? & ? & Eg & Es & Eb).
  exists m, e. rewrite Eg, Es, Eb. split_and!; try done.
  - apply simulate_facts in Hr as [_ _ _ _ _ _ _ _ _ Hf _]. by destruct (Hf m Hm) as (_ & _ & _ & ->).
  - by apply (manager_within_accounted _ _ m Hr).
  - destruct (manager_within_accounted _ _ m Hr Hm) as [? ?].
    apply simulate_facts in Hr as [_ _ _ _ _ _ _ _ Hd _ _]. cbn in Hd. lia.
Qed.

End Facts.

(** ** A concrete node *)

Module ConcreteReads.

Definition cvToHex (v : ClarityValue) : string :=
  match v with
  | CUInt n => "u" ++ bigint_toString n
  | COptionalSome (CUInt n) => "some u" ++ bigint_toString n
  | COptionalNone => "none"
  | CPrincipalStandard p | CPrincipalContract p => p
  | CList _ => "list"
  | _ => "other"
  end.

Definition lib : ClarityLibrary :=
  {| cl_cvToHex := cvToHex;
     cl_uintCV := fun n => if uint128Schema n then Some (CUInt n) else None;
     cl_principalCV := fun p => Some (CPrincipalStandard p) |}.

(** Bond period 4 is defined and active; the manager holds a quarter of everything. *)
Definition answer (function : string) (args : list string) : result ReadError ClarityValue :=
  let bond_4 := bool_decide (args !! 0%nat = Some "u4"%string) in
  if String.eqb function "bond-period-to-reward-cycle" then Ok (CUInt 1)
  else if String.eqb function "get-last-reward-compute-height" then Ok (CUInt 2000)
  else if String.eqb function "get-new-rewards" then Ok (CUInt 1000000)
  else if String.eqb function "get-protocol-bond" then
    Ok (if bond_4 then COptionalSome (CTuple [("target-rate", CUInt 500); ("stx-value-ratio", CUInt 40);
                                              ("min-ustx-ratio", CUInt 100)])
        else COptionalNone)
  else if String.eqb function "is-bond-active-at-height" then Ok (if bond_4 then CBoolTrue else CBoolFalse)
  else if String.eqb function "get-reserve-balance" then Ok (CUInt 0)
  else if String.eqb function "get-total-shares-staked-for-cycle" then Ok (CUInt 8000000)
  else if String.eqb function "get-rewards-per-token-for-cycle" then Ok (CUInt 0)
  else if String.eqb function "get-signer-shares-staked-for-cycle" then Ok (CUInt 2000000)
  else if String.eqb function "get-earned" then
    Ok (CUInt (if bool_decide (args !! 2%nat = Some "none"%string) then 700 else 50))
  else Err UpstreamUnavailableError.

Definition node : Node :=
  {| callReadOnly := fun _ function _ args _ => answer function args;
     getMapEntry := fun _ _ _ _ => Ok (COptionalSome (CUInt 300)) |}.

Definition settle (site : string) (l : list Thrown) : Thrown := default (thrown OtherError) (List.head l).

Definition snapshot : result Thrown Pox5PoolSimulationSnapshot :=
  readPox5PoolSimulationSnapshot lib node settle "SPX.pox-5" "SPM.manager" Anchor.anchor1 10
    Anchor.first_half 2049 1000000.

Example reads_at_the_anchor :
  is_ok snapshot = true /\
  (mc_totalSats <$> managerCollectAtAnchor lib node settle "SPX.pox-5" "SPM.manager" 10 Anchor.anchor1)
    = Ok 950 /\
  fmap cb_bondIndex <$> (cr_activeBonds <$> readPox5CalculateRewardsObservation lib node settle "SPX.pox-5" "SPW" Anchor.anchor1 None)
    = Ok [4].
Proof. split_and!; vm_compute; reflexivity. Qed.

Lemma snapshot_estimates_witness : exists s, snapshot = Ok s /\
  simulatePox5PoolEstimateAtGross s 1000000 = Ok (sn_currentEstimate s).
Proof.
  destruct snapshot as [s|] eqn:H; [|vm_compute in H; discriminate H].
  exists s. split; [reflexivity|]. exact (proj1 (snapshot_estimates _ _ _ _ _ _ _ _ _ _ _ H)).
Defined.

End ConcreteReads.
