(* ===== verification/Broadcast.v ===== *)
(** * Broadcasting a signed transaction once

    [NoRetryTransactionBroadcaster] of apps/sidekick/src/transaction-engine/
    transaction-broadcaster.ts: one POST, whose outcome is classified as accepted, rejected for
    a reason that proves the node will never take it, or ambiguous.  [JSON.parse], the reading
    of the signed bytes and their transaction ID are parameters. *)

From S2P Require Import Prelude Text CanonicalJson.

Open Scope Z_scope.

(** ** Data *)

Inductive AttemptKind := signed_gas_wallet_sweep | signed_reward_operation | other_kind.

#[global] Instance AttemptKind_eq_dec : EqDecision AttemptKind.
Proof. solve_decision. Defined.

(** [BroadcastableSignedTransaction] *)
Record SignedAttempt := {
  sa_kind : AttemptKind;
  sa_precomputedTxid : string;
  sa_bytes : list Z;
}.

(** A thrown value: its [name] and [code] where they are strings, and its [cause]. *)
Inductive JsError :=
  | js_error (name code : option string)
  | js_error_caused (name code : option string) (cause : JsError).

(** What [fetch] resolves to; reading the body may throw. *)
Record HttpResponse := { rs_status : Z; rs_text : option string }.

Definition rs_ok (r : HttpResponse) : bool := (200 <=? rs_status r) && (rs_status r <=? 299).

Inductive RejectionReason := invalid_signed_attempt | rejected_by_node.
Inductive AmbiguityReason :=
  | timeout | connection_reset | transport_error | server_error | invalid_success_response
  | node_rejection.

(** [TransactionBroadcastResult] *)
Inductive TransactionBroadcastResult :=
  | br_accepted (txid : string) (httpStatus : Z)
  | br_deterministic_rejection (txid : option string) (httpStatus : option Z)
      (reason : RejectionReason) (nodeMessage : option string)
  | br_ambiguous (txid : string) (httpStatus : option Z) (reason : AmbiguityReason)
      (nodeMessage : option string).

Definition maximumNodeMessageLength : nat := 256.

Definition deterministicNodeRejectionReasons : list string :=
  ["Serialization"; "Deserialization"; "SignatureValidation"; "FeeTooLow"; "NoSuchPublicFunction";
   "BadFunctionArgument"; "BadAddressVersionByte"]%string.

(** ** Classification *)

(** [replace(/^"|"$/g, "")] *)
Definition unquote (s : string) : string :=
  let s := match s with String c rest => if Ascii.eqb c quote_char then rest else s | _ => s end in
  let l := rev (chars s) in
  match l with
  | c :: rest => if Ascii.eqb c quote_char then String.string_of_list_ascii (rev rest) else s
  | [] => s
  end.

Definition canonicalTxid (value : string) : option string :=
  let normalized := toLowerCase (unquote (trim value)) in
  let prefixed := if startsWith normalized "0x" then normalized else ("0x" ++ normalized)%string in
  if prefixed_hex is_lower_hex 64 prefixed then Some prefixed else None.

(** The last entry of an object wins, as in [JSON.parse]. *)
Fixpoint field (name : string) (entries : list (string * Json)) : option Json :=
  match entries with
  | [] => None
  | (k, v) :: rest =>
      match field name rest with
      | Some w => Some w
      | None => if String.eqb k name then Some v else None
      end
  end.

Definition string_field (name : string) (entries : list (string * Json)) : option string :=
  match field name entries with Some (JStr s) => Some s | _ => None end.

Definition slice (n : nat) (s : string) : string := String.substring 0 n s.

Fixpoint first_string (names : list string) (entries : list (string * Json)) : option string :=
  match names with
  | [] => None
  | name :: rest =>
      match string_field name entries with Some s => Some s | None => first_string rest entries end
  end.

Fixpoint errorCode (e : JsError) : option string :=
  match e with
  | js_error _ code => code
  | js_error_caused _ (Some code) _ => Some code
  | js_error_caused _ None cause => errorCode cause
  end.

Definition error_name (e : JsError) : option string := 
  match e with js_error name _ | js_error_caused name _ _ => name end.

Definition one_of (o : option string) (l : list string) : bool :=
  match o with Some s => existsb (String.eqb s) l | None => false end.

Definition ambiguousTransportReason (e : JsError) : AmbiguityReason :=
  if one_of (error_name e) ["AbortError"; "TimeoutError"]%string ||
     one_of (errorCode e) ["ETIMEDOUT"; "UND_ERR_CONNECT_TIMEOUT"; "UND_ERR_HEADERS_TIMEOUT";
                           "UND_ERR_BODY_TIMEOUT"]%string then timeout
  else if one_of (errorCode e) ["ECONNRESET"; "ECONNABORTED"; "EPIPE"; "UND_ERR_SOCKET"]%string
       then connection_reset else transport_error.

Section Broadcaster.

Context (parseJson : string -> option Json) (deserializes : list Z -> bool)
        (txidFromBytes : list Z -> string).

Definition nodeMessage (body : string) : option string :=
  let trimmed := trim body in
  if String.eqb trimmed "" then None
  else
    match parseJson trimmed with
    | Some (JStr s) => Some (slice maximumNodeMessageLength s)
    | Some (JObj entries) =>
        match first_string ["reason"; "error"; "message"]%string entries with
        | Some s => Some (slice maximumNodeMessageLength s)
        | None => Some (slice maximumNodeMessageLength trimmed)
        end
    | _ => Some (slice maximumNodeMessageLength trimmed)
    end.

Definition deterministicNodeRejection (body expectedTxid : string) : option string :=
  match parseJson body with
  | Some (JObj entries) =>
      match string_field "reason" entries, string_field "txid" entries with
      | Some reason, Some txid =>
          if existsb (String.eqb reason) deterministicNodeRejectionReasons &&
             bool_decide (canonicalTxid txid = Some expectedTxid)
          then Some reason else None
      | _, _ => None
      end
  | _ => None
  end.

Definition successTxid (body : string) : option string :=
  match canonicalTxid body with
  | Some txid => Some txid
  | None =>
      match parseJson body with
      | Some (JObj entries) =>
          match string_field "txid" entries with Some txid => canonicalTxid txid | None => None end
      | _ => None
      end
  end.

(** The transaction ID of an attempt whose bytes are a transaction with that ID. *)
Definition validateSignedAttempt (attempt : SignedAttempt) : option string :=
  if bool_decide (sa_kind attempt = other_kind) then None
  else
    match canonicalTxid (sa_precomputedTxid attempt) with
    | None => None
    | Some txid =>
        if negb (bool_decide (sa_bytes attempt = [])) && deserializes (sa_bytes attempt) &&
           String.eqb ("0x" ++ txidFromBytes (sa_bytes attempt)) txid
        then Some txid else None
    end.

(** [broadcast]; the POST is only made when the attempt is valid. *)
Definition broadcast (attempt : SignedAttempt) (post : result JsError HttpResponse)
    : TransactionBroadcastResult :=
  match validateSignedAttempt attempt with
  | None =>
      br_deterministic_rejection (canonicalTxid (sa_precomputedTxid attempt)) None
        invalid_signed_attempt None
  | Some txid =>
      match post with
      | Err e => br_ambiguous txid None (ambiguousTransportReason e) None
      | Ok response =>
          let status := rs_status response in
          if 500 <=? status then br_ambiguous txid (Some status) server_error None
          else if negb (rs_ok response) then
            let body := match rs_text response with Some t => t | None => ""%string end in
            match (if status =? 400 then deterministicNodeRejection body txid else None) with
            | None => br_ambiguous txid (Some status) node_rejection (nodeMessage body)
            | Some reason =>
                br_deterministic_rejection (Some txid) (Some status) rejected_by_node (Some reason)
            end
          else
            match rs_text response with
            | None => br_ambiguous txid (Some status) connection_reset None
            | Some body =>
                if bool_decide (successTxid body = Some txid) then br_accepted txid status
                else br_ambiguous txid (Some status) invalid_success_response None
            end
      end
  end.

(** ** What an outcome proves *)

Lemma validateSignedAttempt_Some attempt txid :
  validateSignedAttempt attempt = Some txid <->
  sa_kind attempt <> other_kind /\ canonicalTxid (sa_precomputedTxid attempt) = Some txid /\
  sa_bytes attempt <> [] /\ deserializes (sa_bytes attempt) = true /\
  ("0x" ++ txidFromBytes (sa_bytes attempt))%string = txid.
Proof.
  unfold validateSignedAttempt. destruct (bool_decide_reflect (sa_kind attempt = other_kind)) as [|Hk];
    [by split; [|intros (? & _)]|].
  destruct (canonicalTxid _) as [t|]; [|by split; [|intros (_ & ? & _)]].
  destruct (bool_decide_reflect (sa_bytes attempt = [])) as [|Hb]; cbn [negb andb];
    [by split; [|intros (_ & _ & ? & _)]|].
  destruct (deserializes _); cbn [andb]; [|by split; [|intros (_ & _ & _ & ? & _)]].
  destruct (String.eqb_spec ("0x" ++ txidFromBytes (sa_bytes attempt)) t) as [He|He].
  - split; [intros [= <-] | intros (_ & [= <-] & _)]; done.
  - split; [done|]. intros (_ & [= <-] & _ & _ & H). done.
Qed.

(** C34. A rejection is only reported when it is proven: the bytes were never sent because they
    are not a transaction with the precomputed ID, or the node answered 400 with a reason of
    the closed list for exactly this transaction ID.  A success is only reported when a 2xx
    answer names exactly this ID.  Every timeout, reset, server error and unclear answer is
    ambiguous under the precomputed ID. *)
Theorem broadcast_classified attempt post :
  match broadcast attempt post with
  | br_accepted txid status =>
      validateSignedAttempt attempt = Some txid /\ 200 <= status <= 299 /\
      exists r body, post = Ok r /\ rs_status r = status /\ rs_text r = Some body /\
        successTxid body = Some txid
  | br_deterministic_rejection txid status reason message =>
      (validateSignedAttempt attempt = None /\ reason = invalid_signed_attempt /\ status = None) \/
      (validateSignedAttempt attempt = txid /\ reason = rejected_by_node /\
       exists r entries why t, post = Ok r /\ rs_status r = 400 /\ status = Some 400 /\
         parseJson (match rs_text r with Some b => b | None => ""%string end) = Some (JObj entries) /\
         string_field "reason" entries = Some why /\ why ∈ deterministicNodeRejectionReasons /\
         string_field "txid" entries = Some t /\ canonicalTxid t = txid /\ message = Some why)
  | br_ambiguous txid status _ _ =>
      validateSignedAttempt attempt = Some txid /\
      match post with Err _ => status = None | Ok r => status = Some (rs_status r) end
  end.
Proof.
  unfold broadcast. destruct (validateSignedAttempt attempt) as [txid|] eqn:Hv; [|by left].
  destruct post as [r|e]; [|done]. destruct (500 <=? rs_status r); [done|].
  destruct (rs_ok r) eqn:Hok; cbn [negb].
  - unfold rs_ok in Hok. breflect. destruct (rs_text r) as [body|] eqn:Ht; [|done].
    destruct (bool_decide_reflect (successTxid body = Some txid)) as [Hs|]; [|done].
    split_and!; try done. by exists r, body.
  - destruct (Z.eqb_spec (rs_status r) 400) as [H4|]; [|done].
    set (body := match rs_text r with Some t => t | None => ""%string end).
    destruct (deterministicNodeRejection body txid) as [why|] eqn:Hd; [|done]. right.
    unfold deterministicNodeRejection in Hd.
    destruct (parseJson body) as [[| | | | |entries]|] eqn:Hj; try done.
    destruct (string_field "reason" entries) as [reason|] eqn:Hr; [|done].
    destruct (string_field "txid" entries) as [t|] eqn:Hx; [|done].
    destruct (existsb _ _) eqn:He; [|done]. destruct (bool_decide_reflect (canonicalTxid t = Some txid)) as [Hc|];
      [|done]. injection Hd as ->. apply existsb_exists in He as (x & Hin & ->%String.eqb_eq).
    split_and!; [done | done |]. exists r, entries, x, t. rewrite H4. split_and!; try done.
    by apply list_elem_of_In.
Qed.

End Broadcaster.
