(* ===== verification/LiveReader.v ===== *)
(** * The live transaction reader

    apps/sidekick/src/transaction-engine/live-transaction-reader.ts: one-shot reads of the node.
    Each read is a function of the request's answer, so it makes at most one.  [JSON.parse], the
    text decoder and the transaction library are parameters; the schemas, the bounded body and
    the checks of a transaction against its ID are the source's.  Request URLs are not modelled. *)

From S2P Require Import Prelude Text CanonicalJson OperationPlan TransactionJob SweepPlan Broadcast.

Open Scope Z_scope.

(** ** Data *)

(** A parsed JSON value; a number is an integer, a fraction with its floor, or out of range. *)
Inductive JsonNumber := num_int (n : Z) | num_fraction (floor : Z) | num_infinite.

Inductive Wire :=
  | wire_null
  | wire_bool (b : bool)
  | wire_number (n : JsonNumber)
  | wire_string (s : string)
  | wire_array (l : list Wire)
  | wire_object (entries : list (string * Wire)).

(** A response: its body is absent, or a stream of chunks that ends or throws; cancelling it may
    throw too. *)
Record Stream := { str_chunks : list (list Z); str_failure : option JsError; str_cancel : option JsError }.
Record Response := {
  re_status : Z;
  re_contentType : option string;
  re_contentLength : option string;
  re_body : option Stream;
}.

Definition re_ok (r : Response) : bool := (200 <=? re_status r) && (re_status r <=? 299).

Inductive UnavailableReason :=
  | read_timeout | read_connection_reset | read_transport_error | response_read_error | http_error
  | transaction_index_unavailable.

Inductive SchemaReason :=
  | body_too_large | invalid_utf8 | unexpected_content_type | invalid_json | unexpected_response
  | invalid_transaction | transaction_mismatch.

(** [LiveLookup]; [LiveObservation] has no [lr_not_found]. *)
Inductive LiveRead (A : Type) :=
  | lr_observed (httpStatus : Z) (value : A)
  | lr_unavailable (httpStatus : option Z) (reason : UnavailableReason)
  | lr_schema_invalid (httpStatus : Z) (reason : SchemaReason)
  | lr_not_found.
Arguments lr_observed {A}.
Arguments lr_unavailable {A}.
Arguments lr_schema_invalid {A}.
Arguments lr_not_found {A}.

Inductive LiveInputError :=
  | invalid_configuration | invalid_principal | invalid_index_block_hash | invalid_txid
  | invalid_unsigned_transaction.

Record AnchoredAccount := {
  aa_principal : string; aa_indexBlockHash : string; aa_balanceUstx : Z; aa_lockedUstx : Z;
  aa_unlockHeight : Z; aa_nonce : Z;
}.

Record FeeEstimate := { fe_feeRate : JsonNumber; fe_feeUstx : Z }.

Record ExecutionCost := {
  ec_readCount : Z; ec_readLength : Z; ec_runtime : Z; ec_writeCount : Z; ec_writeLength : Z;
}.

Record FeeEstimation := {
  fo_transactionPayloadHex : string; fo_estimatedFinalByteLength : Z; fo_estimatedCost : ExecutionCost;
  fo_estimatedCostScalar : Z; fo_costScalarChangeByByte : JsonNumber;
  fo_low : FeeEstimate; fo_middle : FeeEstimate; fo_high : FeeEstimate;
}.

Record ObservedTransaction := {
  ot_txid : string; ot_transactionHex : string; ot_nonce : Z; ot_feeUstx : Z;
}.

Inductive Location := in_mempool | in_microblock (blockHash : string) (sequence : Z).

Record UnconfirmedTransaction := { un_transaction : ObservedTransaction; un_location : Location }.

Record IndexedTransaction := {
  it_transaction : ObservedTransaction; it_indexBlockHash : string; it_blockHeight : option Z;
  it_isCanonical : bool; it_resultRepr : string;
}.

Definition defaultMaxResponseBytes : Z := 512 * 1024.
Definition maximumResponseBytes : Z := 8 * 1024 * 1024.
Definition maximumUnsignedTransactionBytes : nat := Z.to_nat (256 * 1024).
Definition emptyRecoverableSignature : string := String.concat "" (repeat "00"%string 65).

(** ** Schemas *)

(** The last entry of an object wins, as in [JSON.parse]. *)
Fixpoint entry (name : string) (entries : list (string * Wire)) : option Wire :=
  match entries with
  | [] => None
  | (k, v) :: rest =>
      match entry name rest with
      | Some w => Some w
      | None => if String.eqb k name then Some v else None
      end
  end.

(** A strict object with exactly the given keys, and their values in that order. *)
Definition strict_object (names : list string) (w : Wire) : option (list Wire) :=
  match w with
  | wire_object entries =>
      if forallb (fun '(k, _) => existsb (String.eqb k) names) entries
      then mapM (fun name => entry name entries) names else None
  | _ => None
  end.

Definition safeUnsignedIntegerSchema (w : Wire) : option Z :=
  match w with wire_number (num_int n) => if safe_nonnegative n then Some n else None | _ => None end.

Definition finiteNonnegativeSchema (w : Wire) : option JsonNumber :=
  match w with
  | wire_number (num_int n) => if 0 <=? n then Some (num_int n) else None
  | wire_number (num_fraction f) => if 0 <=? f then Some (num_fraction f) else None
  | _ => None
  end.

(** The value of hex digits, the most significant first. *)
Definition hex_number (l : list ascii) : Z := fold_left (fun n c => 16 * n + hex_value c) l 0.

(** [BigInt(value)] of [u128HexSchema]. *)
Definition u128HexSchema (w : Wire) : option Z :=
  match w with
  | wire_string s => if prefixed_hex is_lower_hex 32 s then Some (hex_number (drop 2 (chars s))) else None
  | _ => None
  end.

(** [/^[0-9a-f]{64}$/] and [/^(?:[0-9a-f]{2})+$/] *)
Definition wireHash (s : string) : bool :=
  bool_decide (String.length s = 64%nat) && forallb is_lower_hex (chars s).
Definition wireHex (s : string) : bool :=
  nonempty s && Nat.even (String.length s) && forallb is_lower_hex (chars s).

Definition string_schema (pattern : string -> bool) (w : Wire) : option string :=
  match w with wire_string s => if pattern s then Some s else None | _ => None end.

Definition accountSchema (w : Wire) : option (Z * Z * Z * Z) :=
  l ← strict_object ["balance"; "locked"; "unlock_height"; "nonce"]%string w;
  match l with
  | [b; k; u; n] =>
      b ← u128HexSchema b; k ← u128HexSchema k;
      u ← safeUnsignedIntegerSchema u; n ← safeUnsignedIntegerSchema n;
      Some (b, k, u, n)
  | _ => None
  end.

Definition executionCostSchema (w : Wire) : option ExecutionCost :=
  l ← strict_object ["read_count"; "read_length"; "runtime"; "write_count"; "write_length"]%string w;
  ns ← mapM safeUnsignedIntegerSchema l;
  match ns with
  | [rc; rl; rt; wc; wl] =>
      Some {| ec_readCount := rc; ec_readLength := rl; ec_runtime := rt; ec_writeCount := wc;
              ec_writeLength := wl |}
  | _ => None
  end.

Definition feeEstimateSchema (w : Wire) : option FeeEstimate :=
  l ← strict_object ["fee_rate"; "fee"]%string w;
  match l with
  | [r; f] => r ← finiteNonnegativeSchema r; f ← safeUnsignedIntegerSchema f;
              Some {| fe_feeRate := r; fe_feeUstx := f |}
  | _ => None
  end.

Definition feeResponseSchema (w : Wire)
    : option (ExecutionCost * Z * (FeeEstimate * FeeEstimate * FeeEstimate) * JsonNumber) :=
  l ← strict_object ["estimated_cost"; "estimated_cost_scalar"; "estimations";
                     "cost_scalar_change_by_byte"]%string w;
  match l with
  | [c; s; wire_array [low; middle; high]; r] =>
      c ← executionCostSchema c; s ← safeUnsignedIntegerSchema s;
      low ← feeEstimateSchema low; middle ← feeEstimateSchema middle; high ← feeEstimateSchema high;
      r ← finiteNonnegativeSchema r;
      Some (c, s, (low, middle, high), r)
  | _ => None
  end.

Definition locationSchema (w : Wire) : option Location :=
  match w with
  | wire_string s => if String.eqb s "Mempool" then Some in_mempool else None
  | _ =>
      l ← strict_object ["Microblock"]%string w;
      match l with
      | [m] =>
          k ← strict_object ["block_hash"; "seq"]%string m;
          match k with
          | [h; wire_number (num_int n)] =>
              h ← string_schema wireHash h;
              if (0 <=? n) && (n <=? 65535) then Some (in_microblock ("0x" ++ h) n) else None
          | _ => None
          end
      | _ => None
      end
  end.

Definition unconfirmedResponseSchema (w : Wire) : option (string * Location) :=
  l ← strict_object ["tx"; "status"]%string w;
  match l with
  | [tx; status] => tx ← string_schema wireHex tx; status ← locationSchema status; Some (tx, status)
  | _ => None
  end.

Definition nullable {A} (schema : Wire -> option A) (w : Wire) : option (option A) :=
  match w with wire_null => Some None | _ => Some <$> schema w end.

Definition indexedTransactionResponseSchema (w : Wire)
    : option (string * string * string * option Z * bool) :=
  l ← strict_object ["index_block_hash"; "tx"; "result"; "block_height"; "is_canonical"]%string w;
  match l with
  | [h; tx; r; height; wire_bool canonical] =>
      h ← string_schema wireHash h; tx ← string_schema wireHex tx; r ← string_schema nonempty r;
      height ← nullable safeUnsignedIntegerSchema height;
      Some (h, tx, r, height, canonical)
  | _ => None
  end.

(** ** One read *)

Definition canonicalPrefixedHash (value : string) (code : LiveInputError) : result LiveInputError string :=
  let normalized := toLowerCase value in
  if prefixed_hex_i 64 normalized then Ok normalized else Err code.

Definition unavailableReason (e : JsError) : UnavailableReason :=
  if one_of (error_name e) ["AbortError"; "TimeoutError"]%string ||
     one_of (errorCode e) ["ETIMEDOUT"; "UND_ERR_CONNECT_TIMEOUT"; "UND_ERR_HEADERS_TIMEOUT";
                           "UND_ERR_BODY_TIMEOUT"]%string then read_timeout
  else if one_of (errorCode e) ["ECONNRESET"; "ECONNABORTED"; "EPIPE"; "UND_ERR_SOCKET"]%string
       then read_connection_reset else read_transport_error.

(** [/^application\/json(?:\s*;|$)/i] *)
Definition jsonContentType (s : string) : bool :=
  startsWith (toLowerCase s) "application/json" &&
  match String.substring 16 (String.length s) s with
  | EmptyString => true
  | rest => match trimStart rest with String ";" _ => true | _ => false end
  end.

Section Reader.

Context (parse : string -> option Wire) (decodeUtf8 : list Z -> option string)
        (deserialize : string -> option ReadBack) (validateStacksAddress : string -> bool).

(** The loop over the chunks; [seen] is [byteLength]. *)
Fixpoint readChunks (maximumBytes seen : Z) (stream : Stream) (chunks : list (list Z))
    : result JsError (option (list Z)) :=
  match chunks with
  | [] => match str_failure stream with Some e => Err e | None => Ok (Some []) end
  | chunk :: rest =>
      let seen := seen + Z.of_nat (List.length chunk) in
      if maximumBytes <? seen then
        match str_cancel stream with Some e => Err e | None => Ok None end
      else
        more ← readChunks maximumBytes seen stream rest;
        Ok (match more with Some bytes => Some (chunk ++ bytes) | None => None end)
  end.

Definition announced_too_large (r : Response) (maximumBytes : Z) : bool :=
  match re_contentLength r with
  | Some s => nonempty s && forallb is_digit (chars s) && (maximumBytes <? match BigInt s with Some n => n | None => 0 end)
  | None => false
  end.

(** [readBoundedBody]; [Err] carries the classification. *)
Definition readBoundedBody (r : Response) (maximumBytes : Z)
    : result (UnavailableReason + SchemaReason) string :=
  if announced_too_large r maximumBytes then Err (inr body_too_large)
  else
    match re_body r with
    | None => Ok ""%string
    | Some stream =>
        match readChunks maximumBytes 0 stream (str_chunks stream) with
        | Err e =>
            let reason := unavailableReason e in
            Err (inl (match reason with read_transport_error => response_read_error | _ => reason end))
        | Ok None => Err (inr body_too_large)
        | Ok (Some bytes) =>
            match decodeUtf8 bytes with Some body => Ok body | None => Err (inr invalid_utf8) end
        end
    end.

(** [parseJson] *)
Definition parseJson {A} (body : string) (schema : Wire -> option A) (httpStatus : Z) : LiveRead A :=
  match parse body with
  | None => lr_schema_invalid httpStatus invalid_json
  | Some w => match schema w with
              | Some v => lr_observed httpStatus v
              | None => lr_schema_invalid httpStatus unexpected_response
              end
  end.

(** [#read]; [notFound] and [transactionIndex] are its options. *)
Definition read (maxResponseBytes : Z) (notFound transactionIndex : bool)
    (answer : result JsError Response) : LiveRead string :=
  match answer with
  | Err e => lr_unavailable None (unavailableReason e)
  | Ok r =>
      let status := re_status r in
      if negb (re_ok r) then
        if notFound && (status =? 404) then lr_not_found
        else lr_unavailable (Some status)
               (if transactionIndex && (status =? 501) then transaction_index_unavailable else http_error)
      else if negb (match re_contentType r with Some t => jsonContentType t | None => false end)
      then lr_schema_invalid status unexpected_content_type
      else
        match readBoundedBody r maxResponseBytes with
        | Err (inl reason) => lr_unavailable (Some status) reason
        | Err (inr reason) => lr_schema_invalid status reason
        | Ok body => lr_observed status body
        end
  end.

(** The rest of a read after its body. *)
Definition with_body {A B} (wire : LiveRead string) (schema : Wire -> option A)
    (k : Z -> A -> LiveRead B) : LiveRead B :=
  match wire with
  | lr_observed status body =>
      match parseJson body schema status with
      | lr_observed status v => k status v
      | lr_unavailable s reason => lr_unavailable s reason
      | lr_schema_invalid s reason => lr_schema_invalid s reason
      | lr_not_found => lr_not_found
      end
  | lr_unavailable s reason => lr_unavailable s reason
  | lr_schema_invalid s reason => lr_schema_invalid s reason
  | lr_not_found => lr_not_found
  end.

(** ** The transaction of an answer *)

Definition unsignedFeeMaterial (unsignedHex : string) : result LiveInputError (string * Z) :=
  _ ← require (nonempty unsignedHex &&
               Nat.leb (String.length unsignedHex) (maximumUnsignedTransactionBytes * 2) &&
               wireHex unsignedHex) invalid_unsigned_transaction;
  match deserialize unsignedHex with
  | None => Err invalid_unsigned_transaction
  | Some b =>
      _ ← require (String.eqb (rb_serialized b) unsignedHex) invalid_unsigned_transaction;
      _ ← require (rb_standardAuth b && rb_singleSig b &&
                   String.eqb (rb_signature b) emptyRecoverableSignature &&
                   bool_decide (rb_payloadType b = ContractCall)) invalid_unsigned_transaction;
      _ ← require (safe_nonnegative (rb_estimatedLength b) && (0 <? rb_estimatedLength b))
            invalid_unsigned_transaction;
      Ok (rb_payloadHex b, rb_estimatedLength b)
  end.

Definition parseObservedTransaction (transactionHex expectedTxid : string)
    : result SchemaReason ObservedTransaction :=
  match deserialize transactionHex with
  | None => Err invalid_transaction
  | Some b =>
      _ ← require (rb_standardAuth b && String.eqb (rb_serialized b) transactionHex) invalid_transaction;
      _ ← require (rb_originVerifies b) invalid_transaction;
      _ ← require (String.eqb ("0x" ++ rb_txid b) expectedTxid) transaction_mismatch;
      Ok {| ot_txid := expectedTxid; ot_transactionHex := transactionHex; ot_nonce := rb_nonce b;
            ot_feeUstx := rb_fee b |}
  end.

(** ** The reads *)

Definition readAnchoredAccount (maxResponseBytes : Z) (principal indexBlockHash : string)
    (answer : result JsError Response) : result LiveInputError (LiveRead AnchoredAccount) :=
  _ ← require (nonempty principal && negb (existsb (fun c => Ascii.eqb c ".") (chars principal)) &&
               validateStacksAddress principal) invalid_principal;
  tip ← canonicalPrefixedHash indexBlockHash invalid_index_block_hash;
  Ok (with_body (read maxResponseBytes false false answer) accountSchema (fun status '(b, k, u, n) =>
        lr_observed status {| aa_principal := principal; aa_indexBlockHash := tip; aa_balanceUstx := b;
                              aa_lockedUstx := k; aa_unlockHeight := u; aa_nonce := n |})).

Definition estimateUnsignedTransactionFee (maxResponseBytes : Z) (unsignedHex : string)
    (answer : result JsError Response) : result LiveInputError (LiveRead FeeEstimation) :=
  '(payload, length) ← unsignedFeeMaterial unsignedHex;
  Ok (with_body (read maxResponseBytes false false answer) feeResponseSchema
        (fun status '(cost, scalar, (low, middle, high), change) =>
           lr_observed status {| fo_transactionPayloadHex := payload;
             fo_estimatedFinalByteLength := length; fo_estimatedCost := cost;
             fo_estimatedCostScalar := scalar; fo_costScalarChangeByByte := change;
             fo_low := low; fo_middle := middle; fo_high := high |})).

(** What the fee policy looks at. *)
Definition fee_observation (o : LiveRead FeeEstimation) : Fee.FeeObservation :=
  match o with
  | lr_observed _ v => Fee.fee_observed (fe_feeUstx (fo_middle v))
  | _ => Fee.fee_unobserved
  end.

Definition lookupUnconfirmedTransaction (maxResponseBytes : Z) (txid : string)
    (answer : result JsError Response) : result LiveInputError (LiveRead UnconfirmedTransaction) :=
  canonicalTxid ← canonicalPrefixedHash txid invalid_txid;
  Ok (with_body (read maxResponseBytes true false answer) unconfirmedResponseSchema
        (fun status '(tx, location) =>
           match parseObservedTransaction tx canonicalTxid with
           | Err reason => lr_schema_invalid status reason
           | Ok t => lr_observed status {| un_transaction := t; un_location := location |}
           end)).

Definition lookupIndexedTransaction (maxResponseBytes : Z) (txid : string)
    (answer : result JsError Response) : result LiveInputError (LiveRead IndexedTransaction) :=
  canonicalTxid ← canonicalPrefixedHash txid invalid_txid;
  Ok (with_body (read maxResponseBytes true true answer) indexedTransactionResponseSchema
        (fun status '(hash, tx, repr, height, canonical) =>
           match parseObservedTransaction tx canonicalTxid with
           | Err reason => lr_schema_invalid status reason
           | Ok t => lr_observed status {| it_transaction := t; it_indexBlockHash := "0x" ++ hash;
                       it_blockHeight := height; it_isCanonical := canonical; it_resultRepr := repr |}
           end)).

Definition transactionIndexCannotAnswer {A} (lookup : LiveRead A) : bool :=
  match lookup with
  | lr_not_found | lr_unavailable _ transaction_index_unavailable => true
  | _ => false
  end.

End Reader.

(** ** What a read shows *)

Section Facts.

Context (parse : string -> option Wire) (decodeUtf8 : list Z -> option string)
        (deserialize : string -> option ReadBack) (validateStacksAddress : string -> bool).

Lemma readChunks_bound max seen stream chunks bytes :
  0 <= seen <= max -> readChunks max seen stream chunks = Ok (Some bytes) ->
  seen + Z.of_nat (List.length bytes) <= max /\ bytes = List.concat chunks /\ str_failure stream = None.
Proof.
  revert seen bytes. induction chunks as [|chunk rest IH]; intros seen bytes Hs H; cbn in H.
  - destruct (str_failure stream) eqn:E; [done|]. injection H as <-. cbn. split_and!; [lia | done | done].
  - destruct (Z.ltb_spec max (seen + Z.of_nat (List.length chunk))) as [Hm|Hm].
    + by destruct (str_cancel stream).
    + apply bind_Ok in H as ([more|] & Hr & H); [|done]. injection H as <-.
      destruct (IH (seen + Z.of_nat (List.length chunk)) more ltac:(lia) Hr) as (Hl & -> & Hf).
      rewrite length_app. split_and!; [lia | done | done].
Qed.

(** A body that was read came whole, in JSON, with a 2xx status and within the limit. *)
Record whole_body (max : Z) (answer : result JsError Response) (status : Z) (body : string) : Prop := {
  wb_status : 200 <= status <= 299;
  wb_bytes : exists r bytes, answer = Ok r /\ re_status r = status /\
    (exists t, re_contentType r = Some t /\ jsonContentType t = true) /\
    Z.of_nat (List.length bytes) <= max /\
    match re_body r with
    | None => bytes = [] /\ body = ""%string
    | Some stream => bytes = List.concat (str_chunks stream) /\ str_failure stream = None /\
                     decodeUtf8 bytes = Some body
    end;
}.

Lemma read_observed max notFound index answer status body :
  0 <= max -> read decodeUtf8 max notFound index answer = lr_observed status body ->
  whole_body max answer status body.
Proof.
  intros Hm H. unfold read in H. destruct answer as [r|e]; [|done].
  destruct (re_ok r) eqn:Hok; cbn [negb] in H; [|by destruct (notFound && _)].
  destruct (re_contentType r) as [t|] eqn:Ht; [|done].
  destruct (jsonContentType t) eqn:Hj; cbn [negb] in H; [|done].
  unfold readBoundedBody in H. destruct (announced_too_large r max); [done|].
  assert (Hst : 200 <= re_status r <= 299).
  { unfold re_ok in Hok. apply andb_true_iff in Hok. lia. }
  destruct (re_body r) as [stream|] eqn:Hb.
  - destruct (readChunks max 0 stream (str_chunks stream)) as [[bytes|]|e] eqn:Hc; try done.
    destruct (decodeUtf8 bytes) as [text|] eqn:Hd; [|done]. injection H as <- <-.
    apply readChunks_bound in Hc as (Hl & Hbytes & Hf); [|lia].
    split; [done|]. exists r, bytes. rewrite Hb. split_and!; try done. by exists t.
  - injection H as <- <-. split; [done|]. exists r, []. rewrite Hb. split_and!; try done. by exists t.
Qed.

Lemma with_body_observed {A B} wire schema (k : Z -> A -> LiveRead B) status v :
  with_body parse wire schema k = lr_observed status v ->
  exists s body w a, wire = lr_observed s body /\ parse body = Some w /\ schema w = Some a /\
    k s a = lr_observed status v.
Proof.
  unfold with_body, parseJson. destruct wire as [s body| | |]; try done.
  destruct (parse body) as [w|] eqn:Hp; [|done]. destruct (schema w) as [a|] eqn:Hs; [|done].
  intros H. by exists s, body, w, a.
Qed.

(** A transaction the reader vouches for: its bytes are canonical, signed by their sender, and
    have the requested ID. *)
Definition bound_transaction (txid : string) (t : ObservedTransaction) : Prop :=
  ot_txid t = toLowerCase txid /\ prefixed_hex is_lower_hex 64 (ot_txid t) = true /\
  exists b, deserialize (ot_transactionHex t) = Some b /\ ("0x" ++ rb_txid b)%string = ot_txid t /\
    rb_serialized b = ot_transactionHex t /\ rb_standardAuth b = true /\ rb_originVerifies b = true /\
    ot_nonce t = rb_nonce b /\ ot_feeUstx t = rb_fee b.

Lemma canonicalPrefixedHash_Ok value code h :
  canonicalPrefixedHash value code = Ok h ->
  h = toLowerCase value /\ prefixed_hex is_lower_hex 64 h = true.
Proof.
  unfold canonicalPrefixedHash. destruct (prefixed_hex_i 64 (toLowerCase value)) eqn:Hp; [|done].
  intros [= <-]. split; [done|]. rewrite <- toLowerCase_idem. by apply prefixed_hex_lower.
Qed.

Lemma parseObservedTransaction_Ok txid hash tx t :
  canonicalPrefixedHash txid invalid_txid = Ok hash ->
  parseObservedTransaction deserialize tx hash = Ok t ->
  ot_transactionHex t = tx /\ bound_transaction txid t.
Proof.
  intros [-> Hh]%canonicalPrefixedHash_Ok H. unfold parseObservedTransaction in H.
  destruct (deserialize tx) as [b|] eqn:Hd; [|done].
  apply bind_Ok in H as (? & Ha%require_Ok & H). apply bind_Ok in H as (? & Hv%require_Ok & H).
  apply bind_Ok in H as (? & Ht%require_Ok & H). injection H as <-.
  apply andb_true_iff in Ha as [Hs Hc%String.eqb_eq]. apply String.eqb_eq in Ht.
  split; [done|]. split; [done|]. split; [done|]. by exists b.
Qed.

(** What the node says of a transaction is bound to it: an observed record came in a whole
    JSON answer within the byte limit, and carries bytes that serialise back to themselves, are
    signed by their sender and have exactly the requested transaction ID; nonce and fee are read
    from those bytes, not from the answer. *)
Theorem observed_transactions_are_bound max txid answer :
  0 <= max ->
  (forall status v,
     lookupIndexedTransaction parse decodeUtf8 deserialize max txid answer = Ok (lr_observed status v) ->
     (exists body, whole_body max answer status body) /\ bound_transaction txid (it_transaction v)) /\
  (forall status v,
     lookupUnconfirmedTransaction parse decodeUtf8 deserialize max txid answer = Ok (lr_observed status v) ->
     (exists body, whole_body max answer status body) /\ bound_transaction txid (un_transaction v)).
Proof.
  intros Hm. split; intros status v H; apply bind_Ok in H as (hash & Hh & H); injection H as H;
    apply with_body_observed in H as (s & body & w & a & Hr & _ & _ & Hk);
    apply read_observed in Hr; try done.
  - destruct a as [[[[ih tx] repr] height] canonical].
    destruct (parseObservedTransaction deserialize tx hash) as [t|] eqn:Ht; [|done].
    injection Hk as <- <-. split; [by exists body|]. by eapply parseObservedTransaction_Ok.
  - destruct a as [tx location].
    destruct (parseObservedTransaction deserialize tx hash) as [t|] eqn:Ht; [|done].
    injection Hk as <- <-. split; [by exists body|]. by eapply parseObservedTransaction_Ok.
Qed.

(** ** Ranges *)

Lemma hex_value_range c : is_lower_hex c = true -> 0 <= hex_value c < 16.
Proof. destruct c as [[] [] [] [] [] [] [] []]; cbn; intros H; try discriminate H; vm_compute; done. Qed.

Lemma hex_number_range l n :
  forallb is_lower_hex l = true -> 0 <= n ->
  0 <= fold_left (fun n c => 16 * n + hex_value c) l n < (n + 1) * 16 ^ Z.of_nat (List.length l).
Proof.
  revert n. induction l as [|c l IH]; intros n Hl Hn; cbn [fold_left List.length]; [cbn; lia|].
  cbn in Hl. apply andb_true_iff in Hl as [Hc Hl]. apply hex_value_range in Hc.
  assert (H := IH (16 * n + hex_value c) Hl ltac:(lia)). split; [apply H|].
  eapply Z.lt_le_trans; [apply H|].
  rewrite Nat2Z.inj_succ, Z.pow_succ_r by lia. assert (0 < 16 ^ Z.of_nat (List.length l)) by (apply Z.pow_pos_nonneg; lia).
  nia.
Qed.

Lemma u128HexSchema_range w v : u128HexSchema w = Some v -> 0 <= v < 2 ^ 128.
Proof.
  unfold u128HexSchema. destruct w as [| | |s| |]; try done.
  destruct (prefixed_hex is_lower_hex 32 s) eqn:Hp; [|done]. intros [= <-].
  destruct s as [|c [|d rest]]; try discriminate; [destruct c as [[] [] [] [] [] [] [] []]; discriminate Hp|].
  assert (Hr : bool_decide (String.length rest = 32%nat) && forallb is_lower_hex (chars rest) = true).
  { destruct c as [[] [] [] [] [] [] [] []]; try discriminate Hp;
      destruct d as [[] [] [] [] [] [] [] []]; try discriminate Hp. exact Hp. }
  apply andb_true_iff in Hr as [Hl%bool_decide_eq_true Hx].
  change (drop 2 (chars (String c (String d rest)))) with (chars rest). unfold hex_number.
  assert (H := hex_number_range (chars rest) 0 Hx ltac:(lia)).
  assert (Hlen : List.length (chars rest) = 32%nat).
  { rewrite <- Hl. clear. unfold chars. induction rest; cbn; congruence. }
  rewrite Hlen in H. exact H.
Qed.

Lemma safe_range w n : safeUnsignedIntegerSchema w = Some n -> 0 <= n <= 2 ^ 53 - 1.
Proof.
  unfold safeUnsignedIntegerSchema. destruct w as [| |[m| |]| | |]; try done.
  destruct (safe_nonnegative m) eqn:Hs; [|done]. intros [= <-].
  unfold safe_nonnegative in Hs. apply andb_true_iff in Hs. lia.
Qed.

(** An account that was read has a balance and a lock that fit 128 bits and a nonce that is
    exact as a JavaScript number, for exactly the principal and block that were asked for; and a
    principal with a dot or a malformed block hash is never asked about. *)
Theorem account_read_bounds max principal tip answer status a :
  readAnchoredAccount parse decodeUtf8 validateStacksAddress max principal tip answer
    = Ok (lr_observed status a) ->
  aa_principal a = principal /\ existsb (fun c => Ascii.eqb c ".") (chars principal) = false /\
  validateStacksAddress principal = true /\
  aa_indexBlockHash a = toLowerCase tip /\ prefixed_hex is_lower_hex 64 (aa_indexBlockHash a) = true /\
  0 <= aa_balanceUstx a < 2 ^ 128 /\ 0 <= aa_lockedUstx a < 2 ^ 128 /\
  0 <= aa_nonce a <= 2 ^ 53 - 1 /\ 0 <= aa_unlockHeight a <= 2 ^ 53 - 1.
Proof.
  intros H. apply bind_Ok in H as (? & Hg%require_Ok & H). apply bind_Ok in H as (h & Hh & H).
  apply canonicalPrefixedHash_Ok in Hh as [-> Hh]. injection H as H.
  apply with_body_observed in H as (s & body & w & [[[b k] u] n] & _ & _ & Hs & Hk).
  injection Hk as <- <-. cbn.
  apply andb_true_iff in Hg as [Hg Hv]. apply andb_true_iff in Hg as [_ Hd%negb_true_iff].
  unfold accountSchema in Hs. apply bind_Some in Hs as (l & _ & Hs).
  destruct l as [|x1 [|x2 [|x3 [|x4 [|? ?]]]]]; try done.
  apply bind_Some in Hs as (b' & H1%u128HexSchema_range & Hs).
  apply bind_Some in Hs as (k' & H2%u128HexSchema_range & Hs).
  apply bind_Some in Hs as (u' & H3%safe_range & Hs).
  apply bind_Some in Hs as (n' & H4%safe_range & Hs). injection Hs as <- <- <- <-.
  split_and!; done || apply H1 || apply H2 || apply H3 || apply H4.
Qed.

(** Only a contract call with an empty signature may be estimated. *)
Lemma unsignedFeeMaterial_call hex m :
  unsignedFeeMaterial deserialize hex = Ok m ->
  exists b, deserialize hex = Some b /\ rb_payloadType b = ContractCall.
Proof.
  intros H. apply bind_Ok in H as (? & _ & H). destruct (deserialize hex) as [b|]; [|done].
  apply bind_Ok in H as (? & _ & H). apply bind_Ok in H as (? & Ht%require_Ok & H).
  exists b. split; [done|]. apply andb_true_iff in Ht as [_ Ht]. by apply bool_decide_eq_true in Ht.
Qed.

End Facts.

Module ConcreteReader.

Definition zeros : string := String.concat "" (repeat "00"%string 32).
Definition txid : string := "0xAB" ++ String.substring 2 62 zeros.

Definition account_json : Wire :=
  wire_object [("balance", wire_string ("0x" ++ String.substring 0 31 zeros ++ "f"));
               ("locked", wire_string ("0x" ++ String.substring 0 32 zeros));
               ("unlock_height", wire_number (num_int 0)); ("nonce", wire_number (num_int 7))]%string.
Definition indexed_json : Wire :=
  wire_object [("index_block_hash", wire_string zeros); ("tx", wire_string "8080");
               ("result", wire_string "(ok true)"); ("block_height", wire_number (num_int 12));
               ("is_canonical", wire_bool true)]%string.

(** A parser of two texts. *)
Definition parse (body : string) : option Wire :=
  if String.eqb body "account" then Some account_json
  else if String.eqb body "indexed" then Some indexed_json else None.

Definition decode (bytes : list Z) : option string :=
  if forallb (fun b => (0 <=? b) && (b <? 128)) bytes
  then Some (String.string_of_list_ascii (map (fun b => ascii_of_nat (Z.to_nat b)) bytes)) else None.

Definition deserialize (hex : string) : option ReadBack :=
  Some {| rb_payloadType := ContractCall; rb_amount := 0; rb_recipient := None; rb_nonce := 7;
          rb_fee := 300; rb_standardAuth := true; rb_singleSig := true; rb_signature := "11";
          rb_serialized := hex; rb_payloadHex := hex; rb_estimatedLength := 200;
          rb_originVerifies := true; rb_txid := "ab" ++ String.substring 2 62 zeros |}.

Definition answer (text : string) : result JsError Response :=
  Ok {| re_status := 200; re_contentType := Some "application/json; charset=utf-8"%string;
        re_contentLength := None;
        re_body := Some {| str_chunks := [text_bytes text]; str_failure := None; str_cancel := None |} |}.

Lemma observed_transactions_are_bound_witness : exists status v,
  lookupIndexedTransaction parse decode deserialize 512 txid (answer "indexed") = Ok (lr_observed status v) /\
  it_blockHeight v = Some 12 /\ bound_transaction deserialize txid (it_transaction v).
Proof.
  assert (H : exists status v, lookupIndexedTransaction parse decode deserialize 512 txid (answer "indexed")
            = Ok (lr_observed status v) /\ it_blockHeight v = Some 12)
    by (vm_compute; do 2 eexists; split; reflexivity).
  destruct H as (status & v & H & Hh). exists status, v. split; [exact H|]. split; [exact Hh|].
  assert (Hm : 0 <= 512) by lia.
  exact (proj2 (proj1 (observed_transactions_are_bound parse decode deserialize 512 txid
                         (answer "indexed") Hm) status v H)).
Defined.

Lemma account_read_bounds_witness : exists status a,
  readAnchoredAccount parse decode (fun _ => true) 512 "SPW" txid (answer "account") = Ok (lr_observed status a) /\
  aa_nonce a = 7 /\ aa_balanceUstx a < 2 ^ 128.
Proof.
  assert (H : exists status a, readAnchoredAccount parse decode (fun _ => true) 512 "SPW" txid (answer "account")
            = Ok (lr_observed status a) /\ aa_nonce a = 7)
    by (vm_compute; do 2 eexists; split; reflexivity).
  destruct H as (status & a & H & Hn). exists status, a. split; [exact H|]. split; [exact Hn|].
  destruct (account_read_bounds _ _ _ _ _ _ _ _ _ H) as (_ & _ & _ & _ & _ & Hb & _).
  apply Hb.
Defined.

End ConcreteReader.
