(* ===== verification/Recipe.v ===== *)
(** * Reward-run recipes

    packages/api-contracts/src/reward-runs.ts (the shapes) and the recipe builder of
    apps/sidekick/src/transaction-engine/reward-run-service.ts ([buildRewardRunRecipe] and the
    two digests).  A recipe is the bounded, ordered list of operations an operator approves.
    Decimal-text amounts that the code only ever writes with [toString] and reads with
    [BigInt] are [Z] here. *)

From S2P Require Import Prelude Text CanonicalJson Principals OperationPlan.

Open Scope Z_scope.

(** ** Shapes (reward-runs.ts) *)

Inductive RunStatus :=
  | awaiting_approval | approved | running | paused | completed | halted | cancelled | expired.
Inductive ChildStatus :=
  | pending | materialized | broadcast | confirmed | externally_completed | skipped | child_halted.
Inductive AttemptState := signed | accepted | ambiguous | rejected | attempt_confirmed.
Inductive Provenance := you | another_caller | policy_exception.
Inductive ExecutionSource := node | api_with_node | api.

#[global] Instance RunStatus_eq_dec : EqDecision RunStatus.
Proof. solve_decision. Defined.
#[global] Instance ChildStatus_eq_dec : EqDecision ChildStatus.
Proof. solve_decision. Defined.
#[global] Instance AttemptState_eq_dec : EqDecision AttemptState.
Proof. solve_decision. Defined.

Record PrepareRequest := {
  pr_requestId : option string;
  pr_cycle : Z;
  pr_distribution : Z;
  pr_operations : option (list OperationKind);
  pr_maxTransactions : option Z;
}.

Record AccountBound := {
  ab_accountKey : string;
  ab_stakerPrincipal : string;
  ab_rewardCycle : Z;
  ab_bondIndex : option string;
  ab_maximumGrossSats : Z;
  ab_payoutRoute : PayoutRoute;
}.

Record RecipeChild := {
  rc_index : nat;
  rc_operation : OperationKind;
  rc_adapterId : AdapterId;
  rc_adapterRevision : Z;
  rc_accountKey : option string;
  rc_requestId : option Z;
  rc_stakerPrincipal : option string;
  rc_maximumAmountSats : option Z;
  rc_withdrawalAmountSats : option Z;
  rc_maxFeeSats : option Z;
}.

Record Recipe := {
  r_runId : string;
  r_prepareRequestSha256 : string;
  r_walletPrincipal : string;
  r_managerPrincipal : string;
  r_pox5Contract : string;
  r_sbtcTokenContract : string;
  r_sbtcRegistryContract : string;
  r_network : Network;
  r_chainId : Z;
  r_cycle : Z;
  r_distribution : Z;
  r_orderedOperations : list OperationKind;
  r_accounts : list AccountBound;
  r_reviewedTotalSats : Z;
  r_reviewedPaymentCount : nat;
  r_maxTransactions : Z;
  r_eligibleTransactions : Z;
  r_truncated : bool;
  r_remainingTransactions : Z;
  r_feeCapUstx : Z;
  r_gasBudgetUstx : Z;
  r_managerSourceFingerprint : string;
  r_pox5SourceFingerprint : string;
  r_adapterRevisions : list (AdapterId * Z);
  r_children : list RecipeChild;
  r_preparedAnchor : Anchor;
}.

#[global] Instance AccountBound_eq_dec : EqDecision AccountBound.
Proof. solve_decision. Defined.
#[global] Instance RecipeChild_eq_dec : EqDecision RecipeChild.
Proof. solve_decision. Defined.

(** The text of an amount in the [\d+] fields. *)
Definition amountText (n : Z) : bool := 0 <=? n.
Definition optional_amount (o : option Z) : bool :=
  match o with None => true | Some n => amountText n end.

Definition accountBoundSchema (a : AccountBound) : bool :=
  nonempty (ab_accountKey a) && nonempty (ab_stakerPrincipal a) &&
  safe_nonnegative (ab_rewardCycle a) && amountText (ab_maximumGrossSats a) &&
  match ab_bondIndex a with
  | None => true
  | Some t => nonempty t && forallb is_digit (chars t)
  end.

Definition recipeChildSchema (c : RecipeChild) : bool :=
  (0 <? rc_adapterRevision c) && optional_amount (rc_requestId c) &&
  optional_amount (rc_maximumAmountSats c) && optional_amount (rc_withdrawalAmountSats c) &&
  optional_amount (rc_maxFeeSats c).

Definition between (lo hi : nat) {A} (l : list A) : bool :=
  bool_decide (lo <= List.length l)%nat && bool_decide (List.length l <= hi)%nat.

Definition rewardRunRecipeSchema (isUuid : string -> bool) (r : Recipe) : bool :=
  isUuid (r_runId r) && hash64 (r_prepareRequestSha256 r) && nonempty (r_walletPrincipal r) &&
  nonempty (r_managerPrincipal r) && nonempty (r_pox5Contract r) &&
  nonempty (r_sbtcTokenContract r) && nonempty (r_sbtcRegistryContract r) &&
  safe_nonnegative (r_chainId r) && safe_nonnegative (r_cycle r) &&
  ((r_distribution r =? 1) || (r_distribution r =? 2)) &&
  between 1 5 (r_orderedOperations r) &&
  forallb accountBoundSchema (r_accounts r) && between 0 200 (r_accounts r) &&
  amountText (r_reviewedTotalSats r) && bool_decide (r_reviewedPaymentCount r <= 200)%nat &&
  (1 <=? r_maxTransactions r) && (r_maxTransactions r <=? 200) &&
  (0 <? r_eligibleTransactions r) && safe_nonnegative (r_eligibleTransactions r) &&
  safe_nonnegative (r_remainingTransactions r) &&
  amountText (r_feeCapUstx r) && amountText (r_gasBudgetUstx r) &&
  hash64 (r_managerSourceFingerprint r) && hash64 (r_pox5SourceFingerprint r) &&
  forallb (fun '(_, n) => 0 <? n) (r_adapterRevisions r) &&
  forallb recipeChildSchema (r_children r) && between 1 200 (r_children r) &&
  anchorSchema (r_preparedAnchor r).

(** ** Draft facts (reward-run-service.ts) *)

Record DraftAccount := {
  da_stakerPrincipal : string;
  da_rewardCycle : Z;
  da_bondIndex : option string;
  da_maximumGrossSats : Z;
  da_payoutRoute : PayoutRoute;
}.

Inductive WithdrawalState := w_accepted | w_rejected.

Record DraftWithdrawal := {
  dw_requestId : Z;
  dw_stakerPrincipal : string;
  dw_state : WithdrawalState;
  dw_maximumAmountSats : Z;
  dw_withdrawalAmountSats : Z;
  dw_maxFeeSats : Z;
}.

Record DraftFacts := {
  f_walletPrincipal : string;
  f_managerPrincipal : string;
  f_pox5Contract : string;
  f_sbtcTokenContract : string;
  f_sbtcRegistryContract : string;
  f_network : Network;
  f_chainId : Z;
  f_cycle : Z;
  f_distribution : Z;
  f_preparedAnchor : Anchor;
  f_managerSourceFingerprint : string;
  f_pox5SourceFingerprint : string;
  f_calculateRequired : bool;
  f_collectRequired : bool;
  f_maximumCollectSats : option Z;
  f_eligibleAccountCount : Z;
  f_eligibleAccepted : Z;
  f_eligibleRejected : Z;
  f_accounts : list DraftAccount;
  f_withdrawals : list DraftWithdrawal;
}.

Inductive RewardRunErrorCode :=
  | reward_run_unavailable | reward_run_not_found | reward_run_invalid | reward_run_no_work
  | reward_run_conflict | reward_run_expired | reward_run_refused.

#[global] Instance RewardRunErrorCode_eq_dec : EqDecision RewardRunErrorCode.
Proof. solve_decision. Defined.

Definition operationOrder : list OperationKind :=
  [op_calculate_rewards; op_claim_rewards; op_claim_staker_rewards;
   op_settle_accepted_withdrawal; op_reclaim_failed_withdrawal].

(** ** JSON of the recipe and of the request *)

Definition JOptNum (o : option Z) : Json :=
  match o with None => JNull | Some n => JStr (bigint_toString n) end.

Definition account_json (a : AccountBound) : Json :=
  JObj [("stakerPrincipal", JStr (ab_stakerPrincipal a)); ("rewardCycle", JNum (ab_rewardCycle a));
        ("bondIndex", JOptStr (ab_bondIndex a));
        ("maximumGrossSats", JStr (bigint_toString (ab_maximumGrossSats a)));
        ("payoutRoute", JStr (route_text (ab_payoutRoute a)));
        ("accountKey", JStr (ab_accountKey a))].

Definition child_json (c : RecipeChild) : Json :=
  JObj [("index", JNum (Z.of_nat (rc_index c))); ("operation", JStr (kindText (rc_operation c)));
        ("adapterId", JStr (adapterIdText (rc_adapterId c)));
        ("adapterRevision", JNum (rc_adapterRevision c));
        ("accountKey", JOptStr (rc_accountKey c)); ("requestId", JOptNum (rc_requestId c));
        ("stakerPrincipal", JOptStr (rc_stakerPrincipal c));
        ("maximumAmountSats", JOptNum (rc_maximumAmountSats c));
        ("withdrawalAmountSats", JOptNum (rc_withdrawalAmountSats c));
        ("maxFeeSats", JOptNum (rc_maxFeeSats c))].

Definition anchor_json (a : Anchor) : Json :=
  JObj [("stacksBlockHeight", JNum (stacksBlockHeight a));
        ("burnBlockHeight", JNum (burnBlockHeight a));
        ("indexBlockHash", JStr (indexBlockHash a))].

Definition recipe_json (r : Recipe) : Json :=
  JObj [("schemaVersion", JNum 1); ("runId", JStr (r_runId r));
        ("prepareRequestSha256", JStr (r_prepareRequestSha256 r));
        ("walletPrincipal", JStr (r_walletPrincipal r));
        ("managerPrincipal", JStr (r_managerPrincipal r));
        ("pox5Contract", JStr (r_pox5Contract r));
        ("sbtcTokenContract", JStr (r_sbtcTokenContract r));
        ("sbtcRegistryContract", JStr (r_sbtcRegistryContract r));
        ("network", JStr (network_text (r_network r))); ("chainId", JNum (r_chainId r));
        ("cycle", JNum (r_cycle r)); ("distribution", JNum (r_distribution r));
        ("orderedOperations", JArr (map JStr (map kindText (r_orderedOperations r))));
        ("accounts", JArr (map account_json (r_accounts r)));
        ("reviewedTotalSats", JStr (bigint_toString (r_reviewedTotalSats r)));
        ("reviewedPaymentCount", JNum (Z.of_nat (r_reviewedPaymentCount r)));
        ("maxTransactions", JNum (r_maxTransactions r));
        ("eligibleTransactions", JNum (r_eligibleTransactions r));
        ("truncated", JBool (r_truncated r));
        ("remainingTransactions", JNum (r_remainingTransactions r));
        ("feeCapUstx", JStr (bigint_toString (r_feeCapUstx r)));
        ("gasBudgetUstx", JStr (bigint_toString (r_gasBudgetUstx r)));
        ("managerSourceFingerprint", JStr (r_managerSourceFingerprint r));
        ("pox5SourceFingerprint", JStr (r_pox5SourceFingerprint r));
        ("adapterRevisions",
           JObj (map (fun '(id, n) => (adapterIdText id, JNum n)) (r_adapterRevisions r)));
        ("children", JArr (map child_json (r_children r)));
        ("preparedAnchor", anchor_json (r_preparedAnchor r))].

Definition request_json (q : PrepareRequest) : Json :=
  JObj [("cycle", JNum (pr_cycle q)); ("distribution", JNum (pr_distribution q));
        ("maxTransactions", match pr_maxTransactions q with None => JNull | Some n => JNum n end);
        ("operations", match pr_operations q with
                       | None => JNull
                       | Some l => JArr (map JStr (map kindText l))
                       end)].

Definition accountKey (a : DraftAccount) : string :=
  (da_stakerPrincipal a ++ ":" ++ bigint_toString (da_rewardCycle a) ++ ":" ++
   match da_bondIndex a with Some b => b | None => "stx" end)%string.

Definition uniqueOperations (requested : option (list OperationKind))
    : result RewardRunErrorCode (list OperationKind) :=
  match requested with
  | None => Ok operationOrder
  | Some l => if bool_decide (NoDup l) then Ok l else Err reward_run_invalid
  end.

Definition adapter_of (operation : OperationKind) : AdapterId :=
  match operation with
  | op_calculate_rewards => pox5_calculate_rewards
  | op_claim_rewards => reference_manager_claim_rewards
  | op_claim_staker_rewards => reference_manager_claim_staker_rewards
  | op_settle_accepted_withdrawal => reference_manager_settle_accepted_withdrawal
  | op_reclaim_failed_withdrawal => reference_manager_reclaim_failed_withdrawal
  end.

(** The [detail] argument of [add]. *)
Record Detail := {
  d_accountKey : option string;
  d_requestId : option Z;
  d_stakerPrincipal : option string;
  d_maximumAmountSats : option Z;
  d_withdrawalAmountSats : option Z;
  d_maxFeeSats : option Z;
}.

(** [add]: pushes a child unless the cap is reached. *)
Definition add (maxTransactions : Z) (children : list RecipeChild) (operation : OperationKind)
    (d : Detail) : list RecipeChild :=
  if Z.of_nat (List.length children) >=? maxTransactions then children
  else children ++
    [{| rc_index := List.length children; rc_operation := operation;
        rc_adapterId := adapter_of operation;
        rc_adapterRevision := REWARD_OPERATION_ADAPTER_REVISIONS (adapter_of operation);
        rc_accountKey := d_accountKey d; rc_requestId := d_requestId d;
        rc_stakerPrincipal := d_stakerPrincipal d; rc_maximumAmountSats := d_maximumAmountSats d;
        rc_withdrawalAmountSats := d_withdrawalAmountSats d; rc_maxFeeSats := d_maxFeeSats d |}].

Definition calculateDetail : Detail :=
  {| d_accountKey := None; d_requestId := None; d_stakerPrincipal := None;
     d_maximumAmountSats := None; d_withdrawalAmountSats := None; d_maxFeeSats := None |}.

Definition collectDetail (maximum : Z) : Detail :=
  {| d_accountKey := None; d_requestId := None; d_stakerPrincipal := None;
     d_maximumAmountSats := Some maximum; d_withdrawalAmountSats := None; d_maxFeeSats := None |}.

Definition accountDetail (a : DraftAccount) : Detail :=
  {| d_accountKey := Some (accountKey a); d_requestId := None;
     d_stakerPrincipal := Some (da_stakerPrincipal a);
     d_maximumAmountSats := Some (da_maximumGrossSats a);
     d_withdrawalAmountSats := None; d_maxFeeSats := None |}.

Definition withdrawalOperation (w : DraftWithdrawal) : OperationKind :=
  match dw_state w with
  | w_accepted => op_settle_accepted_withdrawal
  | w_rejected => op_reclaim_failed_withdrawal
  end.

Definition withdrawalDetail (w : DraftWithdrawal) : Detail :=
  {| d_accountKey := None; d_requestId := Some (dw_requestId w);
     d_stakerPrincipal := Some (dw_stakerPrincipal w);
     d_maximumAmountSats :=
       match withdrawalOperation w with
       | op_reclaim_failed_withdrawal => Some (dw_maximumAmountSats w)
       | _ => None
       end;
     d_withdrawalAmountSats := Some (dw_withdrawalAmountSats w);
     d_maxFeeSats := Some (dw_maxFeeSats w) |}.

Record RecipeInput := {
  i_runId : string;
  i_facts : DraftFacts;
  i_request : PrepareRequest;
  i_feeCapUstx : Z;
  i_maximumTransactions : Z;
}.

(** [Object.fromEntries]: a later entry under a key replaces the value of the first. *)
Fixpoint set_entry (l : list (AdapterId * Z)) (id : AdapterId) (n : Z) : list (AdapterId * Z) :=
  match l with
  | [] => [(id, n)]
  | (k, v) :: rest => if bool_decide (k = id) then (k, n) :: rest else (k, v) :: set_entry rest id n
  end.

Definition fromEntries (l : list (AdapterId * Z)) : list (AdapterId * Z) :=
  fold_left (fun acc '(id, n) => set_entry acc id n) l [].

Section Recipe.

Context (sha256 : list Z -> string) (localeCompare : string -> string -> Z).

Definition recipe_bytes (recipe : Recipe) : list Z :=
  text_bytes "signer-sidekick:reward-run-recipe:v1" ++ [0] ++
  text_bytes (canonicalJson localeCompare (recipe_json recipe)).

Definition rewardRunRecipeSha256 (recipe : Recipe) : string := sha256 (recipe_bytes recipe).

Definition rewardRunPrepareRequestSha256 (request : PrepareRequest) : string :=
  sha256 (text_bytes "signer-sidekick:reward-run-prepare:v1" ++ [0] ++
          text_bytes (canonicalJson localeCompare (request_json request))).

Definition sortAccounts (l : list DraftAccount) : list DraftAccount :=
  js_sort (fun left right => localeCompare (accountKey left) (accountKey right)) l.

Definition sortWithdrawals (l : list DraftWithdrawal) : list DraftWithdrawal :=
  js_sort (fun left right => if dw_requestId left <? dw_requestId right then -1 else 1) l.

Definition has (selected : list OperationKind) (op : OperationKind) : bool :=
  bool_decide (op ∈ selected).

(** The children, in the order [add] is called. *)
Definition recipeChildren (maxTransactions : Z) (selected : list OperationKind) (f : DraftFacts)
    : result RewardRunErrorCode (list RecipeChild) :=
  let children :=
    if has selected op_calculate_rewards && f_calculateRequired f
    then add maxTransactions [] op_calculate_rewards calculateDetail else [] in
  children ←
    (if has selected op_claim_rewards && f_collectRequired f
     then match f_maximumCollectSats f with
          | Some m => if m <=? 0 then Err reward_run_invalid
                      else Ok (add maxTransactions children op_claim_rewards (collectDetail m))
          | None => Err reward_run_invalid
          end
     else Ok children);
  let children :=
    if has selected op_claim_staker_rewards
    then fold_left (fun acc a => if da_maximumGrossSats a =? 0 then acc
                                 else add maxTransactions acc op_claim_staker_rewards (accountDetail a))
           (sortAccounts (f_accounts f)) children
    else children in
  Ok (fold_left (fun acc w => if negb (has selected (withdrawalOperation w)) then acc
                              else add maxTransactions acc (withdrawalOperation w) (withdrawalDetail w))
        (sortWithdrawals (f_withdrawals f)) children).

(** The filter over the sorted accounts: a repeated key throws. *)
Fixpoint filterAccounts (children : list RecipeChild) (seen : list string) (l : list DraftAccount)
    : result RewardRunErrorCode (list DraftAccount) :=
  match l with
  | [] => Ok []
  | a :: rest =>
      let key := accountKey a in
      if bool_decide (key ∈ seen) then Err reward_run_invalid
      else
        kept ← filterAccounts children (key :: seen) rest;
        if existsb (fun c => bool_decide (rc_accountKey c = Some key)) children
        then Ok (a :: kept) else Ok kept
  end.

Definition accountBound (a : DraftAccount) : AccountBound :=
  {| ab_accountKey := accountKey a; ab_stakerPrincipal := da_stakerPrincipal a;
     ab_rewardCycle := da_rewardCycle a; ab_bondIndex := da_bondIndex a;
     ab_maximumGrossSats := da_maximumGrossSats a; ab_payoutRoute := da_payoutRoute a |}.

Definition eligibleOf (selected : list OperationKind) (f : DraftFacts) : Z :=
  (if has selected op_calculate_rewards && f_calculateRequired f then 1 else 0) +
  (if has selected op_claim_rewards && f_collectRequired f then 1 else 0) +
  (if has selected op_claim_staker_rewards then f_eligibleAccountCount f else 0) +
  (if has selected op_settle_accepted_withdrawal then f_eligibleAccepted f else 0) +
  (if has selected op_reclaim_failed_withdrawal then f_eligibleRejected f else 0).

Definition maxTransactionsOf (input : RecipeInput) : Z :=
  Z.min (match pr_maxTransactions (i_request input) with
         | Some n => n | None => i_maximumTransactions input end)
        (i_maximumTransactions input).

Definition buildRewardRunRecipe (input : RecipeInput) : result RewardRunErrorCode Recipe :=
  let f := i_facts input in
  let q := i_request input in
  _ ← require (negb (negb (pr_cycle q =? f_cycle f) || negb (pr_distribution q =? f_distribution f)))
        reward_run_conflict;
  selected ← uniqueOperations (pr_operations q);
  let maxTransactions := maxTransactionsOf input in
  children ← recipeChildren maxTransactions selected f;
  _ ← require (negb (bool_decide (children = []))) reward_run_no_work;
  kept ← filterAccounts children [] (sortAccounts (f_accounts f));
  let accounts := map accountBound kept in
  let orderedOperations :=
    List.filter (fun op => existsb (fun c => bool_decide (rc_operation c = op)) children)
      operationOrder in
  let eligibleTransactions := eligibleOf selected f in
  let count := Z.of_nat (List.length children) in
  _ ← require (negb (eligibleTransactions <? count)) reward_run_invalid;
  Ok {| r_runId := i_runId input;
        r_prepareRequestSha256 := rewardRunPrepareRequestSha256 q;
        r_walletPrincipal := f_walletPrincipal f; r_managerPrincipal := f_managerPrincipal f;
        r_pox5Contract := f_pox5Contract f; r_sbtcTokenContract := f_sbtcTokenContract f;
        r_sbtcRegistryContract := f_sbtcRegistryContract f; r_network := f_network f;
        r_chainId := f_chainId f; r_cycle := f_cycle f; r_distribution := f_distribution f;
        r_orderedOperations := orderedOperations; r_accounts := accounts;
        r_reviewedTotalSats :=
          fold_left (fun total a => total + ab_maximumGrossSats a) accounts 0;
        r_reviewedPaymentCount := List.length accounts;
        r_maxTransactions := maxTransactions; r_eligibleTransactions := eligibleTransactions;
        r_truncated := count <? eligibleTransactions;
        r_remainingTransactions := eligibleTransactions - count;
        r_feeCapUstx := i_feeCapUstx input;
        r_gasBudgetUstx := i_feeCapUstx input * count;
        r_managerSourceFingerprint := f_managerSourceFingerprint f;
        r_pox5SourceFingerprint := f_pox5SourceFingerprint f;
        r_adapterRevisions :=
          fromEntries (map (fun c => (rc_adapterId c, rc_adapterRevision c)) children);
        r_children := children; r_preparedAnchor := f_preparedAnchor f |}.

End Recipe.

(** * Properties of the builder *)

(** ** The children are a numbered prefix of the eligible work *)

Definition child_of (index : nat) (w : OperationKind * Detail) : RecipeChild :=
  let '(operation, d) := w in
  {| rc_index := index; rc_operation := operation; rc_adapterId := adapter_of operation;
     rc_adapterRevision := REWARD_OPERATION_ADAPTER_REVISIONS (adapter_of operation);
     rc_accountKey := d_accountKey d; rc_requestId := d_requestId d;
     rc_stakerPrincipal := d_stakerPrincipal d; rc_maximumAmountSats := d_maximumAmountSats d;
     rc_withdrawalAmountSats := d_withdrawalAmountSats d; rc_maxFeeSats := d_maxFeeSats d |}.

(** The first [max] pieces of work, numbered from 0. *)
Definition sealed (max : Z) (work : list (OperationKind * Detail)) : list RecipeChild :=
  imap child_of (take (Z.to_nat max) work).

(** All selected, eligible work in the order the run performs it: the calculation, the
    collection, the non-zero payments by account key, the withdrawals by request. *)
Definition payments localeCompare (selected : list OperationKind) (f : DraftFacts)
    : list DraftAccount :=
  if has selected op_claim_staker_rewards
  then filter (fun a => da_maximumGrossSats a <> 0) (sortAccounts localeCompare (f_accounts f))
  else [].

Definition work localeCompare (selected : list OperationKind) (f : DraftFacts)
    : list (OperationKind * Detail) :=
  (if has selected op_calculate_rewards && f_calculateRequired f
   then [(op_calculate_rewards, calculateDetail)] else []) ++
  (if has selected op_claim_rewards && f_collectRequired f
   then match f_maximumCollectSats f with
        | Some m => [(op_claim_rewards, collectDetail m)] | None => [] end
   else []) ++
  ((fun a => (op_claim_staker_rewards, accountDetail a)) <$> payments localeCompare selected f) ++
  ((fun w => (withdrawalOperation w, withdrawalDetail w)) <$>
     filter (fun w => has selected (withdrawalOperation w) = true)
       (sortWithdrawals (f_withdrawals f))).

Lemma length_sealed max l : List.length (sealed max l) = Nat.min (Z.to_nat max) (List.length l).
Proof. unfold sealed. by rewrite length_imap, length_take. Qed.

Lemma sealed_nil max : sealed max [] = [].
Proof. unfold sealed. by rewrite take_nil. Qed.

Lemma add_sealed max l op d :
  add max (sealed max l) op d = sealed max (l ++ [(op, d)]).
Proof.
  unfold add. rewrite length_sealed, Z.geb_leb. unfold sealed.
  destruct (Z.leb_spec max (Z.of_nat (Nat.min (Z.to_nat max) (List.length l)))) as [H|H].
  - by rewrite take_app_le by lia.
  - rewrite (take_ge (l ++ _)) by (rewrite length_app; cbn; lia). rewrite (take_ge l) by lia.
    rewrite imap_app. cbn. rewrite Nat.add_0_r, (Nat.min_r) by lia. reflexivity.
Qed.

Lemma fold_accounts max l acc :
  fold_left (fun acc a => if da_maximumGrossSats a =? 0 then acc
                          else add max acc op_claim_staker_rewards (accountDetail a)) l (sealed max acc) =
  sealed max (acc ++ ((fun a => (op_claim_staker_rewards, accountDetail a)) <$>
                        filter (fun a => da_maximumGrossSats a <> 0) l)).
Proof.
  revert acc; induction l as [|a l IH]; intros acc; cbn [fold_left].
  - by rewrite app_nil_r.
  - destruct (Z.eqb_spec (da_maximumGrossSats a) 0) as [Ha|Ha].
    + rewrite IH, filter_cons_False by (by intros []). done.
    + rewrite add_sealed, IH, filter_cons_True by done. by rewrite <- app_assoc.
Qed.

Lemma fold_withdrawals max selected l acc :
  fold_left (fun acc w => if negb (has selected (withdrawalOperation w)) then acc
                          else add max acc (withdrawalOperation w) (withdrawalDetail w)) l
    (sealed max acc) =
  sealed max (acc ++ ((fun w => (withdrawalOperation w, withdrawalDetail w)) <$>
                        filter (fun w => has selected (withdrawalOperation w) = true) l)).
Proof.
  revert acc; induction l as [|w l IH]; intros acc; cbn [fold_left].
  - by rewrite app_nil_r.
  - destruct (has selected (withdrawalOperation w)) eqn:Hw; cbn [negb].
    + rewrite add_sealed, IH, filter_cons_True by done. by rewrite <- app_assoc.
    + rewrite IH, filter_cons_False by congruence. done.
Qed.

Lemma recipeChildren_work localeCompare max selected f children :
  recipeChildren localeCompare max selected f = Ok children ->
  children = sealed max (work localeCompare selected f).
Proof.
  unfold recipeChildren, work, payments. intros H. apply bind_Ok in H as (c & Hc & [= <-]).
  set (calc := if has selected op_calculate_rewards && f_calculateRequired f
               then [(op_calculate_rewards, calculateDetail)] else []).
  assert (H0 : (if has selected op_calculate_rewards && f_calculateRequired f
                then add max [] op_calculate_rewards calculateDetail else []) = sealed max calc).
  { unfold calc. destruct (has selected op_calculate_rewards && f_calculateRequired f); [|by rewrite sealed_nil].
    pose proof (add_sealed max [] op_calculate_rewards calculateDetail) as H1.
    by rewrite sealed_nil in H1. }
  rewrite H0 in Hc.
  set (collect := if has selected op_claim_rewards && f_collectRequired f
                  then match f_maximumCollectSats f with
                       | Some m => [(op_claim_rewards, collectDetail m)] | None => [] end
                  else []).
  assert (c = sealed max (calc ++ collect)) as ->.
  { unfold collect. destruct (has selected op_claim_rewards && f_collectRequired f).
    - destruct (f_maximumCollectSats f) as [m|]; [|done]. destruct (m <=? 0); [done|].
      injection Hc as <-. apply add_sealed.
    - injection Hc as <-. by rewrite app_nil_r. }
  rewrite (app_assoc calc collect), app_assoc.
  destruct (has selected op_claim_staker_rewards).
  - by rewrite fold_accounts, fold_withdrawals.
  - rewrite fold_withdrawals. cbn [fmap list_fmap]. by rewrite app_nil_r.
Qed.

(** ** The reviewed accounts are the sealed payments *)

Lemma filterAccounts_Ok children seen l kept :
  filterAccounts children seen l = Ok kept ->
  NoDup (map accountKey l) /\ (forall a, a ∈ l -> accountKey a ∉ seen) /\
  kept = filter (fun a => existsb (fun c => bool_decide (rc_accountKey c = Some (accountKey a))) children = true) l.
Proof.
  revert seen kept; induction l as [|a l IH]; intros seen kept; cbn [filterAccounts].
  - intros [= <-]. split_and!; [constructor | by intros ? ?%elem_of_nil | done].
  - destruct (bool_decide (accountKey a ∈ seen)) eqn:Hs; [done|].
    apply bool_decide_eq_false in Hs. intros (k & Hk & H)%bind_Ok.
    apply IH in Hk as (Hd & Hn & ->). split_and!.
    + cbn. constructor; [|done]. intros (b & Hb & Hin)%list_elem_of_fmap.
      apply (Hn b Hin). rewrite <- Hb. constructor.
    + intros b [->|Hb]%elem_of_cons; [done|]. intros Hin. apply (Hn b Hb). by constructor.
    + rewrite filter_cons. destruct (existsb _ children) eqn:E; injection H as <-.
      * by rewrite decide_True.
      * by rewrite decide_False.
Qed.

Lemma filter_sublist {A K} (key : A -> K) (P : A -> Prop) `{forall a, Decision (P a)} q l :
  q `sublist_of` l -> NoDup (map key l) ->
  (forall a, a ∈ l -> (P a <-> key a ∈ map key q)) -> filter P l = q.
Proof.
  induction 1 as [|x q l Hs IH|x q l Hs IH]; intros Hd Hq; [done| |];
    cbn in Hd; apply NoDup_cons in Hd as [Hx Hd].
  - rewrite filter_cons_True by (apply Hq; cbn; constructor). f_equal.
    apply IH; [done|]. intros a Ha. rewrite (Hq a) by (by constructor). cbn.
    rewrite elem_of_cons. split; [|by right]. intros [Hk|]; [|done].
    destruct Hx. rewrite <- Hk. apply list_elem_of_fmap. by exists a.
  - rewrite filter_cons_False.
    + apply IH; [done|]. intros a Ha. apply Hq. by constructor.
    + intros Hp%Hq; [|constructor]. destruct Hx.
      apply list_elem_of_fmap in Hp as (b & -> & Hb). apply list_elem_of_fmap.
      exists b. split; [done|]. by eapply elem_of_sublist.
Qed.

(** The payments among the first [max] pieces of work. *)
Definition sealed_payments localeCompare (max : Z) (selected : list OperationKind) (f : DraftFacts)
    : list DraftAccount :=
  take (Z.to_nat max -
    ((if has selected op_calculate_rewards && f_calculateRequired f then 1 else 0) +
     (if has selected op_claim_rewards && f_collectRequired f
      then if f_maximumCollectSats f is Some _ then 1 else 0 else 0)))%nat
    (payments localeCompare selected f).

Definition payment_children (children : list RecipeChild) : list RecipeChild :=
  filter (fun c => rc_operation c = op_claim_staker_rewards) children.

(** What a child and an account say of one payment. *)
Definition child_payment (c : RecipeChild) : option string * option string * option Z :=
  (rc_accountKey c, rc_stakerPrincipal c, rc_maximumAmountSats c).
Definition account_payment (a : AccountBound) : option string * option string * option Z :=
  (Some (ab_accountKey a), Some (ab_stakerPrincipal a), Some (ab_maximumGrossSats a)).

Lemma payment_children_sealed n (l : list (OperationKind * Detail)) :
  map child_payment (payment_children (imap (fun i => child_of (n + i)) l)) =
  map (fun w => (d_accountKey w.2, d_stakerPrincipal w.2, d_maximumAmountSats w.2))
    (filter (fun w => w.1 = op_claim_staker_rewards) l).
Proof.
  revert n; induction l as [|[op d] l IH]; intros n; [done|].
  cbn [imap]. unfold payment_children. rewrite !filter_cons. cbn [fst rc_operation child_of].
  assert (H : imap ((fun i => child_of (n + i)) ∘ S) l = imap (fun i => child_of (S n + i)) l).
  { apply imap_ext. intros i w _. cbn. f_equal. lia. }
  rewrite H. specialize (IH (S n)). unfold payment_children in IH.
  destruct (decide (op = op_claim_staker_rewards)); cbn [map]; rewrite IH; [|done].
  by rewrite Nat.add_0_r.
Qed.

Lemma filter_none {A} (P : A -> Prop) `{forall a, Decision (P a)} l :
  (forall a, a ∈ l -> ~ P a) -> filter P l = [].
Proof.
  induction l as [|a l IH]; intros H1; [done|].
  rewrite filter_cons_False by (apply H1; constructor). apply IH. intros b Hb. apply H1. by constructor.
Qed.

Lemma filter_take_none n (l : list (OperationKind * Detail)) :
  (forall w, w ∈ l -> w.1 <> op_claim_staker_rewards) ->
  filter (fun w => w.1 = op_claim_staker_rewards) (take n l) = [].
Proof.
  intros H. apply filter_none. intros w Hw. apply H. eapply elem_of_sublist; [exact Hw|].
  apply sublist_take.
Qed.

Lemma filter_payment_work (l : list DraftAccount) :
  filter (fun w => w.1 = op_claim_staker_rewards)
    ((fun a => (op_claim_staker_rewards, accountDetail a)) <$> l) =
  (fun a => (op_claim_staker_rewards, accountDetail a)) <$> l.
Proof. induction l as [|a l IH]; [done|]. by rewrite fmap_cons, filter_cons_True, IH. Qed.

Lemma work_payments localeCompare max selected f :
  filter (fun w => w.1 = op_claim_staker_rewards)
    (take (Z.to_nat max) (work localeCompare selected f)) =
  (fun a => (op_claim_staker_rewards, accountDetail a)) <$>
    sealed_payments localeCompare max selected f.
Proof.
  unfold work, sealed_payments.
  set (A := if has selected op_calculate_rewards && f_calculateRequired f
            then [(op_calculate_rewards, calculateDetail)] else []).
  set (B := if has selected op_claim_rewards && f_collectRequired f
            then match f_maximumCollectSats f with
                 | Some m => [(op_claim_rewards, collectDetail m)] | None => [] end else []).
  set (W := _ <$> filter _ _).
  assert (HA : forall w, w ∈ A -> w.1 <> op_claim_staker_rewards).
  { unfold A. destruct (_ && f_calculateRequired f); intros w Hw;
      [by apply list_elem_of_singleton in Hw as ->|by apply elem_of_nil in Hw]. }
  assert (HB : forall w, w ∈ B -> w.1 <> op_claim_staker_rewards).
  { unfold B. destruct (_ && f_collectRequired f), (f_maximumCollectSats f); intros w Hw;
      first [by apply list_elem_of_singleton in Hw as ->|by apply elem_of_nil in Hw]. }
  assert (HW : forall w, w ∈ W -> w.1 <> op_claim_staker_rewards).
  { intros w (d & -> & _)%list_elem_of_fmap. cbn. unfold withdrawalOperation. by destruct (dw_state d). }
  rewrite !take_app, !filter_app, (filter_take_none _ A HA), (filter_take_none _ B HB),
    (filter_take_none _ W HW), app_nil_r. cbn [app].
  rewrite <- fmap_take, filter_payment_work. do 2 f_equal. rewrite <- Nat.sub_add_distr. do 2 f_equal.
  - unfold A. by destruct (_ && f_calculateRequired f).
  - unfold B. by destruct (_ && f_collectRequired f), (f_maximumCollectSats f).
Qed.

(** ** What a built recipe is *)

Section Built.

Context (sha256 : list Z -> string) (localeCompare : string -> string -> Z).

#[local] Abbreviation build := (buildRewardRunRecipe sha256 localeCompare).

Lemma build_inv input r :
  build input = Ok r ->
  exists selected kept,
    let f := i_facts input in
    uniqueOperations (pr_operations (i_request input)) = Ok selected /\
    r_children r = sealed (maxTransactionsOf input) (work localeCompare selected f) /\
    r_children r <> [] /\
    filterAccounts (r_children r) [] (sortAccounts localeCompare (f_accounts f)) = Ok kept /\
    r_accounts r = map accountBound kept /\
    r_maxTransactions r = maxTransactionsOf input /\
    r_eligibleTransactions r = eligibleOf selected f /\
    Z.of_nat (List.length (r_children r)) <= r_eligibleTransactions r /\
    r_reviewedTotalSats r = fold_left (fun total a => total + ab_maximumGrossSats a) (r_accounts r) 0 /\
    r_reviewedPaymentCount r = List.length (r_accounts r) /\
    r_truncated r = (Z.of_nat (List.length (r_children r)) <? r_eligibleTransactions r) /\
    r_remainingTransactions r = r_eligibleTransactions r - Z.of_nat (List.length (r_children r)) /\
    r_feeCapUstx r = i_feeCapUstx input /\
    r_gasBudgetUstx r = i_feeCapUstx input * Z.of_nat (List.length (r_children r)) /\
    r_runId r = i_runId input /\ r_cycle r = pr_cycle (i_request input) /\
    r_distribution r = pr_distribution (i_request input) /\
    r_walletPrincipal r = f_walletPrincipal f.
Proof.
  unfold buildRewardRunRecipe. intros H.
  apply bind_Ok in H as (? & Hreq%require_Ok & H). breflect.
  apply bind_Ok in H as (selected & Hsel & H). apply bind_Ok in H as (children & Hc & H).
  apply bind_Ok in H as (? & Hne%require_Ok & H). breflect.
  apply bind_Ok in H as (kept & Hk & H). apply bind_Ok in H as (? & He%require_Ok & [= <-]). breflect.
  apply recipeChildren_work in Hc.
  exists selected, kept. cbn. split_and!; done.
Qed.

(** A recipe is the first [maxTransactions] pieces of the eligible work, numbered in
    execution order (calculation, collection, non-zero payments by account key, withdrawals by
    request), each under its registered adapter. *)
Theorem recipe_is_work_prefix input r :
  build input = Ok r ->
  exists selected,
    uniqueOperations (pr_operations (i_request input)) = Ok selected /\
    r_children r = sealed (maxTransactionsOf input)
                     (work localeCompare selected (i_facts input)) /\
    (forall i c, r_children r !! i = Some c -> rc_index c = i) /\
    (forall c, c ∈ r_children r -> rc_adapterId c = adapter_of (rc_operation c) /\
       rc_adapterRevision c = REWARD_OPERATION_ADAPTER_REVISIONS (rc_adapterId c)).
Proof.
  intros H. destruct (build_inv _ _ H) as (selected & kept & Hsel & Hc & _).
  exists selected. split_and!; [done|done| |]; rewrite Hc; unfold sealed.
  - intros i c (w & _ & ->)%list_lookup_imap_Some. by destruct w.
  - intros c (i & Hi)%list_elem_of_lookup. apply list_lookup_imap_Some in Hi as (w & _ & ->).
    by destruct w.
Qed.

(** The bounds the operator approves are exact: between one and [maxTransactions]
    transactions, a gas budget of the fee cap times their number, and a truncation flag and
    remainder that account for every eligible transaction left out. *)
Theorem recipe_bounds input r :
  build input = Ok r ->
  let n := Z.of_nat (List.length (r_children r)) in
  1 <= n <= r_maxTransactions r /\ r_maxTransactions r <= i_maximumTransactions input /\
  r_gasBudgetUstx r = r_feeCapUstx r * n /\
  n + r_remainingTransactions r = r_eligibleTransactions r /\ 0 <= r_remainingTransactions r /\
  (r_truncated r = true <-> 0 < r_remainingTransactions r).
Proof.
  intros H. destruct (build_inv _ _ H) as (selected & kept & _ & Hc & Hne & _ & _ & Hm & _ & He & _ & _ & Ht & Hr & Hcap & Hg & _).
  assert (Hl : (List.length (r_children r) <= Z.to_nat (maxTransactionsOf input))%nat).
  { rewrite Hc, length_sealed. lia. }
  assert (Hpos : (1 <= List.length (r_children r))%nat) by (destruct (r_children r); [done | cbn; lia]).
  cbn. split_and!; try lia.
  - rewrite Hm. unfold maxTransactionsOf. lia.
  - rewrite Ht, Hr, Z.ltb_lt. lia.
Qed.

(** Only payments carry an account key. *)
Lemma keyed_child max selected f c key :
  c ∈ sealed max (work localeCompare selected f) -> rc_accountKey c = Some key ->
  rc_operation c = op_claim_staker_rewards.
Proof.
  intros (i & Hi)%list_elem_of_lookup Hk. unfold sealed in Hi.
  apply list_lookup_imap_Some in Hi as ([op d] & Hw & ->). cbn in Hk |- *.
  apply list_elem_of_lookup_2 in Hw. eapply elem_of_sublist in Hw; [|apply sublist_take].
  unfold work in Hw. rewrite !elem_of_app in Hw. destruct Hw as [Hw|[Hw|[Hw|Hw]]].
  - destruct (_ && f_calculateRequired f); [|by apply elem_of_nil in Hw].
    by apply list_elem_of_singleton in Hw as [= -> ->].
  - destruct (_ && f_collectRequired f), (f_maximumCollectSats f);
      first [by apply elem_of_nil in Hw|by apply list_elem_of_singleton in Hw as [= -> ->]].
  - by apply list_elem_of_fmap in Hw as (a & [= -> ->] & _).
  - by apply list_elem_of_fmap in Hw as (a & [= -> ->] & _).
Qed.

Lemma kept_payments input r selected kept :
  r_children r = sealed (maxTransactionsOf input) (work localeCompare selected (i_facts input)) ->
  filterAccounts (r_children r) [] (sortAccounts localeCompare (f_accounts (i_facts input))) = Ok kept ->
  map child_payment (payment_children (r_children r)) =
    map (fun a => account_payment (accountBound a)) kept /\
  NoDup (map accountKey kept).
Proof.
  intros Hc (Hd & _ & Hk)%filterAccounts_Ok.
  set (f := i_facts input) in *. set (max := maxTransactionsOf input) in *.
  set (q := sealed_payments localeCompare max selected f).
  assert (Hpay : map child_payment (payment_children (r_children r)) =
                 map (fun a => account_payment (accountBound a)) q).
  { rewrite Hc. unfold sealed. rewrite (payment_children_sealed 0), work_payments.
    rewrite <- list_fmap_compose. by apply map_ext. }
  assert (Hsub : q `sublist_of` sortAccounts localeCompare (f_accounts f)).
  { unfold q, sealed_payments, payments. etransitivity; [apply sublist_take|].
    destruct (has selected op_claim_staker_rewards); [apply sublist_filter | apply sublist_nil_l]. }
  assert (kept = q) as ->.
  { rewrite Hk. apply (filter_sublist accountKey); [done|done|].
    intros a Ha. rewrite existsb_exists. split.
    - intros (c & Hin & Hkey). apply bool_decide_eq_true in Hkey.
      apply list_elem_of_In in Hin.
      assert (Hp : c ∈ payment_children (r_children r)).
      { apply list_elem_of_filter. split; [|done]. rewrite Hc in Hin. by eapply keyed_child. }
      assert (Hm : child_payment c ∈ map child_payment (payment_children (r_children r)))
        by (apply list_elem_of_fmap; eauto).
      rewrite Hpay in Hm. apply list_elem_of_fmap in Hm as (b & Hb & Hq).
      unfold child_payment, account_payment in Hb. cbn in Hb. rewrite Hkey in Hb.
      injection Hb as -> _ _. apply list_elem_of_fmap. eauto.
    - intros (b & Hb & Hq)%list_elem_of_fmap.
      assert (Hm : account_payment (accountBound b) ∈ map child_payment (payment_children (r_children r))).
      { rewrite Hpay. apply list_elem_of_fmap. eauto. }
      apply list_elem_of_fmap in Hm as (c & Hcp & Hin). apply list_elem_of_filter in Hin as [_ Hin].
      exists c. split; [by apply list_elem_of_In|]. apply bool_decide_eq_true.
      unfold child_payment, account_payment in Hcp. cbn in Hcp. rewrite Hb. congruence. }
  split; [done|]. eapply sublist_NoDup; [exact Hd|]. by apply fmap_sublist.
Qed.

Lemma fold_total l n :
  fold_left (fun total a => total + ab_maximumGrossSats a) l n =
  n + fold_right Z.add 0 (map ab_maximumGrossSats l).
Proof. revert n; induction l as [|a l IH]; intros n; cbn; [lia|]. rewrite IH. lia. Qed.

(** C37. What the operator reviews is what the run may pay: the reviewed accounts are, in
    order, exactly the sealed payments (key, staker and maximum), no account appears twice,
    and the reviewed total and count are those of the sealed payments, also when the recipe
    is truncated. *)
Theorem reviewed_is_sealed input r :
  build input = Ok r ->
  let paid := payment_children (r_children r) in
  map child_payment paid = map account_payment (r_accounts r) /\
  NoDup (map ab_accountKey (r_accounts r)) /\
  r_reviewedPaymentCount r = List.length paid /\
  r_reviewedTotalSats r =
    fold_right Z.add 0 (map (fun c => default 0 (rc_maximumAmountSats c)) paid).
Proof.
  intros H. destruct (build_inv _ _ H) as
    (selected & kept & _ & Hc & _ & Hk & Ha & _ & _ & _ & Ht & Hn & _).
  destruct (kept_payments _ _ _ _ Hc Hk) as [Hp Hd]. cbn.
  assert (Hp' : map child_payment (payment_children (r_children r)) = map account_payment (r_accounts r)).
  { by rewrite Ha, map_map. }
  split_and!.
  - done.
  - by rewrite Ha, map_map.
  - rewrite Hn. apply (f_equal (@List.length _)) in Hp'. by rewrite !length_map in Hp'.
  - rewrite Ht, fold_total, Z.add_0_l. f_equal.
    apply (f_equal (map (fun t => default 0 t.2))) in Hp'. rewrite !map_map in Hp'. by cbn in Hp'.
Qed.

End Built.

(** ** The recipe digest *)

Lemma JOptNum_inj a b : json_equiv (JOptNum a) (JOptNum b) -> a = b.
Proof.
  destruct a, b; cbn; try (by inversion 1).
  intros H%json_equiv_str. f_equal. by apply bigint_toString_inj.
Qed.

Ltac invert_recipe_json :=
  repeat (invert_json;
    match goal with
    | H : json_equiv (JOptNum _) (JOptNum _) |- _ => apply JOptNum_inj in H
    | H : bigint_toString _ = bigint_toString _ |- _ => apply bigint_toString_inj in H
    | H : Z.of_nat _ = Z.of_nat _ |- _ => apply Nat2Z.inj in H
    | H : kindText _ = kindText _ |- _ => apply kindText_inj in H
    end).

Lemma account_json_inj a b : json_equiv (account_json a) (account_json b) -> a = b.
Proof.
  unfold account_json. intros H. invert_recipe_json. destruct a, b; cbn in *; subst. reflexivity.
Qed.

Lemma child_json_inj a b : json_equiv (child_json a) (child_json b) -> a = b.
Proof.
  unfold child_json. intros H. invert_recipe_json. destruct a, b; cbn in *; subst. reflexivity.
Qed.

Lemma anchor_json_inj a b : json_equiv (anchor_json a) (anchor_json b) -> a = b.
Proof.
  unfold anchor_json. intros H. invert_recipe_json; invert_json. destruct a, b; cbn in *; subst. reflexivity.
Qed.

Lemma json_array_inj {A} (f : A -> Json) l k :
  (forall a b, json_equiv (f a) (f b) -> a = b) ->
  json_equiv (JArr (map f l)) (JArr (map f k)) -> l = k.
Proof.
  intros Hf H%json_equiv_arr. revert k H; induction l as [|a l IH]; intros [|b k] H;
    try (by inversion H).
  apply Forall2_cons in H as [Hab H]. f_equal; auto.
Qed.

Lemma map_kindText_inj l k : map kindText l = map kindText k -> l = k.
Proof.
  revert k; induction l as [|a l IH]; intros [|b k]; cbn; try done.
  intros [= Ha%kindText_inj Hl]. f_equal; auto.
Qed.

(** The digest's text determines every field but the order of [adapterRevisions], an object
    the children already determine. *)
Record same_recipe (r s : Recipe) : Prop := {
  same_run : r_runId r = r_runId s;
  same_wallet : r_walletPrincipal r = r_walletPrincipal s;
  same_manager : r_managerPrincipal r = r_managerPrincipal s;
  same_contracts : r_pox5Contract r = r_pox5Contract s /\
    r_sbtcTokenContract r = r_sbtcTokenContract s /\
    r_sbtcRegistryContract r = r_sbtcRegistryContract s;
  same_network : r_network r = r_network s /\ r_chainId r = r_chainId s;
  same_target : r_cycle r = r_cycle s /\ r_distribution r = r_distribution s;
  same_accounts : r_accounts r = r_accounts s;
  same_children : r_children r = r_children s;
  same_gas : r_feeCapUstx r = r_feeCapUstx s /\ r_gasBudgetUstx r = r_gasBudgetUstx s;
  same_anchor : r_preparedAnchor r = r_preparedAnchor s;
  same_fingerprints : r_managerSourceFingerprint r = r_managerSourceFingerprint s /\
    r_pox5SourceFingerprint r = r_pox5SourceFingerprint s;
}.

Lemma recipe_json_same r s : json_equiv (recipe_json r) (recipe_json s) -> same_recipe r s.
Proof.
  unfold recipe_json. intros H. apply json_equiv_obj in H; [|nodup_keys|reflexivity].
  repeat match goal with
  | H : Forall2 entry_equiv [] [] |- _ => clear H
  | H : Forall2 entry_equiv (_ :: _) (_ :: _) |- _ =>
      let H1 := fresh "He" in apply Forall2_cons in H as [[_ H1] H]; cbn [snd] in H1
  end.
  repeat match goal with
  | H : json_equiv (JArr (map account_json _)) _ |- _ =>
      apply (json_array_inj _ _ _ account_json_inj) in H
  | H : json_equiv (JArr (map child_json _)) _ |- _ =>
      apply (json_array_inj _ _ _ child_json_inj) in H
  | H : json_equiv (anchor_json _) _ |- _ => apply anchor_json_inj in H
  | H : json_equiv (JStr _) (JStr _) |- _ => apply json_equiv_str in H
  | H : json_equiv (JNum _) (JNum _) |- _ => apply json_equiv_num in H
  | H : bigint_toString _ = bigint_toString _ |- _ => apply bigint_toString_inj in H
  | H : network_text _ = network_text _ |- _ => apply network_text_inj in H
  end.
  split; split_and?; assumption.
Qed.

(** The approval digest seals the recipe: two recipes with one [recipeSha256] agree on
    the run, the wallet, the contracts and network, the target, every account and child, the
    gas bounds and the anchor, unless their sealed texts are a collision of the hash. *)
Theorem recipe_sealed sha256 localeCompare r s :
  rewardRunRecipeSha256 sha256 localeCompare r = rewardRunRecipeSha256 sha256 localeCompare s ->
  same_recipe r s \/
  (recipe_bytes localeCompare r <> recipe_bytes localeCompare s /\
   sha256 (recipe_bytes localeCompare r) = sha256 (recipe_bytes localeCompare s)).
Proof.
  unfold rewardRunRecipeSha256. intros Heq.
  destruct (decide (recipe_bytes localeCompare r = recipe_bytes localeCompare s)) as [H|H];
    [left | by right].
  unfold recipe_bytes in H. apply app_inv_head, app_inv_head, text_bytes_inj in H.
  by apply canonicalJson_normal, normal_equiv, recipe_json_same in H.
Qed.

(** ** A concrete recipe *)

Module ConcreteRecipe.

Definition account (staker : string) (gross : Z) : DraftAccount :=
  {| da_stakerPrincipal := staker; da_rewardCycle := 9; da_bondIndex := None;
     da_maximumGrossSats := gross; da_payoutRoute := direct_sbtc |}.

Definition withdrawal (id : Z) (state : WithdrawalState) : DraftWithdrawal :=
  {| dw_requestId := id; dw_stakerPrincipal := "SPZ"; dw_state := state;
     dw_maximumAmountSats := 60; dw_withdrawalAmountSats := 50; dw_maxFeeSats := 10 |}.

Definition facts : DraftFacts :=
  {| f_walletPrincipal := "SPW"; f_managerPrincipal := "SPM.manager"; f_pox5Contract := "SPM.pox-5";
     f_sbtcTokenContract := "SPM.sbtc-token"; f_sbtcRegistryContract := "SPM.sbtc-registry";
     f_network := mainnet; f_chainId := 1; f_cycle := 9; f_distribution := 2;
     f_preparedAnchor := {| stacksBlockHeight := 100; burnBlockHeight := 50;
                            indexBlockHash := "0x" ++ Concrete.checksum [1] |};
     f_managerSourceFingerprint := Concrete.checksum [2];
     f_pox5SourceFingerprint := Concrete.checksum [3];
     f_calculateRequired := false; f_collectRequired := true; f_maximumCollectSats := Some 500;
     f_eligibleAccountCount := 2; f_eligibleAccepted := 1; f_eligibleRejected := 1;
     f_accounts := [account "SPC" 30; account "SPA" 20; account "SPB" 0];
     f_withdrawals := [withdrawal 8 w_rejected; withdrawal 3 w_accepted] |}.

Definition input : RecipeInput :=
  {| i_runId := "0f0e0d0c-0b0a-4908-8706-050403020100"; i_facts := facts;
     i_request := {| pr_requestId := None; pr_cycle := 9; pr_distribution := 2;
                     pr_operations := None; pr_maxTransactions := Some 4 |};
     i_feeCapUstx := 1000; i_maximumTransactions := 200 |}.

#[local] Abbreviation build := (buildRewardRunRecipe Concrete.checksum code_unit_compare).

Lemma recipe_exists : exists r, build input = Ok r /\ map rc_operation (r_children r) =
  [op_claim_rewards; op_claim_staker_rewards; op_claim_staker_rewards; op_settle_accepted_withdrawal].
Proof. vm_compute. eexists. split; reflexivity. Qed.

Lemma recipe_is_work_prefix_witness : exists r, build input = Ok r /\
  (forall i c, r_children r !! i = Some c -> rc_index c = i).
Proof.
  destruct recipe_exists as (r & Hr & _). exists r. split; [exact Hr|].
  destruct (recipe_is_work_prefix Concrete.checksum code_unit_compare input r Hr)
    as (selected & _ & _ & Hi & _). exact Hi.
Defined.

Lemma recipe_bounds_witness : exists r, build input = Ok r /\
  r_gasBudgetUstx r = r_feeCapUstx r * Z.of_nat (List.length (r_children r)) /\
  (r_truncated r = true <-> 0 < r_remainingTransactions r).
Proof.
  destruct recipe_exists as (r & Hr & _). exists r. split; [exact Hr|].
  destruct (recipe_bounds Concrete.checksum code_unit_compare input r Hr)
    as (_ & _ & Hg & _ & _ & Ht). split; [exact Hg | exact Ht].
Defined.

Lemma reviewed_is_sealed_witness : exists r, build input = Ok r /\
  map child_payment (payment_children (r_children r)) = map account_payment (r_accounts r).
Proof.
  destruct recipe_exists as (r & Hr & _). exists r. split; [exact Hr|].
  exact (proj1 (reviewed_is_sealed Concrete.checksum code_unit_compare input r Hr)).
Defined.

Lemma recipe_sealed_witness : exists r, build input = Ok r /\
  (same_recipe r r \/ recipe_bytes code_unit_compare r <> recipe_bytes code_unit_compare r).
Proof.
  destruct recipe_exists as (r & Hr & _). exists r. split; [exact Hr|].
  destruct (recipe_sealed Concrete.checksum code_unit_compare r r eq_refl) as [H|[H _]];
    [left | right]; exact H.
Defined.

End ConcreteRecipe.
