(* ===== verification/Receipt.v ===== *)
(** * Receipts of submitted transactions

    apps/sidekick/src/canonical-api-transaction.ts, submitted-transaction-outcome.ts and
    calculation-receipt.ts: what became of a transaction this program signed and sent.  The
    reads are made in order and each at most once; their answers are a record, and a read that
    is not reached is not looked at.  [allow] is the caller's proof that the transaction is its
    own, which alone lets the API's word stand in for the node's. *)

From S2P Require Import Prelude Text NakamotoBlock Recipe.

Open Scope Z_scope.

(** ** Data *)

Inductive TxStatus :=
  | tx_success | tx_abort_by_response | tx_abort_by_post_condition | tx_unfinished.

#[global] Instance TxStatus_eq_dec : EqDecision TxStatus.
Proof. solve_decision. Defined.

Record TransactionDetails := {
  td_tx_id : string;
  td_tx_status : TxStatus;
  td_canonical : bool;
  td_block_hash : option string;
  td_block_height : Z;
  td_result_repr : string;
}.

Record ApiBlock := {
  bk_canonical : bool;
  bk_hash : string;
  bk_height : Z;
  bk_index_block_hash : string;
}.

(** The answers of the API and of the node. *)
Record ReceiptReads := {
  rr_network : result ReadError Z;
  rr_details : result ReadError TransactionDetails;
  rr_block : result ReadError ApiBlock;
  rr_node : NodeBlockReads;
}.

Record ApiReceipt := {
  ap_txid : string;
  ap_blockHeight : Z;
  ap_indexBlockHash : string;
  ap_success : bool;
  ap_resultRepr : string;
  ap_transactionHex : option string;
  ap_source : ExecutionSource;
}.

(** [CanonicalApiTransactionLookup] *)
Inductive ApiLookup :=
  | al_observed (receipt : ApiReceipt)
  | al_not_found
  | al_conflict (reorged : bool) (blockHeight : Z) (indexBlockHash : string)
  | al_unavailable (retryAfterMs : option Z).

(** [lookupIndexedTransaction]: the node's own record, or anything else, a throw included. *)
Inductive IndexedLookup :=
  | ix_observed (isCanonical : bool) (blockHeight : option Z) (resultRepr : string)
  | ix_unanswered.

(** [SubmittedTransactionOutcome] *)
Inductive SubmittedTransactionOutcome :=
  | sub_confirmed (success : bool) (resultRepr : string) (blockHeight : Z) (source : ExecutionSource)
  | sub_conflict (reason : string)
  | sub_pending (retryLater : bool) (retryAfterMs : option Z).

Definition finished (s : TxStatus) : bool :=
  bool_decide (s ∈ [tx_success; tx_abort_by_response; tx_abort_by_post_condition]).

Definition unavailable (e : ReadError) : ApiLookup :=
  al_unavailable (match e with RateLimitedError ms => ms | _ => None end).

Section Receipts.

Context (deserializeTransaction : list Z -> option (BlockTx * nat)).

(** ** The configured API, corroborated by the node *)

Definition receipt_of (d : TransactionDetails) (b : ApiBlock) (hex : option string)
    (source : ExecutionSource) : ApiReceipt :=
  {| ap_txid := td_tx_id d; ap_blockHeight := bk_height b;
     ap_indexBlockHash := bk_index_block_hash b;
     ap_success := bool_decide (td_tx_status d = tx_success);
     ap_resultRepr := td_result_repr d; ap_transactionHex := hex; ap_source := source |}.

(** The transaction is in a canonical block the API describes coherently. *)
Definition coherent (d : TransactionDetails) (b : ApiBlock) : bool :=
  bk_canonical b && bool_decide (Some (bk_hash b) = td_block_hash d) &&
  (bk_height b =? td_block_height d).

Definition lookupCanonicalApiTransaction (reads : ReceiptReads) (chainId : Z) (txId : string)
    (allow : bool) : ApiLookup :=
  match rr_network reads with
  | Err (UpstreamHttpError 404) => al_not_found
  | Err e => unavailable e
  | Ok network =>
      if negb (network =? chainId) then al_unavailable None
      else
        match rr_details reads with
        | Err (UpstreamHttpError 404) => al_not_found
        | Err e => unavailable e
        | Ok d =>
            if negb (String.eqb (td_tx_id d) txId) then al_unavailable None
            else if negb (finished (td_tx_status d)) then al_not_found
            else if negb (td_canonical d) || bool_decide (td_block_hash d = None)
            then al_unavailable None
            else
              match rr_block reads with
              | Err e => unavailable e
              | Ok b =>
                  if negb (coherent d b) then al_unavailable None
                  else
                    match checkTransactionInCanonicalBlock deserializeTransaction (rr_node reads)
                            (bk_height b) txId with
                    | Err e =>
                        if allow then al_observed (receipt_of d b None api) else unavailable e
                    | Ok proof_reorged => al_conflict true (bk_height b) (bk_index_block_hash b)
                    | Ok proof_absent => al_conflict false (bk_height b) (bk_index_block_hash b)
                    | Ok (proof_included tx) =>
                        al_observed (receipt_of d b (Some (tx_hex tx)) api_with_node)
                    end
              end
        end
  end.

(** ** The outcome *)

Definition safe_height (n : Z) : bool := (0 <=? n) && (n <=? 2 ^ 53 - 1).

Definition readSubmittedTransactionOutcome (indexed : IndexedLookup) (reads : ReceiptReads)
    (chainId : Z) (txId : string) (allow : bool) : SubmittedTransactionOutcome :=
  match indexed with
  | ix_observed false _ _ => sub_conflict "Transaction became noncanonical"
  | ix_observed true None _ => sub_pending false None
  | ix_observed true (Some height) repr =>
      if safe_height height
      then sub_confirmed (startsWith (trim repr) "(ok") repr height node
      else sub_pending true None
  | ix_unanswered =>
      match lookupCanonicalApiTransaction reads chainId txId allow with
      | al_conflict reorged _ _ =>
          sub_conflict ("Canonical transaction conflict: " ++ (if reorged then "reorged" else "absent"))
      | al_observed r => sub_confirmed (ap_success r) (ap_resultRepr r) (ap_blockHeight r) (ap_source r)
      | al_unavailable ms => sub_pending true ms
      | al_not_found => sub_pending false None
      end
  end.

(** ** What an outcome rests on *)

(** The API's account of a finished transaction with this ID, in this network. *)
Definition api_account (reads : ReceiptReads) (chainId : Z) (txId : string)
    (d : TransactionDetails) (b : ApiBlock) : Prop :=
  rr_network reads = Ok chainId /\ rr_details reads = Ok d /\ rr_block reads = Ok b /\
  td_tx_id d = txId /\ finished (td_tx_status d) = true /\ td_canonical d = true /\
  coherent d b = true.

Lemma not_observed_error (e : ReadError) o :
  match e with UpstreamHttpError 404 => al_not_found | _ => unavailable e end = o ->
  o = al_not_found \/ exists ms, o = al_unavailable ms.
Proof.
  intros <-. destruct e as [|ms|status|b|]; try (right; by eexists).
  destruct (decide (status = 404)) as [->|Hs]; [by left|]. right. exists None.
  destruct status as [|p|p]; try done. do 9 (destruct p as [p|p|]; try done).
Qed.

Lemma lookup_inv reads chainId txId allow o :
  lookupCanonicalApiTransaction reads chainId txId allow = o ->
  (exists ms, o = al_unavailable ms) \/ o = al_not_found \/
  exists d b, api_account reads chainId txId d b /\
    match checkTransactionInCanonicalBlock deserializeTransaction (rr_node reads) (bk_height b) txId with
    | Err _ => allow = true /\ o = al_observed (receipt_of d b None api)
    | Ok proof_reorged => o = al_conflict true (bk_height b) (bk_index_block_hash b)
    | Ok proof_absent => o = al_conflict false (bk_height b) (bk_index_block_hash b)
    | Ok (proof_included tx) => o = al_observed (receipt_of d b (Some (tx_hex tx)) api_with_node)
    end.
Proof.
  unfold lookupCanonicalApiTransaction, api_account.
  destruct (rr_network reads) as [network|e]; [|intros H; apply not_observed_error in H; tauto].
  destruct (Z.eqb_spec network chainId) as [->|]; cbn [negb]; [|intros <-; left; by eexists].
  destruct (rr_details reads) as [d|e]; [|intros H; apply not_observed_error in H; tauto].
  destruct (String.eqb_spec (td_tx_id d) txId) as [He|]; cbn [negb]; [|intros <-; left; by eexists].
  destruct (finished (td_tx_status d)) eqn:Hf; cbn [negb]; [|intros <-; by right; left].
  destruct (td_canonical d) eqn:Hc; cbn [negb orb]; [|intros <-; left; by eexists].
  destruct (bool_decide (td_block_hash d = None)); [intros <-; left; by eexists|].
  destruct (rr_block reads) as [b|e]; [|intros <-; left; by eexists].
  destruct (coherent d b) eqn:Hco; cbn [negb]; [|intros <-; left; by eexists].
  destruct (checkTransactionInCanonicalBlock _ _ _ _) as [[tx| |]|e] eqn:Hp; intros Ho.
  1-3: right; right; exists d, b; rewrite Hp; by split_and!.
  destruct allow; [|left; subst; by eexists]. right. right. exists d, b. rewrite Hp. by split_and!.
Qed.

(** C32. A submitted transaction is only reported executed on evidence: the node's own canonical
    record; or a coherent canonical receipt of the API for exactly this ID in this network that
    the node's block contains; or such a receipt while the node could not be read, for a
    transaction the caller proved to be its own.  A node that read the block and did not find
    the transaction is never overruled. *)
Theorem confirmation_has_evidence indexed reads chainId txId allow success repr height source :
  readSubmittedTransactionOutcome indexed reads chainId txId allow =
    sub_confirmed success repr height source ->
  match source with
  | node => indexed = ix_observed true (Some height) repr /\ safe_height height = true /\
            success = startsWith (trim repr) "(ok"
  | _ => indexed = ix_unanswered /\ exists d b, api_account reads chainId txId d b /\
      height = bk_height b /\ repr = td_result_repr d /\
      (success = true <-> td_tx_status d = tx_success) /\
      let proof := checkTransactionInCanonicalBlock deserializeTransaction (rr_node reads) height txId in
      match source with
      | api_with_node => exists tx, proof = Ok (proof_included tx)
      | _ => allow = true /\ exists e, proof = Err e
      end
  end.
Proof.
  unfold readSubmittedTransactionOutcome. destruct indexed as [[] [h|] r|]; try done.
  - destruct (safe_height h) eqn:Hs; [|done]. by intros [= <- <- <- <-].
  - destruct (lookupCanonicalApiTransaction reads chainId txId allow) as [v| | |] eqn:Hl; try done.
    intros [= <- <- <- <-]. apply lookup_inv in Hl as [[ms Hl]|[Hl|(d & b & Ha & Hp)]]; try done.
    destruct (checkTransactionInCanonicalBlock _ _ _ _) as [[tx| |]|e] eqn:Hc; try done;
      [injection Hp as -> | destruct Hp as [Hal [= ->]]]; cbn; (split; [done|]); exists d, b;
      rewrite Hc, bool_decide_eq_true; split_and!; try done; eauto.
Qed.

(** The node's block without the transaction is reported as a conflict, never as executed. *)
Lemma conflict_wins reads chainId txId allow d b :
  api_account reads chainId txId d b -> is_Some (td_block_hash d) ->
  checkTransactionInCanonicalBlock deserializeTransaction (rr_node reads) (bk_height b) txId = Ok proof_absent ->
  readSubmittedTransactionOutcome ix_unanswered reads chainId txId allow =
    sub_conflict "Canonical transaction conflict: absent".
Proof.
  intros (Hn & Hd & Hb & Hid & Hf & Hc & Hco) [hash Hh] Hp.
  cbn. unfold lookupCanonicalApiTransaction. rewrite Hn, Hd, Hb, Z.eqb_refl, Hid, String.eqb_refl, Hf, Hc, Hco, Hp.
  cbn. by rewrite Hh.
Qed.

End Receipts.

(** ** The receipt of a reward calculation *)

(** The characters after [prefix], if the text starts with it. *)
Fixpoint after_prefix (prefix s : string) : option string :=
  match prefix, s with
  | EmptyString, _ => Some s
  | String c p, String d r => if Ascii.eqb c d then after_prefix p r else None
  | String _ _, EmptyString => None
  end.

Fixpoint digits (s : string) : string * string :=
  match s with
  | String c r => if is_digit c then let '(d, rest) := digits r in (String c d, rest) else (EmptyString, s)
  | EmptyString => (EmptyString, EmptyString)
  end.

(** The first match of [/\(name u(\d+)\)/]. *)
Fixpoint find_uint (name s : string) : option string :=
  let here :=
    match after_prefix ("(" ++ name ++ " u") s with
    | Some rest =>
        match digits rest with
        | (EmptyString, _) => None
        | (d, String ")" _) => Some d
        | _ => None
        end
    | None => None
    end in
  match here, s with
  | Some d, _ => Some d
  | None, String _ r => find_uint name r
  | None, EmptyString => None
  end.

Definition endsWith (s suffix : string) : bool :=
  match after_prefix (String.string_of_list_ascii (rev (chars suffix)))
          (String.string_of_list_ascii (rev (chars s))) with
  | Some _ => true
  | None => false
  end.

(** [/^\(ok (\(tuple .* \))\)$/s]: the text of the tuple, without its last parenthesis. *)
Definition ok_tuple (s : string) : option string :=
  match after_prefix "(ok (tuple " s with
  | Some rest => if endsWith rest "))" then Some rest else None
  | None => None
  end.

Definition calculationResultMatchesTarget (resultRepr targetRewardCycle : string)
    (expectedLastRewardComputeBurnHeight : Z) : bool :=
  match ok_tuple (trim resultRepr) with
  | None => false
  | Some fields =>
      bool_decide (find_uint "stx-cycle" fields = Some targetRewardCycle) &&
      bool_decide (find_uint "calculation-height" fields =
                   Some (bigint_toString expectedLastRewardComputeBurnHeight))
  end.

Example receipt_matches :
  calculationResultMatchesTarget " (ok (tuple (calculation-height u42) (stx-cycle u7)))" "7" 42 = true /\
  calculationResultMatchesTarget "(ok (tuple (calculation-height u43) (stx-cycle u7)))" "7" 42 = false.
Proof. split; vm_compute; reflexivity. Qed.

Module ConcreteReceipt.

Definition id : string := "0xaa".
Definition details : TransactionDetails :=
  {| td_tx_id := id; td_tx_status := tx_success; td_canonical := true; td_block_hash := Some "0xbb"%string;
     td_block_height := 7; td_result_repr := "(ok true)" |}.
Definition api_block : ApiBlock :=
  {| bk_canonical := true; bk_hash := "0xbb"; bk_height := 7; bk_index_block_hash := "0xcc" |}.

(** The API knows the transaction; the node's block is read, or not. *)
Definition reads (node_block : NodeBlockReads) : ReceiptReads :=
  {| rr_network := Ok 1; rr_details := Ok details; rr_block := Ok api_block; rr_node := node_block |}.
Definition silent : NodeBlockReads :=
  {| nb_tip := Err (UpstreamHttpError 503); nb_identified := Err OtherError; nb_canonical := Err OtherError |}.

Abbreviation outcome := (readSubmittedTransactionOutcome ConcreteBlock.deserialize ix_unanswered).

Example outcomes :
  outcome (reads ConcreteBlock.reads) 1 id false = sub_confirmed true "(ok true)" 7 api_with_node /\
  outcome (reads silent) 1 id false = sub_pending true None /\
  outcome (reads silent) 2 id true = sub_pending true None.
Proof. vm_compute. done. Qed.

Lemma confirmation_has_evidence_witness : exists e,
  outcome (reads silent) 1 id true = sub_confirmed true "(ok true)" 7 api /\
  checkTransactionInCanonicalBlock ConcreteBlock.deserialize silent 7 id = Err e.
Proof.
  assert (H : outcome (reads silent) 1 id true = sub_confirmed true "(ok true)" 7 api)
    by (vm_compute; reflexivity).
  destruct (confirmation_has_evidence _ _ _ _ _ _ _ _ _ _ H) as (_ & d & b & _ & _ & _ & _ & _ & e & He).
  exists e. split; [exact H | exact He].
Defined.

End ConcreteReceipt.
