(* ===== verification/RunStore.v ===== *)
(** * The reward-run store

    apps/sidekick/src/storage/reward-run-repository.ts over the tables of migrations 37 and 38
    of apps/sidekick/src/storage/migrations.ts.  A database is a record of finite maps: the
    wallet leases by wallet, the runs, the preparations and the gas-wallet sweeps by id
    (the operations on sweeps are in [SweepStore]).  A run row carries its child
    rows in [child_index] order and a child row its attempts in [attempt_index] order, since
    both are inserted contiguously and never deleted.  A repository operation is a function in
    the [repo] monad: it returns or throws, and a statement that committed before a throw
    stays.  Times are milliseconds; the digests, UUIDs and
    transaction IDs of a row have the format their column checks. *)

From S2P Require Import Prelude Text Principals OperationPlan Recipe CanonicalJson SweepPlan.

Open Scope Z_scope.

(** ** Errors and the monad *)

Inductive RepositoryErrorCode :=
  | authorization_busy | run_not_found | state_conflict | recipe_conflict | child_not_found.

(** The codes of [GasWalletErrorCode] that a sweep throws. *)
Inductive SweepErrorCode :=
  | gas_wallet_missing | gas_wallet_refused | gas_wallet_engine_unavailable
  | gas_wallet_sweep_blocked | gas_wallet_sweep_not_found | gas_wallet_sweep_state
  | gas_wallet_sweep_expired | gas_wallet_sweep_stale | gas_wallet_sweep_empty
  | gas_wallet_sweep_failed | gas_wallet_sweep_unavailable | invalid_gas_wallet_sweep_recipient.

(** Everything an operation of the store or of the service may throw. *)
Inductive RunError :=
  | repository_error (code : RepositoryErrorCode)
  | sweep_busy
  | sweep_error (code : SweepErrorCode)
  | sql_error
  | schema_error
  | service_error (code : RewardRunErrorCode)
  | chain_read_error (retryable : bool) (retryAfterMs : option Z)
  | other_error.

(** ** Rows *)

Inductive LeaseKind := lease_reward_run | lease_sweep.

#[global] Instance LeaseKind_eq_dec : EqDecision LeaseKind.
Proof. solve_decision. Defined.

(** A row of [gas_wallet_authorizations]. *)
Record Lease := { l_kind : LeaseKind; l_id : string; l_acquiredAt : Z; l_updatedAt : Z }.

Inductive BroadcastResult :=
  | b_accepted (txid : string)
  | b_ambiguous (txid : string)
  | b_rejected (txid : option string) (nodeMessage : option string).

(** A row of [transaction_run_attempts]; its index is its position. *)
Record Attempt := {
  at_precomputedTxid : string;
  at_nonce : Z;
  at_feeUstx : Z;
  at_state : AttemptState;
  at_broadcastResult : option BroadcastResult;
  at_createdAt : Z;
  at_updatedAt : Z;
}.

(** A row of [transaction_run_children]; [ch_plan] is [plan_json], and [plan_sha256] the
    digest inside it. *)
Record Child := {
  ch_operation : OperationKind;
  ch_adapterId : AdapterId;
  ch_adapterRevision : Z;
  ch_accountKey : option string;
  ch_maximumAmountSats : option Z;
  ch_status : ChildStatus;
  ch_materializedAmountSats : option Z;
  ch_plan : option Plan;
  ch_txid : option string;
  ch_provenance : option Provenance;
  ch_executionSource : option ExecutionSource;
  ch_failureReason : option string;
  ch_updatedAt : Z;
  ch_attempts : list Attempt;
}.

(** A row of [transaction_runs] with its children. *)
Record Run := {
  ru_status : RunStatus;
  ru_walletPrincipal : string;
  ru_recipeSha256 : string;
  ru_recipe : Recipe;
  ru_cursor : nat;
  ru_gasSpentUstx : Z;
  ru_approvalExpiresAt : Z;
  ru_runtimeExpiresAt : option Z;
  ru_approvedAt : option Z;
  ru_startedAt : option Z;
  ru_completedAt : option Z;
  ru_failureReason : option string;
  ru_createdAt : Z;
  ru_updatedAt : Z;
  ru_children : list Child;
}.

Inductive PreparationStatus := prep_queued | prep_preparing | prep_ready | prep_failed.
Inductive PreparationFailureCode := no_work | temporarily_unavailable.

#[global] Instance PreparationStatus_eq_dec : EqDecision PreparationStatus.
Proof. solve_decision. Defined.

(** A row of [reward_run_preparations]. *)
Record Preparation := {
  p_status : PreparationStatus;
  p_requestSha256 : string;
  p_request : PrepareRequest;
  p_runId : option string;
  p_failureReason : option string;
  p_failureCode : option PreparationFailureCode;
  p_createdAt : Z;
  p_startedAt : option Z;
  p_completedAt : option Z;
  p_updatedAt : Z;
}.

Inductive SweepStatus :=
  | sweep_planned | sweep_broadcast | sweep_confirmed | sweep_failed | sweep_cancelled
  | sweep_expired.

#[global] Instance SweepStatus_eq_dec : EqDecision SweepStatus.
Proof. solve_decision. Defined.

(** A row of [gas_wallet_sweeps]; [sr_plan] is [plan_json]. *)
Record SweepRow := {
  sr_status : SweepStatus;
  sr_walletPrincipal : string;
  sr_recipient : string;
  sr_amountUstx : string;
  sr_feeUstx : string;
  sr_nonce : string;
  sr_balanceUstx : string;
  sr_planSha256 : string;
  sr_plan : SweepPlan;
  sr_txid : option string;
  sr_broadcastAmbiguous : bool;
  sr_executionSource : option ExecutionSource;
  sr_createdAt : Z;
  sr_expiresAt : Z;
  sr_approvedAt : option Z;
  sr_broadcastAt : option Z;
  sr_resolvedAt : option Z;
  sr_blockHeight : option Z;
  sr_failureReason : option string;
  sr_updatedAt : Z;
}.

Record Db := {
  leases : gmap string Lease;
  runs : gmap string Run;
  preparations : gmap string Preparation;
  sweeps : gmap string SweepRow;
}.

Definition empty_db : Db := {| leases := ∅; runs := ∅; preparations := ∅; sweeps := ∅ |}.

Definition set_leases (m : gmap string Lease) (db : Db) : Db :=
  {| leases := m; runs := runs db; preparations := preparations db; sweeps := sweeps db |}.
Definition set_runs (m : gmap string Run) (db : Db) : Db :=
  {| leases := leases db; runs := m; preparations := preparations db; sweeps := sweeps db |}.
Definition set_preparations (m : gmap string Preparation) (db : Db) : Db :=
  {| leases := leases db; runs := runs db; preparations := m; sweeps := sweeps db |}.
Definition set_sweeps (m : gmap string SweepRow) (db : Db) : Db :=
  {| leases := leases db; runs := runs db; preparations := preparations db; sweeps := m |}.

(** ** The repository monad

    An operation returns or throws, and yields the databases it committed on the way, the
    newest first: a process may stop after any of them. *)

Definition repo (A : Type) : Type := Db -> result RunError A * list Db.

(** The database after the commits [l]. *)
Definition after (db : Db) (l : list Db) : Db := List.hd db l.

#[global] Instance repo_ret : MRet repo := fun A a db => (Ok a, []).
#[global] Instance repo_bind : MBind repo := fun A B k m db =>
  match m db with
  | (Ok a, l) => let '(r, l') := k a (after db l) in (r, l' ++ l)
  | (Err e, l) => (Err e, l)
  end.

Definition raise {A} (e : RunError) : repo A := fun db => (Err e, []).
Definition conflict {A} : repo A := raise (repository_error state_conflict).
Definition gets {A} (f : Db -> A) : repo A := fun db => (Ok (f db), []).

(** One statement that writes. *)
Definition modify (f : Db -> Db) : repo unit := fun db => (Ok tt, [f db]).
Definition guard_repo (b : bool) (e : RunError) : repo unit := if b then mret tt else raise e.

(** [try { m } catch (e) { handler(e) }]: the commits of [m] stay. *)
Definition catch {A} (m : repo A) (handler : RunError -> repo A) : repo A := fun db =>
  match m db with
  | (Ok a, l) => (Ok a, l)
  | (Err e, l) => let '(r, l') := handler e (after db l) in (r, l' ++ l)
  end.

(** [transaction(db, operation)]: one commit at the end, and a throw rolls back. *)
Definition transaction {A} (operation : repo A) : repo A := fun db =>
  match operation db with
  | (Ok a, l) => (Ok a, match l with [] => [] | d :: _ => [d] end)
  | (Err e, _) => (Err e, [])
  end.

(** ** Derived facts of a row *)

Definition terminalRunStatuses : list RunStatus := [completed; cancelled; expired].
Definition completeChildStatuses : list ChildStatus := [confirmed; externally_completed; skipped].

(** [progress.inFlight] and [progress.completed]. *)
Definition inFlight (r : Run) : nat :=
  List.length (filter (fun c => ch_status c = broadcast) (ru_children r)).
Definition completedCount (r : Run) : nat :=
  List.length (filter (fun c => ch_status c ∈ completeChildStatuses) (ru_children r)).

(** The two row checks of [transaction_runs]. *)
Definition run_row_ok (r : Run) : bool :=
  (negb (bool_decide (ru_status r ∈ [approved; running; paused; completed; halted])) ||
     bool_decide (ru_approvedAt r <> None)) &&
  (negb (bool_decide (ru_status r ∈ [running; paused; completed; halted])) ||
     (bool_decide (ru_startedAt r <> None) && bool_decide (ru_runtimeExpiresAt r <> None))).

(** The row checks of [transaction_run_children] on the operation's columns. *)
Definition child_row_ok (c : RecipeChild) : bool :=
  (0 <? rc_adapterRevision c) &&
  match rc_operation c with
  | op_claim_staker_rewards =>
      bool_decide (rc_accountKey c <> None) && bool_decide (rc_maximumAmountSats c <> None)
  | op_claim_rewards | op_reclaim_failed_withdrawal =>
      bool_decide (rc_accountKey c = None) && bool_decide (rc_maximumAmountSats c <> None)
  | op_calculate_rewards | op_settle_accepted_withdrawal =>
      bool_decide (rc_accountKey c = None) && bool_decide (rc_maximumAmountSats c = None)
  end.

(** ** Runs *)

(** [get]: the row, its children and its progress; [rewardRunSchema] admits at most one
    transaction in flight. *)
Definition get (runId : string) : repo (option Run) :=
  o ← gets (fun db => runs db !! runId);
  match o with
  | None => mret None
  | Some r => _ ← guard_repo (bool_decide (inFlight r <= 1)%nat) schema_error; mret (Some r)
  end.

Definition require_run (runId : string) : repo Run :=
  o ← get runId;
  match o with Some r => mret r | None => raise (repository_error run_not_found) end.

Definition new_child (now : Z) (c : RecipeChild) : Child :=
  {| ch_operation := rc_operation c; ch_adapterId := rc_adapterId c;
     ch_adapterRevision := rc_adapterRevision c; ch_accountKey := rc_accountKey c;
     ch_maximumAmountSats := rc_maximumAmountSats c; ch_status := pending;
     ch_materializedAmountSats := None; ch_plan := None; ch_txid := None;
     ch_provenance := None; ch_executionSource := None; ch_failureReason := None;
     ch_updatedAt := now; ch_attempts := [] |}.

Definition new_run (wallet recipeSha256 : string) (recipe : Recipe) (approvalExpiresAt now : Z) : Run :=
  {| ru_status := awaiting_approval; ru_walletPrincipal := wallet;
     ru_recipeSha256 := recipeSha256; ru_recipe := recipe; ru_cursor := 0; ru_gasSpentUstx := 0;
     ru_approvalExpiresAt := approvalExpiresAt; ru_runtimeExpiresAt := None;
     ru_approvedAt := None; ru_startedAt := None; ru_completedAt := None;
     ru_failureReason := None; ru_createdAt := now; ru_updatedAt := now;
     ru_children := new_child now <$> r_children recipe |}.

(** The primary key of [gas_wallet_authorizations] and its unique owner index. *)
Definition lease_busy (wallet : string) (kind : LeaseKind) (id : string) (db : Db) : bool :=
  bool_decide (leases db !! wallet <> None) ||
  existsb (fun '(_, l) => bool_decide (l_kind l = kind) && String.eqb (l_id l) id)
    (map_to_list (leases db)).

Definition insert_run (isUuid : string -> bool) (runId wallet recipeSha256 : string)
    (recipe : Recipe) (approvalExpiresAt now : Z) : repo Run :=
  _ ← guard_repo (rewardRunRecipeSchema isUuid recipe) schema_error;
  transaction (
    busy ← gets (lease_busy wallet lease_reward_run runId);
    _ ← guard_repo (negb busy) (repository_error authorization_busy);
    _ ← modify (fun db => set_leases (<[wallet := {| l_kind := lease_reward_run; l_id := runId;
                                         l_acquiredAt := now; l_updatedAt := now |}]> (leases db)) db);
    existing ← gets (fun db => runs db !! runId);
    _ ← guard_repo (bool_decide (existing = None) && forallb child_row_ok (r_children recipe)) sql_error;
    _ ← modify (fun db => set_runs
          (<[runId := new_run wallet recipeSha256 recipe approvalExpiresAt now]> (runs db)) db);
    require_run runId).

Definition releaseAuthorization (runId : string) : repo unit :=
  modify (fun db => set_leases
    (filter (fun '(_, l) => ~ (l_kind l = lease_reward_run /\ l_id l = runId)) (leases db)) db).

Record Transition := {
  t_from : list RunStatus;
  t_to : RunStatus;
  t_now : Z;
  t_approvedAt : option Z;
  t_startedAt : option Z;
  t_runtimeExpiresAt : option Z;
  t_completedAt : option Z;
  t_failureReason : option string;
}.

(** [{ from, to, now }] with the optional fields left out. *)
Definition plain (from : list RunStatus) (to : RunStatus) (now : Z) : Transition :=
  {| t_from := from; t_to := to; t_now := now; t_approvedAt := None; t_startedAt := None;
     t_runtimeExpiresAt := None; t_completedAt := None; t_failureReason := None |}.

(** [COALESCE(new, old)] *)
Definition coalesce {A} (new old : option A) : option A :=
  match new with Some a => Some a | None => old end.

Definition transitioned (r : Run) (t : Transition) : Run :=
  {| ru_status := t_to t; ru_walletPrincipal := ru_walletPrincipal r;
     ru_recipeSha256 := ru_recipeSha256 r; ru_recipe := ru_recipe r; ru_cursor := ru_cursor r;
     ru_gasSpentUstx := ru_gasSpentUstx r; ru_approvalExpiresAt := ru_approvalExpiresAt r;
     ru_runtimeExpiresAt := coalesce (t_runtimeExpiresAt t) (ru_runtimeExpiresAt r);
     ru_approvedAt := coalesce (t_approvedAt t) (ru_approvedAt r);
     ru_startedAt := coalesce (t_startedAt t) (ru_startedAt r);
     ru_completedAt := coalesce (t_completedAt t) (ru_completedAt r);
     ru_failureReason := t_failureReason t; ru_createdAt := ru_createdAt r;
     ru_updatedAt := t_now t; ru_children := ru_children r |}.

Definition transition (runId : string) (t : Transition) : repo Run :=
  transaction (
    current ← require_run runId;
    _ ← guard_repo (bool_decide (ru_status current ∈ t_from t)) (repository_error state_conflict);
    let updated := transitioned current t in
    _ ← guard_repo (run_row_ok updated) sql_error;
    _ ← modify (fun db => set_runs (<[runId := updated]> (runs db)) db);
    _ ← (if bool_decide (t_to t ∈ terminalRunStatuses) then releaseAuthorization runId else mret tt);
    require_run runId).

(** [active]: the run that holds the wallet's lease. *)
Definition active (wallet : string) : repo (option Run) :=
  o ← gets (fun db => leases db !! wallet);
  match o with
  | Some l => if bool_decide (l_kind l = lease_reward_run) then get (l_id l) else mret None
  | None => mret None
  end.

(** ORDER BY created_at, run_id, over the rows that satisfy a condition. *)
Definition row_order (left right : string * Run) : Z :=
  if ru_createdAt left.2 <? ru_createdAt right.2 then -1
  else if ru_createdAt right.2 <? ru_createdAt left.2 then 1
  else code_unit_compare left.1 right.1.

Definition select_runs (where_ : Run -> bool) (db : Db) : list string :=
  map fst (js_sort row_order
    (List.filter (fun '(_, r) => where_ r) (map_to_list (runs db)))).

Fixpoint require_all (ids : list string) : repo (list (string * Run)) :=
  match ids with
  | [] => mret []
  | id :: rest => r ← require_run id; more ← require_all rest; mret ((id, r) :: more)
  end.

Definition unfinishedStatuses : list RunStatus :=
  [awaiting_approval; approved; running; paused; halted].

Definition listUnfinished : repo (list (string * Run)) :=
  ids ← gets (select_runs (fun r => bool_decide (ru_status r ∈ unfinishedStatuses)));
  require_all ids.

(** [Math.max(1, Math.min(200, Math.trunc(limit)))] on an integer. *)
Definition bounded_limit (limit : Z) : nat := Z.to_nat (Z.max 1 (Z.min 200 limit)).

Definition list_runs (limit : Z) : repo (list (string * Run)) :=
  ids ← gets (fun db => take (bounded_limit limit) (rev (select_runs (fun _ => true) db)));
  require_all ids.

Definition listForTarget (cycle distribution limit : Z) : repo (list (string * Run)) :=
  ids ← gets (fun db => take (bounded_limit limit)
    (select_runs (fun r => (r_cycle (ru_recipe r) =? cycle) &&
                           (r_distribution (ru_recipe r) =? distribution)) db));
  require_all ids.

Definition child_txids (r : Run) : list string :=
  omap ch_txid (ru_children r).
Definition attempt_txids (r : Run) : list string :=
  List.concat (map (fun c => map at_precomputedTxid (ch_attempts c)) (ru_children r)).

(** The IDs of [listOwnedTransactionIds], as a set (a SQL [UNION]). *)
Definition listOwnedTransactionIds (db : Db) : gset string :=
  list_to_set (List.concat (map (fun '(_, r) => child_txids r ++ attempt_txids r)
                         (map_to_list (runs db)))).

(** ORDER BY updated_at DESC, run_id DESC over the children with a transaction ID. *)
Definition txid_order (left right : string * Z) : Z :=
  if right.2 <? left.2 then -1 else if left.2 <? right.2 then 1
  else code_unit_compare right.1 left.1.

Definition getByTxid (txid : string) : repo (option Run) :=
  hits ← gets (fun db => js_sort txid_order (List.concat (map
    (fun '(id, r) => omap (fun c => if bool_decide (ch_txid c = Some txid)
                                    then Some (id, ch_updatedAt c) else None) (ru_children r))
    (map_to_list (runs db)))));
  match hits with
  | [] => mret None
  | (id, _) :: _ => get id
  end.

(** ** Children *)

Definition with_children (r : Run) (cs : list Child) : Run :=
  {| ru_status := ru_status r; ru_walletPrincipal := ru_walletPrincipal r;
     ru_recipeSha256 := ru_recipeSha256 r; ru_recipe := ru_recipe r; ru_cursor := ru_cursor r;
     ru_gasSpentUstx := ru_gasSpentUstx r; ru_approvalExpiresAt := ru_approvalExpiresAt r;
     ru_runtimeExpiresAt := ru_runtimeExpiresAt r; ru_approvedAt := ru_approvedAt r;
     ru_startedAt := ru_startedAt r; ru_completedAt := ru_completedAt r;
     ru_failureReason := ru_failureReason r; ru_createdAt := ru_createdAt r;
     ru_updatedAt := ru_updatedAt r; ru_children := cs |}.

(** The child row of a key, [None] when there is none. *)
Definition child_at (runId : string) (index : nat) (db : Db) : option Child :=
  r ← runs db !! runId; ru_children r !! index.

(** UPDATE of one child row. *)
Definition put_child (runId : string) (index : nat) (c : Child) (db : Db) : Db :=
  match runs db !! runId with
  | Some r => set_runs (<[runId := with_children r (<[index := c]> (ru_children r))]> (runs db)) db
  | None => db
  end.

Definition requireChild (runId : string) (index : nat) : repo Child :=
  o ← gets (child_at runId index);
  match o with Some c => mret c | None => raise (repository_error child_not_found) end.

Definition materialized_child (c : Child) (plan : Plan) (amount : option Z) (now : Z) : Child :=
  {| ch_operation := ch_operation c; ch_adapterId := ch_adapterId c;
     ch_adapterRevision := ch_adapterRevision c; ch_accountKey := ch_accountKey c;
     ch_maximumAmountSats := ch_maximumAmountSats c; ch_status := materialized;
     ch_materializedAmountSats := amount; ch_plan := Some plan; ch_txid := ch_txid c;
     ch_provenance := ch_provenance c; ch_executionSource := ch_executionSource c;
     ch_failureReason := ch_failureReason c; ch_updatedAt := now; ch_attempts := ch_attempts c |}.

Definition exceeds (amount maximum : option Z) : bool :=
  match amount, maximum with
  | Some a, Some m => m <? a
  | _, _ => false
  end.

Definition materializeChild (runId : string) (index : nat) (plan : Plan) (amount : option Z) (now : Z)
    : repo Child :=
  c ← requireChild runId index;
  _ ← guard_repo (bool_decide (ch_status c = pending)) (repository_error state_conflict);
  _ ← guard_repo (negb (exceeds amount (ch_maximumAmountSats c))) (repository_error recipe_conflict);
  _ ← modify (put_child runId index (materialized_child c plan amount now));
  requireChild runId index.

Definition childPlan (runId : string) (index : nat) : repo (option Plan) :=
  o ← gets (child_at runId index);
  match o with
  | None => raise (repository_error child_not_found)
  | Some c => mret (ch_plan c)
  end.

Record ChildUpdate := {
  u_from : list ChildStatus;
  u_to : ChildStatus;
  u_now : Z;
  u_txid : option string;
  u_provenance : option Provenance;
  u_executionSource : option ExecutionSource;
  u_failureReason : option string;
}.

Definition updated_child (c : Child) (u : ChildUpdate) : Child :=
  {| ch_operation := ch_operation c; ch_adapterId := ch_adapterId c;
     ch_adapterRevision := ch_adapterRevision c; ch_accountKey := ch_accountKey c;
     ch_maximumAmountSats := ch_maximumAmountSats c; ch_status := u_to u;
     ch_materializedAmountSats := ch_materializedAmountSats c; ch_plan := ch_plan c;
     ch_txid := coalesce (u_txid u) (ch_txid c); ch_provenance := u_provenance u;
     ch_executionSource := coalesce (u_executionSource u) (ch_executionSource c);
     ch_failureReason := u_failureReason u; ch_updatedAt := u_now u;
     ch_attempts := ch_attempts c |}.

Definition updateChild (runId : string) (index : nat) (u : ChildUpdate) : repo Child :=
  c ← requireChild runId index;
  _ ← guard_repo (bool_decide (ch_status c ∈ u_from u)) (repository_error state_conflict);
  _ ← modify (put_child runId index (updated_child c u));
  requireChild runId index.

(** Back to [pending] with the plan columns cleared. *)
Definition reset_child (c : Child) (now : Z) : Child :=
  {| ch_operation := ch_operation c; ch_adapterId := ch_adapterId c;
     ch_adapterRevision := ch_adapterRevision c; ch_accountKey := ch_accountKey c;
     ch_maximumAmountSats := ch_maximumAmountSats c; ch_status := pending;
     ch_materializedAmountSats := None; ch_plan := None; ch_txid := ch_txid c;
     ch_provenance := ch_provenance c; ch_executionSource := ch_executionSource c;
     ch_failureReason := ch_failureReason c; ch_updatedAt := now; ch_attempts := ch_attempts c |}.

(** The reset of a rejected child also clears what the submission recorded. *)
Definition reset_rejected (c : Child) (now : Z) : Child :=
  {| ch_operation := ch_operation c; ch_adapterId := ch_adapterId c;
     ch_adapterRevision := ch_adapterRevision c; ch_accountKey := ch_accountKey c;
     ch_maximumAmountSats := ch_maximumAmountSats c; ch_status := pending;
     ch_materializedAmountSats := None; ch_plan := None; ch_txid := None;
     ch_provenance := None; ch_executionSource := None; ch_failureReason := None;
     ch_updatedAt := now; ch_attempts := ch_attempts c |}.

(** [attempts(runId, childIndex)]: no row, no attempts. *)
Definition attempts_of (runId : string) (index : nat) (db : Db) : list Attempt :=
  match child_at runId index db with Some c => ch_attempts c | None => [] end.

Definition attempts (runId : string) (index : nat) : repo (list Attempt) :=
  gets (attempts_of runId index).

Definition resetUnattemptedMaterializedChild (runId : string) (index : nat) (now : Z) : repo unit :=
  l ← attempts runId index;
  _ ← guard_repo (bool_decide (l = [])) (repository_error state_conflict);
  o ← gets (child_at runId index);
  match o with
  | Some c =>
      if bool_decide (ch_status c = materialized)
      then modify (put_child runId index (reset_child c now)) else conflict
  | None => conflict
  end.

Definition resetRejectedChild (runId : string) (index : nat) (now : Z) : repo unit :=
  c ← requireChild runId index;
  l ← attempts runId index;
  _ ← guard_repo (bool_decide (ch_status c = child_halted) &&
                  bool_decide (at_state <$> last l = Some rejected)) (repository_error state_conflict);
  modify (put_child runId index (reset_rejected c now)).

Definition advanced (r : Run) (gasSpentUstx now : Z) : Run :=
  {| ru_status := ru_status r; ru_walletPrincipal := ru_walletPrincipal r;
     ru_recipeSha256 := ru_recipeSha256 r; ru_recipe := ru_recipe r; ru_cursor := S (ru_cursor r);
     ru_gasSpentUstx := gasSpentUstx; ru_approvalExpiresAt := ru_approvalExpiresAt r;
     ru_runtimeExpiresAt := ru_runtimeExpiresAt r; ru_approvedAt := ru_approvedAt r;
     ru_startedAt := ru_startedAt r; ru_completedAt := ru_completedAt r;
     ru_failureReason := ru_failureReason r; ru_createdAt := ru_createdAt r;
     ru_updatedAt := now; ru_children := ru_children r |}.

Definition advanceCursor (runId : string) (expectedCursor : nat) (gasSpentUstx now : Z) : repo Run :=
  o ← gets (fun db => runs db !! runId);
  match o with
  | Some r =>
      if bool_decide (ru_cursor r = expectedCursor)
      then _ ← modify (fun db => set_runs (<[runId := advanced r gasSpentUstx now]> (runs db)) db);
           require_run runId
      else conflict
  | None => conflict
  end.

(** ** Attempts *)

Definition with_attempts (c : Child) (l : list Attempt) : Child :=
  {| ch_operation := ch_operation c; ch_adapterId := ch_adapterId c;
     ch_adapterRevision := ch_adapterRevision c; ch_accountKey := ch_accountKey c;
     ch_maximumAmountSats := ch_maximumAmountSats c; ch_status := ch_status c;
     ch_materializedAmountSats := ch_materializedAmountSats c; ch_plan := ch_plan c;
     ch_txid := ch_txid c; ch_provenance := ch_provenance c;
     ch_executionSource := ch_executionSource c; ch_failureReason := ch_failureReason c;
     ch_updatedAt := ch_updatedAt c; ch_attempts := l |}.

(** The unique index on [precomputed_txid]. *)
Definition txid_used (txid : string) (db : Db) : bool :=
  existsb (fun '(_, r) => bool_decide (txid ∈ attempt_txids r)) (map_to_list (runs db)).

Definition new_attempt (txid : string) (nonce fee : Z) (state : AttemptState) (now : Z) : Attempt :=
  {| at_precomputedTxid := txid; at_nonce := nonce; at_feeUstx := fee; at_state := state;
     at_broadcastResult := None; at_createdAt := now; at_updatedAt := now |}.

(** Returns the index the attempt was given, [MAX(attempt_index) + 1]. *)
Definition insertAttempt (runId : string) (index : nat) (txid : string) (nonce fee : Z)
    (state : AttemptState) (now : Z) : repo nat :=
  o ← gets (child_at runId index);
  used ← gets (txid_used txid);
  match o with
  | Some c =>
      _ ← guard_repo (negb used) sql_error;
      _ ← modify (put_child runId index
            (with_attempts c (ch_attempts c ++ [new_attempt txid nonce fee state now])));
      mret (List.length (ch_attempts c))
  | None => raise sql_error
  end.

Definition set_attempt (state : AttemptState) (res : option BroadcastResult) (now : Z) (a : Attempt)
    : Attempt :=
  {| at_precomputedTxid := at_precomputedTxid a; at_nonce := at_nonce a;
     at_feeUstx := at_feeUstx a; at_state := state; at_broadcastResult := res;
     at_createdAt := at_createdAt a; at_updatedAt := now |}.

Definition updateAttempt (runId : string) (index attemptIndex : nat) (state : AttemptState)
    (res : option BroadcastResult) (now : Z) : repo unit :=
  o ← gets (child_at runId index);
  match o with
  | Some c => modify (put_child runId index
      (with_attempts c (alter (set_attempt state res now) attemptIndex (ch_attempts c))))
  | None => mret tt
  end.

(** ** Preparations *)

Definition put_preparation (id : string) (p : Preparation) : repo unit :=
  modify (fun db => set_preparations (<[id := p]> (preparations db)) db).

Definition requirePreparation (id : string) : repo Preparation :=
  o ← gets (fun db => preparations db !! id);
  match o with Some p => mret p | None => raise (repository_error run_not_found) end.

Definition preparation_active (p : Preparation) : bool :=
  bool_decide (p_status p ∈ [prep_queued; prep_preparing]).

Definition preparation_order (left right : string * Preparation) : Z :=
  if p_createdAt left.2 <? p_createdAt right.2 then -1
  else if p_createdAt right.2 <? p_createdAt left.2 then 1
  else code_unit_compare left.1 right.1.

(** [#activePreparationForRequest]: the unique index makes it at most one row. *)
Definition activePreparationForRequest (sha : string) (db : Db) : option (string * Preparation) :=
  head (js_sort preparation_order
    (List.filter (fun '(_, p) => String.eqb (p_requestSha256 p) sha && preparation_active p)
       (map_to_list (preparations db)))).

Definition new_preparation (sha : string) (request : PrepareRequest) (now : Z) : Preparation :=
  {| p_status := prep_queued; p_requestSha256 := sha; p_request := request; p_runId := None;
     p_failureReason := None; p_failureCode := None; p_createdAt := now; p_startedAt := None;
     p_completedAt := None; p_updatedAt := now |}.

(** [rewardRunPrepareRequestSchema] *)
Definition prepareRequestSchema (isUuid : string -> bool) (q : PrepareRequest) : bool :=
  match pr_requestId q with None => true | Some id => isUuid id end &&
  safe_nonnegative (pr_cycle q) && ((pr_distribution q =? 1) || (pr_distribution q =? 2)) &&
  match pr_operations q with None => true | Some l => between 1 5 l end &&
  match pr_maxTransactions q with None => true | Some n => (1 <=? n) && (n <=? 200) end.

(** The insert cannot race inside one process, so its unique index is the check before it. *)
Definition createPreparation (isUuid : string -> bool) (id sha : string) (request : PrepareRequest)
    (now : Z) : repo (string * Preparation) :=
  _ ← guard_repo (prepareRequestSchema isUuid request) schema_error;
  byId ← gets (fun db => preparations db !! id);
  match byId with
  | Some p =>
      if String.eqb (p_requestSha256 p) sha then mret (id, p)
      else raise (repository_error recipe_conflict)
  | None =>
      active ← gets (activePreparationForRequest sha);
      match active with
      | Some hit => mret hit
      | None =>
          _ ← put_preparation id (new_preparation sha request now);
          p ← requirePreparation id; mret (id, p)
      end
  end.

Definition pendingPreparations (db : Db) : list string :=
  map fst (js_sort preparation_order
    (List.filter (fun '(_, p) => bool_decide (p_status p = prep_queued))
       (map_to_list (preparations db)))).

Definition requeue (now : Z) (p : Preparation) : Preparation :=
  if bool_decide (p_status p = prep_preparing)
  then {| p_status := prep_queued; p_requestSha256 := p_requestSha256 p; p_request := p_request p;
          p_runId := p_runId p; p_failureReason := p_failureReason p;
          p_failureCode := p_failureCode p; p_createdAt := p_createdAt p; p_startedAt := None;
          p_completedAt := p_completedAt p; p_updatedAt := now |}
  else p.

Definition resetInterruptedPreparations (now : Z) : repo nat :=
  n ← gets (fun db => List.length (List.filter
        (fun '(_, p) => bool_decide (p_status p = prep_preparing)) (map_to_list (preparations db))));
  _ ← modify (fun db => set_preparations (requeue now <$> preparations db) db);
  mret n.

Definition claimPreparation (id : string) (now : Z) : repo (option Preparation) :=
  o ← gets (fun db => preparations db !! id);
  match o with
  | Some p =>
      if bool_decide (p_status p = prep_queued)
      then _ ← put_preparation id
             {| p_status := prep_preparing; p_requestSha256 := p_requestSha256 p;
                p_request := p_request p; p_runId := p_runId p;
                p_failureReason := p_failureReason p; p_failureCode := p_failureCode p;
                p_createdAt := p_createdAt p; p_startedAt := coalesce (p_startedAt p) (Some now);
                p_completedAt := p_completedAt p; p_updatedAt := now |};
           p' ← requirePreparation id; mret (Some p')
      else mret None
  | None => mret None
  end.

(** Ends an active preparation; a failure reason is never empty. *)
Definition finishPreparation (id : string) (status : PreparationStatus) (run_id : option string)
    (reason : option string) (code : option PreparationFailureCode) (now : Z) : repo Preparation :=
  o ← gets (fun db => preparations db !! id);
  match o with
  | Some p =>
      if bool_decide (p_status p = prep_preparing)
      then _ ← put_preparation id
             {| p_status := status; p_requestSha256 := p_requestSha256 p;
                p_request := p_request p; p_runId := run_id; p_failureReason := reason;
                p_failureCode := code; p_createdAt := p_createdAt p;
                p_startedAt := p_startedAt p; p_completedAt := Some now; p_updatedAt := now |};
           requirePreparation id
      else conflict
  | None => conflict
  end.

(** The run must exist: [run_id] references [transaction_runs]. *)
Definition completePreparation (id run_id : string) (now : Z) : repo Preparation :=
  known ← gets (fun db => runs db !! run_id);
  o ← gets (fun db => preparations db !! id);
  match o with
  | Some p =>
      _ ← guard_repo (bool_decide (known <> None) || negb (bool_decide (p_status p = prep_preparing)))
            sql_error;
      finishPreparation id prep_ready (Some run_id) None (p_failureCode p) now
  | None => conflict
  end.

(** [reason.trim().slice(0, 2000)] is the caller's [text]; empty text takes the default. *)
Definition failPreparation (id text : string) (now : Z) (code : option PreparationFailureCode)
    : repo Preparation :=
  finishPreparation id prep_failed None
    (Some (if String.eqb text "" then "Reward-run preparation failed"%string else text)) code now.
