(* ===== verification/SweepStore.v ===== *)
(** * The gas-wallet sweep store

    apps/sidekick/src/storage/gas-wallet-sweep-repository.ts over the table
    [gas_wallet_sweeps] of apps/sidekick/src/storage/migrations.ts.  A sweep shares the wallet
    lease of the reward runs: it takes the lease when it is stored and gives it back with its
    final status.  [sweep_write] is the abstract view of its writes that the reward runs and
    the sweep service are proved against. *)

From S2P Require Import Prelude Text CanonicalJson Principals OperationPlan Recipe SweepPlan RunStore.

Open Scope Z_scope.

(** ** Rows *)

Definition activeSweepStatuses : list SweepStatus := [sweep_planned; sweep_broadcast].
Definition terminalSweepStatuses : list SweepStatus :=
  [sweep_confirmed; sweep_failed; sweep_cancelled; sweep_expired].

Definition active_sweep (r : SweepRow) : Prop := sr_status r ∈ activeSweepStatuses.

#[global] Instance active_sweep_dec r : Decision (active_sweep r).
Proof. unfold active_sweep. apply _. Defined.

(** [GasWalletSweepPatch]: [None] leaves a column as it is.  Only [failureReason] is ever set
    back to null. *)
Record Patch := {
  pt_status : option SweepStatus;
  pt_txid : option string;
  pt_broadcastAmbiguous : option bool;
  pt_executionSource : option ExecutionSource;
  pt_approvedAt : option Z;
  pt_broadcastAt : option Z;
  pt_resolvedAt : option Z;
  pt_blockHeight : option Z;
  pt_failureReason : option (option string);
}.

Definition no_patch : Patch :=
  {| pt_status := None; pt_txid := None; pt_broadcastAmbiguous := None; pt_executionSource := None;
     pt_approvedAt := None; pt_broadcastAt := None; pt_resolvedAt := None; pt_blockHeight := None;
     pt_failureReason := None |}.

Definition given {A} (new : option A) (old : A) : A := match new with Some a => a | None => old end.

Definition patched (r : SweepRow) (p : Patch) (now : Z) : SweepRow :=
  {| sr_status := given (pt_status p) (sr_status r); sr_walletPrincipal := sr_walletPrincipal r;
     sr_recipient := sr_recipient r; sr_amountUstx := sr_amountUstx r; sr_feeUstx := sr_feeUstx r;
     sr_nonce := sr_nonce r; sr_balanceUstx := sr_balanceUstx r; sr_planSha256 := sr_planSha256 r;
     sr_plan := sr_plan r; sr_txid := coalesce (pt_txid p) (sr_txid r);
     sr_broadcastAmbiguous := given (pt_broadcastAmbiguous p) (sr_broadcastAmbiguous r);
     sr_executionSource := coalesce (pt_executionSource p) (sr_executionSource r);
     sr_createdAt := sr_createdAt r; sr_expiresAt := sr_expiresAt r;
     sr_approvedAt := coalesce (pt_approvedAt p) (sr_approvedAt r);
     sr_broadcastAt := coalesce (pt_broadcastAt p) (sr_broadcastAt r);
     sr_resolvedAt := coalesce (pt_resolvedAt p) (sr_resolvedAt r);
     sr_blockHeight := coalesce (pt_blockHeight p) (sr_blockHeight r);
     sr_failureReason := given (pt_failureReason p) (sr_failureReason r); sr_updatedAt := now |}.

Definition new_sweep (wallet : string) (plan : SweepPlan) (now : Z) : SweepRow :=
  let m := sp_material plan in
  {| sr_status := sweep_planned; sr_walletPrincipal := wallet; sr_recipient := sm_recipient m;
     sr_amountUstx := sm_amountUstx m; sr_feeUstx := sm_feeUstx m; sr_nonce := sm_nonce m;
     sr_balanceUstx := sm_balanceUstx m; sr_planSha256 := sp_planSha256 plan; sr_plan := plan;
     sr_txid := None; sr_broadcastAmbiguous := false; sr_executionSource := None;
     sr_createdAt := now; sr_expiresAt := sm_expiresAt m; sr_approvedAt := None;
     sr_broadcastAt := None; sr_resolvedAt := None; sr_blockHeight := None;
     sr_failureReason := None; sr_updatedAt := now |}.

Definition released_sweep (id : string) (m : gmap string Lease) : gmap string Lease :=
  filter (fun '(_, l) => ~ (l_kind l = lease_sweep /\ l_id l = id)) m.

(** The row and the lease of a stored sweep. *)
Definition put_sweep (id wallet : string) (plan : SweepPlan) (now : Z) (db : Db) : Db :=
  {| leases := <[wallet := {| l_kind := lease_sweep; l_id := id; l_acquiredAt := now;
                              l_updatedAt := now |}]> (leases db);
     runs := runs db; preparations := preparations db;
     sweeps := <[id := new_sweep wallet plan now]> (sweeps db) |}.

Definition patch_terminal (p : Patch) : bool :=
  match pt_status p with Some s => bool_decide (s ∈ terminalSweepStatuses) | None => false end.

(** [UPDATE gas_wallet_sweeps], which does nothing when there is no row. *)
Definition patch_row (id : string) (p : Patch) (now : Z) (db : Db) : Db :=
  match sweeps db !! id with
  | Some r => set_sweeps (<[id := patched r p now]> (sweeps db)) db
  | None => db
  end.

(** The update, with the lease given back by a final status. *)
Definition patch_sweep (id : string) (p : Patch) (now : Z) (db : Db) : Db :=
  let db' := patch_row id p now db in
  if patch_terminal p then set_leases (released_sweep id (leases db')) db' else db'.

(** ** Operations *)

Section SweepStore.

Context (isUuid : string -> bool).

(** [rowSchema] on the columns a row might not satisfy. *)
Definition sweepRowSchema (id : string) (r : SweepRow) : bool :=
  isUuid id && nonempty (sr_walletPrincipal r) && nonempty (sr_recipient r) &&
  bool_decide (String.length (sr_planSha256 r) = 64%nat) &&
  match sr_txid r with None => true | Some txid => prefixed_hex is_lower_hex 64 txid end.

Definition get_sweep (id : string) : repo (option SweepRow) :=
  o ← gets (fun db => sweeps db !! id);
  match o with
  | None => mret None
  | Some r => _ ← guard_repo (sweepRowSchema id r) schema_error; mret (Some r)
  end.

(** [get] after a write: the row must be there. *)
Definition stored_sweep (id : string) : repo SweepRow :=
  o ← get_sweep id;
  match o with Some r => mret r | None => raise other_error end.

Definition getPlan (id : string) : repo (option SweepPlan) :=
  o ← gets (fun db => sweeps db !! id);
  match o with
  | None => mret None
  | Some r => _ ← guard_repo (gasWalletSweepPlanSchema (sr_plan r)) schema_error;
              mret (Some (sr_plan r))
  end.

Definition insert_sweep (id wallet : string) (plan : SweepPlan) (now : Z) : repo SweepRow :=
  _ ← guard_repo (gasWalletSweepPlanSchema plan) schema_error;
  _ ← transaction (
    busy ← gets (lease_busy wallet lease_sweep id);
    _ ← guard_repo (negb busy) sweep_busy;
    _ ← guard_repo (bool_decide (String.length id = 36%nat) &&
                    bool_decide (String.length (sp_planSha256 plan) = 64%nat)) sql_error;
    existing ← gets (fun db => sweeps db !! id);
    _ ← guard_repo (bool_decide (existing = None)) sweep_busy;
    modify (put_sweep id wallet plan now));
  stored_sweep id.

(** The check on [txid]. *)
Definition patch_ok (p : Patch) : bool :=
  match pt_txid p with None => true | Some txid => bool_decide (String.length txid = 66%nat) end.

Definition update_sweep (id : string) (p : Patch) (now : Z) : repo SweepRow :=
  _ ← transaction (
    o ← gets (fun db => sweeps db !! id);
    _ ← guard_repo (bool_decide (o = None) || patch_ok p) sql_error;
    modify (patch_sweep id p now));
  stored_sweep id.

(** ORDER BY created_at DESC, sweep_id DESC. *)
Definition sweep_order (left right : string * SweepRow) : Z :=
  if sr_createdAt right.2 <? sr_createdAt left.2 then -1
  else if sr_createdAt left.2 <? sr_createdAt right.2 then 1
  else code_unit_compare right.1 left.1.

Definition select_sweeps (where_ : SweepRow -> bool) (db : Db) : list (string * SweepRow) :=
  js_sort sweep_order (List.filter (fun '(_, r) => where_ r) (map_to_list (sweeps db))).

Fixpoint parse_sweeps (l : list (string * SweepRow)) : repo (list (string * SweepRow)) :=
  match l with
  | [] => mret []
  | (id, r) :: rest =>
      _ ← guard_repo (sweepRowSchema id r) schema_error;
      more ← parse_sweeps rest; mret ((id, r) :: more)
  end.

Definition list_sweeps (limit : Z) : repo (list (string * SweepRow)) :=
  rows ← gets (fun db => take (bounded_limit limit) (select_sweeps (fun _ => true) db));
  parse_sweeps rows.

(** The newest sweep that is planned or broadcast; [ORDER BY created_at DESC] leaves ties open. *)
Definition activeSweep : repo (option (string * SweepRow)) :=
  o ← gets (fun db => head (select_sweeps (fun r => bool_decide (active_sweep r)) db));
  match o with
  | None => mret None
  | Some (id, r) => _ ← guard_repo (sweepRowSchema id r) schema_error; mret (Some (id, r))
  end.

End SweepStore.

(** ** What a sweep writes *)

(** The status edges of a sweep.  An approval that waits does not look at the status again
    before it reports a stale plan or a failed signature, so a planned sweep that ended
    meanwhile may still be marked expired or failed. *)
Definition sweep_edges (r : SweepRow) : list SweepStatus :=
  match sr_status r with
  | sweep_planned => [sweep_broadcast; sweep_cancelled; sweep_expired; sweep_failed]
  | sweep_broadcast => [sweep_broadcast; sweep_confirmed; sweep_failed]
  | sweep_confirmed => []
  | sweep_cancelled | sweep_expired | sweep_failed =>
      if decide (sr_txid r = None) then [sweep_expired; sweep_failed] else []
  end.

(** A transaction ID is recorded with the approval, and never changes. *)
Definition txid_kept (r : SweepRow) (p : Patch) : Prop :=
  match pt_txid p with
  | None => pt_status p <> Some sweep_broadcast
  | Some txid => (sr_status r = sweep_planned /\ pt_status p = Some sweep_broadcast) \/
                 sr_txid r = Some txid
  end /\
  (sr_status r = sweep_planned -> pt_status p = Some sweep_broadcast ->
     is_Some (pt_approvedAt p) /\ is_Some (pt_broadcastAt p)).

Inductive SweepLabel :=
  | sl_insert (plan : SweepPlan)
  | sl_move (id : string) (from to : SweepStatus)
  | sl_note (id : string).

Inductive sweep_write (d : Db) : SweepLabel -> Db -> Prop :=
  | sweep_inserted id wallet plan now :
      leases d !! wallet = None ->
      (forall w l, leases d !! w = Some l -> ~ (l_kind l = lease_sweep /\ l_id l = id)) ->
      sweeps d !! id = None -> gasWalletSweepPlanSchema plan = true ->
      sweep_write d (sl_insert plan) (put_sweep id wallet plan now d)
  | sweep_moved id r p to now :
      sweeps d !! id = Some r -> pt_status p = Some to -> to ∈ sweep_edges r -> txid_kept r p ->
      sweep_write d (sl_move id (sr_status r) to) (patch_sweep id p now d)
  | sweep_noted id r p now :
      sweeps d !! id = Some r -> pt_status p = None -> pt_txid p = None ->
      sweep_write d (sl_note id) (patch_sweep id p now d).

(** A sweep never touches a run, a preparation or the lease of a run. *)
Lemma sweep_write_runs d l d' :
  sweep_write d l d' -> runs d' = runs d /\ preparations d' = preparations d /\
  forall w k, l_kind k = lease_reward_run -> leases d' !! w = Some k <-> leases d !! w = Some k.
Proof.
  intros Hw. assert (Hpatch : forall id p now,
    runs (patch_sweep id p now d) = runs d /\ preparations (patch_sweep id p now d) = preparations d /\
    forall w k, l_kind k = lease_reward_run ->
      leases (patch_sweep id p now d) !! w = Some k <-> leases d !! w = Some k).
  { intros id p now. unfold patch_sweep, patch_row.
    destruct (patch_terminal p), (sweeps d !! id); cbn; split_and!; try done; intros w k Hk;
      unfold released_sweep; rewrite map_lookup_filter_Some; intuition congruence. }
  destruct Hw as [id wallet plan now Hn _ _ _|id r p to now _ _ _ _|id r p now _ _ _]; try apply Hpatch.
  cbn. split_and!; try done. intros w k Hk. rewrite lookup_insert_Some. split.
  - intros [[_ <-]|[_ H]]; [done | exact H].
  - intros H. right. split; [intros <-; congruence | done].
Qed.
