(* ===== verification/Cadence.v ===== *)
(** * Pacing of submitted observations

    apps/sidekick/src/submitted-observation-cadence.ts: per observed ID, when the next read is
    due.  A read that has to be retried backs off exponentially within fixed bounds. *)

From S2P Require Import Prelude.

Open Scope Z_scope.

Definition submittedObservationIntervalMs : Z := 30000.
Definition maximumRetryIntervalMs : Z := 5 * 60000.

Record CadenceItem := { nextAt : Z; retryDelayMs : Z }.

Abbreviation Cadence := (gmap string CadenceItem).

Definition isDue (items : Cadence) (id : string) (now : Z) : bool :=
  match items !! id with Some i => nextAt i <=? now | None => 0 <=? now end.

Definition cadence_reset (items : Cadence) (id : string) : Cadence := delete id items.

Definition previous_delay (items : Cadence) (id : string) : Z :=
  match items !! id with Some i => retryDelayMs i | None => 0 end.

(** [retryAfterMs] is [None] when it is absent or not finite. *)
Definition record (items : Cadence) (id : string) (retryLater : bool) (now : Z)
    (retryAfterMs : option Z) : Cadence :=
  let delay :=
    if retryLater
    then Z.min maximumRetryIntervalMs
           (Z.max submittedObservationIntervalMs (previous_delay items id * 2))
    else 0 in
  let sourceDelayMs :=
    match retryAfterMs with Some ms => Z.min maximumRetryIntervalMs ms | None => 0 end in
  <[id := {| nextAt := now + Z.max (Z.max submittedObservationIntervalMs delay) sourceDelayMs;
             retryDelayMs := delay |}]> items.

Definition retain (items : Cadence) (ids : list string) : Cadence :=
  filter (fun '(id, _) => id ∈ ids) items.

(** ** Properties *)

(** The state after [n] consecutive retries recorded at the times [at_]. *)
Fixpoint retries (items : Cadence) (id : string) (times : list Z) : Cadence :=
  match times with
  | [] => items
  | t :: rest => retries (record items id true t None) id rest
  end.

Lemma retries_snoc items id ts t :
  retries items id (ts ++ [t]) = record (retries items id ts) id true t None.
Proof. revert items; induction ts as [|u ts IH]; intros items; cbn; [done|]. apply IH. Qed.

Lemma retries_delay id ts t :
  previous_delay (retries ∅ id (ts ++ [t])) id =
    Z.min maximumRetryIntervalMs (submittedObservationIntervalMs * 2 ^ Z.of_nat (List.length ts)).
Proof.
  unfold maximumRetryIntervalMs, submittedObservationIntervalMs.
  revert t. induction ts as [|u ts IH] using rev_ind; intros t; rewrite retries_snoc.
  - unfold record, previous_delay. rewrite lookup_insert_eq. cbn. by rewrite lookup_empty.
  - unfold previous_delay at 1. unfold record. rewrite lookup_insert_eq. cbn [retryDelayMs].
    rewrite IH, length_app, Nat.add_1_r, Nat2Z.inj_succ, Z.pow_succ_r by lia.
    unfold maximumRetryIntervalMs, submittedObservationIntervalMs.
    pose proof (Z.pow_pos_nonneg 2 (Z.of_nat (List.length ts))). nia.
Qed.

(** Pacing is exponential and bounded: after [n + 1] consecutive retries the delay is
    30 s doubled [n] times and capped at five minutes, so the next read is never due earlier
    than 30 s and never later than five minutes after the last one. *)
Theorem retry_backoff id ts t :
  let items := retries ∅ id (ts ++ [t]) in
  let delay := Z.min maximumRetryIntervalMs
                 (submittedObservationIntervalMs * 2 ^ Z.of_nat (List.length ts)) in
  items !! id = Some {| nextAt := t + delay; retryDelayMs := delay |} /\
  submittedObservationIntervalMs <= delay <= maximumRetryIntervalMs /\
  (forall now, isDue items id now = true <-> t + delay <= now).
Proof.
  cbn. pose proof (retries_delay id ts t) as Hd.
  set (delay := Z.min maximumRetryIntervalMs _) in *.
  assert (Hb : submittedObservationIntervalMs <= delay <= maximumRetryIntervalMs).
  { unfold delay, maximumRetryIntervalMs, submittedObservationIntervalMs.
    pose proof (Z.pow_pos_nonneg 2 (Z.of_nat (List.length ts))). nia. }
  rewrite retries_snoc in *. unfold previous_delay in Hd. unfold record in *.
  rewrite lookup_insert_eq in Hd. cbn [retryDelayMs] in Hd. rewrite Hd.
  assert (Hn : Z.max (Z.max submittedObservationIntervalMs delay) 0 = delay)
    by (unfold submittedObservationIntervalMs in *; lia).
  rewrite Hn. split_and!; [by rewrite lookup_insert_eq | lia | lia |].
  intros now. unfold isDue. rewrite lookup_insert_eq. cbn. apply Z.leb_le.
Qed.
