(* ===== verification/RunService.v ===== *)
(** * The reward-run service

    The [RewardRunService] of apps/sidekick/src/transaction-engine/reward-run-service.ts.  An
    async method is cut at its [await]s: each segment is a [repo] computation that runs without
    interruption, and the values a later segment reads from the earlier ones are the fields of
    a [Phase].  What a segment awaits (chain reads, wallet refusal checks, signing, broadcast)
    comes back as an argument, a value or a throw. *)

From S2P Require Import Prelude Text Principals OperationPlan Recipe RunStore SweepStore Cadence.

Open Scope Z_scope.

(** ** Data *)

(** [RewardRunMaterialization] *)
Inductive Materialization :=
  | mat_plan (plan : Plan) (amountSats : option Z)
  | mat_skip (reason : string) (provenance : Provenance)
  | mat_halt (reason : string).

(** [RewardRunReconciliation] *)
Inductive Reconciliation :=
  | rec_pending (retryLater : bool) (retryAfterMs : option Z)
  | rec_confirmed (blockHeight : Z) (source : option ExecutionSource)
  | rec_externally_completed (reason : string) (source : option ExecutionSource)
  | rec_halt (reason : string) (source : option ExecutionSource) (requiresNodeCorroboration : bool).

(** [SignedRewardOperationTransaction] *)
Record Signed := { sg_precomputedTxid : string; sg_nonce : Z; sg_fee : Z }.

(** What the current segment reads synchronously: the clock, the emergency control and the
    signer's readiness. *)
Record Env := {
  e_now : Z;
  e_allowed : list OperationKind -> bool;
  e_signerReady : bool;
  e_closed : bool;
}.

Record Options := {
  o_maximumFeeUstx : Z;
  o_maximumTransactions : option Z;
  o_approvalStartMinutes : option Z;
  o_maximumRunHours : option Z;
}.

(** What a tick is waiting for, with the locals its continuation uses. *)
Inductive Phase :=
  | idle
  | reconciling (runId : string) (run : Run) (child : Child) (txid : string) (now : Z)
  | materializing (runId : string) (run : Run) (child : Child) (now : Z)
  | checking_wallet (runId : string) (run : Run) (operation : OperationKind) (plan : Plan)
      (plannedFee : Z) (now : Z)
  | signing (runId : string) (run : Run) (operation : OperationKind) (plan : Plan)
      (plannedFee : Z) (now : Z)
  | broadcasting (runId : string) (run : Run) (tx : Signed) (attemptIndex : nat).

Section Service.

Context (isUuid : string -> bool) (sha256 : list Z -> string)
        (localeCompare : string -> string -> Z) (options : Options).

Definition throw {A} (code : RewardRunErrorCode) : repo A := raise (service_error code).
Definition guard (b : bool) (code : RewardRunErrorCode) : repo unit :=
  guard_repo b (service_error code).

Definition assertExecutionAllowed (env : Env) (operations : list OperationKind) : repo unit :=
  guard (e_allowed env operations) reward_run_unavailable.

(** A finished [refusalChecks]: [true] when no refusal reason was found. *)
Definition assertDedicatedWallet (accepted : result RunError bool) : repo unit :=
  match accepted with
  | Ok b => guard b reward_run_refused
  | Err e => raise e
  end.

Definition recipeChildMatches (recipeChild : RecipeChild) (index : nat) (c : Child) : bool :=
  bool_decide (index = rc_index recipeChild) &&
  bool_decide (ch_operation c = rc_operation recipeChild) &&
  bool_decide (ch_accountKey c = rc_accountKey recipeChild) &&
  bool_decide (ch_maximumAmountSats c = rc_maximumAmountSats recipeChild).

Fixpoint recipeChildrenMatch (index : nat) (rcs : list RecipeChild) (cs : list Child) : bool :=
  match rcs, cs with
  | [], [] => true
  | rc :: rcs', c :: cs' => recipeChildMatches rc index c && recipeChildrenMatch (S index) rcs' cs'
  | _, _ => false
  end.

Definition sealedRun (runId : string) (r : Run) : bool :=
  String.eqb (r_runId (ru_recipe r)) runId &&
  String.eqb (r_walletPrincipal (ru_recipe r)) (ru_walletPrincipal r) &&
  String.eqb (rewardRunRecipeSha256 sha256 localeCompare (ru_recipe r)) (ru_recipeSha256 r) &&
  recipeChildrenMatch 0 (r_children (ru_recipe r)) (ru_children r).

Definition assertSealedRun (runId : string) (r : Run) : repo unit :=
  guard (sealedRun runId r) reward_run_invalid.

Definition service_get (runId : string) : repo Run :=
  o ← get runId;
  match o with
  | None => throw reward_run_not_found
  | Some r => _ ← assertSealedRun runId r; mret r
  end.

Fixpoint assert_all (l : list (string * Run)) : repo unit :=
  match l with
  | [] => mret tt
  | (id, r) :: rest => _ ← assertSealedRun id r; assert_all rest
  end.

Definition service_list (limit : Z) : repo (list (string * Run)) :=
  l ← list_runs limit; _ ← assert_all l; mret l.

(** ** Preparation *)

Definition default {A} (d : A) (o : option A) : A := match o with Some a => a | None => d end.

(** [prepare] up to the await of the facts: [inl] is an early return. *)
Definition prepare_start (env : Env) (runId : string) (request : PrepareRequest)
    : repo (option Run) :=
  existing ← get runId;
  match existing with
  | Some r =>
      _ ← assertSealedRun runId r;
      _ ← guard (String.eqb (r_prepareRequestSha256 (ru_recipe r))
                   (rewardRunPrepareRequestSha256 sha256 localeCompare request)) reward_run_conflict;
      mret (Some r)
  | None =>
      _ ← assertExecutionAllowed env (default operationOrder (pr_operations request));
      _ ← guard (e_signerReady env) reward_run_unavailable;
      mret None
  end.

Definition of_result {A} (m : result RewardRunErrorCode A) : repo A :=
  match m with Ok a => mret a | Err e => throw e end.

(** [try { insert } catch]: a raced insert of the same request returns the stored run. *)
Definition insert_or_raced (runId : string) (facts : DraftFacts) (recipe : Recipe)
    (requestSha256 : string) (approvalExpiresAt now : Z) : repo Run :=
  catch
    (insert_run isUuid runId (f_walletPrincipal facts)
       (rewardRunRecipeSha256 sha256 localeCompare recipe) recipe approvalExpiresAt now)
    (fun e =>
       raced ← get runId;
       let failure : repo Run :=
         match e with
         | repository_error authorization_busy => throw reward_run_unavailable
         | _ => throw reward_run_conflict
         end in
       match raced with
       | Some r => if String.eqb (r_prepareRequestSha256 (ru_recipe r)) requestSha256
                   then mret r else failure
       | None => failure
       end).

(** [prepare] after the facts. *)
Definition prepare_finish (env : Env) (runId : string) (request : PrepareRequest)
    (facts : result RunError DraftFacts) : repo Run :=
  match facts with
  | Err e => raise e
  | Ok facts =>
      recipe ← of_result (buildRewardRunRecipe sha256 localeCompare
        {| i_runId := runId; i_facts := facts; i_request := request;
           i_feeCapUstx := o_maximumFeeUstx options;
           i_maximumTransactions := default 200 (o_maximumTransactions options) |});
      _ ← assertExecutionAllowed env (r_orderedOperations recipe);
      insert_or_raced runId facts recipe
        (rewardRunPrepareRequestSha256 sha256 localeCompare request)
        (e_now env + default 30 (o_approvalStartMinutes options) * 60000) (e_now env)
  end.

(** [rewardPreparationFailureCode] *)
Definition rewardPreparationFailureCode (e : RunError) : option PreparationFailureCode :=
  match e with
  | service_error reward_run_no_work => Some no_work
  | chain_read_error true _ => Some temporarily_unavailable
  | service_error reward_run_unavailable => Some temporarily_unavailable
  | _ => None
  end.

Definition enqueuePreparation (env : Env) (preparationId : string) (request : PrepareRequest)
    : repo (string * Preparation) :=
  _ ← assertExecutionAllowed env (default operationOrder (pr_operations request));
  _ ← guard (e_signerReady env) reward_run_unavailable;
  let normalized := {| pr_requestId := Some preparationId; pr_cycle := pr_cycle request;
                       pr_distribution := pr_distribution request;
                       pr_operations := pr_operations request;
                       pr_maxTransactions := pr_maxTransactions request |} in
  createPreparation isUuid preparationId
    (rewardRunPrepareRequestSha256 sha256 localeCompare normalized) normalized (e_now env).

(** The end of [#prepareInBackground], given how [prepare] ended. *)
Definition prepareInBackground_finish (env : Env) (aborted : bool) (preparationId message : string)
    (run_id : result RunError string) : repo unit :=
  match run_id with
  | Ok id => _ ← completePreparation preparationId id (e_now env); mret tt
  | Err e =>
      if aborted then mret tt
      else _ ← failPreparation preparationId message (e_now env) (rewardPreparationFailureCode e);
           mret tt
  end.

(** ** Operator actions *)

Definition expire (from : list RunStatus) (now : Z) (reason : string) : Transition :=
  {| t_from := from; t_to := expired; t_now := now; t_approvedAt := None; t_startedAt := None;
     t_runtimeExpiresAt := None; t_completedAt := Some now; t_failureReason := Some reason |}.

Definition approval_elapsed : string := "Approval start window elapsed".
Definition runtime_elapsed : string := "Maximum run time elapsed".

(** [approve] up to the wallet check: [Some run] is an early return. *)
Definition approve_start (env : Env) (runId recipeSha256 : string) : repo (option Run) :=
  run ← service_get runId;
  _ ← guard (String.eqb (ru_recipeSha256 run) recipeSha256) reward_run_invalid;
  if negb (bool_decide (ru_status run = awaiting_approval)) then
    if bool_decide (ru_status run = expired) then throw reward_run_expired else mret (Some run)
  else
    _ ← assertExecutionAllowed env (r_orderedOperations (ru_recipe run));
    if ru_approvalExpiresAt run <=? e_now env then
      _ ← transition runId (expire [awaiting_approval] (e_now env) approval_elapsed);
      throw reward_run_expired
    else mret None.

(** After the wallet check; [now] is the time [approve] was called at. *)
Definition approve_finish (now : Z) (accepted : result RunError bool) (runId recipeSha256 : string)
    : repo Run :=
  _ ← assertDedicatedWallet accepted;
  catch
    (transition runId
       {| t_from := [awaiting_approval]; t_to := approved; t_now := now;
          t_approvedAt := Some now; t_startedAt := None; t_runtimeExpiresAt := None;
          t_completedAt := None; t_failureReason := None |})
    (fun _ =>
       raced ← service_get runId;
       if bool_decide (ru_status raced = expired) then throw reward_run_expired
       else if String.eqb (ru_recipeSha256 raced) recipeSha256 &&
               negb (bool_decide (ru_status raced = awaiting_approval))
            then mret raced else throw reward_run_conflict).

Definition pause (env : Env) (runId : string) : repo Run :=
  run ← service_get runId;
  _ ← guard (negb (0 <? inFlight run)%nat) reward_run_conflict;
  transition runId (plain [running] paused (e_now env)).

Definition child_of_run (r : Run) : option Child := ru_children r !! ru_cursor r.

Definition elapsed (deadline : option Z) (now : Z) : bool :=
  match deadline with Some t => t <=? now | None => false end.

Definition resume (env : Env) (runId : string) : repo Run :=
  run ← service_get runId;
  _ ← assertExecutionAllowed env (r_orderedOperations (ru_recipe run));
  if elapsed (ru_runtimeExpiresAt run) (e_now env) then
    _ ← transition runId (expire [paused; halted] (e_now env) runtime_elapsed);
    throw reward_run_expired
  else
    _ ← (if bool_decide (ru_status run = halted) &&
            bool_decide (ch_status <$> child_of_run run = Some child_halted)
         then resetRejectedChild runId (ru_cursor run) (e_now env) else mret tt);
    transition runId (plain [paused; halted] running (e_now env)).

Definition cancel (env : Env) (runId : string) : repo Run :=
  run ← service_get runId;
  _ ← guard (negb (0 <? inFlight run)%nat) reward_run_conflict;
  transition runId
    {| t_from := [awaiting_approval; approved; paused; halted]; t_to := cancelled;
       t_now := e_now env; t_approvedAt := None; t_startedAt := None;
       t_runtimeExpiresAt := None; t_completedAt := Some (e_now env); t_failureReason := None |}.

(** ** Recovery *)

(** The expiries of one run in [#recover], before and after its tick. *)
Definition recover_expire_stopped (env : Env) (runId : string) (run : Run) : repo bool :=
  if bool_decide (ru_status run ∈ [paused; halted]) && elapsed (ru_runtimeExpiresAt run) (e_now env)
  then _ ← transition runId (expire [ru_status run] (e_now env) runtime_elapsed); mret true
  else mret false.

Definition recover_expire_approval (env : Env) (runId : string) (run : Run) : repo unit :=
  if bool_decide (ru_status run = awaiting_approval) && (ru_approvalExpiresAt run <=? e_now env)
  then _ ← transition runId (expire [awaiting_approval] (e_now env) approval_elapsed); mret tt
  else mret tt.

(** The IDs whose observation pacing [#recover] keeps. *)
Definition observed_txids (l : list (string * Run)) : list string :=
  omap (fun '(_, r) =>
    match child_of_run r with
    | Some c => if bool_decide (ru_status r = running) && bool_decide (ch_status c = broadcast)
                then ch_txid c else None
    | None => None
    end) l.

(** ** The tick *)

Definition halt (env : Env) (runId : string) (reason : string) : repo unit :=
  _ ← transition runId
        {| t_from := [running]; t_to := halted; t_now := e_now env; t_approvedAt := None;
           t_startedAt := None; t_runtimeExpiresAt := None; t_completedAt := None;
           t_failureReason := Some reason |};
  mret tt.

Definition expireRunningRun (runId : string) (run : Run) (now : Z) : repo bool :=
  if elapsed (ru_runtimeExpiresAt run) now
  then _ ← transition runId (expire [running] now runtime_elapsed); mret true
  else mret false.

Definition update (from : list ChildStatus) (to : ChildStatus) (now : Z) (txid : option string)
    (provenance : option Provenance) (source : option ExecutionSource) (reason : option string)
    : ChildUpdate :=
  {| u_from := from; u_to := to; u_now := now; u_txid := txid; u_provenance := provenance;
     u_executionSource := source; u_failureReason := reason |}.

(** [#assertPlan] *)
Definition planCommonOk (runId : string) (run : Run) (index : nat) (c : Child) (m : Material)
    : result RunError bool :=
  match BigInt (m_feeUstx m) with
  | None => Err other_error
  | Some fee => Ok (
      String.eqb (OperationPlan.runId (m_authorization m)) runId &&
      String.eqb (OperationPlan.recipeSha256 (m_authorization m)) (ru_recipeSha256 run) &&
      bool_decide (material_kind (body m) = ch_operation c) &&
      bool_decide (Some (m_adapterId m) = rc_adapterId <$> r_children (ru_recipe run) !! index) &&
      bool_decide (Some (m_adapterRevision m) =
                   rc_adapterRevision <$> r_children (ru_recipe run) !! index) &&
      bool_decide (netKind (m_network m) = r_network (ru_recipe run)) &&
      (chainId (m_network m) =? r_chainId (ru_recipe run)) &&
      String.eqb (sender_principal (m_sender m)) (ru_walletPrincipal run) &&
      bool_decide (m_managerSourceFingerprint m = Some (r_managerSourceFingerprint (ru_recipe run))) &&
      negb (stacksBlockHeight (m_chainAnchor m) <?
            stacksBlockHeight (r_preparedAnchor (ru_recipe run))) &&
      negb (burnBlockHeight (m_chainAnchor m) <?
            burnBlockHeight (r_preparedAnchor (ru_recipe run))) &&
      negb (r_feeCapUstx (ru_recipe run) <? fee))
  end.

Definition amountShapeOk (recipeChild : RecipeChild) (amount : option Z) : bool :=
  bool_decide (is_Some (rc_maximumAmountSats recipeChild) <-> is_Some amount) &&
  negb (exceeds amount (rc_maximumAmountSats recipeChild)).

Definition amount_is (text : string) (amount : option Z) : bool :=
  bool_decide (Some text = bigint_toString <$> amount).

Definition planBodyOk (run : Run) (recipeChild : RecipeChild) (b : MaterialBody) (amount : option Z)
    : bool :=
  let r := ru_recipe run in
  let cycle := bigint_toString (r_cycle r) in
  match b with
  | m_calculate m =>
      String.eqb (ca_pox5Contract m) (r_pox5Contract r) &&
      String.eqb (ca_targetRewardCycle m) cycle &&
      bool_decide (ca_targetCheckpoint m = if r_distribution r =? 1 then first_half else second_half)
  | m_collect m e =>
      String.eqb (co_managerContract m) (r_managerPrincipal r) &&
      String.eqb (co_pox5Contract m) (r_pox5Contract r) &&
      String.eqb (co_sbtcTokenContract m) (r_sbtcTokenContract r) &&
      String.eqb (co_rewardCycle m) cycle && amount_is (amountSats e) amount
  | m_staker m _ =>
      match List.find (fun a => bool_decide (Some (ab_accountKey a) = rc_accountKey recipeChild))
              (r_accounts r) with
      | None => false
      | Some account =>
          String.eqb (st_managerContract m) (r_managerPrincipal r) &&
          String.eqb (st_sbtcTokenContract m) (r_sbtcTokenContract r) &&
          bool_decide (rc_stakerPrincipal recipeChild = Some (st_stakerPrincipal m)) &&
          bool_decide (rc_accountKey recipeChild = Some
            (st_stakerPrincipal m ++ ":" ++ st_rewardCycle m ++ ":" ++
             match st_bondIndex m with Some i => i | None => "stx" end)%string) &&
          String.eqb (st_rewardCycle m) (bigint_toString (ab_rewardCycle account)) &&
          bool_decide (st_bondIndex m = ab_bondIndex account) &&
          bool_decide (st_payoutRoute m = ab_payoutRoute account) &&
          amount_is (st_grossSats m) amount
      end
  | m_settle m =>
      String.eqb (se_managerContract m) (r_managerPrincipal r) &&
      bool_decide (bigint_toString <$> rc_requestId recipeChild = Some (se_requestId m)) &&
      bool_decide (rc_stakerPrincipal recipeChild = Some (se_stakerPrincipal m))
  | m_reclaim m _ =>
      String.eqb (re_managerContract m) (r_managerPrincipal r) &&
      String.eqb (re_sbtcTokenContract m) (r_sbtcTokenContract r) &&
      bool_decide (bigint_toString <$> rc_requestId recipeChild = Some (re_requestId m)) &&
      bool_decide (rc_stakerPrincipal recipeChild = Some (re_stakerPrincipal m)) &&
      bool_decide (bigint_toString <$> rc_withdrawalAmountSats recipeChild =
                   Some (re_withdrawalAmountSats m)) &&
      bool_decide (bigint_toString <$> rc_maxFeeSats recipeChild = Some (re_maxFeeSats m)) &&
      match BigInt (re_withdrawalAmountSats m), BigInt (re_maxFeeSats m) with
      | Some w, Some f => bool_decide (amount = Some (w + f))
      | _, _ => false
      end
  end.

Definition assertPlan (runId : string) (run : Run) (index : nat) (c : Child) (plan : Plan)
    (amount : option Z) : repo unit :=
  match planCommonOk runId run index c (material plan) with
  | Err e => raise e
  | Ok ok =>
      _ ← guard ok reward_run_invalid;
      match r_children (ru_recipe run) !! index with
      | None => throw reward_run_invalid
      | Some recipeChild =>
          _ ← guard (amountShapeOk recipeChild amount) reward_run_invalid;
          guard (planBodyOk run recipeChild (body (material plan)) amount) reward_run_invalid
      end
  end.

(** [#tick] up to its first await. *)
Definition tick_start (env : Env) (due : string -> Z -> bool) (runId : string) : repo Phase :=
  run0 ← service_get runId;
  let now := e_now env in
  run ← (if bool_decide (ru_status run0 = approved)
         then transition runId
           {| t_from := [approved]; t_to := running; t_now := now; t_approvedAt := None;
              t_startedAt := Some now;
              t_runtimeExpiresAt := Some (now + default 6 (o_maximumRunHours options) * (60 * 60000));
              t_completedAt := None; t_failureReason := None |}
         else mret run0);
  if negb (bool_decide (ru_status run = running)) then mret idle
  else
    expired ← expireRunningRun runId run now;
    if expired : bool then mret idle
    else
      match child_of_run run with
      | None =>
          _ ← transition runId
                {| t_from := [running]; t_to := completed; t_now := now; t_approvedAt := None;
                   t_startedAt := None; t_runtimeExpiresAt := None; t_completedAt := Some now;
                   t_failureReason := None |};
          mret idle
      | Some c =>
          let index := ru_cursor run in
          match ch_status c, ch_txid c with
          | materialized, _ =>
              l ← attempts runId index;
              match last l with
              | Some attempt =>
                  _ ← updateChild runId index
                        (update [materialized] broadcast now (Some (at_precomputedTxid attempt))
                           (Some you) None
                           (Some "Submission may have started before Sidekick restarted"%string));
                  _ ← halt env runId
                        "Sidekick restarted after signing began; resume to reconcile the saved transaction ID";
                  mret idle
              | None => _ ← resetUnattemptedMaterializedChild runId index now; mret idle
              end
          | broadcast, Some txid =>
              plan ← childPlan runId index;
              match plan with
              | None => _ ← halt env runId "Broadcast child is missing its sealed plan"; mret idle
              | Some _ => if negb (due txid now) then mret idle
                          else mret (reconciling runId run c txid now)
              end
          | (confirmed | externally_completed | skipped), _ =>
              _ ← advanceCursor runId index (ru_gasSpentUstx run) now; mret idle
          | _, _ =>
              _ ← assertExecutionAllowed env [ch_operation c];
              mret (materializing runId run c now)
          end
      end.

(** A confirmed or externally completed child: its attempt, its paid fee and the cursor. *)
Definition settleChild (runId : string) (run : Run) (now : Z) (status : ChildStatus)
    (provenance : Provenance) (source : option ExecutionSource) : repo Phase :=
  let index := ru_cursor run in
  _ ← updateChild runId index (update [broadcast] status now None (Some provenance) source None);
  l ← attempts runId index;
  _ ← (match last l with
       | Some _ => if bool_decide (status = confirmed)
                   then updateAttempt runId index (pred (List.length l)) attempt_confirmed None now
                   else mret tt
       | None => mret tt
       end);
  let paidFee := match last l with Some a => at_feeUstx a | None => 0 end in
  _ ← advanceCursor runId index (ru_gasSpentUstx run + paidFee) now;
  mret idle.

(** After [driver.reconcile]. *)
Definition tick_reconciled (env : Env) (runId : string) (run : Run) (c : Child) (now : Z)
    (outcome : result RunError Reconciliation) : repo Phase :=
  let index := ru_cursor run in
  match outcome with
  | Err e => raise e
  | Ok (rec_pending _ _) => mret idle
  | Ok (rec_halt reason source corroborate) =>
      _ ← (if bool_decide (source <> None) || corroborate
           then _ ← updateChild runId index
                  (update [broadcast] broadcast now None (ch_provenance c) source
                     (if corroborate then Some reason else ch_failureReason c));
                mret tt
           else mret tt);
      _ ← halt env runId reason; mret idle
  | Ok (rec_confirmed _ source) => settleChild runId run now confirmed you source
  | Ok (rec_externally_completed _ source) => settleChild runId run now externally_completed another_caller source
  end.

(** After [driver.materialize]. *)
Definition tick_materialized (env : Env) (runId : string) (run : Run) (c : Child) (now : Z)
    (outcome : result RunError Materialization) : repo Phase :=
  let index := ru_cursor run in
  match outcome with
  | Err e => raise e
  | Ok (mat_skip reason provenance) =>
      _ ← updateChild runId index (update [pending] skipped now None (Some provenance) None (Some reason));
      _ ← advanceCursor runId index (ru_gasSpentUstx run) now;
      mret idle
  | Ok (mat_halt reason) => _ ← halt env runId reason; mret idle
  | Ok (mat_plan plan amount) =>
      _ ← assertPlan runId run index c plan amount;
      match BigInt (m_feeUstx (material plan)) with
      | None => raise other_error
      | Some plannedFee =>
          if r_gasBudgetUstx (ru_recipe run) <? ru_gasSpentUstx run + plannedFee
          then _ ← halt env runId "The approved gas budget would be exceeded"; mret idle
          else
            stored ← materializeChild runId index plan amount now;
            _ ← assertExecutionAllowed env [ch_operation stored];
            mret (checking_wallet runId run (ch_operation stored) plan plannedFee now)
      end
  end.

(** After the refusal checks: the last guards before the signature. *)
Definition tick_wallet_checked (env : Env) (runId : string) (run : Run) (operation : OperationKind)
    (plan : Plan) (plannedFee now : Z) (accepted : result RunError bool) : repo Phase :=
  _ ← assertDedicatedWallet accepted;
  beforeSign ← service_get runId;
  if e_closed env || negb (bool_decide (ru_status beforeSign = running)) then mret idle
  else
    expired ← expireRunningRun runId beforeSign (e_now env);
    if expired : bool then mret idle
    else
      _ ← assertExecutionAllowed env [operation];
      mret (signing runId run operation plan plannedFee now).

(** The position of the first attempt with a transaction ID. *)
Fixpoint find_attempt (txid : string) (l : list Attempt) : option (nat * Attempt) :=
  match l with
  | [] => None
  | a :: rest =>
      if String.eqb (at_precomputedTxid a) txid then Some (0%nat, a)
      else match find_attempt txid rest with
           | Some (i, b) => Some (S i, b)
           | None => None
           end
  end.

(** [#reuseRejectedAttempt] *)
Definition reuseRejectedAttempt (runId : string) (index attemptIndex : nat) (a : Attempt) (now : Z)
    : repo nat :=
  _ ← guard (bool_decide (at_state a = rejected)) reward_run_conflict;
  _ ← updateAttempt runId index attemptIndex signed None now;
  mret attemptIndex.

(** After the signature: the attempt is stored before the broadcast starts. *)
Definition tick_signed (runId : string) (run : Run) (plannedFee now : Z)
    (outcome : result RunError Signed) : repo Phase :=
  let index := ru_cursor run in
  match outcome with
  | Err e => raise e
  | Ok tx =>
      _ ← guard (sg_fee tx =? plannedFee) reward_run_invalid;
      l ← attempts runId index;
      attemptIndex ←
        match find_attempt (sg_precomputedTxid tx) l with
        | Some (i, previous) => reuseRejectedAttempt runId index i previous now
        | None => insertAttempt runId index (sg_precomputedTxid tx) (sg_nonce tx)
                    (sg_fee tx) signed now
        end;
      mret (broadcasting runId run tx attemptIndex)
  end.

Definition rejection_reason (nodeMessage : option string) : string :=
  default "The node rejected the transaction"%string nodeMessage.

(** After [driver.broadcast]. *)
Definition tick_broadcast (env : Env) (runId : string) (run : Run) (tx : Signed)
    (attemptIndex : nat) (outcome : result RunError BroadcastResult) : repo Phase :=
  let index := ru_cursor run in
  let at_ := e_now env in
  let submitted (state : AttemptState) (res : BroadcastResult) (txid : string) : repo Child :=
    _ ← updateAttempt runId index attemptIndex state (Some res) at_;
    updateChild runId index
      (update [materialized] broadcast at_ (Some txid) (Some you) None None) in
  match outcome with
  | Err e => raise e
  | Ok (b_rejected txid nodeMessage) =>
      _ ← updateAttempt runId index attemptIndex rejected (Some (b_rejected txid nodeMessage)) at_;
      _ ← updateChild runId index
            (update [materialized] child_halted at_
               (Some (default (sg_precomputedTxid tx) txid)) None None
               (Some (rejection_reason nodeMessage)));
      _ ← halt env runId (rejection_reason nodeMessage);
      mret idle
  | Ok (b_accepted txid) =>
      _ ← submitted accepted (b_accepted txid) txid; mret idle
  | Ok (b_ambiguous txid) =>
      _ ← submitted ambiguous (b_ambiguous txid) txid;
      _ ← service_get runId;
      _ ← halt env runId "Broadcast outcome is ambiguous"; mret idle
  end.

(** The [catch] of [#guardedTick]: [Some tt] leaves the run waiting for upstream recovery. *)
Definition retryable (e : RunError) : bool :=
  match e with chain_read_error true _ => true | _ => false end.

Definition guardedTick_catch (env : Env) (runId reason : string) (e : RunError) : repo bool :=
  current ← get runId;
  match current with
  | None => mret false
  | Some r =>
      l ← attempts runId (ru_cursor r);
      let submissionMayHaveStarted :=
        bool_decide (ch_status <$> child_of_run r = Some materialized) && negb (bool_decide (l = [])) in
      if bool_decide (ru_status r = running) && negb submissionMayHaveStarted && retryable e
      then mret true
      else
        _ ← (if bool_decide (ru_status r = running) then halt env runId reason else mret tt);
        mret false
  end.

End Service.

(** ** The process

    The service's memory and its database.  The tick queue ([#queue]) runs one tick at a time;
    which run's tick comes next is left open, so the steps cover every schedule of the timer,
    [approve] and [resume].  Operator actions run between the segments of a tick.  A stop may
    come after any commit of a segment: the memory is lost, the commits before it stay. *)

Record Pending := { a_runId : string; a_recipeSha256 : string; a_now : Z }.

Record Svc := {
  db : Db;
  phase : Phase;
  cadence : Cadence;
  approvals : list Pending;
}.

Definition init (d : Db) : Svc := {| db := d; phase := idle; cadence := ∅; approvals := [] |}.

Section Process.

Context (isUuid : string -> bool) (sha256 : list Z -> string)
        (localeCompare : string -> string -> Z) (options : Options).

(** A tick segment that ended: its phase, or the [catch] of [#guardedTick] and the end of the
    tick. *)
Definition segment (env : Env) (runId reason : string) (m : repo Phase) : repo Phase :=
  catch m (fun e => _ ← guardedTick_catch env runId reason e; mret idle).

(** The segment a waiting tick continues with, given what it waited for. *)
Inductive Outcome :=
  | out_reconcile (o : result RunError Reconciliation)
  | out_materialize (o : result RunError Materialization)
  | out_wallet (o : result RunError bool)
  | out_sign (o : result RunError Signed)
  | out_broadcast (o : result RunError BroadcastResult).

Definition resumed (env : Env) (p : Phase) (o : Outcome) : option (string * repo Phase) :=
  match p, o with
  | reconciling id run c _ now, out_reconcile o => Some (id, tick_reconciled env id run c now o)
  | materializing id run c now, out_materialize o => Some (id, tick_materialized env id run c now o)
  | checking_wallet id run op plan fee now, out_wallet o =>
      Some (id, tick_wallet_checked sha256 localeCompare env id run op plan fee now o)
  | signing id run op plan fee now, out_sign o => Some (id, tick_signed id run fee now o)
  | broadcasting id run s i, out_broadcast o =>
      Some (id, tick_broadcast sha256 localeCompare env id run s i o)
  | _, _ => None
  end.

(** The pacing record written in the [finally] of the reconciliation. *)
Definition cadence_after (env : Env) (p : Phase) (o : Outcome) (c : Cadence) : Cadence :=
  match p, o with
  | reconciling _ _ _ txid _, out_reconcile o =>
      let '(later, ms) := match o with
                          | Ok (rec_pending later ms) => (later, ms)
                          | Ok _ => (false, None)
                          | Err (chain_read_error _ ms) => (true, ms)
                          | Err _ => (true, None)
                          end in
      record c txid later (e_now env) ms
  | _, _ => c
  end.

(** One operator action, as a repository computation.  Of [prepare] only the part after the
    facts writes; [prepare_start] decides whether it is reached. *)
Inductive Action :=
  | act_prepare (runId : string) (request : PrepareRequest) (facts : DraftFacts)
  | act_approve (runId recipeSha256 : string)
  | act_pause (runId : string)
  | act_resume (runId : string)
  | act_cancel (runId : string)
  | act_expire (runId : string).

Definition perform (env : Env) (a : Action) : repo unit :=
  match a with
  | act_prepare id q f =>
      _ ← prepare_finish isUuid sha256 localeCompare options env id q (Ok f); mret tt
  | act_approve id sha => _ ← approve_start sha256 localeCompare env id sha; mret tt
  | act_pause id => _ ← pause sha256 localeCompare env id; mret tt
  | act_resume id => _ ← resume sha256 localeCompare env id; mret tt
  | act_cancel id => _ ← cancel sha256 localeCompare env id; mret tt
  | act_expire id =>
      run ← require_run id;
      stopped ← recover_expire_stopped env id run;
      if stopped : bool then mret tt else recover_expire_approval env id run
  end.

(** An approval waits for its wallet check exactly when [approve_start] returned [None]. *)
Definition approvals_after (env : Env) (a : Action) (d : Db) (l : list Pending) : list Pending :=
  match a with
  | act_approve id sha =>
      match fst (approve_start sha256 localeCompare env id sha d) with
      | Ok None => {| a_runId := id; a_recipeSha256 := sha; a_now := e_now env |} :: l
      | _ => l
      end
  | _ => l
  end.

(** The phase a finished segment leaves. *)
Definition phase_of (r : result RunError Phase) : Phase :=
  match r with Ok p => p | Err _ => idle end.

(** The steps of the run service and its process. *)
Inductive run_step : Svc -> Svc -> Prop :=
  | step_start env runId reason s :
      phase s = idle ->
      let out := segment env runId reason (tick_start sha256 localeCompare options env
                                             (isDue (cadence s)) runId) (db s) in
      run_step s {| db := after (db s) (snd out); phase := phase_of (fst out);
                cadence := cadence s; approvals := approvals s |}
  | step_continue env o reason id m s :
      resumed env (phase s) o = Some (id, m) ->
      let out := segment env id reason m (db s) in
      run_step s {| db := after (db s) (snd out); phase := phase_of (fst out);
                cadence := cadence_after env (phase s) o (cadence s); approvals := approvals s |}
  | step_action env a s :
      let out := perform env a (db s) in
      run_step s {| db := after (db s) (snd out); phase := phase s; cadence := cadence s;
                approvals := approvals_after env a (db s) (approvals s) |}
  | step_approve_checked a rest accepted s :
      Permutation (approvals s) (a :: rest) ->
      let out := approve_finish sha256 localeCompare (a_now a) accepted (a_runId a)
                   (a_recipeSha256 a) (db s) in
      run_step s {| db := after (db s) (snd out); phase := phase s; cadence := cadence s;
                approvals := rest |}
  | step_cadence c s :
      run_step s {| db := db s; phase := phase s; cadence := c; approvals := approvals s |}
  | step_preparations m s :
      run_step s {| db := set_preparations m (db s); phase := phase s; cadence := cadence s;
                approvals := approvals s |}
  | step_restart s : run_step s (init (db s))
  | step_crash_start env runId reason d s :
      phase s = idle ->
      d ∈ snd (segment env runId reason (tick_start sha256 localeCompare options env
                                           (isDue (cadence s)) runId) (db s)) ->
      run_step s (init d)
  | step_crash_continue env o reason id m d s :
      resumed env (phase s) o = Some (id, m) ->
      d ∈ snd (segment env id reason m (db s)) ->
      run_step s (init d)
  | step_crash_action env a d s :
      d ∈ snd (perform env a (db s)) ->
      run_step s (init d)
  | step_crash_approve a rest accepted d s :
      Permutation (approvals s) (a :: rest) ->
      d ∈ snd (approve_finish sha256 localeCompare (a_now a) accepted (a_runId a)
                 (a_recipeSha256 a) (db s)) ->
      run_step s (init d).

(** The sweeps of the same wallets write to the same database. *)
Inductive step : Svc -> Svc -> Prop :=
  | step_run s s' : run_step s s' -> step s s'
  | step_sweep l d' s :
      sweep_write (db s) l d' ->
      step s {| db := d'; phase := phase s; cadence := cadence s; approvals := approvals s |}.

Definition reachable (s : Svc) : Prop := rtc step (init empty_db) s.

End Process.
