(* ===== verification/LiveDriver.v ===== *)
(** * The live driver of a reward run

    apps/sidekick/src/transaction-engine/live-reward-run.ts, [LiveRewardRunDriver]: every plan is
    rebuilt from reads of the chain at one fresh anchor, immediately before it is signed, and a
    submitted transaction is reconciled with what the chain says of it.  The answers a call of
    the driver reads once are a record; the node answers each call at its tip. *)

From S2P Require Import Prelude Text ChainAnchor Clarity Principals OperationPlan TransactionJob NakamotoBlock AnchorCapture RewardReads SweepPlan Broadcast LiveReader Recipe Receipt RunStore RunService.

Open Scope Z_scope.

Definition SBTC_WITHDRAWAL_DUST_LIMIT : Z := 546.

(** [WithdrawalRegistryStatus] *)
Inductive RegistryStatus := registry_pending | registry_accepted | registry_rejected | registry_unknown.

#[global] Instance RegistryStatus_eq_dec : EqDecision RegistryStatus.
Proof. solve_decision. Defined.

Definition registryText (s : RegistryStatus) : string :=
  match s with
  | registry_pending => "pending" | registry_accepted => "accepted"
  | registry_rejected => "rejected" | registry_unknown => "unknown"
  end.

(** What [materialize] reads once. *)
Record MaterializeReads := {
  dr_context : result ReadError unit;
  dr_preparation : NodeBlockReads;
  dr_wallet : option Sender;
  dr_anchor : nat -> NodeReads;
  dr_account : result JsError Response;
  dr_policy : Fee.TransactionFeePolicy;
  dr_firstRewardCycleId : result ReadError (option Z);
  dr_fee : result JsError Response;
  dr_laterPolicy : Fee.TransactionFeePolicy;
}.

(** The operation-specific part of [materialize]: a plan input and amount, or the outcome. *)
Inductive Prepared :=
  | to_plan (b : InputBody) (amountSats : option Z)
  | skip_with (reason : string) (provenance : Provenance)
  | halt_with (reason : string).

Definition run_error (t : Thrown) : RunError :=
  match t with
  | thrown e => chain_read_error (isRetryableChainReadError e) (match e with RateLimitedError ms => ms | _ => None end)
  | pox5_calculate_rewards_error _ => other_error
  end.

Definition checkpointDistribution (c : Anchor.Checkpoint) : Z :=
  match c with Anchor.first_half => 1 | Anchor.second_half => 2 end.

Definition planCheckpoint (c : Anchor.Checkpoint) : Checkpoint :=
  match c with Anchor.first_half => first_half | Anchor.second_half => second_half end.

Definition haltWith (reason : string) : result Thrown Prepared := Ok (halt_with reason).

Section Driver.

Context (validateStacksAddress : string -> bool)
        (compressPublicKey : string -> option string)
        (getAddressFromPublicKey : string -> Network -> option string)
        (isUuid : string -> bool)
        (makeUnsignedContractCall : UnsignedCall -> option string)
        (deserializeTransaction : string -> bool)
        (sha256 : list Z -> string)
        (localeCompare : string -> string -> Z)
        (parse : string -> option Wire) (decodeUtf8 : list Z -> option string)
        (deserialize : string -> option ReadBack)
        (readTransaction : list Z -> option (BlockTx * nat))
        (lib : ClarityLibrary) (node : Node) (settle : string -> list Thrown -> Thrown)
        (withdrawalRequestStatus : string -> Z -> string -> result ReadError RegistryStatus).

#[local] Abbreviation planRewardOperation := (planRewardOperation validateStacksAddress compressPublicKey
  getAddressFromPublicKey isUuid makeUnsignedContractCall deserializeTransaction sha256 localeCompare).
#[local] Abbreviation revalidate := (revalidateRewardOperationPlan validateStacksAddress
  compressPublicKey getAddressFromPublicKey isUuid makeUnsignedContractCall
  deserializeTransaction sha256 localeCompare).

(** ** The operations *)

(** [case "calculate-rewards"]; the [catch] takes only [already-computed]. *)
Definition prepareCalculate (recipe : Recipe) (wallet : string) (anchor : Anchor.ChainAnchor)
    (firstRewardCycleId : result ReadError (option Z)) : result Thrown Prepared :=
  match (first ← of_read firstRewardCycleId;
         readPox5CalculateRewardsObservation lib node settle (r_pox5Contract recipe) wallet anchor first)
  with
  | Err (pox5_calculate_rewards_error already_computed) =>
      Ok (skip_with "Another caller completed the calculation" another_caller)
  | Err e => Err e
  | Ok calculation =>
      if negb (cr_targetRewardCycle calculation =? r_cycle recipe) ||
         negb (checkpointDistribution (cr_targetCheckpoint calculation) =? r_distribution recipe)
      then haltWith "The reward-calculation target changed"
      else Ok (to_plan (in_calculate
             {| ca_pox5Contract := r_pox5Contract recipe;
                ca_bondPeriods := Rewards.cb_bondIndex <$> cr_activeBonds calculation;
                ca_targetRewardCycle := cr_targetRewardCycle calculation;
                ca_targetCheckpoint := planCheckpoint (cr_targetCheckpoint calculation);
                ca_expectedLastRewardComputeBurnHeight :=
                  cr_expectedLastRewardComputeBurnHeight calculation |}) None)
  end.

Definition prepareCollect (recipe : Recipe) (anchor : Anchor.ChainAnchor) : result Thrown Prepared :=
  claim ← managerCollectAtAnchor lib node settle (r_pox5Contract recipe) (r_managerPrincipal recipe)
            (r_cycle recipe) anchor;
  if mc_totalSats claim =? 0
  then Ok (skip_with "Manager rewards are already collected or no longer claimable" another_caller)
  else Ok (to_plan (in_collect
         {| co_managerContract := r_managerPrincipal recipe; co_pox5Contract := r_pox5Contract recipe;
            co_sbtcTokenContract := r_sbtcTokenContract recipe; co_rewardCycle := r_cycle recipe;
            co_bondPeriods := mc_bondPeriods claim |} (mc_totalSats claim)) (Some (mc_totalSats claim))).

(** The key of the manager's fee map. *)
Definition feeKey (rewardCycle : Z) (bondIndex : option Z) : decoder string :=
  cycle ← Codecs.library (cl_uintCV lib rewardCycle);
  bond ← Codecs.encodeOptionalBondIndex (cl_uintCV lib) bondIndex;
  Ok (cl_cvToHex lib (CTuple [("reward-cycle", cycle); ("bond-index", bond)])).

(** The four reads of a payment, decoded. *)
Record PaymentFacts := {
  pf_earned : Codecs.EarnedStakerRewards;
  pf_feeBips : option Z;
  pf_unclaimed : Z;
  pf_payout : option Codecs.PoxAddressPreference;
}.

Definition accountArgs (staker : string) (rewardCycle : Z) (bondIndex : option Z) : list (decoder string) :=
  [encodePrincipalHex lib staker; encodeUIntHex lib rewardCycle; encodeOptionalUIntHex lib bondIndex].

Definition paymentOf (account : AccountBound) (bondIndex : option Z) (facts : PaymentFacts)
    (recipe : Recipe) : Prepared :=
  let net := Codecs.earned (pf_earned facts) in
  let gross := net + Codecs.fees (pf_earned facts) in
  let payoutRoute := match pf_payout facts with Some _ => bitcoin_l1 | None => direct_sbtc end in
  if bool_decide (pf_feeBips facts = None) || (pf_unclaimed facts <? gross)
  then halt_with "The manager fee is not locked for this reward account"
  else if ab_maximumGrossSats account <? gross
  then halt_with "Current entitlement exceeds the approved recipe bound"
  else if negb (bool_decide (payoutRoute = ab_payoutRoute account))
  then halt_with "The approved staker payout route changed"
  else if match pf_payout facts with
          | Some p => (net <? Codecs.maxFee p) || (net - Codecs.maxFee p <=? SBTC_WITHDRAWAL_DUST_LIMIT)
          | None => false
          end
  then skip_with "Bitcoin payout is below its configured fee budget" policy_exception
  else to_plan (in_staker
         {| st_managerContract := r_managerPrincipal recipe;
            st_sbtcTokenContract := r_sbtcTokenContract recipe;
            st_stakerPrincipal := ab_stakerPrincipal account; st_rewardCycle := ab_rewardCycle account;
            st_bondIndex := bondIndex; st_payoutRoute := payoutRoute; st_grossSats := gross;
            st_feeSats := Codecs.fees (pf_earned facts) |} net) (Some gross).

(** [accountBound.bondIndex === null ? null : BigInt(accountBound.bondIndex)] *)
Definition bondIndexOf (account : AccountBound) : result Thrown (option Z) :=
  match ab_bondIndex account with
  | None => Ok None
  | Some t => match BigInt t with Some n => Ok (Some n) | None => Err (thrown OtherError) end
  end.

Definition accountOf (recipe : Recipe) (key : option string) : option AccountBound :=
  List.find (fun a => bool_decide (Some (ab_accountKey a) = key)) (r_accounts recipe).

Definition preparePayment (recipe : Recipe) (recipeChild : RecipeChild) (wallet : string)
    (anchor : Anchor.ChainAnchor) : result Thrown Prepared :=
  let tip := Anchor.indexBlockHash anchor in
  let manager := r_managerPrincipal recipe in
  if negb (match rc_stakerPrincipal recipeChild with Some s => nonempty s | None => false end) ||
     bool_decide (rc_accountKey recipeChild = None)
  then haltWith "Payment recipe identity is missing"
  else
    match accountOf recipe (rc_accountKey recipeChild) with
    | None => haltWith "Payment account is not in the recipe"
    | Some account =>
        bondIndex ← bondIndexOf account;
        let args := accountArgs (ab_stakerPrincipal account) (ab_rewardCycle account) bondIndex in
        _ ← of_other (mapM_res (fun a => a) args);
        key ← of_other (feeKey (ab_rewardCycle account) bondIndex);
        values ← Promise_all settle "payment"
          [call node manager "get-earned-staker-rewards" wallet args tip;
           call node manager "get-pox-addr" wallet [encodePrincipalHex lib (ab_stakerPrincipal account)] tip;
           of_read (getMapEntry node manager "fee-bips-for-cycle" key tip);
           call node manager "get-unclaimed-staker-rewards" wallet [] tip];
        match values with
        | [earnedValue; payoutValue; feeValue; unclaimedValue] =>
            earned ← of_other (Codecs.decodeEarnedStakerRewards earnedValue "get-earned-staker-rewards");
            if Codecs.earned earned =? 0
            then Ok (skip_with "Another caller paid this reward account" another_caller)
            else
              feeBips ← of_other (Codecs.decodeOptionalUInt feeValue "fee-bips-for-cycle");
              unclaimed ← of_other (Codecs.decodeUInt unclaimedValue "get-unclaimed-staker-rewards");
              payout ← of_other (Codecs.decodePoxAddressPreference payoutValue "get-pox-addr");
              Ok (paymentOf account bondIndex
                    {| pf_earned := earned; pf_feeBips := feeBips; pf_unclaimed := unclaimed;
                       pf_payout := payout |} recipe)
        | _ => Err (thrown OtherError)
        end
    end.

(** The registry state an operation needs. *)
Definition neededState (operation : OperationKind) : RegistryStatus :=
  match operation with op_settle_accepted_withdrawal => registry_accepted | _ => registry_rejected end.

Definition prepareWithdrawal (operation : OperationKind) (recipe : Recipe) (recipeChild : RecipeChild)
    (wallet : string) (anchor : Anchor.ChainAnchor) : result Thrown Prepared :=
  let tip := Anchor.indexBlockHash anchor in
  match rc_requestId recipeChild, rc_stakerPrincipal recipeChild with
  | Some requestId, Some staker =>
      if negb (nonempty staker) then haltWith "Withdrawal recipe identity is missing"
      else
        v ← call node (r_managerPrincipal recipe) "get-withdrawal-request-staker" wallet
              [encodeUIntHex lib requestId] tip;
        mappedStaker ← of_other (Codecs.decodeOptionalPrincipal v "get-withdrawal-request-staker");
        match mappedStaker with
        | None =>
            Ok (skip_with "Another caller already finished this Bitcoin withdrawal" another_caller)
        | Some mapped =>
            if negb (String.eqb mapped staker) then haltWith "Withdrawal recipient changed"
            else
              state ← of_read (withdrawalRequestStatus (r_sbtcRegistryContract recipe) requestId tip);
              if negb (bool_decide (state = neededState operation))
              then haltWith ("Withdrawal registry state is " ++ registryText state)
              else
                Ok (to_plan
                  (if bool_decide (operation = op_settle_accepted_withdrawal)
                   then in_settle {| se_managerContract := r_managerPrincipal recipe;
                                     se_requestId := requestId; se_stakerPrincipal := staker |}
                   else in_reclaim {| re_managerContract := r_managerPrincipal recipe;
                                      re_sbtcTokenContract := r_sbtcTokenContract recipe;
                                      re_requestId := requestId; re_stakerPrincipal := staker;
                                      re_withdrawalAmountSats :=
                                        default 0 (rc_withdrawalAmountSats recipeChild);
                                      re_maxFeeSats := default 0 (rc_maxFeeSats recipeChild) |})
                  (rc_maximumAmountSats recipeChild))
        end
  | _, _ => haltWith "Withdrawal recipe identity is missing"
  end.

Definition prepareOperation (reads : MaterializeReads) (operation : OperationKind) (recipe : Recipe)
    (recipeChild : RecipeChild) (wallet : string) (anchor : Anchor.ChainAnchor)
    : result Thrown Prepared :=
  match operation with
  | op_calculate_rewards => prepareCalculate recipe wallet anchor (dr_firstRewardCycleId reads)
  | op_claim_rewards => prepareCollect recipe anchor
  | op_claim_staker_rewards => preparePayment recipe recipeChild wallet anchor
  | op_settle_accepted_withdrawal | op_reclaim_failed_withdrawal =>
      prepareWithdrawal operation recipe recipeChild wallet anchor
  end.

(** ** The account, the fee and the plan *)

(** Which account answers are outages rather than refusals. *)
Definition accountOutage (httpStatus : option Z) (reason : UnavailableReason) : bool :=
  match reason with response_read_error => true | _ => false end ||
  match httpStatus with
  | None => true
  | Some status => (status =? 408) || (status =? 429) || (500 <=? status)
  end.

Definition anchoredAccount (reads : MaterializeReads) (wallet : Sender) (anchor : Anchor.ChainAnchor)
    : result Thrown (LiveRead AnchoredAccount) :=
  of_other (readAnchoredAccount parse decodeUtf8 validateStacksAddress defaultMaxResponseBytes
              (sender_principal wallet) (Anchor.indexBlockHash anchor) (dr_account reads)).

Definition commonInput (runId : string) (run : Run) (wallet : Sender) (anchor : Anchor.ChainAnchor)
    (nonce fee : Z) : CommonInput :=
  let recipe := ru_recipe run in
  {| authorization := {| OperationPlan.runId := runId;
                         OperationPlan.recipeSha256 := ru_recipeSha256 run |};
     network := {| netKind := r_network recipe; chainId := r_chainId recipe |};
     chainAnchor := {| stacksBlockHeight := Anchor.stacksBlockHeight anchor;
                       burnBlockHeight := Anchor.burnBlockHeight anchor;
                       indexBlockHash := Anchor.indexBlockHash anchor |};
     sender := wallet; managerSourceFingerprint := Some (r_managerSourceFingerprint recipe);
     nonce := nonce; feeUstx := fee |}.

(** [estimateUnsignedTransactionFee] in its [try]. *)
Definition feeEstimate (reads : MaterializeReads) (draft : Plan) : option Fee.FeeObservation :=
  match estimateUnsignedTransactionFee parse decodeUtf8 deserialize defaultMaxResponseBytes
          (unsignedTransactionHex draft) (dr_fee reads) with
  | Ok o => Some (fee_observation o)
  | Err _ => None
  end.

Definition sealPlan (reads : MaterializeReads) (input : Z -> CommonInput) (balance : Z)
    (b : InputBody) (amount : option Z) : result Thrown Materialization :=
  draft ← of_other (planRewardOperation
            {| common := input (Fee.maximumFeeUstx (dr_policy reads)); input_body := b |});
  let fee := Fee.feeUstx (Fee.selectTransactionFee (feeEstimate reads draft) (dr_laterPolicy reads)) in
  if balance <? fee then Ok (mat_halt "The gas wallet does not cover the next transaction fee")
  else
    plan ← (if fee =? Fee.maximumFeeUstx (dr_laterPolicy reads) then Ok draft
            else of_other (planRewardOperation {| common := input fee; input_body := b |}));
    Ok (mat_plan plan amount).

(** [materialize]; [index] is [child.index]. *)
Definition materialize (reads : MaterializeReads) (runId : string) (run : Run) (index : nat)
    (operation : OperationKind) : result Thrown Materialization :=
  let recipe := ru_recipe run in
  _ ← of_read (dr_context reads);
  canonical ← of_read (checkCanonicalNodeBlock (dr_preparation reads)
                         (stacksBlockHeight (r_preparedAnchor recipe)));
  if negb (canonical : bool)
  then Ok (mat_halt "The reward run preparation anchor became noncanonical")
  else
    match dr_wallet reads with
    | None => Ok (mat_halt "The loaded gas wallet identity changed")
    | Some wallet =>
        if negb (String.eqb (sender_principal wallet) (ru_walletPrincipal run))
        then Ok (mat_halt "The loaded gas wallet identity changed")
        else
          anchor ← of_read (captureNodeChainAnchor (dr_anchor reads));
          account ← anchoredAccount reads wallet anchor;
          match account with
          | lr_unavailable httpStatus reason =>
              if accountOutage httpStatus reason then Err (thrown UpstreamUnavailableError)
              else Ok (mat_halt "The gas wallet account read is unavailable")
          | lr_schema_invalid _ _ => Ok (mat_halt "The gas wallet account read is schema-invalid")
          | lr_not_found => Ok (mat_halt "The gas wallet account read is not-found")
          | lr_observed _ value =>
              match r_children recipe !! index with
              | None => Ok (mat_halt "Recipe child is missing")
              | Some recipeChild =>
                  prepared ← prepareOperation reads operation recipe recipeChild
                               (sender_principal wallet) anchor;
                  match prepared with
                  | skip_with reason provenance => Ok (mat_skip reason provenance)
                  | halt_with reason => Ok (mat_halt reason)
                  | to_plan b amount =>
                      sealPlan reads (commonInput runId run wallet anchor (aa_nonce value))
                        (aa_balanceUstx value) b amount
                  end
              end
          end
    end.

(** What the service sees of a call of the driver. *)
Definition answered {A} (r : result Thrown A) : result RunError A :=
  match r with Ok a => Ok a | Err e => Err (run_error e) end.

(** ** Reconciliation *)

(** The attempt and the child prove that this program signed the transaction. *)
Definition hasLocalSigningBinding (runId : string) (run : Run) (c : Child) (plan : Plan) (txid : string)
    (attempt : option Attempt) : bool :=
  match attempt with
  | None => false
  | Some a =>
      if bool_decide (at_state a = rejected) || negb (String.eqb (at_precomputedTxid a) txid) ||
         match ch_failureReason c with Some r => nonempty r | None => false end
      then false
      else
        match revalidate plan with
        | Err _ => false
        | Ok p =>
            let m := material p in
            bool_decide (Some (planSha256 p) = planSha256 <$> ch_plan c) &&
            bool_decide (ch_txid c = Some txid) &&
            bool_decide (material_kind (body m) = ch_operation c) &&
            String.eqb (OperationPlan.runId (m_authorization m)) runId &&
            String.eqb (OperationPlan.recipeSha256 (m_authorization m)) (ru_recipeSha256 run) &&
            String.eqb (sender_principal (m_sender m)) (ru_walletPrincipal run) &&
            (chainId (m_network m) =? r_chainId (ru_recipe run)) &&
            String.eqb (m_nonce m) (bigint_toString (at_nonce a)) &&
            String.eqb (m_feeUstx m) (bigint_toString (at_feeUstx a))
        end
  end.

(** What [reconcile] reads once. *)
Record ReconcileReads := {
  rc_context : result ReadError unit;
  rc_indexed : IndexedLookup;
  rc_receipt : ReceiptReads;
  rc_desiredContext : result ReadError unit;
  rc_desiredAnchor : nat -> NodeReads;
  rc_firstRewardCycleId : result ReadError (option Z);
}.

(** The [switch] of [#desiredState]. *)
Definition desiredOperation (firstRewardCycleId : result ReadError (option Z)) (operation : OperationKind)
    (recipe : Recipe) (recipeChild : RecipeChild) (wallet : string) (anchor : Anchor.ChainAnchor)
    : result Thrown bool :=
  let tip := Anchor.indexBlockHash anchor in
  match operation with
  | op_calculate_rewards =>
      match (first ← of_read firstRewardCycleId;
             readPox5CalculateRewardsObservation lib node settle (r_pox5Contract recipe) wallet
               anchor first) with
      | Ok _ => Ok false
      | Err e => Ok (match e with pox5_calculate_rewards_error already_computed => true | _ => false end)
      end
  | op_claim_rewards =>
      claim ← managerCollectAtAnchor lib node settle (r_pox5Contract recipe)
                (r_managerPrincipal recipe) (r_cycle recipe) anchor;
      Ok (mc_totalSats claim =? 0)
  | op_claim_staker_rewards =>
      match accountOf recipe (rc_accountKey recipeChild) with
      | None => Ok false
      | Some account =>
          bondIndex ← bondIndexOf account;
          v ← call node (r_managerPrincipal recipe) "get-earned-staker-rewards" wallet
                (accountArgs (ab_stakerPrincipal account) (ab_rewardCycle account) bondIndex) tip;
          settled ← of_other (Codecs.decodeEarnedStakerRewards v "get-earned-staker-rewards");
          Ok (Codecs.earned settled =? 0)
      end
  | op_settle_accepted_withdrawal | op_reclaim_failed_withdrawal =>
      v ← call node (r_managerPrincipal recipe) "get-withdrawal-request-staker" wallet
            [encodeUIntHex lib (default 0 (rc_requestId recipeChild))] tip;
      mapped ← of_other (Codecs.decodeOptionalPrincipal v "get-withdrawal-request-staker");
      Ok (bool_decide (mapped = None))
  end.

(** [#desiredState]: the effect of the child is on the chain. *)
Definition desiredState (reads : ReconcileReads) (run : Run) (index : nat) (operation : OperationKind)
    : result Thrown bool :=
  _ ← of_read (rc_desiredContext reads);
  anchor ← of_read (captureNodeChainAnchor (rc_desiredAnchor reads));
  match r_children (ru_recipe run) !! index with
  | None => Ok false
  | Some recipeChild =>
      desiredOperation (rc_firstRewardCycleId reads) operation (ru_recipe run) recipeChild
        (ru_walletPrincipal run) anchor
  end.

Definition resultMatches (plan : Plan) (resultRepr : string) : bool :=
  match body (material plan) with
  | m_calculate m => calculationResultMatchesTarget resultRepr (ca_targetRewardCycle m)
                       (ca_expectedLastRewardComputeBurnHeight m)
  | _ => true
  end.

(** The lookup of the submitted transaction, with the binding as the proof that it is ours. *)
Definition submittedOutcome (reads : ReconcileReads) (runId : string) (run : Run) (c : Child)
    (plan : Plan) (txid : string) (attempt : option Attempt) : SubmittedTransactionOutcome :=
  readSubmittedTransactionOutcome readTransaction (rc_indexed reads) (rc_receipt reads)
    (r_chainId (ru_recipe run)) txid (hasLocalSigningBinding runId run c plan txid attempt).

Definition reconcile (reads : ReconcileReads) (runId : string) (run : Run) (index : nat) (c : Child)
    (plan : Plan) (txid : string) (attempt : option Attempt) : result Thrown Reconciliation :=
  _ ← of_read (rc_context reads);
  Ok (match submittedOutcome reads runId run c plan txid attempt with
      | sub_conflict reason => rec_halt reason None true
      | sub_pending retryLater retryAfterMs => rec_pending retryLater retryAfterMs
      | sub_confirmed true resultRepr blockHeight source =>
          if resultMatches plan resultRepr then rec_confirmed blockHeight (Some source)
          else rec_halt "Confirmed reward calculation does not match the sealed cycle and checkpoint"
                 (Some source) false
      | sub_confirmed false resultRepr _ source =>
          if match desiredState reads run index (ch_operation c) with Ok b => b | Err _ => false end
          then rec_externally_completed "Another caller completed the same operation" (Some source)
          else rec_halt ("Transaction aborted: " ++ resultRepr) (Some source) false
      end).

(** * What a plan of the driver rests on *)

(** ** Inversion *)

#[local] Abbreviation materialize_of := materialize.

(** What [materialize] has established when it prepares the operation. *)
Record groundwork (reads : MaterializeReads) (run : Run) (index : nat) (wallet : Sender)
    (anchor : Anchor.ChainAnchor) (account : AnchoredAccount) (rc : RecipeChild) : Prop := {
  gw_canonical : checkCanonicalNodeBlock (dr_preparation reads)
    (stacksBlockHeight (r_preparedAnchor (ru_recipe run))) = Ok true;
  gw_wallet : dr_wallet reads = Some wallet /\ sender_principal wallet = ru_walletPrincipal run;
  gw_anchor : captureNodeChainAnchor (dr_anchor reads) = Ok anchor;
  gw_account : exists status, anchoredAccount reads wallet anchor = Ok (lr_observed status account);
  gw_child : r_children (ru_recipe run) !! index = Some rc;
}.

(** Every outcome but a halt, and every error of the operation, comes after the groundwork. *)
Lemma materialize_inv reads runId run index operation m :
  materialize reads runId run index operation = Ok m ->
  (exists reason, m = mat_halt reason) \/
  exists wallet anchor account rc prepared,
    groundwork reads run index wallet anchor account rc /\
    prepareOperation reads operation (ru_recipe run) rc (sender_principal wallet) anchor = Ok prepared /\
    match prepared with
    | skip_with reason provenance => m = mat_skip reason provenance
    | halt_with reason => m = mat_halt reason
    | to_plan b amount =>
        sealPlan reads (commonInput runId run wallet anchor (aa_nonce account))
          (aa_balanceUstx account) b amount = Ok m
    end.
Proof.
  unfold materialize. intros H. apply bind_Ok in H as (? & _ & H). apply bind_Ok in H as (canonical & Hc & H).
  destruct canonical; cbn [negb] in H; [|injection H as <-; left; by eexists].
  destruct (dr_wallet reads) as [wallet|] eqn:Hw; [|injection H as <-; left; by eexists].
  destruct (String.eqb_spec (sender_principal wallet) (ru_walletPrincipal run)) as [Hp|];
    cbn [negb] in H; [|injection H as <-; left; by eexists].
  apply bind_Ok in H as (anchor & Ha & H). apply bind_Ok in H as (read & Hr & H).
  destruct read as [status value|s reason|s reason|].
  2: { destruct (accountOutage s reason); [done|]. injection H as <-. left; by eexists. }
  2, 3: injection H as <-; left; by eexists.
  destruct (r_children (ru_recipe run) !! index) as [rc|] eqn:Hrc; [|injection H as <-; left; by eexists].
  apply bind_Ok in H as (prepared & Hprep & H). right.
  exists wallet, anchor, value, rc, prepared. rewrite of_read_Ok in Hc. rewrite of_read_Ok in Ha.
  split_and!; [by split; eauto | done |]. destruct prepared; [done | by injection H | by injection H].
Qed.

Lemma sealPlan_plan reads input balance b amount m :
  sealPlan reads input balance b amount = Ok m ->
  m = mat_halt "The gas wallet does not cover the next transaction fee" \/
  exists draft plan, m = mat_plan plan amount /\
    planRewardOperation {| common := input (Fee.maximumFeeUstx (dr_policy reads)); input_body := b |} = Ok draft /\
    let fee := Fee.feeUstx (Fee.selectTransactionFee (feeEstimate reads draft) (dr_laterPolicy reads)) in
    fee <= balance /\
    planRewardOperation {| common := input (if fee =? Fee.maximumFeeUstx (dr_laterPolicy reads)
                                            then Fee.maximumFeeUstx (dr_policy reads) else fee);
                           input_body := b |} = Ok plan.
Proof.
  unfold sealPlan. intros H. apply bind_Ok in H as (draft & Hd & H). rewrite of_other_Ok in Hd.
  destruct (Z.ltb_spec balance
    (Fee.feeUstx (Fee.selectTransactionFee (feeEstimate reads draft) (dr_laterPolicy reads)))) as [|Hb];
    [injection H as <-; by left|].
  apply bind_Ok in H as (plan & Hp & H). injection H as <-. right. exists draft, plan.
  split; [done|]. split; [done|]. cbn zeta. split; [done|].
  destruct (_ =? _); [congruence | by rewrite of_other_Ok in Hp].
Qed.

(** A plan the driver returns is fresh: the preparation anchor is still canonical, the signer
    is the loaded wallet of the run, the anchor was captured now, the nonce is the one the node
    reports for the wallet at that very anchor, and the fee is the one selected in the live band
    from the node's estimate of these bytes, which the wallet's balance at the anchor covers. *)
Theorem plan_is_fresh reads runId run index operation plan amount :
  materialize reads runId run index operation = Ok (mat_plan plan amount) ->
  Fee.maximumFeeUstx (dr_policy reads) = Fee.maximumFeeUstx (dr_laterPolicy reads) ->
  exists wallet anchor account rc draft,
    groundwork reads run index wallet anchor account rc /\
    unsignedTransactionHex draft <> ""%string /\
    let fee := Fee.feeUstx (Fee.selectTransactionFee (feeEstimate reads draft) (dr_laterPolicy reads)) in
    fee <= aa_balanceUstx account /\ fee <= Fee.maximumFeeUstx (dr_laterPolicy reads) /\
    m_sender (material plan) = wallet /\
    m_chainAnchor (material plan) =
      {| stacksBlockHeight := Anchor.stacksBlockHeight anchor;
         burnBlockHeight := Anchor.burnBlockHeight anchor;
         indexBlockHash := Anchor.indexBlockHash anchor |} /\
    m_nonce (material plan) = bigint_toString (aa_nonce account) /\
    m_feeUstx (material plan) = bigint_toString fee /\
    m_authorization (material plan) =
      {| OperationPlan.runId := runId; OperationPlan.recipeSha256 := ru_recipeSha256 run |}.
Proof.
  intros H Hcap. apply materialize_inv in H as [[reason ?]|(wallet & anchor & account & rc & prepared & Hg & _ & H)];
    [done|].
  destruct prepared as [b amt|? ?|?]; [|done|done].
  apply sealPlan_plan in H as [?|(draft & plan' & [= <- <-] & Hd & Hle & Hp)]; [done|].
    exists wallet, anchor, account, rc, draft. split; [done|].
  destruct (plan_inv _ _ _ _ _ _ _ _ _ _ Hd) as (? & ? & _ & _ & _ & _ & _ & _ & _ & _ & Hs).
  split. { unfold rewardOperationPlanSchema in Hs. intros He. rewrite He in Hs. cbn in Hs.
           by rewrite andb_false_r in Hs. }
  cbn zeta. split; [done|].
  set (fee := Fee.feeUstx _) in *.
  assert (Hmax : fee <= Fee.maximumFeeUstx (dr_laterPolicy reads)).
  { unfold fee. rewrite Fee.selectTransactionFee_clamp. unfold Fee.floorOf, Fee.ceilingOf.
    destruct (feeEstimate reads draft) as [[estimate|]|]; try lia. destruct (estimate <=? 0); lia. }
  assert (Hfee : (if fee =? Fee.maximumFeeUstx (dr_laterPolicy reads)
                  then Fee.maximumFeeUstx (dr_policy reads) else fee) = fee)
    by (destruct (Z.eqb_spec fee (Fee.maximumFeeUstx (dr_laterPolicy reads))); lia).
  rewrite Hfee in Hp.
  destruct (plan_inv _ _ _ _ _ _ _ _ _ _ Hp) as (call & parts & _ & _ & _ & _ & _ & _ & -> & _).
  by split_and!.
Qed.

(** ** Planning and recognising a finished operation agree *)

(** What the outcome of the operation says of its effect. *)
Definition effect_seen (p : Prepared) : option bool :=
  match p with
  | to_plan _ _ => Some false
  | skip_with _ another_caller => Some true
  | skip_with _ _ => Some false
  | halt_with _ => None
  end.

Lemma prepared_payment_seen recipe rc wallet anchor first p seen :
  preparePayment recipe rc wallet anchor = Ok p -> effect_seen p = Some seen ->
  desiredOperation first op_claim_staker_rewards recipe rc wallet anchor = Ok seen.
Proof.
  unfold preparePayment. intros H Hs.
  destruct (_ || _); [by injection H as <-|]. cbn [desiredOperation].
  destruct (accountOf recipe _) as [account|]; [|by injection H as <-].
  apply bind_Ok in H as (bondIndex & -> & H). cbn [mbind result_bind].
  apply bind_Ok in H as (? & _ & H). apply bind_Ok in H as (key & _ & H).
  apply bind_Ok in H as (values & Hv & H). apply Promise_all_Ok in Hv.
  inversion Hv as [|? ev ? l1 He Hv1]; subst. inversion Hv1 as [|? pv ? l2 _ Hv2]; subst.
  inversion Hv2 as [|? fv ? l3 _ Hv3]; subst. inversion Hv3 as [|? uv ? l4 _ Hv4]; subst.
  inversion Hv4; subst. rewrite He. cbn [mbind result_bind].
  apply bind_Ok in H as (earned & -> & H). cbn [mbind result_bind].
  destruct (Codecs.earned earned =? 0); [injection H as <-; by injection Hs as <-|].
  apply bind_Ok in H as (feeBips & _ & H). apply bind_Ok in H as (unclaimed & _ & H).
  apply bind_Ok in H as (payout & _ & H). injection H as <-. revert Hs. unfold paymentOf.
  repeat (match goal with |- context [if ?b then _ else _] => destruct b end; try done);
    cbn; congruence.
Qed.

Lemma prepared_withdrawal_seen operation recipe rc wallet anchor first p seen :
  operation = op_settle_accepted_withdrawal \/ operation = op_reclaim_failed_withdrawal ->
  prepareWithdrawal operation recipe rc wallet anchor = Ok p -> effect_seen p = Some seen ->
  desiredOperation first operation recipe rc wallet anchor = Ok seen.
Proof.
  unfold prepareWithdrawal. intros Hop H Hs.
  destruct (rc_requestId rc) as [requestId|] eqn:Hid; [|by injection H as <-].
  destruct (rc_stakerPrincipal rc) as [staker|]; [|by injection H as <-].
  destruct (negb (nonempty staker)); [by injection H as <-|].
  apply bind_Ok in H as (v & Hv & H). apply bind_Ok in H as (mapped & Hm & H).
  assert (Hd : desiredOperation first operation recipe rc wallet anchor =
               Ok (bool_decide (mapped = None))).
  { destruct Hop as [-> | ->]; cbn [desiredOperation]; rewrite Hid; cbn [default from_option id];
      rewrite Hv; cbn [mbind result_bind]; by rewrite Hm. }
  rewrite Hd. destruct mapped as [mapped|]; [|injection H as <-; by injection Hs as <-].
  destruct (negb _); [by injection H as <-|]. apply bind_Ok in H as (state & _ & H).
  destruct (negb _); injection H as <-; [done|]. by injection Hs as <-.
Qed.

Lemma prepared_seen reads operation recipe rc wallet anchor p seen :
  prepareOperation reads operation recipe rc wallet anchor = Ok p -> effect_seen p = Some seen ->
  desiredOperation (dr_firstRewardCycleId reads) operation recipe rc wallet anchor = Ok seen.
Proof.
  destruct operation; cbn [prepareOperation]; intros H Hs.
  - unfold prepareCalculate in H. cbn [desiredOperation].
    destruct (first ← of_read (dr_firstRewardCycleId reads); _) as [calculation|[[]|e]]; try done.
    + destruct (_ || _); injection H as <-; [done | by injection Hs as <-].
    + injection H as <-. by injection Hs as <-.
  - unfold prepareCollect in H. cbn [desiredOperation]. apply bind_Ok in H as (claim & -> & H).
    cbn [mbind result_bind]. destruct (_ =? 0); injection H as <-; by injection Hs as <-.
  - by eapply prepared_payment_seen.
  - eapply prepared_withdrawal_seen; eauto.
  - eapply prepared_withdrawal_seen; eauto.
Qed.

(** Signing and giving up agree with recognition: at the same anchor, an operation is planned
    only when [#desiredState] would say its effect is missing, and skipped as another caller's
    only when it would say the effect is there; a skip by policy leaves the effect missing. *)
Theorem plan_iff_effect_missing reads rec runId run index operation m :
  materialize reads runId run index operation = Ok m ->
  rc_desiredContext rec = Ok tt -> rc_desiredAnchor rec = dr_anchor reads ->
  rc_firstRewardCycleId rec = dr_firstRewardCycleId reads ->
  match m with
  | mat_plan _ _ => desiredState rec run index operation = Ok false
  | mat_skip _ another_caller => desiredState rec run index operation = Ok true
  | mat_skip _ _ => desiredState rec run index operation = Ok false
  | mat_halt _ => True
  end.
Proof.
  intros H Hc Ha Hf.
  apply materialize_inv in H as [[reason ->]|(wallet & anchor & account & rc & p & G & Hp & H)]; [done|].
  assert (Hd : forall seen, effect_seen p = Some seen -> desiredState rec run index operation = Ok seen).
  { intros seen Hs. pose proof (prepared_seen _ _ _ _ _ _ _ _ Hp Hs) as Hd.
    destruct G as [_ [_ Hw] Han _ Hrc]. unfold desiredState.
    by rewrite Hc, Ha, Han, Hrc, Hf, <- Hw. }
  destruct p as [b amount|reason provenance|reason]; [|subst m; by destruct provenance; apply Hd | by subst m].
  apply sealPlan_plan in H as [->|(draft & plan & -> & _)]; [done|]. by apply Hd.
Qed.

(** ** The service accepts the driver's plans *)

(** The bucket of a reward account in its key. *)
Definition bondText (bondIndex : option string) : string :=
  match bondIndex with Some i => i | None => "stx" end.

(** What the recipe builder ensures of a recipe over coherent facts. *)
Record recipe_coherent (r : Recipe) : Prop := {
  rk_adapter : forall rc, rc ∈ r_children r -> rc_adapterId rc = adapter_of (rc_operation rc) /\
    rc_adapterRevision rc = REWARD_OPERATION_ADAPTER_REVISIONS (rc_adapterId rc);
  rk_account : forall a, a ∈ r_accounts r ->
    ab_accountKey a = (ab_stakerPrincipal a ++ ":" ++ bigint_toString (ab_rewardCycle a) ++ ":" ++
                       bondText (ab_bondIndex a))%string /\
    forall t, ab_bondIndex a = Some t -> exists n, t = bigint_toString n;
  rk_payment : forall rc a, rc ∈ r_children r -> a ∈ r_accounts r ->
    rc_operation rc = op_claim_staker_rewards -> rc_accountKey rc = Some (ab_accountKey a) ->
    rc_stakerPrincipal rc = Some (ab_stakerPrincipal a) /\
    rc_maximumAmountSats rc = Some (ab_maximumGrossSats a);
  rk_amount : forall rc, rc ∈ r_children r ->
    match rc_operation rc with
    | op_calculate_rewards | op_settle_accepted_withdrawal => rc_maximumAmountSats rc = None
    | op_claim_rewards | op_claim_staker_rewards => is_Some (rc_maximumAmountSats rc)
    | op_reclaim_failed_withdrawal => exists w f, rc_withdrawalAmountSats rc = Some w /\
        rc_maxFeeSats rc = Some f /\ rc_maximumAmountSats rc = Some (w + f)
    end;
}.

(** A body that passes the service's check of its child, and an amount of the right shape. *)
Definition body_accepted (run : Run) (rc : RecipeChild) (operation : OperationKind) (b : InputBody)
    (amount : option Z) : Prop :=
  forall c, contractCall b = Ok c ->
    material_kind (call_material c) = operation /\ adapter b = adapter_of operation /\
    planBodyOk run rc (call_material c) amount = true /\
    (is_Some (rc_maximumAmountSats rc) <-> is_Some amount) /\
    (operation <> op_claim_rewards -> exceeds amount (rc_maximumAmountSats rc) = false).

Lemma bind_require_call {E A} (b : bool) (e : E) (x y : A) :
  (_ ← require b e; Ok x) = Ok y -> x = y.
Proof. destruct b; cbn; congruence. Qed.

Lemma calculate_accepted run rc wallet anchor first b amount :
  prepareCalculate (ru_recipe run) wallet anchor first = Ok (to_plan b amount) ->
  rc_maximumAmountSats rc = None ->
  body_accepted run rc op_calculate_rewards b amount.
Proof.
  unfold prepareCalculate. intros H Hmax.
  destruct (first ← of_read first; _) as [c|[[]|e]]; try done.
  destruct (Z.eqb_spec (cr_targetRewardCycle c) (r_cycle (ru_recipe run))) as [Hcy|]; [|done].
  destruct (Z.eqb_spec (checkpointDistribution (cr_targetCheckpoint c))
              (r_distribution (ru_recipe run))) as [Hdi|]; [|done].
  cbn [negb orb] in H. injection H as <- <-. intros k [= <-]. cbn. rewrite Hmax, Hcy.
  split_and!; try done.
  rewrite !andb_true_iff, !String.eqb_eq, bool_decide_eq_true. split_and!; try done.
  rewrite <- Hdi. by destruct (cr_targetCheckpoint c).
Qed.

Lemma collect_accepted run rc anchor b amount :
  prepareCollect (ru_recipe run) anchor = Ok (to_plan b amount) -> is_Some (rc_maximumAmountSats rc) ->
  body_accepted run rc op_claim_rewards b amount.
Proof.
  unfold prepareCollect. intros H Hmax. apply bind_Ok in H as (claim & _ & H).
  destruct (mc_totalSats claim =? 0); [done|]. injection H as <- <-.
  intros k Hk. cbn [contractCall] in Hk. apply bind_require_call in Hk as <-. cbn.
  split_and!; try done.
  unfold amount_is. cbn. by rewrite !String.eqb_refl, bool_decide_true.
Qed.

Lemma find_account recipe key a : accountOf recipe key = Some a ->
  a ∈ r_accounts recipe /\ Some (ab_accountKey a) = key.
Proof.
  unfold accountOf. intros [Hin Hk]%List.find_some. apply bool_decide_eq_true in Hk.
  split; [by apply list_elem_of_In | done].
Qed.

(** The facts of a payment are what the manager contract says at the tip. *)
Record payment_read (manager wallet tip : string) (account : AccountBound) (bondIndex : option Z)
    (facts : PaymentFacts) : Prop := {
  pr_earned : exists v, call node manager "get-earned-staker-rewards" wallet
    (accountArgs (ab_stakerPrincipal account) (ab_rewardCycle account) bondIndex) tip = Ok v /\
    Codecs.decodeEarnedStakerRewards v "get-earned-staker-rewards" = Ok (pf_earned facts);
  pr_feeBips : exists key v, feeKey (ab_rewardCycle account) bondIndex = Ok key /\
    getMapEntry node manager "fee-bips-for-cycle" key tip = Ok v /\
    Codecs.decodeOptionalUInt v "fee-bips-for-cycle" = Ok (pf_feeBips facts);
  pr_unclaimed : call node manager "get-unclaimed-staker-rewards" wallet [] tip =
    Ok (CUInt (pf_unclaimed facts));
  pr_payout : exists v, call node manager "get-pox-addr" wallet
    [encodePrincipalHex lib (ab_stakerPrincipal account)] tip = Ok v /\
    Codecs.decodePoxAddressPreference v "get-pox-addr" = Ok (pf_payout facts);
}.

Lemma payment_plan_inv recipe rc wallet anchor b amount :
  preparePayment recipe rc wallet anchor = Ok (to_plan b amount) ->
  exists account bondIndex facts, accountOf recipe (rc_accountKey rc) = Some account /\
    bondIndexOf account = Ok bondIndex /\ Codecs.earned (pf_earned facts) <> 0 /\
    payment_read (r_managerPrincipal recipe) wallet (Anchor.indexBlockHash anchor) account bondIndex facts /\
    paymentOf account bondIndex facts recipe = to_plan b amount.
Proof.
  unfold preparePayment. intros H. destruct (_ || _); [done|].
  destruct (accountOf recipe _) as [account|]; [|done].
  apply bind_Ok in H as (bondIndex & Hb & H).
  apply bind_Ok in H as (? & _ & H). apply bind_Ok in H as (key & Hkey & H).
  apply bind_Ok in H as (values & Hv & H). apply Promise_all_Ok in Hv.
  inversion Hv as [|? ev ? l1 He Hv1]; subst. inversion Hv1 as [|? pv ? l2 Hp Hv2]; subst.
  inversion Hv2 as [|? fv ? l3 Hf Hv3]; subst. inversion Hv3 as [|? uv ? l4 Hu Hv4]; subst.
  inversion Hv4; subst. rewrite of_other_Ok in Hkey. rewrite of_read_Ok in Hf.
  apply bind_Ok in H as (earned & Hed & H). destruct (Z.eqb_spec (Codecs.earned earned) 0); [done|].
  apply bind_Ok in H as (feeBips & Hfd & H). apply bind_Ok in H as (unclaimed & Hud & H).
  apply bind_Ok in H as (payout & Hpd & H). injection H as H.
  rewrite of_other_Ok in Hed. rewrite of_other_Ok in Hfd. rewrite of_other_Ok in Hud.
  rewrite of_other_Ok in Hpd. apply decodeUInt_Ok in Hud as ->.
  exists account, bondIndex, {| pf_earned := earned; pf_feeBips := feeBips; pf_unclaimed := unclaimed;
                               pf_payout := payout |}.
  split_and!; try done. split; eauto.
Qed.

(** C10. A payment is planned only when it is safe to make: at the captured anchor the manager
    locked its fee for the account and holds at least the gross entitlement, which is within the
    bound the operator approved, over the approved route; the transaction can only move exactly
    what the manager says is earned, from the manager, and a Bitcoin payout leaves more than the
    dust limit above its own fee budget. *)
Theorem payment_is_economic reads runId run index plan amount :
  materialize reads runId run index op_claim_staker_rewards = Ok (mat_plan plan amount) ->
  exists anchor rc account bondIndex facts text,
    captureNodeChainAnchor (dr_anchor reads) = Ok anchor /\
    r_children (ru_recipe run) !! index = Some rc /\
    accountOf (ru_recipe run) (rc_accountKey rc) = Some account /\
    payment_read (r_managerPrincipal (ru_recipe run)) (ru_walletPrincipal run)
      (Anchor.indexBlockHash anchor) account bondIndex facts /\
    let net := Codecs.earned (pf_earned facts) in
    let gross := net + Codecs.fees (pf_earned facts) in
    body (material plan) = m_staker text
      (sbtc_transfer (r_sbtcTokenContract (ru_recipe run)) (r_managerPrincipal (ru_recipe run))
         (match ab_payoutRoute account with
          | direct_sbtc => ab_stakerPrincipal account | bitcoin_l1 => "sbtc-withdrawal" end) net) /\
    amount = Some gross /\ 0 < net /\ is_Some (pf_feeBips facts) /\ gross <= pf_unclaimed facts /\
    gross <= ab_maximumGrossSats account /\
    match pf_payout facts with
    | Some p => ab_payoutRoute account = bitcoin_l1 /\ net > Codecs.maxFee p + SBTC_WITHDRAWAL_DUST_LIMIT
    | None => ab_payoutRoute account = direct_sbtc
    end.
Proof.
  intros H. apply materialize_inv in H as [[reason ?]|(wallet & anchor & value & rc & p & G & Hp & H)]; [done|].
  destruct p as [b amt|? ?|?]; [|done|done].
  apply sealPlan_plan in H as [?|(draft & plan' & [= <- <-] & _ & _ & Hplan)]; [done|].
  destruct G as [_ [_ Hw] Ha _ Hrc]. cbn [prepareOperation] in Hp.
  apply payment_plan_inv in Hp as (account & bondIndex & facts & Hacc & _ & _ & Hread & Hp).
  rewrite Hw in Hread. unfold paymentOf in Hp. destruct (_ || _) eqn:H1 in Hp; [done|].
  destruct (ab_maximumGrossSats account <? _) eqn:H2; [done|].
  destruct (negb _) eqn:H3 in Hp; [done|].
  destruct (match pf_payout facts with Some _ => _ | None => _ end) as [] eqn:H4 in Hp; [done|].
  injection Hp as <- <-. breflect.
  destruct (plan_inv _ _ _ _ _ _ _ _ _ _ Hplan) as (k & parts & _ & Hk & _ & _ & _ & _ & -> & _).
  cbn [input_body contractCall st_grossSats st_feeSats] in Hk. apply bind_Ok in Hk as (? & Hr & [= <-]).
  apply require_Ok in Hr. breflect.
  exists anchor, rc, account, bondIndex, facts. eexists. cbn. rewrite <- H3. split_and!; try done; try lia.
  - by destruct (pf_feeBips facts).
  - destruct (pf_payout facts) as [payout|]; [|done]. split; [done|]. breflect. lia.
Qed.

Lemma payment_accepted run rc wallet anchor b amount :
  recipe_coherent (ru_recipe run) -> rc ∈ r_children (ru_recipe run) ->
  rc_operation rc = op_claim_staker_rewards ->
  preparePayment (ru_recipe run) rc wallet anchor = Ok (to_plan b amount) ->
  body_accepted run rc op_claim_staker_rewards b amount.
Proof.
  intros Hco Hin Hop H. apply payment_plan_inv in H as (account & bondIndex & facts & Ha & Hb & _ & _ & H).
  destruct (find_account _ _ _ Ha) as [Hacc Hkey].
  destruct (rk_payment _ Hco rc account Hin Hacc Hop (eq_sym Hkey)) as [Hst Hmax].
  destruct (rk_account _ Hco account Hacc) as [Htext Hbond].
  assert (Hbt : bigint_toString <$> bondIndex = ab_bondIndex account).
  { unfold bondIndexOf in Hb. destruct (ab_bondIndex account) as [t|]; [|by injection Hb as <-].
    destruct (Hbond t eq_refl) as [n ->]. rewrite BigInt_toString in Hb. by injection Hb as <-. }
  unfold paymentOf in H. destruct (_ || _); [done|].
  destruct (ab_maximumGrossSats account <? _) eqn:H2; [done|].
  destruct (negb _) eqn:H3 in H; [done|]. destruct (match pf_payout facts with Some _ => _ | None => _ end) in H; [done|].
  injection H as <- <-. intros k Hk. cbn [contractCall] in Hk. apply bind_require_call in Hk as <-.
  breflect. cbn [call_material material_kind adapter adapter_of planBodyOk staker_text st_managerContract
    st_sbtcTokenContract st_stakerPrincipal st_rewardCycle st_bondIndex st_payoutRoute st_grossSats].
  rewrite Hmax. split_and!; try done; [|intros _; cbn; by apply Z.ltb_ge].
  unfold accountOf in Ha. rewrite Ha. unfold amount_is.
  change (match bondIndex with Some x => Some (bigint_toString x) | None => None end)
    with (bigint_toString <$> bondIndex). rewrite Hbt, Hst, <- Hkey.
  rewrite !andb_true_iff, !String.eqb_eq, !bool_decide_eq_true. split_and!; try done.
  by rewrite Htext.
Qed.

Lemma withdrawal_accepted operation run rc wallet anchor b amount :
  operation = op_settle_accepted_withdrawal \/ operation = op_reclaim_failed_withdrawal ->
  recipe_coherent (ru_recipe run) -> rc ∈ r_children (ru_recipe run) -> rc_operation rc = operation ->
  prepareWithdrawal operation (ru_recipe run) rc wallet anchor = Ok (to_plan b amount) ->
  body_accepted run rc operation b amount.
Proof.
  intros Hop Hco Hin Hrc H. pose proof (rk_amount _ Hco rc Hin) as Hmax. rewrite Hrc in Hmax.
  unfold prepareWithdrawal in H.
  destruct (rc_requestId rc) as [requestId|] eqn:Hid; [|done].
  destruct (rc_stakerPrincipal rc) as [staker|] eqn:Hst; [|done].
  destruct (negb (nonempty staker)); [done|].
  apply bind_Ok in H as (v & _ & H). apply bind_Ok in H as (mapped & _ & H).
  destruct mapped as [mapped|]; [|done]. destruct (negb _); [done|].
  apply bind_Ok in H as (state & _ & H). destruct (negb _); [done|]. injection H as <- <-.
  intros k Hk. destruct Hop as [-> | ->]; cbn [bool_decide] in Hk; cbn in Hk.
  - injection Hk as <-. cbn. rewrite Hmax, Hid, Hst. split_and!; try done.
    by rewrite String.eqb_refl, !bool_decide_true.
  - destruct Hmax as (w & f & Hw & Hf & ->). rewrite Hw, Hf in Hk. cbn in Hk.
    apply bind_require_call in Hk as <-. cbn. rewrite Hid, Hst, Hw, Hf. cbn.
    split_and!; try done; [|intros _; by apply Z.ltb_irrefl].
    rewrite !BigInt_toString, !String.eqb_refl, !bool_decide_true by done. done.
Qed.

Lemma operation_accepted reads operation run rc wallet anchor b amount :
  recipe_coherent (ru_recipe run) -> rc ∈ r_children (ru_recipe run) -> rc_operation rc = operation ->
  prepareOperation reads operation (ru_recipe run) rc wallet anchor = Ok (to_plan b amount) ->
  body_accepted run rc operation b amount.
Proof.
  intros Hco Hin Hop H. pose proof (rk_amount _ Hco rc Hin) as Hmax. rewrite Hop in Hmax.
  destruct operation; cbn [prepareOperation] in H.
  - by eapply calculate_accepted.
  - by eapply collect_accepted.
  - by eapply payment_accepted.
  - eapply withdrawal_accepted; eauto.
  - eapply withdrawal_accepted; eauto.
Qed.

(** The driver and the service agree on a recipe: the service's own check of a plan the driver
    returned fails exactly when the chain went back behind the prepared anchor, the fee is above
    the recipe's cap, or the amount to collect grew above the approved one. *)
Theorem driver_plan_accepted reads runId run index c plan amount d :
  materialize reads runId run index (ch_operation c) = Ok (mat_plan plan amount) ->
  Fee.maximumFeeUstx (dr_policy reads) = Fee.maximumFeeUstx (dr_laterPolicy reads) ->
  recipe_coherent (ru_recipe run) ->
  (forall rc, r_children (ru_recipe run) !! index = Some rc -> rc_operation rc = ch_operation c) ->
  exists anchor rc fee, captureNodeChainAnchor (dr_anchor reads) = Ok anchor /\
    r_children (ru_recipe run) !! index = Some rc /\
    m_feeUstx (material plan) = bigint_toString fee /\
    let prepared := r_preparedAnchor (ru_recipe run) in
    assertPlan runId run index c plan amount d =
      guard ((stacksBlockHeight prepared <=? Anchor.stacksBlockHeight anchor) &&
             (burnBlockHeight prepared <=? Anchor.burnBlockHeight anchor) &&
             (fee <=? r_feeCapUstx (ru_recipe run)) &&
             negb (exceeds amount (rc_maximumAmountSats rc))) reward_run_invalid d.
Proof.
  intros H Hcap Hco Hops.
  apply materialize_inv in H as [[reason ?]|(wallet & anchor & account & rc & p & G & Hp & H)]; [done|].
  destruct p as [b amt|? ?|?]; [|done|done].
  apply sealPlan_plan in H as [?|(draft & plan' & [= <- <-] & _ & _ & Hplan)]; [done|].
  destruct G as [_ [_ Hw] Ha _ Hrc]. assert (Hop := Hops rc Hrc).
  assert (Hin : rc ∈ r_children (ru_recipe run)) by by eapply list_elem_of_lookup_2.
  destruct (plan_inv _ _ _ _ _ _ _ _ _ _ Hplan) as (k & parts & _ & Hk & _ & _ & _ & _ & Hm & _).
  destruct (operation_accepted _ _ _ _ _ _ _ _ Hco Hin Hop Hp k Hk) as (Hkind & Had & Hbody & Hsome & _).
  destruct (rk_adapter _ Hco rc Hin) as [Hrad Hrev].
  exists anchor, rc. eexists. rewrite Hm. split_and!; [done | done | reflexivity |].
  cbn zeta. unfold assertPlan, planCommonOk. rewrite Hm. cbn [material_of m_feeUstx common feeUstx commonInput].
  rewrite BigInt_toString. cbn [material_of m_authorization m_adapterId m_adapterRevision m_network m_chainAnchor m_sender
    m_managerSourceFingerprint body common input_body authorization network chainAnchor sender
    OperationPlan.managerSourceFingerprint commonInput netKind chainId stacksBlockHeight burnBlockHeight
    OperationPlan.runId OperationPlan.recipeSha256].
  rewrite Hrc. cbn [fmap option_fmap option_map]. rewrite Hkind, Had, Hrev, Hrad, Hop, Hw.
  rewrite !String.eqb_refl, !bool_decide_true by done. rewrite Z.eqb_refl. cbn [andb].
  rewrite <- !Z.leb_antisym. unfold amountShapeOk. rewrite Hbody, bool_decide_true by done. cbn [andb].
  unfold guard. destruct (_ <=? _); [|done]. destruct (_ <=? _); [|done]. destruct (_ <=? _); [|done].
  cbn. by destruct (exceeds _ _).
Qed.

(** ** Reconciliation *)

(** The stored attempt of this child signed exactly this planner's output for this run. *)
Definition signed_here (runId : string) (run : Run) (c : Child) (plan : Plan) (txid : string)
    (attempt : option Attempt) : Prop :=
  exists a input, attempt = Some a /\ at_state a <> rejected /\ at_precomputedTxid a = txid /\
    planRewardOperation input = Ok plan /\
    Some (planSha256 plan) = planSha256 <$> ch_plan c /\ ch_txid c = Some txid /\
    material_kind (body (material plan)) = ch_operation c /\
    m_authorization (material plan) =
      {| OperationPlan.runId := runId; OperationPlan.recipeSha256 := ru_recipeSha256 run |} /\
    sender_principal (m_sender (material plan)) = ru_walletPrincipal run /\
    chainId (m_network (material plan)) = r_chainId (ru_recipe run) /\
    m_nonce (material plan) = bigint_toString (at_nonce a) /\
    m_feeUstx (material plan) = bigint_toString (at_feeUstx a).

Lemma revalidate_planned p q : revalidate p = Ok q -> q = p /\ exists input, planRewardOperation input = Ok p.
Proof.
  unfold revalidateRewardOperationPlan. intros H. apply bind_Ok in H as (? & _ & H).
  apply bind_Ok in H as (input & _ & H). apply bind_Ok in H as (rebuilt & Hr & H).
  apply bind_Ok in H as (? & He%require_Ok & [= <-]). apply bool_decide_eq_true in He. subst p. eauto.
Qed.

Lemma binding_signed_here runId run c plan txid attempt :
  hasLocalSigningBinding runId run c plan txid attempt = true ->
  signed_here runId run c plan txid attempt.
Proof.
  unfold hasLocalSigningBinding. destruct attempt as [a|]; [|done].
  destruct (_ || _ || _) eqn:Hg; [done|]. destruct (revalidate plan) as [p|] eqn:Hr; [|done].
  apply revalidate_planned in Hr as [-> [input Hi]]. intros H. breflect.
  exists a, input. split_and!; try done.
  destruct (m_authorization (material plan)) as [x y]. cbn in *. by subst.
Qed.

(** The API's word alone is taken only with the caller's permission. *)
Lemma api_source_allowed indexed receipts chain txid allow success repr height :
  readSubmittedTransactionOutcome readTransaction indexed receipts chain txid allow =
    sub_confirmed success repr height api -> allow = true.
Proof.
  unfold readSubmittedTransactionOutcome. destruct indexed as [[] [h|] r|]; try done.
  { by destruct (safe_height h). }
  destruct (lookupCanonicalApiTransaction _ _ _ _ _) as [receipt| |? ? ?|?] eqn:Hl; try done.
  intros [= _ _ _ Hs]. apply lookup_inv in Hl as [[? ?]|[?|(d & b & _ & Hl)]]; try done.
  destruct (checkTransactionInCanonicalBlock _ _ _ _) as [[tx| |]|e]; try done.
  - injection Hl as ->. done.
  - by destruct Hl as [? _].
Qed.

(** C11. Reconciliation reports only what the chain shows: a confirmation is a canonical success
    whose result, for a calculation, is the sealed target's, and if only the API vouches for it
    the transaction is provably this program's own; an external completion is a canonical failure
    whose effect is nevertheless at the chain; a conflict halts and asks for the node; and a
    failure the chain does not explain halts, so nothing signs again by itself. *)
Theorem reconciliation_is_grounded reads runId run index c plan txid attempt r :
  reconcile reads runId run index c plan txid attempt = Ok r ->
  let outcome := submittedOutcome reads runId run c plan txid attempt in
  match r with
  | rec_confirmed height source => exists repr s, source = Some s /\
      outcome = sub_confirmed true repr height s /\ resultMatches plan repr = true /\
      (s = api -> signed_here runId run c plan txid attempt)
  | rec_externally_completed _ source => exists repr height s, source = Some s /\
      outcome = sub_confirmed false repr height s /\
      desiredState reads run index (ch_operation c) = Ok true
  | rec_halt _ (Some s) corroborate => corroborate = false /\ exists repr height,
      (outcome = sub_confirmed true repr height s /\ resultMatches plan repr = false) \/
      (outcome = sub_confirmed false repr height s /\
       desiredState reads run index (ch_operation c) <> Ok true)
  | rec_halt reason None corroborate => corroborate = true /\ outcome = sub_conflict reason
  | rec_pending retryLater ms => outcome = sub_pending retryLater ms
  end.
Proof.
  unfold reconcile. intros H. apply bind_Ok in H as (? & _ & H). injection H as <-. cbn zeta.
  destruct (submittedOutcome reads runId run c plan txid attempt) as [[] repr height s|reason|later ms]
    eqn:Ho; [| |done|done].
  - destruct (resultMatches plan repr) eqn:Hm.
    + exists repr, s. split_and!; try done. intros ->. apply api_source_allowed in Ho.
      by apply binding_signed_here.
    + split; [done|]. exists repr, height. by left.
  - destruct (desiredState reads run index (ch_operation c)) as [[]|] eqn:Hd.
    + exists repr, height, s. by split_and!.
    + split; [done|]. exists repr, height. by right.
    + split; [done|]. exists repr, height. by right.
Qed.

End Driver.
