(* ===== verification/StakerClaims.v ===== *)
(** * The claims of the stakers

    [stakerClaims] of apps/sidekick/src/operator-service.ts and [discoverStakerClaims] of
    reward-status.ts: one page of the reconciled roster, and what every staker of it is owed in
    every bucket at one anchor, with the reason why a claim is held back.  The snapshot, the store
    and the node are read afresh for each page; what the store and the snapshot answer is a record.
    The calls at an anchor are modelled, which is how a reward run makes them. *)

From S2P Require Import Prelude Text Bonds Rewards ChainAnchor Clarity Principals OperationPlan NakamotoBlock AnchorCapture RewardReads Recipe LiveDriver.

Open Scope list_scope.
Open Scope Z_scope.

(** ** Data *)

Inductive BlockedReason :=
  | nothing_settled | manager_has_not_claimed | l1_below_max_fee | l1_below_dust_limit.

#[global] Instance BlockedReason_eq_dec : EqDecision BlockedReason.
Proof. solve_decision. Defined.

(** [StakerRewardClaim]; [claimable] is that there is no reason. *)
Record StakerRewardClaim := {
  ck_bondIndex : option string;
  ck_earnedSats : Z;
  ck_feeSats : Z;
  ck_grossSats : Z;
  ck_blockedReason : option BlockedReason;
}.

Record StakerRewardStatus := {
  ss_stakerPrincipal : string;
  ss_rewardCycle : Z;
  ss_payout : option Codecs.PoxAddressPreference;
  ss_earnedSats : Z;
  ss_feeSats : Z;
  ss_grossSats : Z;
  ss_claims : list StakerRewardClaim;
  ss_claimableByPolicy : bool;
}.

Record StakerSettlementSummary := {
  sm_stakersScanned : nat;
  sm_outstandingClaims : nat;
  sm_totalNetSats : Z;
  sm_blockedClaims : nat;
}.

Record StakerClaimDiscovery := {
  di_rewardCycle : Z;
  di_stakers : list StakerRewardStatus;
  di_settlement : StakerSettlementSummary;
}.

(** A candidate of a page; [claimable] is again that there is no reason. *)
Record StakerCandidate := {
  sc_stakerPrincipal : string;
  sc_bondIndex : option string;
  sc_payoutKind : PayoutRoute;
  sc_maxFeeSats : option Z;
  sc_earnedSats : Z;
  sc_feeSats : Z;
  sc_grossSats : Z;
  sc_blockedReason : option BlockedReason;
}.

(** A page; its [generatedAt], its offset and its limit are the snapshot's and the caller's. *)
Record StakerClaimsPage := {
  cp_rewardCycle : Z;
  cp_stakerPrincipals : list string;
  cp_stakersTotal : nat;
  cp_nextCursor : option nat;
  cp_settlement : StakerSettlementSummary;
  cp_candidates : list StakerCandidate;
}.

(** A row of [listSignerStakers], in the order of the principals. *)
Record RosterEntry := {
  re_stakerPrincipal : string;
  re_lastSeenRunId : string;
  re_bonded : bool;
  re_positioned : bool;
  re_stxNodeVerified : option bool;
}.

(** The rewards of a snapshot: the cycle and the buckets with whether they participate. *)
Record SnapshotRewards := { sr_rewardCycle : Z; sr_buckets : list (option string * bool) }.

(** What one call of [stakerClaims] reads: the snapshot, the latest completed run with whether its
    reconciliation is complete, and the active stakers. *)
Record ClaimsReads := {
  cr_snapshot : result ReadError (option SnapshotRewards);
  cr_completedRun : option (string * bool);
  cr_stakers : list RosterEntry;
}.

Record ClaimsOptions := {
  op_offset : option nat;
  op_limit : option nat;
  op_rewardCycle : option Z;
  op_bondIndices : option (list Z);
}.

Definition maxStakerClaimPage : nat := 100.
Definition sbtcWithdrawalDustLimit : Z := 546.
Definition claimConcurrency : nat := 8.

(** ** Discovery *)

(** The ladder of [blockedReason]. *)
Definition blockedReason (claimed : bool) (managerUnclaimedSats : Z) (payout : option Codecs.PoxAddressPreference)
    (rewards : Codecs.EarnedStakerRewards) : option BlockedReason :=
  let earned := Codecs.earned rewards in
  if earned =? 0 then Some nothing_settled
  else if negb claimed then Some manager_has_not_claimed
  else if managerUnclaimedSats <? earned + Codecs.fees rewards then Some manager_has_not_claimed
  else match payout with
       | None => None
       | Some p => if earned <? Codecs.maxFee p then Some l1_below_max_fee
                   else if earned - Codecs.maxFee p <=? sbtcWithdrawalDustLimit then Some l1_below_dust_limit
                   else None
       end.

Definition claimOf (claimedBuckets : list string) (managerUnclaimedSats : Z)
    (payout : option Codecs.PoxAddressPreference) (read : option Z * ClarityValue) : result Thrown StakerRewardClaim :=
  let '(bondIndex, value) := read in
  rewards ← of_other (Codecs.decodeEarnedStakerRewards value "get-earned-staker-rewards");
  Ok {| ck_bondIndex := bigint_toString <$> bondIndex; ck_earnedSats := Codecs.earned rewards;
        ck_feeSats := Codecs.fees rewards; ck_grossSats := Codecs.earned rewards + Codecs.fees rewards;
        ck_blockedReason := blockedReason (bool_decide (bucketText bondIndex ∈ claimedBuckets))
                              managerUnclaimedSats payout rewards |}.

Definition claimable (c : StakerRewardClaim) : bool := bool_decide (ck_blockedReason c = None).

Definition sum_sats (l : list Z) : Z := fold_left Z.add l 0.

Section Claims.

Context (lib : ClarityLibrary) (node : Node) (settle : string -> list Thrown -> Thrown) (managerPrincipal : string).

(** [readStakerReward]: the arguments are encoded before the calls are awaited. *)
Definition readStakerReward (rewardCycle : Z) (bondIndices : list (option Z)) (claimedBuckets : list string)
    (managerUnclaimedSats : Z) (tip stakerPrincipal : string) : result Thrown StakerRewardStatus :=
  _ ← of_other (encodePrincipalHex lib stakerPrincipal);
  _ ← of_other (mapM_res (fun bond => mapM_res (fun a => a) (accountArgs lib stakerPrincipal rewardCycle bond)) bondIndices);
  values ← Promise_all settle ("staker " ++ stakerPrincipal)
    (call node managerPrincipal "get-pox-addr" managerPrincipal [encodePrincipalHex lib stakerPrincipal] tip ::
     ((fun bond => call node managerPrincipal "get-earned-staker-rewards" managerPrincipal
                     (accountArgs lib stakerPrincipal rewardCycle bond) tip) <$> bondIndices));
  match values with
  | payoutValue :: rewardValues =>
      payout ← of_other (Codecs.decodePoxAddressPreference payoutValue "get-pox-addr");
      claims ← mapM_res (claimOf claimedBuckets managerUnclaimedSats payout) (zip bondIndices rewardValues);
      let earned := sum_sats (ck_earnedSats <$> claims) in
      let fees := sum_sats (ck_feeSats <$> claims) in
      Ok {| ss_stakerPrincipal := stakerPrincipal; ss_rewardCycle := rewardCycle; ss_payout := payout;
            ss_earnedSats := earned; ss_feeSats := fees; ss_grossSats := earned + fees; ss_claims := claims;
            ss_claimableByPolicy := existsb claimable claims |}
  | [] => Err (thrown OtherError)
  end.

(** The buckets the manager has locked a fee for. *)
Definition claimedBucket (read : option Z * ClarityValue) : result Thrown (list string) :=
  fee ← of_other (Codecs.decodeOptionalUInt read.2 "fee-bips-for-cycle");
  Ok (if bool_decide (fee = None) then [] else [bucketText read.1]).

(** The loop over the page, [claimConcurrency] stakers at a time; [fuel] is their number. *)
Fixpoint readStakers (read : string -> result Thrown StakerRewardStatus) (fuel : nat) (principals : list string)
    : result Thrown (list StakerRewardStatus) :=
  match fuel, principals with
  | _, [] | O, _ => Ok []
  | S fuel, _ =>
      batch ← Promise_all settle "stakers" (read <$> take claimConcurrency principals);
      rest ← readStakers read fuel (drop claimConcurrency principals);
      Ok (batch ++ rest)
  end.

Definition settlementSummary (stakers : list StakerRewardStatus) : StakerSettlementSummary :=
  let claims := List.concat (ss_claims <$> stakers) in
  let outstanding := List.filter claimable claims in
  {| sm_stakersScanned := List.length stakers; sm_outstandingClaims := List.length outstanding;
     sm_totalNetSats := sum_sats (ck_earnedSats <$> outstanding);
     sm_blockedClaims := List.length (List.filter (fun c => negb (claimable c) &&
       negb (bool_decide (ck_blockedReason c = Some nothing_settled))) claims) |}.

Definition discoverStakerClaims (rewardCycle : Z) (stakerPrincipals : list string) (bonds : list Z)
    (chainAnchor : Anchor.ChainAnchor) : result Thrown StakerClaimDiscovery :=
  _ ← require (safe_nonnegative rewardCycle) (thrown OtherError);
  _ ← require (List.length stakerPrincipals <=? maxStakerClaimPage)%nat (thrown OtherError);
  _ ← require (bool_decide (NoDup bonds)) (thrown OtherError);
  let tip := Anchor.indexBlockHash chainAnchor in
  let bondIndices := None :: (Some <$> bonds) in
  keys ← of_other (mapM_res (feeKey lib rewardCycle) bondIndices);
  values ← Promise_all settle "buckets"
    (call node managerPrincipal "get-unclaimed-staker-rewards" managerPrincipal [] tip ::
     ((fun key => of_read (getMapEntry node managerPrincipal "fee-bips-for-cycle" key tip)) <$> keys));
  match values with
  | unclaimedValue :: feeSnapshotValues =>
      managerUnclaimedSats ← of_other (Codecs.decodeUInt unclaimedValue "get-unclaimed-staker-rewards");
      buckets ← mapM_res claimedBucket (zip bondIndices feeSnapshotValues);
      stakers ← readStakers (readStakerReward rewardCycle bondIndices (List.concat buckets) managerUnclaimedSats tip)
                  (List.length stakerPrincipals) stakerPrincipals;
      Ok {| di_rewardCycle := rewardCycle; di_stakers := stakers; di_settlement := settlementSummary stakers |}
  | [] => Err (thrown OtherError)
  end.

(** ** A page of the roster *)

(** The reconciled roster. *)
Definition reconciledPrincipals (runId : string) (stakers : list RosterEntry) : list string :=
  re_stakerPrincipal <$> List.filter (fun e => String.eqb (re_lastSeenRunId e) runId &&
    (re_bonded e || re_positioned e || bool_decide (re_stxNodeVerified e = Some true))) stakers.

(** The participating buckets of the snapshot, when the caller names none. *)
Definition snapshotBonds (rewards : option SnapshotRewards) : result Thrown (list Z) :=
  mapM_res (fun t => match BigInt t with Some n => Ok n | None => Err (thrown OtherError) end)
    (omap (fun '(bondIndex, participating) => if (participating : bool) then bondIndex else None)
       (match rewards with Some r => sr_buckets r | None => [] end)).

Definition candidatesOf (staker : StakerRewardStatus) : list StakerCandidate :=
  (fun c => {| sc_stakerPrincipal := ss_stakerPrincipal staker; sc_bondIndex := ck_bondIndex c;
               sc_payoutKind := match ss_payout staker with Some _ => bitcoin_l1 | None => direct_sbtc end;
               sc_maxFeeSats := Codecs.maxFee <$> ss_payout staker; sc_earnedSats := ck_earnedSats c;
               sc_feeSats := ck_feeSats c; sc_grossSats := ck_grossSats c;
               sc_blockedReason := ck_blockedReason c |}) <$> ss_claims staker.

Definition stakerClaims (reads : ClaimsReads) (options : ClaimsOptions) (chainAnchor : Anchor.ChainAnchor)
    : result Thrown StakerClaimsPage :=
  rewards ← of_read (cr_snapshot reads);
  _ ← require (negb (bool_decide (rewards = None) && bool_decide (op_rewardCycle options = None))) (thrown OtherError);
  let offset := default 0%nat (op_offset options) in
  let limit := Nat.min (default 25%nat (op_limit options)) 100 in
  runId ← match cr_completedRun reads with
          | Some (runId, true) => Ok runId
          | _ => Err (thrown OtherError)
          end;
  let principals := reconciledPrincipals runId (cr_stakers reads) in
  bondIndices ← match op_bondIndices options with Some l => Ok l | None => snapshotBonds rewards end;
  rewardCycle ← match op_rewardCycle options, rewards with
                | Some c, _ => Ok c
                | None, Some r => Ok (sr_rewardCycle r)
                | None, None => Err (thrown OtherError)
                end;
  let page := take limit (drop offset principals) in
  discovery ← discoverStakerClaims rewardCycle page bondIndices chainAnchor;
  Ok {| cp_rewardCycle := di_rewardCycle discovery; cp_stakerPrincipals := page;
        cp_stakersTotal := List.length principals; cp_settlement := di_settlement discovery;
        cp_nextCursor := if (offset + limit <? List.length principals)%nat then Some (offset + limit)%nat else None;
        cp_candidates := List.concat (candidatesOf <$> di_stakers discovery) |}.

(** ** The bond indexes of the candidates *)

(** The text of a bond index is the decimal text of a number. *)
Definition canonical_bond (o : option string) : Prop := forall t, o = Some t -> exists n, t = bigint_toString n.

Definition canonical_claims (staker : StakerRewardStatus) : Prop :=
  Forall (fun c => canonical_bond (ck_bondIndex c)) (ss_claims staker).

Lemma claimOf_canonical buckets unclaimed payout read c :
  claimOf buckets unclaimed payout read = Ok c -> canonical_bond (ck_bondIndex c).
Proof.
  destruct read as [bond value]. intros H. unfold claimOf in H. apply bind_Ok in H as (rewards & _ & [= <-]).
  intros t Ht. cbn in Ht. destruct bond as [n|]; [|done]. injection Ht as <-. by exists n.
Qed.

Lemma readStakerReward_canonical cycle bonds buckets unclaimed tip staker status :
  readStakerReward cycle bonds buckets unclaimed tip staker = Ok status -> canonical_claims status.
Proof.
  intros H. unfold readStakerReward in H. do 2 (apply bind_Ok in H as (? & _ & H)). apply bind_Ok in H as (values & _ & H).
  destruct values as [|payoutValue rewardValues]; [done|]. apply bind_Ok in H as (payout & _ & H).
  apply bind_Ok in H as (claims & Hc & [= <-]). apply mapM_res_Forall2 in Hc. unfold canonical_claims. cbn.
  apply Forall_forall. intros c (i & Hi)%list_elem_of_lookup. destruct (Forall2_lookup_r _ _ _ _ _ Hc Hi) as (read & _ & Hr).
  by apply claimOf_canonical in Hr.
Qed.

Lemma readStakers_Forall (P : StakerRewardStatus -> Prop) read fuel principals stakers :
  (forall p status, read p = Ok status -> P status) -> readStakers read fuel principals = Ok stakers -> Forall P stakers.
Proof.
  intros HP. revert principals stakers. induction fuel as [|fuel IH]; intros principals stakers H.
  { destruct principals; by injection H as <-. }
  destruct principals as [|p principals]; [by injection H as <-|]. cbn [readStakers] in H.
  apply bind_Ok in H as (batch & Hb & H). apply bind_Ok in H as (rest & Hr & [= <-]).
  apply Forall_app. split; [|by eapply IH]. apply Promise_all_map in Hb. apply Forall_forall.
  intros status (i & Hi)%list_elem_of_lookup. destruct (Forall2_lookup_r _ _ _ _ _ Hb Hi) as (q & _ & Hq). by eapply HP.
Qed.

Lemma discovery_canonical cycle principals bonds anchor d :
  discoverStakerClaims cycle principals bonds anchor = Ok d -> Forall canonical_claims (di_stakers d).
Proof.
  intros H. unfold discoverStakerClaims in H. do 3 (apply bind_Ok in H as (? & _ & H)).
  apply bind_Ok in H as (keys & _ & H). apply bind_Ok in H as (values & _ & H). destruct values as [|v values]; [done|].
  apply bind_Ok in H as (unclaimed & _ & H). apply bind_Ok in H as (buckets & _ & H).
  apply bind_Ok in H as (stakers & Hs & [= <-]). cbn. eapply readStakers_Forall; [|exact Hs].
  intros p status. apply readStakerReward_canonical.
Qed.

Lemma candidates_canonical reads options anchor page :
  stakerClaims reads options anchor = Ok page -> Forall (fun c => canonical_bond (sc_bondIndex c)) (cp_candidates page).
Proof.
  intros H. unfold stakerClaims in H. apply bind_Ok in H as (rewards & _ & H). apply bind_Ok in H as (? & _ & H).
  apply bind_Ok in H as (runId & _ & H). apply bind_Ok in H as (bonds & _ & H). apply bind_Ok in H as (cycle & _ & H).
  apply bind_Ok in H as (d & Hd & [= <-]). apply discovery_canonical in Hd. cbn.
  induction Hd as [|staker l Hs _ IH]; [constructor|]. cbn. apply Forall_app. split; [|exact IH].
  unfold candidatesOf. apply Forall_fmap. exact Hs.
Qed.

End Claims.
