(* ===== verification/LiveFacts.v ===== *)
(** * The facts a recipe is built from

    apps/sidekick/src/transaction-engine/live-reward-run.ts, [createLiveRewardRunFacts]: the work
    of a run is discovered from reads at one anchor, never from the request; the claims of the
    stakers come page by page from [StakerClaims].  A [while (true)] loop over pages runs on fuel, the
    number of pages; [None] is "not finished", and with enough fuel it does not happen. *)

From S2P Require Import Prelude Text Bonds Rewards ChainAnchor Clarity Principals OperationPlan NakamotoBlock AnchorCapture RewardReads Recipe LiveDriver StakerClaims.

Open Scope list_scope.
Open Scope Z_scope.

(** ** Data *)

(** A pending withdrawal of the store. *)
Record StoredWithdrawal := {
  sw_requestId : Z;
  sw_stakerPrincipal : string;
  sw_amountSats : Z;
  sw_maxFeeSats : Z;
}.

(** The part of the setup observation the facts use. *)
Record SetupFacts := {
  su_network : string;
  su_networkId : Z;
  su_pox5ContractId : option string;
  su_sbtcTokenContract : option string;
  su_sbtcRegistryContract : option string;
  su_pox5Sha256 : option string;
  su_managerSha256 : option string;
  su_firstRewardCycleId : option Z;
  su_executionAvailable : bool;
  su_reviewedSourceSha256 : option string;
}.

Record FactReads := { fr_calculate : bool; fr_collect : bool; fr_accounts : bool; fr_withdrawals : bool }.

(** [factReadsForOperations] *)
Definition factReadsForOperations (operations : option (list OperationKind)) : FactReads :=
  let selected := default operationOrder operations in
  let has op := bool_decide (op ∈ selected) in
  {| fr_calculate := has op_calculate_rewards;
     fr_collect := has op_claim_rewards || has op_claim_staker_rewards;
     fr_accounts := has op_claim_staker_rewards;
     fr_withdrawals := has op_settle_accepted_withdrawal || has op_reclaim_failed_withdrawal |}.

Definition isManagerOperation (op : OperationKind) : bool :=
  match op with op_calculate_rewards => false | _ => true end.

(** [reviewedRewardManagerAvailable], on the capability [managerActionCapability] returns. *)
Definition reviewedRewardManagerAvailable (setup : SetupFacts) (sourceSha256 : string) : bool :=
  su_executionAvailable setup && bool_decide (su_reviewedSourceSha256 setup = Some sourceSha256).

(** JavaScript's test of a string that may be null. *)
Definition present (o : option string) : result Thrown string :=
  match o with
  | Some s => if nonempty s then Ok s else Err (thrown OtherError)
  | None => Err (thrown OtherError)
  end.

(** ** Pages *)

Definition pageLimit : nat := 100.
Definition withdrawalLimit : nat := 200.
Definition registryLookupConcurrency : nat := 8.

(** One candidate: a zero entitlement is passed over, and past the cap it is only counted. *)
Definition pushCandidate (maximumAccounts : nat) (rewardCycle : Z) (st : list DraftAccount * Z)
    (candidate : StakerCandidate) : list DraftAccount * Z :=
  let '(accounts, eligible) := st in
  if sc_grossSats candidate =? 0 then st
  else
    (if (List.length accounts <? maximumAccounts)%nat
     then (accounts ++ [{| da_stakerPrincipal := sc_stakerPrincipal candidate;
                          da_rewardCycle := rewardCycle; da_bondIndex := sc_bondIndex candidate;
                          da_maximumGrossSats := sc_grossSats candidate;
                          da_payoutRoute := sc_payoutKind candidate |}])%list
     else accounts, eligible + 1).

Section Accounts.

Context (claims : nat -> result Thrown StakerClaimsPage).

Fixpoint readAccounts (fuel maximumAccounts : nat) (cycle : Z) (offset : nat)
    (st : list DraftAccount * Z) : result Thrown (option (list DraftAccount * Z)) :=
  match fuel with
  | O => Ok None
  | S fuel =>
      page ← claims offset;
      _ ← require (cp_rewardCycle page =? cycle) (thrown OtherError);
      let st := fold_left (pushCandidate maximumAccounts (cp_rewardCycle page)) (cp_candidates page) st in
      match cp_nextCursor page with
      | None => Ok (Some st)
      | Some next => readAccounts fuel maximumAccounts cycle next st
      end
  end.

End Accounts.

(** The accounts and counts of [withdrawals] so far: the drafts, accepted, rejected. *)
Definition Withdrawals : Type := list DraftWithdrawal * (Z * Z).

Definition draftState (state : RegistryStatus) : option WithdrawalState :=
  match state with registry_accepted => Some w_accepted | registry_rejected => Some w_rejected | _ => None end.

Definition pushWithdrawal (maximumAccounts : nat) (st : Withdrawals)
    (entry : StoredWithdrawal * RegistryStatus) : Withdrawals :=
  let '(drafts, (nAccepted, nRejected)) := st in
  let '(withdrawal, status) := entry in
  match draftState status with
  | None => st
  | Some state =>
      (if (List.length drafts <? maximumAccounts)%nat
       then (drafts ++ [{| dw_requestId := sw_requestId withdrawal;
                          dw_stakerPrincipal := sw_stakerPrincipal withdrawal; dw_state := state;
                          dw_maximumAmountSats := sw_amountSats withdrawal + sw_maxFeeSats withdrawal;
                          dw_withdrawalAmountSats := sw_amountSats withdrawal;
                          dw_maxFeeSats := sw_maxFeeSats withdrawal |}])%list
       else drafts,
       match state with
       | w_accepted => (nAccepted + 1, nRejected)
       | w_rejected => (nAccepted, nRejected + 1)
       end)
  end.

Section Withdrawals.

Context (settle : string -> list Thrown -> Thrown)
        (status : Z -> result Thrown RegistryStatus)
        (listManagerWithdrawals : nat -> list StoredWithdrawal * nat).

(** The batches of one page; [fuel] is the number of its items. *)
Fixpoint readBatches (fuel maximumAccounts : nat) (items : list StoredWithdrawal) (st : Withdrawals)
    : result Thrown Withdrawals :=
  match fuel, items with
  | _, [] | O, _ => Ok st
  | S fuel, _ =>
      let batch := take registryLookupConcurrency items in
      states ← Promise_all settle "registry" ((fun w => status (sw_requestId w)) <$> batch);
      readBatches fuel maximumAccounts (drop registryLookupConcurrency items)
        (fold_left (pushWithdrawal maximumAccounts) (zip batch states) st)
  end.

Fixpoint readWithdrawals (fuel maximumAccounts offset : nat) (st : Withdrawals)
    : result Thrown (option Withdrawals) :=
  match fuel with
  | O => Ok None
  | S fuel =>
      let '(items, total) := listManagerWithdrawals offset in
      st ← readBatches (List.length items) maximumAccounts items st;
      let offset := (offset + List.length items)%nat in
      if (total <=? offset)%nat || (List.length items =? 0)%nat then Ok (Some st)
      else readWithdrawals fuel maximumAccounts offset st
  end.

End Withdrawals.

(** ** The facts *)

Record FactsReads := {
  fa_setup : result ReadError SetupFacts;
  fa_wallet : option Sender;
  fa_context : result ReadError unit;
  fa_anchor : nat -> NodeReads;
}.

Section Facts.

Context (lib : ClarityLibrary) (node : Node) (settle : string -> list Thrown -> Thrown)
        (withdrawalRequestStatus : string -> Z -> string -> result ReadError RegistryStatus)
        (claims : Z -> list Z -> Anchor.ChainAnchor -> nat -> result Thrown StakerClaimsPage)
        (listManagerWithdrawals : nat -> list StoredWithdrawal * nat).

(** Whether the calculation this request names is still to be made. *)
Definition calculationRequired (request : PrepareRequest) (pox5 wallet : string)
    (anchor : Anchor.ChainAnchor) (first : option Z) : result Thrown bool :=
  match readPox5CalculateRewardsObservation lib node settle pox5 wallet anchor first with
  | Ok calculation =>
      Ok ((cr_targetRewardCycle calculation =? pr_cycle request) &&
          (checkpointDistribution (cr_targetCheckpoint calculation) =? pr_distribution request))
  | Err (pox5_calculate_rewards_error already_computed) => Ok false
  | Err e => Err e
  end.

Definition maximumAccounts : nat := 200.

Definition createLiveRewardRunFacts (fuel : nat) (reads : FactsReads) (managerPrincipal : string)
    (request : PrepareRequest) : result Thrown (option DraftFacts) :=
  let needed := factReadsForOperations (pr_operations request) in
  setup ← of_read (fa_setup reads);
  wallet ← match fa_wallet reads with Some w => Ok w | None => Err (thrown OtherError) end;
  pox5Contract ← present (su_pox5ContractId setup);
  sbtcToken ← present (su_sbtcTokenContract setup);
  sbtcRegistry ← present (su_sbtcRegistryContract setup);
  pox5Sha ← present (su_pox5Sha256 setup);
  managerSha ← present (su_managerSha256 setup);
  _ ← require (negb (existsb isManagerOperation (default operationOrder (pr_operations request)) &&
                     negb (reviewedRewardManagerAvailable setup managerSha))) (thrown OtherError);
  _ ← of_read (fa_context reads);
  anchor ← of_read (captureNodeChainAnchor (fa_anchor reads));
  calculateRequired ←
    (if fr_calculate needed
     then calculationRequired request pox5Contract (sender_principal wallet) anchor
            (su_firstRewardCycleId setup)
     else Ok false);
  collect ←
    (if fr_collect needed
     then managerCollectAtAnchor lib node settle pox5Contract managerPrincipal (pr_cycle request) anchor
     else Ok {| mc_bondPeriods := []; mc_totalSats := 0 |});
  accounts ←
    (if fr_accounts needed
     then readAccounts (claims (pr_cycle request) (mc_bondPeriods collect) anchor) fuel maximumAccounts
            (pr_cycle request) 0 ([], 0)
     else Ok (Some ([], 0)));
  withdrawals ←
    (if fr_withdrawals needed
     then readWithdrawals settle
            (fun id => of_read (withdrawalRequestStatus sbtcRegistry id (Anchor.indexBlockHash anchor)))
            listManagerWithdrawals fuel maximumAccounts 0 ([], (0, 0))
     else Ok (Some ([], (0, 0))));
  let collectRequired := 0 <? mc_totalSats collect in
  Ok (match accounts, withdrawals with
      | Some (drafts, eligible), Some (waiting, (nAccepted, nRejected)) =>
          Some {| f_walletPrincipal := sender_principal wallet; f_managerPrincipal := managerPrincipal;
                  f_pox5Contract := pox5Contract; f_sbtcTokenContract := sbtcToken;
                  f_sbtcRegistryContract := sbtcRegistry;
                  f_network := if String.eqb (su_network setup) "mainnet" then mainnet else testnet;
                  f_chainId := su_networkId setup; f_cycle := pr_cycle request;
                  f_distribution := pr_distribution request;
                  f_preparedAnchor := {| stacksBlockHeight := Anchor.stacksBlockHeight anchor;
                                         burnBlockHeight := Anchor.burnBlockHeight anchor;
                                         indexBlockHash := Anchor.indexBlockHash anchor |};
                  f_managerSourceFingerprint := managerSha; f_pox5SourceFingerprint := pox5Sha;
                  f_calculateRequired := calculateRequired; f_collectRequired := collectRequired;
                  f_maximumCollectSats := if collectRequired then Some (mc_totalSats collect) else None;
                  f_eligibleAccountCount := eligible; f_eligibleAccepted := nAccepted;
                  f_eligibleRejected := nRejected; f_accounts := drafts; f_withdrawals := waiting |}
      | _, _ => None
      end).

End Facts.

(** * The whole universe of work *)

(** ** Accounts *)

Definition draftOf (rewardCycle : Z) (c : StakerCandidate) : DraftAccount :=
  {| da_stakerPrincipal := sc_stakerPrincipal c; da_rewardCycle := rewardCycle;
     da_bondIndex := sc_bondIndex c; da_maximumGrossSats := sc_grossSats c;
     da_payoutRoute := sc_payoutKind c |}.

(** The drafts of the candidates with an entitlement. *)
Definition entitled (rewardCycle : Z) (l : list StakerCandidate) : list DraftAccount :=
  draftOf rewardCycle <$> filter (fun c => sc_grossSats c <> 0) l.

Lemma entitled_app cycle l k : entitled cycle (l ++ k) = entitled cycle l ++ entitled cycle k.
Proof. unfold entitled. by rewrite filter_app, fmap_app. Qed.

(** Pushing onto a list that is cut at [n]. *)
Lemma take_push {A} n (D : list A) x :
  (if (List.length (take n D) <? n)%nat then take n D ++ [x] else take n D) = take n (D ++ [x]).
Proof.
  rewrite length_take. destruct (Nat.ltb_spec (Nat.min n (List.length D)) n).
  - rewrite !take_ge by (rewrite ?length_app; cbn; lia). done.
  - rewrite take_app_le by lia. done.
Qed.

Lemma pushCandidates_spec n cycle l D m :
  fold_left (pushCandidate n cycle) l (take n D, m) =
  (take n (D ++ entitled cycle l), m + Z.of_nat (List.length (entitled cycle l))).
Proof.
  revert D m. induction l as [|c l IH]; intros D m; cbn [fold_left].
  - rewrite app_nil_r. cbn. f_equal. lia.
  - unfold pushCandidate at 2, entitled. rewrite filter_cons.
    destruct (Z.eqb_spec (sc_grossSats c) 0) as [Hz|Hz].
    + rewrite decide_False by lia. apply IH.
    + rewrite decide_True by lia. change (take n D ++ _) with (take n D ++ [draftOf cycle c]).
      rewrite (take_push n D (draftOf cycle c)), IH. cbn [fmap list_fmap List.length].
      rewrite <- app_assoc. f_equal. unfold entitled. lia.
Qed.

Section Roster.

Context (claimsOf : string -> list StakerCandidate) (summary : list string -> StakerSettlementSummary)
        (roster : list string) (cycle : Z).

(** A page of the roster, when every read of it answers. *)
Definition rosterPage (offset : nat) : result Thrown StakerClaimsPage :=
  Ok {| cp_rewardCycle := cycle; cp_stakerPrincipals := take pageLimit (drop offset roster);
        cp_stakersTotal := List.length roster; cp_settlement := summary (take pageLimit (drop offset roster));
        cp_nextCursor := if (offset + pageLimit <? List.length roster)%nat then Some (offset + pageLimit)%nat
                         else None;
        cp_candidates := List.concat (claimsOf <$> take pageLimit (drop offset roster)) |}.

Definition all_entitled : list DraftAccount := entitled cycle (List.concat (claimsOf <$> roster)).

Lemma readAccounts_page fuel n offset st :
  let st' := fold_left (pushCandidate n cycle)
               (List.concat (claimsOf <$> take pageLimit (drop offset roster))) st in
  readAccounts rosterPage (S fuel) n cycle offset st =
  if (offset + pageLimit <? List.length roster)%nat
  then readAccounts rosterPage fuel n cycle (offset + pageLimit) st' else Ok (Some st').
Proof.
  cbn zeta. transitivity (page ← rosterPage offset; _ ← require (cp_rewardCycle page =? cycle) (thrown OtherError);
    let st := fold_left (pushCandidate n (cp_rewardCycle page)) (cp_candidates page) st in
    match cp_nextCursor page with
    | None => Ok (Some st) | Some next => readAccounts rosterPage fuel n cycle next st end); [done|].
  unfold rosterPage. cbn [mbind result_bind cp_rewardCycle cp_candidates cp_nextCursor].
  rewrite Z.eqb_refl. cbn [require mbind result_bind]. by destruct (_ <? _)%nat.
Qed.

Lemma readAccounts_from fuel n offset D m :
  (List.length roster <= offset + pageLimit * fuel)%nat ->
  let rest := entitled cycle (List.concat (claimsOf <$> drop offset roster)) in
  readAccounts rosterPage (S fuel) n cycle offset (take n D, m) =
  Ok (Some (take n (D ++ rest), m + Z.of_nat (List.length rest))).
Proof.
  revert offset D m. induction fuel as [|fuel IH]; intros offset D m Hf; cbn zeta;
    rewrite readAccounts_page, pushCandidates_spec;
    destruct (Nat.ltb_spec (offset + pageLimit) (List.length roster)) as [Hlt|Hge].
  2, 4: rewrite (take_ge (drop offset roster)) by (rewrite length_drop; lia); reflexivity.
  - lia.
  - rewrite IH by (unfold pageLimit in *; lia). rewrite <- app_assoc, <- entitled_app.
    rewrite <- List.concat_app, <- fmap_app, <- drop_drop, take_drop.
    do 3 f_equal. rewrite <- Z.add_assoc, <- Nat2Z.inj_add, <- length_app, <- entitled_app.
    by rewrite <- List.concat_app, <- fmap_app, take_drop.
Qed.

(** The payments of a recipe come from the whole roster: over any number of pages, the
    discovery ends, counts every account with an entitlement, and offers the first ones up to
    the cap, each with the gross amount, route and bucket the claims report. *)
Theorem every_account_is_counted fuel n :
  (List.length roster <= pageLimit * fuel)%nat ->
  readAccounts rosterPage (S fuel) n cycle 0 ([], 0) =
  Ok (Some (take n all_entitled, Z.of_nat (List.length all_entitled))).
Proof.
  intros Hf. pose proof (readAccounts_from fuel n 0 [] 0 ltac:(lia)) as H. cbn zeta in H.
  rewrite take_nil, drop_0 in H. exact H.
Qed.

End Roster.

(** ** Withdrawals *)

Definition draftWithdrawal (entry : StoredWithdrawal * RegistryStatus) : option DraftWithdrawal :=
  let '(w, status) := entry in
  state ← draftState status;
  Some {| dw_requestId := sw_requestId w; dw_stakerPrincipal := sw_stakerPrincipal w; dw_state := state;
          dw_maximumAmountSats := sw_amountSats w + sw_maxFeeSats w;
          dw_withdrawalAmountSats := sw_amountSats w; dw_maxFeeSats := sw_maxFeeSats w |}.

#[global] Instance WithdrawalState_eq_dec : EqDecision WithdrawalState.
Proof. solve_decision. Defined.

Definition in_state (state : WithdrawalState) (l : list DraftWithdrawal) : Z :=
  Z.of_nat (List.length (filter (fun d => dw_state d = state) l)).

Lemma in_state_app state l k : in_state state (l ++ k) = in_state state l + in_state state k.
Proof. unfold in_state. rewrite filter_app, length_app. lia. Qed.

Lemma in_state_cons state d l :
  in_state state (d :: l) = (if decide (dw_state d = state) then 1 else 0) + in_state state l.
Proof. unfold in_state. rewrite filter_cons. case_decide; cbn [List.length]; lia. Qed.

(** The result of reading the entries: the first drafts up to the cap, and the exact counts. *)
Definition counted (n : nat) (D : list DraftWithdrawal) (nAccepted nRejected : Z)
    (drafts : list DraftWithdrawal) : Withdrawals :=
  (take n (D ++ drafts), (nAccepted + in_state w_accepted drafts, nRejected + in_state w_rejected drafts)).

Lemma pushWithdrawal_spec n D p q entry :
  pushWithdrawal n (take n D, (p, q)) entry = counted n D p q 
    (match draftWithdrawal entry with Some d => [d] | None => [] end).
Proof.
  destruct entry as [w status]. unfold pushWithdrawal, draftWithdrawal, counted.
  destruct (draftState status) as [state|]; cbn [mbind option_bind].
  - rewrite (take_push n D), !in_state_cons. cbn [dw_state]. unfold in_state.
    by destruct state; cbn; rewrite ?Z.add_0_r.
  - rewrite app_nil_r. unfold in_state. cbn. by rewrite !Z.add_0_r.
Qed.

Lemma counted_app n D p q k l :
  counted n (D ++ k) (p + in_state w_accepted k) (q + in_state w_rejected k) l = counted n D p q (k ++ l).
Proof. unfold counted. by rewrite <- app_assoc, !in_state_app, !Z.add_assoc. Qed.

Lemma counted_nil n D p q : counted n D p q [] = (take n D, (p, q)).
Proof. unfold counted, in_state. cbn. by rewrite app_nil_r, !Z.add_0_r. Qed.

Lemma pushWithdrawals_spec n l D p q :
  fold_left (pushWithdrawal n) l (take n D, (p, q)) = counted n D p q (omap draftWithdrawal l).
Proof.
  revert D p q. induction l as [|entry l IH]; intros D p q; [by rewrite counted_nil|].
  cbn [fold_left]. rewrite pushWithdrawal_spec. unfold counted at 1. rewrite IH, counted_app. f_equal.
  cbn. by destruct (draftWithdrawal entry).
Qed.

Section Registry.

Context (settle : string -> list Thrown -> Thrown) (registry : Z -> RegistryStatus)
        (stored : list StoredWithdrawal).

Definition entryOf (w : StoredWithdrawal) : StoredWithdrawal * RegistryStatus :=
  (w, registry (sw_requestId w)).

Definition answers (requestId : Z) : result Thrown RegistryStatus := Ok (registry requestId).

(** [listManagerWithdrawals]: [LIMIT 200 OFFSET offset] over the pending requests. *)
Definition storedPage (offset : nat) : list StoredWithdrawal * nat :=
  (take withdrawalLimit (drop offset stored), List.length stored).

Definition all_finished : list DraftWithdrawal := omap draftWithdrawal (entryOf <$> stored).

Lemma readBatches_spec fuel n items D p q : (List.length items <= fuel)%nat ->
  readBatches settle answers fuel n items (take n D, (p, q)) =
  Ok (counted n D p q (omap draftWithdrawal (entryOf <$> items))).
Proof.
  revert items D p q. induction fuel as [|fuel IH]; intros items D p q Hf.
  { destruct items; [by cbn; rewrite counted_nil | cbn in Hf; lia]. }
  destruct items as [|w items]; [by cbn; rewrite counted_nil|].
  cbn [readBatches]. set (all := w :: items) in *. set (batch := take registryLookupConcurrency all).
  assert (Hp : Promise_all settle "registry" ((fun w => answers (sw_requestId w)) <$> batch) =
               Ok ((fun w => registry (sw_requestId w)) <$> batch)).
  { apply Promise_all_map, Forall2_fmap_r, Forall_Forall2_diag, Forall_true. done. }
  rewrite Hp. cbn [mbind result_bind].
  assert (Hz : zip batch ((fun w => registry (sw_requestId w)) <$> batch) = entryOf <$> batch).
  { clear. induction batch as [|x batch IH]; [done|]. cbn. by rewrite <- IH. }
  rewrite Hz, pushWithdrawals_spec. unfold counted at 1. rewrite IH.
  2: { rewrite length_drop. unfold registryLookupConcurrency, all in *. cbn in *. lia. }
  rewrite counted_app, <- omap_app, <- fmap_app. unfold batch. by rewrite take_drop.
Qed.

Lemma readWithdrawals_page fuel n offset D p q :
  let items := take withdrawalLimit (drop offset stored) in
  let st := counted n D p q (omap draftWithdrawal (entryOf <$> items)) in
  readWithdrawals settle answers storedPage (S fuel) n offset (take n D, (p, q)) =
  if (List.length stored <=? offset + List.length items)%nat || (List.length items =? 0)%nat
  then Ok (Some st)
  else readWithdrawals settle answers storedPage fuel n (offset + List.length items) st.
Proof.
  cbn zeta. set (items := take withdrawalLimit (drop offset stored)). transitivity
    (st ← readBatches settle answers (List.length items) n items (take n D, (p, q));
     if (List.length stored <=? offset + List.length items)%nat || (List.length items =? 0)%nat
     then Ok (Some st)
     else readWithdrawals settle answers storedPage fuel n (offset + List.length items) st); [done|].
  by rewrite readBatches_spec.
Qed.

Lemma readWithdrawals_from fuel n offset D p q :
  (List.length stored <= offset + withdrawalLimit * fuel)%nat ->
  readWithdrawals settle answers storedPage (S fuel) n offset (take n D, (p, q)) =
  Ok (Some (counted n D p q (omap draftWithdrawal (entryOf <$> drop offset stored)))).
Proof.
  revert offset D p q. induction fuel as [|fuel IH]; intros offset D p q Hf;
    rewrite readWithdrawals_page; set (items := take withdrawalLimit (drop offset stored)).
  all: assert (Hl : List.length items = Nat.min withdrawalLimit (List.length stored - offset))
    by (unfold items; by rewrite length_take, length_drop).
  all: destruct (Nat.leb_spec (List.length stored) (offset + List.length items)) as [Hle|Hgt]; cbn [orb].
  1, 3: unfold items; rewrite (take_ge (drop offset stored))
    by (rewrite length_drop; unfold withdrawalLimit in *; lia); reflexivity.
  - unfold withdrawalLimit in *. lia.
  - assert (Hi : List.length items = withdrawalLimit) by (unfold withdrawalLimit in *; lia).
    destruct (Nat.eqb_spec (List.length items) 0) as [H0|_]; [unfold withdrawalLimit in *; lia|].
    unfold counted at 1. rewrite IH by (unfold withdrawalLimit in *; lia).
    rewrite counted_app, <- omap_app, <- fmap_app, Hi, <- drop_drop. unfold items. by rewrite take_drop.
Qed.

(** Every pending request of the store is looked up and counted; the drafts are the finished ones
    in request order up to the cap, each with the amounts the store holds. *)
Theorem every_withdrawal_is_counted fuel n :
  (List.length stored <= withdrawalLimit * fuel)%nat ->
  readWithdrawals settle answers storedPage (S fuel) n 0 ([], (0, 0)) =
  Ok (Some (take n all_finished, (in_state w_accepted all_finished, in_state w_rejected all_finished))).
Proof.
  intros Hf. pose proof (readWithdrawals_from fuel n 0 [] 0 0 ltac:(lia)) as H.
  rewrite take_nil, drop_0 in H. exact H.
Qed.

End Registry.

(** ** Coherent facts make a coherent recipe *)

(** A draft reclaims at most the withdrawal with its fee. *)
Definition exact_sum (w : DraftWithdrawal) : Prop :=
  dw_maximumAmountSats w = dw_withdrawalAmountSats w + dw_maxFeeSats w.

Record facts_coherent (f : DraftFacts) : Prop := {
  fc_bond : Forall (fun a => canonical_bond (da_bondIndex a)) (f_accounts f);
  fc_amount : Forall exact_sum (f_withdrawals f);
}.

Lemma pushCandidate_Forall (P : DraftAccount -> Prop) n cycle st c :
  Forall P st.1 -> P (draftOf cycle c) -> Forall P (pushCandidate n cycle st c).1.
Proof.
  destruct st as [accounts eligible]. unfold pushCandidate. intros Ha Hc.
  destruct (sc_grossSats c =? 0); [done|]. destruct (List.length accounts <? n)%nat; [|done].
  apply Forall_app. split; [done | by constructor].
Qed.

Lemma readAccounts_Forall (P : DraftAccount -> Prop) claims fuel n cycle offset st out :
  (forall o page, claims o = Ok page ->
     Forall (fun c => P (draftOf (cp_rewardCycle page) c)) (cp_candidates page)) ->
  Forall P st.1 -> readAccounts claims fuel n cycle offset st = Ok (Some out) -> Forall P out.1.
Proof.
  intros Hclaims. revert offset st. induction fuel as [|fuel IH]; intros offset st Hst H; [done|].
  cbn [readAccounts] in H. apply bind_Ok in H as (page & Hp & H). apply bind_Ok in H as (? & _ & H).
  assert (Hst' : Forall P (fold_left (pushCandidate n (cp_rewardCycle page)) (cp_candidates page) st).1).
  { specialize (Hclaims _ _ Hp). clear -Hclaims Hst. revert st Hst.
    induction Hclaims as [|c l Hc _ IH]; intros st Hst; [done|]. cbn. apply IH. by apply pushCandidate_Forall. }
  destruct (cp_nextCursor page); [by eapply IH|]. by injection H as <-.
Qed.

Lemma pushWithdrawal_Forall n st entry :
  Forall exact_sum st.1 ->
  Forall exact_sum
    (pushWithdrawal n st entry).1.
Proof.
  destruct st as [drafts [p q]], entry as [w status]. unfold pushWithdrawal. intros H.
  destruct (draftState status); [|done]. destruct (List.length drafts <? n)%nat; [|done].
  apply Forall_app. split; [done|]. by repeat constructor.
Qed.

Lemma readBatches_Forall settle status fuel n items st out :
  Forall exact_sum st.1 ->
  readBatches settle status fuel n items st = Ok out ->
  Forall exact_sum out.1.
Proof.
  revert items st. induction fuel as [|fuel IH]; intros items st Hst H.
  { destruct items; by injection H as <-. }
  destruct items as [|w items]; [by injection H as <-|].
  cbn [readBatches] in H. apply bind_Ok in H as (states & _ & H). eapply IH; [|exact H].
  clear -Hst. revert st Hst. induction (zip _ _) as [|e l IH]; intros st Hst; [done|].
  cbn. apply IH. by apply pushWithdrawal_Forall.
Qed.

Lemma readWithdrawals_Forall settle status pages fuel n offset st out :
  Forall exact_sum st.1 ->
  readWithdrawals settle status pages fuel n offset st = Ok (Some out) ->
  Forall exact_sum out.1.
Proof.
  revert offset st. induction fuel as [|fuel IH]; intros offset st Hst H; [done|].
  cbn [readWithdrawals] in H. destruct (pages offset) as [items total].
  apply bind_Ok in H as (st' & Hb & H). apply readBatches_Forall in Hb; [|done].
  destruct (_ || _); [by injection H as <-|]. by eapply IH.
Qed.

(** What one piece of sealed work is. *)
Lemma sealed_child_shape cmp max selected f c :
  Forall exact_sum
    (sortWithdrawals (f_withdrawals f)) ->
  c ∈ sealed max (work cmp selected f) ->
  rc_adapterId c = adapter_of (rc_operation c) /\
  rc_adapterRevision c = REWARD_OPERATION_ADAPTER_REVISIONS (rc_adapterId c) /\
  match rc_operation c with
  | op_calculate_rewards | op_settle_accepted_withdrawal => rc_maximumAmountSats c = None
  | op_claim_rewards | op_claim_staker_rewards => is_Some (rc_maximumAmountSats c)
  | op_reclaim_failed_withdrawal => exists w fee, rc_withdrawalAmountSats c = Some w /\
      rc_maxFeeSats c = Some fee /\ rc_maximumAmountSats c = Some (w + fee)
  end.
Proof.
  intros Hw (i & Hi)%list_elem_of_lookup. unfold sealed in Hi.
  apply list_lookup_imap_Some in Hi as ([op d] & Hin & ->). cbn. split; [done|]. split; [done|].
  apply list_elem_of_lookup_2 in Hin. eapply elem_of_sublist in Hin; [|apply sublist_take].
  unfold work in Hin. rewrite !elem_of_app in Hin. destruct Hin as [Hin|[Hin|[Hin|Hin]]].
  - destruct (_ && f_calculateRequired f); [|by apply elem_of_nil in Hin].
    by apply list_elem_of_singleton in Hin as [= -> ->].
  - destruct (_ && f_collectRequired f), (f_maximumCollectSats f);
      first [by apply elem_of_nil in Hin|by apply list_elem_of_singleton in Hin as [= -> ->]].
  - by apply list_elem_of_fmap in Hin as (a & [= -> ->] & _).
  - apply list_elem_of_fmap in Hin as (w & [= -> ->] & Hin). apply list_elem_of_filter in Hin as [_ Hin].
    rewrite Forall_forall in Hw. specialize (Hw w Hin). unfold withdrawalDetail, withdrawalOperation.
    destruct (dw_state w); cbn; [done|]. rewrite Hw. by exists (dw_withdrawalAmountSats w), (dw_maxFeeSats w).
Qed.

Lemma NoDup_map_inj {A B} (f : A -> B) l a b : NoDup (map f l) -> a ∈ l -> b ∈ l -> f a = f b -> a = b.
Proof.
  intros Hnd [i Hi]%list_elem_of_lookup [j Hj]%list_elem_of_lookup Hf.
  assert (i = j) as ->.
  { assert (Hm : forall k, map f l !! k = f <$> l !! k) by (intros k; apply list_lookup_fmap).
    apply (NoDup_lookup (map f l) i j (f a) Hnd); rewrite Hm; [by rewrite Hi | by rewrite Hj, Hf]. }
  congruence.
Qed.

Lemma built_recipe_coherent sha256 cmp input r :
  facts_coherent (i_facts input) -> buildRewardRunRecipe sha256 cmp input = Ok r -> recipe_coherent r.
Proof.
  intros Hco H. destruct (build_inv _ _ _ _ H) as (selected & kept & _ & Hc & _ & Hk & Ha & _).
  destruct (kept_payments _ _ _ _ _ Hc Hk) as [Hpay Hnd].
  assert (Hw : Forall exact_sum
                 (sortWithdrawals (f_withdrawals (i_facts input)))).
  { apply Forall_forall. intros w Hin. apply elem_of_js_sort in Hin.
    pose proof (fc_amount _ Hco) as Hf. rewrite Forall_forall in Hf. by apply Hf. }
  split.
  - intros rc Hin. rewrite Hc in Hin. by destruct (sealed_child_shape _ _ _ _ _ Hw Hin) as (? & ? & _).
  - intros a Hin. rewrite Ha in Hin. apply list_elem_of_fmap in Hin as (d & -> & Hd). cbn. split; [done|].
    apply filterAccounts_Ok in Hk as (_ & _ & ->). apply list_elem_of_filter in Hd as [_ Hd].
    apply elem_of_js_sort in Hd. pose proof (fc_bond _ Hco) as Hb. rewrite Forall_forall in Hb. by apply Hb.
  - intros rc a Hin Hacc Hop Hkey. rewrite Ha in Hacc. apply list_elem_of_fmap in Hacc as (d & -> & Hd).
    assert (Hp : child_payment rc ∈ map child_payment (payment_children (r_children r))).
    { apply list_elem_of_fmap. exists rc. split; [done|]. by apply list_elem_of_filter. }
    rewrite Hpay in Hp. apply list_elem_of_fmap in Hp as (b & Hb & Hbk).
    unfold child_payment, account_payment in Hb. cbn in Hb, Hkey |- *. injection Hb as Hk1 Hk2 Hk3.
    assert (b = d) as -> by (apply (NoDup_map_inj accountKey kept); [done|done|done|congruence]).
    by rewrite Hk2, Hk3.
  - intros rc Hin. rewrite Hc in Hin. by destruct (sealed_child_shape _ _ _ _ _ Hw Hin) as (_ & _ & ?).
Qed.

(** The wiring of main.ts: the facts ask the operator service for a page of the run's cycle and bonds at
    its anchor; [claimsReads] is what the store and the snapshot answer at each page. *)
Definition runClaims (lib : ClarityLibrary) (node : Node) (settle : string -> list Thrown -> Thrown)
    (managerPrincipal : string) (claimsReads : nat -> ClaimsReads) (rewardCycle : Z) (bondIndices : list Z)
    (chainAnchor : Anchor.ChainAnchor) (offset : nat) : result Thrown StakerClaimsPage :=
  stakerClaims lib node settle managerPrincipal (claimsReads offset)
    {| op_offset := Some offset; op_limit := Some pageLimit; op_rewardCycle := Some rewardCycle;
       op_bondIndices := Some bondIndices |} chainAnchor.

(** C38. Discovery, recipe and driver fit together: a recipe built from facts discovered on the
    chain, the claims of the stakers read page by page from the reconciled roster, is coherent, that
    is, every child of it names an adapter, an account and bounds for which the driver's plan is the
    one the service checks for. *)
Theorem discovered_recipe_is_coherent lib node settle registryStatus claimsReads pages fuel reads manager
    request f sha256 cmp runId cap maximum r :
  createLiveRewardRunFacts lib node settle registryStatus (runClaims lib node settle manager claimsReads) pages fuel
    reads manager request
    = Ok (Some f) ->
  buildRewardRunRecipe sha256 cmp
    {| i_runId := runId; i_facts := f; i_request := request; i_feeCapUstx := cap;
       i_maximumTransactions := maximum |} = Ok r ->
  recipe_coherent r.
Proof.
  intros H Hb. apply built_recipe_coherent in Hb; [done|]. clear Hb. cbn.
  unfold createLiveRewardRunFacts in H.
  do 9 (apply bind_Ok in H as (? & _ & H)). apply bind_Ok in H as (anchor & _ & H).
  do 2 (apply bind_Ok in H as (? & _ & H)). apply bind_Ok in H as (accounts & Ha & H).
  apply bind_Ok in H as (withdrawals & Hw & H).
  destruct accounts as [[drafts eligible]|]; [|done].
  destruct withdrawals as [[waiting [p q]]|]; [|done]. injection H as <-. split; cbn.
  - destruct (fr_accounts _); [|injection Ha as <- _; constructor].
    eapply (readAccounts_Forall (fun a => canonical_bond (da_bondIndex a))) in Ha; [done| |by constructor].
    intros o page Hp. by apply candidates_canonical in Hp.
  - destruct (fr_withdrawals _); [|injection Hw as <- _ _; constructor].
    by eapply readWithdrawals_Forall in Hw; [|constructor].
Qed.
