(* ===== verification/SweepService.v ===== *)
(** * The gas-wallet sweep service

    The sweeps of [GasWalletService] in apps/sidekick/src/gas-wallet.ts.  As in [RunService], an
    async method is cut at its awaits and what it awaits comes back as an argument; [now] is the
    instant the method was called at, and [w_now] the clock of the segment.  An approval and a
    refresh are each joined by later callers, so there is at most one of each per sweep. *)

From S2P Require Import Prelude Text Principals OperationPlan TransactionJob SweepPlan.
From S2P Require Import NakamotoBlock Broadcast LiveReader Recipe Receipt RunStore SweepStore Cadence.

Open Scope Z_scope.

(** ** Data *)

(** What a segment reads synchronously: the clock, the recorded wallet, the engine (its signer's
    readiness and its executing jobs) and whether the node connection is current. *)
Record WalletEnv := {
  w_now : Z;
  w_wallet : option Sender;
  w_engine : option (bool * Z);
  w_connected : bool;
}.

Record SweepOptions := {
  so_network : NetworkId;
  so_maximumFeeUstx : Z;
  so_approvalMinutes : option Z;
}.

(** The account at the tip, when the node answered. *)
Record WalletAccount := { wa_balanceUstx : Z; wa_nonce : Z }.

Inductive RefusalReason := contract_principal | manager_admin | signer_key | check_unavailable.

(** What a waiting approval continues with. *)
Inductive ApprovePhase :=
  | ap_checking (sweep : SweepRow) (now : Z)
  | ap_reading (sweep : SweepRow) (plan : SweepPlan) (now : Z)
  | ap_signing (plan : SweepPlan) (now : Z)
  | ap_sending (txid : string).

Section SweepService.

Context (isUuid : string -> bool) (validateStacksAddress : string -> bool)
        (makeUnsigned : Transfer -> option string) (deserialize : string -> option ReadBack)
        (sha256 : list Z -> string) (options : SweepOptions).

Abbreviation plan_sweep := (planGasWalletSweep validateStacksAddress makeUnsigned deserialize sha256).
Abbreviation revalidate :=
  (revalidateGasWalletSweepPlan validateStacksAddress makeUnsigned deserialize sha256).

Definition sweep_throw {A} (code : SweepErrorCode) : repo A := raise (sweep_error code).
Definition sweep_guard (b : bool) (code : SweepErrorCode) : repo unit :=
  guard_repo b (sweep_error code).

(** ** Refusal checks *)

(** [refusalChecks] of a sweep, which never throws: whether the manager answered that the wallet
    is an admin, and the principal of the registered signer key, if any. *)
Definition refusalChecks (principal : string) (isAdmin : option bool)
    (signerPrincipal : option (option string)) : option RefusalReason :=
  let isSignerKey := match signerPrincipal with
                     | Some (Some p) => Some (String.eqb p principal)
                     | Some None => Some false
                     | None => None
                     end in
  if includes_dot principal then Some contract_principal
  else if bool_decide (isAdmin = Some true) then Some manager_admin
  else if bool_decide (isSignerKey = Some true) then Some signer_key
  else if bool_decide (isAdmin = None) || bool_decide (isSignerKey = None) then Some check_unavailable
  else None.

(** ** Helpers of the store *)

Definition requireSweep (id : string) : repo SweepRow :=
  o ← get_sweep isUuid id;
  match o with Some r => mret r | None => sweep_throw gas_wallet_sweep_not_found end.

Definition resolveSweep (id : string) (status : SweepStatus) (now : Z) (reason : option string)
    : repo SweepRow :=
  update_sweep isUuid id
    {| pt_status := Some status; pt_txid := None; pt_broadcastAmbiguous := None;
       pt_executionSource := None; pt_approvedAt := None; pt_broadcastAt := None;
       pt_resolvedAt := Some now; pt_blockHeight := None; pt_failureReason := Some reason |} now.

Definition window_elapsed : option string := Some "Approval window elapsed"%string.

Definition expirePlannedSweeps (now : Z) : repo unit :=
  o ← activeSweep isUuid;
  match o with
  | Some (id, r) =>
      if bool_decide (sr_status r = sweep_planned) && (sr_expiresAt r <=? now)
      then _ ← resolveSweep id sweep_expired now window_elapsed; mret tt
      else mret tt
  | None => mret tt
  end.

Definition active_jobs (env : WalletEnv) : Z :=
  match w_engine env with Some (_, n) => n | None => 0 end.

Definition requireNoActiveWork (env : WalletEnv) : repo unit :=
  _ ← expirePlannedSweeps (w_now env);
  o ← activeSweep isUuid;
  _ ← sweep_guard (bool_decide (o = None)) gas_wallet_sweep_blocked;
  sweep_guard (negb (0 <? active_jobs env)) gas_wallet_sweep_blocked.

Definition listSweeps (env : WalletEnv) (limit : Z) : repo (list (string * SweepRow)) :=
  _ ← expirePlannedSweeps (w_now env);
  list_sweeps isUuid limit.

(** ** Preparing *)

(** [prepareSweep] up to the account read: the wallet that is swept. *)
Definition prepare_start (env : WalletEnv) : repo Sender :=
  match w_wallet env with
  | None => sweep_throw gas_wallet_missing
  | Some wallet =>
      _ ← requireNoActiveWork env;
      _ ← sweep_guard (w_connected env) gas_wallet_sweep_unavailable;
      mret wallet
  end.

(** The node's answer when the estimate may be asked for; otherwise the reader throws. *)
Definition estimate (unsignedHex : string) (answer : Fee.FeeObservation)
    : result LiveInputError Fee.FeeObservation :=
  _ ← unsignedFeeMaterial deserialize unsignedHex; Ok answer.

(** [#estimateFee]: with a policy its clamp, otherwise the node's estimate up to the cap. *)
Definition estimateFee (policy : option Fee.TransactionFeePolicy) (unsignedHex : string)
    (answer : Fee.FeeObservation) (cap : Z) : Z :=
  match estimate unsignedHex answer with
  | Ok observed =>
      match policy with
      | Some p => Fee.feeUstx (Fee.selectTransactionFee (Some observed) p)
      | None =>
          match observed with
          | Fee.fee_unobserved => cap
          | Fee.fee_observed middle =>
              if middle <=? 0 then cap else if cap <? middle then cap else middle
          end
      end
  | Err _ => match policy with Some p => Fee.feeUstx (Fee.selectTransactionFee None p) | None => cap end
  end.

(** The errors of the planner as the service reports them. *)
Definition of_plan (m : result SweepPlanError SweepPlan) : repo SweepPlan :=
  match m with
  | Ok plan => mret plan
  | Err insufficient_balance => sweep_throw gas_wallet_sweep_empty
  | Err (invalid_recipient | recipient_is_wallet) => sweep_throw invalid_gas_wallet_sweep_recipient
  | Err _ => raise other_error
  end.

Definition sweep_plan_input (wallet : Sender) (recipient tip : string) (account : WalletAccount)
    (fee now : Z) : SweepPlanInput :=
  {| sw_network := so_network options; sw_sender := wallet; sw_recipient := recipient;
     sw_balanceUstx := wa_balanceUstx account; sw_feeUstx := fee; sw_nonce := wa_nonce account;
     sw_indexBlockHash := tip; sw_createdAt := now;
     sw_expiresAt := now + given (so_approvalMinutes options) 30 * 60 * 1000 |}.

(** [prepareSweep] after the account read, the estimate included: [Ok None] is an account the
    node did not show. *)
Definition prepare_finish (now : Z) (id : string) (wallet : Sender) (recipient tip : string)
    (account : result RunError (option WalletAccount)) (policy : option Fee.TransactionFeePolicy)
    (answer : Fee.FeeObservation) : repo SweepRow :=
  match account with
  | Err e => raise e
  | Ok None => sweep_throw gas_wallet_sweep_unavailable
  | Ok (Some account) =>
      let cap := so_maximumFeeUstx options in
      draft ← of_plan (plan_sweep (sweep_plan_input wallet recipient tip account cap now));
      let fee := estimateFee policy (sp_unsignedTransactionHex draft) answer cap in
      plan ← (if fee =? cap then mret draft
              else of_plan (plan_sweep (sweep_plan_input wallet recipient tip account fee now)));
      catch (insert_sweep isUuid id (sender_principal wallet) plan now)
        (fun e => match e with
                  | sweep_busy => sweep_throw gas_wallet_sweep_blocked
                  | _ => raise e
                  end)
  end.

(** ** Approving *)

Definition approve_start (env : WalletEnv) (id : string) : repo ApprovePhase :=
  match w_engine env with
  | None => sweep_throw gas_wallet_engine_unavailable
  | Some (ready, jobs) =>
      _ ← sweep_guard ready gas_wallet_engine_unavailable;
      sweep ← requireSweep id;
      _ ← sweep_guard (bool_decide (sr_status sweep = sweep_planned)) gas_wallet_sweep_state;
      if sr_expiresAt sweep <=? w_now env then
        _ ← resolveSweep id sweep_expired (w_now env) window_elapsed;
        sweep_throw gas_wallet_sweep_expired
      else
        _ ← sweep_guard (negb (0 <? jobs)) gas_wallet_sweep_blocked;
        mret (ap_checking sweep (w_now env))
  end.

(** After the refusal checks. *)
Definition approve_checked (env : WalletEnv) (id : string) (sweep : SweepRow) (now : Z)
    (refusal : option RefusalReason) : repo ApprovePhase :=
  _ ← sweep_guard (bool_decide (refusal = None)) gas_wallet_refused;
  o ← getPlan id;
  match o with
  | None => sweep_throw gas_wallet_sweep_not_found
  | Some plan =>
      _ ← sweep_guard (w_connected env) gas_wallet_sweep_unavailable;
      mret (ap_reading sweep plan now)
  end.

Definition assertSweepApprovalCurrent (env : WalletEnv) (id : string) : repo unit :=
  current ← requireSweep id;
  sweep_guard (bool_decide (sr_status current = sweep_planned) &&
               negb (sr_expiresAt current <=? w_now env)) gas_wallet_sweep_state.

Definition nonce_changed : option string := Some "Wallet nonce changed after the sweep was planned"%string.
Definition balance_short : option string :=
  Some "Wallet balance no longer covers the planned amount and fee"%string.

(** After the account read. *)
Definition approve_read (env : WalletEnv) (id : string) (plan : SweepPlan) (now : Z)
    (account : result RunError (option WalletAccount)) : repo ApprovePhase :=
  match account with
  | Err e => raise e
  | Ok None => sweep_throw gas_wallet_sweep_unavailable
  | Ok (Some account) =>
      let m := sp_material plan in
      if negb (wa_nonce account =? big (sm_nonce m)) ||
         (wa_balanceUstx account <? big (sm_amountUstx m) + big (sm_feeUstx m))
      then
        _ ← resolveSweep id sweep_expired now
              (if negb (wa_nonce account =? big (sm_nonce m)) then nonce_changed else balance_short);
        sweep_throw gas_wallet_sweep_stale
      else
        _ ← assertSweepApprovalCurrent env id;
        mret (ap_signing plan now)
  end.

(** After the signature: the approval is recorded with the transaction ID before it is sent.
    The signer revalidates the plan; [Ok txid] is its precomputed ID. *)
Definition approve_signed (env : WalletEnv) (id : string) (now : Z) (message : string)
    (signature : result RunError string) : repo ApprovePhase :=
  match signature with
  | Err _ =>
      _ ← resolveSweep id sweep_failed now (Some ("Signing failed: " ++ message)%string);
      sweep_throw gas_wallet_sweep_failed
  | Ok txid =>
      _ ← assertSweepApprovalCurrent env id;
      _ ← update_sweep isUuid id
            {| pt_status := Some sweep_broadcast; pt_txid := Some txid;
               pt_broadcastAmbiguous := Some true; pt_executionSource := None;
               pt_approvedAt := Some (w_now env); pt_broadcastAt := Some (w_now env);
               pt_resolvedAt := None; pt_blockHeight := None; pt_failureReason := None |} (w_now env);
      mret (ap_sending txid)
  end.

Definition rejected_reason (nodeMessage : option string) : string :=
  match nodeMessage with
  | Some m => if String.eqb m "" then "Node rejected the sweep" else ("Node rejected the sweep: " ++ m)
  | None => "Node rejected the sweep"
  end%string.

(** After the broadcast; a throw of the broadcaster is an ambiguous result. *)
Definition approve_sent (env : WalletEnv) (id txid : string)
    (outcome : result RunError TransactionBroadcastResult) : repo SweepRow :=
  let at_ := w_now env in
  current ← requireSweep id;
  if negb (bool_decide (sr_status current = sweep_broadcast)) ||
     negb (bool_decide (sr_failureReason current = None))
  then mret current
  else
    let sent (ambiguous : bool) :=
      update_sweep isUuid id
        {| pt_status := Some sweep_broadcast; pt_txid := Some txid;
           pt_broadcastAmbiguous := Some ambiguous; pt_executionSource := None;
           pt_approvedAt := None; pt_broadcastAt := None; pt_resolvedAt := None;
           pt_blockHeight := None; pt_failureReason := None |} at_ in
    match outcome with
    | Ok (br_deterministic_rejection _ _ _ nodeMessage) =>
        update_sweep isUuid id
          {| pt_status := Some sweep_failed; pt_txid := Some txid; pt_broadcastAmbiguous := None;
             pt_executionSource := None; pt_approvedAt := None; pt_broadcastAt := None;
             pt_resolvedAt := Some at_; pt_blockHeight := None;
             pt_failureReason := Some (Some (rejected_reason nodeMessage)) |} at_
    | Ok (br_accepted _ _) => sent false
    | Ok (br_ambiguous _ _ _ _) | Err _ => sent true
    end.

(** ** Cancelling *)

Definition cancelSweep (env : WalletEnv) (id : string) : repo SweepRow :=
  sweep ← requireSweep id;
  _ ← sweep_guard (bool_decide (sr_status sweep = sweep_planned)) gas_wallet_sweep_state;
  resolveSweep id sweep_cancelled (w_now env) None.

(** ** Observing *)

(** A refresh that throws here throws to its caller: [retryLater] is false already, so that for the
    process it is over as if it had returned. *)
Definition throws_to_caller {A} (m : repo A) : repo unit := catch (_ ← m; mret tt) (fun _ => mret tt).

(** [#refreshSweep] up to its reads: [None] is an early return, otherwise the sweep as it was. *)
Definition refresh_start (env : WalletEnv) (id : string) : repo (option SweepRow) :=
  sweep ← requireSweep id;
  if bool_decide (sr_status sweep = sweep_planned) && (sr_expiresAt sweep <=? w_now env) then
    _ ← throws_to_caller (resolveSweep id sweep_expired (w_now env) window_elapsed); mret None
  else if negb (bool_decide (sr_status sweep = sweep_broadcast)) || bool_decide (sr_txid sweep = None)
  then mret None
  else _ ← sweep_guard (w_connected env) gas_wallet_sweep_unavailable; mret (Some sweep).

(** [#hasLocalSweepBinding] *)
Definition hasLocalSweepBinding (id : string) (sweep : SweepRow) (db : Db) : bool :=
  bool_decide (sr_txid sweep <> None) && bool_decide (sr_approvedAt sweep <> None) &&
  bool_decide (sr_broadcastAt sweep <> None) &&
  match sr_plan <$> sweeps db !! id with
  | None => false
  | Some stored =>
      gasWalletSweepPlanSchema stored &&
      match revalidate stored with
      | Err _ => false
      | Ok plan =>
          let m := sp_material plan in
          String.eqb (sp_planSha256 plan) (sr_planSha256 sweep) &&
          (chainId (sm_network m) =? chainId (so_network options)) &&
          String.eqb (sender_principal (sm_sender m)) (sr_walletPrincipal sweep) &&
          String.eqb (sm_nonce m) (sr_nonce sweep) && String.eqb (sm_feeUstx m) (sr_feeUstx sweep) &&
          String.eqb (sm_recipient m) (sr_recipient sweep) &&
          String.eqb (sm_amountUstx m) (sr_amountUstx sweep)
      end
  end.

(** What [allowApiEvidence] answers. *)
Definition sweep_evidence (id : string) (sweep : SweepRow) (db : Db) : bool :=
  bool_decide (sr_failureReason sweep = None) && hasLocalSweepBinding id sweep db.

Definition recordSweepConflict (id reason : string) (now : Z) : repo SweepRow :=
  current ← requireSweep id;
  if negb (bool_decide (sr_status current = sweep_broadcast)) then mret current
  else update_sweep isUuid id
         {| pt_status := None; pt_txid := None; pt_broadcastAmbiguous := None;
            pt_executionSource := None; pt_approvedAt := None; pt_broadcastAt := None;
            pt_resolvedAt := None; pt_blockHeight := None;
            pt_failureReason := Some (Some
              (reason ++ ". Wallet authorization retained; do not repeat this sweep")%string) |} now.

(** After the reads of the transaction; [true] when the chain has not decided, so that the
    mempool is asked too. *)
Definition refresh_finish (now : Z) (id : string) (outcome : SubmittedTransactionOutcome) : repo bool :=
  match outcome with
  | sub_conflict reason => _ ← throws_to_caller (recordSweepConflict id reason now); mret false
  | _ =>
      current ← requireSweep id;
      if negb (bool_decide (sr_status current = sweep_broadcast)) then mret false
      else
        match outcome with
        | sub_confirmed success repr height source =>
            _ ← throws_to_caller (update_sweep isUuid id
              {| pt_status := Some (if success then sweep_confirmed else sweep_failed);
                 pt_txid := None; pt_broadcastAmbiguous := None; pt_executionSource := Some source;
                 pt_approvedAt := None; pt_broadcastAt := None; pt_resolvedAt := Some now;
                 pt_blockHeight := Some height;
                 pt_failureReason := Some (if success then None
                                           else Some ("Sweep aborted on chain: " ++ repr)%string) |} now);
            mret false
        | _ => mret true
        end
  end.

(** [observeSubmitted] up to the refresh: the sweep that is due. *)
Definition observeSubmitted (due : string -> bool) : repo (option string) :=
  o ← activeSweep isUuid;
  match o with
  | Some (id, r) => mret (if bool_decide (sr_status r = sweep_broadcast) && due id then Some id else None)
  | None => mret None
  end.

End SweepService.

(** ** The process *)

(** A preparation that waits for the account. *)
Record Preparing := { pr_wallet : Sender; pr_recipient : string; pr_now : Z }.

(** The memory of the service: the waiting preparations, and the approval and the refresh under
    way of each sweep ([#sweepApprovals], [#sweepRefreshes]). *)
Record Sweeper := {
  preparing : list Preparing;
  approving : gmap string ApprovePhase;
  refreshing : gmap string (SweepRow * Z);
  pacing : Cadence;
}.

Definition asleep : Sweeper := {| preparing := []; approving := ∅; refreshing := ∅; pacing := ∅ |}.

Definition set_preparing (l : list Preparing) (m : Sweeper) : Sweeper :=
  {| preparing := l; approving := approving m; refreshing := refreshing m; pacing := pacing m |}.
Definition set_approving (a : gmap string ApprovePhase) (m : Sweeper) : Sweeper :=
  {| preparing := preparing m; approving := a; refreshing := refreshing m; pacing := pacing m |}.
Definition set_refreshing (r : gmap string (SweepRow * Z)) (m : Sweeper) : Sweeper :=
  {| preparing := preparing m; approving := approving m; refreshing := r; pacing := pacing m |}.
Definition set_pacing (c : Cadence) (m : Sweeper) : Sweeper :=
  {| preparing := preparing m; approving := approving m; refreshing := refreshing m; pacing := c |}.

(** What may happen next: a request of the operator, or an answer to something awaited. *)
Inductive SweepEvent :=
  | ev_prepare (env : WalletEnv) (recipient : string)
  | ev_prepared (n : nat) (id tip : string) (account : result RunError (option WalletAccount))
      (policy : option Fee.TransactionFeePolicy) (answer : Fee.FeeObservation)
  | ev_approve (env : WalletEnv) (id : string)
  | ev_checked (env : WalletEnv) (id : string) (refusal : option RefusalReason)
  | ev_read (env : WalletEnv) (id : string) (account : result RunError (option WalletAccount))
  | ev_signed (env : WalletEnv) (id message : string) (signature : result RunError string)
  | ev_sent (env : WalletEnv) (id : string) (outcome : result RunError TransactionBroadcastResult)
  | ev_cancel (env : WalletEnv) (id : string)
  | ev_refresh (env : WalletEnv) (id : string)
  | ev_refreshed (id : string) (indexed : IndexedLookup) (reads : ReceiptReads) (inMempool : bool)
  | ev_list (env : WalletEnv) (limit : Z)
  | ev_observe (env : WalletEnv).

Section SweepProcess.

Context (isUuid : string -> bool) (validateStacksAddress : string -> bool)
        (makeUnsigned : Transfer -> option string) (deserialize : string -> option ReadBack)
        (sha256 : list Z -> string) (deserializeTransaction : list Z -> option (BlockTx * nat))
        (options : SweepOptions).

(** The approval of [id] continues with [m]: it waits again, or ends by a return or a throw. *)
Definition approval_step (id : string) (m : repo ApprovePhase) (memory : Sweeper)
    : repo Sweeper * Sweeper :=
  (ph ← m; mret (set_approving (<[id := ph]> (approving memory)) memory),
   set_approving (delete id (approving memory)) memory).

(** The [finally] of [#refreshSweep]. *)
Definition end_refresh (id : string) (retryLater : bool) (now : Z) (memory : Sweeper) : Sweeper :=
  set_pacing (record (pacing memory) id retryLater now None)
    (set_refreshing (delete id (refreshing memory)) memory).

(** The computation of an event with the memory it leaves, and the memory after a throw; [None]
    when the event cannot happen now. *)
Definition handle (e : SweepEvent) (m : Sweeper) : option (repo Sweeper * Sweeper) :=
  match e with
  | ev_prepare env recipient => Some
      (wallet ← prepare_start isUuid env;
       mret (set_preparing ({| pr_wallet := wallet; pr_recipient := recipient; pr_now := w_now env |}
                            :: preparing m) m), m)
  | ev_prepared n id tip account policy answer =>
      match preparing m !! n with
      | None => None
      | Some p =>
          let m' := set_preparing (take n (preparing m) ++ drop (S n) (preparing m)) m in
          Some (_ ← prepare_finish isUuid validateStacksAddress makeUnsigned deserialize sha256 options
                      (pr_now p) id (pr_wallet p) (pr_recipient p) tip account policy answer;
                mret m', m')
      end
  | ev_approve env id =>
      match approving m !! id with
      | Some _ => None
      | None => Some (approval_step id (approve_start isUuid env id) m)
      end
  | ev_checked env id refusal =>
      match approving m !! id with
      | Some (ap_checking sweep now) =>
          Some (approval_step id (approve_checked env id sweep now refusal) m)
      | _ => None
      end
  | ev_read env id account =>
      match approving m !! id with
      | Some (ap_reading _ plan now) => Some (approval_step id (approve_read isUuid env id plan now account) m)
      | _ => None
      end
  | ev_signed env id message signature =>
      match approving m !! id with
      | Some (ap_signing _ now) =>
          Some (approval_step id (approve_signed isUuid env id now message signature) m)
      | _ => None
      end
  | ev_sent env id outcome =>
      match approving m !! id with
      | Some (ap_sending txid) =>
          let m' := set_approving (delete id (approving m)) m in
          Some (_ ← approve_sent isUuid env id txid outcome; mret m', m')
      | _ => None
      end
  | ev_cancel env id => Some (_ ← cancelSweep isUuid env id; mret m, m)
  | ev_refresh env id =>
      match refreshing m !! id with
      | Some _ => None
      | None => Some
          (o ← refresh_start isUuid env id;
           mret (match o with
                 | Some sweep => set_refreshing (<[id := (sweep, w_now env)]> (refreshing m)) m
                 | None => end_refresh id false (w_now env) m
                 end), end_refresh id true (w_now env) m)
      end
  | ev_refreshed id indexed reads inMempool =>
      match refreshing m !! id with
      | Some (sweep, now) =>
          match sr_txid sweep with
          | None => None
          | Some txid => Some
              (allow ← gets (sweep_evidence validateStacksAddress makeUnsigned deserialize sha256
                               options id sweep);
               decided ← refresh_finish isUuid now id
                           (readSubmittedTransactionOutcome deserializeTransaction indexed reads
                              (chainId (so_network options)) txid allow);
               mret (end_refresh id (decided && negb inMempool) now m),
               end_refresh id true now m)
          end
      | None => None
      end
  | ev_list env limit => Some (_ ← listSweeps isUuid env limit; mret m, m)
  | ev_observe env => Some
      (o ← activeSweep isUuid;
       mret (set_pacing (retain (pacing m)
               (match o with
                | Some (id, r) => if bool_decide (sr_status r = sweep_broadcast) then [id] else []
                | None => []
                end)) m), m)
  end.

End SweepProcess.
