(* ===== verification/GasWallet.v ===== *)
(** * The gas wallet's life

    The identity part of [GasWalletService] in apps/sidekick/src/gas-wallet.ts with its tables
    (storage/gas-wallet-repository.ts), its key file, and the signer the engine holds
    (transaction-engine/runtime.ts).  As in [RunService] an async method is cut at its awaits; a
    segment is a computation over the whole process that returns or throws and keeps what it
    changed.  The engine runs one operation at a time, in an order that is left open.  An operation of
    the engine and the rest of its caller's method are one segment here: in the source the next queued
    operation may begin a few microtasks before the caller of the last one has recorded its outcome,
    so an enabling and a disabling call that overlap in just that window are not interleaved, and the
    update of the recorded row is taken to succeed.  Sweeps are [SweepService]'s. *)

From S2P Require Import Prelude Text CanonicalJson Principals OperationPlan SweepPlan Signer RunStore SweepService.

Open Scope Z_scope.

(** ** Data *)

Inductive WalletSource := generated | configured.

(** [StoredGasWallet], a row of [gas_wallet]. *)
Record StoredGasWallet := {
  gw_principal : string;
  gw_publicKey : string;
  gw_secretFilePath : string;
  gw_source : WalletSource;
  gw_createdAt : Z;
  gw_enabled : bool;
  gw_enabledAt : option Z;
  gw_updatedAt : Z;
}.

Record StoredGasWalletBanners := {
  bn_setupDismissedAt : option Z;
  bn_lowBalanceDismissedUntil : option Z;
}.

(** The two tables; each holds one row at most. *)
Record WalletTables := { wt_wallet : option StoredGasWallet; wt_banners : option StoredGasWalletBanners }.

Record GasPayerIdentity := { gi_principal : string; gi_publicKey : string }.

Inductive GasWalletErrorCode :=
  | gw_engine_mode | gw_exists | gw_missing | gw_refused | gw_engine_unavailable | gw_secret_unreadable
  | gw_row_invalid | gw_constraint | gw_other_wallet | gw_not_recorded | gw_file_system | gw_key_invalid
  | gw_sweeps.

(** Why a key could not be loaded; the status shows its message. *)
Inductive ActivationError :=
  | activation_mode
  | activation_secret (code : GasPayerSignerErrorCode)
  | activation_other_key
  | startup_mode.

(** [GasPayerSignerHolder], the mutable part of the engine. *)
Record Engine := { en_current : option Signer; en_identity : option GasPayerIdentity }.

Inductive SignerState := signer_engine_unavailable | signer_not_loaded | signer_disabled | signer_ready | signer_unreadable.

(** [GasWalletRefusal] *)
Record Refusal := {
  rf_checkedAt : option Z;
  rf_isManagerAdmin : option bool;
  rf_isSignerKey : option bool;
  rf_isContract : bool;
  rf_refusalReason : option RefusalReason;
}.

(** [GasWalletStatus]; the list of sweeps is [SweepService.listSweeps]. *)
Record GasWalletStatus := {
  st_generatedAt : Z;
  st_configured : bool;
  st_enabled : bool;
  st_source : option WalletSource;
  st_identity : option GasPayerIdentity;
  st_secretFilePath : option string;
  st_createdAt : option Z;
  st_enabledAt : option Z;
  st_signer : SignerState;
  st_signerError : option ActivationError;
  st_balanceUstx : option Z;
  st_balanceObservedAt : option Z;
  st_feeBasisUstx : Z;
  st_estimatedTransactions : option Z;
  st_refusal : Refusal;
  st_banners : StoredGasWalletBanners;
}.

(** What [#buildStatus] holds while it waits for the balance and the checks. *)
Record Build := {
  bd_now : Z;
  bd_revision : nat;
  bd_request : nat;
  bd_stored : option StoredGasWallet;
  bd_banners : StoredGasWalletBanners;
  bd_identity : option GasPayerIdentity;
  bd_enabled : bool;
  bd_signer : SignerState;
}.

(** A method that waits. *)
Inductive Call :=
  | creating (key : list Z)
  | writing (key : list Z)
  | registering (key : list Z)
  | checking (stored : StoredGasWallet)
  | activating (stored : StoredGasWallet)
  | deactivating
  | building (b : Build).

(** The service, its engine, the database and the key files. *)
Record Process := {
  pr_tables : WalletTables;
  pr_files : gmap string (list Z);
  pr_engine : option Engine;
  pr_lastActivationError : option ActivationError;
  pr_statusCache : option (Z * GasWalletStatus);
  pr_statusInFlight : option nat;
  pr_statusRevision : nat;
  pr_requests : nat;
  pr_calls : gmap nat Call;
}.

Definition set_tables (t : WalletTables) (p : Process) : Process :=
  {| pr_tables := t; pr_files := pr_files p; pr_engine := pr_engine p;
     pr_lastActivationError := pr_lastActivationError p; pr_statusCache := pr_statusCache p;
     pr_statusInFlight := pr_statusInFlight p; pr_statusRevision := pr_statusRevision p;
     pr_requests := pr_requests p; pr_calls := pr_calls p |}.
Definition set_files (f : gmap string (list Z)) (p : Process) : Process :=
  {| pr_tables := pr_tables p; pr_files := f; pr_engine := pr_engine p;
     pr_lastActivationError := pr_lastActivationError p; pr_statusCache := pr_statusCache p;
     pr_statusInFlight := pr_statusInFlight p; pr_statusRevision := pr_statusRevision p;
     pr_requests := pr_requests p; pr_calls := pr_calls p |}.
Definition set_engine (e : option Engine) (p : Process) : Process :=
  {| pr_tables := pr_tables p; pr_files := pr_files p; pr_engine := e;
     pr_lastActivationError := pr_lastActivationError p; pr_statusCache := pr_statusCache p;
     pr_statusInFlight := pr_statusInFlight p; pr_statusRevision := pr_statusRevision p;
     pr_requests := pr_requests p; pr_calls := pr_calls p |}.
Definition set_lastActivationError (e : option ActivationError) (p : Process) : Process :=
  {| pr_tables := pr_tables p; pr_files := pr_files p; pr_engine := pr_engine p;
     pr_lastActivationError := e; pr_statusCache := pr_statusCache p;
     pr_statusInFlight := pr_statusInFlight p; pr_statusRevision := pr_statusRevision p;
     pr_requests := pr_requests p; pr_calls := pr_calls p |}.
Definition set_cache (c : option (Z * GasWalletStatus)) (inFlight : option nat) (p : Process) : Process :=
  {| pr_tables := pr_tables p; pr_files := pr_files p; pr_engine := pr_engine p;
     pr_lastActivationError := pr_lastActivationError p; pr_statusCache := c;
     pr_statusInFlight := inFlight; pr_statusRevision := pr_statusRevision p;
     pr_requests := pr_requests p; pr_calls := pr_calls p |}.
Definition set_calls (c : gmap nat Call) (p : Process) : Process :=
  {| pr_tables := pr_tables p; pr_files := pr_files p; pr_engine := pr_engine p;
     pr_lastActivationError := pr_lastActivationError p; pr_statusCache := pr_statusCache p;
     pr_statusInFlight := pr_statusInFlight p; pr_statusRevision := pr_statusRevision p;
     pr_requests := pr_requests p; pr_calls := c |}.

(** ** Segments *)

Definition seg (A : Type) : Type := Process -> result GasWalletErrorCode A * Process.

#[global] Instance seg_ret : MRet seg := fun A a p => (Ok a, p).
#[global] Instance seg_bind : MBind seg := fun A B k m p =>
  match m p with
  | (Ok a, q) => k a q
  | (Err e, q) => (Err e, q)
  end.

Definition throw_seg {A} (e : GasWalletErrorCode) : seg A := fun p => (Err e, p).
Definition reads {A} (f : Process -> A) : seg A := fun p => (Ok (f p), p).
Definition change (f : Process -> Process) : seg unit := fun p => (Ok tt, f p).
Definition guard_seg (b : bool) (e : GasWalletErrorCode) : seg unit := if b then mret tt else throw_seg e.

(** ** The tables *)

(** [rowSchema] *)
Definition rowSchema (r : StoredGasWallet) : bool :=
  nonempty (gw_principal r) && sweepPublicKey (gw_publicKey r) && nonempty (gw_secretFilePath r).

Definition get_wallet : seg (option StoredGasWallet) := fun p =>
  match wt_wallet (pr_tables p) with
  | None => (Ok None, p)
  | Some r => if rowSchema r then (Ok (Some r), p) else (Err gw_row_invalid, p)
  end.

Definition set_wallet (r : option StoredGasWallet) : seg unit :=
  change (fun p => set_tables {| wt_wallet := r; wt_banners := wt_banners (pr_tables p) |} p).

(** The CHECK constraints of the table. *)
Definition wallet_constraints (r : StoredGasWallet) : bool :=
  nonempty (gw_principal r) && (String.length (gw_principal r) <=? 200)%nat &&
  (String.length (gw_publicKey r) =? 66)%nat &&
  nonempty (gw_secretFilePath r) && (String.length (gw_secretFilePath r) <=? 4096)%nat.

Record WalletInput := {
  wi_principal : string; wi_publicKey : string; wi_secretFilePath : string; wi_source : WalletSource;
  wi_createdAt : Z
}.

(** The row [INSERT ... ON CONFLICT DO UPDATE] leaves. *)
Definition upserted (existing : option StoredGasWallet) (input : WalletInput) : StoredGasWallet :=
  let fresh := {| gw_principal := wi_principal input; gw_publicKey := toLowerCase (wi_publicKey input);
                  gw_secretFilePath := wi_secretFilePath input; gw_source := wi_source input;
                  gw_createdAt := wi_createdAt input; gw_enabled := false; gw_enabledAt := None;
                  gw_updatedAt := wi_createdAt input |} in
  match existing with
  | None => fresh
  | Some r => {| gw_principal := gw_principal r; gw_publicKey := gw_publicKey fresh;
                 gw_secretFilePath := gw_secretFilePath fresh; gw_source := gw_source fresh;
                 gw_createdAt := gw_createdAt r; gw_enabled := gw_enabled r;
                 gw_enabledAt := gw_enabledAt r; gw_updatedAt := gw_updatedAt fresh |}
  end.

Definition put_wallet (input : WalletInput) : seg StoredGasWallet :=
  existing ← get_wallet;
  _ ← guard_seg (match existing with
                 | Some r => String.eqb (gw_principal r) (wi_principal input)
                 | None => true
                 end) gw_other_wallet;
  _ ← guard_seg (wallet_constraints (upserted None input)) gw_constraint;
  _ ← set_wallet (Some (upserted existing input));
  stored ← get_wallet;
  match stored with None => throw_seg gw_not_recorded | Some r => mret r end.

Definition with_enabled (enabled : bool) (at_ : Z) (r : StoredGasWallet) : StoredGasWallet :=
  {| gw_principal := gw_principal r; gw_publicKey := gw_publicKey r;
     gw_secretFilePath := gw_secretFilePath r; gw_source := gw_source r; gw_createdAt := gw_createdAt r;
     gw_enabled := enabled; gw_enabledAt := if enabled then Some at_ else None; gw_updatedAt := at_ |}.

Definition setEnabled (enabled : bool) (at_ : Z) : seg StoredGasWallet :=
  row ← reads (fun p => wt_wallet (pr_tables p));
  _ ← set_wallet (with_enabled enabled at_ <$> row);
  stored ← get_wallet;
  match stored with None => throw_seg gw_not_recorded | Some r => mret r end.

Definition no_banners : StoredGasWalletBanners :=
  {| bn_setupDismissedAt := None; bn_lowBalanceDismissedUntil := None |}.

Definition get_banners : seg StoredGasWalletBanners :=
  reads (fun p => default no_banners (wt_banners (pr_tables p))).

Definition set_banners (b : StoredGasWalletBanners) : seg unit :=
  change (fun p => set_tables {| wt_wallet := wt_wallet (pr_tables p); wt_banners := Some b |} p).

Definition dismissSetupBanner (at_ : option Z) : seg StoredGasWalletBanners :=
  b ← get_banners;
  _ ← set_banners {| bn_setupDismissedAt := at_;
                     bn_lowBalanceDismissedUntil := bn_lowBalanceDismissedUntil b |};
  get_banners.

Definition dismissLowBalance (until : option Z) : seg StoredGasWalletBanners :=
  b ← get_banners;
  _ ← set_banners {| bn_setupDismissedAt := bn_setupDismissedAt b; bn_lowBalanceDismissedUntil := until |};
  get_banners.

Definition LOW_BALANCE_DISMISSAL_HOURS : Z := 24.
Definition STATUS_CACHE_MS : Z := 30000.

(** ** The service *)

Record WalletOptions := {
  wo_operatorRun : bool;
  wo_network : Network;
  wo_secretFilePath : string;
  wo_maximumFeeUstx : Z;
  wo_isAbsolute : string -> bool;
  wo_uid : option Z;
}.

Section Service.

Context (privateKeyToPublic : list Z -> option string)
        (getAddressFromPublicKey : string -> Network -> string)
        (options : WalletOptions) (boot : option Engine).

(** What a read of the key file meets: the content is the file's, the rest is the system's. *)
Definition answered (p : Process) (path : string) (file : SecretFile) : SecretFile :=
  {| sf_lstat := if pr_files p !! path is Some _ then sf_lstat file else None; sf_open := sf_open file;
     sf_stat := sf_stat file; sf_content := default [] (pr_files p !! path); sf_after := sf_after file |}.

(** [GasPayerSigner.fromSecretFile] on the recorded wallet. *)
Definition load_signer (stored : StoredGasWallet) (file : SecretFile) : result GasPayerSignerErrorCode Signer :=
  fromSecretFile privateKeyToPublic getAddressFromPublicKey
    {| sig_absolutePath := wo_isAbsolute options (gw_secretFilePath stored);
       sig_expectedPrincipal := gw_principal stored; sig_network := wo_network options;
       sig_uid := wo_uid options |} file.

(** [activateGasWallet] of the engine: on an error the previous signer stays. *)
Definition activateGasWallet (stored : StoredGasWallet) (file : SecretFile) : result ActivationError Engine :=
  if negb (wo_operatorRun options) then Err activation_mode
  else match load_signer stored file with
       | Err code => Err (activation_secret code)
       | Ok signer =>
           if String.eqb (sn_publicKey signer) (toLowerCase (gw_publicKey stored))
           then Ok {| en_current := Some signer;
                      en_identity := Some {| gi_principal := gw_principal stored;
                                             gi_publicKey := sn_publicKey signer |} |}
           else Err activation_other_key
       end.

(** [deactivateGasWallet]: the identity stays. *)
Definition deactivateGasWallet (e : Engine) : Engine :=
  {| en_current := None; en_identity := en_identity e |}.

Definition gasWalletSignerReady (e : Engine) : bool := bool_decide (is_Some (en_current e)).

(** The engine's signing methods. *)
Definition signGasWalletSweep signOrigin revalidateSweep (e : Engine) (plan : SweepPlan) :=
  match en_current e with
  | None => None
  | Some signer => Some (signGasWalletSweepPlan signOrigin revalidateSweep signer plan)
  end.

Definition signRewardOperation signOrigin revalidateReward (e : Engine) (operation : OperationKind)
    (plan : Plan) :=
  match en_current e with
  | None => None
  | Some signer => Some (sign signOrigin revalidateReward signer operation plan)
  end.

Definition invalidated (p : Process) : Process :=
  {| pr_tables := pr_tables p; pr_files := pr_files p; pr_engine := pr_engine p;
     pr_lastActivationError := pr_lastActivationError p; pr_statusCache := None;
     pr_statusInFlight := None; pr_statusRevision := S (pr_statusRevision p);
     pr_requests := pr_requests p; pr_calls := pr_calls p |}.

Definition invalidateStatus : seg unit := change invalidated.

(** *** Status *)

Definition identity_of (stored : option StoredGasWallet) (e : option Engine) : option GasPayerIdentity :=
  match stored with
  | Some r => Some {| gi_principal := gw_principal r; gi_publicKey := gw_publicKey r |}
  | None => e ≫= en_identity
  end.

Definition signerState (e : option Engine) (identity : option GasPayerIdentity) (enabled : bool)
    (lastError : option ActivationError) : SignerState :=
  match e, identity with
  | None, _ => signer_engine_unavailable
  | Some _, None => signer_not_loaded
  | Some e, Some _ =>
      if negb enabled then signer_disabled
      else if gasWalletSignerReady e then signer_ready
      else if lastError is Some _ then signer_unreadable else signer_not_loaded
  end.

(** [#buildStatus] up to its await, and the request that is now in flight. *)
Definition buildStatus (now : Z) : seg Build :=
  stored ← get_wallet;
  banners ← get_banners;
  p ← reads id;
  let identity := identity_of stored (pr_engine p) in
  let enabled := match stored with
                 | Some r => gw_enabled r
                 | None => match pr_engine p with Some e => gasWalletSignerReady e | None => false end
                 end in
  let b := {| bd_now := now; bd_revision := pr_statusRevision p; bd_request := pr_requests p;
              bd_stored := stored; bd_banners := banners; bd_identity := identity; bd_enabled := enabled;
              bd_signer := signerState (pr_engine p) identity enabled (pr_lastActivationError p) |} in
  _ ← change (fun p => {| pr_tables := pr_tables p; pr_files := pr_files p; pr_engine := pr_engine p;
         pr_lastActivationError := pr_lastActivationError p; pr_statusCache := pr_statusCache p;
         pr_statusInFlight := Some (pr_requests p); pr_statusRevision := pr_statusRevision p;
         pr_requests := S (pr_requests p); pr_calls := pr_calls p |});
  mret b.

(** [status]: [None] when the cache or a request in flight answers. *)
Definition status (force : bool) (now : Z) : seg (option Call) :=
  p ← reads id;
  if negb force && match pr_statusCache p with Some (expiresAt, _) => now <? expiresAt | None => false end
  then mret None
  else if negb force && bool_decide (is_Some (pr_statusInFlight p)) then mret None
  else b ← buildStatus now; mret (Some (building b)).

Definition isSignerKey (principal : string) (signerPrincipal : option (option string)) : option bool :=
  match signerPrincipal with
  | Some (Some p) => Some (String.eqb p principal)
  | Some None => Some false
  | None => None
  end.

(** The rest of [#buildStatus]; [isAdmin] and [signerPrincipal] are what the checks read, and
    [error] is the activation error now. *)
Definition statusOf (b : Build) (balance : option Z) (isAdmin : option bool)
    (signerPrincipal : option (option string)) (error : option ActivationError) : GasWalletStatus :=
  let balance := match bd_identity b with Some _ => balance | None => None end in
  let feeBasis := wo_maximumFeeUstx options in
  {| st_generatedAt := bd_now b; st_configured := bool_decide (is_Some (bd_identity b));
     st_enabled := bd_enabled b;
     st_source := match bd_stored b, bd_identity b with
                  | Some r, _ => Some (gw_source r) | None, Some _ => Some configured | None, None => None
                  end;
     st_identity := bd_identity b; st_secretFilePath := gw_secretFilePath <$> bd_stored b;
     st_createdAt := gw_createdAt <$> bd_stored b; st_enabledAt := bd_stored b ≫= gw_enabledAt;
     st_signer := bd_signer b;
     st_signerError := match bd_signer b with signer_unreadable => error | _ => None end;
     st_balanceUstx := balance; st_balanceObservedAt := (fun _ => bd_now b) <$> balance;
     st_feeBasisUstx := feeBasis;
     st_estimatedTransactions :=
       match balance with
       | None => None
       | Some n => if feeBasis <=? 0 then None else Some (Z.quot n feeBasis)
       end;
     st_refusal :=
       match bd_identity b with
       | None => {| rf_checkedAt := None; rf_isManagerAdmin := None; rf_isSignerKey := None;
                    rf_isContract := false; rf_refusalReason := None |}
       | Some i => {| rf_checkedAt := Some (bd_now b); rf_isManagerAdmin := isAdmin;
                      rf_isSignerKey := isSignerKey (gi_principal i) signerPrincipal;
                      rf_isContract := includes_dot (gi_principal i);
                      rf_refusalReason := refusalChecks (gi_principal i) isAdmin signerPrincipal |}
       end;
     st_banners := bd_banners b |}.

(** The [then] and [finally] of [status]; [listed] says the sweeps could be read. *)
Definition status_finish (b : Build) (balance : option Z) (isAdmin : option bool)
    (signerPrincipal : option (option string)) (listed : bool) : seg (option Call) :=
  p ← reads id;
  let value := statusOf b balance isAdmin signerPrincipal (pr_lastActivationError p) in
  let cache := if listed && (bd_revision b =? pr_statusRevision p)%nat
               then Some (bd_now b + STATUS_CACHE_MS, value) else pr_statusCache p in
  let inFlight := if bool_decide (pr_statusInFlight p = Some (bd_request b)) then None
                  else pr_statusInFlight p in
  _ ← change (set_cache cache inFlight);
  _ ← guard_seg listed gw_sweeps;
  mret None.

(** *** Creation *)

Definition create (key : list Z) : seg (option Call) :=
  _ ← invalidateStatus;
  existing ← get_wallet;
  _ ← guard_seg (bool_decide (existing = None)) gw_exists;
  p ← reads id;
  _ ← guard_seg (bool_decide (pr_engine p ≫= en_identity = None)) gw_exists;
  _ ← guard_seg (bool_decide (is_Some (privateKeyToPublic key))) gw_key_invalid;
  mret (Some (creating key)).

(** [mkdir], then [open(secretFilePath, "wx", 0o600)]: it fails when the file exists. *)
Definition create_open (fileSystem : bool) (key : list Z) : seg (option Call) :=
  p ← reads id;
  _ ← guard_seg fileSystem gw_file_system;
  _ ← guard_seg (bool_decide (pr_files p !! wo_secretFilePath options = None)) gw_exists;
  _ ← change (set_files (<[wo_secretFilePath options := []]> (pr_files p)));
  mret (Some (writing key)).

(** [writeFile], [sync] and [close]; a failure leaves the file with what was written. *)
Definition create_write (failed : option (list Z)) (key : list Z) : seg (option Call) :=
  p ← reads id;
  let text := default (key_text key ++ [10]) failed in
  _ ← change (set_files (<[wo_secretFilePath options := text]> (pr_files p)));
  _ ← guard_seg (bool_decide (failed = None)) gw_file_system;
  mret (Some (registering key)).

Definition generated_wallet (key : list Z) (now : Z) : WalletInput :=
  let publicKey := toLowerCase (default ""%string (privateKeyToPublic key)) in
  {| wi_principal := getAddressFromPublicKey publicKey (wo_network options); wi_publicKey := publicKey;
     wi_secretFilePath := wo_secretFilePath options; wi_source := generated; wi_createdAt := now |}.

(** [store.gasWallet.put], and the removal of the file when it throws. *)
Definition create_register (unlinked : bool) (now : Z) (key : list Z) : seg (option Call) :=
  _ ← (fun p => match put_wallet (generated_wallet key now) p with
                | (Err e, q) =>
                    (Err e, if unlinked then set_files (delete (wo_secretFilePath options) (pr_files q)) q
                            else q)
                | done => done
                end);
  status true now.

(** *** Switching on and off *)

Definition enable : seg (option Call) :=
  _ ← invalidateStatus;
  _ ← guard_seg (wo_operatorRun options) gw_engine_mode;
  p ← reads id;
  _ ← guard_seg (bool_decide (is_Some (pr_engine p))) gw_engine_unavailable;
  stored ← get_wallet;
  match stored with None => throw_seg gw_missing | Some r => mret (Some (checking r)) end.

Definition enable_checked (isAdmin : option bool) (signerPrincipal : option (option string))
    (stored : StoredGasWallet) : seg (option Call) :=
  _ ← guard_seg (bool_decide (refusalChecks (gw_principal stored) isAdmin signerPrincipal = None)) gw_refused;
  mret (Some (activating stored)).

(** The engine's answer to an activation, and what the service records of it. *)
Definition activate (stored : StoredGasWallet) (file : SecretFile) : seg unit :=
  p ← reads id;
  match activateGasWallet stored (answered p (gw_secretFilePath stored) file) with
  | Err e => _ ← change (set_lastActivationError (Some e)); throw_seg gw_secret_unreadable
  | Ok e => _ ← change (set_engine (Some e)); change (set_lastActivationError None)
  end.

Definition enable_activated (file : SecretFile) (now : Z) (stored : StoredGasWallet) : seg (option Call) :=
  _ ← activate stored file;
  _ ← setEnabled true now;
  status true now.

Definition disable : seg (option Call) :=
  _ ← invalidateStatus;
  stored ← get_wallet;
  _ ← guard_seg (bool_decide (is_Some stored)) gw_missing;
  mret (Some deactivating).

Definition disable_done (now : Z) : seg (option Call) :=
  p ← reads id;
  _ ← change (set_engine (deactivateGasWallet <$> pr_engine p));
  _ ← change (set_lastActivationError None);
  _ ← setEnabled false now;
  status true now.

Inductive Banner := setup_banner | low_balance_banner.

Definition dismissBanner (kind : Banner) (now : Z) : seg (option Call) :=
  _ ← invalidateStatus;
  _ ← match kind with
      | setup_banner => dismissSetupBanner (Some now)
      | low_balance_banner => dismissLowBalance (Some (now + LOW_BALANCE_DISMISSAL_HOURS * 60 * 60 * 1000))
      end;
  status true now.

(** [startup]: awaited before the server listens, so nothing else runs beside it. *)
Definition startup (file : SecretFile) : seg unit :=
  _ ← invalidateStatus;
  stored ← get_wallet;
  p ← reads id;
  match stored with
  | Some r =>
      if negb (gw_enabled r) then mret tt
      else if negb (wo_operatorRun options) || bool_decide (pr_engine p = None)
      then change (set_lastActivationError (Some startup_mode))
      else fun q => let '(_, q') := activate r file q in (Ok tt, q')
  | None => mret tt
  end.

(** ** The process *)

Inductive Event :=
  | ev_create (id : nat) (key : list Z)
  | ev_enable (id : nat)
  | ev_disable (id : nat)
  | ev_dismiss (id : nat) (kind : Banner) (now : Z)
  | ev_status (id : nat) (force : bool) (now : Z)
  | ev_sweep
  | ev_opened (id : nat) (fileSystem : bool)
  | ev_written (id : nat) (failed : option (list Z))
  | ev_registered (id : nat) (unlinked : bool) (now : Z)
  | ev_checked (id : nat) (isAdmin : option bool) (signerPrincipal : option (option string))
  | ev_activated (id : nat) (file : SecretFile) (now : Z)
  | ev_deactivated (id : nat) (now : Z)
  | ev_observed (id : nat) (balance : option Z) (isAdmin : option bool)
      (signerPrincipal : option (option string)) (listed : bool)
  | ev_restart (file : SecretFile).

(** A call goes on, or is over when it returned or threw. *)
Definition settled (id : nat) (r : result GasWalletErrorCode (option Call) * Process) : Process :=
  match r with
  | (Ok (Some c), q) => set_calls (<[id := c]> (pr_calls q)) q
  | (_, q) => q
  end.

Definition begin (id : nat) (m : seg (option Call)) (p : Process) : Process :=
  if pr_calls p !! id is Some _ then p else settled id (m p).

Definition resume (id : nat) (next : Call -> option (seg (option Call))) (p : Process) : Process :=
  match pr_calls p !! id ≫= next with
  | Some m => settled id (m (set_calls (delete id (pr_calls p)) p))
  | None => p
  end.

(** A new process over the same database and files. *)
Definition restarted (p : Process) : Process :=
  {| pr_tables := pr_tables p; pr_files := pr_files p; pr_engine := boot; pr_lastActivationError := None;
     pr_statusCache := None; pr_statusInFlight := None; pr_statusRevision := 0; pr_requests := 0;
     pr_calls := ∅ |}.

Definition handle (e : Event) (p : Process) : Process :=
  match e with
  | ev_create id key => begin id (create key) p
  | ev_enable id => begin id enable p
  | ev_disable id => begin id disable p
  | ev_dismiss id kind now => begin id (dismissBanner kind now) p
  | ev_status id force now => begin id (status force now) p
  | ev_sweep => invalidated p
  | ev_opened id fileSystem =>
      resume id (fun c => match c with creating key => Some (create_open fileSystem key) | _ => None end) p
  | ev_written id failed =>
      resume id (fun c => match c with writing key => Some (create_write failed key) | _ => None end) p
  | ev_registered id unlinked now =>
      resume id (fun c => match c with registering key => Some (create_register unlinked now key)
                                     | _ => None end) p
  | ev_checked id isAdmin signerPrincipal =>
      resume id (fun c => match c with checking r => Some (enable_checked isAdmin signerPrincipal r)
                                     | _ => None end) p
  | ev_activated id file now =>
      resume id (fun c => match c with activating r => Some (enable_activated file now r) | _ => None end) p
  | ev_deactivated id now =>
      resume id (fun c => match c with deactivating => Some (disable_done now) | _ => None end) p
  | ev_observed id balance isAdmin signerPrincipal listed =>
      resume id (fun c => match c with
                          | building b => Some (status_finish b balance isAdmin signerPrincipal listed)
                          | _ => None end) p
  | ev_restart file => snd (startup file (restarted p))
  end.

(** The process after the events, the last one first. *)
Fixpoint after_events (trace : list Event) (p : Process) : Process :=
  match trace with
  | [] => p
  | e :: earlier => handle e (after_events earlier p)
  end.

(** A new deployment: no wallet is recorded. *)
Definition installed (files : gmap string (list Z)) : Process :=
  {| pr_tables := {| wt_wallet := None; wt_banners := None |}; pr_files := files; pr_engine := boot;
     pr_lastActivationError := None; pr_statusCache := None; pr_statusInFlight := None;
     pr_statusRevision := 0; pr_requests := 0; pr_calls := ∅ |}.

End Service.
