(* ===== verification/RewardActions.v ===== *)
(** * Which reward action comes next

    packages/api-contracts/src/reward-actions.ts, shared by the dashboard's button and the
    schedule, and apps/sidekick/src/reward-schedule-selection.ts.  Of the ledger only the fields
    these functions read are modelled, and the labels of the buttons are left out. *)

From S2P Require Import Prelude OperationPlan.

Open Scope list_scope.
Open Scope Z_scope.

(** ** Data *)

(** [rewardLedgerDistributionStatusSchema] *)
Inductive DistributionStatus :=
  | interpretation_unavailable | needs_attention | accruing | waiting_calculation
  | calculation_overdue | ready | distributing | all_distributed | complete.

#[global] Instance DistributionStatus_eq_dec : EqDecision DistributionStatus.
Proof. solve_decision. Defined.

Inductive CalculationState := calculation_done | calculation_waiting | calculation_late.

#[global] Instance CalculationState_eq_dec : EqDecision CalculationState.
Proof. solve_decision. Defined.

(** The payments of a distribution, counted. *)
Record Payments := { pm_outstanding : Z; pm_arrived : Z; pm_arriving : Z; pm_rejected : Z }.

(** [RewardLedgerDistribution] *)
Record Distribution := {
  ld_distribution : Z;
  ld_calculation : CalculationState;
  ld_availableToCollectSats : option Z;
  ld_payments : Payments;
  ld_status : DistributionStatus;
}.

(** [RewardLedgerCycle] and [RewardLedger] *)
Record LedgerCycle := { lc_cycle : Z; lc_distributions : list Distribution }.
Record RewardLedger := { lg_cycles : list LedgerCycle; lg_nextBeforeCycle : option Z }.

Inductive RewardRunKind := collect_and_distribute | distribute | collect | calculate | finish_bitcoin_payouts.

#[global] Instance RewardRunKind_eq_dec : EqDecision RewardRunKind.
Proof. solve_decision. Defined.

Record RewardAction := {
  ra_kind : RewardRunKind;
  ra_operations : list OperationKind;
  ra_transactions : Z;
  ra_cycle : Z;
  ra_distribution : Z;
}.

(** ** The functions *)

Definition operationsForKind (kind : RewardRunKind) : list OperationKind :=
  match kind with
  | collect_and_distribute => [op_claim_rewards; op_claim_staker_rewards]
  | distribute => [op_claim_staker_rewards]
  | collect => [op_claim_rewards]
  | calculate => [op_calculate_rewards]
  | finish_bitcoin_payouts => [op_settle_accepted_withdrawal; op_reclaim_failed_withdrawal]
  end.

Definition pending_distribution (d : Distribution) : bool :=
  bool_decide (ld_status d ∈ [interpretation_unavailable; needs_attention; calculation_overdue; ready;
                              distributing]) ||
  (bool_decide (ld_status d = all_distributed) && (0 <? pm_arriving (ld_payments d))).

(** [a.cycle.cycle - b.cycle.cycle || a.distribution.distribution - b.distribution.distribution] *)
Definition distribution_order (a b : LedgerCycle * Distribution) : Z :=
  let cycles := lc_cycle a.1 - lc_cycle b.1 in
  if cycles =? 0 then ld_distribution a.2 - ld_distribution b.2 else cycles.

Definition ledger_distributions (ledger : RewardLedger) : list (LedgerCycle * Distribution) :=
  List.concat (map (fun cycle => map (fun d => (cycle, d)) (lc_distributions cycle)) (lg_cycles ledger)).

Definition pendingRewardDistributions (ledger : RewardLedger) : list (LedgerCycle * Distribution) :=
  js_sort distribution_order
    (List.filter (fun '(_, d) => pending_distribution d) (ledger_distributions ledger)).

Definition reward_action (cycle : Z) (d : Distribution) (kind : RewardRunKind) (transactions : Z) : RewardAction :=
  {| ra_kind := kind; ra_operations := operationsForKind kind; ra_transactions := transactions;
     ra_cycle := cycle; ra_distribution := ld_distribution d |}.

(** The primary action and the one that finishes Bitcoin payouts. *)
Definition rewardDistributionActions (cycle : Z) (d : Distribution) (running : bool)
    : option RewardAction * option RewardAction :=
  let p := ld_payments d in
  let action := reward_action cycle d in
  if bool_decide (ld_status d = interpretation_unavailable) then (None, None)
  else if bool_decide (ld_status d = calculation_overdue) then (Some (action calculate 1), None)
  else
    let finish := if (0 <? pm_rejected p) || (0 <? pm_arrived p)
                  then Some (action finish_bitcoin_payouts (pm_rejected p + pm_arrived p)) else None in
    if 0 <? pm_rejected p then (finish, None)
    else
      let primary :=
        if bool_decide (ld_calculation d = calculation_done) then
          let available := default 0 (ld_availableToCollectSats d) in
          if (0 <? available) && (0 <? pm_outstanding p)
          then Some (action collect_and_distribute (1 + pm_outstanding p))
          else if 0 <? available then Some (action collect 1)
          else if (0 <? pm_outstanding p) && negb running then Some (action distribute (pm_outstanding p))
          else None
        else None in
      (primary, finish).

(** [actions.primary ?? actions.finish] of an idle schedule. *)
Definition scheduled_action (entry : LedgerCycle * Distribution) : option RewardAction :=
  match rewardDistributionActions (lc_cycle entry.1) entry.2 false with
  | (Some primary, _) => Some primary
  | (None, finish) => finish
  end.

Fixpoint first_action (entries : list (LedgerCycle * Distribution)) : option RewardAction :=
  match entries with
  | [] => None
  | entry :: rest => match scheduled_action entry with Some a => Some a | None => first_action rest end
  end.

Definition selectScheduledRewardAction (ledger : RewardLedger) : option RewardAction * option Z :=
  match first_action (pendingRewardDistributions ledger) with
  | Some action => (Some action, None)
  | None => (None, lg_nextBeforeCycle ledger)
  end.

(** ** What is selected *)

Lemma distribution_order_anti a b : distribution_order a b < 0 <-> 0 < distribution_order b a.
Proof. unfold distribution_order. destruct (Z.eqb_spec (lc_cycle a.1 - lc_cycle b.1) 0),
  (Z.eqb_spec (lc_cycle b.1 - lc_cycle a.1) 0); lia. Qed.

Lemma distribution_order_trans a b c :
  cmp_le distribution_order a b -> cmp_le distribution_order b c -> cmp_le distribution_order a c.
Proof.
  unfold cmp_le, distribution_order. destruct (Z.eqb_spec (lc_cycle a.1 - lc_cycle b.1) 0),
    (Z.eqb_spec (lc_cycle b.1 - lc_cycle c.1) 0), (Z.eqb_spec (lc_cycle a.1 - lc_cycle c.1) 0); lia.
Qed.

Lemma elem_of_pending ledger entry :
  entry ∈ pendingRewardDistributions ledger <->
  entry ∈ ledger_distributions ledger /\ pending_distribution entry.2 = true.
Proof.
  unfold pendingRewardDistributions. rewrite elem_of_js_sort, !list_elem_of_In, filter_In.
  by destruct entry.
Qed.

Lemma first_action_Some entries a :
  StronglySorted (cmp_le distribution_order) entries -> first_action entries = Some a ->
  exists entry, entry ∈ entries /\ scheduled_action entry = Some a /\
    forall other, other ∈ entries -> is_Some (scheduled_action other) -> cmp_le distribution_order entry other.
Proof.
  induction 1 as [|entry rest _ IH Hle]; cbn; [done|].
  destruct (scheduled_action entry) as [b|] eqn:Hb.
  - intros [= ->]. exists entry. split_and!; [by left | done |].
    intros other [->|Hin]%elem_of_cons _.
    + unfold cmp_le, distribution_order. destruct (_ =? 0); lia.
    + by apply (proj1 (List.Forall_forall _ _) Hle), list_elem_of_In.
  - intros H. destruct (IH H) as (p & Hp & Ha & Hmin). exists p. split_and!; [by right | done |].
    intros other [->|Hin]%elem_of_cons Ho; [|by apply Hmin]. rewrite Hb in Ho. by destruct Ho.
Qed.

Lemma first_action_None entries :
  first_action entries = None <-> forall entry, entry ∈ entries -> scheduled_action entry = None.
Proof.
  induction entries as [|entry rest IH]; cbn; [split; [intros _ ? ?%elem_of_nil|]; done|].
  destruct (scheduled_action entry) eqn:Ha; split; intros H.
  - done.
  - rewrite (H entry) in Ha; [done | by left].
  - intros p [->|Hp]%elem_of_cons; [done | by apply IH].
  - apply IH. intros p Hp. apply H. by right.
Qed.

(** The schedule picks what the button of the oldest distribution with work would start: of all
    pending distributions of the ledger page that have an action, the one of the lowest cycle
    and half.  It picks nothing, and moves on to the next page, only when none has one. *)
Theorem selection_is_oldest_work ledger :
  match selectScheduledRewardAction ledger with
  | (Some action, before) => before = None /\ exists entry,
      entry ∈ ledger_distributions ledger /\ pending_distribution entry.2 = true /\
      scheduled_action entry = Some action /\ ra_cycle action = lc_cycle entry.1 /\
      ra_distribution action = ld_distribution entry.2 /\
      forall other, other ∈ ledger_distributions ledger -> pending_distribution other.2 = true ->
        is_Some (scheduled_action other) ->
        ra_cycle action < lc_cycle other.1 \/
        (ra_cycle action = lc_cycle other.1 /\ ra_distribution action <= ld_distribution other.2)
  | (None, before) => before = lg_nextBeforeCycle ledger /\
      forall entry, entry ∈ ledger_distributions ledger -> pending_distribution entry.2 = true ->
        scheduled_action entry = None
  end.
Proof.
  unfold selectScheduledRewardAction. destruct (first_action _) as [action|] eqn:Hf.
  - split; [done|]. apply first_action_Some in Hf as (entry & [Hin Hp]%elem_of_pending & Ha & Hmin).
    + assert (Hc : ra_cycle action = lc_cycle entry.1 /\ ra_distribution action = ld_distribution entry.2).
      { unfold scheduled_action, rewardDistributionActions in Ha. by repeat case_match; simplify_eq. }
      destruct Hc as [Hc Hd]. exists entry. split_and!; try done. intros other Ho Hpo Hs.
      specialize (Hmin other (proj2 (elem_of_pending _ _) (conj Ho Hpo)) Hs).
      unfold cmp_le, distribution_order in Hmin. rewrite Hc, Hd.
      destruct (Z.eqb_spec (lc_cycle entry.1 - lc_cycle other.1) 0); lia.
    + apply js_sort_sorted; [apply distribution_order_anti | apply distribution_order_trans].
  - split; [done|]. intros entry Hin Hp. eapply first_action_None; [done|]. by apply elem_of_pending.
Qed.

(** Every action has work behind it in the ledger's evidence. *)
Lemma scheduled_action_has_work entry action :
  0 <= pm_arrived (ld_payments entry.2) -> 0 <= pm_rejected (ld_payments entry.2) ->
  scheduled_action entry = Some action ->
  1 <= ra_transactions action /\ ra_operations action = operationsForKind (ra_kind action) /\
  ld_status entry.2 <> interpretation_unavailable /\
  match ra_kind action with
  | calculate => ld_status entry.2 = calculation_overdue
  | collect | collect_and_distribute =>
      ld_calculation entry.2 = calculation_done /\ pm_rejected (ld_payments entry.2) <= 0 /\
      exists sats, ld_availableToCollectSats entry.2 = Some sats /\ 0 < sats
  | distribute => ld_calculation entry.2 = calculation_done /\ pm_rejected (ld_payments entry.2) <= 0 /\
      0 < pm_outstanding (ld_payments entry.2)
  | finish_bitcoin_payouts =>
      0 < pm_rejected (ld_payments entry.2) \/ 0 < pm_arrived (ld_payments entry.2)
  end.
Proof.
  intros H0 H1 Ha. unfold scheduled_action, rewardDistributionActions in Ha.
  destruct (ld_availableToCollectSats entry.2) as [sats|]; cbn [default] in Ha;
  repeat case_match; simplify_eq; cbn in *; breflect; split_and!; try done; try lia; eauto.
Qed.
