(* ===== verification/Schedule.v ===== *)
(** * The reward schedule

    [RewardScheduleService] of apps/sidekick/src/reward-schedule.ts over its table
    (storage/reward-schedule-repository.ts), with the checks apps/sidekick/src/main.ts hands it.
    It prepares and approves runs without an operator, so it holds the authority of the approve
    button.  As in [RunService] a tick is cut at its two awaits, the discovery and the approval,
    whose results are arguments; a segment lists the worlds it committed.  The runs and
    preparations are those of [RunStore], read and written with the run service's own
    operations. *)

From S2P Require Import Prelude Text OperationPlan Recipe RunStore SweepStore RunService GasWallet RewardActions.

Open Scope Z_scope.

(** ** Data *)

Inductive ScheduleStatus := sch_off | sch_scheduled | sch_waiting | sch_preparing | sch_running | sch_needs_attention.

#[global] Instance ScheduleStatus_eq_dec : EqDecision ScheduleStatus.
Proof. solve_decision. Defined.

#[global] Instance PreparationFailureCode_eq_dec : EqDecision PreparationFailureCode.
Proof. solve_decision. Defined.

(** [RewardScheduleState], the one row of [reward_schedule]. *)
Record ScheduleState := {
  ss_enabled : bool;
  ss_intervalMinutes : Z;
  ss_revision : Z;
  ss_state : ScheduleStatus;
  ss_detail : string;
  ss_nextCheckAt : option Z;
  ss_lastCheckAt : option Z;
  ss_runId : option string;
  ss_preparationId : option string;
  ss_identity : option string;
  ss_request : option PrepareRequest;
  ss_beforeCycle : option Z;
  ss_stopped : bool;
}.

(** The database as the schedule sees it: the runs, its row and the IDs it tracks. *)
Record World := { w_runs : Db; w_schedule : option ScheduleState; w_requests : gmap string Z }.

Inductive ScheduleError :=
  | run_thrown (e : RunError)
  | schedule_refused
  | request_without_id
  | recipe_of_another
  | schedule_schema.

(** What a segment reads besides the database; a reason and an identity are never empty. *)
Record ScheduleEnv := {
  se_run : Env;
  se_identity : option string;
  se_unavailable : option string;
  se_walletBusy : bool;
}.

Definition se_now (env : ScheduleEnv) : Z := e_now (se_run env).

Record ScheduleSettings := { set_enabled : bool; set_intervalMinutes : Z; set_revision : Z }.

(** How a segment of a tick ends. *)
Inductive Next :=
  | tick_over
  | to_select (beforeCycle : option Z) (revision : Z)
  | to_approve (runId recipeSha256 : string).

(** ** Computations *)

Definition sched (A : Type) : Type := World -> result ScheduleError A * list World.

Definition world_after (w : World) (l : list World) : World := List.hd w l.

#[global] Instance sched_ret : MRet sched := fun A a w => (Ok a, []).
#[global] Instance sched_bind : MBind sched := fun A B k m w =>
  match m w with
  | (Ok a, l) => let '(r, l') := k a (world_after w l) in (r, l' ++ l)%list
  | (Err e, l) => (Err e, l)
  end.

Definition sched_throw {A} (e : ScheduleError) : sched A := fun w => (Err e, []).
Definition sched_guard (b : bool) (e : ScheduleError) : sched unit := if b then mret tt else sched_throw e.
Definition sched_reads {A} (f : World -> A) : sched A := fun w => (Ok (f w), []).
Definition sched_write (f : World -> World) : sched unit := fun w => (Ok tt, [f w]).

Definition with_runs (d : Db) (w : World) : World :=
  {| w_runs := d; w_schedule := w_schedule w; w_requests := w_requests w |}.

(** An operation of the run service; what it throws is seen by the caller. *)
Definition attempt {A} (m : repo A) : sched (result RunError A) := fun w =>
  let '(r, l) := m (w_runs w) in (Ok r, map (fun d => with_runs d w) l).

Definition call_run {A} (m : repo A) : sched A :=
  r ← attempt m;
  match r with Ok a => mret a | Err e => sched_throw (run_thrown e) end.

(** ** The repository *)

Definition initial_schedule : ScheduleState :=
  {| ss_enabled := false; ss_intervalMinutes := 15; ss_revision := 0; ss_state := sch_off;
     ss_detail := "Automatic reward runs are off."; ss_nextCheckAt := None; ss_lastCheckAt := None;
     ss_runId := None; ss_preparationId := None; ss_identity := None; ss_request := None;
     ss_beforeCycle := None; ss_stopped := false |}.

Definition schedule_of (w : World) : ScheduleState :=
  match w_schedule w with Some s => s | None => initial_schedule end.

Definition get_schedule : sched ScheduleState := sched_reads schedule_of.

Definition opt_ok {A} (f : A -> bool) (o : option A) : bool :=
  match o with Some a => f a | None => true end.

(** [stateSchema] *)
Definition stateSchema (isUuid : string -> bool) (s : ScheduleState) : bool :=
  (1 <=? ss_intervalMinutes s) && (ss_intervalMinutes s <=? 1440) && safe_nonnegative (ss_revision s) &&
  opt_ok isUuid (ss_runId s) && opt_ok isUuid (ss_preparationId s) &&
  opt_ok (prepareRequestSchema isUuid) (ss_request s) && opt_ok safe_nonnegative (ss_beforeCycle s).

(** [isScheduled] *)
Definition isScheduled (runId : string) (w : World) : bool := bool_decide (is_Some (w_requests w !! runId)).

(** An attempt that can no longer have an effect on the chain. *)
Definition attempt_over (a : Attempt) : bool := bool_decide (at_state a ∈ [attempt_confirmed; rejected]).

Definition child_unresolved (c : Child) : bool :=
  bool_decide (ch_status c ∈ [materialized; broadcast; child_halted]) &&
  (bool_decide (ch_attempts c = []) || negb (forallb attempt_over (ch_attempts c))).

(** [unresolvedStoppedRun]; which run of several is named is left open by the query. *)
Definition unresolvedStoppedRun (wallet : string) (d : Db) : option string :=
  fst <$> head (List.filter (fun '(_, r) =>
    String.eqb (ru_walletPrincipal r) wallet && bool_decide (ru_status r ∈ [expired; cancelled]) &&
    existsb child_unresolved (ru_children r)) (map_to_list (runs d))).

(** ** The service *)

Section Schedule.

Context (isUuid : string -> bool) (sha256 : list Z -> string) (localeCompare : string -> string -> Z)
        (message : ScheduleError -> string).

Definition update_schedule (f : ScheduleState -> ScheduleState) : sched unit :=
  s ← get_schedule;
  _ ← sched_guard (stateSchema isUuid (f s)) schedule_schema;
  sched_write (fun w => {| w_runs := w_runs w; w_schedule := Some (f s); w_requests := w_requests w |}).

(** [INSERT OR IGNORE] *)
Definition tracked (requestId : string) (now : Z) (w : World) : World :=
  {| w_runs := w_runs w; w_schedule := w_schedule w;
     w_requests := match w_requests w !! requestId with
                   | Some _ => w_requests w
                   | None => <[requestId := now]> (w_requests w)
                   end |}.

Definition track (requestId : string) (now : Z) : sched unit := sched_write (tracked requestId now).

(** *** Patches of the row *)

Definition no_request (s : ScheduleState) : ScheduleState :=
  {| ss_enabled := ss_enabled s; ss_intervalMinutes := ss_intervalMinutes s; ss_revision := ss_revision s;
     ss_state := ss_state s; ss_detail := ss_detail s; ss_nextCheckAt := ss_nextCheckAt s;
     ss_lastCheckAt := ss_lastCheckAt s; ss_runId := None; ss_preparationId := None;
     ss_identity := ss_identity s; ss_request := None; ss_beforeCycle := ss_beforeCycle s;
     ss_stopped := ss_stopped s |}.

Definition with_state (state : ScheduleStatus) (detail : string) (next : option Z) (s : ScheduleState)
    : ScheduleState :=
  {| ss_enabled := ss_enabled s; ss_intervalMinutes := ss_intervalMinutes s; ss_revision := ss_revision s;
     ss_state := state; ss_detail := detail; ss_nextCheckAt := next; ss_lastCheckAt := ss_lastCheckAt s;
     ss_runId := ss_runId s; ss_preparationId := ss_preparationId s; ss_identity := ss_identity s;
     ss_request := ss_request s; ss_beforeCycle := ss_beforeCycle s; ss_stopped := ss_stopped s |}.

Definition with_beforeCycle (before : option Z) (s : ScheduleState) : ScheduleState :=
  {| ss_enabled := ss_enabled s; ss_intervalMinutes := ss_intervalMinutes s; ss_revision := ss_revision s;
     ss_state := ss_state s; ss_detail := ss_detail s; ss_nextCheckAt := ss_nextCheckAt s;
     ss_lastCheckAt := ss_lastCheckAt s; ss_runId := ss_runId s; ss_preparationId := ss_preparationId s;
     ss_identity := ss_identity s; ss_request := ss_request s; ss_beforeCycle := before;
     ss_stopped := ss_stopped s |}.

Definition with_lastCheckAt (at_ : Z) (s : ScheduleState) : ScheduleState :=
  {| ss_enabled := ss_enabled s; ss_intervalMinutes := ss_intervalMinutes s; ss_revision := ss_revision s;
     ss_state := ss_state s; ss_detail := ss_detail s; ss_nextCheckAt := ss_nextCheckAt s;
     ss_lastCheckAt := Some at_; ss_runId := ss_runId s; ss_preparationId := ss_preparationId s;
     ss_identity := ss_identity s; ss_request := ss_request s; ss_beforeCycle := ss_beforeCycle s;
     ss_stopped := ss_stopped s |}.

Definition with_runId (runId : string) (s : ScheduleState) : ScheduleState :=
  {| ss_enabled := ss_enabled s; ss_intervalMinutes := ss_intervalMinutes s; ss_revision := ss_revision s;
     ss_state := ss_state s; ss_detail := ss_detail s; ss_nextCheckAt := ss_nextCheckAt s;
     ss_lastCheckAt := ss_lastCheckAt s; ss_runId := Some runId; ss_preparationId := ss_preparationId s;
     ss_identity := ss_identity s; ss_request := ss_request s; ss_beforeCycle := ss_beforeCycle s;
     ss_stopped := ss_stopped s |}.

(** The row of a new preparation. *)
Definition with_request (request : PrepareRequest) (s : ScheduleState) : ScheduleState :=
  {| ss_enabled := ss_enabled s; ss_intervalMinutes := ss_intervalMinutes s; ss_revision := ss_revision s;
     ss_state := sch_preparing; ss_detail := "Preparing the next scheduled reward run.";
     ss_nextCheckAt := None; ss_lastCheckAt := ss_lastCheckAt s; ss_runId := None;
     ss_preparationId := pr_requestId request; ss_identity := ss_identity s; ss_request := Some request;
     ss_beforeCycle := ss_beforeCycle s; ss_stopped := ss_stopped s |}.

Definition halted_schedule (detail : string) (s : ScheduleState) : ScheduleState :=
  {| ss_enabled := false; ss_intervalMinutes := ss_intervalMinutes s; ss_revision := ss_revision s + 1;
     ss_state := sch_needs_attention; ss_detail := detail; ss_nextCheckAt := None;
     ss_lastCheckAt := ss_lastCheckAt s; ss_runId := ss_runId s; ss_preparationId := ss_preparationId s;
     ss_identity := ss_identity s; ss_request := ss_request s; ss_beforeCycle := ss_beforeCycle s;
     ss_stopped := true |}.

(** *** Its private methods *)

Definition clear : sched unit := update_schedule no_request.

Definition wait (env : ScheduleEnv) (detail : string) : sched unit :=
  s ← get_schedule;
  if negb (ss_enabled s) then mret tt
  else update_schedule (with_state sch_waiting detail (Some (se_now env + ss_intervalMinutes s * 60000))).

Definition halt (detail : string) : sched unit := update_schedule (halted_schedule detail).

(** The check time is still ahead. *)
Definition later_check (env : ScheduleEnv) (s : ScheduleState) : bool :=
  match ss_nextCheckAt s with Some t => se_now env <? t | None => false end.

(** *** Following a request *)

Definition run_status_text (status : RunStatus) : string :=
  match status with
  | awaiting_approval => "awaiting-approval" | approved => "approved" | running => "running"
  | paused => "paused" | completed => "completed" | halted => "halted" | cancelled => "cancelled"
  | expired => "expired"
  end.

(** [follow] from the run on: what becomes of the scheduled run. *)
Definition follow_run (env : ScheduleEnv) (s : ScheduleState) (runId : string) : sched Next :=
  run ← call_run (service_get sha256 localeCompare runId);
  _ ← update_schedule (with_runId runId);
  if bool_decide (ru_status run ∈ [halted; paused; expired; cancelled]) then
    _ ← halt (match ru_failureReason run with
              | Some reason => reason
              | None => "Scheduled run " ++ run_status_text (ru_status run) ++ ". Review it before continuing."
              end)%string;
    mret tick_over
  else if bool_decide (ru_status run = completed) then
    _ ← clear;
    latest ← get_schedule;
    let enabled := ss_enabled latest in
    _ ← update_schedule (fun s => with_beforeCycle None (with_state (ss_state s)
          (if enabled then "Scheduled run completed; checking the next action."
           else "Scheduled run completed. Automatic starts remain off.")
          (if enabled then Some (se_now env) else None) s));
    mret tick_over
  else if bool_decide (ru_status run = awaiting_approval) then
    latest ← get_schedule;
    if negb (ss_enabled latest) || e_closed (se_run env) then
      _ ← (if e_closed (se_run env) then mret tt
           else _ ← call_run (cancel sha256 localeCompare (se_run env) runId); clear);
      mret tick_over
    else if negb (bool_decide (ss_identity latest = se_identity env)) then
      _ ← halt "Deployment identity changed before approval."; mret tick_over
    else match se_unavailable env with
         | Some reason => _ ← wait env reason; mret tick_over
         | None => mret (to_approve runId (ru_recipeSha256 run))
         end
  else
    _ ← (if ss_enabled s
         then update_schedule (with_state sch_running
                ("Scheduled run: " ++ bigint_toString (Z.of_nat (completedCount run)) ++ " of " ++
                 bigint_toString (Z.of_nat (List.length (ru_children run))) ++ " calls complete.") None)
         else mret tt);
    mret tick_over.

(** [follow] from the preparation on. *)
Definition follow_preparation (env : ScheduleEnv) (s : ScheduleState) (requestId preparationId : string)
    (preparation : Preparation) : sched Next :=
  if negb (String.eqb preparationId requestId) then
    _ ← clear;
    _ ← wait env "Waiting for an existing reward preparation; it remains manually approved.";
    mret tick_over
  else if bool_decide (p_status preparation = prep_failed) then
    match p_failureCode preparation with
    | Some code =>
        _ ← clear;
        _ ← update_schedule (with_beforeCycle None);
        _ ← wait env (match code with
                      | no_work => "No eligible reward work remains for that action; checking again on schedule."
                      | temporarily_unavailable =>
                          "Reward preparation deferred: " ++
                          match p_failureReason preparation with
                          | Some reason => reason | None => "temporarily unavailable" end ++
                          ". Retrying on schedule."
                      end)%string;
        mret tick_over
    | None =>
        _ ← halt (match p_failureReason preparation with
                  | Some reason => reason
                  | None => "Reward preparation failed; review before continuing."
                  end)%string;
        mret tick_over
    end
  else match p_runId preparation with
       | None => mret tick_over
       | Some runId =>
           _ ← sched_guard (String.eqb runId requestId) recipe_of_another;
           follow_run env s runId
       end.

Definition follow (env : ScheduleEnv) : sched Next :=
  s ← get_schedule;
  match ss_request s ≫= (fun request => id ← pr_requestId request; Some (request, id)) with
  | None => sched_throw request_without_id
  | Some (request, requestId) =>
      known ← sched_reads (fun w => preparations (w_runs w) !! requestId);
      match known with
      | Some preparation => follow_preparation env s requestId requestId preparation
      | None =>
          if negb (ss_enabled s) then _ ← clear; mret tick_over
          else
            queued ← attempt (enqueuePreparation isUuid sha256 localeCompare (se_run env) requestId request);
            match queued with
            | Ok (preparationId, preparation) =>
                follow_preparation env s requestId preparationId preparation
            | Err e =>
                if bool_decide (rewardPreparationFailureCode e = Some temporarily_unavailable)
                then _ ← wait env "Reward preparation is temporarily unavailable; retrying on schedule.";
                     mret tick_over
                else sched_throw (run_thrown e)
            end
      end
  end.

(** After the approval. *)
Definition follow_approved (env : ScheduleEnv) (runId : string) (approval : result RunError unit) : sched Next :=
  match approval with
  | Err e =>
      if negb (bool_decide (rewardPreparationFailureCode e = Some temporarily_unavailable))
      then sched_throw (run_thrown e)
      else
        run ← call_run (service_get sha256 localeCompare runId);
        if negb (bool_decide (ru_status run = awaiting_approval)) then sched_throw (run_thrown e)
        else _ ← wait env "Could not verify reward-run approval; retrying on schedule."; mret tick_over
  | Ok _ =>
      s ← get_schedule;
      _ ← (if ss_enabled s
           then update_schedule (with_state sch_running
                  "Scheduled reward run approved; the engine is handling execution." None)
           else mret tt);
      mret tick_over
  end.

(** *** A tick *)

(** [check] up to the discovery, or through [follow]. *)
Definition check (env : ScheduleEnv) : sched Next :=
  s ← get_schedule;
  if ss_stopped s then mret tick_over
  else if ss_enabled s && negb (bool_decide (ss_identity s = se_identity env)) then
    _ ← halt "Manager, network or gas wallet changed. Review and enable the schedule again.";
    mret tick_over
  else match ss_request s with
  | Some _ =>
      if ss_enabled s && bool_decide (ss_state s = sch_waiting) && later_check env s then mret tick_over
      else follow env
  | None =>
      if negb (ss_enabled s) || later_check env s then mret tick_over
      else
        _ ← update_schedule (with_lastCheckAt (se_now env));
        match se_unavailable env with
        | Some reason => _ ← wait env reason; mret tick_over
        | None =>
            if se_walletBusy env
            then _ ← wait env "Waiting for the current run or gas-wallet sweep."; mret tick_over
            else mret (to_select (ss_beforeCycle s) (ss_revision s))
        end
  end.

(** [check] after the discovery; [uuid] is [randomUUID()]. *)
Definition check_selected (env : ScheduleEnv) (uuid : string) (revision : Z)
    (selected : option PrepareRequest * option Z) : sched Next :=
  latest ← get_schedule;
  if e_closed (se_run env) || negb (ss_enabled latest) || negb (ss_revision latest =? revision)
  then mret tick_over
  else if negb (bool_decide (ss_identity latest = se_identity env)) then
    _ ← halt "Deployment identity changed during the reward check."; mret tick_over
  else
    _ ← update_schedule (with_beforeCycle (snd selected));
    match fst selected with
    | None => _ ← wait env "No eligible reward action on this check."; mret tick_over
    | Some request =>
        let request := {| pr_requestId := Some uuid; pr_cycle := pr_cycle request;
                          pr_distribution := pr_distribution request;
                          pr_operations := pr_operations request;
                          pr_maxTransactions := pr_maxTransactions request |} in
        _ ← track uuid (se_now env);
        _ ← update_schedule (with_request request);
        follow env
    end.

(** What [select] of main.ts makes of the ledger. *)
Definition selected_request (ledger : RewardLedger) : option PrepareRequest * option Z :=
  let '(action, before) := selectScheduledRewardAction ledger in
  ((fun a => {| pr_requestId := None; pr_cycle := ra_cycle a; pr_distribution := ra_distribution a;
                pr_operations := Some (ra_operations a); pr_maxTransactions := None |}) <$> action, before).

(** The [catch] of [tick]. *)
Definition tick_catch (env : ScheduleEnv) (e : ScheduleError) : sched unit :=
  s ← get_schedule;
  if bool_decide (is_Some (ss_request s)) then halt (message e)
  else wait env "Could not check rewards; retrying on schedule.".

(** *** Settings *)

(** [rewardScheduleSettingsSchema] *)
Definition settingsSchema (input : ScheduleSettings) : bool :=
  (1 <=? set_intervalMinutes input) && (set_intervalMinutes input <=? 1440) &&
  safe_nonnegative (set_revision input).

(** The run of the request that enabling would drop, once it is known. *)
Definition previous_run (current : ScheduleState) : sched (option string) :=
  match ss_runId current, ss_preparationId current with
  | Some runId, _ => mret (Some runId)
  | None, None => mret None
  | None, Some preparationId =>
      known ← sched_reads (fun w => preparations (w_runs w) !! preparationId);
      match known with
      | None => mret None
      | Some preparation =>
          _ ← sched_guard (negb (bool_decide (p_status preparation ∈ [prep_queued; prep_preparing])))
                schedule_refused;
          match p_runId preparation with
          | Some runId => _ ← update_schedule (with_runId runId); mret (Some runId)
          | None => mret None
          end
      end
  end.

(** The run may still have an effect on the chain. *)
Definition run_unfinished (run : Run) : bool :=
  bool_decide (ru_status run ∈ [halted; paused]) || (0 <? inFlight run)%nat ||
  existsb (fun c => bool_decide (ch_status c ∈ [materialized; broadcast])) (ru_children run).

(** Whether enabling drops the request. *)
Definition clears_request (current : ScheduleState) (identity : option string) : sched bool :=
  runId ← previous_run current;
  run ← match runId with
        | None => mret None
        | Some id => r ← call_run (service_get sha256 localeCompare id); mret (Some r)
        end;
  _ ← sched_guard (negb (match run with Some r => run_unfinished r | None => false end)) schedule_refused;
  let cleared := match run with
                 | None => true
                 | Some r => bool_decide (ru_status r ∈ [completed; cancelled; expired])
                 end in
  _ ← sched_guard (cleared || bool_decide (ss_identity current = identity)) schedule_refused;
  mret cleared.

Definition configured_schedule (env : ScheduleEnv) (settings : ScheduleSettings) (current : ScheduleState)
    (cleared : bool) (s : ScheduleState) : ScheduleState :=
  let enabled := set_enabled settings in
  {| ss_enabled := enabled; ss_intervalMinutes := set_intervalMinutes settings;
     ss_revision := ss_revision current + 1; ss_state := if enabled then sch_scheduled else sch_off;
     ss_detail := if enabled then "Automatic reward checks enabled."
                  else "Automatic starts are off. An approval already in progress or an approved run may continue.";
     ss_nextCheckAt := if enabled then Some (se_now env) else None; ss_lastCheckAt := ss_lastCheckAt s;
     ss_runId := if cleared then None else ss_runId s;
     ss_preparationId := if cleared then None else ss_preparationId s;
     ss_identity := if enabled || bool_decide (ss_request current = None) then se_identity env
                    else ss_identity current;
     ss_request := if cleared then None else ss_request s; ss_beforeCycle := ss_beforeCycle s;
     ss_stopped := if enabled then false else ss_stopped current |}.

Definition configure (env : ScheduleEnv) (settings : ScheduleSettings) : sched unit :=
  _ ← sched_guard (settingsSchema settings) schedule_schema;
  current ← get_schedule;
  _ ← sched_guard (set_revision settings =? ss_revision current) schedule_refused;
  _ ← sched_guard (negb (set_enabled settings &&
        (bool_decide (se_identity env = None) || bool_decide (is_Some (se_unavailable env))))) schedule_refused;
  cleared ← (if set_enabled settings && bool_decide (is_Some (ss_request current)) &&
                (ss_stopped current || negb (bool_decide (ss_identity current = se_identity env)))
             then clears_request current (se_identity env) else mret false);
  update_schedule (configured_schedule env settings current cleared).

(** ** The process *)

(** A tick that waits; there is at most one. *)
Inductive Waiting :=
  | selecting (revision : Z)
  | approving (runId : string).

Record System := { sy_world : World; sy_tick : option Waiting; sy_closed : bool }.

Definition waiting_of (next : Next) : option Waiting :=
  match next with
  | tick_over => None
  | to_select _ revision => Some (selecting revision)
  | to_approve runId _ => Some (approving runId)
  end.

(** A segment of a tick with the [catch] around the whole tick. *)
Definition tick_segment (env : ScheduleEnv) (m : sched Next) : sched Next := fun w =>
  match m w with
  | (Ok next, l) => (Ok next, l)
  | (Err e, l) => let '(r, l') := tick_catch env e (world_after w l) in
                  (match r with Ok _ => Ok tick_over | Err e' => Err e' end, l' ++ l)%list
  end.

Definition next_of (r : result ScheduleError Next) : Next :=
  match r with Ok next => next | Err _ => tick_over end.

(** The segment ran to its end. *)
Definition ticked (env : ScheduleEnv) (m : sched Next) (s : System) : System :=
  let out := tick_segment env m (sy_world s) in
  {| sy_world := world_after (sy_world s) (snd out); sy_tick := waiting_of (next_of (fst out));
     sy_closed := sy_closed s |}.

(** A new process over a world. *)
Definition restarted_schedule (w : World) : System := {| sy_world := w; sy_tick := None; sy_closed := false |}.

(** What a waiting tick goes on with. *)
Inductive Resumption :=
  | selected_as (uuid : string) (selected : result RunError (option PrepareRequest * option Z))
  | approved_as (approval : result RunError unit).

Definition resumed_tick (env : ScheduleEnv) (waiting : option Waiting) (r : Resumption) : option (sched Next) :=
  match waiting, r with
  | Some (selecting revision), selected_as uuid selected =>
      Some (match selected with
            | Ok value => check_selected env uuid revision value
            | Err e => sched_throw (run_thrown e)
            end)
  | Some (approving runId), approved_as approval => Some (follow_approved env runId approval)
  | _, _ => None
  end.

Inductive schedule_step : System -> System -> Prop :=
  | schedule_tick env s :
      sy_closed s = false -> e_closed (se_run env) = false -> sy_tick s = None ->
      schedule_step s (ticked env (check env) s)
  | schedule_resume env r m s :
      e_closed (se_run env) = sy_closed s -> resumed_tick env (sy_tick s) r = Some m ->
      schedule_step s (ticked env m s)
  | schedule_configure env settings s :
      let out := configure env settings (sy_world s) in
      schedule_step s {| sy_world := world_after (sy_world s) (snd out); sy_tick := sy_tick s;
                         sy_closed := sy_closed s |}
  | schedule_stop s :
      schedule_step s {| sy_world := sy_world s; sy_tick := sy_tick s; sy_closed := true |}
  | schedule_others d s :
      schedule_step s {| sy_world := with_runs d (sy_world s); sy_tick := sy_tick s; sy_closed := sy_closed s |}
  | schedule_restart s : schedule_step s (restarted_schedule (sy_world s))
  | schedule_crash_tick env w s :
      sy_closed s = false -> e_closed (se_run env) = false -> sy_tick s = None ->
      w ∈ snd (tick_segment env (check env) (sy_world s)) ->
      schedule_step s (restarted_schedule w)
  | schedule_crash_resume env r m w s :
      e_closed (se_run env) = sy_closed s -> resumed_tick env (sy_tick s) r = Some m ->
      w ∈ snd (tick_segment env m (sy_world s)) ->
      schedule_step s (restarted_schedule w)
  | schedule_crash_configure env settings w s :
      w ∈ snd (configure env settings (sy_world s)) ->
      schedule_step s (restarted_schedule w).

(** A new deployment. *)
Definition new_world (d : Db) : World := {| w_runs := d; w_schedule := None; w_requests := ∅ |}.

Definition schedule_reachable (s : System) : Prop :=
  exists d, rtc schedule_step (restarted_schedule (new_world d)) s.

End Schedule.

(** ** The checks of main.ts *)

Record Deployment := {
  dp_operatorRun : bool;
  dp_network : string;
  dp_chainId : Z;
  dp_managerPrincipal : string;
}.

Definition main_identity (dp : Deployment) (wallet : option StoredGasWallet) : option string :=
  (fun w => dp_network dp ++ ":" ++ bigint_toString (dp_chainId dp) ++ ":" ++ dp_managerPrincipal dp ++
            ":" ++ gw_principal w)%string <$> wallet.

(** [forced] is the reason of a Force Observe control. *)
Definition main_unavailable (dp : Deployment) (wallet : option StoredGasWallet) (forced : option string)
    (d : Db) : option string :=
  if negb (dp_operatorRun dp) then Some "Operator-run mode is required."%string
  else match wallet with
  | None => Some "Enable the gas wallet before scheduling reward runs."%string
  | Some w =>
      if negb (gw_enabled w) then Some "Enable the gas wallet before scheduling reward runs."%string
      else match unresolvedStoppedRun (gw_principal w) d with
      | Some unresolved =>
          Some ("Stopped run " ++ unresolved ++
                " has unresolved transaction evidence. Review it before scheduling more work.")%string
      | None => (fun reason => "Force Observe is active: " ++ reason)%string <$> forced
      end
  end.

Definition main_walletBusy (isUuid : string -> bool) (wallet : option StoredGasWallet) : repo bool :=
  run ← match wallet with Some w => active (gw_principal w) | None => mret None end;
  if bool_decide (is_Some run) then mret true
  else
    sweep ← activeSweep isUuid;
    if bool_decide (is_Some sweep) then mret true
    else gets (fun d => negb (bool_decide (pendingPreparations d = []))).
