(* ===== verification/WalletRequest.v ===== *)
(** * Requests and sealed manifests of browser-wallet transactions

    The shapes of packages/api-contracts/src/v1.ts a wallet intent is made of, the registry of
    apps/sidekick/src/wallet-operation-contracts.ts, and the sealed manifest of
    apps/sidekick/src/wallet-intent-service.ts.  Literals a schema fixes ([method], [sponsored],
    [postConditionMode]) appear in the JSON only.  Instants are milliseconds, printed by
    [toISOString]. *)

From S2P Require Import Prelude Text CanonicalJson OperationPlan SweepPlan Recipe.

Open Scope string_scope.
Open Scope list_scope.
Open Scope Z_scope.

(** ** Data *)

(** [browserWalletIntentActionSchema] *)
Inductive WalletAction :=
  | wa_register_self | wa_add_admin | wa_remove_admin | wa_update_fees | wa_withdraw_fees
  | wa_sweep_fee_refunds | wa_claim_rewards | wa_claim_staker_rewards | wa_calculate_rewards.

Inductive WalletNetwork := wn_mainnet | wn_testnet | wn_devnet | wn_regtest.

(** [browserWalletIntentCreateRequestSchema]; the first field is [actorPrincipal]. *)
Inductive WalletRequest :=
  | rq_register_self (actor : string)
  | rq_add_admin (actor admin : string)
  | rq_remove_admin (actor admin : string)
  | rq_update_fees (actor feeBips : string)
  | rq_withdraw_fees (actor amountSats recipient : string)
  | rq_sweep_fee_refunds (actor recipient : string)
  | rq_claim_rewards (actor : string) (jobId : option string)
  | rq_claim_staker_rewards (actor staker rewardCycle : string) (bondIndex : option string)
  | rq_calculate_rewards (actor : string).

(** [browserWalletTransactionSchema] *)
Record WalletTransaction := {
  wt_contract : string;
  wt_functionName : string;
  wt_functionArgs : list string;
  wt_network : WalletNetwork;
  wt_address : string;
  wt_postConditions : list string;
}.

Record WalletReview := {
  rv_title : string;
  rv_summary : string;
  rv_expectedPostState : string;
  rv_fields : list (string * string);
}.

(** The completion binding of a reward calculation. *)
Record WalletBinding := {
  bi_pox5ContractId : string;
  bi_targetRewardCycle : Z;
  bi_targetCheckpoint : Checkpoint;
  bi_expectedLastRewardComputeBurnHeight : Z;
}.

(** The outcome of [browserWalletVerificationSchema]. *)
Inductive WalletOutcome :=
  | oc_submitted | oc_mempool | oc_canonical_success | oc_complete | oc_not_found | oc_noncanonical
  | oc_superseded | oc_mismatch | oc_abort | oc_unavailable.

Record WalletVerification := {
  vf_outcome : WalletOutcome;
  vf_observedAt : Z;
  vf_canonical : option bool;
  vf_blockHeight : option Z;
  vf_indexBlockHash : option string;
  vf_detail : string;
  vf_executionSource : option ExecutionSource;
}.

(** [StoredManifest] *)
Record WalletManifest := {
  mf_id : string;
  mf_action : WalletAction;
  mf_request : WalletRequest;
  mf_network : WalletNetwork;
  mf_chainId : Z;
  mf_requiredSender : string;
  mf_createdAt : Z;
  mf_expiresAt : Z;
  mf_transaction : WalletTransaction;
  mf_binding : option WalletBinding;
  mf_review : WalletReview;
  mf_factsSha256 : string;
}.

#[global] Instance WalletAction_eq_dec : EqDecision WalletAction.
Proof. solve_decision. Defined.
#[global] Instance WalletNetwork_eq_dec : EqDecision WalletNetwork.
Proof. solve_decision. Defined.
#[global] Instance WalletRequest_eq_dec : EqDecision WalletRequest.
Proof. solve_decision. Defined.
#[global] Instance WalletTransaction_eq_dec : EqDecision WalletTransaction.
Proof. solve_decision. Defined.
#[global] Instance WalletReview_eq_dec : EqDecision WalletReview.
Proof. solve_decision. Defined.
#[global] Instance WalletBinding_eq_dec : EqDecision WalletBinding.
Proof. solve_decision. Defined.
#[global] Instance WalletOutcome_eq_dec : EqDecision WalletOutcome.
Proof. solve_decision. Defined.
#[global] Instance ExecutionSource_eq_dec : EqDecision ExecutionSource.
Proof. solve_decision. Defined.
#[global] Instance WalletVerification_eq_dec : EqDecision WalletVerification.
Proof. solve_decision. Defined.
#[global] Instance WalletManifest_eq_dec : EqDecision WalletManifest.
Proof. solve_decision. Defined.

(** ** Text of the enumerations *)

Definition walletActionText (a : WalletAction) : string :=
  match a with
  | wa_register_self => "register-self" | wa_add_admin => "add-admin"
  | wa_remove_admin => "remove-admin" | wa_update_fees => "update-fees"
  | wa_withdraw_fees => "withdraw-fees" | wa_sweep_fee_refunds => "sweep-fee-refunds"
  | wa_claim_rewards => "claim-rewards" | wa_claim_staker_rewards => "claim-staker-rewards"
  | wa_calculate_rewards => "calculate-rewards"
  end.

Definition walletNetworkText (n : WalletNetwork) : string :=
  match n with
  | wn_mainnet => "mainnet" | wn_testnet => "testnet" | wn_devnet => "devnet" | wn_regtest => "regtest"
  end.

Definition requestAction (r : WalletRequest) : WalletAction :=
  match r with
  | rq_register_self _ => wa_register_self
  | rq_add_admin _ _ => wa_add_admin
  | rq_remove_admin _ _ => wa_remove_admin
  | rq_update_fees _ _ => wa_update_fees
  | rq_withdraw_fees _ _ _ => wa_withdraw_fees
  | rq_sweep_fee_refunds _ _ => wa_sweep_fee_refunds
  | rq_claim_rewards _ _ => wa_claim_rewards
  | rq_claim_staker_rewards _ _ _ _ => wa_claim_staker_rewards
  | rq_calculate_rewards _ => wa_calculate_rewards
  end.

Definition requestActor (r : WalletRequest) : string :=
  match r with
  | rq_register_self a | rq_add_admin a _ | rq_remove_admin a _ | rq_update_fees a _
  | rq_withdraw_fees a _ _ | rq_sweep_fee_refunds a _ | rq_claim_rewards a _
  | rq_claim_staker_rewards a _ _ _ | rq_calculate_rewards a => a
  end.

(** ** The registry *)

Inductive WalletAuthority := manager_admin | manager_admin_and_signer_grant | permissionless.

#[global] Instance WalletAuthority_eq_dec : EqDecision WalletAuthority.
Proof. solve_decision. Defined.

Record WalletOperationContract := {
  wo_capability : option string;
  wo_authority : WalletAuthority;
  wo_functionName : string;
}.

(** [WALLET_OPERATION_CONTRACTS] *)
Definition walletOperationContract (action : WalletAction) : WalletOperationContract :=
  let entry capability authority functionName :=
    {| wo_capability := capability; wo_authority := authority; wo_functionName := functionName |} in
  match action with
  | wa_register_self => entry (Some "register-self") manager_admin_and_signer_grant "register-self"
  | wa_add_admin | wa_remove_admin => entry (Some "update-admin") manager_admin "update-admin"
  | wa_update_fees => entry (Some "update-fees") manager_admin "update-fees"
  | wa_withdraw_fees => entry (Some "withdraw-fees") manager_admin "withdraw-fees"
  | wa_sweep_fee_refunds => entry (Some "sweep-fee-refunds") manager_admin "sweep-fee-refunds"
  | wa_claim_rewards => entry (Some "reference-reward-claims") permissionless "claim-rewards"
  | wa_claim_staker_rewards =>
      entry (Some "reference-reward-claims") permissionless "claim-staker-rewards"
  | wa_calculate_rewards => entry None permissionless "calculate-rewards"
  end%string.

Definition managerCapabilityForWalletAction (action : WalletAction) : option string :=
  wo_capability (walletOperationContract action).

Definition walletIntentTransactionMatchesAction (action : WalletAction) (t : WalletTransaction) : bool :=
  String.eqb (wt_functionName t) (wo_functionName (walletOperationContract action)).

(** ** Schemas *)

Definition clarityUintMaximum : Z := 2 ^ 128 - 1.

Definition canonicalClarityUintSchema (s : string) : bool :=
  uintText s && match BigInt s with Some n => n <=? clarityUintMaximum | None => false end.

Definition positiveClarityUintSchema (s : string) : bool :=
  canonicalClarityUintSchema s && negb (String.eqb s "0").

Definition length_between (lo hi : nat) (s : string) : bool :=
  (lo <=? String.length s)%nat && (String.length s <=? hi)%nat.

Definition walletPrincipalInputSchema (s : string) : bool := length_between 1 500 s.

Definition walletActorPrincipalInputSchema (s : string) : bool :=
  length_between 1 64 s && negb (Principals.includes_dot s).

(** [browserWalletIntentCreateRequestSchema] on the fields of the union. *)
Definition walletRequestSchema (isUuid : string -> bool) (r : WalletRequest) : bool :=
  walletActorPrincipalInputSchema (requestActor r) &&
  match r with
  | rq_register_self _ | rq_calculate_rewards _ => true
  | rq_add_admin _ admin | rq_remove_admin _ admin => walletActorPrincipalInputSchema admin
  | rq_update_fees _ feeBips =>
      canonicalClarityUintSchema feeBips &&
      match BigInt feeBips with Some n => n <? 10000 | None => false end
  | rq_withdraw_fees _ amountSats recipient =>
      positiveClarityUintSchema amountSats && walletPrincipalInputSchema recipient
  | rq_sweep_fee_refunds _ recipient => walletPrincipalInputSchema recipient
  | rq_claim_rewards _ jobId => match jobId with Some id => isUuid id | None => true end
  | rq_claim_staker_rewards _ staker rewardCycle bondIndex =>
      walletPrincipalInputSchema staker && canonicalClarityUintSchema rewardCycle &&
      match bondIndex with Some i => canonicalClarityUintSchema i | None => true end
  end.

(** [/^(?:0x)?(?:[0-9a-f]{2})+$/i] *)
Definition clarityHexSchema (s : string) : bool :=
  let digits := if startsWith s "0x" then String.substring 2 (String.length s - 2) s else s in
  nonempty digits && Nat.even (String.length digits) && forallb is_hex (chars digits).

Definition serializedPostConditionSchema (s : string) : bool :=
  length_between 4 2048 s && clarityHexSchema s.

(** The number of arguments and of post-conditions of each function. *)
Definition transactionArity (functionName : string) : option (nat * nat) :=
  match functionName with
  | "register-self" => Some (4, 0)%nat
  | "update-admin" => Some (2, 0)%nat
  | "update-fees" => Some (1, 0)%nat
  | "withdraw-fees" => Some (2, 1)%nat
  | "calculate-rewards" => Some (1, 0)%nat
  | "claim-rewards" => Some (2, 1)%nat
  | "claim-staker-rewards" => Some (3, 1)%nat
  | "sweep-fee-refunds" => Some (1, 1)%nat
  | _ => None
  end%string.

Definition walletTransactionSchema (t : WalletTransaction) : bool :=
  nonempty (wt_contract t) && nonempty (wt_address t) &&
  match transactionArity (wt_functionName t) with
  | Some (args, conditions) =>
      (List.length (wt_functionArgs t) =? args)%nat && forallb clarityHexSchema (wt_functionArgs t) &&
      (List.length (wt_postConditions t) =? conditions)%nat &&
      forallb serializedPostConditionSchema (wt_postConditions t)
  | None => false
  end.

Definition walletVerificationSchema (v : WalletVerification) : bool :=
  match vf_blockHeight v with Some h => safe_nonnegative h | None => true end &&
  match vf_indexBlockHash v with Some h => prefixed_hex is_lower_hex 64 h | None => true end &&
  nonempty (vf_detail v).

Definition walletReviewSchema (r : WalletReview) : bool :=
  nonempty (rv_title r) && nonempty (rv_summary r) && nonempty (rv_expectedPostState r) &&
  forallb (fun '(label, value) => nonempty label && nonempty value) (rv_fields r) &&
  (1 <=? List.length (rv_fields r))%nat && (List.length (rv_fields r) <=? 16)%nat.

Definition walletBindingSchema (b : WalletBinding) : bool :=
  nonempty (bi_pox5ContractId b) && safe_nonnegative (bi_targetRewardCycle b) &&
  safe_nonnegative (bi_expectedLastRewardComputeBurnHeight b).

Definition mainnetChainId : Z := 1.
Definition testnetChainId : Z := 0x80000000.
Definition defaultPrivateChainId : Z := 0x80000000.

Definition uint32 (n : Z) : bool := (0 <=? n) && (n <=? 0xffffffff).

(** [expectedChainId] of the manifest schemas. *)
Definition expectedChainId (n : WalletNetwork) : option Z :=
  match n with wn_mainnet => Some mainnetChainId | wn_testnet => Some testnetChainId | _ => None end.

(** [storedManifestSchema], its [superRefine] included. *)
Definition storedManifestSchema (isUuid : string -> bool) (m : WalletManifest) : bool :=
  isUuid (mf_id m) && walletRequestSchema isUuid (mf_request m) && uint32 (mf_chainId m) &&
  nonempty (mf_requiredSender m) && walletTransactionSchema (mf_transaction m) &&
  match mf_binding m with Some b => walletBindingSchema b | None => true end &&
  walletReviewSchema (mf_review m) && hash64 (mf_factsSha256 m) &&
  bool_decide (requestAction (mf_request m) = mf_action m) &&
  match expectedChainId (mf_network m) with Some c => mf_chainId m =? c | None => true end &&
  bool_decide (wt_network (mf_transaction m) = mf_network m) &&
  walletIntentTransactionMatchesAction (mf_action m) (mf_transaction m) &&
  Bool.eqb (bool_decide (mf_action m = wa_calculate_rewards))
           (if mf_binding m is Some _ then true else false).

(** ** JSON *)

Definition jobId_json (jobId : option string) : list (string * Json) :=
  match jobId with Some id => [("jobId"%string, JStr id)] | None => [] end.

Definition request_json (r : WalletRequest) : Json :=
  JObj ([("action", JStr (walletActionText (requestAction r)));
         ("actorPrincipal", JStr (requestActor r))] ++
    match r with
    | rq_register_self _ | rq_calculate_rewards _ => []
    | rq_add_admin _ admin | rq_remove_admin _ admin => [("adminPrincipal", JStr admin)]
    | rq_update_fees _ feeBips => [("feeBips", JStr feeBips)]
    | rq_withdraw_fees _ amountSats recipient =>
        [("amountSats", JStr amountSats); ("recipient", JStr recipient)]
    | rq_sweep_fee_refunds _ recipient => [("recipient", JStr recipient)]
    | rq_claim_rewards _ jobId => jobId_json jobId
    | rq_claim_staker_rewards _ staker rewardCycle bondIndex =>
        [("stakerPrincipal", JStr staker); ("rewardCycle", JStr rewardCycle);
         ("bondIndex", JOptStr bondIndex)]
    end).

Definition transaction_json (t : WalletTransaction) : Json :=
  JObj [("method", JStr "stx_callContract");
        ("params", JObj [("contract", JStr (wt_contract t)); ("functionName", JStr (wt_functionName t));
           ("functionArgs", JArr (JStr <$> wt_functionArgs t));
           ("network", JStr (walletNetworkText (wt_network t))); ("address", JStr (wt_address t));
           ("sponsored", JBool false); ("postConditionMode", JStr "deny");
           ("postConditions", JArr (JStr <$> wt_postConditions t))])]%string.

Definition review_json (r : WalletReview) : Json :=
  JObj [("title", JStr (rv_title r)); ("summary", JStr (rv_summary r));
        ("expectedPostState", JStr (rv_expectedPostState r));
        ("fields", JArr ((fun '(label, value) => JObj [("label", JStr label); ("value", JStr value)])
                          <$> rv_fields r))]%string.

Definition binding_json (b : WalletBinding) : Json :=
  JObj [("kind", JStr "calculate-rewards"); ("pox5ContractId", JStr (bi_pox5ContractId b));
        ("targetRewardCycle", JNum (bi_targetRewardCycle b));
        ("targetCheckpoint", JStr (checkpoint_text (bi_targetCheckpoint b)));
        ("expectedLastRewardComputeBurnHeight",
         JNum (bi_expectedLastRewardComputeBurnHeight b))]%string.

(** [binding ?? null] *)
Definition optional_binding_json (b : option WalletBinding) : Json :=
  match b with Some b => binding_json b | None => JNull end.

Definition manifest_json (m : WalletManifest) : Json :=
  JObj ([("schemaVersion", JNum 2); ("id", JStr (mf_id m));
         ("action", JStr (walletActionText (mf_action m))); ("request", request_json (mf_request m));
         ("network", JStr (walletNetworkText (mf_network m))); ("chainId", JNum (mf_chainId m));
         ("requiredSender", JStr (mf_requiredSender m));
         ("createdAt", JStr (toISOString (mf_createdAt m)));
         ("expiresAt", JStr (toISOString (mf_expiresAt m)));
         ("transaction", transaction_json (mf_transaction m))] ++
        match mf_binding m with Some b => [("binding", binding_json b)] | None => [] end ++
        [("review", review_json (mf_review m));
         ("seal", JObj [("factsSha256", JStr (mf_factsSha256 m))])]).

(** ** The canonical text of the wallet intents

    [canonicalJson] of storage/wallet-intent-repository.ts sorts keys by code units and gives up
    below a depth of 50, which no value it is given reaches. *)

Fixpoint json_depth (v : Json) : nat :=
  match v with
  | JArr l => S (foldr Nat.max 0%nat (json_depth <$> l))
  | JObj entries => S (foldr Nat.max 0%nat ((fun '(_, v) => json_depth v) <$> entries))
  | _ => O
  end.

Definition canonicalText (v : Json) : string := canonicalJson code_unit_compare v.

Definition maximumManifestBytes : nat := Z.to_nat 262144.
Definition maximumEvidenceBytes : nat := Z.to_nat 32768.

(** [canonicalDocument] of an object of bounded depth. *)
Definition canonicalDocument (v : Json) (maximumBytes : nat) : option string :=
  let encoded := canonicalText v in
  if (String.length encoded <=? maximumBytes)%nat then Some encoded else None.

Section Digest.

Context (sha256 : list Z -> string).

Definition canonicalJsonSha256 (v : Json) : string := sha256 (text_bytes (canonicalText v)).

Definition manifestSha256 (m : WalletManifest) : string := canonicalJsonSha256 (manifest_json m).

End Digest.
