(* ===== verification/WalletVerify.v ===== *)
(** * The bytes of a submitted wallet transaction

    apps/sidekick/src/wallet-transaction-verification.ts: a transaction the node shows is
    compared, field by field, with the request that was sealed for the wallet; what was verified
    is kept, and read back later.  The library's reading of the bytes is a parameter. *)

From S2P Require Import Prelude Text CanonicalJson Clarity OperationPlan SweepPlan Broadcast WalletRequest.

Open Scope string_scope.
Open Scope list_scope.
Open Scope Z_scope.

(** ** Networks *)

Definition mainnetTransactionVersion : Z := 0.
Definition testnetTransactionVersion : Z := 128.

Record WalletBindingNetwork := {
  wb_network : WalletNetwork;
  wb_chainId : Z;
  wb_transactionVersion : Z;
}.

Definition transactionVersionOf (n : WalletNetwork) : Z :=
  match n with wn_mainnet => mainnetTransactionVersion | _ => testnetTransactionVersion end.

(** [createWalletTransactionNetworkBinding]; [None] is a throw. *)
Definition createWalletTransactionNetworkBinding (n : WalletNetwork) (chainId : Z)
    : option WalletBindingNetwork :=
  if negb (uint32 chainId) then None
  else if negb match expectedChainId n with Some c => chainId =? c | None => true end then None
  else Some {| wb_network := n; wb_chainId := chainId; wb_transactionVersion := transactionVersionOf n |}.

(** ** The transaction as the library reads it *)

Inductive HashMode := P2PKH | P2SH | P2WPKH | P2WSH | other_hash_mode.
Inductive AddressVersion :=
  | MainnetSingleSig | TestnetSingleSig | MainnetMultiSig | TestnetMultiSig.

(** A contract call, or a payload of another type. *)
Inductive SignedPayload :=
  | contract_call_payload (contractAddress contractName functionName : string) (args : list ClarityValue)
  | other_payload.

(** What [deserializeTransaction] returns: [sg_serialized] is its bytes again in hex, and
    [sg_txid] the [txidFromBytes] of the text's bytes. *)
Record SignedWalletTransaction := {
  sg_serialized : string;
  sg_originVerifies : bool;
  sg_txid : string;
  sg_transactionVersion : Z;
  sg_chainId : Z;
  sg_standardAuth : bool;
  sg_anchorModeAny : bool;
  sg_postConditionMode : PostConditionMode;
  sg_postConditions : list string;
  sg_hashMode : HashMode;
  sg_signer : string;
  sg_payload : SignedPayload;
}.

(** [VerifiedWalletTransaction], its literals left out. *)
Record VerifiedWalletTransaction := {
  vw_txid : string;
  vw_sender : string;
  vw_chainId : Z;
  vw_transactionVersion : Z;
  vw_postConditionCount : Z;
  vw_contract : string;
  vw_functionName : string;
  vw_argumentsSha256 : string;
  vw_signerKeyHex : option string;
}.

#[global] Instance VerifiedWalletTransaction_eq_dec : EqDecision VerifiedWalletTransaction.
Proof. solve_decision. Defined.

(** [WalletTransactionMismatchError], with its reason. *)
Abbreviation verified A := (result string A).

(** [value.replace(/^0x/i, "").toLowerCase()] *)
Definition canonicalWireHex (value : string) : string :=
  let lowered := toLowerCase value in
  if startsWith lowered "0x" then String.substring 2 (String.length lowered - 2) lowered else lowered.

(** [JSON.stringify] of an array of strings. *)
Definition stringify (l : list string) : string := print (JArr (map JStr l)).

(** [/^(02|03)[0-9a-f]{64}$/] *)
Definition signerKeyPattern (s : string) : bool :=
  bool_decide (String.length s = 66%nat) && (startsWith s "02" || startsWith s "03") &&
  forallb is_lower_hex (drop 2 (chars s)).

(** [/^(?:[0-9a-f]{2})+$/i] *)
Definition wireHexText (s : string) : bool :=
  nonempty s && Nat.even (String.length s) && forallb is_hex (chars s).

Definition singleSig (m : HashMode) : bool := match m with P2PKH | P2WPKH => true | _ => false end.

Definition addressVersion (m : HashMode) (transactionVersion : Z) : AddressVersion :=
  if singleSig m
  then if transactionVersion =? mainnetTransactionVersion then MainnetSingleSig else TestnetSingleSig
  else if transactionVersion =? mainnetTransactionVersion then MainnetMultiSig else TestnetMultiSig.

Section Verify.

Context (deserializeTransaction : string -> option SignedWalletTransaction)
        (addressFromVersionHash : AddressVersion -> string -> string)
        (cvToHex : ClarityValue -> string) (sha256 : list Z -> string).

Definition senderAddress (t : SignedWalletTransaction) : string :=
  addressFromVersionHash (addressVersion (sg_hashMode t) (sg_transactionVersion t)) (sg_signer t).

(** The bytes are the library's own encoding of a transaction whose origin signed it. *)
Definition readSigned (transactionHex : string) : verified SignedWalletTransaction :=
  match deserializeTransaction transactionHex with
  | None => Err "invalid origin signature or transaction encoding"
  | Some t =>
      if negb (String.eqb (sg_serialized t) (toLowerCase transactionHex))
      then Err "non-canonical transaction encoding"
      else if negb (sg_originVerifies t) then Err "invalid origin signature or transaction encoding"
      else Ok t
  end.

(** The signer key a [register-self] call carries; [None] fails the check. *)
Definition signerKeyOf (functionName : string) (args : list ClarityValue) : option (option string) :=
  if String.eqb functionName "register-self"
  then match nth_error args 1 with
       | Some (CBuffer key) => if signerKeyPattern key then Some (Some key) else None
       | _ => None
       end
  else Some None.

Definition verifyWalletTransactionHex (txid requiredSender : string) (request : WalletTransaction)
    (transactionHex : string) (network : WalletBindingNetwork) : verified VerifiedWalletTransaction :=
  let expectedTxid := toLowerCase txid in
  _ ← require (prefixed_hex is_lower_hex 64 expectedTxid) "invalid transaction ID";
  _ ← require (wireHexText transactionHex) "invalid transaction encoding";
  t ← readSigned transactionHex;
  _ ← require (String.eqb ("0x" ++ sg_txid t) expectedTxid) "transaction ID";
  _ ← require (sg_transactionVersion t =? wb_transactionVersion network) "network version";
  _ ← require (sg_chainId t =? wb_chainId network) "chain ID";
  _ ← require (bool_decide (wt_network request = wb_network network)) "request network";
  _ ← require (sg_standardAuth t) "sponsored authorization";
  _ ← require (sg_anchorModeAny t) "anchor mode";
  _ ← require (match sg_postConditionMode t with Deny => true | Allow => false end)
        "post-condition mode";
  let postConditions := canonicalWireHex <$> sg_postConditions t in
  _ ← require (String.eqb (stringify postConditions)
                 (stringify (canonicalWireHex <$> wt_postConditions request))) "post-conditions";
  let sender := senderAddress t in
  _ ← require (String.eqb sender requiredSender && String.eqb (wt_address request) requiredSender)
        "origin sender";
  match sg_payload t with
  | other_payload => Err "contract-call payload"
  | contract_call_payload contractAddress contractName functionName functionArgs =>
      let contract := (contractAddress ++ "." ++ contractName)%string in
      _ ← require (String.eqb contract (wt_contract request)) "contract principal";
      _ ← require (String.eqb functionName (wt_functionName request)) "function name";
      let args := cvToHex <$> functionArgs in
      _ ← require (String.eqb (stringify args) (stringify (wt_functionArgs request)))
            "function arguments";
      match signerKeyOf (wt_functionName request) functionArgs with
      | None => Err "signer key argument"
      | Some signerKey =>
          Ok {| vw_txid := expectedTxid; vw_sender := sender; vw_chainId := sg_chainId t;
                vw_transactionVersion := sg_transactionVersion t;
                vw_postConditionCount := Z.of_nat (List.length postConditions);
                vw_contract := contract; vw_functionName := wt_functionName request;
                vw_argumentsSha256 := sha256 (text_bytes (stringify args));
                vw_signerKeyHex := signerKey |}
      end
  end%string.

(** ** What is kept of a verified transaction *)

Definition verified_json (v : VerifiedWalletTransaction) : Json :=
  JObj [("txid", JStr (vw_txid v)); ("sender", JStr (vw_sender v)); ("chainId", JNum (vw_chainId v));
        ("transactionVersion", JNum (vw_transactionVersion v)); ("sponsored", JBool false);
        ("anchorMode", JStr "any"); ("postConditionMode", JStr "deny");
        ("postConditionCount", JNum (vw_postConditionCount v));
        ("payload", JObj [("kind", JStr "call-contract"); ("contract", JStr (vw_contract v));
           ("functionName", JStr (vw_functionName v));
           ("argumentsSha256", JStr (vw_argumentsSha256 v));
           ("signerKeyHex", JOptStr (vw_signerKeyHex v))])].

(** A strict object with exactly these keys, and their values in that order. *)
Definition json_object (names : list string) (v : Json) : option (list Json) :=
  match v with
  | JObj entries =>
      if forallb (fun '(k, _) => existsb (String.eqb k) names) entries
      then mapM (fun name => field name entries) names else None
  | _ => None
  end.

Definition verifiedPayloadSchema (v : Json) : option (string * string * string * option string) :=
  l ← json_object ["kind"; "contract"; "functionName"; "argumentsSha256"; "signerKeyHex"] v;
  match l with
  | [JStr "call-contract"; JStr contract; JStr functionName; JStr digest; key] =>
      if bool_decide (is_Some (transactionArity functionName)) && hash64 digest
      then match key with
           | JNull => Some (contract, functionName, digest, None)
           | JStr k => if signerKeyPattern k then Some (contract, functionName, digest, Some k) else None
           | _ => None
           end
      else None
  | _ => None
  end.

(** [verifiedWalletTransactionSchema] *)
Definition verifiedWalletTransactionSchema (v : Json) : option VerifiedWalletTransaction :=
  l ← json_object ["txid"; "sender"; "chainId"; "transactionVersion"; "sponsored"; "anchorMode";
                   "postConditionMode"; "postConditionCount"; "payload"] v;
  match l with
  | [JStr txid; JStr sender; JNum chainId; JNum version; JBool false; JStr "any"; JStr "deny";
     JNum count; payload] =>
      p ← verifiedPayloadSchema payload;
      let '(contract, functionName, digest, key) := p in
      if prefixed_hex is_lower_hex 64 txid && safe_nonnegative chainId && safe_nonnegative version &&
         safe_nonnegative count
      then Some {| vw_txid := txid; vw_sender := sender; vw_chainId := chainId;
                   vw_transactionVersion := version; vw_postConditionCount := count;
                   vw_contract := contract; vw_functionName := functionName;
                   vw_argumentsSha256 := digest; vw_signerKeyHex := key |}
      else None
  | _ => None
  end.

(** The retained record names the sealed request. *)
Definition verified_for (txid requiredSender : string) (request : WalletTransaction)
    (network : WalletBindingNetwork) (v : VerifiedWalletTransaction) : bool :=
  String.eqb (vw_txid v) txid && String.eqb (vw_sender v) requiredSender &&
  String.eqb (wt_address request) requiredSender && (vw_chainId v =? wb_chainId network) &&
  (vw_transactionVersion v =? wb_transactionVersion network) &&
  bool_decide (wt_network request = wb_network network) &&
  (vw_postConditionCount v =? Z.of_nat (List.length (wt_postConditions request))) &&
  String.eqb (vw_contract v) (wt_contract request) &&
  String.eqb (vw_functionName v) (wt_functionName request) &&
  String.eqb (vw_argumentsSha256 v) (sha256 (text_bytes (stringify (wt_functionArgs request)))).

Definition readPersistedWalletVerification (decoded : Json) (txid requiredSender : string)
    (request : WalletTransaction) (network : WalletBindingNetwork) : option VerifiedWalletTransaction :=
  v ← verifiedWalletTransactionSchema decoded;
  if verified_for txid requiredSender request network v then Some v else None.

End Verify.

(** ** Properties *)

Lemma stringify_inj l k : stringify l = stringify k -> l = k.
Proof.
  unfold stringify. intros H. destruct (print_readable (JArr (map JStr l))) as [Hr _].
  destruct (Hr (JArr (map JStr k)) "" "") as [He _]; [done|done| |].
  - by rewrite H.
  - injection He as He. clear H Hr. revert k He.
    induction l as [|s l IH]; intros [|t k] He; try done.
    cbn in He. injection He as -> He. f_equal. by apply IH.
Qed.

(** A transaction the wallet's origin signed, whose every authority-bearing field is the sealed
    one: the bytes re-encode to themselves, in this network, without a sponsor, in deny mode,
    with exactly the sealed post-conditions, call and arguments, from the required sender. *)
Record signed_as_requested (addressOf : AddressVersion -> string -> string)
    (cvToHex : ClarityValue -> string) (txid requiredSender : string) (request : WalletTransaction)
    (hex : string) (network : WalletBindingNetwork) (t : SignedWalletTransaction) : Prop := {
  sr_bytes : sg_serialized t = toLowerCase hex;
  sr_origin : sg_originVerifies t = true;
  sr_id : ("0x" ++ sg_txid t)%string = toLowerCase txid;
  sr_network : sg_transactionVersion t = wb_transactionVersion network /\
    sg_chainId t = wb_chainId network /\ wt_network request = wb_network network;
  sr_modes : sg_standardAuth t = true /\ sg_anchorModeAny t = true /\ sg_postConditionMode t = Deny;
  sr_conditions : canonicalWireHex <$> sg_postConditions t = canonicalWireHex <$> wt_postConditions request;
  sr_sender : senderAddress addressOf t = requiredSender /\ wt_address request = requiredSender;
  sr_call : exists address name args,
    sg_payload t = contract_call_payload address name (wt_functionName request) args /\
    (address ++ "." ++ name)%string = wt_contract request /\ cvToHex <$> args = wt_functionArgs request;
}.

Section Properties.

Context (deserializeTransaction : string -> option SignedWalletTransaction)
        (addressFromVersionHash : AddressVersion -> string -> string)
        (cvToHex : ClarityValue -> string) (sha256 : list Z -> string).

#[local] Abbreviation verify :=
  (verifyWalletTransactionHex deserializeTransaction addressFromVersionHash cvToHex sha256).

Lemma readSigned_Ok hex t :
  readSigned deserializeTransaction hex = Ok t ->
  deserializeTransaction hex = Some t /\ sg_serialized t = toLowerCase hex /\ sg_originVerifies t = true.
Proof.
  unfold readSigned. destruct (deserializeTransaction hex) as [u|]; [|done].
  destruct (String.eqb_spec (sg_serialized u) (toLowerCase hex)) as [He|]; cbn [negb]; [|done].
  destruct (sg_originVerifies u) eqn:Ho; cbn [negb]; [|done]. by intros [= <-].
Qed.

Lemma signerKeyOf_pattern functionName args key :
  signerKeyOf functionName args = Some (Some key) -> signerKeyPattern key = true.
Proof.
  unfold signerKeyOf. destruct (String.eqb _ _); [|done].
  destruct (nth_error args 1) as [[]|]; try done. case_match eqn:E; [|done]. by intros [= <-].
Qed.

(** What verification establishes, and the record it leaves. *)
Lemma verify_inv txid sender request hex network v :
  verify txid sender request hex network = Ok v ->
  exists t, deserializeTransaction hex = Some t /\
    signed_as_requested addressFromVersionHash cvToHex txid sender request hex network t /\
    prefixed_hex is_lower_hex 64 (toLowerCase txid) = true /\
    vw_txid v = toLowerCase txid /\ vw_sender v = sender /\ vw_chainId v = wb_chainId network /\
    vw_transactionVersion v = wb_transactionVersion network /\
    vw_postConditionCount v = Z.of_nat (List.length (wt_postConditions request)) /\
    vw_contract v = wt_contract request /\ vw_functionName v = wt_functionName request /\
    vw_argumentsSha256 v = sha256 (text_bytes (stringify (wt_functionArgs request))) /\
    (forall key, vw_signerKeyHex v = Some key -> signerKeyPattern key = true).
Proof.
  unfold verifyWalletTransactionHex. intros H. inv_ok H.
  match goal with H : readSigned _ _ = Ok ?u |- _ => rename u into t; apply readSigned_Ok in H as (Hd & Hs & Ho) end.
  match goal with H : (match sg_postConditionMode ?t with _ => _ end) = true |- _ =>
    destruct (sg_postConditionMode t) eqn:Hmode; [done|clear H] end.
  breflect. match goal with H : stringify _ = stringify _ |- _ => apply stringify_inj in H as Hpc end.
  destruct (sg_payload t) as [address name fn args|] eqn:Hp; [|done]. inv_ok H. breflect.
  match goal with H : stringify (_ <$> args) = _ |- _ => apply stringify_inj in H as Hargs end.
  destruct (signerKeyOf _ _) as [key|] eqn:Hk; [|done]. injection H as <-.
  exists t. cbn [vw_txid vw_sender vw_chainId vw_transactionVersion vw_postConditionCount vw_contract
    vw_functionName vw_argumentsSha256 vw_signerKeyHex]. subst. split_and!; try done.
  - split; try done. by exists address, name, args.
  - apply (f_equal (fun l => Z.of_nat (List.length l))) in Hpc. rewrite Hpc. by rewrite length_fmap.
  - by rewrite <- Hargs.
  - intros k ->. by eapply signerKeyOf_pattern.
Qed.

(** C16. Verification is exact: it succeeds exactly on well-formed bytes that the library reads
    back to themselves as a contract call whose origin signed it, with the transaction ID that
    was submitted and every authority-bearing field (network, sender, contract, function,
    arguments, post-conditions, deny mode, no sponsor) equal to the sealed request; a
    registration must carry a compressed signer key. *)
Theorem verification_exact txid sender request hex network :
  is_ok (verify txid sender request hex network) = true <->
  prefixed_hex is_lower_hex 64 (toLowerCase txid) = true /\ wireHexText hex = true /\
  exists t, deserializeTransaction hex = Some t /\
    signed_as_requested addressFromVersionHash cvToHex txid sender request hex network t /\
    (wt_functionName request = "register-self" ->
     exists address name fn args key, sg_payload t = contract_call_payload address name fn args /\
       nth_error args 1 = Some (CBuffer key) /\ signerKeyPattern key = true).
Proof.
  split.
  - destruct (verify txid sender request hex network) as [v|] eqn:Hv; [|done]. intros _.
    pose proof Hv as Hx. apply verify_inv in Hv as (t & Hd & Hs & Ht & _). split; [done|].
    unfold verifyWalletTransactionHex in Hx. inv_ok Hx. split; [done|]. exists t. split_and!; [done..|].
    intros Hf. match goal with H : readSigned _ _ = Ok ?u |- _ =>
      apply readSigned_Ok in H as (Hd' & _); assert (u = t) as -> by congruence end.
    destruct (sr_call _ _ _ _ _ _ _ _ Hs) as (a & n & args & Hp & _). rewrite Hp in Hx. inv_ok Hx.
    unfold signerKeyOf in Hx. rewrite Hf, String.eqb_refl in Hx.
    destruct (nth_error args 1) as [[| |key| | | | | | | | | | | |]|] eqn:Hn; try done.
    destruct (signerKeyPattern key) eqn:Hk; [|done].
    by exists a, n, (wt_functionName request), args, key.
  - intros (Ht & Hh & t & Hd & [Hb Ho Hid (Hv & Hc & Hn) (Ha & Hy & Hm) Hpc (Hse & Had) (a & n & args & Hp & Hct & Har)] & Hk).
    unfold verifyWalletTransactionHex, readSigned. rewrite Ht, Hh, Hd, Hb, String.eqb_refl, Ho. cbn [negb].
    cbn [mbind result_bind require]. rewrite Hid, String.eqb_refl, Hv, Z.eqb_refl, Hc, Z.eqb_refl, Ha, Hy, Hm.
    rewrite Hpc, String.eqb_refl, Hse, Had, String.eqb_refl, Hp. cbn [mbind result_bind require andb].
    rewrite bool_decide_true by done. rewrite Hct, !String.eqb_refl, Har, String.eqb_refl.
    cbn [mbind result_bind require]. unfold signerKeyOf.
    destruct (String.eqb_spec (wt_functionName request) "register-self") as [He|]; [|done].
    destruct (Hk He) as (a' & n' & fn & args' & key & Hp' & Hnt & Hpat).
    rewrite Hp in Hp'. injection Hp' as _ _ _ <-. by rewrite Hnt, Hpat.
Qed.

(** Reading a kept verification gives nothing else. *)
Lemma verified_schema_inv v w : verifiedWalletTransactionSchema (verified_json v) = Some w -> w = v.
Proof.
  destruct v as [txid sender c tv n ct fn digest key]. unfold verifiedWalletTransactionSchema, verified_json.
  cbn -[transactionArity prefixed_hex safe_nonnegative hash64 signerKeyPattern bool_decide].
  destruct (_ && hash64 digest); [|done]. destruct key as [key|]; cbn [JOptStr]; [destruct (signerKeyPattern key); [|done]|];
    cbn -[prefixed_hex safe_nonnegative]; destruct (_ && safe_nonnegative n); by intros [= <-].
Qed.

Context (sha256_hash64 : forall l, hash64 (sha256 l) = true).

Lemma verified_schema v :
  prefixed_hex is_lower_hex 64 (vw_txid v) = true -> safe_nonnegative (vw_chainId v) = true ->
  safe_nonnegative (vw_transactionVersion v) = true -> safe_nonnegative (vw_postConditionCount v) = true ->
  is_Some (transactionArity (vw_functionName v)) -> hash64 (vw_argumentsSha256 v) = true ->
  (forall key, vw_signerKeyHex v = Some key -> signerKeyPattern key = true) ->
  verifiedWalletTransactionSchema (verified_json v) = Some v.
Proof.
  destruct v as [txid sender c tv n ct fn digest key]. cbn [vw_txid vw_chainId vw_transactionVersion
    vw_postConditionCount vw_functionName vw_argumentsSha256 vw_signerKeyHex].
  intros Ht Hc Htv Hn Hf Hd Hk. unfold verifiedWalletTransactionSchema, verified_json.
  cbn -[transactionArity prefixed_hex safe_nonnegative hash64 signerKeyPattern bool_decide].
  rewrite (bool_decide_true _ Hf), Hd. cbn [andb].
  destruct key as [key|]; cbn [JOptStr]; [rewrite (Hk key eq_refl)|];
    cbn -[prefixed_hex safe_nonnegative]; by rewrite Ht, Hc, Htv, Hn.
Qed.

(** Round trip: what is kept of a verified transaction is read back as the same verification
    of the same sealed request, so that a later receipt may rest on the bytes the node once
    showed. *)
Theorem persisted_verification_roundtrip txid sender request hex network chainId v :
  walletTransactionSchema request = true ->
  createWalletTransactionNetworkBinding (wt_network request) chainId = Some network ->
  toLowerCase txid = txid ->
  verify txid sender request hex network = Ok v ->
  readPersistedWalletVerification sha256 (verified_json v) txid sender request network = Some v.
Proof using sha256_hash64.
  intros Hs Hn Hl Hv.
  apply verify_inv in Hv as (t & _ & Hr & Ht & Htx & Hse & Hc & Htv & Hcount & Hct & Hf & Hd & Hk).
  unfold walletTransactionSchema in Hs. breflect.
  destruct (transactionArity (wt_functionName request)) as [[args conditions]|] eqn:Har; [|done].
  unfold createWalletTransactionNetworkBinding in Hn.
  destruct (uint32 chainId) eqn:Hu; cbn [negb] in Hn; [|done].
  destruct (negb _); [done|]. injection Hn as <-. cbn [wb_chainId wb_transactionVersion wb_network] in *.
  unfold readPersistedWalletVerification.
  assert (Hlen : safe_nonnegative (vw_postConditionCount v) = true).
  { rewrite Hcount. breflect. match goal with H : (_ =? _)%nat = true |- _ => apply Nat.eqb_eq in H end.
    assert (conditions <= 1)%nat; [|unfold safe_nonnegative; apply andb_true_iff; split; lia].
    clear - Har. unfold transactionArity in Har. repeat (case_match; try done); injection Har as <- <-; lia. }
  rewrite verified_schema; try done.
  - cbn [mbind option_bind]. unfold verified_for. cbn [wb_chainId wb_transactionVersion wb_network].
    rewrite Htx, Hl, Hse, (proj2 (sr_sender _ _ _ _ _ _ _ _ Hr)), Hc, Htv, Hcount, Hct, Hf, Hd.
    rewrite !String.eqb_refl, !Z.eqb_refl. by rewrite bool_decide_true.
  - by rewrite Htx.
  - rewrite Hc. unfold uint32 in Hu. unfold safe_nonnegative. breflect. apply andb_true_iff. split; lia.
  - rewrite Htv. unfold transactionVersionOf. by destruct (wt_network request).
  - rewrite Hf, Har. by eexists.
  - rewrite Hd. apply sha256_hash64.
Qed.

End Properties.
