(* ===== verification/SignerGrant.v ===== *)
(** * Signer authorizations

    apps/sidekick/src/signer-grant.ts: the message hash PoX-5 gives for a manager and an
    authorization ID, and the check of what the operator pasted from the signer against it.
    The signature library and the node are parameters. *)

From S2P Require Import Prelude Text CanonicalJson Clarity Principals OperationPlan NakamotoBlock WalletRequest WalletVerify.

Open Scope string_scope.
Open Scope list_scope.
Open Scope Z_scope.

(** [OperatorWorkflowError] by its code, an [UpstreamSchemaError], or a throw of another class. *)
Inductive GrantError :=
  | invalid_auth_id | signer_grant_network_mismatch | invalid_signer_output
  | signer_grant_verification_failed | grant_schema_error | grant_other.

Record SignerGrantPreparation := {
  gp_managerPrincipal : string;
  gp_pox5ContractId : string;
  gp_authId : string;
  gp_expectedMessageHashHex : string;
  gp_command : string;
}.

(** [VerifiedSignerGrant]; the last two fields are of [registerSelfCall]. *)
Record VerifiedSignerGrant := {
  vg_managerPrincipal : string;
  vg_pox5ContractId : string;
  vg_authId : string;
  vg_signerKeyHex : string;
  vg_signerSignatureHex : string;
  vg_expectedMessageHashHex : string;
  vg_arguments : list string;
  vg_signingPrincipal : string;
}.

#[global] Instance VerifiedSignerGrant_eq_dec : EqDecision VerifiedSignerGrant.
Proof. solve_decision. Defined.

(** The pasted object, after [signerGrantOutputSchema]'s types. *)
Record SignerOutput := {
  so_signerKey : string;
  so_signerSignature : string;
  so_authId : string;
  so_signerManager : string;
}.

Definition hexText (n : nat) (s : string) : bool :=
  bool_decide (String.length s = n) && forallb is_lower_hex (chars s).

Definition signerGrantOutputSchema (o : SignerOutput) : bool :=
  signerKeyPattern (so_signerKey o) && hexText 130 (so_signerSignature o) && uintText (so_authId o).

(** [value.replaceAll] on the quote, inside quotes. *)
Fixpoint shellEscape (s : string) : string :=
  match s with
  | EmptyString => ""
  | String "'" rest => ("'" ++ String backslash ("''" ++ shellEscape rest))%string
  | String c rest => String c (shellEscape rest)
  end.
Definition shellQuote (value : string) : string := ("'" ++ shellEscape value ++ "'")%string.

Section SignerGrant.

Context (validateStacksAddress : string -> bool)
        (cvToHex : ClarityValue -> string) (uintCV : Z -> option ClarityValue)
        (principalCV : string -> option ClarityValue) (bufferCV : list Z -> ClarityValue)
        (callReadOnly : string -> string -> string -> list string -> result ReadError ClarityValue)
        (verifySignature : string -> string -> string -> bool)
        (publicKeyFromSignatureRsv : string -> string -> option string).

Definition other {E A} (r : result E A) : result GrantError A :=
  match r with Ok a => Ok a | Err _ => Err grant_other end.

Definition parseAuthId (value : string) : result GrantError Z :=
  if negb (uintText value) then Err invalid_auth_id
  else match BigInt value with
       | Some n => if n <=? clarityUintMaximum then Ok n else Err invalid_auth_id
       | None => Err grant_other
       end.

Definition getSignerGrantMessageHash (pox5ContractId managerPrincipal : string) (authId : Z)
    : result GrantError string :=
  manager ← other (parseContractPrincipal validateStacksAddress managerPrincipal);
  pox5 ← other (parseContractPrincipal validateStacksAddress pox5ContractId);
  _ ← require (bool_decide (Principals.network manager = Principals.network pox5))
        signer_grant_network_mismatch;
  managerHex ← other (Codecs.encodePrincipalHex cvToHex principalCV managerPrincipal);
  authHex ← other (Codecs.encodeUIntHex cvToHex uintCV authId);
  value ← other (callReadOnly pox5ContractId "get-signer-grant-message-hash" managerPrincipal
                   [managerHex; authHex]);
  hash ← other (Codecs.decodeBuffer value "get-signer-grant-message-hash");
  _ ← require (bool_decide (String.length hash = 64%nat)) grant_schema_error;
  Ok hash.

Definition prepareSignerGrant (pox5ContractId managerPrincipal authIdInput signerConfigPath : string)
    : result GrantError SignerGrantPreparation :=
  authId ← parseAuthId authIdInput;
  hash ← getSignerGrantMessageHash pox5ContractId managerPrincipal authId;
  Ok {| gp_managerPrincipal := managerPrincipal; gp_pox5ContractId := pox5ContractId;
        gp_authId := bigint_toString authId; gp_expectedMessageHashHex := hash;
        gp_command := String.concat " " ["stacks-signer generate-staking-signature";
          ("--config " ++ shellQuote signerConfigPath)%string;
          ("--signer-manager " ++ shellQuote managerPrincipal)%string;
          ("--auth-id " ++ bigint_toString authId)%string; "--json"] |}.

(** [Number.parseInt(signature.slice(-2), 16)] *)
Definition recoveryId (signature : string) : Z :=
  fold_left (fun n c => 16 * n + hex_value c) (chars (String.substring 128 2 signature)) 0.

Definition verifySignerGrantOutput (pox5ContractId expectedManagerPrincipal expectedAuthIdInput : string)
    (output : SignerOutput) : result GrantError VerifiedSignerGrant :=
  _ ← require (signerGrantOutputSchema output) invalid_signer_output;
  manager ← other (parseContractPrincipal validateStacksAddress expectedManagerPrincipal);
  expectedAuthId ← parseAuthId expectedAuthIdInput;
  _ ← require (String.eqb (so_signerManager output) expectedManagerPrincipal)
        signer_grant_verification_failed;
  _ ← require (String.eqb (so_authId output) (bigint_toString expectedAuthId))
        signer_grant_verification_failed;
  _ ← require (recoveryId (so_signerSignature output) <=? 3) signer_grant_verification_failed;
  hash ← getSignerGrantMessageHash pox5ContractId expectedManagerPrincipal expectedAuthId;
  let compactSignature := String.substring 0 128 (so_signerSignature output) in
  let signatureValid := verifySignature compactSignature hash (so_signerKey output) in
  match publicKeyFromSignatureRsv hash (so_signerSignature output) with
  | None => Err signer_grant_verification_failed
  | Some recoveredKey =>
      _ ← require (signatureValid && String.eqb recoveredKey (so_signerKey output))
            signer_grant_verification_failed;
      managerHex ← other (Codecs.encodePrincipalHex cvToHex principalCV expectedManagerPrincipal);
      keyHex ← other (Codecs.encodeBufferHex cvToHex bufferCV (so_signerKey output));
      authHex ← other (Codecs.encodeUIntHex cvToHex uintCV expectedAuthId);
      signatureHex ← other (Codecs.encodeBufferHex cvToHex bufferCV (so_signerSignature output));
      Ok {| vg_managerPrincipal := expectedManagerPrincipal; vg_pox5ContractId := pox5ContractId;
            vg_authId := bigint_toString expectedAuthId; vg_signerKeyHex := so_signerKey output;
            vg_signerSignatureHex := so_signerSignature output; vg_expectedMessageHashHex := hash;
            vg_arguments := [managerHex; keyHex; authHex; signatureHex];
            vg_signingPrincipal := Principals.address manager |}
  end.

(** A verified grant names the manager and the ID it was asked for, and its key signed the hash
    PoX-5 gives for them. *)
Lemma verified_grant_signed pox5 manager authId output g :
  verifySignerGrantOutput pox5 manager authId output = Ok g ->
  exists n, parseAuthId authId = Ok n /\ vg_managerPrincipal g = manager /\ vg_pox5ContractId g = pox5 /\
    vg_authId g = bigint_toString n /\ vg_signerKeyHex g = so_signerKey output /\
    getSignerGrantMessageHash pox5 manager n = Ok (vg_expectedMessageHashHex g) /\
    publicKeyFromSignatureRsv (vg_expectedMessageHashHex g) (vg_signerSignatureHex g) =
      Some (vg_signerKeyHex g) /\ List.length (vg_arguments g) = 4%nat.
Proof.
  unfold verifySignerGrantOutput. intros H. inv_ok H.
  match goal with H : getSignerGrantMessageHash _ _ ?n = Ok ?h |- _ =>
    destruct (publicKeyFromSignatureRsv h (so_signerSignature output)) as [key|] eqn:Hk; [|done]; exists n end.
  inv_ok H. subst g. breflect. cbn. subst. by split_and!.
Qed.

End SignerGrant.
