(* ===== verification/WalletFacts.v ===== *)
(** * The facts of a wallet transaction

    [authoritativeFacts] of apps/sidekick/src/wallet-intent-service.ts, and the manager claim it
    proposes (transaction-engine/manager-claim-proposal.ts): for a request, the transaction the
    operator's wallet is asked to sign, with everything it was derived from.  The operator
    snapshot and the reward status are answers; the node is a record of functions. *)

From S2P Require Import Prelude Text CanonicalJson Bonds Rewards ChainAnchor Clarity Principals OperationPlan NakamotoBlock RewardReads SweepPlan Recipe LiveDriver WalletRequest WalletVerify SignerGrant.

Open Scope string_scope.
Open Scope list_scope.
Open Scope Z_scope.

(** ** Errors *)

(** The codes of [WalletIntentError]. *)
Inductive WalletErrorCode :=
  | wallet_execution_unavailable | wallet_intent_not_found | wallet_intent_invalid
  | wallet_intent_conflict | wallet_intent_expired | wallet_transaction_mismatch.

#[global] Instance WalletErrorCode_eq_dec : EqDecision WalletErrorCode.
Proof. solve_decision. Defined.

(** A [WalletIntentError], or a throw of another class. *)
Inductive FactsError := intent_error (code : WalletErrorCode) (retryable : bool) | uncaught.

Abbreviation facts_result A := (result FactsError A).

Definition refuse {A} (code : WalletErrorCode) : facts_result A := Err (intent_error code false).
Definition demand (b : bool) (code : WalletErrorCode) : facts_result unit :=
  require b (intent_error code false).

(** A throw of a read, a decoder or the library. *)
Definition plain {E A} (r : result E A) : facts_result A :=
  match r with Ok a => Ok a | Err _ => Err uncaught end.

(** ** What is read *)

Record WalletNode := {
  nd_callReadOnly : forall (contract function sender : string) (args : list string) (tip : option string),
    result ReadError ClarityValue;
  nd_getMapEntry : forall (contract map key : string) (tip : option string), result ReadError ClarityValue;
  nd_getDataVar : forall (contract name : string) (tip : option string), result ReadError ClarityValue;
}.

(** [registration] of the snapshot. *)
Record RegistrationView := { rg_registered : bool; rg_signerKeyHex : option string; rg_grantValid : bool }.

(** The fields of [OperatorAnchorSnapshot] that are used; a capability is its ID with
    [executionAvailable]. *)
Record OperatorSnapshot := {
  os_chainAnchor : Anchor.ChainAnchor;
  os_network : WalletNetwork;
  os_checks : list (string * string);
  os_nodeNetworkId : Z;
  os_pox5ContractId : option string;
  os_sbtcTokenContract : option string;
  os_pox5SourceSha256 : option string;
  os_firstRewardCycleId : option Z;
  os_compatibilityMatched : bool;
  os_profileId : option string;
  os_profileRevision : option Z;
  os_managerPrincipal : string;
  os_attachAllowed : bool;
  os_capabilities : list (string * bool);
  os_sourceTier : string;
  os_sourceSha256 : option string;
  os_sourceProfileId : option string;
  os_registration : option RegistrationView;
}.

(** [RewardBucketStatus] and [StxRewardStatus] *)
Record RewardBucketStatus := {
  bu_bondIndex : option string;
  bu_managerSharesSats : string;
  bu_signerEarned : string;
  bu_feeSnapshotBips : option string;
  bu_participating : bool;
}.

Record RewardStatus := {
  rs_ready : bool;
  rs_managerPrincipal : string;
  rs_pox5ContractId : string;
  rs_rewardCycle : Z;
  rs_burnBlockHeight : Z;
  rs_stacksTipHeight : Z;
  rs_ingested : bool;
  rs_lastRewardComputeBurnHeight : string;
  rs_lastComputedRewardCycle : option string;
  rs_rewardsPerToken : string;
  rs_signerEarned : string;
  rs_buckets : list RewardBucketStatus;
  rs_configuredFeeBips : string;
  rs_managerFeeSnapshotBips : option string;
}.

(** [WalletIntentRuntimeState] *)
Record RuntimeState := { rt_managerPrincipal : string; rt_grant : option VerifiedSignerGrant }.

(** The answers of one call of [authoritativeFacts]: the configuration, the runtime state when it
    starts and when it is looked at again, the snapshot, the claim evidence ([None] when it is not
    connected), the local node's authority, and whether registration may be repaired. *)
Record FactsReads := {
  fr_network : WalletNetwork;
  fr_expectedNetworkId : option Z;
  fr_state : option RuntimeState;
  fr_latestState : option RuntimeState;
  fr_snapshot : facts_result OperatorSnapshot;
  fr_claimEvidence : option (facts_result (OperatorSnapshot * option RewardStatus));
  fr_authority : facts_result (option string);
  fr_canRepair : facts_result bool;
  fr_node : WalletNode;
}.

(** ** What is produced *)

Record AuthoritativeFacts := {
  af_scope : string;
  af_facts : Json;
  af_requiredSender : string;
  af_network : WalletNetwork;
  af_chainId : Z;
  af_transaction : WalletTransaction;
  af_review : WalletReview;
  af_binding : option WalletBinding;
}.

(** A string of JavaScript used as a condition. *)
Definition truthy (o : option string) : option string :=
  match o with Some s => if nonempty s then Some s else None | None => None end.

(** ** The manager claim *)

Record FeeSnapshot := { fs_present : bool; fs_effectiveFeeBips : Z }.

Record ManagerClaimBondBucket := {
  mb_bondIndex : Z;
  mb_managerSharesSats : Z;
  mb_earnedSats : Z;
  mb_feeSnapshot : FeeSnapshot;
}.

Inductive ClaimEffect := claim_remaining | claim_completed | claim_none | claim_buckets_idle.

#[global] Instance ClaimEffect_eq_dec : EqDecision ClaimEffect.
Proof. solve_decision. Defined.

Record ManagerClaimCheckpoint := {
  mk_rewardCycle : Z;
  mk_checkpoint : Anchor.Checkpoint;
  mk_lastRewardComputeBurnHeight : Z;
  mk_rewardsPerToken : Z;
  mk_expectedSignerOutflowSats : Z;
  mk_feeSnapshot : FeeSnapshot;
  mk_stxEarnedSats : Z;
  mk_bondBuckets : list ManagerClaimBondBucket;
  mk_effect : ClaimEffect;
}.

(** [parsedUnsigned]; a text that matches is always read. *)
Definition parsedUnsigned (value : string) : option Z := if uintText value then BigInt value else None.

Definition feeAllowed (o : option Z) : bool := match o with Some n => n <=? 9999 | None => true end.

Definition feeSnapshotOf (snapshotted : option Z) (configuredFee : Z) : FeeSnapshot :=
  {| fs_present := if snapshotted is Some _ then true else false;
     fs_effectiveFeeBips := default configuredFee snapshotted |}.

(** A parsed optional fee of the source: [null] also for text that is not a number. *)
Definition looseFee (o : option string) : option Z := match o with Some t => parsedUnsigned t | None => None end.

(** One bucket of the loop: [None] makes the checkpoint [null]. *)
Definition bondBucket (configuredFee : Z) (bucket : RewardBucketStatus) (bondText : string)
    : option ManagerClaimBondBucket :=
  bondIndex ← parsedUnsigned bondText;
  shares ← parsedUnsigned (bu_managerSharesSats bucket);
  earnedSats ← parsedUnsigned (bu_signerEarned bucket);
  let bucketFee := looseFee (bu_feeSnapshotBips bucket) in
  if feeAllowed bucketFee
  then Some {| mb_bondIndex := bondIndex; mb_managerSharesSats := shares; mb_earnedSats := earnedSats;
               mb_feeSnapshot := feeSnapshotOf bucketFee configuredFee |}
  else None.

Fixpoint bondBuckets (configuredFee : Z) (buckets : list RewardBucketStatus)
    : option (list ManagerClaimBondBucket) :=
  match buckets with
  | [] => Some []
  | bucket :: rest =>
      match bu_bondIndex bucket with
      | Some text =>
          if bu_participating bucket
          then b ← bondBucket configuredFee bucket text; l ← bondBuckets configuredFee rest; Some (b :: l)
          else bondBuckets configuredFee rest
      | None => bondBuckets configuredFee rest
      end
  end.

Definition by_bond (left right : ManagerClaimBondBucket) : Z :=
  if mb_bondIndex left <? mb_bondIndex right then -1
  else if mb_bondIndex right <? mb_bondIndex left then 1 else 0.

(** The status is about this manager, contract, anchor and calculation. *)
Definition statusMatches (setup : OperatorSnapshot) (rewards : RewardStatus)
    (target : Anchor.RewardCalculationTarget) (lastHeight : Z) : bool :=
  rs_ready rewards && String.eqb (rs_managerPrincipal rewards) (os_managerPrincipal setup) &&
  bool_decide (Some (rs_pox5ContractId rewards) = os_pox5ContractId setup) && rs_ingested rewards &&
  (rs_rewardCycle rewards =? Anchor.targetRewardCycle target) &&
  bool_decide (rs_lastComputedRewardCycle rewards =
               Some (bigint_toString (Anchor.targetRewardCycle target))) &&
  (rs_burnBlockHeight rewards =? Anchor.burnBlockHeight (os_chainAnchor setup)) &&
  (rs_stacksTipHeight rewards =? Anchor.stacksBlockHeight (os_chainAnchor setup)) &&
  (lastHeight =? Anchor.expectedLastRewardComputeBurnHeight target).

Definition managerClaimCheckpoint (setup : OperatorSnapshot) (status : option RewardStatus)
    : option ManagerClaimCheckpoint :=
  rewards ← status;
  match Anchor.deriveRewardCalculationTarget (os_chainAnchor setup) (os_firstRewardCycleId setup) with
  | Err _ => None
  | Ok target =>
      lastHeight ← parsedUnsigned (rs_lastRewardComputeBurnHeight rewards);
      rewardsPerToken ← parsedUnsigned (rs_rewardsPerToken rewards);
      signerEarned ← parsedUnsigned (rs_signerEarned rewards);
      configuredFee ← parsedUnsigned (rs_configuredFeeBips rewards);
      let snapshottedFee := looseFee (rs_managerFeeSnapshotBips rewards) in
      if negb ((1 <=? lastHeight) && (lastHeight <=? Anchor.MAX_SAFE_INTEGER) && (configuredFee <=? 9999) &&
               feeAllowed snapshottedFee && statusMatches setup rewards target lastHeight)
      then None
      else
        stxBucket ← List.find (fun b => bool_decide (bu_bondIndex b = None)) (rs_buckets rewards);
        if negb (bool_decide (parsedUnsigned (bu_signerEarned stxBucket) = Some signerEarned)) then None
        else
          buckets ← bondBuckets configuredFee (rs_buckets rewards);
          let sorted := js_sort by_bond buckets in
          if negb (bool_decide (NoDup (mb_bondIndex <$> sorted))) then None
          else
            let totalEarned := signerEarned + foldr (fun b n => mb_earnedSats b + n) 0 sorted in
            let anyFeePinned := (if snapshottedFee is Some _ then true else false) ||
              existsb (fun b => fs_present (mb_feeSnapshot b)) sorted in
            Some {| mk_rewardCycle := rs_rewardCycle rewards;
                    mk_checkpoint := Anchor.calculationCheckpoint target;
                    mk_lastRewardComputeBurnHeight := lastHeight; mk_rewardsPerToken := rewardsPerToken;
                    mk_expectedSignerOutflowSats := totalEarned;
                    mk_feeSnapshot := feeSnapshotOf snapshottedFee configuredFee;
                    mk_stxEarnedSats := signerEarned; mk_bondBuckets := sorted;
                    mk_effect := if 0 <? totalEarned then claim_remaining
                      else if anyFeePinned then claim_completed
                      else if negb (bool_decide (sorted = [])) || bu_participating stxBucket
                      then claim_buckets_idle else claim_none |}
  end.

(** [managerClaimNetworkKind]; the four networks of the enumeration all have a kind. *)
Definition managerClaimNetworkKind (setup : OperatorSnapshot) : Network :=
  match os_network setup with wn_mainnet => mainnet | _ => testnet end.

Record ManagerClaimProposal := {
  cp_kind : Network;
  cp_chainId : Z;
  cp_manager : string;
  cp_profileId : string;
  cp_sourceSha256 : string;
  cp_pox5 : string;
  cp_sbtcToken : string;
  cp_chainAnchor : Anchor.ChainAnchor;
  cp_checkpoint : ManagerClaimCheckpoint;
  cp_functionArgs : list string;
  cp_postCondition : string;
}.

Definition checkpointText (c : Anchor.Checkpoint) : string :=
  match c with Anchor.first_half => "first-half" | Anchor.second_half => "second-half" end.

Definition anchor_json (a : Anchor.ChainAnchor) : Json :=
  JObj [("stacksBlockHeight", JNum (Anchor.stacksBlockHeight a));
        ("indexBlockHash", JStr (Anchor.indexBlockHash a));
        ("burnBlockHeight", JNum (Anchor.burnBlockHeight a)); ("rewardCycle", JNum (Anchor.rewardCycle a));
        ("rewardCycleLength", JNum (Anchor.rewardCycleLength a));
        ("prepareCycleLength", JNum (Anchor.prepareCycleLength a));
        ("cyclePosition", JNum (Anchor.cyclePosition a));
        ("phase", JStr (match Anchor.phase a with
                        | Anchor.phase_reward => "reward" | Anchor.phase_prepare => "prepare" end));
        ("checkpoint", JStr (checkpointText (Anchor.checkpoint a)))].

Definition fee_json (f : FeeSnapshot) : Json :=
  JObj [("state", JStr (if fs_present f then "present" else "absent"));
        ("effectiveFeeBips", JStr (bigint_toString (fs_effectiveFeeBips f)))].

Definition bond_json (b : ManagerClaimBondBucket) : Json :=
  JObj [("bondIndex", JStr (bigint_toString (mb_bondIndex b)));
        ("managerSharesSats", JStr (bigint_toString (mb_managerSharesSats b)));
        ("earnedSats", JStr (bigint_toString (mb_earnedSats b))); ("feeSnapshot", fee_json (mb_feeSnapshot b))].

Definition proposal_json (p : ManagerClaimProposal) : Json :=
  let c := cp_checkpoint p in
  JObj [("schemaVersion", JNum 1); ("kind", JStr "reference-manager-claim-rewards-proposal");
    ("adapter", JObj [("id", JStr "reference-manager-claim-rewards"); ("revision", JNum 2)]);
    ("network", JObj [("kind", JStr (network_text (cp_kind p))); ("chainId", JNum (cp_chainId p))]);
    ("manager", JObj [("contract", JStr (cp_manager p)); ("profileId", JStr (cp_profileId p));
                      ("sourceSha256", JStr (cp_sourceSha256 p))]);
    ("contracts", JObj [("pox5", JStr (cp_pox5 p)); ("sbtcToken", JStr (cp_sbtcToken p))]);
    ("chainAnchor", anchor_json (cp_chainAnchor p));
    ("rewardCheckpoint", JObj [("rewardCycle", JStr (bigint_toString (mk_rewardCycle c)));
       ("calculationCheckpoint", JStr (checkpointText (mk_checkpoint c)));
       ("lastRewardComputeBurnHeight", JNum (mk_lastRewardComputeBurnHeight c));
       ("rewardsPerToken", JStr (bigint_toString (mk_rewardsPerToken c)))]);
    ("buckets", JObj [("stxEarnedSats", JStr (bigint_toString (mk_stxEarnedSats c)));
       ("stxFeeSnapshot", fee_json (mk_feeSnapshot c)); ("bond", JArr (map bond_json (mk_bondBuckets c)))]);
    ("call", JObj [("contract", JStr (cp_manager p)); ("functionName", JStr "claim-rewards");
       ("functionArgs", JArr (map JStr (cp_functionArgs p)))]);
    ("expectedEffect", JObj [("asset", JStr (sbtc_asset (cp_sbtcToken p))); ("sender", JStr (cp_pox5 p));
       ("recipient", JStr (cp_manager p));
       ("amountSats", JStr (bigint_toString (mk_expectedSignerOutflowSats c)));
       ("postCondition", JStr (cp_postCondition p))])].

Section Facts.

Context (isUuid : string -> bool) (validateStacksAddress : string -> bool)
        (lib : ClarityLibrary) (bufferCV : list Z -> ClarityValue)
        (settle : string -> list Thrown -> Thrown) (sha256 : list Z -> string)
        (postConditionToHex : PostCondition -> string)
        (verifySignature : string -> string -> string -> bool)
        (publicKeyFromSignatureRsv : string -> string -> option string).

Definition buildManagerClaimProposal (setup : OperatorSnapshot) (rewards : option RewardStatus)
    : facts_result (option ManagerClaimProposal) :=
  match managerClaimCheckpoint setup rewards with
  | Some c =>
      if negb (bool_decide (mk_effect c = claim_remaining)) then Ok None
      else
        match truthy (os_pox5ContractId setup), truthy (os_sbtcTokenContract setup),
              truthy (os_sourceSha256 setup), truthy (os_sourceProfileId setup) with
        | Some pox5, Some sbtcToken, Some sourceSha256, Some profileId =>
            indices ← plain (mapM_res (fun b => Codecs.library (cl_uintCV lib (mb_bondIndex b)))
                               (mk_bondBuckets c));
            cycle ← plain (Codecs.library (cl_uintCV lib (mk_rewardCycle c)));
            Ok (Some {| cp_kind := managerClaimNetworkKind setup; cp_chainId := os_nodeNetworkId setup;
                        cp_manager := os_managerPrincipal setup; cp_profileId := profileId;
                        cp_sourceSha256 := sourceSha256; cp_pox5 := pox5; cp_sbtcToken := sbtcToken;
                        cp_chainAnchor := os_chainAnchor setup; cp_checkpoint := c;
                        cp_functionArgs := [cl_cvToHex lib (CList indices); cl_cvToHex lib cycle];
                        cp_postCondition := postConditionToHex
                          (will_send_sbtc pox5 sbtcToken (mk_expectedSignerOutflowSats c)) |})
        | _, _, _, _ => Ok None
        end
  | None => Ok None
  end.

(** ** Checks *)

(** [walletNetwork]; [None] is a throw. *)
Definition walletNetwork (network : WalletNetwork) (expectedNetworkId : option Z) : option WalletBindingNetwork :=
  match network with
  | wn_mainnet | wn_testnet =>
      Some {| wb_network := network; wb_chainId := default 0 (expectedChainId network);
              wb_transactionVersion := transactionVersionOf network |}
  | _ => createWalletTransactionNetworkBinding network (default defaultPrivateChainId expectedNetworkId)
  end.

Definition check_status (setup : OperatorSnapshot) (id : string) : option string :=
  snd <$> List.find (fun '(i, _) => String.eqb i id) (os_checks setup).

Definition walletNetworkChecksPass (setup : OperatorSnapshot) (chainId : Z) : bool :=
  (os_nodeNetworkId setup =? chainId) &&
  bool_decide (check_status setup "node-network" = Some "pass") &&
  match check_status setup "node-sync" with Some status => String.eqb status "pass" | None => true end.

(** [runtimeStateSha256]: the grant only matters to a registration. *)
Definition grant_json (g : VerifiedSignerGrant) : Json :=
  JObj [("managerPrincipal", JStr (vg_managerPrincipal g)); ("pox5ContractId", JStr (vg_pox5ContractId g));
        ("authId", JStr (vg_authId g)); ("signerKeyHex", JStr (vg_signerKeyHex g));
        ("signerSignatureHex", JStr (vg_signerSignatureHex g));
        ("expectedMessageHashHex", JStr (vg_expectedMessageHashHex g)); ("signatureValid", JBool true);
        ("registerSelfCall", JObj [("contract", JStr (vg_managerPrincipal g));
           ("functionName", JStr "register-self"); ("arguments", JArr (map JStr (vg_arguments g)));
           ("signingPrincipal", JStr (vg_signingPrincipal g));
           ("signingAuthority", JStr "external-offline-admin")])].

Definition runtimeStateSha256 (action : WalletAction) (state : RuntimeState) : string :=
  canonicalJsonSha256 sha256
    (JObj [("action", JStr (walletActionText action)); ("managerPrincipal", JStr (rt_managerPrincipal state));
           ("signerGrant", match action, rt_grant state with
                           | wa_register_self, Some g => grant_json g
                           | _, _ => JNull
                           end)]).

Definition readState (state : option RuntimeState) : facts_result RuntimeState :=
  match state with Some s => Ok s | None => refuse wallet_intent_invalid end.

(** [assertStateUnchanged] *)
Definition assertStateUnchanged (reads : FactsReads) (action : WalletAction) (state : RuntimeState)
    : facts_result unit :=
  latest ← readState (fr_latestState reads);
  demand (String.eqb (runtimeStateSha256 action latest) (runtimeStateSha256 action state))
    wallet_intent_conflict.

Definition assertStoredLocalNodeAuthority (reads : FactsReads) : facts_result unit :=
  authority ← fr_authority reads;
  match authority with
  | Some status => if String.eqb status "current" then Ok tt
                   else Err (intent_error wallet_execution_unavailable true)
  | None => Ok tt
  end.

Definition executionAvailable (setup : OperatorSnapshot) (capability : string) : bool :=
  match List.find (fun '(id, _) => String.eqb id capability) (os_capabilities setup) with
  | Some (_, available) => available
  | None => false
  end.

Definition assertManagerActionTarget (reads : FactsReads) (setup : OperatorSnapshot)
    (managerPrincipal : string) (network : WalletBindingNetwork) (action : WalletAction) : facts_result unit :=
  _ ← assertStoredLocalNodeAuthority reads;
  match managerCapabilityForWalletAction action with
  | None => refuse wallet_execution_unavailable
  | Some capability =>
      demand (String.eqb (os_managerPrincipal setup) managerPrincipal && os_attachAllowed setup &&
              executionAvailable setup capability && walletNetworkChecksPass setup (wb_chainId network))
        wallet_execution_unavailable
  end.

Definition assertPox5CalculationTarget (reads : FactsReads) (setup : OperatorSnapshot)
    (network : WalletBindingNetwork) : facts_result string :=
  _ ← assertStoredLocalNodeAuthority reads;
  match truthy (os_pox5ContractId setup) with
  | Some pox5ContractId =>
      _ ← demand (walletNetworkChecksPass setup (wb_chainId network) && os_compatibilityMatched setup &&
                  bool_decide (is_Some (truthy (os_profileId setup))) &&
                  bool_decide (is_Some (truthy (os_pox5SourceSha256 setup)))) wallet_execution_unavailable;
      Ok pox5ContractId
  | None => refuse wallet_execution_unavailable
  end.

(** [principal.split(".", 1)[0]] *)
Definition addressPart (principal : string) : string :=
  match cut_dot principal with Some (address, _) => address | None => principal end.

Definition assertActionPrincipal (principal : string) (network : WalletNetwork) : facts_result unit :=
  _ ← demand (validatePrincipal validateStacksAddress principal) wallet_intent_invalid;
  demand (Bool.eqb (bool_decide (network_of (addressPart principal) = mainnet))
                   (bool_decide (network = wn_mainnet))) wallet_intent_invalid.

Definition grantInForce (setup : OperatorSnapshot) (g : VerifiedSignerGrant) : bool :=
  match os_registration setup with
  | Some r => rg_registered r && bool_decide (rg_signerKeyHex r = Some (vg_signerKeyHex g)) && rg_grantValid r
  | None => false
  end.

(** The checks of a registration before the sender is looked at. *)
Definition registrationRepair (reads : FactsReads) (state : RuntimeState) (setup : OperatorSnapshot)
    : facts_result unit :=
  established ← fr_canRepair reads;
  _ ← demand established wallet_execution_unavailable;
  match rt_grant state with
  | None => refuse wallet_intent_invalid
  | Some g => demand (negb (grantInForce setup g)) wallet_intent_invalid
  end.

(** ** Building blocks *)

(** [transaction] of the source: a call of the manager by the sender. *)
Definition managerCall (manager actor : string) (network : WalletNetwork) (functionName : string)
    (functionArgs postConditions : list string) : facts_result WalletTransaction :=
  let t := {| wt_contract := manager; wt_functionName := functionName; wt_functionArgs := functionArgs;
              wt_network := network; wt_address := actor; wt_postConditions := postConditions |} in
  if walletTransactionSchema t then Ok t else Err uncaught.

Definition commonFields (manager actor : string) (network : WalletNetwork) (setup : OperatorSnapshot)
    : list (string * string) :=
  [("Manager", manager); ("Sender", actor); ("Network", walletNetworkText network);
   ("Source assurance",
    if String.eqb (os_sourceTier setup) "reference-built-in" || String.eqb (os_sourceTier setup) "reference-render"
    then "Reviewed manager source" else "Custom manager source — review in signing tool")].

Definition tipOf (setup : OperatorSnapshot) : option string :=
  truthy (Some (Anchor.indexBlockHash (os_chainAnchor setup))).

(** A uint of a read-only call without arguments. *)
Definition readUInt (node : WalletNode) (contract function sender : string) (tip : option string)
    : facts_result Z :=
  value ← plain (nd_callReadOnly node contract function sender [] tip);
  plain (Codecs.decodeUInt value function).

Definition isAdmin (node : WalletNode) (manager actor principal : string) (tip : option string)
    : facts_result bool :=
  hex ← plain (encodePrincipalHex lib principal);
  value ← plain (nd_callReadOnly node manager "is-admin" actor [hex] tip);
  plain (Codecs.decodeBoolean value "is-admin").

Definition request_facts (request : WalletRequest) (entries : list (string * Json)) : Json :=
  JObj ([("schemaVersion", JNum 2); ("request", request_json request)] ++ entries).

(** What every operation shares once the target is checked. *)
Record FactsContext := {
  fc_reads : FactsReads;
  fc_request : WalletRequest;
  fc_state : RuntimeState;
  fc_setup : OperatorSnapshot;
  fc_network : WalletBindingNetwork;
}.

Definition fc_manager (c : FactsContext) : string := rt_managerPrincipal (fc_state c).
Definition fc_actor (c : FactsContext) : string := requestActor (fc_request c).
Definition fc_node (c : FactsContext) : WalletNode := fr_node (fc_reads c).
Definition fc_tip (c : FactsContext) : option string := tipOf (fc_setup c).

Definition unchanged (c : FactsContext) : facts_result unit :=
  assertStateUnchanged (fc_reads c) (requestAction (fc_request c)) (fc_state c).

(** The facts of an operation of the manager. *)
Definition managerFacts (c : FactsContext) (entries : list (string * Json)) (t : WalletTransaction)
    (title summary expectedPostState : string) (fields : list (string * string)) : AuthoritativeFacts :=
  {| af_scope := fc_manager c; af_facts := request_facts (fc_request c) entries;
     af_requiredSender := fc_actor c; af_network := wb_network (fc_network c);
     af_chainId := wb_chainId (fc_network c); af_transaction := t;
     af_review := {| rv_title := title; rv_summary := summary; rv_expectedPostState := expectedPostState;
                     rv_fields := commonFields (fc_manager c) (fc_actor c) (wb_network (fc_network c))
                                    (fc_setup c) ++ fields |};
     af_binding := None |}.

Definition managerTransaction (c : FactsContext) (functionName : string)
    (functionArgs postConditions : list string) : facts_result WalletTransaction :=
  managerCall (fc_manager c) (fc_actor c) (wb_network (fc_network c)) functionName functionArgs postConditions.

(** ** The operations of a manager admin *)

Definition adminFacts (c : FactsContext) (admin : string) (enabled : bool) : facts_result AuthoritativeFacts :=
  _ ← demand (validateStacksAddress admin) wallet_intent_invalid;
  _ ← assertActionPrincipal admin (wb_network (fc_network c));
  _ ← demand (enabled || negb (String.eqb admin (fc_actor c))) wallet_intent_invalid;
  currentlyEnabled ← isAdmin (fc_node c) (fc_manager c) (fc_actor c) admin (fc_tip c);
  _ ← demand (negb (Bool.eqb currentlyEnabled enabled)) wallet_intent_invalid;
  _ ← unchanged c;
  adminHex ← plain (encodePrincipalHex lib admin);
  t ← managerTransaction c "update-admin"
        [adminHex; cl_cvToHex lib (if enabled then CBoolTrue else CBoolFalse)] [];
  Ok (managerFacts c [("managerPrincipal", JStr (fc_manager c)); ("currentlyEnabled", JBool currentlyEnabled)] t
        (if enabled then "Add manager admin" else "Remove manager admin")
        ((if enabled then "Enable " else "Disable ") ++ admin ++ " as a manager admin.")
        (admin ++ " is " ++ (if enabled then "an active" else "not an") ++ " admin.")
        [("Admin", admin); ("Enabled", if enabled then "true" else "false")])%string.

Definition updateFeesFacts (c : FactsContext) (feeBips : string) : facts_result AuthoritativeFacts :=
  match BigInt feeBips with
  | None => Err uncaught
  | Some nextFees =>
      value ← plain (nd_getDataVar (fc_node c) (fc_manager c) "fees-bips" (fc_tip c));
      currentFees ← plain (Codecs.decodeUInt value "fees-bips");
      _ ← demand (negb (currentFees =? nextFees)) wallet_intent_invalid;
      _ ← unchanged c;
      feeHex ← plain (encodeUIntHex lib nextFees);
      t ← managerTransaction c "update-fees" [feeHex] [];
      Ok (managerFacts c [("managerPrincipal", JStr (fc_manager c));
                          ("currentFeeBips", JStr (bigint_toString currentFees))] t
            "Update manager fees" ("Set the manager fee rate to " ++ feeBips ++ " basis points.")
            ("The configured manager fee is " ++ feeBips ++ " basis points.")
            [("Current fee (bips)", bigint_toString currentFees); ("New fee (bips)", feeBips)])%string
  end.

Definition grantKey (manager : string) (g : VerifiedSignerGrant) : facts_result string :=
  principal ← plain (Codecs.library (cl_principalCV lib manager));
  authId ← match BigInt (vg_authId g) with
           | Some n => plain (Codecs.library (cl_uintCV lib n))
           | None => Err uncaught
           end;
  Ok (cl_cvToHex lib (CTuple [("signer-key", bufferCV (hexBytes (chars (vg_signerKeyHex g))));
                              ("signer-manager", principal); ("auth-id", authId)])).

Definition registerFacts (c : FactsContext) : facts_result AuthoritativeFacts :=
  match rt_grant (fc_state c) with
  | None => refuse wallet_intent_invalid
  | Some g =>
      _ ← demand (bool_decide (os_pox5ContractId (fc_setup c) = Some (vg_pox5ContractId g)))
            wallet_intent_conflict;
      _ ← demand (negb (grantInForce (fc_setup c) g)) wallet_intent_invalid;
      current ← plain (verifySignerGrantOutput validateStacksAddress (cl_cvToHex lib) (cl_uintCV lib)
                  (cl_principalCV lib) bufferCV
                  (fun contract function sender args => nd_callReadOnly (fc_node c) contract function sender args None)
                  verifySignature publicKeyFromSignatureRsv (vg_pox5ContractId g) (fc_manager c) (vg_authId g)
                  {| so_signerKey := vg_signerKeyHex g; so_signerSignature := vg_signerSignatureHex g;
                     so_authId := vg_authId g; so_signerManager := fc_manager c |});
      key ← grantKey (fc_manager c) current;
      used ← plain (nd_getMapEntry (fc_node c) (vg_pox5ContractId g) "used-signer-key-grants" key (fc_tip c));
      spent ← match used with
              | COptionalSome v => plain (Codecs.decodeBoolean v "used-signer-key-grants")
              | _ => Ok false
              end;
      _ ← demand (negb spent) wallet_intent_invalid;
      _ ← unchanged c;
      t ← managerTransaction c "register-self" (vg_arguments current) [];
      Ok (managerFacts c
            [("managerPrincipal", JStr (fc_manager c)); ("pox5ContractId", JStr (vg_pox5ContractId current));
             ("authId", JStr (vg_authId current)); ("signerKeyHex", JStr (vg_signerKeyHex current));
             ("signerSignatureHex", JStr (vg_signerSignatureHex current));
             ("expectedMessageHashHex", JStr (vg_expectedMessageHashHex current));
             ("call", JObj [("contract", JStr (vg_managerPrincipal current));
                ("functionName", JStr "register-self"); ("arguments", JArr (map JStr (vg_arguments current)));
                ("signingPrincipal", JStr (vg_signingPrincipal current));
                ("signingAuthority", JStr "external-offline-admin")])] t
            "Register the signer manager"
            ("Register the verified signer key through " ++ fc_manager c ++ ".")
            ("PoX-5 registers signer key " ++ vg_signerKeyHex current ++ ".")
            [("Signer key", vg_signerKeyHex current); ("Auth ID", vg_authId current)])%string
  end.

(** ** The payments *)

Definition transferHex (sender token : string) (amount : Z) : string :=
  postConditionToHex (will_send_sbtc sender token amount).

(** What the manager or sBTC would reject of a payment to a staker. *)
Definition stakerPaymentAllowed (rewards : Codecs.EarnedStakerRewards) (feeBips : option Z) (unclaimed : Z)
    (payout : option Codecs.PoxAddressPreference) : bool :=
  negb (Codecs.earned rewards =? 0) && bool_decide (is_Some feeBips) &&
  (Codecs.earned rewards + Codecs.fees rewards <=? unclaimed) &&
  match payout with
  | Some p => (Codecs.maxFee p <=? Codecs.earned rewards) &&
              (SBTC_WITHDRAWAL_DUST_LIMIT <? Codecs.earned rewards - Codecs.maxFee p)
  | None => true
  end.

Definition bucketLabel (bondIndex : option Z) : string :=
  match bondIndex with None => "STX-only" | Some i => ("bond period " ++ bigint_toString i)%string end.

Definition payout_json (earned : Z) (payout : option Codecs.PoxAddressPreference) : Json :=
  match payout with
  | None => JObj [("kind", JStr "direct-sbtc")]
  | Some p => JObj [("kind", JStr "bitcoin-l1"); ("maxFeeSats", JStr (bigint_toString (Codecs.maxFee p)));
                    ("withdrawalAmountSats", JStr (bigint_toString (earned - Codecs.maxFee p)))]
  end.

Definition stakerFacts (c : FactsContext) (token staker rewardCycleText : string) (bondText : option string)
    : facts_result AuthoritativeFacts :=
  _ ← assertActionPrincipal staker (wb_network (fc_network c));
  rewardCycle ← match BigInt rewardCycleText with Some n => Ok n | None => Err uncaught end;
  bondIndex ← match bondText with
              | None => Ok None
              | Some t => match BigInt t with Some n => Ok (Some n) | None => Err uncaught end
              end;
  bucketArgs ← plain (mapM_res (fun a => a) (accountArgs lib staker rewardCycle bondIndex));
  stakerHex ← plain (encodePrincipalHex lib staker);
  feeMapKey ← plain (feeKey lib rewardCycle bondIndex);
  let call function args := nd_callReadOnly (fc_node c) (fc_manager c) function (fc_actor c) args (fc_tip c) in
  rewardsValue ← plain (call "get-earned-staker-rewards" bucketArgs);
  payoutValue ← plain (call "get-pox-addr" [stakerHex]);
  feeValue ← plain (nd_getMapEntry (fc_node c) (fc_manager c) "fee-bips-for-cycle" feeMapKey (fc_tip c));
  unclaimedValue ← plain (call "get-unclaimed-staker-rewards" []);
  rewards ← plain (Codecs.decodeEarnedStakerRewards rewardsValue "get-earned-staker-rewards");
  payout ← plain (Codecs.decodePoxAddressPreference payoutValue "get-pox-addr");
  feeBips ← plain (Codecs.decodeOptionalUInt feeValue "fee-bips-for-cycle");
  unclaimed ← plain (Codecs.decodeUInt unclaimedValue "get-unclaimed-staker-rewards");
  let earned := Codecs.earned rewards in
  let gross := earned + Codecs.fees rewards in
  _ ← demand (stakerPaymentAllowed rewards feeBips unclaimed payout) wallet_intent_invalid;
  let postCondition := transferHex (fc_manager c) token earned in
  _ ← unchanged c;
  t ← managerTransaction c "claim-staker-rewards" bucketArgs [postCondition];
  let feeText := match feeBips with Some n => bigint_toString n | None => "" end in
  Ok (managerFacts c
        [("managerPrincipal", JStr (fc_manager c)); ("grossSats", JStr (bigint_toString gross));
         ("feeSats", JStr (bigint_toString (Codecs.fees rewards))); ("netSats", JStr (bigint_toString earned));
         ("feeSnapshotBips", JStr feeText);
         ("unclaimedStakerRewardsSats", JStr (bigint_toString unclaimed));
         ("payout", payout_json earned payout); ("postCondition", JStr postCondition)] t
        "Claim staker rewards"
        ("Pay " ++ bigint_toString earned ++ " sats of " ++ bucketLabel bondIndex ++ " rewards for cycle " ++
         bigint_toString rewardCycle ++ " to " ++ staker ++ ".")
        (match payout with
         | None => "The staker receives the exact sBTC amount and the bucket settles to zero."
         | Some _ => "The exact sBTC amount enters the withdrawal system for the staker's Bitcoin address and the bucket settles to zero."
         end)
        [("Staker", staker); ("Reward cycle", bigint_toString rewardCycle); ("Bucket", bucketLabel bondIndex);
         ("Gross (sats)", bigint_toString gross); ("Manager fee (sats)", bigint_toString (Codecs.fees rewards));
         ("Fee snapshot (bips)", feeText); ("Staker receives (sats)", bigint_toString earned);
         ("Payout route", match payout with None => "Direct sBTC" | Some _ => "Bitcoin L1 withdrawal" end)])%string.

Definition withdrawFacts (c : FactsContext) (token amountText recipient : string)
    : facts_result AuthoritativeFacts :=
  _ ← assertActionPrincipal recipient (wb_network (fc_network c));
  amount ← match BigInt amountText with Some n => Ok n | None => Err uncaught end;
  earnedFees ← readUInt (fc_node c) (fc_manager c) "get-earned-fees" (fc_actor c) (fc_tip c);
  _ ← demand (amount <=? earnedFees) wallet_intent_invalid;
  let postCondition := transferHex (fc_manager c) token amount in
  _ ← unchanged c;
  amountHex ← plain (encodeUIntHex lib amount);
  recipientHex ← plain (encodePrincipalHex lib recipient);
  t ← managerTransaction c "withdraw-fees" [amountHex; recipientHex] [postCondition];
  Ok (managerFacts c
        [("managerPrincipal", JStr (fc_manager c)); ("earnedFees", JStr (bigint_toString earnedFees));
         ("postCondition", JStr postCondition)] t
        "Withdraw manager fees" ("Withdraw " ++ amountText ++ " sats of earned fees to " ++ recipient ++ ".")
        "The exact sBTC amount is transferred and deducted from earned fees."
        [("Amount (sats)", amountText); ("Recipient", recipient);
         ("Available fees (sats)", bigint_toString earnedFees)])%string.

(** The balance that is not owed to anyone. *)
Definition sweepableSats (balance earnedFees liability unclaimed : Z) : Z :=
  let reserved := earnedFees + liability + unclaimed in
  if reserved <=? balance then balance - reserved else 0.

Definition sweepFacts (c : FactsContext) (token recipient : string) : facts_result AuthoritativeFacts :=
  _ ← assertActionPrincipal recipient (wb_network (fc_network c));
  managerHex ← plain (encodePrincipalHex lib (fc_manager c));
  balanceValue ← plain (nd_callReadOnly (fc_node c) token "get-balance" (fc_actor c) [managerHex] (fc_tip c));
  ok ← plain (Codecs.decodeResponseOk balanceValue "get-balance");
  balance ← plain (Codecs.decodeUInt ok "get-balance");
  earnedFees ← readUInt (fc_node c) (fc_manager c) "get-earned-fees" (fc_actor c) (fc_tip c);
  liability ← readUInt (fc_node c) (fc_manager c) "get-withdrawal-liability" (fc_actor c) (fc_tip c);
  unclaimed ← readUInt (fc_node c) (fc_manager c) "get-unclaimed-staker-rewards" (fc_actor c) (fc_tip c);
  let reserved := earnedFees + liability + unclaimed in
  let sweepable := sweepableSats balance earnedFees liability unclaimed in
  _ ← demand (negb (sweepable =? 0)) wallet_intent_invalid;
  let postCondition := transferHex (fc_manager c) token sweepable in
  _ ← unchanged c;
  recipientHex ← plain (encodePrincipalHex lib recipient);
  t ← managerTransaction c "sweep-fee-refunds" [recipientHex] [postCondition];
  Ok (managerFacts c
        [("managerPrincipal", JStr (fc_manager c)); ("balance", JStr (bigint_toString balance));
         ("reserved", JStr (bigint_toString reserved)); ("sweepable", JStr (bigint_toString sweepable));
         ("postCondition", JStr postCondition)] t
        "Sweep fee refunds"
        ("Sweep " ++ bigint_toString sweepable ++ " sats of unreserved sBTC to " ++ recipient ++ ".")
        "The exact unreserved sBTC balance is transferred to the recipient."
        [("Sweep amount (sats)", bigint_toString sweepable); ("Recipient", recipient);
         ("Reserved balance (sats)", bigint_toString reserved)])%string.

(** ** The permissionless operations *)

Definition claimScope (p : ManagerClaimProposal) : string :=
  let c := cp_checkpoint p in
  String.concat ":" ["manager-claim-wallet"; cp_manager p; bigint_toString (mk_rewardCycle c);
    checkpointText (mk_checkpoint c); bigint_toString (mk_lastRewardComputeBurnHeight c);
    bigint_toString (mk_rewardsPerToken c)].

Definition claim_fields (c : FactsContext) (p : ManagerClaimProposal) : list (string * string) :=
  let k := cp_checkpoint p in
  [("Manager", cp_manager p); ("Wallet payer", fc_actor c);
   ("Reward cycle", bigint_toString (mk_rewardCycle k)); ("Distribution", checkpointText (mk_checkpoint k));
   ("Calculation Bitcoin block", bigint_toString (mk_lastRewardComputeBurnHeight k));
   ("Bond periods", match mk_bondBuckets k with
                    | [] => "None (STX-only)"
                    | l => String.concat ", " (map (fun b => bigint_toString (mb_bondIndex b)) l)
                    end);
   ("Expected sBTC (sats)", bigint_toString (mk_expectedSignerOutflowSats k));
   ("STX bucket fee", (bigint_toString (fs_effectiveFeeBips (mk_feeSnapshot k)) ++ " bips (" ++
      (if fs_present (mk_feeSnapshot k) then "already pinned" else "pins with this claim") ++ ")")%string);
   ("Source SHA-256", cp_sourceSha256 p)].

Definition managerClaimFacts (c : FactsContext) (rewards : option RewardStatus)
    : facts_result AuthoritativeFacts :=
  proposal ← buildManagerClaimProposal (fc_setup c) rewards;
  match proposal with
  | None => refuse wallet_execution_unavailable
  | Some p =>
      _ ← demand ((cp_chainId p =? wb_chainId (fc_network c)) &&
                  bool_decide (cp_kind p = if bool_decide (fr_network (fc_reads c) = wn_mainnet)
                                           then mainnet else testnet) &&
                  String.eqb (cp_manager p) (fc_manager c)) wallet_intent_conflict;
      value ← plain (nd_getDataVar (fc_node c) (cp_pox5 p) "rewards-paused" (fc_tip c));
      paused ← plain (Codecs.decodeBoolean value "rewards-paused");
      _ ← demand (negb paused) wallet_execution_unavailable;
      _ ← unchanged c;
      let k := cp_checkpoint p in
      Ok {| af_scope := claimScope p;
            af_facts := request_facts (fc_request c) [("proposal", proposal_json p); ("rewardsPaused", JBool false)];
            af_requiredSender := fc_actor c; af_network := wb_network (fc_network c);
            af_chainId := wb_chainId (fc_network c);
            af_transaction :=
              {| wt_contract := cp_manager p; wt_functionName := "claim-rewards";
                 wt_functionArgs := cp_functionArgs p; wt_network := wb_network (fc_network c);
                 wt_address := fc_actor c; wt_postConditions := [cp_postCondition p] |};
            af_review :=
              {| rv_title := "Claim manager rewards";
                 rv_summary := ("Pull " ++ bigint_toString (mk_expectedSignerOutflowSats k) ++
                   " sats from PoX-5 into the manager for the " ++ checkpointText (mk_checkpoint k) ++
                   " distribution of cycle " ++ bigint_toString (mk_rewardCycle k) ++ ".")%string;
                 rv_expectedPostState := "PoX-5 transfers the exact reviewed sBTC amount to the manager and pins the fee for every named reward bucket.";
                 rv_fields := claim_fields c p |};
            af_binding := None |}
  end.

(** [observation] as the facts hold it. *)
Definition observation_json (o : Pox5CalculateRewardsObservation) : Json :=
  JObj [("adapter", JObj [("id", JStr "pox5-calculate-rewards"); ("revision", JNum 1)]);
        ("targetRewardCycle", JNum (cr_targetRewardCycle o));
        ("targetCheckpoint", JStr (checkpointText (cr_targetCheckpoint o)));
        ("expectedLastRewardComputeBurnHeight", JNum (cr_expectedLastRewardComputeBurnHeight o));
        ("observedLastRewardComputeBurnHeight",
         JStr (bigint_toString (cr_observedLastRewardComputeBurnHeight o)));
        ("grossAccruedRewardsSats", JStr (bigint_toString (cr_grossAccruedRewardsSats o)));
        ("activeBonds", JArr (map (fun b => JObj
           [("bondIndex", JStr (bigint_toString (cb_bondIndex b)));
            ("targetRateBips", JStr (bigint_toString (cb_targetRateBips b)));
            ("stxValueRatio", JStr (bigint_toString (cb_stxValueRatio b)));
            ("minUstxRatioBips", JStr (bigint_toString (cb_minUstxRatioBips b)))]) (cr_activeBonds o)));
        ("functionArgs", JArr [JStr (cr_functionArgs o)])].

(** The node of the shared reads, which always give their tip. *)
Definition anchored_node (node : WalletNode) : Node :=
  {| callReadOnly := fun contract function sender args tip =>
       nd_callReadOnly node contract function sender args (Some tip);
     getMapEntry := fun contract map key tip => nd_getMapEntry node contract map key (Some tip) |}.

Definition calculateFacts (c : FactsContext) (pox5 : string) : facts_result AuthoritativeFacts :=
  match readPox5CalculateRewardsObservation lib (anchored_node (fc_node c)) settle pox5 (fc_actor c)
          (os_chainAnchor (fc_setup c)) (os_firstRewardCycleId (fc_setup c)) with
  | Err (pox5_calculate_rewards_error already_computed) => refuse wallet_intent_invalid
  | Err (pox5_calculate_rewards_error _) => refuse wallet_execution_unavailable
  | Err (thrown _) => Err uncaught
  | Ok o =>
      _ ← unchanged c;
      let profile := default "" (os_profileId (fc_setup c)) in
      let height := bigint_toString (cr_expectedLastRewardComputeBurnHeight o) in
      Ok {| af_scope := String.concat ":" ["calculate-rewards"; bigint_toString (cr_targetRewardCycle o);
                                           checkpointText (cr_targetCheckpoint o)];
            af_facts := request_facts (fc_request c)
              [("pox5ContractId", JStr pox5); ("pox5SourceSha256", JOptStr (os_pox5SourceSha256 (fc_setup c)));
               ("compatibilityProfile", JObj [("id", JStr profile);
                  ("revision", match os_profileRevision (fc_setup c) with Some n => JNum n | None => JNull end)]);
               ("chainAnchor", anchor_json (os_chainAnchor (fc_setup c))); ("observation", observation_json o)];
            af_requiredSender := fc_actor c; af_network := wb_network (fc_network c);
            af_chainId := wb_chainId (fc_network c);
            af_transaction :=
              {| wt_contract := pox5; wt_functionName := "calculate-rewards";
                 wt_functionArgs := [cr_functionArgs o]; wt_network := wb_network (fc_network c);
                 wt_address := fc_actor c; wt_postConditions := [] |};
            af_review :=
              {| rv_title := "Calculate PoX-5 rewards";
                 rv_summary := ("Calculate the " ++ checkpointText (cr_targetCheckpoint o) ++
                   " distribution for reward cycle " ++ bigint_toString (cr_targetRewardCycle o) ++ ".")%string;
                 rv_expectedPostState := ("PoX-5 records Bitcoin block " ++ height ++
                   " as the latest completed reward calculation.")%string;
                 rv_fields :=
                   [("PoX-5 contract", pox5); ("Sender", fc_actor c);
                    ("Network", walletNetworkText (wb_network (fc_network c)));
                    ("Reviewed protocol profile", (profile ++ "@" ++
                       match os_profileRevision (fc_setup c) with
                       | Some n => bigint_toString n | None => "null" end)%string);
                    ("Reward cycle", bigint_toString (cr_targetRewardCycle o));
                    ("Checkpoint", checkpointText (cr_targetCheckpoint o));
                    ("Calculation Bitcoin block", height);
                    ("Accrued rewards (sats)", bigint_toString (cr_grossAccruedRewardsSats o));
                    ("Active bond periods", match cr_activeBonds o with
                       | [] => "None"
                       | l => String.concat ", " (map (fun b => bigint_toString (cb_bondIndex b)) l)
                       end)] |};
            af_binding := Some {| bi_pox5ContractId := pox5; bi_targetRewardCycle := cr_targetRewardCycle o;
              bi_targetCheckpoint := planCheckpoint (cr_targetCheckpoint o);
              bi_expectedLastRewardComputeBurnHeight := cr_expectedLastRewardComputeBurnHeight o |} |}
  end.

(** ** [authoritativeFacts] *)

(** The operations of a manager, whose admin the sender must be unless they are permissionless. *)
Definition operationFacts (c : FactsContext) : facts_result AuthoritativeFacts :=
  let authority := wo_authority (walletOperationContract (requestAction (fc_request c))) in
  _ ← (if bool_decide (authority = permissionless) then Ok tt
       else admin ← isAdmin (fc_node c) (fc_manager c) (fc_actor c) (fc_actor c) (fc_tip c);
            demand admin wallet_intent_invalid);
  let with_token f := match truthy (os_sbtcTokenContract (fc_setup c)) with
                      | None => refuse wallet_execution_unavailable
                      | Some token => f token
                      end in
  match fc_request c with
  | rq_register_self _ => registerFacts c
  | rq_add_admin _ admin => adminFacts c admin true
  | rq_remove_admin _ admin => adminFacts c admin false
  | rq_update_fees _ feeBips => updateFeesFacts c feeBips
  | rq_withdraw_fees _ amount recipient => with_token (fun token => withdrawFacts c token amount recipient)
  | rq_sweep_fee_refunds _ recipient => with_token (fun token => sweepFacts c token recipient)
  | rq_claim_staker_rewards _ staker rewardCycle bondIndex =>
      with_token (fun token => stakerFacts c token staker rewardCycle bondIndex)
  | _ => Err uncaught
  end.

(** The snapshot, and the reward status of a direct manager claim. *)
Definition setupOf (reads : FactsReads) (request : WalletRequest)
    : facts_result (OperatorSnapshot * option RewardStatus) :=
  match request with
  | rq_claim_rewards _ jobId =>
      match jobId with
      | Some _ => refuse wallet_intent_invalid
      | None => match fr_claimEvidence reads with
                | None => refuse wallet_execution_unavailable
                | Some evidence => evidence
                end
      end
  | _ => setup ← fr_snapshot reads; Ok (setup, None)
  end.

(** The target of the action is one Sidekick may act on. *)
Definition assertTarget (reads : FactsReads) (request : WalletRequest) (state : RuntimeState)
    (setup : OperatorSnapshot) (network : WalletBindingNetwork) : facts_result (option string) :=
  match request with
  | rq_calculate_rewards _ => pox5 ← assertPox5CalculationTarget reads setup network; Ok (Some pox5)
  | _ =>
      _ ← assertManagerActionTarget reads setup (rt_managerPrincipal state) network (requestAction request);
      _ ← match request with rq_register_self _ => registrationRepair reads state setup | _ => Ok tt end;
      Ok None
  end.

Definition authoritativeFacts (reads : FactsReads) (request : WalletRequest) : facts_result AuthoritativeFacts :=
  match walletNetwork (fr_network reads) (fr_expectedNetworkId reads) with
  | None => Err uncaught
  | Some network =>
      state ← readState (fr_state reads);
      found ← setupOf reads request;
      let '(setup, rewards) := found in
      _ ← demand (os_nodeNetworkId setup =? wb_chainId network) wallet_execution_unavailable;
      pox5 ← assertTarget reads request state setup network;
      _ ← demand (nonempty (requestActor request) && validateStacksAddress (requestActor request))
            wallet_intent_invalid;
      _ ← assertActionPrincipal (requestActor request) (wb_network network);
      let c := {| fc_reads := reads; fc_request := request; fc_state := state; fc_setup := setup;
                  fc_network := network |} in
      match request, pox5 with
      | rq_claim_rewards _ _, _ => managerClaimFacts c rewards
      | rq_calculate_rewards _, Some pox5 => calculateFacts c pox5
      | rq_calculate_rewards _, None => refuse wallet_execution_unavailable
      | _, _ => operationFacts c
      end
  end.

End Facts.
