(* ===== verification/IntentStore.v ===== *)
(** * The store of browser-wallet intents

    apps/sidekick/src/storage/wallet-intent-repository.ts over the tables
    [browser_wallet_intents] and [browser_wallet_intent_observations] of
    apps/sidekick/src/storage/migrations.ts.  Each operation is one transaction: it returns a
    value and the database it committed, or throws and leaves the database as it was.  The
    constraints, the partial index and the triggers of the tables guard every write.  A row
    holds the manifest itself where the table holds its canonical JSON. *)

From S2P Require Import Prelude Text CanonicalJson Principals OperationPlan SweepPlan Recipe WalletRequest.

Open Scope string_scope.
Open Scope list_scope.
Open Scope Z_scope.

(** ** Rows *)

(** [walletIntentStates] *)
Inductive IntentState :=
  | it_prepared | it_submitted | it_mempool | it_confirmed | it_complete | it_expired | it_superseded
  | it_failed | it_reobserve.

#[global] Instance IntentState_eq_dec : EqDecision IntentState.
Proof. solve_decision. Defined.

(** [StoredWalletIntent] *)
Record IntentRow := {
  iw_action : WalletAction;
  iw_scope : string;
  iw_factsSha256 : string;
  iw_manifestSha256 : string;
  iw_manifest : WalletManifest;
  iw_requiredSender : string;
  iw_network : WalletNetwork;
  iw_chainId : Z;
  iw_state : IntentState;
  iw_stateVersion : Z;
  iw_txid : option string;
  iw_createdAt : Z;
  iw_expiresAt : Z;
  iw_submittedAt : option Z;
  iw_updatedAt : Z;
}.

#[global] Instance IntentRow_eq_dec : EqDecision IntentRow.
Proof. solve_decision. Defined.

(** The evidence of an observation, as [observationEvidenceSchema] reads it. *)
Record Evidence := { ev_verification : WalletVerification; ev_decoded : Json }.

(** [WalletIntentObservation] *)
Record Observation := {
  ob_id : string;
  ob_intentId : string;
  ob_outcome : WalletOutcome;
  ob_canonical : option bool;
  ob_blockHeight : option Z;
  ob_indexBlockHash : option string;
  ob_evidence : Evidence;
  ob_observedAt : Z;
}.

(** The two tables; observations are listed in the order of their row numbers. *)
Record IntentDb := { intents : gmap string IntentRow; observations : list Observation }.

(** [WalletIntentRepositoryErrorCode], and what other throws a repository call has: a value its
    schemas refuse, a constraint of the tables, a document too large, a digest that differs. *)
Inductive StoreError :=
  | intent_not_found | intent_expired | intent_superseded | already_submitted | duplicate_txid
  | active_intent_conflict | state_conflict | manifest_sha256_mismatch | observation_conflict
  | evidence_rejected | intent_schema | intent_sql | document_too_large | digest_differs.

Record CreateInput := {
  ci_id : string;
  ci_action : WalletAction;
  ci_scope : string;
  ci_factsSha256 : string;
  ci_manifestSha256 : string;
  ci_manifest : WalletManifest;
  ci_requiredSender : string;
  ci_network : WalletNetwork;
  ci_chainId : Z;
  ci_createdAt : Z;
  ci_expiresAt : Z;
}.

(** ** Constraints of the tables *)

(** The states of the partial index [browser_wallet_one_active_scope]. *)
Definition activeStates : list IntentState :=
  [it_prepared; it_submitted; it_mempool; it_confirmed; it_complete; it_reobserve].

Definition is_active (r : IntentRow) : bool := bool_decide (iw_state r ∈ activeStates).

Definition has_txid (r : IntentRow) : bool := if iw_txid r is Some _ then true else false.

(** The CHECK constraints that mention more than one column. *)
Definition row_checks (r : IntentRow) : bool :=
  (iw_createdAt r <? iw_expiresAt r) &&
  Bool.eqb (has_txid r) (if iw_submittedAt r is Some _ then true else false) &&
  (negb (bool_decide (iw_state r ∈ [it_submitted; it_mempool; it_confirmed; it_complete; it_reobserve]))
   || has_txid r) &&
  (negb (bool_decide (iw_state r ∈ [it_prepared; it_expired])) || negb (has_txid r)).

Definition same_scope (r s : IntentRow) : bool :=
  bool_decide (iw_action r = iw_action s) && String.eqb (iw_scope r) (iw_scope s).

(** The partial index and UNIQUE (txid). *)
Definition rows_disjoint (r s : IntentRow) : bool :=
  negb (is_active r && is_active s && same_scope r s) &&
  (negb (has_txid r) || negb (bool_decide (iw_txid r = iw_txid s))).

Definition valid_intents (m : gmap string IntentRow) : Prop :=
  map_Forall (fun id r => row_checks r = true /\
    map_Forall (fun id' s => id = id' \/ rows_disjoint r s = true) m) m.

#[global] Instance valid_intents_dec m : Decision (valid_intents m).
Proof. unfold valid_intents. apply _. Defined.

(** [browser_wallet_intent_immutable_binding]: the columns no update may change. *)
Definition binding_of (r : IntentRow) :=
  (iw_action r, iw_scope r, iw_factsSha256 r, iw_manifestSha256 r, iw_manifest r,
   iw_requiredSender r, iw_network r, iw_chainId r, iw_createdAt r, iw_expiresAt r).

(** [browser_wallet_intent_immutable_submission] *)
Definition submission_kept (old new : IntentRow) : bool :=
  (negb (has_txid old) || bool_decide (iw_txid new = iw_txid old)) &&
  ((if iw_submittedAt old is Some _ then false else true) ||
   bool_decide (iw_submittedAt new = iw_submittedAt old)).

Definition update_allowed (old new : IntentRow) : bool :=
  bool_decide (binding_of new = binding_of old) && submission_kept old new.

(** ** Computations inside a transaction *)

Definition txn (A : Type) : Type := IntentDb -> result StoreError (A * IntentDb).

#[global] Instance txn_ret : MRet txn := fun A a d => Ok (a, d).
#[global] Instance txn_bind : MBind txn := fun A B k m d =>
  match m d with Ok (a, d') => k a d' | Err e => Err e end.

Definition throw_txn {A} (e : StoreError) : txn A := fun _ => Err e.
Definition check (b : bool) (e : StoreError) : txn unit := if b then mret tt else throw_txn e.
Definition look {A} (f : IntentDb -> A) : txn A := fun d => Ok (f d, d).

(** A repository method: the value or the throw, and the database afterwards. *)
Definition intent_op (A : Type) : Type := IntentDb -> result StoreError A * IntentDb.

(** [BEGIN IMMEDIATE] with [COMMIT], or [ROLLBACK] on a throw. *)
Definition in_transaction {A} (m : txn A) : intent_op A := fun d =>
  match m d with Ok (a, d') => (Ok a, d') | Err e => (Err e, d) end.

Definition with_intents (m : gmap string IntentRow) (d : IntentDb) : IntentDb :=
  {| intents := m; observations := observations d |}.

(** A write of the intents: the tables' constraints hold afterwards, or it throws. *)
Definition write_intents (m : gmap string IntentRow) : txn unit := fun d =>
  if bool_decide (valid_intents m) then Ok (tt, with_intents m d) else Err intent_sql.

(** [UPDATE ... SET f WHERE p], with the number of changed rows. *)
Definition update_where (p : string -> IntentRow -> bool) (f : IntentRow -> IntentRow) : txn nat := fun d =>
  let m := intents d in
  let changed := filter (fun '(id, r) => p id r = true) m in
  if bool_decide (map_Forall (fun _ r => update_allowed r (f r) = true) changed)
  then (_ ← write_intents ((f <$> changed) ∪ m); mret (size changed)) d
  else Err intent_sql.

(** [INSERT]; a duplicate key throws. *)
Definition insert_intent (id : string) (r : IntentRow) : txn unit := fun d =>
  if bool_decide (intents d !! id = None) then write_intents (<[id := r]> (intents d)) d else Err intent_sql.

Definition with_state (s : IntentState) (now : Z) (r : IntentRow) : IntentRow :=
  {| iw_action := iw_action r; iw_scope := iw_scope r; iw_factsSha256 := iw_factsSha256 r;
     iw_manifestSha256 := iw_manifestSha256 r; iw_manifest := iw_manifest r;
     iw_requiredSender := iw_requiredSender r; iw_network := iw_network r; iw_chainId := iw_chainId r;
     iw_state := s; iw_stateVersion := iw_stateVersion r + 1; iw_txid := iw_txid r;
     iw_createdAt := iw_createdAt r; iw_expiresAt := iw_expiresAt r;
     iw_submittedAt := iw_submittedAt r; iw_updatedAt := now |}.

Definition with_submission (s : IntentState) (txid : string) (now : Z) (r : IntentRow) : IntentRow :=
  {| iw_action := iw_action r; iw_scope := iw_scope r; iw_factsSha256 := iw_factsSha256 r;
     iw_manifestSha256 := iw_manifestSha256 r; iw_manifest := iw_manifest r;
     iw_requiredSender := iw_requiredSender r; iw_network := iw_network r; iw_chainId := iw_chainId r;
     iw_state := s; iw_stateVersion := iw_stateVersion r + 1; iw_txid := Some txid;
     iw_createdAt := iw_createdAt r; iw_expiresAt := iw_expiresAt r;
     iw_submittedAt := Some now; iw_updatedAt := now |}.

(** The row of a create. *)
Definition new_intent (i : CreateInput) : IntentRow :=
  {| iw_action := ci_action i; iw_scope := ci_scope i; iw_factsSha256 := ci_factsSha256 i;
     iw_manifestSha256 := ci_manifestSha256 i; iw_manifest := ci_manifest i;
     iw_requiredSender := ci_requiredSender i; iw_network := ci_network i; iw_chainId := ci_chainId i;
     iw_state := it_prepared; iw_stateVersion := 0; iw_txid := None; iw_createdAt := ci_createdAt i;
     iw_expiresAt := ci_expiresAt i; iw_submittedAt := None; iw_updatedAt := ci_createdAt i |}.

(** [transitions] *)
Definition transitions (s : IntentState) : list IntentState :=
  match s with
  | it_prepared => [it_expired; it_superseded; it_failed]
  | it_submitted => [it_mempool; it_confirmed; it_failed; it_reobserve; it_superseded]
  | it_mempool => [it_confirmed; it_failed; it_reobserve; it_superseded]
  | it_confirmed => [it_complete; it_failed; it_reobserve; it_superseded]
  | it_complete => [it_reobserve; it_superseded]
  | it_expired | it_superseded => []
  | it_failed => [it_reobserve; it_superseded]
  | it_reobserve => [it_submitted; it_mempool; it_confirmed; it_complete; it_failed; it_superseded]
  end.

(** ** Operations on intents *)

Section IntentStore.

Context (isUuid : string -> bool) (validateStacksAddress : string -> bool) (sha256 : list Z -> string).

Definition senderSchema (s : string) : bool :=
  (String.length s <=? 500)%nat && validatePrincipal validateStacksAddress s.

Definition txidSchema (s : string) : bool := prefixed_hex is_lower_hex 64 s.

(** [walletIntentRowSchema] on the columns a row might not satisfy. *)
Definition intentRowSchema (id : string) (r : IntentRow) : bool :=
  isUuid id && length_between 1 500 (iw_scope r) && hash64 (iw_factsSha256 r) &&
  hash64 (iw_manifestSha256 r) && senderSchema (iw_requiredSender r) && uint32 (iw_chainId r) &&
  (0 <=? iw_stateVersion r) && match iw_txid r with Some t => txidSchema t | None => true end.

(** [row] *)
Definition row (id : string) : txn (option IntentRow) :=
  _ ← check (isUuid id) intent_schema;
  o ← look (fun d => intents d !! id);
  match o with
  | None => mret None
  | Some r => _ ← check (intentRowSchema id r) intent_schema; mret (Some r)
  end.

(** [mapIntent]: the row and its manifest, whose digest is the recorded one. *)
Definition mapIntent (id : string) (r : IntentRow) : txn (string * IntentRow) :=
  _ ← check (intentRowSchema id r) intent_schema;
  _ ← check (bool_decide (is_Some (canonicalDocument (manifest_json (iw_manifest r)) maximumManifestBytes)))
        document_too_large;
  _ ← check (String.eqb (manifestSha256 sha256 (iw_manifest r)) (iw_manifestSha256 r)) digest_differs;
  mret (id, r).

Fixpoint mapIntents (l : list (string * IntentRow)) : txn (list (string * IntentRow)) :=
  match l with
  | [] => mret []
  | (id, r) :: rest => x ← mapIntent id r; xs ← mapIntents rest; mret (x :: xs)
  end.

Definition in_scope (action : WalletAction) (scope : string) (r : IntentRow) : bool :=
  bool_decide (iw_action r = action) && String.eqb (iw_scope r) scope.

(** ORDER BY created_at ASC, intent_id ASC, and the reverse. *)
Definition created_order (left right : string * IntentRow) : Z :=
  if iw_createdAt left.2 <? iw_createdAt right.2 then -1
  else if iw_createdAt right.2 <? iw_createdAt left.2 then 1
  else code_unit_compare left.1 right.1.
Definition created_desc (left right : string * IntentRow) : Z := created_order right left.

Definition select_intents (order : string * IntentRow -> string * IntentRow -> Z)
    (p : string -> IntentRow -> bool) (d : IntentDb) : list (string * IntentRow) :=
  js_sort order (List.filter (fun '(id, r) => p id r) (map_to_list (intents d))).

(** The newest active intent of a scope. *)
Definition active_of (action : WalletAction) (scope : string) (d : IntentDb) : option (string * IntentRow) :=
  head (select_intents created_desc (fun _ r => in_scope action scope r && is_active r) d).

(** Prepared intents of the scope whose lifetime is over become expired. *)
Definition expire_prepared (action : WalletAction) (scope : string) (now : Z) : txn nat :=
  update_where (fun _ r => in_scope action scope r && bool_decide (iw_state r = it_prepared) &&
                           (iw_expiresAt r <=? now)) (with_state it_expired now).

Definition findActiveScope (action : WalletAction) (scope : string) (now : Z)
    : intent_op (option (string * IntentRow)) := in_transaction (
  _ ← check (length_between 1 500 scope) intent_schema;
  _ ← expire_prepared action scope now;
  o ← look (active_of action scope);
  match o with
  | None => mret None
  | Some (id, r) => x ← mapIntent id r; mret (Some x)
  end).

(** [createInputSchema], the generated or given ID included. *)
Definition createInputSchema (i : CreateInput) : bool :=
  isUuid (ci_id i) && length_between 1 500 (ci_scope i) && hash64 (ci_factsSha256 i) &&
  hash64 (ci_manifestSha256 i) && senderSchema (ci_requiredSender i) && uint32 (ci_chainId i) &&
  (ci_createdAt i <? ci_expiresAt i).

(** [intentMatchesCreate], with the manifest. *)
Definition intentMatchesCreate (r : IntentRow) (i : CreateInput) : bool :=
  bool_decide (iw_action r = ci_action i) && String.eqb (iw_scope r) (ci_scope i) &&
  String.eqb (iw_factsSha256 r) (ci_factsSha256 i) &&
  String.eqb (iw_manifestSha256 r) (ci_manifestSha256 i) &&
  String.eqb (iw_requiredSender r) (ci_requiredSender i) &&
  bool_decide (iw_network r = ci_network i) && (iw_chainId r =? ci_chainId i) &&
  bool_decide (iw_manifest r = ci_manifest i).

(** The conflicting active intent makes way, unless it was submitted. *)
Definition displace (i : CreateInput) (active : string * IntentRow) : txn unit :=
  let '(id, r) := active in
  _ ← check (bool_decide (iw_state r = it_prepared)) active_intent_conflict;
  n ← update_where (fun id' s => String.eqb id' id && bool_decide (iw_state s = it_prepared) &&
                                 (iw_stateVersion s =? iw_stateVersion r))
        (with_state it_superseded (ci_createdAt i));
  check (n =? 1)%nat state_conflict.

Definition insert_created (i : CreateInput) : txn (string * IntentRow * bool) :=
  _ ← insert_intent (ci_id i) (new_intent i);
  o ← row (ci_id i);
  match o with
  | None => throw_txn intent_schema
  | Some r => x ← mapIntent (ci_id i) r; mret (x, true)
  end.

(** [create]: the intent, and whether it is new. *)
Definition create_intent (i : CreateInput) : intent_op (string * IntentRow * bool) := in_transaction (
  _ ← check (createInputSchema i) intent_schema;
  _ ← check (bool_decide (is_Some (canonicalDocument (manifest_json (ci_manifest i)) maximumManifestBytes)))
        document_too_large;
  _ ← check (String.eqb (manifestSha256 sha256 (ci_manifest i)) (ci_manifestSha256 i))
        manifest_sha256_mismatch;
  _ ← expire_prepared (ci_action i) (ci_scope i) (ci_createdAt i);
  sameId ← row (ci_id i);
  match sameId with
  | Some r =>
      if intentMatchesCreate r i then x ← mapIntent (ci_id i) r; mret (x, false)
      else throw_txn active_intent_conflict
  | None =>
      active ← look (active_of (ci_action i) (ci_scope i));
      match active with
      | None => insert_created i
      | Some (id, r) =>
          _ ← check (intentRowSchema id r) intent_schema;
          if intentMatchesCreate r i then x ← mapIntent id r; mret (x, false)
          else _ ← displace i (id, r); insert_created i
      end
  end).

Definition get_intent (id : string) : intent_op (option (string * IntentRow)) := in_transaction (
  o ← row id;
  match o with
  | None => mret None
  | Some r => x ← mapIntent id r; mret (Some x)
  end).

Definition getByTxid (txid : string) : intent_op (option (string * IntentRow)) := in_transaction (
  _ ← check (txidSchema txid) intent_schema;
  o ← look (fun d => head (select_intents created_order (fun _ r => bool_decide (iw_txid r = Some txid)) d));
  match o with
  | None => mret None
  | Some (id, r) => x ← mapIntent id r; mret (Some x)
  end).

(** [SELECT DISTINCT txid]; the query leaves the order open. *)
Definition listOwnedTransactionIds (d : IntentDb) : list string :=
  remove_dups (omap (fun '(_, r) => iw_txid r) (map_to_list (intents d))).

Definition list_where (p : string -> IntentRow -> bool) : intent_op (list (string * IntentRow)) :=
  in_transaction (l ← look (select_intents created_order p); mapIntents l).

Definition listSubmittedScope (action : WalletAction) (scope : string)
    : intent_op (list (string * IntentRow)) :=
  list_where (fun _ r => in_scope action scope r && has_txid r).

Definition listSubmittedEquivalent (action : WalletAction) (scope factsSha256 : string)
    : intent_op (list (string * IntentRow)) :=
  list_where (fun _ r => in_scope action scope r && String.eqb (iw_factsSha256 r) factsSha256 && has_txid r).

(** *** Submission *)

Definition submittable (s : IntentState) : bool := bool_decide (s ∈ [it_prepared; it_expired; it_superseded]).

(** Another intent of the scope that is active. *)
Definition competing (id : string) (r : IntentRow) (id' : string) (s : IntentRow) : bool :=
  negb (String.eqb id' id) && in_scope (iw_action r) (iw_scope r) s && is_active s.

(** A late submission yields to a competitor that was broadcast, and displaces prepared ones. *)
Definition submission_state (id : string) (r : IntentRow) (now : Z) : txn IntentState :=
  if bool_decide (iw_state r ∈ [it_expired; it_superseded])
  then
    rivals ← look (select_intents created_order (competing id r));
    if existsb (fun '(_, s) => negb (bool_decide (iw_state s = it_prepared))) rivals
    then mret it_superseded
    else
      _ ← update_where (fun id' s => negb (String.eqb id' id) && in_scope (iw_action r) (iw_scope r) s &&
                                     bool_decide (iw_state s = it_prepared)) (with_state it_superseded now);
      mret it_submitted
  else mret it_submitted.

Definition submit_intent (id txid : string) (submittedAt : Z) : intent_op (string * IntentRow) := in_transaction (
  _ ← check (isUuid id && txidSchema txid) intent_schema;
  o ← row id;
  match o with
  | None => throw_txn intent_not_found
  | Some r =>
      match iw_txid r with
      | Some t => if String.eqb t txid then mapIntent id r else throw_txn already_submitted
      | None =>
          _ ← check (submittable (iw_state r)) state_conflict;
          duplicate ← look (fun d => existsb (fun '(_, s) => bool_decide (iw_txid s = Some txid))
                                       (map_to_list (intents d)));
          _ ← check (negb duplicate) duplicate_txid;
          state ← submission_state id r submittedAt;
          n ← update_where (fun id' s => String.eqb id' id && submittable (iw_state s) &&
                              (iw_stateVersion s =? iw_stateVersion r) && negb (has_txid s))
                (with_submission state txid submittedAt);
          _ ← check (n =? 1)%nat state_conflict;
          o ← row id;
          match o with None => throw_txn intent_not_found | Some s => mapIntent id s end
      end
  end).

(** *** Transitions *)

Definition transition_intent (id : string) (fromStates : list IntentState) (toState : IntentState)
    (updatedAt : Z) : intent_op (string * IntentRow) := in_transaction (
  _ ← check (isUuid id && negb (bool_decide (fromStates = []))) intent_schema;
  o ← row id;
  match o with
  | None => throw_txn intent_not_found
  | Some r =>
      if bool_decide (iw_state r = toState) then mapIntent id r
      else
        _ ← check (bool_decide (iw_state r ∈ fromStates)) state_conflict;
        _ ← check (bool_decide (toState ∈ transitions (iw_state r))) state_conflict;
        n ← update_where (fun id' s => String.eqb id' id && (iw_stateVersion s =? iw_stateVersion r) &&
                                       bool_decide (iw_state s ∈ fromStates)) (with_state toState updatedAt);
        _ ← check (n =? 1)%nat state_conflict;
        o ← row id;
        match o with None => throw_txn intent_not_found | Some s => mapIntent id s end
  end).

(** The active states an equivalent completion displaces; a complete intent stays. *)
Definition displaceable : list IntentState :=
  [it_prepared; it_submitted; it_mempool; it_confirmed; it_reobserve].

Fixpoint supersede_rows (now : Z) (l : list (string * IntentRow)) : txn unit :=
  match l with
  | [] => mret tt
  | (id, r) :: rest =>
      _ ← check (intentRowSchema id r) intent_schema;
      n ← update_where (fun id' s => String.eqb id' id && bool_decide (iw_state s = iw_state r) &&
                                     (iw_stateVersion s =? iw_stateVersion r)) (with_state it_superseded now);
      _ ← check (n =? 1)%nat state_conflict;
      supersede_rows now rest
  end.

Fixpoint reread (l : list (string * IntentRow)) : txn (list (string * IntentRow)) :=
  match l with
  | [] => mret []
  | (id, _) :: rest =>
      o ← row id;
      match o with
      | None => throw_txn intent_not_found
      | Some s => x ← mapIntent id s; xs ← reread rest; mret (x :: xs)
      end
  end.

Definition supersedeActiveEquivalent (winnerId : string) (updatedAt : Z)
    : intent_op (list (string * IntentRow)) := in_transaction (
  o ← row winnerId;
  match o with
  | None => throw_txn intent_not_found
  | Some w =>
      _ ← check (has_txid w) state_conflict;
      rows ← look (select_intents created_order (fun id r =>
               negb (String.eqb id winnerId) && in_scope (iw_action w) (iw_scope w) r &&
               String.eqb (iw_factsSha256 r) (iw_factsSha256 w) && bool_decide (iw_state r ∈ displaceable)));
      _ ← supersede_rows updatedAt rows;
      reread rows
  end).

(** *** Neighbours of an activity entry *)

Definition other_in_scope (id : string) (r : IntentRow) (before : bool) (id' : string) (s : IntentRow) : bool :=
  in_scope (iw_action r) (iw_scope r) s &&
  (if before then created_order (id', s) (id, r) <? 0 else created_order (id, r) (id', s) <? 0).

(** [listActivityScopeNeighbors], for the requested IDs that exist. *)
Definition activityScopeNeighbors (d : IntentDb) (ids : list string)
    : list (string * (option (string * IntentState) * option (string * IntentState))) :=
  omap (fun id =>
    r ← intents d !! id;
    let pick order before := (fun '(id', s) => (id', iw_state s)) <$>
      head (select_intents order (other_in_scope id r before) d) in
    Some (id, (pick created_desc true, pick created_order false))) (remove_dups ids).

(** ** Observations *)

Definition outcomeText (o : WalletOutcome) : string :=
  match o with
  | oc_submitted => "submitted" | oc_mempool => "mempool" | oc_canonical_success => "canonical-success"
  | oc_complete => "complete" | oc_not_found => "not-found" | oc_noncanonical => "noncanonical"
  | oc_superseded => "superseded" | oc_mismatch => "mismatch" | oc_abort => "abort"
  | oc_unavailable => "unavailable"
  end.

Definition JOptBool (o : option bool) : Json := match o with Some b => JBool b | None => JNull end.
Definition JOptNum (o : option Z) : Json := match o with Some n => JNum n | None => JNull end.

(** The verification as the evidence keeps it, without its execution source. *)
Definition verification_json (v : WalletVerification) : Json :=
  JObj [("outcome", JStr (outcomeText (vf_outcome v)));
        ("observedAt", JStr (toISOString (vf_observedAt v))); ("canonical", JOptBool (vf_canonical v));
        ("blockHeight", JOptNum (vf_blockHeight v)); ("indexBlockHash", JOptStr (vf_indexBlockHash v));
        ("detail", JStr (vf_detail v))].

Definition evidence_json (e : Evidence) : Json :=
  JObj [("schemaVersion", JNum 1); ("verification", verification_json (ev_verification e));
        ("decoded", ev_decoded e)].

(** [/^(?:0x)?[0-9a-f]{256,}$/i] *)
Definition rawHex (s : string) : bool :=
  let digits := if startsWith (toLowerCase s) "0x" then drop 2 (chars s) else chars s in
  (256 <=? List.length digits)%nat && forallb is_hex digits.

Definition rawKey (key : string) : bool :=
  bool_decide (toLowerCase key ∈ ["rawtransaction"; "rawtx"; "signedtransaction"; "signedtx";
                                  "transactionhex"; "txhex"]).

(** [assertNoRawTransactionEvidence] *)
Fixpoint noRawTransactionEvidence (v : Json) : bool :=
  match v with
  | JStr s => negb (rawHex s)
  | JArr l => forallb noRawTransactionEvidence l
  | JObj entries => forallb (fun '(key, item) => negb (rawKey key) && noRawTransactionEvidence item) entries
  | _ => true
  end.

Record AppendInput := {
  ai_id : string;
  ai_intentId : string;
  ai_outcome : WalletOutcome;
  ai_canonical : option bool;
  ai_blockHeight : option Z;
  ai_indexBlockHash : option string;
  ai_evidence : Evidence;
  ai_observedAt : Z;
}.

Definition observation_of (i : AppendInput) : Observation :=
  {| ob_id := ai_id i; ob_intentId := ai_intentId i; ob_outcome := ai_outcome i;
     ob_canonical := ai_canonical i; ob_blockHeight := ai_blockHeight i;
     ob_indexBlockHash := ai_indexBlockHash i; ob_evidence := ai_evidence i;
     ob_observedAt := ai_observedAt i |}.

(** [appendObservationInputSchema] *)
Definition appendInputSchema (i : AppendInput) : bool :=
  isUuid (ai_id i) && isUuid (ai_intentId i) &&
  match ai_blockHeight i with Some h => safe_nonnegative h | None => true end &&
  match ai_indexBlockHash i with Some h => txidSchema h | None => true end &&
  Bool.eqb (if ai_blockHeight i is Some _ then true else false)
           (if ai_indexBlockHash i is Some _ then true else false).

Definition with_observations (l : list Observation) (d : IntentDb) : IntentDb :=
  {| intents := intents d; observations := l |}.

Definition add_observation (o : Observation) : txn unit := fun d =>
  Ok (tt, with_observations (observations d ++ [o]) d).

Definition appendObservation (i : AppendInput) : intent_op Observation := in_transaction (
  _ ← check (appendInputSchema i) intent_schema;
  _ ← check (noRawTransactionEvidence (evidence_json (ai_evidence i))) evidence_rejected;
  _ ← check (bool_decide (is_Some (canonicalDocument (evidence_json (ai_evidence i)) maximumEvidenceBytes)))
        document_too_large;
  o ← row (ai_intentId i);
  _ ← check (if o is Some _ then true else false) intent_not_found;
  existing ← look (fun d => existsb (fun o => String.eqb (ob_id o) (ai_id i)) (observations d));
  _ ← check (negb existing) observation_conflict;
  _ ← add_observation (observation_of i);
  mret (observation_of i)).

(** ORDER BY observed_at DESC, rowid DESC LIMIT 1 *)
Definition newer (acc : option Observation) (o : Observation) : option Observation :=
  match acc with
  | Some b => if ob_observedAt o <? ob_observedAt b then Some b else Some o
  | None => Some o
  end.
Definition latest_of (l : list Observation) : option Observation := fold_left newer l None.

Definition observations_of (id : string) (p : Observation -> bool) (d : IntentDb) : list Observation :=
  List.filter (fun o => String.eqb (ob_intentId o) id && p o) (observations d).

(** ORDER BY observed_at ASC, rowid ASC *)
Definition observed_order (left right : Observation) : Z := ob_observedAt left - ob_observedAt right.
Definition listObservations (id : string) (d : IntentDb) : list Observation :=
  js_sort observed_order (observations_of id (fun _ => true) d).

Definition outcome_in (l : list WalletOutcome) (o : Observation) : bool := bool_decide (ob_outcome o ∈ l).

(** [latestObservation]; an empty list of outcomes does not restrict. *)
Definition latestObservation (id : string) (excludeOutcomes outcomes : list WalletOutcome)
    (d : IntentDb) : option Observation :=
  latest_of (observations_of id (fun o => negb (outcome_in excludeOutcomes o) &&
    (bool_decide (outcomes = []) || outcome_in outcomes o)) d).

(** [listLatestObservationsForActivity] *)
Definition latestObservationsForActivity (ids : list string) (d : IntentDb) : list (string * Observation) :=
  omap (fun id => (fun o => (id, o)) <$> latestObservation id [] [] d) (remove_dups ids).

(** *** Work that awaits an observation *)

(** The outcome a superseded intent is judged by. *)
Definition conclusive (o : Observation) : bool :=
  negb (outcome_in [oc_unavailable] o) &&
  (negb (outcome_in [oc_superseded] o) || bool_decide (ob_canonical o = Some true)).

Definition settled_outcomes : list WalletOutcome :=
  [oc_complete; oc_canonical_success; oc_abort; oc_mismatch; oc_superseded].

Definition awaits (d : IntentDb) (id : string) (r : IntentRow) : bool :=
  has_txid r &&
  (bool_decide (iw_state r ∈ [it_submitted; it_mempool; it_confirmed; it_reobserve]) ||
   (bool_decide (iw_state r = it_superseded) &&
    negb match latest_of (observations_of id conclusive d) with
         | Some o => outcome_in settled_outcomes o
         | None => false
         end)).

(** ORDER BY submitted_at ASC, intent_id ASC *)
Definition submitted_order (left right : string * IntentRow) : Z :=
  let at_ r := match iw_submittedAt r with Some t => t | None => -1 end in
  if at_ left.2 <? at_ right.2 then -1 else if at_ right.2 <? at_ left.2 then 1
  else code_unit_compare left.1 right.1.

Definition listAwaitingObservationIds (d : IntentDb) : list string :=
  fst <$> select_intents submitted_order (awaits d) d.

Definition listAwaitingObservation : intent_op (list (string * IntentRow)) := in_transaction (
  l ← look (fun d => select_intents submitted_order (awaits d) d); mapIntents l).

End IntentStore.
