(* ===== verification/IntentService.v ===== *)
(** * The wallet-intent service

    [WalletIntentService] of apps/sidekick/src/wallet-intent-service.ts: prepare a sealed
    transaction for the operator's wallet, take the ID it was submitted under, and observe it
    until its end, over the store of [IntentStore].

    A method is a [prog]: repository calls and accesses of the service's memory, made without
    interruption, and [Ask]s, where it awaits an answer and other methods may run.  The answers
    are those of the node, of the API and of the reads behind [WalletFacts]. *)

From S2P Require Import Prelude Text CanonicalJson Clarity Principals OperationPlan NakamotoBlock SweepPlan Broadcast LiveReader Recipe Receipt Cadence WalletRequest WalletVerify SignerGrant WalletFacts IntentStore.

Open Scope string_scope.
Open Scope list_scope.
Open Scope Z_scope.

(** ** Results *)

(** A [WalletIntentError], a throw of the repository that is not translated, or any other. *)
Inductive WalletError :=
  | refused (code : WalletErrorCode) (retryable : bool)
  | store_threw (e : StoreError)
  | threw (message : string).

(** [BrowserWalletIntent] *)
Record PublicIntent := {
  pi_manifest : WalletManifest;
  pi_manifestSha256 : string;
  pi_status : IntentState;
  pi_txid : option string;
  pi_verification : option WalletVerification;
}.

(** The classes of repository errors [asIntentError] sees as [WalletIntentRepositoryError]. *)
Definition asIntentError (e : StoreError) : WalletError :=
  match e with
  | intent_schema | intent_sql | document_too_large | digest_differs => store_threw e
  | intent_expired => refused wallet_intent_expired false
  | _ => refused wallet_intent_conflict false
  end.

Definition of_facts {A} (r : facts_result A) : result WalletError A :=
  match r with
  | Ok a => Ok a
  | Err (intent_error code retryable) => Err (refused code retryable)
  | Err uncaught => Err (threw "uncaught")
  end.

(** ** What is awaited *)

(** The engine job a legacy claim is bound to. *)
Record BoundJob := {
  bj_scope : string;
  bj_requiredSender : string;
  bj_factsSha256 : string;
  bj_transaction : WalletTransaction;
  bj_status : string;
}.

(** The runtime clients: the configuration, the network the node reports ([None]: not answered),
    whether a reader can be made, and the legacy job as the engine store holds it. *)
Record ClientsView := {
  cv_network : WalletNetwork;
  cv_expectedNetworkId : option Z;
  cv_nodeNetworkId : option Z;
  cv_reader : bool;
  cv_job : result string BoundJob;
}.

Record ManagerSourceView := { mv_tier : string; mv_provenance : string }.

Inductive Question :=
  | ask_facts (request : WalletRequest)
  | ask_clients (id : string)
  | ask_indexed (txid : string)
  | ask_receipt (txid : string)
  | ask_pending (txid : string)
  | ask_compute_height (contract sender tip : string)
  | ask_manager (contract tip : string)
  | ask_turn
  | ask_join (ticket : nat).

(** What may come back; a lookup that rejects is [None]. *)
Definition Answer (q : Question) : Type :=
  match q with
  | ask_facts _ => FactsReads
  | ask_clients _ => result string ClientsView
  | ask_indexed _ => option (LiveRead IndexedTransaction)
  | ask_receipt _ => ReceiptReads
  | ask_pending _ => option (LiveRead UnconfirmedTransaction)
  | ask_compute_height _ _ _ => option Z
  | ask_manager _ _ => result string ManagerSourceView
  | ask_turn => unit
  | ask_join _ => result WalletError PublicIntent
  end.

(** ** Programs *)

(** The service's memory: the refreshes in flight by intent, what ended ones returned, the
    cadence, and how many IDs were drawn. *)
Record Memory := {
  mm_refreshes : gmap string nat;
  mm_outcomes : gmap nat (result WalletError PublicIntent);
  mm_tickets : nat;
  mm_cadence : Cadence;
  mm_drawn : nat;
}.

Inductive prog (A : Type) : Type :=
  | Done (r : result WalletError A)
  | Store {X : Type} (op : intent_op X) (k : result StoreError X -> prog A)
  | Remember {X : Type} (f : Memory -> X * Memory) (k : X -> prog A)
  | Ask (q : Question) (k : Answer q -> prog A).
Arguments Done {A}.
Arguments Store {A X}.
Arguments Remember {A X}.
Arguments Ask {A}.

(** Sequencing on the result, a throw included. *)
Fixpoint after {A B} (m : prog A) (k : result WalletError A -> prog B) : prog B :=
  match m with
  | Done r => k r
  | Store op j => Store op (fun x => after (j x) k)
  | Remember f j => Remember f (fun x => after (j x) k)
  | Ask q j => Ask q (fun x => after (j x) k)
  end.

#[global] Instance prog_ret : MRet prog := fun A a => Done (Ok a).
#[global] Instance prog_bind : MBind prog := fun A B k m =>
  after m (fun r => match r with Ok a => k a | Err e => Done (Err e) end).

Definition throw_prog {A} (e : WalletError) : prog A := Done (Err e).
Definition conflict_if (b : bool) : prog unit :=
  if b then throw_prog (refused wallet_intent_conflict false) else mret tt.
Definition try_catch {A} (m : prog A) (h : WalletError -> prog A) : prog A :=
  after m (fun r => match r with Ok a => mret a | Err e => h e end).
Definition of_result {A} (r : result WalletError A) : prog A := Done r.

(** A repository call whose throw is passed on as it is, or as an intent error. *)
Definition db {X} (op : intent_op X) : prog X :=
  Store op (fun r => match r with Ok x => mret x | Err e => throw_prog (store_threw e) end).
(** [catch (error) { return asIntentError(error) }] *)
Definition as_intent {A} (m : prog A) : prog A :=
  try_catch m (fun e => match e with store_threw e => throw_prog (asIntentError e) | _ => throw_prog e end).
Definition db_intent {X} (op : intent_op X) : prog X := as_intent (db op).
Definition query {X} (f : IntentDb -> X) : prog X := db (fun d => (Ok (f d), d)).

Definition ask (q : Question) : prog (Answer q) := Ask q (fun a => mret a).

(** [await] of a method: it gives the turn away once more. *)
Definition await {A} (m : prog A) : prog A :=
  after m (fun r => Ask ask_turn (fun _ => of_result r)).

Definition with_refreshes (f : gmap string nat -> gmap string nat) (m : Memory) : Memory :=
  {| mm_refreshes := f (mm_refreshes m); mm_outcomes := mm_outcomes m; mm_tickets := mm_tickets m;
     mm_cadence := mm_cadence m; mm_drawn := mm_drawn m |}.
Definition with_cadence (f : Cadence -> Cadence) (m : Memory) : Memory :=
  {| mm_refreshes := mm_refreshes m; mm_outcomes := mm_outcomes m; mm_tickets := mm_tickets m;
     mm_cadence := f (mm_cadence m); mm_drawn := mm_drawn m |}.

(** A refresh starts: its ticket. *)
Definition begin_refresh (id : string) (m : Memory) : nat * Memory :=
  (mm_tickets m,
   {| mm_refreshes := <[id := mm_tickets m]> (mm_refreshes m); mm_outcomes := mm_outcomes m;
      mm_tickets := S (mm_tickets m); mm_cadence := mm_cadence m; mm_drawn := mm_drawn m |}).

(** [finally]: the cadence, and the refresh is no longer in flight. *)
Definition end_refresh (id : string) (ticket : nat) (retryLater : bool) (now : Z)
    (r : result WalletError PublicIntent) (m : Memory) : unit * Memory :=
  (tt, {| mm_refreshes := delete id (mm_refreshes m); mm_outcomes := <[ticket := r]> (mm_outcomes m);
          mm_tickets := mm_tickets m; mm_cadence := record (mm_cadence m) id retryLater now None;
          mm_drawn := mm_drawn m |}).

Definition draw (m : Memory) : nat * Memory :=
  (mm_drawn m, {| mm_refreshes := mm_refreshes m; mm_outcomes := mm_outcomes m; mm_tickets := mm_tickets m;
                  mm_cadence := mm_cadence m; mm_drawn := S (mm_drawn m) |}).

Definition remember {X} (f : Memory -> X * Memory) : prog X := Remember f (fun x => mret x).

(** ** Constants and texts *)

Definition intentLifetimeMs : Z := 15 * 60 * 1000.
Definition replacementGraceMs : Z := 15 * 60 * 1000.

Definition historicalScopeBlockers : list WalletOutcome :=
  [oc_submitted; oc_mempool; oc_canonical_success; oc_complete; oc_unavailable].

Definition executionSourceText (s : ExecutionSource) : string :=
  match s with Recipe.node => "node" | api_with_node => "api-with-node" | api => "api" end.

(** [transactionExecutionSourceSchema] *)
Definition executionSourceOf (v : Json) : option ExecutionSource :=
  match v with
  | JStr "node" => Some Recipe.node
  | JStr "api-with-node" => Some api_with_node
  | JStr "api" => Some api
  | _ => None
  end.

Definition unavailableText (r : LiveReader.UnavailableReason) : string :=
  match r with
  | read_timeout => "timeout" | read_connection_reset => "connection-reset"
  | read_transport_error => "transport-error" | response_read_error => "response-read-error"
  | http_error => "http-error" | transaction_index_unavailable => "transaction-index-unavailable"
  end.

Definition schemaText (r : SchemaReason) : string :=
  match r with
  | body_too_large => "body-too-large" | invalid_utf8 => "invalid-utf8"
  | unexpected_content_type => "unexpected-content-type" | invalid_json => "invalid-json"
  | unexpected_response => "unexpected-response" | invalid_transaction => "invalid-transaction"
  | transaction_mismatch => "transaction-mismatch"
  end.

(** [pending?.reason ?? "lookup failed"] *)
Definition lookupReason {A} (lookup : option (LiveRead A)) : string :=
  match lookup with
  | Some (lr_unavailable _ r) => unavailableText r
  | Some (lr_schema_invalid _ r) => schemaText r
  | _ => "lookup failed"
  end.

Definition mismatchMessage (reason : string) : string :=
  ("The submitted transaction does not match the prepared request (" ++ reason ++
   "). Do not retry it; prepare a new transaction.")%string.

(** An observation without chain coordinates. *)
Definition plain_verification (outcome : WalletOutcome) (observedAt : Z) (detail : string) : WalletVerification :=
  {| vf_outcome := outcome; vf_observedAt := observedAt; vf_canonical := None; vf_blockHeight := None;
     vf_indexBlockHash := None; vf_detail := detail; vf_executionSource := None |}.

Definition canonical_verification (outcome : WalletOutcome) (source : ExecutionSource) (observedAt : Z)
    (blockHeight : Z) (indexBlockHash detail : string) : WalletVerification :=
  {| vf_outcome := outcome; vf_observedAt := observedAt; vf_canonical := Some true;
     vf_blockHeight := Some blockHeight; vf_indexBlockHash := Some indexBlockHash; vf_detail := detail;
     vf_executionSource := Some source |}.

(** ** Evidence *)

Definition with_source (s : option ExecutionSource) (v : WalletVerification) : WalletVerification :=
  {| vf_outcome := vf_outcome v; vf_observedAt := vf_observedAt v; vf_canonical := vf_canonical v;
     vf_blockHeight := vf_blockHeight v; vf_indexBlockHash := vf_indexBlockHash v;
     vf_detail := vf_detail v; vf_executionSource := s |}.

(** The decoded part, with the execution source of the verification. *)
Definition retainedDecoded (source : option ExecutionSource) (decoded : Json) : Json :=
  match source, decoded with
  | Some s, JObj entries => JObj (entries ++ [("executionSource", JStr (executionSourceText s))])
  | _, _ => decoded
  end.

(** [observationEvidenceSchema]: the source comes back from the decoded part. *)
Definition readEvidence (e : Evidence) : option WalletVerification :=
  if walletVerificationSchema (ev_verification e)
  then Some match ev_decoded e with
            | JObj entries =>
                match field "executionSource" entries ≫= executionSourceOf with
                | Some s => with_source (Some s) (ev_verification e)
                | None => ev_verification e
                end
            | _ => ev_verification e
            end
  else None.

Definition fingerprint_json (v : WalletVerification) (decoded : Json) : Json :=
  JObj [("outcome", JStr (outcomeText (vf_outcome v))); ("canonical", JOptBool (vf_canonical v));
        ("blockHeight", JOptNum (vf_blockHeight v)); ("indexBlockHash", JOptStr (vf_indexBlockHash v));
        ("detail", JStr (vf_detail v));
        ("executionSource", JOptStr (executionSourceText <$> vf_executionSource v)); ("decoded", decoded)].

(** ** The service *)

(** The code the service calls that is not part of the program: identifiers, addresses, the
    codec and signature library, hashing, and the texts of errors. *)
Class IntentLibrary := {
  isUuid : string -> bool;
  validateStacksAddress : string -> bool;
  lib : RewardReads.ClarityLibrary;
  bufferCV : list Z -> ClarityValue;
  settle : string -> list RewardReads.Thrown -> RewardReads.Thrown;
  sha256 : list Z -> string;
  postConditionToHex : PostCondition -> string;
  verifySignature : string -> string -> string -> bool;
  publicKeyFromSignatureRsv : string -> string -> option string;
  deserializeTransaction : string -> option SignedWalletTransaction;
  addressFromVersionHash : AddressVersion -> string -> string;
  readTransaction : list Z -> option (BlockTx * nat);
  randomUUID : nat -> string;
  messageOf : WalletError -> string;
  receiptReason : ReceiptReads -> string;
}.

Section IntentService.

Context {W : IntentLibrary}.

#[local] Abbreviation Stored := (string * IntentRow)%type.
#[local] Abbreviation get := (get_intent isUuid validateStacksAddress sha256).
#[local] Abbreviation digest := (canonicalJsonSha256 sha256).

Definition facts_from (reads : FactsReads) (request : WalletRequest) : prog AuthoritativeFacts :=
  of_result (of_facts (authoritativeFacts validateStacksAddress lib bufferCV settle sha256
    postConditionToHex verifySignature publicKeyFromSignatureRsv reads request)).

Definition freshFacts (request : WalletRequest) : prog AuthoritativeFacts :=
  reads ← ask (ask_facts request); facts_from reads request.

(** [authoritativeSha256] *)
Definition authoritativeSha256 (f : AuthoritativeFacts) : string :=
  digest (JObj [("scope", JStr (af_scope f)); ("facts", af_facts f);
                ("requiredSender", JStr (af_requiredSender f));
                ("network", JStr (walletNetworkText (af_network f))); ("chainId", JNum (af_chainId f));
                ("transaction", transaction_json (af_transaction f)); ("review", review_json (af_review f))]).

(** ** Stored intents *)

Definition requireStored (id : string) : prog Stored :=
  o ← db (get id);
  match o with Some s => mret s | None => throw_prog (refused wallet_intent_not_found false) end.

(** [parseStoredManifest]: its integrity check. *)
Definition manifest_intact (s : Stored) : bool :=
  let m := iw_manifest s.2 in
  storedManifestSchema isUuid m && String.eqb (mf_id m) s.1 &&
  bool_decide (mf_action m = iw_action s.2) && String.eqb (mf_factsSha256 m) (iw_factsSha256 s.2) &&
  String.eqb (manifestSha256 sha256 m) (iw_manifestSha256 s.2).

Definition parseStoredManifest (s : Stored) : prog WalletManifest :=
  if manifest_intact s then mret (iw_manifest s.2)
  else throw_prog (refused wallet_intent_invalid false).

Definition transition (s : Stored) (state : IntentState) (observedAt : Z) : prog Stored :=
  if bool_decide (iw_state s.2 = state) then mret s
  else db_intent (transition_intent isUuid validateStacksAddress sha256 s.1 [iw_state s.2] state observedAt).

Definition toConfirmed (s : Stored) (observedAt : Z) : prog Stored :=
  current ← (if bool_decide (iw_state s.2 = it_failed) then transition s it_reobserve observedAt else mret s);
  transition current it_confirmed observedAt.

Definition toFailed (s : Stored) (observedAt : Z) : prog Stored :=
  current ← (if bool_decide (iw_state s.2 = it_complete) then transition s it_reobserve observedAt else mret s);
  transition current it_failed observedAt.

(** ** Observations *)

Definition latest (id : string) (excludeOutcomes outcomes : list WalletOutcome) : prog (option Observation) :=
  query (latestObservation id excludeOutcomes outcomes).

(** The observation says the same as the latest one. *)
Definition repeats (previous : option Observation) (v : WalletVerification) (retained : Json) : bool :=
  match previous with
  | Some o =>
      match readEvidence (ob_evidence o) with
      | Some p => String.eqb (digest (fingerprint_json p (ev_decoded (ob_evidence o))))
                             (digest (fingerprint_json v retained))
      | None => false
      end
  | None => false
  end.

Definition recordObservation (s : Stored) (v : WalletVerification) (decoded : Json) : prog unit :=
  let retained := retainedDecoded (vf_executionSource v) decoded in
  previous ← latest s.1 [] [];
  if repeats previous v retained then mret tt
  else
    n ← remember draw;
    _ ← db (appendObservation isUuid validateStacksAddress
          {| ai_id := randomUUID n; ai_intentId := s.1; ai_outcome := vf_outcome v;
             ai_canonical := vf_canonical v; ai_blockHeight := vf_blockHeight v;
             ai_indexBlockHash := vf_indexBlockHash v;
             ai_evidence := {| ev_verification := with_source None v; ev_decoded := retained |};
             ai_observedAt := vf_observedAt v |});
    mret tt.

Definition recordPlain (s : Stored) (outcome : WalletOutcome) (observedAt : Z) (detail : string) : prog unit :=
  recordObservation s (plain_verification outcome observedAt detail) JNull.

Definition recordUnavailable (s : Stored) (observedAt : Z) (detail : string) : prog unit :=
  recordPlain s oc_unavailable observedAt detail.

(** The intent gives way: its state and an observation of the reason. *)
Definition supersede (s : Stored) (observedAt : Z) (detail : string) : prog Stored :=
  superseded ← transition s it_superseded observedAt;
  _ ← recordPlain superseded oc_superseded observedAt detail;
  mret superseded.

Definition retireFailedIntent (s : Stored) (observedAt : Z) : prog Stored :=
  supersede s observedAt "Failed transaction retired before preparing a replacement".

Definition latestVerification (id : string) : prog (option WalletVerification) :=
  o ← latest id [] [];
  mret (o ≫= fun o => readEvidence (ob_evidence o)).

Definition canonical_success (outcomes : list WalletOutcome) (o : Observation) : bool :=
  outcome_in outcomes o && bool_decide (ob_canonical o = Some true) &&
  match readEvidence (ob_evidence o) with
  | Some v => bool_decide (vf_outcome v ∈ outcomes) && bool_decide (vf_canonical v = Some true)
  | None => false
  end.

Definition hasCanonicalExecution (id : string) (action : WalletAction) : prog bool :=
  observation ← latest id [oc_superseded] [];
  match observation with
  | None => mret false
  | Some o =>
      if negb (canonical_success [oc_complete; oc_canonical_success] o) then mret false
      else if outcome_in [oc_complete] o || bool_decide (action ∈ [wa_withdraw_fees; wa_sweep_fee_refunds])
      then mret true
      else
        all ← query (listObservations id);
        mret (existsb (canonical_success [oc_complete]) all)
  end.

(** [publicIntent] *)
Definition publicIntent (s : Stored) : prog PublicIntent :=
  manifest ← parseStoredManifest s;
  latest_observation ← latest s.1 [] [];
  prior ← (if bool_decide (iw_state s.2 ∈ [it_superseded; it_complete; it_failed]) &&
              match latest_observation with Some o => outcome_in [oc_unavailable] o | None => false end
           then latest s.1 [oc_unavailable] [] else mret None);
  let effective := match prior with
                   | Some o => if outcome_in [oc_complete; oc_abort; oc_mismatch] o then Some o
                               else latest_observation
                   | None => latest_observation
                   end in
  let verification := effective ≫= fun o => readEvidence (ob_evidence o) in
  mret {| pi_manifest := manifest; pi_manifestSha256 := iw_manifestSha256 s.2;
          pi_status := if bool_decide (iw_state s.2 = it_superseded) &&
                          bool_decide (vf_outcome <$> verification = Some oc_complete)
                       then it_complete else iw_state s.2;
          pi_txid := iw_txid s.2; pi_verification := verification |}.

Definition getIntent (id : string) : prog PublicIntent := s ← requireStored id; publicIntent s.

(** ** Verification of observed bytes *)

Definition networkOf (m : WalletManifest) : prog WalletBindingNetwork :=
  match createWalletTransactionNetworkBinding (mf_network m) (mf_chainId m) with
  | Some n => mret n
  | None => throw_prog (threw "chain ID")
  end.

Definition storedTxid (s : Stored) : string := default "" (iw_txid s.2).

(** [verifyObserved]; a mismatch fails the intent and is recorded. *)
Definition verifyObserved (s : Stored) (m : WalletManifest) (transactionHex : string) (observedAt : Z)
    : prog (option VerifiedWalletTransaction) :=
  network ← networkOf m;
  match verifyWalletTransactionHex deserializeTransaction addressFromVersionHash
          (RewardReads.cl_cvToHex lib) sha256 (storedTxid s) (mf_requiredSender m) (mf_transaction m)
          transactionHex network with
  | Ok v => mret (Some v)
  | Err reason =>
      next ← (if bool_decide (iw_state s.2 = it_superseded) then mret s else toFailed s observedAt);
      _ ← recordPlain next oc_mismatch observedAt (mismatchMessage reason);
      mret None
  end.

(** [persistedMempoolVerification] *)
Definition persistedMempoolVerification (s : Stored) (m : WalletManifest)
    : prog (option VerifiedWalletTransaction) :=
  observation ← latest s.1 [] [oc_mempool];
  match observation with
  | None => mret None
  | Some o =>
      if negb (String.eqb (ob_intentId o) s.1 && outcome_in [oc_mempool] o &&
               bool_decide (ob_canonical o = None)) then mret None
      else
        match readEvidence (ob_evidence o) with
        | None => mret None
        | Some v =>
            if negb (bool_decide (vf_outcome v = oc_mempool) && bool_decide (vf_canonical v = None))
            then mret None
            else
              network ← networkOf m;
              mret (readPersistedWalletVerification sha256 (ev_decoded (ob_evidence o)) (storedTxid s)
                      (mf_requiredSender m) (mf_transaction m) network)
        end
  end.

Definition refreshPending (s : Stored) (m : WalletManifest) (pending : UnconfirmedTransaction) (observedAt : Z)
    : prog PublicIntent :=
  decoded ← verifyObserved s m (ot_transactionHex (un_transaction pending)) observedAt;
  match decoded with
  | None => current ← requireStored s.1; publicIntent current
  | Some v =>
      next ← (if bool_decide (iw_state s.2 = it_superseded) then mret s
              else
                back ← (if bool_decide (iw_state s.2 ∈ [it_confirmed; it_complete; it_failed])
                        then transition s it_reobserve observedAt else mret s);
                transition back it_mempool observedAt);
      _ ← recordObservation next (plain_verification oc_mempool observedAt
            (match un_location pending with
             | in_mempool => "Transaction is pending in the node mempool"
             | in_microblock _ _ => "Transaction is pending in a microblock"
             end)) (verified_json v);
      publicIntent next
  end.

(** ** Executed transactions *)

(** What an indexed transaction or a receipt says. *)
Record ExecutedView := {
  xv_isCanonical : bool;
  xv_blockHeight : option Z;
  xv_indexBlockHash : string;
  xv_resultRepr : string;
}.

Definition safeHeight (n : Z) : bool := (- (2 ^ 53 - 1) <=? n) && (n <=? 2 ^ 53 - 1).

Definition noncanonical_verification (observedAt : Z) (blockHeight : option Z) (indexBlockHash detail : string)
    : WalletVerification :=
  {| vf_outcome := oc_noncanonical; vf_observedAt := observedAt; vf_canonical := Some false;
     vf_blockHeight := blockHeight;
     vf_indexBlockHash := match blockHeight with Some _ => Some indexBlockHash | None => None end;
     vf_detail := detail; vf_executionSource := None |}.

Definition reobserve (s : Stored) (observedAt : Z) : prog Stored :=
  if bool_decide (iw_state s.2 = it_superseded) then mret s else transition s it_reobserve observedAt.

Definition recordNoncanonical (s : Stored) (x : ExecutedView) (v : VerifiedWalletTransaction) (observedAt : Z)
    : prog PublicIntent :=
  next ← reobserve s observedAt;
  let safe := match xv_blockHeight x with Some h => if safeHeight h then Some h else None | None => None end in
  _ ← recordObservation next (noncanonical_verification observedAt safe (xv_indexBlockHash x)
        "The transaction is no longer canonical. Sidekick will keep checking") (verified_json v);
  publicIntent next.

(** A failed execution: another caller's completed calculation, or an abort. *)
Definition recordFailure (s : Stored) (m : WalletManifest) (x : ExecutedView) (height : Z)
    (v : VerifiedWalletTransaction) (observedAt : Z) (source : ExecutionSource) : prog PublicIntent :=
  let observed outcome detail :=
    canonical_verification outcome source observedAt height (xv_indexBlockHash x) detail in
  completed ← match mf_action m, mf_binding m with
              | wa_calculate_rewards, Some b =>
                  h ← ask (ask_compute_height (bi_pox5ContractId b) (mf_requiredSender m) (xv_indexBlockHash x));
                  mret (match h with Some n => bi_expectedLastRewardComputeBurnHeight b <=? n | None => false end)
              | _, _ => mret false
              end;
  if completed : bool then
    next ← (if bool_decide (iw_state s.2 = it_superseded) then mret s else transition s it_superseded observedAt);
    _ ← recordObservation next (observed oc_superseded
          "Another permissionless caller completed this reward calculation before the submitted transaction executed")
          (verified_json v);
    publicIntent next
  else
    next ← (if bool_decide (iw_state s.2 = it_superseded) then mret s else toFailed s observedAt);
    _ ← recordObservation next (observed oc_abort
          "Transaction failed on-chain. Prepare a new transaction if the action is still needed")
          (verified_json v);
    publicIntent next.

(** The sealed manager claim of a legacy engine job. *)
Definition job_bound (s : Stored) (m : WalletManifest) (j : BoundJob) : bool :=
  String.eqb (bj_scope j) (iw_scope s.2) && String.eqb (bj_requiredSender j) (iw_requiredSender s.2) &&
  String.eqb (bj_factsSha256 j) (iw_factsSha256 s.2) &&
  String.eqb (digest (transaction_json (bj_transaction j))) (digest (transaction_json (mf_transaction m))).

(** Whether the executed transaction completed its action, and whether only the custom manager's
    state is unattested; or that its legacy job was superseded. *)
Inductive Completion := judged (complete unattested : bool) | job_superseded.

Definition completionOf (s : Stored) (m : WalletManifest) (x : ExecutedView) (v : VerifiedWalletTransaction)
    (clients : ClientsView) : prog Completion :=
  let invalid := throw_prog (refused wallet_intent_invalid false) in
  match mf_action m with
  | wa_calculate_rewards =>
      match mf_binding m with
      | Some b =>
          if String.eqb (bi_pox5ContractId b) (wt_contract (mf_transaction m))
          then mret (judged (calculationResultMatchesTarget (xv_resultRepr x)
                               (bigint_toString (bi_targetRewardCycle b))
                               (bi_expectedLastRewardComputeBurnHeight b)) false)
          else invalid
      | None => invalid
      end
  | wa_claim_rewards =>
      match mf_request m with
      | rq_claim_rewards _ (Some _) =>
          match cv_job clients with
          | Err message => throw_prog (threw message)
          | Ok j =>
              if negb (job_bound s m j) then throw_prog (refused wallet_transaction_mismatch false)
              else if String.eqb (bj_status j) "superseded" then mret job_superseded
              else mret (judged (String.eqb (bj_status j) "complete") false)
          end
      | rq_claim_rewards _ None => mret (judged (vw_postConditionCount v =? 1) false)
      | _ => invalid
      end
  | wa_register_self | wa_add_admin | wa_remove_admin | wa_update_fees | wa_claim_staker_rewards =>
      mret (judged true false)
  | wa_withdraw_fees | wa_sweep_fee_refunds =>
      answer ← ask (ask_manager (wt_contract (mf_transaction m)) (xv_indexBlockHash x));
      match answer with
      | Err message => throw_prog (threw message)
      | Ok manager =>
          let reference :=
            (String.eqb (mv_tier manager) "reference-built-in" && String.eqb (mv_provenance manager) "built-in") ||
            (String.eqb (mv_tier manager) "reference-render" && String.eqb (mv_provenance manager) "verified") in
          mret (judged ((vw_postConditionCount v =? 1) && reference) (negb reference))
      end
  end.

Definition completionDetail (m : WalletManifest) (x : ExecutedView) (v : VerifiedWalletTransaction)
    (complete unattested : bool) : string :=
  if complete then "Exact transaction and canonical execution verified"
  else if bool_decide (mf_action m = wa_calculate_rewards)
  then ("The calculation receipt does not match the sealed cycle and checkpoint: " ++ xv_resultRepr x)%string
  else if unattested && (vw_postConditionCount v =? 1)
  then "Transaction and exact asset transfer verified. Sidekick cannot attest the custom manager's resulting state"
  else "Transaction confirmed. Waiting for the expected on-chain state".

(** The successful part of [refreshVerified], inside its [try]. *)
Definition recordSuccess (s : Stored) (m : WalletManifest) (x : ExecutedView) (height : Z)
    (v : VerifiedWalletTransaction) (observedAt : Z) (clients : ClientsView) (source : ExecutionSource)
    : prog PublicIntent :=
  let observed outcome detail :=
    canonical_verification outcome source observedAt height (xv_indexBlockHash x) detail in
  next ← (if bool_decide (iw_state s.2 ∈ [it_complete; it_superseded]) then mret s else toConfirmed s observedAt);
  completion ← completionOf s m x v clients;
  match completion with
  | job_superseded =>
      next ← (if bool_decide (iw_state next.2 = it_superseded) then mret next
              else transition next it_superseded observedAt);
      _ ← recordObservation next (observed oc_superseded
            "Transaction confirmed, but its claim job was superseded. Refresh Operations") (verified_json v);
      publicIntent next
  | judged complete unattested =>
      next ← (if complete && negb (bool_decide (iw_state next.2 ∈ [it_complete; it_superseded]))
              then transition next it_complete observedAt else mret next);
      _ ← recordObservation next (observed (if complete then oc_complete else oc_canonical_success)
            (completionDetail m x v complete unattested)) (verified_json v);
      publicIntent next
  end.

Definition refreshVerified (s : Stored) (m : WalletManifest) (x : ExecutedView)
    (v : VerifiedWalletTransaction) (observedAt : Z) (clients : ClientsView) (executionSucceeded : bool)
    (source : ExecutionSource) : prog PublicIntent :=
  if negb (xv_isCanonical x) then recordNoncanonical s x v observedAt
  else
    match xv_blockHeight x with
    | None =>
        _ ← recordUnavailable s observedAt
              "The confirmed transaction has no anchored block height. Sidekick will retry";
        publicIntent s
    | Some height =>
        if negb (safeHeight height) then
          _ ← recordUnavailable s observedAt "Indexed block height is outside the safe range";
          publicIntent s
        else if negb executionSucceeded then recordFailure s m x height v observedAt source
        else
          try_catch (recordSuccess s m x height v observedAt clients source)
            (fun e =>
               current ← requireStored s.1;
               _ ← recordObservation current
                     (canonical_verification oc_canonical_success source observedAt height
                        (xv_indexBlockHash x)
                        ("Canonical execution verified; additional action verification is unavailable: " ++
                         messageOf e ++ ". Sidekick will retry")%string) (verified_json v);
               publicIntent current)
    end.

Definition executed_of (t : IndexedTransaction) : ExecutedView :=
  {| xv_isCanonical := it_isCanonical t; xv_blockHeight := it_blockHeight t;
     xv_indexBlockHash := it_indexBlockHash t; xv_resultRepr := it_resultRepr t |}.

Definition refreshIndexed (s : Stored) (m : WalletManifest) (t : IndexedTransaction) (observedAt : Z)
    (clients : ClientsView) : prog PublicIntent :=
  decoded ← verifyObserved s m (ot_transactionHex (it_transaction t)) observedAt;
  match decoded with
  | None => current ← requireStored s.1; publicIntent current
  | Some v =>
      await (refreshVerified s m (executed_of t) v observedAt clients
               (startsWith (trimStart (it_resultRepr t)) "(ok") Recipe.node)
  end.

(** [refreshIndexedFromApi]: the refreshed intent, why it is unavailable, or nothing. *)
Inductive ApiFallback := fallback_intent (p : PublicIntent) | fallback_unavailable (detail : string) | no_fallback.

Definition refreshIndexedFromApi (s : Stored) (m : WalletManifest) (observedAt : Z) (clients : ClientsView)
    : prog ApiFallback :=
  persisted ← persistedMempoolVerification s m;
  conclusion ← latest s.1 [] [oc_noncanonical; oc_mismatch; oc_canonical_success; oc_complete; oc_abort];
  let conflicted := match conclusion with
                    | Some o => outcome_in [oc_noncanonical; oc_mismatch] o | None => false end in
  reads ← ask (ask_receipt (storedTxid s));
  match lookupCanonicalApiTransaction readTransaction reads (mf_chainId m) (storedTxid s)
          (bool_decide (is_Some persisted) && negb conflicted) with
  | al_not_found => mret no_fallback
  | al_unavailable _ =>
      mret (fallback_unavailable ("Configured API transaction verification is unavailable: " ++
                                  receiptReason reads ++ ". Sidekick will retry")%string)
  | al_conflict reorged blockHeight indexBlockHash =>
      next ← reobserve s observedAt;
      _ ← recordObservation next (noncanonical_verification observedAt (Some blockHeight) indexBlockHash
            ("Canonical transaction conflict: " ++ (if reorged then "reorged" else "absent") ++
             ". Sidekick will keep checking; do not repeat the transaction")%string) JNull;
      p ← publicIntent next;
      mret (fallback_intent p)
  | al_observed r =>
      decoded ← match ap_transactionHex r with
                | None => mret persisted
                | Some hex => verifyObserved s m hex observedAt
                end;
      match decoded with
      | None =>
          match ap_transactionHex r with
          | Some _ => current ← requireStored s.1; p ← publicIntent current; mret (fallback_intent p)
          | None =>
              _ ← recordUnavailable s observedAt "Exact wallet transaction verification is unavailable";
              p ← publicIntent s; mret (fallback_intent p)
          end
      | Some v =>
          p ← await (refreshVerified s m
                {| xv_isCanonical := true; xv_blockHeight := Some (ap_blockHeight r);
                   xv_indexBlockHash := ap_indexBlockHash r; xv_resultRepr := ap_resultRepr r |}
                v observedAt clients (ap_success r) (ap_source r));
          mret (fallback_intent p)
      end
  end.

(** ** Observation *)

(** The facts of a prepared intent are still the sealed ones. *)
Definition facts_unchanged (s : Stored) (m : WalletManifest) (f : AuthoritativeFacts) : bool :=
  String.eqb (af_scope f) (iw_scope s.2) && String.eqb (af_requiredSender f) (iw_requiredSender s.2) &&
  String.eqb (digest (af_facts f)) (iw_factsSha256 s.2) &&
  String.eqb (digest (transaction_json (af_transaction f))) (digest (transaction_json (mf_transaction m))) &&
  String.eqb (digest (optional_binding_json (af_binding f))) (digest (optional_binding_json (mf_binding m))).

(** A prepared intent is checked again; [Some] ends the observation. *)
Definition observePrepared (s : Stored) (m : WalletManifest) (observedAt : Z) : prog (option PublicIntent) :=
  if negb (bool_decide (iw_state s.2 = it_prepared)) then mret None
  else if iw_expiresAt s.2 <=? observedAt then
    expired ← transition s it_expired observedAt; p ← publicIntent expired; mret (Some p)
  else
    reads ← ask (ask_facts (mf_request m));
    match authoritativeFacts validateStacksAddress lib bufferCV settle sha256 postConditionToHex
            verifySignature publicKeyFromSignatureRsv reads (mf_request m) with
    | Err uncaught => throw_prog (threw "uncaught")
    | Err (intent_error _ _) =>
        superseded ← supersede s observedAt "Operation state changed. Prepare a new transaction";
        p ← publicIntent superseded; mret (Some p)
    | Ok f =>
        if facts_unchanged s m f then mret None
        else
          superseded ← supersede s observedAt
            "Operation state changed before signing. Prepare a new transaction";
          p ← publicIntent superseded; mret (Some p)
    end.

(** [assertCurrentNetworkRouting]: [Err] is the message of the throw. *)
Definition networkRouting (m : WalletManifest) (view : ClientsView) : result string unit :=
  match walletNetwork (cv_network view) (cv_expectedNetworkId view) with
  | None => Err "Wallet transaction chain ID must be a uint32"
  | Some n =>
      if negb (bool_decide (wb_network n = mf_network m) && (wb_chainId n =? mf_chainId m))
      then Err "Sidekick's configured network changed. Prepare a new transaction"
      else match cv_nodeNetworkId view with
           | Some id => if id =? mf_chainId m then Ok tt
                        else Err "The local node no longer matches this transaction's network. Check Settings, then retry"
           | None => Ok tt
           end
  end.

(** The clients of an observation, on the sealed network. *)
Definition routedClients (m : WalletManifest) (answer : result string ClientsView) : result string ClientsView :=
  match answer with
  | Err message => Err message
  | Ok view => match networkRouting m view with Ok _ => Ok view | Err message => Err message end
  end.

(** Neither source shows the transaction. *)
Definition observeMissing (s : Stored) (observedAt : Z) : prog PublicIntent :=
  if bool_decide (iw_state s.2 ∈ [it_complete; it_failed]) then
    _ ← recordUnavailable s observedAt
          "Previously observed transaction is not currently available from the sources. Its terminal result is retained until contradictory evidence is observed";
    publicIntent s
  else
    next ← (if bool_decide (iw_state s.2 ∈ [it_submitted; it_mempool; it_confirmed])
            then transition s it_reobserve observedAt else mret s);
    _ ← recordPlain next oc_not_found observedAt
          "Transaction is not visible in pending or confirmed node state. Wait and retry; replacement is available after 15 minutes";
    publicIntent next.

(** The transaction was not seen pending either, or not at all. *)
Definition observeUnseen (s : Stored) (indexed : option (LiveRead IndexedTransaction)) (fallback : ApiFallback)
    (pending : option (LiveRead UnconfirmedTransaction)) (observedAt : Z) : prog PublicIntent :=
  let cannot := match indexed with Some l => transactionIndexCannotAnswer l | None => false end in
  match fallback, cannot with
  | no_fallback, true =>
      match pending with
      | Some lr_not_found => observeMissing s observedAt
      | _ =>
          _ ← recordUnavailable s observedAt
                ("Pending transaction lookup is unavailable (" ++ lookupReason pending ++
                 "). Sidekick will retry")%string;
          publicIntent s
      end
  | fallback_unavailable detail, _ =>
      _ ← recordUnavailable s observedAt detail; publicIntent s
  | _, _ =>
      _ ← recordUnavailable s observedAt
            "Confirmed transaction lookup is unavailable. Sidekick will retry";
      publicIntent s
  end.

(** The node's index does not show the transaction: the API, then the node's mempool. *)
Definition observeElsewhere (s : Stored) (m : WalletManifest) (txid : string)
    (indexed : option (LiveRead IndexedTransaction)) (observedAt : Z) (clients : ClientsView) : prog PublicIntent :=
  fallback ← await (refreshIndexedFromApi s m observedAt clients);
  match fallback with
  | fallback_intent p => mret p
  | _ =>
      pending ← ask (ask_pending txid);
      match pending with
      | Some (lr_observed _ t) => refreshPending s m t observedAt
      | _ => observeUnseen s indexed fallback pending observedAt
      end
  end.

Definition observeSubmittedIntent (s : Stored) (m : WalletManifest) (txid : string) (observedAt : Z)
    : prog PublicIntent :=
  answer ← ask (ask_clients s.1);
  match routedClients m answer with
  | Err message =>
      _ ← recordUnavailable s observedAt ("Verification paused: " ++ message)%string;
      publicIntent s
  | Ok clients =>
      if negb (cv_reader clients) then throw_prog (threw "reader")
      else
        indexed ← ask (ask_indexed txid);
        match indexed with
        | Some (lr_observed _ t) => await (refreshIndexed s m t observedAt clients)
        | _ => observeElsewhere s m txid indexed observedAt clients
        end
  end.

Definition observeStored (s : Stored) (observedAt : Z) : prog PublicIntent :=
  m ← parseStoredManifest s;
  ended ← observePrepared s m observedAt;
  match ended with
  | Some p => mret p
  | None =>
      match iw_txid s.2 with
      | None => publicIntent s
      | Some txid => observeSubmittedIntent s m txid observedAt
      end
  end.

(** An earlier intent with the same facts completed: the active ones give way. *)
Fixpoint record_displaced (l : list Stored) (observedAt : Z) : prog unit :=
  match l with
  | [] => mret tt
  | s :: rest =>
      _ ← recordPlain s oc_superseded observedAt "An earlier equivalent transaction completed on-chain";
      record_displaced rest observedAt
  end.

Definition resolveEquivalentCompletion (winnerId : string) (observedAt : Z) : prog unit :=
  displaced ← db (supersedeActiveEquivalent isUuid validateStacksAddress sha256 winnerId observedAt);
  record_displaced displaced observedAt.

Definition verified_complete (p : PublicIntent) : bool :=
  match pi_verification p with
  | Some v => bool_decide (vf_outcome v = oc_complete) && bool_decide (vf_canonical v = Some true)
  | None => false
  end.

(** Whether the next observation of a refreshed intent backs off. *)
Definition retry_later (p : PublicIntent) (previousId latestId : option string) : bool :=
  match pi_verification p with
  | Some v => bool_decide (vf_outcome v ∈ [oc_not_found; oc_unavailable]) ||
              (bool_decide (vf_outcome v = oc_canonical_success) && bool_decide (latestId = previousId))
  | None => false
  end.

(** The refresh itself: its outcome, and whether the next observation backs off. *)
Definition refreshOnce (input : Stored) (s : Stored) (previousId : option string) (observedAt : Z)
    : prog (result WalletError PublicIntent * bool) :=
  after (await (observeStored s observedAt))
    (fun r =>
       match r with
       | Err e => mret (Err e, true)
       | Ok intent =>
           latest_now ← latest input.1 [] [];
           after (if bool_decide (iw_state input.2 = it_superseded) && verified_complete intent then
                    _ ← resolveEquivalentCompletion input.1 observedAt;
                    current ← requireStored input.1;
                    publicIntent current
                  else mret intent)
             (fun outcome => mret (outcome, retry_later intent previousId (ob_id <$> latest_now)))
       end).

(** [refreshStored]: a refresh in flight is joined. *)
Definition refreshStored (input : Stored) (observedAt : Z) : prog PublicIntent :=
  existing ← remember (fun m => (mm_refreshes m !! input.1, m));
  match existing with
  | Some ticket => r ← ask (ask_join ticket); of_result r
  | None =>
      previous ← latest input.1 [] [];
      s ← requireStored input.1;
      ticket ← remember (begin_refresh input.1);
      x ← refreshOnce input s (ob_id <$> previous) observedAt;
      let '(outcome, retryLater) := x in
      _ ← remember (end_refresh input.1 ticket retryLater observedAt outcome);
      of_result outcome
  end.

(** *** Earlier intents *)

Fixpoint reconcile_candidates (l : list Stored) (observedAt : Z) : prog (option Stored) :=
  match l with
  | [] => mret None
  | candidate :: rest =>
      refreshed ← await (refreshStored candidate observedAt);
      if verified_complete refreshed then
        _ ← resolveEquivalentCompletion candidate.1 observedAt;
        s ← requireStored candidate.1;
        mret (Some s)
      else reconcile_candidates rest observedAt
  end.

Definition reconcileSuperseded (action : WalletAction) (scope factsSha256 : string) (observedAt : Z)
    : prog (option Stored) :=
  l ← db (listSubmittedEquivalent isUuid validateStacksAddress sha256 action scope factsSha256);
  reconcile_candidates (List.filter (fun s => bool_decide (iw_state s.2 = it_superseded)) l) observedAt.

(** An earlier transaction may still act: it blocks the scope. *)
Definition blocks (s : Stored) (v : option WalletVerification) (completedPriorAction : bool) (observedAt : Z) : bool :=
  match v with
  | Some v =>
      (bool_decide (vf_outcome v ∈ historicalScopeBlockers) && negb completedPriorAction) ||
      (bool_decide (vf_outcome v = oc_not_found) &&
       match iw_submittedAt s.2 with Some t => observedAt <? t + replacementGraceMs | None => false end)
  | None => false
  end.

Fixpoint reconcile_scope (l : list Stored) (action : WalletAction) (observedAt : Z) : prog (option Stored) :=
  match l with
  | [] => mret None
  | input :: rest =>
      candidate ← (if bool_decide (iw_state input.2 = it_failed) then retireFailedIntent input observedAt
                   else mret input);
      refreshed ← await (refreshStored candidate observedAt);
      own ← latestVerification candidate.1;
      let verification := match own with Some v => Some v | None => pi_verification refreshed end in
      completedPriorAction ← hasCanonicalExecution candidate.1 action;
      if blocks candidate verification completedPriorAction observedAt then
        s ← requireStored candidate.1; mret (Some s)
      else reconcile_scope rest action observedAt
  end.

Definition reconcileHistoricalScope (action : WalletAction) (scope : string) (observedAt : Z)
    (ignoredId : option string) : prog (option Stored) :=
  l ← db (listSubmittedScope isUuid validateStacksAddress sha256 action scope);
  reconcile_scope (List.filter (fun s => bool_decide (iw_state s.2 ∈ [it_failed; it_superseded]) &&
                                         negb (bool_decide (Some s.1 = ignoredId))) l) action observedAt.

(** ** Methods *)

Definition findActive (action : WalletAction) (scope : string) (now : Z) : prog (option Stored) :=
  db (findActiveScope isUuid validateStacksAddress sha256 action scope now).

(** [completedActionCanRepeat] *)
Definition canRepeat (id : string) (action : WalletAction) : prog bool :=
  verification ← latestVerification id;
  executed ← hasCanonicalExecution id action;
  mret (executed && match verification with
                    | Some v => bool_decide (vf_canonical v = Some true) &&
                                bool_decide (vf_outcome v ∈ [oc_canonical_success; oc_complete])
                    | None => false
                    end).

(** What an attempt of [prepare] decides of the active intent: an answer, another attempt, or to
    go on and create. *)
Inductive Decision3 := answer_with (p : PublicIntent) | try_again | go_on.

Definition decideActive (request : WalletRequest) (f : AuthoritativeFacts) (active : option Stored)
    (observedAt : Z) : prog Decision3 :=
  let again g := negb (String.eqb (authoritativeSha256 g) (authoritativeSha256 f)) in
  match active with
  | None => mret go_on
  | Some s =>
      if String.eqb (iw_factsSha256 s.2) (digest (af_facts f)) then
        if has_txid s.2 || bool_decide (iw_state s.2 = it_complete) then
          refreshed ← await (refreshStored s observedAt);
          current ← requireStored s.1;
          repeatable ← canRepeat current.1 (requestAction request);
          if negb repeatable then mret (answer_with refreshed)
          else
            g ← await (freshFacts request);
            if again g then mret try_again
            else
              _ ← supersede current observedAt
                    "Completed wallet action retired after fresh authoritative validation";
              mret go_on
        else
          g ← await (freshFacts request);
          if again g then mret try_again else p ← publicIntent s; mret (answer_with p)
      else if bool_decide (iw_state s.2 = it_prepared) then
        _ ← supersede s observedAt "Authoritative setup facts changed before wallet signing";
        mret go_on
      else
        refreshed ← await (refreshStored s observedAt);
        current ← requireStored s.1;
        repeatable ← canRepeat current.1 (requestAction request);
        if bool_decide (iw_state current.2 = it_failed) then
          _ ← retireFailedIntent current observedAt; mret go_on
        else if repeatable : bool then
          g ← await (freshFacts request);
          if again g then mret try_again
          else
            _ ← supersede current observedAt
                  "Completed wallet action retired because its authoritative facts changed";
            mret go_on
        else if is_active current.2 then mret (answer_with refreshed)
        else mret go_on
  end.

Definition manifestOf (id : string) (request : WalletRequest) (f : AuthoritativeFacts) (observedAt : Z)
    : WalletManifest :=
  {| mf_id := id; mf_action := requestAction request; mf_request := request; mf_network := af_network f;
     mf_chainId := af_chainId f; mf_requiredSender := af_requiredSender f; mf_createdAt := observedAt;
     mf_expiresAt := observedAt + intentLifetimeMs; mf_transaction := af_transaction f;
     mf_binding := af_binding f; mf_review := af_review f; mf_factsSha256 := digest (af_facts f) |}.

Definition createInputOf (m : WalletManifest) (f : AuthoritativeFacts) : CreateInput :=
  {| ci_id := mf_id m; ci_action := mf_action m; ci_scope := af_scope f;
     ci_factsSha256 := mf_factsSha256 m; ci_manifestSha256 := manifestSha256 sha256 m; ci_manifest := m;
     ci_requiredSender := af_requiredSender f; ci_network := af_network f; ci_chainId := af_chainId f;
     ci_createdAt := mf_createdAt m; ci_expiresAt := mf_expiresAt m |}.

(** The end of an attempt: the facts once more, then the sealed intent. *)
Definition sealIntent (request : WalletRequest) (f : AuthoritativeFacts) (observedAt : Z)
    : prog (option PublicIntent) :=
  current ← await (freshFacts request);
  if negb (String.eqb (authoritativeSha256 current) (authoritativeSha256 f)) then mret None
  else
    n ← remember draw;
    let m := manifestOf (randomUUID n) request current observedAt in
    if negb (storedManifestSchema isUuid m) then throw_prog (threw "manifest")
    else
      as_intent (
        created ← db (create_intent isUuid validateStacksAddress sha256 (createInputOf m current));
        p ← publicIntent created.1;
        mret (Some p)).

(** One attempt; [None] is [continue]. *)
Definition prepareAttempt (request : WalletRequest) (observedAt : Z) (ignoredId : option string)
    : prog (option PublicIntent) :=
  f ← await (freshFacts request);
  blocker ← await (reconcileHistoricalScope (requestAction request) (af_scope f) observedAt ignoredId);
  match blocker with
  | Some s => p ← publicIntent s; mret (Some p)
  | None =>
      active ← findActive (requestAction request) (af_scope f) observedAt;
      decision ← decideActive request f active observedAt;
      match decision with
      | answer_with p => mret (Some p)
      | try_again => mret None
      | go_on => sealIntent request f observedAt
      end
  end.

Fixpoint prepareLoop (attempts : nat) (request : WalletRequest) (observedAt : Z) (ignoredId : option string)
    : prog PublicIntent :=
  match attempts with
  | O => throw_prog (refused wallet_intent_conflict false)
  | S remaining =>
      r ← prepareAttempt request observedAt ignoredId;
      match r with
      | Some p => mret p
      | None => prepareLoop remaining request observedAt None
      end
  end.

Definition prepare (request : WalletRequest) (observedAt : Z) (ignoredId : option string) : prog PublicIntent :=
  if walletRequestSchema isUuid request then prepareLoop 3 request observedAt ignoredId
  else throw_prog (threw "request").

(** [normalizedTxid] *)
Definition normalizedTxid (txid : string) : result WalletError string :=
  let value := toLowerCase txid in
  if prefixed_hex is_lower_hex 64 value then Ok value else Err (refused wallet_intent_invalid false).

Definition submit (id txidInput : string) (observedAt : Z) : prog PublicIntent :=
  s ← requireStored id;
  as_intent (
    txid ← of_result (normalizedTxid txidInput);
    submitted ← db (submit_intent isUuid validateStacksAddress sha256 s.1 txid observedAt);
    _ ← (if has_txid s.2 then mret tt
         else recordPlain submitted oc_submitted observedAt
                "Transaction submitted. Waiting for on-chain verification");
    publicIntent submitted).

(** [refreshIntent], the method [refresh]. *)
Definition refreshIntent (id : string) (observedAt : Z) : prog PublicIntent :=
  first ← requireStored id;
  initial ← (if bool_decide (iw_state first.2 = it_failed) && has_txid first.2 then
               active ← findActive (iw_action first.2) (iw_scope first.2) observedAt;
               match active with
               | Some a => if String.eqb a.1 first.1 then mret first else retireFailedIntent first observedAt
               | None => mret first
               end
             else mret first);
  if bool_decide (iw_state initial.2 = it_prepared) then
    blocker ← await (reconcileHistoricalScope (iw_action initial.2) (iw_scope initial.2) observedAt None);
    match blocker with
    | Some _ =>
        superseded ← supersede initial observedAt
          "An earlier transaction may still complete. Do not submit another one yet";
        publicIntent superseded
    | None => s ← requireStored initial.1; refreshStored s observedAt
    end
  else if bool_decide (iw_state initial.2 = it_superseded) then
    s ← requireStored initial.1; refreshStored s observedAt
  else
    completed ← await (reconcileSuperseded (iw_action initial.2) (iw_scope initial.2)
                         (iw_factsSha256 initial.2) observedAt);
    match completed, bool_decide (iw_state initial.2 = it_complete) with
    | Some _, false => s ← requireStored initial.1; publicIntent s
    | _, _ => s ← requireStored initial.1; refreshStored s observedAt
    end.

(** The intent may be replaced: it is re-observed, and its grace is over. *)
Definition replaceable (s : Stored) (observedAt : Z) : bool :=
  bool_decide (iw_state s.2 = it_reobserve) &&
  match iw_submittedAt s.2 with Some t => t + replacementGraceMs <=? observedAt | None => false end.

Definition missing (p : PublicIntent) : bool :=
  bool_decide (pi_status p = it_reobserve) &&
  bool_decide (vf_outcome <$> pi_verification p = Some oc_not_found).

Definition replace (id : string) (observedAt : Z) : prog PublicIntent :=
  before ← requireStored id;
  _ ← conflict_if (negb (replaceable before observedAt));
  refreshed ← await (refreshIntent id observedAt);
  _ ← conflict_if (negb (missing refreshed));
  s ← requireStored id;
  m ← parseStoredManifest s;
  _ ← await (freshFacts (mf_request m));
  superseded ← supersede s observedAt "Transaction remained absent after 15 minutes and was replaced";
  await (prepare (mf_request m) observedAt (Some superseded.1)).

(** [observeSubmitted]: the maintenance loop; a throw is logged. *)
Fixpoint observe_all (ids : list string) (observedAt : Z) : prog unit :=
  match ids with
  | [] => mret tt
  | id :: rest =>
      due ← remember (fun m => (isDue (mm_cadence m) id observedAt, m));
      _ ← (if due : bool
           then try_catch (s ← requireStored id; _ ← await (refreshStored s observedAt); mret tt)
                  (fun _ => mret tt)
           else mret tt);
      observe_all rest observedAt
  end.

Definition observeSubmitted (observedAt : Z) : prog unit :=
  ids ← query listAwaitingObservationIds;
  _ ← remember (fun m => (tt, with_cadence (fun c => retain c ids) m));
  observe_all ids observedAt.

End IntentService.
