(* ===== verification/RunProtocol.v ===== *)
(** * The durable protocol of reward runs

    An abstract specification of what the service may do to its database, one committed write
    at a time: the run's status edges, the life of a child and of its attempts, the cursor and
    the gas account.  The invariants of the protocol are proved here by cases on the write;
    [RunSafety] shows that every commit of the service is such a write. *)

From S2P Require Import Prelude Text Principals OperationPlan Recipe RunStore SweepStore.

Open Scope Z_scope.

(** ** Attempts and children *)

(** An attempt whose transaction may still be accepted. *)
Definition unresolved (a : Attempt) : Prop := at_state a ∉ [rejected; attempt_confirmed].

#[global] Instance unresolved_dec a : Decision (unresolved a).
Proof. unfold unresolved. apply _. Defined.

Definition all_rejected (l : list Attempt) : Prop := Forall (fun a => at_state a = rejected) l.

Definition done_status (s : ChildStatus) : Prop := s ∈ completeChildStatuses.

(** A child that was never touched. *)
Definition fresh (c : Child) : Prop := ch_status c = pending /\ ch_attempts c = [].

Definition same_attempt (a b : Attempt) : Prop :=
  at_precomputedTxid a = at_precomputedTxid b /\ at_feeUstx a = at_feeUstx b /\
  at_nonce a = at_nonce b.

(** The steps of one child, for a fee cap and a rest of the gas budget.  [attempts] do not
    change unless a rule says so. *)
Inductive child_step (cap rest : Z) (c c' : Child) : Prop :=
  | cs_materialize :
      ch_status c = pending -> ch_status c' = materialized -> ch_attempts c' = ch_attempts c ->
      child_step cap rest c c'
  | cs_skip :
      ch_status c = pending -> ch_status c' = skipped -> ch_attempts c' = ch_attempts c ->
      child_step cap rest c c'
  | cs_discard :
      ch_status c = materialized -> ch_attempts c = [] ->
      ch_status c' = pending -> ch_attempts c' = [] ->
      child_step cap rest c c'
  | cs_recover a :
      ch_status c = materialized -> last (ch_attempts c) = Some a ->
      ch_status c' = broadcast -> ch_txid c' = Some (at_precomputedTxid a) ->
      ch_attempts c' = ch_attempts c ->
      child_step cap rest c c'
  | cs_sign_new a :
      ch_status c = materialized -> all_rejected (ch_attempts c) ->
      at_state a = signed -> at_feeUstx a <= cap -> at_feeUstx a <= rest ->
      ch_status c' = materialized -> ch_attempts c' = ch_attempts c ++ [a] ->
      child_step cap rest c c'
  | cs_sign_again i a a' :
      ch_status c = materialized -> all_rejected (ch_attempts c) ->
      ch_attempts c !! i = Some a -> same_attempt a a' -> at_state a' = signed ->
      ch_status c' = materialized -> ch_attempts c' = <[i := a']> (ch_attempts c) ->
      child_step cap rest c c'
  | cs_result i a a' :
      ch_status c = materialized -> ch_attempts c !! i = Some a -> same_attempt a a' ->
      (forall j b, ch_attempts c !! j = Some b -> j <> i -> at_state b = rejected) ->
      at_state a' ∈ [accepted; ambiguous; rejected] ->
      ch_status c' = materialized -> ch_attempts c' = <[i := a']> (ch_attempts c) ->
      child_step cap rest c c'
  | cs_submitted txid :
      ch_status c = materialized -> ch_status c' = broadcast -> ch_txid c' = Some txid ->
      ch_attempts c' = ch_attempts c ->
      child_step cap rest c c'
  | cs_refused :
      ch_status c = materialized -> all_rejected (ch_attempts c) ->
      ch_status c' = child_halted -> ch_attempts c' = ch_attempts c ->
      child_step cap rest c c'
  | cs_note :
      ch_status c = broadcast -> ch_status c' = broadcast -> ch_txid c' = ch_txid c ->
      ch_attempts c' = ch_attempts c ->
      child_step cap rest c c'
  | cs_done :
      ch_status c = broadcast -> ch_status c' ∈ [confirmed; externally_completed] ->
      ch_attempts c' = ch_attempts c ->
      child_step cap rest c c'
  | cs_confirm i a a' :
      ch_status c = confirmed -> ch_attempts c !! i = Some a -> same_attempt a a' ->
      at_state a' = attempt_confirmed ->
      ch_status c' = confirmed -> ch_attempts c' = <[i := a']> (ch_attempts c) ->
      child_step cap rest c c'
  | cs_retry :
      ch_status c = child_halted -> ch_status c' = pending -> ch_attempts c' = ch_attempts c ->
      child_step cap rest c c'.

(** ** The status of a run *)

Definition terminal (s : RunStatus) : Prop := s ∈ terminalRunStatuses.

Definition status_edges (s : RunStatus) : list RunStatus :=
  match s with
  | awaiting_approval => [approved; expired; cancelled]
  | approved => [running; cancelled]
  | running => [paused; halted; completed; expired]
  | paused => [running; expired; cancelled]
  | halted => [running; expired; cancelled]
  | completed | cancelled | expired => []
  end.

(** ** Writes *)

Definition rest_of (r : Run) : Z := r_gasBudgetUstx (ru_recipe r) - ru_gasSpentUstx r.

Definition released (id : string) (m : gmap string Lease) : gmap string Lease :=
  filter (fun '(_, l) => ~ (l_kind l = lease_reward_run /\ l_id l = id)) m.

(** A recipe whose gas budget is the fee cap for each of its children. *)
Definition budgeted (r : Recipe) : Prop :=
  0 <= r_feeCapUstx r /\
  r_gasBudgetUstx r = r_feeCapUstx r * Z.of_nat (List.length (r_children r)).

Definition lease_for (id : string) (now : Z) : Lease :=
  {| l_kind := lease_reward_run; l_id := id; l_acquiredAt := now; l_updatedAt := now |}.

(** The digest an operator approves: the client of the protocol says how it is computed. *)
Class Digest := digest : Recipe -> string.

(** The terms of a child, which its recipe fixes. *)
Definition child_terms (c : Child) : OperationKind * AdapterId * Z * option string * option Z :=
  (ch_operation c, ch_adapterId c, ch_adapterRevision c, ch_accountKey c, ch_maximumAmountSats c).
Definition recipe_terms (c : RecipeChild) : OperationKind * AdapterId * Z * option string * option Z :=
  (rc_operation c, rc_adapterId c, rc_adapterRevision c, rc_accountKey c, rc_maximumAmountSats c).

Section Protocol.

Context {digest_of : Digest}.

(** The row carries the recipe it was approved with. *)
Record sealed_row (id : string) (r : Run) : Prop := {
  seal_id : r_runId (ru_recipe r) = id;
  seal_wallet : r_walletPrincipal (ru_recipe r) = ru_walletPrincipal r;
  seal_digest : digest (ru_recipe r) = ru_recipeSha256 r;
  seal_terms : recipe_terms <$> r_children (ru_recipe r) = child_terms <$> ru_children r;
  seal_index : forall i c, r_children (ru_recipe r) !! i = Some c -> rc_index c = i;
}.

(** What a write is: the actor that may perform it is stated by a predicate on labels. *)
Inductive Label :=
  | l_insert
  | l_status (runId : string) (to : RunStatus)
  | l_child (from : ChildStatus)
  | l_advance
  | l_preparation
  | l_sweep (l : SweepLabel).

Inductive write (d : Db) : Label -> Db -> Prop :=
  | w_insert id wallet sha recipe expires now :
      leases d !! wallet = None ->
      (forall w l, leases d !! w = Some l -> ~ (l_kind l = lease_reward_run /\ l_id l = id)) ->
      runs d !! id = None -> budgeted recipe ->
      sealed_row id (new_run wallet sha recipe expires now) ->
      write d l_insert {| leases := <[wallet := lease_for id now]> (leases d);
                 runs := <[id := new_run wallet sha recipe expires now]> (runs d);
                 preparations := preparations d; sweeps := sweeps d |}
  | w_status id r t :
      runs d !! id = Some r -> t_to t ∈ status_edges (ru_status r) ->
      run_row_ok (transitioned r t) = true ->
      (t_to t = completed -> (List.length (ru_children r) <= ru_cursor r)%nat) ->
      write d (l_status id (t_to t)) {| leases := if bool_decide (t_to t ∈ terminalRunStatuses)
                           then released id (leases d) else leases d;
                 runs := <[id := transitioned r t]> (runs d);
                 preparations := preparations d; sweeps := sweeps d |}
  | w_child id r c c' :
      runs d !! id = Some r -> ru_children r !! ru_cursor r = Some c ->
      child_step (r_feeCapUstx (ru_recipe r)) (rest_of r) c c' -> child_terms c' = child_terms c ->
      write d (l_child (ch_status c))
        (set_runs (<[id := with_children r (<[ru_cursor r := c']> (ru_children r))]> (runs d)) d)
  | w_advance id r c gas now :
      runs d !! id = Some r -> ru_children r !! ru_cursor r = Some c -> done_status (ch_status c) ->
      (gas = ru_gasSpentUstx r \/
       exists a, a ∈ ch_attempts c /\ gas = ru_gasSpentUstx r + at_feeUstx a) ->
      write d l_advance (set_runs (<[id := advanced r gas now]> (runs d)) d)
  | w_sweep l d' :
      sweep_write d l d' -> write d (l_sweep l) d'
  | w_preparations m :
      write d l_preparation (set_preparations m d).

(** Any number of writes whose labels are allowed. *)
Definition writes (P : Label -> Prop) : Db -> Db -> Prop :=
  rtc (fun d d' => exists l, P l /\ write d l d').

(** ** The invariant *)

Record child_ok (cap : Z) (c : Child) : Prop := {
  ok_one_unresolved : (List.length (filter unresolved (ch_attempts c)) <= 1)%nat;
  ok_idle_rejected : ch_status c ∈ [pending; child_halted] -> all_rejected (ch_attempts c);
  ok_broadcast_txid : ch_status c = broadcast -> is_Some (ch_txid c);
  ok_fee_cap : forall a, a ∈ ch_attempts c -> at_feeUstx a <= cap;
}.

Record run_inv (r : Run) : Prop := {
  inv_budget : budgeted (ru_recipe r);
  inv_length : List.length (ru_children r) = List.length (r_children (ru_recipe r));
  inv_row : run_row_ok r = true;
  inv_cursor : (ru_cursor r <= List.length (ru_children r))%nat;
  inv_child : forall i c, ru_children r !! i = Some c -> child_ok (r_feeCapUstx (ru_recipe r)) c;
  inv_done : forall i c, ru_children r !! i = Some c -> (i < ru_cursor r)%nat ->
    done_status (ch_status c);
  inv_fresh : forall i c, ru_children r !! i = Some c -> (ru_cursor r < i)%nat -> fresh c;
  inv_gas : ru_gasSpentUstx r <= r_gasBudgetUstx (ru_recipe r);
  inv_gas_next : forall c a, ru_children r !! ru_cursor r = Some c -> a ∈ ch_attempts c ->
    ru_gasSpentUstx r + at_feeUstx a <= r_gasBudgetUstx (ru_recipe r);
  inv_completed : ru_status r = completed -> (List.length (ru_children r) <= ru_cursor r)%nat;
}.

Record lease_inv (d : Db) : Prop := {
  lease_held : forall id r, runs d !! id = Some r -> ~ terminal (ru_status r) ->
    exists l, leases d !! ru_walletPrincipal r = Some l /\ l_kind l = lease_reward_run /\ l_id l = id;
  lease_owned : forall w l, leases d !! w = Some l -> l_kind l = lease_reward_run ->
    exists r, runs d !! l_id l = Some r /\ ru_walletPrincipal r = w /\ ~ terminal (ru_status r);
}.

Record inv (d : Db) : Prop := {
  inv_runs : forall id r, runs d !! id = Some r -> run_inv r;
  inv_leases : lease_inv d;
  inv_sealed : forall id r, runs d !! id = Some r -> sealed_row id r;
}.

(** What a write never changes of a run. *)
Record evolves (r r' : Run) : Prop := {
  ev_recipe : ru_recipe r' = ru_recipe r;
  ev_sha : ru_recipeSha256 r' = ru_recipeSha256 r;
  ev_wallet : ru_walletPrincipal r' = ru_walletPrincipal r;
  ev_cursor : (ru_cursor r <= ru_cursor r')%nat;
  ev_status : ru_status r' = ru_status r \/ ru_status r' ∈ status_edges (ru_status r);
}.

(** ** Preservation: attempts *)

Lemma rejected_resolved a : at_state a = rejected -> ~ unresolved a.
Proof. intros H Hu. apply Hu. rewrite H. constructor. Qed.

Lemma confirmed_resolved a : at_state a = attempt_confirmed -> ~ unresolved a.
Proof. intros H Hu. apply Hu. rewrite H. repeat constructor. Qed.

Lemma filter_empty {A} (P : A -> Prop) `{forall x, Decision (P x)} l :
  (forall x, x ∈ l -> ~ P x) -> filter P l = [].
Proof.
  intros Hn. induction l as [|x l IH]; [done|].
  rewrite filter_cons_False by (apply Hn; constructor). apply IH. intros y Hy. apply Hn. by constructor.
Qed.

Lemma all_rejected_resolved l : all_rejected l -> filter unresolved l = [].
Proof.
  intros H. apply filter_empty. intros a Ha. apply rejected_resolved.
  unfold all_rejected in H. rewrite Forall_forall in H. by apply H.
Qed.

(** Replacing one attempt leaves at most that one unresolved. *)
Lemma one_unresolved_insert l i a' :
  (forall j b, l !! j = Some b -> j <> i -> ~ unresolved b) ->
  (List.length (filter unresolved (<[i := a']> l)) <= 1)%nat.
Proof.
  intros H. destruct (decide (i < List.length l)%nat) as [Hi|Hi].
  - rewrite insert_take_drop by done. rewrite filter_app, length_app.
    rewrite (filter_empty unresolved (take i l)).
    + rewrite filter_cons. rewrite (filter_empty unresolved (drop (S i) l)).
      * destruct (decide (unresolved a')); cbn; lia.
      * intros b (j & Hj)%list_elem_of_lookup. rewrite lookup_drop in Hj. eapply H; [exact Hj | lia].
    + intros b (j & Hj)%list_elem_of_lookup. apply lookup_take_Some in Hj as [Hj Hlt].
      eapply H; [exact Hj | lia].
  - rewrite list_insert_ge by lia. rewrite filter_empty; [cbn; lia|].
    intros b (j & Hj)%list_elem_of_lookup. eapply H; [exact Hj|].
    intros ->. apply lookup_lt_Some in Hj. lia.
Qed.

Lemma resolve_insert l i a' :
  ~ unresolved a' ->
  (List.length (filter unresolved (<[i := a']> l)) <= List.length (filter unresolved l))%nat.
Proof.
  intros Ha. destruct (decide (i < List.length l)%nat) as [Hi|Hi]; [|by rewrite list_insert_ge by lia].
  rewrite insert_take_drop, filter_app, filter_cons_False by done.
  rewrite <- (take_drop i l) at 3. rewrite filter_app, !length_app.
  apply Nat.add_le_mono_l. destruct (drop i l) as [|b k] eqn:E.
  - apply (f_equal (@List.length _)) in E. rewrite length_drop in E. cbn in E. lia.
  - assert (drop (S i) l = k) as ->.
    { replace (S i) with (i + 1)%nat by lia. rewrite <- drop_drop, E. done. }
    rewrite filter_cons. destruct (decide (unresolved b)); cbn; lia.
Qed.

Lemma all_rejected_lookup l j b : all_rejected l -> l !! j = Some b -> at_state b = rejected.
Proof. intros H Hj. exact (Forall_lookup_1 _ _ _ _ H Hj). Qed.

(** An updated attempt keeps the fee of the one it replaces. *)
Lemma insert_fee (l : list Attempt) i a a' b :
  l !! i = Some a -> same_attempt a a' -> b ∈ <[i := a']> l ->
  exists c, c ∈ l /\ at_feeUstx b = at_feeUstx c.
Proof.
  intros Ha (_ & Hf & _) (j & Hj)%list_elem_of_lookup.
  apply list_lookup_insert_Some in Hj as [(<- & <- & _)|[_ Hj]].
  - exists a. split; [by eapply list_elem_of_lookup_2 | done].
  - exists b. split; [by eapply list_elem_of_lookup_2 | done].
Qed.

(** ** Preservation: children *)

Lemma child_step_fees cap rest c c' b :
  child_step cap rest c c' -> b ∈ ch_attempts c' ->
  (exists a, a ∈ ch_attempts c /\ at_feeUstx b = at_feeUstx a) \/
  (at_feeUstx b <= cap /\ at_feeUstx b <= rest).
Proof.
  intros Hs Hb.
  destruct Hs as [? ? Ha|? ? Ha|? He ? Ha|a ? ? ? ? Ha|a ? ? ? Hc Hr ? Ha|i a a' ? ? Hi Hsame ? ? Ha
    |i a a' ? Hi Hsame ? ? ? Ha|txid ? ? ? Ha|? ? ? Ha|? ? ? Ha|? ? Ha|i a a' ? Hi Hsame ? ? Ha|? ? Ha];
    rewrite Ha in Hb; try (by left; eauto); try (by apply elem_of_nil in Hb);
    try (left; by eapply insert_fee).
  apply elem_of_app in Hb as [Hb| ->%list_elem_of_singleton]; [left; eauto | by right].
Qed.

Lemma child_step_ok cap rest c c' :
  child_ok cap c -> child_step cap rest c c' -> child_ok cap c'.
Proof.
  intros [Ho Hi Ht Hf] Hs.
  assert (Hfee : forall b, b ∈ ch_attempts c' -> at_feeUstx b <= cap).
  { intros b Hb. destruct (child_step_fees _ _ _ _ _ Hs Hb) as [(a & Ha & ->)|[? _]]; auto. }
  assert (Hrej : forall i b, all_rejected (ch_attempts c) -> ch_attempts c !! i = Some b -> ~ unresolved b).
  { intros i b Hall Hb. apply rejected_resolved. by eapply all_rejected_lookup. }
  split; [ | | | done].
  - destruct Hs as [? ? Ha|? ? Ha|? He ? Ha|a ? ? ? ? Ha|a ? Hr ? ? ? ? Ha|i a a' ? Hr Hl ? ? ? Ha
      |i a a' ? Hl ? Hot ? ? Ha|txid ? ? ? Ha|? ? ? Ha|? ? ? Ha|? ? Ha|i a a' ? Hl ? Hc ? Ha|? ? Ha];
      rewrite Ha; try done; try (cbn; lia).
    + rewrite filter_app, all_rejected_resolved, filter_cons by done.
      destruct (decide (unresolved a)); cbn; lia.
    + apply one_unresolved_insert. intros j b Hb _. by eapply Hrej.
    + apply one_unresolved_insert. intros j b Hb Hj. apply rejected_resolved. by eapply Hot.
    + etransitivity; [|exact Ho]. apply resolve_insert. by apply confirmed_resolved.
  - destruct Hs as [? E Ha|? E Ha|? He E Ha|a ? ? E ? Ha|a ? Hr ? ? ? E Ha|i a a' ? Hr Hl ? ? E Ha
      |i a a' ? Hl ? Hot ? E Ha|txid ? E ? Ha|? Hr E Ha|? E ? Ha|? E Ha|i a a' ? Hl ? Hc E Ha|Hh E Ha];
      rewrite ?Ha; intros Hst; rewrite ?E in Hst; try (by set_solver).
    + constructor.
    + rewrite !elem_of_cons, !elem_of_nil in E, Hst. intuition congruence.
  - destruct Hs as [? E Ha|? E Ha|? He E Ha|a ? ? E Htx Ha|a ? Hr ? ? ? E Ha|i a a' ? Hr Hl ? ? E Ha
      |i a a' ? Hl ? Hot ? E Ha|txid ? E Htx Ha|? Hr E Ha|Hb E Htx Ha|? E Ha|i a a' ? Hl ? Hc E Ha|Hh E Ha];
      intros Hst; try (rewrite E in Hst; done); try (rewrite Htx; eauto).
    + rewrite Hst in E. set_solver.
Qed.

(** ** Preservation: runs *)

Lemma run_inv_transitioned r t :
  run_inv r -> run_row_ok (transitioned r t) = true ->
  (t_to t = completed -> (List.length (ru_children r) <= ru_cursor r)%nat) ->
  run_inv (transitioned r t).
Proof. intros [] Hrow Hc. split; done. Qed.

Lemma run_inv_child r c c' :
  run_inv r -> ru_children r !! ru_cursor r = Some c ->
  child_step (r_feeCapUstx (ru_recipe r)) (rest_of r) c c' ->
  run_inv (with_children r (<[ru_cursor r := c']> (ru_children r))).
Proof.
  intros Hinv Hc Hs. assert (Hok := child_step_ok _ _ _ _ (inv_child r Hinv _ _ Hc) Hs).
  assert (Hlt := lookup_lt_Some _ _ _ Hc).
  split; cbn [with_children ru_recipe ru_children ru_cursor ru_gasSpentUstx ru_status].
  - apply (inv_budget r Hinv).
  - rewrite length_insert. apply (inv_length r Hinv).
  - apply (inv_row r Hinv).
  - rewrite length_insert. apply (inv_cursor r Hinv).
  - intros i b [(<- & <- & _)|[_ Hb]]%list_lookup_insert_Some; [done|]. by eapply (inv_child r Hinv).
  - intros i b [(<- & <- & _)|[_ Hb]]%list_lookup_insert_Some Hi; [lia|]. by eapply (inv_done r Hinv).
  - intros i b [(<- & <- & _)|[_ Hb]]%list_lookup_insert_Some Hi; [lia|]. by eapply (inv_fresh r Hinv).
  - apply (inv_gas r Hinv).
  - intros b a. rewrite list_lookup_insert_eq by done. intros [= <-] Ha.
    destruct (child_step_fees _ _ _ _ _ Hs Ha) as [(x & Hx & ->)|[_ Hr]].
    + by eapply (inv_gas_next r Hinv).
    + unfold rest_of in Hr. lia.
  - rewrite length_insert. apply (inv_completed r Hinv).
Qed.

Lemma run_inv_advanced r c gas now :
  run_inv r -> ru_children r !! ru_cursor r = Some c -> done_status (ch_status c) ->
  (gas = ru_gasSpentUstx r \/
   exists a, a ∈ ch_attempts c /\ gas = ru_gasSpentUstx r + at_feeUstx a) ->
  run_inv (advanced r gas now).
Proof.
  intros Hinv Hc Hd Hg. assert (Hlt := lookup_lt_Some _ _ _ Hc).
  assert (Hgas : gas <= r_gasBudgetUstx (ru_recipe r)).
  { destruct Hg as [-> | (a & Ha & ->)]; [apply (inv_gas r Hinv)|]. by eapply (inv_gas_next r Hinv). }
  split; cbn [advanced ru_recipe ru_children ru_cursor ru_gasSpentUstx ru_status].
  - apply (inv_budget r Hinv).
  - apply (inv_length r Hinv).
  - apply (inv_row r Hinv).
  - lia.
  - apply (inv_child r Hinv).
  - intros i b Hb Hi. destruct (decide (i = ru_cursor r)) as [->|]; [by simplify_eq|].
    eapply (inv_done r Hinv); [exact Hb | lia].
  - intros i b Hb Hi. eapply (inv_fresh r Hinv); [exact Hb | lia].
  - done.
  - intros b a Hb Ha. destruct (inv_fresh r Hinv _ _ Hb) as [_ He]; [lia|].
    rewrite He in Ha. by apply elem_of_nil in Ha.
  - intros Hst. apply (inv_completed r Hinv) in Hst. lia.
Qed.

Lemma run_inv_new wallet sha recipe expires now :
  budgeted recipe -> run_inv (new_run wallet sha recipe expires now).
Proof.
  intros Hb. assert (Hfresh : forall i c,
    (new_child now <$> r_children recipe) !! i = Some c -> fresh c).
  { intros i c (rc & -> & _)%list_lookup_fmap_Some. done. }
  split; cbn [new_run ru_recipe ru_children ru_cursor ru_gasSpentUstx ru_status].
  - done.
  - apply length_fmap.
  - done.
  - lia.
  - intros i c Hc. destruct (Hfresh _ _ Hc) as [Hs Ha]. split; rewrite ?Ha.
    + cbn. lia.
    + intros _. constructor.
    + congruence.
    + intros a Hin. by apply elem_of_nil in Hin.
  - lia.
  - intros i c Hc _. by eapply Hfresh.
  - destruct Hb as [H0 ->]. lia.
  - intros c a Hc Ha. destruct (Hfresh _ _ Hc) as [_ He]. rewrite He in Ha. by apply elem_of_nil in Ha.
  - done.
Qed.

(** ** Preservation: leases *)

Lemma lookup_released id m w l :
  released id m !! w = Some l <->
  m !! w = Some l /\ ~ (l_kind l = lease_reward_run /\ l_id l = id).
Proof. unfold released. by rewrite map_lookup_filter_Some. Qed.

Lemma terminal_no_edge s t : terminal s -> t ∉ status_edges s.
Proof. unfold terminal, terminalRunStatuses. intros H. destruct s; set_solver. Qed.

(** A run replaced by one with the same wallet and terminality. *)
Lemma lease_inv_same d id r r' :
  lease_inv d -> runs d !! id = Some r ->
  ru_walletPrincipal r' = ru_walletPrincipal r -> ru_status r' = ru_status r ->
  lease_inv (set_runs (<[id := r']> (runs d)) d).
Proof.
  intros [Hh Ho] Hr Hw Hs. split; cbn.
  - intros i x [[<- <-]|[_ Hx]]%lookup_insert_Some Hn.
    + rewrite Hw. apply Hh; [done|]. by rewrite <- Hs.
    + by apply Hh.
  - intros w l Hl Hk. destruct (Ho w l Hl Hk) as (x & Hx & Hxw & Hn).
    destruct (decide (l_id l = id)) as [He|He].
    + exists r'. rewrite He, lookup_insert_eq. rewrite He, Hr in Hx. injection Hx as <-.
      split_and!; [done | congruence | by rewrite Hs].
    + exists x. by rewrite lookup_insert_ne.
Qed.

Lemma lease_inv_status d id r t :
  lease_inv d -> runs d !! id = Some r -> t_to t ∈ status_edges (ru_status r) ->
  lease_inv {| leases := if bool_decide (t_to t ∈ terminalRunStatuses)
                         then released id (leases d) else leases d;
               runs := <[id := transitioned r t]> (runs d); preparations := preparations d; sweeps := sweeps d |}.
Proof.
  intros [Hh Ho] Hr He.
  assert (Hn : ~ terminal (ru_status r)) by (intros Ht; by eapply terminal_no_edge).
  destruct (bool_decide_reflect (t_to t ∈ terminalRunStatuses)) as [Ht|Ht]; split; cbn.
  - intros i x [[<- <-]|[Hne Hx]]%lookup_insert_Some Hnx; [done|].
    destruct (Hh i x Hx Hnx) as (l & Hl & Hk & Hi). exists l. split; [|done].
    apply lookup_released. split; [done|]. intros [_ ?]. congruence.
  - intros w l [Hl Hnot]%lookup_released Hk. destruct (Ho w l Hl Hk) as (x & Hx & Hw & Hnx).
    exists x. rewrite lookup_insert_ne by (intros ->; by apply Hnot). done.
  - intros i x [[<- <-]|[_ Hx]]%lookup_insert_Some Hnx; [by apply (Hh id r) | by apply Hh].
  - intros w l Hl Hk. destruct (Ho w l Hl Hk) as (x & Hx & Hw & Hnx).
    destruct (decide (l_id l = id)) as [Hid|Hid].
    + exists (transitioned r t). rewrite Hid, lookup_insert_eq. rewrite Hid, Hr in Hx.
      injection Hx as <-. done.
    + exists x. by rewrite lookup_insert_ne.
Qed.

Lemma lease_inv_insert d id wallet sha recipe expires now :
  lease_inv d -> leases d !! wallet = None -> runs d !! id = None ->
  lease_inv {| leases := <[wallet := lease_for id now]> (leases d);
               runs := <[id := new_run wallet sha recipe expires now]> (runs d);
               preparations := preparations d; sweeps := sweeps d |}.
Proof.
  intros [Hh Ho] Hw Hid. split; cbn.
  - intros i x [[<- <-]|[_ Hx]]%lookup_insert_Some Hn.
    + exists (lease_for id now). by rewrite lookup_insert_eq.
    + destruct (Hh i x Hx Hn) as (l & Hl & Hk & Hi). exists l.
      rewrite lookup_insert_ne by (intros Heq; congruence). done.
  - intros w l [[<- <-]|[_ Hl]]%lookup_insert_Some Hk.
    + eexists. rewrite lookup_insert_eq. split_and!; [done|done|].
      cbn. unfold terminal, terminalRunStatuses. set_solver.
    + destruct (Ho w l Hl Hk) as (x & Hx & Hxw & Hn). exists x.
      rewrite lookup_insert_ne by (intros ->; congruence). done.
Qed.

Lemma lease_inv_sweep d l d' : lease_inv d -> sweep_write d l d' -> lease_inv d'.
Proof.
  intros [Hh Ho] (Hr & _ & Hm)%sweep_write_runs. split; rewrite Hr.
  - intros i x Hx Hn. destruct (Hh i x Hx Hn) as (k & Hl & Hk & Hi). exists k.
    split; [by apply Hm | done].
  - intros w k Hl Hk. apply (Ho w k); [by apply Hm | done].
Qed.

(** ** The invariant of the protocol *)

Lemma sealed_child id r i c c' :
  sealed_row id r -> ru_children r !! i = Some c -> child_terms c' = child_terms c ->
  sealed_row id (with_children r (<[i := c']> (ru_children r))).
Proof.
  intros [H1 H2 H3 H4 H5] Hc Ht. split; try done. cbn. rewrite H4, list_fmap_insert, Ht.
  symmetry. apply list_insert_id. by rewrite list_lookup_fmap, Hc.
Qed.

(** Every run but the one written is the run it was. *)
Lemma each_run (Q : string -> Run -> Prop) d i x' :
  (forall id r, runs d !! id = Some r -> Q id r) -> Q i x' ->
  forall id r, <[i := x']> (runs d) !! id = Some r -> Q id r.
Proof. intros Hall Hx id r [[<- <-]|[_ Hr]]%lookup_insert_Some; auto. Qed.

Lemma write_inv d l d' : inv d -> write d l d' -> inv d'.
Proof.
  intros [Hr Hl Hs] Hw. destruct Hw as [id wallet sha recipe expires now Hwl _ Hid Hb Hsr
    |id r t Hrun He Hrow Hc|id r c c' Hrun Hcc Hst Ht|id r c gas now Hrun Hcc Hd Hg|sl d1 Hsw|m].
  - split; [|by apply lease_inv_insert|]; cbn; apply each_run; try done. by apply run_inv_new.
  - split; [|by eapply lease_inv_status|]; cbn; apply each_run; try done.
    + apply run_inv_transitioned; [by eapply Hr | done | done].
    + by destruct (Hs _ _ Hrun).
  - split; [|by eapply lease_inv_same|]; cbn; apply each_run; try done.
    + eapply run_inv_child; [by eapply Hr | done | done].
    + by eapply sealed_child; [apply Hs| |].
  - split; [|by eapply lease_inv_same|]; cbn; apply each_run; try done.
    + eapply run_inv_advanced; [by eapply Hr | done | done | done].
    + by destruct (Hs _ _ Hrun).
  - destruct (sweep_write_runs _ _ _ Hsw) as (He & _ & _).
    split; rewrite ?He; [exact Hr | by eapply lease_inv_sweep | exact Hs].
  - split; [exact Hr| |exact Hs]. destruct Hl. by split.
Qed.

Lemma writes_inv P d d' : inv d -> writes P d d' -> inv d'.
Proof. intros Hi Hw. induction Hw as [|d d1 d2 (l & _ & Hl) _ IH]; [done|]. eauto using write_inv. Qed.

Lemma inv_empty : inv empty_db.
Proof. split; [|split|]; cbn; intros i x Hx; by rewrite lookup_empty in Hx. Qed.

Lemma evolves_refl r : evolves r r.
Proof. split; auto. Qed.

Lemma write_evolves d l d' id r :
  write d l d' -> runs d !! id = Some r -> exists r', runs d' !! id = Some r' /\ evolves r r'.
Proof.
  intros Hw Hid.
  assert (Hput : forall i x x', runs d !! i = Some x -> evolves x x' ->
            exists r', <[i := x']> (runs d) !! id = Some r' /\ evolves r r').
  { intros i x x' Hx He. destruct (decide (i = id)) as [->|Hne].
    - exists x'. rewrite lookup_insert_eq. split; [done|]. congruence.
    - exists r. rewrite lookup_insert_ne by done. split; [done | apply evolves_refl]. }
  destruct Hw as [i wallet sha recipe expires now _ _ Hn _ _|i x t Hx He _ _|i x c c' Hx _ _ _
    |i x c gas now Hx _ _ _|sl d1 (He1 & _ & _)%sweep_write_runs|m];
    cbn; rewrite ?He1; try (exists r; split; [done | apply evolves_refl]).
  - exists r. rewrite lookup_insert_ne by (intros ->; congruence). split; [done | apply evolves_refl].
  - eapply Hput; [exact Hx|]. split; cbn; auto.
  - eapply Hput; [exact Hx|]. split; cbn; auto.
  - eapply Hput; [exact Hx|]. split; cbn; auto.
Qed.

(** What any number of writes never change of a run. *)
Record evolved (r r' : Run) : Prop := {
  evd_recipe : ru_recipe r' = ru_recipe r;
  evd_sha : ru_recipeSha256 r' = ru_recipeSha256 r;
  evd_wallet : ru_walletPrincipal r' = ru_walletPrincipal r;
  evd_cursor : (ru_cursor r <= ru_cursor r')%nat;
  evd_terminal : terminal (ru_status r) -> ru_status r' = ru_status r;
}.

Lemma evolves_evolved r r' : evolves r r' -> evolved r r'.
Proof.
  intros [? ? ? ? Hs]. split; try done. intros Ht.
  destruct Hs as [Hs|Hs]; [done|]. by apply terminal_no_edge with (t := ru_status r') in Ht.
Qed.

Lemma writes_evolved P d d' id r :
  writes P d d' -> runs d !! id = Some r -> exists r', runs d' !! id = Some r' /\ evolved r r'.
Proof.
  intros Hw. revert r. induction Hw as [d|d d1 d2 (l & _ & Hl) _ IH]; intros r Hr.
  - exists r. split; [done | apply evolves_evolved, evolves_refl].
  - destruct (write_evolves _ _ _ _ _ Hl Hr) as (r1 & Hr1 & [H1 H2 H3 H4 H5]%evolves_evolved).
    destruct (IH _ Hr1) as (r2 & Hr2 & [K1 K2 K3 K4 K5]).
    exists r2. split; [done|]. split; [congruence..|lia|].
    intros Ht. rewrite <- (H5 Ht). apply K5. by rewrite (H5 Ht).
Qed.

(** A run is only approved by a write that says so. *)
Lemma write_approved d l d' id r' :
  write d l d' -> runs d' !! id = Some r' -> ru_status r' = approved ->
  l = l_status id approved \/ exists r, runs d !! id = Some r /\ ru_status r = approved.
Proof.
  intros Hw Hr' Hs.
  destruct Hw as [i wallet sha recipe expires now _ _ _ _ _|i x t Hx _ _ _|i x c c' Hx _ _ _
    |i x c gas now Hx _ _ _|sl d1 (He1 & _ & _)%sweep_write_runs|m];
    cbn in Hr'; rewrite ?He1 in Hr'; try (by right; exists r');
    apply lookup_insert_Some in Hr' as [[-> <-]|[_ Hr']]; try (by right; exists r'); cbn in Hs.
  - done.
  - rewrite Hs. by left.
  - right. by exists x.
  - right. by exists x.
Qed.

Lemma writes_approved P d d' id r' :
  writes P d d' -> ~ P (l_status id approved) -> runs d' !! id = Some r' ->
  ru_status r' = approved -> exists r, runs d !! id = Some r /\ ru_status r = approved.
Proof.
  intros Hw Hn. revert r'. induction Hw as [d|d d1 d2 (l & Hp & Hl) _ IH]; intros r' Hr' Hs.
  - by exists r'.
  - destruct (IH _ Hr' Hs) as (r1 & Hr1 & Hs1).
    destruct (write_approved _ _ _ _ _ Hl Hr1 Hs1) as [->|H]; [by destruct Hn | done].
Qed.

End Protocol.
