(* ===== verification/SweepProtocol.v ===== *)
(** * The durable protocol of gas-wallet sweeps

    The invariant of the stored sweeps and of their leases, under every write to the database,
    the sweeps' own and the reward runs', and what a write never changes of a sweep. *)

From S2P Require Import Prelude Text Principals OperationPlan Recipe SweepPlan RunStore SweepStore RunProtocol.

Open Scope Z_scope.

(** ** The invariant *)

(** The columns repeat the sealed plan. *)
Definition columns_sealed (r : SweepRow) : Prop :=
  let m := sp_material (sr_plan r) in
  sr_recipient r = sm_recipient m /\ sr_amountUstx r = sm_amountUstx m /\
  sr_feeUstx r = sm_feeUstx m /\ sr_nonce r = sm_nonce m /\ sr_balanceUstx r = sm_balanceUstx m /\
  sr_planSha256 r = sp_planSha256 (sr_plan r) /\ sr_expiresAt r = sm_expiresAt m.

Record sweep_row_ok (r : SweepRow) : Prop := {
  so_columns : columns_sealed r;
  so_schema : gasWalletSweepPlanSchema (sr_plan r) = true;
  so_sent : sr_status r ∈ [sweep_broadcast; sweep_confirmed] -> is_Some (sr_txid r);
  so_unsent : sr_status r ∈ [sweep_planned; sweep_cancelled; sweep_expired] -> sr_txid r = None;
  so_approved : is_Some (sr_txid r) -> is_Some (sr_approvedAt r) /\ is_Some (sr_broadcastAt r);
}.

Record sweep_inv (d : Db) : Prop := {
  si_rows : forall id r, sweeps d !! id = Some r -> sweep_row_ok r;
  si_held : forall id r, sweeps d !! id = Some r -> active_sweep r ->
    exists l, leases d !! sr_walletPrincipal r = Some l /\ l_kind l = lease_sweep /\ l_id l = id;
  si_owned : forall w l, leases d !! w = Some l -> l_kind l = lease_sweep ->
    exists r, sweeps d !! l_id l = Some r /\ sr_walletPrincipal r = w /\ active_sweep r;
}.

Lemma sweep_inv_empty : sweep_inv empty_db.
Proof. split; cbn; intros i x Hx; by rewrite lookup_empty in Hx. Qed.

(** ** Preservation *)

(** Writes of the reward runs leave the sweeps and their leases alone. *)
Lemma write_not_sweep {digest_of : Digest} d l d' :
  write d l d' -> (forall k, l <> l_sweep k) ->
  sweeps d' = sweeps d /\
  (forall w k, l_kind k = lease_sweep -> leases d' !! w = Some k <-> leases d !! w = Some k).
Proof.
  intros Hw Hl.
  destruct Hw as [id wallet sha recipe expires now Hn _ _ _ _|id r t _ _ _ _|id r c c' _ _ _ _
    |id r c gas now _ _ _ _|k d' _|m]; cbn; try done.
  - split; [done|]. intros w k Hk. rewrite lookup_insert_Some. split.
    + intros [[_ <-]|[_ H]]; done.
    + intros H. right. split; [intros <-; congruence | done].
  - split; [done|]. intros w k Hk. destruct (bool_decide _); [|done].
    rewrite lookup_released. split; [by intros [H _]|]. intros H. split; [done|].
    intros [H1 _]. congruence.
  - by destruct (Hl k).
Qed.

Lemma sweep_inv_same d d' :
  sweep_inv d -> sweeps d' = sweeps d ->
  (forall w k, l_kind k = lease_sweep -> leases d' !! w = Some k <-> leases d !! w = Some k) ->
  sweep_inv d'.
Proof.
  intros [Hr Hh Ho] Hs Hl. split; rewrite Hs.
  - exact Hr.
  - intros id r Hid Ha. destruct (Hh id r Hid Ha) as (l & Hw & Hk & Hi). exists l.
    split; [by apply Hl | done].
  - intros w l Hw Hk. apply Ho; [by apply Hl | done].
Qed.

Lemma new_sweep_ok wallet plan now :
  gasWalletSweepPlanSchema plan = true -> sweep_row_ok (new_sweep wallet plan now).
Proof. intros Hs. split; cbn; try done; try (by intros []). set_solver. Qed.

(** Where the edges of a row lead. *)
Definition edges_of (s : SweepStatus) (unsent : bool) : list SweepStatus :=
  match s with
  | sweep_planned => [sweep_broadcast; sweep_cancelled; sweep_expired; sweep_failed]
  | sweep_broadcast => [sweep_broadcast; sweep_confirmed; sweep_failed]
  | sweep_confirmed => []
  | _ => if unsent then [sweep_expired; sweep_failed] else []
  end.

Lemma sweep_edges_of r : sweep_edges r = edges_of (sr_status r) (bool_decide (sr_txid r = None)).
Proof. unfold sweep_edges. destruct (sr_status r); try done; cbn; by destruct (sr_txid r). Qed.

(** Case analysis on the two ends of an edge. *)
Ltac cases_edge He s to u :=
  destruct s, to, u; cbn [edges_of] in He; try (not_in He).

Lemma edge_from_terminal r to :
  to ∈ sweep_edges r -> ~ active_sweep r -> to ∉ activeSweepStatuses.
Proof.
  unfold active_sweep. rewrite sweep_edges_of. intros He Ha Hto.
  cases_edge He (sr_status r) to (bool_decide (sr_txid r = None)); try (not_in Hto); apply Ha; is_in.
Qed.

Lemma edge_active_terminal s :
  s ∈ terminalSweepStatuses <-> s ∉ activeSweepStatuses.
Proof.
  split; destruct s; intros H; try (not_in H); try is_in; try (intros H'; not_in H'); exfalso; apply H; is_in.
Qed.

(** Before the approval is recorded there is no transaction ID. *)
Lemma edge_unsent r to :
  (sr_status r ∈ [sweep_planned; sweep_cancelled; sweep_expired] -> sr_txid r = None) ->
  to ∈ sweep_edges r -> to ∈ [sweep_planned; sweep_cancelled; sweep_expired] -> sr_txid r = None.
Proof.
  rewrite sweep_edges_of. intros Hun He Hto. destruct (sr_txid r) as [t|] eqn:Ht; [|done].
  rewrite bool_decide_eq_false_2 in He by done.
  destruct (sr_status r), to; cbn [edges_of] in He; try (not_in He); try (not_in Hto); apply Hun; is_in.
Qed.

Lemma edge_sent r to :
  to ∈ sweep_edges r -> to <> sweep_broadcast -> to ∈ [sweep_broadcast; sweep_confirmed] ->
  sr_status r ∈ [sweep_broadcast; sweep_confirmed].
Proof.
  rewrite sweep_edges_of. intros He Hn Hto.
  cases_edge He (sr_status r) to (bool_decide (sr_txid r = None)); try (not_in Hto); try done; is_in.
Qed.

Lemma moved_ok r p to now :
  sweep_row_ok r -> pt_status p = Some to -> to ∈ sweep_edges r -> txid_kept r p ->
  sweep_row_ok (patched r p now).
Proof.
  intros [Hc Hs Hsent Hun Hap] Hp He [Ht Hb]. split; [done | done | | |]; cbn; rewrite ?Hp; cbn.
  - intros Hto. destruct (pt_txid p) as [t|]; cbn; [done|]. apply Hsent. rewrite Hp in Ht.
    eapply edge_sent; [exact He | congruence | exact Hto].
  - intros Hto. assert (Hnone := edge_unsent _ _ Hun He Hto).
    destruct (pt_txid p) as [t|]; cbn; [|done]. rewrite Hp in Ht.
    destruct Ht as [[_ [= ->]]|Ht]; [not_in Hto | congruence].
  - intros Hsome. destruct (sr_txid r) as [t|] eqn:Hr.
    + destruct (Hap (ex_intro _ t eq_refl)) as [[x ->] [y ->]]. destruct (pt_approvedAt p), (pt_broadcastAt p); eauto.
    + destruct (pt_txid p) as [t|]; cbn in Hsome; [|by destruct Hsome].
      destruct Ht as [[Hpl Hto]|Ht]; [|done]. destruct (Hb Hpl Hto) as [[x ->] [y ->]]. eauto.
Qed.

Lemma noted_ok r p now :
  sweep_row_ok r -> pt_status p = None -> pt_txid p = None -> sweep_row_ok (patched r p now).
Proof.
  intros [Hc Hs Hsent Hun Hap] Hp Ht. split; cbn; rewrite ?Hp, ?Ht; cbn; try done.
  intros [[x ->] [y ->]]%Hap. destruct (pt_approvedAt p), (pt_broadcastAt p); eauto.
Qed.

(** Replacing one row: its lease follows its status. *)
Lemma sweep_inv_patch d id r p now :
  sweep_inv d -> sweeps d !! id = Some r -> sweep_row_ok (patched r p now) ->
  (active_sweep (patched r p now) -> active_sweep r) ->
  (patch_terminal p = false -> active_sweep r -> active_sweep (patched r p now)) ->
  (patch_terminal p = true -> ~ active_sweep (patched r p now)) ->
  sweep_inv (patch_sweep id p now d).
Proof.
  intros [Hr Hh Ho] Hid Hok Hback Hkeep Hend. unfold patch_sweep, patch_row. rewrite Hid.
  destruct (patch_terminal p) eqn:Ht; split; cbn.
  - intros i x [[<- <-]|[_ Hx]]%lookup_insert_Some; [done | by eapply Hr].
  - intros i x [[<- <-]|[Hne Hx]]%lookup_insert_Some Ha; [by destruct (Hend eq_refl)|].
    destruct (Hh i x Hx Ha) as (l & Hl & Hk & Hi). exists l. split; [|done].
    apply map_lookup_filter_Some. split; [done|]. intros [_ H]. congruence.
  - intros w l [Hl Hn]%map_lookup_filter_Some Hk. destruct (Ho w l Hl Hk) as (x & Hx & Hw & Ha).
    exists x. rewrite lookup_insert_ne by (intros ->; by apply Hn). done.
  - intros i x [[<- <-]|[_ Hx]]%lookup_insert_Some; [done | by eapply Hr].
  - intros i x [[<- <-]|[_ Hx]]%lookup_insert_Some Ha; [by apply (Hh id r Hid), Hback | by apply Hh].
  - intros w l Hl Hk. destruct (Ho w l Hl Hk) as (x & Hx & Hw & Ha).
    destruct (decide (l_id l = id)) as [He|He].
    + rewrite He in Hx. rewrite Hid in Hx. injection Hx as <-. exists (patched r p now).
      rewrite He, lookup_insert_eq. split_and!; [done | done | by apply Hkeep].
    + exists x. by rewrite lookup_insert_ne.
Qed.

Lemma sweep_write_inv d l d' : sweep_inv d -> sweep_write d l d' -> sweep_inv d'.
Proof.
  intros Hi Hw. destruct Hw as [id wallet plan now Hn Hno Hid Hs|id r p to now Hid Hp He Ht|id r p now Hid Hp Ht].
  - destruct Hi as [Hr Hh Ho]. split; cbn.
    + intros i x [[<- <-]|[_ Hx]]%lookup_insert_Some; [by apply new_sweep_ok | by eapply Hr].
    + intros i x [[<- <-]|[_ Hx]]%lookup_insert_Some Ha.
      * eexists. rewrite lookup_insert_eq. done.
      * destruct (Hh i x Hx Ha) as (l & Hl & Hk & Hil). exists l.
        rewrite lookup_insert_ne by (intros Heq; congruence). done.
    + intros w l [[<- <-]|[_ Hl]]%lookup_insert_Some Hk.
      * eexists. cbn. rewrite lookup_insert_eq. split_and!; [done|done|].
        unfold active_sweep. cbn. constructor.
      * destruct (Ho w l Hl Hk) as (x & Hx & Hxw & Ha). exists x.
        rewrite lookup_insert_ne by (intros ->; congruence). done.
  - eapply sweep_inv_patch; [exact Hi | exact Hid | | | |].
    + eapply moved_ok; [by eapply si_rows | exact Hp | done | done].
    + unfold active_sweep at 1. cbn. rewrite Hp. cbn. intros Ha. destruct (decide (active_sweep r)); [done|].
      by destruct (edge_from_terminal _ _ He n).
    + unfold patch_terminal, active_sweep. cbn. rewrite Hp. cbn.
      intros Hnt%bool_decide_eq_false _. rewrite edge_active_terminal in Hnt.
      destruct (decide (to ∈ activeSweepStatuses)); done.
    + unfold patch_terminal, active_sweep. cbn. rewrite Hp. cbn.
      by intros Hnt%bool_decide_eq_true%edge_active_terminal.
  - eapply sweep_inv_patch; [exact Hi | exact Hid | | | |].
    + by eapply noted_ok; [eapply si_rows|..].
    + unfold active_sweep. cbn. by rewrite Hp.
    + unfold active_sweep. cbn. by rewrite Hp.
    + unfold patch_terminal. by rewrite Hp.
Qed.

Section Protocol.

Context {digest_of : Digest}.

Lemma write_sweep_inv d l d' : sweep_inv d -> write d l d' -> sweep_inv d'.
Proof.
  intros Hi Hw. destruct l as [|id to|from| | |k];
    try (destruct (write_not_sweep _ _ _ Hw) as [Hs Hl]; [done|]; by eapply sweep_inv_same).
  inversion Hw; subst. by eapply sweep_write_inv.
Qed.

End Protocol.
