(* ===== verification/RunLogic.v ===== *)
(** * Reasoning about repository computations

    [wp P m Phi d]: from the database [d], everything [m] commits is a sequence of protocol
    writes whose labels satisfy [P], also when [m] throws or the process stops in between, and
    a normal return satisfies [Phi].  There is one rule per operation of the store. *)

From S2P Require Import Prelude OperationPlan Recipe RunStore SweepStore RunProtocol.

Open Scope Z_scope.

Section Writes.

Context {digest_of : Digest}.

Lemma writes_refl P d : writes P d d.
Proof. apply rtc_refl. Qed.

Lemma writes_trans P d1 d2 d3 : writes P d1 d2 -> writes P d2 d3 -> writes P d1 d3.
Proof. unfold writes. intros H1 H2. by etrans. Qed.

Lemma writes_one (P : Label -> Prop) d l d' : P l -> write d l d' -> writes P d d'.
Proof. intros Hp Hw. apply rtc_once. eauto. Qed.

Lemma writes_mono (P Q : Label -> Prop) d d' : (forall l, P l -> Q l) -> writes P d d' -> writes Q d d'.
Proof. intros H. apply rtc_subrel. intros x y (l & Hl & Hw). eauto. Qed.

End Writes.

Section Logic.

Context {digest_of : Digest} (P : Label -> Prop).

Record wp {A} (m : repo A) (Phi : A -> Db -> Prop) (d : Db) : Prop := {
  wp_commits : forall d', d' ∈ snd (m d) -> writes P d d';
  wp_post : forall a, fst (m d) = Ok a -> Phi a (after d (snd (m d)));
}.

Lemma wp_after {A} (m : repo A) Phi d : wp m Phi d -> writes P d (after d (snd (m d))).
Proof.
  intros [Hc _]. destruct (snd (m d)) as [|d' l]; cbn; [apply writes_refl|].
  apply Hc. constructor.
Qed.

Lemma wp_mono {A} (m : repo A) (Phi Psi : A -> Db -> Prop) d :
  wp m Phi d -> (forall a d', Phi a d' -> Psi a d') -> wp m Psi d.
Proof. intros [Hc Hp] Hm. split; auto. Qed.

Lemma wp_ret {A} (a : A) (Phi : A -> Db -> Prop) d : Phi a d -> wp (mret a) Phi d.
Proof. intros H. split; cbn; [by intros ? ?%elem_of_nil | by intros ? [= <-]]. Qed.

Lemma wp_raise {A} e (Phi : A -> Db -> Prop) d : wp (raise e) Phi d.
Proof. split; cbn; [by intros ? ?%elem_of_nil | done]. Qed.

Lemma wp_gets {A} (f : Db -> A) (Phi : A -> Db -> Prop) d : Phi (f d) d -> wp (gets f) Phi d.
Proof. intros H. split; cbn; [by intros ? ?%elem_of_nil | by intros ? [= <-]]. Qed.

Lemma wp_modify f (Phi : unit -> Db -> Prop) d :
  writes P d (f d) -> Phi tt (f d) -> wp (modify f) Phi d.
Proof.
  intros Hw H. split; cbn; [by intros ? ->%list_elem_of_singleton | by intros [] _].
Qed.

Lemma after_app d l l' : after d (l' ++ l) = after (after d l) l'.
Proof. by destruct l'. Qed.

Lemma wp_bind {A B} (m : repo A) (k : A -> repo B) Phi d :
  wp m (fun a d' => wp (k a) Phi d') d -> wp (m ≫= k) Phi d.
Proof.
  intros Hm. assert (Ha := wp_after _ _ _ Hm). destruct Hm as [Hc Hp].
  unfold mbind, repo_bind. destruct (m d) as [[a|e] l] eqn:E; cbn in *.
  - destruct (Hp a eq_refl) as [Hc' Hp'].
    destruct (k a (after d l)) as [r l'] eqn:E'; cbn in *.
    split; cbn; rewrite E, E'; cbn.
    + intros d' [H|H]%elem_of_app; [|by apply Hc].
      eapply writes_trans; [exact Ha | by apply Hc'].
    + intros b Hb. rewrite after_app. by apply Hp'.
  - split; cbn; rewrite E; cbn; [done|]. intros b [=].
Qed.

Lemma wp_catch {A} (m : repo A) h (Phi : A -> Db -> Prop) d :
  wp m Phi d -> (forall e d', writes P d d' -> wp (h e) Phi d') -> wp (catch m h) Phi d.
Proof.
  intros Hm Hh. assert (Ha := wp_after _ _ _ Hm). destruct Hm as [Hc Hp].
  unfold catch. destruct (m d) as [[a|e] l] eqn:E; cbn in *.
  - split; cbn; rewrite E; cbn; [done | by intros ? [= <-]; apply Hp].
  - destruct (Hh e _ Ha) as [Hc' Hp']. destruct (h e (after d l)) as [r l'] eqn:E'; cbn in *.
    split; cbn; rewrite E, E'; cbn.
    + intros d' [H|H]%elem_of_app; [|by apply Hc].
      eapply writes_trans; [exact Ha | by apply Hc'].
    + intros b Hb. rewrite after_app. by apply Hp'.
Qed.

Lemma wp_guard_repo b e (Phi : unit -> Db -> Prop) d :
  (b = true -> Phi tt d) -> wp (guard_repo b e) Phi d.
Proof. intros H. destruct b; [apply wp_ret; auto | apply wp_raise]. Qed.

(** ** Reads *)

Lemma wp_get id Phi d :
  (forall r, runs d !! id = Some r -> (inFlight r <= 1)%nat -> Phi (Some r) d) ->
  (runs d !! id = None -> Phi None d) -> wp (get id) Phi d.
Proof.
  intros Hs Hn. unfold get. apply wp_bind, wp_gets. destruct (runs d !! id) as [r|]; [|by apply wp_ret, Hn].
  apply wp_bind, wp_guard_repo. intros Hf%bool_decide_eq_true. apply wp_ret. by apply Hs.
Qed.

Lemma wp_require_run id Phi d :
  (forall r, runs d !! id = Some r -> Phi r d) -> wp (require_run id) Phi d.
Proof.
  intros Hs. unfold require_run. apply wp_bind, wp_get; [|intros _; apply wp_raise].
  intros r Hr _. by apply wp_ret, Hs.
Qed.

Lemma wp_attempts id i Phi d :
  Phi (attempts_of id i d) d -> wp (attempts id i) Phi d.
Proof. apply wp_gets. Qed.

(** ** Transitions *)

Definition put_status (id : string) (r : Run) (t : Transition) (d : Db) : Db :=
  {| leases := if bool_decide (t_to t ∈ terminalRunStatuses)
               then released id (leases d) else leases d;
     runs := <[id := transitioned r t]> (runs d);
     preparations := preparations d; sweeps := sweeps d |}.

(** A transition commits once or throws without a trace. *)
Lemma transition_cases id t d :
  (exists e, transition id t d = (Err e, [])) \/
  (exists r, runs d !! id = Some r /\ ru_status r ∈ t_from t /\
     run_row_ok (transitioned r t) = true /\
     transition id t d = (Ok (transitioned r t), [put_status id r t d])).
Proof.
  unfold transition, transaction, require_run, get, mbind, repo_bind, gets, raise, mret, repo_ret.
  destruct (runs d !! id) as [r|] eqn:Hr; cbn; rewrite ?Hr; cbn; [|by left; eauto].
  destruct (bool_decide_reflect (inFlight r <= 1)%nat) as [Hf|Hf]; cbn; [|by left; eauto].
  destruct (bool_decide_reflect (ru_status r ∈ t_from t)) as [Hs|Hs]; cbn; [|by left; eauto].
  destruct (run_row_ok (transitioned r t)) eqn:Hrow; cbn; [|by left; eauto].
  right. exists r. split_and!; try done. unfold put_status.
  destruct (bool_decide (t_to t ∈ terminalRunStatuses)); cbn; rewrite lookup_insert_eq; cbn;
    (rewrite bool_decide_eq_true_2 by done); reflexivity.
Qed.

Lemma transition_returns id r t d :
  runs d !! id = Some r -> (inFlight r <= 1)%nat -> ru_status r ∈ t_from t ->
  run_row_ok (transitioned r t) = true ->
  transition id t d = (Ok (transitioned r t), [put_status id r t d]).
Proof.
  intros Hr Hf Hs Hrow.
  unfold transition, transaction, require_run, get, mbind, repo_bind, gets, raise, mret, repo_ret.
  cbn. rewrite Hr. cbn.
  destruct (bool_decide_reflect (inFlight r <= 1)%nat); cbn; [|done].
  destruct (bool_decide_reflect (ru_status r ∈ t_from t)); cbn; [|done]. rewrite Hrow. cbn.
  unfold put_status. destruct (bool_decide (t_to t ∈ terminalRunStatuses)); cbn;
    rewrite lookup_insert_eq; cbn; by rewrite bool_decide_eq_true_2.
Qed.

Lemma wp_transition id t Phi d :
  (forall r, runs d !! id = Some r -> ru_status r ∈ t_from t ->
     t_to t ∈ status_edges (ru_status r) /\
     (t_to t = completed -> (List.length (ru_children r) <= ru_cursor r)%nat) /\
     P (l_status id (t_to t)) /\ Phi (transitioned r t) (put_status id r t d)) ->
  wp (transition id t) Phi d.
Proof.
  intros H. destruct (transition_cases id t d) as [[e E] | (r & Hr & Hs & Hrow & E)].
  - split; rewrite E; cbn; [by intros ? ?%elem_of_nil | done].
  - destruct (H r Hr Hs) as (He & Hc & Hp & HPhi). split; rewrite E; cbn.
    + intros d' ->%list_elem_of_singleton. eapply writes_one; [exact Hp|]. by constructor.
    + by intros ? [= <-].
Qed.

End Logic.

(** ** Reading back a computation that returned *)

Lemma guard_returned {A} b e (k : unit -> repo A) d a l :
  (guard_repo b e ≫= k) d = (Ok a, l) -> b = true /\ k tt d = (Ok a, l).
Proof.
  destruct b; unfold mbind, repo_bind; cbn; [|done].
  destruct (k tt d) as [r l']. rewrite app_nil_r. by intros [= -> ->].
Qed.

Lemma gets_returned {A B} (f : Db -> A) (k : A -> repo B) d b l :
  (gets f ≫= k) d = (Ok b, l) -> k (f d) d = (Ok b, l).
Proof. unfold mbind, repo_bind. cbn. destruct (k (f d) d) as [r l']. by rewrite app_nil_r. Qed.

Lemma get_returned {A} id (k : option Run -> repo A) d a l :
  (get id ≫= k) d = (Ok a, l) -> k (runs d !! id) d = (Ok a, l).
Proof.
  unfold get, gets, mbind, repo_bind. cbn. destruct (runs d !! id) as [r|]; cbn.
  - destruct (bool_decide _); cbn; [|done]. destruct (k (Some r) d). by rewrite app_nil_r.
  - destruct (k None d). by rewrite app_nil_r.
Qed.

Lemma bind_returns {A B} (m : repo A) (k : A -> repo B) d a b l1 l2 :
  m d = (Ok a, l1) -> k a (after d l1) = (Ok b, l2) -> (m ≫= k) d = (Ok b, l2 ++ l1).
Proof. unfold mbind, repo_bind. intros -> H. by rewrite H. Qed.

Lemma bind_returned {A B} (m : repo A) (k : A -> repo B) d b l :
  (m ≫= k) d = (Ok b, l) -> exists a l1 l2,
    m d = (Ok a, l1) /\ k a (after d l1) = (Ok b, l2) /\ l = l2 ++ l1.
Proof.
  unfold mbind, repo_bind. destruct (m d) as [[a|e] l1]; [|done].
  destruct (k a (after d l1)) as [r l2] eqn:E. intros [= -> <-]. by exists a, l1, l2.
Qed.

(** ** The child a tick works on

    A tick keeps a snapshot of its run across its awaits.  [held id run c d]: the row still
    has the snapshot's cursor, gas account and recipe, and [c] is the child at the cursor. *)

Section Held.

Context {digest_of : Digest}.

Definition held (id : string) (run : Run) (c : Child) (d : Db) : Prop :=
  exists r, runs d !! id = Some r /\ ru_cursor r = ru_cursor run /\
    ru_gasSpentUstx r = ru_gasSpentUstx run /\ ru_recipe r = ru_recipe run /\
    ru_children r !! ru_cursor run = Some c.

Lemma held_child_at id run c d : held id run c d -> child_at id (ru_cursor run) d = Some c.
Proof.
  intros (r & Hr & _ & _ & _ & Hc). unfold child_at, mbind, option_bind. by rewrite Hr.
Qed.

Lemma held_attempts id run c d :
  held id run c d -> attempts_of id (ru_cursor run) d = ch_attempts c.
Proof. intros H. unfold attempts_of. by rewrite (held_child_at _ _ _ _ H). Qed.

Lemma held_ok id run c d :
  inv d -> held id run c d -> child_ok (r_feeCapUstx (ru_recipe run)) c.
Proof.
  intros Hi (r & Hr & _ & _ & <- & Hc). eapply inv_child; [|exact Hc]. by eapply inv_runs.
Qed.

Lemma held_gas id run c d a :
  inv d -> held id run c d -> a ∈ ch_attempts c -> at_feeUstx a <= rest_of run.
Proof.
  intros Hi (r & Hr & Hk & Hg & He & Hc) Ha. unfold rest_of. rewrite <- Hg, <- He.
  rewrite <- Hk in Hc. assert (H := inv_gas_next r (inv_runs d Hi _ _ Hr) _ _ Hc Ha). lia.
Qed.

Lemma held_put id run c c' d :
  held id run c d -> held id run c' (put_child id (ru_cursor run) c' d).
Proof.
  intros (r & Hr & Hk & Hg & He & Hc). unfold put_child. rewrite Hr.
  eexists. cbn. rewrite lookup_insert_eq. split_and!; [done|done|done|done|].
  cbn. apply list_lookup_insert_eq. by eapply lookup_lt_Some.
Qed.

Lemma held_write id run c c' d :
  held id run c d -> child_step (r_feeCapUstx (ru_recipe run)) (rest_of run) c c' ->
  child_terms c' = child_terms c ->
  write d (l_child (ch_status c)) (put_child id (ru_cursor run) c' d).
Proof.
  intros (r & Hr & Hk & Hg & He & Hc) Hs Ht. unfold put_child. rewrite Hr, <- Hk.
  apply w_child with (r := r); [done | by rewrite Hk | | done].
  unfold rest_of in *. by rewrite Hg, He.
Qed.

Lemma held_row id r c d :
  runs d !! id = Some r -> ru_children r !! ru_cursor r = Some c -> held id r c d.
Proof. intros Hr Hc. by exists r. Qed.

(** Writes by others that never touch a child unless it halted leave a held child alone. *)
Definition outside (l : Label) : Prop :=
  match l with l_child from => from = child_halted | l_advance => False | _ => True end.

Lemma held_outside id run c d l d' :
  write d l d' -> outside l -> held id run c d ->
  exists c', held id run c' d' /\ child_terms c' = child_terms c /\
    (ch_status c <> child_halted -> c' = c).
Proof.
  intros Hw Ho (r & Hr & Hk & Hg & He & Hc).
  assert (Hsame : forall d1 : Db, runs d1 !! id = Some r ->
            exists c', held id run c' d1 /\ child_terms c' = child_terms c /\
              (ch_status c <> child_halted -> c' = c)).
  { intros d1 H1. exists c. split; [|done]. exists r. done. }
  destruct Hw as [i wallet sha recipe expires now _ _ Hn _ _|i x t Hx _ _ _|i x b b' Hx Hb Hs Ht
    |i x b gas now _ _ _ _|sl d1 (He1 & _ & _)%sweep_write_runs|m];
    cbn in Ho; try done; try (by apply Hsame); try (apply Hsame; by rewrite He1).
  - apply Hsame. cbn. rewrite lookup_insert_ne by (intros ->; congruence). done.
  - destruct (decide (i = id)) as [->|Hne].
    + exists c. split; [|done]. exists (transitioned x t). cbn. rewrite lookup_insert_eq.
      rewrite Hr in Hx. injection Hx as <-. done.
    + apply Hsame. cbn. by rewrite lookup_insert_ne.
  - destruct (decide (i = id)) as [->|Hne].
    + rewrite Hr in Hx. injection Hx as <-. rewrite Hk in Hb.
      assert (b = c) as -> by congruence. exists b'. split; [|split; [done | congruence]].
      eexists. cbn. rewrite lookup_insert_eq. split_and!; [done|done|done|done|].
      cbn. rewrite Hk. apply list_lookup_insert_eq. by eapply lookup_lt_Some.
    + apply Hsame. cbn. by rewrite lookup_insert_ne.
Qed.

Lemma held_writes (P : Label -> Prop) id run c d d' :
  (forall l, P l -> outside l) -> writes P d d' -> held id run c d ->
  exists c', held id run c' d' /\ child_terms c' = child_terms c /\
    (ch_status c <> child_halted -> c' = c).
Proof.
  intros Ho Hw. revert c. induction Hw as [d|d d1 d2 (l & Hl & Hw) _ IH]; intros c Hc.
  - by exists c.
  - destruct (held_outside _ _ _ _ _ _ Hw (Ho _ Hl) Hc) as (c1 & Hc1 & Ht1 & H1).
    destruct (IH _ Hc1) as (c2 & Hc2 & Ht2 & H2). exists c2. split; [done|].
    split; [congruence|]. intros Hn. rewrite (H1 Hn) in H2. auto.
Qed.

Lemma held_same (P : Label -> Prop) id run c d d' :
  (forall l, P l -> outside l) -> writes P d d' -> held id run c d -> ch_status c <> child_halted ->
  held id run c d'.
Proof.
  intros Ho Hw Hc Hn. destruct (held_writes _ _ _ _ _ _ Ho Hw Hc) as (c' & Hc' & _ & He).
  by rewrite <- (He Hn).
Qed.

(** ** Child and attempt operations *)

End Held.

Section ChildRules.

Context {digest_of : Digest} (P : Label -> Prop).

Abbreviation stepped run c c' := (child_step (r_feeCapUstx (ru_recipe run)) (rest_of run) c c').

Lemma wp_put_child id run c c' Phi d :
  held id run c d -> stepped run c c' -> child_terms c' = child_terms c ->
  P (l_child (ch_status c)) ->
  Phi tt (put_child id (ru_cursor run) c' d) ->
  wp P (modify (put_child id (ru_cursor run) c')) Phi d.
Proof.
  intros Hh Hs Ht Hp HPhi. apply wp_modify; [|done].
  eapply writes_one; [exact Hp | by apply held_write].
Qed.

Lemma wp_requireChild id run c Phi d :
  held id run c d -> Phi c d -> wp P (requireChild id (ru_cursor run)) Phi d.
Proof.
  intros Hh HPhi. unfold requireChild. apply wp_bind, wp_gets.
  rewrite (held_child_at _ _ _ _ Hh). by apply wp_ret.
Qed.

Lemma wp_updateChild id run c u Phi d :
  held id run c d ->
  (ch_status c ∈ u_from u -> stepped run c (updated_child c u) /\ P (l_child (ch_status c)) /\
     Phi (updated_child c u) (put_child id (ru_cursor run) (updated_child c u) d)) ->
  wp P (updateChild id (ru_cursor run) u) Phi d.
Proof.
  intros Hh H. unfold updateChild. eapply wp_bind, wp_requireChild; [exact Hh|].
  apply wp_bind, wp_guard_repo. intros Hs%bool_decide_eq_true. destruct (H Hs) as (Hst & Hp & HPhi).
  eapply wp_bind, wp_put_child; [exact Hh | exact Hst | done | exact Hp |].
  eapply wp_requireChild; [by eapply held_put | done].
Qed.

Lemma wp_materializeChild id run c plan amount now Phi d :
  held id run c d -> P (l_child pending) ->
  (ch_status c = pending ->
   Phi (materialized_child c plan amount now)
       (put_child id (ru_cursor run) (materialized_child c plan amount now) d)) ->
  wp P (materializeChild id (ru_cursor run) plan amount now) Phi d.
Proof.
  intros Hh Hp HPhi. unfold materializeChild. eapply wp_bind, wp_requireChild; [exact Hh|].
  apply wp_bind, wp_guard_repo. intros Hs%bool_decide_eq_true.
  apply wp_bind, wp_guard_repo. intros _.
  eapply wp_bind, wp_put_child; [exact Hh | by apply cs_materialize | done | by rewrite Hs |].
  eapply wp_requireChild; [by eapply held_put | auto].
Qed.

Lemma wp_resetUnattempted id run c now Phi d :
  held id run c d -> P (l_child materialized) ->
  Phi tt (put_child id (ru_cursor run) (reset_child c now) d) ->
  wp P (resetUnattemptedMaterializedChild id (ru_cursor run) now) Phi d.
Proof.
  intros Hh Hp HPhi. unfold resetUnattemptedMaterializedChild, conflict.
  apply wp_bind, wp_attempts. rewrite (held_attempts _ _ _ _ Hh).
  apply wp_bind, wp_guard_repo. intros He%bool_decide_eq_true.
  apply wp_bind, wp_gets. rewrite (held_child_at _ _ _ _ Hh).
  destruct (bool_decide_reflect (ch_status c = materialized)) as [Hs|Hs]; [|apply wp_raise].
  eapply wp_put_child; [exact Hh | by apply cs_discard; cbn | done | by rewrite Hs | done].
Qed.

Lemma wp_resetRejected id run c now Phi d :
  held id run c d -> P (l_child child_halted) ->
  Phi tt (put_child id (ru_cursor run) (reset_rejected c now) d) ->
  wp P (resetRejectedChild id (ru_cursor run) now) Phi d.
Proof.
  intros Hh Hp HPhi. unfold resetRejectedChild. eapply wp_bind, wp_requireChild; [exact Hh|].
  apply wp_bind, wp_attempts. apply wp_bind, wp_guard_repo.
  intros [Hs%bool_decide_eq_true _]%andb_true_iff.
  eapply wp_put_child; [exact Hh | by apply cs_retry | done | by rewrite Hs | done].
Qed.

Lemma wp_advanceCursor id run c gas now Phi d :
  held id run c d -> done_status (ch_status c) -> P l_advance ->
  (gas = ru_gasSpentUstx run \/
   exists a, a ∈ ch_attempts c /\ gas = ru_gasSpentUstx run + at_feeUstx a) ->
  (forall r d', Phi r d') ->
  wp P (advanceCursor id (ru_cursor run) gas now) Phi d.
Proof.
  intros (r & Hr & Hk & Hg & He & Hc) Hd Hp Hgas HPhi. unfold advanceCursor, conflict.
  apply wp_bind, wp_gets. rewrite Hr. rewrite bool_decide_eq_true_2 by done.
  apply wp_bind, wp_modify.
  - eapply writes_one; [exact Hp|]. eapply w_advance; [exact Hr | by rewrite Hk | done |].
    by rewrite Hg.
  - apply wp_require_run. auto.
Qed.

Lemma wp_updateAttempt id run c i state res now Phi d :
  held id run c d -> P (l_child (ch_status c)) ->
  (forall c', c' = with_attempts c (alter (set_attempt state res now) i (ch_attempts c)) ->
     stepped run c c' /\ Phi tt (put_child id (ru_cursor run) c' d)) ->
  wp P (updateAttempt id (ru_cursor run) i state res now) Phi d.
Proof.
  intros Hh Hp H. destruct (H _ eq_refl) as [Hs HPhi]. unfold updateAttempt.
  apply wp_bind, wp_gets. rewrite (held_child_at _ _ _ _ Hh).
  by eapply wp_put_child.
Qed.

Lemma wp_insertAttempt id run c txid nonce fee now Phi d :
  held id run c d -> P (l_child materialized) ->
  ch_status c = materialized -> all_rejected (ch_attempts c) ->
  fee <= r_feeCapUstx (ru_recipe run) -> fee <= rest_of run ->
  (let a := new_attempt txid nonce fee signed now in
   Phi (List.length (ch_attempts c))
     (put_child id (ru_cursor run) (with_attempts c (ch_attempts c ++ [a])) d)) ->
  wp P (insertAttempt id (ru_cursor run) txid nonce fee signed now) Phi d.
Proof.
  intros Hh Hp Hs Hr Hcap Hrest HPhi. unfold insertAttempt.
  apply wp_bind, wp_gets, wp_bind, wp_gets. rewrite (held_child_at _ _ _ _ Hh).
  apply wp_bind, wp_guard_repo. intros _.
  eapply wp_bind, wp_put_child; [exact Hh | by eapply (cs_sign_new _ _ _ _ (new_attempt txid nonce fee signed now)) | done | by rewrite Hs |].
  by apply wp_ret.
Qed.

End ChildRules.

(** ** Inserting a run *)

Section Insert.

Context {digest_of : Digest}.

Lemma lease_busy_false wallet kind id d :
  lease_busy wallet kind id d = false ->
  leases d !! wallet = None /\
  (forall w l, leases d !! w = Some l -> ~ (l_kind l = kind /\ l_id l = id)).
Proof.
  unfold lease_busy. intros [Hw He]%orb_false_iff. split.
  - apply bool_decide_eq_false in Hw. destruct (leases d !! wallet); [|done]. by destruct Hw.
  - intros w l Hl [Hk Hi]. assert (existsb (fun '(_, l) => bool_decide (l_kind l = kind) &&
        String.eqb (l_id l) id) (map_to_list (leases d)) = true) as Ht; [|congruence].
    apply existsb_exists. exists (w, l). split.
    + apply list_elem_of_In. by apply elem_of_map_to_list.
    + apply andb_true_iff. split; [by apply bool_decide_eq_true | by apply String.eqb_eq].
Qed.

Definition put_run (id wallet sha : string) (recipe : Recipe) (expires now : Z) (d : Db) : Db :=
  {| leases := <[wallet := lease_for id now]> (leases d);
     runs := <[id := new_run wallet sha recipe expires now]> (runs d);
     preparations := preparations d; sweeps := sweeps d |}.

Lemma insert_run_cases isUuid id wallet sha recipe expires now d :
  (exists e, insert_run isUuid id wallet sha recipe expires now d = (Err e, [])) \/
  (lease_busy wallet lease_reward_run id d = false /\ runs d !! id = None /\
   rewardRunRecipeSchema isUuid recipe = true /\
   insert_run isUuid id wallet sha recipe expires now d =
     (Ok (new_run wallet sha recipe expires now), [put_run id wallet sha recipe expires now d])).
Proof.
  unfold insert_run, transaction, require_run, get, mbind, repo_bind, gets, raise, mret, repo_ret.
  destruct (rewardRunRecipeSchema isUuid recipe) eqn:Hs; cbn; [|by left; eauto].
  destruct (lease_busy wallet lease_reward_run id d) eqn:Hb; cbn; [by left; eauto|].
  destruct (runs d !! id) eqn:Hr; cbn; rewrite ?Hr; cbn; [by left; eauto|].
  destruct (forallb child_row_ok (r_children recipe)); cbn; [|by left; eauto].
  rewrite lookup_insert_eq. cbn.
  destruct (bool_decide _); cbn; [|by left; eauto]. by right.
Qed.

Lemma wp_insert_run P isUuid id wallet sha recipe expires now Phi d :
  P l_insert ->
  (rewardRunRecipeSchema isUuid recipe = true ->
     budgeted recipe /\ sealed_row id (new_run wallet sha recipe expires now)) ->
  (forall r d', Phi r d') ->
  wp P (insert_run isUuid id wallet sha recipe expires now) Phi d.
Proof.
  intros Hp Hb HPhi.
  destruct (insert_run_cases isUuid id wallet sha recipe expires now d) as [[e E]|(Hl & Hr & Hs & E)].
  - split; rewrite E; cbn; [by intros ? ?%elem_of_nil | done].
  - apply lease_busy_false in Hl as [Hw Ho]. split; rewrite E; cbn; [|auto].
    intros d' ->%list_elem_of_singleton. destruct (Hb Hs). eapply writes_one; [exact Hp|].
    by apply w_insert.
Qed.

End Insert.
