(* ===== verification/RunSafety.v ===== *)
(** * Safety of the reward-run service

    The service of [RunService] implements the protocol of [RunProtocol]: whatever the chain,
    the signer and the node answer, whatever the operator does between two segments of a tick,
    and wherever the process stops, the database only ever changes by protocol writes. *)

From S2P Require Import Prelude Text Principals OperationPlan Recipe.
From S2P Require Import RunStore Cadence RunService RunProtocol RunLogic.

Open Scope Z_scope.

(** ** What holds while a tick waits *)

(** The child is ready for its signature: sealed, within the fee cap and the rest of the gas
    budget, and no transaction of an earlier attempt can still be accepted. *)
Definition ready (run : Run) (plan : Plan) (fee : Z) (c : Child) : Prop :=
  ch_status c = materialized /\ ch_plan c = Some plan /\ all_rejected (ch_attempts c) /\
  fee <= r_feeCapUstx (ru_recipe run) /\ fee <= rest_of run.

(** The child's one open attempt is the transaction being broadcast. *)
Definition sent (tx : Signed) (i : nat) (c : Child) : Prop :=
  ch_status c = materialized /\
  (exists a, ch_attempts c !! i = Some a /\ at_state a = signed /\
     at_precomputedTxid a = sg_precomputedTxid tx) /\
  (forall j b, ch_attempts c !! j = Some b -> j <> i -> at_state b = rejected).

Definition phase_ok (p : Phase) (d : Db) : Prop :=
  match p with
  | idle => True
  | reconciling id run _ _ _ => exists c, held id run c d
  | materializing id run c0 _ => exists c, held id run c d /\ child_terms c = child_terms c0
  | checking_wallet id run _ plan fee _ | signing id run _ plan fee _ =>
      exists c, held id run c d /\ ready run plan fee c
  | broadcasting id run tx i => exists c, held id run c d /\ sent tx i c
  end.

Lemma phase_ok_writes {digest_of : Digest} (P : Label -> Prop) p d d' :
  (forall l, P l -> outside l) -> writes P d d' -> phase_ok p d -> phase_ok p d'.
Proof.
  intros Ho Hw. destruct p as [|id run c t n|id run c n|id run op plan fee n|id run op plan fee n|id run tx i];
    cbn; [done| | | | |].
  - intros (c0 & Hc). destruct (held_writes _ _ _ _ _ _ Ho Hw Hc) as (c' & Hc' & _). by exists c'.
  - intros (c0 & Hc & Ht). destruct (held_writes _ _ _ _ _ _ Ho Hw Hc) as (c' & Hc' & Ht' & _).
    exists c'. split; [done | congruence].
  - intros (c0 & Hc & Hr). exists c0. split; [by eapply held_same; [..|destruct Hr as [-> _]] | done].
  - intros (c0 & Hc & Hr). exists c0. split; [by eapply held_same; [..|destruct Hr as [-> _]] | done].
  - intros (c0 & Hc & Hr). exists c0. split; [by eapply held_same; [..|destruct Hr as [-> _]] | done].
Qed.

(** ** Rules for the service's own helpers *)

(** An operator approves the hash of the recipe's canonical JSON. *)
Definition recipe_digest (sha256 : list Z -> string) (localeCompare : string -> string -> Z) : Digest :=
  rewardRunRecipeSha256 sha256 localeCompare.

(** The writes of a tick. *)
Definition tick_label (l : Label) : Prop :=
  match l with
  | l_status _ to => to ∈ [running; halted; completed; expired]
  | l_child _ | l_advance => True
  | l_insert | l_preparation | l_sweep _ => False
  end.

Section Segments.

Context (isUuid : string -> bool) (sha256 : list Z -> string)
        (localeCompare : string -> string -> Z) (options : Options).

#[local] Instance run_digest : Digest := recipe_digest sha256 localeCompare.

Lemma wp_guard P b e (Phi : unit -> Db -> Prop) d :
  (b = true -> Phi tt d) -> wp P (guard b e) Phi d.
Proof. apply wp_guard_repo. Qed.

Lemma wp_service_get P id Phi d :
  (forall r, runs d !! id = Some r -> sealedRun sha256 localeCompare id r = true -> Phi r d) ->
  wp P (service_get sha256 localeCompare id) Phi d.
Proof.
  intros H. unfold service_get, throw. apply wp_bind, wp_get; [|intros _; apply wp_raise].
  intros r Hr _. apply wp_bind, wp_guard. intros Hs. apply wp_ret. by apply H.
Qed.

Lemma service_get_returned {A} id (k : Run -> repo A) d a l :
  (service_get sha256 localeCompare id ≫= k) d = (Ok a, l) ->
  exists r, runs d !! id = Some r /\ sealedRun sha256 localeCompare id r = true /\ k r d = (Ok a, l).
Proof.
  intros (r & l1 & l2 & H & Hk & ->)%bind_returned. unfold service_get in H.
  apply get_returned in H. destruct (runs d !! id) as [x|]; [|done].
  apply guard_returned in H as [Hs [= -> <-]]. exists r. by rewrite app_nil_r.
Qed.

Lemma wp_dedicated P accepted (Phi : unit -> Db -> Prop) d :
  Phi tt d -> wp P (assertDedicatedWallet accepted) Phi d.
Proof. intros H. destruct accepted; [by apply wp_guard | apply wp_raise]. Qed.

(** After a bind the invariant still holds. *)
Lemma wp_bind_inv {A B} P (m : repo A) (k : A -> repo B) Phi d :
  inv d -> wp P m (fun a d' => inv d' -> wp P (k a) Phi d') d -> wp P (m ≫= k) Phi d.
Proof.
  intros Hi Hm. apply wp_bind. assert (Hw := wp_after _ _ _ _ Hm). destruct Hm as [Hc Hp].
  split; [done|]. intros a Ha. apply Hp; [done|]. by eapply writes_inv.
Qed.

Lemma wp_halt P env id reason (Phi : unit -> Db -> Prop) d :
  P (l_status id halted) -> (forall d', Phi tt d') -> wp P (halt env id reason) Phi d.
Proof.
  intros Hp HPhi. unfold halt. apply wp_bind, wp_transition. cbn.
  intros r _ ->%list_elem_of_singleton. split_and!; [set_solver | done | done |].
  by apply wp_ret.
Qed.

Lemma wp_expireRunning P id run now (Phi : bool -> Db -> Prop) d :
  P (l_status id expired) ->
  (elapsed (ru_runtimeExpiresAt run) now = false -> Phi false d) -> (forall d', Phi true d') ->
  wp P (expireRunningRun id run now) Phi d.
Proof.
  intros Hp Hf Ht. unfold expireRunningRun. destruct (elapsed (ru_runtimeExpiresAt run) now).
  - apply wp_bind, wp_transition. cbn. intros r _ ->%list_elem_of_singleton.
    split_and!; [set_solver | done | done |]. by apply wp_ret.
  - by apply wp_ret, Hf.
Qed.

(** ** The segments of a tick *)

Lemma alter_insert (f : Attempt -> Attempt) (i : nat) (l : list Attempt) a :
  l !! i = Some a -> alter f i l = <[i := f a]> l.
Proof.
  revert i. induction l as [|b l IH]; intros [|i] H; cbn in *; try done.
  - by injection H as ->.
  - f_equal. by apply IH.
Qed.

Lemma wp_tick_start env due id d :
  inv d -> wp tick_label (tick_start sha256 localeCompare options env due id) phase_ok d.
Proof.
  intros Hi. unfold tick_start. apply wp_bind, wp_service_get. intros r0 Hr0 _. cbv zeta.
  apply wp_bind_inv; [done|].
  apply wp_mono with (Phi := fun run d' => runs d' !! id = Some run).
  { destruct (bool_decide (ru_status r0 = approved)); [|by apply wp_ret].
    apply wp_transition. cbn. intros r Hr ->%list_elem_of_singleton.
    split_and!; [set_solver | done | set_solver | apply lookup_insert_eq]. }
  clear d Hi r0 Hr0. intros run d Hrun Hi. destruct (negb _); [by apply wp_ret|].
  apply wp_bind, wp_expireRunning; [cbn; set_solver | | intros d'; by apply wp_ret].
  intros _. destruct (child_of_run run) as [c|] eqn:Hc; unfold child_of_run in Hc.
  2: { apply wp_bind, wp_transition. cbn. intros r Hr ->%list_elem_of_singleton.
       split_and!; [set_solver | | set_solver | by apply wp_ret].
       intros _. assert (r = run) as -> by congruence. by apply lookup_ge_None_1. }
  assert (Hh : held id run c d) by by apply held_row.
  destruct (ch_status c) eqn:Hs, (ch_txid c) as [txid|] eqn:Htx;
    try (apply wp_bind, wp_guard; intros _; apply wp_ret; exists c; done);
    try (eapply wp_bind, wp_advanceCursor; [exact Hh | rewrite Hs; unfold done_status; set_solver
           | done | by left | intros; by apply wp_ret]).
  1,2: apply wp_bind, wp_attempts; rewrite (held_attempts _ _ _ _ Hh);
    destruct (last (ch_attempts c)) as [a|] eqn:Hl.
  1,3: eapply wp_bind, wp_updateChild; [exact Hh|]; intros _; split_and!;
    [by eapply cs_recover | done |];
    apply wp_bind, wp_halt; [cbn; set_solver | intros d'; by apply wp_ret].
  1,2: eapply wp_bind, wp_resetUnattempted; [exact Hh | done | by apply wp_ret].
  unfold childPlan. apply wp_bind, wp_bind, wp_gets. rewrite (held_child_at _ _ _ _ Hh).
  apply wp_ret. destruct (ch_plan c).
  - destruct (negb _); apply wp_ret; [done | by exists c].
  - apply wp_bind, wp_halt; [cbn; set_solver | intros d'; by apply wp_ret].
Qed.

Lemma same_set state res now a : same_attempt a (set_attempt state res now a).
Proof. done. Qed.

Lemma last_at (l : list Attempt) a :
  last l = Some a -> l !! pred (List.length l) = Some a /\ a ∈ l.
Proof.
  intros H. rewrite last_lookup in H. split; [done | by eapply list_elem_of_lookup_2].
Qed.

Lemma wp_settle id run c now status provenance source d :
  held id run c d -> status ∈ [confirmed; externally_completed] ->
  wp tick_label (settleChild id run now status provenance source) phase_ok d.
Proof.
  intros Hh Hst. unfold settleChild. cbv zeta. eapply wp_bind, wp_updateChild; [exact Hh|].
  cbn [u_from update]. intros Hc%list_elem_of_singleton. split_and!; [by apply cs_done | done |].
  set (c1 := updated_child c _). assert (Hh1 := held_put _ _ _ c1 _ Hh).
  apply wp_bind, wp_attempts. rewrite (held_attempts _ _ _ _ Hh1).
  assert (Hd : done_status (ch_status c1)).
  { unfold done_status, completeChildStatuses. cbn. set_solver. }
  change (ch_attempts c1) with (ch_attempts c). destruct (last (ch_attempts c)) as [a|] eqn:Hl.
  2: { apply wp_bind, wp_ret. eapply wp_bind, wp_advanceCursor;
         [exact Hh1 | done | done | left; lia | intros; by apply wp_ret]. }
  destruct (last_at _ _ Hl) as [Hi Ha].
  destruct (bool_decide_reflect (status = confirmed)) as [->|_].
  2: { apply wp_bind, wp_ret. eapply wp_bind, wp_advanceCursor;
         [exact Hh1 | done | done | right; by exists a | intros; by apply wp_ret]. }
  eapply wp_bind, wp_updateAttempt; [exact Hh1 | done |]. intros c2 ->.
  rewrite (alter_insert _ _ _ _ Hi). split.
  { by eapply cs_confirm; [done | exact Hi | apply same_set | ..]. }
  eapply wp_bind, wp_advanceCursor; [by eapply held_put | done | done | | intros; by apply wp_ret].
  right. exists (set_attempt attempt_confirmed None now a). split; [|done].
  eapply list_elem_of_lookup_2, list_lookup_insert_eq, lookup_lt_Some, Hi.
Qed.

Lemma wp_tick_reconciled env id run c0 c now o d :
  held id run c d -> wp tick_label (tick_reconciled env id run c0 now o) phase_ok d.
Proof.
  intros Hh. unfold tick_reconciled. cbv zeta.
  destruct o as [[later ms|height src|reason src|reason src corroborate]|e];
    [by apply wp_ret | | | | apply wp_raise].
  - eapply wp_settle; [exact Hh | set_solver].
  - eapply wp_settle; [exact Hh | set_solver].
  - apply wp_bind. destruct (_ || _).
    + eapply wp_bind, wp_updateChild; [exact Hh|]. cbn [u_from update].
      intros Hc%list_elem_of_singleton. split_and!; [by apply cs_note | done |].
      apply wp_ret, wp_bind, wp_halt; [cbn; set_solver | intros; by apply wp_ret].
    + apply wp_ret, wp_bind, wp_halt; [cbn; set_solver | intros; by apply wp_ret].
Qed.

(** What [assertPlan] lets through. *)
Definition plan_accepted (id : string) (run : Run) (c : Child) (plan : Plan) (amount : option Z)
    : Prop :=
  planCommonOk id run (ru_cursor run) c (material plan) = Ok true /\
  exists rc, r_children (ru_recipe run) !! ru_cursor run = Some rc /\
    amountShapeOk rc amount = true /\ planBodyOk run rc (body (material plan)) amount = true.

Lemma wp_assertPlan P id run c plan amount (Phi : unit -> Db -> Prop) d :
  (plan_accepted id run c plan amount -> Phi tt d) ->
  wp P (assertPlan id run (ru_cursor run) c plan amount) Phi d.
Proof.
  intros H. unfold assertPlan, throw. destruct (planCommonOk _ _ _ _ _) as [b|e] eqn:Hc; [|apply wp_raise].
  apply wp_bind, wp_guard. intros ->.
  destruct (r_children (ru_recipe run) !! ru_cursor run) as [rc|] eqn:Hrc; [|apply wp_raise].
  apply wp_bind, wp_guard. intros Ha. apply wp_guard. intros Hb. apply H. split; [done|]. by exists rc.
Qed.

Lemma planCommonOk_fee id run i c m fee :
  planCommonOk id run i c m = Ok true -> BigInt (m_feeUstx m) = Some fee ->
  fee <= r_feeCapUstx (ru_recipe run).
Proof.
  unfold planCommonOk. intros H Hf. rewrite Hf in H. injection H as H.
  rewrite !andb_true_iff in H. destruct H as [_ H]. apply negb_true_iff, Z.ltb_ge in H. done.
Qed.

Lemma wp_tick_materialized env id run c0 c now o d :
  inv d -> held id run c d -> wp tick_label (tick_materialized env id run c0 now o) phase_ok d.
Proof.
  intros Hi Hh. unfold tick_materialized. cbv zeta.
  destruct o as [[plan amount|reason provenance|reason]|e]; [| | |apply wp_raise].
  - apply wp_bind, wp_assertPlan. intros [Hok _].
    destruct (BigInt (m_feeUstx (material plan))) as [fee|] eqn:Hf; [|apply wp_raise].
    destruct (Z.ltb_spec (r_gasBudgetUstx (ru_recipe run)) (ru_gasSpentUstx run + fee)).
    + apply wp_bind, wp_halt; [cbn; set_solver | intros; by apply wp_ret].
    + eapply wp_bind, wp_materializeChild; [exact Hh | done |]. intros Hp.
      apply wp_bind, wp_guard. intros _. apply wp_ret. eexists. split; [by eapply held_put|].
      unfold ready, rest_of. split_and!; [done | done | | by eapply planCommonOk_fee | lia].
      apply (ok_idle_rejected _ _ (held_ok _ _ _ _ Hi Hh)). rewrite Hp. set_solver.
  - eapply wp_bind, wp_updateChild; [exact Hh|]. cbn [u_from update].
    intros Hc%list_elem_of_singleton. split_and!; [by apply cs_skip | done |].
    eapply wp_bind, wp_advanceCursor; [by eapply held_put | | done | by left | intros; by apply wp_ret].
    unfold done_status, completeChildStatuses. cbn. set_solver.
  - apply wp_bind, wp_halt; [cbn; set_solver | intros; by apply wp_ret].
Qed.

Lemma wp_tick_wallet_checked env id run op plan fee now accepted c d :
  held id run c d -> ready run plan fee c ->
  wp tick_label (tick_wallet_checked sha256 localeCompare env id run op plan fee now accepted) phase_ok d.
Proof.
  intros Hh Hr. unfold tick_wallet_checked. apply wp_bind, wp_dedicated.
  apply wp_bind, wp_service_get. intros r _ _. destruct (_ || _); [by apply wp_ret|].
  apply wp_bind, wp_expireRunning; [cbn; set_solver | | intros; by apply wp_ret].
  intros _. apply wp_bind, wp_guard. intros _. apply wp_ret. by exists c.
Qed.

Lemma find_attempt_Some txid l i a :
  find_attempt txid l = Some (i, a) -> l !! i = Some a /\ at_precomputedTxid a = txid.
Proof.
  revert i. induction l as [|b l IH]; intros i; cbn; [done|].
  destruct (String.eqb_spec (at_precomputedTxid b) txid) as [He|He].
  - by intros [= <- <-].
  - destruct (find_attempt txid l) as [[k x]|]; [|done]. intros [= <- <-]. by apply IH.
Qed.

Lemma wp_tick_signed id run plan fee now o c d :
  held id run c d -> ready run plan fee c ->
  wp tick_label (tick_signed id run fee now o) phase_ok d.
Proof.
  intros Hh (Hs & _ & Hr & Hcap & Hrest). unfold tick_signed. cbv zeta.
  destruct o as [tx|e]; [|apply wp_raise]. apply wp_bind, wp_guard. intros Hfee%Z.eqb_eq.
  apply wp_bind, wp_attempts. rewrite (held_attempts _ _ _ _ Hh). apply wp_bind.
  destruct (find_attempt _ _) as [[i a]|] eqn:Hf.
  - apply find_attempt_Some in Hf as [Hi Htx]. unfold reuseRejectedAttempt.
    apply wp_bind, wp_guard. intros _.
    eapply wp_bind, wp_updateAttempt; [exact Hh | done |]. intros c2 ->.
    rewrite (alter_insert _ _ _ _ Hi). split.
    { by eapply cs_sign_again; [done | done | exact Hi | apply same_set | ..]. }
    apply wp_ret, wp_ret. eexists. split; [by eapply held_put|]. split_and!; [done | |].
    + eexists. split; [apply list_lookup_insert_eq; by eapply lookup_lt_Some | done].
    + cbn. intros j b Hb Hj. rewrite list_lookup_insert_ne in Hb by done.
      by eapply all_rejected_lookup.
  - eapply wp_insertAttempt; [exact Hh | done | done | done | lia | lia |].
    cbv zeta. apply wp_ret. eexists. split; [by eapply held_put|]. split_and!; [done | |].
    + eexists. split; [cbn; by apply list_lookup_middle | done].
    + cbn. intros j b Hb Hj. apply lookup_app_Some in Hb as [Hb|[Hge Hb]].
      * by eapply all_rejected_lookup.
      * apply list_lookup_singleton_Some in Hb as [? _]. lia.
Qed.

(** The result of a broadcast is stored on the attempt that was sent. *)
Lemma wp_result id run tx i c state res now Phi d :
  held id run c d -> sent tx i c -> state ∈ [accepted; ambiguous; rejected] ->
  (forall c', held id run c' (put_child id (ru_cursor run) c' d) ->
     ch_status c' = materialized -> (state = rejected -> all_rejected (ch_attempts c')) ->
     Phi tt (put_child id (ru_cursor run) c' d)) ->
  wp tick_label (updateAttempt id (ru_cursor run) i state res now) Phi d.
Proof.
  intros Hh (Hs & (a & Hi & _) & Ho) Hst HPhi. eapply wp_updateAttempt; [exact Hh | done |].
  intros c2 ->. rewrite (alter_insert _ _ _ _ Hi). split.
  { by eapply cs_result; [done | exact Hi | apply same_set | exact Ho | exact Hst | ..]. }
  apply HPhi; [by eapply held_put | done |]. intros ->. cbn. apply Forall_lookup. intros j b Hb.
  apply list_lookup_insert_Some in Hb as [(_ & <- & _)|[Hne Hb]]; [done|]. by eapply Ho.
Qed.

Lemma wp_tick_broadcast env id run tx i o c d :
  held id run c d -> sent tx i c ->
  wp tick_label (tick_broadcast sha256 localeCompare env id run tx i o) phase_ok d.
Proof.
  intros Hh Hsent. unfold tick_broadcast. cbv zeta.
  destruct o as [[txid|txid|txid msg]|e]; [| | |apply wp_raise]; apply wp_bind.
  1,2: eapply wp_bind, wp_result; [exact Hh | exact Hsent | set_solver |];
    intros c' Hh' Hs' _; eapply wp_updateChild; [exact Hh'|]; intros _;
    split_and!; [by eapply cs_submitted | done |].
  - by apply wp_ret.
  - apply wp_bind, wp_service_get. intros r _ _.
    apply wp_bind, wp_halt; [cbn; set_solver | intros; by apply wp_ret].
  - eapply wp_result; [exact Hh | exact Hsent | set_solver |]. intros c' Hh' Hs' Hr'.
    eapply wp_bind, wp_updateChild; [exact Hh'|]. intros _.
    split_and!; [by apply cs_refused; [| apply Hr' | |] | done |].
    apply wp_bind, wp_halt; [cbn; set_solver | intros; by apply wp_ret].
Qed.

Lemma wp_guardedTick_catch env id reason e (Phi : bool -> Db -> Prop) d :
  (forall b d', Phi b d') -> wp tick_label (guardedTick_catch env id reason e) Phi d.
Proof.
  intros H. unfold guardedTick_catch. apply wp_bind, wp_get; [|intros _; by apply wp_ret].
  intros r _ _. apply wp_bind, wp_attempts. cbv zeta. destruct (_ && _ && _); [by apply wp_ret|].
  apply wp_bind. destruct (bool_decide _).
  - apply wp_halt; [cbn; set_solver | intros; by apply wp_ret].
  - by apply wp_ret, wp_ret.
Qed.

Lemma wp_segment env id reason m d :
  wp tick_label m phase_ok d -> wp tick_label (segment env id reason m) phase_ok d.
Proof.
  intros H. apply wp_catch; [done|]. intros e d' _.
  apply wp_bind, wp_guardedTick_catch. intros. by apply wp_ret.
Qed.

Lemma wp_resumed env p o id m d :
  inv d -> phase_ok p d -> resumed sha256 localeCompare env p o = Some (id, m) ->
  wp tick_label m phase_ok d.
Proof.
  intros Hi Hp Hm. destruct p, o; cbn in Hm, Hp; try done; injection Hm as <- <-.
  - destruct Hp as [c0 Hc]. by eapply wp_tick_reconciled.
  - destruct Hp as (c0 & Hc & _). by eapply wp_tick_materialized.
  - destruct Hp as (c & Hc & Hr). by eapply wp_tick_wallet_checked.
  - destruct Hp as (c & Hc & Hr). by eapply wp_tick_signed.
  - destruct Hp as (c & Hc & Hr). by eapply wp_tick_broadcast.
Qed.

(** ** Operator actions *)

(** The writes of the operator's actions and of the recovery's expiries: none approves a run,
    moves the cursor or touches a child that did not halt. *)
Definition action_label (l : Label) : Prop :=
  match l with
  | l_status _ to => to <> approved
  | l_child from => from = child_halted
  | l_insert | l_preparation => True
  | l_advance | l_sweep _ => False
  end.

Lemma action_outside l : action_label l -> outside l.
Proof. by destruct l. Qed.

Lemma built_budgeted input recipe :
  buildRewardRunRecipe sha256 localeCompare input = Ok recipe ->
  rewardRunRecipeSchema isUuid recipe = true -> budgeted recipe.
Proof.
  intros H Hs. apply build_inv in H as (? & ? & H). destruct H as (_ & _ & _ & _ & _ & _ & _ & _ & _ & _ & _ & _ & Hc & Hg & _).
  split.
  - unfold rewardRunRecipeSchema in Hs. rewrite !andb_true_iff in Hs.
    destruct Hs as [[[[[[[[_ H] _] _] _] _] _] _] _]. by apply Z.leb_le in H.
  - by rewrite Hg, Hc.
Qed.

Lemma built_sealed input recipe expires now :
  buildRewardRunRecipe sha256 localeCompare input = Ok recipe ->
  sealed_row (i_runId input) (new_run (f_walletPrincipal (i_facts input))
    (rewardRunRecipeSha256 sha256 localeCompare recipe) recipe expires now).
Proof.
  intros H. apply build_inv in H as (selected & ? & _ & Hc & H).
  split; cbn.
  - by destruct_and! H.
  - by destruct_and! H.
  - done.
  - rewrite <- list_fmap_compose. by apply list_fmap_ext.
  - intros i c. rewrite Hc. unfold sealed. intros (w & _ & ->)%list_lookup_imap_Some. by destruct w.
Qed.

Lemma wp_of_result {A} P (m : result RewardRunErrorCode A) Phi d :
  (forall a, m = Ok a -> Phi a d) -> wp P (of_result m) Phi d.
Proof. intros H. destruct m; [by apply wp_ret, H | apply wp_raise]. Qed.

Definition any_run : Run -> Db -> Prop := fun _ _ => True.

Lemma wp_prepare_finish env id q facts d :
  wp action_label (prepare_finish isUuid sha256 localeCompare options env id q facts) any_run d.
Proof.
  unfold prepare_finish. destruct facts as [facts|e]; [|apply wp_raise].
  apply wp_bind, wp_of_result. intros recipe Hb. apply wp_bind, wp_guard. intros _.
  unfold insert_or_raced. apply wp_catch.
  - apply wp_insert_run; [done | | done].
    intros Hs. split; [by eapply built_budgeted|].
    exact (built_sealed _ _ _ _ Hb).
  - intros e d' _. apply wp_bind, wp_get.
    + intros r _ _. destruct (String.eqb _ _); [by apply wp_ret|].
      destruct e as [[]| | | | | | |]; apply wp_raise.
    + intros _. destruct e as [[]| | | | | | |]; apply wp_raise.
Qed.

(** One transition of an action. *)
Lemma wp_act id t (Phi : Run -> Db -> Prop) d :
  (forall s, s ∈ t_from t -> t_to t ∈ status_edges s) ->
  t_to t <> approved -> t_to t <> completed -> (forall r d', Phi r d') ->
  wp action_label (transition id t) Phi d.
Proof.
  intros He Ha Hc HPhi. apply wp_transition. intros r _ Hr. split_and!; auto. by intros ?.
Qed.

Lemma edges (from : list RunStatus) (to : RunStatus) :
  forallb (fun s => bool_decide (to ∈ status_edges s)) from = true ->
  forall s, s ∈ from -> to ∈ status_edges s.
Proof.
  intros H s Hs. rewrite forallb_forall in H. apply (bool_decide_eq_true (to ∈ status_edges s)), H.
  by apply list_elem_of_In.
Qed.

Lemma wp_approve_start env id sha d :
  wp action_label (approve_start sha256 localeCompare env id sha)
     (fun o d' => o = None -> exists r, runs d' !! id = Some r /\ ru_recipeSha256 r = sha) d.
Proof.
  unfold approve_start. apply wp_bind, wp_service_get. intros r Hr _.
  apply wp_bind, wp_guard. intros Hs%String.eqb_eq. destruct (negb _).
  - destruct (bool_decide _); [apply wp_raise | by apply wp_ret].
  - apply wp_bind, wp_guard. intros _. destruct (_ <=? _).
    + apply wp_bind, wp_act; [by apply edges | done | done |]. intros; apply wp_raise.
    + apply wp_ret. eauto.
Qed.

Lemma wp_approve_finish now accepted id sha d :
  wp (fun l => l = l_status id approved)
     (approve_finish sha256 localeCompare now accepted id sha) any_run d.
Proof.
  unfold approve_finish. apply wp_bind, wp_dedicated. apply wp_catch.
  - apply wp_transition. cbn. intros r _ ->%list_elem_of_singleton. split_and!; [set_solver | done..].
  - intros e d' _. apply wp_bind, wp_service_get. intros r _ _.
    destruct (bool_decide _); [apply wp_raise|]. destruct (_ && _); [by apply wp_ret | apply wp_raise].
Qed.

Lemma wp_pause env id d : wp action_label (pause sha256 localeCompare env id) any_run d.
Proof.
  unfold pause. apply wp_bind, wp_service_get. intros r _ _. apply wp_bind, wp_guard. intros _.
  by apply wp_act; [apply edges | ..].
Qed.

Lemma wp_cancel env id d : wp action_label (cancel sha256 localeCompare env id) any_run d.
Proof.
  unfold cancel. apply wp_bind, wp_service_get. intros r _ _. apply wp_bind, wp_guard. intros _.
  by apply wp_act; [apply edges | ..].
Qed.

Lemma wp_resume env id d : wp action_label (resume sha256 localeCompare env id) any_run d.
Proof.
  unfold resume. apply wp_bind, wp_service_get. intros r Hr _. apply wp_bind, wp_guard. intros _.
  destruct (elapsed _ _).
  - apply wp_bind, wp_act; [by apply edges | done | done |]. intros; apply wp_raise.
  - apply wp_bind. destruct (bool_decide (ru_status r = halted)) eqn:Hh; cbn [andb].
    + destruct (bool_decide_reflect (ch_status <$> child_of_run r = Some child_halted)) as [Hc|_].
      * unfold child_of_run in Hc. destruct (ru_children r !! ru_cursor r) as [c|] eqn:Hcc; [|done].
        eapply wp_resetRejected; [by apply held_row | done |].
        by apply wp_act; [apply edges | ..].
      * apply wp_ret. by apply wp_act; [apply edges | ..].
    + apply wp_ret. by apply wp_act; [apply edges | ..].
Qed.

Lemma wp_act_expire env id d :
  wp action_label (perform isUuid sha256 localeCompare options env (act_expire id)) (fun _ _ => True) d.
Proof.
  cbn. apply wp_bind, wp_require_run. intros r _.
  unfold recover_expire_stopped, recover_expire_approval. apply wp_bind.
  destruct (bool_decide_reflect (ru_status r ∈ [paused; halted])) as [Hs|_]; cbn [andb].
  - destruct (elapsed _ _).
    + apply wp_bind, wp_act; [|done|done|intros; by apply wp_ret, wp_ret].
      cbn. intros s ->%list_elem_of_singleton.
      rewrite !elem_of_cons, elem_of_nil in Hs. destruct Hs as [-> | [-> | []]]; set_solver.
    + apply wp_ret. destruct (_ && _); [|by apply wp_ret].
      apply wp_bind, wp_act; [by apply edges|done|done|intros; by apply wp_ret].
  - apply wp_ret. destruct (_ && _); [|by apply wp_ret].
    apply wp_bind, wp_act; [by apply edges|done|done|intros; by apply wp_ret].
Qed.

Lemma wp_perform env a d :
  wp action_label (perform isUuid sha256 localeCompare options env a) (fun _ _ => True) d.
Proof.
  destruct a as [id q f|id sha|id|id|id|id]; [| | | | |apply wp_act_expire];
    cbn [perform]; apply wp_bind.
  - eapply wp_mono; [apply wp_prepare_finish|]. intros; by apply wp_ret.
  - eapply wp_mono; [apply wp_approve_start|]. intros; by apply wp_ret.
  - eapply wp_mono; [apply wp_pause|]. intros; by apply wp_ret.
  - eapply wp_mono; [apply wp_resume|]. intros; by apply wp_ret.
  - eapply wp_mono; [apply wp_cancel|]. intros; by apply wp_ret.
Qed.
End Segments.
