(* ===== verification/RunCorrect.v ===== *)
(** * What the reward-run service guarantees

    Theorems about every reachable state of the process of [RunService]: the invariant of the
    protocol holds at every commit, and what a waiting tick relies on still holds when it
    continues. *)

From S2P Require Import Prelude Text Principals OperationPlan Recipe.
From S2P Require Import RunStore SweepStore Cadence RunService RunProtocol RunLogic RunSafety.

Open Scope Z_scope.

Section Process.

Context (isUuid : string -> bool) (sha256 : list Z -> string)
        (localeCompare : string -> string -> Z) (options : Options).

#[local] Instance process_digest : Digest := recipe_digest sha256 localeCompare.

Abbreviation step := (step isUuid sha256 localeCompare options).
Abbreviation run_step := (run_step isUuid sha256 localeCompare options).
Abbreviation reachable := (reachable isUuid sha256 localeCompare options).

(** Every pending approval names the hash of the run it is for. *)
Definition approvals_ok (l : list Pending) (d : Db) : Prop :=
  forall a, a ∈ l -> exists r, runs d !! a_runId a = Some r /\ ru_recipeSha256 r = a_recipeSha256 a.

Record svc_ok (s : Svc) : Prop := {
  svc_inv : inv (db s);
  svc_phase : phase_ok (phase s) (db s);
  svc_approvals : approvals_ok (approvals s) (db s);
}.

(** The writes a step of the service may make: only a pending approval approves its run, and
    no sweep is touched. *)
Definition step_label (l : list Pending) (w : Label) : Prop :=
  match w with
  | l_status id to => to = approved -> exists a, a ∈ l /\ a_runId a = id
  | l_sweep _ => False
  | _ => True
  end.

Definition is_sweep (w : Label) : Prop := match w with l_sweep _ => True | _ => False end.

(** With the sweeps beside it. *)
Definition any_label (l : list Pending) (w : Label) : Prop := step_label l w \/ is_sweep w.

Lemma tick_step_label l w : tick_label w -> step_label l w.
Proof. destruct w; cbn; try done. intros H ->. set_solver. Qed.

Lemma action_step_label l w : action_label w -> step_label l w.
Proof. by destruct w; cbn. Qed.

Lemma approvals_ok_writes P l d d' : writes P d d' -> approvals_ok l d -> approvals_ok l d'.
Proof.
  intros Hw Hl a Ha. destruct (Hl a Ha) as (r & Hr & Hs).
  destruct (writes_evolved _ _ _ _ _ Hw Hr) as (r' & Hr' & He). exists r'. split; [done|].
  by rewrite (evd_sha _ _ He).
Qed.

Lemma approvals_after_ok env a d l :
  let d' := after d (snd (perform isUuid sha256 localeCompare options env a d)) in
  approvals_ok l d' ->
  approvals_ok (approvals_after sha256 localeCompare env a d l) d'.
Proof.
  cbv zeta. intros Hl. unfold approvals_after. destruct a as [|id sha| | | |]; try done.
  cbn [perform] in *. assert (Hw := wp_approve_start sha256 localeCompare env id sha d).
  unfold mbind, repo_bind in *. destruct (approve_start _ _ _ _ _ d) as [[[r|]|e] k] eqn:E; cbn in *;
    try done.
  intros a [->|Ha]%elem_of_cons; [|by apply Hl]. cbn.
  destruct Hw as [_ Hp]. rewrite E in Hp. cbn in Hp. exact (Hp None eq_refl eq_refl).
Qed.

(** A committed database of a computation that only writes by the protocol. *)
Lemma committed {A} P (m : repo A) Phi d d' :
  wp P m Phi d -> d' ∈ snd (m d) -> writes P d d'.
Proof. intros Hm. by apply wp_commits with (1 := Hm). Qed.

Lemma segment_ok env id reason m d :
  inv d -> wp tick_label m phase_ok d ->
  phase_ok (phase_of (fst (segment env id reason m d))) (after d (snd (segment env id reason m d))).
Proof.
  intros Hi Hm. destruct (wp_segment isUuid sha256 localeCompare env id reason m d Hm) as [_ Hp].
  destruct (fst (segment env id reason m d)) as [p|e]; [by apply Hp | done].
Qed.

(** After writes a waiting tick survives, with the approvals that still wait. *)
Lemma svc_ok_writes P s d' p c l :
  svc_ok s -> writes P (db s) d' -> phase_ok p d' ->
  (approvals_ok (approvals s) d' -> approvals_ok l d') ->
  svc_ok {| db := d'; phase := p; cadence := c; approvals := l |}.
Proof.
  intros [Hi _ Ha] Hw Hp Hl. split; cbn; [by eapply writes_inv | done |].
  apply Hl. by eapply approvals_ok_writes.
Qed.

Lemma no_approvals d : approvals_ok [] d.
Proof. intros a Ha. by apply elem_of_nil in Ha. Qed.

(** A stop in a computation of the service. *)
Lemma svc_crash {A} P (m : repo A) Phi s d' :
  svc_ok s -> wp P m Phi (db s) -> (forall w, P w -> step_label (approvals s) w) ->
  d' ∈ snd (m (db s)) -> writes (step_label (approvals s)) (db s) d' /\ svc_ok (init d').
Proof.
  intros Hok Hm Hp Hd. assert (Hw := committed _ _ _ _ _ Hm Hd). split; [by eapply writes_mono|].
  eapply svc_ok_writes; [exact Hok | exact Hw | done | intros _; apply no_approvals].
Qed.

(** A segment of the tick that ends. *)
Lemma svc_segment s env id reason m c :
  svc_ok s -> wp tick_label m phase_ok (db s) ->
  let out := segment env id reason m (db s) in
  writes (step_label (approvals s)) (db s) (after (db s) (snd out)) /\
  svc_ok {| db := after (db s) (snd out); phase := phase_of (fst out); cadence := c;
            approvals := approvals s |}.
Proof.
  cbv zeta. intros Hok Hm. assert (Hw := wp_after _ _ _ _ (wp_segment isUuid sha256 localeCompare env id reason m _ Hm)).
  split; [eapply writes_mono; [apply tick_step_label | exact Hw]|].
  eapply svc_ok_writes; [exact Hok | exact Hw | | done]. apply segment_ok; [apply Hok | done].
Qed.

Lemma approve_label a l w : a ∈ l -> w = l_status (a_runId a) approved -> step_label l w.
Proof. intros Ha ->. by exists a. Qed.

Lemma run_svc_step s s' :
  svc_ok s -> run_step s s' -> writes (step_label (approvals s)) (db s) (db s') /\ svc_ok s'.
Proof.
  intros Hok Hs. assert (Hi := svc_inv _ Hok). assert (Hp := svc_phase _ Hok).
  assert (Htick := tick_step_label (approvals s)). assert (Hact := action_step_label (approvals s)).
  destruct Hs as [env id reason s Hidle|env o reason id m s Hm|env a s|a rest accepted s Hperm
    |c s|m s|s|env id reason d s Hidle Hd|env o reason id m d s Hm Hd
    |env a d s Hd|a rest accepted d s Hperm Hd]; cbn [db phase approvals].
  - by apply svc_segment, wp_tick_start.
  - apply svc_segment; [done|]. by eapply (wp_resumed isUuid).
  - assert (Hw := wp_after _ _ _ _ (wp_perform isUuid sha256 localeCompare options env a (db s))).
    split; [by eapply writes_mono|]. eapply svc_ok_writes; [done | exact Hw | | apply approvals_after_ok].
    by eapply phase_ok_writes; [apply action_outside|..].
  - assert (Hin : a ∈ approvals s) by (rewrite Hperm; constructor).
    assert (Hw := wp_after _ _ _ _ (wp_approve_finish isUuid sha256 localeCompare (a_now a) accepted
                    (a_runId a) (a_recipeSha256 a) (db s))).
    split; [eapply writes_mono; [|exact Hw]; intros w Hw'; by eapply approve_label|].
    eapply svc_ok_writes; [done | exact Hw | | ].
    + eapply phase_ok_writes; [|exact Hw|done]. by intros w ->.
    + intros Hl b Hb. apply Hl. rewrite Hperm. by constructor.
  - split; [apply writes_refl|]. by destruct Hok.
  - assert (Hw : forall P : Label -> Prop, P l_preparation ->
              writes P (db s) (set_preparations m (db s))) by (intros; by eapply writes_one, w_preparations).
    split; [by apply Hw|]. eapply svc_ok_writes; [done | by apply (Hw outside) | |done].
    by eapply phase_ok_writes; [|by apply (Hw outside)|].
  - split; [apply writes_refl|]. eapply (svc_ok_writes (fun _ => True)); [done | apply writes_refl | done |].
    intros _. apply no_approvals.
  - eapply svc_crash; [done | | exact Htick | exact Hd]. by apply (wp_segment isUuid), (wp_tick_start isUuid).
  - eapply svc_crash; [done | | exact Htick | exact Hd].
    apply (wp_segment isUuid). by eapply (wp_resumed isUuid).
  - eapply svc_crash; [done | apply wp_perform | exact Hact | exact Hd].
  - assert (Hin : a ∈ approvals s) by (rewrite Hperm; constructor).
    eapply svc_crash; [done | apply (wp_approve_finish isUuid) | | exact Hd].
    intros w Hw. by eapply approve_label.
Qed.

Lemma svc_step s s' :
  svc_ok s -> step s s' -> writes (any_label (approvals s)) (db s) (db s') /\ svc_ok s'.
Proof.
  intros Hok Hs. destruct Hs as [s s' Hs|l d' s Hw].
  - destruct (run_svc_step _ _ Hok Hs) as [Hw Hs']. split; [|done].
    eapply writes_mono; [|exact Hw]. by left.
  - assert (Hws : forall P : Label -> Prop, P (l_sweep l) -> writes P (db s) d')
      by (intros; by eapply writes_one, w_sweep).
    split; [by apply Hws; right|]. eapply svc_ok_writes; [done | by apply (Hws outside) | |done].
    eapply phase_ok_writes; [|by apply (Hws outside)|apply Hok]; done.
Qed.

Lemma init_ok : svc_ok (init empty_db).
Proof. split; [apply inv_empty | done |]. intros a Ha. by apply elem_of_nil in Ha. Qed.

Lemma reachable_ok s : reachable s -> svc_ok s.
Proof.
  unfold RunService.reachable. intros H. assert (Hi := init_ok). revert Hi.
  induction H as [|s s1 s2 H1 _ IH]; intros Hi; [done|]. apply IH. by apply svc_step with s.
Qed.

(** ** The protocol is implemented *)

(** C1. Refinement: from a reachable state, whatever is answered to the tick, whatever the
    operator does and wherever the process stops, a step changes the database only by writes of
    the reward-run protocol, and a run is only approved by an approval that waited for its
    wallet check. *)
Theorem service_refines_protocol s s' :
  reachable s -> step s s' -> writes (any_label (approvals s)) (db s) (db s').
Proof. intros Hr Hs. apply (svc_step s s'); [by apply reachable_ok | done]. Qed.

Lemma reachable_run s id r : reachable s -> runs (db s) !! id = Some r -> run_inv r.
Proof. intros Hr Hid. by eapply inv_runs; [apply svc_inv, reachable_ok|]. Qed.

(** Where a broadcast child may be. *)
Lemma broadcast_at_cursor r i c :
  run_inv r -> ru_children r !! i = Some c -> ch_status c = broadcast -> i = ru_cursor r.
Proof.
  intros Hr Hc Hs. destruct (Nat.lt_trichotomy i (ru_cursor r)) as [Hlt|[He|Hgt]]; [|done|].
  - assert (Hd := inv_done r Hr _ _ Hc Hlt). unfold done_status, completeChildStatuses in Hd.
    rewrite Hs in Hd. set_solver.
  - destruct (inv_fresh r Hr _ _ Hc Hgt) as [Hp _]. congruence.
Qed.

Lemma filter_at_most_one (Q : Child -> Prop) `{forall c, Decision (Q c)} (l : list Child) k :
  (forall i c, l !! i = Some c -> Q c -> i = k) -> (List.length (filter Q l) <= 1)%nat.
Proof.
  revert k. induction l as [|c l IH]; intros k Hk; [cbn; lia|].
  rewrite filter_cons. destruct (decide (Q c)) as [Hc|Hc].
  - cbn. assert (k = 0%nat) as -> by (symmetry; by apply (Hk 0%nat c)).
    rewrite filter_empty; [cbn; lia|]. intros x (j & Hj)%list_elem_of_lookup Hx.
    by specialize (Hk (S j) x Hj Hx).
  - apply (IH (pred k)). intros i x Hi Hx. specialize (Hk (S i) x Hi Hx). lia.
Qed.

Lemma reachable_inFlight s id r :
  reachable s -> runs (db s) !! id = Some r -> (inFlight r <= 1)%nat.
Proof.
  intros Hs Hid. apply filter_at_most_one with (k := ru_cursor r). intros i c Hc Hst.
  eapply broadcast_at_cursor; [by eapply reachable_run | done | done].
Qed.

(** C2. One transaction at a time: in every stored run at most one child is in flight, each
    child has at most one attempt whose transaction is unresolved, every child behind the
    cursor is done and no child ahead of it was ever touched. *)
Theorem one_transaction_at_a_time s id r :
  reachable s -> runs (db s) !! id = Some r ->
  (inFlight r <= 1)%nat /\
  (forall i c, ru_children r !! i = Some c ->
     (List.length (filter unresolved (ch_attempts c)) <= 1)%nat /\
     ((i < ru_cursor r)%nat -> ch_status c ∈ completeChildStatuses) /\
     ((ru_cursor r < i)%nat -> ch_status c = pending /\ ch_attempts c = [])).
Proof.
  intros Hs Hid. assert (Hr := reachable_run _ _ _ Hs Hid). split.
  - by eapply reachable_inFlight.
  - intros i c Hc. split_and!.
    + apply (inv_child r Hr _ _ Hc).
    + by eapply (inv_done r Hr).
    + by eapply (inv_fresh r Hr).
Qed.

Definition total_fee (l : list Attempt) : Z := fold_right (fun a n => at_feeUstx a + n) 0 l.

Lemma total_fee_le cap (l : list Attempt) :
  Forall (fun a => at_feeUstx a <= cap) l -> total_fee l <= cap * Z.of_nat (List.length l).
Proof. induction 1; cbn [total_fee fold_right List.length] in *; [lia|]. unfold total_fee in *. lia. Qed.

(** C3. The gas budget is never exceeded: the account stays within the approved budget, also
    after any attempt of the current child is paid, and one accepted attempt per child never
    costs more than the budget in total, so a fee the account misses cannot break the bound. *)
Theorem gas_within_budget s id r :
  reachable s -> runs (db s) !! id = Some r ->
  ru_gasSpentUstx r <= r_gasBudgetUstx (ru_recipe r) /\
  (forall c a, child_of_run r = Some c -> a ∈ ch_attempts c ->
     ru_gasSpentUstx r + at_feeUstx a <= r_gasBudgetUstx (ru_recipe r)) /\
  (forall cs paid, cs `sublist_of` ru_children r ->
     Forall2 (fun a c => a ∈ ch_attempts c) paid cs ->
     total_fee paid <= r_gasBudgetUstx (ru_recipe r)).
Proof.
  intros Hs Hid. assert (Hr := reachable_run _ _ _ Hs Hid). split_and!.
  - apply (inv_gas r Hr).
  - intros c a Hc Ha. by eapply (inv_gas_next r Hr).
  - intros cs paid Hsub Hp. destruct (inv_budget r Hr) as [Hcap ->].
    rewrite <- (inv_length r Hr).
    etransitivity; [apply (total_fee_le (r_feeCapUstx (ru_recipe r)))|].
    + apply Forall_lookup. intros i a Ha. destruct (Forall2_lookup_l _ _ _ _ _ Hp Ha) as (c & Hc & Hin).
      assert (Hc' : c ∈ ru_children r).
      { eapply elem_of_sublist; [|exact Hsub]. by eapply list_elem_of_lookup_2. }
      apply list_elem_of_lookup in Hc' as [j Hj]. by apply (ok_fee_cap _ _ (inv_child r Hr _ _ Hj)).
    + apply sublist_length in Hsub. apply Forall2_length in Hp. nia.
Qed.

(** ** Wallets *)

(** C7. A wallet signs for one run at a time: two runs of one wallet that have not ended are
    the same run, that run holds the wallet's lease (so no sweep of the wallet runs beside it),
    and a run that ended holds no lease. *)
Theorem wallet_exclusive s id r :
  reachable s -> runs (db s) !! id = Some r ->
  (~ terminal (ru_status r) ->
   (exists l, leases (db s) !! ru_walletPrincipal r = Some l /\
      l_kind l = lease_reward_run /\ l_id l = id) /\
   (forall id' r', runs (db s) !! id' = Some r' -> ~ terminal (ru_status r') ->
      ru_walletPrincipal r' = ru_walletPrincipal r -> id' = id)) /\
  (terminal (ru_status r) -> forall w l, leases (db s) !! w = Some l ->
     ~ (l_kind l = lease_reward_run /\ l_id l = id)).
Proof.
  intros Hs Hid. destruct (inv_leases _ (svc_inv _ (reachable_ok _ Hs))) as [Hh Ho]. split.
  - intros Hn. destruct (Hh _ _ Hid Hn) as (l & Hl & Hk & Hi). split; [by exists l|].
    intros id' r' Hid' Hn' Hw. destruct (Hh _ _ Hid' Hn') as (l' & Hl' & Hk' & Hi'). congruence.
  - intros Ht w l Hl [Hk Hi]. destruct (Ho _ _ Hl Hk) as (r' & Hr' & _ & Hn').
    rewrite Hi, Hid in Hr'. by injection Hr' as <-.
Qed.

(** ** Signing and broadcasting *)

(** C4. While a signature is awaited, and whatever happens meanwhile, the sealed plan being
    signed is the one stored for the run's current child, no transaction of an earlier attempt
    can still be accepted, and the fee is within the cap and the rest of the gas budget. *)
Theorem signing_is_safe s id run op plan fee now :
  reachable s -> phase s = signing id run op plan fee now ->
  exists r c, runs (db s) !! id = Some r /\ ru_recipe r = ru_recipe run /\
    child_of_run r = Some c /\ ch_plan c = Some plan /\ ch_status c = materialized /\
    (forall a, a ∈ ch_attempts c -> at_state a = rejected) /\
    fee <= r_feeCapUstx (ru_recipe r) /\
    ru_gasSpentUstx r + fee <= r_gasBudgetUstx (ru_recipe r).
Proof.
  intros Hs Hp. assert (Hok := svc_phase _ (reachable_ok _ Hs)). rewrite Hp in Hok.
  destruct Hok as (c & (r & Hr & Hk & Hg & He & Hc) & (Hst & Hpl & Hrej & Hcap & Hrest)).
  exists r, c. unfold child_of_run. rewrite Hk, He. unfold rest_of in Hrest.
  split_and!; try done; [|rewrite Hg; lia].
  intros a Ha. unfold all_rejected in Hrej. rewrite Forall_forall in Hrej. by apply Hrej.
Qed.

(** C5. A transaction is stored before it is sent: while a broadcast is awaited, the attempt
    with its transaction ID is stored as [signed] with the run's current child, which is not
    yet marked broadcast, and every other attempt of the child was rejected. *)
Theorem broadcast_is_recorded s id run tx i :
  reachable s -> phase s = broadcasting id run tx i ->
  exists r c a, runs (db s) !! id = Some r /\ child_of_run r = Some c /\
    ch_status c = materialized /\ ch_attempts c !! i = Some a /\ at_state a = signed /\
    at_precomputedTxid a = sg_precomputedTxid tx /\ at_feeUstx a <= r_feeCapUstx (ru_recipe r) /\
    (forall j b, ch_attempts c !! j = Some b -> j <> i -> at_state b = rejected).
Proof.
  intros Hs Hp. assert (Hok := reachable_ok _ Hs). assert (Hph := svc_phase _ Hok). rewrite Hp in Hph.
  destruct Hph as (c & Hh & (Hst & (a & Ha & Hsg & Htx) & Ho)).
  assert (Hcok := held_ok _ _ _ _ (svc_inv _ Hok) Hh).
  destruct Hh as (r & Hr & Hk & Hg & He & Hc). exists r, c, a.
  unfold child_of_run. rewrite Hk, He. split_and!; try done.
  apply (ok_fee_cap _ _ Hcok). by eapply list_elem_of_lookup_2.
Qed.

(** The last check before a signature: a signature is only asked for when the wallet passed
    its refusal checks, the service is open, execution is allowed for the operation, and the
    stored run is sealed, running and not expired at that moment; nothing is written. *)
Theorem signing_guards env id run op plan fee now accepted d l :
  tick_wallet_checked sha256 localeCompare env id run op plan fee now accepted d =
    (Ok (signing id run op plan fee now), l) ->
  accepted = Ok true /\ e_closed env = false /\ e_allowed env [op] = true /\ l = [] /\
  exists r, runs d !! id = Some r /\ sealedRun sha256 localeCompare id r = true /\
    ru_status r = running /\ elapsed (ru_runtimeExpiresAt r) (e_now env) = false.
Proof.
  intros H. unfold tick_wallet_checked in H. destruct accepted as [ok|e]; [|done].
  apply guard_returned in H as [-> H]. apply service_get_returned in H as (r & Hr & Hs & H).
  destruct (e_closed env); cbn [orb] in H; [done|].
  destruct (bool_decide_reflect (ru_status r = running)) as [Hrun|]; cbn [negb] in H; [|done].
  apply bind_returned in H as (b & l1 & l2 & He & H & ->). unfold expireRunningRun in He.
  destruct b; [done|]. apply guard_returned in H as [Ha H]. injection H as <-.
  destruct (elapsed (ru_runtimeExpiresAt r) (e_now env)) eqn:El.
  - by apply bind_returned in He as (x & l1' & l2' & _ & [=] & _).
  - injection He as <-. split_and!; try done. by exists r.
Qed.

(** ** Approval *)

(** A run is approved only with the exact recipe an operator confirmed: when a step makes a
    run approved, an approval of that run with the hash of its stored recipe was waiting. *)
Theorem approval_binds_recipe s s' id r' :
  reachable s -> step s s' ->
  runs (db s') !! id = Some r' -> ru_status r' = approved ->
  (forall r, runs (db s) !! id = Some r -> ru_status r <> approved) ->
  exists a, a ∈ approvals s /\ a_runId a = id /\
    a_recipeSha256 a = rewardRunRecipeSha256 sha256 localeCompare (ru_recipe r').
Proof.
  intros Hr Hst Hr' Hs' Hn. assert (Hok := reachable_ok _ Hr).
  destruct (svc_step _ _ Hok Hst) as [Hw Hok'].
  destruct (Exists_dec (fun a => a_runId a = id) (approvals s)) as [He|He].
  - apply Exists_exists in He as (a & Ha & Hid). exists a. split_and!; try done.
    destruct (svc_approvals _ Hok a Ha) as (r & Hra & Hsha). rewrite Hid in Hra.
    destruct (writes_evolved _ _ _ _ _ Hw Hra) as (x & Hx & [_ Hxs _ _ _]).
    assert (x = r') as -> by congruence. rewrite <- Hsha, <- Hxs.
    assert (Hd := seal_digest id r' (inv_sealed _ (svc_inv _ Hok') _ _ Hr')). by symmetry.
  - destruct (writes_approved _ _ _ id r' Hw) as (r & Hr0 & Hs0); try done.
    + intros [Hp|[]]. destruct (Hp eq_refl) as (a & Ha & Hid). apply He, Exists_exists. by exists a.
    + by destruct (Hn r Hr0).
Qed.

(** ** The life of a run *)

(** C8. What was approved never changes: the recipe, its hash and the wallet of a run are fixed,
    its cursor only advances, and a run that ended keeps its final status. *)
Theorem runs_are_immutable s s' id r :
  reachable s -> rtc step s s' -> runs (db s) !! id = Some r ->
  exists r', runs (db s') !! id = Some r' /\ evolved r r'.
Proof.
  intros Hr Hst. assert (Hok := reachable_ok _ Hr). clear Hr. revert r.
  induction Hst as [s|s s1 s2 H1 _ IH]; intros r Hid.
  - exists r. split; [done | apply evolves_evolved, evolves_refl].
  - destruct (svc_step _ _ Hok H1) as [Hw Hok1].
    destruct (writes_evolved _ _ _ _ _ Hw Hid) as (r1 & Hr1 & [H2 H3 H4 H5 H6]).
    destruct (IH Hok1 _ Hr1) as (r2 & Hr2 & [K2 K3 K4 K5 K6]).
    exists r2. split; [done|]. split; [congruence..|lia|].
    intros Ht. rewrite <- (H6 Ht). apply K6. by rewrite (H6 Ht).
Qed.

Lemma filter_all {A} (Q : A -> Prop) `{forall x, Decision (Q x)} (l : list A) :
  (forall x, x ∈ l -> Q x) -> filter Q l = l.
Proof.
  induction l as [|x l IH]; intros Hq; [done|].
  rewrite filter_cons_True by (apply Hq; constructor). f_equal. apply IH. intros y Hy.
  apply Hq. by constructor.
Qed.

(** A completed run did all of its work: every child is confirmed, was completed by
    another caller or was skipped, and the run carries its start and approval. *)
Theorem completed_is_complete s id r :
  reachable s -> runs (db s) !! id = Some r -> ru_status r = completed ->
  completedCount r = List.length (r_children (ru_recipe r)) /\
  is_Some (ru_approvedAt r) /\ is_Some (ru_startedAt r).
Proof.
  intros Hs Hid Hst. assert (Hr := reachable_run _ _ _ Hs Hid).
  assert (Hlen := inv_completed r Hr Hst). split.
  - rewrite <- (inv_length r Hr). unfold completedCount. f_equal. apply filter_all.
    intros c (i & Hc)%list_elem_of_lookup. apply (inv_done r Hr _ _ Hc).
    apply lookup_lt_Some in Hc. lia.
  - assert (Hrow := inv_row r Hr). unfold run_row_ok in Hrow.
    apply andb_true_iff in Hrow as [[H1|H1]%orb_true_iff [H2|H2]%orb_true_iff];
      try (by rewrite Hst in H1); try (by rewrite Hst in H2).
    apply andb_true_iff in H2 as [H2 _]. apply bool_decide_eq_true in H1, H2.
    by destruct (ru_approvedAt r), (ru_startedAt r).
Qed.

Lemma sealed_matches (rcs : list RecipeChild) (cs : list Child) k :
  recipe_terms <$> rcs = child_terms <$> cs ->
  (forall i c, rcs !! i = Some c -> rc_index c = (k + i)%nat) ->
  recipeChildrenMatch k rcs cs = true.
Proof.
  revert k cs. induction rcs as [|rc rcs IH]; intros k [|c cs] Ht Hi; cbn in Ht; try done.
  injection Ht as H1 H2 H3 H4 H5 Ht. cbn. unfold recipeChildMatches.
  rewrite (Hi 0%nat rc eq_refl), Nat.add_0_r, H1, H4, H5, !bool_decide_eq_true_2 by done.
  apply IH; [done|]. intros i x Hx. rewrite (Hi (S i) x Hx). lia.
Qed.

Lemma sealed_row_run id r : sealed_row id r -> sealedRun sha256 localeCompare id r = true.
Proof.
  intros [H1 H2 H3 H4 H5]. unfold sealedRun.
  rewrite H1, H2, !String.eqb_refl. unfold digest, process_digest, recipe_digest in H3.
  rewrite H3, String.eqb_refl. by apply sealed_matches.
Qed.

Lemma reachable_service_get s id r :
  reachable s -> runs (db s) !! id = Some r ->
  sealedRun sha256 localeCompare id r = true /\
  service_get sha256 localeCompare id (db s) = (Ok r, []).
Proof.
  intros Hs Hid. assert (Hok := reachable_ok _ Hs).
  assert (Hsl : sealedRun sha256 localeCompare id r = true).
  { apply sealed_row_run. by eapply inv_sealed; [apply svc_inv|]. }
  split; [done|]. assert (Hf := reachable_inFlight _ _ _ Hs Hid).
  unfold service_get, get, gets, mbind, repo_bind, assertSealedRun, guard, guard_repo. cbn.
  rewrite Hid. cbn. rewrite bool_decide_eq_true_2 by done. cbn. by rewrite Hsl.
Qed.

(** The integrity check never fails on the service's own rows: a stored run is readable,
    and reading it returns the row. *)
Theorem stored_runs_pass_integrity s id r :
  reachable s -> runs (db s) !! id = Some r ->
  sealedRun sha256 localeCompare id r = true /\
  service_get sha256 localeCompare id (db s) = (Ok r, []).
Proof. apply reachable_service_get. Qed.

(** ** Plans stay within the recipe *)

(** The amount text is that of an amount the recipe's child approves. *)
Definition approved_amount (rc : RecipeChild) (text : string) : Prop :=
  exists n max, text = bigint_toString n /\ rc_maximumAmountSats rc = Some max /\ n <= max.

(** What a plan's body may be for a child of a recipe. *)
Definition body_within (r : Recipe) (rc : RecipeChild) (b : MaterialBody) : Prop :=
  match b with
  | m_calculate m =>
      ca_pox5Contract m = r_pox5Contract r /\
      ca_targetRewardCycle m = bigint_toString (r_cycle r) /\
      ca_targetCheckpoint m = if r_distribution r =? 1 then first_half else second_half
  | m_collect m e =>
      co_managerContract m = r_managerPrincipal r /\ co_pox5Contract m = r_pox5Contract r /\
      co_sbtcTokenContract m = r_sbtcTokenContract r /\
      co_rewardCycle m = bigint_toString (r_cycle r) /\ approved_amount rc (amountSats e)
  | m_staker m _ =>
      st_managerContract m = r_managerPrincipal r /\ st_sbtcTokenContract m = r_sbtcTokenContract r /\
      rc_stakerPrincipal rc = Some (st_stakerPrincipal m) /\ approved_amount rc (st_grossSats m) /\
      exists account, account ∈ r_accounts r /\ rc_accountKey rc = Some (ab_accountKey account) /\
        st_payoutRoute m = ab_payoutRoute account /\ st_bondIndex m = ab_bondIndex account /\
        st_rewardCycle m = bigint_toString (ab_rewardCycle account)
  | m_settle m =>
      se_managerContract m = r_managerPrincipal r /\
      rc_stakerPrincipal rc = Some (se_stakerPrincipal m) /\
      exists n, rc_requestId rc = Some n /\ se_requestId m = bigint_toString n
  | m_reclaim m _ =>
      re_managerContract m = r_managerPrincipal r /\ re_sbtcTokenContract m = r_sbtcTokenContract r /\
      rc_stakerPrincipal rc = Some (re_stakerPrincipal m) /\
      (exists n, rc_requestId rc = Some n /\ re_requestId m = bigint_toString n) /\
      exists w f max, re_withdrawalAmountSats m = bigint_toString w /\
        re_maxFeeSats m = bigint_toString f /\ rc_withdrawalAmountSats rc = Some w /\
        rc_maxFeeSats rc = Some f /\ rc_maximumAmountSats rc = Some max /\ w + f <= max
  end.

Lemma amount_max rc n :
  amountShapeOk rc (Some n) = true -> exists max, rc_maximumAmountSats rc = Some max /\ n <= max.
Proof.
  unfold amountShapeOk. intros [Hs%bool_decide_eq_true He]%andb_true_iff.
  destruct (rc_maximumAmountSats rc) as [max|].
  - exists max. split; [done|]. cbn in He. apply negb_true_iff, Z.ltb_ge in He. done.
  - destruct Hs as [_ Hs]. by destruct (Hs (ex_intro _ n eq_refl)).
Qed.

Lemma amount_approved rc text amount :
  amountShapeOk rc amount = true -> amount_is text amount = true -> approved_amount rc text.
Proof.
  unfold amount_is. intros Ha Ht%bool_decide_eq_true. destruct amount as [n|]; [|done].
  injection Ht as ->. apply amount_max in Ha as (max & Hm & Hle). by exists n, max.
Qed.

Lemma planBody_within run rc b amount :
  amountShapeOk rc amount = true -> planBodyOk run rc b amount = true ->
  body_within (ru_recipe run) rc b.
Proof.
  intros Ha H. destruct b as [m|m e|m e|m|m e]; cbn in H; cbn.
  - rewrite !andb_true_iff in H. destruct H as [[H1 H2] H3].
    apply String.eqb_eq in H1, H2. by apply bool_decide_eq_true in H3.
  - rewrite !andb_true_iff, !String.eqb_eq in H. destruct H as [[[[H1 H2] H3] H4] H5].
    split_and!; try done. by eapply amount_approved.
  - destruct (List.find _ _) as [acc|] eqn:Hf; [|done]. apply find_some in Hf as [Hin Hk].
    apply bool_decide_eq_true in Hk.
    rewrite !andb_true_iff, !String.eqb_eq, !bool_decide_eq_true in H. destruct_and! H.
    split_and!; try done; [by eapply amount_approved|].
    exists acc. split_and!; try done. by apply list_elem_of_In.
  - rewrite !andb_true_iff, !String.eqb_eq, !bool_decide_eq_true in H. destruct H as [[H1 H2] H3].
    split_and!; try done. destruct (rc_requestId rc) as [n|]; [|done]. injection H2 as <-. by exists n.
  - rewrite !andb_true_iff, !String.eqb_eq, !bool_decide_eq_true in H. destruct_and! H.
    destruct (rc_requestId rc) as [n|]; [|done]. destruct (rc_withdrawalAmountSats rc) as [w|]; [|done].
    destruct (rc_maxFeeSats rc) as [f|]; [|done]. simplify_eq/=.
    split_and!; try done; [by exists n; split|]. exists w, f.
    rewrite <- H3, <- H2, !BigInt_toString in H1. apply bool_decide_eq_true in H1 as ->.
    apply amount_max in Ha as (max & -> & Hle). by exists max.
Qed.

Lemma assertPlan_returned id run i c plan amount d u l :
  assertPlan id run i c plan amount d = (Ok u, l) ->
  l = [] /\ planCommonOk id run i c (material plan) = Ok true /\
  exists rc, r_children (ru_recipe run) !! i = Some rc /\ amountShapeOk rc amount = true /\
    planBodyOk run rc (body (material plan)) amount = true.
Proof.
  unfold assertPlan, throw. destruct (planCommonOk _ _ _ _ _) as [b|e]; [|done].
  intros [-> H]%guard_returned. destruct (r_children (ru_recipe run) !! i) as [rc|]; [|done].
  apply guard_returned in H as [Ha H]. unfold guard, guard_repo in H.
  destruct (planBodyOk _ _ _ _) eqn:Hb; [|done]. injection H as _ <-.
  split_and!; [done|done|]. by exists rc.
Qed.

(** The part of a plan that every operation shares. *)
Record common_within (id : string) (run : Run) (rc : RecipeChild) (m : Material) (fee : Z) : Prop := {
  within_run : OperationPlan.runId (m_authorization m) = id;
  within_recipe : OperationPlan.recipeSha256 (m_authorization m) = ru_recipeSha256 run;
  within_operation : material_kind (body m) = rc_operation rc;
  within_adapter : m_adapterId m = rc_adapterId rc /\ m_adapterRevision m = rc_adapterRevision rc;
  within_network : netKind (m_network m) = r_network (ru_recipe run) /\
    chainId (m_network m) = r_chainId (ru_recipe run);
  within_sender : sender_principal (m_sender m) = ru_walletPrincipal run;
  within_source : m_managerSourceFingerprint m = Some (r_managerSourceFingerprint (ru_recipe run));
  within_fee : BigInt (m_feeUstx m) = Some fee /\ fee <= r_feeCapUstx (ru_recipe run);
}.

Lemma common_accepted id run i c m rc :
  planCommonOk id run i c m = Ok true -> r_children (ru_recipe run) !! i = Some rc ->
  ch_operation c = rc_operation rc -> exists fee, common_within id run rc m fee.
Proof.
  unfold planCommonOk. intros H Hrc Hop. destruct (BigInt (m_feeUstx m)) as [fee|] eqn:Hf; [|done].
  injection H as H. rewrite Hrc in H. cbn [fmap option_fmap option_map] in H.
  rewrite !andb_true_iff, !String.eqb_eq, !bool_decide_eq_true in H.
  destruct_and! H. exists fee. simplify_eq/=. split; try done; try congruence.
  - by apply Z.eqb_eq in H6.
  - split; [done|]. apply negb_true_iff, Z.ltb_ge in H1. done.
Qed.

(** C6. Nothing outside the approved recipe is ever sealed for signing: when a waiting tick
    goes on with a plan, the plan is authorised for this run and recipe hash, is the operation
    of the current recipe child under its adapter, comes from the run's wallet in its network,
    costs at most the fee cap and the rest of the gas budget, and its contracts, recipient,
    route and amount are those of the recipe child, the amount at most the approved one. *)
Theorem materialized_within_recipe s env id run c now plan amount p l :
  reachable s -> phase s = materializing id run c now ->
  tick_materialized env id run c now (Ok (mat_plan plan amount)) (db s) = (Ok p, l) -> p <> idle ->
  exists rc fee, r_children (ru_recipe run) !! ru_cursor run = Some rc /\
    p = checking_wallet id run (rc_operation rc) plan fee now /\
    common_within id run rc (material plan) fee /\
    ru_gasSpentUstx run + fee <= r_gasBudgetUstx (ru_recipe run) /\
    body_within (ru_recipe run) rc (body (material plan)).
Proof.
  intros Hr Hp H Hne. assert (Hok := reachable_ok _ Hr). assert (Hph := svc_phase _ Hok).
  rewrite Hp in Hph. destruct Hph as (c1 & Hh & Ht).
  unfold tick_materialized in H. apply bind_returned in H as (u & l1 & l2 & Ha & H & ->).
  apply assertPlan_returned in Ha as (-> & Hc & rc & Hrc & Hsh & Hb).
  assert (Hop : child_terms c1 = recipe_terms rc).
  { destruct Hh as (r & Hid & Hk & _ & Hre & Hcc).
    assert (Hs := seal_terms _ _ (inv_sealed _ (svc_inv _ Hok) _ _ Hid)). rewrite Hre in Hs.
    apply (f_equal (fun l => l !! ru_cursor run)) in Hs. rewrite !list_lookup_fmap, Hrc, Hcc in Hs.
    cbn in Hs. congruence. }
  destruct (common_accepted _ _ _ _ _ _ Hc Hrc) as [fee Hw];
    [unfold child_terms, recipe_terms in *; congruence|].
  exists rc, fee. destruct (within_fee _ _ _ _ _ Hw) as [Hf _]. cbn in H. rewrite Hf in H.
  destruct (Z.ltb_spec (r_gasBudgetUstx (ru_recipe run)) (ru_gasSpentUstx run + fee)) as [Hlt|Hle].
  { apply bind_returned in H as (? & ? & ? & _ & [= <- _] & _). done. }
  apply bind_returned in H as (c2 & l3 & l4 & Hm & H & _). apply guard_returned in H as [_ [= <- _]].
  split_and!; try done; [|by eapply planBody_within].
  assert (Hstored := wp_materializeChild tick_label id run c1 plan amount now
    (fun x _ => child_terms x = child_terms c1) (db s) Hh I (fun _ => eq_refl)).
  destruct Hstored as [_ Hst]. cbn [after List.hd] in Hm. rewrite Hm in Hst.
  specialize (Hst c2 eq_refl). cbn in Hst. do 2 f_equal.
  unfold child_terms, recipe_terms in *. congruence.
Qed.

(** ** Every run can be ended *)

(** The time after which recovery ends a run by itself. *)
Definition deadline (r : Run) : option Z :=
  match ru_status r with
  | awaiting_approval => Some (ru_approvalExpiresAt r)
  | running | paused | halted => ru_runtimeExpiresAt r
  | _ => None
  end.

Lemma expire_row r from now reason :
  run_row_ok (transitioned r (expire from now reason)) = true.
Proof. done. Qed.

Definition expiry (r : Run) (now : Z) : Transition :=
  expire [ru_status r] now
    (if bool_decide (ru_status r = awaiting_approval) then approval_elapsed else runtime_elapsed).

Lemma runtime_set r :
  run_inv r -> ru_status r ∈ [awaiting_approval; running; paused; halted] ->
  is_Some (deadline r).
Proof.
  intros Hr Hst. assert (Hrow := inv_row r Hr). unfold deadline, run_row_ok in *.
  apply andb_true_iff in Hrow as [_ [H2|H2]%orb_true_iff].
  - apply negb_true_iff, bool_decide_eq_false in H2. destruct (ru_status r); set_solver.
  - apply andb_true_iff in H2 as [_ H2%bool_decide_eq_true].
    destruct (ru_runtimeExpiresAt r); destruct (ru_status r); set_solver.
Qed.

Lemma tick_expires env id due r d :
  service_get sha256 localeCompare id d = (Ok r, []) -> ru_status r = running ->
  elapsed (deadline r) (e_now env) = true -> forall x l,
  transition id (expiry r (e_now env)) d = (Ok x, l) ->
  tick_start sha256 localeCompare options env due id d = (Ok idle, l).
Proof.
  intros Hg Hr He x l Hx. unfold deadline, expiry in *. rewrite Hr in *.
  unfold tick_start. rewrite <- (app_nil_r l). eapply bind_returns; [exact Hg|].
  rewrite <- (app_nil_r l). eapply bind_returns; [rewrite Hr; cbn; reflexivity|]. cbn [after List.hd]. rewrite Hr. cbn [negb].
  change l with ([] ++ l). eapply (bind_returns _ _ _ true); [|done].
  unfold expireRunningRun. rewrite He. change l with ([] ++ l). by eapply bind_returns.
Qed.

Lemma segment_returns env id reason m d p l :
  m d = (Ok p, l) -> segment env id reason m d = (Ok p, l).
Proof. unfold segment, catch. by intros ->. Qed.

Lemma action_expires env id r d :
  runs d !! id = Some r -> (inFlight r <= 1)%nat ->
  ru_status r ∈ [awaiting_approval; running; paused; halted] -> ru_status r <> running ->
  elapsed (deadline r) (e_now env) = true -> forall x l,
  transition id (expiry r (e_now env)) d = (Ok x, l) ->
  perform isUuid sha256 localeCompare options env (act_expire id) d = (Ok tt, l).
Proof.
  intros Hid Hf Hst Hr He x l Hx. cbn [perform]. rewrite <- (app_nil_r l).
  eapply bind_returns.
  { unfold require_run, get, gets, mbind, repo_bind. rewrite Hid. cbn. by rewrite bool_decide_eq_true_2. }
  cbn [after List.hd]. unfold recover_expire_stopped, recover_expire_approval, deadline, expiry in *.
  destruct (ru_status r) eqn:E; try set_solver; cbn -[mbind elapsed].
  - rewrite <- (app_nil_r l). eapply bind_returns; [done|]. cbn [after List.hd].
    cbn in He. rewrite He. change l with ([] ++ l). by eapply bind_returns.
  - rewrite He. change l with ([] ++ l). eapply (bind_returns _ _ _ true); [|done].
    change l with ([] ++ l). by eapply bind_returns.
  - rewrite He. change l with ([] ++ l). eapply (bind_returns _ _ _ true); [|done].
    change l with ([] ++ l). by eapply bind_returns.
Qed.

(** C9. No run outlives its deadline: a run that is awaiting approval, running, paused or
    halted has a deadline, and from then on one recovery step of an idle process ends it as
    expired and frees its wallet. *)
Theorem deadline_ends_run s id r :
  reachable s -> phase s = idle -> runs (db s) !! id = Some r ->
  ru_status r ∈ [awaiting_approval; running; paused; halted] ->
  exists t, deadline r = Some t /\ forall env, t <= e_now env ->
    exists s', step s s' /\ runs (db s') !! id = Some (transitioned r (expiry r (e_now env))) /\
      (forall w l, leases (db s') !! w = Some l -> ~ (l_kind l = lease_reward_run /\ l_id l = id)).
Proof.
  intros Hs Hidle Hid Hst. assert (Hrun := reachable_run _ _ _ Hs Hid).
  destruct (runtime_set r Hrun Hst) as [t Ht]. exists t. split; [done|]. intros env Hle.
  assert (Hexp := transition_returns id r (expiry r (e_now env)) (db s) Hid
    (reachable_inFlight _ _ _ Hs Hid) ltac:(cbn; set_solver) (expire_row _ _ _ _)).
  assert (Hgone : forall w l, leases (put_status id r (expiry r (e_now env)) (db s)) !! w = Some l ->
            ~ (l_kind l = lease_reward_run /\ l_id l = id)).
  { cbn. intros w l Hl. by apply lookup_released in Hl as [_ Hl]. }
  assert (Hel : elapsed (deadline r) (e_now env) = true).
  { rewrite Ht. cbn. by apply Z.leb_le. }
  destruct (reachable_service_get _ _ _ Hs Hid) as [_ Hget].
  destruct (decide (ru_status r = running)) as [Hr|Hr].
  - assert (Htick := tick_expires env id (isDue (cadence s)) r _ Hget Hr Hel _ _ Hexp).
    eexists. split; [by eapply step_run, (step_start _ _ _ _ env id "")|].
    cbn [db]. rewrite (segment_returns env id "" _ _ _ _ Htick). cbn. by rewrite lookup_insert_eq.
  - assert (Hact := action_expires env id r _ Hid (reachable_inFlight _ _ _ Hs Hid) Hst Hr Hel _ _ Hexp).
    eexists. split; [by eapply step_run, (step_action _ _ _ _ env (act_expire id))|].
    cbn [db]. rewrite Hact. cbn. by rewrite lookup_insert_eq.
Qed.

End Process.
