(* ===== verification/SweepSafety.v ===== *)
(** * The sweep service writes by the protocol

    Every segment of [SweepService] commits only writes of [SweepStore.sweep_write], also when
    it throws or stops, and what an approval or a refresh holds in memory while it waits stays
    true of the database whatever the others write meanwhile. *)

From S2P Require Import Prelude Text Principals OperationPlan TransactionJob SweepPlan NakamotoBlock.
From S2P Require Import Broadcast Recipe Receipt RunStore SweepStore Cadence SweepService RunProtocol.
From S2P Require Import RunLogic SweepProtocol.

Open Scope Z_scope.

(** ** What a write does to a sweep *)

(** The columns no write changes, a transaction ID that is set once, and an end of a sent
    sweep that is final. *)
Record sweep_evolves (r r' : SweepRow) : Prop := {
  se_plan : sr_plan r' = sr_plan r;
  se_sha : sr_planSha256 r' = sr_planSha256 r;
  se_wallet : sr_walletPrincipal r' = sr_walletPrincipal r;
  se_expires : sr_expiresAt r' = sr_expiresAt r;
  se_created : sr_createdAt r' = sr_createdAt r;
  se_txid : forall t, sr_txid r = Some t -> sr_txid r' = Some t;
  se_final : is_Some (sr_txid r) -> sr_status r <> sweep_broadcast -> sr_status r' = sr_status r;
  se_ended : ~ active_sweep r -> ~ active_sweep r';
}.

Lemma sweep_evolves_refl r : sweep_evolves r r.
Proof. by split. Qed.

Lemma sweep_evolves_trans r1 r2 r3 : sweep_evolves r1 r2 -> sweep_evolves r2 r3 -> sweep_evolves r1 r3.
Proof.
  intros [? ? ? ? ? Ht1 Hf1 ?] [? ? ? ? ? Ht2 Hf2 ?]. split; try congruence; eauto.
  intros [t Ht] Hb. rewrite Hf2, Hf1; [done | by exists t | done | exists t; auto |].
  by rewrite Hf1; [|exists t|].
Qed.

(** The write that records an approval. *)
Definition records (id : string) (l : Label) : Prop :=
  l = l_sweep (sl_move id sweep_planned sweep_broadcast).

(** What one write does to the row of [id]. *)
Record row_step (id : string) (l : Label) (r r' : SweepRow) : Prop := {
  rs_evolves : sweep_evolves r r';
  rs_unsent : sr_txid r = None -> ~ records id l -> sr_txid r' = None;
  rs_moved : sr_status r' <> sr_status r -> l = l_sweep (sl_move id (sr_status r) (sr_status r'));
}.

Lemma row_step_refl id l r : row_step id l r r.
Proof. split; [apply sweep_evolves_refl | done | done]. Qed.

Lemma moved_step id r p to now :
  sweep_row_ok r -> pt_status p = Some to -> to ∈ sweep_edges r -> txid_kept r p ->
  row_step id (l_sweep (sl_move id (sr_status r) to)) r (patched r p now).
Proof.
  intros Hok Hp He [Ht _]. split.
  - split; cbn; try done.
    + intros t Hr. destruct (pt_txid p) as [t'|]; cbn; [|done].
      destruct Ht as [[Hpl _]|Ht]; [|congruence].
      rewrite (so_unsent _ Hok) in Hr; [done|]. rewrite Hpl. is_in.
    + intros Hs Hb. rewrite sweep_edges_of in He. destruct Hs as [t Hr].
      assert (sr_status r <> sweep_planned).
      { intros Hpl. rewrite (so_unsent _ Hok) in Hr; [done|]. rewrite Hpl. is_in. }
      rewrite (bool_decide_eq_false_2 (sr_txid r = None)) in He by congruence.
      destruct (sr_status r); try done; not_in He.
    + intros Ha. unfold active_sweep. cbn. rewrite Hp. by eapply edge_from_terminal.
  - cbn. intros Hn Hrec. destruct (pt_txid p) as [t|]; cbn; [|done].
    destruct Ht as [[Hpl Hto]|Ht]; [|congruence]. destruct Hrec. unfold records. congruence.
  - cbn. rewrite Hp. done.
Qed.

Lemma noted_step id r p now :
  pt_status p = None -> pt_txid p = None -> row_step id (l_sweep (sl_note id)) r (patched r p now).
Proof.
  intros Hp Ht. split.
  - split; cbn; rewrite ?Hp, ?Ht; cbn; try done. unfold active_sweep. cbn. by rewrite Hp.
  - cbn. by rewrite Ht.
  - cbn. by rewrite Hp.
Qed.

Lemma sweeps_patch d id r p now :
  sweeps d !! id = Some r -> sweeps (patch_sweep id p now d) = <[id := patched r p now]> (sweeps d).
Proof. intros Hr. unfold patch_sweep, patch_row. rewrite Hr. by destruct (patch_terminal p). Qed.

Lemma write_row {digest_of : Digest} d l d' id r :
  sweep_inv d -> write d l d' -> sweeps d !! id = Some r ->
  exists r', sweeps d' !! id = Some r' /\ row_step id l r r'.
Proof.
  intros Hi Hw Hr.
  assert (Hstay : (forall k, l <> l_sweep k) -> exists r', sweeps d' !! id = Some r' /\ row_step id l r r').
  { intros Hk. destruct (write_not_sweep _ _ _ Hw Hk) as [-> _]. exists r. split; [done | apply row_step_refl]. }
  destruct l as [|i to|from| | |k]; try (by apply Hstay). clear Hstay. inversion Hw as [| | | |k' d1 Hs|]; subst.
  destruct Hs as [i wallet plan now _ _ Hn _|i x p to now Hx Hp He Ht|i x p now Hx Hp Ht].
  - cbn. rewrite lookup_insert_ne by (intros ->; congruence). exists r. split; [done | apply row_step_refl].
  - rewrite (sweeps_patch _ _ _ _ _ Hx). destruct (decide (i = id)) as [->|Hne].
    + rewrite lookup_insert_eq. assert (x = r) as -> by congruence. eexists. split; [done|].
      apply moved_step; try done. by eapply si_rows.
    + rewrite lookup_insert_ne by done. exists r. split; [done | apply row_step_refl].
  - rewrite (sweeps_patch _ _ _ _ _ Hx). destruct (decide (i = id)) as [->|Hne].
    + rewrite lookup_insert_eq. assert (x = r) as -> by congruence. eexists. split; [done|].
      by apply noted_step.
    + rewrite lookup_insert_ne by done. exists r. split; [done | apply row_step_refl].
Qed.

Section Writes.

Context {digest_of : Digest}.

Lemma writes_sweep_inv P d d' : sweep_inv d -> writes P d d' -> sweep_inv d'.
Proof.
  intros Hi Hw. induction Hw as [d|d d1 d2 (l & _ & Hw) _ IH]; [done|].
  apply IH. by eapply write_sweep_inv.
Qed.

Lemma writes_row (P : Label -> Prop) (d d' : Db) (id : string) (r : SweepRow) :
  sweep_inv d -> writes P d d' -> sweeps d !! id = Some r ->
  exists r', sweeps d' !! id = Some r' /\ sweep_evolves r r' /\
    ((forall l, P l -> ~ records id l) -> sr_txid r = None -> sr_txid r' = None) /\
    (sr_status r' <> sr_status r ->
     exists to, to <> sr_status r /\ P (l_sweep (sl_move id (sr_status r) to)) /\
       (is_Some (sr_txid r) -> to <> sweep_broadcast -> sr_status r' = to)).
Proof.
  intros Hi Hw. revert r Hi. induction Hw as [d|d d1 d2 (l & Hl & Hw) _ IH]; intros r Hi Hr.
  - exists r. split_and!; try done; try apply sweep_evolves_refl.
  - destruct (write_row _ _ _ _ _ Hi Hw Hr) as (r1 & Hr1 & [He1 Hu1 Hm1]).
    destruct (IH r1 (write_sweep_inv _ _ _ Hi Hw) Hr1) as (r2 & Hr2 & He2 & Hu2 & Hm2).
    exists r2. split_and!; [done | by eapply sweep_evolves_trans | |].
    + intros Hq Hn. apply Hu2; [done|]. apply Hu1; [done | by apply Hq].
    + intros Hne. destruct (decide (sr_status r1 = sr_status r)) as [Heq|Hne1].
      * rewrite <- Heq. destruct Hm2 as (to & H1 & H2 & H3); [congruence|]. exists to.
        split_and!; [done | done|]. intros [t Ht] Hto. apply H3; [|done]. exists t. by apply (se_txid _ _ He1).
      * exists (sr_status r1). split_and!; [done | by rewrite <- Hm1|]. intros [t Ht] Hto.
        apply (se_final _ _ He2); [|done]. exists t. by apply (se_txid _ _ He1).
Qed.

End Writes.

(** ** Rules of the store *)

Section Rules.

Context {digest_of : Digest} (P : Label -> Prop) (isUuid : string -> bool).

Lemma wp_get_sweep id (Phi : option SweepRow -> Db -> Prop) d :
  (forall r, sweeps d !! id = Some r -> Phi (Some r) d) -> (sweeps d !! id = None -> Phi None d) ->
  wp P (get_sweep isUuid id) Phi d.
Proof.
  intros Hs Hn. apply wp_bind, wp_gets. destruct (sweeps d !! id) as [r|]; [|by apply wp_ret, Hn].
  apply wp_bind, wp_guard_repo. intros _. by apply wp_ret, Hs.
Qed.

Lemma wp_stored_sweep id (Phi : SweepRow -> Db -> Prop) d :
  (forall r, sweeps d !! id = Some r -> Phi r d) -> wp P (stored_sweep isUuid id) Phi d.
Proof.
  intros H. apply wp_bind, wp_get_sweep; [|intros _; apply wp_raise]. intros r Hr. by apply wp_ret, H.
Qed.

Lemma wp_requireSweep id (Phi : SweepRow -> Db -> Prop) d :
  (forall r, sweeps d !! id = Some r -> Phi r d) -> wp P (requireSweep isUuid id) Phi d.
Proof.
  intros H. apply wp_bind, wp_get_sweep; [|intros _; apply wp_raise]. intros r Hr. by apply wp_ret, H.
Qed.

Lemma wp_sweep_guard b code (Phi : unit -> Db -> Prop) d :
  (b = true -> Phi tt d) -> wp P (sweep_guard b code) Phi d.
Proof. apply wp_guard_repo. Qed.

Lemma wp_sweep_throw {A} code (Phi : A -> Db -> Prop) d : wp P (sweep_throw code) Phi d.
Proof. apply wp_raise. Qed.

(** A patch that is a write of the protocol. *)
Definition allowed (id : string) (r : SweepRow) (p : Patch) : Prop :=
  match pt_status p with
  | Some to => to ∈ sweep_edges r /\ txid_kept r p /\ P (l_sweep (sl_move id (sr_status r) to))
  | None => pt_txid p = None /\ P (l_sweep (sl_note id))
  end.

Lemma allowed_writes id r p now d :
  sweeps d !! id = Some r -> allowed id r p -> writes P d (patch_sweep id p now d).
Proof.
  intros Hr Ha. unfold allowed in Ha. destruct (pt_status p) as [to|] eqn:Hp.
  - destruct Ha as (He & Ht & HP). by eapply writes_one, w_sweep, sweep_moved.
  - destruct Ha as (Ht & HP). by eapply writes_one, w_sweep, sweep_noted.
Qed.

(** An update commits once or throws without a trace. *)
Lemma wp_update_sweep id r p now (Phi : SweepRow -> Db -> Prop) d :
  sweeps d !! id = Some r -> allowed id r p ->
  Phi (patched r p now) (patch_sweep id p now d) ->
  wp P (update_sweep isUuid id p now) Phi d.
Proof.
  intros Hr Ha HPhi. unfold update_sweep. apply wp_bind.
  assert (Hw := allowed_writes _ _ _ now _ Hr Ha).
  assert (Hrow : sweeps (patch_sweep id p now d) !! id = Some (patched r p now)).
  { rewrite (sweeps_patch _ _ _ _ _ Hr). apply lookup_insert_eq. }
  assert (Hpost : wp P (stored_sweep isUuid id) Phi (patch_sweep id p now d)).
  { apply wp_stored_sweep. intros r' Hr'. rewrite Hrow in Hr'. by injection Hr' as <-. }
  unfold transaction, mbind, repo_bind, gets. unfold patch_ok, guard_repo.
  split; cbn; rewrite Hr; cbn; destruct (match pt_txid p with Some _ => _ | None => _ end); cbn.
  - by intros d' ->%list_elem_of_singleton.
  - by intros d' Hd%elem_of_nil.
  - by intros [] _.
  - done.
Qed.

Lemma wp_getPlan id r (Phi : option SweepPlan -> Db -> Prop) d :
  sweeps d !! id = Some r -> Phi (Some (sr_plan r)) d -> wp P (getPlan id) Phi d.
Proof.
  intros Hr HPhi. apply wp_bind, wp_gets. rewrite Hr. apply wp_bind, wp_guard_repo. intros _.
  by apply wp_ret.
Qed.

Lemma in_select_sweeps where_ d id r :
  (id, r) ∈ select_sweeps where_ d -> sweeps d !! id = Some r /\ where_ r = true.
Proof.
  unfold select_sweeps. intros H. rewrite js_sort_perm in H.
  apply list_elem_of_In, filter_In in H as [H Hw]. split; [|done].
  by apply elem_of_map_to_list, list_elem_of_In.
Qed.

Lemma wp_activeSweep (Phi : option (string * SweepRow) -> Db -> Prop) d :
  (forall id r, sweeps d !! id = Some r -> active_sweep r -> Phi (Some (id, r)) d) ->
  Phi None d -> wp P (activeSweep isUuid) Phi d.
Proof.
  intros Hs Hn. apply wp_bind, wp_gets. destruct (head _) as [[id r]|] eqn:Hh; [|by apply wp_ret].
  apply wp_bind, wp_guard_repo. intros _. apply wp_ret.
  assert (Hin : (id, r) ∈ select_sweeps (fun r => bool_decide (active_sweep r)) d).
  { destruct (select_sweeps _ d); [done|]. injection Hh as ->. constructor. }
  apply in_select_sweeps in Hin as [Hr Ha%bool_decide_eq_true]. by apply Hs.
Qed.

Lemma wp_list_sweeps limit d : wp P (list_sweeps isUuid limit) (fun _ _ => True) d.
Proof.
  apply wp_bind, wp_gets. induction (take _ _) as [|[id r] l IH]; cbn; [by apply wp_ret|].
  apply wp_bind, wp_guard_repo. intros _. apply wp_bind. eapply wp_mono; [exact IH|].
  intros a d' _. by apply wp_ret.
Qed.

(** The insertion of a sweep: the wallet was free. *)
Lemma wp_insert_sweep id wallet plan now (Phi : SweepRow -> Db -> Prop) d :
  sweep_inv d -> P (l_sweep (sl_insert plan)) ->
  (forall r d', Phi r d') -> wp P (insert_sweep isUuid id wallet plan now) Phi d.
Proof.
  intros Hi HP HPhi. unfold insert_sweep. apply wp_bind, wp_guard_repo. intros Hs.
  apply wp_bind. unfold transaction, mbind, repo_bind, gets, guard_repo. cbn.
  assert (Hpost : forall d', wp P (stored_sweep isUuid id) Phi d').
  { intros d'. apply wp_stored_sweep. auto. }
  destruct (lease_busy wallet lease_sweep id d) eqn:Hb; cbn;
    [split; cbn; rewrite ?Hb; cbn; [by intros ? ?%elem_of_nil | done]|].
  destruct (bool_decide _ && bool_decide _) eqn:Hk; cbn;
    [|split; cbn; rewrite ?Hb; cbn; rewrite ?Hk; cbn; [by intros ? ?%elem_of_nil | done]].
  destruct (bool_decide_reflect (sweeps d !! id = None)) as [Hn|Hn]; cbn.
  - assert (Hw : writes P d (put_sweep id wallet plan now d)).
    { apply orb_false_iff in Hb as [Hw%bool_decide_eq_false Hl].
      eapply writes_one, w_sweep, sweep_inserted; try done.
      - by destruct (leases d !! wallet); [destruct Hw|].
      - intros w l Hwl [Hkind Hid]. destruct (si_owned _ Hi _ _ Hwl Hkind) as (r & Hr & _).
        rewrite Hid in Hr. congruence. }
    split; cbn; rewrite ?Hb; cbn; rewrite ?Hk; cbn; rewrite (bool_decide_eq_true_2 _ Hn); cbn.
    + by intros d' ->%list_elem_of_singleton.
    + intros [] _. apply Hpost.
  - split; cbn; rewrite ?Hb; cbn; rewrite ?Hk; cbn; rewrite (bool_decide_eq_false_2 _ Hn); cbn;
      [by intros ? ?%elem_of_nil | done].
Qed.

End Rules.

(** ** The segments *)

(** A sweep whose transaction was not sent yet. *)
Definition unsent (id : string) (plan : SweepPlan) (wallet : string) (d : Db) : Prop :=
  exists r, sweeps d !! id = Some r /\ sr_txid r = None /\ sr_plan r = plan /\
    sr_walletPrincipal r = wallet.

(** What a waiting approval relies on. *)
Definition approval_ok (id : string) (ph : ApprovePhase) (d : Db) : Prop :=
  match ph with
  | ap_checking sweep _ => unsent id (sr_plan sweep) (sr_walletPrincipal sweep) d
  | ap_reading sweep plan _ => plan = sr_plan sweep /\ unsent id plan (sr_walletPrincipal sweep) d
  | ap_signing plan _ => exists wallet, unsent id plan wallet d
  | ap_sending txid => exists r, sweeps d !! id = Some r /\ sr_txid r = Some txid
  end.

(** What a waiting refresh relies on. *)
Definition refresh_ok (id : string) (sweep : SweepRow) (d : Db) : Prop :=
  is_Some (sr_txid sweep) /\ exists r, sweeps d !! id = Some r /\ sweep_evolves sweep r.

Section Segments.

Context {digest_of : Digest} (P : Label -> Prop) (isUuid : string -> bool)
        (validateStacksAddress : string -> bool) (makeUnsigned : Transfer -> option string)
        (deserialize : string -> option ReadBack) (sha256 : list Z -> string) (options : SweepOptions).

Abbreviation plan_sweep := (planGasWalletSweep validateStacksAddress makeUnsigned deserialize sha256).

Context (calm : forall id from to,
           ~ (from = sweep_planned /\ to = sweep_broadcast) ->
           ~ (from = sweep_broadcast /\ to <> sweep_broadcast) ->
           P (l_sweep (sl_move id from to)))
        (noted : forall id, P (l_sweep (sl_note id)))
        (planned : forall input plan, plan_sweep input = Ok plan -> P (l_sweep (sl_insert plan))).

Lemma wp_resolveSweep id r status now reason (Phi : SweepRow -> Db -> Prop) d :
  sweeps d !! id = Some r -> sr_status r <> sweep_broadcast ->
  status <> sweep_broadcast -> status ∈ sweep_edges r ->
  (forall r' d', sr_status r' = status -> Phi r' d') ->
  wp P (resolveSweep isUuid id status now reason) Phi d.
Proof.
  intros Hr Hb Hs He HPhi. eapply wp_update_sweep; [exact Hr | | by apply HPhi].
  unfold allowed. cbn. split; [done|]. split; [|by apply calm; intros []].
  split; cbn; [congruence|]. intros _ [= ->]. done.
Qed.

Lemma wp_resolve_planned id r status now reason d :
  sweeps d !! id = Some r -> sr_status r = sweep_planned ->
  status ∈ [sweep_cancelled; sweep_expired; sweep_failed] ->
  wp P (resolveSweep isUuid id status now reason) (fun _ _ => True) d.
Proof.
  intros Hr Hp Hs. eapply wp_resolveSweep; try done.
  - by rewrite Hp.
  - intros ->. not_in Hs.
  - unfold sweep_edges. rewrite Hp. by right.
Qed.

(** An approval that gives up finds a sweep that was never sent. *)
Lemma wp_resolve_unsent id plan wallet status now reason d :
  sweep_inv d -> unsent id plan wallet d -> status ∈ [sweep_expired; sweep_failed] ->
  wp P (resolveSweep isUuid id status now reason) (fun _ _ => True) d.
Proof.
  intros Hi (r & Hr & Hn & _) Hs. assert (Hok := si_rows _ Hi _ _ Hr).
  assert (Hne : sr_status r ∉ [sweep_broadcast; sweep_confirmed]).
  { intros Hb. destruct (so_sent _ Hok Hb). congruence. }
  assert (status <> sweep_broadcast) by (intros ->; not_in Hs).
  eapply wp_resolveSweep; try done.
  - intros Hb. apply Hne. rewrite Hb. is_in.
  - rewrite sweep_edges_of, (bool_decide_eq_true_2 _ Hn).
    destruct (sr_status r); cbn [edges_of]; try done; try (destruct Hne; is_in).
    by right; right.
Qed.

Lemma wp_expirePlannedSweeps now (Phi : unit -> Db -> Prop) d :
  (forall d', writes P d d' -> Phi tt d') -> wp P (expirePlannedSweeps isUuid now) Phi d.
Proof.
  intros HPhi. apply wp_bind, wp_activeSweep; [|apply wp_ret, HPhi, writes_refl].
  intros id r Hr _. destruct (bool_decide_reflect (sr_status r = sweep_planned)) as [Hp|]; cbn [andb];
    [destruct (sr_expiresAt r <=? now)|]; try (apply wp_ret, HPhi, writes_refl).
  apply wp_bind. assert (Hw : wp P (resolveSweep isUuid id sweep_expired now window_elapsed) (fun _ _ => True) d)
    by (eapply wp_resolve_planned; try done; is_in).
  split; [apply Hw|]. intros a _. apply wp_ret, HPhi. by eapply wp_after.
Qed.

Lemma wp_requireNoActiveWork env (Phi : unit -> Db -> Prop) d :
  (forall d', Phi tt d') -> wp P (requireNoActiveWork isUuid env) Phi d.
Proof.
  intros HPhi. apply wp_bind, wp_expirePlannedSweeps. intros d' _.
  apply wp_bind, wp_activeSweep; intros; apply wp_bind, wp_sweep_guard; intros; by apply wp_sweep_guard.
Qed.

Lemma wp_listSweeps env limit d : wp P (listSweeps isUuid env limit) (fun _ _ => True) d.
Proof. apply wp_bind, wp_expirePlannedSweeps. intros d' _. apply wp_list_sweeps. Qed.

Lemma wp_prepare_start env d : wp P (prepare_start isUuid env) (fun _ _ => True) d.
Proof.
  unfold prepare_start. destruct (w_wallet env) as [w|]; [|apply wp_sweep_throw].
  apply wp_bind, wp_requireNoActiveWork. intros d'. apply wp_bind, wp_sweep_guard. intros _. by apply wp_ret.
Qed.

Lemma wp_of_plan m (Phi : SweepPlan -> Db -> Prop) d :
  (forall p, m = Ok p -> Phi p d) -> wp P (of_plan m) Phi d.
Proof. intros H. destruct m as [p|[]]; try apply wp_sweep_throw; try apply wp_raise. by apply wp_ret, H. Qed.

Lemma wp_sweep_prepare_finish now id wallet recipient tip account policy answer d :
  sweep_inv d ->
  wp P (prepare_finish isUuid validateStacksAddress makeUnsigned deserialize sha256 options now id wallet
          recipient tip account policy answer) (fun _ _ => True) d.
Proof.
  intros Hi. unfold prepare_finish. destruct account as [[account|]|e];
    [|apply wp_sweep_throw | apply wp_raise].
  apply wp_bind, wp_of_plan. intros draft Hdraft. cbv zeta. apply wp_bind.
  assert (Hstore : forall p input, plan_sweep input = Ok p ->
    wp P (catch (insert_sweep isUuid id (sender_principal wallet) p now)
           (fun e => match e with sweep_busy => sweep_throw gas_wallet_sweep_blocked | _ => raise e end))
       (fun _ _ => True) d).
  { intros p input Hp. apply wp_catch; [by apply wp_insert_sweep; eauto|].
    intros [] d' _; apply wp_raise. }
  destruct (_ =? _); [by apply wp_ret; eapply Hstore|]. apply wp_of_plan. intros p Hp. by eapply Hstore.
Qed.

(** ** Approving *)

Lemma unsent_row d id r :
  sweep_inv d -> sweeps d !! id = Some r -> sr_status r = sweep_planned ->
  unsent id (sr_plan r) (sr_walletPrincipal r) d.
Proof.
  intros Hi Hr Hp. exists r. split_and!; try done. apply (so_unsent _ (si_rows _ Hi _ _ Hr)).
  rewrite Hp. is_in.
Qed.

Lemma wp_sweep_approve_start env id d :
  sweep_inv d -> wp P (approve_start isUuid env id) (approval_ok id) d.
Proof.
  intros Hi. unfold approve_start. destruct (w_engine env) as [[ready jobs]|]; [|apply wp_sweep_throw].
  apply wp_bind, wp_sweep_guard. intros _. apply wp_bind, wp_requireSweep. intros r Hr.
  apply wp_bind, wp_sweep_guard. intros Hp%bool_decide_eq_true. destruct (sr_expiresAt r <=? w_now env).
  - apply wp_bind. eapply wp_mono; [eapply wp_resolve_planned; try done; is_in|].
    intros. apply wp_sweep_throw.
  - apply wp_bind, wp_sweep_guard. intros _. apply wp_ret. cbn. by apply unsent_row.
Qed.

Lemma wp_approve_checked env id sweep now refusal d :
  approval_ok id (ap_checking sweep now) d ->
  wp P (approve_checked env id sweep now refusal) (approval_ok id) d.
Proof.
  intros Hu. apply wp_bind, wp_sweep_guard. intros _. destruct Hu as (r & Hr & Hn & Hp & Hw).
  apply wp_bind. eapply wp_getPlan; [exact Hr|]. apply wp_bind, wp_sweep_guard. intros _.
  apply wp_ret. cbn. split; [done|]. by exists r.
Qed.

Lemma wp_assertSweepApprovalCurrent env id (Phi : unit -> Db -> Prop) d :
  (forall r, sweeps d !! id = Some r -> sr_status r = sweep_planned -> w_now env < sr_expiresAt r ->
     Phi tt d) ->
  wp P (assertSweepApprovalCurrent isUuid env id) Phi d.
Proof.
  intros H. apply wp_bind, wp_requireSweep. intros r Hr. apply wp_sweep_guard. intros Hb.
  apply andb_true_iff in Hb as [Hp%bool_decide_eq_true Ht]. breflect. by eapply H.
Qed.

Lemma wp_approve_read env id sweep plan now now' account d :
  sweep_inv d -> approval_ok id (ap_reading sweep plan now) d ->
  wp P (approve_read isUuid env id plan now' account) (approval_ok id) d.
Proof.
  intros Hi [_ Hu]. unfold approve_read. destruct account as [[account|]|e];
    [|apply wp_sweep_throw | apply wp_raise].
  cbv zeta. match goal with |- context [if ?b then _ else _] => destruct b end.
  - apply wp_bind. eapply wp_mono; [eapply wp_resolve_unsent; try done; is_in|].
    intros. apply wp_sweep_throw.
  - apply wp_bind, wp_assertSweepApprovalCurrent. intros _ _ _ _. apply wp_ret. cbn. eauto.
Qed.

(** Only this segment records an approval. *)
Lemma wp_approve_signed env id plan now now' message signature d :
  (forall txid, signature = Ok txid -> P (l_sweep (sl_move id sweep_planned sweep_broadcast))) ->
  sweep_inv d -> approval_ok id (ap_signing plan now) d ->
  wp P (approve_signed isUuid env id now' message signature) (approval_ok id) d.
Proof.
  intros HP Hi [wallet Hu]. unfold approve_signed. destruct signature as [txid|e].
  - apply wp_bind, wp_assertSweepApprovalCurrent. intros r Hr Hp _. apply wp_bind.
    eapply wp_update_sweep; [exact Hr | |].
    + unfold allowed. cbn. rewrite Hp. split; [unfold sweep_edges; rewrite Hp; is_in|].
      split; [|by eapply HP]. split; cbn; [by left|]. intros _ _. split; eexists; done.
    + apply wp_ret. cbn. eexists. rewrite (sweeps_patch _ _ _ _ _ Hr), lookup_insert_eq. done.
  - apply wp_bind. eapply wp_mono; [eapply wp_resolve_unsent; try done; is_in|].
    intros. apply wp_sweep_throw.
Qed.

Lemma wp_approve_sent env id txid outcome d :
  (forall m status code message, outcome = Ok (br_deterministic_rejection m status code message) ->
     P (l_sweep (sl_move id sweep_broadcast sweep_failed))) ->
  sweep_inv d -> approval_ok id (ap_sending txid) d ->
  wp P (approve_sent isUuid env id txid outcome) (fun _ _ => True) d.
Proof.
  intros HP Hi (r0 & Hr0 & Ht). apply wp_bind, wp_requireSweep. intros r Hr.
  assert (r0 = r) as -> by congruence.
  destruct (bool_decide_reflect (sr_status r = sweep_broadcast)) as [Hb|]; cbn [negb orb]; [|by apply wp_ret].
  destruct (bool_decide _); cbn [negb]; [|by apply wp_ret].
  assert (Hsent : forall b, wp P (update_sweep isUuid id
            {| pt_status := Some sweep_broadcast; pt_txid := Some txid;
               pt_broadcastAmbiguous := Some b; pt_executionSource := None;
               pt_approvedAt := None; pt_broadcastAt := None; pt_resolvedAt := None;
               pt_blockHeight := None; pt_failureReason := None |} (w_now env)) (fun _ _ => True) d).
  { intros b. eapply wp_update_sweep; [exact Hr | |done]. unfold allowed. cbn.
    rewrite Hb. split; [unfold sweep_edges; rewrite Hb; is_in|]. split; [|apply calm; by intros []].
    split; cbn; [by right | congruence]. }
  destruct outcome as [[m h|m h s c|m h s x]|e]; try apply Hsent.
  all: eapply wp_update_sweep; [exact Hr | |done]; unfold allowed; cbn; rewrite Hb;
    (split; [unfold sweep_edges; rewrite Hb; is_in|]); (split; [|by eapply HP]);
    split; cbn; [by right | congruence].
Qed.

Lemma wp_cancelSweep env id d : wp P (cancelSweep isUuid env id) (fun _ _ => True) d.
Proof.
  apply wp_bind, wp_requireSweep. intros r Hr. apply wp_bind, wp_sweep_guard.
  intros Hp%bool_decide_eq_true. eapply wp_resolve_planned; try done. is_in.
Qed.

(** ** Observing *)

Lemma wp_throws_to_caller {A} (m : repo A) (Phi : A -> Db -> Prop) d :
  wp P m Phi d -> wp P (throws_to_caller m) (fun _ _ => True) d.
Proof.
  intros Hm. apply wp_catch; [|intros; by apply wp_ret]. apply wp_bind. eapply wp_mono; [exact Hm|].
  intros. by apply wp_ret.
Qed.

Lemma wp_refresh_start env id d :
  sweep_inv d ->
  wp P (refresh_start isUuid env id)
    (fun o d' => match o with Some sweep => refresh_ok id sweep d' | None => True end) d.
Proof.
  intros Hi. apply wp_bind, wp_requireSweep. intros r Hr.
  destruct (bool_decide_reflect (sr_status r = sweep_planned)) as [Hp|]; cbn [andb].
  - destruct (sr_expiresAt r <=? w_now env).
    + apply wp_bind. eapply wp_mono; [eapply wp_throws_to_caller, wp_resolve_planned; try done; is_in|].
      intros. by apply wp_ret.
    + rewrite Hp. by apply wp_ret.
  - destruct (bool_decide_reflect (sr_txid r = None)) as [|Ht]; rewrite ?orb_true_r; [by apply wp_ret|].
    destruct (negb _); [by apply wp_ret|]. apply wp_bind, wp_sweep_guard. intros _. apply wp_ret. split.
    + by destruct (sr_txid r); [eexists|].
    + exists r. split; [done | apply sweep_evolves_refl].
Qed.

Lemma wp_refresh_finish now id outcome d :
  (forall success repr height source, outcome = sub_confirmed success repr height source ->
     P (l_sweep (sl_move id sweep_broadcast (if success then sweep_confirmed else sweep_failed)))) ->
  wp P (refresh_finish isUuid now id outcome) (fun _ _ => True) d.
Proof.
  intros HP. unfold refresh_finish.
  destruct outcome as [success repr height source|reason|].
  - apply wp_bind, wp_requireSweep. intros r Hr.
    destruct (bool_decide_reflect (sr_status r = sweep_broadcast)) as [Hb|]; cbn [negb]; [|by apply wp_ret].
    apply wp_bind. eapply wp_mono; [|intros; by apply wp_ret].
    apply (wp_throws_to_caller _ (fun _ _ => True)). eapply wp_update_sweep; [exact Hr| |done].
    unfold allowed. cbn. split; [unfold sweep_edges; rewrite Hb; destruct success; is_in|].
    split; [|rewrite Hb; by eapply HP]. split; cbn; [by destruct success|].
    intros Hp. congruence.
  - apply wp_bind. eapply wp_mono; [|intros; by apply wp_ret].
    apply (wp_throws_to_caller _ (fun _ _ => True)). apply wp_bind, wp_requireSweep. intros r Hr.
    destruct (negb _); [by apply wp_ret|]. eapply wp_update_sweep; [exact Hr| |done].
    split; [done|apply noted].
  - apply wp_bind, wp_requireSweep. intros r Hr. destruct (negb _); by apply wp_ret.
Qed.

End Segments.
