(* ===== verification/SweepSystem.v ===== *)
(** * Reward runs and sweeps together

    The two services in one process over one database.  A step of the system is a step of the
    run service, an event of the sweep service, or a stop of the process in the middle of either.
    Whatever the sweeps do, the run service sees steps it already allows for, so every theorem
    about its reachable states holds of the system. *)

From S2P Require Import Prelude Text Principals OperationPlan TransactionJob SweepPlan NakamotoBlock.
From S2P Require Import Broadcast Recipe Receipt RunStore SweepStore Cadence RunService SweepService.
From S2P Require Import RunProtocol SweepProtocol RunLogic RunSafety RunCorrect SweepSafety.

Open Scope Z_scope.

Record Sys := { svc : Svc; sweeper : Sweeper }.

Definition with_db (d : Db) (s : Svc) : Svc :=
  {| db := d; phase := phase s; cadence := cadence s; approvals := approvals s |}.

Section System.

Context (isUuid : string -> bool) (validateStacksAddress : string -> bool)
        (makeUnsigned : Transfer -> option string) (deserialize : string -> option ReadBack)
        (sha256 : list Z -> string) (deserializeTransaction : list Z -> option (BlockTx * nat))
        (localeCompare : string -> string -> Z) (options : Options) (sweep_options : SweepOptions).

#[local] Instance system_digest : Digest := recipe_digest sha256 localeCompare.

Abbreviation run_step := (run_step isUuid sha256 localeCompare options).
Abbreviation run_reachable := (RunService.reachable isUuid sha256 localeCompare options).
Abbreviation handle := (handle isUuid validateStacksAddress makeUnsigned deserialize sha256
                          deserializeTransaction sweep_options).
Abbreviation plan_sweep := (planGasWalletSweep validateStacksAddress makeUnsigned deserialize sha256).
Abbreviation revalidate :=
  (revalidateGasWalletSweepPlan validateStacksAddress makeUnsigned deserialize sha256).

(** The state after an event: a throw leaves what was committed. *)
Definition handled (c : repo Sweeper) (failed : Sweeper) (s : Sys) : Sys :=
  let out := c (db (svc s)) in
  {| svc := with_db (after (db (svc s)) (snd out)) (svc s);
     sweeper := match fst out with Ok m => m | Err _ => failed end |}.

(** A restart of the run service may be one of the whole process. *)
Inductive sys_step : Sys -> Sys -> Prop :=
  | sys_run s s' m :
      run_step (svc s) s' -> m = sweeper s \/ m = asleep ->
      sys_step s {| svc := s'; sweeper := m |}
  | sys_event e c failed s :
      handle e (sweeper s) = Some (c, failed) -> sys_step s (handled c failed s)
  | sys_crash e c failed d s :
      handle e (sweeper s) = Some (c, failed) -> d ∈ snd (c (db (svc s))) ->
      sys_step s {| svc := init d; sweeper := asleep |}.

Definition sys_init : Sys := {| svc := init empty_db; sweeper := asleep |}.
Definition sys_reachable (s : Sys) : Prop := rtc sys_step sys_init s.

(** ** The invariant *)

Record memory_ok (m : Sweeper) (d : Db) : Prop := {
  mo_approving : forall id ph, approving m !! id = Some ph -> approval_ok id ph d;
  mo_refreshing : forall id sweep now, refreshing m !! id = Some (sweep, now) -> refresh_ok id sweep d;
}.

(** Every plan comes from the planner. *)
Definition planned_by_us (plan : SweepPlan) : Prop := exists input, plan_sweep input = Ok plan.

Record sys_ok (s : Sys) : Prop := {
  sys_sweeps : sweep_inv (db (svc s));
  sys_memory : memory_ok (sweeper s) (db (svc s));
  sys_planned : forall id r, sweeps (db (svc s)) !! id = Some r -> planned_by_us (sr_plan r);
}.

(** ** What an event may write *)

Definition records_approval (e : SweepEvent) (id : string) : Prop :=
  match e with ev_signed _ i _ (Ok _) => i = id | _ => False end.

(** What takes a sweep that was sent to its end: the node's deterministic rejection, or evidence
    of the chain for its transaction ID. *)
Definition settles (e : SweepEvent) (m : Sweeper) (d : Db) (id : string) (to : SweepStatus) : Prop :=
  match e with
  | ev_sent _ i (Ok (br_deterministic_rejection _ _ _ _)) => i = id /\ to = sweep_failed
  | ev_refreshed i indexed reads _ =>
      i = id /\ exists sweep now txid success repr height source,
        refreshing m !! id = Some (sweep, now) /\ sr_txid sweep = Some txid /\
        readSubmittedTransactionOutcome deserializeTransaction indexed reads
          (chainId (so_network sweep_options)) txid
          (sweep_evidence validateStacksAddress makeUnsigned deserialize sha256 sweep_options id sweep d)
        = sub_confirmed success repr height source /\
        to = (if success then sweep_confirmed else sweep_failed)
  | _ => False
  end.

Definition event_label (e : SweepEvent) (m : Sweeper) (d : Db) (l : Label) : Prop :=
  match l with
  | l_sweep (sl_insert plan) => planned_by_us plan
  | l_sweep (sl_move id from to) =>
      (from = sweep_planned -> to = sweep_broadcast -> records_approval e id) /\
      (from = sweep_broadcast -> to <> sweep_broadcast -> settles e m d id to)
  | l_sweep (sl_note _) => True
  | _ => False
  end.

Lemma event_sweep e m d l : event_label e m d l -> is_sweep l.
Proof. by destruct l. Qed.

Lemma event_calm e m d id from to :
  ~ (from = sweep_planned /\ to = sweep_broadcast) -> ~ (from = sweep_broadcast /\ to <> sweep_broadcast) ->
  event_label e m d (l_sweep (sl_move id from to)).
Proof. intros H1 H2. split; intros ? ?; [by destruct H1 | by destruct H2]. Qed.

(** ** Memory under writes *)

Lemma unsent_writes P id plan wallet d d' :
  sweep_inv d -> writes P d d' -> (forall l, P l -> ~ records id l) ->
  unsent id plan wallet d -> unsent id plan wallet d'.
Proof.
  intros Hi Hw Hq (r & Hr & Hn & Hp & Hwal).
  destruct (writes_row _ _ _ _ _ Hi Hw Hr) as (r' & Hr' & He & Hu & _). exists r'.
  split_and!; [done | by apply Hu | by rewrite (se_plan _ _ He) | by rewrite (se_wallet _ _ He)].
Qed.

Lemma approval_ok_writes P id ph d d' :
  sweep_inv d -> writes P d d' -> (forall l, P l -> ~ records id l) ->
  approval_ok id ph d -> approval_ok id ph d'.
Proof.
  intros Hi Hw Hq. destruct ph as [sweep now|sweep plan now|plan now|txid]; cbn.
  - by eapply unsent_writes.
  - intros [-> Hu]. split; [done|]. by eapply unsent_writes.
  - intros [wallet Hu]. exists wallet. by eapply unsent_writes.
  - intros (r & Hr & Ht). destruct (writes_row _ _ _ _ _ Hi Hw Hr) as (r' & Hr' & He & _).
    exists r'. split; [done|]. by apply (se_txid _ _ He).
Qed.

Lemma refresh_ok_writes P id sweep d d' :
  sweep_inv d -> writes P d d' -> refresh_ok id sweep d -> refresh_ok id sweep d'.
Proof.
  intros Hi Hw (Ht & r & Hr & He). destruct (writes_row _ _ _ _ _ Hi Hw Hr) as (r' & Hr' & He' & _).
  split; [done|]. exists r'. split; [done|]. by eapply sweep_evolves_trans.
Qed.

Lemma memory_ok_writes P m d d' :
  sweep_inv d -> writes P d d' -> (forall id l, P l -> ~ records id l) ->
  memory_ok m d -> memory_ok m d'.
Proof.
  intros Hi Hw Hq [Ha Hr]. split.
  - intros id ph Hph. eapply approval_ok_writes; [exact Hi | exact Hw | apply Hq | by apply Ha].
  - intros id sweep now Hs. eapply refresh_ok_writes; [exact Hi | exact Hw | by eapply Hr].
Qed.

Lemma asleep_ok d : memory_ok asleep d.
Proof. split; intros id; cbn; by rewrite lookup_empty. Qed.

(** ** The events *)

Lemma wp_with_writes {A} P (m : repo A) Phi d :
  wp P m Phi d -> wp P m (fun a d' => Phi a d' /\ writes P d d') d.
Proof.
  intros Hm. split; [apply Hm|]. intros a Ha. split; [by apply Hm | by eapply wp_after].
Qed.

(** The approval of [id] leaves memory. *)
Lemma memory_ok_delete P id m d d' :
  sweep_inv d -> writes P d d' -> (forall i l, i <> id -> P l -> ~ records i l) ->
  memory_ok m d -> memory_ok (set_approving (delete id (approving m)) m) d'.
Proof.
  intros Hi Hw Hq [Ha Hr]. split; cbn.
  - intros i ph [Hne Hph]%lookup_delete_Some. eapply approval_ok_writes; [exact Hi | exact Hw | | by apply Ha].
    intros l. by apply Hq.
  - intros i sweep now Hs. eapply refresh_ok_writes; [exact Hi | exact Hw | by eapply Hr].
Qed.

Lemma memory_ok_insert id ph m d :
  approval_ok id ph d -> memory_ok (set_approving (delete id (approving m)) m) d ->
  memory_ok (set_approving (<[id := ph]> (approving m)) m) d.
Proof.
  intros Hph [Ha Hr]. split; [|done]. cbn in *. intros i x [[<- <-]|[Hne Hx]]%lookup_insert_Some; [done|].
  apply Ha. rewrite lookup_delete_Some. done.
Qed.

(** A computation that keeps the memory invariant, and so does its failure. *)
Definition keeps (P : Label -> Prop) (c : repo Sweeper) (failed : Sweeper) (d : Db) : Prop :=
  wp P c memory_ok d /\ forall d', writes P d d' -> memory_ok failed d'.

Lemma approval_step_ok P id mm m d :
  sweep_inv d -> memory_ok m d -> wp P mm (approval_ok id) d ->
  (forall i l, i <> id -> P l -> ~ records i l) ->
  keeps P (fst (approval_step id mm m)) (snd (approval_step id mm m)) d.
Proof.
  intros Hi Hm Hw Hq. assert (Hd : forall d', writes P d d' ->
    memory_ok (set_approving (delete id (approving m)) m) d') by (intros; by eapply memory_ok_delete).
  split; [|exact Hd]. apply wp_bind. eapply wp_mono; [by apply wp_with_writes|].
  intros ph d' [Hph Hwr]. apply wp_ret. apply memory_ok_insert; [done | by apply Hd].
Qed.

(** A computation that ends with a memory that depends on its answer. *)
Lemma keeps_ret {A} P (mm : repo A) (f : A -> Sweeper) failed (Phi : A -> Db -> Prop) d :
  wp P mm Phi d ->
  (forall a d', Phi a d' -> writes P d d' -> memory_ok (f a) d') ->
  (forall d', writes P d d' -> memory_ok failed d') ->
  keeps P (a ← mm; mret (f a)) failed d.
Proof.
  intros Hm Hf Hb. split; [|done]. apply wp_bind. eapply wp_mono; [by apply wp_with_writes|].
  intros a d' [HPhi Hw]. apply wp_ret. by apply Hf.
Qed.

Lemma keeps_same {A} P (mm : repo A) m' failed d :
  wp P mm (fun _ _ => True) d ->
  (forall d', writes P d d' -> memory_ok m' d' /\ memory_ok failed d') ->
  keeps P (_ ← mm; mret m') failed d.
Proof. intros Hm H. eapply (keeps_ret _ _ (fun _ => m')); [exact Hm | |]; intros; by apply H. Qed.

Lemma memory_ok_same m m' d :
  approving m' = approving m -> refreshing m' = refreshing m -> memory_ok m d -> memory_ok m' d.
Proof. intros Ha Hr [H1 H2]. split; [by rewrite Ha | by rewrite Hr]. Qed.

Lemma end_refresh_ok id b now m d : memory_ok m d -> memory_ok (end_refresh id b now m) d.
Proof.
  intros [H1 H2]. split; [done|]. cbn. intros i sweep t [_ Hs]%lookup_delete_Some. by eapply H2.
Qed.

Lemma quiet_event e m d :
  (forall id, ~ records_approval e id) -> forall id l, event_label e m d l -> ~ records id l.
Proof. intros He id l Hl ->. destruct Hl as [Hrec _]. by eapply He, Hrec. Qed.

Lemma event_planned e m d input plan :
  plan_sweep input = Ok plan -> event_label e m d (l_sweep (sl_insert plan)).
Proof. intros H. by exists input. Qed.

Lemma handle_keeps e m c failed d :
  sweep_inv d -> memory_ok m d -> handle e m = Some (c, failed) ->
  keeps (event_label e m d) c failed d.
Proof.
  intros Hi Hm He. set (P := event_label e m d).
  assert (Hcalm := event_calm e m d). assert (Hnote : forall id, P (l_sweep (sl_note id))) by done.
  assert (Hplan := event_planned e m d).
  assert (Hloud : (forall i, ~ records_approval e i) -> forall i l, P l -> ~ records i l)
    by exact (quiet_event e m d).
  assert (Hquiet : (forall id, ~ records_approval e id) -> forall d', writes P d d' ->
    forall m', approving m' = approving m -> refreshing m' = refreshing m -> memory_ok m' d').
  { intros Hq d' Hw m' H1 H2. eapply memory_ok_same; [exact H1 | exact H2|].
    eapply memory_ok_writes; [exact Hi | exact Hw | by apply Hloud | exact Hm]. }
  destruct e as [env recipient|n id tip account policy answer|env id|env id refusal|env id account
    |env id message signature|env id outcome|env id|env id|id indexed reads inMempool|env limit|env];
    cbn [SweepService.handle] in He.
  - injection He as <- <-.
    eapply keeps_ret; [by apply wp_prepare_start | |]; intros; apply Hquiet; try done; intros ? [].
  - destruct (preparing m !! n) as [p|]; [|done]. injection He as <- <-.
    apply keeps_same; [by apply wp_sweep_prepare_finish|]. intros. split; apply Hquiet; try done; intros ? [].
  - destruct (approving m !! id); [done|]. injection He as <- <-.
    apply approval_step_ok; [done | done | by apply wp_sweep_approve_start |]. intros i l _. apply Hloud; intros ? [].
  - destruct (approving m !! id) as [[sweep now| | |]|] eqn:Hph; try done. injection He as <- <-.
    apply approval_step_ok; [done | done | | intros i l _; apply Hloud; intros ? []].
    apply (wp_approve_checked P). by apply (mo_approving _ _ Hm).
  - destruct (approving m !! id) as [[|sweep plan now| |]|] eqn:Hph; try done. injection He as <- <-.
    apply approval_step_ok; [done | done | | intros i l _; apply Hloud; intros ? []].
    eapply wp_approve_read; [done | done | by apply (mo_approving _ _ Hm)].
  - destruct (approving m !! id) as [[| |plan now|]|] eqn:Hph; try done. injection He as <- <-.
    apply approval_step_ok; [done | done | | ].
    + eapply wp_approve_signed; [done | | done | by apply (mo_approving _ _ Hm)].
      intros txid ->. by split.
    + intros i l Hne Hl ->. destruct Hl as [Hrec _]. specialize (Hrec eq_refl eq_refl).
      cbn in Hrec. destruct signature; [congruence | done].
  - destruct (approving m !! id) as [[| | |txid]|] eqn:Hph; try done. injection He as <- <-.
    apply keeps_same.
    + eapply wp_approve_sent; [done | | done | by apply (mo_approving _ _ Hm)].
      intros txid' status reason message ->. by split.
    + intros d' Hw. assert (Hd : memory_ok (set_approving (delete id (approving m)) m) d'); [|done].
      eapply memory_ok_delete; [done | done | | done]. intros i l _. apply Hloud; intros ? [].
  - injection He as <- <-. apply keeps_same; [by apply wp_cancelSweep|].
    intros. split; apply Hquiet; try done; intros ? [].
  - destruct (refreshing m !! id); [done|]. injection He as <- <-.
    eapply keeps_ret; [by apply wp_refresh_start | |].
    + intros [sweep|] d' Ho Hw; [|apply end_refresh_ok; apply Hquiet; try done; intros ? []].
      assert (Hm' : memory_ok m d') by (apply Hquiet; try done; intros ? []). destruct Hm' as [H1 H2].
      split; [done|]. cbn. intros i x t [[<- [= <- <-]]|[_ Hx]]%lookup_insert_Some; [done | by eapply H2].
    + intros d' Hw. apply end_refresh_ok. apply Hquiet; try done; intros ? [].
  - destruct (refreshing m !! id) as [[sweep now]|] eqn:Hs; [|done].
    destruct (sr_txid sweep) as [txid|] eqn:Ht; [|done]. injection He as <- <-.
    assert (Hend : forall d' b, writes P d d' -> memory_ok (end_refresh id b now m) d')
      by (intros; apply end_refresh_ok; apply Hquiet; try done; intros ? []).
    split; [|intros; by apply Hend]. apply wp_bind, wp_gets, wp_bind.
    eapply wp_mono; [apply wp_with_writes, (wp_refresh_finish P); [done|]|].
    + intros success repr height source Ho. split; [done|]. intros _ _.
      split; [done|]. by exists sweep, now, txid, success, repr, height, source.
    + intros decided d' [_ Hw]. by apply wp_ret, Hend.
  - injection He as <- <-. apply keeps_same; [by apply wp_listSweeps|].
    intros. split; apply Hquiet; try done; intros ? [].
  - injection He as <- <-. eapply (keeps_ret _ _ _ _ (fun _ _ => True)); [by apply wp_activeSweep | |];
      intros; apply Hquiet; try done; intros ? [].
Qed.

(** ** The steps of the system *)

Lemma writes_planned P d d' :
  sweep_inv d -> writes P d d' -> (forall plan, P (l_sweep (sl_insert plan)) -> planned_by_us plan) ->
  (forall id r, sweeps d !! id = Some r -> planned_by_us (sr_plan r)) ->
  forall id r, sweeps d' !! id = Some r -> planned_by_us (sr_plan r).
Proof.
  intros Hi Hw HP. induction Hw as [d|d d1 d2 (l & Hl & Hw) _ IH]; [done|]. intros Hd.
  apply IH; [by eapply write_sweep_inv|]. intros id r Hr.
  destruct (sweeps d !! id) as [r0|] eqn:Hr0.
  - destruct (write_row _ _ _ _ _ Hi Hw Hr0) as (r' & Hr' & [He _ _]).
    assert (r' = r) as -> by congruence. rewrite (se_plan _ _ He). by eapply Hd.
  - assert (Hstay : (forall k, l <> l_sweep k) -> False).
    { intros Hk. destruct (write_not_sweep _ _ _ Hw Hk) as [Hs _]. congruence. }
    destruct l as [|i to|from| | |k]; try (by destruct Hstay). clear Hstay.
    inversion Hw as [| | | |k' d' Hs|]; subst.
    destruct Hs as [i wallet plan now _ _ _ _|i x p to now Hx _ _ _|i x p now Hx _ _]; cbn in Hr.
    + apply lookup_insert_Some in Hr as [[<- <-]|[_ Hr]]; [by apply HP | congruence].
    + rewrite (sweeps_patch _ _ _ _ _ Hx) in Hr.
      apply lookup_insert_Some in Hr as [[<- _]|[_ Hr]]; congruence.
    + rewrite (sweeps_patch _ _ _ _ _ Hx) in Hr.
      apply lookup_insert_Some in Hr as [[<- _]|[_ Hr]]; congruence.
Qed.

(** The run service sees the sweeps' writes as steps of its own process. *)
Lemma sweep_writes_steps P s d' :
  writes P (db s) d' -> (forall l, P l -> is_sweep l) ->
  rtc (RunService.step isUuid sha256 localeCompare options) s (with_db d' s).
Proof.
  intros Hw HP. remember (db s) as d eqn:Hd. revert s Hd.
  induction Hw as [d|d d1 d2 (l & Hl & Hw) _ IH]; intros s ->.
  - destruct s. apply rtc_refl.
  - assert (Hs := HP l Hl). destruct l as [|i to|from| | |k]; try done.
    inversion Hw as [| | | |k' x Hsw|]; subst. eapply rtc_l; [by apply (step_sweep _ _ _ _ k)|].
    by apply (IH (with_db d1 s)).
Qed.

(** The labels of a step. *)
Definition sys_label (s : Sys) (l : Label) : Prop :=
  step_label (approvals (svc s)) l \/
  exists e c failed, handle e (sweeper s) = Some (c, failed) /\
    event_label e (sweeper s) (db (svc s)) l.

Lemma event_step e m c failed d :
  sweep_inv d -> memory_ok m d -> handle e m = Some (c, failed) ->
  (forall d', d' ∈ snd (c d) -> writes (event_label e m d) d d') /\
  writes (event_label e m d) d (after d (snd (c d))) /\
  memory_ok (match fst (c d) with Ok m' => m' | Err _ => failed end) (after d (snd (c d))).
Proof.
  intros Hi Hm He. destruct (handle_keeps _ _ _ _ _ Hi Hm He) as [Hw Hf].
  assert (Ha := wp_after _ _ _ _ Hw). split; [apply Hw|]. split; [done|].
  destruct (fst (c d)) as [m'|err] eqn:E; [by apply (wp_post _ _ _ _ Hw) | by apply Hf].
Qed.

Lemma sys_ok_writes P s d' m :
  sys_ok s -> writes P (db (svc s)) d' ->
  (forall plan, P (l_sweep (sl_insert plan)) -> planned_by_us plan) -> memory_ok m d' ->
  forall v, db v = d' -> sys_ok {| svc := v; sweeper := m |}.
Proof.
  intros [Hi _ Hp] Hw HP Hm v <-. split; cbn; [by eapply writes_sweep_inv | done |].
  by eapply writes_planned.
Qed.

Lemma sys_step_ok s s' :
  svc_ok sha256 localeCompare (svc s) -> sys_ok s -> sys_step s s' ->
  rtc (RunService.step isUuid sha256 localeCompare options) (svc s) (svc s') /\
  writes (sys_label s) (db (svc s)) (db (svc s')) /\ sys_ok s'.
Proof.
  intros Hsvc Hok Hs. destruct Hok as [Hi Hm Hp] eqn:Eok. clear Eok.
  destruct Hs as [s v m Hr Hmem|e c failed s He|e c failed d s He Hd].
  - destruct (run_svc_step _ _ _ _ _ _ Hsvc Hr) as [Hw _]. split_and!.
    + by apply rtc_once, step_run.
    + eapply writes_mono; [|exact Hw]. by left.
    + eapply sys_ok_writes; [done | exact Hw | done | | done].
      destruct Hmem as [->| ->]; [|apply asleep_ok].
      eapply memory_ok_writes; [exact Hi | exact Hw | | exact Hm]. by intros id l Hl ->.
  - destruct (event_step _ _ _ _ _ Hi Hm He) as (_ & Hw & Hmem). split_and!.
    + eapply sweep_writes_steps; [exact Hw | apply event_sweep].
    + eapply writes_mono; [|exact Hw]. right. by exists e, c, failed.
    + by eapply sys_ok_writes; [| exact Hw | | |].
  - destruct (event_step _ _ _ _ _ Hi Hm He) as (Hc & _ & _). assert (Hw := Hc _ Hd). split_and!.
    + etrans; [eapply sweep_writes_steps; [exact Hw | apply event_sweep]|].
      apply rtc_once, step_run. apply (step_restart _ _ _ _ (with_db d (svc s))).
    + eapply writes_mono; [|exact Hw]. right. by exists e, c, failed.
    + by eapply sys_ok_writes; [| exact Hw | | apply asleep_ok |].
Qed.

Lemma sys_init_ok : sys_ok sys_init.
Proof. split; [apply sweep_inv_empty | apply asleep_ok | intros id r Hr; cbn in Hr; by rewrite lookup_empty in Hr]. Qed.

Lemma sys_reachable_ok s : sys_reachable s -> run_reachable (svc s) /\ sys_ok s.
Proof.
  intros H. assert (Hi : run_reachable (svc sys_init) /\ sys_ok sys_init).
  { split; [apply rtc_refl | apply sys_init_ok]. }
  revert Hi. unfold sys_reachable in H. induction H as [|s s1 s2 H1 _ IH]; [done|]. intros [Hr Hok]. apply IH.
  destruct (sys_step_ok _ _ (reachable_ok _ _ _ _ _ Hr) Hok H1) as (Hs & _ & Hok1).
  split; [|done]. unfold RunService.reachable in *. by etrans.
Qed.

End System.
