(* ===== verification/SweepCorrect.v ===== *)
(** * What the two services guarantee together

    Theorems about every reachable state of [SweepSystem]: the wallet is shared by turns, a sweep
    that may be on the network is recorded and keeps the wallet until its end is proven, and what
    was sealed is what is signed. *)

From S2P Require Import Prelude Text Principals OperationPlan TransactionJob SweepPlan NakamotoBlock.
From S2P Require Import Broadcast LiveReader Recipe Receipt RunStore SweepStore Cadence RunService SweepService.
From S2P Require Import RunProtocol SweepProtocol RunLogic RunSafety RunCorrect SweepSafety SweepSystem.

Open Scope Z_scope.

Section System.

Context (isUuid : string -> bool) (validateStacksAddress : string -> bool)
        (makeUnsigned : Transfer -> option string) (deserialize : string -> option ReadBack)
        (sha256 : list Z -> string) (deserializeTransaction : list Z -> option (BlockTx * nat))
        (localeCompare : string -> string -> Z) (options : Options) (sweep_options : SweepOptions).

#[local] Instance correct_digest : Digest := recipe_digest sha256 localeCompare.

Abbreviation sys_step := (sys_step isUuid validateStacksAddress makeUnsigned deserialize sha256
                            deserializeTransaction localeCompare options sweep_options).
Abbreviation sys_reachable := (sys_reachable isUuid validateStacksAddress makeUnsigned deserialize
                                 sha256 deserializeTransaction localeCompare options sweep_options).
Abbreviation handle := (handle isUuid validateStacksAddress makeUnsigned deserialize sha256
                          deserializeTransaction sweep_options).
Abbreviation settles := (settles validateStacksAddress makeUnsigned deserialize sha256
                           deserializeTransaction sweep_options).
Abbreviation plan_sweep := (planGasWalletSweep validateStacksAddress makeUnsigned deserialize sha256).
Abbreviation revalidate :=
  (revalidateGasWalletSweepPlan validateStacksAddress makeUnsigned deserialize sha256).
Abbreviation system_ok := (sys_ok validateStacksAddress makeUnsigned deserialize sha256).
Abbreviation ok_of s H := (sys_reachable_ok isUuid validateStacksAddress makeUnsigned deserialize sha256
                             deserializeTransaction localeCompare options sweep_options s H).

(** C29. Refinement: whatever the sweeps do, and wherever the process stops in them, the run
    service only reaches states it reaches on its own terms, so that every theorem about
    reachable runs holds beside sweeps. *)
Theorem sweeps_preserve_runs s :
  sys_reachable s -> RunService.reachable isUuid sha256 localeCompare options (svc s).
Proof. intros Hs. apply (ok_of s Hs). Qed.

(** A wallet works for one sweep or one run at a time: a sweep that is planned or sent holds
    its wallet's lease, no other sweep and no unfinished run of that wallet exists beside it, and
    a sweep that ended holds nothing. *)
Theorem sweep_wallet_exclusive s id r :
  sys_reachable s -> sweeps (db (svc s)) !! id = Some r ->
  (active_sweep r ->
   (exists l, leases (db (svc s)) !! sr_walletPrincipal r = Some l /\
      l_kind l = lease_sweep /\ l_id l = id) /\
   (forall id' r', sweeps (db (svc s)) !! id' = Some r' -> active_sweep r' ->
      sr_walletPrincipal r' = sr_walletPrincipal r -> id' = id) /\
   (forall id' r', runs (db (svc s)) !! id' = Some r' -> ~ terminal (ru_status r') ->
      ru_walletPrincipal r' <> sr_walletPrincipal r)) /\
  (~ active_sweep r -> forall w l, leases (db (svc s)) !! w = Some l ->
     ~ (l_kind l = lease_sweep /\ l_id l = id)).
Proof.
  intros Hs Hid. destruct (ok_of s Hs) as [Hr [[Hrow Hh Ho] _ _]]. split.
  - intros Ha. destruct (Hh _ _ Hid Ha) as (l & Hl & Hk & Hi). split_and!; [by exists l | |].
    + intros id' r' Hid' Ha' Hw. destruct (Hh _ _ Hid' Ha') as (l' & Hl' & Hk' & Hi'). congruence.
    + intros id' r' Hid' Hn Hw. destruct (inv_leases _ (svc_inv _ _ _ (reachable_ok _ _ _ _ _ Hr))) as [Hheld _].
      destruct (Hheld _ _ Hid' Hn) as (l' & Hl' & Hk' & Hi'). congruence.
  - intros Hn w l Hl [Hk Hi]. destruct (Ho _ _ Hl Hk) as (x & Hx & _ & Hax).
    assert (x = r) as -> by congruence. done.
Qed.

(** What a stored sweep is once it was sent: its approval, its wallet until the end. *)
Lemma sent_row d id r t :
  sweep_inv d -> sweeps d !! id = Some r -> sr_txid r = Some t ->
  is_Some (sr_approvedAt r) /\ is_Some (sr_broadcastAt r) /\
  sr_status r ∈ [sweep_broadcast; sweep_confirmed; sweep_failed] /\
  (sr_status r = sweep_broadcast -> exists l,
     leases d !! sr_walletPrincipal r = Some l /\ l_kind l = lease_sweep /\ l_id l = id).
Proof.
  intros Hi Hr Ht. assert (Hok := si_rows _ Hi _ _ Hr).
  destruct (so_approved _ Hok) as [Ha Hb]; [by exists t|]. split_and!; [done | done | |].
  - destruct (sr_status r) eqn:E; try is_in; exfalso;
      (rewrite (so_unsent _ Hok) in Ht; [done | rewrite E; is_in]).
  - intros E. apply (si_held _ Hi _ _ Hr). unfold active_sweep. rewrite E. is_in.
Qed.

(** A sweep is recorded before it is sent: while the node is asked to accept its transaction,
    the database names that transaction's ID and its approval, the plan is the sealed one, and
    until the sweep is settled it holds its wallet. *)
Theorem sweep_recorded_before_send s id txid :
  sys_reachable s -> approving (sweeper s) !! id = Some (ap_sending txid) ->
  exists r, sweeps (db (svc s)) !! id = Some r /\ sr_txid r = Some txid /\
    is_Some (sr_approvedAt r) /\ is_Some (sr_broadcastAt r) /\
    sr_status r ∈ [sweep_broadcast; sweep_confirmed; sweep_failed] /\
    (sr_status r = sweep_broadcast -> exists l,
       leases (db (svc s)) !! sr_walletPrincipal r = Some l /\ l_kind l = lease_sweep /\ l_id l = id).
Proof.
  intros Hs Hp. destruct (ok_of s Hs) as [_ [Hi Hm _]].
  destruct (mo_approving _ _ Hm _ _ Hp) as (r & Hr & Ht). exists r. split; [done|]. split; [done|].
  by eapply sent_row.
Qed.

(** A sweep that was sent stays open, with its wallet, until its end is proven: the only step
    that ends it is the node's deterministic rejection of its transaction, or the answer to a
    refresh that is chain evidence for it. *)
Theorem sent_sweep_settles s s' id r :
  sys_reachable s -> sys_step s s' -> sweeps (db (svc s)) !! id = Some r ->
  sr_status r = sweep_broadcast ->
  exists r', sweeps (db (svc s')) !! id = Some r' /\ sr_txid r' = sr_txid r /\
    ((sr_status r' = sweep_broadcast /\ exists l,
        leases (db (svc s')) !! sr_walletPrincipal r = Some l /\ l_kind l = lease_sweep /\ l_id l = id) \/
     exists e c failed, handle e (sweeper s) = Some (c, failed) /\
       settles e (sweeper s) (db (svc s)) id (sr_status r')).
Proof.
  intros Hs Hstep Hr Hb. destruct (ok_of s Hs) as [Hrun Hok]. assert (Hi := sys_sweeps _ _ _ _ _ Hok).
  destruct (sys_step_ok _ _ _ _ _ _ _ _ _ _ _ (reachable_ok _ _ _ _ _ Hrun) Hok Hstep) as (_ & Hw & Hok').
  destruct (writes_row _ _ _ _ _ Hi Hw Hr) as (r' & Hr' & He & _ & Hmoved). exists r'.
  assert (is_Some (sr_txid r)) as [t Ht] by (apply (so_sent _ (si_rows _ Hi _ _ Hr)); rewrite Hb; is_in).
  split; [done|]. split; [by rewrite Ht, (se_txid _ _ He _ Ht)|].
  destruct (decide (sr_status r' = sweep_broadcast)) as [Hb'|Hne].
  - left. split; [done|]. rewrite <- (se_wallet _ _ He).
    apply (si_held _ (sys_sweeps _ _ _ _ _ Hok') _ _ Hr'). unfold active_sweep. rewrite Hb'. is_in.
  - right. destruct Hmoved as (to & Hto & Hl & Hend); [congruence|]. rewrite Hb in *.
    rewrite Hend by (try done; by exists t).
    destruct Hl as [[]|(e & c & failed & Hh & _ & Hset)]. exists e, c, failed. split; [done|].
    by apply Hset.
Qed.

(** What a sweep is never changes: its plan, its wallet, its amounts and its approval window
    are those it was stored with, its transaction ID is set once, and the end of a sweep, sent
    or not, is never undone. *)
Theorem sweeps_are_immutable s s' id r :
  sys_reachable s -> sys_step s s' -> sweeps (db (svc s)) !! id = Some r ->
  exists r', sweeps (db (svc s')) !! id = Some r' /\ sweep_evolves r r' /\ columns_sealed r'.
Proof.
  intros Hs Hstep Hr. destruct (ok_of s Hs) as [Hrun Hok].
  destruct (sys_step_ok _ _ _ _ _ _ _ _ _ _ _ (reachable_ok _ _ _ _ _ Hrun) Hok Hstep) as (_ & Hw & Hok').
  destruct (writes_row _ _ _ _ _ (sys_sweeps _ _ _ _ _ Hok) Hw Hr) as (r' & Hr' & He & _).
  exists r'. split_and!; [done | done |]. apply (si_rows _ (sys_sweeps _ _ _ _ _ Hok') _ _ Hr').
Qed.

(** Every stored sweep is a sealed plan of the planner: it revalidates, and its row repeats
    the amount, the fee, the recipient and the nonce of the plan. *)
Theorem stored_sweeps_revalidate s id r :
  library_formats makeUnsigned deserialize sha256 ->
  sys_reachable s -> sweeps (db (svc s)) !! id = Some r ->
  revalidate (sr_plan r) = Ok (sr_plan r) /\ columns_sealed r /\
  exists input, plan_sweep input = Ok (sr_plan r).
Proof.
  intros Hlib Hs Hr. destruct (ok_of s Hs) as [_ [Hi _ Hp]].
  destruct (Hp _ _ Hr) as [input Hin]. split_and!; [by eapply plan_revalidates | | by exists input].
  apply (si_rows _ Hi _ _ Hr).
Qed.

(** ** Reading back a segment that returned *)

Lemma requireSweep_returned id d r l :
  requireSweep isUuid id d = (Ok r, l) -> sweeps d !! id = Some r /\ l = [].
Proof.
  unfold requireSweep, get_sweep, mbind, repo_bind, gets. cbn.
  destruct (sweeps d !! id) as [x|]; cbn; [|done]. destruct (sweepRowSchema isUuid id x); cbn; [|done].
  by intros [= <- <-].
Qed.

Lemma assertCurrent_returned env id d u l :
  assertSweepApprovalCurrent isUuid env id d = (Ok u, l) ->
  exists r, sweeps d !! id = Some r /\ sr_status r = sweep_planned /\ w_now env < sr_expiresAt r /\ l = [].
Proof.
  intros (r & l1 & l2 & H1 & H2 & ->)%bind_returned. apply requireSweep_returned in H1 as [Hr ->].
  unfold sweep_guard, guard_repo in H2. destruct (_ && _) eqn:Hb; [|done]. injection H2 as _ <-.
  apply andb_true_iff in Hb as [Hp%bool_decide_eq_true Ht]. breflect. exists r. by split_and!.
Qed.

Lemma update_returned id p now d r' r l :
  sweeps d !! id = Some r -> update_sweep isUuid id p now d = (Ok r', l) ->
  r' = patched r p now /\ l = [patch_sweep id p now d].
Proof.
  intros Hr (u & l1 & l2 & H1 & H2 & ->)%bind_returned.
  unfold transaction, mbind, repo_bind, gets, guard_repo in H1. cbn in H1. rewrite Hr in H1.
  destruct (bool_decide (Some r = None) || patch_ok p); cbn in H1; [|done]. injection H1 as _ <-.
  cbn in H2. apply bind_returned in H2 as (o & l3 & l4 & H3 & H4 & ->).
  unfold get_sweep, mbind, repo_bind, gets in H3. cbn in H3.
  rewrite (sweeps_patch _ _ _ _ _ Hr), lookup_insert_eq in H3. cbn in H3.
  destruct (sweepRowSchema _ _ _); cbn in H3; [|done]. injection H3 as <- <-.
  by injection H4 as <- <-.
Qed.

(** Guards of a sweep's signature: an approval reaches the signer only when the sweep is
    still planned and in its window, the account's nonce is the planned one and its balance
    covers the amount with the fee; and it is sent only when that was still so after signing,
    with the approval and the transaction ID stored in the same write. *)
Theorem sweep_signing_guards env id plan now d l :
  (forall account plan' now',
   approve_read isUuid env id plan now account d = (Ok (ap_signing plan' now'), l) ->
   exists a r, account = Ok (Some a) /\ plan' = plan /\ l = [] /\ sweeps d !! id = Some r /\
     sr_status r = sweep_planned /\ w_now env < sr_expiresAt r /\
     wa_nonce a = big (sm_nonce (sp_material plan)) /\
     big (sm_amountUstx (sp_material plan)) + big (sm_feeUstx (sp_material plan)) <= wa_balanceUstx a) /\
  (forall message signature txid,
   approve_signed isUuid env id now message signature d = (Ok (ap_sending txid), l) ->
   exists r d', signature = Ok txid /\ l = [d'] /\ sweeps d !! id = Some r /\
     sr_status r = sweep_planned /\ w_now env < sr_expiresAt r /\
     exists r', sweeps d' !! id = Some r' /\ sr_status r' = sweep_broadcast /\
       sr_txid r' = Some txid /\ sr_approvedAt r' = Some (w_now env) /\ sr_plan r' = sr_plan r).
Proof.
  split.
  - intros account plan' now' H. unfold approve_read in H. destruct account as [[a|]|e]; try done.
    cbv zeta in H. match type of H with context [if ?b then _ else _] => destruct b eqn:Hb end.
    + apply bind_returned in H as (? & ? & ? & _ & H & _). done.
    + apply bind_returned in H as (u & l1 & l2 & H1 & H2 & ->). injection H2 as <- _ <-.
      apply assertCurrent_returned in H1 as (r & Hr & Hp & Ht & ->).
      apply orb_false_iff in Hb as [Hn%negb_false_iff%Z.eqb_eq Hbal%Z.ltb_ge].
      exists a, r. by split_and!.
  - intros message signature txid H. unfold approve_signed in H. destruct signature as [t|e].
    + apply bind_returned in H as (u & l1 & l2 & H1 & H2 & ->).
      apply assertCurrent_returned in H1 as (r & Hr & Hp & Ht & ->).
      apply bind_returned in H2 as (r' & l3 & l4 & H3 & H4 & ->). injection H4 as <- <-.
      apply (update_returned _ _ _ _ _ r) in H3 as [-> ->]; [|done].
      eexists r, _. split_and!; try done. exists (patched r {|
        pt_status := Some sweep_broadcast; pt_txid := Some t; pt_broadcastAmbiguous := Some true;
        pt_executionSource := None; pt_approvedAt := Some (w_now env);
        pt_broadcastAt := Some (w_now env); pt_resolvedAt := None; pt_blockHeight := None;
        pt_failureReason := None |} (w_now env)).
      split; [by rewrite (sweeps_patch _ _ _ _ _ Hr), lookup_insert_eq | done].
    + apply bind_returned in H as (? & ? & ? & _ & H & _). done.
Qed.


(** The fee of a sweep never depends on the node's estimate: the transaction of every draft is
    a token transfer, which the estimator refuses, so a sweep pays the policy's fallback, or the
    whole fee cap when there is no policy. *)
Theorem sweep_fee_ignores_estimate input draft policy answer cap :
  plan_sweep input = Ok draft ->
  estimateFee deserialize policy (sp_unsignedTransactionHex draft) answer cap =
  match policy with Some p => Fee.feeUstx (Fee.selectTransactionFee None p) | None => cap end.
Proof.
  intros H. destruct (sweep_plan_inv _ _ _ _ _ _ H) as (_ & _ & _ & _ & Hu & _).
  apply buildUnsignedSweep_Ok in Hu as (_ & b & Hd & Hp).
  unfold preserves in Hp. rewrite !andb_true_iff, !bool_decide_eq_true in Hp. destruct_and! Hp.
  unfold estimateFee, estimate. destruct (unsignedFeeMaterial _ _) as [m|e] eqn:Hm; [|done].
  apply unsignedFeeMaterial_call in Hm as (b' & Hd' & Ht). congruence.
Qed.

End System.
