(* ===== verification/RunScenario.v ===== *)
(** * A run from its preparation to its end

    The process of [RunService] executed on a concrete recipe: the states a healthy run passes
    through, at which the theorems of [RunCorrect] are applied, and the schedules that show
    where the service does less than it means to. *)

From S2P Require Import Prelude Text CanonicalJson Principals OperationPlan Recipe.
From S2P Require Import RunStore Cadence RunService RunProtocol RunLogic RunSafety RunCorrect.

Open Scope Z_scope.

(** ** Running the process *)

Section Run.

Context (isUuid : string -> bool) (sha256 : list Z -> string)
        (localeCompare : string -> string -> Z) (options : Options).

Abbreviation step := (step isUuid sha256 localeCompare options).

Definition do_action (env : Env) (a : Action) (s : Svc) : Svc :=
  let out := perform isUuid sha256 localeCompare options env a (db s) in
  {| db := after (db s) (snd out); phase := phase s; cadence := cadence s;
     approvals := approvals_after sha256 localeCompare env a (db s) (approvals s) |}.

Definition do_approve (accepted : result RunError bool) (s : Svc) : Svc :=
  match approvals s with
  | a :: rest =>
      let out := approve_finish sha256 localeCompare (a_now a) accepted (a_runId a)
                   (a_recipeSha256 a) (db s) in
      {| db := after (db s) (snd out); phase := phase s; cadence := cadence s; approvals := rest |}
  | [] => init (db s)
  end.

Definition do_start (env : Env) (id reason : string) (s : Svc) : Svc :=
  match phase s with
  | idle =>
      let out := segment env id reason
                   (tick_start sha256 localeCompare options env (isDue (cadence s)) id) (db s) in
      {| db := after (db s) (snd out); phase := phase_of (fst out);
         cadence := cadence s; approvals := approvals s |}
  | _ => init (db s)
  end.

Definition do_continue (env : Env) (o : Outcome) (reason : string) (s : Svc) : Svc :=
  match resumed sha256 localeCompare env (phase s) o with
  | Some (id, m) =>
      let out := segment env id reason m (db s) in
      {| db := after (db s) (snd out); phase := phase_of (fst out);
         cadence := cadence_after env (phase s) o (cadence s); approvals := approvals s |}
  | None => init (db s)
  end.

(** The process stops after the first [n] commits of a waiting tick's next segment. *)
Definition do_crash (env : Env) (o : Outcome) (reason : string) (n : nat) (s : Svc) : Svc :=
  match resumed sha256 localeCompare env (phase s) o with
  | Some (id, m) =>
      match rev (snd (segment env id reason m (db s))) !! n with
      | Some d => init d
      | None => init (db s)
      end
  | None => init (db s)
  end.

Lemma do_action_step env a s : step s (do_action env a s).
Proof. by apply step_run; constructor. Qed.

Lemma do_approve_step accepted s : step s (do_approve accepted s).
Proof.
  unfold do_approve. destruct (approvals s) as [|a rest] eqn:E; [apply step_run; constructor|].
  apply step_run, (step_approve_checked _ _ _ _ a rest accepted). by rewrite E.
Qed.

Lemma do_start_step env id reason s : step s (do_start env id reason s).
Proof. unfold do_start. destruct (phase s) eqn:E; by apply step_run; constructor. Qed.

Lemma do_continue_step env o reason s : step s (do_continue env o reason s).
Proof.
  unfold do_continue. destruct (resumed _ _ _ _ _) as [[id m]|] eqn:E; [|apply step_run; constructor].
  by apply step_run, step_continue with (id := id).
Qed.

Lemma do_crash_step env o reason n s : step s (do_crash env o reason n s).
Proof.
  unfold do_crash. destruct (resumed _ _ _ _ _) as [[id m]|] eqn:E; [|apply step_run; constructor].
  destruct (_ !! n) as [d|] eqn:Hd; [|apply step_run; constructor].
  eapply step_run, step_crash_continue; [exact E|]. apply list_elem_of_lookup_2 in Hd.
  apply list_elem_of_In, in_rev. by apply list_elem_of_In.
Qed.

End Run.

(** ** The healthy run *)

Module Scenario.

(** A digest cheap to evaluate: the first byte and zeros. *)
Definition sha (bytes : list Z) : string :=
  String.concat "" (Concrete.hex_byte (List.hd 0 bytes) :: repeat "00"%string 31).
#[local] Abbreviation compare := code_unit_compare.

Definition options : Options :=
  {| o_maximumFeeUstx := 1000; o_maximumTransactions := None; o_approvalStartMinutes := None;
     o_maximumRunHours := None |}.
Definition at_time (t : Z) : Env :=
  {| e_now := t; e_allowed := fun _ => true; e_signerReady := true; e_closed := false |}.
Definition id : string := "0f0e0d0c-0b0a-4908-8706-050403020100".
Definition request : PrepareRequest :=
  {| pr_requestId := None; pr_cycle := 9; pr_distribution := 2;
     pr_operations := Some [op_claim_rewards]; pr_maxTransactions := None |}.

#[local] Abbreviation reachable := (reachable Concrete.uuid sha compare options).
#[local] Abbreviation step := (step Concrete.uuid sha compare options).
#[local] Abbreviation act := (do_action Concrete.uuid sha compare options (at_time 1000)).
#[local] Abbreviation start := (do_start sha compare options (at_time 2000) id "stopped").
#[local] Abbreviation answer o := (do_continue sha compare (at_time 3000) o "stopped").

(** The hash the operator approves. *)
Definition hash (s : Svc) : string :=
  match runs (db s) !! id with Some r => ru_recipeSha256 r | None => "" end.

Definition plan (s : Svc) (fee : string) : Plan :=
  {| planSha256 := sha [4]; unsignedTransactionHex := "00"; unsignedTransactionSha256 := sha [5];
     material :=
       {| body := m_collect
            {| co_managerContract := "SPM.manager"; co_pox5Contract := "SPM.pox-5";
               co_sbtcTokenContract := "SPM.sbtc-token"; co_rewardCycle := "9";
               co_bondPeriods := [] |}
            {| asset := "SPM.sbtc-token::sbtc-token"; from := "SPM.pox-5";
               recipient := "SPM.manager"; amountSats := "400" |};
          m_adapterId := adapter_of op_claim_rewards;
          m_adapterRevision := REWARD_OPERATION_ADAPTER_REVISIONS (adapter_of op_claim_rewards);
          m_authorization := {| runId := id; recipeSha256 := hash s |};
          m_network := {| netKind := mainnet; chainId := 1 |};
          m_chainAnchor := {| stacksBlockHeight := 101; burnBlockHeight := 50;
                              indexBlockHash := "0x" ++ sha [1] |};
          m_sender := {| sender_principal := "SPW"; publicKey := Concrete.key |};
          m_managerSourceFingerprint := Some (f_managerSourceFingerprint ConcreteRecipe.facts);
          m_nonce := "4"; m_feeUstx := fee; m_unsignedTransactionSha256 := sha [5] |} |}.

Definition signed_tx (n : Z) : Signed :=
  {| sg_precomputedTxid := "0x" ++ sha [n]; sg_nonce := 4; sg_fee := 300 |}.

Definition prepared : Svc := act (act_prepare id request ConcreteRecipe.facts) (init empty_db).
Definition asked : Svc := act (act_approve id (hash prepared)) prepared.
Definition agreed : Svc := do_approve sha compare (Ok true) asked.
Definition working : Svc := start agreed.
Definition planned : Svc := answer (out_materialize (Ok (mat_plan (plan prepared "300") (Some 400)))) working.
Definition checked : Svc := answer (out_wallet (Ok true)) planned.
Definition submitting : Svc := answer (out_sign (Ok (signed_tx 8))) checked.
Definition submitted : Svc :=
  answer (out_broadcast (Ok (b_accepted (sg_precomputedTxid (signed_tx 8))))) submitting.
Definition watching : Svc := start submitted.
Definition settled : Svc := answer (out_reconcile (Ok (rec_confirmed 120 None))) watching.
Definition finished : Svc := start settled.

Definition status_of (s : Svc) : option RunStatus := ru_status <$> runs (db s) !! id.
Definition child_of (s : Svc) : option Child := r ← runs (db s) !! id; child_of_run r.

Lemma status_prepared : status_of prepared = Some awaiting_approval.
Proof. vm_compute. reflexivity. Qed.
Lemma status_asked : status_of asked = Some awaiting_approval.
Proof. vm_compute. reflexivity. Qed.
Lemma status_agreed : status_of agreed = Some approved.
Proof. vm_compute. reflexivity. Qed.
Lemma status_submitted : status_of submitted = Some running.
Proof. vm_compute. reflexivity. Qed.
Lemma status_settled : status_of settled = Some running.
Proof. vm_compute. reflexivity. Qed.
Lemma status_finished : status_of finished = Some completed.
Proof. vm_compute. reflexivity. Qed.
Lemma phase_submitted : phase submitted = idle.
Proof. vm_compute. reflexivity. Qed.

(** Every state above is reachable. *)
Lemma reach s s' : reachable s -> step s s' -> reachable s'.
Proof. intros H Hs. eapply rtc_r; [exact H | exact Hs]. Qed.

Lemma reach_prepared : reachable prepared.
Proof. eapply reach; [apply rtc_refl | apply do_action_step]. Qed.
Lemma reach_asked : reachable asked.
Proof. eapply reach; [apply reach_prepared | apply do_action_step]. Qed.
Lemma reach_agreed : reachable agreed.
Proof. eapply reach; [apply reach_asked | apply do_approve_step]. Qed.
Lemma reach_working : reachable working.
Proof. eapply reach; [apply reach_agreed | apply do_start_step]. Qed.
Lemma reach_planned : reachable planned.
Proof. eapply reach; [apply reach_working | apply do_continue_step]. Qed.
Lemma reach_checked : reachable checked.
Proof. eapply reach; [apply reach_planned | apply do_continue_step]. Qed.
Lemma reach_submitting : reachable submitting.
Proof. eapply reach; [apply reach_checked | apply do_continue_step]. Qed.
Lemma reach_submitted : reachable submitted.
Proof. eapply reach; [apply reach_submitting | apply do_continue_step]. Qed.
Lemma reach_watching : reachable watching.
Proof. eapply reach; [apply reach_submitted | apply do_start_step]. Qed.
Lemma reach_settled : reachable settled.
Proof. eapply reach; [apply reach_watching | apply do_continue_step]. Qed.
Lemma reach_finished : reachable finished.
Proof. eapply reach; [apply reach_settled | apply do_start_step]. Qed.

Lemma run_at (s : Svc) (st : RunStatus) :
  status_of s = Some st -> exists r, runs (db s) !! id = Some r /\ ru_status r = st.
Proof.
  unfold status_of. destruct (runs (db s) !! id) as [r|]; [|done]. cbn. intros [= <-]. by exists r.
Qed.

(** ** The guarantees at these states *)

Lemma service_refines_protocol_witness :
  writes (digest_of := recipe_digest sha compare) (any_label (approvals submitting))
    (db submitting) (db submitted).
Proof.
  apply (service_refines_protocol Concrete.uuid sha compare options).
  - exact reach_submitting.
  - apply do_continue_step.
Defined.

Lemma one_transaction_at_a_time_witness :
  exists r, runs (db submitted) !! id = Some r /\ (inFlight r <= 1)%nat.
Proof.
  destruct (run_at submitted running status_submitted) as (r & Hr & _). exists r. split; [exact Hr|].
  exact (proj1 (one_transaction_at_a_time Concrete.uuid sha compare options _ _ _ reach_submitted Hr)).
Defined.

Lemma gas_within_budget_witness :
  exists r, runs (db settled) !! id = Some r /\
    ru_gasSpentUstx r <= r_gasBudgetUstx (ru_recipe r).
Proof.
  destruct (run_at settled running status_settled) as (r & Hr & _). exists r. split; [exact Hr|].
  exact (proj1 (gas_within_budget Concrete.uuid sha compare options _ _ _ reach_settled Hr)).
Defined.

Lemma wallet_exclusive_witness :
  exists r, runs (db finished) !! id = Some r /\
    forall w l, leases (db finished) !! w = Some l -> ~ (l_kind l = lease_reward_run /\ l_id l = id).
Proof.
  destruct (run_at finished completed status_finished) as (r & Hr & Hs). exists r. split; [exact Hr|].
  apply (proj2 (wallet_exclusive Concrete.uuid sha compare options _ _ _ reach_finished Hr)).
  rewrite Hs. unfold terminal, terminalRunStatuses. left.
Defined.

Lemma checked_phase : exists run op p fee now, phase checked = signing id run op p fee now.
Proof. vm_compute. do 5 eexists. reflexivity. Qed.

Lemma signing_is_safe_witness :
  exists r c, runs (db checked) !! id = Some r /\ child_of_run r = Some c /\
    ch_status c = materialized /\ (forall a, a ∈ ch_attempts c -> at_state a = rejected).
Proof.
  destruct checked_phase as (run & op & p & fee & now & Hp).
  destruct (signing_is_safe Concrete.uuid sha compare options _ _ _ _ _ _ _ reach_checked Hp)
    as (r & c & H1 & _ & H2 & _ & H3 & H4 & _).
  exists r, c. split_and!; assumption.
Defined.

Lemma submitting_phase : exists run tx i, phase submitting = broadcasting id run tx i.
Proof. vm_compute. do 3 eexists. reflexivity. Qed.

Lemma broadcast_is_recorded_witness :
  exists r c a i, runs (db submitting) !! id = Some r /\ child_of_run r = Some c /\
    ch_attempts c !! i = Some a /\ at_state a = signed.
Proof.
  destruct submitting_phase as (run & tx & i & Hp).
  destruct (broadcast_is_recorded Concrete.uuid sha compare options _ _ _ _ _ reach_submitting Hp)
    as (r & c & a & H1 & H2 & _ & H3 & H4 & _).
  exists r, c, a, i. split_and!; assumption.
Defined.

(** The last check at the planned state asks for the signature. *)
Lemma planned_signs : exists run op p fee now l,
  tick_wallet_checked sha compare (at_time 3000) id run op p fee now (Ok true) (db planned) =
    (Ok (signing id run op p fee now), l).
Proof.
  assert (H : match phase planned with
    | checking_wallet i run op p fee now =>
        i = id /\ tick_wallet_checked sha compare (at_time 3000) id run op p fee now (Ok true)
          (db planned) = (Ok (signing id run op p fee now), [])
    | _ => False end) by (vm_compute; split; reflexivity).
  destruct (phase planned) as [| | |i run op p fee now| |]; try contradiction.
  destruct H as [_ H]. exists run, op, p, fee, now, []. exact H.
Qed.

Lemma signing_guards_witness :
  exists r, runs (db planned) !! id = Some r /\ ru_status r = running /\
    elapsed (ru_runtimeExpiresAt r) 3000 = false.
Proof.
  destruct planned_signs as (run & op & p & fee & now & l & H).
  destruct (signing_guards sha compare _ _ _ _ _ _ _ _ _ _ H) as (_ & _ & _ & _ & r & H1 & _ & H2 & H3).
  exists r. split_and!; assumption.
Defined.

Lemma approval_binds_recipe_witness :
  exists r a, runs (db agreed) !! id = Some r /\ a ∈ approvals asked /\
    a_recipeSha256 a = rewardRunRecipeSha256 sha compare (ru_recipe r).
Proof.
  destruct (run_at agreed approved status_agreed) as (r & Hr & Hs).
  destruct (approval_binds_recipe Concrete.uuid sha compare options asked agreed id r reach_asked
    (do_approve_step _ _ _ _ _ _) Hr Hs) as (a & H1 & _ & H2).
  - destruct (run_at asked awaiting_approval status_asked) as (x & Hx & Hxs).
    intros y Hy. rewrite Hx in Hy. injection Hy as <-. rewrite Hxs. discriminate.
  - exists r, a. split_and!; assumption.
Defined.

Lemma runs_are_immutable_witness :
  exists r r', runs (db prepared) !! id = Some r /\ runs (db asked) !! id = Some r' /\ evolved r r'.
Proof.
  destruct (run_at prepared awaiting_approval status_prepared) as (r & Hr & _).
  destruct (runs_are_immutable Concrete.uuid sha compare options prepared asked id r reach_prepared
    (rtc_once _ _ (do_action_step _ _ _ _ _ _ _)) Hr) as (r' & Hr' & He).
  exists r, r'. split_and!; assumption.
Defined.

Lemma completed_is_complete_witness :
  exists r, runs (db finished) !! id = Some r /\
    completedCount r = List.length (r_children (ru_recipe r)).
Proof.
  destruct (run_at finished completed status_finished) as (r & Hr & Hs). exists r. split; [exact Hr|].
  exact (proj1 (completed_is_complete Concrete.uuid sha compare options _ _ _ reach_finished Hr Hs)).
Defined.

Lemma stored_runs_pass_integrity_witness :
  exists r, runs (db submitted) !! id = Some r /\ service_get sha compare id (db submitted) = (Ok r, []).
Proof.
  destruct (run_at submitted running status_submitted) as (r & Hr & _). exists r. split; [exact Hr|].
  exact (proj2 (stored_runs_pass_integrity Concrete.uuid sha compare options _ _ _ reach_submitted Hr)).
Defined.

(** The waiting tick goes on with the plan. *)
Lemma working_plans : exists run c now p l, phase working = materializing id run c now /\
  tick_materialized (at_time 3000) id run c now
    (Ok (mat_plan (plan prepared "300") (Some 400))) (db working) = (Ok p, l) /\ p <> idle.
Proof.
  assert (H : match phase working with
    | materializing i run c now =>
        i = id /\ match tick_materialized (at_time 3000) id run c now
                          (Ok (mat_plan (plan prepared "300") (Some 400))) (db working) with
                  | (Ok (checking_wallet _ _ _ _ _ _), _) => True
                  | _ => False end
    | _ => False end) by (vm_compute; split; [reflexivity | exact I]).
  destruct (phase working) as [| |i run c now| | |]; try contradiction. destruct H as [-> H].
  destruct (tick_materialized _ _ _ _ _ _ _) as [[p|] l] eqn:E; [|contradiction].
  exists run, c, now, p, l. split_and!; [reflexivity | exact E |]. intros ->. exact H.
Qed.

Lemma materialized_within_recipe_witness :
  exists run rc fee, common_within id run rc (material (plan prepared "300")) fee /\
    body_within (ru_recipe run) rc (body (material (plan prepared "300"))).
Proof.
  destruct working_plans as (run & c & now & p & l & Hp & H & Hne).
  destruct (materialized_within_recipe Concrete.uuid sha compare options _ _ _ _ _ _ _ _ _ _
    reach_working Hp H Hne) as (rc & fee & _ & _ & H1 & _ & H2).
  exists run, rc, fee. split; assumption.
Defined.

Lemma deadline_ends_run_witness :
  exists r t, runs (db submitted) !! id = Some r /\ deadline r = Some t /\
    forall env, t <= e_now env -> exists s', step submitted s' /\ status_of s' = Some expired.
Proof.
  destruct (run_at submitted running status_submitted) as (r & Hr & Hs).
  destruct (deadline_ends_run Concrete.uuid sha compare options submitted id r reach_submitted
    phase_submitted Hr) as (t & Ht & H).
  - rewrite Hs. right. left.
  - exists r, t. split_and!; [exact Hr | exact Ht |]. intros env He.
    destruct (H env He) as (s' & Hst & Hr' & _). exists s'. split; [exact Hst|].
    unfold status_of. rewrite Hr'. reflexivity.
Defined.

(** ** Schedules the service does not expect

    Each lemma exhibits a reachable state that the code's own comments or guards mean to
    exclude. *)

Lemma reach_all (steps : list (Svc -> Svc)) s :
  Forall (fun f => forall x, step x (f x)) steps -> reachable s ->
  reachable (fold_left (fun x f => f x) steps s).
Proof.
  intros H. revert s. induction H as [|f l Hf _ IH]; intros s Hs; [exact Hs|].
  cbn. apply IH. eapply reach; [exact Hs | apply Hf].
Qed.

Definition cancelled_late : list (Svc -> Svc) :=
  [act (act_pause id); act (act_cancel id);
   answer (out_broadcast (Ok (b_accepted (sg_precomputedTxid (signed_tx 8)))))].

(** [pause] and [cancel] refuse while a transaction is in flight, but a child only counts as in
    flight once the broadcast has returned: a run cancelled during the broadcast ends with its
    transaction accepted and its wallet free for another run. *)
Lemma cancelled_with_live_transaction : exists s,
  reachable s /\ status_of s = Some cancelled /\ ch_status <$> child_of s = Some broadcast /\
  leases (db s) !! "SPW"%string = None.
Proof.
  exists (fold_left (fun x f => f x) cancelled_late submitting). split_and!.
  - apply reach_all; [|exact reach_submitting]. repeat (apply List.Forall_cons || apply List.Forall_nil); intros x;
      first [apply do_action_step | apply do_continue_step].
  - vm_compute. reflexivity.
  - vm_compute. reflexivity.
  - vm_compute. reflexivity.
Qed.

Definition fee_lost : list (Svc -> Svc) :=
  [do_crash sha compare (at_time 3000) (out_reconcile (Ok (rec_confirmed 120 None))) "stopped" 1; start].

(** The child is confirmed and its attempt with it before the cursor and the gas account move:
    a stop in between loses the paid fee of 300 uSTX from the account. *)
Lemma paid_fee_not_counted : exists s r,
  reachable s /\ runs (db s) !! id = Some r /\ ru_cursor r = 1%nat /\ ru_gasSpentUstx r = 0 /\
  (fun c => (ch_status c, map at_state (ch_attempts c), map at_feeUstx (ch_attempts c)))
     <$> ru_children r = [(confirmed, [attempt_confirmed], [300])].
Proof.
  assert (H : exists r, runs (db (fold_left (fun x f => f x) fee_lost watching)) !! id = Some r /\
    ru_cursor r = 1%nat /\ ru_gasSpentUstx r = 0 /\
    (fun c => (ch_status c, map at_state (ch_attempts c), map at_feeUstx (ch_attempts c)))
     <$> ru_children r = [(confirmed, [attempt_confirmed], [300])]).
  { vm_compute. eexists. split_and!; reflexivity. }
  destruct H as (r & H). exists (fold_left (fun x f => f x) fee_lost watching), r. split; [|exact H].
  apply reach_all; [|exact reach_watching]. repeat (apply List.Forall_cons || apply List.Forall_nil); intros x;
      first [apply do_crash_step | apply do_start_step].
Qed.

(** One retry: the operator resumes, the tick seals the plan, and the node rejects [n]. *)
Definition try (n : Z) (o : BroadcastResult) : list (Svc -> Svc) :=
  [answer (out_materialize (Ok (mat_plan (plan prepared "300") (Some 400))));
   answer (out_wallet (Ok true)); answer (out_sign (Ok (signed_tx n)));
   answer (out_broadcast (Ok o))].
Definition retry : list (Svc -> Svc) := [act (act_resume id); start].
Definition restart (s : Svc) : Svc := init (db s).

Definition watch_wrong : list (Svc -> Svc) :=
  try 8 (b_rejected None None) ++ retry ++ try 9 (b_rejected None None) ++ retry ++
  take 3 (try 8 (b_rejected None None)) ++ [restart; start].

Lemma watch_wrong_steps : Forall (fun f => forall x, step x (f x)) watch_wrong.
Proof.
  repeat (apply List.Forall_cons || apply List.Forall_nil); intros x;
    first [apply do_continue_step | apply do_action_step | apply do_start_step | apply step_run; constructor].
Qed.

(** Signing again reuses the rejected attempt with the same transaction ID, but recovery takes
    the last attempt: after a stop during the second broadcast of transaction 8 the run
    watches the rejected transaction 9. *)
Lemma recovery_watches_other_transaction : exists s,
  reachable s /\ ch_status <$> child_of s = Some broadcast /\
  (c ← child_of s; ch_txid c) = Some (sg_precomputedTxid (signed_tx 9)) /\
  (fun c => map (fun a => (at_precomputedTxid a, at_state a)) (ch_attempts c)) <$> child_of s =
    Some [(sg_precomputedTxid (signed_tx 8), signed); (sg_precomputedTxid (signed_tx 9), rejected)].
Proof.
  exists (fold_left (fun x f => f x) watch_wrong working). split_and!.
  - apply reach_all; [apply watch_wrong_steps | exact reach_working].
  - vm_compute. reflexivity.
  - vm_compute. reflexivity.
  - vm_compute. reflexivity.
Qed.

Definition never_sent : list (Svc -> Svc) :=
  try 8 (b_rejected None None) ++ retry ++
  take 1 (try 8 (b_rejected None None)) ++ [answer (out_wallet (Ok false))] ++ retry.

(** A retried child keeps its rejected attempts, so a retry that is refused before its signature
    counts as a submission that may have started: the resumed run marks the child broadcast
    and watches the rejected transaction. *)
Lemma refused_retry_counts_as_broadcast : exists s,
  reachable s /\ ch_status <$> child_of s = Some broadcast /\
  (fun c => map at_state (ch_attempts c)) <$> child_of s = Some [rejected].
Proof.
  exists (fold_left (fun x f => f x) never_sent working). split_and!.
  - apply reach_all; [|exact reach_working].
    repeat (apply List.Forall_cons || apply List.Forall_nil); intros x;
      first [apply do_continue_step | apply do_action_step | apply do_start_step].
  - vm_compute. reflexivity.
  - vm_compute. reflexivity.
Qed.
End Scenario.
