(* ===== verification/SweepScenario.v ===== *)
(** * Sweeps from their preparation to their end

    The system of [SweepSystem] executed on a concrete sweep: the states at which the theorems of
    [SweepCorrect] are applied, and the schedule on which an approval overwrites a cancellation. *)

From S2P Require Import Prelude Text CanonicalJson Principals OperationPlan TransactionJob SweepPlan NakamotoBlock.
From S2P Require Import Broadcast Recipe Receipt RunStore SweepStore Cadence RunService SweepService.
From S2P Require Import SweepProtocol SweepSafety SweepSystem SweepCorrect.
From S2P Require RunScenario.

Open Scope Z_scope.

Section Exec.

Context (isUuid : string -> bool) (validateStacksAddress : string -> bool)
        (makeUnsigned : Transfer -> option string) (deserialize : string -> option ReadBack)
        (sha256 : list Z -> string) (deserializeTransaction : list Z -> option (BlockTx * nat))
        (localeCompare : string -> string -> Z) (options : Options) (sweep_options : SweepOptions).

Abbreviation handle := (handle isUuid validateStacksAddress makeUnsigned deserialize sha256
                          deserializeTransaction sweep_options).

(** The events one after the other; an event that cannot happen is passed over. *)
Definition do_event (s : Sys) (e : SweepEvent) : Sys :=
  match handle e (sweeper s) with Some (c, failed) => handled c failed s | None => s end.

Definition exec (l : list SweepEvent) (s : Sys) : Sys := List.fold_left do_event l s.

Lemma exec_steps l s :
  rtc (sys_step isUuid validateStacksAddress makeUnsigned deserialize sha256 deserializeTransaction
         localeCompare options sweep_options) s (exec l s).
Proof.
  revert s. induction l as [|e l IH]; intros s; cbn; [apply rtc_refl|].
  etrans; [|apply IH]. unfold do_event. destruct (handle e (sweeper s)) as [[c failed]|] eqn:He.
  - by apply rtc_once, sys_event with e.
  - apply rtc_refl.
Qed.

End Exec.

Module SweepScenario.

Import ConcreteSweep.

Definition isUuid (s : string) : bool := Nat.eqb (String.length s) 36.
Definition options : SweepOptions :=
  {| so_network := {| netKind := mainnet; chainId := 1 |}; so_maximumFeeUstx := 2500;
     so_approvalMinutes := None |}.
Definition wallet : Sender := sw_sender input.
Definition tip : string := sw_indexBlockHash input.
Definition at_time (t : Z) : WalletEnv :=
  {| w_now := t; w_wallet := Some wallet; w_engine := Some (true, 0); w_connected := true |}.
Definition t0 : Z := 1709210096789.
Definition id : string := "0f0e0d0c-0b0a-4908-8706-050403020100".
Definition txid : string := "0x" ++ sha [7].
Definition account (nonce balance : Z) : result RunError (option WalletAccount) :=
  Ok (Some {| wa_balanceUstx := balance; wa_nonce := nonce |}).
Definition nothing : ReceiptReads :=
  {| rr_network := Err OtherError; rr_details := Err OtherError; rr_block := Err OtherError;
     rr_node := {| nb_tip := Err OtherError; nb_identified := Err OtherError;
                   nb_canonical := Err OtherError |} |}.

#[local] Abbreviation run :=
  (exec isUuid validAddress serialize read_back sha ConcreteBlock.deserialize options).
#[local] Abbreviation reachable :=
  (sys_reachable isUuid validAddress serialize read_back sha ConcreteBlock.deserialize
     code_unit_compare RunScenario.Scenario.options options).

Definition prepare : list SweepEvent :=
  [ev_prepare (at_time t0) " SPOWNER ";
   ev_prepared 0 id tip (account 7 1000000) None Fee.fee_unobserved].
Definition approve : list SweepEvent :=
  [ev_approve (at_time (t0 + 1)) id; ev_checked (at_time (t0 + 2)) id None;
   ev_read (at_time (t0 + 3)) id (account 7 1000000)].
Definition send : list SweepEvent := [ev_signed (at_time (t0 + 4)) id "" (Ok txid)].
Definition settle : list SweepEvent :=
  [ev_sent (at_time (t0 + 5)) id (Ok (br_accepted txid 200)); ev_refresh (at_time (t0 + 6)) id;
   ev_refreshed id (ix_observed true (Some 100) "(ok true)") nothing false].

Definition planned_state : Sys := run prepare sys_init.
Definition signing_state : Sys := run approve planned_state.
Definition sending_state : Sys := run send signing_state.
Definition settled_state : Sys := run settle sending_state.

Definition status_of (s : Sys) : option SweepStatus := sr_status <$> sweeps (db (svc s)) !! id.
Definition stored_txid (s : Sys) : option string := sweeps (db (svc s)) !! id ≫= sr_txid.
Definition leased (s : Sys) : bool := bool_decide (leases (db (svc s)) !! "SPWALLET"%string <> None).

Example healthy_sweep :
  map status_of [planned_state; signing_state; sending_state; settled_state]
    = map Some [sweep_planned; sweep_planned; sweep_broadcast; sweep_confirmed] /\
  map stored_txid [signing_state; sending_state; settled_state] = [None; Some txid; Some txid] /\
  map leased [planned_state; sending_state; settled_state] = [true; true; false].
Proof. vm_compute. done. Qed.

Lemma exec_reachable l s : reachable s -> reachable (run l s).
Proof. unfold SweepSystem.sys_reachable. intros H. etrans; [exact H | apply exec_steps]. Qed.

Lemma planned_reachable : reachable planned_state.
Proof. apply exec_reachable, rtc_refl. Qed.
Lemma signing_reachable : reachable signing_state.
Proof. apply exec_reachable, planned_reachable. Qed.
Lemma sending_reachable : reachable sending_state.
Proof. apply exec_reachable, signing_reachable. Qed.

(** The operator cancels while an approval waits for the account.  The approval then finds
    another nonce, and reports the cancelled sweep expired. *)
Definition cancelled_state : Sys :=
  run (take 2 approve ++ [ev_cancel (at_time (t0 + 3)) id]) planned_state.

Lemma cancelled_then_expired :
  reachable cancelled_state /\ status_of cancelled_state = Some sweep_cancelled /\
  leased cancelled_state = false /\
  status_of (run [ev_read (at_time (t0 + 4)) id (account 8 1000000)] cancelled_state) = Some sweep_expired.
Proof. split; [apply exec_reachable, planned_reachable | vm_compute; done]. Qed.

(** ** The theorems at these states *)

(** A fact of the stored row, by evaluation. *)
Lemma row_by (f : SweepRow -> bool) s :
  match sweeps (db (svc s)) !! id with Some r => f r | None => false end = true ->
  exists r, sweeps (db (svc s)) !! id = Some r /\ f r = true.
Proof. destruct (sweeps (db (svc s)) !! id) as [r|]; [by exists r | done]. Qed.

Lemma has_status s status :
  bool_decide (status_of s = Some status) = true ->
  exists r, sweeps (db (svc s)) !! id = Some r /\ sr_status r = status.
Proof.
  intros H%bool_decide_eq_true. unfold status_of in H.
  destruct (sweeps (db (svc s)) !! id) as [r|]; [|done]. exists r. by injection H.
Qed.

Lemma planned_row : exists r, sweeps (db (svc planned_state)) !! id = Some r /\ sr_status r = sweep_planned.
Proof. apply has_status. vm_compute. reflexivity. Qed.

Lemma sending_row : exists r, sweeps (db (svc sending_state)) !! id = Some r /\ sr_status r = sweep_broadcast.
Proof. apply has_status. vm_compute. reflexivity. Qed.

Lemma sending_phase : approving (sweeper sending_state) !! id = Some (ap_sending txid).
Proof. vm_compute. reflexivity. Qed.

Lemma sweeps_preserve_runs_witness :
  reachable sending_state /\
  RunService.reachable isUuid sha code_unit_compare RunScenario.Scenario.options (svc sending_state).
Proof.
  split; [exact sending_reachable|].
  exact (sweeps_preserve_runs _ _ _ _ _ _ _ _ _ _ sending_reachable).
Defined.

Lemma sweep_wallet_exclusive_witness : exists r l,
  sweeps (db (svc planned_state)) !! id = Some r /\
  leases (db (svc planned_state)) !! sr_walletPrincipal r = Some l /\ l_id l = id.
Proof.
  destruct planned_row as (r & Hr & Hp).
  destruct (sweep_wallet_exclusive _ _ _ _ _ _ _ _ _ _ _ r planned_reachable Hr) as [H _].
  destruct H as ((l & Hl & _ & Hi) & _); [unfold active_sweep; rewrite Hp; is_in|].
  exists r, l. split; [exact Hr|]. split; [exact Hl | exact Hi].
Defined.

Lemma sweep_recorded_before_send_witness : exists r,
  sweeps (db (svc sending_state)) !! id = Some r /\ sr_txid r = Some txid /\ is_Some (sr_approvedAt r).
Proof.
  destruct (sweep_recorded_before_send _ _ _ _ _ _ _ _ _ _ id txid sending_reachable sending_phase)
    as (r & Hr & Ht & Ha & _).
  exists r. split; [exact Hr|]. split; [exact Ht | exact Ha].
Defined.

(** The refresh that settles the sweep, and the state it is answered in. *)
Definition observed_state : Sys := run (take 2 settle) sending_state.

Lemma observed_row : exists r, sweeps (db (svc observed_state)) !! id = Some r /\ sr_status r = sweep_broadcast.
Proof. apply has_status. vm_compute. reflexivity. Qed.

Lemma observed_reachable : reachable observed_state.
Proof. apply exec_reachable, sending_reachable. Qed.

Definition last_event : SweepEvent := ev_refreshed id (ix_observed true (Some 100) "(ok true)") nothing false.

Lemma settling_step : exists c failed,
  handle isUuid validAddress serialize read_back sha ConcreteBlock.deserialize options last_event
    (sweeper observed_state) = Some (c, failed) /\
  status_of (handled c failed observed_state) = Some sweep_confirmed.
Proof.
  assert (H : match handle isUuid validAddress serialize read_back sha ConcreteBlock.deserialize options
                      last_event (sweeper observed_state) with
              | Some (c, failed) =>
                  bool_decide (status_of (handled c failed observed_state) = Some sweep_confirmed)
              | None => false
              end = true) by (vm_compute; reflexivity).
  destruct (handle _ _ _ _ _ _ _ _ _) as [[c failed]|]; [|discriminate].
  exists c, failed. split; [reflexivity | by apply bool_decide_eq_true in H].
Qed.

Lemma sent_sweep_settles_witness : exists s' r',
  sweeps (db (svc s')) !! id = Some r' /\ sr_status r' = sweep_confirmed /\
  exists e c failed, handle isUuid validAddress serialize read_back sha ConcreteBlock.deserialize options
      e (sweeper observed_state) = Some (c, failed) /\
    settles validAddress serialize read_back sha ConcreteBlock.deserialize options e
      (sweeper observed_state) (db (svc observed_state)) id sweep_confirmed.
Proof.
  destruct observed_row as (r & Hr & Hb). destruct settling_step as (c & failed & He & Hst).
  destruct (sent_sweep_settles _ _ _ _ _ _ code_unit_compare RunScenario.Scenario.options _
    observed_state (handled c failed observed_state) id r observed_reachable
    (sys_event _ _ _ _ _ _ _ _ _ _ _ _ _ He) Hr Hb) as (r' & Hr' & _ & Hcase).
  unfold status_of in Hst. rewrite Hr' in Hst. injection Hst as Hst.
  exists (handled c failed observed_state), r'. split; [exact Hr'|]. split; [exact Hst|].
  destruct Hcase as [[Hb' _]|Hcase]; [congruence|]. rewrite Hst in Hcase. exact Hcase.
Defined.

Lemma sweeps_are_immutable_witness : exists r s' r',
  sweeps (db (svc observed_state)) !! id = Some r /\ sweeps (db (svc s')) !! id = Some r' /\
  sr_status r' = sweep_confirmed /\ sweep_evolves r r'.
Proof.
  destruct observed_row as (r & Hr & _). destruct settling_step as (c & failed & He & Hst).
  destruct (sweeps_are_immutable _ _ _ _ _ _ code_unit_compare RunScenario.Scenario.options _
    observed_state (handled c failed observed_state) id r observed_reachable
    (sys_event _ _ _ _ _ _ _ _ _ _ _ _ _ He) Hr) as (r' & Hr' & Hev & _).
  unfold status_of in Hst. rewrite Hr' in Hst. injection Hst as Hst.
  exists r, (handled c failed observed_state), r'. split; [exact Hr|]. split; [exact Hr'|].
  split; [exact Hst | exact Hev].
Defined.

Lemma stored_sweeps_revalidate_witness : exists r,
  sweeps (db (svc planned_state)) !! id = Some r /\
  revalidateGasWalletSweepPlan validAddress serialize read_back sha (sr_plan r) = Ok (sr_plan r).
Proof.
  destruct planned_row as (r & Hr & _). exists r. split; [exact Hr|].
  exact (proj1 (stored_sweeps_revalidate _ _ _ _ _ _ _ _ _ _ id r formats planned_reachable Hr)).
Defined.

Lemma sweep_fee_ignores_estimate_witness : exists draft, planned = Ok draft /\
  estimateFee read_back None (sp_unsignedTransactionHex draft) (Fee.fee_observed 300) 2500 = 2500.
Proof.
  destruct planned_exists as [draft Hd]. exists draft. split; [exact Hd|].
  exact (sweep_fee_ignores_estimate validAddress serialize read_back sha input draft None
           (Fee.fee_observed 300) 2500 Hd).
Defined.

Lemma signed_segment : exists l,
  approve_signed isUuid (at_time (t0 + 4)) id t0 "" (Ok txid) (db (svc signing_state))
    = (Ok (ap_sending txid), l).
Proof.
  assert (H : match approve_signed isUuid (at_time (t0 + 4)) id t0 "" (Ok txid) (db (svc signing_state)) with
              | (Ok (ap_sending x), _) => String.eqb x txid | _ => false end = true)
    by (vm_compute; reflexivity).
  destruct (approve_signed _ _ _ _ _ _ _) as [[[]|] l]; try discriminate.
  apply String.eqb_eq in H as ->. exists l. reflexivity.
Qed.

Lemma sweep_signing_guards_witness : exists r,
  sweeps (db (svc signing_state)) !! id = Some r /\ sr_status r = sweep_planned /\
  t0 + 4 < sr_expiresAt r.
Proof.
  destruct signed_segment as [l Hl]. destruct planned_exists as [p _].
  destruct (proj2 (sweep_signing_guards isUuid (at_time (t0 + 4)) id p t0 (db (svc signing_state)) l)
              _ _ _ Hl) as (r & d' & _ & _ & Hr & Hp & Ht & _).
  exists r. split; [exact Hr|]. split; [exact Hp | exact Ht].
Defined.

End SweepScenario.
