(* ===== verification/LiveScenario.v ===== *)
(** * The live driver on a concrete chain

    A run over the recipe of [ConcreteRecipe], a node that answers every call of it, and the
    driver's collection, payment, skip and reconciliation of its children: the inputs at which the
    theorems of [LiveDriver] and [LiveFacts] are applied. *)

From S2P Require Import Prelude Text CanonicalJson ChainAnchor Clarity Principals OperationPlan TransactionJob NakamotoBlock AnchorCapture RewardReads SweepPlan Broadcast LiveReader Recipe Receipt RunStore RunService LiveDriver StakerClaims LiveFacts.

Open Scope Z_scope.

Module LiveScenario.

(** ** The chain *)

Definition validAddress (s : string) : bool := startsWith s "SP".

(** Cycle 9 has no bonds; the manager may collect 400, and each account is owed 15 after fees. *)
Definition answer (paid : bool) (function : string) : result ReadError ClarityValue :=
  if String.eqb function "bond-period-to-reward-cycle" then Ok (CUInt 100)
  else if String.eqb function "get-earned" then Ok (CUInt 400)
  else if String.eqb function "get-earned-staker-rewards" then
    Ok (CTuple [("earned", CUInt (if paid then 0 else 15)); ("fees", CUInt 3)])
  else if String.eqb function "get-pox-addr" then Ok COptionalNone
  else if String.eqb function "get-unclaimed-staker-rewards" then Ok (CUInt 1000)
  else Err UpstreamUnavailableError.

Definition node (paid : bool) : Node :=
  {| callReadOnly := fun _ function _ _ _ => answer paid function;
     getMapEntry := fun _ _ _ _ => Ok (COptionalSome (CUInt 300)) |}.

Definition account_json : Wire :=
  wire_object [("balance", wire_string ("0x" ++ String.substring 0 28 ConcreteReader.zeros ++ "ffff"));
               ("locked", wire_string ("0x" ++ String.substring 0 32 ConcreteReader.zeros));
               ("unlock_height", wire_number (num_int 0)); ("nonce", wire_number (num_int 7))]%string.
Definition parse (body : string) : option Wire :=
  if String.eqb body "account" then Some account_json else None.

Definition registry (contract : string) (requestId : Z) (tip : string) : result ReadError RegistryStatus :=
  Ok (if requestId =? 3 then registry_accepted else registry_rejected).

(** ** The run *)

#[local] Abbreviation build := (buildRewardRunRecipe Concrete.checksum code_unit_compare).
#[local] Abbreviation materialize_at paid := (materialize validAddress Concrete.compress Concrete.addressOf
  Concrete.uuid Concrete.serialize (fun _ => true) Concrete.checksum code_unit_compare parse
  ConcreteReader.decode ConcreteReader.deserialize ConcreteReads.lib (node paid) ConcreteReads.settle registry).

Definition runId : string := i_runId ConcreteRecipe.input.

Definition run_of (recipe : Recipe) : Run :=
  {| ru_status := running; ru_walletPrincipal := "SPW"; ru_recipeSha256 := Concrete.checksum [9];
     ru_recipe := recipe; ru_cursor := 0; ru_gasSpentUstx := 0; ru_approvalExpiresAt := 0;
     ru_runtimeExpiresAt := None; ru_approvedAt := None; ru_startedAt := None; ru_completedAt := None;
     ru_failureReason := None; ru_createdAt := 0; ru_updatedAt := 0; ru_children := [] |}.

Definition reads : MaterializeReads :=
  {| dr_context := Ok tt;
     dr_preparation := {| nb_tip := Ok 500; nb_identified := Ok [1]; nb_canonical := Ok [1] |};
     dr_wallet := Some {| sender_principal := "SPW"; publicKey := Concrete.key |};
     dr_anchor := ConcreteCapture.reads; dr_account := ConcreteReader.answer "account";
     dr_policy := Fee.Build_TransactionFeePolicy 100 500 1000;
     dr_firstRewardCycleId := Ok None; dr_fee := ConcreteReader.answer "fee";
     dr_laterPolicy := Fee.Build_TransactionFeePolicy 100 500 1000 |}.

Definition planned (r : result Thrown Materialization) (m : option Z) : bool :=
  match r with Ok (mat_plan plan amount) => bool_decide (amount = m) && String.eqb (m_nonce (material plan)) "7"
  | _ => false end.

Example observed_outcomes : match build ConcreteRecipe.input with
  | Err _ => False
  | Ok recipe =>
      let at_child paid := materialize_at paid reads runId (run_of recipe) in
      planned (at_child false 0%nat op_claim_rewards) (Some 400) = true /\
      planned (at_child false 1%nat op_claim_staker_rewards) (Some 18) = true /\
      at_child true 1%nat op_claim_staker_rewards =
        Ok (mat_skip "Another caller paid this reward account" another_caller) /\
      at_child false 9%nat op_claim_rewards = Ok (mat_halt "Recipe child is missing") /\
      at_child false 3%nat op_settle_accepted_withdrawal = Err (thrown UpstreamUnavailableError)
  end.
Proof. vm_compute. split_and!; reflexivity. Qed.

(** ** The theorems at these inputs *)

(** Child [index] of the recipe has the operation, and the driver plans it for the amount. *)
Definition plans (recipe : Recipe) (index : nat) (op : OperationKind) (amount : Z) : bool :=
  bool_decide (rc_operation <$> r_children recipe !! index = Some op) &&
  planned (materialize_at false reads runId (run_of recipe) index op) (Some amount).

Definition scenario (built : result RewardRunErrorCode Recipe) : bool :=
  match built with
  | Ok recipe => plans recipe 0 op_claim_rewards 400 && plans recipe 1 op_claim_staker_rewards 18
  | Err _ => false
  end.

Lemma plans_plan recipe index op amount : plans recipe index op amount = true ->
  (forall rc, r_children recipe !! index = Some rc -> rc_operation rc = op) /\
  exists plan, materialize_at false reads runId (run_of recipe) index op = Ok (mat_plan plan (Some amount)).
Proof.
  unfold plans, planned. intros [Hop%bool_decide_eq_true Hp]%andb_true_iff. split.
  - intros rc Hrc. rewrite Hrc in Hop. by injection Hop.
  - destruct (materialize _ _ _ _ _ _ _ _ _ _ _ _ _ _ _ _ _ _ _ _) as [[plan a| |]|]; try done.
    apply andb_true_iff in Hp as [->%bool_decide_eq_true _]. by exists plan.
Qed.

Lemma scenario_plans : exists recipe, build ConcreteRecipe.input = Ok recipe /\
  plans recipe 0 op_claim_rewards 400 = true /\ plans recipe 1 op_claim_staker_rewards 18 = true.
Proof.
  assert (H : scenario (build ConcreteRecipe.input) = true) by (vm_compute; reflexivity).
  destruct (build ConcreteRecipe.input) as [recipe|]; [|done]. exists recipe.
  apply andb_true_iff in H as [? ?]. by split_and!.
Qed.

Lemma concrete_facts_coherent : facts_coherent ConcreteRecipe.facts.
Proof. split; repeat constructor; intros t Ht; discriminate Ht. Qed.

Lemma plan_is_fresh_witness : exists recipe plan wallet anchor account rc,
  materialize_at false reads runId (run_of recipe) 0 op_claim_rewards = Ok (mat_plan plan (Some 400)) /\
  groundwork validAddress parse ConcreteReader.decode reads (run_of recipe) 0 wallet anchor account rc /\
  m_nonce (material plan) = bigint_toString (aa_nonce account).
Proof.
  destruct scenario_plans as (recipe & _ & Hp & _). destruct (plans_plan _ _ _ _ Hp) as [_ [plan H]].
  destruct (plan_is_fresh _ _ _ _ _ _ _ _ _ _ _ _ _ _ _ _ _ _ _ _ _ _ H eq_refl)
    as (wallet & anchor & account & rc & draft & G & _ & _ & _ & _ & _ & Hn & _).
  exists recipe, plan, wallet, anchor, account, rc. split; [exact H|]. split; [exact G | exact Hn].
Defined.

Lemma payment_is_economic_witness : exists recipe plan rc account facts,
  materialize_at false reads runId (run_of recipe) 1 op_claim_staker_rewards = Ok (mat_plan plan (Some 18)) /\
  r_children recipe !! 1%nat = Some rc /\ accountOf recipe (rc_accountKey rc) = Some account /\
  18 = Codecs.earned (pf_earned facts) + Codecs.fees (pf_earned facts) /\
  18 <= ab_maximumGrossSats account.
Proof.
  destruct scenario_plans as (recipe & _ & _ & Hp). destruct (plans_plan _ _ _ _ Hp) as [_ [plan H]].
  destruct (payment_is_economic _ _ _ _ _ _ _ _ _ _ _ _ _ _ _ _ _ _ _ _ _ H)
    as (anchor & rc & account & bondIndex & facts & text & _ & Hrc & Hacc & _ & _ & Ha & _ & _ & _ & Hmax & _).
  injection Ha as Ha. exists recipe, plan, rc, account, facts.
  split; [exact H|]. split; [exact Hrc|]. split; [exact Hacc|].
  split; [exact Ha|]. rewrite Ha. exact Hmax.
Defined.

(** The settlement of the paid account is skipped, and recognised as done. *)
Definition later : ReconcileReads :=
  {| rc_context := Ok tt; rc_indexed := ix_unanswered;
     rc_receipt := ConcreteReceipt.reads ConcreteReceipt.silent; rc_desiredContext := Ok tt;
     rc_desiredAnchor := ConcreteCapture.reads; rc_firstRewardCycleId := Ok None |}.

Lemma plan_iff_effect_missing_witness : exists recipe plan,
  materialize_at false reads runId (run_of recipe) 1 op_claim_staker_rewards = Ok (mat_plan plan (Some 18)) /\
  desiredState ConcreteReads.lib (node false) ConcreteReads.settle later (run_of recipe) 1
    op_claim_staker_rewards = Ok false.
Proof.
  destruct scenario_plans as (recipe & _ & _ & Hp). destruct (plans_plan _ _ _ _ Hp) as [_ [plan H]].
  exists recipe, plan. split; [exact H|].
  exact (plan_iff_effect_missing _ _ _ _ _ _ _ _ _ _ _ _ _ _ _ _ later _ _ _ _ _ H
           eq_refl eq_refl eq_refl).
Defined.

Definition child : Child :=
  {| ch_operation := op_claim_rewards; ch_adapterId := reference_manager_claim_rewards;
     ch_adapterRevision := 1; ch_accountKey := None; ch_maximumAmountSats := Some 500;
     ch_status := pending; ch_materializedAmountSats := None; ch_plan := None; ch_txid := None;
     ch_provenance := None; ch_executionSource := None; ch_failureReason := None; ch_updatedAt := 0;
     ch_attempts := [] |}.

Lemma driver_plan_accepted_witness : exists recipe plan fee rc,
  materialize_at false reads runId (run_of recipe) 0 op_claim_rewards = Ok (mat_plan plan (Some 400)) /\
  m_feeUstx (material plan) = bigint_toString fee /\ r_children recipe !! 0%nat = Some rc.
Proof.
  destruct scenario_plans as (recipe & Hb & Hp & _). destruct (plans_plan _ _ _ _ Hp) as [Hops [plan H]].
  assert (Hco : recipe_coherent recipe)
    by exact (built_recipe_coherent _ _ ConcreteRecipe.input _ concrete_facts_coherent Hb).
  destruct (driver_plan_accepted _ _ _ _ _ _ _ _ _ _ _ _ _ _ _ reads runId (run_of recipe) 0 child plan
    (Some 400) empty_db H eq_refl Hco Hops) as (anchor & rc & fee & _ & Hrc & Hf & _).
  exists recipe, plan, fee, rc. split; [exact H|]. split; [exact Hf | exact Hrc].
Defined.

(** ** A confirmation only the API vouches for *)

Definition attempted (txid : string) : Attempt :=
  {| at_precomputedTxid := txid; at_nonce := 7; at_feeUstx := 100; at_state := accepted;
     at_broadcastResult := None; at_createdAt := 0; at_updatedAt := 0 |}.
Definition sent (plan : Plan) : Child :=
  {| ch_operation := op_claim_rewards; ch_adapterId := reference_manager_claim_rewards;
     ch_adapterRevision := 1; ch_accountKey := None; ch_maximumAmountSats := Some 500;
     ch_status := broadcast; ch_materializedAmountSats := Some 400; ch_plan := Some plan;
     ch_txid := Some ConcreteReceipt.id; ch_provenance := None; ch_executionSource := None;
     ch_failureReason := None; ch_updatedAt := 0; ch_attempts := [attempted ConcreteReceipt.id] |}.

#[local] Abbreviation reconcile_at := (reconcile validAddress Concrete.compress Concrete.addressOf
  Concrete.uuid Concrete.serialize (fun _ => true) Concrete.checksum code_unit_compare
  ConcreteBlock.deserialize ConcreteReads.lib (node false) ConcreteReads.settle).

Definition settled (own : bool) (r : result Thrown Reconciliation) : bool :=
  match r with
  | Ok (rec_confirmed 7 (Some api)) => own
  | Ok (rec_pending true None) => negb own
  | _ => false
  end.

Definition settles_plan (own : bool) (recipe : Recipe) (r : result Thrown Materialization) : bool :=
  match r with
  | Ok (mat_plan plan _) =>
      settled own (reconcile_at later runId (run_of recipe) 0 (sent plan) plan ConcreteReceipt.id
                     (if own then Some (attempted ConcreteReceipt.id) else None))
  | _ => false
  end.

Definition settles_recipe (own : bool) (built : result RewardRunErrorCode Recipe) : bool :=
  match built with
  | Ok recipe => settles_plan own recipe (materialize_at false reads runId (run_of recipe) 0 op_claim_rewards)
  | Err _ => false
  end.

Example only_own_transactions :
  settles_recipe true (build ConcreteRecipe.input) = true /\
  settles_recipe false (build ConcreteRecipe.input) = true.
Proof. split; vm_compute; reflexivity. Qed.

Lemma settled_api r : settled true r = true -> r = Ok (rec_confirmed 7 (Some api)).
Proof.
  destruct r as [[[] []|height [[]|]|? ?|? ? ?]|e]; try done; cbn;
    destruct height as [|[[[?|?|]|?|]|?|]|?]; done.
Qed.

Lemma reconciliation_is_grounded_witness : exists recipe plan,
  signed_here validAddress Concrete.compress Concrete.addressOf Concrete.uuid Concrete.serialize
    (fun _ => true) Concrete.checksum code_unit_compare runId (run_of recipe) (sent plan) plan
    ConcreteReceipt.id (Some (attempted ConcreteReceipt.id)).
Proof.
  pose proof (proj1 only_own_transactions) as H.
  destruct (build ConcreteRecipe.input) as [recipe|]; [|discriminate H]. cbn [settles_recipe] in H.
  destruct (materialize_at false reads runId (run_of recipe) 0 op_claim_rewards) as [[plan a| |]|];
    try discriminate H.
  cbn [settles_plan] in H. apply settled_api in H.
  pose proof (reconciliation_is_grounded _ _ _ _ _ _ _ _ _ _ _ _ _ _ _ _ _ _ _ _ _ H) as G.
  destruct G as (repr & s & Hs & _ & _ & Hapi). exists recipe, plan. apply Hapi. by injection Hs as <-.
Defined.

(** ** A recipe discovered on the chain *)

Definition roster : list string := ["SPA"; "SPB"; "SPC"]%string.
Definition claimsOf (staker : string) : list StakerCandidate :=
  [{| sc_stakerPrincipal := staker; sc_bondIndex := None; sc_payoutKind := direct_sbtc; sc_maxFeeSats := None;
      sc_earnedSats := if String.eqb staker "SPB" then 0 else 15; sc_feeSats := if String.eqb staker "SPB" then 0 else 3;
      sc_grossSats := if String.eqb staker "SPB" then 0 else 18; sc_blockedReason := None |};
   {| sc_stakerPrincipal := staker; sc_bondIndex := Some (bigint_toString 4); sc_payoutKind := bitcoin_l1;
      sc_maxFeeSats := Some 10; sc_earnedSats := 890; sc_feeSats := 10; sc_grossSats := 900;
      sc_blockedReason := None |}].

Definition settlementOf (page : list string) : StakerSettlementSummary :=
  {| sm_stakersScanned := List.length page; sm_outstandingClaims := 0; sm_totalNetSats := 0; sm_blockedClaims := 0 |}.

(** The store's answer at every page: a reconciled run and three of its stakers, and one of an older run. *)
Definition entry (staker runId : string) : RosterEntry :=
  {| re_stakerPrincipal := staker; re_lastSeenRunId := runId; re_bonded := false; re_positioned := true;
     re_stxNodeVerified := None |}.
Definition claimsReads (offset : nat) : ClaimsReads :=
  {| cr_snapshot := Ok None; cr_completedRun := Some ("run-9"%string, true);
     cr_stakers := (entry "SPO" "run-8" :: ((fun p => entry p "run-9") <$> roster))%string |}.

Definition stored : list StoredWithdrawal :=
  [{| sw_requestId := 3; sw_stakerPrincipal := "SPZ"; sw_amountSats := 50; sw_maxFeeSats := 10 |};
   {| sw_requestId := 8; sw_stakerPrincipal := "SPZ"; sw_amountSats := 70; sw_maxFeeSats := 10 |}].

Definition setup : SetupFacts :=
  {| su_network := "mainnet"; su_networkId := 1; su_pox5ContractId := Some "SPM.pox-5"%string;
     su_sbtcTokenContract := Some "SPM.sbtc-token"%string;
     su_sbtcRegistryContract := Some "SPM.sbtc-registry"%string;
     su_pox5Sha256 := Some (Concrete.checksum [3]); su_managerSha256 := Some (Concrete.checksum [2]);
     su_firstRewardCycleId := None; su_executionAvailable := true;
     su_reviewedSourceSha256 := Some (Concrete.checksum [2]) |}.

Definition facts_reads : FactsReads :=
  {| fa_setup := Ok setup; fa_wallet := dr_wallet reads; fa_context := Ok tt;
     fa_anchor := ConcreteCapture.reads |}.

Definition request : PrepareRequest :=
  {| pr_requestId := None; pr_cycle := 9; pr_distribution := 2;
     pr_operations := Some [op_claim_rewards; op_claim_staker_rewards; op_settle_accepted_withdrawal];
     pr_maxTransactions := None |}.

#[local] Abbreviation discovered_facts := (createLiveRewardRunFacts ConcreteReads.lib (node false)
  ConcreteReads.settle registry (runClaims ConcreteReads.lib (node false) ConcreteReads.settle "SPM.manager" claimsReads)
  (storedPage stored) 2 facts_reads "SPM.manager" request).

Definition recipe_input (f : DraftFacts) : RecipeInput :=
  {| i_runId := runId; i_facts := f; i_request := request; i_feeCapUstx := 1000;
     i_maximumTransactions := 200 |}.

Definition discovers (r : result Thrown (option DraftFacts)) : bool :=
  match r with
  | Ok (Some f) =>
      (f_eligibleAccountCount f =? 3) && (f_eligibleAccepted f =? 1) && (f_eligibleRejected f =? 1) &&
      match build (recipe_input f) with
      | Ok recipe => bool_decide (List.length (r_children recipe) = 5%nat)
      | Err _ => false
      end
  | _ => false
  end.

Lemma discovered_recipe_is_coherent_witness : exists f recipe,
  discovered_facts = Ok (Some f) /\ build (recipe_input f) = Ok recipe /\ recipe_coherent recipe.
Proof.
  assert (H : discovers discovered_facts = true) by (vm_compute; reflexivity).
  destruct discovered_facts as [[f|]|] eqn:Hf; [|discriminate H|discriminate H].
  unfold discovers in H. apply andb_true_iff in H as [_ H].
  destruct (build (recipe_input f)) as [recipe|] eqn:Hb; [|discriminate H].
  exists f, recipe. split; [reflexivity|]. split; [exact Hb|].
  exact (discovered_recipe_is_coherent _ _ _ _ _ _ _ _ _ _ _ _ _ _ _ _ _ Hf Hb).
Defined.

Lemma every_account_is_counted_witness :
  readAccounts (rosterPage claimsOf settlementOf roster 9) 2 200 9 0 ([], 0) =
    Ok (Some (take 200 (all_entitled claimsOf roster 9), 5)).
Proof. apply (every_account_is_counted claimsOf settlementOf roster 9 1 200). cbn. lia. Defined.

Lemma every_withdrawal_is_counted_witness :
  readWithdrawals ConcreteReads.settle (answers (fun _ => registry_accepted)) (storedPage stored) 2 200 0
    ([], (0, 0)) = Ok (Some (take 200 (all_finished (fun _ => registry_accepted) stored), (2, 0))).
Proof.
  assert (H : (List.length stored <= withdrawalLimit * 1)%nat) by (cbn; lia).
  exact (every_withdrawal_is_counted ConcreteReads.settle (fun _ => registry_accepted) stored 1 200 H).
Defined.

End LiveScenario.
