(* ===== verification/GasWalletCorrect.v ===== *)
(** * What the gas wallet's life guarantees

    An invariant of every process over any history of calls, answers, failures and restarts: a
    recorded wallet can be loaded from its file, a key once written is never written over, and
    whatever the engine signs with is the environment's key or an enabled wallet that passed its
    checks.  At the end a concrete life, and a schedule on which the status goes stale. *)

From S2P Require Import Prelude Text CanonicalJson Principals OperationPlan SweepPlan Signer RunStore SweepService.
From S2P Require Import GasWallet.

Open Scope Z_scope.

(** The key [randomPrivateKey] prints: 32 bytes and the byte of a compressed public key. *)
Definition generated_key (key : list Z) : Prop :=
  exists bytes, key = bytes ++ [1] /\ List.length bytes = 32%nat /\ Forall is_byte bytes.

(** Every key of the history came from the library. *)
Definition keys_generated (trace : list Event) : Prop :=
  forall id key, ev_create id key ∈ trace -> generated_key key.

Lemma generated_key_decodes key :
  generated_key key -> decodeRawPrivateKey (key_text key ++ [10]) = Ok key.
Proof.
  intros (bytes & -> & Hlen & Hb).
  replace (key_text (bytes ++ [1]) ++ [10]) with (key_text bytes ++ [48; 49] ++ [10]).
  - apply decode_printed_key; [done|done|by constructor 2; constructor|]. by constructor 2; constructor.
  - unfold key_text. by rewrite map_app, concat_app, <- app_assoc.
Qed.

Section Life.

Context (privateKeyToPublic : list Z -> option string)
        (getAddressFromPublicKey : string -> Network -> string)
        (options : WalletOptions) (boot : option Engine).

(** What is to stay: a recorded wallet and the content of its file. *)
Context (kept : StoredGasWallet -> option (list Z) -> Prop).

Abbreviation handle := (handle privateKeyToPublic getAddressFromPublicKey options boot).
Abbreviation after_events := (after_events privateKeyToPublic getAddressFromPublicKey options boot).
Abbreviation key_path := (wo_secretFilePath options).

(** ** The invariant *)

(** The part of a process the invariant is about. *)
Record Core := {
  c_wallet : option StoredGasWallet;
  c_files : gmap string (list Z);
  c_engine : option Engine;
  c_calls : gmap nat Call;
}.

Definition core (p : Process) : Core :=
  {| c_wallet := wt_wallet (pr_tables p); c_files := pr_files p; c_engine := pr_engine p;
     c_calls := pr_calls p |}.

(** The wallet a key of the library's makes. *)
Definition wallet_of_key (key : list Z) (r : StoredGasWallet) : Prop :=
  (exists pk, privateKeyToPublic key = Some pk /\ gw_publicKey r = toLowerCase pk) /\
  gw_principal r = getAddressFromPublicKey (gw_publicKey r) (wo_network options) /\
  gw_secretFilePath r = key_path.

(** Same identity, however it was switched since. *)
Definition same_wallet (r s : StoredGasWallet) : Prop :=
  gw_principal r = gw_principal s /\ gw_publicKey r = gw_publicKey s /\
  gw_secretFilePath r = gw_secretFilePath s /\ gw_source r = gw_source s /\ gw_createdAt r = gw_createdAt s.

#[local] Instance same_wallet_equivalence : Equivalence same_wallet.
Proof.
  unfold same_wallet. split; [done | by intros r s (? & ? & ? & ? & ?) |].
  intros r s t (? & ? & ? & ? & ?) (? & ? & ? & ? & ?). split_and!; congruence.
Qed.

Definition is_recorded (c : Core) (r : StoredGasWallet) : Prop := c_wallet c = Some r /\ rowSchema r = true.

(** The refusal checks were answered for a call that enables [principal], and passed. *)
Definition passed (p : Process) (trace : list Event) (principal : string) : Prop :=
  exists later earlier id isAdmin signerPrincipal r,
    trace = later ++ ev_checked id isAdmin signerPrincipal :: earlier /\
    pr_calls (after_events earlier p) !! id = Some (checking r) /\ gw_principal r = principal /\
    refusalChecks principal isAdmin signerPrincipal = None.

Lemma passed_later p trace e principal : passed p trace principal -> passed p (e :: trace) principal.
Proof.
  intros (later & earlier & id & a & s & r & -> & H). by exists (e :: later), earlier, id, a, s, r.
Qed.

(** The call made its key's file. *)
Definition owns_file (call : Call) : bool :=
  match call with writing _ | registering _ => true | _ => false end.

Definition usable_key (key : list Z) : Prop := generated_key key /\ is_Some (privateKeyToPublic key).

Definition call_ok (p : Process) (trace : list Event) (c : Core) (call : Call) : Prop :=
  match call with
  | creating key => usable_key key
  | writing key => usable_key key /\ (forall r, ~ is_recorded c r) /\ is_Some (c_files c !! key_path)
  | registering key => usable_key key /\ (forall r, ~ is_recorded c r) /\
      c_files c !! key_path = Some (key_text key ++ [10])
  | checking r => exists s, is_recorded c s /\ same_wallet r s
  | activating r => (exists s, is_recorded c s /\ same_wallet r s) /\ passed p trace (gw_principal r)
  | deactivating | building _ => True
  end.

(** The signer is the recorded wallet's, and switched on. *)
Definition wallet_signer (c : Core) (s : Signer) : Prop :=
  exists r, is_recorded c r /\ gw_enabled r = true /\ sn_principal s = gw_principal r /\
    sn_publicKey s = toLowerCase (gw_publicKey r) /\ sn_network s = wo_network options.

Definition configured_signer (s : Signer) : Prop := boot ≫= en_current = Some s.

Record Inv (p : Process) (trace : list Event) (c : Core) : Prop := {
  inv_secret r : is_recorded c r -> exists key, usable_key key /\ wallet_of_key key r /\
    c_files c !! key_path = Some (key_text key ++ [10]);
  inv_enabled r : c_wallet c = Some r -> gw_enabled r = true -> rowSchema r = true /\ passed p trace (gw_principal r);
  inv_signer s : c_engine c ≫= en_current = Some s -> configured_signer s \/ wallet_signer c s;
  inv_calls id call : c_calls c !! id = Some call -> call_ok p trace c call;
  inv_owner id id' call call' : c_calls c !! id = Some call -> c_calls c !! id' = Some call' ->
    owns_file call = true -> owns_file call' = true -> id = id';
  inv_kept r f : kept r f -> exists s, is_recorded c s /\ same_wallet s r /\ c_files c !! key_path = f;
}.

Lemma call_ok_later p trace e c call : call_ok p trace c call -> call_ok p (e :: trace) c call.
Proof. destruct call; cbn; try done. intros [? ?]. eauto using passed_later. Qed.

Lemma Inv_later p trace e c : Inv p trace c -> Inv p (e :: trace) c.
Proof.
  intros [I1 I2 I3 I4 I5 I6]. split; try done.
  - intros r Hr He. destruct (I2 r Hr He). eauto using passed_later.
  - eauto using call_ok_later.
Qed.

(** ** A small logic of segments *)

Definition wp {A} (m : seg A) (Q : A -> Process -> Prop) (E : Process -> Prop) (p : Process) : Prop :=
  match m p with (Ok a, q) => Q a q | (Err _, q) => E q end.

Lemma seg_wp_bind {A B} (m : seg A) (k : A -> seg B) Q E p :
  wp m (fun a => wp (k a) Q E) E p -> wp (m ≫= k) Q E p.
Proof. unfold wp, mbind, seg_bind. by destruct (m p) as [[a|e] q]. Qed.

Lemma seg_wp_guard b e (Q : unit -> Process -> Prop) (E : Process -> Prop) p :
  (b = true -> Q tt p) -> (b = false -> E p) -> wp (guard_seg b e) Q E p.
Proof. destruct b; cbn; intros; auto. Qed.

Lemma wp_get_wallet (Q : option StoredGasWallet -> Process -> Prop) (E : Process -> Prop) p :
  (c_wallet (core p) = None -> Q None p) ->
  (forall r, is_recorded (core p) r -> Q (Some r) p) ->
  (forall r, c_wallet (core p) = Some r -> rowSchema r = false -> E p) ->
  wp get_wallet Q E p.
Proof.
  unfold wp, get_wallet, is_recorded, core. cbn [c_wallet]. intros Hn Hs Hi.
  destruct (wt_wallet (pr_tables p)) as [r|]; [|by apply Hn].
  destruct (rowSchema r) eqn:H; [by apply Hs | by apply (Hi r)].
Qed.

(** The call a segment goes on with fits the process it left. *)
Definition follows (p : Process) (trace : list Event) (next : option Call) (q : Process) : Prop :=
  Inv p trace (core q) /\
  match next with
  | Some c => call_ok p trace (core q) c /\
      (owns_file c = true -> forall id c', pr_calls q !! id = Some c' -> owns_file c' = false)
  | None => True
  end.

Abbreviation steps p trace m := (wp m (follows p trace) (fun q => Inv p trace (core q))).

Lemma buildStatus_core now q : core (snd (buildStatus now q)) = core q.
Proof.
  unfold buildStatus, mbind, seg_bind, get_wallet. destruct (wt_wallet (pr_tables q)) as [r|]; [|done].
  by destruct (rowSchema r).
Qed.

Lemma steps_status p trace force now q : Inv p trace (core q) -> steps p trace (status force now) q.
Proof.
  intros H. unfold status. apply seg_wp_bind. cbn. destruct (_ && _); [done|]. destruct (_ && _); [done|].
  apply seg_wp_bind. pose proof (buildStatus_core now q) as E. unfold wp.
  destruct (buildStatus now q) as [[b|e] q']; cbn in *; unfold follows; by rewrite E.
Qed.

Lemma Inv_settled p trace id r q :
  match r with Ok next => follows p trace next q | Err _ => Inv p trace (core q) end ->
  pr_calls q !! id = None -> Inv p trace (core (settled id (r, q))).
Proof.
  intros H Hn. destruct r as [[c|]|]; cbn; [|by destruct H|done].
  destruct H as ([I1 I2 I3 I4 I5 I6] & Hc & Ho). split; try done.
  - intros i call. cbn. intros [[<- <-]|[? Hi]]%lookup_insert_Some; [done|]. by eapply I4.
  - intros i j ci cj. cbn. intros [[<- <-]|[? Hi]]%lookup_insert_Some [[<- <-]|[? Hj]]%lookup_insert_Some Oi Oj;
      [done | | | by eapply I5].
    + specialize (Ho Oi _ _ Hj). congruence.
    + specialize (Ho Oj _ _ Hi). congruence.
Qed.

Lemma Inv_begin p trace id m q :
  (Inv p trace (core q) -> steps p trace m q) ->
  (forall o q', m q = (o, q') -> pr_calls q' = pr_calls q) ->
  Inv p trace (core q) -> Inv p trace (core (begin id m q)).
Proof.
  intros Hm Hc H. unfold begin. destruct (pr_calls q !! id) eqn:Hn; [done|].
  specialize (Hm H). unfold wp in Hm. destruct (m q) as [o q'] eqn:E.
  apply Inv_settled; [by destruct o | by rewrite (Hc _ _ eq_refl)].
Qed.

Definition without (id : nat) (q : Process) : Process := set_calls (delete id (pr_calls q)) q.

Lemma Inv_without p trace id q : Inv p trace (core q) -> Inv p trace (core (without id q)).
Proof.
  intros [I1 I2 I3 I4 I5 I6]. split; try done.
  - intros i call. cbn. intros [_ Hi]%lookup_delete_Some. by eapply I4.
  - intros i j ci cj. cbn. intros [_ Hi]%lookup_delete_Some [_ Hj]%lookup_delete_Some. by eapply I5.
Qed.

(** Once the owner of the file is taken out, there is no other. *)
Definition no_owner (q : Process) : Prop := forall id c, pr_calls q !! id = Some c -> owns_file c = false.

Lemma without_owner p trace id q call :
  Inv p trace (core q) -> pr_calls q !! id = Some call -> owns_file call = true -> no_owner (without id q).
Proof.
  intros [_ _ _ _ I5 _] Hi Ho j c. cbn. intros [Hij Hj]%lookup_delete_Some.
  destruct (owns_file c) eqn:Hc; [|done]. destruct Hij. by eapply I5.
Qed.

Lemma Inv_resume p trace id next q :
  (forall call m, pr_calls q !! id = Some call -> next call = Some m ->
     call_ok p trace (core q) call -> Inv p trace (core (without id q)) ->
     steps p trace m (without id q)) ->
  (forall call m o q', next call = Some m -> m (without id q) = (o, q') -> pr_calls q' = delete id (pr_calls q)) ->
  Inv p trace (core q) -> Inv p trace (core (resume id next q)).
Proof.
  intros Hm Hc H. unfold resume. destruct (pr_calls q !! id) as [call|] eqn:Hi; [|done].
  cbn. destruct (next call) as [m|] eqn:Hn; [|done].
  pose proof (Hm _ _ eq_refl Hn (inv_calls _ _ _ H _ _ Hi) (Inv_without _ _ _ _ H)) as Hs.
  unfold wp in Hs. fold (without id q). destruct (m (without id q)) as [o q'] eqn:E.
  apply Inv_settled; [by destruct o|]. rewrite (Hc _ _ _ _ Hn E). apply lookup_delete_eq.
Qed.

(** ** Segments leave the waiting calls alone *)

Definition keeps {A} (m : seg A) : Prop := forall q, pr_calls (snd (m q)) = pr_calls q.

Lemma keeps_bind {A B} (m : seg A) (k : A -> seg B) : keeps m -> (forall a, keeps (k a)) -> keeps (m ≫= k).
Proof.
  unfold keeps, mbind, seg_bind. intros Hm Hk q. specialize (Hm q).
  destruct (m q) as [[a|e] q']; [by rewrite Hk | done].
Qed.

Lemma seg_keeps_ret {A} (a : A) : keeps (mret a). Proof. done. Qed.
Lemma keeps_throw {A} e : keeps (A := A) (throw_seg e). Proof. done. Qed.
Lemma keeps_reads {A} (f : Process -> A) : keeps (reads f). Proof. done. Qed.
Lemma keeps_change f : (forall q, pr_calls (f q) = pr_calls q) -> keeps (change f).
Proof. done. Qed.
Lemma keeps_guard b e : keeps (guard_seg b e). Proof. by destruct b. Qed.
Lemma keeps_get : keeps get_wallet.
Proof. intros q. unfold get_wallet. destruct (wt_wallet _) as [r|]; [|done]. by destruct (rowSchema r). Qed.

Ltac keeps :=
  repeat first
    [ apply seg_keeps_ret | apply keeps_throw | apply keeps_reads | apply keeps_guard | apply keeps_get
    | apply keeps_change; reflexivity
    | apply keeps_bind; [|intros]
    | match goal with |- keeps (match ?x with _ => _ end) => destruct x end ].

Lemma keeps_put input : keeps (put_wallet input).
Proof. unfold put_wallet, set_wallet. keeps. Qed.
Lemma keeps_setEnabled b now : keeps (setEnabled b now).
Proof. unfold setEnabled, set_wallet. keeps. Qed.
Lemma keeps_status force now : keeps (status force now).
Proof. unfold status, buildStatus, get_banners. keeps. Qed.
Lemma keeps_activate r file : keeps (activate privateKeyToPublic getAddressFromPublicKey options r file).
Proof. unfold activate. keeps. Qed.

Lemma keeps_of {A} (m : seg A) q o q' : keeps m -> m q = (o, q') -> pr_calls q' = pr_calls q.
Proof. intros H E. specialize (H q). by rewrite E in H. Qed.

(** ** How the core changes *)

Lemma Inv_files p trace c f :
  Inv p trace c -> (forall r, ~ is_recorded c r) ->
  (forall id call, c_calls c !! id = Some call -> owns_file call = false) ->
  Inv p trace {| c_wallet := c_wallet c; c_files := f; c_engine := c_engine c; c_calls := c_calls c |}.
Proof.
  intros [I1 I2 I3 I4 I5 I6] Hr Ho. split; try done.
  - intros r H. by destruct (Hr r).
  - intros id call Hc. specialize (I4 _ _ Hc). specialize (Ho _ _ Hc). by destruct call.
  - intros r f' Hk. destruct (I6 r f' Hk) as (s & Hs & _). by destruct (Hr s).
Qed.

Lemma Inv_recorded p trace c w :
  Inv p trace c -> (forall r, ~ is_recorded c r) ->
  (forall id call, c_calls c !! id = Some call -> owns_file call = false) ->
  gw_enabled w = false ->
  (exists key, usable_key key /\ wallet_of_key key w /\ c_files c !! key_path = Some (key_text key ++ [10])) ->
  Inv p trace {| c_wallet := Some w; c_files := c_files c; c_engine := c_engine c; c_calls := c_calls c |}.
Proof.
  intros [I1 I2 I3 I4 I5 I6] Hr Ho Hw Hk. split; try done.
  - by intros r [[= <-] _].
  - intros r [= <-]. by rewrite Hw.
  - intros s Hs. destruct (I3 s Hs) as [?|(r & H & _)]; [by left | by destruct (Hr r)].
  - intros id call Hc. specialize (I4 _ _ Hc). specialize (Ho _ _ Hc).
    destruct call as [| | |r|r| |]; try done; cbn in I4.
    + destruct I4 as (s & Hs & _). by destruct (Hr s).
    + destruct I4 as ((s & Hs & _) & _). by destruct (Hr s).
  - intros r f' Hf. destruct (I6 r f' Hf) as (s & Hs & _). by destruct (Hr s).
Qed.

Lemma with_enabled_same b now s : same_wallet (with_enabled b now s) s.
Proof. done. Qed.

Lemma Inv_switched p trace c s b now e :
  Inv p trace c -> c_wallet c = Some s ->
  (b = true -> rowSchema s = true /\ passed p trace (gw_principal s)) ->
  (forall g, e ≫= en_current = Some g -> b = true /\ sn_principal g = gw_principal s /\
     sn_publicKey g = toLowerCase (gw_publicKey s) /\ sn_network g = wo_network options) ->
  Inv p trace {| c_wallet := Some (with_enabled b now s); c_files := c_files c; c_engine := e;
                 c_calls := c_calls c |}.
Proof.
  intros [I1 I2 I3 I4 I5 I6] Hs Hb He.
  assert (Hrec : forall r, is_recorded c r <-> r = s /\ rowSchema s = true).
  { intros r. unfold is_recorded. rewrite Hs. split; [intros [[= <-] ?] | intros [-> ?]]; done. }
  assert (Hnew : forall call, call_ok p trace c call -> call_ok p trace
    {| c_wallet := Some (with_enabled b now s); c_files := c_files c; c_engine := e; c_calls := c_calls c |} call).
  { intros call. destruct call as [key|key|key|r|r| |]; cbn; try done.
    - intros (? & Hn & ?). split_and!; try done. intros r [[= <-] Hr]. apply (Hn s), Hrec. done.
    - intros (? & Hn & ?). split_and!; try done. intros r [[= <-] Hr]. apply (Hn s), Hrec. done.
    - intros (t & [-> Hr]%Hrec & Ht). exists (with_enabled b now s). split; [done|]. exact Ht.
    - intros ((t & [-> Hr]%Hrec & Ht) & ?). split; [|done]. exists (with_enabled b now s). split; [done|]. exact Ht. }
  split; try done; cbn.
  - intros r [[= <-] Hr]. destruct (I1 s) as (key & ? & ? & ?); [by apply Hrec|]. by exists key.
  - intros r [= <-]. cbn. intros ->. by apply Hb.
  - intros g Hg. right. destruct (He g Hg) as (-> & ? & ? & ?). exists (with_enabled true now s).
    split; [|done]. split; [done|]. by apply Hb.
  - intros id call Hc. by eapply Hnew, I4.
  - intros r f Hk. destruct (I6 r f Hk) as (t & [-> Hr]%Hrec & Ht & Hf).
    exists (with_enabled b now s). split; [done|]. split; [exact Ht | exact Hf].
Qed.

(** ** Every segment keeps the invariant *)

Lemma wp_reads {A} (f : Process -> A) (Q : A -> Process -> Prop) E p : Q (f p) p -> wp (reads f) Q E p.
Proof. done. Qed.
Lemma wp_change f (Q : unit -> Process -> Prop) E p : Q tt (f p) -> wp (change f) Q E p.
Proof. done. Qed.
Lemma seg_wp_ret {A} (a : A) (Q : A -> Process -> Prop) E p : Q a p -> wp (mret a) Q E p.
Proof. done. Qed.
Lemma wp_throw {A} e (Q : A -> Process -> Prop) (E : Process -> Prop) p : E p -> wp (throw_seg e) Q E p.
Proof. done. Qed.

(** One statement of a segment. *)
Ltac wp :=
  lazymatch goal with
  | |- wp (mbind _ _) _ _ _ => apply seg_wp_bind
  | |- wp (reads _) _ _ _ => apply wp_reads
  | |- wp (change _) _ _ _ => apply wp_change
  | |- wp invalidateStatus _ _ _ => apply wp_change
  | |- wp (set_wallet _) _ _ _ => apply wp_change
  | |- wp (mret _) _ _ _ => apply seg_wp_ret
  | |- wp (throw_seg _) _ _ _ => apply wp_throw
  | |- wp (guard_seg _ _) _ _ _ => apply seg_wp_guard; let H := fresh "Hg" in intros H; breflect
  | |- wp get_wallet _ _ _ =>
      apply wp_get_wallet; [let H := fresh "Hw" in intros H | let r := fresh "r" in let H := fresh "Hw" in intros r H
                           | let r := fresh "r" in let H := fresh "Hw" in let V := fresh "Hv" in intros r H V]
  end.

Lemma steps_create p trace key q :
  generated_key key -> Inv p trace (core q) -> steps p trace (create privateKeyToPublic key) q.
Proof.
  intros Hk H. unfold create. repeat wp; try done.
Qed.

Lemma steps_open p trace fileSystem key q :
  call_ok p trace (core q) (creating key) -> Inv p trace (core q) ->
  steps p trace (create_open options fileSystem key) q.
Proof.
  intros Hk H. unfold create_open. repeat wp; try done. cbn in Hg0.
  assert (Hr : forall r, ~ is_recorded (core q) r).
  { intros r Hr. destruct (inv_secret _ _ _ H _ Hr) as (? & _ & _ & Hf). cbn in Hf. congruence. }
  assert (Ho : no_owner q).
  { intros id c Hc. pose proof (inv_calls _ _ _ H _ _ Hc) as Hok. destruct c; try done; cbn in Hok.
    - destruct Hok as (_ & _ & [? Hf]). congruence.
    - destruct Hok as (_ & _ & Hf). congruence. }
  split; [by apply (Inv_files _ _ (core q))|]. split; [|done]. split_and!; try done. cbn. rewrite lookup_insert_eq. by eexists.
Qed.

Lemma steps_write p trace failed key q :
  call_ok p trace (core q) (writing key) -> no_owner q -> Inv p trace (core q) ->
  steps p trace (create_write options failed key) q.
Proof.
  intros (Hk & Hr & _) Ho H. unfold create_write. repeat wp; try by apply (Inv_files _ _ (core q)).
  split; [by apply (Inv_files _ _ (core q))|]. subst failed. split; [|done]. split_and!; try done.
  cbn. by rewrite lookup_insert_eq.
Qed.

Lemma generated_wallet_of_key key now :
  is_Some (privateKeyToPublic key) ->
  let input := generated_wallet privateKeyToPublic getAddressFromPublicKey options key now in
  wallet_of_key key (upserted None input).
Proof.
  intros [pk Hk]. unfold wallet_of_key, generated_wallet; cbn. rewrite Hk; cbn.
  rewrite toLowerCase_idem. split_and!; eauto.
Qed.

(** Recording the wallet of the key in the file. *)
Lemma put_generated p trace now key q :
  call_ok p trace (core q) (registering key) -> no_owner q -> Inv p trace (core q) ->
  let input := generated_wallet privateKeyToPublic getAddressFromPublicKey options key now in
  wp (put_wallet input) (fun _ q' => Inv p trace (core q'))
    (fun q' => Inv p trace (core q') /\ (forall r, ~ is_recorded (core q') r) /\ no_owner q') q.
Proof.
  intros (Hk & Hr & Hf) Ho H input.
  assert (Hnew : Inv p trace {| c_wallet := Some (upserted None input); c_files := pr_files q;
                               c_engine := pr_engine q; c_calls := pr_calls q |}).
  { apply (Inv_recorded _ _ (core q)); try done. exists key. split; [done|]. split; [|done].
    apply generated_wallet_of_key, Hk. }
  unfold put_wallet. repeat wp; try done; try by destruct (Hr r).
  split_and!; [done | | done]. cbn in Hw0. injection Hw0 as <-. intros r' [[= <-] Hb]. congruence.
Qed.

Lemma steps_register p trace unlinked now key q :
  call_ok p trace (core q) (registering key) -> no_owner q -> Inv p trace (core q) ->
  steps p trace (create_register privateKeyToPublic getAddressFromPublicKey options unlinked now key) q.
Proof.
  intros Hc Ho H. unfold create_register. wp. pose proof (put_generated _ _ now _ _ Hc Ho H) as Hput.
  unfold wp in Hput. unfold wp at 1. destruct (put_wallet _ q) as [[r|e] q'].
  - by apply steps_status.
  - destruct Hput as (Hi & Hr & Hn). destruct unlinked; [by apply (Inv_files _ _ (core q'))|done].
Qed.

Lemma steps_enable p trace q : Inv p trace (core q) -> steps p trace (enable options) q.
Proof.
  intros H. unfold enable. repeat wp; try done. split; [done|]. split; [|done]. exists r. by split.
Qed.

Lemma steps_disable p trace q : Inv p trace (core q) -> steps p trace disable q.
Proof. intros H. unfold disable. by repeat wp. Qed.

Lemma steps_checked p trace isAdmin signerPrincipal r q :
  call_ok p trace (core q) (checking r) -> Inv p trace (core q) ->
  (refusalChecks (gw_principal r) isAdmin signerPrincipal = None -> passed p trace (gw_principal r)) ->
  steps p trace (enable_checked isAdmin signerPrincipal r) q.
Proof. intros Hc H Hp. unfold enable_checked. repeat wp; [|done]. split; [done|]. split; [|done]. split; eauto. Qed.

Lemma steps_finish p trace b balance isAdmin signerPrincipal listed q :
  Inv p trace (core q) -> steps p trace (status_finish options b balance isAdmin signerPrincipal listed) q.
Proof. intros H. unfold status_finish. by repeat wp. Qed.

Lemma steps_dismiss p trace kind now q : Inv p trace (core q) -> steps p trace (dismissBanner kind now) q.
Proof.
  intros H. unfold dismissBanner. wp. wp. wp.
  destruct kind; unfold dismissSetupBanner, dismissLowBalance, get_banners, set_banners;
    repeat wp; by apply steps_status.
Qed.

(** A loaded signer is of the wallet it was asked for. *)
Lemma activate_loads r file q :
  wp (activate privateKeyToPublic getAddressFromPublicKey options r file)
    (fun _ q' => exists e g, core q' = {| c_wallet := wt_wallet (pr_tables q); c_files := pr_files q;
                                     c_engine := Some e; c_calls := pr_calls q |} /\
       en_current e = Some g /\ sn_principal g = gw_principal r /\
       sn_publicKey g = toLowerCase (gw_publicKey r) /\ sn_network g = wo_network options)
    (fun q' => core q' = core q) q.
Proof.
  unfold activate. wp. wp. destruct (activateGasWallet _ _ _ _ _) as [e|e] eqn:Ha; repeat wp; [|done].
  unfold activateGasWallet in Ha. destruct (negb _); [done|].
  destruct (load_signer _ _ _ _ _) as [g|] eqn:Hl; [|done]. destruct (String.eqb_spec (sn_publicKey g) (toLowerCase (gw_publicKey r))) as [Hk|]; [|done].
  injection Ha as <-. unfold load_signer, fromSecretFile in Hl. apply bind_Ok in Hl as (key & _ & Hl).
  destruct (privateKeyToPublic key); [|done]. apply bind_Ok in Hl as (? & Hp%require_Ok%String.eqb_eq & [= <-]).
  eexists _, _. split; [done|]. split; [done|]. done.
Qed.

Lemma steps_setEnabled p trace b now q :
  Inv p trace {| c_wallet := with_enabled b now <$> wt_wallet (pr_tables q); c_files := pr_files q;
                 c_engine := pr_engine q; c_calls := pr_calls q |} ->
  steps p trace (_ ← setEnabled b now; status true now) q.
Proof.
  intros H. unfold setEnabled. do 5 wp. cbn. repeat wp; try done; by apply steps_status.
Qed.

Lemma steps_activated p trace file now r q :
  call_ok p trace (core q) (activating r) -> Inv p trace (core q) ->
  steps p trace (enable_activated privateKeyToPublic getAddressFromPublicKey options file now r) q.
Proof.
  intros ((s & [Hs Hv] & S1 & S2 & _) & Hp) H. unfold enable_activated. wp.
  pose proof (activate_loads r file q) as Ha. unfold wp in Ha. unfold wp at 1.
  destruct (activate _ _ _ r file q) as [[u|e] q']; [|by rewrite Ha].
  destruct Ha as (e & g & E & Hg & Gp & Gk & Gn). apply steps_setEnabled. injection E as -> -> -> ->.
  cbn in Hs. rewrite Hs. apply (Inv_switched _ _ (core q)); try done.
  - intros _. by rewrite <- S1.
  - intros g'. cbn. rewrite Hg. intros [= <-]. by rewrite <- S1, <- S2.
Qed.

Lemma Inv_off p trace c e :
  Inv p trace c -> e ≫= en_current = None ->
  Inv p trace {| c_wallet := c_wallet c; c_files := c_files c; c_engine := e; c_calls := c_calls c |}.
Proof. intros [I1 I2 I3 I4 I5 I6] He. split; try done. cbn. by rewrite He. Qed.

Lemma steps_disabled p trace now q : Inv p trace (core q) -> steps p trace (disable_done now) q.
Proof.
  intros H. unfold disable_done. do 6 wp. apply steps_setEnabled. cbn.
  assert (Hoff : (deactivateGasWallet <$> pr_engine q) ≫= en_current = None) by by destruct (pr_engine q).
  destruct (wt_wallet (pr_tables q)) as [s|] eqn:Hs; cbn.
  - apply (Inv_switched _ _ (core q)); [done|done|done|]. by rewrite Hoff.
  - rewrite <- Hs. by apply (Inv_off _ _ (core q)).
Qed.

(** ** Starting *)

Lemma Inv_restarted p trace q : Inv p trace (core q) -> Inv p trace (core (restarted boot q)).
Proof. intros [I1 I2 I3 I4 I5 I6]. split; try done. intros s Hs. by left. Qed.

Lemma Inv_startup p trace file q :
  Inv p trace (core q) ->
  Inv p trace (core (snd (startup privateKeyToPublic getAddressFromPublicKey options file q))).
Proof.
  intros H. assert (Hs : wp (startup privateKeyToPublic getAddressFromPublicKey options file)
    (fun _ q' => Inv p trace (core q')) (fun q' => Inv p trace (core q')) q).
  { unfold startup. repeat wp; try done. destruct (gw_enabled r) eqn:Hen; cbn [negb]; [|done].
    destruct (_ || _); [done|]. set (q0 := invalidated q) in *.
    pose proof (activate_loads r file q0) as Ha. unfold wp in Ha |- *.
    destruct (activate _ _ _ r file q0) as [[u|e] q']; [|by rewrite Ha].
    destruct Ha as (e & g & E & Hg & Gp & Gk & Gn). rewrite E. destruct H as [I1 I2 I3 I4 I5 I6].
    split; try done. intros g'. cbn. rewrite Hg. intros [= <-]. right. by exists r. }
  unfold wp in Hs. by destruct (startup _ _ _ _ q) as [[]].
Qed.

(** ** Every history *)

Lemma Inv_handle p earlier e :
  (forall id key, e = ev_create id key -> generated_key key) ->
  Inv p earlier (core (after_events earlier p)) ->
  Inv p (e :: earlier) (core (after_events (e :: earlier) p)).
Proof.
  intros Hkey H. pose proof (Inv_later _ _ e _ H) as Hl. cbn [GasWallet.after_events].
  set (q := after_events earlier p) in *.
  destruct e; cbn [GasWallet.handle].
  all: try (apply Inv_begin; [intros Hi | intros o q' E; eapply keeps_of; [|exact E] | done]).
  all: try (apply Inv_resume; [intros call m Hc Hn Hok Hi | intros call m o q' Hn E; eapply (keeps_of m (without id q)); [|exact E] | done];
            destruct call; try done; injection Hn as <-).
  - by eapply steps_create, Hi; eapply Hkey.
  - unfold create, invalidateStatus. keeps.
  - by apply steps_enable.
  - unfold enable, invalidateStatus. keeps.
  - by apply steps_disable.
  - unfold disable, invalidateStatus. keeps.
  - by apply steps_dismiss.
  - unfold dismissBanner, invalidateStatus, dismissSetupBanner, dismissLowBalance, get_banners, set_banners.
    keeps; apply keeps_status.
  - by apply steps_status.
  - apply keeps_status.
  - done.
  - by apply steps_open.
  - unfold create_open. keeps.
  - apply steps_write; [done| |done]. by eapply without_owner.
  - unfold create_write. keeps.
  - apply steps_register; [done| |done]. by eapply without_owner.
  - unfold create_register. apply keeps_bind; [|intros; apply keeps_status]. intros r.
    pose proof (keeps_put (generated_wallet privateKeyToPublic getAddressFromPublicKey options key now) r) as Hp.
    destruct (put_wallet _ r) as [[]]; [done|]. by destruct unlinked.
  - apply steps_checked; [done|done|]. intros Hpass.
    by exists [], earlier, id, isAdmin, signerPrincipal, stored.
  - unfold enable_checked. keeps.
  - by apply steps_activated.
  - unfold enable_activated. apply keeps_bind; [apply keeps_activate|intros].
    apply keeps_bind; [apply keeps_setEnabled|intros; apply keeps_status].
  - by apply steps_disabled.
  - unfold disable_done. keeps.
  - by apply steps_finish.
  - unfold status_finish. keeps.
  - by apply Inv_startup, Inv_restarted.
Qed.

End Life.

(** ** Guarantees *)

Section Guarantees.

Context (privateKeyToPublic : list Z -> option string)
        (getAddressFromPublicKey : string -> Network -> string)
        (options : WalletOptions) (boot : option Engine).

Abbreviation after_events := (after_events privateKeyToPublic getAddressFromPublicKey options boot).
Abbreviation Inv := (Inv privateKeyToPublic getAddressFromPublicKey options boot).
Abbreviation passed := (passed privateKeyToPublic getAddressFromPublicKey options boot).
Abbreviation nothing_kept := (fun (_ : StoredGasWallet) (_ : option (list Z)) => False).

Lemma Inv_installed files : Inv nothing_kept (installed boot files) [] (core (installed boot files)).
Proof.
  split; try done.
  - by intros r [? _].
  - intros s Hs. by left.
Qed.

Lemma Inv_after kept p earlier later :
  keys_generated (later ++ earlier) -> Inv kept p earlier (core (after_events earlier p)) ->
  Inv kept p (later ++ earlier) (core (after_events (later ++ earlier) p)).
Proof.
  intros Hk H. induction later as [|e later IH]; [done|]. cbn [app].
  apply Inv_handle.
  - intros id key ->. apply (Hk id). by left.
  - apply IH. intros id key Hin. apply (Hk id). by right.
Qed.

Lemma Inv_reachable trace files :
  keys_generated trace ->
  Inv nothing_kept (installed boot files) trace (core (after_events trace (installed boot files))).
Proof.
  intros Hk. rewrite <- (app_nil_r trace) in *. apply Inv_after; [done|]. apply Inv_installed.
Qed.

(** A regular file of 67 bytes that only its owner can read, and that stays still while it is read. *)
Definition private_file (uid : option Z) (file : SecretFile) : bool :=
  match sf_lstat file with
  | None => false
  | Some path =>
      let stat := sf_stat file in
      let later := sf_after file in
      negb (fs_isSymbolicLink path) && fs_isFile path && sf_open file && fs_isFile stat &&
      ((fs_dev stat =? fs_dev path) && (fs_ino stat =? fs_ino path)) && secure_mode (fs_mode stat) &&
      match uid with None => true | Some uid => fs_uid stat =? uid end && (fs_size stat =? 67) &&
      ((fs_size later =? fs_size stat) && (fs_mtimeMs later =? fs_mtimeMs stat) &&
       (fs_ctimeMs later =? fs_ctimeMs stat))
  end.

Lemma loadPrivateKey_private o file :
  sig_absolutePath o = true -> private_file (sig_uid o) file = true ->
  loadPrivateKey o file = decodeRawPrivateKey (sf_content file).
Proof.
  unfold private_file, loadPrivateKey. intros -> H. destruct (sf_lstat file) as [path|]; [|done].
  apply andb_true_iff in H as [H H9]. apply andb_true_iff in H as [H H8%Z.eqb_eq].
  do 6 (let Hx := fresh "P" in apply andb_true_iff in H as [H Hx]).
  rewrite H9, H8, H, P, P0, P1, P2, P3, P4. done.
Qed.

(** A recorded wallet is never lost to the program that made it: after any history of calls,
    failures, stops and restarts, the file beside the database holds the key of the recorded
    wallet, so a private file that answers as written always loads, and the engine then signs
    with exactly the recorded principal and public key. *)
Theorem recorded_wallet_loads trace files r file :
  keys_generated trace ->
  let p := after_events trace (installed boot files) in
  wt_wallet (pr_tables p) = Some r -> rowSchema r = true ->
  wo_operatorRun options = true -> wo_isAbsolute options (gw_secretFilePath r) = true ->
  private_file (wo_uid options) file = true ->
  exists e g, activateGasWallet privateKeyToPublic getAddressFromPublicKey options r
                (answered p (gw_secretFilePath r) file) = Ok e /\
    en_current e = Some g /\ sn_principal g = gw_principal r /\ sn_publicKey g = gw_publicKey r /\
    generated_key (sn_privateKey g) /\ sn_destroyed g = false.
Proof.
  intros Hk p Hr Hv Hop Habs Hf.
  destruct (inv_secret _ _ _ _ _ _ _ _ (Inv_reachable trace files Hk) r (conj Hr Hv))
    as (key & [Hg _] & ((pk & Hpk & Hpub) & Hprin & Hpath) & Hfile).
  cbn in Hfile. fold p in Hfile. unfold activateGasWallet, load_signer, fromSecretFile. rewrite Hop. cbn [negb].
  rewrite loadPrivateKey_private; [|done|].
  - assert (sf_content (answered p (gw_secretFilePath r) file) = key_text key ++ [10]) as ->.
    { cbn. by rewrite Hpath, Hfile. }
    rewrite (generated_key_decodes _ Hg). cbn [mbind result_bind sig_network sig_expectedPrincipal].
    rewrite Hpk, <- Hpub, <- Hprin, String.eqb_refl.
    cbn [require mbind result_bind sn_publicKey]. assert (toLowerCase (gw_publicKey r) = gw_publicKey r) as ->.
    { rewrite Hpub. apply toLowerCase_idem. }
    rewrite String.eqb_refl. by eexists _, _.
  - unfold private_file in *. cbn. rewrite Hpath, Hfile. exact Hf.
Qed.

(** C30. Nothing signs with an unchecked key: whatever signer the engine holds, after any history, is
    the one the environment configured at start, or it is of the recorded wallet, which is then
    switched on, and whose refusal checks were answered and passed in a call that enabled it: it
    was no manager admin, not the pool's signer key and not a contract. *)
Theorem loaded_signer_is_checked trace files e g :
  keys_generated trace ->
  let p := after_events trace (installed boot files) in
  pr_engine p = Some e -> en_current e = Some g ->
  configured_signer boot g \/
  exists r, wt_wallet (pr_tables p) = Some r /\ gw_enabled r = true /\ sn_principal g = gw_principal r /\
    sn_publicKey g = toLowerCase (gw_publicKey r) /\ passed (installed boot files) trace (gw_principal r).
Proof.
  intros Hk p He Hg. pose proof (Inv_reachable trace files Hk) as H.
  destruct (inv_signer _ _ _ _ _ _ _ _ H g) as [?|(r & [Hr Hv] & Hen & Hp & Hpk & _)].
  - cbn. fold p. by rewrite He.
  - by left.
  - right. exists r. split_and!; try done. by apply (inv_enabled _ _ _ _ _ _ _ _ H).
Qed.

(** Once recorded, a wallet stays: whatever is called, fails or stops later, the same principal,
    public key and path are recorded, and the content of its key file is never written over. *)
Theorem recorded_wallet_is_kept trace later files r :
  keys_generated (later ++ trace) ->
  let p := after_events trace (installed boot files) in
  let q := after_events (later ++ trace) (installed boot files) in
  wt_wallet (pr_tables p) = Some r -> rowSchema r = true ->
  exists s, wt_wallet (pr_tables q) = Some s /\ same_wallet s r /\
    pr_files q !! wo_secretFilePath options = pr_files p !! wo_secretFilePath options.
Proof.
  intros Hk p q Hr Hv.
  assert (Hp : Inv nothing_kept (installed boot files) trace (core p)).
  { apply Inv_reachable. intros id key Hin. apply (Hk id). apply elem_of_app. by right. }
  set (kept := fun r' f => r' = r /\ f = pr_files p !! wo_secretFilePath options).
  assert (H : Inv kept (installed boot files) (later ++ trace) (core q)).
  { apply Inv_after; [done|]. destruct Hp as [I1 I2 I3 I4 I5 _]. split; try done.
    intros r' f [-> ->]. by exists r. }
  destruct (inv_kept _ _ _ _ _ _ _ _ H r _ (conj eq_refl eq_refl)) as (s & [Hs _] & Hsame & Hf). by exists s.
Qed.

End Guarantees.

(** ** A concrete life *)

Module ConcreteWallet.

Definition publicKey_text : string := ("02" ++ String.concat "" (repeat "ab" 32))%string.
Definition privateKeyToPublic (key : list Z) : option string :=
  if bool_decide (List.length key = 33%nat) then Some publicKey_text else None.
Definition getAddressFromPublicKey (publicKey : string) (network : Network) : string := "ST1GAS"%string.
Definition options : WalletOptions :=
  {| wo_operatorRun := true; wo_network := testnet; wo_secretFilePath := "/data/gas-wallet.key"%string;
     wo_maximumFeeUstx := 10000; wo_isAbsolute := fun _ => true; wo_uid := Some 1000 |}.
Definition boot : option Engine := Some {| en_current := None; en_identity := None |}.
Definition key : list Z := repeat 7 32 ++ [1].

Definition stat : FileStat :=
  {| fs_isSymbolicLink := false; fs_isFile := true; fs_dev := 1; fs_ino := 2; fs_mode := 33152;
     fs_uid := 1000; fs_size := 67; fs_mtimeMs := 0; fs_ctimeMs := 0 |}.
Definition file : SecretFile :=
  {| sf_lstat := Some stat; sf_open := true; sf_stat := stat; sf_content := []; sf_after := stat |}.

(** Creating the wallet, and the status that follows; the last event first. *)
Definition created : list Event :=
  [ev_observed 0 (Some 5000000) (Some false) (Some None) true; ev_registered 0 true 1000;
   ev_written 0 None; ev_opened 0 true; ev_create 0 key].

(** Switching it on while the dashboard asks for the status. *)
Definition enabled : list Event :=
  [ev_observed 1 (Some 5000000) (Some false) (Some None) true; ev_activated 1 file 2100;
   ev_checked 1 (Some false) (Some None); ev_status 2 false 2000; ev_enable 1].

Definition run (trace : list Event) : Process :=
  after_events privateKeyToPublic getAddressFromPublicKey options boot trace (installed boot ∅).

Lemma key_is_generated : generated_key key.
Proof. exists (repeat 7 32). split_and!; [done|done|]. by repeat constructor. Qed.

Lemma generated_in trace :
  Forall (fun e => match e with ev_create _ k => k = key | _ => True end) trace -> keys_generated trace.
Proof.
  intros H id k Hin. rewrite Forall_forall in H. rewrite (H _ Hin). exact key_is_generated.
Qed.

Definition wallet_of (p : Process) : StoredGasWallet :=
  default {| gw_principal := ""; gw_publicKey := ""; gw_secretFilePath := ""; gw_source := configured;
             gw_createdAt := 0; gw_enabled := false; gw_enabledAt := None; gw_updatedAt := 0 |}%string
    (wt_wallet (pr_tables p)).

Lemma recorded_wallet_loads_witness :
  exists e g, activateGasWallet privateKeyToPublic getAddressFromPublicKey options (wallet_of (run created))
                (answered (run created) (gw_secretFilePath (wallet_of (run created))) file) = Ok e /\
    en_current e = Some g /\ sn_principal g = "ST1GAS"%string.
Proof.
  destruct (recorded_wallet_loads privateKeyToPublic getAddressFromPublicKey options boot created ∅
              (wallet_of (run created)) file) as (e & g & H1 & H2 & H3 & _).
  - apply generated_in. by repeat constructor.
  - vm_compute; reflexivity.
  - vm_compute; reflexivity.
  - reflexivity.
  - reflexivity.
  - vm_compute; reflexivity.
  - exists e, g. split; [exact H1|]. split; [exact H2|]. rewrite H3. vm_compute; reflexivity.
Defined.

Definition engine_of (p : Process) : Engine :=
  default {| en_current := None; en_identity := None |} (pr_engine p).
Definition signer_of (p : Process) : Signer :=
  default {| sn_privateKey := []; sn_principal := ""; sn_publicKey := ""; sn_network := testnet;
             sn_destroyed := true |}%string (en_current (engine_of p)).

Lemma loaded_signer_is_checked_witness :
  exists r, wt_wallet (pr_tables (run (enabled ++ created))) = Some r /\ gw_enabled r = true /\
    sn_principal (signer_of (run (enabled ++ created))) = gw_principal r.
Proof.
  destruct (loaded_signer_is_checked privateKeyToPublic getAddressFromPublicKey options boot
              (enabled ++ created) ∅ (engine_of (run (enabled ++ created)))
              (signer_of (run (enabled ++ created)))) as [H|(r & H1 & H2 & H3 & _)].
  - apply generated_in. by repeat constructor.
  - vm_compute; reflexivity.
  - vm_compute; reflexivity.
  - by discriminate H.
  - exists r. split; [exact H1|]. split; [exact H2|exact H3].
Defined.

Lemma recorded_wallet_is_kept_witness :
  exists s, wt_wallet (pr_tables (run ((ev_restart file :: enabled) ++ created))) = Some s /\
    same_wallet s (wallet_of (run created)).
Proof.
  destruct (recorded_wallet_is_kept privateKeyToPublic getAddressFromPublicKey options boot
              created (ev_restart file :: enabled) ∅ (wallet_of (run created))) as (s & H1 & H2 & _).
  - apply generated_in. by repeat constructor.
  - vm_compute; reflexivity.
  - vm_compute; reflexivity.
  - exists s. split; [exact H1|exact H2].
Defined.

(** What the database says, what the engine holds, and what the cached status says. *)
Definition shown (p : Process) : bool * bool * option bool :=
  (gw_enabled (wallet_of p), gasWalletSignerReady (engine_of p), st_enabled ∘ snd <$> pr_statusCache p).

Example status_after_enabling : shown (run (enabled ++ created)) = (true, true, Some true).
Proof. vm_compute. reflexivity. Qed.

(** The revision of the status is raised when a change begins, not when it is made: a status that
    was asked for in between was read before the change, and still replaces the newer one in the
    cache.  It then answers for [STATUS_CACHE_MS], and says the enabled wallet is disabled. *)
Theorem stale_status_survives :
  let p := run (ev_observed 2 (Some 5000000) (Some false) (Some None) true :: enabled ++ created) in
  shown p = (true, true, Some false) /\
  pr_calls (handle privateKeyToPublic getAddressFromPublicKey options boot (ev_status 3 false 31999) p) = pr_calls p.
Proof. vm_compute. split; reflexivity. Qed.

End ConcreteWallet.
