(* ===== verification/ScheduleCorrect.v ===== *)
(** * What the schedule may do

    A small logic of the schedule's computations, an invariant of its row under every commit, and
    the guarantees: it approves only what it prepared itself under the operator's current
    consent, it starts work only under the settings it looked for work with, once halted it does
    nothing until it is switched on again, and switching it on drops no run that may still act. *)

From S2P Require Import Prelude Text CanonicalJson Principals OperationPlan Recipe RunStore SweepStore RunService GasWallet RewardActions Schedule.

Open Scope Z_scope.

(** ** A logic of computations *)

(** From [w] every commit satisfies [J], and a normal end satisfies [Q]. *)
Definition swp {A} (J : World -> Prop) (m : sched A) (Q : A -> World -> Prop) (w : World) : Prop :=
  let out := m w in
  (forall w', w' ∈ snd out -> J w') /\
  match fst out with Ok a => Q a (world_after w (snd out)) | Err _ => True end.

Lemma world_after_app w l k : world_after w (k ++ l) = world_after (world_after w l) k.
Proof. by destruct k. Qed.

Lemma world_after_Forall (J : World -> Prop) w l : J w -> (forall w', w' ∈ l -> J w') -> J (world_after w l).
Proof. intros Hw Hl. destruct l as [|x l]; [done|]. apply Hl. by left. Qed.

Section Logic.

Context (J : World -> Prop).

Lemma swp_bind {A B} (m : sched A) (k : A -> sched B) Q w :
  swp J m (fun a => swp J (k a) Q) w -> swp J (m ≫= k) Q w.
Proof.
  unfold swp, mbind, sched_bind. destruct (m w) as [[a|e] l]; cbn; [|done].
  intros (Hl & Hk & Hq). destruct (k a (world_after w l)) as [r l'] eqn:E; cbn in *.
  split; [|by rewrite world_after_app].
  intros w' [H|H]%elem_of_app; [by apply Hk | by apply Hl].
Qed.

Lemma swp_ret {A} (a : A) (Q : A -> World -> Prop) w : Q a w -> swp J (mret a) Q w.
Proof. intros H. split; [by intros ? ?%elem_of_nil | done]. Qed.

Lemma swp_throw {A} e (Q : A -> World -> Prop) w : swp J (sched_throw e) Q w.
Proof. split; [by intros ? ?%elem_of_nil | done]. Qed.

Lemma swp_reads {A} (f : World -> A) (Q : A -> World -> Prop) w : Q (f w) w -> swp J (sched_reads f) Q w.
Proof. intros H. split; [by intros ? ?%elem_of_nil | done]. Qed.

Lemma swp_guard b e (Q : unit -> World -> Prop) w : (b = true -> Q tt w) -> swp J (sched_guard b e) Q w.
Proof. destruct b; intros H; [by apply swp_ret, H | apply swp_throw]. Qed.

Lemma swp_write f (Q : unit -> World -> Prop) w : J (f w) -> Q tt (f w) -> swp J (sched_write f) Q w.
Proof. intros Hj Hq. split; [|done]. by intros w' ->%list_elem_of_singleton. Qed.

Lemma swp_mono {A} (m : sched A) (Q Q' : A -> World -> Prop) w :
  swp J m Q w -> (forall a w', Q a w' -> Q' a w') -> swp J m Q' w.
Proof. intros [Hj Hq] H. split; [done|]. destruct (fst (m w)); [by apply H | done]. Qed.

End Logic.

(** ** What a tick changes of the row *)

Definition put_schedule (s : ScheduleState) (w : World) : World :=
  {| w_runs := w_runs w; w_schedule := Some s; w_requests := w_requests w |}.

(** A tick never starts anything here: it keeps or drops the request, stays as it is or halts, and
    does not touch identity and settings. *)
Definition tame (s s' : ScheduleState) : Prop :=
  (ss_request s' = ss_request s \/ ss_request s' = None) /\
  (ss_enabled s' = ss_enabled s /\ ss_stopped s' = ss_stopped s /\ ss_revision s' = ss_revision s \/
   ss_enabled s' = false /\ ss_stopped s' = true) /\
  ss_identity s' = ss_identity s.

#[export] Instance tame_refl : Reflexive tame.
Proof. intros s. split_and!; [by left | by left | done]. Qed.

Lemma tame_no_request s : tame s (no_request s). Proof. split_and!; [by right | by left | done]. Qed.
Lemma tame_state state detail next s : tame s (with_state state detail next s).
Proof. split_and!; [by left | by left | done]. Qed.
Lemma tame_beforeCycle before s : tame s (with_beforeCycle before s).
Proof. split_and!; [by left | by left | done]. Qed.
Lemma tame_lastCheckAt now s : tame s (with_lastCheckAt now s).
Proof. split_and!; [by left | by left | done]. Qed.
Lemma tame_runId runId s : tame s (with_runId runId s).
Proof. split_and!; [by left | by left | done]. Qed.
Lemma tame_halted detail s : tame s (halted_schedule detail s).
Proof. split_and!; [by left | by right | done]. Qed.

Lemma tame_finished state detail next s : tame s (with_beforeCycle None (with_state state detail next s)).
Proof. split_and!; [by left | by left | done]. Qed.

#[export] Hint Resolve tame_no_request tame_state tame_beforeCycle tame_lastCheckAt tame_runId tame_halted
  tame_finished : sidekick.

(** What holds whatever the runs do and whatever a tick does to the row. *)
Class Tame (J : World -> Prop) : Prop :=
  tame_world w w' : J w -> tame (schedule_of w) (schedule_of w') -> w_requests w' = w_requests w -> J w'.

Section Ticks.

Context (isUuid : string -> bool) (sha256 : list Z -> string) (localeCompare : string -> string -> Z)
        (message : ScheduleError -> string).
Context (J : World -> Prop) `{HJ : Tame J}.

Lemma swp_update f (Q : unit -> World -> Prop) w :
  J w -> tame (schedule_of w) (f (schedule_of w)) ->
  (stateSchema isUuid (f (schedule_of w)) = true -> Q tt (put_schedule (f (schedule_of w)) w)) ->
  swp J (update_schedule isUuid f) Q w.
Proof.
  intros Hw Hf Hq. unfold update_schedule, get_schedule. apply swp_bind, swp_reads. apply swp_bind, swp_guard.
  intros Hs. apply swp_write; [by eapply tame_world | by apply Hq].
Qed.

Lemma service_get_reads id d :
  exists r, service_get sha256 localeCompare id d = (r, []) /\
    forall run, r = Ok run -> runs d !! id = Some run /\ sealedRun sha256 localeCompare id run = true.
Proof.
  unfold service_get, get, mbind, repo_bind, gets, mret, repo_ret. cbn.
  destruct (runs d !! id) as [run|]; cbn; [|by eexists].
  unfold guard_repo. destruct (bool_decide _); cbn; [|by eexists].
  unfold assertSealedRun, guard, guard_repo. destruct (sealedRun _ _ _ run) eqn:Hs; cbn; [|by eexists].
  eexists. split; [done|]. by intros ? [= <-].
Qed.

Lemma swp_service_get id (Q : Run -> World -> Prop) w :
  J w -> (forall run, runs (w_runs w) !! id = Some run -> sealedRun sha256 localeCompare id run = true -> Q run w) ->
  swp J (call_run (service_get sha256 localeCompare id)) Q w.
Proof.
  intros Hw Hq. unfold call_run. apply swp_bind. unfold swp, attempt.
  destruct (service_get_reads id (w_runs w)) as (r & E & Hr). rewrite E. cbn.
  split; [by intros ? ?%elem_of_nil|]. destruct r as [run|e]; [|apply swp_throw].
  destruct (Hr run eq_refl). apply swp_ret. by apply Hq.
Qed.

Lemma swp_attempt {A} (m : repo A) (Q : result RunError A -> World -> Prop) w :
  J w -> (forall r d, Q r (with_runs d w)) -> swp J (attempt m) Q w.
Proof.
  intros Hw Hq. unfold swp, attempt. specialize (Hq (fst (m (w_runs w)))).
  destruct (m (w_runs w)) as [r l]; cbn in *. split.
  - intros w' (d & -> & _)%list_elem_of_fmap. by eapply tame_world.
  - destruct l as [|d l]; cbn; [|apply Hq]. specialize (Hq (w_runs w)). by destruct w.
Qed.

(** *** The methods *)

Lemma swp_clear (Q : unit -> World -> Prop) w :
  J w -> Q tt (put_schedule (no_request (schedule_of w)) w) -> swp J (clear isUuid) Q w.
Proof. intros. unfold clear. apply swp_update; auto with sidekick. Qed.

Lemma swp_halt detail (Q : unit -> World -> Prop) w :
  J w -> Q tt (put_schedule (halted_schedule detail (schedule_of w)) w) -> swp J (halt isUuid detail) Q w.
Proof. intros. unfold halt. apply swp_update; auto with sidekick. Qed.

Lemma swp_wait env detail (Q : unit -> World -> Prop) w :
  J w -> (forall w', w_runs w' = w_runs w -> tame (schedule_of w) (schedule_of w') -> Q tt w') ->
  swp J (wait isUuid env detail) Q w.
Proof.
  intros Hw Hq. unfold wait, get_schedule. apply swp_bind, swp_reads. destruct (negb _); [by apply swp_ret, Hq|].
  apply swp_update; auto with sidekick. intros _. apply Hq; [done|]. cbn. auto with sidekick.
Qed.

(** The schedule may approve: it is switched on for this deployment, nothing forbids it, and the
    run is the sealed recipe, still waiting for approval, of its own request. *)
Definition consent (env : ScheduleEnv) (w : World) (runId recipeSha256 : string) : Prop :=
  let s := schedule_of w in
  ss_enabled s = true /\ ss_identity s = se_identity env /\ se_unavailable env = None /\
  e_closed (se_run env) = false /\
  (exists request, ss_request s = Some request /\ pr_requestId request = Some runId) /\
  exists run, runs (w_runs w) !! runId = Some run /\ sealedRun sha256 localeCompare runId run = true /\
    ru_status run = awaiting_approval /\ ru_recipeSha256 run = recipeSha256.

(** How a segment may leave a tick. *)
Definition allowed (env : ScheduleEnv) (next : Next) (w : World) : Prop :=
  match next with
  | tick_over => True
  | to_select _ revision => ss_enabled (schedule_of w) = true /\ ss_revision (schedule_of w) = revision
  | to_approve runId sha => consent env w runId sha
  end.

Ltac over := apply swp_ret; exact I.

Lemma swp_follow_run env s runId w request :
  J w -> ss_request (schedule_of w) = Some request -> pr_requestId request = Some runId ->
  swp J (follow_run isUuid sha256 localeCompare env s runId) (allowed env) w.
Proof.
  intros Hw Hr Hi. unfold follow_run, get_schedule. apply swp_bind, swp_service_get; [done|].
  intros run Hrun Hsealed. apply swp_bind, swp_update; [done | auto with sidekick | intros _].
  set (w1 := put_schedule _ w). assert (H1 : J w1) by (eapply tame_world; [done | apply tame_runId | done]).
  destruct (bool_decide (ru_status run ∈ _)); [apply swp_bind, swp_halt; [done | over]|].
  destruct (bool_decide (ru_status run = completed)).
  { apply swp_bind, swp_clear; [done|]. apply swp_bind, swp_reads. apply swp_bind, swp_update; [|auto with sidekick|intros _; over].
    eapply tame_world; [done | apply tame_no_request | done]. }
  destruct (bool_decide (ru_status run = awaiting_approval)) eqn:Ha.
  - apply bool_decide_eq_true in Ha. apply swp_bind, swp_reads. destruct (negb (ss_enabled _) || _) eqn:Hen.
    + apply swp_bind. destruct (e_closed _); [apply swp_ret; over|]. apply swp_bind. unfold call_run.
      apply swp_bind, swp_attempt; [done|]. intros [r|e] d; [apply swp_ret | apply swp_throw].
      apply swp_clear; [by eapply tame_world | over].
    + breflect. destruct (negb (bool_decide _)) eqn:Hid; [apply swp_bind, swp_halt; [done | over]|].
      destruct (se_unavailable env) eqn:Hu.
      { apply swp_bind, swp_wait; [done|]. intros; over. }
      breflect. apply swp_ret. unfold allowed, consent. split_and!; try done; eauto.
  - destruct (ss_enabled s); apply swp_bind; [apply swp_update; auto with sidekick; intros _; over | apply swp_ret; over].
Qed.

Lemma swp_follow_preparation env s requestId preparationId preparation w request :
  J w -> ss_request (schedule_of w) = Some request -> pr_requestId request = Some requestId ->
  swp J (follow_preparation isUuid sha256 localeCompare env s requestId preparationId preparation) (allowed env) w.
Proof.
  intros Hw Hr Hi. unfold follow_preparation. destruct (negb _).
  { apply swp_bind, swp_clear; [done|]. apply swp_bind, swp_wait; [|intros; over].
    eapply tame_world; [done | apply tame_no_request | done]. }
  destruct (bool_decide _).
  - destruct (p_failureCode preparation) as [code|]; [|apply swp_bind, swp_halt; [done | over]].
    apply swp_bind, swp_clear; [done|]. set (w1 := put_schedule _ w).
    assert (H1 : J w1) by (eapply tame_world; [done | apply tame_no_request | done]).
    apply swp_bind, swp_update; [done | auto with sidekick | intros _].
    apply swp_bind, swp_wait; [|intros; over]. eapply tame_world; [exact H1 | apply tame_beforeCycle | done].
  - destruct (p_runId preparation) as [runId|]; [|over]. apply swp_bind, swp_guard.
    intros ->%String.eqb_eq. by eapply swp_follow_run.
Qed.

Lemma swp_follow env w : J w -> swp J (follow isUuid sha256 localeCompare env) (allowed env) w.
Proof.
  intros Hw. unfold follow, get_schedule. apply swp_bind, swp_reads.
  destruct (ss_request (schedule_of w)) as [request|] eqn:Hr; cbn; [|apply swp_throw].
  destruct (pr_requestId request) as [requestId|] eqn:Hi; cbn; [|apply swp_throw].
  apply swp_bind, swp_reads. destruct (preparations (w_runs w) !! requestId) as [p|]; [by eapply swp_follow_preparation|].
  destruct (negb _); [apply swp_bind, swp_clear; [done | over]|].
  apply swp_bind, swp_attempt; [done|]. intros r d. assert (Hd : J (with_runs d w)) by by eapply tame_world.
  destruct r as [[preparationId p]|e]; [by eapply swp_follow_preparation|].
  destruct (bool_decide _); [|apply swp_throw]. apply swp_bind, swp_wait; [done | intros; over].
Qed.

Lemma swp_follow_approved env runId approval w :
  J w -> swp J (follow_approved isUuid sha256 localeCompare env runId approval) (allowed env) w.
Proof.
  intros Hw. unfold follow_approved, get_schedule. destruct approval as [u|e].
  - apply swp_bind, swp_reads, swp_bind. destruct (ss_enabled _); [|apply swp_ret; over].
    apply swp_update; auto with sidekick. intros _; over.
  - destruct (negb _); [apply swp_throw|]. apply swp_bind, swp_service_get; [done|]. intros run _ _.
    destruct (negb _); [apply swp_throw|]. apply swp_bind, swp_wait; [done | intros; over].
Qed.

Lemma swp_check env w : J w -> swp J (check isUuid sha256 localeCompare env) (allowed env) w.
Proof.
  intros Hw. unfold check, get_schedule. apply swp_bind, swp_reads. destruct (ss_stopped _); [over|].
  destruct (_ && _); [apply swp_bind, swp_halt; [done | over]|].
  destruct (ss_request (schedule_of w)); [destruct (_ && _); [over | by apply swp_follow]|].
  destruct (_ || _) eqn:Hen; [over|]. breflect. apply swp_bind, swp_update; [done | auto with sidekick | intros _].
  set (w1 := put_schedule _ w). assert (H1 : J w1) by (eapply tame_world; [done | apply tame_lastCheckAt | done]).
  destruct (se_unavailable env); [apply swp_bind, swp_wait; [done | intros; over]|].
  destruct (se_walletBusy env); [apply swp_bind, swp_wait; [done | intros; over]|]. by apply swp_ret.
Qed.

Lemma swp_tick_catch env e w : J w -> swp J (tick_catch isUuid message env e) (fun _ _ => True) w.
Proof.
  intros Hw. unfold tick_catch, get_schedule. apply swp_bind, swp_reads.
  destruct (bool_decide _); [by apply swp_halt | by apply swp_wait].
Qed.

End Ticks.

(** ** The invariant of the row *)

(** A stopped schedule is off, one that is on has an identity, and a request is one that was tracked
    under its ID before it was stored. *)
Record schedule_inv (w : World) : Prop := {
  si_stopped : ss_stopped (schedule_of w) = true -> ss_enabled (schedule_of w) = false;
  si_identity : ss_enabled (schedule_of w) = true -> is_Some (ss_identity (schedule_of w));
  si_request request : ss_request (schedule_of w) = Some request ->
    exists id, pr_requestId request = Some id /\ is_Some (w_requests w !! id);
}.

#[export] Instance schedule_inv_tame : Tame schedule_inv.
Proof.
  intros w w' [I1 I2 I3] (Hr & He & Hi) Hq. split.
  - destruct He as [(-> & -> & _)|[-> _]]; auto.
  - rewrite Hi. destruct He as [(-> & _)|[-> _]]; [auto | done].
  - rewrite Hq. destruct Hr as [->| ->]; [auto | done].
Qed.

(** The request is the one there was, or gone. *)
Definition same_request (r : option PrepareRequest) (w : World) : Prop :=
  ss_request (schedule_of w) = r \/ ss_request (schedule_of w) = None.

#[export] Instance same_request_tame r : Tame (same_request r).
Proof. intros w w' H (Hr & _) _. unfold same_request in *. destruct Hr as [->| ->]; [done | by right]. Qed.

Section Guarantees.

Context (isUuid : string -> bool) (sha256 : list Z -> string) (localeCompare : string -> string -> Z)
        (message : ScheduleError -> string).

Abbreviation tick_segment := (tick_segment isUuid message).
Abbreviation check := (check isUuid sha256 localeCompare).
Abbreviation resumed_tick := (resumed_tick isUuid sha256 localeCompare).
Abbreviation check_selected := (check_selected isUuid sha256 localeCompare).
Abbreviation consent := (consent sha256 localeCompare).
Abbreviation allowed := (allowed sha256 localeCompare).
Abbreviation schedule_reachable := (schedule_reachable isUuid sha256 localeCompare message).

Lemma swp_tick_segment J `{Tame J} env m w :
  J w -> swp J m (allowed env) w -> swp J (tick_segment env m) (allowed env) w.
Proof.
  intros Hw Hm. unfold swp, Schedule.tick_segment in *. destruct (m w) as [[next|e] l]; cbn in *; [done|].
  destruct Hm as [Hl _]. pose proof (world_after_Forall J w l Hw Hl) as Ha.
  destruct (swp_tick_catch isUuid message J env e (world_after w l) Ha) as [Hc _].
  destruct (tick_catch _ _ env e _) as [[u|e'] l']; cbn in *; split; try done;
    intros w' [Hi|Hi]%elem_of_app; first [by apply Hc | by apply Hl].
Qed.

(** Discovery turns into work only under the settings it began with. *)
Definition still_current (env : ScheduleEnv) (revision : Z) (w : World) : Prop :=
  ss_enabled (schedule_of w) = true /\ ss_revision (schedule_of w) = revision /\
  ss_identity (schedule_of w) = se_identity env /\ e_closed (se_run env) = false.

Lemma check_selected_cases J `{Tame J} env uuid revision selected w :
  J w ->
  (forall request w', still_current env revision w -> J w' -> tame (schedule_of w) (schedule_of w') ->
     let w2 := tracked uuid (se_now env) w' in
     J w2 /\ J (put_schedule (with_request
       {| pr_requestId := Some uuid; pr_cycle := pr_cycle request; pr_distribution := pr_distribution request;
          pr_operations := pr_operations request; pr_maxTransactions := pr_maxTransactions request |}
       (schedule_of w2)) w2)) ->
  swp J (check_selected env uuid revision selected) (allowed env) w.
Proof.
  intros Hw Hnew. unfold Schedule.check_selected, get_schedule. apply swp_bind, swp_reads.
  destruct (_ || _) eqn:Hc; [by apply swp_ret|]. breflect.
  destruct (negb (bool_decide _)) eqn:Hid; [apply swp_bind, swp_halt; [done|done|by apply swp_ret]|]. breflect.
  apply swp_bind, swp_update; [done|done|auto with sidekick|intros _].
  set (w1 := put_schedule _ w).
  assert (Hw1 : J w1) by (eapply tame_world; [exact Hw | apply tame_beforeCycle | done]).
  destruct (fst selected) as [request|] eqn:Hs; [|apply swp_bind, swp_wait; [done|done|intros; by apply swp_ret]].
  destruct (Hnew request w1) as [Hw2 Hw3]; [done | done | cbn; auto with sidekick |].
  apply swp_bind. unfold track. apply swp_write; [exact Hw2|].
  apply swp_bind. unfold update_schedule, get_schedule. apply swp_bind, swp_reads. apply swp_bind, swp_guard.
  intros _. apply swp_write; [exact Hw3|]. by apply swp_follow.
Qed.

(** ** The settings *)

(** The run that stands for the request, and that its preparation is over. *)
Definition previous (current : ScheduleState) (w : World) : option string :=
  match ss_runId current, ss_preparationId current with
  | Some runId, _ => Some runId
  | None, Some preparationId => preparations (w_runs w) !! preparationId ≫= p_runId
  | None, None => None
  end.

Definition preparation_over (current : ScheduleState) (w : World) : Prop :=
  forall id p, ss_runId current = None -> ss_preparationId current = Some id ->
    preparations (w_runs w) !! id = Some p -> p_status p ∉ [prep_queued; prep_preparing].

(** Nothing the request led to can act any more. *)
Definition request_over (current : ScheduleState) (w : World) : Prop :=
  preparation_over current w /\
  forall id, previous current w = Some id -> exists run,
    runs (w_runs w) !! id = Some run /\ ru_status run ∈ [completed; cancelled; expired] /\
    inFlight run = 0%nat /\ Forall (fun c => ch_status c ∉ [materialized; broadcast]) (ru_children run).

Lemma run_finished run :
  run_unfinished run = false ->
  inFlight run = 0%nat /\ Forall (fun c => ch_status c ∉ [materialized; broadcast]) (ru_children run).
Proof.
  unfold run_unfinished. intros H. breflect. split; [by apply Nat.ltb_ge in H1; lia|].
  apply Forall_forall. intros c Hc Hs. apply not_true_iff_false in H0. apply H0, existsb_exists.
  exists c. split; [by apply list_elem_of_In | by apply bool_decide_eq_true].
Qed.

Lemma swp_previous_run J `{Tame J} current w :
  J w -> swp J (previous_run isUuid current)
    (fun o w' => J w' /\ o = previous current w /\ preparation_over current w /\ w_runs w' = w_runs w /\
                 ss_request (schedule_of w') = ss_request (schedule_of w)) w.
Proof.
  intros Hw. unfold previous_run, previous, preparation_over.
  destruct (ss_runId current) as [runId|]; [apply swp_ret; by split_and!|].
  destruct (ss_preparationId current) as [id|]; [|apply swp_ret; by split_and!].
  apply swp_bind, swp_reads. destruct (preparations (w_runs w) !! id) as [p|] eqn:Hp; cbn.
  - apply swp_bind, swp_guard. intros Hs. breflect.
    assert (Ho : forall id' p', None = None :> option string -> Some id = Some id' ->
      preparations (w_runs w) !! id' = Some p' -> p_status p' ∉ [prep_queued; prep_preparing]) by congruence.
    destruct (p_runId p) as [runId|]; [|apply swp_ret; by split_and!].
    apply swp_bind, swp_update; [done|done|auto with sidekick|intros _]. apply swp_ret.
    split_and!; [by eapply tame_world; [|apply tame_runId|] | done | done | done | done].
  - apply swp_ret. split_and!; try done. congruence.
Qed.

Lemma swp_clears_request J `{Tame J} current identity w :
  J w -> swp J (clears_request isUuid sha256 localeCompare current identity)
    (fun cleared w' => J w' /\ w_runs w' = w_runs w /\ ss_request (schedule_of w') = ss_request (schedule_of w) /\
       (cleared = true -> request_over current w) /\ (cleared = false -> ss_identity current = identity)) w.
Proof.
  intros Hw. unfold clears_request. apply swp_bind.
  eapply swp_mono; [by apply swp_previous_run|]. intros o w' (Hw' & -> & Hover & Hr & Ht). cbn.
  apply swp_bind.
  apply (swp_mono _ _ (fun run w2 => w2 = w' /\ match previous current w with
    | None => run = None
    | Some id => exists r, run = Some r /\ runs (w_runs w) !! id = Some r end)).
  - destruct (previous current w) as [id|]; [|by apply swp_ret].
    apply swp_bind, swp_service_get; [done|]. intros run Hrun _. apply swp_ret.
    split; [done|]. exists run. by rewrite <- Hr.
  - intros run w2 [-> Hrun]. apply swp_bind, swp_guard. intros Hu. apply swp_bind, swp_guard. intros Hc.
    apply swp_ret. split_and!; try done.
    + intros Hcl. split; [done|]. intros id Hid. rewrite Hid in Hrun. destruct Hrun as (r & -> & Hr').
      breflect. destruct (run_finished r Hu). by exists r.
    + intros Hcl. rewrite Hcl in Hc. cbn in Hc. by breflect.
Qed.

Lemma swp_configure env settings w :
  schedule_inv w ->
  swp schedule_inv (configure isUuid sha256 localeCompare env settings)
    (fun _ w' =>
       let s := schedule_of w in let s' := schedule_of w' in
       set_revision settings = ss_revision s /\ ss_revision s' = ss_revision s + 1 /\
       ss_enabled s' = set_enabled settings /\ w_runs w' = w_runs w /\
       (set_enabled settings = true -> ss_stopped s' = false /\ ss_identity s' = se_identity env /\
          is_Some (se_identity env) /\ se_unavailable env = None) /\
       (ss_request s' = ss_request s \/ ss_request s' = None /\ request_over s w)) w.
Proof.
  intros Hw. unfold configure, get_schedule. apply swp_bind, swp_guard. intros _.
  apply swp_bind, swp_reads. apply swp_bind, swp_guard. intros Hrev. apply swp_bind, swp_guard. intros Hen.
  apply swp_bind. set (s := schedule_of w) in *.
  apply (swp_mono schedule_inv _ (fun cleared w' => schedule_inv w' /\ w_runs w' = w_runs w /\
    ss_request (schedule_of w') = ss_request s /\ (cleared = true -> set_enabled settings = true /\ request_over s w))).
  - match goal with |- swp _ (if ?b then _ else _) _ _ => destruct b eqn:Hc end;
      [|apply swp_ret; cbn; by split_and!]. breflect.
    eapply swp_mono; [by apply swp_clears_request; [apply schedule_inv_tame|]|]. cbn. naive_solver.
  - intros cleared w' (Hw' & Hruns & Hreq & Hover). unfold update_schedule, get_schedule.
    apply swp_bind, swp_reads. apply swp_bind, swp_guard. intros _.
    assert (Hset : set_enabled settings = true -> is_Some (se_identity env) /\ se_unavailable env = None).
    { intros E. rewrite E in Hen. cbn in Hen. breflect. split; [by destruct (se_identity env)|].
      destruct (se_unavailable env); [|done]. by destruct H0. }
    apply swp_write.
    + destruct Hw' as [I1 I2 I3]. split; cbn.
      * destruct (set_enabled settings); [done|]. done.
      * intros E. rewrite E. cbn. by apply Hset.
      * destruct cleared; [done|]. exact I3.
    + cbn. breflect. split_and!; try done.
      * intros E. destruct (Hset E). rewrite E. done.
      * destruct cleared; [right; split; [done | by apply Hover] | by left].
Qed.

(** ** Every tick *)

Lemma tracked_in uuid now w : is_Some (w_requests (tracked uuid now w) !! uuid).
Proof. cbn. destruct (w_requests w !! uuid) eqn:E; [by rewrite E | rewrite lookup_insert_eq; by eexists]. Qed.

Lemma tracked_keeps uuid now w id : is_Some (w_requests w !! id) -> is_Some (w_requests (tracked uuid now w) !! id).
Proof.
  cbn. intros H. destruct (w_requests w !! uuid); [done|]. destruct (decide (uuid = id)) as [->|Hn].
  - rewrite lookup_insert_eq. by eexists.
  - by rewrite lookup_insert_ne.
Qed.

Lemma inv_tracked uuid now w : schedule_inv w -> schedule_inv (tracked uuid now w).
Proof.
  intros [I1 I2 I3]. split; [exact I1 | exact I2 |].
  intros request H. destruct (I3 request H) as (id & Hid & Ht). exists id. split; [done|]. by apply tracked_keeps.
Qed.

(** A segment of a tick, from its start or from where it waited. *)
Definition tick_runs (env : ScheduleEnv) (s : System) (m : sched Next) : Prop :=
  (sy_closed s = false /\ e_closed (se_run env) = false /\ sy_tick s = None /\ m = check env) \/
  (e_closed (se_run env) = sy_closed s /\ exists r, resumed_tick env (sy_tick s) r = Some m).

Lemma swp_tick env s m :
  schedule_inv (sy_world s) -> tick_runs env s m ->
  swp schedule_inv (tick_segment env m) (allowed env) (sy_world s).
Proof.
  intros Hw Hm. apply swp_tick_segment; [apply _ | done |].
  destruct Hm as [(_ & _ & _ & ->)|(_ & r & Hr)]; [by apply swp_check; [apply _|]|].
  unfold Schedule.resumed_tick in Hr. destruct (sy_tick s) as [[revision|runId]|], r as [uuid selected|approval]; try done.
  - injection Hr as <-. destruct selected as [selected|e]; [|apply swp_throw].
    apply check_selected_cases; [apply _ | done |]. intros request w' _ Hw' Ht.
    split; [by apply inv_tracked|]. destruct (inv_tracked uuid (se_now env) w' Hw') as [I1 I2 I3].
    split; [exact I1 | exact I2 |]. intros q [= <-]. exists uuid. split; [done | apply tracked_in].
  - injection Hr as <-. by apply swp_follow_approved; [apply _|].
Qed.

Lemma tick_commits env s m w :
  schedule_inv (sy_world s) -> tick_runs env s m -> w ∈ snd (tick_segment env m (sy_world s)) -> schedule_inv w.
Proof. intros Hw Hm. by apply (swp_tick env s m Hw Hm). Qed.

Lemma schedule_inv_step s s' :
  schedule_step isUuid sha256 localeCompare message s s' -> schedule_inv (sy_world s) -> schedule_inv (sy_world s').
Proof.
  intros Hstep Hw. inversion Hstep; subst; clear Hstep; cbn; try done.
  - apply world_after_Forall; [done|]. intros w. apply tick_commits; [done|]. by left.
  - apply world_after_Forall; [done|]. intros w. apply tick_commits; [done|]. right. eauto.
  - apply world_after_Forall; [done|]. intros w. by apply swp_configure.
  - by eapply tame_world.
  - eapply tick_commits; [done | by left | done].
  - eapply tick_commits; [done | right; eauto | done].
  - by eapply swp_configure.
Qed.

Lemma schedule_inv_reachable s : schedule_reachable s -> schedule_inv (sy_world s).
Proof.
  intros (d & H). cut (schedule_inv (new_world d)); [|by split]. change (new_world d) with (sy_world (restarted_schedule (new_world d))).
  induction H as [|x y z Hxy _ IH]; [done|]. intros Hx. by eapply IH, schedule_inv_step.
Qed.

(** ** Guarantees *)

(** C12. The schedule approves only under the operator's current consent: whenever a tick asks for an
    approval, the schedule is switched on and was not halted, the deployment it was switched on
    for is the present one, nothing makes it unavailable, the service is not closing, and the run
    is the sealed run of a request that the schedule itself tracked, still waits for approval,
    and is approved under the hash of its own recipe. *)
Theorem scheduled_approval_has_consent env s m runId sha :
  schedule_reachable s -> tick_runs env s m ->
  let out := tick_segment env m (sy_world s) in
  fst out = Ok (to_approve runId sha) ->
  let w := world_after (sy_world s) (snd out) in
  consent env w runId sha /\ ss_stopped (schedule_of w) = false /\ is_Some (se_identity env) /\
  isScheduled runId w = true.
Proof.
  intros Hs%schedule_inv_reachable Hm out Ho w.
  destruct (swp_tick env s m Hs Hm) as [Hj Hq]. fold out in Hj, Hq. rewrite Ho in Hq.
  assert (Hw : schedule_inv w) by by apply world_after_Forall. destruct Hw as [I1 I2 I3].
  pose proof Hq as (He & Hi & _ & _ & (request & Hr & Hid) & _). split_and!; [done | | |].
  - destruct (ss_stopped (schedule_of w)); [|done]. fold w in He. rewrite I1 in He; done.
  - rewrite <- Hi. by apply I2.
  - destruct (I3 request Hr) as (id & Hid' & Ht). unfold isScheduled. apply bool_decide_eq_true. congruence.
Qed.

(** Work starts only under the settings it was looked for with: if a commit of a tick holds a
    request that was not there, the tick had waited for a discovery, and at its answer the
    schedule was still on, at the same revision and for the present deployment, and the service
    was open; the request carries the ID that was tracked for it. *)
Theorem scheduled_work_is_current env s m w request :
  tick_runs env s m -> w ∈ snd (tick_segment env m (sy_world s)) ->
  ss_request (schedule_of w) = Some request -> ss_request (schedule_of (sy_world s)) <> Some request ->
  exists uuid revision selected,
    sy_tick s = Some (selecting revision) /\ m = check_selected env uuid revision selected /\
    still_current env revision (sy_world s) /\ pr_requestId request = Some uuid.
Proof.
  intros Hm Hin Hr Hnew. set (r := ss_request (schedule_of (sy_world s))) in *.
  assert (H0 : same_request r (sy_world s)) by by left.
  assert (Hold : forall m', m' = m -> swp (same_request r) m' (allowed env) (sy_world s) -> False).
  { intros m' -> Hs. destruct (swp_tick_segment (same_request r) env m (sy_world s) H0 Hs) as [Hj _].
    destruct (Hj w Hin) as [E|E]; congruence. }
  destruct Hm as [(_ & _ & _ & ->)|(_ & a & Ha)].
  { destruct (Hold _ eq_refl). by apply swp_check; [apply _|]. }
  unfold Schedule.resumed_tick in Ha.
  destruct (sy_tick s) as [[revision|runId]|] eqn:Ht, a as [uuid selected|approval]; try done; injection Ha as <-.
  2:{ destruct (Hold _ eq_refl). by apply swp_follow_approved; [apply _|]. }
  destruct selected as [selected|e]; [|destruct (Hold _ eq_refl); apply swp_throw].
  exists uuid, revision, selected. split; [done|]. split; [done|].
  (* every commit has the old request, none, or one with the new ID while the settings are current *)
  set (J := fun w' => same_request r w' \/ still_current env revision (sy_world s) /\
              exists q, ss_request (schedule_of w') = Some q /\ pr_requestId q = Some uuid).
  assert (HJ : Tame J).
  { intros w1 w2 [H1|(Hc & q & Hq & Hu)] Htame Hreq; [left; by eapply tame_world|].
    destruct Htame as ([E|E] & _); [right; split; [done|]; exists q; by rewrite E | by left; right]. }
  assert (Hs : swp J (check_selected env uuid revision selected) (allowed env) (sy_world s)).
  { apply check_selected_cases; [done | by left |]. intros q w' Hc Hw' _. split; [exact Hw'|].
    right. split; [done|]. by eexists. }
  destruct (swp_tick_segment J env _ (sy_world s) ltac:(by left) Hs) as [Hj _].
  destruct (Hj w Hin) as [[E|E]|(Hc & q & Hq & Hu)]; [congruence | congruence |].
  split; [done|]. congruence.
Qed.

(** While the schedule is off, only its own row can change, and only by halting. *)
Lemma off_segment env s m :
  tick_runs env s m -> ss_enabled (schedule_of (sy_world s)) = false ->
  (m = check env -> ss_stopped (schedule_of (sy_world s)) = true) ->
  snd (m (sy_world s)) = [] /\ forall next, fst (m (sy_world s)) = Ok next -> next = tick_over.
Proof.
  set (w := sy_world s). intros Hm Hoff Hstop.
  destruct Hm as [(_ & _ & _ & ->)|(_ & r & Hr)].
  { unfold Schedule.check, get_schedule, mbind, sched_bind, sched_reads. cbn. rewrite (Hstop eq_refl). cbn.
    split; [done|]. by intros next [= <-]. }
  unfold Schedule.resumed_tick in Hr.
  destruct (sy_tick s) as [[revision|runId]|], r as [uuid [selected|e]|[u|e]]; try done; injection Hr as <-.
  - unfold Schedule.check_selected, get_schedule, mbind, sched_bind, sched_reads. cbn. rewrite Hoff.
    rewrite orb_true_r. cbn. split; [done|]. by intros next [= <-].
  - done.
  - unfold follow_approved, get_schedule, mbind, sched_bind, sched_reads. cbn. rewrite Hoff. cbn.
    split; [done|]. by intros next [= <-].
  - unfold follow_approved. destruct (negb _); [done|].
    unfold call_run, attempt, mbind, sched_bind. destruct (service_get_reads sha256 localeCompare runId (w_runs w)) as (g & E & _).
    rewrite E. cbn. destruct g as [run|e']; cbn; [|done]. destruct (negb _); [done|].
    unfold wait, get_schedule, mbind, sched_bind, sched_reads. cbn. rewrite Hoff. cbn.
    split; [done|]. by intros next [= <-].
Qed.

(** A halt holds until the operator acts: while the schedule is stopped, no commit of any tick, also
    of one that was waiting when it was stopped, writes a run, a preparation or a tracked
    request, and the schedule stays stopped and off with the request it had; no approval and no
    discovery follows. *)
Theorem halt_holds env s m :
  schedule_reachable s -> tick_runs env s m -> ss_stopped (schedule_of (sy_world s)) = true ->
  let w0 := sy_world s in
  let out := tick_segment env m w0 in
  waiting_of (next_of (fst out)) = None /\
  forall w, w ∈ snd out ->
    w_runs w = w_runs w0 /\ w_requests w = w_requests w0 /\ ss_stopped (schedule_of w) = true /\
    ss_enabled (schedule_of w) = false /\ ss_request (schedule_of w) = ss_request (schedule_of w0).
Proof.
  intros [Hinv _ _]%schedule_inv_reachable Hm Hstop w0 out. specialize (Hinv Hstop).
  destruct (off_segment env s m Hm Hinv ltac:(done)) as [Hnil Hnext]. fold w0 in Hnil, Hnext, Hinv.
  unfold out, Schedule.tick_segment. destruct (m w0) as [[next|e] l]; cbn in Hnil, Hnext; subst l.
  - rewrite (Hnext next eq_refl). split; [done|]. by intros w ?%elem_of_nil.
  - cbn. unfold tick_catch, get_schedule, mbind, sched_bind, sched_reads. cbn. fold w0.
    destruct (bool_decide _).
    + unfold halt, update_schedule, get_schedule, mbind, sched_bind, sched_reads, sched_guard, sched_write. cbn.
      destruct (stateSchema _ _); cbn; (split; [done|]); [|by intros w ?%elem_of_nil].
      intros w ->%list_elem_of_singleton. done.
    + unfold wait, get_schedule, mbind, sched_bind, sched_reads. cbn. rewrite Hinv. cbn.
      split; [done|]. by intros w ?%elem_of_nil.
Qed.

(** Settings are exactly what the operator saw and asked for: they are taken only at the revision they
    were read at, which they advance by one, and change no run; the schedule is switched on only
    with a deployment and nothing that makes it unavailable, which also ends a halt; and a
    request is dropped only when its preparation is over and its run, if any, has ended with no
    transaction that may still be sent or is on the way. *)
Theorem settings_take_effect env settings s l :
  schedule_reachable s ->
  configure isUuid sha256 localeCompare env settings (sy_world s) = (Ok tt, l) ->
  let old := schedule_of (sy_world s) in
  let w := world_after (sy_world s) l in
  let new := schedule_of w in
  set_revision settings = ss_revision old /\ ss_revision new = ss_revision old + 1 /\
  ss_enabled new = set_enabled settings /\ w_runs w = w_runs (sy_world s) /\
  (set_enabled settings = true -> ss_stopped new = false /\ ss_identity new = se_identity env /\
     is_Some (se_identity env) /\ se_unavailable env = None) /\
  (ss_request new = ss_request old \/ ss_request new = None /\ request_over old (sy_world s)).
Proof.
  intros Hs%schedule_inv_reachable Hc. pose proof (swp_configure env settings _ Hs) as [_ Hq].
  rewrite Hc in Hq. exact Hq.
Qed.

End Guarantees.

(** ** With the checks of main.ts *)

(** No stopped run of the wallet may still have an effect: each child of an ended run that is not done has
    attempts, and all of them were confirmed or rejected. *)
Lemma unresolvedStoppedRun_None wallet d id r c :
  unresolvedStoppedRun wallet d = None -> runs d !! id = Some r -> ru_walletPrincipal r = wallet ->
  ru_status r ∈ [expired; cancelled] -> c ∈ ru_children r ->
  ch_status c ∈ [materialized; broadcast; child_halted] ->
  ch_attempts c <> [] /\ Forall (fun a => at_state a ∈ [attempt_confirmed; rejected]) (ch_attempts c).
Proof.
  unfold unresolvedStoppedRun. intros H Hr Hw Hs Hc Hst.
  destruct (List.filter _ _) as [|x l] eqn:Hf; [|done].
  assert (Hin : (id, r) ∈ map_to_list (runs d)) by by apply elem_of_map_to_list.
  assert (Hnot : existsb child_unresolved (ru_children r) = false).
  { destruct (existsb child_unresolved (ru_children r)) eqn:E; [|done].
    assert (List.In (id, r) []) as []. rewrite <- Hf. apply filter_In. split; [by apply list_elem_of_In|].
    by rewrite Hw, String.eqb_refl, bool_decide_true, E. }
  assert (Hu : child_unresolved c = false).
  { destruct (child_unresolved c) eqn:E; [|done]. rewrite <- Hnot. symmetry. apply existsb_exists.
    exists c. split; [by apply list_elem_of_In | done]. }
  unfold child_unresolved in Hu. rewrite bool_decide_true in Hu by done. cbn in Hu. breflect. split; [done|].
  apply Forall_forall. intros a Ha. rewrite forallb_forall in H1.
  assert (Hb := H1 a (proj1 (list_elem_of_In _ _) Ha)). by apply bool_decide_eq_true in Hb.
Qed.

(** Nothing makes the schedule unavailable exactly when the engine runs for the operator, the recorded
    wallet is enabled and has no stopped run that may still act, and Force Observe is off. *)
Lemma main_available dp wallet forced d :
  main_unavailable dp wallet forced d = None <->
  dp_operatorRun dp = true /\ forced = None /\ exists w, wallet = Some w /\ gw_enabled w = true /\
    unresolvedStoppedRun (gw_principal w) d = None.
Proof.
  unfold main_unavailable. destruct (dp_operatorRun dp); cbn; [|split; [done | naive_solver]].
  destruct wallet as [w|]; [|split; [done | naive_solver]].
  destruct (gw_enabled w) eqn:He; cbn; [|split; [done | naive_solver congruence]].
  destruct (unresolvedStoppedRun _ d) eqn:Hu; [split; [done | naive_solver congruence]|].
  destruct forced; cbn; split; try done; [naive_solver|]. intros _. split_and!; try done. by exists w.
Qed.
