(* ===== verification/ScheduleScenario.v ===== *)
(** * The schedule on a concrete deployment

    Switched on, it looks for work, prepares a run, and approves it once the run service has built
    its recipe; a halt in between; and the settings that end it.  The theorems of
    [ScheduleCorrect] and [RewardActions] are applied at these states. *)

From S2P Require Import Prelude Text CanonicalJson Principals OperationPlan Recipe RunStore SweepStore RunService GasWallet RewardActions Schedule ScheduleCorrect.
From S2P Require RunScenario.

Open Scope Z_scope.

Module ScheduleScenario.

#[local] Abbreviation isUuid := Concrete.uuid.
#[local] Abbreviation sha := RunScenario.Scenario.sha.
#[local] Abbreviation compare := code_unit_compare.
#[local] Abbreviation id := RunScenario.Scenario.id.

Definition message (e : ScheduleError) : string := "Scheduled run needs review.".

Definition at_time (t : Z) : ScheduleEnv :=
  {| se_run := RunScenario.Scenario.at_time t; se_identity := Some "mainnet:1:SPM.manager:SPW"%string;
     se_unavailable := None; se_walletBusy := false |}.

#[local] Abbreviation check := (check isUuid sha compare).
#[local] Abbreviation tick_segment := (tick_segment isUuid message).
#[local] Abbreviation ticked := (ticked isUuid message).
#[local] Abbreviation schedule_step := (schedule_step isUuid sha compare message).
#[local] Abbreviation schedule_reachable := (schedule_reachable isUuid sha compare message).

(** The ledger has one distribution to collect. *)
Definition ledger : RewardLedger :=
  {| lg_cycles := [{| lc_cycle := 10; lc_distributions := [] |};
                   {| lc_cycle := 9; lc_distributions :=
                        [{| ld_distribution := 2; ld_calculation := calculation_done;
                            ld_availableToCollectSats := Some 500;
                            ld_payments := {| pm_outstanding := 0; pm_arrived := 0; pm_arriving := 0;
                                              pm_rejected := 0 |};
                            ld_status := ready |}] |}];
     lg_nextBeforeCycle := None |}.

Definition configured (env : ScheduleEnv) (settings : ScheduleSettings) (s : System) : System :=
  let out := configure isUuid sha compare env settings (sy_world s) in
  {| sy_world := world_after (sy_world s) (snd out); sy_tick := sy_tick s; sy_closed := sy_closed s |}.

Definition on : ScheduleSettings := {| set_enabled := true; set_intervalMinutes := 15; set_revision := 0 |}.

Definition new : System := restarted_schedule (new_world empty_db).
Definition enabled : System := configured (at_time 1000) on new.
Definition looking : System := ticked (at_time 2000) (check (at_time 2000)) enabled.
Definition discovery : sched Next :=
  check_selected isUuid sha compare (at_time 3000) id 1 (selected_request ledger).
Definition preparing : System := ticked (at_time 3000) discovery looking.

(** The run service prepares the run of the request. *)
Definition request : PrepareRequest :=
  {| pr_requestId := Some id; pr_cycle := 9; pr_distribution := 2;
     pr_operations := Some [op_claim_rewards]; pr_maxTransactions := None |}.
Definition prepare : repo unit :=
  _ ← claimPreparation id 3100;
  _ ← prepare_finish isUuid sha compare RunScenario.Scenario.options (RunScenario.Scenario.at_time 3200) id request
        (Ok ConcreteRecipe.facts);
  _ ← completePreparation id id 3300;
  mret tt.
Definition prepared : System :=
  {| sy_world := with_runs (after (w_runs (sy_world preparing)) (snd (prepare (w_runs (sy_world preparing)))))
                   (sy_world preparing);
     sy_tick := sy_tick preparing; sy_closed := sy_closed preparing |}.

(** The hash the schedule approves. *)
Definition hash : string :=
  match runs (w_runs (sy_world prepared)) !! id with Some r => ru_recipeSha256 r | None => "" end.

Definition asking : sched Next := check (at_time 4000).

Lemma approval_is_asked :
  fst (tick_segment (at_time 4000) asking (sy_world prepared)) = Ok (to_approve id hash).
Proof. vm_compute. reflexivity. Qed.

(** Another wallet is found at the next tick: the schedule halts. *)
Definition elsewhere : ScheduleEnv :=
  {| se_run := RunScenario.Scenario.at_time 4000; se_identity := Some "mainnet:1:SPM.manager:SPV"%string;
     se_unavailable := None; se_walletBusy := false |}.
Definition stopped : System := ticked elsewhere (check elsewhere) prepared.

(** ** Reachability *)

Lemma enabled_reachable : schedule_reachable enabled.
Proof. exists empty_db. eapply rtc_l; [apply schedule_configure | apply rtc_refl]. Qed.

Lemma reachable_step s s' : schedule_reachable s -> schedule_step s s' -> schedule_reachable s'.
Proof. intros (d & H) Hs. exists d. by eapply rtc_r. Qed.

Lemma enabled_idle : sy_closed enabled = false /\ sy_tick enabled = None.
Proof. vm_compute. split; reflexivity. Qed.

Lemma looking_reachable : schedule_reachable looking.
Proof.
  destruct enabled_idle. eapply reachable_step; [exact enabled_reachable|].
  apply (schedule_tick _ _ _ _ (at_time 2000) enabled); [assumption | reflexivity | assumption].
Qed.

Lemma looking_waits : sy_tick looking = Some (selecting 1) /\ sy_closed looking = false.
Proof. vm_compute. split; reflexivity. Qed.

Lemma discovery_resumes :
  tick_runs isUuid sha compare (at_time 3000) looking discovery.
Proof.
  destruct looking_waits as [Ht Hc]. right. rewrite Hc. split; [reflexivity|].
  exists (selected_as id (Ok (selected_request ledger))). rewrite Ht. reflexivity.
Qed.

Lemma preparing_reachable : schedule_reachable preparing.
Proof.
  destruct discovery_resumes as [(_ & _ & Ht & _)|(Hc & r & Hr)].
  - by rewrite (proj1 looking_waits) in Ht.
  - eapply reachable_step; [exact looking_reachable|].
    exact (schedule_resume _ _ _ _ (at_time 3000) r discovery looking Hc Hr).
Qed.

Lemma prepared_reachable : schedule_reachable prepared.
Proof. eapply reachable_step; [exact preparing_reachable | apply schedule_others]. Qed.

Lemma prepared_idle : sy_closed prepared = false /\ sy_tick prepared = None.
Proof. vm_compute. split; reflexivity. Qed.

Lemma stopped_reachable : schedule_reachable stopped.
Proof.
  destruct prepared_idle. eapply reachable_step; [exact prepared_reachable|].
  apply (schedule_tick _ _ _ _ elsewhere prepared); [assumption | reflexivity | assumption].
Qed.

(** ** The guarantees at these states *)

Lemma selection_found : exists a, selectScheduledRewardAction ledger = (Some a, None) /\ ra_kind a = collect.
Proof. vm_compute. eexists. split; reflexivity. Qed.

Lemma selection_is_oldest_work_witness : exists entry,
  entry ∈ ledger_distributions ledger /\ scheduled_action entry = fst (selectScheduledRewardAction ledger).
Proof.
  pose proof (selection_is_oldest_work ledger) as H. destruct selection_found as (a & E & _).
  rewrite E in H |- *. destruct H as (_ & entry & Hin & _ & Ha & _). exists entry. split; [exact Hin | exact Ha].
Defined.

Lemma asking_runs : tick_runs isUuid sha compare (at_time 4000) prepared asking.
Proof. left. destruct prepared_idle. split; [assumption|]. split; [reflexivity|]. split; [assumption | reflexivity]. Qed.

Lemma scheduled_approval_has_consent_witness :
  isScheduled id (world_after (sy_world prepared) (snd (tick_segment (at_time 4000) asking (sy_world prepared)))) = true.
Proof.
  exact (proj2 (proj2 (proj2 (scheduled_approval_has_consent isUuid sha compare message (at_time 4000) prepared asking
    id hash prepared_reachable asking_runs approval_is_asked)))).
Defined.

Lemma work_is_committed :
  world_after (sy_world looking) (snd (tick_segment (at_time 3000) discovery (sy_world looking))) ∈
    snd (tick_segment (at_time 3000) discovery (sy_world looking)).
Proof.
  destruct (snd _) as [|w l] eqn:E; [|by left].
  exfalso. apply (f_equal (@List.length World)) in E. revert E. vm_compute. discriminate.
Qed.

Lemma work_is_new :
  ss_request (schedule_of (world_after (sy_world looking) (snd (tick_segment (at_time 3000) discovery (sy_world looking)))))
    = Some request /\ ss_request (schedule_of (sy_world looking)) = None.
Proof. vm_compute. split; reflexivity. Qed.

Lemma scheduled_work_is_current_witness :
  exists uuid revision selected,
    sy_tick looking = Some (selecting revision) /\
    discovery = check_selected isUuid sha compare (at_time 3000) uuid revision selected /\
    still_current (at_time 3000) revision (sy_world looking) /\ pr_requestId request = Some uuid.
Proof.
  destruct work_is_new as [Hnew Hold].
  apply (scheduled_work_is_current isUuid sha compare message (at_time 3000) looking discovery _ request
           discovery_resumes work_is_committed Hnew).
  rewrite Hold. discriminate.
Defined.

Lemma is_stopped : ss_stopped (schedule_of (sy_world stopped)) = true /\ sy_closed stopped = false /\ sy_tick stopped = None.
Proof. vm_compute. split; [|split]; reflexivity. Qed.

Lemma halt_holds_witness :
  waiting_of (next_of (fst (tick_segment (at_time 5000) (check (at_time 5000)) (sy_world stopped)))) = None.
Proof.
  destruct is_stopped as (Hs & Hc & Ht).
  refine (proj1 (halt_holds isUuid sha compare message (at_time 5000) stopped (check (at_time 5000)) stopped_reachable _ Hs)).
  left. split; [exact Hc|]. split; [reflexivity|]. split; [exact Ht | reflexivity].
Defined.

(** Switching it on again after the run was cancelled drops the request. *)
Definition cancelled_run : System :=
  {| sy_world := with_runs (after (w_runs (sy_world stopped))
                     (snd (cancel sha compare (RunScenario.Scenario.at_time 5000) id (w_runs (sy_world stopped)))))
                   (sy_world stopped);
     sy_tick := sy_tick stopped; sy_closed := sy_closed stopped |}.

Lemma cancelled_run_reachable : schedule_reachable cancelled_run.
Proof. eapply reachable_step; [exact stopped_reachable | apply schedule_others]. Qed.

Definition again : ScheduleSettings := {| set_enabled := true; set_intervalMinutes := 30; set_revision := 2 |}.

Lemma accepted_again :
  fst (configure isUuid sha compare elsewhere again (sy_world cancelled_run)) = Ok tt.
Proof. vm_compute. reflexivity. Qed.

Lemma settings_take_effect_witness : exists l,
  configure isUuid sha compare elsewhere again (sy_world cancelled_run) = (Ok tt, l) /\
  ss_revision (schedule_of (world_after (sy_world cancelled_run) l)) = ss_revision (schedule_of (sy_world cancelled_run)) + 1.
Proof.
  exists (snd (configure isUuid sha compare elsewhere again (sy_world cancelled_run))).
  assert (E : configure isUuid sha compare elsewhere again (sy_world cancelled_run) =
    (Ok tt, snd (configure isUuid sha compare elsewhere again (sy_world cancelled_run)))).
  { rewrite <- accepted_again. apply surjective_pairing. }
  split; [exact E|].
  exact (proj1 (proj2 (settings_take_effect isUuid sha compare message elsewhere again cancelled_run _
    cancelled_run_reachable E))).
Defined.

Lemma request_was_dropped :
  ss_request (schedule_of (sy_world (configured elsewhere again cancelled_run))) = None /\
  ss_request (schedule_of (sy_world cancelled_run)) = Some request.
Proof. vm_compute. split; reflexivity. Qed.

End ScheduleScenario.
