(* ===== verification/WalletFactsCorrect.v ===== *)
(** * What the operator's wallet may be asked to sign

    The transactions [WalletFacts.authoritativeFacts] produces: who signs, what is called, under
    which authority, and how much sBTC may leave which contract. *)

From S2P Require Import Prelude Text CanonicalJson Bonds Rewards ChainAnchor Clarity Principals OperationPlan NakamotoBlock RewardReads SweepPlan Recipe LiveDriver WalletRequest WalletVerify SignerGrant WalletFacts.

Open Scope string_scope.
Open Scope list_scope.
Open Scope Z_scope.

Lemma plain_Ok {E A} (r : result E A) a : plain r = Ok a <-> r = Ok a.
Proof. destruct r; cbn; split; congruence. Qed.

Lemma demand_Ok b code u : demand b code = Ok u <-> b = true.
Proof. apply require_Ok. Qed.

Lemma truthy_Some o s : truthy o = Some s -> o = Some s /\ nonempty s = true.
Proof. unfold truthy. destruct o as [t|]; [|done]. destruct (nonempty t) eqn:He; [|done]. by intros [= <-]. Qed.

(** Turns a successful computation of facts into its steps. *)
Ltac facts_ok H :=
  inv_ok H;
  repeat match goal with
  | Hs : plain _ = Ok _ |- _ => rewrite plain_Ok in Hs
  | Hs : demand _ _ = Ok _ |- _ => rewrite demand_Ok in Hs
  end.

(** The transaction an operation built, in place of the computation that checked it. *)
Ltac built_call lem :=
  match goal with H : managerTransaction _ _ _ _ = Ok _ |- _ => apply lem in H as -> end.

Section Correct.

Context (validateStacksAddress : string -> bool)
        (lib : ClarityLibrary) (bufferCV : list Z -> ClarityValue)
        (settle : string -> list Thrown -> Thrown) (sha256 : list Z -> string)
        (postConditionToHex : PostCondition -> string)
        (verifySignature : string -> string -> string -> bool)
        (publicKeyFromSignatureRsv : string -> string -> option string).

#[local] Abbreviation facts := (authoritativeFacts validateStacksAddress lib bufferCV settle sha256
  postConditionToHex verifySignature publicKeyFromSignatureRsv).
#[local] Abbreviation operation := (operationFacts validateStacksAddress lib bufferCV sha256
  postConditionToHex verifySignature publicKeyFromSignatureRsv).

(** A uint the manager's read-only function returns at the tip. *)
Definition manager_uint (c : FactsContext) (function : string) (n : Z) : Prop :=
  readUInt (fc_node c) (fc_manager c) function (fc_actor c) (fc_tip c) = Ok n.

(** The sBTC a wallet transaction may move: which contract sends how much, by the operation and
    what the chain held at the tip. *)
Inductive sbtc_movement (c : FactsContext) (token : string) : WalletRequest -> list PostCondition -> Prop :=
  | moves_nothing r :
      match r with
      | rq_register_self _ | rq_add_admin _ _ | rq_remove_admin _ _ | rq_update_fees _ _
      | rq_calculate_rewards _ => True
      | _ => False
      end -> sbtc_movement c token r []
  | moves_fees actor text recipient amount earnedFees :
      BigInt text = Some amount -> manager_uint c "get-earned-fees" earnedFees -> amount <= earnedFees ->
      sbtc_movement c token (rq_withdraw_fees actor text recipient)
        [will_send_sbtc (fc_manager c) token amount]
  | moves_refunds actor recipient balanceValue balance earnedFees liability unclaimed hex :
      encodePrincipalHex lib (fc_manager c) = Ok hex ->
      nd_callReadOnly (fc_node c) token "get-balance" (fc_actor c) [hex] (fc_tip c) = Ok (CResponseOk balanceValue) ->
      Codecs.decodeUInt balanceValue "get-balance" = Ok balance ->
      manager_uint c "get-earned-fees" earnedFees -> manager_uint c "get-withdrawal-liability" liability ->
      manager_uint c "get-unclaimed-staker-rewards" unclaimed ->
      earnedFees + liability + unclaimed < balance ->
      sbtc_movement c token (rq_sweep_fee_refunds actor recipient)
        [will_send_sbtc (fc_manager c) token (balance - (earnedFees + liability + unclaimed))]
  | moves_payment actor staker cycle bond rewardsValue rewards args unclaimed :
      nd_callReadOnly (fc_node c) (fc_manager c) "get-earned-staker-rewards" (fc_actor c) args (fc_tip c) = Ok rewardsValue ->
      Codecs.decodeEarnedStakerRewards rewardsValue "get-earned-staker-rewards" = Ok rewards ->
      (exists n, BigInt cycle = Some n /\ exists b,
         mapM_res (fun a => a) (accountArgs lib staker n b) = Ok args /\ (bond = None <-> b = None)) ->
      nd_callReadOnly (fc_node c) (fc_manager c) "get-unclaimed-staker-rewards" (fc_actor c) [] (fc_tip c) = Ok unclaimed ->
      (exists n, Codecs.decodeUInt unclaimed "get-unclaimed-staker-rewards" = Ok n /\
         Codecs.earned rewards + Codecs.fees rewards <= n) ->
      Codecs.earned rewards <> 0 ->
      sbtc_movement c token (rq_claim_staker_rewards actor staker cycle bond)
        [will_send_sbtc (fc_manager c) token (Codecs.earned rewards)]
  | moves_claim actor rewards k pox5 :
      managerClaimCheckpoint (fc_setup c) rewards = Some k -> mk_effect k = claim_remaining ->
      os_pox5ContractId (fc_setup c) = Some pox5 ->
      sbtc_movement c token (rq_claim_rewards actor None)
        [will_send_sbtc pox5 token (mk_expectedSignerOutflowSats k)].

(** A call the sender signs for this network. *)
Record wallet_call (c : FactsContext) (contract : string) (f : AuthoritativeFacts) : Prop := {
  wc_sender : af_requiredSender f = fc_actor c /\ wt_address (af_transaction f) = fc_actor c;
  wc_network : wt_network (af_transaction f) = wb_network (fc_network c) /\
    af_network f = wb_network (fc_network c) /\ af_chainId f = wb_chainId (fc_network c);
  wc_contract : wt_contract (af_transaction f) = contract;
  wc_function : walletIntentTransactionMatchesAction (requestAction (fc_request c)) (af_transaction f) = true;
}.

Lemma managerTransaction_Ok c functionName args conditions t :
  managerTransaction c functionName args conditions = Ok t ->
  t = {| wt_contract := fc_manager c; wt_functionName := functionName; wt_functionArgs := args;
         wt_network := wb_network (fc_network c); wt_address := fc_actor c; wt_postConditions := conditions |}.
Proof. unfold managerTransaction, managerCall. case_match; [|done]. by intros [= <-]. Qed.

(** Facts of an operation of the manager are a call of it, whatever the operation adds. *)
Lemma managerFacts_call c entries functionName args conditions title summary post fields :
  functionName = wo_functionName (walletOperationContract (requestAction (fc_request c))) ->
  wallet_call c (fc_manager c) (managerFacts c entries
    {| wt_contract := fc_manager c; wt_functionName := functionName; wt_functionArgs := args;
       wt_network := wb_network (fc_network c); wt_address := fc_actor c; wt_postConditions := conditions |}
    title summary post fields).
Proof.
  intros ->. split; cbn; try done. unfold walletIntentTransactionMatchesAction. cbn. apply String.eqb_refl.
Qed.

(** The result of an operation: a call of [contract] that moves what [sbtc_movement] says. *)
Definition operation_result (c : FactsContext) (contract : string) (f : AuthoritativeFacts) : Prop :=
  wallet_call c contract f /\ exists token l, sbtc_movement c token (fc_request c) l /\
    wt_postConditions (af_transaction f) = postConditionToHex <$> l /\
    (l <> [] -> os_sbtcTokenContract (fc_setup c) = Some token).

Lemma quiet_result c entries functionName args title summary post fields :
  functionName = wo_functionName (walletOperationContract (requestAction (fc_request c))) ->
  match fc_request c with
  | rq_register_self _ | rq_add_admin _ _ | rq_remove_admin _ _ | rq_update_fees _ _ => True
  | _ => False
  end ->
  operation_result c (fc_manager c) (managerFacts c entries
    {| wt_contract := fc_manager c; wt_functionName := functionName; wt_functionArgs := args;
       wt_network := wb_network (fc_network c); wt_address := fc_actor c; wt_postConditions := [] |}
    title summary post fields).
Proof.
  intros Hf Hr. split; [by apply managerFacts_call|]. exists "", []. split_and!; try done.
  constructor. by destruct (fc_request c).
Qed.

Lemma adminFacts_result c admin (enabled : bool) f :
  fc_request c = (if enabled then rq_add_admin (fc_actor c) admin else rq_remove_admin (fc_actor c) admin) ->
  adminFacts validateStacksAddress lib sha256 c admin enabled = Ok f -> operation_result c (fc_manager c) f.
Proof.
  intros Hr H. unfold adminFacts in H. facts_ok H. built_call managerTransaction_Ok. subst f.
  apply quiet_result; rewrite Hr; by destruct enabled.
Qed.

Lemma updateFees_result c actor feeBips f :
  fc_request c = rq_update_fees actor feeBips ->
  updateFeesFacts lib sha256 c feeBips = Ok f -> operation_result c (fc_manager c) f.
Proof.
  intros Hr H. unfold updateFeesFacts in H. destruct (BigInt feeBips) as [next|]; [|done].
  facts_ok H. built_call managerTransaction_Ok. subst f. by apply quiet_result; rewrite Hr.
Qed.

Lemma register_result c actor f :
  fc_request c = rq_register_self actor ->
  registerFacts validateStacksAddress lib bufferCV sha256 verifySignature publicKeyFromSignatureRsv c = Ok f ->
  operation_result c (fc_manager c) f.
Proof.
  intros Hr H. unfold registerFacts in H. destruct (rt_grant (fc_state c)) as [g|]; [|done].
  facts_ok H. built_call managerTransaction_Ok. subst f. by apply quiet_result; rewrite Hr.
Qed.

(** The result of an operation that moves sBTC of the manager. *)
Lemma moving_result c entries functionName args condition title summary post fields token :
  functionName = wo_functionName (walletOperationContract (requestAction (fc_request c))) ->
  os_sbtcTokenContract (fc_setup c) = Some token ->
  sbtc_movement c token (fc_request c) [condition] ->
  operation_result c (fc_manager c) (managerFacts c entries
    {| wt_contract := fc_manager c; wt_functionName := functionName; wt_functionArgs := args;
       wt_network := wb_network (fc_network c); wt_address := fc_actor c;
       wt_postConditions := [postConditionToHex condition] |} title summary post fields).
Proof.
  intros Hf Ht Hm. split; [by apply managerFacts_call|]. exists token, [condition]. by split_and!.
Qed.

Lemma withdraw_result c token actor amount recipient f :
  fc_request c = rq_withdraw_fees actor amount recipient -> os_sbtcTokenContract (fc_setup c) = Some token ->
  withdrawFacts validateStacksAddress lib sha256 postConditionToHex c token amount recipient = Ok f ->
  operation_result c (fc_manager c) f.
Proof.
  intros Hr Ht H. unfold withdrawFacts in H. facts_ok H. destruct (BigInt amount) as [n|] eqn:Hn; [|done].
  match goal with H : Ok n = Ok _ |- _ => injection H as <- end.
  built_call managerTransaction_Ok. subst f. breflect.
  apply moving_result with token; [by rewrite Hr|done|]. rewrite Hr. by eapply moves_fees.
Qed.

Lemma sweep_result c token actor recipient f :
  fc_request c = rq_sweep_fee_refunds actor recipient -> os_sbtcTokenContract (fc_setup c) = Some token ->
  sweepFacts validateStacksAddress lib sha256 postConditionToHex c token recipient = Ok f ->
  operation_result c (fc_manager c) f.
Proof.
  intros Hr Ht H. unfold sweepFacts in H. facts_ok H. built_call managerTransaction_Ok. subst f. breflect.
  unfold sweepableSats, transferHex in *.
  match goal with H : Codecs.decodeResponseOk ?v _ = Ok ?b |- _ =>
    unfold Codecs.decodeResponseOk, Codecs.expectResponseOk in H; destruct v; try done; injection H as -> end.
  destruct (_ <=? _) eqn:Hle in *; [|done]. breflect.
  apply moving_result with token; [by rewrite Hr|done|]. rewrite Hr. eapply moves_refunds; eauto. lia.
Qed.

Lemma staker_result c token actor staker cycle bond f :
  fc_request c = rq_claim_staker_rewards actor staker cycle bond -> os_sbtcTokenContract (fc_setup c) = Some token ->
  stakerFacts validateStacksAddress lib sha256 postConditionToHex c token staker cycle bond = Ok f ->
  operation_result c (fc_manager c) f.
Proof.
  intros Hr Ht H. unfold stakerFacts in H. facts_ok H. built_call managerTransaction_Ok. subst f.
  destruct (BigInt cycle) as [n|] eqn:Hn; [|done].
  repeat match goal with H : Ok n = Ok _ |- _ => injection H as <- end.
  unfold stakerPaymentAllowed in *. breflect.
  apply moving_result with token; [by rewrite Hr|done|]. rewrite Hr. eapply moves_payment; eauto.
  exists n. split; [done|]. eexists. split; [eassumption|].
  destruct bond as [t|]; [destruct (BigInt t); [|done]|]; match goal with H : Ok _ = Ok _ |- _ => injection H as <- end;
    by split.
Qed.

Lemma claim_result c actor rewards f :
  fc_request c = rq_claim_rewards actor None ->
  managerClaimFacts lib sha256 postConditionToHex c rewards = Ok f -> operation_result c (fc_manager c) f.
Proof.
  intros Hr H. unfold managerClaimFacts in H. facts_ok H.
  match goal with H : buildManagerClaimProposal _ _ _ _ = Ok ?o |- _ => rename H into Hb; destruct o as [p|]; [|done] end.
  facts_ok H. breflect. subst f.
  unfold buildManagerClaimProposal in Hb.
  destruct (managerClaimCheckpoint (fc_setup c) rewards) as [k|] eqn:Hk; [|done].
  destruct (bool_decide (mk_effect k = claim_remaining)) eqn:He; cbn [negb] in Hb; [|done].
  destruct (truthy (os_pox5ContractId _)) as [pox5|] eqn:Hp; [|done].
  destruct (truthy (os_sbtcTokenContract _)) as [token|] eqn:Ht; [|done].
  destruct (truthy (os_sourceSha256 (fc_setup c))), (truthy (os_sourceProfileId (fc_setup c))); try done.
  facts_ok Hb. subst p. breflect. apply truthy_Some in Hp as [Hp _], Ht as [Ht _].
  cbn in *. split; [split; cbn; [done|done|congruence|]|].
  - unfold walletIntentTransactionMatchesAction. by rewrite Hr.
  - exists token, [will_send_sbtc pox5 token (mk_expectedSignerOutflowSats k)]. rewrite Hr.
    split_and!; [by eapply moves_claim|done|done].
Qed.

(** The situation in which facts were derived: the state and snapshot that were read, of a node
    of the configured network, and a sender with a valid address of it. *)
Record derived (reads : FactsReads) (request : WalletRequest) (c : FactsContext) : Prop := {
  dv_reads : fc_reads c = reads /\ fc_request c = request;
  dv_state : fr_state reads = Some (fc_state c);
  dv_network : walletNetwork (fr_network reads) (fr_expectedNetworkId reads) = Some (fc_network c);
  dv_setup : exists rewards, setupOf reads request = Ok (fc_setup c, rewards);
  dv_node : os_nodeNetworkId (fc_setup c) = wb_chainId (fc_network c);
  dv_actor : validateStacksAddress (requestActor request) = true;
}.

(** The manager is the configured one and its program is reviewed for the action; a
    calculation is of the contract the matched network profile knows. *)
Definition target_allowed (c : FactsContext) (contract : string) : Prop :=
  match managerCapabilityForWalletAction (requestAction (fc_request c)) with
  | Some capability => contract = fc_manager c /\ os_managerPrincipal (fc_setup c) = fc_manager c /\
      os_attachAllowed (fc_setup c) = true /\ executionAvailable (fc_setup c) capability = true
  | None => os_pox5ContractId (fc_setup c) = Some contract /\ os_compatibilityMatched (fc_setup c) = true
  end.

(** The node says the sender is an admin, unless the operation is open to everyone. *)
Definition sender_allowed (c : FactsContext) : Prop :=
  wo_authority (walletOperationContract (requestAction (fc_request c))) = permissionless \/
  isAdmin lib (fc_node c) (fc_manager c) (fc_actor c) (fc_actor c) (fc_tip c) = Ok true.

Lemma operation_inv c f :
  match fc_request c with rq_claim_rewards _ _ | rq_calculate_rewards _ => False | _ => True end ->
  operation c = Ok f -> operation_result c (fc_manager c) f /\ sender_allowed c.
Proof.
  intros Hk H. unfold operationFacts in H. apply bind_Ok in H as (u & Ha & H). split.
  - destruct (fc_request c) eqn:Hr; try done;
      try (destruct (truthy (os_sbtcTokenContract (fc_setup c))) as [token|] eqn:Ht; [|done];
           apply truthy_Some in Ht as [Ht _]).
    + by eapply register_result.
    + assert (Ha' : fc_actor c = actor) by (unfold fc_actor; by rewrite Hr).
      eapply (adminFacts_result c admin true); [by rewrite Ha', Hr | done].
    + assert (Ha' : fc_actor c = actor) by (unfold fc_actor; by rewrite Hr).
      eapply (adminFacts_result c admin false); [by rewrite Ha', Hr | done].
    + by eapply updateFees_result.
    + by eapply withdraw_result.
    + by eapply sweep_result.
    + by eapply staker_result.
  - unfold sender_allowed. case_bool_decide as Hp; [by left|]. right. facts_ok Ha. by subst.
Qed.

Lemma assertTarget_inv reads request state setup network pox5 :
  assertTarget reads request state setup network = Ok pox5 ->
  match managerCapabilityForWalletAction (requestAction request) with
  | Some capability => pox5 = None /\ os_managerPrincipal setup = rt_managerPrincipal state /\
      os_attachAllowed setup = true /\ executionAvailable setup capability = true
  | None => exists p, pox5 = Some p /\ os_pox5ContractId setup = Some p /\ os_compatibilityMatched setup = true
  end.
Proof.
  unfold assertTarget. destruct request; intros H; facts_ok H;
    try (match goal with H : assertManagerActionTarget _ _ _ _ _ = Ok _ |- _ =>
           unfold assertManagerActionTarget in H; cbn [managerCapabilityForWalletAction walletOperationContract
             wo_capability requestAction] in H; facts_ok H; breflect; subst; by split_and! end).
  match goal with H : assertPox5CalculationTarget _ _ _ = Ok _ |- _ => unfold assertPox5CalculationTarget in H; rename H into Hc end.
  facts_ok Hc. destruct (truthy _) as [p|] eqn:Hp; [|done]. facts_ok Hc. breflect. subst.
  apply truthy_Some in Hp as [Hp _]. eexists. by split_and!.
Qed.

Lemma facts_inv reads request f :
  facts reads request = Ok f ->
  exists c contract, derived reads request c /\ target_allowed c contract /\ sender_allowed c /\
    operation_result c contract f.
Proof.
  unfold authoritativeFacts. intros H. destruct (walletNetwork _ _) as [network|] eqn:Hn; [|done].
  apply bind_Ok in H as (state & Hs & H). unfold readState in Hs.
  destruct (fr_state reads) as [st|] eqn:Hst; [|done]. injection Hs as ->.
  apply bind_Ok in H as ([setup rewards] & Hset & H). facts_ok H. breflect.
  match goal with H : assertTarget _ _ _ _ _ = Ok _ |- _ => pose proof (assertTarget_inv _ _ _ _ _ _ H) as Ht end.
  set (c := {| fc_reads := reads; fc_request := request; fc_state := state; fc_setup := setup;
               fc_network := network |}) in *.
  assert (Hd : derived reads request c).
  { split; try done. by exists rewards. }
  assert (Hop : match request with rq_claim_rewards _ _ | rq_calculate_rewards _ => False | _ => True end ->
            operation c = Ok f -> exists contract, target_allowed c contract /\ sender_allowed c /\
            operation_result c contract f).
  { intros Hk Ho. apply operation_inv in Ho as [Ho Ha]; [|done]. exists (fc_manager c). split; [|done].
    unfold target_allowed. cbn [fc_request c]. destruct request; try done; cbn in Ht |- *; by destruct_and!. }
  exists c. destruct request as [actor| | | | | |actor jobId| |actor]; try (destruct (Hop I H) as (contract & Hx); by exists contract).
  - destruct jobId as [jobId|]; [done|]. exists (fc_manager c). cbn in Ht. destruct_and!. split_and!; try done.
    + by left.
    + by eapply claim_result.
  - destruct Ht as (p & -> & Hp & Hm). exists p. split_and!; [done|done|by left|].
    unfold calculateFacts in H. destruct (readPox5CalculateRewardsObservation _ _ _ _ _ _ _) as [o|[[]|]]; try done.
    facts_ok H. subst f. split; [by split|]. exists "", []. split_and!; [by constructor|done|done].
Qed.

(** What the wallet is asked to sign is the request: a call by exactly the requesting sender,
    on the configured network and a node of it, of the function the registry names for the action,
    on the configured manager whose deployed program is reviewed for it (a calculation: on the
    matched PoX-5 contract); unless the operation is open to everyone, the node said at the
    anchor that the sender is an admin of the manager. *)
Theorem wallet_call_is_the_request reads request f :
  facts reads request = Ok f ->
  exists c contract, derived reads request c /\ target_allowed c contract /\ sender_allowed c /\
    wallet_call c contract f.
Proof.
  intros (c & contract & Hd & Ht & Hs & Hc & _)%facts_inv. by exists c, contract.
Qed.

(** What the wallet is asked to sign moves no sBTC beyond its purpose: the post-conditions,
    which bind in deny mode, are exactly one transfer of the amount withdrawn (at most the earned
    fees), of the balance above everything the manager owes, of a staker's settled net reward
    that the manager holds, or of the claimable total of PoX-5; other operations move nothing. *)
Theorem wallet_call_moves_only reads request f :
  facts reads request = Ok f ->
  exists c token l, derived reads request c /\ sbtc_movement c token request l /\
    wt_postConditions (af_transaction f) = postConditionToHex <$> l /\
    (l <> [] -> os_sbtcTokenContract (fc_setup c) = Some token).
Proof.
  intros (c & contract & Hd & _ & _ & _ & token & l & Hm & Hp & Ht)%facts_inv. exists c, token, l.
  destruct (dv_reads _ _ _ Hd) as [_ <-]. by split_and!.
Qed.

End Correct.
