(* ===== verification/IntentStoreCorrect.v ===== *)
(** * What the store of wallet intents guarantees

    Every operation of [IntentStore] extends the tables: intents and observations stay, what an
    intent binds never changes, and its state moves along the edges of the protocol.  The
    functional behaviour of create and submit follows. *)

From S2P Require Import Prelude Text CanonicalJson Principals OperationPlan SweepPlan Recipe WalletRequest IntentStore.

Open Scope string_scope.
Open Scope list_scope.
Open Scope Z_scope.

(** ** The protocol of one intent *)

(** One write of a row: a transition of the table, or the one submission. *)
Inductive intent_edge (r : IntentRow) : IntentRow -> Prop :=
  | edge_state s now : s ∈ transitions (iw_state r) -> intent_edge r (with_state s now r)
  | edge_submission s txid now :
      iw_txid r = None -> submittable (iw_state r) = true -> s ∈ [it_submitted; it_superseded] ->
      intent_edge r (with_submission s txid now r).

(** A row and what became of it. *)
Definition moves (r r' : IntentRow) : Prop := rtc intent_edge r r'.

#[global] Instance moves_preorder : PreOrder moves.
Proof. split; red; [apply rtc_refl | intros r s t; apply rtc_trans]. Qed.

(** States that claim nothing of the chain. *)
Definition quiet (s : IntentState) : bool :=
  match s with it_mempool | it_confirmed | it_complete | it_failed => false | _ => true end.

(** What an operation may do beyond moving intents to quiet states: the states it may give to an
    intent, the intents it may create, the observations it may add. *)
Record Licence := {
  lc_state : string -> IntentState -> Prop;
  lc_create : CreateInput -> Prop;
  lc_observe : Observation -> Prop;
}.

Definition idle : Licence :=
  {| lc_state := fun _ _ => False; lc_create := fun _ => False; lc_observe := fun _ => False |}.
Definition may_move (id : string) (to : IntentState) : Licence :=
  {| lc_state := fun i s => i = id /\ s = to; lc_create := fun _ => False; lc_observe := fun _ => False |}.
Definition may_create (input : CreateInput) : Licence :=
  {| lc_state := fun _ _ => False; lc_create := fun i => i = input; lc_observe := fun _ => False |}.
Definition may_observe (ob : Observation) : Licence :=
  {| lc_state := fun _ _ => False; lc_create := fun _ => False; lc_observe := fun o => o = ob |}.
Definition anything : Licence :=
  {| lc_state := fun _ _ => True; lc_create := fun _ => True; lc_observe := fun _ => True |}.

(** A database and a later one, under a licence. *)
Record extends (L : Licence) (d d' : IntentDb) : Prop := {
  ex_rows : forall id r, intents d !! id = Some r -> exists r', intents d' !! id = Some r' /\ moves r r';
  ex_states : forall id r', intents d' !! id = Some r' ->
    intents d !! id = Some r' \/ quiet (iw_state r') = true \/ lc_state L id (iw_state r');
  ex_new : forall id r', intents d' !! id = Some r' -> intents d !! id = None ->
    exists i, lc_create L i /\ ci_id i = id /\ moves (new_intent i) r';
  ex_observations : exists l, observations d' = observations d ++ l /\ Forall (lc_observe L) l;
  ex_valid : valid_intents (intents d) -> valid_intents (intents d');
}.

Lemma edge_keeps r r' : intent_edge r r' ->
  binding_of r' = binding_of r /\ (forall t, iw_txid r = Some t -> iw_txid r' = Some t) /\
  iw_stateVersion r' = iw_stateVersion r + 1.
Proof. intros [s now _|s txid now Hn _ _]; cbn; split_and!; try done. by rewrite Hn. Qed.

Lemma moves_keep r r' : moves r r' ->
  binding_of r' = binding_of r /\ (forall t, iw_txid r = Some t -> iw_txid r' = Some t) /\
  iw_stateVersion r <= iw_stateVersion r'.
Proof.
  induction 1 as [r|r s u (Hb & Ht & Hv)%edge_keeps _ (Hb' & Ht' & Hv')]; [by split_and!|].
  split_and!; [congruence|auto|lia].
Qed.

#[global] Instance extends_preorder L : PreOrder (extends L).
Proof.
  split.
  - intros d. split; auto.
    + intros id r H. exists r. split; [done|reflexivity].
    + congruence.
    + exists []. by rewrite app_nil_r.
  - intros a b c [Hab Hsab Hnab [l [Hlab Hl]] Hvab] [Hbc Hsbc Hnbc [k [Hlbc Hk]] Hvbc]. split; auto.
    + intros id r (s & Hs & Hm)%Hab. apply Hbc in Hs as (t & Ht & Hm'). exists t.
      split; [done|]. by etrans.
    + intros id r [Hr|[Hq|Hl']]%Hsbc; auto.
    + intros id t Ht Hn. destruct (intents b !! id) as [s|] eqn:Hs.
      * destruct (Hnab _ _ Hs Hn) as (i & Hi & Hid & Hm). destruct (Hbc _ _ Hs) as (t' & Ht' & Hm').
        assert (t' = t) as -> by congruence. exists i. split_and!; [done..|]. by etrans.
      * by apply Hnbc.
    + exists (l ++ k). split; [by rewrite Hlbc, Hlab, app_assoc | by apply Forall_app].
Qed.

Lemma extends_weaken L d d' : extends L d d' -> extends anything d d'.
Proof.
  intros [Hr Hs Hn [l [Hl Hf]] Hv]. split; auto.
  - intros id r' H. right. by right.
  - intros id r' H H'. destruct (Hn _ _ H H') as (i & _ & Hi & Hm). by exists i.
  - exists l. split; [done|]. by apply Forall_forall.
Qed.

(** ** Computations of a transaction *)

(** [m], started in [d], ends in a licensed extension with [Q], or throws. *)
Definition tx {A} (L : Licence) (d : IntentDb) (m : txn A) (Q : A -> IntentDb -> Prop) : Prop :=
  match m d with Ok (a, d') => extends L d d' /\ Q a d' | Err _ => True end.

Lemma txn_bind_eq {A B} (m : txn A) (k : A -> txn B) d :
  (m ≫= k) d = match m d with Ok (a, d') => k a d' | Err e => Err e end.
Proof. done. Qed.

Lemma tx_bind {A B} L d (m : txn A) (k : A -> txn B) P Q :
  tx L d m P -> (forall a d', extends L d d' -> P a d' -> tx L d' (k a) Q) -> tx L d (m ≫= k) Q.
Proof.
  unfold tx. rewrite txn_bind_eq. intros Hm Hk. destruct (m d) as [[a d']|]; [|done].
  destruct Hm as [He Hp]. specialize (Hk a d' He Hp). destruct (k a d') as [[b d'']|]; [|done].
  destruct Hk as [He' Hq]. split; [by etrans|done].
Qed.

Lemma tx_weaken {A} L d (m : txn A) (P Q : A -> IntentDb -> Prop) :
  tx L d m P -> (forall a d', P a d' -> Q a d') -> tx L d m Q.
Proof. unfold tx. destruct (m d) as [[a d']|]; naive_solver. Qed.

Lemma tx_ret {A} L d (a : A) (Q : A -> IntentDb -> Prop) : Q a d -> tx L d (mret a) Q.
Proof. intros H. split; [reflexivity|done]. Qed.

Lemma tx_throw {A} L d e (Q : A -> IntentDb -> Prop) : tx L d (throw_txn e) Q.
Proof. done. Qed.

Lemma tx_check L d b e (Q : unit -> IntentDb -> Prop) : (b = true -> Q tt d) -> tx L d (check b e) Q.
Proof. destruct b; cbn; [|done]. intros H. split; [reflexivity|auto]. Qed.

(** The rows after an update. *)
Definition updated (p : string -> IntentRow -> bool) (f : IntentRow -> IntentRow) (d : IntentDb) : IntentDb :=
  with_intents ((f <$> filter (fun '(id, r) => p id r = true) (intents d)) ∪ intents d) d.

Lemma updated_lookup p f d id :
  intents (updated p f d) !! id = (fun r => if p id r then f r else r) <$> intents d !! id.
Proof.
  cbn. rewrite lookup_union, lookup_fmap, map_lookup_filter. destruct (intents d !! id) as [r|]; [|done].
  cbn. destruct (p id r) eqn:Hp; cbn; [by rewrite option_guard_True | by rewrite option_guard_False].
Qed.

(** An update whose writes are edges of the protocol, licensed by [L]. *)
Definition update_edges (L : Licence) (d : IntentDb) (p : string -> IntentRow -> bool)
    (f : IntentRow -> IntentRow) : Prop :=
  forall id r, intents d !! id = Some r -> p id r = true ->
    intent_edge r (f r) /\ (quiet (iw_state (f r)) = true \/ lc_state L id (iw_state (f r))).

Lemma updated_extends L p f d :
  update_edges L d p f -> valid_intents (intents (updated p f d)) -> extends L d (updated p f d).
Proof.
  intros Hf Hv. split; auto.
  - intros id r Hr. rewrite updated_lookup, Hr. cbn. destruct (p id r) eqn:Hp.
    + exists (f r). split; [done|]. by apply rtc_once, (Hf id).
    + exists r. split; [done|reflexivity].
  - intros id r'. rewrite updated_lookup. destruct (intents d !! id) as [r|] eqn:Hr; [|done].
    cbn. destruct (p id r) eqn:Hp; intros [= <-]; [|by left]. right. by apply (Hf id).
  - intros id r'. rewrite updated_lookup. intros Hs Hn. by rewrite Hn in Hs.
  - exists []. cbn. by rewrite app_nil_r.
Qed.

Lemma insert_extends L d i :
  lc_create L i -> intents d !! ci_id i = None ->
  valid_intents (<[ci_id i := new_intent i]> (intents d)) ->
  extends L d (with_intents (<[ci_id i := new_intent i]> (intents d)) d).
Proof.
  intros Hl Hn Hv. split; cbn; auto.
  - intros id r Hr. exists r. rewrite lookup_insert_ne by congruence. split; [done|reflexivity].
  - intros id r' [[<- <-]|[_ H]]%lookup_insert_Some; [|by left]. right. by left.
  - intros id r' [[<- <-]|[_ H]]%lookup_insert_Some Hn'; [|congruence]. exists i. by split_and!.
  - exists []. by rewrite app_nil_r.
Qed.

Lemma tx_bind_insert {A} L d i (k : unit -> txn A) Q :
  lc_create L i ->
  (intents d !! ci_id i = None -> valid_intents (<[ci_id i := new_intent i]> (intents d)) ->
   tx L (with_intents (<[ci_id i := new_intent i]> (intents d)) d) (k tt) Q) ->
  tx L d (insert_intent (ci_id i) (new_intent i) ≫= k) Q.
Proof.
  intros Hl HQ. unfold tx. rewrite txn_bind_eq. unfold insert_intent. case_bool_decide as Hn; [|done].
  unfold write_intents. case_bool_decide as Hv; [|done]. specialize (HQ Hn Hv). unfold tx in HQ.
  destruct (k tt _) as [[a d']|]; [|done]. destruct HQ as [He Hq]. split; [|done].
  etrans; [by apply insert_extends | exact He].
Qed.

(** What an operation leaves, thrown or not. *)
Definition op_leaves {A} (L : Licence) (op : intent_op A) (d : IntentDb) (Q : A -> IntentDb -> Prop) : Prop :=
  let '(r, d') := op d in extends L d d' /\ match r with Ok a => Q a d' | Err _ => d' = d end.

Lemma op_transaction {A} L (m : txn A) d Q : tx L d m Q -> op_leaves L (in_transaction m) d Q.
Proof.
  unfold tx, op_leaves, in_transaction. destruct (m d) as [[a d']|]; [done|]. intros _. by split; [reflexivity|].
Qed.

(** ** Steps of a transaction *)

Lemma tx_bind_check {A} L d b e (k : unit -> txn A) Q :
  (b = true -> tx L d (k tt) Q) -> tx L d (check b e ≫= k) Q.
Proof. intros H. destruct b; [exact (H eq_refl) | exact I]. Qed.

Lemma tx_bind_look {A B} L d (f : IntentDb -> A) (k : A -> txn B) Q :
  tx L d (k (f d)) Q -> tx L d (look f ≫= k) Q.
Proof. done. Qed.

Lemma tx_bind_ret {A B} L d (a : A) (k : A -> txn B) Q : tx L d (k a) Q -> tx L d (mret a ≫= k) Q.
Proof. done. Qed.

Lemma tx_bind_assoc {A B C} L d (m : txn A) (k : A -> txn B) (j : B -> txn C) Q :
  tx L d (m ≫= fun a => k a ≫= j) Q -> tx L d ((m ≫= k) ≫= j) Q.
Proof. unfold tx. rewrite !txn_bind_eq. by destruct (m d) as [[a d']|]. Qed.

Lemma tx_bind_update {A} L d p f (k : nat -> txn A) Q :
  update_edges L d p f ->
  (valid_intents (intents (updated p f d)) ->
   tx L (updated p f d) (k (size (filter (fun '(id, r) => p id r = true) (intents d)))) Q) ->
  tx L d (update_where p f ≫= k) Q.
Proof.
  intros Hf Hk. unfold tx. rewrite txn_bind_eq. unfold update_where. case_bool_decide as Hu; [|done].
  rewrite txn_bind_eq. unfold write_intents. case_bool_decide as Hv; [|done].
  change (with_intents _ d) with (updated p f d). specialize (Hk Hv). unfold tx in Hk. cbn [mret txn_ret].
  destruct (k _ _) as [[a d']|]; [|done]. destruct Hk as [He Hq]. split; [|done].
  etrans; [by apply updated_extends | exact He].
Qed.

(** ** Reads *)

Section StoreCorrect.

Context (isUuid : string -> bool) (validateStacksAddress : string -> bool) (sha256 : list Z -> string).

#[local] Abbreviation row := (row isUuid validateStacksAddress).
#[local] Abbreviation mapIntent := (mapIntent isUuid validateStacksAddress sha256).
#[local] Abbreviation mapIntents := (mapIntents isUuid validateStacksAddress sha256).
#[local] Abbreviation rowSchema := (intentRowSchema isUuid validateStacksAddress).

(** A pair of an ID and its row in the database. *)
Definition stored (d : IntentDb) (s : string * IntentRow) : Prop := intents d !! s.1 = Some s.2.

(** The manifest's digest is the recorded one. *)
Definition sealed_row (r : IntentRow) : Prop := manifestSha256 sha256 (iw_manifest r) = iw_manifestSha256 r.

Lemma tx_bind_row {A} L d id (k : option IntentRow -> txn A) Q :
  (isUuid id = true -> (forall r, intents d !! id = Some r -> rowSchema id r = true) ->
   tx L d (k (intents d !! id)) Q) -> tx L d (row id ≫= k) Q.
Proof.
  intros HQ. unfold IntentStore.row. apply tx_bind_assoc, tx_bind_check. intros Hu.
  apply tx_bind_assoc, tx_bind_look. destruct (intents d !! id) as [r|].
  - apply tx_bind_assoc, tx_bind_check. intros Hr. apply HQ; [done|]. by intros ? [= <-].
  - by apply HQ.
Qed.

Lemma tx_bind_mapIntent {A} L d id r (k : string * IntentRow -> txn A) Q :
  (sealed_row r -> tx L d (k (id, r)) Q) -> tx L d (mapIntent id r ≫= k) Q.
Proof.
  intros HQ. unfold IntentStore.mapIntent. do 3 (apply tx_bind_assoc, tx_bind_check; intros ?).
  apply HQ. breflect. done.
Qed.

Lemma tx_mapIntent L d id r (Q : string * IntentRow -> IntentDb -> Prop) :
  (sealed_row r -> Q (id, r) d) -> tx L d (mapIntent id r) Q.
Proof.
  intros HQ. unfold IntentStore.mapIntent. do 3 (apply tx_bind_check; intros ?).
  apply tx_ret, HQ. breflect. done.
Qed.

Lemma tx_mapIntents L d l (Q : list (string * IntentRow) -> IntentDb -> Prop) :
  (Forall (fun s => sealed_row s.2) l -> Q l d) -> tx L d (mapIntents l) Q.
Proof.
  revert Q. induction l as [|[id r] l IH]; intros Q HQ; cbn [IntentStore.mapIntents].
  - apply tx_ret. by apply HQ.
  - apply tx_bind_mapIntent. intros Hs. eapply tx_bind.
    + apply (IH (fun l' d' => d' = d /\ l' = l /\ Forall (fun s => sealed_row s.2) l)). by intros.
    + intros l' d' _ (-> & -> & Hl). apply tx_ret, HQ. by constructor.
Qed.

(** *** Selections *)

Lemma elem_of_select order p d id r :
  (id, r) ∈ select_intents order p d <-> intents d !! id = Some r /\ p id r = true.
Proof.
  unfold select_intents. rewrite elem_of_js_sort, list_elem_of_In, filter_In, <- list_elem_of_In.
  by rewrite elem_of_map_to_list.
Qed.

Lemma select_stored order p d : Forall (stored d) (select_intents order p d).
Proof. apply Forall_forall. intros [id r] H. by apply elem_of_select in H as [H _]. Qed.

Lemma head_select order p d id r :
  head (select_intents order p d) = Some (id, r) -> intents d !! id = Some r /\ p id r = true.
Proof.
  intros H. apply (elem_of_select order). destruct (select_intents order p d); [done|].
  injection H as ->. by left.
Qed.

Lemma head_select_None order p d id r :
  head (select_intents order p d) = None -> intents d !! id = Some r -> p id r = false.
Proof.
  intros H Hr. destruct (p id r) eqn:Hp; [|done].
  assert (Hin : (id, r) ∈ select_intents order p d) by by apply elem_of_select.
  destruct (select_intents order p d); [by apply elem_of_nil in Hin | done].
Qed.

(** ** The operations *)

(** An active intent of the scope. *)
Definition active_in (action : WalletAction) (scope : string) (r : IntentRow) : bool :=
  in_scope action scope r && is_active r.

Lemma expire_edges L action scope now d :
  update_edges L d (fun _ r => in_scope action scope r && bool_decide (iw_state r = it_prepared) &&
    (iw_expiresAt r <=? now)) (with_state it_expired now).
Proof. intros id r _ H. breflect. split; [|by left]. constructor. rewrite H1. is_in. Qed.

Lemma get_leaves d id :
  op_leaves idle (get_intent isUuid validateStacksAddress sha256 id) d
    (fun o d' => match o with
                 | Some s => s.1 = id /\ stored d' s /\ sealed_row s.2
                 | None => intents d' !! id = None
                 end).
Proof.
  apply op_transaction, tx_bind_row. intros _ _. destruct (intents d !! id) as [r|] eqn:Hr.
  - apply tx_bind_mapIntent. intros Hs. apply tx_ret. by split_and!.
  - by apply tx_ret.
Qed.

Lemma findActive_leaves d action scope now :
  op_leaves idle (findActiveScope isUuid validateStacksAddress sha256 action scope now) d
    (fun o d' => match o with
                 | Some s => stored d' s /\ sealed_row s.2 /\ active_in action scope s.2 = true
                 | None => forall id r, intents d' !! id = Some r -> active_in action scope r = false
                 end).
Proof.
  apply op_transaction, tx_bind_check. intros _. apply tx_bind_update; [apply expire_edges|]. intros _.
  apply tx_bind_look. unfold active_of. destruct (head _) as [[id r]|] eqn:Hh.
  - apply head_select in Hh as [Hr Ha]. apply tx_bind_mapIntent. intros Hs. apply tx_ret. by split_and!.
  - apply tx_ret. intros id r Hr. by eapply head_select_None in Hh.
Qed.

Lemma list_leaves d p :
  op_leaves idle (list_where isUuid validateStacksAddress sha256 p) d
    (fun l d' => Forall (stored d') l).
Proof.
  apply op_transaction, tx_bind_look, tx_mapIntents. intros _. apply select_stored.
Qed.

(** The row of [id] after an update that selects it. *)
Lemma updated_selected p f d id r :
  intents d !! id = Some r -> p id r = true -> intents (updated p f d) !! id = Some (f r).
Proof. intros Hr Hp. rewrite updated_lookup, Hr. cbn. by rewrite Hp. Qed.

(** An update of the one row [id]. *)
Lemma single_edges L d id r p f :
  intents d !! id = Some r -> (forall id' s, p id' s = true -> id' = id) ->
  (p id r = true -> intent_edge r (f r)) -> (quiet (iw_state (f r)) = true \/ lc_state L id (iw_state (f r))) ->
  update_edges L d p f.
Proof.
  intros Hr Hp He Hl id' s Hs Hsel. assert (id' = id) as -> by by eapply Hp.
  assert (s = r) as -> by congruence. auto.
Qed.

Lemma transition_leaves d id from to now :
  op_leaves (may_move id to) (transition_intent isUuid validateStacksAddress sha256 id from to now) d
    (fun s d' => s.1 = id /\ stored d' s /\ sealed_row s.2 /\ iw_state s.2 = to /\
       exists r, intents d !! id = Some r /\
         (s.2 = r \/ (iw_state r ∈ from /\ to ∈ transitions (iw_state r) /\ s.2 = with_state to now r))).
Proof.
  apply op_transaction, tx_bind_check. intros _. apply tx_bind_row. intros _ _.
  destruct (intents d !! id) as [r|] eqn:Hr; [|apply tx_throw].
  case_bool_decide as Hs.
  - apply tx_mapIntent. intros Hseal. cbn. split_and!; try done. exists r. by split; [|left].
  - apply tx_bind_check. intros Hf. apply tx_bind_check. intros Ht.
    apply bool_decide_eq_true in Hf, Ht. apply tx_bind_update.
    { apply (single_edges _ _ id r); [done| |by constructor|by right]. intros id' s H. by breflect. }
    intros _. apply tx_bind_check. intros _. apply tx_bind_row. intros _ _.
    assert (Hsel : intents (updated (fun id' s => String.eqb id' id && (iw_stateVersion s =? iw_stateVersion r) &&
              bool_decide (iw_state s ∈ from)) (with_state to now) d) !! id = Some (with_state to now r)).
    { apply updated_selected; [done|]. rewrite String.eqb_refl, Z.eqb_refl. cbn. by apply bool_decide_eq_true. }
    rewrite Hsel. apply tx_mapIntent. intros Hseal. split_and!; try done. exists r. by split; [|right].
Qed.

(** What the state of a submission leaves: other prepared rows of the scope may be superseded. *)
Lemma submission_state_tx L d id r now (Q : IntentState -> IntentDb -> Prop) :
  intents d !! id = Some r ->
  (forall state d', intents d' !! id = Some r -> state ∈ [it_submitted; it_superseded] -> Q state d') ->
  tx L d (submission_state id r now) Q.
Proof.
  intros Hr HQ. unfold submission_state. case_bool_decide as Hs.
  - apply tx_bind_look. destruct (existsb _ _) eqn:He.
    + apply tx_ret, HQ; [done|is_in].
    + apply tx_bind_update.
      { intros id' s Hs' Hp. breflect. split; [|by left]. constructor. rewrite H0. is_in. }
      intros _. apply tx_ret, HQ; [by rewrite updated_lookup, Hr; cbn; rewrite String.eqb_refl|is_in].
  - apply tx_ret, HQ; [done|is_in].
Qed.

Lemma submit_leaves d id txid now :
  op_leaves idle (submit_intent isUuid validateStacksAddress sha256 id txid now) d
    (fun s d' => s.1 = id /\ stored d' s /\ sealed_row s.2 /\ iw_txid s.2 = Some txid).
Proof.
  apply op_transaction, tx_bind_check. intros _. apply tx_bind_row. intros _ _.
  destruct (intents d !! id) as [r|] eqn:Hr; [|apply tx_throw].
  destruct (iw_txid r) as [t|] eqn:Ht.
  - destruct (String.eqb_spec t txid) as [->|]; [|apply tx_throw]. by apply tx_mapIntent.
  - apply tx_bind_check. intros Hsub. apply tx_bind_look, tx_bind_check. intros _.
    eapply tx_bind.
    { apply (submission_state_tx _ d id r now (fun state d' => intents d' !! id = Some r /\
        state ∈ [it_submitted; it_superseded])); [done|]. by intros. }
    intros state d' _ (Hr' & Hst). apply tx_bind_update.
    { apply (single_edges _ _ id r); [done| |by constructor|].
      - intros id' s H. by breflect.
      - left. cbn. rewrite !elem_of_cons, elem_of_nil in Hst. by destruct Hst as [-> | [-> | []]]. }
    intros _. apply tx_bind_check. intros _. apply tx_bind_row. intros _ _.
    assert (Hsel : forall f, intents (updated (fun id' s => String.eqb id' id && submittable (iw_state s) &&
              (iw_stateVersion s =? iw_stateVersion r) && negb (has_txid s)) f d') !! id = Some (f r)).
    { intros f. apply updated_selected; [done|]. unfold has_txid.
      by rewrite String.eqb_refl, Hsub, Z.eqb_refl, Ht. }
    rewrite Hsel. apply tx_mapIntent. intros Hseal. split_and!; try done. exact (Hsel _).
Qed.

(** *** Create *)

Lemma insert_created_tx L d i (Q : string * IntentRow * bool -> IntentDb -> Prop) :
  lc_create L i ->
  (forall d', intents d' !! ci_id i = Some (new_intent i) -> sealed_row (new_intent i) ->
     Q (ci_id i, new_intent i, true) d') ->
  tx L d (insert_created isUuid validateStacksAddress sha256 i) Q.
Proof.
  intros Hl HQ. apply tx_bind_insert; [done|]. intros _ _. apply tx_bind_row. intros _ _.
  cbn. rewrite lookup_insert_eq. apply tx_bind_mapIntent. intros Hs. apply tx_ret, HQ; [|done].
  cbn. apply lookup_insert_eq.
Qed.

Lemma create_leaves d i :
  op_leaves (may_create i) (create_intent isUuid validateStacksAddress sha256 i) d
    (fun x d' => stored d' x.1 /\ sealed_row x.1.2).
Proof.
  apply op_transaction. do 3 (apply tx_bind_check; intros _).
  apply tx_bind_update; [apply expire_edges|]. intros _. apply tx_bind_row. intros _ _.
  destruct (intents (updated _ _ d) !! ci_id i) as [r|] eqn:Hr.
  { destruct (intentMatchesCreate r i); [|apply tx_throw]. apply tx_bind_mapIntent. intros Hs. by apply tx_ret. }
  apply tx_bind_look. destruct (active_of _ _ _) as [[id r]|] eqn:Ha.
  - apply head_select in Ha as [Hid _]. apply tx_bind_check. intros _.
    destruct (intentMatchesCreate r i).
    + apply tx_bind_mapIntent. intros Hs. by apply tx_ret.
    + eapply tx_bind.
      * apply tx_bind_check. intros Hp. breflect. apply tx_bind_update.
        { apply (single_edges _ _ id r); [done| | |by left].
          - intros id' s H. by breflect.
          - intros _. constructor. rewrite Hp. is_in. }
        intros _. apply (tx_check _ _ _ _ (fun _ _ => True)). done.
      * intros u d' _ _. apply insert_created_tx; [done|]. by intros.
  - apply insert_created_tx; [done|]. by intros.
Qed.

(** *** The other operations *)

Lemma displaceable_gives_way s : s ∈ displaceable -> it_superseded ∈ transitions s.
Proof.
  unfold displaceable. rewrite !elem_of_cons, elem_of_nil.
  by intros [->|[->|[->|[->|[->|[]]]]]]; is_in.
Qed.

Lemma supersede_rows_tx L d now l (Q : unit -> IntentDb -> Prop) :
  Forall (fun s : string * IntentRow => iw_state s.2 ∈ displaceable) l ->
  (forall d', Q tt d') ->
  tx L d (supersede_rows isUuid validateStacksAddress now l) Q.
Proof.
  intros Hl HQ. revert d Hl. induction l as [|[id r] l IH]; intros d Hl; cbn [supersede_rows].
  - by apply tx_ret.
  - apply Forall_cons in Hl as [Hr Hl]. cbn in Hr. apply tx_bind_check. intros _. apply tx_bind_update.
    + intros id' s _ H. breflect. split; [|by left]. constructor. rewrite H1.
      by apply displaceable_gives_way.
    + intros _. apply tx_bind_check. intros _. by apply IH.
Qed.

Lemma reread_tx L d l (Q : list (string * IntentRow) -> IntentDb -> Prop) :
  (forall l', Forall (stored d) l' -> Q l' d) ->
  tx L d (reread isUuid validateStacksAddress sha256 l) Q.
Proof.
  revert Q. induction l as [|[id r] l IH]; intros Q HQ; cbn [reread].
  - apply tx_ret. by apply HQ.
  - apply tx_bind_row. intros _ _. destruct (intents d !! id) as [s|] eqn:Hs; [|apply tx_throw].
    apply tx_bind_mapIntent. intros _. eapply tx_bind.
    + apply (IH (fun l' d' => d' = d /\ Forall (stored d) l')). by intros.
    + intros l' d' _ (-> & Hl). apply tx_ret, HQ. by constructor.
Qed.

Lemma supersede_equivalent_leaves d winnerId now :
  op_leaves idle (supersedeActiveEquivalent isUuid validateStacksAddress sha256 winnerId now) d
    (fun l d' => Forall (stored d') l).
Proof.
  apply op_transaction, tx_bind_row. intros _ _. destruct (intents d !! winnerId) as [w|]; [|apply tx_throw].
  apply tx_bind_check. intros _. apply tx_bind_look. eapply tx_bind.
  - apply (supersede_rows_tx _ _ _ _ (fun _ _ => True)); [|done].
    apply Forall_forall. intros [id r] H. apply elem_of_select in H as [_ H]. by breflect.
  - intros u d' _ _. apply reread_tx. by intros.
Qed.

Lemma append_leaves d i :
  op_leaves (may_observe (observation_of i)) (appendObservation isUuid validateStacksAddress i) d
    (fun _ _ => is_Some (intents d !! ai_intentId i)).
Proof.
  apply op_transaction. do 3 (apply tx_bind_check; intros _). apply tx_bind_row. intros _ _.
  apply tx_bind_check. intros Hr. apply tx_bind_look, tx_bind_check. intros _.
  split; [|by destruct (intents d !! ai_intentId i)]. split; cbn; auto.
  - intros id r H. exists r. split; [done|reflexivity].
  - congruence.
  - exists [observation_of i]. split; [done|]. by repeat constructor.
Qed.

Lemma query_leaves {X} (f : IntentDb -> X) d : op_leaves idle (fun d => (Ok (f d), d)) d (fun x d' => d' = d /\ x = f d).
Proof. split; [reflexivity|done]. Qed.

End StoreCorrect.
