(* ===== verification/IntentRegistry.v ===== *)
(** * Create and submit of the store of wallet intents, as functions

    On tables that satisfy their constraints the two operations that decide over intents never
    meet a constraint: [create_intent] answers by the one live intent of the scope, and
    [submit_intent] records every fresh transaction ID. *)

From S2P Require Import Prelude Text CanonicalJson Principals OperationPlan SweepPlan Recipe WalletRequest IntentStore IntentStoreCorrect.

Open Scope string_scope.
Open Scope list_scope.
Open Scope Z_scope.

(** ** The constraints *)

Lemma valid_intents_spec m :
  valid_intents m <->
  forall id r, m !! id = Some r -> row_checks r = true /\
    forall id' s, m !! id' = Some s -> id <> id' -> rows_disjoint r s = true.
Proof.
  unfold valid_intents, map_Forall. split; intros H id r Hr; destruct (H id r Hr) as [Hc Hd]; split; auto.
  - intros id' s Hs Hn. by destruct (Hd id' s Hs).
  - intros id' s Hs. destruct (decide (id = id')); [by left | right; eauto].
Qed.

Lemma active_in_true action scope r :
  active_in action scope r = true <-> iw_action r = action /\ iw_scope r = scope /\ is_active r = true.
Proof.
  unfold active_in, in_scope. rewrite !andb_true_iff, String.eqb_eq, bool_decide_eq_true. tauto.
Qed.

(** Two active intents of a scope are the same. *)
Lemma active_unique m action scope id r id' s :
  valid_intents m -> m !! id = Some r -> m !! id' = Some s ->
  active_in action scope r = true -> active_in action scope s = true -> id' = id /\ s = r.
Proof.
  intros Hv Hr Hs Ha Hb. destruct (decide (id = id')) as [<-|Hn]; [split; congruence|].
  rewrite valid_intents_spec in Hv. destruct (Hv id r Hr) as [_ Hd]. specialize (Hd id' s Hs Hn).
  rewrite active_in_true in Ha, Hb. destruct Ha as (Ha & Hc & Hr'), Hb as (Hb & Hc' & Hs').
  unfold rows_disjoint, same_scope in Hd. rewrite Ha, Hb, Hc, Hc', Hr', Hs', String.eqb_refl in Hd.
  by rewrite bool_decide_eq_true_2 in Hd.
Qed.

(** An update that keeps what the constraints read, but for leaving the active states. *)
Definition keeps_valid (r r' : IntentRow) : Prop :=
  row_checks r' = true /\ binding_of r' = binding_of r /\ iw_txid r' = iw_txid r /\
  iw_submittedAt r' = iw_submittedAt r /\ (is_active r' = true -> is_active r = true).

Lemma disjoint_kept r r' s s' :
  keeps_valid r r' -> keeps_valid s s' -> rows_disjoint r s = true -> rows_disjoint r' s' = true.
Proof.
  intros (_ & Hb & Ht & _ & Ha) (_ & Hb' & Ht' & _ & Ha'). unfold rows_disjoint, has_txid, same_scope.
  unfold binding_of in Hb, Hb'. injection Hb as -> -> _ _ _ _ _ _ _ _. injection Hb' as -> -> _ _ _ _ _ _ _ _.
  rewrite Ht, Ht'. intros H. apply andb_true_iff in H as [H1 H2]. rewrite H2, andb_true_r.
  destruct (is_active r'); [|done]. rewrite (Ha eq_refl) in H1. destruct (is_active s'); [|done].
  by rewrite (Ha' eq_refl) in H1.
Qed.

Lemma keeps_valid_refl r : row_checks r = true -> keeps_valid r r.
Proof. by intros H. Qed.

Lemma keeps_valid_allowed r r' : keeps_valid r r' -> update_allowed r r' = true.
Proof.
  intros (_ & Hb & Ht & Hs & _). unfold update_allowed, submission_kept. rewrite Hb, Ht, Hs.
  rewrite !bool_decide_eq_true_2 by done. by rewrite !orb_true_r.
Qed.

Lemma updated_valid p f d :
  valid_intents (intents d) ->
  (forall id r, intents d !! id = Some r -> p id r = true -> keeps_valid r (f r)) ->
  valid_intents (intents (updated p f d)).
Proof.
  intros Hv Hf.
  assert (Hk : forall id r, intents (updated p f d) !! id = Some r ->
            exists r0, intents d !! id = Some r0 /\ keeps_valid r0 r).
  { intros id r. rewrite updated_lookup. destruct (intents d !! id) as [r0|] eqn:Hr; [|done]. cbn.
    destruct (p id r0) eqn:Hp; intros [= <-]; exists r0; (split; [done|]); [by eapply Hf|].
    apply keeps_valid_refl. rewrite valid_intents_spec in Hv. by apply (Hv id). }
  rewrite valid_intents_spec in Hv |- *. intros id r Hr. apply Hk in Hr as (r0 & Hr0 & Hkeep).
  split; [apply Hkeep|]. intros id' s Hs Hn. apply Hk in Hs as (s0 & Hs0 & Hkeep').
  eapply disjoint_kept; [exact Hkeep | exact Hkeep' | by eapply Hv].
Qed.

Lemma update_where_runs p f d :
  valid_intents (intents (updated p f d)) ->
  (forall id r, intents d !! id = Some r -> p id r = true -> update_allowed r (f r) = true) ->
  update_where p f d = Ok (size (filter (fun '(id, r) => p id r = true) (intents d)), updated p f d).
Proof.
  intros Hv Hf. unfold update_where. rewrite bool_decide_eq_true_2.
  - rewrite txn_bind_eq. unfold write_intents. by rewrite bool_decide_eq_true_2.
  - intros id r H. apply map_lookup_filter_Some in H as [Hr Hp]. by eapply Hf.
Qed.

Lemma update_valid_runs p f d :
  valid_intents (intents d) ->
  (forall id r, intents d !! id = Some r -> p id r = true -> keeps_valid r (f r)) ->
  update_where p f d = Ok (size (filter (fun '(id, r) => p id r = true) (intents d)), updated p f d).
Proof.
  intros Hv Hf. apply update_where_runs; [by apply updated_valid|].
  intros id r Hr Hp. by eapply keeps_valid_allowed, Hf.
Qed.

Lemma rows_disjoint_comm r s : rows_disjoint r s = true -> rows_disjoint s r = true.
Proof.
  unfold rows_disjoint, same_scope, has_txid. rewrite !andb_true_iff, !negb_true_iff. intros [H1 H2]. split.
  - destruct (is_active r), (is_active s); cbn in *; try done.
    rewrite String.eqb_sym. destruct (String.eqb (iw_scope r) (iw_scope s)); [|by rewrite andb_false_r].
    rewrite andb_true_r in *. apply bool_decide_eq_false in H1. by apply bool_decide_eq_false_2.
  - destruct (iw_txid r), (iw_txid s); cbn in *; try done. rewrite negb_true_iff in *.
    apply bool_decide_eq_false in H2. apply bool_decide_eq_false_2. congruence.
Qed.

Lemma valid_insert m id r' :
  valid_intents m -> row_checks r' = true ->
  (forall id' s, m !! id' = Some s -> id' <> id -> rows_disjoint r' s = true) ->
  valid_intents (<[id := r']> m).
Proof.
  rewrite !valid_intents_spec. intros Hv Hc Hd id1 r1 Hr1.
  apply lookup_insert_Some in Hr1 as [[<- <-]|[Hn Hr1]].
  - split; [done|]. intros id' s [[<- _]|[_ Hs]]%lookup_insert_Some Hn; [done|]. by apply (Hd id').
  - destruct (Hv _ _ Hr1) as [Hc1 Hd1]. split; [done|].
    intros id' s [[<- <-]|[_ Hs]]%lookup_insert_Some Hn'; [|by eapply Hd1].
    apply rows_disjoint_comm. by apply (Hd id1).
Qed.

(** An update that selects exactly the row [id]. *)
Lemma updated_one p f (d : IntentDb) id r :
  intents d !! id = Some r -> (forall id' s, p id' s = true -> id' = id) -> p id r = true ->
  intents (updated p f d) = <[id := f r]> (intents d).
Proof.
  intros Hr Hp Ht. apply map_eq. intros id'. rewrite updated_lookup. destruct (decide (id' = id)) as [->|Hn].
  - rewrite lookup_insert_eq, Hr. cbn. by rewrite Ht.
  - rewrite lookup_insert_ne by done. destruct (intents d !! id') as [s|]; [|done]. cbn.
    destruct (p id' s) eqn:He; [|done]. by apply Hp in He.
Qed.

Lemma one_row p (d : IntentDb) id r :
  intents d !! id = Some r -> (forall id' s, p id' s = true -> id' = id) -> p id r = true ->
  size (filter (fun '(id, r) => p id r = true) (intents d)) = 1%nat.
Proof.
  intros Hr Hp Ht. rewrite (map_eq (filter _ _) {[id := r]}); [apply map_size_singleton|].
  intros id'. destruct (decide (id = id')) as [<-|Hn].
  - rewrite lookup_singleton_eq. apply map_lookup_filter_Some. by split.
  - rewrite lookup_singleton_ne by done. apply map_lookup_filter_None. right. intros s _ H.
    by apply Hn, eq_sym, (Hp id' s).
Qed.

Lemma retire_keeps_valid s now r :
  row_checks r = true -> s = it_superseded \/ (s = it_expired /\ iw_state r = it_prepared) ->
  keeps_valid r (with_state s now r).
Proof.
  intros Hc Hs. split_and!; try done.
  - unfold row_checks, has_txid in *. cbn. rewrite !andb_true_iff in Hc |- *.
    destruct Hc as [[[Hc Ht] H1] H2]. split_and!; try done.
    + by destruct Hs as [->|[-> _]].
    + destruct Hs as [->|[-> Hp]]; [done|]. by rewrite Hp in H2.
  - by destruct Hs as [->|[-> _]].
Qed.

(** ** Running a transaction *)

Lemma run_bind {A B} (m : txn A) (k : A -> txn B) d a d' :
  m d = Ok (a, d') -> (m ≫= k) d = k a d'.
Proof. intros H. by rewrite txn_bind_eq, H. Qed.

Lemma run_check {A} b e (k : unit -> txn A) d : b = true -> (check b e ≫= k) d = k tt d.
Proof. by intros ->. Qed.

Lemma run_look {A B} (f : IntentDb -> A) (k : A -> txn B) d : (look f ≫= k) d = k (f d) d.
Proof. done. Qed.

Lemma run_transaction {A} (m : txn A) d a d' : m d = Ok (a, d') -> in_transaction m d = (Ok a, d').
Proof. intros H. unfold in_transaction. by rewrite H. Qed.

Lemma updated_none p f d :
  (forall id r, intents d !! id = Some r -> p id r = false) -> updated p f d = d.
Proof.
  intros Hp. destruct d as [m l]. unfold updated, with_intents. cbn in *. f_equal. apply map_eq. intros id.
  rewrite lookup_union, lookup_fmap, map_lookup_filter. destruct (m !! id) as [r|] eqn:Hr; [|done]. cbn.
  by rewrite option_guard_False by by rewrite (Hp _ _ Hr).
Qed.

Section Registry.

Context (isUuid : string -> bool) (validateStacksAddress : string -> bool) (sha256 : list Z -> string).

#[local] Abbreviation create := (create_intent isUuid validateStacksAddress sha256).
#[local] Abbreviation submit := (submit_intent isUuid validateStacksAddress sha256).

(** A row the repository can read: it passes its schema, its manifest fits and is the sealed one. *)
Record readable (id : string) (r : IntentRow) : Prop := {
  rd_schema : intentRowSchema isUuid validateStacksAddress id r = true;
  rd_size : is_Some (canonicalDocument (manifest_json (iw_manifest r)) maximumManifestBytes);
  rd_sealed : sealed_row sha256 r;
}.

Lemma readable_uuid id r : readable id r -> isUuid id = true.
Proof. intros [H _ _]. unfold intentRowSchema in H. by breflect. Qed.

Lemma row_runs d id : isUuid id = true -> (forall r, intents d !! id = Some r -> readable id r) ->
  row isUuid validateStacksAddress id d = Ok (intents d !! id, d).
Proof.
  intros Hu Hr. unfold row. rewrite run_check, run_look by done. destruct (intents d !! id) as [r|]; [|done].
  by rewrite run_check by by apply rd_schema, Hr.
Qed.

Lemma mapIntent_runs d id r : readable id r ->
  mapIntent isUuid validateStacksAddress sha256 id r d = Ok ((id, r), d).
Proof.
  intros [Hs Hz Hd]. unfold mapIntent. rewrite run_check by done.
  rewrite run_check by by apply bool_decide_eq_true. rewrite run_check by by apply String.eqb_eq. done.
Qed.

Lemma readable_state id r s now : readable id r -> readable id (with_state s now r).
Proof.
  intros [Hs Hz Hd]. split; try done. unfold intentRowSchema in *. cbn. breflect.
  rewrite !andb_true_iff. split_and!; try done. apply Z.leb_le. lia.
Qed.

Lemma readable_submission id r s txid now :
  txidSchema txid = true -> readable id r -> readable id (with_submission s txid now r).
Proof.
  intros Ht [Hs Hz Hd]. split; try done. unfold intentRowSchema in *. cbn. breflect.
  rewrite !andb_true_iff. split_and!; try done. apply Z.leb_le. lia.
Qed.

(** Tables in order: the constraints hold and every row can be read. *)
Record in_order (d : IntentDb) : Prop := {
  io_valid : valid_intents (intents d);
  io_readable : forall id r, intents d !! id = Some r -> readable id r;
}.

Lemma io_checks d id r : in_order d -> intents d !! id = Some r -> row_checks r = true.
Proof. intros [Hv _] Hr. rewrite valid_intents_spec in Hv. by apply (Hv id). Qed.

(** Retiring rows keeps the tables in order. *)
Lemma retired_in_order d p s now :
  in_order d ->
  (forall id r, intents d !! id = Some r -> p id r = true ->
     s = it_superseded \/ (s = it_expired /\ iw_state r = it_prepared)) ->
  update_where p (with_state s now) d =
    Ok (size (filter (fun '(id, r) => p id r = true) (intents d)), updated p (with_state s now) d) /\
  in_order (updated p (with_state s now) d).
Proof.
  intros Ho Hs.
  assert (Hk : forall id r, intents d !! id = Some r -> p id r = true -> keeps_valid r (with_state s now r)).
  { intros id r Hr Hp. apply retire_keeps_valid; [by eapply io_checks | by eapply Hs]. }
  split; [apply update_valid_runs; [apply Ho|exact Hk]|]. split; [apply updated_valid; [apply Ho|exact Hk]|].
  intros id r. rewrite updated_lookup. destruct (intents d !! id) as [r0|] eqn:Hr; [|done]. cbn.
  pose proof (io_readable d Ho id r0 Hr) as Hrd.
  destruct (p id r0); intros [= <-]; [by apply readable_state | done].
Qed.

(** ** Submission *)

(** Another intent of the scope that was broadcast and may still act. *)
Definition rival_broadcast (d : IntentDb) (id : string) (r : IntentRow) : Prop :=
  exists id' s, intents d !! id' = Some s /\ id' <> id /\
    active_in (iw_action r) (iw_scope r) s = true /\ iw_state s <> it_prepared.

(** What a submission at [now] does to another intent. *)
Definition other_kept (d d' : IntentDb) (id : string) (r : IntentRow) (now : Z) : Prop :=
  forall id', id' <> id ->
    intents d' !! id' = intents d !! id' \/
    (exists s, intents d !! id' = Some s /\ iw_state s = it_prepared /\
       active_in (iw_action r) (iw_scope r) s = true /\
       intents d' !! id' = Some (with_state it_superseded now s)).

Lemma competing_true id r id' s :
  competing id r id' s = true <-> id' <> id /\ active_in (iw_action r) (iw_scope r) s = true.
Proof.
  unfold competing, active_in. rewrite !andb_true_iff, negb_true_iff, String.eqb_neq. tauto.
Qed.

Lemma other_kept_refl d id r now : other_kept d d id r now.
Proof. intros id' _. by left. Qed.

(** The rivals of [id] the query finds, when one was broadcast. *)
Lemma existsb_rivals d id r :
  existsb (fun '(_, s) => negb (bool_decide (iw_state s = it_prepared)))
    (select_intents created_order (competing id r) d) = true <-> rival_broadcast d id r.
Proof.
  rewrite existsb_exists. split.
  - intros ([id' s] & Hin & Hs). apply list_elem_of_In, elem_of_select in Hin as [Hin Hc].
    apply competing_true in Hc as [Hn Ha]. exists id', s. split_and!; try done. by breflect.
  - intros (id' & s & Hs & Hn & Ha & Hp). exists (id', s). split; [|by rewrite bool_decide_eq_false_2].
    apply list_elem_of_In, elem_of_select. split; [done|]. by apply competing_true.
Qed.

(** A late submission without a broadcast rival displaces the prepared intent of the scope. *)
Lemma displace_prepared_runs d id r now :
  in_order d -> intents d !! id = Some r -> ~ rival_broadcast d id r ->
  exists n d1, update_where (fun id' s => negb (String.eqb id' id) && in_scope (iw_action r) (iw_scope r) s &&
      bool_decide (iw_state s = it_prepared)) (with_state it_superseded now) d = Ok (n, d1) /\
    in_order d1 /\ intents d1 !! id = Some r /\ other_kept d d1 id r now /\
    forall id' s, intents d1 !! id' = Some s -> id' <> id -> active_in (iw_action r) (iw_scope r) s = false.
Proof.
  intros Ho Hr Hriv. set (p := fun id' s => _).
  destruct (retired_in_order d p it_superseded now Ho) as [Hrun Ho']; [by left|].
  eexists _, _. split_and!; [exact Hrun|exact Ho'| | |].
  - rewrite updated_lookup, Hr. unfold p. cbn. by rewrite String.eqb_refl.
  - intros id' Hn. rewrite updated_lookup. destruct (intents d !! id') as [s|]; [|by left]. cbn.
    destruct (p id' s) eqn:Hp; [|by left]. right. exists s. unfold p, active_in in *. breflect. unfold is_active.
    by rewrite H1, H0.
  - intros id' s. rewrite updated_lookup. destruct (intents d !! id') as [s0|] eqn:Hs0; [|done]. cbn.
    destruct (p id' s0) eqn:Hp; intros [= <-] Hn; [unfold active_in; cbn; apply andb_false_r|].
    apply not_true_iff_false. intros Ha. apply Hriv. exists id', s0. split_and!; try done.
    intros Hprep. unfold p in Hp. rewrite Hprep, (proj2 (String.eqb_neq _ _) Hn) in Hp.
    unfold active_in in Ha. breflect. by rewrite H in Hp.
Qed.

(** The state a submission gets, and the tables it finds then. *)
Lemma submission_state_runs d id r now :
  in_order d -> intents d !! id = Some r -> submittable (iw_state r) = true ->
  exists state d1, submission_state id r now d = Ok (state, d1) /\ in_order d1 /\
    intents d1 !! id = Some r /\ other_kept d d1 id r now /\
    ((state = it_submitted /\ (iw_state r = it_prepared \/ ~ rival_broadcast d id r) /\
      forall id' s, intents d1 !! id' = Some s -> id' <> id ->
        active_in (iw_action r) (iw_scope r) s = false) \/
     (state = it_superseded /\ iw_state r <> it_prepared /\ rival_broadcast d id r)).
Proof.
  intros Ho Hr Hsub. unfold submission_state. case_bool_decide as Hst.
  - rewrite run_look. destruct (existsb _ _) eqn:He.
    + apply existsb_rivals in He. exists it_superseded, d.
      split_and!; try done; [apply other_kept_refl|]. right. split_and!; [done| |done].
      intros Hp. rewrite Hp, !elem_of_cons, elem_of_nil in Hst. by destruct Hst as [|[|[]]].
    + assert (Hriv : ~ rival_broadcast d id r) by by rewrite <- existsb_rivals, He.
      destruct (displace_prepared_runs d id r now Ho Hr Hriv) as (n & d1 & Hrun & Ho1 & Hr1 & Hk & Ha).
      rewrite (run_bind _ _ _ _ _ Hrun). exists it_submitted, d1. split_and!; try done.
      left. split_and!; [done|by right|done].
  - assert (Hp : iw_state r = it_prepared).
    { unfold submittable in Hsub. apply bool_decide_eq_true in Hsub.
      rewrite !elem_of_cons in Hsub. rewrite !elem_of_cons in Hst. set_solver. }
    exists it_submitted, d. split_and!; try done; [apply other_kept_refl|]. left. split_and!; [done|by left|].
    intros id' s Hs Hn. apply not_true_iff_false. intros Ha. apply Hn.
    eapply (active_unique (intents d)); [apply Ho|exact Hr|exact Hs| |exact Ha].
    apply active_in_true. unfold is_active. by rewrite Hp.
Qed.

(** Recording the submission of [id] among tables where it fits. *)
Lemma record_submission d id r state txid now :
  in_order d -> intents d !! id = Some r -> submittable (iw_state r) = true -> iw_txid r = None ->
  txidSchema txid = true -> (forall id' s, intents d !! id' = Some s -> iw_txid s <> Some txid) ->
  (state = it_superseded \/ state = it_submitted /\
     forall id' s, intents d !! id' = Some s -> id' <> id -> active_in (iw_action r) (iw_scope r) s = false) ->
  let p id' s := String.eqb id' id && submittable (iw_state s) && (iw_stateVersion s =? iw_stateVersion r) &&
                 negb (has_txid s) in
  let d' := updated p (with_submission state txid now) d in
  update_where p (with_submission state txid now) d = Ok (1%nat, d') /\
  in_order d' /\ intents d' = <[id := with_submission state txid now r]> (intents d).
Proof.
  intros Ho Hr Hsub Ht Htx Hfresh Hst p d'.
  assert (Hone : forall id' s, p id' s = true -> id' = id) by (intros id' s H; unfold p in H; by breflect).
  assert (Hp : p id r = true) by (unfold p, has_txid; by rewrite String.eqb_refl, Hsub, Z.eqb_refl, Ht).
  assert (Hd' : intents d' = <[id := with_submission state txid now r]> (intents d)) by by apply updated_one.
  assert (Hv : valid_intents (intents d')).
  { rewrite Hd'. apply valid_insert; [apply Ho| |].
    - pose proof (io_checks d id r Ho Hr) as Hc. unfold row_checks in *. cbn. rewrite !andb_true_iff in *.
      destruct Hc as [[[Hc _] _] _]. split_and!; try done; by destruct Hst as [-> | [-> _]].
    - intros id' s Hs Hn. unfold rows_disjoint. cbn. apply andb_true_iff. split.
      + destruct Hst as [-> | [-> Hno]]; [done|]. specialize (Hno id' s Hs Hn).
        destruct (is_active s) eqn:Has; [|by rewrite andb_false_r].
        apply negb_true_iff. rewrite andb_true_r. cbn. apply not_true_iff_false. intros Hsc.
        apply not_true_iff_false in Hno. apply Hno, active_in_true. unfold same_scope in Hsc. cbn in Hsc. by breflect.
      + apply negb_true_iff, bool_decide_eq_false. cbn. intros H. by apply (Hfresh id' s Hs). }
  split_and!; [|split; [done|]|done].
  - rewrite update_where_runs; [by rewrite (one_row p d id r)|done|].
    intros id' s Hs Hsel. rewrite (Hone _ _ Hsel), Hr in Hs. injection Hs as <-.
    pose proof (io_checks d id r Ho Hr) as Hc. unfold row_checks, has_txid in Hc. rewrite Ht in Hc.
    unfold update_allowed, submission_kept, has_txid. rewrite Ht, bool_decide_eq_true_2 by done. cbn.
    destruct (iw_submittedAt r); [breflect; discriminate|done].
  - rewrite Hd'. intros id' s [[<- <-]|[_ Hs]]%lookup_insert_Some; [|by apply Ho].
    apply readable_submission; [done|]. by apply Ho.
Qed.

(** A transaction ID the wallet reports is recorded: on tables in order, submitting a fresh ID
    for an intent that has none never fails, whether the intent is still prepared, has expired or
    was superseded meanwhile.  The intent becomes superseded exactly when it was late and another
    intent of its scope has been broadcast; otherwise it is the one active intent of the scope, a
    prepared rival having made way.  No other intent changes. *)
Theorem submission_is_recorded d id r txid now :
  in_order d -> intents d !! id = Some r -> submittable (iw_state r) = true -> iw_txid r = None ->
  txidSchema txid = true -> (forall id' s, intents d !! id' = Some s -> iw_txid s <> Some txid) ->
  exists state d',
    submit id txid now d = (Ok (id, with_submission state txid now r), d') /\
    in_order d' /\ intents d' !! id = Some (with_submission state txid now r) /\
    (state = it_superseded /\ iw_state r <> it_prepared /\ rival_broadcast d id r \/
     state = it_submitted /\ (iw_state r = it_prepared \/ ~ rival_broadcast d id r)) /\
    other_kept d d' id r now.
Proof.
  intros Ho Hr Hsub Ht Htx Hfresh. pose proof (readable_uuid id r (io_readable d Ho id r Hr)) as Hu.
  destruct (submission_state_runs d id r now Ho Hr Hsub) as (state & d1 & Hrun & Ho1 & Hr1 & Hk & Hst).
  assert (Hfresh1 : forall id' s, intents d1 !! id' = Some s -> iw_txid s <> Some txid).
  { intros id' s Hs. destruct (decide (id' = id)) as [->|Hn]; [congruence|].
    destruct (Hk id' Hn) as [He|(s0 & Hs0 & _ & _ & He)]; rewrite He in Hs; [by eapply Hfresh|].
    injection Hs as <-. by apply (Hfresh id' s0). }
  destruct (record_submission d1 id r state txid now) as (Hup & Ho2 & Hd2); try done; [tauto|].
  eexists state, _. split_and!; [|exact Ho2|rewrite Hd2; apply lookup_insert_eq|tauto|].
  - apply run_transaction. rewrite run_check by by rewrite Hu, Htx.
    rewrite (run_bind _ _ _ _ _ (row_runs d id Hu (fun r => io_readable d Ho id r))), Hr. cbn beta iota. rewrite Ht.
    rewrite run_check, run_look by done.
    rewrite run_check by (apply negb_true_iff, not_true_iff_false; intros He;
      apply existsb_exists in He as ([id' s] & Hin & He); breflect;
      apply list_elem_of_In, elem_of_map_to_list in Hin; by apply (Hfresh id' s)).
    rewrite (run_bind _ _ _ _ _ Hrun), (run_bind _ _ _ _ _ Hup), run_check by done.
    rewrite (run_bind _ _ _ _ _ (row_runs _ id Hu (fun r => io_readable _ Ho2 id r))), Hd2, lookup_insert_eq.
    apply mapIntent_runs, (io_readable _ Ho2). rewrite Hd2. apply lookup_insert_eq.
  - intros id' Hn. rewrite Hd2, !lookup_insert_ne by done. by apply Hk.
Qed.

(** ** Creation *)

(** An input the repository takes: it passes the schema and its manifest fits and is the sealed one. *)
Record acceptable (i : CreateInput) : Prop := {
  ac_schema : createInputSchema isUuid validateStacksAddress i = true;
  ac_size : is_Some (canonicalDocument (manifest_json (ci_manifest i)) maximumManifestBytes);
  ac_sealed : manifestSha256 sha256 (ci_manifest i) = ci_manifestSha256 i;
}.

Lemma acceptable_uuid i : acceptable i -> isUuid (ci_id i) = true.
Proof. intros [H _ _]. unfold createInputSchema in H. by breflect. Qed.

Lemma acceptable_lifetime i : acceptable i -> ci_createdAt i < ci_expiresAt i.
Proof. intros [H _ _]. unfold createInputSchema in H. by breflect. Qed.

Lemma new_readable i : acceptable i -> readable (ci_id i) (new_intent i).
Proof.
  intros [Hs Hz Hd]. split; try done. unfold createInputSchema in Hs. unfold intentRowSchema. cbn. breflect.
  rewrite !andb_true_iff. by split_and!.
Qed.

(** The prepared intents of the scope whose lifetime is over at the creation. *)
Definition lapsed (i : CreateInput) (r : IntentRow) : bool :=
  in_scope (ci_action i) (ci_scope i) r && bool_decide (iw_state r = it_prepared) &&
  (iw_expiresAt r <=? ci_createdAt i).

(** The tables once they have expired. *)
Definition expired (i : CreateInput) (d : IntentDb) : IntentDb :=
  updated (fun _ r => lapsed i r) (with_state it_expired (ci_createdAt i)) d.

(** The live intent of the scope. *)
Definition live (d : IntentDb) (i : CreateInput) (id : string) (r : IntentRow) : Prop :=
  intents d !! id = Some r /\ active_in (ci_action i) (ci_scope i) r = true /\ lapsed i r = false.

Lemma expired_runs d i : in_order d ->
  (exists n, expire_prepared (ci_action i) (ci_scope i) (ci_createdAt i) d = Ok (n, expired i d)) /\
  in_order (expired i d).
Proof.
  intros Ho. destruct (retired_in_order d (fun _ r => lapsed i r) it_expired (ci_createdAt i) Ho) as [Hrun Ho'].
  - intros id r _ H. right. unfold lapsed in H. by breflect.
  - split; [eexists; exact Hrun | exact Ho'].
Qed.

Lemma expired_lookup d i id r :
  intents (expired i d) !! id = Some r -> active_in (ci_action i) (ci_scope i) r = true <-> live d i id r.
Proof.
  unfold expired. rewrite updated_lookup. unfold live. destruct (intents d !! id) as [s|] eqn:Hs; [|done]. cbn.
  destruct (lapsed i s) eqn:Hl; intros [= <-].
  - unfold active_in, is_active. cbn. rewrite andb_false_r. split; [done|]. intros (H & _ & Hl').
    injection H as H. congruence.
  - split; [intros Ha; by split_and!|]. by intros (_ & Ha & _).
Qed.

Lemma live_expired d i id r : live d i id r -> intents (expired i d) !! id = Some r.
Proof. intros (Hr & _ & Hl). unfold expired. rewrite updated_lookup, Hr. cbn. by rewrite Hl. Qed.

Lemma active_of_live d i id r :
  in_order d -> live d i id r -> active_of (ci_action i) (ci_scope i) (expired i d) = Some (id, r).
Proof.
  intros Ho Hl. pose proof (live_expired d i id r Hl) as Hr. destruct (expired_runs d i Ho) as [_ Ho1].
  unfold active_of. destruct (head _) as [[id' s]|] eqn:Hh.
  - apply head_select in Hh as [Hs Ha]. destruct (active_unique (intents (expired i d)) (ci_action i) (ci_scope i) id r id' s)
      as [-> ->]; [apply Ho1|exact Hr|exact Hs| |exact Ha|done]. by apply (expired_lookup d i id r).
  - eapply head_select_None in Hh; [|exact Hr]. apply not_true_iff_false in Hh. exfalso. apply Hh.
    by apply (expired_lookup d i id r).
Qed.

Lemma active_of_none d i :
  (forall id r, ~ live d i id r) -> active_of (ci_action i) (ci_scope i) (expired i d) = None.
Proof.
  intros Hn. unfold active_of. destruct (head _) as [[id r]|] eqn:Hh; [|done].
  apply head_select in Hh as [Hr Ha]. exfalso. apply (Hn id r). by apply expired_lookup.
Qed.

Definition registered (i : CreateInput) (d : IntentDb) : IntentDb :=
  with_intents (<[ci_id i := new_intent i]> (intents d)) d.

Lemma insert_created_runs d i :
  in_order d -> acceptable i -> intents d !! ci_id i = None ->
  (forall id r, intents d !! id = Some r -> active_in (ci_action i) (ci_scope i) r = false) ->
  insert_created isUuid validateStacksAddress sha256 i d = Ok ((ci_id i, new_intent i, true), registered i d) /\
  in_order (registered i d).
Proof.
  intros Ho Ha Hn Hfree.
  assert (Ho' : in_order (registered i d)).
  { split; cbn.
    - apply valid_insert; [apply Ho| |].
      + unfold row_checks. cbn. rewrite !andb_true_r. apply Z.ltb_lt, acceptable_lifetime, Ha.
      + intros id s Hs _. specialize (Hfree id s Hs). unfold rows_disjoint, same_scope. cbn.
        rewrite andb_true_r. apply negb_true_iff. apply not_true_iff_false in Hfree. apply not_true_iff_false.
        intros H. apply Hfree, active_in_true. by breflect.
    - intros id r [[<- <-]|[_ Hr]]%lookup_insert_Some; [by apply new_readable|by apply Ho]. }
  split; [|done]. unfold insert_created.
  rewrite (run_bind _ _ d tt (registered i d)).
  2: { unfold insert_intent. rewrite bool_decide_eq_true_2 by done. unfold write_intents.
       rewrite bool_decide_eq_true_2; [done|]. apply Ho'. }
  rewrite (run_bind _ _ _ _ _ (row_runs _ _ (acceptable_uuid i Ha) (fun r => io_readable _ Ho' _ r))).
  cbn [registered intents with_intents]. rewrite lookup_insert_eq.
  by rewrite (run_bind _ _ _ _ _ (mapIntent_runs _ _ _ (new_readable i Ha))).
Qed.

(** The create up to its decision over the active intent. *)
Lemma create_reaches d i :
  in_order d -> acceptable i -> intents d !! ci_id i = None ->
  create i d = in_transaction (fun _ => match active_of (ci_action i) (ci_scope i) (expired i d) with
    | None => insert_created isUuid validateStacksAddress sha256 i (expired i d)
    | Some (id, r) =>
        if intentMatchesCreate r i then Ok ((id, r, false), expired i d)
        else (_ ← displace i (id, r); insert_created isUuid validateStacksAddress sha256 i) (expired i d)
    end) d.
Proof.
  intros Ho Ha Hn. destruct (expired_runs d i Ho) as [[n Hrun] Ho1].
  assert (Hn1 : intents (expired i d) !! ci_id i = None) by (unfold expired; by rewrite updated_lookup, Hn).
  unfold create_intent, in_transaction. rewrite run_check by apply Ha.
  rewrite run_check by (apply bool_decide_eq_true, Ha). rewrite run_check by (apply String.eqb_eq, Ha).
  rewrite (run_bind _ _ _ _ _ Hrun).
  rewrite (run_bind _ _ _ _ _ (row_runs _ _ (acceptable_uuid i Ha) (fun r => io_readable _ Ho1 _ r))), Hn1, run_look.
  destruct (active_of _ _ _) as [[id r]|] eqn:Hact; [|done].
  apply head_select in Hact as [Hr _]. pose proof (io_readable _ Ho1 id r Hr) as Hrd.
  rewrite run_check by apply Hrd. destruct (intentMatchesCreate r i); [|done].
  by rewrite (run_bind _ _ _ _ _ (mapIntent_runs _ _ _ Hrd)).
Qed.

(** The prepared live intent made way. *)
Definition displaced (i : CreateInput) (id : string) (r : IntentRow) (d : IntentDb) : IntentDb :=
  with_intents (<[id := with_state it_superseded (ci_createdAt i) r]> (intents d)) d.

Lemma displace_runs d i id r :
  in_order d -> live d i id r -> iw_state r = it_prepared ->
  displace i (id, r) (expired i d) = Ok (tt, displaced i id r (expired i d)) /\
  in_order (displaced i id r (expired i d)).
Proof.
  intros Ho Hl Hp. destruct (expired_runs d i Ho) as [_ Ho1]. pose proof (live_expired d i id r Hl) as Hr.
  set (p := fun id' s => String.eqb id' id && bool_decide (iw_state s = it_prepared) &&
                         (iw_stateVersion s =? iw_stateVersion r)).
  assert (Hone : forall id' s, p id' s = true -> id' = id) by (intros id' s H; unfold p in H; by breflect).
  assert (Hsel : p id r = true) by (unfold p; by rewrite String.eqb_refl, Hp, Z.eqb_refl).
  destruct (retired_in_order (expired i d) p it_superseded (ci_createdAt i) Ho1) as [Hrun Ho2]; [by left|].
  assert (Hd : updated p (with_state it_superseded (ci_createdAt i)) (expired i d) =
               displaced i id r (expired i d)).
  { change (updated ?p ?f ?x) with (with_intents (intents (updated p f x)) x).
    unfold displaced. f_equal. by apply updated_one. }
  rewrite Hd in *. split; [|done]. unfold displace. rewrite run_check by by apply bool_decide_eq_true.
  rewrite (run_bind _ _ _ _ _ Hrun). by rewrite (one_row p _ id r).
Qed.

(** A prepared live intent is replaced by the new one. *)
Lemma replace_prepared_runs d i id r :
  in_order d -> acceptable i -> intents d !! ci_id i = None -> live d i id r -> iw_state r = it_prepared ->
  (_ ← displace i (id, r); insert_created isUuid validateStacksAddress sha256 i) (expired i d) =
    Ok ((ci_id i, new_intent i, true), registered i (displaced i id r (expired i d))) /\
  in_order (registered i (displaced i id r (expired i d))).
Proof.
  intros Ho Ha Hn Hl Hp. destruct (displace_runs d i id r Ho Hl Hp) as [Hd Ho2].
  destruct (expired_runs d i Ho) as [_ Ho1]. pose proof (live_expired d i id r Hl) as Hr.
  rewrite (run_bind _ _ _ _ _ Hd). apply insert_created_runs; [done..| |].
  - unfold displaced, expired. cbn [intents with_intents].
    rewrite lookup_insert_ne, updated_lookup, Hn by (intros ->; destruct Hl; congruence). done.
  - unfold displaced. cbn [intents with_intents]. intros id' s Hs. apply not_true_iff_false. intros Hact.
    apply lookup_insert_Some in Hs as [[<- <-]|[Hne Hs]].
    + apply active_in_true in Hact as (_ & _ & Hact). done.
    + apply Hne. edestruct (active_unique (intents (expired i d)) (ci_action i) (ci_scope i) id' s id r);
        try done; [apply Ho1|]. apply Hl.
Qed.

(** Without a live intent the new one is registered. *)
Lemma first_intent_runs d i :
  in_order d -> acceptable i -> intents d !! ci_id i = None -> (forall id r, ~ live d i id r) ->
  insert_created isUuid validateStacksAddress sha256 i (expired i d) =
    Ok ((ci_id i, new_intent i, true), registered i (expired i d)) /\
  in_order (registered i (expired i d)).
Proof.
  intros Ho Ha Hn Hno. destruct (expired_runs d i Ho) as [_ Ho1]. apply insert_created_runs; try done.
  - unfold expired. by rewrite updated_lookup, Hn.
  - intros id r Hr. apply not_true_iff_false. intros Hact. apply (Hno id r). by apply expired_lookup.
Qed.

(** A create answered by the live intent. *)
Lemma create_live d i id r :
  in_order d -> acceptable i -> intents d !! ci_id i = None -> live d i id r ->
  create i d =
    (if intentMatchesCreate r i then (Ok (id, r, false), expired i d)
     else if bool_decide (iw_state r = it_prepared)
     then (Ok (ci_id i, new_intent i, true), registered i (displaced i id r (expired i d)))
     else (Err active_intent_conflict, d)).
Proof.
  intros Ho Ha Hn Hl. rewrite create_reaches by done. unfold in_transaction.
  rewrite (active_of_live d i id r Ho Hl). destruct (intentMatchesCreate r i); [done|].
  case_bool_decide as Hp.
  - by destruct (replace_prepared_runs d i id r Ho Ha Hn Hl Hp) as [-> _].
  - rewrite txn_bind_eq. unfold displace, check. rewrite bool_decide_eq_false_2 by done. done.
Qed.

(** Creating an intent is decided by the live intent of its scope.  On tables in order and for
    an acceptable input with a new ID: the same sealed request is answered by the live intent
    itself; another prepared one is superseded and the new intent becomes the active one; once the
    live intent was broadcast the create is refused and nothing changes; without a live intent the
    new one is registered.  Prepared intents whose lifetime is over expire on the way. *)
Theorem create_decides d i :
  in_order d -> acceptable i -> intents d !! ci_id i = None ->
  (forall id r, live d i id r ->
     create i d =
       if intentMatchesCreate r i then (Ok (id, r, false), expired i d)
       else if bool_decide (iw_state r = it_prepared)
       then (Ok (ci_id i, new_intent i, true), registered i (displaced i id r (expired i d)))
       else (Err active_intent_conflict, d)) /\
  ((forall id r, ~ live d i id r) ->
     create i d = (Ok (ci_id i, new_intent i, true), registered i (expired i d))) /\
  in_order (create i d).2.
Proof.
  intros Ho Ha Hn. destruct (expired_runs d i Ho) as [_ Ho1].
  assert (Hno : (forall id r, ~ live d i id r) ->
    create i d = (Ok (ci_id i, new_intent i, true), registered i (expired i d))).
  { intros Hno. rewrite create_reaches, active_of_none by done. unfold in_transaction.
    by destruct (first_intent_runs d i Ho Ha Hn Hno) as [-> _]. }
  split_and!; [intros id r; by apply create_live|done|].
  destruct (active_of (ci_action i) (ci_scope i) (expired i d)) as [[id r]|] eqn:Hact.
  - apply head_select in Hact as [Hr Hact]. assert (Hl : live d i id r) by by apply expired_lookup.
    rewrite (create_live d i id r) by done. destruct (intentMatchesCreate r i); [done|].
    case_bool_decide as Hp; [|done]. by apply replace_prepared_runs.
  - assert (Hnone : forall id r, ~ live d i id r).
    { intros id r Hl. by rewrite (active_of_live d i id r Ho Hl) in Hact. }
    rewrite Hno by done. by apply first_intent_runs.
Qed.

End Registry.
