(* ===== verification/IntentSystem.v ===== *)
(** * The process the wallet-intent service runs in

    Calls of the methods of [IntentService] in any order and any number at once: each runs without
    interruption to its next [Ask], where it waits for its answer while others run.  The process
    may stop after any commit of a call; the store remains, the service's memory and the waiting
    calls are gone. *)

From S2P Require Import Prelude Text CanonicalJson Clarity OperationPlan NakamotoBlock Receipt Cadence WalletRequest WalletVerify WalletFacts IntentStore IntentService.

Open Scope string_scope.
Open Scope list_scope.
Open Scope Z_scope.

(** ** Segments *)

(** [m] run to its end or its next question: the databases it committed, what is left of it, and
    the store and memory it leaves. *)
Fixpoint run {A} (m : prog A) (d : IntentDb) (mem : Memory) : list IntentDb * (prog A * (IntentDb * Memory)) :=
  match m with
  | Done r => ([], (Done r, (d, mem)))
  | Store op k =>
      let '(x, d') := op d in
      let '(commits, rest) := run (k x) d' mem in
      (d' :: commits, rest)
  | Remember f k => let '(x, mem') := f mem in run (k x) d mem'
  | Ask q k => ([], (Ask q k, (d, mem)))
  end.

(** ** The process *)

(** A waiting call; what it will return is an intent for those that return one. *)
Definition Task : Type := prog (option PublicIntent).

Record System := {
  sy_db : IntentDb;
  sy_memory : Memory;
  sy_tasks : list Task;
  sy_replies : list PublicIntent;
}.

(** The memory of a new process; IDs are not drawn twice. *)
Definition fresh_memory (drawn : nat) : Memory :=
  {| mm_refreshes := ∅; mm_outcomes := ∅; mm_tickets := 0; mm_cadence := ∅; mm_drawn := drawn |}.

Definition initial_system : System :=
  {| sy_db := {| intents := ∅; observations := [] |}; sy_memory := fresh_memory 0;
     sy_tasks := []; sy_replies := [] |}.

(** The methods the server and the maintenance loop call, at a time of the clock. *)
Inductive Call :=
  | call_get (id : string)
  | call_prepare (request : WalletRequest) (now : Z)
  | call_submit (id txid : string) (now : Z)
  | call_refresh (id : string) (now : Z)
  | call_replace (id : string) (now : Z)
  | call_observeSubmitted (now : Z).

(** A call whose segment ended: it waits, or it has replied. *)
Definition settled (tasks : list Task) (replies : list PublicIntent) (m : Task) : list Task * list PublicIntent :=
  match m with
  | Done (Ok (Some p)) => (tasks, p :: replies)
  | Done _ => (tasks, replies)
  | _ => (m :: tasks, replies)
  end.

(** The system once [m] ran in place of a call of [tasks]. *)
Definition after_segment (m : Task) (tasks : list Task) (y : System) : System :=
  let '(_, (m', (d', mem'))) := run m (sy_db y) (sy_memory y) in
  let '(tasks', replies') := settled tasks (sy_replies y) m' in
  {| sy_db := d'; sy_memory := mem'; sy_tasks := tasks'; sy_replies := replies' |}.

(** The system after a stop with the store [d]. *)
Definition restarted (d : IntentDb) (drawn : nat) (replies : list PublicIntent) : System :=
  {| sy_db := d; sy_memory := fresh_memory drawn; sy_tasks := []; sy_replies := replies |}.

(** A segment may be cut after any of its commits; at most [drawn] IDs were drawn then. *)
Definition stops_in (m : Task) (y y' : System) : Prop :=
  exists d drawn, d ∈ sy_db y :: (run m (sy_db y) (sy_memory y)).1 /\
    (mm_drawn (sy_memory y) <= drawn <= mm_drawn (run m (sy_db y) (sy_memory y)).2.2.2)%nat /\
    y' = restarted d drawn (sy_replies y).

(** The answers the chain, the API and the facts reads may give. *)
Class IntentWorld := Shown : forall q : Question, Answer q -> Prop.

Section System.

Context {W : IntentLibrary} {V : IntentWorld}.

Definition replying (m : prog PublicIntent) : Task := p ← m; mret (Some p).

(** The program of a call. *)
Definition method (c : Call) : Task :=
  match c with
  | call_get id => replying (getIntent id)
  | call_prepare request now => replying (prepare request now None)
  | call_submit id txid now => replying (submit id txid now)
  | call_refresh id now => replying (refreshIntent id now)
  | call_replace id now => replying (replace id now)
  | call_observeSubmitted now => _ ← observeSubmitted now; mret None
  end.

(** A refresh is joined once it ended; other answers are the world's. *)
Definition answerable (mem : Memory) (q : Question) : Answer q -> Prop :=
  match q return Answer q -> Prop with
  | ask_join ticket => fun r : result WalletError PublicIntent => mm_outcomes mem !! ticket = Some r
  | q => Shown q
  end.

Inductive intent_step (y : System) : System -> Prop :=
  | step_call c : intent_step y (after_segment (method c) (sy_tasks y) y)
  | step_answer before rest q k a :
      sy_tasks y = before ++ Ask q k :: rest -> answerable (sy_memory y) q a ->
      intent_step y (after_segment (k a) (before ++ rest) y)
  | step_stop_in_call c y' : stops_in (method c) y y' -> intent_step y y'
  | step_stop_in_answer before rest q k a y' :
      sy_tasks y = before ++ Ask q k :: rest -> answerable (sy_memory y) q a -> stops_in (k a) y y' ->
      intent_step y y'.

Definition intents_reachable (y : System) : Prop := rtc intent_step initial_system y.

End System.
