(* ===== verification/IntentLogic.v ===== *)
(** * A logic of the wallet-intent service

    What the world has to show for each state and outcome of an intent, the invariant of the store
    that follows, and weakest preconditions of the programs of [IntentService] that keep it while
    other calls run at every question. *)

From S2P Require Import Prelude Text CanonicalJson Clarity OperationPlan NakamotoBlock SweepPlan LiveReader Recipe Receipt WalletRequest WalletVerify WalletFacts IntentStore IntentStoreCorrect IntentService IntentSystem.

Open Scope string_scope.
Open Scope list_scope.
Open Scope Z_scope.

Section Logic.

Context {W : IntentLibrary} {V : IntentWorld}.

#[local] Abbreviation facts := (authoritativeFacts validateStacksAddress lib bufferCV settle sha256
  postConditionToHex verifySignature publicKeyFromSignatureRsv).
#[local] Abbreviation verify := (verifyWalletTransactionHex deserializeTransaction addressFromVersionHash
  (RewardReads.cl_cvToHex lib) sha256).
#[local] Abbreviation Stored := (string * IntentRow)%type.

(** ** What was shown *)

(** The bytes a node or the API showed for a transaction ID. *)
Inductive bytes_shown (m : WalletManifest) (txid : string) : string -> Prop :=
  | shown_pending status t :
      Shown (ask_pending txid) (Some (lr_observed status t)) -> bytes_shown m txid (ot_transactionHex (un_transaction t))
  | shown_indexed status t :
      Shown (ask_indexed txid) (Some (lr_observed status t)) -> bytes_shown m txid (ot_transactionHex (it_transaction t))
  | shown_receipt reads own r hex :
      Shown (ask_receipt txid) reads ->
      lookupCanonicalApiTransaction readTransaction reads (mf_chainId m) txid own = al_observed r ->
      ap_transactionHex r = Some hex -> bytes_shown m txid hex.

(** The manifest's network. *)
Definition network_of (m : WalletManifest) (n : WalletBindingNetwork) : Prop :=
  createWalletTransactionNetworkBinding (mf_network m) (mf_chainId m) = Some n.

(** Bytes with the submitted ID, verified to be the sealed request. *)
Definition verified_shown (m : WalletManifest) (txid : string) (v : VerifiedWalletTransaction) : Prop :=
  exists hex n, bytes_shown m txid hex /\ network_of m n /\
    verify txid (mf_requiredSender m) (mf_transaction m) hex n = Ok v.

(** Bytes with the submitted ID that are not the sealed request. *)
Definition mismatch_shown (m : WalletManifest) (txid : string) : Prop :=
  exists hex n reason, bytes_shown m txid hex /\ network_of m n /\
    verify txid (mf_requiredSender m) (mf_transaction m) hex n = Err reason.

(** The node shows the verified transaction pending. *)
Definition pending_shown (m : WalletManifest) (txid : string) : Prop :=
  exists status t n v, Shown (ask_pending txid) (Some (lr_observed status t)) /\ network_of m n /\
    verify txid (mf_requiredSender m) (mf_transaction m) (ot_transactionHex (un_transaction t)) n = Ok v.

(** An execution the node's index or a canonical receipt shows, and whether it succeeded. *)
Inductive execution_shown (m : WalletManifest) (txid : string) : ExecutedView -> bool -> Prop :=
  | indexed_execution status t :
      Shown (ask_indexed txid) (Some (lr_observed status t)) ->
      execution_shown m txid (executed_of t) (startsWith (trimStart (it_resultRepr t)) "(ok")
  | receipt_execution reads own r :
      Shown (ask_receipt txid) reads ->
      lookupCanonicalApiTransaction readTransaction reads (mf_chainId m) txid own = al_observed r ->
      execution_shown m txid
        {| xv_isCanonical := true; xv_blockHeight := Some (ap_blockHeight r);
           xv_indexBlockHash := ap_indexBlockHash r; xv_resultRepr := ap_resultRepr r |} (ap_success r).

(** The verified transaction was executed in a canonical block. *)
Record executed (m : WalletManifest) (txid : string) (x : ExecutedView) (v : VerifiedWalletTransaction)
    (succeeded : bool) : Prop := {
  ex_verified : verified_shown m txid v;
  ex_shown : execution_shown m txid x succeeded;
  ex_canonical : xv_isCanonical x = true;
  ex_height : exists h, xv_blockHeight x = Some h /\ safeHeight h = true;
}.

(** What completes an action once its transaction succeeded. *)
Definition completes (m : WalletManifest) (x : ExecutedView) (v : VerifiedWalletTransaction) : Prop :=
  match mf_action m with
  | wa_calculate_rewards =>
      exists b, mf_binding m = Some b /\ bi_pox5ContractId b = wt_contract (mf_transaction m) /\
        calculationResultMatchesTarget (xv_resultRepr x) (bigint_toString (bi_targetRewardCycle b))
          (bi_expectedLastRewardComputeBurnHeight b) = true
  | wa_claim_rewards =>
      match mf_request m with
      | rq_claim_rewards _ (Some _) =>
          exists id clients j, Shown (ask_clients id) (Ok clients) /\ cv_job clients = Ok j /\
            canonicalJsonSha256 sha256 (transaction_json (bj_transaction j)) =
              canonicalJsonSha256 sha256 (transaction_json (mf_transaction m)) /\ bj_status j = "complete"
      | _ => vw_postConditionCount v = 1
      end
  | wa_withdraw_fees | wa_sweep_fee_refunds =>
      vw_postConditionCount v = 1 /\
      exists manager, Shown (ask_manager (wt_contract (mf_transaction m)) (xv_indexBlockHash x)) (Ok manager) /\
        (mv_tier manager = "reference-built-in" /\ mv_provenance manager = "built-in" \/
         mv_tier manager = "reference-render" /\ mv_provenance manager = "verified")
  | _ => True
  end.

Definition succeeded_shown (m : WalletManifest) (txid : string) : Prop :=
  exists x v, executed m txid x v true.
Definition failure_shown (m : WalletManifest) (txid : string) : Prop :=
  exists x v, executed m txid x v false.
Definition completion_shown (m : WalletManifest) (txid : string) : Prop :=
  exists x v, executed m txid x v true /\ completes m x v.

(** A claim about the transaction of an intent that has one. *)
Definition of_txid (txid : option string) (P : string -> Prop) : Prop := exists t, txid = Some t /\ P t.

(** What each state rests on. *)
Definition state_evidence (s : IntentState) (m : WalletManifest) (txid : option string) : Prop :=
  match s with
  | it_mempool => of_txid txid (pending_shown m)
  | it_confirmed => of_txid txid (succeeded_shown m)
  | it_complete => of_txid txid (completion_shown m)
  | it_failed => of_txid txid (fun t => mismatch_shown m t \/ failure_shown m t)
  | _ => True
  end.

(** What each recorded outcome rests on. *)
Definition outcome_evidence (o : WalletOutcome) (m : WalletManifest) (txid : option string) : Prop :=
  match o with
  | oc_mempool => of_txid txid (pending_shown m)
  | oc_canonical_success => of_txid txid (succeeded_shown m)
  | oc_complete => of_txid txid (completion_shown m)
  | oc_abort => of_txid txid (failure_shown m)
  | oc_mismatch => of_txid txid (mismatch_shown m)
  | _ => True
  end.

(** Where a sealed intent comes from: authoritative facts about its request. *)
Definition origin (m : WalletManifest) (scope : string) : Prop :=
  exists reads f, Shown (ask_facts (mf_request m)) reads /\ facts reads (mf_request m) = Ok f /\
    m = manifestOf (mf_id m) (mf_request m) f (mf_createdAt m) /\ scope = af_scope f.

(** ** The invariant *)

Record row_ok (r : IntentRow) : Prop := {
  ok_state : state_evidence (iw_state r) (iw_manifest r) (iw_txid r);
  ok_origin : origin (iw_manifest r) (iw_scope r);
}.

(** An observation about an intent with the manifest [m] and the transaction [txid]. *)
Record observation_ok (o : Observation) (m : WalletManifest) (txid : option string) : Prop := {
  oo_outcome : vf_outcome (ev_verification (ob_evidence o)) = ob_outcome o;
  oo_evidence : outcome_evidence (ob_outcome o) m txid;
  oo_decoded : ob_outcome o = oc_mempool ->
    exists v t, ev_decoded (ob_evidence o) = verified_json v /\ txid = Some t /\ verified_shown m t v;
}.

Record Inv (d : IntentDb) : Prop := {
  inv_valid : valid_intents (intents d);
  inv_rows : forall id r, intents d !! id = Some r -> row_ok r;
  inv_observations : forall o, o ∈ observations d -> exists r,
    intents d !! ob_intentId o = Some r /\ observation_ok o (iw_manifest r) (iw_txid r);
}.

Lemma of_txid_mono t t' (P : string -> Prop) : (forall u, t = Some u -> t' = Some u) -> of_txid t P -> of_txid t' P.
Proof. intros H (u & Hu & Hp). exists u. auto. Qed.

Lemma state_evidence_mono s m t t' :
  (forall u, t = Some u -> t' = Some u) -> state_evidence s m t -> state_evidence s m t'.
Proof. destruct s; cbn; eauto using of_txid_mono. Qed.

Lemma outcome_evidence_mono o m t t' :
  (forall u, t = Some u -> t' = Some u) -> outcome_evidence o m t -> outcome_evidence o m t'.
Proof. destruct o; cbn; eauto using of_txid_mono. Qed.

Lemma quiet_evidence s m t : quiet s = true -> state_evidence s m t.
Proof. by destruct s. Qed.

(** Facts about a row that stay as it moves. *)
Record kept (r r' : IntentRow) : Prop := {
  kp_manifest : iw_manifest r' = iw_manifest r;
  kp_sha : iw_manifestSha256 r' = iw_manifestSha256 r;
  kp_scope : iw_scope r' = iw_scope r;
  kp_txid : forall t, iw_txid r = Some t -> iw_txid r' = Some t;
}.

Lemma moves_kept r r' : moves r r' -> kept r r'.
Proof.
  intros (Hb & Ht & _)%moves_keep. unfold binding_of in Hb. injection Hb as _ Hs _ Hd Hm _ _ _ _ _. by split.
Qed.

Lemma observation_ok_mono o m t t' :
  (forall u, t = Some u -> t' = Some u) -> observation_ok o m t -> observation_ok o m t'.
Proof.
  intros Ht [Ho He Hd]. split; [done|by eapply outcome_evidence_mono|].
  intros (v & u & Hv & Hu & Hs)%Hd. exists v, u. auto.
Qed.

(** A licence within the evidence. *)
Record grounded (L : Licence) (d : IntentDb) : Prop := {
  gr_state : forall id s, lc_state L id s -> exists r, intents d !! id = Some r /\
    state_evidence s (iw_manifest r) (iw_txid r);
  gr_create : forall i, lc_create L i -> row_ok (new_intent i);
  gr_observe : forall o, lc_observe L o -> exists r, intents d !! ob_intentId o = Some r /\
    observation_ok o (iw_manifest r) (iw_txid r);
}.

Lemma grounded_idle d : grounded idle d.
Proof. by split. Qed.

(** Licensed changes within the evidence keep the invariant. *)
Lemma inv_extends L d d' : Inv d -> grounded L d -> extends L d d' -> Inv d'.
Proof.
  intros [Hv Hr Ho] [Hgs Hgc Hgo] [Erows Estates Enew [l [El Ef]] Evalid]. split; [auto| |].
  - intros id r' Hr'. destruct (intents d !! id) as [r|] eqn:Hid.
    + destruct (Erows _ _ Hid) as (r1 & Hr1 & Hm). assert (r1 = r') as -> by congruence.
      destruct (moves_kept _ _ Hm) as [Km _ Ks Kt]. destruct (Hr _ _ Hid) as [Hst Hor].
      split; [|by rewrite Km, Ks]. destruct (Estates _ _ Hr') as [He|[Hq|Hl]].
      * rewrite He in Hid. by injection Hid as <-.
      * by apply quiet_evidence.
      * destruct (Hgs _ _ Hl) as (r1 & Hr1' & He). assert (r1 = r) as -> by congruence.
        rewrite Km. by eapply state_evidence_mono.
    + destruct (Enew _ _ Hr' Hid) as (i & Hi & _ & Hm). destruct (moves_kept _ _ Hm) as [Km _ Ks Kt].
      destruct (Hgc i Hi) as [_ Hor]. split; [|by rewrite Km, Ks].
      destruct (Estates _ _ Hr') as [He|[Hq|Hl]]; [congruence|by apply quiet_evidence|].
      destruct (Hgs _ _ Hl) as (r1 & Hr1 & _). congruence.
  - intros o Hin. rewrite El in Hin.
    assert (exists r, intents d !! ob_intentId o = Some r /\ observation_ok o (iw_manifest r) (iw_txid r))
      as (r & Hid & Hok).
    { apply elem_of_app in Hin as [Hin|Hin]; [by apply Ho|]. rewrite Forall_forall in Ef. by apply Hgo, Ef. }
    destruct (Erows _ _ Hid) as (r' & Hr' & Hm). exists r'. split; [done|].
    destruct (moves_kept _ _ Hm) as [Km _ _ Kt]. rewrite Km. by eapply observation_ok_mono.
Qed.

(** ** Replies *)

(** What a caller is told: a stored intent, with a status and a verification the world showed. *)
Record reply_ok (d : IntentDb) (p : PublicIntent) (r : IntentRow) : Prop := {
  rp_stored : intents d !! mf_id (pi_manifest p) = Some r;
  rp_manifest : pi_manifest p = iw_manifest r /\ pi_manifestSha256 p = iw_manifestSha256 r;
  rp_txid : forall t, pi_txid p = Some t -> iw_txid r = Some t;
  rp_status : state_evidence (pi_status p) (iw_manifest r) (iw_txid r);
  rp_verification : forall v, pi_verification p = Some v ->
    outcome_evidence (vf_outcome v) (iw_manifest r) (iw_txid r);
}.

Definition told (d : IntentDb) (p : PublicIntent) : Prop := exists r, reply_ok d p r.

Lemma told_later L d d' p : extends L d d' -> told d p -> told d' p.
Proof.
  intros He (r & [Hs [Hm Hd] Ht Hst Hv]). destruct (ex_rows _ _ _ He _ _ Hs) as (r' & Hr' & Hmv).
  destruct (moves_kept _ _ Hmv) as [Km Kd _ Kt]. exists r'. split; [done|by rewrite Km, Kd|auto| |].
  - rewrite Km. by eapply state_evidence_mono.
  - intros v Hpv. rewrite Km. by eapply outcome_evidence_mono; [|apply Hv].
Qed.

Definition memory_ok (d : IntentDb) (mem : Memory) : Prop :=
  forall t p, mm_outcomes mem !! t = Some (Ok p) -> told d p.

Lemma memory_ok_later L d d' mem : extends L d d' -> memory_ok d mem -> memory_ok d' mem.
Proof. intros He Hm t p Hp. eapply told_later; [done|]. by apply (Hm t). Qed.

(** ** Weakest preconditions *)

(** The answers a question may get in [d]. *)
Definition admissible (d : IntentDb) (q : Question) : Answer q -> Prop :=
  match q return Answer q -> Prop with
  | ask_join ticket => fun r : result WalletError PublicIntent => forall p, r = Ok p -> told d p
  | q => Shown q
  end.

(** Later tables. *)
Definition later (d d' : IntentDb) : Prop := extends anything d d'.

(** [m], run in [d] with other calls at its questions, keeps the invariant and ends with [Q]. *)
Fixpoint wp {A} (m : prog A) (Q : IntentDb -> result WalletError A -> Prop) (d : IntentDb) : Prop :=
  match m with
  | Done r => Q d r
  | Store op k => let '(x, d') := op d in Inv d' /\ later d d' /\ wp (k x) Q d'
  | Remember f k => forall mem, memory_ok d mem -> memory_ok d (f mem).2 /\ wp (k (f mem).1) Q d
  | Ask q k => forall a d', later d d' -> Inv d' -> admissible d' q a -> wp (k a) Q d'
  end.

Lemma later_refl d : later d d.
Proof. unfold later. reflexivity. Qed.

Lemma later_trans d d' d'' : later d d' -> later d' d'' -> later d d''.
Proof. unfold later. intros. by etrans. Qed.

Lemma prog_wp_mono {A} (m : prog A) (Q Q' : IntentDb -> result WalletError A -> Prop) d :
  Inv d -> (forall d' r, later d d' -> Inv d' -> Q d' r -> Q' d' r) -> wp m Q d -> wp m Q' d.
Proof.
  revert d. induction m as [r|X op k IH|X f k IH|q k IH]; intros d Hi HQ; cbn.
  - apply HQ; [apply later_refl|done].
  - destruct (op d) as [x d']. intros (Hi' & Hl & Hw). split_and!; [done..|]. apply IH in Hw; [done..|].
    intros. apply HQ; [by eapply later_trans|done..].
  - intros Hw mem Hm. destruct (Hw mem Hm) as [Hm' Hw']. split; [done|]. by eapply IH.
  - intros Hw a d' Hl Hi' Ha. eapply IH; [done| |by apply Hw]. intros. apply HQ; [by eapply later_trans|done..].
Qed.

Lemma prog_wp_after {A B} (m : prog A) (k : result WalletError A -> prog B) Q d :
  wp m (fun d r => wp (k r) Q d) d -> wp (after m k) Q d.
Proof.
  revert d. induction m as [r|X op j IH|X f j IH|q j IH]; intros d; cbn; [done| | |].
  - destruct (op d) as [x d']. intros (Hi & Hl & Hw). split_and!; auto.
  - intros Hw mem Hm. destruct (Hw mem Hm). auto.
  - auto.
Qed.

(** [m] ends with [P] unless it throws. *)
Definition holds {A} (m : prog A) (P : IntentDb -> A -> Prop) (d : IntentDb) : Prop :=
  Inv d -> wp m (fun d r => match r with Ok a => P d a | Err _ => True end) d.

Lemma holds_ret {A} (a : A) (P : IntentDb -> A -> Prop) d : P d a -> holds (mret a) P d.
Proof. intros H _. exact H. Qed.

Lemma holds_throw {A} e (P : IntentDb -> A -> Prop) d : holds (throw_prog e) P d.
Proof. done. Qed.

Lemma holds_result {A} r (P : IntentDb -> A -> Prop) d :
  (forall a, r = Ok a -> P d a) -> holds (of_result r) P d.
Proof. intros H _. cbn. destruct r; auto. Qed.

Lemma holds_after {A B} (m : prog A) (k : result WalletError A -> prog B) P Q d :
  holds m P d ->
  (forall a d', later d d' -> P d' a -> holds (k (Ok a)) Q d') ->
  (forall e d', later d d' -> holds (k (Err e)) Q d') ->
  holds (after m k) Q d.
Proof.
  intros Hm Hk He Hi. apply prog_wp_after. eapply prog_wp_mono; [done| |by apply Hm].
  intros d' [a|e] Hl Hi' Hp; [by eapply Hk | by eapply He].
Qed.

Lemma holds_bind {A B} (m : prog A) (k : A -> prog B) P Q d :
  holds m P d -> (forall a d', later d d' -> P d' a -> holds (k a) Q d') -> holds (m ≫= k) Q d.
Proof. intros Hm Hk. eapply holds_after; [done|done|]. intros. apply holds_throw. Qed.

Lemma holds_try {A} (m : prog A) (h : WalletError -> prog A) P d :
  holds m P d -> (forall e d', later d d' -> holds (h e) P d') -> holds (try_catch m h) P d.
Proof. intros Hm Hh. eapply holds_after; [done| |done]. intros. by apply holds_ret. Qed.

Lemma holds_mono {A} (m : prog A) (P P' : IntentDb -> A -> Prop) d :
  holds m P d -> (forall a d', later d d' -> P d' a -> P' d' a) -> holds m P' d.
Proof. intros Hm Hp Hi. eapply prog_wp_mono; [done| |by apply Hm]. intros d' [a|e] Hl _ H; auto. Qed.

Lemma holds_ask q (P : IntentDb -> Answer q -> Prop) d :
  (forall a d', later d d' -> admissible d' q a -> P d' a) -> holds (ask q) P d.
Proof. intros HP Hi a d' Hl _ Ha. by apply HP. Qed.

Lemma holds_await {A} (m : prog A) P d :
  holds m P d -> (forall a d' d'', later d d' -> later d' d'' -> P d' a -> P d'' a) -> holds (await m) P d.
Proof.
  intros Hm Hp. eapply (holds_after _ _ P); [done| |].
  - intros a d' Hl Ha Hi u d'' Hl' Hi' _. cbn. by eapply Hp.
  - intros e d' Hl Hi u d'' Hl' Hi' _. done.
Qed.

Lemma holds_remember {X} (f : Memory -> X * Memory) (P : IntentDb -> X -> Prop) d :
  (forall mem, memory_ok d mem -> memory_ok d (f mem).2 /\ P d (f mem).1) -> holds (remember f) P d.
Proof. intros Hf Hi mem Hm. by apply Hf. Qed.

(** A repository call within the evidence. *)
Lemma holds_db {X} L (op : intent_op X) Q (P : IntentDb -> X -> Prop) d :
  (Inv d -> op_leaves L op d Q) -> (Inv d -> grounded L d) -> (forall x d', later d d' -> Inv d' -> Q x d' -> P d' x) ->
  holds (db op) P d.
Proof.
  intros Hop Hg HP Hi. cbn. specialize (Hop Hi). unfold op_leaves in Hop. destruct (op d) as [r d'].
  destruct Hop as [He Hr]. assert (Hi' : Inv d') by by eapply inv_extends; [exact Hi|apply Hg|].
  pose proof (extends_weaken _ _ _ He) as Hl. split_and!; [done..|]. destruct r; cbn; [by apply HP|done].
Qed.

Lemma holds_as_intent {A} (m : prog A) P d : holds m P d -> holds (as_intent m) P d.
Proof. intros Hm. apply holds_try; [done|]. intros [] d' _; apply holds_throw. Qed.

Lemma holds_query {X} (f : IntentDb -> X) (P : IntentDb -> X -> Prop) d :
  (Inv d -> P d (f d)) -> holds (query f) P d.
Proof. intros HP Hi. cbn. split_and!; [done|apply later_refl|]. by apply HP. Qed.

End Logic.
