(* ===== verification/IntentSteps.v ===== *)
(** * The steps of the wallet-intent service keep the evidence

    For each step of [IntentService]: the intents it returns are the stored ones, and it moves an
    intent to a state, records an outcome or seals a manifest only on what was shown for it. *)

From S2P Require Import Prelude Text CanonicalJson Clarity OperationPlan NakamotoBlock SweepPlan LiveReader Recipe Receipt WalletRequest WalletVerify WalletFacts IntentStore IntentStoreCorrect IntentService IntentSystem IntentLogic.

Open Scope string_scope.
Open Scope list_scope.
Open Scope Z_scope.

Section Steps.

Context {W : IntentLibrary} {V : IntentWorld}.

#[local] Abbreviation Stored := (string * IntentRow)%type.
#[local] Abbreviation verify := (verifyWalletTransactionHex deserializeTransaction addressFromVersionHash
  (RewardReads.cl_cvToHex lib) sha256).

(** ** Intents in hand *)

(** [s] is a row of the store, or was. *)
Definition held (d : IntentDb) (s : Stored) : Prop :=
  (exists r, intents d !! s.1 = Some r /\ moves s.2 r) /\ row_ok s.2.

(** [s'] is [s], later. *)
Definition same (s s' : Stored) : Prop := s'.1 = s.1 /\ moves s.2 s'.2.

Lemma same_refl s : same s s.
Proof. by split. Qed.

Lemma same_trans s t u : same s t -> same t u -> same s u.
Proof. intros [H1 H2] [H3 H4]. split; [congruence|by etrans]. Qed.

Lemma same_kept s s' : same s s' -> kept s.2 s'.2.
Proof. intros [_ H]. by apply moves_kept. Qed.

Lemma held_later d d' s : later d d' -> held d s -> held d' s.
Proof.
  intros Hl [(r & Hr & Hm) Hok]. split; [|done]. destruct (ex_rows _ _ _ Hl _ _ Hr) as (r' & Hr' & Hm').
  exists r'. split; [done|by etrans].
Qed.

Lemma stored_held d s : Inv d -> stored d s -> held d s.
Proof. intros Hi Hs. split; [exists s.2; by split|]. by apply (inv_rows _ Hi s.1). Qed.

(** A row read now is what an intent in hand has become. *)
Lemma held_stored d s s' : held d s -> stored d s' -> s'.1 = s.1 -> same s s'.
Proof. intros [(r & Hr & Hm) _] Hs He. split; [done|]. unfold stored in Hs. rewrite He in Hs. congruence. Qed.

Lemma told_after d d' p : later d d' -> told d p -> told d' p.
Proof. apply told_later. Qed.

Hint Resolve same_refl held_later told_after later_refl : core.

Lemma evidence_same s s' st :
  same s s' -> state_evidence st (iw_manifest s.2) (iw_txid s.2) ->
  state_evidence st (iw_manifest s'.2) (iw_txid s'.2).
Proof. intros Hs. destruct (same_kept s s' Hs) as [-> _ _ Ht]. by apply state_evidence_mono. Qed.

Lemma outcome_same s s' o :
  same s s' -> outcome_evidence o (iw_manifest s.2) (iw_txid s.2) ->
  outcome_evidence o (iw_manifest s'.2) (iw_txid s'.2).
Proof. intros Hs. destruct (same_kept s s' Hs) as [-> _ _ Ht]. by apply outcome_evidence_mono. Qed.

(** ** The store *)

Lemma get_spec id d :
  holds (db (get_intent isUuid validateStacksAddress sha256 id))
    (fun d' o => forall s, o = Some s -> stored d' s /\ held d' s /\ s.1 = id) d.
Proof.
  eapply holds_db; [intros _; apply get_leaves | intros _; apply grounded_idle|].
  intros [s|] d' _ Hi Hq s' [= <-]. destruct Hq as (He & Hs & _). split_and!; [done|by apply stored_held|done].
Qed.

Lemma requireStored_spec id d :
  holds (requireStored id) (fun d' s => stored d' s /\ held d' s /\ s.1 = id) d.
Proof.
  eapply holds_bind; [apply get_spec|]. intros [s|] d' _ Ho; [|apply holds_throw].
  apply holds_ret. by apply Ho.
Qed.

(** The row of an intent in hand, read again. *)
Lemma reread_spec s0 d :
  held d s0 -> holds (requireStored s0.1) (fun d' s => held d' s /\ same s0 s) d.
Proof.
  intros Hh. eapply holds_mono; [apply requireStored_spec|]. intros s d' Hl (Hs & Hh' & He).
  split; [done|]. by apply (held_stored d'); eauto.
Qed.

Lemma transition_spec s st at_ d :
  held d s -> state_evidence st (iw_manifest s.2) (iw_txid s.2) ->
  holds (transition s st at_) (fun d' s' => held d' s' /\ same s s') d.
Proof.
  intros Hh He. unfold transition. case_bool_decide; [by apply holds_ret|].
  apply holds_as_intent. eapply holds_db; [intros _; apply transition_leaves| |].
  - intros _. split; [|done|done]. intros id st' [-> ->]. destruct Hh as [(r & Hr & Hm) _]. exists r.
    split; [done|]. by apply (evidence_same s (s.1, r)).
  - intros s' d' Hl Hi (He' & Hs' & _). split; [by apply stored_held|]. by apply (held_stored d'); eauto.
Qed.

(** The evidence of an observation about an intent in hand. *)
Record reportable (s : Stored) (v : WalletVerification) (decoded : Json) : Prop := {
  ro_outcome : outcome_evidence (vf_outcome v) (iw_manifest s.2) (iw_txid s.2);
  ro_decoded : vf_outcome v = oc_mempool -> vf_executionSource v = None /\
    exists w t, decoded = verified_json w /\ iw_txid s.2 = Some t /\ verified_shown (iw_manifest s.2) t w;
}.

Lemma reportable_same s s' v decoded : same s s' -> reportable s v decoded -> reportable s' v decoded.
Proof.
  intros Hs [Ho Hd]. split; [by eapply outcome_same|]. intros (He & w & t & Hw & Ht & Hv)%Hd.
  destruct (same_kept s s' Hs) as [-> _ _ Hk]. split; [done|]. exists w, t. auto.
Qed.

Lemma latest_spec id ex oc d :
  holds (latest id ex oc) (fun d' o => Inv d' /\ o = latestObservation id ex oc d') d.
Proof. apply holds_query. by intros Hi. Qed.

Lemma draw_ok d mem : memory_ok d mem -> memory_ok d (draw mem).2.
Proof. by intros H. Qed.

Lemma recordObservation_spec s v decoded d :
  held d s -> reportable s v decoded -> holds (recordObservation s v decoded) (fun _ _ => True) d.
Proof.
  intros Hh Hr. unfold recordObservation. eapply holds_bind; [apply latest_spec|].
  intros previous d' Hl _. destruct (repeats _ _ _); [by apply holds_ret|].
  eapply (holds_bind _ _ (fun _ _ => True)); [by apply holds_remember|]. intros n d2 Hl2 _.
  eapply (holds_bind _ _ (fun _ _ => True)); [|intros; by apply holds_ret].
  eapply holds_db; [intros _; apply append_leaves| |done].
  intros _. split; [done|done|]. intros o ->. cbn. destruct (held_later _ _ s Hl2 (held_later _ _ s Hl Hh)) as [(r & Hr' & Hm) _].
  exists r. split; [done|]. destruct (reportable_same s (s.1, r) v decoded) as [Ho Hd]; [by split|done|].
  split; cbn; [done|done|]. intros (Hsrc & w & t & Hw & Ht & Hv)%Hd. rewrite Hsrc. cbn. by exists w, t.
Qed.

(** An outcome that claims nothing needs no evidence. *)
Definition claims (o : WalletOutcome) : bool :=
  match o with oc_mempool | oc_canonical_success | oc_complete | oc_abort | oc_mismatch => true | _ => false end.

Lemma no_claim o m t : claims o = false -> outcome_evidence o m t.
Proof. by destruct o. Qed.

Lemma recordPlain_spec s o at_ detail d :
  held d s -> outcome_evidence o (iw_manifest s.2) (iw_txid s.2) -> o <> oc_mempool ->
  holds (recordPlain s o at_ detail) (fun _ _ => True) d.
Proof. intros Hh Ho Hn. by apply recordObservation_spec. Qed.

Lemma supersede_spec s at_ detail d :
  held d s -> holds (supersede s at_ detail) (fun d' s' => held d' s' /\ same s s') d.
Proof.
  intros Hh. eapply holds_bind; [by apply transition_spec|]. intros s' d' Hl [Hh' Hs].
  eapply holds_bind; [by apply recordPlain_spec|]. intros _ d2 Hl2 _. apply holds_ret. eauto.
Qed.

(** ** What was recorded *)

Lemma holds_inv {A} (m : prog A) P d : (Inv d -> holds m P d) -> holds m P d.
Proof. intros H Hi. by apply H. Qed.

Lemma latest_of_in l o : latest_of l = Some o -> o ∈ l.
Proof.
  assert (H : forall acc, fold_left newer l acc = Some o -> acc = Some o \/ o ∈ l).
  { induction l as [|x l IH]; intros acc; cbn; [auto|]. intros [Hx|Hin]%IH; [|right; by right].
    destruct acc as [b|]; cbn in Hx; [|injection Hx as ->; right; by left].
    destruct (_ <? _); injection Hx as ->; [by left | right; by left]. }
  intros Hl. by destruct (H None Hl).
Qed.

(** An observation of [id] in the store. *)
Definition observed (d : IntentDb) (id : string) (o : Observation) : Prop :=
  o ∈ observations d /\ ob_intentId o = id.

Lemma observed_later d d' id o : later d d' -> observed d id o -> observed d' id o.
Proof.
  intros Hl [Hi He]. split; [|done]. destruct (ex_observations _ _ _ Hl) as (l & -> & _).
  apply elem_of_app. by left.
Qed.

Lemma latestObservation_observed id ex oc d o :
  latestObservation id ex oc d = Some o ->
  observed d id o /\ (oc <> [] -> ob_outcome o ∈ oc).
Proof.
  intros H%latest_of_in. unfold observations_of in H. rewrite list_elem_of_In, filter_In, <- list_elem_of_In in H.
  destruct H as [Hin H]. breflect. split; [by split|]. intros Hn. apply orb_true_iff in H1 as [H1|H1].
  - by apply bool_decide_eq_true in H1.
  - unfold outcome_in in H1. by apply bool_decide_eq_true in H1.
Qed.

Lemma latest_observed id ex oc d :
  holds (latest id ex oc) (fun d' o => forall x, o = Some x -> observed d' id x /\ (oc <> [] -> ob_outcome x ∈ oc)) d.
Proof. apply holds_query. intros _ x Hx. by eapply latestObservation_observed. Qed.

(** The evidence of an observation of an intent in hand, about the row as it is now. *)
Lemma observed_evidence d s o :
  Inv d -> held d s -> observed d s.1 o ->
  exists r, intents d !! s.1 = Some r /\ moves s.2 r /\ observation_ok o (iw_manifest r) (iw_txid r).
Proof.
  intros Hi [(r & Hr & Hm) _] [Ho He]. destruct (inv_observations _ Hi o Ho) as (r' & Hr' & Hok).
  rewrite He in Hr'. assert (r' = r) as -> by congruence. by exists r.
Qed.

Lemma readEvidence_outcome e v : readEvidence e = Some v -> vf_outcome v = vf_outcome (ev_verification e).
Proof.
  unfold readEvidence. destruct (walletVerificationSchema _); [|done]. intros [= <-].
  destruct (ev_decoded e); try done. by destruct (_ ≫= executionSourceOf).
Qed.

Lemma parseStoredManifest_spec s d :
  holds (parseStoredManifest s) (fun _ m => m = iw_manifest s.2 /\ mf_id m = s.1) d.
Proof.
  unfold parseStoredManifest. destruct (manifest_intact s) eqn:Hm; [|apply holds_throw].
  apply holds_ret. split; [done|]. unfold manifest_intact in Hm. by breflect.
Qed.

(** ** Replies *)

Lemma publicIntent_spec s d : held d s -> holds (publicIntent s) told d.
Proof.
  intros Hh. eapply holds_bind; [apply parseStoredManifest_spec|]. intros m d1 Hl1 [-> Hid].
  eapply holds_bind; [apply latest_observed|]. intros recent d2 Hl2 Hrecent.
  eapply (holds_bind _ _ (fun d' o => forall x, o = Some x -> observed d' s.1 x)).
  { destruct (_ && _); [|by apply holds_ret]. eapply holds_mono; [apply latest_observed|].
    cbn. intros o d' _ Ho x Hx. by apply Ho. }
  intros prior d3 Hl3 Hprior. apply holds_inv. intros Hi. apply holds_ret.
  pose proof (held_later _ _ s Hl3 (held_later _ _ s Hl2 (held_later _ _ s Hl1 Hh))) as Hh3.
  match goal with |- told _ {| pi_verification := ?x ≫= ?f |} => set (effective := x); set (verification := effective ≫= f) end.
  assert (Heff : forall x, effective = Some x -> observed d3 s.1 x).
  { intros x. unfold effective. destruct prior as [o|]; [destruct (outcome_in _ o); [intros [= <-]; by apply Hprior|]|];
      intros ->; eapply observed_later; eauto; by eapply Hrecent. }
  destruct Hh3 as [(r & Hr & Hm) Hok]. destruct (moves_kept _ _ Hm) as [Km Kd _ Kt].
  assert (Hver : forall v, verification = Some v -> outcome_evidence (vf_outcome v) (iw_manifest r) (iw_txid r)).
  { intros v. unfold verification. destruct effective as [o|] eqn:He; [|done]. cbn. intros Hv%readEvidence_outcome.
    destruct (observed_evidence d3 s o Hi) as (r' & Hr' & _ & [Ho Hoe _]); [split; [by exists r|done]|by apply Heff|].
    assert (r' = r) as -> by congruence. by rewrite Hv, Ho. }
  exists r. split; cbn [pi_manifest pi_manifestSha256 pi_txid pi_status pi_verification]; [by rewrite Hid|done|exact Kt| |exact Hver].
  destruct (bool_decide _ && _) eqn:Hc.
  - breflect. destruct verification as [v|]; [|done]. cbn in H0. injection H0 as H0. specialize (Hver v eq_refl).
    by rewrite H0 in Hver.
  - rewrite Km. eapply state_evidence_mono; [exact Kt|]. apply Hok.
Qed.

(** A reply after further work on an intent in hand. *)
Lemma then_public {A} (m : prog A) s d :
  held d s -> holds m (fun _ _ => True) d -> holds (_ ← m; publicIntent s) told d.
Proof. intros Hh Hm. eapply holds_bind; [done|]. intros _ d' Hl _. apply publicIntent_spec. eauto. Qed.

Lemma getIntent_spec id d : holds (getIntent id) told d.
Proof.
  eapply holds_bind; [apply requireStored_spec|]. intros s d' _ (_ & Hh & _). by apply publicIntent_spec.
Qed.

(** The reply about the intent as it is now. *)
Lemma public_again s d : held d s -> holds (current ← requireStored s.1; publicIntent current) told d.
Proof.
  intros Hh. eapply holds_bind; [by apply reread_spec|]. intros s' d' _ [Hh' _]. by apply publicIntent_spec.
Qed.

(** ** Verification *)

(** The intent in hand has the transaction [t] and the manifest [m]. *)
Definition about (s : Stored) (m : WalletManifest) (t : string) : Prop :=
  iw_manifest s.2 = m /\ iw_txid s.2 = Some t.

Lemma about_same s s' m t : same s s' -> about s m t -> about s' m t.
Proof. intros Hs [Hm Ht]. destruct (same_kept s s' Hs) as [Km _ _ Kt]. split; [congruence|auto]. Qed.

(** Evidence about the transaction and the manifest of an intent in hand. *)
Ltac evident H :=
  rewrite (proj1 H), (proj2 H); eexists; split; [reflexivity|]; eauto.

Lemma networkOf_spec m d : holds (networkOf m) (fun _ n => network_of m n) d.
Proof.
  unfold networkOf, network_of. destruct (createWalletTransactionNetworkBinding _ _); [by apply holds_ret|apply holds_throw].
Qed.

(** A step to a state, unless the intent was superseded. *)
Lemma unless_superseded (b : bool) s (m : prog Stored) d :
  held d s -> holds m (fun d' s' => held d' s' /\ same s s') d ->
  holds (if b then mret s else m) (fun d' s' => held d' s' /\ same s s') d.
Proof. intros Hh Hm. destruct b; [by apply holds_ret|done]. Qed.

Lemma transition_twice s (b : bool) st st' at_ d :
  held d s -> quiet st = true -> state_evidence st' (iw_manifest s.2) (iw_txid s.2) ->
  holds (current ← (if b then transition s st at_ else mret s); transition current st' at_)
    (fun d' s' => held d' s' /\ same s s') d.
Proof.
  intros Hh Hq He. eapply (holds_bind _ _ (fun d' s' => held d' s' /\ same s s')).
  - destruct b; [|by apply holds_ret]. apply transition_spec; [done|by apply quiet_evidence].
  - intros s1 d1 Hl1 [Hh1 Hs1]. eapply holds_mono.
    + apply transition_spec; [done|by eapply evidence_same].
    + intros s2 d2 _ [Hh2 Hs2]. eauto using same_trans.
Qed.

Lemma toFailed_spec s m t at_ d :
  held d s -> about s m t -> mismatch_shown m t \/ failure_shown m t ->
  holds (toFailed s at_) (fun d' s' => held d' s' /\ same s s') d.
Proof. intros Hh Ha He. apply transition_twice; [done|done|]. evident Ha. Qed.

Lemma toConfirmed_spec s m t at_ d :
  held d s -> about s m t -> succeeded_shown m t ->
  holds (toConfirmed s at_) (fun d' s' => held d' s' /\ same s s') d.
Proof. intros Hh Ha He. apply transition_twice; [done|done|]. evident Ha. Qed.

Lemma storedTxid_about s m t : about s m t -> storedTxid s = t.
Proof. intros [_ Ht]. unfold storedTxid. by rewrite Ht. Qed.

Lemma verifyObserved_spec s m t hex at_ d :
  held d s -> about s m t -> bytes_shown m t hex ->
  holds (verifyObserved s m hex at_)
    (fun _ o => forall v, o = Some v -> exists n, network_of m n /\
       verify t (mf_requiredSender m) (mf_transaction m) hex n = Ok v) d.
Proof.
  intros Hh Ha Hb. eapply holds_bind; [apply networkOf_spec|]. intros n d1 Hl1 Hn.
  rewrite (storedTxid_about s m t Ha). destruct (verify _ _ _ _ _) as [v|reason] eqn:Hv.
  { apply holds_ret. intros ? [= <-]. by exists n. }
  assert (Hm : mismatch_shown m t) by by exists hex, n, reason.
  eapply holds_bind.
  { apply unless_superseded; [eauto|]. apply (toFailed_spec s m t); eauto. }
  intros s1 d2 Hl2 [Hh1 Hs1]. eapply holds_bind.
  - apply recordPlain_spec; [done| |done]. pose proof (about_same _ _ _ _ Hs1 Ha) as Ha1. evident Ha1.
  - intros _ d3 _ _. by apply holds_ret.
Qed.

(** A pending observation in hand again: the bytes were verified when it was made. *)
Lemma persistedMempoolVerification_spec s m t d :
  held d s -> about s m t ->
  holds (persistedMempoolVerification s m) (fun _ o => forall v, o = Some v -> verified_shown m t v) d.
Proof.
  intros Hh Ha. eapply holds_bind; [apply latest_observed|]. intros [o|] d1 Hl1 Ho; [|by apply holds_ret].
  destruct (Ho o eq_refl) as [Hob Hmem]. specialize (Hmem ltac:(done)).
  assert (Hout : ob_outcome o = oc_mempool) by by apply list_elem_of_singleton in Hmem.
  apply holds_inv. intros Hi. destruct (observed_evidence d1 s o Hi) as (r & Hr & Hm & [_ _ Hd]); [eauto|done|].
  destruct (Hd Hout) as (w & u & Hw & Hu & Hv). destruct (about_same s (s.1, r) m t) as [Hrm Hrt]; [by split|done|].
  cbn in Hrm, Hrt. assert (u = t) as -> by congruence. rewrite Hrm in Hv.
  destruct (negb _); [by apply holds_ret|]. destruct (readEvidence _); [|by apply holds_ret].
  destruct (negb _); [by apply holds_ret|]. eapply holds_bind; [apply networkOf_spec|]. intros n d2 _ _.
  apply holds_ret. intros v. rewrite Hw. unfold readPersistedWalletVerification.
  destruct (verifiedWalletTransactionSchema (verified_json w)) as [v'|] eqn:Hp; [|done]. cbn.
  apply verified_schema_inv in Hp as ->. destruct (verified_for _ _ _ _ _ _); [|done]. by intros [= <-].
Qed.

(** *** A pending transaction *)

Lemma refreshPending_spec s m t status pending at_ d :
  held d s -> about s m t -> Shown (ask_pending t) (Some (lr_observed status pending)) ->
  holds (refreshPending s m pending at_) told d.
Proof.
  intros Hh Ha Hshown. assert (Hb : bytes_shown m t (ot_transactionHex (un_transaction pending))) by by econstructor.
  eapply holds_bind; [by apply (verifyObserved_spec s m t)|]. intros [v|] d1 Hl1 Hv.
  2: { apply public_again. eauto. }
  destruct (Hv v eq_refl) as (n & Hn & Hver). clear Hv.
  assert (Hp : pending_shown m t) by by exists status, pending, n, v.
  eapply (holds_bind _ _ (fun d' s' => held d' s' /\ same s s')).
  { apply unless_superseded; [eauto|]. apply transition_twice; [eauto|done|].
    evident Ha. }
  intros s1 d2 Hl2 [Hh1 Hs1]. pose proof (about_same _ _ _ _ Hs1 Ha) as Ha1.
  apply then_public; [done|]. apply recordObservation_spec; [done|]. split; cbn [vf_outcome plain_verification].
  - evident Ha1.
  - intros _. split; [done|]. destruct Ha1 as [-> Ht]. exists v, t. split_and!; [done..|].
    by exists (ot_transactionHex (un_transaction pending)), n.
Qed.

(** *** An executed transaction *)

Lemma reportable_plain s v decoded :
  claims (vf_outcome v) = false -> reportable s v decoded.
Proof. intros Hc. split; [by apply no_claim|]. intros H. by rewrite H in Hc. Qed.

Lemma reportable_evident s v decoded :
  outcome_evidence (vf_outcome v) (iw_manifest s.2) (iw_txid s.2) -> vf_outcome v <> oc_mempool ->
  reportable s v decoded.
Proof. intros Ho Hn. by split. Qed.

(** A step of the intent, its observation, and the reply. *)
Lemma step_then_report (m : prog Stored) s v decoded d :
  held d s -> holds m (fun d' s' => held d' s' /\ same s s') d -> reportable s v decoded ->
  holds (next ← m; _ ← recordObservation next v decoded; publicIntent next) told d.
Proof.
  intros Hh Hm Hr. eapply holds_bind; [exact Hm|]. intros s1 d1 Hl [Hh1 Hs1].
  apply then_public; [done|]. apply recordObservation_spec; [done|by eapply reportable_same].
Qed.

Lemma reobserve_spec s at_ d :
  held d s -> holds (reobserve s at_) (fun d' s' => held d' s' /\ same s s') d.
Proof. intros Hh. apply unless_superseded; [done|]. by apply transition_spec. Qed.

Lemma recordNoncanonical_spec s x v at_ d : held d s -> holds (recordNoncanonical s x v at_) told d.
Proof. intros Hh. apply (step_then_report _ s); [done|by apply reobserve_spec|by apply reportable_plain]. Qed.

Lemma recordFailure_spec s m t x h v at_ source d :
  held d s -> about s m t -> failure_shown m t -> holds (recordFailure s m x h v at_ source) told d.
Proof.
  intros Hh Ha Hf. eapply (holds_bind _ _ (fun _ _ => True)).
  - destruct (mf_action m); try by apply holds_ret. destruct (mf_binding m) as [b|]; [|by apply holds_ret].
    eapply (holds_bind _ _ (fun _ _ => True)); [by apply holds_ask|]. intros. by apply holds_ret.
  - intros completed d1 Hl _. destruct completed.
    + apply (step_then_report _ s); [eauto| |by apply reportable_plain]. apply unless_superseded; [eauto|].
      apply transition_spec; [eauto|done].
    + apply (step_then_report _ s); [eauto| |].
      * apply unless_superseded; [eauto|]. apply (toFailed_spec s m t); eauto.
      * apply reportable_evident; [evident Ha|done].
Qed.

(** The manager's source, as a reference built in or verified. *)
Definition referenceManager (manager : ManagerSourceView) : bool :=
  (String.eqb (mv_tier manager) "reference-built-in" && String.eqb (mv_provenance manager) "built-in") ||
  (String.eqb (mv_tier manager) "reference-render" && String.eqb (mv_provenance manager) "verified").

Lemma referenceManager_true manager :
  referenceManager manager = true ->
  mv_tier manager = "reference-built-in" /\ mv_provenance manager = "built-in" \/
  mv_tier manager = "reference-render" /\ mv_provenance manager = "verified".
Proof. unfold referenceManager. intros [H|H]%orb_true_iff; breflect; auto. Qed.

Lemma completionOf_spec s m x v clients id d :
  Shown (ask_clients id) (Ok clients) ->
  holds (completionOf s m x v clients) (fun _ c => forall u, c = judged true u -> completes m x v) d.
Proof.
  intros Hc. unfold completionOf, completes. destruct (mf_action m).
  1, 2, 3, 4, 8: apply holds_ret; by intros.
  1, 2: eapply holds_bind; [apply (holds_ask _ (fun _ => Shown _)); intros a d' _ Ha; exact Ha|];
    intros [manager|] d' _ Ha; [|apply holds_throw]; apply holds_ret; intros u [= He _];
    apply andb_true_iff in He as [Hn He]; apply Z.eqb_eq in Hn; split; [done|];
    exists manager; split; [done|]; by apply referenceManager_true.
  - destruct (mf_request m) as [| | | | | |actor [job|]| |]; try apply holds_throw.
    + destruct (cv_job clients) as [j|] eqn:Hj; [|apply holds_throw].
      destruct (job_bound s m j) eqn:Hb; [|apply holds_throw]. cbn [negb].
      destruct (String.eqb (bj_status j) "superseded"); [by apply holds_ret|].
      apply holds_ret. intros u [= He _]. unfold job_bound in Hb. breflect. by exists id, clients, j.
    + apply holds_ret. intros u [= He _]. by breflect.
  - destruct (mf_binding m) as [b|]; [|apply holds_throw].
    destruct (String.eqb_spec (bi_pox5ContractId b) (wt_contract (mf_transaction m))) as [He|]; [|apply holds_throw].
    apply holds_ret. intros u [= Hm _]. by exists b.
Qed.

Lemma recordSuccess_spec s m t x h v at_ clients id source d :
  held d s -> about s m t -> executed m t x v true -> Shown (ask_clients id) (Ok clients) ->
  holds (recordSuccess s m x h v at_ clients source) told d.
Proof.
  intros Hh Ha Hx Hc. assert (Hsucc : succeeded_shown m t) by by exists x, v.
  eapply (holds_bind _ _ (fun d' s' => held d' s' /\ same s s')).
  { apply unless_superseded; [done|]. by apply (toConfirmed_spec s m t). }
  intros s1 d1 Hl1 [Hh1 Hs1]. pose proof (about_same _ _ _ _ Hs1 Ha) as Ha1.
  eapply holds_bind; [eapply completionOf_spec; exact Hc|]. intros [complete unattested|] d2 Hl2 Hcomp.
  - assert (Hdone : complete = true -> completion_shown m t).
    { intros ->. exists x, v. split; [done|]. by apply (Hcomp unattested). }
    apply (step_then_report _ s1); [eauto| |].
    + destruct (complete && _) eqn:Hb; [|apply holds_ret; eauto]. apply andb_true_iff in Hb as [Hb _].
      apply transition_spec; [eauto|]. evident Ha1.
    + apply reportable_evident; [|by destruct complete]. destruct complete; evident Ha1.
  - apply (step_then_report _ s1); [eauto| |by apply reportable_plain].
    apply unless_superseded; [eauto|]. apply transition_spec; [eauto|done].
Qed.

Lemma refreshVerified_spec s m t x v at_ clients id succeeded source d :
  held d s -> about s m t -> verified_shown m t v -> execution_shown m t x succeeded ->
  Shown (ask_clients id) (Ok clients) ->
  holds (refreshVerified s m x v at_ clients succeeded source) told d.
Proof.
  intros Hh Ha Hv Hx Hc. unfold refreshVerified. destruct (xv_isCanonical x) eqn:Hcan; cbn [negb].
  2: by apply recordNoncanonical_spec.
  destruct (xv_blockHeight x) as [h|] eqn:Hheight.
  2: { apply then_public; [done|]. by apply recordPlain_spec. }
  destruct (safeHeight h) eqn:Hsafe; cbn [negb].
  2: { apply then_public; [done|]. by apply recordPlain_spec. }
  assert (Hex : executed m t x v succeeded) by (split; eauto).
  destruct succeeded; cbn [negb].
  - apply holds_try; [by eapply recordSuccess_spec|]. intros e d' Hl.
    eapply holds_bind; [eapply (reread_spec s); eauto|]. intros s1 d1 _ [Hh1 Hs1].
    apply then_public; [done|]. apply recordObservation_spec; [done|].
    pose proof (about_same _ _ _ _ Hs1 Ha) as Ha1. apply reportable_evident; [|done].
    cbn. evident Ha1. by exists x, v.
  - apply (recordFailure_spec s m t); [done..|]. by exists x, v.
Qed.

Lemma verifyObserved_shown s m t hex at_ d :
  held d s -> about s m t -> bytes_shown m t hex ->
  holds (verifyObserved s m hex at_) (fun _ o => forall v, o = Some v -> verified_shown m t v) d.
Proof.
  intros Hh Ha Hb. eapply holds_mono; [by apply (verifyObserved_spec s m t)|].
  intros o d' _ Ho v Hv. destruct (Ho v Hv) as (n & Hn & Hver). by exists hex, n.
Qed.

(** A reply stays one while the turn is given away. *)
Lemma told_await (m : prog PublicIntent) d : holds m told d -> holds (await m) told d.
Proof. intros Hm. apply holds_await; [done|]. eauto. Qed.

Lemma refreshIndexed_spec s m t status tx at_ clients id d :
  held d s -> about s m t -> Shown (ask_indexed t) (Some (lr_observed status tx)) ->
  Shown (ask_clients id) (Ok clients) -> holds (refreshIndexed s m tx at_ clients) told d.
Proof.
  intros Hh Ha Hs Hc. eapply holds_bind; [apply (verifyObserved_shown s m t); [done|done|by econstructor]|].
  intros [v|] d1 Hl1 Hv; [|eapply (public_again s); eauto].
  apply told_await. eapply (refreshVerified_spec s m t); eauto. by econstructor.
Qed.

(** What the API fallback ends with. *)
Definition fallback_ok (d : IntentDb) (f : ApiFallback) : Prop :=
  forall p, f = fallback_intent p -> told d p.

Lemma fallback_public (m : prog PublicIntent) d :
  holds m told d -> holds (p ← m; mret (fallback_intent p)) fallback_ok d.
Proof. intros Hm. eapply holds_bind; [done|]. intros p d' _ Hp. apply holds_ret. by intros ? [= <-]. Qed.

(** A step whose reply is the fallback's. *)
Lemma step_then_fallback (m : prog Stored) s v decoded d :
  held d s -> holds m (fun d' s' => held d' s' /\ same s s') d -> reportable s v decoded ->
  holds (next ← m; _ ← recordObservation next v decoded; p ← publicIntent next; mret (fallback_intent p))
    fallback_ok d.
Proof.
  intros Hh Hm Hr. eapply holds_bind; [exact Hm|]. intros s1 d1 Hl [Hh1 Hs1].
  eapply holds_bind; [apply recordObservation_spec; [done|by eapply reportable_same]|].
  intros _ d2 Hl2 _. apply fallback_public, publicIntent_spec. eauto.
Qed.

Lemma refreshIndexedFromApi_spec s m t at_ clients id d :
  held d s -> about s m t -> Shown (ask_clients id) (Ok clients) ->
  holds (refreshIndexedFromApi s m at_ clients) fallback_ok d.
Proof.
  intros Hh Ha Hc. unfold refreshIndexedFromApi. rewrite (storedTxid_about s m t Ha).
  eapply holds_bind; [by apply (persistedMempoolVerification_spec s m t)|]. intros persisted d1 Hl1 Hp.
  eapply holds_bind; [apply latest_observed|]. intros conclusion d2 Hl2 _.
  eapply holds_bind; [apply (holds_ask _ (fun _ => Shown _)); intros a d' _ Hs; exact Hs|].
  intros reads d3 Hl3 Hreads. cbn beta in Hreads. assert (Hh3 : held d3 s) by eauto.
  destruct (lookupCanonicalApiTransaction _ _ _ _ _) as [r| |reorged height hash|retry] eqn:Hlook.
  2, 4: by apply holds_ret.
  - eapply (holds_bind _ _ (fun _ o => forall v, o = Some v -> verified_shown m t v)).
    { destruct (ap_transactionHex r) as [hex|] eqn:Hhex; [|by apply holds_ret].
      apply (verifyObserved_shown s m t); [done|done|]. by eapply shown_receipt. }
    intros [v|] d4 Hl4 Hv.
    + eapply holds_bind; [|intros p d5 _ Hp'; apply holds_ret; by intros ? [= <-]].
      apply told_await. eapply (refreshVerified_spec s m t); eauto. by eapply receipt_execution.
    + destruct (ap_transactionHex r).
      * eapply holds_bind; [eapply (reread_spec s); eauto|]. intros s1 d5 _ [Hh5 _].
        by apply fallback_public, publicIntent_spec.
      * eapply holds_bind; [apply recordPlain_spec; [eauto|done|done]|]. intros _ d5 Hl5 _.
        apply fallback_public, publicIntent_spec. eauto.
  - apply (step_then_fallback _ s); [done|by apply reobserve_spec|by apply reportable_plain].
Qed.

(** ** Observation *)

Lemma observeMissing_spec s at_ d : held d s -> holds (observeMissing s at_) told d.
Proof.
  intros Hh. unfold observeMissing. case_bool_decide.
  - apply then_public; [done|]. by apply recordPlain_spec.
  - apply (step_then_report _ s); [done| |by apply reportable_plain].
    case_bool_decide; [by apply transition_spec|by apply holds_ret].
Qed.

Lemma observePrepared_spec s m at_ d :
  held d s -> holds (observePrepared s m at_) (fun d' o => forall p, o = Some p -> told d' p) d.
Proof.
  intros Hh. unfold observePrepared. destruct (negb _); [by apply holds_ret|].
  assert (Hsuper : forall detail d', later d d' ->
    holds (superseded ← supersede s at_ detail; p ← publicIntent superseded; mret (Some p))
      (fun d' o => forall p, o = Some p -> told d' p) d').
  { intros detail d' Hl. eapply holds_bind; [apply supersede_spec; eauto|]. intros s1 d1 Hl1 [Hh1 _].
    eapply holds_bind; [by apply publicIntent_spec|]. intros p d2 Hl2 Hp. apply holds_ret. by intros ? [= <-]. }
  destruct (_ <=? _).
  - eapply holds_bind; [by apply transition_spec|]. intros s1 d1 Hl1 [Hh1 _].
    eapply holds_bind; [by apply publicIntent_spec|]. intros p d2 Hl2 Hp. apply holds_ret. by intros ? [= <-].
  - eapply (holds_bind _ _ (fun _ _ => True)); [by apply holds_ask|]. intros reads d1 Hl1 _.
    destruct (authoritativeFacts _ _ _ _ _ _ _ _ _ _) as [f|[code retryable|]]; [|by apply Hsuper|apply holds_throw].
    destruct (facts_unchanged s m f); [by apply holds_ret|]. by apply Hsuper.
Qed.

Lemma unavailable_public s at_ detail d :
  held d s -> holds (_ ← recordUnavailable s at_ detail; publicIntent s) told d.
Proof. intros Hh. apply then_public; [done|]. by apply recordPlain_spec. Qed.

Lemma observeUnseen_spec s indexed fallback pending at_ d :
  held d s -> holds (observeUnseen s indexed fallback pending at_) told d.
Proof.
  intros Hh. unfold observeUnseen. pose proof (unavailable_public s at_) as Hun.
  destruct fallback; [by apply Hun..|]. destruct (match indexed with Some _ => _ | None => _ end); [|by apply Hun].
  destruct pending as [[]|]; try by apply Hun. by apply observeMissing_spec.
Qed.

Lemma observeElsewhere_spec s m t indexed at_ clients id d :
  held d s -> about s m t -> Shown (ask_clients id) (Ok clients) ->
  holds (observeElsewhere s m t indexed at_ clients) told d.
Proof.
  intros Hh Ha Hc. eapply holds_bind.
  - apply holds_await; [by apply (refreshIndexedFromApi_spec s m t _ _ id)|].
    intros f d1 d2 _ Hl Hf p Hp. eapply told_after; [exact Hl|by apply Hf].
  - intros fallback d1 Hl1 Hf.
    assert (Hrest : holds (pending ← ask (ask_pending t);
      match pending with
      | Some (lr_observed _ t) => refreshPending s m t at_
      | _ => observeUnseen s indexed fallback pending at_
      end) told d1).
    { eapply holds_bind; [apply (holds_ask _ (fun _ => Shown _)); intros a d' _ Hs; exact Hs|].
      intros pending d2 Hl2 Hp. cbn beta in Hp.
      destruct pending as [[]|]; try (by apply observeUnseen_spec; eauto).
      eapply (refreshPending_spec s m t); eauto. }
    destruct fallback; [by apply holds_ret, Hf|exact Hrest..].
Qed.

Lemma observeSubmittedIntent_spec s m t at_ d :
  held d s -> about s m t -> holds (observeSubmittedIntent s m t at_) told d.
Proof.
  intros Hh Ha.
  eapply holds_bind; [apply (holds_ask _ (fun _ => Shown _)); intros a d' _ Hs; exact Hs|].
  intros answer d1 Hl1 Hans. cbn beta in Hans.
  destruct (routedClients m answer) as [clients|message] eqn:Hr; [|apply unavailable_public; eauto].
  assert (answer = Ok clients) as ->.
  { unfold routedClients in Hr. destruct answer as [view|]; [|done]. destruct (networkRouting m view); [by injection Hr as ->|done]. }
  destruct (cv_reader clients); cbn [negb]; [|apply holds_throw].
  eapply holds_bind; [apply (holds_ask _ (fun _ => Shown _)); intros a d' _ Hs; exact Hs|].
  intros indexed d2 Hl2 Hind. cbn beta in Hind.
  destruct indexed as [[]|]; try (by apply (observeElsewhere_spec s m t _ _ clients s.1); eauto).
  apply told_await. eapply (refreshIndexed_spec s m t); eauto.
Qed.

Lemma observeStored_spec s at_ d : held d s -> holds (observeStored s at_) told d.
Proof.
  intros Hh. eapply holds_bind; [apply parseStoredManifest_spec|]. intros m d1 Hl1 [-> _].
  eapply holds_bind; [apply observePrepared_spec; eauto|]. intros [p|] d2 Hl2 Hp; [by apply holds_ret, Hp|].
  destruct (iw_txid s.2) as [t|] eqn:Ht; [|apply publicIntent_spec; eauto].
  apply observeSubmittedIntent_spec; [eauto|by split].
Qed.

End Steps.
