(* ===== verification/IntentMethods.v ===== *)
(** * The methods of the wallet-intent service keep the evidence

    Refreshing, reconciling, preparing, submitting, replacing and the maintenance loop, composed
    of the steps of [IntentSteps]. *)

From S2P Require Import Prelude Text CanonicalJson Clarity OperationPlan NakamotoBlock SweepPlan LiveReader Recipe Receipt Cadence WalletRequest WalletVerify WalletFacts IntentStore IntentStoreCorrect IntentService IntentSystem IntentLogic IntentSteps.

Open Scope string_scope.
Open Scope list_scope.
Open Scope Z_scope.

Section Methods.

Context {W : IntentLibrary} {V : IntentWorld}.

#[local] Abbreviation Stored := (string * IntentRow)%type.

Hint Resolve same_refl held_later told_after later_refl : core.

Lemma later_step d d' d'' : later d d' -> later d' d'' -> later d d''.
Proof. apply later_trans. Qed.

Hint Extern 3 (later _ _) => eapply later_step; [eassumption|] : core.

(** Intents in hand. *)
Definition all_held (d : IntentDb) (l : list Stored) : Prop := Forall (held d) l.

Lemma all_held_later d d' l : later d d' -> all_held d l -> all_held d' l.
Proof. intros Hl Hh. eapply Forall_impl; [exact Hh|]. eauto. Qed.

Lemma all_stored_held d l : Inv d -> Forall (stored d) l -> all_held d l.
Proof. intros Hi Hs. eapply Forall_impl; [exact Hs|]. intros s. by apply stored_held. Qed.

Lemma all_held_filter d (p : Stored -> bool) l : all_held d l -> all_held d (List.filter p l).
Proof.
  unfold all_held. rewrite !Forall_forall. intros Hl s. rewrite list_elem_of_In, filter_In, <- list_elem_of_In.
  intros [Hs _]. auto.
Qed.

(** ** Equivalent completions *)

Lemma record_displaced_spec l at_ d : all_held d l -> holds (record_displaced l at_) (fun _ _ => True) d.
Proof.
  revert d. induction l as [|s l IH]; intros d Hl; cbn [record_displaced]; [by apply holds_ret|].
  apply Forall_cons in Hl as [Hs Hl]. eapply holds_bind; [by apply recordPlain_spec|].
  intros _ d' Hd _. apply IH. by eapply all_held_later.
Qed.

Lemma resolveEquivalentCompletion_spec id at_ d :
  holds (resolveEquivalentCompletion id at_) (fun _ _ => True) d.
Proof.
  eapply holds_bind; [|intros l d' _ Hl; by apply record_displaced_spec].
  eapply holds_db; [intros _; apply supersede_equivalent_leaves | intros _; apply grounded_idle|].
  intros l d' _ Hi. by apply all_stored_held.
Qed.

(** ** Refreshing *)

(** The outcome of a refresh: a reply, or a throw. *)
Definition outcome_ok (d : IntentDb) (r : result WalletError PublicIntent) : Prop :=
  forall p, r = Ok p -> told d p.

Lemma outcome_later d d' r : later d d' -> outcome_ok d r -> outcome_ok d' r.
Proof. intros Hl Hr p Hp. eauto. Qed.

Lemma refreshOnce_spec input s previousId at_ d :
  held d s -> holds (refreshOnce input s previousId at_) (fun d' x => outcome_ok d' x.1) d.
Proof.
  intros Hh. unfold refreshOnce. eapply (holds_after _ _ told).
  - apply told_await. by apply observeStored_spec.
  - intros intent d1 Hl1 Ht. eapply holds_bind; [apply latest_observed|]. intros o d2 Hl2 _.
    eapply (holds_after _ _ told).
    + destruct (_ && _); [|apply holds_ret; eauto].
      eapply holds_bind; [apply resolveEquivalentCompletion_spec|]. intros _ d3 _ _.
      eapply holds_bind; [apply requireStored_spec|]. intros s1 d4 _ (_ & Hh1 & _). by apply publicIntent_spec.
    + intros p d3 _ Hp. apply holds_ret. by intros ? [= <-].
    + intros e d3 _. by apply holds_ret.
  - intros e d1 _. by apply holds_ret.
Qed.

Lemma refreshStored_spec input at_ d : holds (refreshStored input at_) told d.
Proof.
  eapply (holds_bind _ _ (fun _ _ => True)); [by apply holds_remember|]. intros [ticket|] d1 _ _.
  - eapply (holds_bind _ _ outcome_ok).
    + apply (holds_ask (ask_join ticket)). intros a d' _ Ha. exact Ha.
    + intros r d' _ Hr. apply holds_result. intros p Hp. by apply Hr.
  - eapply holds_bind; [apply latest_observed|]. intros previous d2 _ _.
    eapply holds_bind; [apply requireStored_spec|]. intros s d3 _ (_ & Hh & _).
    eapply (holds_bind _ _ (fun _ _ => True)); [by apply holds_remember|]. intros ticket d4 Hl4 _.
    eapply holds_bind; [apply refreshOnce_spec; eauto|]. intros [outcome retryLater] d5 _ Ho. cbn in Ho.
    eapply (holds_bind _ _ (fun d' _ => outcome_ok d' outcome)).
    + apply holds_remember. intros mem Hm. split; [|exact Ho]. intros t p. cbn.
      rewrite lookup_insert_Some. intros [[_ Hp]|[_ Hp]]; [by apply Ho|by eapply Hm].
    + intros _ d6 Hl6 Ho6. apply holds_result. intros p Hp. by apply Ho6.
Qed.

(** ** Earlier intents *)

(** The earlier intent that blocks or completed, if any. *)
Definition held_option (d : IntentDb) (o : option Stored) : Prop := forall s, o = Some s -> held d s.

Lemma held_option_later d d' o : later d d' -> held_option d o -> held_option d' o.
Proof. intros Hl Ho s Hs. eauto. Qed.

Lemma read_again id d :
  holds (s ← requireStored id; mret (Some s)) held_option d.
Proof.
  eapply holds_bind; [apply requireStored_spec|]. intros s d' _ (_ & Hh & _). apply holds_ret. by intros ? [= <-].
Qed.

Lemma reconcile_candidates_spec l at_ d : holds (reconcile_candidates l at_) held_option d.
Proof.
  revert d. induction l as [|candidate l IH]; intros d; cbn [reconcile_candidates]; [by apply holds_ret|].
  eapply holds_bind; [apply told_await, refreshStored_spec|]. intros refreshed d1 _ _.
  destruct (verified_complete refreshed); [|apply IH].
  eapply holds_bind; [apply resolveEquivalentCompletion_spec|]. intros _ d2 _ _. apply read_again.
Qed.

Lemma listed_spec p d : holds (db (list_where isUuid validateStacksAddress sha256 p)) all_held d.
Proof.
  eapply holds_db; [intros _; apply list_leaves | intros _; apply grounded_idle|].
  intros l d' _ Hi. by apply all_stored_held.
Qed.

Lemma reconcileSuperseded_spec action scope factsSha256 at_ d :
  holds (reconcileSuperseded action scope factsSha256 at_) held_option d.
Proof. eapply holds_bind; [apply listed_spec|]. intros l d' _ _. apply reconcile_candidates_spec. Qed.

Lemma hasCanonicalExecution_spec id action d : holds (hasCanonicalExecution id action) (fun _ _ => True) d.
Proof.
  eapply holds_bind; [apply latest_observed|]. intros [o|] d' _ _; [|by apply holds_ret].
  destruct (negb _); [by apply holds_ret|]. destruct (_ || _); [by apply holds_ret|].
  eapply (holds_bind _ _ (fun _ _ => True)); [by apply holds_query|]. intros. by apply holds_ret.
Qed.

Lemma latestVerification_spec id d : holds (latestVerification id) (fun _ _ => True) d.
Proof. eapply holds_bind; [apply latest_observed|]. intros. by apply holds_ret. Qed.

Lemma reconcile_scope_spec l action at_ d : all_held d l -> holds (reconcile_scope l action at_) held_option d.
Proof.
  revert d. induction l as [|input l IH]; intros d Hl; cbn [reconcile_scope]; [by apply holds_ret|].
  apply Forall_cons in Hl as [Hh Hl]. eapply (holds_bind _ _ held).
  { case_bool_decide; [|by apply holds_ret]. eapply holds_mono; [by apply supersede_spec|]. by intros ? ? _ []. }
  intros candidate d1 Hl1 _. eapply holds_bind; [apply told_await, refreshStored_spec|]. intros refreshed d2 Hl2 _.
  eapply holds_bind; [apply latestVerification_spec|]. intros own d3 Hl3 _.
  eapply holds_bind; [apply hasCanonicalExecution_spec|]. intros completedPrior d4 Hl4 _.
  destruct (blocks _ _ _ _); [apply read_again|]. apply IH.
  do 4 (eapply all_held_later; [eassumption|]). done.
Qed.

Lemma reconcileHistoricalScope_spec action scope at_ ignoredId d :
  holds (reconcileHistoricalScope action scope at_ ignoredId) held_option d.
Proof.
  eapply holds_bind; [apply listed_spec|]. intros l d' _ Hl. by apply reconcile_scope_spec, all_held_filter.
Qed.

Lemma held_option_await (m : prog (option Stored)) d : holds m held_option d -> holds (await m) held_option d.
Proof. intros Hm. apply holds_await; [done|]. intros o d1 d2 _ Hl Ho. by eapply held_option_later. Qed.

(** ** Preparing *)

(** Facts read for a request. *)
Definition facts_shown (request : WalletRequest) (f : AuthoritativeFacts) : Prop :=
  exists reads, Shown (ask_facts request) reads /\
    authoritativeFacts validateStacksAddress lib bufferCV settle sha256 postConditionToHex verifySignature
      publicKeyFromSignatureRsv reads request = Ok f.

Lemma freshFacts_spec request d :
  holds (await (freshFacts request)) (fun _ f => facts_shown request f) d.
Proof.
  apply holds_await; [|done]. eapply holds_bind; [apply (holds_ask _ (fun _ => Shown _)); intros a d' _ Hs; exact Hs|].
  intros reads d1 _ Hs. cbn beta in Hs. unfold facts_from. apply holds_result. intros f Hf.
  exists reads. split; [done|].
  destruct (authoritativeFacts _ _ _ _ _ _ _ _ _ _) as [g|[code retryable|]]; cbn in Hf; [by injection Hf as ->|done..].
Qed.

Lemma findActive_spec action scope at_ d : holds (findActive action scope at_) held_option d.
Proof.
  eapply holds_db; [intros _; apply findActive_leaves | intros _; apply grounded_idle|].
  intros o d' _ Hi Ho s ->. apply stored_held; [done|]. by destruct Ho.
Qed.

Lemma canRepeat_spec id action d : holds (canRepeat id action) (fun _ _ => True) d.
Proof.
  eapply holds_bind; [apply latestVerification_spec|]. intros v d1 _ _.
  eapply holds_bind; [apply hasCanonicalExecution_spec|]. intros. by apply holds_ret.
Qed.

(** What an attempt decides: an answer is a stored intent. *)
Definition decision_ok (d : IntentDb) (x : Decision3) : Prop := forall p, x = answer_with p -> told d p.

Lemma supersede_and_go s at_ detail d :
  held d s -> holds (_ ← supersede s at_ detail; mret go_on) decision_ok d.
Proof. intros Hh. eapply holds_bind; [by apply supersede_spec|]. intros. by apply holds_ret. Qed.

(** The facts once more; if they still hold the intent makes way. *)
Lemma validate_and_retire (again : AuthoritativeFacts -> bool) request s at_ detail d :
  held d s ->
  holds (g ← await (freshFacts request);
         if again g then mret try_again else _ ← supersede s at_ detail; mret go_on) decision_ok d.
Proof.
  intros Hh. eapply holds_bind; [apply freshFacts_spec|]. intros g d1 Hl _.
  destruct (again g); [by apply holds_ret|]. apply supersede_and_go. eauto.
Qed.

(** The active intent refreshed, read again, and whether its action may repeat. *)
Lemma refreshed_current (s : Stored) action at_ (k : PublicIntent -> Stored -> bool -> prog Decision3) d :
  (forall p current repeatable d', later d d' -> told d' p -> held d' current ->
     holds (k p current repeatable) decision_ok d') ->
  holds (refreshed ← await (refreshStored s at_); current ← requireStored s.1;
         repeatable ← canRepeat current.1 action; k refreshed current repeatable) decision_ok d.
Proof.
  intros Hk. eapply holds_bind; [apply told_await, refreshStored_spec|]. intros p d1 Hl1 Hp.
  eapply holds_bind; [apply requireStored_spec|]. intros current d2 Hl2 (_ & Hh & _).
  eapply holds_bind; [apply canRepeat_spec|]. intros repeatable d3 Hl3 _. apply Hk; eauto.
Qed.

Lemma decideActive_spec request f active at_ d :
  held_option d active -> holds (decideActive request f active at_) decision_ok d.
Proof.
  intros Ha. unfold decideActive. destruct active as [s|]; [|by apply holds_ret].
  specialize (Ha s eq_refl). destruct (String.eqb _ _); [destruct (_ || _)|].
  - apply refreshed_current. intros p current repeatable d1 Hl Hp Hh.
    destruct repeatable; cbn [negb]; [by apply validate_and_retire|]. apply holds_ret. by intros ? [= <-].
  - eapply holds_bind; [apply freshFacts_spec|]. intros g d1 Hl _. destruct (negb _); [by apply holds_ret|].
    eapply holds_bind; [apply publicIntent_spec; eauto|]. intros p d2 _ Hp. apply holds_ret. by intros ? [= <-].
  - case_bool_decide; [by apply supersede_and_go|].
    apply refreshed_current. intros p current repeatable d1 Hl Hp Hh.
    case_bool_decide; [by apply supersede_and_go|].
    destruct repeatable; [by apply validate_and_retire|].
    destruct (is_active current.2); [|by apply holds_ret]. apply holds_ret. by intros ? [= <-].
Qed.

(** An answer of an attempt. *)
Definition answer_ok (d : IntentDb) (o : option PublicIntent) : Prop := forall p, o = Some p -> told d p.

Lemma answer_public (m : prog PublicIntent) d :
  holds m told d -> holds (p ← m; mret (Some p)) answer_ok d.
Proof. intros Hm. eapply holds_bind; [done|]. intros p d' _ Hp. apply holds_ret. by intros ? [= <-]. Qed.

Lemma sealed_origin id request f at_ :
  facts_shown request f -> row_ok (new_intent (createInputOf (manifestOf id request f at_) f)).
Proof. intros (reads & Hs & Hf). split; [done|]. by exists reads, f. Qed.

Lemma sealIntent_spec request f at_ d : holds (sealIntent request f at_) answer_ok d.
Proof.
  eapply holds_bind; [apply freshFacts_spec|]. intros current d1 _ Hc. destruct (negb _); [by apply holds_ret|].
  eapply (holds_bind _ _ (fun _ _ => True)); [by apply holds_remember|]. intros n d2 _ _.
  cbv zeta. destruct (storedManifestSchema _ _); cbn [negb]; [|apply holds_throw]. apply holds_as_intent.
  eapply (holds_bind _ _ (fun d' x => held d' x.1)); [|intros x d3 _ Hx; by apply answer_public, publicIntent_spec].
  eapply holds_db; [intros _; apply create_leaves| |].
  - intros _. split; [done| |done]. intros i ->. by apply sealed_origin.
  - intros x d3 _ Hi [Hs _]. by apply stored_held.
Qed.

Lemma prepareAttempt_spec request at_ ignoredId d : holds (prepareAttempt request at_ ignoredId) answer_ok d.
Proof.
  eapply holds_bind; [apply freshFacts_spec|]. intros f d1 _ _.
  eapply holds_bind; [apply held_option_await, reconcileHistoricalScope_spec|]. intros [s|] d2 _ Hb.
  - by apply answer_public, publicIntent_spec, Hb.
  - eapply holds_bind; [apply findActive_spec|]. intros active d3 _ Ha.
    eapply holds_bind; [by apply decideActive_spec|]. intros [p| |] d4 _ Hd.
    + apply holds_ret. intros ? [= <-]. by apply Hd.
    + by apply holds_ret.
    + apply sealIntent_spec.
Qed.

Lemma prepareLoop_spec n request at_ ignoredId d : holds (prepareLoop n request at_ ignoredId) told d.
Proof.
  revert ignoredId d. induction n as [|n IH]; intros ignoredId d; cbn [prepareLoop]; [apply holds_throw|].
  eapply holds_bind; [apply prepareAttempt_spec|]. intros [p|] d1 _ Hp; [by apply holds_ret, Hp|apply IH].
Qed.

Lemma prepare_spec request at_ ignoredId d : holds (prepare request at_ ignoredId) told d.
Proof. unfold prepare. destruct (walletRequestSchema _ _); [apply prepareLoop_spec|apply holds_throw]. Qed.

(** ** The other methods *)

Lemma submit_spec id txid at_ d : holds (submit id txid at_) told d.
Proof.
  eapply holds_bind; [apply requireStored_spec|]. intros s d1 _ _. apply holds_as_intent.
  eapply (holds_bind _ _ (fun _ _ => True)); [by apply holds_result|]. intros t d2 _ _.
  eapply (holds_bind _ _ held).
  - eapply holds_db; [intros _; apply submit_leaves | intros _; apply grounded_idle|].
    intros x d3 _ Hi (_ & Hs & _). by apply stored_held.
  - intros x d3 _ Hx. apply then_public; [done|]. destruct (has_txid s.2); [by apply holds_ret|].
    by apply recordPlain_spec.
Qed.

Lemma reread_refresh id at_ d : holds (s ← requireStored id; refreshStored s at_) told d.
Proof. eapply holds_bind; [apply requireStored_spec|]. intros. apply refreshStored_spec. Qed.

Lemma reread_public id d : holds (s ← requireStored id; publicIntent s) told d.
Proof. eapply holds_bind; [apply requireStored_spec|]. intros s d' _ (_ & Hh & _). by apply publicIntent_spec. Qed.

Lemma refreshIntent_spec id at_ d : holds (refreshIntent id at_) told d.
Proof.
  eapply holds_bind; [apply requireStored_spec|]. intros first d1 _ (_ & Hh & _).
  eapply (holds_bind _ _ held).
  { destruct (_ && _); [|by apply holds_ret]. eapply holds_bind; [apply findActive_spec|].
    intros [a|] d2 Hl _; [|apply holds_ret; eauto]. destruct (String.eqb _ _); [apply holds_ret; eauto|].
    eapply holds_mono; [apply supersede_spec; eauto|]. by intros ? ? _ []. }
  intros initial d2 _ Hi. case_bool_decide; [|case_bool_decide].
  - eapply holds_bind; [apply held_option_await, reconcileHistoricalScope_spec|]. intros [b|] d3 Hl _.
    + eapply holds_bind; [apply supersede_spec; eauto|]. intros s d4 _ [Hs _]. by apply publicIntent_spec.
    + apply reread_refresh.
  - apply reread_refresh.
  - eapply holds_bind; [apply held_option_await, reconcileSuperseded_spec|]. intros [c|] d3 _ _.
    + destruct (bool_decide _); [apply reread_refresh|apply reread_public].
    + apply reread_refresh.
Qed.

Lemma conflict_if_spec b d : holds (conflict_if b) (fun _ _ => True) d.
Proof. destruct b; [apply holds_throw|by apply holds_ret]. Qed.

Lemma replace_spec id at_ d : holds (replace id at_) told d.
Proof.
  eapply holds_bind; [apply requireStored_spec|]. intros before d1 _ _.
  eapply holds_bind; [apply conflict_if_spec|]. intros _ d2 _ _.
  eapply holds_bind; [apply told_await, refreshIntent_spec|]. intros refreshed d3 _ _.
  eapply holds_bind; [apply conflict_if_spec|]. intros _ d4 _ _.
  eapply holds_bind; [apply requireStored_spec|]. intros s d5 _ (_ & Hh & _).
  eapply holds_bind; [apply parseStoredManifest_spec|]. intros m d6 Hl6 _.
  eapply holds_bind; [apply freshFacts_spec|]. intros f d7 Hl7 _.
  eapply holds_bind; [apply supersede_spec; eauto|]. intros x d8 _ _. apply told_await, prepare_spec.
Qed.

Lemma observe_all_spec ids at_ d : holds (observe_all ids at_) (fun _ _ => True) d.
Proof.
  revert d. induction ids as [|id ids IH]; intros d; cbn [observe_all]; [by apply holds_ret|].
  eapply (holds_bind _ _ (fun _ _ => True)); [by apply holds_remember|]. intros due d1 _ _.
  eapply (holds_bind _ _ (fun _ _ => True)); [|intros _ d2 _ _; apply IH].
  destruct due; [|by apply holds_ret]. apply holds_try; [|intros; by apply holds_ret].
  eapply holds_bind; [apply requireStored_spec|]. intros s d2 _ _.
  eapply holds_bind; [apply told_await, refreshStored_spec|]. intros. by apply holds_ret.
Qed.

Lemma observeSubmitted_spec at_ d : holds (observeSubmitted at_) (fun _ _ => True) d.
Proof.
  eapply (holds_bind _ _ (fun _ _ => True)); [by apply holds_query|]. intros ids d1 _ _.
  eapply (holds_bind _ _ (fun _ _ => True)); [by apply holds_remember|]. intros _ d2 _ _. apply observe_all_spec.
Qed.

(** Every call of the service answers with stored intents only. *)
Lemma method_spec c d : holds (method c) answer_ok d.
Proof.
  destruct c; cbn [method]; try apply answer_public.
  - apply getIntent_spec.
  - apply prepare_spec.
  - apply submit_spec.
  - apply refreshIntent_spec.
  - apply replace_spec.
  - eapply holds_bind; [apply observeSubmitted_spec|]. intros. by apply holds_ret.
Qed.

End Methods.
