(* ===== verification/IntentCorrect.v ===== *)
(** * What browser-wallet intents guarantee

    The invariant of [IntentLogic] holds at every commit of every run of the process of
    [IntentSystem], also after stops; what follows for the states an operator sees, for what the
    wallet is asked to sign, and for what the store keeps. *)

From S2P Require Import Prelude Text CanonicalJson Clarity OperationPlan NakamotoBlock SweepPlan LiveReader Recipe Receipt Cadence WalletRequest WalletVerify WalletFacts WalletFactsCorrect IntentStore IntentStoreCorrect IntentRegistry IntentService IntentSystem IntentLogic IntentSteps IntentMethods.

Open Scope string_scope.
Open Scope list_scope.
Open Scope Z_scope.

Section Correct.

Context {W : IntentLibrary} {V : IntentWorld}.

(** ** Segments *)

(** A call that waits for an answer. *)
Definition waiting {A} (m : prog A) : Prop := match m with Ask _ _ => True | _ => False end.
Definition ended {A} (m : prog A) : Prop := match m with Done _ => True | _ => False end.

Lemma waiting_later {A} (m : prog A) Q d d' : waiting m -> later d d' -> wp m Q d -> wp m Q d'.
Proof.
  destruct m as [r|X op k|X f k|q k]; try done. intros _ Hl Hw a d2 Hl2 Hi Ha. apply Hw; [|done..].
  by eapply later_trans.
Qed.

(** A segment keeps the invariant at each of its commits. *)
Lemma run_keeps {A} (m : prog A) Q d mem :
  Inv d -> memory_ok d mem -> wp m Q d ->
  Forall (fun d1 => Inv d1 /\ later d d1) (run m d mem).1 /\
  let '(m', (d', mem')) := (run m d mem).2 in
  Inv d' /\ later d d' /\ memory_ok d' mem' /\ wp m' Q d' /\ (waiting m' \/ ended m').
Proof.
  revert d mem. induction m as [r|X op k IH|X f k IH|q k IH]; intros d mem Hi Hm Hw; cbn [run].
  - cbn. split_and!; [constructor|done|apply later_refl|done|done|by right].
  - cbn in Hw. destruct (op d) as [x d1]. destruct Hw as (Hi1 & Hl1 & Hw).
    destruct (IH x d1 mem Hi1 (memory_ok_later _ _ _ _ Hl1 Hm) Hw) as [Hc Hr].
    destruct (run (k x) d1 mem) as [commits [m' [d' mem']]]. cbn in *.
    destruct Hr as (Hi' & Hl' & Hm' & Hw' & He). split_and!; eauto using later_trans.
    constructor; [done|]. eapply Forall_impl; [exact Hc|]. intros d2 [Hi2 Hl2]. split; [done|by eapply later_trans].
  - destruct (Hw mem Hm) as [Hm1 Hw1]. destruct (f mem) as [x mem1]. by apply IH.
  - cbn. split_and!; [constructor|done|apply later_refl|done|done|by left].
Qed.

(** ** The invariant of the process *)

Definition task_ok (d : IntentDb) (m : Task) : Prop :=
  wp m (fun d r => match r with Ok a => answer_ok d a | Err _ => True end) d.

Record system_ok (y : System) : Prop := {
  so_store : Inv (sy_db y);
  so_memory : memory_ok (sy_db y) (sy_memory y);
  so_tasks : Forall (fun m => waiting m /\ task_ok (sy_db y) m) (sy_tasks y);
  so_replies : Forall (told (sy_db y)) (sy_replies y);
}.

Lemma told_all_later d d' l : later d d' -> Forall (told d) l -> Forall (told d') l.
Proof. intros Hl H. eapply Forall_impl; [exact H|]. intros p. by eapply told_later. Qed.

Lemma tasks_later d d' l :
  later d d' -> Forall (fun m : Task => waiting m /\ task_ok d m) l ->
  Forall (fun m => waiting m /\ task_ok d' m) l.
Proof.
  intros Hl H. eapply Forall_impl; [exact H|]. intros m [Hw Ht]. split; [done|]. by eapply waiting_later.
Qed.

Lemma empty_inv : Inv {| intents := ∅; observations := [] |}.
Proof.
  split; cbn; [by apply map_Forall_empty|by intros|]. intros o H. by apply elem_of_nil in H.
Qed.

Lemma initial_ok : system_ok initial_system.
Proof.
  split; [exact empty_inv| |constructor|constructor].
  intros t p H. cbn in H. by rewrite lookup_empty in H.
Qed.

Lemma after_segment_ok m tasks y :
  system_ok y -> task_ok (sy_db y) m -> Forall (fun m => waiting m /\ task_ok (sy_db y) m) tasks ->
  system_ok (after_segment m tasks y) /\ later (sy_db y) (sy_db (after_segment m tasks y)).
Proof.
  intros [Hi Hm _ Hr] Hw Ht. destruct (run_keeps m _ _ _ Hi Hm Hw) as [_ H]. unfold after_segment.
  destruct (run m (sy_db y) (sy_memory y)) as [commits [m' [d' mem']]]. cbn in H.
  destruct H as (Hi' & Hl & Hm' & Hw' & He). pose proof (tasks_later _ _ _ Hl Ht) as Ht'.
  pose proof (told_all_later _ _ _ Hl Hr) as Hr'.
  destruct m' as [[[p|]|e]|X op k|X f k|q k]; cbn; (split; [|done]); split; cbn; try done.
  - constructor; [by apply Hw'|done].
  - by destruct He.
  - by destruct He.
  - by constructor.
Qed.

Lemma stops_ok m y y' :
  system_ok y -> task_ok (sy_db y) m -> stops_in m y y' -> system_ok y' /\ later (sy_db y) (sy_db y').
Proof.
  intros [Hi Hm _ Hr] Hw (d & drawn & Hd & _ & ->). destruct (run_keeps m _ _ _ Hi Hm Hw) as [Hc _].
  assert (Hid : Inv d /\ later (sy_db y) d).
  { apply elem_of_cons in Hd as [->|Hd]; [split; [done|apply later_refl]|]. rewrite Forall_forall in Hc. by apply Hc. }
  destruct Hid as [Hid Hl]. split; [|done]. split; cbn; [done| |constructor|by eapply told_all_later].
  intros t p H. cbn in H. by rewrite lookup_empty in H.
Qed.

(** An answer of the world, or a refresh that ended, is admissible. *)
Lemma answerable_admissible y q a :
  system_ok y -> answerable (sy_memory y) q a -> admissible (sy_db y) q a.
Proof.
  intros [_ Hm _ _]. destruct q as [r|id|txid|txid|txid|c s t|c t| |ticket]; try done.
  intros Ha p Hp. cbn in a, Ha. apply (Hm ticket). rewrite Ha. by f_equal.
Qed.

Lemma answered_ok y before rest q k a :
  system_ok y -> sy_tasks y = before ++ Ask q k :: rest -> answerable (sy_memory y) q a ->
  task_ok (sy_db y) (k a) /\ Forall (fun m => waiting m /\ task_ok (sy_db y) m) (before ++ rest).
Proof.
  intros Hy Ht Ha. pose proof (so_tasks _ Hy) as Htasks. rewrite Ht in Htasks.
  apply Forall_app in Htasks as [Hb Htasks]. apply Forall_cons in Htasks as [[_ Hq] Hrest].
  split; [|by apply Forall_app]. apply Hq; [apply later_refl|apply Hy|by apply answerable_admissible].
Qed.

Lemma step_ok y y' : system_ok y -> intent_step y y' -> system_ok y' /\ later (sy_db y) (sy_db y').
Proof.
  intros Hy. assert (Hmethod : forall c, task_ok (sy_db y) (method c)).
  { intros c. apply method_spec, Hy. }
  intros [c|before rest q k a Ht Ha|c z Hs|before rest q k a z Ht Ha Hs].
  - apply after_segment_ok; [done|done|apply Hy].
  - destruct (answered_ok y before rest q k a Hy Ht Ha). by apply after_segment_ok.
  - by eapply stops_ok.
  - destruct (answered_ok y before rest q k a Hy Ht Ha). by eapply stops_ok.
Qed.

Lemma steps_ok y y' : system_ok y -> rtc intent_step y y' -> system_ok y' /\ later (sy_db y) (sy_db y').
Proof.
  intros Hy Hs. revert Hy. induction Hs as [y|y z u Hs _ IH]; intros Hy; [split; [done|apply later_refl]|].
  destruct (step_ok _ _ Hy Hs) as [Hz Hl]. destruct (IH Hz) as [Hu Hl']. split; [done|by eapply later_trans].
Qed.

Lemma intents_reachable_ok y : intents_reachable y -> system_ok y.
Proof. intros H. by destruct (steps_ok _ _ initial_ok H). Qed.

(** ** Guarantees *)

(** C13. What the operator is told happened was shown.  Whatever is called, answered and
    interrupted: an intent is pending, confirmed, complete or failed only when bytes under the
    submitted ID were shown and verified to be (for a failure: possibly, not to be) the sealed
    request, and the node's index or a canonical receipt showed its execution in that way; it is
    complete only when its action was shown to be done.  Every recorded observation rests on the
    same, and every reply is a stored intent with a status and verification that do. *)
Theorem recorded_outcomes_are_shown y :
  intents_reachable y ->
  (forall id r, intents (sy_db y) !! id = Some r -> state_evidence (iw_state r) (iw_manifest r) (iw_txid r)) /\
  (forall o, o ∈ observations (sy_db y) -> exists r, intents (sy_db y) !! ob_intentId o = Some r /\
     outcome_evidence (ob_outcome o) (iw_manifest r) (iw_txid r)) /\
  (forall p, p ∈ sy_replies y -> exists r, reply_ok (sy_db y) p r).
Proof.
  intros H%intents_reachable_ok. destruct H as [Hi _ _ Hr]. split_and!.
  - intros id r Hid. apply (inv_rows _ Hi id r Hid).
  - intros o Ho. destruct (inv_observations _ Hi o Ho) as (r & Hid & Hok). exists r. split; [done|apply Hok].
  - rewrite Forall_forall in Hr. exact Hr.
Qed.

(** C14. Every stored intent is what the wallet may sign.  Its manifest seals a transaction that
    the authoritative facts, read for its request, produced: a call by the requesting sender on
    the configured network, of the function of the action, on the allowed target. *)
Theorem sealed_intents_are_wallet_calls y id r :
  intents_reachable y -> intents (sy_db y) !! id = Some r ->
  exists reads f c contract,
    let request := mf_request (iw_manifest r) in
    Shown (ask_facts request) reads /\
    authoritativeFacts validateStacksAddress lib bufferCV settle sha256 postConditionToHex verifySignature
      publicKeyFromSignatureRsv reads request = Ok f /\
    mf_transaction (iw_manifest r) = af_transaction f /\ mf_requiredSender (iw_manifest r) = af_requiredSender f /\
    mf_network (iw_manifest r) = af_network f /\ mf_chainId (iw_manifest r) = af_chainId f /\
    iw_scope r = af_scope f /\
    derived validateStacksAddress reads request c /\ target_allowed c contract /\ sender_allowed lib c /\
    wallet_call c contract f.
Proof.
  intros H%intents_reachable_ok Hid. destruct (inv_rows _ (so_store _ H) id r Hid) as [_ (reads & f & Hs & Hf & Hm & Hsc)].
  pose proof Hf as Hx. apply facts_inv in Hx as (c & contract & Hd & Ht & Hse & Hc & _).
  exists reads, f, c, contract. cbv zeta. split_and!; try done; by rewrite Hm.
Qed.

(** C15. The store keeps what was sealed.  Between any two states of the process, stops included:
    an intent stays, with the same binding, a transaction ID once reported, and a state reached
    along the protocol; observations are only added.  In every state one intent at most is active
    in a scope, and no two intents name the same transaction. *)
Theorem intents_are_kept y y' :
  intents_reachable y -> rtc intent_step y y' ->
  (forall id r, intents (sy_db y) !! id = Some r -> exists r', intents (sy_db y') !! id = Some r' /\
     binding_of r' = binding_of r /\ (forall t, iw_txid r = Some t -> iw_txid r' = Some t) /\ moves r r') /\
  (exists l, observations (sy_db y') = observations (sy_db y) ++ l) /\
  (forall id r id' s action scope, intents (sy_db y') !! id = Some r -> intents (sy_db y') !! id' = Some s ->
     active_in action scope r = true -> active_in action scope s = true -> id' = id) /\
  (forall id r id' s t, intents (sy_db y') !! id = Some r -> intents (sy_db y') !! id' = Some s ->
     iw_txid r = Some t -> iw_txid s = Some t -> id' = id).
Proof.
  intros H%intents_reachable_ok Hs. destruct (steps_ok _ _ H Hs) as [H' [Hr _ _ (l & Hl & _) _]].
  pose proof (inv_valid _ (so_store _ H')) as Hv. split_and!.
  - intros id r Hid. destruct (Hr id r Hid) as (r' & Hr' & Hm). exists r'.
    destruct (moves_keep _ _ Hm) as (Hb & Ht & _). by split_and!.
  - by exists l.
  - intros id r id' s action scope Hid Hid' Ha Hb. by destruct (active_unique _ _ _ _ _ _ _ Hv Hid Hid' Ha Hb).
  - intros id r id' s t Hid Hid' Ht Ht'. destruct (decide (id' = id)) as [|Hn]; [done|].
    rewrite valid_intents_spec in Hv. destruct (Hv id r Hid) as [_ Hd]. specialize (Hd id' s Hid').
    unfold rows_disjoint, has_txid in Hd. rewrite Ht, Ht', bool_decide_eq_true_2 in Hd by done.
    rewrite andb_false_r in Hd. by discriminate Hd.
Qed.

End Correct.
