(* ===== verification/IntentScenario.v ===== *)
(** * Wallet intents on a concrete chain

    A manager admin withdraws earned fees with the browser wallet: the intent is prepared,
    submitted, seen pending and executed, and refreshed to its end.  The theorems about wallet
    transactions and intents are applied to this run. *)

From S2P Require Import Prelude Text CanonicalJson ChainAnchor Clarity Principals OperationPlan NakamotoBlock RewardReads SweepPlan LiveReader Recipe Receipt Cadence WalletRequest WalletVerify SignerGrant WalletFacts WalletFactsCorrect IntentStore IntentStoreCorrect IntentRegistry IntentService IntentSystem IntentLogic IntentSteps IntentMethods IntentCorrect.

Open Scope string_scope.
Open Scope list_scope.
Open Scope Z_scope.

Module IntentScenario.

(** ** The libraries *)

Definition hex_text (s : string) : string := String.concat "" (map Concrete.hex_byte (text_bytes s)).

Definition cvToHex (v : ClarityValue) : string :=
  match v with
  | CUInt n => "01" ++ Concrete.hex_byte n
  | CPrincipalStandard p | CPrincipalContract p => "05" ++ hex_text p
  | _ => "09"
  end%string.

Definition clarity : ClarityLibrary :=
  {| cl_cvToHex := cvToHex; cl_uintCV := fun n => Some (CUInt n);
     cl_principalCV := fun p => Some (CPrincipalStandard p) |}.

Definition conditionHex (p : PostCondition) : string := ("0001" ++ Concrete.hex_byte (pc_willSendEq p))%string.

Definition sender : string := "SPW".
Definition manager : string := "SPM.manager".
Definition request : WalletRequest := rq_withdraw_fees sender "70" sender.

(** The bytes the wallet signed: exactly the request. *)
Definition signed : SignedWalletTransaction :=
  {| sg_serialized := "ab12"; sg_originVerifies := true; sg_txid := Concrete.checksum [5];
     sg_transactionVersion := 0; sg_chainId := 1; sg_standardAuth := true; sg_anchorModeAny := true;
     sg_postConditionMode := Deny; sg_postConditions := ["000146"]; sg_hashMode := P2PKH; sg_signer := "aa";
     sg_payload := contract_call_payload "SPM" "manager" "withdraw-fees" [CUInt 70; CPrincipalStandard sender] |}.

#[local] Instance library : IntentLibrary :=
  {| isUuid := fun s => (String.length s =? 36)%nat;
     validateStacksAddress := fun s => String.eqb s "SPW" || String.eqb s "SPM";
     lib := clarity; bufferCV := fun l => CBuffer (String.concat "" (map Concrete.hex_byte l));
     settle := ConcreteReads.settle; sha256 := Concrete.checksum; postConditionToHex := conditionHex;
     verifySignature := fun _ _ _ => true; publicKeyFromSignatureRsv := fun _ _ => None;
     deserializeTransaction := fun hex => if String.eqb hex "ab12" then Some signed else None;
     addressFromVersionHash := fun _ _ => sender; readTransaction := fun _ => None;
     randomUUID := fun n => ("0f0e0d0c-0b0a-4908-8706-0504030201" ++ Concrete.hex_byte (Z.of_nat n))%string;
     messageOf := fun _ => "unavailable"; receiptReason := fun _ => "not read" |}.

(** ** The chain *)

Definition anchor : Anchor.ChainAnchor :=
  {| Anchor.stacksBlockHeight := 500; Anchor.indexBlockHash := "0x" ++ Concrete.checksum [1];
     Anchor.burnBlockHeight := 2060; Anchor.rewardCycle := 20; Anchor.rewardCycleLength := 100;
     Anchor.prepareCycleLength := 10; Anchor.cyclePosition := 60; Anchor.phase := Anchor.phase_reward;
     Anchor.checkpoint := Anchor.second_half |}.

Definition snapshot : OperatorSnapshot :=
  {| os_chainAnchor := anchor; os_network := wn_mainnet; os_checks := [("node-network", "pass")];
     os_nodeNetworkId := 1; os_pox5ContractId := Some "SPM.pox-5"; os_sbtcTokenContract := Some "SPM.sbtc-token";
     os_pox5SourceSha256 := None; os_firstRewardCycleId := Some 10; os_compatibilityMatched := true;
     os_profileId := None; os_profileRevision := None; os_managerPrincipal := manager; os_attachAllowed := true;
     os_capabilities := [("withdraw-fees", true)]; os_sourceTier := "reference-built-in"; os_sourceSha256 := None;
     os_sourceProfileId := None; os_registration := None |}.

(** The manager earned fees of 100, and the sender is its admin. *)
Definition node : WalletNode :=
  {| nd_callReadOnly := fun _ function _ _ _ =>
       if String.eqb function "is-admin" then Ok CBoolTrue
       else if String.eqb function "get-earned-fees" then Ok (CUInt 100) else Err OtherError;
     nd_getMapEntry := fun _ _ _ _ => Err OtherError;
     nd_getDataVar := fun _ _ _ => Err OtherError |}.

Definition reads : FactsReads :=
  let state := {| rt_managerPrincipal := manager; rt_grant := None |} in
  {| fr_network := wn_mainnet; fr_expectedNetworkId := None; fr_state := Some state; fr_latestState := Some state;
     fr_snapshot := Ok snapshot; fr_claimEvidence := None; fr_authority := Ok None; fr_canRepair := Ok false;
     fr_node := node |}.

Definition txid : string := "0x" ++ Concrete.checksum [5].

Definition indexed : IndexedTransaction :=
  {| it_transaction := {| ot_txid := txid; ot_transactionHex := "ab12"; ot_nonce := 3; ot_feeUstx := 300 |};
     it_indexBlockHash := "0x" ++ Concrete.checksum [8]; it_blockHeight := Some 501; it_isCanonical := true;
     it_resultRepr := "(ok true)" |}.

Definition answer (q : Question) : Answer q :=
  match q with
  | ask_facts _ => reads
  | ask_clients _ => Ok {| cv_network := wn_mainnet; cv_expectedNetworkId := None; cv_nodeNetworkId := Some 1;
                           cv_reader := true; cv_job := Err "none" |}
  | ask_indexed _ => Some (lr_observed 200 indexed)
  | ask_receipt _ => ConcreteReceipt.reads ConcreteReceipt.silent
  | ask_pending _ => Some lr_not_found
  | ask_compute_height _ _ _ => None
  | ask_manager _ _ => Ok {| mv_tier := "reference-built-in"; mv_provenance := "built-in" |}
  | ask_turn => tt
  | ask_join _ => Err (threw "joined")
  end.

#[local] Instance world : IntentWorld := fun q a => a = answer q.

(** ** A run *)

(** The next segment of a waiting call; a join is not answered here. *)
Definition resume (m : Task) : option Task :=
  match m with
  | Ask q k =>
      match q return (Answer q -> Task) -> option Task with
      | ask_join _ => fun _ => None
      | q => fun k => Some (k (answer q))
      end k
  | _ => None
  end.

(** The first waiting call answered until it replies. *)
Fixpoint drive (fuel : nat) (y : System) : System :=
  match fuel, sy_tasks y with
  | S fuel, m :: rest =>
      match resume m with
      | Some m' => drive fuel (after_segment m' rest y)
      | None => y
      end
  | _, _ => y
  end.

Definition perform (c : Call) (y : System) : System := drive 40 (after_segment (method c) (sy_tasks y) y).

Definition id0 : string := "0f0e0d0c-0b0a-4908-8706-050403020100".

Definition prepared : System := Eval vm_compute in perform (call_prepare request 1000) initial_system.
Definition submitted : System := Eval vm_compute in perform (call_submit id0 txid 2000) prepared.
Definition done_ : System := Eval vm_compute in perform (call_refresh id0 3000) submitted.

Lemma prepared_run : perform (call_prepare request 1000) initial_system = prepared.
Proof. vm_compute. reflexivity. Qed.
Lemma submitted_run : perform (call_submit id0 txid 2000) prepared = submitted.
Proof. vm_compute. reflexivity. Qed.
Lemma done_run : perform (call_refresh id0 3000) submitted = done_.
Proof. vm_compute. reflexivity. Qed.

Lemma resume_steps y m m' rest :
  sy_tasks y = m :: rest -> resume m = Some m' -> intent_step y (after_segment m' rest y).
Proof.
  intros Ht Hr. destruct m as [r|X op k|X f k|q k]; try done.
  destruct q as [r|id|t|t|t|c s t|c t| |ticket]; try (injection Hr as <-); [..|done];
    by eapply (step_answer y [] rest _ k).
Qed.

Lemma drive_steps n y : rtc intent_step y (drive n y).
Proof.
  revert y. induction n as [|n IH]; intros y; cbn [drive]; [reflexivity|].
  destruct (sy_tasks y) as [|m rest] eqn:Ht; [reflexivity|].
  destruct (resume m) as [m'|] eqn:Hm; [|reflexivity]. eapply rtc_l; [by eapply resume_steps|apply IH].
Qed.

Lemma perform_steps c y : rtc intent_step y (perform c y).
Proof. eapply rtc_l; [apply (step_call y c)|apply drive_steps]. Qed.

Lemma prepared_intent_reachable : intents_reachable prepared.
Proof. unfold intents_reachable. rewrite <- prepared_run. apply perform_steps. Qed.

Lemma done_later : rtc intent_step prepared done_.
Proof.
  transitivity submitted.
  - rewrite <- submitted_run. apply perform_steps.
  - rewrite <- done_run. apply perform_steps.
Qed.

Lemma done_reachable : intents_reachable done_.
Proof. unfold intents_reachable. transitivity prepared; [exact prepared_intent_reachable|exact done_later]. Qed.

(** What the run comes to, evaluated. *)
Definition row_in (y : System) (p : IntentRow -> bool) : bool :=
  match intents (sy_db y) !! id0 with Some r => p r | None => false end.

Lemma row_in_true y p : row_in y p = true -> exists r, intents (sy_db y) !! id0 = Some r /\ p r = true.
Proof. unfold row_in. destruct (intents (sy_db y) !! id0) as [r|]; [|done]. intros H. by exists r. Qed.

Lemma prepared_row : row_in prepared (fun r => bool_decide (iw_state r = it_prepared) &&
  bool_decide (iw_txid r = None) && bool_decide (mf_request (iw_manifest r) = request)) = true.
Proof. vm_compute. reflexivity. Qed.

Lemma done_row : row_in done_ (fun r => bool_decide (iw_state r = it_complete) &&
  bool_decide (iw_txid r = Some txid)) = true.
Proof. vm_compute. reflexivity. Qed.

Lemma recorded_outcomes_are_shown_witness : exists r,
  intents (sy_db done_) !! id0 = Some r /\ iw_state r = it_complete /\ completion_shown (iw_manifest r) txid.
Proof.
  destruct (row_in_true _ _ done_row) as (r & Hr & Hp). apply andb_true_iff in Hp as [Hs Ht].
  apply bool_decide_eq_true in Hs, Ht. exists r. split; [exact Hr|]. split; [exact Hs|].
  destruct (recorded_outcomes_are_shown done_ done_reachable) as (H & _ & _). specialize (H id0 r Hr).
  rewrite Hs, Ht in H. destruct H as (t & Hx & H). injection Hx as <-. exact H.
Defined.

Lemma sealed_intents_are_wallet_calls_witness : exists r c contract f,
  intents (sy_db prepared) !! id0 = Some r /\ wallet_call c contract f /\
  mf_transaction (iw_manifest r) = af_transaction f.
Proof.
  destruct (row_in_true _ _ prepared_row) as (r & Hr & _).
  destruct (sealed_intents_are_wallet_calls prepared id0 r prepared_intent_reachable Hr)
    as (x & f & c & contract & _ & _ & Ht & _ & _ & _ & _ & _ & _ & _ & Hc).
  exists r, c, contract, f. split; [exact Hr|]. split; [exact Hc | exact Ht].
Defined.

Lemma intents_are_kept_witness : exists r r',
  intents (sy_db prepared) !! id0 = Some r /\ iw_state r = it_prepared /\
  intents (sy_db done_) !! id0 = Some r' /\ iw_state r' = it_complete /\ binding_of r' = binding_of r.
Proof.
  destruct (row_in_true _ _ prepared_row) as (r & Hr & Hp). destruct (row_in_true _ _ done_row) as (s & Hs & Hd).
  destruct (intents_are_kept prepared done_ prepared_intent_reachable done_later) as (H & _).
  destruct (H id0 r Hr) as (r' & Hr' & Hb & _). assert (r' = s) as -> by congruence.
  apply andb_true_iff in Hp as [Hp _], Hd as [Hd _]. apply andb_true_iff in Hp as [Hp _].
  apply bool_decide_eq_true in Hp, Hd.
  exists r, s. split; [exact Hr|]. split; [exact Hp|]. split; [exact Hs|]. split; [exact Hd | exact Hb].
Defined.

(** ** The facts and the verification *)

#[local] Abbreviation facts := (authoritativeFacts validateStacksAddress lib bufferCV settle sha256
  postConditionToHex verifySignature publicKeyFromSignatureRsv).

Lemma facts_exist : is_ok (facts reads request) = true.
Proof. vm_compute. reflexivity. Qed.

Lemma wallet_call_is_the_request_witness : exists f c contract,
  facts reads request = Ok f /\ target_allowed c contract /\ wallet_call c contract f.
Proof.
  pose proof facts_exist as H. destruct (facts reads request) as [f|] eqn:Hf; [|discriminate H].
  destruct (wallet_call_is_the_request _ _ _ _ _ _ _ _ _ _ _ Hf) as (c & contract & _ & Ht & _ & Hc).
  exists f, c, contract. split; [reflexivity|]. split; [exact Ht | exact Hc].
Defined.

Lemma wallet_call_moves_only_witness : exists f c token l,
  facts reads request = Ok f /\ sbtc_movement clarity c token request l.
Proof.
  pose proof facts_exist as H. destruct (facts reads request) as [f|] eqn:Hf; [|discriminate H].
  destruct (wallet_call_moves_only _ _ _ _ _ _ _ _ _ _ _ Hf) as (c & token & l & _ & Hm & _).
  exists f, c, token, l. split; [reflexivity | exact Hm].
Defined.

Lemma checksum_hash64 l : hash64 (Concrete.checksum l) = true.
Proof.
  unfold Concrete.checksum. generalize (fold_left (fun h b => (h * 257 + b) mod 2 ^ 61) l 7). intros n.
  assert (Hd : forall k, is_lower_hex (hex_digit k) = true) by (intros k; do 15 (destruct k as [|k]; [done|]); done).
  unfold hash64. apply andb_true_iff. split; [by apply bool_decide_eq_true|].
  cbn -[hex_digit is_lower_hex Z.div Z.modulo Z.to_nat Z.pow]. rewrite !Hd. done.
Qed.

Definition sealed : WalletTransaction :=
  {| wt_contract := manager; wt_functionName := "withdraw-fees";
     wt_functionArgs := cvToHex <$> [CUInt 70; CPrincipalStandard sender]; wt_network := wn_mainnet;
     wt_address := sender; wt_postConditions := ["000146"] |}.

Definition mainnet_binding : WalletBindingNetwork :=
  {| wb_network := wn_mainnet; wb_chainId := 1; wb_transactionVersion := 0 |}.

Lemma verified_bytes_ok : is_ok (verifyWalletTransactionHex deserializeTransaction addressFromVersionHash cvToHex
  Concrete.checksum txid sender sealed "ab12" mainnet_binding) = true.
Proof. vm_compute. reflexivity. Qed.

Lemma persisted_verification_roundtrip_witness : exists v,
  readPersistedWalletVerification Concrete.checksum (verified_json v) txid sender sealed mainnet_binding = Some v.
Proof.
  pose proof verified_bytes_ok as H. destruct (verifyWalletTransactionHex _ _ _ _ _ _ _ _ _) as [v|] eqn:Hv; [|discriminate H].
  exists v. refine (persisted_verification_roundtrip _ _ _ _ checksum_hash64 txid sender sealed "ab12" mainnet_binding 1 v
    _ _ _ Hv); vm_compute; reflexivity.
Defined.

(** ** The store *)

Definition readableb (id : string) (r : IntentRow) : bool :=
  intentRowSchema isUuid validateStacksAddress id r &&
  bool_decide (is_Some (canonicalDocument (manifest_json (iw_manifest r)) maximumManifestBytes)) &&
  String.eqb (manifestSha256 sha256 (iw_manifest r)) (iw_manifestSha256 r).

Definition in_orderb (d : IntentDb) : bool :=
  bool_decide (valid_intents (intents d)) && forallb (fun '(id, r) => readableb id r) (map_to_list (intents d)).

Lemma in_orderb_true d : in_orderb d = true -> in_order isUuid validateStacksAddress sha256 d.
Proof.
  unfold in_orderb. intros [Hv Hr]%andb_true_iff. apply bool_decide_eq_true in Hv. split; [done|].
  intros id r Hid%elem_of_map_to_list. rewrite forallb_forall in Hr.
  specialize (Hr (id, r)). cbn in Hr. rewrite <- list_elem_of_In in Hr. specialize (Hr Hid).
  unfold readableb in Hr. breflect. by split.
Qed.

Definition fresh_txid (d : IntentDb) : bool :=
  forallb (fun '(_, s) => negb (bool_decide (iw_txid s = Some txid))) (map_to_list (intents d)).

Lemma fresh_txid_true d : fresh_txid d = true ->
  forall id s, intents d !! id = Some s -> iw_txid s <> Some txid.
Proof.
  unfold fresh_txid. rewrite forallb_forall. intros Hf id s Hid%elem_of_map_to_list He.
  specialize (Hf (id, s)). rewrite <- list_elem_of_In in Hf. specialize (Hf Hid). cbn in Hf.
  by rewrite bool_decide_eq_true_2 in Hf.
Qed.

(** The prepared intent, once its lifetime is over. *)
Definition lapsed_ : System := Eval vm_compute in perform (call_refresh id0 (1000 + intentLifetimeMs)) prepared.

Lemma lapsed_row : row_in lapsed_ (fun r => bool_decide (iw_state r = it_expired) &&
  bool_decide (iw_txid r = None)) && in_orderb (sy_db lapsed_) && fresh_txid (sy_db lapsed_) = true.
Proof. vm_compute. reflexivity. Qed.

Lemma submission_is_recorded_witness : exists r state d',
  intents (sy_db lapsed_) !! id0 = Some r /\ iw_state r = it_expired /\
  submit_intent isUuid validateStacksAddress sha256 id0 txid 9 (sy_db lapsed_) =
    (Ok (id0, with_submission state txid 9 r), d').
Proof.
  pose proof lapsed_row as H. apply andb_true_iff in H as [H Hfresh]. apply andb_true_iff in H as [H Ho].
  destruct (row_in_true _ _ H) as (r & Hr & Hp). apply andb_true_iff in Hp as [Hs Ht].
  apply bool_decide_eq_true in Hs, Ht.
  destruct (submission_is_recorded isUuid validateStacksAddress sha256 (sy_db lapsed_) id0 r txid 9)
    as (state & d' & Hsub & _).
  - exact (in_orderb_true _ Ho).
  - exact Hr.
  - rewrite Hs. reflexivity.
  - exact Ht.
  - reflexivity.
  - exact (fresh_txid_true _ Hfresh).
  - exists r, state, d'. split; [exact Hr|]. split; [exact Hs | exact Hsub].
Defined.

(** Another withdrawal for the same manager. *)
Definition second : facts_result CreateInput :=
  let request := rq_withdraw_fees sender "60" sender in
  f ← facts reads request;
  Ok (createInputOf (manifestOf (randomUUID 7) request f 5000) f).

Definition second_fits (i : CreateInput) : bool :=
  createInputSchema isUuid validateStacksAddress i &&
  bool_decide (is_Some (canonicalDocument (manifest_json (ci_manifest i)) maximumManifestBytes)) &&
  String.eqb (manifestSha256 sha256 (ci_manifest i)) (ci_manifestSha256 i) &&
  bool_decide (intents (sy_db prepared) !! ci_id i = None) && in_orderb (sy_db prepared) &&
  row_in prepared (fun r => active_in (ci_action i) (ci_scope i) r && negb (lapsed i r) &&
    negb (intentMatchesCreate r i) && bool_decide (iw_state r = it_prepared)).

Lemma second_exists : match second with Ok i => second_fits i | Err _ => false end = true.
Proof. vm_compute. reflexivity. Qed.

Lemma create_decides_witness : exists i r,
  second = Ok i /\ live (sy_db prepared) i id0 r /\
  create_intent isUuid validateStacksAddress sha256 i (sy_db prepared) =
    (Ok (ci_id i, new_intent i, true),
     registered i (displaced i id0 r (expired i (sy_db prepared)))).
Proof.
  pose proof second_exists as H. destruct second as [i|]; [|discriminate H].
  unfold second_fits in H. apply andb_true_iff in H as [H Hrow]. apply andb_true_iff in H as [H Ho].
  apply andb_true_iff in H as [H Hnew]. apply andb_true_iff in H as [H Hseal].
  apply andb_true_iff in H as [Hschema Hsize]. destruct (row_in_true _ _ Hrow) as (r & Hr & Hp).
  apply andb_true_iff in Hp as [Hp Hprep]. apply andb_true_iff in Hp as [Hp Hdiff].
  apply andb_true_iff in Hp as [Hact Hlapsed]. apply negb_true_iff in Hdiff, Hlapsed.
  apply bool_decide_eq_true in Hsize, Hnew, Hprep. apply String.eqb_eq in Hseal.
  assert (Hl : live (sy_db prepared) i id0 r) by (split; [exact Hr | split; [exact Hact | exact Hlapsed]]).
  destruct (create_decides isUuid validateStacksAddress sha256 (sy_db prepared) i) as (Hc & _ & _).
  - exact (in_orderb_true _ Ho).
  - split; [exact Hschema | exact Hsize | exact Hseal].
  - exact Hnew.
  - exists i, r. split; [reflexivity|]. split; [exact Hl|]. rewrite (Hc id0 r Hl), Hdiff.
    rewrite bool_decide_eq_true_2 by exact Hprep. reflexivity.
Defined.

End IntentScenario.
