(* ===== verification/ObserverInbox.v ===== *)
(** * The inbox of node callbacks

    apps/sidekick/src/storage/observer-inbox-repository.ts over the table of migrations 23, 24 and
    41 of apps/sidekick/src/storage/migrations.ts.  The table is a finite map of the deliveries by
    id; what the repository keeps in memory (its revision, the running totals and the last status)
    is a record beside it, with SQLite's [data_version], which a commit of another connection
    changes.  An operation returns or throws and lists the states it committed, the newest first.
    Times are milliseconds; the stored ISO texts all come from [toISOString] and order the same
    way.  Delivery IDs are those [randomUUID] gave, so that their format checks pass. *)

From S2P Require Import Prelude Text CanonicalJson OperationPlan SweepPlan Recipe LiveReader.

Open Scope string_scope.
Open Scope list_scope.
Open Scope Z_scope.

(** ** Data *)

Inductive EndpointKind := ep_new_block | ep_new_burn_block | ep_attachments.

Inductive DeliveryState := ds_claimed | ds_processing | ds_verified | ds_quarantined | ds_expired.

#[global] Instance EndpointKind_eq_dec : EqDecision EndpointKind.
Proof. solve_decision. Defined.
#[global] Instance DeliveryState_eq_dec : EqDecision DeliveryState.
Proof. solve_decision. Defined.

(** What a callback claims about the chain. *)
Record ChainClaim := {
  cc_blockHeight : option Z;
  cc_blockHash : option string;
  cc_indexBlockHash : option string;
  cc_burnBlockHeight : option Z;
  cc_burnBlockHash : option string;
}.

#[global] Instance ChainClaim_eq_dec : EqDecision ChainClaim.
Proof. solve_decision. Defined.

(** [ObserverDeliveryInput] *)
Record DeliveryInput := {
  di_endpointKind : EndpointKind;
  di_contentSha256 : string;
  di_rawPayloadJson : string;
  di_payloadBytes : Z;
  di_state : DeliveryState;
  di_stateReason : option string;
  di_claim : ChainClaim;
  di_receivedAt : Z;
}.

(** A row of [observer_deliveries]. *)
Record Delivery := {
  dl_endpointKind : EndpointKind;
  dl_contentSha256 : string;
  dl_rawPayloadJson : string;
  dl_payloadBytes : Z;
  dl_state : DeliveryState;
  dl_stateReason : option string;
  dl_claim : ChainClaim;
  dl_deliveryAttempts : Z;
  dl_processingAttempts : Z;
  dl_firstReceivedAt : Z;
  dl_lastReceivedAt : Z;
  dl_lastProcessingAt : option Z;
  dl_nextAttemptAt : Z;
  dl_completedAt : option Z;
  dl_updatedAt : Z;
  dl_payloadPruned : bool;
}.

#[global] Instance Delivery_eq_dec : EqDecision Delivery.
Proof. solve_decision. Defined.

Abbreviation Table := (gmap string Delivery).

Record AcceptedDelivery := {
  ad_deliveryId : string;
  ad_duplicate : bool;
  ad_state : DeliveryState;
  ad_deliveryAttempts : Z;
}.

Record InboxLimits := { il_maximumPendingDeliveries : Z; il_maximumPendingPayloadBytes : Z }.

Definition OBSERVER_RAW_PAYLOAD_RETENTION_MS : Z := 24 * 60 * 60 * 1000.
Definition MAX_RETAINED_OBSERVER_RAW_PAYLOADS : Z := 25000.
Definition MAX_RETAINED_OBSERVER_RAW_PAYLOAD_BYTES : Z := 64 * 1024 * 1024.
Definition MAX_PENDING_OBSERVER_DELIVERIES : Z := 2000.
Definition MAX_PENDING_OBSERVER_PAYLOAD_BYTES : Z := 64 * 1024 * 1024.

Definition defaultInboxLimits : InboxLimits :=
  {| il_maximumPendingDeliveries := MAX_PENDING_OBSERVER_DELIVERIES;
     il_maximumPendingPayloadBytes := MAX_PENDING_OBSERVER_PAYLOAD_BYTES |}.

(** ** Totals

    [counterNames], and the two latest instants.  [affected] of the source returns a part of
    them. *)

Inductive Counter :=
  | unique_deliveries | delivery_attempts | processing_attempts | duplicates | node_verified
  | quarantined | expired | retained_payload_bytes | pruned_payloads.

#[global] Instance Counter_eq_dec : EqDecision Counter.
Proof. solve_decision. Defined.

Record InboxTotals := {
  tt_count : Counter -> Z;
  tt_last_received_at : option Z;
  tt_last_processed_at : option Z;
}.

Record PartialTotals := {
  pt_count : Counter -> option Z;
  pt_last_received_at : option (option Z);
  pt_last_processed_at : option (option Z);
}.

Definition all_of (t : InboxTotals) : PartialTotals :=
  {| pt_count := fun c => Some (tt_count t c); pt_last_received_at := Some (tt_last_received_at t);
     pt_last_processed_at := Some (tt_last_processed_at t) |}.

Definition no_totals : PartialTotals :=
  {| pt_count := fun _ => None; pt_last_received_at := None; pt_last_processed_at := None |}.

(** What a row counts for. *)
Definition weight (c : Counter) (d : Delivery) : Z :=
  match c with
  | unique_deliveries => 1
  | delivery_attempts => dl_deliveryAttempts d
  | processing_attempts => dl_processingAttempts d
  | duplicates => dl_deliveryAttempts d - 1
  | node_verified => if bool_decide (dl_state d = ds_verified) then 1 else 0
  | quarantined => if bool_decide (dl_state d = ds_quarantined) then 1 else 0
  | expired => if bool_decide (dl_state d = ds_expired) then 1 else 0
  | retained_payload_bytes => if dl_payloadPruned d then 0 else dl_payloadBytes d
  | pruned_payloads => if dl_payloadPruned d then 1 else 0
  end.

(** The order of the texts with [?? ""]. *)
Definition stamp_ltb (a b : option Z) : bool :=
  match a, b with
  | None, Some _ => true
  | Some a, Some b => a <? b
  | _, None => false
  end.

Definition stamp_max (a b : option Z) : option Z := if stamp_ltb a b then b else a.

Definition sum_rows (w : Delivery -> Z) (t : Table) : Z := map_fold (fun _ d n => w d + n) 0 t.
Definition last_of (f : Delivery -> option Z) (t : Table) : option Z :=
  map_fold (fun _ d m => stamp_max (f d) m) None t.

Abbreviation where_rows P t := (filter (fun p => P p.1 p.2 = true) t).

(** [readTotals]: [P] is the WHERE clause. *)
Definition readTotals (P : string -> Delivery -> bool) (t : Table) : InboxTotals :=
  {| tt_count := fun c => sum_rows (weight c) (where_rows P t);
     tt_last_received_at := last_of (fun d => Some (dl_lastReceivedAt d)) (where_rows P t);
     tt_last_processed_at := last_of dl_lastProcessingAt (where_rows P t) |}.

Definition every_row (id : string) (d : Delivery) : bool := true.

(** One instant of [mutate]; [None] makes the totals be rebuilt. *)
Definition advance_stamp (value : option Z) (before after : option (option Z)) : option (option Z) :=
  match before, after with
  | Some before, Some after =>
      if bool_decide (before = value) && stamp_ltb after before then None
      else Some (if stamp_ltb value after then after else value)
  | _, _ => Some value
  end.

(** The totals after a write, from the affected part before and after it. *)
Definition advance_totals (value : InboxTotals) (before after : PartialTotals) : option InboxTotals :=
  received ← advance_stamp (tt_last_received_at value) (pt_last_received_at before) (pt_last_received_at after);
  processed ← advance_stamp (tt_last_processed_at value) (pt_last_processed_at before) (pt_last_processed_at after);
  Some {| tt_count := fun c => match pt_count before c, pt_count after c with
                               | Some b, Some a => tt_count value c + (a - b)
                               | _, _ => tt_count value c
                               end;
          tt_last_received_at := received; tt_last_processed_at := processed |}.

(** ** Status *)

Record OperationalStatus := {
  op_queueDepth : Z;
  op_processing : Z;
  op_oldestPendingAt : option Z;
  op_lastVerifiedStacksBlock : option (Z * string * Z * Z);
}.

Record InboxStatus := {
  st_totals : InboxTotals;
  st_operational : OperationalStatus;
  st_lastClaimedStacksBlock : option (Z * string * string);
  st_lastClaimedBurnBlock : option (Z * string);
  st_lastQuarantine : option (EndpointKind * string * Z);
}.

(** ** The store *)

Record Inbox := {
  ib_table : Table;
  ib_dataVersion : Z;
  ib_revision : Z;
  ib_totals : option (Z * InboxTotals);
  ib_status : option (Z * Z * InboxStatus);
}.

(** A process that opens the table. *)
Definition opened (t : Table) (dataVersion : Z) : Inbox :=
  {| ib_table := t; ib_dataVersion := dataVersion; ib_revision := 0; ib_totals := None; ib_status := None |}.

Inductive InboxError :=
  | invalid_input | sql_constraint | inbox_capacity | not_being_processed | next_attempt_not_later.

Definition store (A : Type) : Type := Inbox -> result InboxError A * list Inbox.

(** The state after the commits [l]. *)
Definition after (s : Inbox) (l : list Inbox) : Inbox := List.hd s l.

#[global] Instance store_ret : MRet store := fun A a s => (Ok a, []).
#[global] Instance store_bind : MBind store := fun A B k m s =>
  match m s with
  | (Ok a, l) => let '(r, l') := k a (after s l) in (r, l' ++ l)
  | (Err e, l) => (Err e, l)
  end.

Definition raise_inbox {A} (e : InboxError) : store A := fun s => (Err e, []).
Definition demand_inbox (b : bool) (e : InboxError) : store unit := if b then mret tt else raise_inbox e.

(** [mutate]: one transaction, whose throw rolls back; the totals follow the measured rows. *)
Definition mutate {T} (affected : Table -> PartialTotals) (write : Table -> result InboxError (T * Table))
    (changed : T -> bool) : store T := fun s =>
  let kept := match ib_totals s with
              | Some (version, value) =>
                  if version =? ib_dataVersion s then Some (version, value) else None
              | None => None
              end in
  match write (ib_table s) with
  | Err e => (Err e, [])
  | Ok (r, t) =>
      let next := match kept with
                  | Some (version, value) =>
                      if changed r
                      then (version,.) <$> advance_totals value (affected (ib_table s)) (affected t)
                      else Some (version, value)
                  | None => None
                  end in
      (Ok r, [{| ib_table := t; ib_dataVersion := ib_dataVersion s;
                 ib_revision := if changed r then ib_revision s + 1 else ib_revision s;
                 ib_totals := next; ib_status := ib_status s |}])
  end.

(** ** SQL on the table *)

(** [UPDATE ... WHERE P], and how many rows it changes. *)
Definition update_rows (P : string -> Delivery -> bool) (f : Delivery -> Delivery) (t : Table) : Table :=
  map_imap (fun id d => Some (if P id d then f d else d)) t.
Definition count_rows (P : string -> Delivery -> bool) (t : Table) : Z := Z.of_nat (size (where_rows P t)).

(** [SELECT ... WHERE P ORDER BY]; rows the order leaves equal keep the order of the table. *)
Definition select_rows (order : string * Delivery -> string * Delivery -> Z)
    (P : string -> Delivery -> bool) (t : Table) : list (string * Delivery) :=
  js_sort order (map_to_list (where_rows P t)).

(** [=] of two columns, which [NULL] never satisfies. *)
Definition sql_eq {A} `{EqDecision A} (a b : option A) : bool :=
  match a, b with Some a, Some b => bool_decide (a = b) | _, _ => false end.

(** The comparisons of an ORDER BY, the first that decides. *)
Definition then_by (a b : Z) : Z := if a =? 0 then b else a.

Definition is_pending (d : Delivery) : bool := bool_decide (dl_state d ∈ [ds_claimed; ds_processing]).
Definition is_terminal (d : Delivery) : bool :=
  bool_decide (dl_state d ∈ [ds_verified; ds_quarantined; ds_expired]).
Definition is_retained (d : Delivery) : bool := is_terminal d && negb (dl_payloadPruned d).

(** [COALESCE(completed_at, updated_at)] *)
Definition terminal_at (d : Delivery) : Z := default (dl_updatedAt d) (dl_completedAt d).

(** ** Updates of a row *)

Definition with_state (st : DeliveryState) (reason : option string) (completedAt : option Z) (updatedAt : Z)
    (d : Delivery) : Delivery :=
  {| dl_endpointKind := dl_endpointKind d; dl_contentSha256 := dl_contentSha256 d;
     dl_rawPayloadJson := dl_rawPayloadJson d; dl_payloadBytes := dl_payloadBytes d; dl_state := st;
     dl_stateReason := reason; dl_claim := dl_claim d; dl_deliveryAttempts := dl_deliveryAttempts d;
     dl_processingAttempts := dl_processingAttempts d; dl_firstReceivedAt := dl_firstReceivedAt d;
     dl_lastReceivedAt := dl_lastReceivedAt d; dl_lastProcessingAt := dl_lastProcessingAt d;
     dl_nextAttemptAt := dl_nextAttemptAt d; dl_completedAt := completedAt; dl_updatedAt := updatedAt;
     dl_payloadPruned := dl_payloadPruned d |}.

(** Back to the queue. *)
Definition requeued (reason : string) (nextAttemptAt updatedAt : Z) (d : Delivery) : Delivery :=
  {| dl_endpointKind := dl_endpointKind d; dl_contentSha256 := dl_contentSha256 d;
     dl_rawPayloadJson := dl_rawPayloadJson d; dl_payloadBytes := dl_payloadBytes d; dl_state := ds_claimed;
     dl_stateReason := Some reason; dl_claim := dl_claim d; dl_deliveryAttempts := dl_deliveryAttempts d;
     dl_processingAttempts := dl_processingAttempts d; dl_firstReceivedAt := dl_firstReceivedAt d;
     dl_lastReceivedAt := dl_lastReceivedAt d; dl_lastProcessingAt := dl_lastProcessingAt d;
     dl_nextAttemptAt := nextAttemptAt; dl_completedAt := dl_completedAt d; dl_updatedAt := updatedAt;
     dl_payloadPruned := dl_payloadPruned d |}.

(** Taken from the queue. *)
Definition taken (claimedAt : Z) (d : Delivery) : Delivery :=
  {| dl_endpointKind := dl_endpointKind d; dl_contentSha256 := dl_contentSha256 d;
     dl_rawPayloadJson := dl_rawPayloadJson d; dl_payloadBytes := dl_payloadBytes d;
     dl_state := ds_processing; dl_stateReason := None; dl_claim := dl_claim d;
     dl_deliveryAttempts := dl_deliveryAttempts d; dl_processingAttempts := dl_processingAttempts d + 1;
     dl_firstReceivedAt := dl_firstReceivedAt d; dl_lastReceivedAt := dl_lastReceivedAt d;
     dl_lastProcessingAt := Some claimedAt; dl_nextAttemptAt := dl_nextAttemptAt d;
     dl_completedAt := dl_completedAt d; dl_updatedAt := claimedAt; dl_payloadPruned := dl_payloadPruned d |}.

Definition pruned (observedAt : Z) (d : Delivery) : Delivery :=
  {| dl_endpointKind := dl_endpointKind d; dl_contentSha256 := dl_contentSha256 d;
     dl_rawPayloadJson := "{}"; dl_payloadBytes := 0; dl_state := dl_state d;
     dl_stateReason := dl_stateReason d; dl_claim := dl_claim d;
     dl_deliveryAttempts := dl_deliveryAttempts d; dl_processingAttempts := dl_processingAttempts d;
     dl_firstReceivedAt := dl_firstReceivedAt d; dl_lastReceivedAt := dl_lastReceivedAt d;
     dl_lastProcessingAt := dl_lastProcessingAt d; dl_nextAttemptAt := dl_nextAttemptAt d;
     dl_completedAt := dl_completedAt d; dl_updatedAt := observedAt; dl_payloadPruned := true |}.

(** [DO UPDATE SET] of [acceptDelivery]: [excluded] is the row that was to be inserted. *)
Definition received_again (excluded d : Delivery) : Delivery :=
  let quarantine := bool_decide (dl_state excluded = ds_quarantined) in
  {| dl_endpointKind := dl_endpointKind d; dl_contentSha256 := dl_contentSha256 d;
     dl_rawPayloadJson := dl_rawPayloadJson d; dl_payloadBytes := dl_payloadBytes d;
     dl_state := if quarantine then ds_quarantined else dl_state d;
     dl_stateReason := if quarantine then dl_stateReason excluded else dl_stateReason d;
     dl_claim := dl_claim d; dl_deliveryAttempts := dl_deliveryAttempts d + 1;
     dl_processingAttempts := dl_processingAttempts d; dl_firstReceivedAt := dl_firstReceivedAt d;
     dl_lastReceivedAt := dl_lastReceivedAt excluded; dl_lastProcessingAt := dl_lastProcessingAt d;
     dl_nextAttemptAt := dl_nextAttemptAt d;
     dl_completedAt := if quarantine then from_option Some (dl_completedAt excluded) (dl_completedAt d)
                       else dl_completedAt d;
     dl_updatedAt := dl_updatedAt excluded; dl_payloadPruned := dl_payloadPruned d |}.

(** ** Accepting a callback *)

(** The row claims the given position of the chain. *)
Definition at_position (endpointKind : EndpointKind) (c : ChainClaim) (d : Delivery) : bool :=
  match endpointKind, dl_endpointKind d with
  | ep_new_block, ep_new_block =>
      sql_eq (cc_blockHeight (dl_claim d)) (cc_blockHeight c) &&
      sql_eq (cc_indexBlockHash (dl_claim d)) (cc_indexBlockHash c)
  | ep_new_burn_block, ep_new_burn_block =>
      sql_eq (cc_burnBlockHeight (dl_claim d)) (cc_burnBlockHeight c) &&
      sql_eq (cc_burnBlockHash (dl_claim d)) (cc_burnBlockHash c)
  | _, _ => false
  end.

Definition same_position (i : DeliveryInput) (d : Delivery) : bool :=
  at_position (di_endpointKind i) (di_claim i) d.

Definition same_content (i : DeliveryInput) (d : Delivery) : bool :=
  bool_decide (dl_endpointKind d = di_endpointKind i) && String.eqb (dl_contentSha256 d) (di_contentSha256 i).

(** [identity]: the rows a callback may touch. *)
Definition identity (i : DeliveryInput) (id : string) (d : Delivery) : bool :=
  same_content i d || same_position i d.

Definition conflicting (i : DeliveryInput) (id : string) (d : Delivery) : bool :=
  same_position i d && negb (String.eqb (dl_contentSha256 d) (di_contentSha256 i)).

Definition conflict_reason : string := "conflicting-callback-bodies-for-chain-position".

(** The unique indexes of the table: a row that keeps the new one out. *)
Definition excludes (proposedId : string) (i : DeliveryInput) (id : string) (d : Delivery) : bool :=
  String.eqb id proposedId || same_content i d ||
  same_position i d &&
    match di_endpointKind i with
    | ep_new_block => sql_eq (cc_blockHash (dl_claim d)) (cc_blockHash (di_claim i))
    | _ => true
    end.

Definition inserted (i : DeliveryInput) (st : DeliveryState) (reason : option string) : Delivery :=
  {| dl_endpointKind := di_endpointKind i; dl_contentSha256 := di_contentSha256 i;
     dl_rawPayloadJson := di_rawPayloadJson i; dl_payloadBytes := di_payloadBytes i; dl_state := st;
     dl_stateReason := reason; dl_claim := di_claim i; dl_deliveryAttempts := 1;
     dl_processingAttempts := 0; dl_firstReceivedAt := di_receivedAt i;
     dl_lastReceivedAt := di_receivedAt i; dl_lastProcessingAt := None;
     dl_nextAttemptAt := di_receivedAt i;
     dl_completedAt := if bool_decide (st = ds_claimed) then None else Some (di_receivedAt i);
     dl_updatedAt := di_receivedAt i; dl_payloadPruned := false |}.

(** The upsert.  When several rows keep the new one out, SQLite updates the first it meets; with
    claims read from the payload they are one row. *)
Definition upsert (proposedId : string) (i : DeliveryInput) (row : Delivery) (t : Table)
    : string * Delivery * Table :=
  match map_to_list (where_rows (excludes proposedId i) t) with
  | [] => (proposedId, row, <[proposedId := row]> t)
  | (id, d) :: _ => (id, received_again row d, <[id := received_again row d]> t)
  end.

Definition within_limits (limits : InboxLimits) (t : Table) : bool :=
  let pending := where_rows (fun _ => is_pending) t in
  (Z.of_nat (size pending) <=? il_maximumPendingDeliveries limits) &&
  (sum_rows dl_payloadBytes pending <=? il_maximumPendingPayloadBytes limits).

(** The write of [acceptDelivery]; [jsonValid] is SQLite's function in the column check. *)
Definition accept_write (jsonValid : string -> bool) (limits : InboxLimits) (proposedId : string)
    (i : DeliveryInput) (t : Table) : result InboxError ((string * DeliveryState * Z) * Table) :=
  let conflict := negb (bool_decide (where_rows (conflicting i) t = ∅)) in
  let st := if conflict then ds_quarantined else di_state i in
  let reason := if conflict then Some conflict_reason else di_stateReason i in
  let t := if conflict
           then update_rows (fun _ => same_position i)
                  (fun d => with_state ds_quarantined (Some conflict_reason)
                     (from_option Some (Some (di_receivedAt i)) (dl_completedAt d)) (di_receivedAt i) d) t
           else t in
  _ ← require (jsonValid (di_rawPayloadJson i)) sql_constraint;
  let '(id, row, t) := upsert proposedId i (inserted i st reason) t in
  _ ← require (negb (String.eqb id proposedId && bool_decide (dl_state row = ds_claimed)) ||
               within_limits limits t) inbox_capacity;
  Ok (id, dl_state row, dl_deliveryAttempts row, t).

(** ** Retention *)

Definition retention_order (a b : string * Delivery) : Z :=
  then_by (terminal_at b.2 - terminal_at a.2) (code_unit_compare b.1 a.1).

(** The rows of [retained] beyond the cutoff, the rank or the bytes; [rank] and [bytes] are those
    of the rows before. *)
Fixpoint beyond_retention (cutoff rank bytes : Z) (l : list (string * Delivery)) : list string :=
  match l with
  | [] => []
  | (id, d) :: rest =>
      let bytes := bytes + dl_payloadBytes d in
      (if (terminal_at d <? cutoff) || (MAX_RETAINED_OBSERVER_RAW_PAYLOADS <? rank + 1) ||
          (MAX_RETAINED_OBSERVER_RAW_PAYLOAD_BYTES <? bytes) then [id] else []) ++
      beyond_retention cutoff (rank + 1) bytes rest
  end.

Definition prunable (cutoff : Z) (t : Table) : list string :=
  beyond_retention cutoff 0 0 (select_rows retention_order (fun _ => is_retained) t).

(** The early return. *)
Definition within_retention (cutoff : Z) (t : Table) : bool :=
  let retained := where_rows (fun _ => is_retained) t in
  (Z.of_nat (size retained) <=? MAX_RETAINED_OBSERVER_RAW_PAYLOADS) &&
  (sum_rows dl_payloadBytes retained <=? MAX_RETAINED_OBSERVER_RAW_PAYLOAD_BYTES) &&
  forallb (fun '(_, d) => cutoff <=? terminal_at d) (map_to_list retained).

Definition retained_totals (t : Table) : PartialTotals :=
  let retained := where_rows (fun _ => is_retained) t in
  {| pt_count := fun c => match c with
                          | retained_payload_bytes => Some (sum_rows dl_payloadBytes retained)
                          | pruned_payloads => Some (- Z.of_nat (size retained))
                          | _ => None
                          end;
     pt_last_received_at := None; pt_last_processed_at := None |}.

Definition prunePayloads (observedAt : Z) : store Z := fun s =>
  let cutoff := observedAt - OBSERVER_RAW_PAYLOAD_RETENTION_MS in
  if within_retention cutoff (ib_table s) then (Ok 0, [])
  else mutate retained_totals
         (fun t =>
            let doomed id (_ : Delivery) := existsb (String.eqb id) (prunable cutoff t) in
            Ok (count_rows doomed t, update_rows doomed (pruned observedAt) t))
         (fun count => 0 <? count) s.

(** ** The operations *)

Section Inbox.

Context (parseJson : string -> option Wire) (jsonValid : string -> bool).

Definition lowerHash (s : string) : bool := prefixed_hex is_lower_hex 64 s.

Definition all_some {A} (P : A -> bool) (o : option A) : bool := match o with Some a => P a | None => true end.

Definition claimSchema (c : ChainClaim) : bool :=
  all_some safe_nonnegative (cc_blockHeight c) && all_some lowerHash (cc_blockHash c) &&
  all_some lowerHash (cc_indexBlockHash c) && all_some safe_nonnegative (cc_burnBlockHeight c) &&
  all_some lowerHash (cc_burnBlockHash c).

Definition reasonSchema (s : string) : bool := nonempty s && (String.length s <=? 500)%nat.

Definition observerDeliveryInputSchema (i : DeliveryInput) : bool :=
  hash64 (di_contentSha256 i) && nonempty (di_rawPayloadJson i) && safe_nonnegative (di_payloadBytes i) &&
  bool_decide (di_state i ∈ [ds_claimed; ds_quarantined; ds_expired]) &&
  all_some reasonSchema (di_stateReason i) && claimSchema (di_claim i) &&
  bool_decide (parseJson (di_rawPayloadJson i) <> None) &&
  (Z.of_nat (String.length (di_rawPayloadJson i)) =? di_payloadBytes i).

Definition limitsSchema (l : InboxLimits) : bool :=
  (1 <=? il_maximumPendingDeliveries l) && safe_nonnegative (il_maximumPendingDeliveries l) &&
  (1 <=? il_maximumPendingPayloadBytes l) && safe_nonnegative (il_maximumPendingPayloadBytes l).

Definition acceptDelivery (proposedId : string) (i : DeliveryInput) (limits : InboxLimits)
    : store AcceptedDelivery :=
  _ ← demand_inbox (observerDeliveryInputSchema i && limitsSchema limits) invalid_input;
  '(id, st, attempts) ← mutate (fun t => all_of (readTotals (identity i) t))
                          (accept_write jsonValid limits proposedId i) (fun _ => true);
  _ ← (if bool_decide (st ∈ [ds_claimed; ds_processing]) then mret 0 else prunePayloads (di_receivedAt i));
  mret {| ad_deliveryId := id; ad_duplicate := negb (String.eqb id proposedId); ad_state := st;
          ad_deliveryAttempts := attempts |}.

Definition is_processing (id : string) (d : Delivery) : bool := bool_decide (dl_state d = ds_processing).

Definition recoverDeliveries (recoveredAt : Z) : store Z :=
  mutate (fun _ => no_totals)
    (fun t => Ok (count_rows is_processing t,
                  update_rows is_processing (requeued "recovered-after-restart" recoveredAt recoveredAt) t))
    (fun count => 0 <? count).

(** The queue of the due deliveries. *)
Definition is_due (now : Z) (id : string) (d : Delivery) : bool :=
  bool_decide (dl_state d = ds_claimed) && (dl_nextAttemptAt d <=? now).

Definition queue_order (a b : string * Delivery) : Z :=
  then_by (dl_nextAttemptAt a.2 - dl_nextAttemptAt b.2)
    (then_by (dl_firstReceivedAt a.2 - dl_firstReceivedAt b.2) (code_unit_compare a.1 b.1)).

Definition claimNextDelivery (claimedAt : Z) : store (option (string * Delivery)) :=
  mutate (fun t => all_of (readTotals (fun _ => is_pending) t))
    (fun t => match head (select_rows queue_order (is_due claimedAt) t) with
              | None => Ok (None, t)
              | Some (id, d) => Ok (Some (id, taken claimedAt d), <[id := taken claimedAt d]> t)
              end)
    (fun delivery => bool_decide (delivery <> None)).

(** One row that is being processed is changed, or the write throws. *)
Definition settle_processing (id : string) (f : Delivery -> Delivery) (t : Table)
    : result InboxError (unit * Table) :=
  match t !! id with
  | Some d => if is_processing id d then Ok (tt, <[id := f d]> t) else Err not_being_processed
  | None => Err not_being_processed
  end.

Definition finishDelivery (id : string) (st : DeliveryState) (reason : string) (completedAt : Z)
    : store unit :=
  _ ← demand_inbox (bool_decide (st ∈ [ds_verified; ds_quarantined; ds_expired]) && reasonSchema reason)
        invalid_input;
  _ ← mutate (fun t => all_of (readTotals (fun id' _ => String.eqb id' id) t))
        (settle_processing id (with_state st (Some reason) (Some completedAt) completedAt)) (fun _ => true);
  _ ← prunePayloads completedAt;
  mret tt.

Definition retryDelivery (id reason : string) (retriedAt nextAttemptAt : Z) : store unit :=
  _ ← demand_inbox (reasonSchema reason) invalid_input;
  _ ← demand_inbox (retriedAt <? nextAttemptAt) next_attempt_not_later;
  mutate (fun _ => no_totals) (settle_processing id (requeued reason nextAttemptAt retriedAt)) (fun _ => true).

(** ** Status *)

Definition oldest_pending (t : Table) : option Z :=
  map_fold (fun _ d m => Some (match m with
                               | Some n => Z.min (dl_firstReceivedAt d) n
                               | None => dl_firstReceivedAt d
                               end)) None
    (where_rows (fun _ d => bool_decide (dl_state d = ds_claimed)) t).

Definition verified_order (a b : string * Delivery) : Z :=
  then_by (default 0 (cc_blockHeight (dl_claim b.2)) - default 0 (cc_blockHeight (dl_claim a.2)))
    (default 0 (dl_completedAt b.2) - default 0 (dl_completedAt a.2)).

Definition verified_block (id : string) (d : Delivery) : bool :=
  bool_decide (dl_state d = ds_verified) && bool_decide (cc_blockHeight (dl_claim d) <> None) &&
  bool_decide (cc_indexBlockHash (dl_claim d) <> None) && bool_decide (dl_completedAt d <> None).

Definition operationalStatus (t : Table) : OperationalStatus :=
  {| op_queueDepth := count_rows (fun _ d => bool_decide (dl_state d = ds_claimed)) t;
     op_processing := count_rows is_processing t;
     op_oldestPendingAt := oldest_pending t;
     op_lastVerifiedStacksBlock :=
       d ← snd <$> head (select_rows verified_order verified_block t);
       height ← cc_blockHeight (dl_claim d);
       index ← cc_indexBlockHash (dl_claim d);
       completed ← dl_completedAt d;
       Some (height, index, dl_firstReceivedAt d, completed) |}.

Definition stacks_order (a b : string * Delivery) : Z :=
  then_by (default 0 (cc_blockHeight (dl_claim b.2)) - default 0 (cc_blockHeight (dl_claim a.2)))
    (dl_lastReceivedAt b.2 - dl_lastReceivedAt a.2).
Definition burn_order (a b : string * Delivery) : Z :=
  then_by (default 0 (cc_burnBlockHeight (dl_claim b.2)) - default 0 (cc_burnBlockHeight (dl_claim a.2)))
    (dl_lastReceivedAt b.2 - dl_lastReceivedAt a.2).
Definition quarantine_order (a b : string * Delivery) : Z :=
  then_by (dl_lastReceivedAt b.2 - dl_lastReceivedAt a.2) (code_unit_compare b.1 a.1).

Definition claims_stacks_block (id : string) (d : Delivery) : bool :=
  bool_decide (cc_blockHeight (dl_claim d) <> None) && bool_decide (cc_blockHash (dl_claim d) <> None) &&
  bool_decide (cc_indexBlockHash (dl_claim d) <> None).
Definition claims_burn_block (id : string) (d : Delivery) : bool :=
  bool_decide (cc_burnBlockHeight (dl_claim d) <> None) && bool_decide (cc_burnBlockHash (dl_claim d) <> None).
Definition has_quarantine (id : string) (d : Delivery) : bool :=
  bool_decide (dl_state d = ds_quarantined) && bool_decide (dl_stateReason d <> None).

Definition readStatus (totals : InboxTotals) (t : Table) : InboxStatus :=
  {| st_totals := totals;
     st_operational := operationalStatus t;
     st_lastClaimedStacksBlock :=
       d ← snd <$> head (select_rows stacks_order claims_stacks_block t);
       height ← cc_blockHeight (dl_claim d);
       hash ← cc_blockHash (dl_claim d);
       index ← cc_indexBlockHash (dl_claim d);
       Some (height, hash, index);
     st_lastClaimedBurnBlock :=
       d ← snd <$> head (select_rows burn_order claims_burn_block t);
       height ← cc_burnBlockHeight (dl_claim d);
       hash ← cc_burnBlockHash (dl_claim d);
       Some (height, hash);
     st_lastQuarantine :=
       d ← snd <$> head (select_rows quarantine_order has_quarantine t);
       reason ← dl_stateReason d;
       Some (dl_endpointKind d, reason, dl_lastReceivedAt d) |}.

(** [status]: the returned status, and the memory it leaves. *)
Definition status (s : Inbox) : InboxStatus * Inbox :=
  let fresh :=
    let totals := match ib_totals s with
                  | Some (version, value) =>
                      if version =? ib_dataVersion s then value else readTotals every_row (ib_table s)
                  | None => readTotals every_row (ib_table s)
                  end in
    let value := readStatus totals (ib_table s) in
    (value, {| ib_table := ib_table s; ib_dataVersion := ib_dataVersion s; ib_revision := ib_revision s;
               ib_totals := Some (ib_dataVersion s, totals);
               ib_status := Some (ib_revision s, ib_dataVersion s, value) |}) in
  match ib_status s with
  | Some (revision, version, value) =>
      if (revision =? ib_revision s) && (version =? ib_dataVersion s) then (value, s) else fresh
  | None => fresh
  end.

End Inbox.
