(* ===== verification/ObserverInboxCorrect.v ===== *)
(** * The inbox of node callbacks: exact totals, kept deliveries

    The totals that [mutate] carries along are those of a fresh scan, also beside other writers;
    deliveries only go forward and are never lost; what conflicts is quarantined; the queue and
    the retained payloads stay within their bounds. *)

From S2P Require Import Prelude Text CanonicalJson OperationPlan SweepPlan Recipe LiveReader ObserverInbox.

Open Scope string_scope.
Open Scope list_scope.
Open Scope Z_scope.

(** ** Sums and latest instants of a table *)

Lemma stamp_max_comm a b : stamp_max a b = stamp_max b a.
Proof. unfold stamp_max, stamp_ltb. destruct a as [a|], b as [b|]; try done. repeat case_match; breflect; f_equal; lia. Qed.

Lemma stamp_max_assoc a b c : stamp_max a (stamp_max b c) = stamp_max (stamp_max a b) c.
Proof.
  unfold stamp_max, stamp_ltb. destruct a as [a|], b as [b|], c as [c|]; try done;
    repeat (case_match; breflect; simplify_eq); try done; f_equal; lia.
Qed.

Abbreviation rows_out P t := (filter (fun p => P p.1 p.2 = false) t).

(** Sums and latest instants are folds of a commutative monoid. *)
Section Folds.

Context {B : Type} (op : B -> B -> B) (unit : B) (f : Delivery -> B).
Context (op_comm : forall a b, op a b = op b a) (op_assoc : forall a b c, op a (op b c) = op (op a b) c)
        (op_unit : forall a, op a unit = a).

Definition fold_rows (t : Table) : B := map_fold (fun _ d acc => op (f d) acc) unit t.

Lemma fold_rows_insert id d (t : Table) :
  t !! id = None -> fold_rows (<[id := d]> t) = op (f d) (fold_rows t).
Proof using op_comm op_assoc.
  intros H. unfold fold_rows. rewrite map_fold_insert_L; [done| |done].
  intros. rewrite !op_assoc. f_equal. apply op_comm.
Qed.

Lemma fold_rows_split P (t : Table) :
  fold_rows t = op (fold_rows (rows_out P t)) (fold_rows (where_rows P t)).
Proof using op_comm op_assoc op_unit.
  induction t as [|id d t Hid IH] using map_ind.
  { rewrite !map_filter_empty. unfold fold_rows. by rewrite map_fold_empty, op_unit. }
  rewrite fold_rows_insert, IH by done. rewrite !map_filter_insert. cbn [fst snd].
  assert (forall b, filter (fun p : string * Delivery => P p.1 p.2 = b) t !! id = None) as Hf
    by (intros b; apply map_lookup_filter_None; by left).
  rewrite !delete_id by done.
  destruct (P id d) eqn:Hp; repeat case_decide; try done;
    rewrite fold_rows_insert by apply Hf; rewrite ?op_assoc; [|done].
  f_equal. apply op_comm.
Qed.

(** Tables whose rows pairwise count the same. *)
Lemma fold_rows_pointwise (t t' : Table) :
  (forall id, f <$> t !! id = f <$> t' !! id) -> fold_rows t = fold_rows t'.
Proof using op_comm op_assoc.
  revert t'. induction t as [|id d t Hid IH] using map_ind; intros t' H.
  - assert (t' = ∅) as ->; [|done]. apply map_empty. intros id. specialize (H id).
    rewrite lookup_empty in H. by destruct (t' !! id).
  - pose proof (H id) as Hd. rewrite lookup_insert_eq in Hd. cbn in Hd.
    destruct (t' !! id) as [d'|] eqn:Hid'; [|done]. injection Hd as Hd.
    rewrite <- (insert_delete_id t' id d') by done.
    rewrite !fold_rows_insert by (done || apply lookup_delete_eq). rewrite Hd. f_equal. apply IH. intros j.
    destruct (decide (j = id)) as [->|Hj]; [by rewrite Hid, lookup_delete_eq|].
    specialize (H j). by rewrite lookup_insert_ne in H; [rewrite lookup_delete_ne|].
Qed.

End Folds.

Lemma sum_rows_insert w id d (t : Table) : t !! id = None -> sum_rows w (<[id := d]> t) = w d + sum_rows w t.
Proof. apply fold_rows_insert; intros; lia. Qed.

Lemma sum_rows_split w P (t : Table) : sum_rows w t = sum_rows w (rows_out P t) + sum_rows w (where_rows P t).
Proof. apply (fold_rows_split Z.add 0); intros; lia. Qed.

Lemma last_of_split f P (t : Table) :
  last_of f t = stamp_max (last_of f (rows_out P t)) (last_of f (where_rows P t)).
Proof.
  apply (fold_rows_split stamp_max None); [apply stamp_max_comm|apply stamp_max_assoc|by intros [a|]].
Qed.

Lemma sum_rows_pointwise w (t t' : Table) :
  (forall id, w <$> t !! id = w <$> t' !! id) -> sum_rows w t = sum_rows w t'.
Proof. apply (fold_rows_pointwise Z.add 0); intros; lia. Qed.

Lemma last_of_pointwise f (t t' : Table) :
  (forall id, f <$> t !! id = f <$> t' !! id) -> last_of f t = last_of f t'.
Proof. apply (fold_rows_pointwise stamp_max None); [apply stamp_max_comm|apply stamp_max_assoc]. Qed.

Lemma sum_rows_nonneg w (t : Table) :
  (forall id d, t !! id = Some d -> 0 <= w d) -> 0 <= sum_rows w t.
Proof.
  induction t as [|id d t Hid IH] using map_ind; intros H; [done|].
  rewrite sum_rows_insert by done. specialize (H id d) as Hd. rewrite lookup_insert_eq in Hd.
  specialize (Hd eq_refl). assert (0 <= sum_rows w t); [|lia].
  apply IH. intros j e He. apply (H j). by rewrite lookup_insert_ne by congruence.
Qed.

(** ** Totals *)

(** Totals are counters: equality is pointwise. *)
#[global] Instance totals_equiv : Equiv InboxTotals := fun a b =>
  (forall c, tt_count a c = tt_count b c) /\ tt_last_received_at a = tt_last_received_at b /\
  tt_last_processed_at a = tt_last_processed_at b.

#[global] Instance totals_equivalence : Equivalence (≡@{InboxTotals}).
Proof.
  split.
  - intros a. by split_and!.
  - intros a b (H & ? & ?). by split_and!.
  - intros a b c (H & ? & ?) (H' & ? & ?). split_and!; [|congruence..]. intros k. by rewrite H.
Qed.

#[global] Instance status_equiv : Equiv InboxStatus := fun a b =>
  st_totals a ≡ st_totals b /\ st_operational a = st_operational b /\
  st_lastClaimedStacksBlock a = st_lastClaimedStacksBlock b /\
  st_lastClaimedBurnBlock a = st_lastClaimedBurnBlock b /\ st_lastQuarantine a = st_lastQuarantine b.

#[global] Instance readStatus_proper : Proper ((≡) ==> (=) ==> (≡)) readStatus.
Proof. intros a b H t ? <-. by split_and!. Qed.

Lemma advance_stamp_exact value out before after v :
  value = stamp_max out before -> advance_stamp value (Some before) (Some after) = Some v ->
  v = stamp_max out after.
Proof.
  intros ->. unfold advance_stamp, stamp_max, stamp_ltb.
  destruct out as [o|], before as [b|], after as [a|];
    repeat (case_bool_decide || case_match; cbn [andb] in *; breflect; simplify_eq);
    intros; simplify_eq; try done; f_equal; lia.
Qed.

Lemma where_every (t : Table) : where_rows every_row t = t.
Proof. apply map_filter_id. by intros. Qed.

(** The measured rows account for the whole change. *)
Lemma measured_rows P (t t' : Table) value v :
  rows_out P t = rows_out P t' -> value ≡ readTotals every_row t ->
  advance_totals value (all_of (readTotals P t)) (all_of (readTotals P t')) = Some v ->
  v ≡ readTotals every_row t'.
Proof.
  intros Hout (Hc & Hr & Hp) Hv. cbn in Hc, Hr, Hp. rewrite !where_every in *. unfold advance_totals in Hv.
  destruct (advance_stamp (tt_last_received_at value) _ _) as [r|] eqn:Ha; [|done].
  destruct (advance_stamp (tt_last_processed_at value) _ _) as [q|] eqn:Hb; [|done].
  injection Hv as <-. split_and!; cbn [tt_count tt_last_received_at tt_last_processed_at readTotals].
  - intros c. cbn. specialize (Hc c). cbn in Hc. rewrite ?where_every in *. rewrite Hc.
    rewrite (sum_rows_split _ P t), (sum_rows_split _ P t'), Hout. lia.
  - rewrite where_every, (last_of_split _ P), <- Hout. eapply advance_stamp_exact; [|exact Ha].
    rewrite Hr. apply last_of_split.
  - rewrite where_every, (last_of_split _ P), <- Hout. eapply advance_stamp_exact; [|exact Hb].
    rewrite Hp. apply last_of_split.
Qed.

(** The row counts the same for everything. *)
Definition counts_alike (d d' : Delivery) : Prop :=
  (forall c, weight c d = weight c d') /\ dl_lastReceivedAt d = dl_lastReceivedAt d' /\
  dl_lastProcessingAt d = dl_lastProcessingAt d'.

Lemma readTotals_alike (t t' : Table) :
  (forall id, option_Forall2 counts_alike (t !! id) (t' !! id)) ->
  readTotals every_row t ≡ readTotals every_row t'.
Proof.
  intros H. split_and!; cbn; rewrite ?where_every.
  - intros c. cbn; rewrite ?where_every. apply sum_rows_pointwise. intros id.
    destruct (H id) as [d d' (Hc & _ & _)|]; cbn; [by rewrite Hc|done].
  - apply last_of_pointwise. intros id. destruct (H id) as [d d' (_ & Hr & _)|]; cbn; [by rewrite Hr|done].
  - apply last_of_pointwise. intros id. destruct (H id) as [d d' (_ & _ & Hp)|]; cbn; [by rewrite Hp|done].
Qed.

(** [affected] measures what [write] changes. *)
Definition measures {T} (affected : Table -> PartialTotals)
    (write : Table -> result InboxError (T * Table)) (changed : T -> bool) (t : Table) : Prop :=
  forall r t', write t = Ok (r, t') ->
    if changed r
    then forall value v, value ≡ readTotals every_row t ->
           advance_totals value (affected t) (affected t') = Some v -> v ≡ readTotals every_row t'
    else t' = t.

Record exact (s : Inbox) : Prop := {
  ex_totals : forall version value, ib_totals s = Some (version, value) ->
    version <= ib_dataVersion s /\
    (version = ib_dataVersion s -> value ≡ readTotals every_row (ib_table s));
  ex_status : forall revision version value, ib_status s = Some (revision, version, value) ->
    revision <= ib_revision s /\ version <= ib_dataVersion s /\
    (revision = ib_revision s -> version = ib_dataVersion s ->
     value ≡ readStatus (readTotals every_row (ib_table s)) (ib_table s));
}.

Lemma mutate_exact {T} affected (write : Table -> result InboxError (T * Table)) changed s s' :
  measures affected write changed (ib_table s) -> exact s -> s' ∈ (mutate affected write changed s).2 -> exact s'.
Proof.
  intros Hm [Ht Hs] Hin. unfold mutate in Hin. destruct (write (ib_table s)) as [[r t']|e] eqn:Hw.
  2: by apply not_elem_of_nil in Hin.
  cbn in Hin. apply list_elem_of_singleton in Hin as ->. specialize (Hm _ _ Hw). split; cbn.
  - intros version value Hv. destruct (ib_totals s) as [[v0 value0]|] eqn:Hold; [|done].
    destruct (Ht _ _ eq_refl) as [Hle Heq]. destruct (v0 =? ib_dataVersion s) eqn:Hver; [|done].
    apply Z.eqb_eq in Hver. destruct (changed r).
    + destruct (advance_totals _ _ _) as [value'|] eqn:Had; [|done]. injection Hv as <- <-.
      split; [lia|intros _]. eapply Hm; [|exact Had]. by apply Heq.
    + injection Hv as <- <-. subst t'. split; [lia|done].
  - intros revision version value Hv. destruct (Hs _ _ _ Hv) as (Hr & Hver & Heq).
    destruct (changed r); [split_and!; [lia..|]; intros; exfalso; lia|]. subst t'. by split_and!.
Qed.

(** Reading the status of an exact store is reading the table. *)
Lemma status_exact s :
  exact s -> (status s).1 ≡ readStatus (readTotals every_row (ib_table s)) (ib_table s) /\ exact (status s).2.
Proof.
  intros [Ht Hs]. unfold status.
  set (totals := match ib_totals s with Some _ => _ | None => _ end).
  assert (Htot : totals ≡ readTotals every_row (ib_table s)).
  { subst totals. destruct (ib_totals s) as [[version value]|] eqn:Hold; [|done].
    destruct (Ht _ _ eq_refl) as [_ Heq]. destruct (version =? ib_dataVersion s) eqn:Hv; [|done].
    by apply Heq, Z.eqb_eq. }
  assert (Hfresh : exact {| ib_table := ib_table s; ib_dataVersion := ib_dataVersion s; ib_revision := ib_revision s;
      ib_totals := Some (ib_dataVersion s, totals);
      ib_status := Some (ib_revision s, ib_dataVersion s, readStatus totals (ib_table s)) |}).
  { split; cbn.
    - intros version value [= <- <-]. split; [lia|done].
    - intros revision version value [= <- <- <-]. split_and!; [lia..|]. intros _ _. by apply readStatus_proper. }
  destruct (ib_status s) as [[[revision version] value]|] eqn:Hold.
  - destruct ((revision =? ib_revision s) && (version =? ib_dataVersion s)) eqn:Hv.
    + breflect. destruct (Hs _ _ _ eq_refl) as (_ & _ & Heq). split; [by apply Heq|]. split; [done|].
      cbn. rewrite Hold. exact Hs.
    + cbn. split; [by apply readStatus_proper|done].
  - cbn. split; [by apply readStatus_proper|done].
Qed.

(** ** What the writes change *)

Lemma lookup_update_rows P f (t : Table) id :
  update_rows P f t !! id = (fun d => if P id d then f d else d) <$> t !! id.
Proof. unfold update_rows. rewrite map_lookup_imap. by destruct (t !! id). Qed.

Lemma lookup_where_rows P (t : Table) id d :
  where_rows P t !! id = Some d <-> t !! id = Some d /\ P id d = true.
Proof. apply map_lookup_filter_Some. Qed.

Lemma lookup_rows_out P (t : Table) id d :
  rows_out P t !! id = Some d <-> t !! id = Some d /\ P id d = false.
Proof. apply map_lookup_filter_Some. Qed.

Lemma rows_out_ext P (t t' : Table) :
  (forall id d, P id d = false -> t !! id = Some d <-> t' !! id = Some d) -> rows_out P t = rows_out P t'.
Proof. intros H. apply map_eq. intros id. apply option_eq. intros d. rewrite !lookup_rows_out. naive_solver. Qed.

Lemma rows_out_update P Q f (t : Table) :
  (forall id d, Q id d = true -> P id d = true) -> (forall id d, P id (f d) = P id d) ->
  rows_out P (update_rows Q f t) = rows_out P t.
Proof.
  intros HQ Hf. apply rows_out_ext. intros id d Hd. rewrite lookup_update_rows.
  destruct (t !! id) as [e|]; cbn; [|done]. destruct (Q id e) eqn:He; [|done].
  pose proof (HQ _ _ He) as Hp. rewrite <- (Hf id e) in Hp. split; intros [= <-]; [congruence|].
  rewrite Hf in Hp. congruence.
Qed.

Lemma rows_out_insert P id d (t : Table) :
  P id d = true -> (forall e, t !! id = Some e -> P id e = true) -> rows_out P (<[id := d]> t) = rows_out P t.
Proof.
  intros Hd He. apply rows_out_ext. intros j e Hj. destruct (decide (j = id)) as [->|Hn].
  - rewrite lookup_insert_eq. split; [intros [= <-]; congruence|]. intros Hx. specialize (He _ Hx). congruence.
  - by rewrite lookup_insert_ne.
Qed.

Lemma where_rows_nil P (t : Table) : map_to_list (where_rows P t) = [] -> forall id d, t !! id = Some d -> P id d = false.
Proof.
  intros H%map_to_list_empty_iff id d Hid. apply not_true_is_false. intros Hp.
  assert (where_rows P t !! id = Some d) as He by by apply lookup_where_rows.
  by rewrite H, lookup_empty in He.
Qed.

Lemma where_rows_head P (t : Table) id d l :
  map_to_list (where_rows P t) = (id, d) :: l -> t !! id = Some d /\ P id d = true.
Proof.
  intros H. apply lookup_where_rows, elem_of_map_to_list. rewrite H. by left.
Qed.

Lemma select_rows_elem order P (t : Table) id d :
  (id, d) ∈ select_rows order P t <-> t !! id = Some d /\ P id d = true.
Proof. unfold select_rows. rewrite elem_of_js_sort, elem_of_map_to_list. apply lookup_where_rows. Qed.

Lemma head_selected order P (t : Table) id d :
  head (select_rows order P t) = Some (id, d) -> t !! id = Some d /\ P id d = true.
Proof.
  intros H. apply (select_rows_elem order). destruct (select_rows order P t) as [|p l]; [done|].
  injection H as ->. by left.
Qed.

(** ** Accepting: the rows that may change *)

Lemma identity_position i id d : same_position i d = true -> identity i id d = true.
Proof. intros H. unfold identity. by rewrite H, orb_true_r. Qed.

Lemma excludes_identity proposedId i id d :
  id <> proposedId -> excludes proposedId i id d = true -> identity i id d = true.
Proof.
  intros Hn He. unfold excludes in He. rewrite (proj2 (String.eqb_neq id proposedId) Hn) in He.
  unfold identity. destruct (same_content i d); [done|]. cbn in *. by breflect.
Qed.

Lemma identity_inserted i id st reason : identity i id (inserted i st reason) = true.
Proof. unfold identity, same_content. cbn. by rewrite bool_decide_eq_true_2, String.eqb_refl. Qed.

(** A row changed in place keeps what it is about. *)
Record about_same (d d' : Delivery) : Prop := {
  as_endpoint : dl_endpointKind d' = dl_endpointKind d;
  as_content : dl_contentSha256 d' = dl_contentSha256 d;
  as_claim : dl_claim d' = dl_claim d;
  as_first : dl_firstReceivedAt d' = dl_firstReceivedAt d;
}.

Lemma identity_about i id d d' : about_same d d' -> identity i id d' = identity i id d.
Proof. intros [He Hs Hc _]. unfold identity, same_content, same_position, at_position. by rewrite He, Hs, Hc. Qed.

(** [accept_write], decided by its stages. *)
Lemma accept_write_inv jsonValid limits proposedId i (t t' : Table) r :
  t !! proposedId = None -> accept_write jsonValid limits proposedId i t = Ok (r, t') ->
  exists t1 st reason id row,
    (where_rows (conflicting i) t = ∅ /\ t1 = t /\ st = di_state i /\ reason = di_stateReason i \/
     where_rows (conflicting i) t <> ∅ /\ st = ds_quarantined /\ reason = Some conflict_reason /\
     t1 = update_rows (fun _ => same_position i)
            (fun d => with_state ds_quarantined (Some conflict_reason)
               (from_option Some (Some (di_receivedAt i)) (dl_completedAt d)) (di_receivedAt i) d) t) /\
    t1 !! proposedId = None /\ r = (id, dl_state row, dl_deliveryAttempts row) /\ t' = <[id := row]> t1 /\
    (id = proposedId /\ row = inserted i st reason /\
       (forall id' d, t1 !! id' = Some d -> excludes proposedId i id' d = false) /\
       (st = ds_claimed -> within_limits limits t' = true) \/
     id <> proposedId /\ exists d, t1 !! id = Some d /\ excludes proposedId i id d = true /\
       row = received_again (inserted i st reason) d).
Proof.
  intros Hfresh H. unfold accept_write in H.
  set (t1 := if negb (bool_decide (where_rows (conflicting i) t = ∅)) then _ else t) in H.
  assert (Hf1 : t1 !! proposedId = None).
  { subst t1. case_bool_decide; cbn; [done|]. by rewrite lookup_update_rows, Hfresh. }
  set (st := if negb _ then ds_quarantined else di_state i) in *.
  set (reason := if negb _ then Some conflict_reason else di_stateReason i) in *.
  inv_ok H. destruct (upsert _ _ _ _) as [[id row] t2] eqn:Hup. inv_ok H. exists t1, st, reason, id, row. split.
  { subst t1 st reason. case_bool_decide; cbn; tauto. }
  split; [done|]. subst r t2.
  unfold upsert in Hup. destruct (map_to_list _) as [|[id0 d0] l] eqn:Hl.
  - injection Hup as <- <- <-. split_and!; [done..|]. left. split_and!; [done|done|by apply where_rows_nil|].
    intros Hst. rewrite String.eqb_refl in *. cbn in *. by rewrite bool_decide_eq_true_2 in *.
  - injection Hup as <- <- <-. apply where_rows_head in Hl as [Hl He]. split_and!; [done..|]. right.
    split; [congruence|]. by exists d0.
Qed.

(** ** Every operation measures what it changes *)

Lemma accept_measures jsonValid limits proposedId i (t : Table) :
  t !! proposedId = None ->
  measures (fun t => all_of (readTotals (identity i) t)) (accept_write jsonValid limits proposedId i)
    (fun _ => true) t.
Proof.
  intros Hfresh r t' H value v. apply measured_rows.
  apply accept_write_inv in H as (t1 & st & reason & id & row & Ht1 & Hf1 & _ & -> & Hrow); [|done].
  transitivity (rows_out (identity i) t1).
  - destruct Ht1 as [(_ & -> & _)|(_ & _ & _ & ->)]; [done|]. symmetry. apply rows_out_update.
    + intros id' d. apply identity_position.
    + intros id' d. by apply identity_about.
  - symmetry. destruct Hrow as [(-> & -> & _)|(Hn & d & Hd & He & ->)].
    + apply rows_out_insert; [apply identity_inserted|]. congruence.
    + apply excludes_identity in He; [|done]. apply rows_out_insert.
      * by rewrite (identity_about i id d).
      * congruence.
Qed.

Lemma claim_measures claimedAt (t : Table) :
  measures (fun t => all_of (readTotals (fun _ => is_pending) t))
    (fun t => match head (select_rows queue_order (is_due claimedAt) t) with
              | None => Ok (None, t)
              | Some (id, d) => Ok (Some (id, taken claimedAt d), <[id := taken claimedAt d]> t)
              end) (fun delivery => bool_decide (delivery <> None)) t.
Proof.
  intros r t' H. destruct (head _) as [[id d]|] eqn:Hh; [|by injection H as <- <-].
  injection H as <- <-. cbn. apply head_selected in Hh as [Hid Hdue]. intros value v.
  apply (measured_rows (fun _ => is_pending)). symmetry. apply (rows_out_insert (fun _ => is_pending)); [done|].
  intros e He. assert (e = d) as -> by congruence. unfold is_due, is_pending in *. breflect.
  apply bool_decide_eq_true_2. rewrite H. by left.
Qed.

Lemma settle_processing_inv id f (t t' : Table) r :
  settle_processing id f t = Ok (r, t') ->
  exists d, t !! id = Some d /\ dl_state d = ds_processing /\ t' = <[id := f d]> t.
Proof.
  unfold settle_processing. intros H. destruct (t !! id) as [d|]; [|done].
  destruct (is_processing id d) eqn:Hp; [|done]. injection H as _ <-. exists d. unfold is_processing in Hp.
  by breflect.
Qed.

Lemma finish_measures id f (t : Table) :
  measures (fun t => all_of (readTotals (fun id' _ => String.eqb id' id) t)) (settle_processing id f)
    (fun _ => true) t.
Proof.
  intros r t' (d & Hd & _ & ->)%settle_processing_inv value v.
  apply (measured_rows (fun id' _ => String.eqb id' id)). symmetry.
  apply (rows_out_insert (fun id' _ => String.eqb id' id)); [apply String.eqb_refl|]. intros. apply String.eqb_refl.
Qed.

Lemma unmeasured (t t' : Table) value v :
  (forall id, option_Forall2 counts_alike (t !! id) (t' !! id)) -> value ≡ readTotals every_row t ->
  advance_totals value no_totals no_totals = Some v -> v ≡ readTotals every_row t'.
Proof.
  intros H%readTotals_alike Hv [= <-]. destruct Hv as (Hc & Hr & Hp). rewrite <- H. by split_and!.
Qed.

Lemma requeued_alike reason a b d : dl_state d = ds_processing -> counts_alike d (requeued reason a b d).
Proof. intros H. split_and!; [intros []; cbn; by rewrite ?H|done..]. Qed.

Lemma counts_alike_refl d : counts_alike d d.
Proof. by split_and!. Qed.

Lemma retry_measures id reason a b (t : Table) :
  measures (fun _ => no_totals) (settle_processing id (requeued reason a b)) (fun _ => true) t.
Proof.
  intros r t' (d & Hd & Hs & ->)%settle_processing_inv value v. apply unmeasured. intros j.
  destruct (decide (j = id)) as [->|Hn].
  - rewrite Hd, lookup_insert_eq. constructor. by apply requeued_alike.
  - rewrite lookup_insert_ne by done. destruct (t !! j); constructor. apply counts_alike_refl.
Qed.

Lemma count_rows_zero P (t : Table) : (0 <? count_rows P t) = false -> forall id d, t !! id = Some d -> P id d = false.
Proof.
  intros H id d Hd. unfold count_rows in H. breflect. apply (where_rows_nil P t); [|done].
  assert (Hz : size (where_rows P t) = 0%nat) by lia. apply map_size_empty_inv in Hz. rewrite Hz.
  apply map_to_list_empty.
Qed.

Lemma update_rows_none P f (t : Table) : (0 <? count_rows P t) = false -> update_rows P f t = t.
Proof.
  intros H. apply map_eq. intros id. rewrite lookup_update_rows. destruct (t !! id) as [d|] eqn:Hd; [|done].
  cbn. by rewrite (count_rows_zero P t H id d Hd).
Qed.

Lemma recover_measures recoveredAt (t : Table) :
  measures (fun _ => no_totals)
    (fun t => Ok (count_rows is_processing t,
                  update_rows is_processing (requeued "recovered-after-restart" recoveredAt recoveredAt) t))
    (fun count => 0 <? count) t.
Proof.
  intros r t' [= <- <-]. destruct (0 <? count_rows is_processing t) eqn:Hc; [|by apply update_rows_none].
  intros value v. apply unmeasured. intros id. rewrite lookup_update_rows.
  destruct (t !! id) as [d|]; constructor. destruct (is_processing id d) eqn:Hp; [|apply counts_alike_refl].
  apply requeued_alike. unfold is_processing in Hp. by breflect.
Qed.

(** ** Pruning *)

Lemma sum_rows_where w (P : Delivery -> bool) (t : Table) :
  sum_rows w (where_rows (fun _ => P) t) = sum_rows (fun d => if P d then w d else 0) t.
Proof.
  induction t as [|id d t Hid IH] using map_ind; [by rewrite map_filter_empty|].
  rewrite (sum_rows_insert _ id d t), <- IH by done. rewrite map_filter_insert. cbn [fst snd].
  destruct (P d) eqn:Hp; case_decide; try done.
  - apply sum_rows_insert, map_lookup_filter_None. by left.
  - by rewrite delete_id.
Qed.

Lemma sum_rows_minus f g (t : Table) : sum_rows (fun d => f d - g d) t = sum_rows f t - sum_rows g t.
Proof.
  induction t as [|id d t Hid IH] using map_ind; [done|]. rewrite !sum_rows_insert, IH by done. lia.
Qed.

Lemma beyond_retention_elem cutoff rank bytes l id :
  id ∈ beyond_retention cutoff rank bytes l -> exists d, (id, d) ∈ l.
Proof.
  revert rank bytes. induction l as [|[j d] l IH]; intros rank bytes H; [by apply not_elem_of_nil in H|].
  cbn in H. apply elem_of_app in H as [H|H].
  - destruct (_ || _); [|by apply not_elem_of_nil in H]. apply list_elem_of_singleton in H as ->.
    exists d. by left.
  - destruct (IH _ _ H) as (e & He). exists e. by right.
Qed.

Definition doomed (cutoff : Z) (t : Table) (id : string) (_ : Delivery) : bool :=
  existsb (String.eqb id) (prunable cutoff t).

Lemma doomed_retained cutoff (t : Table) id d : t !! id = Some d -> doomed cutoff t id d = true -> is_retained d = true.
Proof.
  unfold doomed, prunable. intros Hd (j & Hj & He)%existsb_exists. apply String.eqb_eq in He as <-.
  apply list_elem_of_In, beyond_retention_elem in Hj as (e & He). apply select_rows_elem in He as [He Hr].
  by assert (e = d) as -> by congruence.
Qed.

(** What pruning leaves alone of a row's share in a total. *)
Lemma pruned_share (w share : Delivery -> Z) observedAt cutoff (t : Table) :
  (forall d, is_retained d = true -> w (pruned observedAt d) - 0 = w d - share d) ->
  let t' := update_rows (doomed cutoff t) (pruned observedAt) t in
  sum_rows w t' - sum_rows share (where_rows (fun _ => is_retained) t') =
  sum_rows w t - sum_rows share (where_rows (fun _ => is_retained) t).
Proof.
  intros Hw t'. rewrite !(sum_rows_where share is_retained), <- !sum_rows_minus. apply sum_rows_pointwise. intros id.
  subst t'. rewrite lookup_update_rows. destruct (t !! id) as [d|] eqn:Hd; [|done]. cbn. f_equal.
  destruct (doomed cutoff t id d) eqn:Hx; [|done]. apply doomed_retained in Hx; [|done].
  rewrite Hx, <- Hw by done. f_equal. unfold is_retained. cbn. by rewrite andb_false_r.
Qed.

Lemma pruned_keeps (w : Delivery -> Z) observedAt cutoff (t : Table) :
  (forall d, is_retained d = true -> w (pruned observedAt d) = w d) ->
  sum_rows w (update_rows (doomed cutoff t) (pruned observedAt) t) = sum_rows w t.
Proof.
  intros Hw. apply sum_rows_pointwise. intros id. rewrite lookup_update_rows.
  destruct (t !! id) as [d|] eqn:Hd; [|done]. cbn. f_equal. destruct (doomed cutoff t id d) eqn:Hx; [|done].
  by apply Hw, (doomed_retained cutoff t id).
Qed.

Lemma sum_rows_const k (t : Table) : sum_rows (fun _ => k) t = k * Z.of_nat (size t).
Proof.
  induction t as [|id d t Hid IH] using map_ind; [by rewrite map_size_empty, Z.mul_0_r|].
  rewrite sum_rows_insert, map_size_insert_None, IH by done. lia.
Qed.

Lemma retained_unpruned d : is_retained d = true -> dl_payloadPruned d = false.
Proof. unfold is_retained. intros H. by breflect. Qed.

(** The totals of a pruned table, from the retained rows before and after. *)
Lemma pruned_totals observedAt cutoff (t : Table) c :
  let t' := update_rows (doomed cutoff t) (pruned observedAt) t in
  match pt_count (retained_totals t) c, pt_count (retained_totals t') c with
  | Some b, Some a => sum_rows (weight c) t + (a - b)
  | _, _ => sum_rows (weight c) t
  end = sum_rows (weight c) t'.
Proof.
  cbn zeta. destruct c; cbn -[weight]; try (symmetry; by apply pruned_keeps).
  - rewrite <- (Z.sub_add (sum_rows dl_payloadBytes
      (where_rows (fun _ => is_retained) (update_rows (doomed cutoff t) (pruned observedAt) t)))
      (sum_rows (weight retained_payload_bytes) (update_rows _ _ t))).
    rewrite (pruned_share (weight retained_payload_bytes) dl_payloadBytes); [lia|].
    intros d Hd. cbn. rewrite (retained_unpruned d Hd). lia.
  - pose proof (pruned_share (weight pruned_payloads) (fun _ => -1) observedAt cutoff t) as H. cbn zeta in H.
    rewrite !sum_rows_const in H.
    assert (Hw : forall d, is_retained d = true ->
      weight pruned_payloads (pruned observedAt d) - 0 = weight pruned_payloads d - -1)
      by (intros d Hd; cbn; by rewrite (retained_unpruned d Hd)).
    specialize (H Hw). lia.
Qed.

Lemma pruned_stamps (f : Delivery -> option Z) observedAt cutoff (t : Table) :
  (forall d, f (pruned observedAt d) = f d) ->
  last_of f (update_rows (doomed cutoff t) (pruned observedAt) t) = last_of f t.
Proof.
  intros Hf. apply last_of_pointwise. intros id. rewrite lookup_update_rows.
  destruct (t !! id) as [d|]; [|done]. cbn. by destruct (doomed _ _ _ _); rewrite ?Hf.
Qed.

Lemma prune_measures observedAt cutoff (t : Table) :
  measures retained_totals
    (fun t => Ok (count_rows (doomed cutoff t) t, update_rows (doomed cutoff t) (pruned observedAt) t))
    (fun count => 0 <? count) t.
Proof.
  intros r t' [= <- <-]. destruct (0 <? count_rows _ t) eqn:Hc; [|by apply update_rows_none].
  intros value v (Hn & Hr & Hp) [= <-]. cbn in Hn, Hr, Hp. rewrite ?where_every in *.
  split_and!; cbn -[retained_totals]; rewrite ?where_every.
  - intros c. specialize (Hn c). cbn in Hn. rewrite ?where_every in *. cbn -[retained_totals]. rewrite ?where_every, Hn.
    apply pruned_totals.
  - by rewrite Hr, pruned_stamps.
  - by rewrite Hp, pruned_stamps.
Qed.

(** ** How a delivery goes on *)

Inductive delivery_edge : DeliveryState -> DeliveryState -> Prop :=
  | edge_take : delivery_edge ds_claimed ds_processing
  | edge_return : delivery_edge ds_processing ds_claimed
  | edge_finish st : st ∈ [ds_verified; ds_quarantined; ds_expired] -> delivery_edge ds_processing st
  | edge_quarantine st : delivery_edge st ds_quarantined.

Definition terminal (st : DeliveryState) : bool := bool_decide (st ∈ [ds_verified; ds_quarantined; ds_expired]).

Lemma terminal_stays st st' : rtc delivery_edge st st' -> terminal st = true -> terminal st' = true.
Proof. induction 1 as [|a b c He _ IH]; [done|]. intros Ha. apply IH. by destruct He. Qed.

(** What is verified stays so, but for a later conflict. *)
Lemma verified_stays st st' : rtc delivery_edge st st' -> st = ds_verified -> st' ∈ [ds_verified; ds_quarantined].
Proof.
  intros H. assert (Hq : forall a b, rtc delivery_edge a b -> a = ds_quarantined -> b = ds_quarantined).
  { induction 1 as [|a b c He _ IH]; [done|]. intros ->. apply IH. by inversion He. }
  induction H as [|a b c He Hr IH]; intros ->; [by left|]. inversion He; subst.
  right. rewrite (Hq _ _ Hr eq_refl). by left.
Qed.

(** The body is there, or was dropped from a terminal row. *)
Definition body_kept (d d' : Delivery) : Prop :=
  dl_rawPayloadJson d' = dl_rawPayloadJson d /\ dl_payloadBytes d' = dl_payloadBytes d /\
    dl_payloadPruned d' = dl_payloadPruned d \/
  terminal (dl_state d') = true /\ dl_payloadPruned d' = true /\ dl_payloadBytes d' = 0.

Record goes_on (d d' : Delivery) : Prop := {
  go_about : about_same d d';
  go_delivered : dl_deliveryAttempts d <= dl_deliveryAttempts d';
  go_processed : dl_processingAttempts d <= dl_processingAttempts d';
  go_state : rtc delivery_edge (dl_state d) (dl_state d');
  go_body : body_kept d d';
}.

#[global] Instance goes_on_preorder : PreOrder goes_on.
Proof.
  split.
  - intros d. split; [by split|lia|lia|apply rtc_refl|by left].
  - intros a b c [[? ? ? ?] ? ? Hs Hb] [[? ? ? ?] ? ? Hs' Hb']. split; [split; congruence|lia|lia|by etransitivity|].
    destruct Hb' as [(Hr & Hy & Hp)|]; [|by right].
    destruct Hb as [(Hr0 & Hy0 & Hp0)|(Ht & Hp0 & Hy0)]; [left; split_and!; congruence|].
    right. split_and!; [by eapply terminal_stays|congruence|congruence].
Qed.

Lemma goes_on_state d d' :
  about_same d d' -> dl_deliveryAttempts d <= dl_deliveryAttempts d' ->
  dl_processingAttempts d <= dl_processingAttempts d' ->
  (dl_state d' = dl_state d \/ delivery_edge (dl_state d) (dl_state d')) ->
  dl_rawPayloadJson d' = dl_rawPayloadJson d -> dl_payloadBytes d' = dl_payloadBytes d ->
  dl_payloadPruned d' = dl_payloadPruned d -> goes_on d d'.
Proof.
  intros Ha Hd Hp Hs Hr Hb Hx. split; [done..| |by left].
  destruct Hs as [->|Hs]; [apply rtc_refl|by apply rtc_once].
Qed.

(** Every row goes on. *)
Definition forward (t t' : Table) : Prop :=
  forall id d, t !! id = Some d -> exists d', t' !! id = Some d' /\ goes_on d d'.

#[global] Instance forward_preorder : PreOrder forward.
Proof.
  split.
  - intros t id d H. by exists d.
  - intros a b c Hab Hbc id d H. destruct (Hab _ _ H) as (e & He & Hd). destruct (Hbc _ _ He) as (f & Hf & Hg).
    exists f. split; [done|by etransitivity].
Qed.

Lemma forward_insert id d d' (t : Table) : t !! id = Some d -> goes_on d d' -> forward t (<[id := d']> t).
Proof.
  intros H Hg j e He. destruct (decide (j = id)) as [->|Hn].
  - exists d'. rewrite lookup_insert_eq. split; [done|]. by assert (e = d) as -> by congruence.
  - exists e. by rewrite lookup_insert_ne.
Qed.

Lemma forward_fresh id d (t : Table) : t !! id = None -> forward t (<[id := d]> t).
Proof. intros H j e He. exists e. rewrite lookup_insert_ne by congruence. done. Qed.

Lemma forward_update P f (t : Table) :
  (forall id d, t !! id = Some d -> P id d = true -> goes_on d (f d)) -> forward t (update_rows P f t).
Proof.
  intros H id d Hd. exists (if P id d then f d else d). rewrite lookup_update_rows, Hd. split; [done|].
  destruct (P id d) eqn:Hp; [by apply (H id)|done].
Qed.

(** ** The table *)

Definition row_key (d : Delivery) : EndpointKind * string := (dl_endpointKind d, dl_contentSha256 d).

Definition rows_at_position (d e : Delivery) : bool := at_position (dl_endpointKind d) (dl_claim d) e.

Record table_ok (limits : InboxLimits) (t : Table) : Prop := {
  to_rows : forall id d, t !! id = Some d -> 1 <= dl_deliveryAttempts d /\ 0 <= dl_payloadBytes d /\
    (dl_payloadPruned d = true -> terminal (dl_state d) = true);
  to_unique : forall id d id' e, t !! id = Some d -> t !! id' = Some e -> row_key d = row_key e -> id = id';
  to_conflicts : forall id d id' e, t !! id = Some d -> t !! id' = Some e -> rows_at_position d e = true ->
    dl_contentSha256 d <> dl_contentSha256 e -> dl_state d = ds_quarantined /\ dl_state e = ds_quarantined;
  to_limits : within_limits limits t = true;
}.

Lemma sum_rows_sub w w' (t t' : Table) :
  (forall id d, t !! id = Some d -> 0 <= w d) ->
  (forall id d', t' !! id = Some d' -> exists d, t !! id = Some d /\ w' d' <= w d) ->
  sum_rows w' t' <= sum_rows w t.
Proof.
  revert t. induction t' as [|id d' t' Hid IH] using map_ind; intros t Hpos H; [by apply sum_rows_nonneg|].
  destruct (H id d') as (d & Hd & Hle); [apply lookup_insert_eq|].
  rewrite <- (insert_delete_id t id d) by done. rewrite !sum_rows_insert by (done || apply lookup_delete_eq).
  assert (sum_rows w' t' <= sum_rows w (delete id t)); [|lia]. apply IH.
  - intros j e He. apply (Hpos j). rewrite lookup_delete_Some in He. tauto.
  - intros j e' He'. assert (j <> id) by congruence. destruct (H j e') as (e & He & Hle').
    + by rewrite lookup_insert_ne.
    + exists e. by rewrite lookup_delete_ne.
Qed.

(** The queue does not grow when every pending row was one before. *)
Lemma within_limits_sub limits (t t' : Table) :
  (forall id d, t !! id = Some d -> 0 <= dl_payloadBytes d) ->
  (forall id d', t' !! id = Some d' -> is_pending d' = true ->
     exists d, t !! id = Some d /\ is_pending d = true /\ dl_payloadBytes d' = dl_payloadBytes d) ->
  within_limits limits t = true -> within_limits limits t' = true.
Proof.
  intros Hpos H Hl. unfold within_limits in *. breflect. apply andb_true_iff. rewrite !Z.leb_le.
  assert (Hsub : forall w : Delivery -> Z, (forall d d', dl_payloadBytes d' = dl_payloadBytes d -> w d' <= w d) ->
    (forall id d, t !! id = Some d -> 0 <= w d) ->
    sum_rows w (where_rows (fun _ => is_pending) t') <= sum_rows w (where_rows (fun _ => is_pending) t)).
  { intros w Hw Hp. apply sum_rows_sub.
    - intros id d (Hd & _)%(lookup_where_rows (fun _ => is_pending)). by apply (Hp id).
    - intros id d' (Hd' & Hpe)%(lookup_where_rows (fun _ => is_pending)).
      destruct (H id d' Hd' Hpe) as (d & Hd & Hpd & Hb). exists d. split; [|by apply Hw].
      by apply (lookup_where_rows (fun _ => is_pending)). }
  split.
  - pose proof (Hsub (fun _ => 1)) as Hs. rewrite !sum_rows_const in Hs.
    assert (forall id d, t !! id = Some d -> 0 <= 1) by (intros; lia). specialize (Hs ltac:(intros; lia)).
    specialize (Hs H2). lia.
  - etransitivity; [apply Hsub|done]; [intros; lia|done].
Qed.

(** Changing rows in place keeps the table in order, when conflicts stay quarantined and nothing
    becomes pending again. *)
Lemma table_ok_in_place limits (t t' : Table) :
  table_ok limits t -> forward t t' -> (forall id, t !! id = None -> t' !! id = None) ->
  (forall id d d', t !! id = Some d -> t' !! id = Some d' ->
     0 <= dl_payloadBytes d' /\ (dl_payloadPruned d' = true -> terminal (dl_state d') = true) /\
     (dl_state d = ds_quarantined -> dl_state d' = ds_quarantined) /\
     (is_pending d' = true -> is_pending d = true /\ dl_payloadBytes d' = dl_payloadBytes d)) ->
  table_ok limits t'.
Proof.
  intros [Hr Hu Hc Hl] Hf Hn Hx.
  assert (Hback : forall id d', t' !! id = Some d' -> exists d, t !! id = Some d /\ goes_on d d').
  { intros id d' Hd'. destruct (t !! id) as [d|] eqn:Hd; [|by rewrite Hn in Hd'].
    destruct (Hf id d Hd) as (e & He & Hg). exists d. split; [done|]. congruence. }
  split.
  - intros id d' Hd'. destruct (Hback _ _ Hd') as (d & Hd & Hg). destruct (Hr _ _ Hd) as (Ha & _).
    destruct (Hx _ _ _ Hd Hd') as (Hb & Hp & _). pose proof (go_delivered _ _ Hg). split_and!; [lia|done..].
  - intros id d' id' e' Hd' He'. destruct (Hback _ _ Hd') as (d & Hd & [[Ha Hb _ _] _ _ _ _]).
    destruct (Hback _ _ He') as (e & He & [[Ha' Hb' _ _] _ _ _ _]). unfold row_key. rewrite Ha, Hb, Ha', Hb'.
    by apply Hu.
  - intros id d' id' e' Hd' He'. destruct (Hback _ _ Hd') as (d & Hd & [[Ha Hb Hcl _] _ _ _ _]).
    destruct (Hback _ _ He') as (e & He & [[Ha' Hb' Hcl' _] _ _ _ _]).
    unfold rows_at_position, at_position. rewrite Ha, Hb, Hcl, Ha', Hb', Hcl'. intros Hp Hne.
    destruct (Hc _ _ _ _ Hd He Hp Hne). split; [by apply (Hx _ _ _ Hd Hd')|by apply (Hx _ _ _ He He')].
  - eapply within_limits_sub; [| |exact Hl].
    + intros id d Hd. by apply (Hr id).
    + intros id d' Hd' Hp. destruct (Hback _ _ Hd') as (d & Hd & _). exists d. split; [done|].
      by apply (Hx _ _ _ Hd Hd').
Qed.

(** A changed row: what [table_ok_in_place] asks of it. *)
Record sound_change (d d' : Delivery) : Prop := {
  sc_goes_on : goes_on d d';
  sc_bytes : 0 <= dl_payloadBytes d -> 0 <= dl_payloadBytes d';
  sc_pruned : (dl_payloadPruned d = true -> terminal (dl_state d) = true) ->
    dl_payloadPruned d' = true -> terminal (dl_state d') = true;
  sc_quarantined : dl_state d = ds_quarantined -> dl_state d' = ds_quarantined;
  sc_pending : is_pending d' = true -> is_pending d = true /\ dl_payloadBytes d' = dl_payloadBytes d;
}.

Lemma sound_change_refl d : sound_change d d.
Proof. by split. Qed.

Lemma rows_change_ok limits (t t' : Table) :
  table_ok limits t -> (forall id, option_Forall2 sound_change (t !! id) (t' !! id)) ->
  forward t t' /\ table_ok limits t'.
Proof.
  intros Hok H. assert (Hf : forward t t').
  { intros id d Hd. specialize (H id). rewrite Hd in H. inversion H as [? d' Hs He|]; subst.
    exists d'. split; [done|apply Hs]. }
  split; [done|]. apply (table_ok_in_place _ t); [done..| |].
  - intros id Hn. specialize (H id). rewrite Hn in H. by inversion H.
  - intros id d d' Hd Hd'. specialize (H id). rewrite Hd, Hd' in H. inversion H as [? ? [_ Hb Hp Hq Hx]|]; subst.
    destruct (to_rows _ _ Hok id d Hd) as (_ & Hb0 & Hp0). split_and!; auto.
Qed.

Lemma row_change_ok limits (t : Table) id d d' :
  table_ok limits t -> t !! id = Some d -> sound_change d d' ->
  forward t (<[id := d']> t) /\ table_ok limits (<[id := d']> t).
Proof.
  intros Hok Hd Hs. apply rows_change_ok; [done|]. intros j. destruct (decide (j = id)) as [->|Hn].
  - rewrite Hd, lookup_insert_eq. by constructor.
  - rewrite lookup_insert_ne by done. destruct (t !! j); constructor. apply sound_change_refl.
Qed.

Lemma update_ok limits P f (t : Table) :
  table_ok limits t -> (forall id d, t !! id = Some d -> P id d = true -> sound_change d (f d)) ->
  forward t (update_rows P f t) /\ table_ok limits (update_rows P f t).
Proof.
  intros Hok H. apply rows_change_ok; [done|]. intros id. rewrite lookup_update_rows.
  destruct (t !! id) as [d|] eqn:Hd; constructor. destruct (P id d) eqn:Hp; [by apply (H id)|apply sound_change_refl].
Qed.

Lemma with_state_change d st reason completedAt updatedAt :
  delivery_edge (dl_state d) st -> terminal st = true -> (dl_state d = ds_quarantined -> st = ds_quarantined) ->
  sound_change d (with_state st reason completedAt updatedAt d).
Proof.
  intros He Ht Hq. split; cbn; try done.
  - apply goes_on_state; cbn; try done; try lia. by right.
  - intros Hp. exfalso. unfold is_pending, terminal in *. cbn in Hp. by destruct st.
Qed.

Lemma quarantine_change d reason completedAt updatedAt :
  sound_change d (with_state ds_quarantined reason completedAt updatedAt d).
Proof. by apply with_state_change; [constructor| |]. Qed.

Lemma requeued_change d reason a b : dl_state d = ds_processing -> sound_change d (requeued reason a b d).
Proof.
  intros Hs. split; cbn; try done.
  - apply goes_on_state; cbn; try done; try lia. rewrite Hs. right. constructor.
  - intros Hp Hx. specialize (Hp Hx). by rewrite Hs in Hp.
  - by rewrite Hs.
  - intros _. unfold is_pending. by rewrite Hs.
Qed.

Lemma taken_change d now : dl_state d = ds_claimed -> sound_change d (taken now d).
Proof.
  intros Hs. split; cbn; try done.
  - apply goes_on_state; cbn; try done; try lia. rewrite Hs. right. constructor.
  - intros Hp Hx. specialize (Hp Hx). by rewrite Hs in Hp.
  - by rewrite Hs.
  - intros _. unfold is_pending. by rewrite Hs.
Qed.

Lemma pruned_change d now : is_retained d = true -> sound_change d (pruned now d).
Proof.
  intros Hr. assert (Ht : terminal (dl_state d) = true) by (by apply andb_true_iff in Hr as [Hr _]).
  split; cbn; try done.
  - split; cbn; [by split|lia|lia|apply rtc_refl|by right].
  - intros Hp. exfalso. unfold is_pending, terminal in *. cbn in Hp. by destruct (dl_state d).
Qed.

Lemma received_again_change excluded d :
  sound_change d (received_again excluded d).
Proof.
  unfold received_again. case_bool_decide as Hq.
  - split; cbn; try done. apply goes_on_state; cbn; try done; try lia. right. constructor.
  - split; cbn; try done. apply goes_on_state; cbn; try done; try lia. by left.
Qed.

(** ** Accepting keeps the table in order *)

Lemma at_position_sym d e : rows_at_position d e = rows_at_position e d.
Proof.
  unfold rows_at_position, at_position, sql_eq.
  destruct (dl_endpointKind d), (dl_endpointKind e); try done;
    repeat match goal with |- context [match ?o with Some _ => _ | None => _ end] => destruct o end; try done;
    f_equal; apply bool_decide_ext; split; congruence.
Qed.

Lemma inserted_position i st reason d : rows_at_position (inserted i st reason) d = same_position i d.
Proof. done. Qed.

(** Positions are shared by transitivity. *)
Lemma sql_eq_iff {A} `{EqDecision A} (a b : option A) : sql_eq a b = true <-> exists x, a = Some x /\ b = Some x.
Proof.
  unfold sql_eq. destruct a as [x|], b as [y|]; split; try done; try (by intros (? & ? & ?)).
  - intros H%bool_decide_eq_true. exists x. by subst.
  - intros (z & [= ->] & [= ->]). by apply bool_decide_eq_true_2.
Qed.

(** Positions are shared by transitivity. *)
Lemma position_trans i d e : same_position i d = true -> rows_at_position d e = true -> same_position i e = true.
Proof.
  unfold same_position, rows_at_position, at_position.
  destruct (di_endpointKind i), (dl_endpointKind d), (dl_endpointKind e); try done;
    rewrite !andb_true_iff, !sql_eq_iff; intros [(a & Ha & Ha') (b & Hb & Hb')] [(c & Hc & Hc') (f & Hf & Hf')];
    split; [exists a|exists b|exists a|exists b]; split; congruence.
Qed.

(** A new row beside the others. *)
Lemma insert_ok limits (t : Table) id row :
  table_ok limits t -> t !! id = None -> 1 <= dl_deliveryAttempts row -> 0 <= dl_payloadBytes row ->
  dl_payloadPruned row = false ->
  (forall j e, t !! j = Some e -> row_key e <> row_key row) ->
  (forall j e, t !! j = Some e -> rows_at_position row e = true -> dl_contentSha256 row <> dl_contentSha256 e ->
     dl_state row = ds_quarantined /\ dl_state e = ds_quarantined) ->
  within_limits limits (<[id := row]> t) = true ->
  table_ok limits (<[id := row]> t).
Proof.
  intros [Hr Hu Hc _] Hf Ha Hb Hp Hk Hx Hl. split; [| | |done].
  - intros j d [[-> ->]|[Hj Hd]]%lookup_insert_Some; [|by apply (Hr j)]. split_and!; [done..|congruence].
  - intros j d j' e [[-> ->]|[Hj Hd]]%lookup_insert_Some [[-> ->]|[Hj' He]]%lookup_insert_Some Heq; try done.
    + exfalso. by eapply Hk.
    + exfalso. by eapply Hk.
    + by eapply Hu.
  - intros j d j' e [[-> ->]|[Hj Hd]]%lookup_insert_Some [[-> ->]|[Hj' He]]%lookup_insert_Some Hpos Hne; try done.
    + by apply (Hx j').
    + rewrite at_position_sym in Hpos. destruct (Hx j d Hd Hpos) as [? ?]; [congruence|done].
    + by eapply (Hc j d j' e).
Qed.

Lemma accept_first limits i (t t1 : Table) st reason :
  table_ok limits t -> di_state i ∈ [ds_claimed; ds_quarantined; ds_expired] ->
  (where_rows (conflicting i) t = ∅ /\ t1 = t /\ st = di_state i /\ reason = di_stateReason i \/
   where_rows (conflicting i) t <> ∅ /\ st = ds_quarantined /\ reason = Some conflict_reason /\
   t1 = update_rows (fun _ => same_position i)
          (fun d => with_state ds_quarantined (Some conflict_reason)
             (from_option Some (Some (di_receivedAt i)) (dl_completedAt d)) (di_receivedAt i) d) t) ->
  (forward t t1 /\ table_ok limits t1) /\ st ∈ [ds_claimed; ds_quarantined; ds_expired] /\
  (forall id e, t1 !! id = Some e -> same_position i e = true -> dl_contentSha256 e <> di_contentSha256 i ->
     st = ds_quarantined /\ dl_state e = ds_quarantined).
Proof.
  intros Hok Hst [(Hn & -> & -> & _)|(_ & -> & _ & ->)].
  - split_and!; [done..|]. intros id e He Hp Hne. exfalso.
    assert (where_rows (conflicting i) t !! id = Some e) as Hx; [|by rewrite Hn, lookup_empty in Hx].
    apply lookup_where_rows. split; [done|]. unfold conflicting. by rewrite Hp, (proj2 (String.eqb_neq _ _) Hne).
  - split; [apply update_ok; [done|]; intros; apply quarantine_change|]. split; [is_in|].
    intros id e He Hp _. split; [done|]. rewrite lookup_update_rows in He.
    destruct (t !! id) as [d|]; [|done]. cbn in He. injection He as <-.
    destruct (same_position i d) eqn:Hd; [done|congruence].
Qed.

Lemma accept_ok jsonValid limits proposedId i (t t' : Table) r :
  table_ok limits t -> t !! proposedId = None -> 0 <= di_payloadBytes i ->
  di_state i ∈ [ds_claimed; ds_quarantined; ds_expired] ->
  accept_write jsonValid limits proposedId i t = Ok (r, t') -> forward t t' /\ table_ok limits t'.
Proof.
  intros Hok Hf Hb Hst H. apply accept_write_inv in H as (t1 & st & reason & id & row & Ht1 & Hf1 & _ & -> & Hrow);
    [|done].
  destruct (accept_first _ _ _ _ _ _ Hok Hst Ht1) as ([Hfw Hok1] & Hst1 & Hc).
  enough (forward t1 (<[id := row]> t1) /\ table_ok limits (<[id := row]> t1)) as [Hx Hy]
    by (split; [by etransitivity|done]).
  destruct Hrow as [(-> & -> & Hex & Hl)|(Hn & d & Hd & _ & ->)].
  2: { apply (row_change_ok limits t1 id d); [done..|]. apply received_again_change. }
  split; [by apply forward_fresh|]. apply insert_ok; try done.
  - intros j e He Hk. specialize (Hex j e He). unfold excludes, same_content in Hex.
    injection Hk as Hk1 Hk2. rewrite Hk1, Hk2, String.eqb_refl, bool_decide_eq_true_2 in Hex by done.
    by rewrite orb_true_r in Hex.
  - intros j e He Hp Hne. apply (Hc j e He); [done|]. cbn in Hne. congruence.
  - destruct (decide (st = ds_claimed)) as [Hcl|Hcl]; [by apply Hl|].
    eapply within_limits_sub; [|  |exact (to_limits _ _ Hok1)].
    + intros j e He. by apply (to_rows _ _ Hok1 j).
    + intros j e [[<- <-]|[_ He]]%lookup_insert_Some Hp; [|by exists e].
      exfalso. unfold is_pending in Hp. cbn in Hp. by rewrite !elem_of_cons in Hst1; destruct Hst1 as [->|[->|[->|[]%not_elem_of_nil]]].
Qed.

(** ** The retained payloads *)

(** The rows [beyond_retention] leaves. *)
Fixpoint kept_rows (cutoff rank bytes : Z) (l : list (string * Delivery)) : list (string * Delivery) :=
  match l with
  | [] => []
  | (id, d) :: rest =>
      let bytes := bytes + dl_payloadBytes d in
      (if (terminal_at d <? cutoff) || (MAX_RETAINED_OBSERVER_RAW_PAYLOADS <? rank + 1) ||
          (MAX_RETAINED_OBSERVER_RAW_PAYLOAD_BYTES <? bytes) then [] else [(id, d)]) ++
      kept_rows cutoff (rank + 1) bytes rest
  end.

Definition bytes_of (l : list (string * Delivery)) : Z := foldr (fun p n => dl_payloadBytes p.2 + n) 0 l.

Lemma kept_rows_bounds cutoff rank bytes l :
  (forall p, p ∈ l -> 0 <= dl_payloadBytes p.2) ->
  kept_rows cutoff rank bytes l = [] \/
  rank + Z.of_nat (List.length (kept_rows cutoff rank bytes l)) <= MAX_RETAINED_OBSERVER_RAW_PAYLOADS /\
  bytes + bytes_of (kept_rows cutoff rank bytes l) <= MAX_RETAINED_OBSERVER_RAW_PAYLOAD_BYTES.
Proof.
  revert rank bytes. induction l as [|[id d] l IH]; intros rank bytes Hpos; [by left|].
  pose proof (Hpos (id, d) ltac:(left)) as Hd. cbn in Hd.
  destruct (IH (rank + 1) (bytes + dl_payloadBytes d)) as [Hnil|[Hn Hb]];
    [intros p Hp; apply Hpos; by right| |];
    cbn; destruct (_ || _) eqn:Hx; cbn; rewrite ?Hnil; cbn; try (by left); right; unfold bytes_of in *; breflect; split; lia.
Qed.

Lemma kept_rows_elem cutoff rank bytes l p :
  NoDup l.*1 -> p ∈ l -> p.1 ∉ beyond_retention cutoff rank bytes l -> p ∈ kept_rows cutoff rank bytes l.
Proof.
  revert rank bytes. induction l as [|[id d] l IH]; intros rank bytes Hnd Hp Hn; [done|].
  cbn in Hnd. apply NoDup_cons in Hnd as [Hid Hnd]. cbn in Hn |- *. rewrite not_elem_of_app in Hn. destruct Hn as [Hh Ht].
  apply elem_of_app. apply elem_of_cons in Hp as [->|Hp]; [left|right; by apply IH].
  destruct (_ || _); [|by left]. cbn in Hh. exfalso. apply Hh. by left.
Qed.

Lemma kept_rows_sub cutoff rank bytes l : kept_rows cutoff rank bytes l `sublist_of` l.
Proof.
  revert rank bytes. induction l as [|[id d] l IH]; intros rank bytes; [constructor|].
  cbn. destruct (_ || _); cbn; by constructor.
Qed.

Lemma sum_rows_list w (t : Table) : sum_rows w t = foldr (fun p n => w p.2 + n) 0 (map_to_list t).
Proof. unfold sum_rows. rewrite map_fold_foldr. by apply foldr_ext; [intros [id d] n|..]. Qed.

Lemma foldr_sum_perm (w : Delivery -> Z) (l k : list (string * Delivery)) :
  Permutation l k -> foldr (fun p n => w p.2 + n) 0 l = foldr (fun p n => w p.2 + n) 0 k.
Proof. induction 1; cbn; lia. Qed.

Definition within_bounds (t : Table) : Prop :=
  let retained := where_rows (fun _ => is_retained) t in
  Z.of_nat (size retained) <= MAX_RETAINED_OBSERVER_RAW_PAYLOADS /\
  sum_rows dl_payloadBytes retained <= MAX_RETAINED_OBSERVER_RAW_PAYLOAD_BYTES.

(** The rows of a table whose retained rows are among those of a list. *)
Lemma retained_in_list (t : Table) (l : list (string * Delivery)) :
  NoDup l.*1 -> (forall p, p ∈ l -> 0 <= dl_payloadBytes p.2) ->
  (forall id d, t !! id = Some d -> is_retained d = true -> (id, d) ∈ l) ->
  Z.of_nat (size (where_rows (fun _ => is_retained) t)) <= Z.of_nat (List.length l) /\
  sum_rows dl_payloadBytes (where_rows (fun _ => is_retained) t) <= bytes_of l.
Proof.
  intros Hnd Hpos Hin. set (m := list_to_map l : Table).
  assert (Hm : forall id d, t !! id = Some d -> is_retained d = true -> m !! id = Some d)
    by (intros id d Hd Hr; apply elem_of_list_to_map_1; auto).
  assert (Hperm : Permutation (map_to_list m) l) by by apply map_to_list_to_map.
  assert (Hsub : forall w : Delivery -> Z, (forall p, p ∈ l -> 0 <= w p.2) ->
    sum_rows w (where_rows (fun _ => is_retained) t) <= foldr (fun p n => w p.2 + n) 0 l).
  { intros w Hw. rewrite <- (foldr_sum_perm w _ _ Hperm), <- sum_rows_list. apply sum_rows_sub.
    - intros id d Hd. apply (Hw (id, d)). rewrite <- Hperm. by apply elem_of_map_to_list.
    - intros id d (Hd & Hr)%(lookup_where_rows (fun _ => is_retained)). exists d. split; [by apply Hm|done]. }
  split; [|by apply Hsub].
  pose proof (Hsub (fun _ => 1) ltac:(intros; lia)) as H. rewrite sum_rows_const in H.
  assert (foldr (fun _ n => 1 + n) 0 l = Z.of_nat (List.length l)) as Hl by (clear; induction l; cbn; lia).
  lia.
Qed.

(** After pruning the bounds hold. *)
Lemma prune_bounds observedAt cutoff (t : Table) :
  (forall id d, t !! id = Some d -> 0 <= dl_payloadBytes d) ->
  within_bounds (update_rows (doomed cutoff t) (pruned observedAt) t).
Proof.
  intros Hpos. set (l := select_rows retention_order (fun _ => is_retained) t).
  assert (Hnd : NoDup l.*1).
  { unfold l, select_rows. rewrite js_sort_perm. apply NoDup_fst_map_to_list. }
  assert (Hl : forall p, p ∈ l -> 0 <= dl_payloadBytes p.2).
  { intros [id d] (Hd & _)%(select_rows_elem retention_order (fun _ => is_retained)). by apply (Hpos id). }
  pose proof (kept_rows_sub cutoff 0 0 l) as Hsub.
  destruct (retained_in_list (update_rows (doomed cutoff t) (pruned observedAt) t) (kept_rows cutoff 0 0 l)) as [Hn Hb].
  - eapply sublist_NoDup; [exact Hnd|by apply fmap_sublist].
  - intros p Hp. apply Hl. by eapply elem_of_sublist.
  - intros id d Hd Hr. rewrite lookup_update_rows in Hd. destruct (t !! id) as [e|] eqn:He; [|done]. cbn in Hd.
    injection Hd as <-. destruct (doomed cutoff t id e) eqn:Hx.
    { unfold is_retained in Hr. cbn in Hr. by rewrite andb_false_r in Hr. }
    apply kept_rows_elem; [done|by apply select_rows_elem|]. intros Hin. unfold doomed in Hx.
    apply not_true_iff_false in Hx. apply Hx, existsb_exists. exists id. split; [|apply String.eqb_refl].
    by apply list_elem_of_In.
  - unfold within_bounds. destruct (kept_rows_bounds cutoff 0 0 l Hl) as [Hnil|[Hk Hy]]; [|lia].
    rewrite Hnil in Hn, Hb. cbn in Hn, Hb. unfold MAX_RETAINED_OBSERVER_RAW_PAYLOADS,
      MAX_RETAINED_OBSERVER_RAW_PAYLOAD_BYTES. lia.
Qed.

(** ** Commits of an operation

    A relation that every commit of an operation stands in to the store before it. *)

Definition commits {A} (R : relation Inbox) (m : store A) (s : Inbox) : Prop := forall s', s' ∈ (m s).2 -> R s s'.

Section Commits.

Context (R : relation Inbox) `{!PreOrder R}.

Lemma after_commits {A} (m : store A) s : commits R m s -> R s (after s (m s).2).
Proof. intros H. unfold after. destruct (m s).2 as [|s' l] eqn:Hl; [done|]. apply H. rewrite Hl. by left. Qed.

Lemma ret_commits {A} (a : A) s : commits R (mret a) s.
Proof using Type. intros s' []%not_elem_of_nil. Qed.

Lemma demand_commits b e s : commits R (demand_inbox b e) s.
Proof using Type. intros s' H. destruct b; by apply not_elem_of_nil in H. Qed.

Lemma bind_commits {A B} (m : store A) (k : A -> store B) s :
  (forall a, (m s).1 = Ok a -> commits R (k a) (after s (m s).2)) -> commits R m s -> commits R (m ≫= k) s.
Proof.
  intros Hk Hm s' H. unfold mbind, store_bind in H. pose proof (after_commits m s Hm) as Ha.
  unfold commits in Hm. destruct (m s) as [[a|e] l]; cbn in *; [|by apply Hm].
  specialize (Hk a eq_refl). unfold commits in Hk. destruct (k a (after s l)) as [r l'].
  cbn in *. apply elem_of_app in H as [H|H]; [|by apply Hm]. etransitivity; [exact Ha|by apply Hk].
Qed.

Lemma mutate_commits {T} affected (write : Table -> result InboxError (T * Table)) changed s :
  (forall s' r, write (ib_table s) = Ok (r, ib_table s') -> s' ∈ (mutate affected write changed s).2 -> R s s') ->
  commits R (mutate affected write changed) s.
Proof using Type.
  intros H s' Hs'. unfold mutate in Hs', H. destruct (write (ib_table s)) as [[r t']|] eqn:Hw; [|by apply not_elem_of_nil in Hs'].
  apply (H s' r); [|done]. by apply list_elem_of_singleton in Hs' as ->.
Qed.

End Commits.

(** The commits of a sequence: those of what follows, then those of the first part. *)
Ltac commits_bind := apply bind_commits; [apply _| |].

(** ** Operations *)

Section Operations.

Context (parseJson : string -> option Wire) (jsonValid : string -> bool) (limits : InboxLimits).

(** What a commit may do to the store. *)
Record progress (s s' : Inbox) : Prop := {
  pr_exact : exact s -> exact s';
  pr_table : table_ok limits (ib_table s) ->
    forward (ib_table s) (ib_table s') /\ table_ok limits (ib_table s');
}.

#[global] Instance progress_preorder : PreOrder progress.
Proof.
  split; [by split|]. intros a b c [He Ht] [He' Ht']. split; [auto|]. intros Ha.
  destruct (Ht Ha) as [Hf Hb]. destruct (Ht' Hb) as [Hf' Hc]. split; [by etransitivity|done].
Qed.

Lemma mutate_progress {T} affected (write : Table -> result InboxError (T * Table)) changed s :
  measures affected write changed (ib_table s) ->
  (forall r t', write (ib_table s) = Ok (r, t') -> table_ok limits (ib_table s) ->
     forward (ib_table s) t' /\ table_ok limits t') ->
  commits progress (mutate affected write changed) s.
Proof.
  intros Hm Hw. apply mutate_commits. intros s' r Hr Hs'. split; [by intros; eapply mutate_exact|by apply (Hw r)].
Qed.

Lemma prune_progress observedAt s : commits progress (prunePayloads observedAt) s.
Proof.
  unfold commits, prunePayloads. destruct (within_retention _ _); [intros s' []%not_elem_of_nil|].
  apply mutate_progress; [apply prune_measures|]. intros r t' [= <- <-] Hok. apply update_ok; [done|].
  intros id d Hd Hx. eapply pruned_change, doomed_retained; [exact Hd|exact Hx].
Qed.

(** After pruning in an orderly table the retained payloads are within their bounds. *)
Lemma prune_within observedAt s :
  table_ok limits (ib_table s) -> within_bounds (ib_table (after s (prunePayloads observedAt s).2)).
Proof.
  intros Hok. unfold prunePayloads. destruct (within_retention _ _) eqn:Hw.
  - unfold within_retention in Hw. cbn. unfold within_bounds. breflect. by split.
  - apply prune_bounds. intros id d Hd. by apply (to_rows _ _ Hok id).
Qed.

Definition fresh_id (proposedId : string) (s : Inbox) : Prop := ib_table s !! proposedId = None.

Lemma accept_progress proposedId i s :
  fresh_id proposedId s -> commits progress (acceptDelivery parseJson jsonValid proposedId i limits) s.
Proof.
  intros Hf. unfold acceptDelivery. destruct (observerDeliveryInputSchema parseJson i) eqn:Hi.
  2: { intros s' H. by apply not_elem_of_nil in H. }
  assert (Hb : 0 <= di_payloadBytes i).
  { unfold observerDeliveryInputSchema, safe_nonnegative in Hi. breflect. lia. }
  assert (Hst : di_state i ∈ [ds_claimed; ds_quarantined; ds_expired])
    by (unfold observerDeliveryInputSchema in Hi; by breflect).
  commits_bind; [|apply demand_commits]. intros _ _.
  assert (Hafter : after s (demand_inbox (true && limitsSchema limits) invalid_input s).2 = s)
    by by destruct (true && limitsSchema limits).
  rewrite Hafter. commits_bind.
  - intros [[id st] attempts] _. commits_bind; [intros; apply ret_commits|].
    case_bool_decide; [apply ret_commits|apply prune_progress].
  - apply mutate_progress; [by apply accept_measures|]. intros r t' Hr Hok. by eapply accept_ok.
Qed.

Lemma recover_progress recoveredAt s : commits progress (recoverDeliveries recoveredAt) s.
Proof.
  apply mutate_progress; [apply recover_measures|]. intros r t' [= <- <-] Hok. apply update_ok; [done|].
  intros id d _ Hp. apply requeued_change. unfold is_processing in Hp. by breflect.
Qed.

Lemma claim_progress claimedAt s : commits progress (claimNextDelivery claimedAt) s.
Proof.
  apply mutate_progress; [apply claim_measures|]. intros r t' H Hok.
  destruct (head _) as [[id d]|] eqn:Hh; [|by injection H as <- <-]. injection H as <- <-.
  apply head_selected in Hh as [Hid Hdue]. unfold is_due in Hdue. breflect.
  eapply row_change_ok; [done..|by apply taken_change].
Qed.

Lemma settle_progress id f affected s :
  measures affected (settle_processing id f) (fun _ => true) (ib_table s) ->
  (forall d, dl_state d = ds_processing -> sound_change d (f d)) ->
  commits progress (mutate affected (settle_processing id f) (fun _ => true)) s.
Proof.
  intros Hm Hf. apply mutate_progress; [done|]. intros r t' (d & Hd & Hs & ->)%settle_processing_inv Hok.
  eapply row_change_ok; [done..|by apply Hf].
Qed.

Lemma finish_progress id st reason completedAt s : commits progress (finishDelivery id st reason completedAt) s.
Proof.
  unfold finishDelivery. case_bool_decide as Hst; [|intros s' H; by apply not_elem_of_nil in H].
  commits_bind; [|apply demand_commits]. intros _ _.
  commits_bind; [intros; commits_bind; [intros; apply ret_commits|apply prune_progress]|].
  apply settle_progress; [apply finish_measures|]. intros d Hd. apply with_state_change.
  - rewrite Hd. by constructor.
  - by apply bool_decide_eq_true_2.
  - by rewrite Hd.
Qed.

Lemma retry_progress id reason retriedAt nextAttemptAt s :
  commits progress (retryDelivery id reason retriedAt nextAttemptAt) s.
Proof.
  unfold retryDelivery. commits_bind; [|apply demand_commits]. intros _ _.
  commits_bind; [|apply demand_commits]. intros _ _.
  apply settle_progress; [apply retry_measures|]. intros d. apply requeued_change.
Qed.

End Operations.
