(* ===== verification/ObserverProcess.v ===== *)
(** * The observer: callback server, verification and the inbox processor

    apps/sidekick/src/observer-server.ts (the handler of the callbacks), observer-inbox.ts (the
    verification of a delivery against the local node and [ObserverInboxProcessor]) and the way
    apps/sidekick/src/main.ts starts them.  [JSON.parse], SHA-256, the texts of zod issues and of
    errors and SQLite's [json_valid] are parameters.  A verification only reads, so its answers
    are a record.  Each stage of the drain loop is an action of its own, and callbacks, stops and
    restarts may come between any two of them. *)

From S2P Require Import Prelude Text CanonicalJson OperationPlan SweepPlan Recipe LiveReader.
From S2P Require Import AnchorCapture ObserverInbox.

Open Scope string_scope.
Open Scope list_scope.
Open Scope Z_scope.

(** ** Claims of a callback *)

(** [canonicalHash] *)
Definition canonicalHash (w : Wire) : option string :=
  match w with wire_string s => if prefixed_hex_i 64 s then Some (toLowerCase s) else None | _ => None end.

Definition blockHeightSchema (w : Wire) : option Z :=
  match w with wire_number (num_int n) => if safe_nonnegative n then Some n else None | _ => None end.

Definition arraySchema (w : Wire) : option (list Wire) :=
  match w with wire_array l => Some l | _ => None end.

Definition wire_entries (w : Wire) : option (list (string * Wire)) :=
  match w with wire_object entries => Some entries | _ => None end.

Definition no_claim : ChainClaim :=
  {| cc_blockHeight := None; cc_blockHash := None; cc_indexBlockHash := None; cc_burnBlockHeight := None;
     cc_burnBlockHash := None |}.

(** [newBlockClaimSchema] and the claim made of it. *)
Definition newBlockClaim (payload : Wire) : option ChainClaim :=
  entries ← wire_entries payload;
  blockHash ← entry "block_hash" entries ≫= canonicalHash;
  height ← entry "block_height" entries ≫= blockHeightSchema;
  indexHash ← entry "index_block_hash" entries ≫= canonicalHash;
  _ ← entry "events" entries ≫= arraySchema;
  _ ← entry "transactions" entries ≫= arraySchema;
  Some {| cc_blockHeight := Some height; cc_blockHash := Some blockHash; cc_indexBlockHash := Some indexHash;
          cc_burnBlockHeight := None; cc_burnBlockHash := None |}.

(** [newBurnBlockClaimSchema] *)
Definition newBurnBlockClaim (payload : Wire) : option ChainClaim :=
  entries ← wire_entries payload;
  hash ← entry "burn_block_hash" entries ≫= canonicalHash;
  height ← entry "burn_block_height" entries ≫= blockHeightSchema;
  _ ← entry "consensus_hash" entries ≫= string_schema nonempty;
  _ ← entry "parent_burn_block_hash" entries ≫= canonicalHash;
  Some {| cc_blockHeight := None; cc_blockHash := None; cc_indexBlockHash := None;
          cc_burnBlockHeight := Some height; cc_burnBlockHash := Some hash |}.

(** ** Reads of the node *)

(** [UpstreamHttpError] with its status, or another error. *)
Inductive NodeReadError := upstream_http (status : Z) (message : string) | read_error (message : string).

Definition readMessage (e : NodeReadError) : string :=
  match e with upstream_http _ m | read_error m => m end.

Abbreviation node_read A := (result NodeReadError A).

(** The answers of one verification; a [Promise.all] is one answer.  A block is asked for by its ID,
    or by its height below a tip. *)
Record VerifyReads := {
  vr_before : node_read (NodeInfo * NodeTenureInfo);
  vr_claimedBlock : string -> node_read (list Z);
  vr_canonicalBlock : Z -> string -> node_read (list Z);
  vr_after : node_read (NodeInfo * NodeTenureInfo);
  vr_info : node_read NodeInfo;
}.

Inductive Outcome := finish_as (state : DeliveryState) (reason : string) | retry_later (reason : string).

Definition MAX_HEADER_PROOF_DEPTH : Z := 2100.
Definition MAX_FUTURE_BLOCK_DISTANCE : Z := 12.
Definition DEFAULT_RETRY_INTERVAL_MS : Z := 15000.
Definition DEFAULT_MAX_BATCH_SIZE : Z := 100.

Definition sameCanonicalTip (left right : NodeInfo * NodeTenureInfo) : bool :=
  bool_decide (ni_stacks_tip left.1 <> None) && bool_decide (ni_stacks_tip left.1 = ni_stacks_tip right.1) &&
  (ni_stacks_tip_height left.1 =? ni_stacks_tip_height right.1) &&
  (ti_tip_height left.2 =? ti_tip_height right.2) &&
  String.eqb (ti_tip_block_id left.2) (ti_tip_block_id right.2).

Definition verified_reason : string :=
  "canonical-stacks-index-block-verified;callback-block-hash-and-events-remain-untrusted".

(** The part after the tip was read: [height] is within the proof window. *)
Definition compareBlocks (reads : VerifyReads) (height : Z) (indexHash : string) (before : NodeInfo * NodeTenureInfo)
    : node_read Outcome :=
  match vr_claimedBlock reads indexHash with
  | Err (upstream_http status m) =>
      if status =? 404
      then Ok (finish_as ds_quarantined "callback-index-block-is-not-known-to-local-node")
      else Err (upstream_http status m)
  | Err e => Err e
  | Ok claimed =>
      canonical ← vr_canonicalBlock reads height (ti_tip_block_id before.2);
      fence ← vr_after reads;
      Ok (if negb (sameCanonicalTip before fence)
          then retry_later "canonical-node-tip-changed-during-proof"
          else if negb (bool_decide (claimed = canonical))
          then finish_as ds_quarantined "callback-index-block-does-not-match-canonical-node-block-at-height"
          else finish_as ds_verified verified_reason)
  end.

Definition verifyStacksBlockDelivery (claim : ChainClaim) (reads : VerifyReads) : node_read Outcome :=
  match cc_blockHeight claim, cc_blockHash claim, cc_indexBlockHash claim with
  | Some height, Some _, Some indexHash =>
      before ← vr_before reads;
      let tip := ti_tip_height before.2 in
      if negb (match ni_stacks_tip before.1 with Some t => nonempty t | None => false end) then Ok (retry_later "node-tip-id-unavailable")
      else if negb (ni_stacks_tip_height before.1 =? tip) then Ok (retry_later "node-tip-sources-disagree")
      else if tip + MAX_FUTURE_BLOCK_DISTANCE <? height
      then Ok (finish_as ds_quarantined "claimed-stacks-height-unreasonably-ahead-of-node")
      else if tip <? height then Ok (retry_later "node-has-not-reached-claimed-stacks-height")
      else if MAX_HEADER_PROOF_DEPTH <=? tip - height
      then Ok (finish_as ds_expired "outside-local-header-proof-window")
      else compareBlocks reads height indexHash before
  | _, _, _ => Ok (finish_as ds_quarantined "missing-stacks-block-claim")
  end.

Definition verifyBurnBlockDelivery (claim : ChainClaim) (reads : VerifyReads) : node_read Outcome :=
  match cc_burnBlockHeight claim, cc_burnBlockHash claim with
  | Some height, Some _ =>
      info ← vr_info reads;
      Ok (if ni_burn_block_height info <? height then retry_later "node-has-not-reached-claimed-burn-height"
          else finish_as ds_expired "trigger-consumed;burn-block-hash-not-locally-verifiable")
  | _, _ => Ok (finish_as ds_quarantined "missing-burn-block-claim")
  end.

Definition verifyObserverDelivery (d : Delivery) (reads : VerifyReads) : node_read Outcome :=
  match dl_endpointKind d with
  | ep_new_block => verifyStacksBlockDelivery (dl_claim d) reads
  | ep_new_burn_block => verifyBurnBlockDelivery (dl_claim d) reads
  | ep_attachments => Ok (finish_as ds_expired "implicit-attachment-callback-not-used")
  end.

(** ** The process *)

Definition slice500 (s : string) : string := String.substring 0 500 s.

Definition safeErrorReason (message : string) : string := slice500 ("node-verification-error:" ++ message).

(** What the server remembers of a full inbox. *)
Record Overflow := { of_callbacks : Z; of_lastReportAt : option Z; of_reportRecovery : bool }.

Definition OVERFLOW_REPORT_INTERVAL_MS : Z := 60000.

(** Where the drain of the processor is: [processed] deliveries are done, [attempts] of the batch
    taken.  [ph_verifying] waits for the node. *)
Inductive Phase :=
  | ph_idle
  | ph_loop (processed : Z)
  | ph_batch (processed attempts : Z)
  | ph_verifying (processed attempts : Z) (id : string) (d : Delivery)
  | ph_yielding (processed : Z).

Record Observer := {
  os_inbox : Inbox;
  os_started : bool;
  os_drainRequested : bool;
  os_phase : Phase;
  os_overflow : Overflow;
}.

Definition fresh_observer (s : Inbox) : Observer :=
  {| os_inbox := s; os_started := false; os_drainRequested := false; os_phase := ph_idle;
     os_overflow := {| of_callbacks := 0; of_lastReportAt := None; of_reportRecovery := false |} |}.

Definition set_inbox (s : Inbox) (o : Observer) : Observer :=
  {| os_inbox := s; os_started := os_started o; os_drainRequested := os_drainRequested o;
     os_phase := os_phase o; os_overflow := os_overflow o |}.
Definition set_phase (p : Phase) (o : Observer) : Observer :=
  {| os_inbox := os_inbox o; os_started := os_started o; os_drainRequested := os_drainRequested o;
     os_phase := p; os_overflow := os_overflow o |}.
Definition set_drain (b : bool) (o : Observer) : Observer :=
  {| os_inbox := os_inbox o; os_started := os_started o; os_drainRequested := b;
     os_phase := os_phase o; os_overflow := os_overflow o |}.
Definition set_started (b : bool) (o : Observer) : Observer :=
  {| os_inbox := os_inbox o; os_started := b; os_drainRequested := os_drainRequested o;
     os_phase := os_phase o; os_overflow := os_overflow o |}.
Definition set_overflow (f : Overflow) (o : Observer) : Observer :=
  {| os_inbox := os_inbox o; os_started := os_started o; os_drainRequested := os_drainRequested o;
     os_phase := os_phase o; os_overflow := f |}.

Definition catch_inbox {A} (m : store A) (handler : InboxError -> store A) : store A := fun s =>
  match m s with
  | (Ok a, l) => (Ok a, l)
  | (Err e, l) => let '(r, l') := handler e (after s l) in (r, l' ++ l)
  end.

Section Process.

Context (parseJson : string -> option Wire) (jsonValid : string -> bool) (sha256 : list Z -> string)
        (issueText : EndpointKind -> Wire -> string) (messageOf : InboxError -> string)
        (limits : InboxLimits) (retryIntervalMs maxBatchSize : Z).

(** ** The callback server *)

(** [invalidPayloadReason] *)
Definition invalidPayloadReason (endpointKind : EndpointKind) (payload : Wire) : string :=
  slice500 ("invalid-payload-shape:" ++ issueText endpointKind payload).

(** [deliveryClaim]: the state, its reason and the claim. *)
Definition deliveryClaim (endpointKind : EndpointKind) (payload : Wire)
    : DeliveryState * option string * ChainClaim :=
  let invalid := (ds_quarantined, Some (invalidPayloadReason endpointKind payload), no_claim) in
  match endpointKind with
  | ep_new_block =>
      match newBlockClaim payload with Some c => (ds_claimed, None, c) | None => invalid end
  | ep_new_burn_block =>
      match newBurnBlockClaim payload with Some c => (ds_claimed, None, c) | None => invalid end
  | ep_attachments =>
      match arraySchema payload with
      | Some _ => (ds_expired, Some "implicit-attachment-callback-not-used", no_claim)
      | None => invalid
      end
  end.

(** A request: its body when it is text, and its content type. *)
Record Callback := { cb_body : option string; cb_contentType : option string }.

Inductive CallbackReply :=
  | reply_unsupported
  | reply_malformed
  | reply_accepted (a : AcceptedDelivery)
  | reply_inbox_full (catchUp : bool)
  | reply_failed (e : InboxError).

Definition delivery_input (endpointKind : EndpointKind) (body : string) (payload : Wire) (now : Z)
    : DeliveryInput :=
  let '(st, reason, claim) := deliveryClaim endpointKind payload in
  {| di_endpointKind := endpointKind; di_contentSha256 := sha256 (text_bytes body);
     di_rawPayloadJson := body; di_payloadBytes := Z.of_nat (String.length body); di_state := st;
     di_stateReason := reason; di_claim := claim; di_receivedAt := now |}.

(** A full inbox: whether this one is reported, and asks the reconciliation to catch up. *)
Definition note_overflow (now : Z) (f : Overflow) : bool * Overflow :=
  let reported := match of_lastReportAt f with
                  | None => true
                  | Some at_ => OVERFLOW_REPORT_INTERVAL_MS <=? now - at_
                  end in
  (reported, {| of_callbacks := of_callbacks f + 1;
                of_lastReportAt := if reported then Some now else of_lastReportAt f;
                of_reportRecovery := reported || of_reportRecovery f |}).

Definition note_accepted (a : AcceptedDelivery) (f : Overflow) : Overflow :=
  {| of_callbacks := of_callbacks f; of_lastReportAt := of_lastReportAt f;
     of_reportRecovery := of_reportRecovery f &&
       negb (negb (ad_duplicate a) && bool_decide (ad_state a = ds_claimed)) |}.

(** The body of a request that is JSON text. *)
Definition callback_payload (c : Callback) : CallbackReply + (string * Wire) :=
  match cb_body c with
  | Some body =>
      if match cb_contentType c with
         | Some t => startsWith (toLowerCase t) "application/json"
         | None => false
         end
      then match parseJson body with Some payload => inr (body, payload) | None => inl reply_malformed end
      else inl reply_unsupported
  | None => inl reply_unsupported
  end.

(** [accept]: the reply, the observer and the commits on the way. *)
Definition accept_callback (endpointKind : EndpointKind) (c : Callback) (proposedId : string) (now : Z)
    (o : Observer) : CallbackReply * Observer * list Inbox :=
  match callback_payload c with
  | inl reply => (reply, o, [])
  | inr (body, payload) =>
      let '(r, l) := acceptDelivery parseJson jsonValid proposedId (delivery_input endpointKind body payload now)
                       limits (os_inbox o) in
      let o := set_inbox (after (os_inbox o) l) o in
      match r with
      | Ok a => (reply_accepted a, set_overflow (note_accepted a (os_overflow o)) o, l)
      | Err inbox_capacity =>
          let '(reported, f) := note_overflow now (os_overflow o) in
          (reply_inbox_full reported, set_overflow f o, l)
      | Err e => (reply_failed e, o, l)
      end
  end.

(** ** The processor *)

(** [#returnToQueue]: whether the targeted update failed. *)
Definition returnToQueue (id reason : string) (retriedAt : Z) : store bool :=
  catch_inbox (_ ← retryDelivery id reason retriedAt (retriedAt + retryIntervalMs); mret false)
    (fun _ => catch_inbox (_ ← recoverDeliveries retriedAt; mret true) (fun _ => mret true)).

(** What the drain does after a verification: go on with the batch, with one more delivery done or
    not, or return. *)
Inductive Next := goes_on_batch (done_ : bool) | returns.

Definition settle_verified (id : string) (outcome : node_read Outcome) (completedAt retriedAt : Z) : store Next :=
  match outcome with
  | Ok (retry_later reason) =>
      failed ← returnToQueue id reason completedAt;
      mret (if (failed : bool) then returns else goes_on_batch false)
  | Ok (finish_as st reason) =>
      catch_inbox (_ ← finishDelivery id st reason completedAt; mret (goes_on_batch true))
        (fun e => _ ← returnToQueue id (safeErrorReason (messageOf e)) retriedAt; mret returns)
  | Err e => _ ← returnToQueue id (safeErrorReason (readMessage e)) retriedAt; mret returns
  end.

(** [processAvailable] begins a drain when none is active. *)
Definition begin_drain (o : Observer) : Observer :=
  match os_phase o with ph_idle => set_phase (ph_loop 0) o | _ => o end.

Definition notify (o : Observer) : Observer :=
  if os_started o then begin_drain (set_drain true o) else o.

(** The drain returned; a request that came meanwhile begins the next one. *)
Definition end_drain (o : Observer) : Observer :=
  let o := set_phase ph_idle o in if os_started o && os_drainRequested o then notify o else o.

Inductive Action :=
  | act_callback (endpointKind : EndpointKind) (c : Callback) (proposedId : string) (now : Z)
  | act_status
  | act_start (now : Z)
  | act_notify
  | act_stop
  | act_loop (canProcess : bool)
  | act_claim (now : Z)
  | act_answered (reads : VerifyReads) (completedAt retriedAt : Z)
  | act_yielded.

(** Nothing more to claim in this batch, or the batch is full. *)
Definition end_batch (processed attempts : Z) (o : Observer) : Observer :=
  if attempts =? maxBatchSize then set_phase (ph_yielding processed) (set_drain true o)
  else set_phase (ph_loop processed) o.

(** One action: the observer after it, and the commits on the way, the newest first. *)
Definition perform (a : Action) (o : Observer) : Observer * list Inbox :=
  match a with
  | act_callback endpointKind c proposedId now =>
      let '(_, o, l) := accept_callback endpointKind c proposedId now o in (o, l)
  | act_status => (set_inbox (status (os_inbox o)).2 o, [])
  | act_start now =>
      if os_started o then (o, [])
      else
        let l := (recoverDeliveries now (os_inbox o)).2 in
        (notify (set_inbox (after (os_inbox o) l) (set_started true o)), l)
  | act_notify => (notify o, [])
  | act_stop => (set_drain false (set_started false o), [])
  | act_loop canProcess =>
      match os_phase o with
      | ph_loop processed =>
          if os_started o && os_drainRequested o
          then (if canProcess then set_phase (ph_batch processed 0) (set_drain false o)
                else end_drain (set_drain false o), [])
          else (end_drain o, [])
      | _ => (o, [])
      end
  | act_claim now =>
      match os_phase o with
      | ph_batch processed attempts =>
          if (attempts <? maxBatchSize) && os_started o
          then
            let '(r, l) := claimNextDelivery now (os_inbox o) in
            let o := set_inbox (after (os_inbox o) l) o in
            match r with
            | Ok (Some (id, d)) => (set_phase (ph_verifying processed (attempts + 1) id d) o, l)
            | Ok None => (end_batch processed attempts o, l)
            | Err _ => (end_drain o, l)
            end
          else (end_batch processed attempts o, [])
      | _ => (o, [])
      end
  | act_answered reads completedAt retriedAt =>
      match os_phase o with
      | ph_verifying processed attempts id d =>
          let '(r, l) := settle_verified id (verifyObserverDelivery d reads) completedAt retriedAt (os_inbox o) in
          let o := set_inbox (after (os_inbox o) l) o in
          match r with
          | Ok (goes_on_batch done_) =>
              (set_phase (ph_batch (if done_ then processed + 1 else processed) attempts) o, l)
          | _ => (end_drain (set_drain false o), l)
          end
      | _ => (o, [])
      end
  | act_yielded =>
      match os_phase o with ph_yielding processed => (set_phase (ph_loop processed) o, []) | _ => (o, []) end
  end.

(** The process stops after a commit, or before the first one, and starts again: main.ts prunes
    before it listens. *)
Definition restarted (s : Inbox) (dataVersion now : Z) : Observer :=
  let s := opened (ib_table s) dataVersion in
  fresh_observer (after s (prunePayloads now s).2).

(** What the local node shows, and that [randomUUID] gives new IDs. *)
Context (Shown : Delivery -> VerifyReads -> Prop).

Definition possible (a : Action) (o : Observer) : Prop :=
  match a with
  | act_callback _ _ proposedId _ => ib_table (os_inbox o) !! proposedId = None
  | act_answered reads _ _ =>
      match os_phase o with ph_verifying _ _ _ d => Shown d reads | _ => False end
  | _ => True
  end.

Inductive observer_step : Observer -> Observer -> Prop :=
  | step_performs a o : possible a o -> observer_step o (perform a o).1
  | step_restarts a o s dataVersion now :
      possible a o -> s ∈ os_inbox o :: (perform a o).2 -> observer_step o (restarted s dataVersion now).

Definition initial_observer (dataVersion : Z) : Observer := fresh_observer (opened ∅ dataVersion).

Definition observer_reachable (o : Observer) : Prop :=
  exists dataVersion, rtc observer_step (initial_observer dataVersion) o.

End Process.
