(* ===== verification/ObserverCorrect.v ===== *)
(** * The observer: what its deliveries stand for

    [ObserverProcess] as one process with callbacks, stops and restarts: what was acknowledged is
    kept, what is called verified was shown by the local node, nothing stays stuck in processing,
    and a drain ends with the queue served. *)

From S2P Require Import Prelude Text CanonicalJson OperationPlan SweepPlan Recipe LiveReader.
From S2P Require Import AnchorCapture ObserverInbox ObserverInboxCorrect ObserverProcess.

Open Scope string_scope.
Open Scope list_scope.
Open Scope Z_scope.

(** ** Verified and processing rows have a reason

    Every row an operation leaves verified or in processing was so before, except where [Q]
    allows. *)

Definition noted (st : DeliveryState) : bool := bool_decide (st ∈ [ds_verified; ds_processing]).

Definition quiet_but (Q : string -> DeliveryState -> Prop) (s s' : Inbox) : Prop :=
  forall id e', ib_table s' !! id = Some e' -> noted (dl_state e') = true ->
    Q id (dl_state e') \/
    exists e, ib_table s !! id = Some e /\ dl_state e = dl_state e' /\ about_same e e'.

#[global] Instance quiet_preorder Q : PreOrder (quiet_but Q).
Proof.
  split.
  - intros s id e He _. right. exists e. by split_and!.
  - intros a b c Hab Hbc id e He Hn. destruct (Hbc id e He Hn) as [|(f & Hf & Hs & Ha)]; [by left|].
    destruct (Hab id f Hf) as [Hq|(g & Hg & Hs' & Ha')]; [congruence|left; congruence|].
    right. exists g. split_and!; [done|congruence|]. destruct Ha, Ha'. split; congruence.
Qed.

Definition quiet_row (d d' : Delivery) : Prop :=
  about_same d d' /\ (noted (dl_state d') = true -> dl_state d = dl_state d').

Lemma quiet_row_refl d : quiet_row d d.
Proof. by split. Qed.

Lemma quiet_rows Q s s' :
  (forall id e', ib_table s' !! id = Some e' ->
     match ib_table s !! id with
     | Some e => quiet_row e e' \/ Q id (dl_state e')
     | None => noted (dl_state e') = false
     end) -> quiet_but Q s s'.
Proof.
  intros H id e' He' Hn. specialize (H id e' He'). destruct (ib_table s !! id) as [e|]; [|congruence].
  destruct H as [[Ha Hs]|]; [|by left]. right. exists e. split_and!; auto.
Qed.

Lemma quiet_update Q s s' P f :
  ib_table s' = update_rows P f (ib_table s) ->
  (forall id d, ib_table s !! id = Some d -> P id d = true -> quiet_row d (f d)) -> quiet_but Q s s'.
Proof.
  intros Ht H. apply quiet_rows. intros id e' He'. rewrite Ht, lookup_update_rows in He'.
  destruct (ib_table s !! id) as [e|] eqn:He; [|done]. injection He' as <-. left.
  destruct (P id e) eqn:Hp; [by apply (H id)|apply quiet_row_refl].
Qed.

Lemma quiet_insert Q s s' id d d' :
  ib_table s' = <[id := d']> (ib_table s) -> ib_table s !! id = Some d ->
  quiet_row d d' \/ Q id (dl_state d') -> quiet_but Q s s'.
Proof.
  intros Ht Hd H. apply quiet_rows. intros j e' He'. rewrite Ht in He'. destruct (decide (j = id)) as [->|Hn].
  - rewrite lookup_insert_eq in He'. injection He' as <-. by rewrite Hd.
  - rewrite lookup_insert_ne in He' by done. rewrite He'. left. apply quiet_row_refl.
Qed.

Lemma prune_quiet Q observedAt s : commits (quiet_but Q) (prunePayloads observedAt) s.
Proof.
  unfold commits, prunePayloads. destruct (within_retention _ _); [intros s' []%not_elem_of_nil|].
  apply mutate_commits. intros s' r [= _ Ht] _. eapply quiet_update; [by symmetry in Ht|]. intros id d _ _. by split.
Qed.

Lemma recover_quiet Q recoveredAt s : commits (quiet_but Q) (recoverDeliveries recoveredAt) s.
Proof. apply mutate_commits. intros s' r [= _ Ht] _. eapply quiet_update; [by symmetry in Ht|]. intros id d _ _. by split. Qed.

Lemma accept_quiet Q parseJson jsonValid limits proposedId i s :
  ib_table s !! proposedId = None ->
  commits (quiet_but Q) (acceptDelivery parseJson jsonValid proposedId i limits) s.
Proof.
  intros Hf. unfold acceptDelivery. destruct (observerDeliveryInputSchema parseJson i) eqn:Hi.
  2: { intros s' H. by apply not_elem_of_nil in H. }
  assert (Hst : di_state i ∈ [ds_claimed; ds_quarantined; ds_expired])
    by (unfold observerDeliveryInputSchema in Hi; by breflect).
  commits_bind; [|apply demand_commits]. intros _ _.
  assert (after s (demand_inbox (true && limitsSchema limits) invalid_input s).2 = s) as ->
    by by destruct (true && limitsSchema limits).
  commits_bind.
  - intros [[id st] attempts] _. commits_bind; [intros; apply ret_commits|].
    case_bool_decide; [apply ret_commits|apply prune_quiet].
  - apply mutate_commits. intros s' r Hr _.
    apply accept_write_inv in Hr as (t1 & st & reason & id & row & Ht1 & Hf1 & _ & Ht & Hrow); [|done].
    assert (Hback : forall j e, t1 !! j = Some e -> exists d, ib_table s !! j = Some d /\ quiet_row d e).
    { intros j e He. destruct Ht1 as [(_ & -> & _)|(_ & _ & _ & ->)]; [exists e; split; [done|apply quiet_row_refl]|].
      rewrite lookup_update_rows in He. destruct (ib_table s !! j) as [d|]; [|done]. injection He as <-.
      exists d. split; [done|]. destruct (same_position i d); [by split|apply quiet_row_refl]. }
    assert (Hnew : noted st = false).
    { destruct Ht1 as [(_ & _ & -> & _)|(_ & -> & _)]; [|done].
      rewrite !elem_of_cons in Hst. by destruct Hst as [->|[->|[->|[]%not_elem_of_nil]]]. }
    apply quiet_rows. intros j e' He'. rewrite Ht in He'. apply lookup_insert_Some in He' as [[<- <-]|[Hn He']].
    + destruct Hrow as [(-> & -> & _)|(Hn & d & Hd & _ & ->)]; [by rewrite Hf|].
      destruct (Hback _ _ Hd) as (d0 & -> & [[? ? ? ?] Hs0]). left. split; [split; cbn; congruence|].
      unfold received_again. cbn. case_bool_decide; [done|]. cbn. exact Hs0.
    + destruct (Hback _ _ He') as (d & -> & Hd). by left.
Qed.

(** ** What the operations of the drain do *)

Lemma bind_run {A B} (m : store A) (k : A -> store B) s :
  (m ≫= k) s = match m s with
               | (Ok a, l) => let '(r, l') := k a (after s l) in (r, l' ++ l)
               | (Err e, l) => (Err e, l)
               end.
Proof. reflexivity. Qed.

Lemma claim_cases claimedAt s :
  exists r s', claimNextDelivery claimedAt s = (Ok r, [s']) /\
    match r with
    | None => ib_table s' = ib_table s /\ forall id d, ib_table s !! id = Some d -> is_due claimedAt id d = false
    | Some (id, d') => exists d, ib_table s !! id = Some d /\ is_due claimedAt id d = true /\
        d' = taken claimedAt d /\ ib_table s' = <[id := d']> (ib_table s)
    end.
Proof.
  unfold claimNextDelivery, mutate. destruct (head _) as [[id d]|] eqn:Hh.
  - apply head_selected in Hh as [Hd Hdue]. do 2 eexists. split; [reflexivity|]. by exists d.
  - do 2 eexists. split; [reflexivity|]. cbn. split; [done|]. intros id d Hd.
    destruct (is_due claimedAt id d) eqn:Hdue; [|done].
    assert (Hin : (id, d) ∈ select_rows queue_order (is_due claimedAt) (ib_table s)) by by apply select_rows_elem.
    destruct (select_rows _ _ _); [by apply not_elem_of_nil in Hin|done].
Qed.

(** The processing row [id] becomes [f] of it, in one commit. *)
Definition settles (id : string) (f : Delivery -> Delivery) (s s' : Inbox) : Prop :=
  exists d, ib_table s !! id = Some d /\ dl_state d = ds_processing /\ ib_table s' = <[id := f d]> (ib_table s).

Lemma settle_cases affected id f s :
  (exists s', mutate affected (settle_processing id f) (fun _ => true) s = (Ok tt, [s']) /\ settles id f s s') \/
  (exists e, mutate affected (settle_processing id f) (fun _ => true) s = (Err e, [])) /\
    (forall d, ib_table s !! id = Some d -> dl_state d <> ds_processing).
Proof.
  unfold mutate. destruct (settle_processing id f (ib_table s)) as [[[] t']|e] eqn:Hw.
  - left. eexists. split; [reflexivity|]. by apply settle_processing_inv in Hw.
  - right. split; [by eexists|]. intros d Hd Hs. unfold settle_processing, is_processing in Hw.
    rewrite Hd, bool_decide_eq_true_2 in Hw by done. done.
Qed.

Lemma retry_cases id reason retriedAt nextAttemptAt s :
  (exists s', retryDelivery id reason retriedAt nextAttemptAt s = (Ok tt, [s']) /\
     settles id (requeued reason nextAttemptAt retriedAt) s s') \/
  (exists e, retryDelivery id reason retriedAt nextAttemptAt s = (Err e, [])) /\
    (reasonSchema reason = true -> retriedAt < nextAttemptAt ->
     forall d, ib_table s !! id = Some d -> dl_state d <> ds_processing).
Proof.
  unfold retryDelivery. destruct (reasonSchema reason); [|right; split; [by eexists|done]].
  destruct (retriedAt <? nextAttemptAt) eqn:Hlt; [|right; split; [by eexists|lia]].
  unfold mbind, store_bind, demand_inbox, mret, store_ret. cbn [after List.hd app].
  destruct (settle_cases (fun _ => no_totals) id (requeued reason nextAttemptAt retriedAt) s)
    as [(s' & -> & Hs)|[[e ->] Hs]]; [left|right; split; [by eexists|done]].
  exists s'. split; [by rewrite app_nil_r|done].
Qed.

Lemma finish_cases id st reason completedAt s :
  (exists s1, finishDelivery id st reason completedAt s = (Ok tt, (prunePayloads completedAt s1).2 ++ [s1]) /\
     terminal st = true /\ settles id (with_state st (Some reason) (Some completedAt) completedAt) s s1) \/
  (exists e, finishDelivery id st reason completedAt s = (Err e, [])) /\
    (terminal st = true -> reasonSchema reason = true ->
     forall d, ib_table s !! id = Some d -> dl_state d <> ds_processing).
Proof.
  unfold finishDelivery, terminal. destruct (bool_decide _) eqn:Hst; [|right; split; [by eexists|done]].
  destruct (reasonSchema reason); [|right; split; [by eexists|done]].
  unfold mbind, store_bind, demand_inbox, mret, store_ret. cbn [after List.hd app andb].
  destruct (settle_cases (fun t => all_of (readTotals (fun id' _ => String.eqb id' id) t)) id
              (with_state st (Some reason) (Some completedAt) completedAt) s)
    as [(s1 & -> & Hs)|[[e ->] Hs]]; [left|right; split; [by eexists|done]].
  exists s1. split_and!; [|done..]. cbn [after List.hd].
  unfold prunePayloads. destruct (within_retention _ _); cbn; by rewrite ?app_nil_r.
Qed.

(** Every processing row went back to the queue. *)
Definition recovered (recoveredAt : Z) (s s' : Inbox) : Prop :=
  ib_table s' = update_rows is_processing (requeued "recovered-after-restart" recoveredAt recoveredAt) (ib_table s).

Lemma recover_cases recoveredAt s :
  exists n s', recoverDeliveries recoveredAt s = (Ok n, [s']) /\ recovered recoveredAt s s'.
Proof. unfold recoverDeliveries, mutate. do 2 eexists. by split. Qed.

Section Process.

Context (parseJson : string -> option Wire) (jsonValid : string -> bool) (sha256 : list Z -> string)
        (issueText : EndpointKind -> Wire -> string) (messageOf : InboxError -> string)
        (limits : InboxLimits) (retryIntervalMs maxBatchSize : Z) (Shown : Delivery -> VerifyReads -> Prop).

Abbreviation settle_verified := (settle_verified messageOf retryIntervalMs).
Abbreviation perform := (perform parseJson jsonValid sha256 issueText messageOf limits retryIntervalMs maxBatchSize).
Abbreviation possible := (possible Shown).

Lemma returnToQueue_cases id reason retriedAt s :
  exists (failed : bool) s', returnToQueue retryIntervalMs id reason retriedAt s = (Ok failed, [s']) /\
    if failed
    then recovered retriedAt s s' /\
         (reasonSchema reason = true -> 0 < retryIntervalMs ->
          forall d, ib_table s !! id = Some d -> dl_state d <> ds_processing)
    else settles id (requeued reason (retriedAt + retryIntervalMs) retriedAt) s s'.
Proof.
  unfold returnToQueue, catch_inbox, mbind, store_bind, mret, store_ret.
  destruct (retry_cases id reason retriedAt (retriedAt + retryIntervalMs) s) as [(s' & -> & Hs)|[[e ->] Hn]].
  - exists false, s'. by split.
  - cbn [after List.hd]. destruct (recover_cases retriedAt s) as (n & s' & -> & Hs).
    exists true, s'. split; [done|]. split; [done|]. intros Hr Hi. apply Hn; [done|lia].
Qed.

(** The delivery [id] is settled after its verification. *)
Inductive Settled (id : string) (outcome : node_read Outcome) (completedAt retriedAt : Z) (s : Inbox)
    : result InboxError Next -> list Inbox -> Prop :=
  | settled_finished st reason s1 :
      outcome = Ok (finish_as st reason) -> terminal st = true ->
      settles id (with_state st (Some reason) (Some completedAt) completedAt) s s1 ->
      Settled id outcome completedAt retriedAt s (Ok (goes_on_batch true))
        ((prunePayloads completedAt s1).2 ++ [s1])
  | settled_retried reason s1 :
      outcome = Ok (retry_later reason) ->
      settles id (requeued reason (completedAt + retryIntervalMs) completedAt) s s1 ->
      Settled id outcome completedAt retriedAt s (Ok (goes_on_batch false)) [s1]
  | settled_failed reason now s1 :
      now = completedAt \/ now = retriedAt ->
      settles id (requeued reason (now + retryIntervalMs) now) s s1 ->
      Settled id outcome completedAt retriedAt s (Ok returns) [s1]
  | settled_recovered now s1 :
      now = completedAt \/ now = retriedAt ->
      recovered now s s1 -> Settled id outcome completedAt retriedAt s (Ok returns) [s1].

Lemma settle_verified_settled id outcome completedAt retriedAt s :
  Settled id outcome completedAt retriedAt s (settle_verified id outcome completedAt retriedAt s).1
    (settle_verified id outcome completedAt retriedAt s).2.
Proof.
  assert (Hback : forall reason now, now = completedAt \/ now = retriedAt ->
    Settled id outcome completedAt retriedAt s
      ((_ ← returnToQueue retryIntervalMs id reason now; mret returns) s).1
      ((_ ← returnToQueue retryIntervalMs id reason now; mret returns) s).2).
  { intros reason now Hnow. unfold mbind, store_bind, mret, store_ret.
    destruct (returnToQueue_cases id reason now s) as ([] & s' & -> & Hs); [destruct Hs as [Hs _]|]; cbn.
    - by apply (settled_recovered _ _ _ _ _ now).
    - by apply (settled_failed _ _ _ _ _ reason now). }
  unfold ObserverProcess.settle_verified. destruct outcome as [[st reason|reason]|e]; [| |by apply Hback; right].
  - unfold catch_inbox. rewrite (bind_run (finishDelivery id st reason completedAt)).
    destruct (finish_cases id st reason completedAt s) as [(s1 & -> & Ht & Hs)|[[e ->] _]].
    + cbn. by apply (settled_finished _ _ _ _ _ st reason).
    + cbn [after List.hd]. specialize (Hback (safeErrorReason (messageOf e)) retriedAt (or_intror eq_refl)).
      destruct ((_ ← returnToQueue retryIntervalMs id (safeErrorReason (messageOf e)) retriedAt; mret returns) s)
        as [r l]. cbn in *. by rewrite app_nil_r.
  - unfold mbind, store_bind, mret, store_ret.
    destruct (returnToQueue_cases id reason completedAt s) as ([] & s' & -> & Hs); [destruct Hs as [Hs _]|]; cbn.
    + by apply (settled_recovered _ _ _ _ _ completedAt); [left|].
    + by apply (settled_retried _ _ _ _ _ reason).
Qed.

Lemma catch_commits {A} R `{!PreOrder R} (m : store A) (handler : InboxError -> store A) s :
  (forall e, commits R (handler e) (after s (m s).2)) -> commits R m s -> commits R (catch_inbox m handler) s.
Proof.
  intros Hh Hm s' H. unfold catch_inbox in H. pose proof (after_commits R m s Hm) as Ha.
  unfold commits in Hm. destruct (m s) as [[a|e] l]; cbn in *; [by apply Hm|].
  specialize (Hh e). unfold commits in Hh. destruct (handler e (after s l)) as [r l'].
  cbn in *. apply elem_of_app in H as [H|H]; [|by apply Hm]. etransitivity; [exact Ha|by apply Hh].
Qed.

Abbreviation progress := (progress limits).

Lemma return_progress id reason retriedAt s : commits progress (returnToQueue retryIntervalMs id reason retriedAt) s.
Proof.
  unfold returnToQueue. apply catch_commits; [apply _| |].
  - intros _. apply catch_commits; [apply _|intros _; apply ret_commits|].
    commits_bind; [intros; apply ret_commits|apply recover_progress].
  - commits_bind; [intros; apply ret_commits|apply retry_progress].
Qed.

Lemma settle_verified_progress id outcome completedAt retriedAt s :
  commits progress (settle_verified id outcome completedAt retriedAt) s.
Proof.
  assert (Hback : forall reason now s, commits progress
    (_ ← returnToQueue retryIntervalMs id reason now; mret returns) s).
  { intros reason now s0. commits_bind; [intros; apply ret_commits|apply return_progress]. }
  unfold ObserverProcess.settle_verified. destruct outcome as [[st reason|reason]|e]; [| |apply Hback].
  - apply catch_commits; [apply _|intros; apply Hback|].
    commits_bind; [intros; apply ret_commits|apply finish_progress].
  - commits_bind; [intros; apply ret_commits|apply return_progress].
Qed.

(** ** The invariant *)

(** The local node showed that the delivery is canonical. *)
Definition shown_canonical (e : Delivery) : Prop :=
  exists d reads, Shown d reads /\ about_same d e /\
    verifyObserverDelivery d reads = Ok (finish_as ds_verified verified_reason).

Definition evidence (t : Table) : Prop :=
  forall id e, t !! id = Some e -> dl_state e = ds_verified -> shown_canonical e.

(** The rows in processing. *)
Definition processing_only (Q : string -> Prop) (t : Table) : Prop :=
  forall id e, t !! id = Some e -> dl_state e = ds_processing -> Q id.

Definition verifies (p : Phase) (id : string) : Prop :=
  match p with ph_verifying _ _ id' _ => id = id' | _ => False end.

Record obs_inv (o : Observer) : Prop := {
  oi_exact : exact (os_inbox o);
  oi_table : table_ok limits (ib_table (os_inbox o));
  oi_bounds : within_bounds (ib_table (os_inbox o));
  oi_evidence : evidence (ib_table (os_inbox o));
  oi_phase : forall processed attempts id d, os_phase o = ph_verifying processed attempts id d ->
    exists e, ib_table (os_inbox o) !! id = Some e /\ about_same d e;
  oi_processing : os_started o = true ->
    processing_only (verifies (os_phase o)) (ib_table (os_inbox o));
}.

Lemma shown_about e e' : about_same e e' -> shown_canonical e -> shown_canonical e'.
Proof.
  intros [] (d & reads & Hs & [] & Hv). exists d, reads. split_and!; [done| |done]. split; congruence.
Qed.

Lemma evidence_quiet s s' :
  quiet_but (fun _ _ => False) s s' -> evidence (ib_table s) -> evidence (ib_table s').
Proof.
  intros H Hev id e He Hs. destruct (H id e He) as [[]|(d & Hd & Hst & Ha)].
  - unfold noted. by apply bool_decide_eq_true_2; rewrite Hs; left.
  - eapply shown_about; [exact Ha|]. apply (Hev id); congruence.
Qed.

Lemma processing_quiet Q s s' :
  quiet_but (fun _ _ => False) s s' -> processing_only Q (ib_table s) -> processing_only Q (ib_table s').
Proof.
  intros H Hp id e He Hs. destruct (H id e He) as [[]|(d & Hd & Hst & Ha)].
  - unfold noted. by apply bool_decide_eq_true_2; rewrite Hs; right; left.
  - apply (Hp id d); congruence.
Qed.

(** One row changed. *)
Lemma evidence_insert (t : Table) id e :
  evidence t -> (dl_state e = ds_verified -> shown_canonical e) -> evidence (<[id := e]> t).
Proof. intros Hev He j f [[<- <-]|[_ Hf]]%lookup_insert_Some; [done|by apply (Hev j)]. Qed.

Lemma processing_insert Q (t : Table) id e :
  processing_only (fun j => j = id \/ Q j) t -> (dl_state e = ds_processing -> Q id) ->
  processing_only Q (<[id := e]> t).
Proof. intros Hp He j f [[<- <-]|[Hn Hf]]%lookup_insert_Some Hs; [auto|by destruct (Hp j f Hf Hs)]. Qed.

(** Nothing became a retained payload. *)
Lemma bounds_keep (t t' : Table) :
  (forall id d, t !! id = Some d -> 0 <= dl_payloadBytes d) ->
  (forall id d', t' !! id = Some d' -> is_retained d' = true ->
     exists d, t !! id = Some d /\ is_retained d = true /\ dl_payloadBytes d = dl_payloadBytes d') ->
  within_bounds t -> within_bounds t'.
Proof.
  intros Hpos H [Hn Hb]. unfold within_bounds.
  assert (Hsub : forall w : Delivery -> Z, (forall id d, t !! id = Some d -> 0 <= w d) ->
    (forall d d', dl_payloadBytes d = dl_payloadBytes d' -> w d' <= w d) ->
    sum_rows w (where_rows (fun _ => is_retained) t') <= sum_rows w (where_rows (fun _ => is_retained) t)).
  { intros w Hw Hle. apply sum_rows_sub.
    - intros id d (Hd & _)%(lookup_where_rows (fun _ => is_retained)). by apply (Hw id).
    - intros id d' (Hd' & Hr)%(lookup_where_rows (fun _ => is_retained)).
      destruct (H id d' Hd' Hr) as (d & Hd & Hr' & Heq). exists d.
      split; [by apply (lookup_where_rows (fun _ => is_retained))|by apply Hle]. }
  split.
  - pose proof (Hsub (fun _ => 1) ltac:(by intros; cbn) ltac:(by intros; cbn)) as Hs. rewrite !sum_rows_const in Hs. lia.
  - pose proof (Hsub dl_payloadBytes Hpos) as Hs. specialize (Hs ltac:(by intros ?? ->)). etransitivity; [exact Hs|exact Hb].
Qed.

Lemma not_retained d : terminal (dl_state d) = false -> is_retained d = false.
Proof. unfold is_retained, is_terminal, terminal. by intros ->. Qed.

Lemma bounds_insert (t : Table) id d' :
  (forall id d, t !! id = Some d -> 0 <= dl_payloadBytes d) -> terminal (dl_state d') = false ->
  within_bounds t -> within_bounds (<[id := d']> t).
Proof.
  intros Hpos Hs. apply bounds_keep; [done|]. intros j e [[<- <-]|[_ He]]%lookup_insert_Some Hr.
  - by rewrite not_retained in Hr.
  - by exists e.
Qed.

Lemma pending_not_terminal st : st ∈ [ds_claimed; ds_processing] -> terminal st = false.
Proof. intros H. rewrite !elem_of_cons in H. by destruct H as [->|[->|[]%not_elem_of_nil]]. Qed.

(** A row the callback leaves pending adds no retained payload. *)
Lemma accept_write_bounds proposedId i (t t' : Table) id st attempts :
  table_ok limits t -> t !! proposedId = None ->
  accept_write jsonValid limits proposedId i t = Ok ((id, st, attempts), t') ->
  st ∈ [ds_claimed; ds_processing] -> within_bounds t -> within_bounds t'.
Proof using Type.
  intros Hok Hf H Hst Hb.
  apply accept_write_inv in H as (t1 & st1 & reason & id1 & row & Ht1 & _ & [= -> -> ->] & -> & Hrow); [|done].
  assert (Hpos : forall id d, t !! id = Some d -> 0 <= dl_payloadBytes d) by (intros; by eapply to_rows).
  apply pending_not_terminal in Hst. destruct Ht1 as [(_ & -> & _)|(_ & -> & _)].
  - by apply bounds_insert.
  - exfalso. destruct Hrow as [(_ & -> & _)|(_ & d & _ & _ & ->)].
    + by cbn in Hst.
    + unfold received_again in Hst. cbn in Hst. discriminate.
Qed.

Lemma accept_bounds proposedId i s :
  table_ok limits (ib_table s) -> fresh_id proposedId s -> within_bounds (ib_table s) ->
  within_bounds (ib_table (after s (acceptDelivery parseJson jsonValid proposedId i limits s).2)).
Proof using Type.
  intros Hok Hf Hb. pose proof (accept_progress parseJson jsonValid limits proposedId i s Hf) as Hpr.
  unfold commits, acceptDelivery, demand_inbox in *.
  destruct (observerDeliveryInputSchema parseJson i && limitsSchema limits); [|done].
  rewrite bind_run in *. cbn [mret store_ret after List.hd] in *. rewrite bind_run in *.
  unfold mutate in *. destruct (accept_write _ _ _ _ _) as [[[[id st] attempts] t']|e] eqn:Hw; [|done].
  set (s1 := {| ib_table := t' |}) in *. rewrite bind_run in *. cbn [after List.hd] in *. case_bool_decide as Hst.
  - cbn in *. by eapply accept_write_bounds.
  - assert (Hok1 : table_ok limits (ib_table s1)).
    { apply (Hpr s1); [|done]. unfold prunePayloads. by destruct (within_retention _ _); cbn; rewrite !elem_of_cons; auto. }
    pose proof (prune_within limits (di_receivedAt i) s1 Hok1) as Hbb.
    unfold prunePayloads in *. destruct (within_retention _ _); cbn in *; done.
Qed.

(** ** Every action keeps the invariant *)

Lemma verify_verified d reads reason :
  verifyObserverDelivery d reads = Ok (finish_as ds_verified reason) -> reason = verified_reason.
Proof using Type.
  unfold verifyObserverDelivery, verifyStacksBlockDelivery, verifyBurnBlockDelivery, compareBlocks, mbind, result_bind.
  intros H. repeat (case_match; simplify_eq; try done).
Qed.

(** What [settles] asks of the row, when the delivery itself is being verified. *)
Lemma settles_evidence id f s s' :
  settles id f s s' -> evidence (ib_table s) ->
  (forall e, ib_table s !! id = Some e -> dl_state (f e) = ds_verified -> shown_canonical (f e)) ->
  evidence (ib_table s').
Proof. intros (e & He & _ & ->) Hev H. apply evidence_insert; [done|by apply H]. Qed.

Lemma settles_processing id f s s' :
  settles id f s s' -> processing_only (fun j => j = id) (ib_table s) ->
  (forall e, dl_state (f e) <> ds_processing) -> processing_only (fun _ => False) (ib_table s').
Proof.
  intros (e & He & _ & ->) Hp H. apply processing_insert; [|by intros ?%H].
  intros j d Hd Hs. left. by apply (Hp j d).
Qed.

Lemma recovered_processing now s s' : recovered now s s' -> processing_only (fun _ => False) (ib_table s').
Proof.
  intros -> id e He Hs. rewrite lookup_update_rows in He. destruct (ib_table s !! id) as [d|]; [|done].
  injection He as <-. destruct (is_processing id d) eqn:Hp; [done|].
  unfold is_processing in Hp. by rewrite bool_decide_eq_true_2 in Hp.
Qed.

Lemma recovered_quiet Q now s s' : recovered now s s' -> quiet_but Q s s'.
Proof. intros Ht. eapply quiet_update; [exact Ht|]. intros id d _ _. by split. Qed.

Lemma settled_commits id d reads completedAt retriedAt s r l :
  Settled id (verifyObserverDelivery d reads) completedAt retriedAt s r l ->
  Shown d reads -> (exists e, ib_table s !! id = Some e /\ about_same d e) -> evidence (ib_table s) ->
  forall s', s' ∈ l -> evidence (ib_table s').
Proof.
  intros H Hs (e & He & Ha) Hev. destruct H as [st reason s1 Ho _ Hse|reason s1 _ Hse|reason now s1 _ Hse|now s1 _ Hr].
  - assert (Hs1 : evidence (ib_table s1)).
    { eapply settles_evidence; [exact Hse|done|]. intros e0 He0 Hst. cbn in Hst. subst st.
      assert (e0 = e) as -> by congruence. exists d, reads. pose proof (verify_verified _ _ _ Ho) as ->.
      split_and!; [done| |done]. destruct Ha. by split. }
    intros s' [Hin|Hin%list_elem_of_singleton]%elem_of_app; [|by subst].
    by apply (evidence_quiet s1); [apply (prune_quiet (fun _ _ => False)) in Hin|].
  - intros s' ->%list_elem_of_singleton. by eapply settles_evidence.
  - intros s' ->%list_elem_of_singleton. by eapply settles_evidence.
  - intros s' ->%list_elem_of_singleton. by eapply evidence_quiet; [eapply recovered_quiet|].
Qed.

Lemma settled_processing id outcome completedAt retriedAt s r l :
  Settled id outcome completedAt retriedAt s r l -> processing_only (fun j => j = id) (ib_table s) ->
  processing_only (fun _ => False) (ib_table (after s l)).
Proof.
  intros H Hp. destruct H as [st reason s1 Ho Ht Hse|reason s1 _ Hse|reason now s1 _ Hse|now s1 _ Hr]; cbn.
  - assert (Hs1 : processing_only (fun _ => False) (ib_table s1)).
    { eapply settles_processing; [done..|]. intros e. cbn. by destruct st. }
    apply (processing_quiet _ s1); [|done].
    pose proof (after_commits _ _ _ (prune_quiet (fun _ _ => False) completedAt s1)) as Hq.
    unfold prunePayloads in *. by destruct (within_retention _ _).
  - by eapply settles_processing.
  - by eapply settles_processing.
  - by eapply recovered_processing.
Qed.

Lemma settled_bounds id outcome completedAt retriedAt s r l :
  Settled id outcome completedAt retriedAt s r l -> table_ok limits (ib_table s) ->
  (forall s', s' ∈ l -> table_ok limits (ib_table s')) -> within_bounds (ib_table s) ->
  within_bounds (ib_table (after s l)).
Proof using Type.
  intros H Hok Hl Hb. assert (Hpos : forall id d, ib_table s !! id = Some d -> 0 <= dl_payloadBytes d)
    by (intros; by eapply to_rows).
  destruct H as [st reason s1 Ho Ht Hse|reason s1 _ (e & He & _ & Ht)|reason now s1 _ (e & He & _ & Ht)|now s1 _ Hr]; cbn.
  - assert (Hok1 : table_ok limits (ib_table s1)) by (apply Hl, elem_of_app; right; by left).
    pose proof (prune_within limits completedAt s1 Hok1). unfold prunePayloads in *.
    by destruct (within_retention _ _).
  - rewrite Ht. by apply bounds_insert.
  - rewrite Ht. by apply bounds_insert.
  - rewrite Hr. apply (bounds_keep (ib_table s)); [done| |done]. intros j e' He' Hre. rewrite lookup_update_rows in He'.
    destruct (ib_table s !! j) as [e|] eqn:He; [|done]. injection He' as <-.
    destruct (is_processing j e); [by rewrite not_retained in Hre|by exists e].
Qed.

Definition sound (s s' : Inbox) : Prop := progress s s' /\ (evidence (ib_table s) -> evidence (ib_table s')).

#[local] Instance sound_preorder : PreOrder sound.
Proof. split; [by split|]. intros a b c [Hab Ha] [Hbc Hb]. split; [by etransitivity|auto]. Qed.

Lemma quiet_sound {A} (m : store A) s :
  commits progress m s -> commits (quiet_but (fun _ _ => False)) m s -> commits sound m s.
Proof. intros Hp Hq s' H. split; [by apply Hp|]. by apply evidence_quiet, Hq. Qed.

Lemma claim_sound now s : commits sound (claimNextDelivery now) s.
Proof.
  intros s' H. split; [by apply (claim_progress limits now s)|]. intros Hev.
  destruct (claim_cases now s) as (r & s1 & Heq & Hr). rewrite Heq in H. apply list_elem_of_singleton in H as ->.
  destruct r as [[id d']|]; [|by destruct Hr as [-> _]].
  destruct Hr as (d & Hd & _ & -> & ->). by apply evidence_insert.
Qed.

(** The observer after its commits, when nothing else changed. *)
Lemma inv_moves o o' :
  obs_inv o -> sound (os_inbox o) (os_inbox o') -> within_bounds (ib_table (os_inbox o')) ->
  (forall processed attempts id d, os_phase o' = ph_verifying processed attempts id d ->
     (exists p a, os_phase o = ph_verifying p a id d) \/ ib_table (os_inbox o') !! id = Some d) ->
  (os_started o' = true -> processing_only (verifies (os_phase o')) (ib_table (os_inbox o'))) -> obs_inv o'.
Proof.
  intros [He Ht Hb Hev Hph Hp] [Hs Hse] Hb' Hph' Hp'. destruct (pr_table _ _ _ Hs Ht) as [Hf Ht'].
  split; [by apply (pr_exact _ _ _ Hs)|done|done|by apply Hse| |done]. intros processed attempts id d Hd.
  destruct (Hph' _ _ _ _ Hd) as [(p & a & Hpa)|Hrow]; [|by exists d].
  destruct (Hph _ _ _ _ Hpa) as (e & Hrow & Ha). destruct (Hf _ _ Hrow) as (e' & Hrow' & [Ha' _ _ _ _]).
  exists e'. split; [done|]. destruct Ha, Ha'. split; congruence.
Qed.

(** Only the control of the drain changed. *)
Lemma inv_control o o' :
  obs_inv o -> os_inbox o' = os_inbox o -> (os_started o' = true -> os_started o = true) ->
  (os_phase o' = os_phase o \/ (forall id, ~ verifies (os_phase o) id) /\ (forall id, ~ verifies (os_phase o') id)) ->
  obs_inv o'.
Proof.
  intros Hi Hs Hst Hph. apply (inv_moves o); [done|by rewrite Hs|by rewrite Hs; apply Hi| |].
  - intros processed attempts id d Hd. left. destruct Hph as [Heq|[_ Hno]]; [rewrite Heq in Hd; eauto|].
    destruct (Hno id). by rewrite Hd.
  - intros Hx%Hst. rewrite Hs. pose proof (oi_processing _ Hi Hx) as Hp. destruct Hph as [->|[Hno _]]; [done|].
    intros id e He Hse. exfalso. by apply (Hno id), (Hp id e He Hse).
Qed.

Lemma notify_control o :
  os_inbox (notify o) = os_inbox o /\ os_started (notify o) = os_started o /\
  (os_phase (notify o) = os_phase o \/ os_phase o = ph_idle /\ os_phase (notify o) = ph_loop 0).
Proof.
  unfold notify, begin_drain. destruct (os_started o) eqn:Hs; [|by rewrite Hs; auto].
  cbn. destruct (os_phase o) eqn:Hp; cbn; rewrite ?Hs, ?Hp; auto.
Qed.

Lemma end_drain_control o :
  os_inbox (end_drain o) = os_inbox o /\ os_started (end_drain o) = os_started o /\
  (os_phase (end_drain o) = ph_idle \/ os_phase (end_drain o) = ph_loop 0).
Proof.
  unfold end_drain. destruct (_ && _); [|by auto].
  destruct (notify_control (set_phase ph_idle o)) as (-> & -> & [->|[_ ->]]); auto.
Qed.

Lemma end_batch_control processed attempts o :
  os_inbox (end_batch maxBatchSize processed attempts o) = os_inbox o /\
  os_started (end_batch maxBatchSize processed attempts o) = os_started o /\
  (os_phase (end_batch maxBatchSize processed attempts o) = ph_yielding processed \/
   os_phase (end_batch maxBatchSize processed attempts o) = ph_loop processed).
Proof. unfold end_batch. destruct (_ =? _); cbn; auto. Qed.

Definition inert (p : Phase) : bool := match p with ph_verifying _ _ _ _ => false | _ => true end.

Lemma inert_verifies p : inert p = true -> forall id, ~ verifies p id.
Proof. intros H id Hv. by destruct p. Qed.

(** What the actions do to the store: their commits, and where they leave it. *)
Lemma perform_sound a o : obs_inv o -> possible a o -> forall s', s' ∈ (perform a o).2 -> sound (os_inbox o) s'.
Proof.
  intros Hi Hp s' H. destruct a as [k c proposedId now| |now| | |canProcess|now|reads completedAt retriedAt|]; cbn in H.
  - unfold accept_callback in H. destruct (callback_payload _ _) as [|[body payload]]; [by apply not_elem_of_nil in H|].
    pose proof (quiet_sound _ _ (accept_progress parseJson jsonValid limits proposedId
      (delivery_input sha256 issueText k body payload now) (os_inbox o) Hp)
      (accept_quiet _ _ _ _ _ _ _ Hp)) as Hc.
    unfold commits in Hc. destruct (acceptDelivery _ _ _ _ _ _) as [r l]. cbn in Hc, H.
    apply Hc. destruct r as [|[]]; cbn in H; done.
  - by apply not_elem_of_nil in H.
  - destruct (os_started o); [by apply not_elem_of_nil in H|]. cbn in H.
    revert s' H. apply (quiet_sound (recoverDeliveries now)); [apply recover_progress|apply recover_quiet].
  - by apply not_elem_of_nil in H.
  - by apply not_elem_of_nil in H.
  - destruct (os_phase o); cbn in H; try by apply not_elem_of_nil in H.
    destruct (_ && _); by apply not_elem_of_nil in H.
  - destruct (os_phase o); cbn in H; try by apply not_elem_of_nil in H.
    destruct (_ && _); [|by apply not_elem_of_nil in H]. pose proof (claim_sound now (os_inbox o)) as Hc.
    unfold commits in Hc. destruct (claimNextDelivery now (os_inbox o)) as [[[[id d]|]|] l]; by apply Hc.
  - cbn in Hp. destruct (os_phase o) as [| | |processed attempts id d|] eqn:Hph; try done.
    pose proof (settle_verified_progress id (verifyObserverDelivery d reads) completedAt retriedAt (os_inbox o)) as Hc.
    pose proof (settle_verified_settled id (verifyObserverDelivery d reads) completedAt retriedAt (os_inbox o)) as Hse.
    unfold commits in Hc. destruct (settle_verified _ _ _ _ _) as [r l]. cbn in Hc, Hse.
    assert (Hin : s' ∈ l) by by destruct r as [[]|]. split; [by apply Hc|]. intros Hev.
    eapply settled_commits; [exact Hse|done| |done|done]. by eapply oi_phase.
  - destruct (os_phase o); by apply not_elem_of_nil in H.
Qed.

Lemma perform_store a o : a <> act_status -> os_inbox (perform a o).1 = after (os_inbox o) (perform a o).2.
Proof.
  intros Hn. destruct a as [k c proposedId now| |now| | |canProcess|now|reads completedAt retriedAt|];
    cbn [ObserverProcess.perform]; try done.
  - unfold accept_callback. destruct (callback_payload _ _) as [|[body payload]]; [done|].
    destruct (acceptDelivery _ _ _ _ _ _) as [r l]. destruct r as [|[]]; cbn; done.
  - destruct (os_started o); [done|]. cbn [fst snd]. by rewrite (proj1 (notify_control _)).
  - cbn [fst snd]. by rewrite (proj1 (notify_control _)).
  - destruct (os_phase o); try done.
    destruct (_ && _); [destruct canProcess|]; cbn [fst snd]; by rewrite ?(proj1 (end_drain_control _)).
  - destruct (os_phase o); try done.
    destruct (_ && _); [|cbn [fst snd]; by rewrite (proj1 (end_batch_control _ _ _))].
    destruct (claimNextDelivery now (os_inbox o)) as [[[[id d]|]|] l]; cbn [fst snd];
      by rewrite ?(proj1 (end_drain_control _)), ?(proj1 (end_batch_control _ _ _)).
  - destruct (os_phase o); try done. destruct (settle_verified _ _ _ _ _) as [[[]|] l]; cbn [fst snd];
      by rewrite ?(proj1 (end_drain_control _)).
  - by destruct (os_phase o).
Qed.

Lemma inv_rows o : obs_inv o -> forall id d, ib_table (os_inbox o) !! id = Some d -> 0 <= dl_payloadBytes d.
Proof. intros Hi id d Hd. by apply (to_rows _ _ (oi_table _ Hi) id). Qed.

Lemma after_sound a o :
  obs_inv o -> possible a o -> a <> act_status -> sound (os_inbox o) (os_inbox (perform a o).1).
Proof.
  intros Hi Hp Hn. rewrite perform_store by done. pose proof (perform_sound a o Hi Hp) as Hc.
  destruct (perform a o).2 as [|s' l]; [done|]. apply Hc. by left.
Qed.

Lemma status_inv o : obs_inv o -> obs_inv (perform act_status o).1.
Proof.
  intros Hi. assert (Ht : ib_table (status (os_inbox o)).2 = ib_table (os_inbox o)).
  { unfold status. destruct (ib_status _) as [[[r v] x]|]; [|done]. by destruct (_ && _). }
  split; cbn [ObserverProcess.perform fst os_inbox os_phase os_started set_inbox]; rewrite ?Ht; try apply Hi.
  apply status_exact, Hi.
Qed.

Lemma callback_inv k c proposedId now o :
  obs_inv o -> possible (act_callback k c proposedId now) o -> obs_inv (perform (act_callback k c proposedId now) o).1.
Proof.
  intros Hi Hp. pose proof (after_sound _ _ Hi Hp ltac:(done)) as Hs.
  set (o' := (perform _ o).1) in *.
  assert (Hrest : os_phase o' = os_phase o /\ os_started o' = os_started o /\ within_bounds (ib_table (os_inbox o')) /\
    quiet_but (fun _ _ => False) (os_inbox o) (os_inbox o')).
  { subst o'. cbn [ObserverProcess.perform]. unfold accept_callback.
    destruct (callback_payload _ _) as [|[body payload]]; [by split_and!; [..|apply Hi|]|].
    pose proof (accept_bounds proposedId (delivery_input sha256 issueText k body payload now) _ (oi_table _ Hi) Hp
      (oi_bounds _ Hi)) as Hb.
    pose proof (after_commits _ _ _ (accept_quiet (fun _ _ => False) parseJson jsonValid limits proposedId
      (delivery_input sha256 issueText k body payload now) _ Hp)) as Hq.
    destruct (acceptDelivery _ _ _ _ _ _) as [[|[]] l]; cbn in *; by split_and!. }
  destruct Hrest as (Hph & Hst & Hb & Hq). apply (inv_moves o); [done..| |].
  - intros processed attempts id d Hd. left. rewrite <- Hph. eauto.
  - rewrite Hst, Hph. intros Hx. by apply (processing_quiet _ _ _ Hq), oi_processing.
Qed.

Lemma start_inv now o : obs_inv o -> obs_inv (perform (act_start now) o).1.
Proof.
  intros Hi. pose proof (after_sound (act_start now) o Hi I ltac:(done)) as Hs.
  cbn [ObserverProcess.perform fst] in *. destruct (os_started o) eqn:Hst; [done|].
  set (o1 := set_inbox _ _) in *. cbn [fst] in *. destruct (notify_control o1) as (Hn & _ & Hph).
  destruct (recover_cases now (os_inbox o)) as (n & s' & Heq & Hr).
  assert (Ho1 : os_inbox o1 = s' /\ os_phase o1 = os_phase o) by (subst o1; rewrite Heq; done).
  destruct Ho1 as [Ho1 Hph1]. rewrite Hn, Ho1 in Hs. apply (inv_moves o); rewrite ?Hn, ?Ho1; [done..| | |].
  - pose proof (settled_bounds "" (Err (read_error "")) now now _ _ _ (settled_recovered _ _ _ _ _ now s' (or_introl eq_refl) Hr)
      (oi_table _ Hi)) as Hb. apply Hb; [|apply Hi]. intros s0 ->%list_elem_of_singleton.
    by apply (pr_table _ _ _ (proj1 Hs)), oi_table.
  - intros processed attempts id d Hd. left. rewrite <- Hph1. destruct Hph as [Hph|[_ Hph]]; rewrite Hph in Hd; eauto.
    done.
  - intros _ id e He Hse. by destruct (recovered_processing _ _ _ Hr id e).
Qed.

Lemma loop_inv canProcess o : obs_inv o -> obs_inv (perform (act_loop canProcess) o).1.
Proof.
  intros Hi. cbn [ObserverProcess.perform fst]. destruct (os_phase o) as [|processed| | |] eqn:Hph; try done.
  assert (Hno : forall id, ~ verifies (os_phase o) id) by by apply inert_verifies; rewrite Hph.
  assert (Hend : forall o', os_inbox o' = os_inbox o -> os_started o' = os_started o -> obs_inv (end_drain o')).
  { intros o' Hs Hst. destruct (end_drain_control o') as (Hs' & Hst' & Hph'). apply (inv_control o); [done|congruence|congruence|].
    right. split; [done|]. apply inert_verifies. by destruct Hph' as [->| ->]. }
  destruct (_ && _); [destruct canProcess|]; cbn [fst]; [|by apply Hend..]. apply (inv_control o); [done..|].
  right. split; [done|by apply inert_verifies].
Qed.

Lemma claim_inv now o : obs_inv o -> obs_inv (perform (act_claim now) o).1.
Proof.
  intros Hi. pose proof (after_sound (act_claim now) o Hi I ltac:(done)) as Hs.
  cbn [ObserverProcess.perform fst] in *. destruct (os_phase o) as [| |processed attempts| |] eqn:Hph; try done.
  assert (Hno : forall id, ~ verifies (os_phase o) id) by by apply inert_verifies; rewrite Hph.
  assert (Hend : forall o', os_inbox o' = os_inbox o -> os_started o' = os_started o ->
    obs_inv (end_batch maxBatchSize processed attempts o')).
  { intros o' Hs' Hst. destruct (end_batch_control processed attempts o') as (Hb & Hst' & Hph').
    apply (inv_control o); [done|congruence|congruence|].
    right. split; [done|]. apply inert_verifies. by destruct Hph' as [->| ->]. }
  destruct (_ && os_started o) eqn:Hst; [|by apply Hend]. apply andb_prop in Hst as [_ Hst].
  destruct (claim_cases now (os_inbox o)) as (r & s' & Heq & Hr). rewrite Heq in *. destruct r as [[id d']|]; cbn [fst] in *.
  - destruct Hr as (d & Hd & Hdue & -> & Ht). apply (inv_moves o); [done|done|..].
    + cbn. rewrite Ht. by apply bounds_insert; [apply inv_rows|..|apply Hi].
    + intros p a id' d' [= _ _ <- <-]. right. cbn. rewrite Ht. apply lookup_insert_eq.
    + intros _. cbn. rewrite Ht. apply processing_insert; [|done]. intros j e He Hse.
      destruct (Hno j). by apply (oi_processing _ Hi Hst j e).
  - destruct Hr as [Ht _]. destruct (end_batch_control processed attempts (set_inbox s' o)) as (Hb & Hst' & Hph').
    change (after (os_inbox o) [s']) with s' in *. apply (inv_moves o); [done|done| | |].
    + rewrite Hb. cbn. rewrite Ht. apply Hi.
    + intros p a id d Hd. by destruct Hph' as [Hx|Hx]; rewrite Hx in Hd.
    + intros _. rewrite Hb. cbn. rewrite Ht. intros j e He Hse. destruct (Hno j). by apply (oi_processing _ Hi Hst j e).
Qed.

Lemma answered_inv reads completedAt retriedAt o :
  obs_inv o -> possible (act_answered reads completedAt retriedAt) o ->
  obs_inv (perform (act_answered reads completedAt retriedAt) o).1.
Proof.
  intros Hi Hp. pose proof (after_sound _ o Hi Hp ltac:(done)) as Hs.
  pose proof (perform_sound _ o Hi Hp) as Hall.
  cbn [ObserverProcess.perform ObserverProcess.possible] in *.
  destruct (os_phase o) as [| | |processed attempts id d|] eqn:Hph; try done.
  pose proof (settle_verified_settled id (verifyObserverDelivery d reads) completedAt retriedAt (os_inbox o)) as Hse.
  destruct (settle_verified _ _ _ _ _) as [r l]. cbn [fst snd] in Hse.
  assert (Hin : forall s', s' ∈ l -> sound (os_inbox o) s') by (intros; apply Hall; by destruct r as [[]|]). clear Hall.
  assert (Hb : within_bounds (ib_table (after (os_inbox o) l))).
  { eapply settled_bounds; [exact Hse|apply Hi| |apply Hi]. intros s' H'.
    by apply (pr_table _ _ _ (proj1 (Hin s' H'))), oi_table. }
  assert (Hpr : os_started o = true -> processing_only (fun _ => False) (ib_table (after (os_inbox o) l))).
  { intros Hst. eapply settled_processing; [exact Hse|]. pose proof (oi_processing _ Hi Hst) as Hp'. by rewrite Hph in Hp'. }
  assert (Hdone : forall o', os_inbox o' = after (os_inbox o) l -> os_started o' = os_started o ->
    inert (os_phase o') = true -> sound (os_inbox o) (os_inbox o') -> obs_inv o').
  { intros o' Ho Hst Hin' Hs'. apply (inv_moves o); [done|done|by rewrite Ho|..].
    - intros p a id' d' Hd. by rewrite Hd in Hin'.
    - rewrite Ho, Hst. intros Hx id' e He Hse'. by destruct (Hpr Hx id' e). }
  destruct r as [[done_|]|e]; cbn [fst] in *; (apply Hdone; [| | |done]).
  all: try (match goal with |- context [end_drain ?o'] => destruct (end_drain_control o') as (H1 & H2 & H3) end;
            first [by rewrite H1 | by rewrite H2 | by destruct H3 as [-> | ->]]).
  all: done.
Qed.

Lemma perform_inv a o : obs_inv o -> possible a o -> obs_inv (perform a o).1.
Proof.
  intros Hi Hp. destruct a as [k c proposedId now| |now| | |canProcess|now|reads completedAt retriedAt|].
  - by apply callback_inv.
  - by apply status_inv.
  - by apply start_inv.
  - destruct (notify_control o) as (Hs & Hst & Hph). apply (inv_control o); [done|done|by cbn; rewrite Hst|].
    destruct Hph as [Hph|[Hph Hph']]; [by left|]. right. cbn [ObserverProcess.perform fst].
    split; apply inert_verifies; by rewrite ?Hph, ?Hph'.
  - apply (inv_control o); [done..|by left].
  - by apply loop_inv.
  - by apply claim_inv.
  - by apply answered_inv.
  - cbn. destruct (os_phase o) as [| | | |processed] eqn:Hph; try done.
    apply (inv_control o); [done..|]. right. split; apply inert_verifies; by rewrite ?Hph.
Qed.

Lemma opened_exact t dataVersion : exact (opened t dataVersion).
Proof. by split. Qed.

Lemma restart_inv s dataVersion now :
  table_ok limits (ib_table s) -> evidence (ib_table s) -> obs_inv (restarted s dataVersion now).
Proof.
  intros Hok Hev. unfold restarted. set (s0 := opened (ib_table s) dataVersion).
  assert (Hs : sound s0 (after s0 (prunePayloads now s0).2)).
  { apply after_commits; [apply _|]. apply quiet_sound; [apply prune_progress|apply prune_quiet]. }
  split; cbn.
  - apply (pr_exact _ _ _ (proj1 Hs)), opened_exact.
  - by apply (pr_table _ _ _ (proj1 Hs)).
  - by apply (prune_within limits).
  - by apply Hs.
  - done.
  - done.
Qed.

Abbreviation observer_step := (observer_step parseJson jsonValid sha256 issueText messageOf limits retryIntervalMs
  maxBatchSize Shown).
Abbreviation observer_reachable := (observer_reachable parseJson jsonValid sha256 issueText messageOf limits
  retryIntervalMs maxBatchSize Shown).

(** The store that a step leaves goes on from the store before it. *)
Lemma step_forward o o' :
  obs_inv o -> observer_step o o' -> obs_inv o' /\ forward (ib_table (os_inbox o)) (ib_table (os_inbox o')).
Proof.
  intros Hi H. revert Hi. destruct H as [a o1 Hp|a o1 s dataVersion now Hp Hin]; intros Hi.
  - split; [by apply perform_inv|]. assert (a = act_status \/ a <> act_status) as [->|Hn] by (destruct a; auto; by right).
    + cbn. unfold status. destruct (ib_status _) as [[[r v] x]|]; [|done]. by destruct (_ && _).
    + by apply (pr_table _ _ _ (proj1 (after_sound a o1 Hi Hp Hn))), oi_table.
  - assert (Hs : sound (os_inbox o1) s).
    { apply elem_of_cons in Hin as [->|Hin]; [done|]. by eapply perform_sound. }
    destruct (pr_table _ _ _ (proj1 Hs) (oi_table _ Hi)) as [Hf Hok].
    assert (Hi' : obs_inv (restarted s dataVersion now)) by (apply restart_inv; [done|apply Hs, Hi]). split; [done|].
    etransitivity; [exact Hf|]. unfold restarted. cbn.
    pose proof (after_commits _ _ _ (prune_progress limits now (opened (ib_table s) dataVersion))) as Hpr.
    by apply (pr_table _ _ _ Hpr).
Qed.

Lemma initial_inv dataVersion :
  1 <= il_maximumPendingDeliveries limits -> 0 <= il_maximumPendingPayloadBytes limits ->
  obs_inv (initial_observer dataVersion).
Proof.
  intros Hd Hb. split; cbn; try done.
  split; try done. unfold within_limits. rewrite map_filter_empty. unfold sum_rows.
  rewrite map_size_empty, map_fold_empty. apply andb_true_intro. by split; apply Z.leb_le; cbn; lia.
Qed.

Lemma steps_inv o o' :
  rtc observer_step o o' -> obs_inv o -> obs_inv o' /\ forward (ib_table (os_inbox o)) (ib_table (os_inbox o')).
Proof.
  induction 1 as [o|o o1 o' Hs _ IH]; intros Hi; [done|]. destruct (step_forward _ _ Hi Hs) as [Hi1 Hf].
  destruct (IH Hi1) as [Hi' Hf']. split; [done|by etransitivity].
Qed.

Lemma reachable_inv o : limitsSchema limits = true -> observer_reachable o -> obs_inv o.
Proof.
  intros Hl (dataVersion & H). refine (proj1 (steps_inv _ _ H (initial_inv dataVersion _ _)));
    unfold limitsSchema, safe_nonnegative in Hl; breflect; lia.
Qed.

Lemma excluded_content proposedId i id d :
  id <> proposedId -> excludes proposedId i id d = true ->
  dl_endpointKind d = di_endpointKind i /\ (dl_contentSha256 d = di_contentSha256 i \/ same_position i d = true).
Proof using Type.
  intros Hn He%excludes_identity; [|done]. unfold identity in He. apply orb_true_iff in He as [He|He].
  - unfold same_content in He. breflect. auto.
  - split; [|by right]. unfold same_position, at_position in He. by destruct (di_endpointKind i), (dl_endpointKind d).
Qed.

(** What an accepted callback leaves. *)
Lemma accept_result proposedId i s a l :
  fresh_id proposedId s -> acceptDelivery parseJson jsonValid proposedId i limits s = (Ok a, l) ->
  exists s1 d, s1 ∈ l /\ (l = [s1] \/ exists s2, l = [s2; s1] /\ (prunePayloads (di_receivedAt i) s1).2 = [s2]) /\
    ib_table s1 !! ad_deliveryId a = Some d /\ dl_state d = ad_state a /\
    dl_deliveryAttempts d = ad_deliveryAttempts a /\ dl_endpointKind d = di_endpointKind i /\
    (dl_contentSha256 d = di_contentSha256 i \/ dl_state d = ds_quarantined).
Proof using Type.
  intros Hf H. unfold acceptDelivery, demand_inbox in H.
  destruct (observerDeliveryInputSchema parseJson i && limitsSchema limits); [|done].
  rewrite bind_run in H. cbn [mret store_ret after List.hd] in H. rewrite bind_run in H.
  unfold mutate in H. destruct (accept_write _ _ _ _ _) as [[[[id st] attempts] t']|e] eqn:Hw; [|done].
  set (s1 := {| ib_table := t' |}) in *.
  assert (Hrow : exists d, t' !! id = Some d /\ dl_state d = st /\ dl_deliveryAttempts d = attempts /\
    dl_endpointKind d = di_endpointKind i /\ (dl_contentSha256 d = di_contentSha256 i \/ dl_state d = ds_quarantined)).
  { apply accept_write_inv in Hw as (t1 & st1 & reason & id1 & row & Ht1 & Hf1 & [= -> -> ->] & -> & Hrow); [|done].
    exists row. split_and!; [apply lookup_insert_eq|done|done|..].
    - destruct Hrow as [(_ & -> & _)|(Hn & d & Hd & He & ->)]; [done|]. cbn. by apply (excluded_content proposedId i id1).
    - destruct Hrow as [(_ & -> & _)|(Hn & d & Hd & He & ->)]; [by left|]. cbn.
      destruct (decide (dl_contentSha256 d = di_contentSha256 i)) as [|Hne]; [by left|right].
      destruct (excluded_content proposedId i id1 d Hn He) as [_ [|Hp]]; [done|].
      destruct Ht1 as [(Hc & -> & _)|(_ & -> & _)]; [|done]. exfalso.
      assert (where_rows (conflicting i) (ib_table s) !! id1 = Some d) as Hx; [|by rewrite Hc, lookup_empty in Hx].
      apply lookup_where_rows. split; [done|]. unfold conflicting. by rewrite Hp, (proj2 (String.eqb_neq _ _) Hne). }
  destruct Hrow as (d & Hd & Hst & Hat & Hk & Hc). rewrite bind_run in H. cbn [after List.hd] in H. exists s1, d.
  unfold prunePayloads in *. destruct (bool_decide (st ∈ _)); [|destruct (within_retention _ _)];
    cbn in H; injection H as <- <-; cbn; split_and!; eauto.
  all: rewrite !elem_of_cons; auto.
Qed.

Lemma quarantined_stays st st' : rtc delivery_edge st st' -> st = ds_quarantined -> st' = ds_quarantined.
Proof using Type. induction 1 as [|a b c He _ IH]; [done|]. intros ->. apply IH. by inversion He. Qed.

Lemma delivery_input_fields k body payload now :
  let i := delivery_input sha256 issueText k body payload now in
  di_endpointKind i = k /\ di_contentSha256 i = sha256 (text_bytes body).
Proof using Type. cbn. unfold delivery_input. by destruct (deliveryClaim issueText k payload) as [[st reason] claim]. Qed.

Lemma accepted_row o k c proposedId now a o1 l :
  obs_inv o -> fresh_id proposedId (os_inbox o) ->
  accept_callback parseJson jsonValid sha256 issueText limits k c proposedId now o = (reply_accepted a, o1, l) ->
  exists body, cb_body c = Some body /\ exists d, ib_table (os_inbox o1) !! ad_deliveryId a = Some d /\
    dl_endpointKind d = k /\ rtc delivery_edge (ad_state a) (dl_state d) /\
    ad_deliveryAttempts a <= dl_deliveryAttempts d /\
    (dl_contentSha256 d = sha256 (text_bytes body) \/ dl_state d = ds_quarantined).
Proof.
  intros Hi Hf H. unfold accept_callback in H.
  destruct (callback_payload parseJson c) as [|[body payload]] eqn:Hb; [by unfold callback_payload in Hb; repeat case_match; simplify_eq|].
  exists body. split; [by unfold callback_payload in Hb; repeat case_match; simplify_eq|].
  set (i := delivery_input sha256 issueText k body payload now) in *.
  destruct (delivery_input_fields k body payload now) as [Hk Hc]. fold i in Hk, Hc.
  pose proof (accept_progress parseJson jsonValid limits proposedId i _ Hf) as Hpr. unfold commits in Hpr.
  destruct (acceptDelivery _ _ _ _ _ _) as [r l1] eqn:Hacc. cbn in Hpr.
  assert (r = Ok a /\ os_inbox o1 = after (os_inbox o) l1) as [-> Ho1] by by destruct r as [|[]]; simplify_eq.
  destruct (accept_result _ _ _ _ _ Hf Hacc) as (s1 & d & Hin & Hl & Hd & Hst & Hat & Hdk & Hdc).
  assert (Hfw : forward (ib_table s1) (ib_table (os_inbox o1))).
  { rewrite Ho1. destruct Hl as [->|(s2 & -> & Hp)]; [done|]. cbn.
    apply (prune_progress limits (di_receivedAt i) s1); [rewrite Hp; by left|]. by apply (Hpr _ Hin), oi_table. }
  destruct (Hfw _ _ Hd) as (d' & Hd' & [[He Hs _ _] Hda _ Hedge _]). exists d'. split_and!; [done|congruence| |lia|].
  - by rewrite <- Hst.
  - destruct Hdc as [Hdc|Hq]; [left; congruence|right]. by eapply quarantined_stays.
Qed.

(** ** Properties *)

(** C17. A callback that was acknowledged is never lost: through callbacks, stops and restarts at any
    commit its delivery stays in the inbox, moves only along the state machine, keeps its counts,
    and its content is the acknowledged one unless the delivery is quarantined. *)
Theorem acknowledged_callback_is_kept o k c proposedId now a o1 l o' :
  limitsSchema limits = true -> observer_reachable o -> ib_table (os_inbox o) !! proposedId = None ->
  accept_callback parseJson jsonValid sha256 issueText limits k c proposedId now o = (reply_accepted a, o1, l) ->
  rtc observer_step o1 o' ->
  exists body d, cb_body c = Some body /\ ib_table (os_inbox o') !! ad_deliveryId a = Some d /\
    dl_endpointKind d = k /\ rtc delivery_edge (ad_state a) (dl_state d) /\
    ad_deliveryAttempts a <= dl_deliveryAttempts d /\
    (dl_contentSha256 d = sha256 (text_bytes body) \/ dl_state d = ds_quarantined).
Proof.
  intros Hl Hr Hf Hacc Hsteps. pose proof (reachable_inv o Hl Hr) as Hi.
  assert (Hi1 : obs_inv o1).
  { pose proof (perform_inv (act_callback k c proposedId now) o Hi Hf) as H. cbn in H. by rewrite Hacc in H. }
  destruct (steps_inv _ _ Hsteps Hi1) as [_ Hfw].
  assert (Hbody : exists body, cb_body c = Some body /\ exists d, ib_table (os_inbox o1) !! ad_deliveryId a = Some d /\
    dl_endpointKind d = k /\ rtc delivery_edge (ad_state a) (dl_state d) /\
    ad_deliveryAttempts a <= dl_deliveryAttempts d /\
    (dl_contentSha256 d = sha256 (text_bytes body) \/ dl_state d = ds_quarantined)).
  { eapply accepted_row; [exact Hi|exact Hf|exact Hacc]. }
  destruct Hbody as (body & Hb & d & Hd & Hk & Hst & Hat & Hc). exists body.
  destruct (Hfw _ _ Hd) as (d' & Hd' & [[He Hs _ _] Hda _ Hedge _]). exists d'. split_and!; [done|done|congruence| |lia|].
  - by etransitivity.
  - destruct Hc as [Hc|Hq]; [left; congruence|right]. by eapply quarantined_stays.
Qed.

(** C19. In every reachable state the inbox is in order: one delivery per endpoint and content,
    deliveries that contradict each other about a chain position are all quarantined, only
    finished deliveries lost their payload, the queue is within the limits and the retained
    payloads within theirs. *)
Theorem inbox_stays_in_order o :
  limitsSchema limits = true -> observer_reachable o ->
  table_ok limits (ib_table (os_inbox o)) /\ within_bounds (ib_table (os_inbox o)).
Proof. intros Hl Hr. destruct (reachable_inv o Hl Hr). by split. Qed.

(** What a verified block was compared with. *)
Lemma verified_reads d reads :
  verifyObserverDelivery d reads = Ok (finish_as ds_verified verified_reason) ->
  dl_endpointKind d = ep_new_block /\
  exists height hash before fence block,
    cc_blockHeight (dl_claim d) = Some height /\ cc_indexBlockHash (dl_claim d) = Some hash /\
    vr_before reads = Ok before /\ vr_after reads = Ok fence /\ sameCanonicalTip before fence = true /\
    vr_claimedBlock reads hash = Ok block /\
    vr_canonicalBlock reads height (ti_tip_block_id before.2) = Ok block /\
    height <= ti_tip_height before.2 < height + MAX_HEADER_PROOF_DEPTH.
Proof using Type.
  unfold verifyObserverDelivery. destruct (dl_endpointKind d); [| |done].
  2: { unfold verifyBurnBlockDelivery, mbind, result_bind. intros H. repeat (case_match; simplify_eq; try done). }
  unfold verifyStacksBlockDelivery, mbind, result_bind. destruct (cc_blockHeight _) as [height|]; [|done].
  destruct (cc_blockHash _); [|done]. destruct (cc_indexBlockHash _) as [hash|]; [|done].
  destruct (vr_before reads) as [before|]; [|done]. intros H. split; [done|].
  destruct (negb _); [done|]. destruct (negb _); [done|]. destruct (_ <? height); [done|].
  destruct (_ <? height) eqn:Hlt; [done|]. destruct (MAX_HEADER_PROOF_DEPTH <=? _) eqn:Hdepth; [done|].
  unfold compareBlocks, mbind, result_bind in H. destruct (vr_claimedBlock reads hash) as [claimed|[status m|m]] eqn:Hclaimed.
  2: by destruct (status =? 404). 2: done.
  destruct (vr_canonicalBlock reads height (ti_tip_block_id before.2)) as [canonical|] eqn:Hcanonical; [|done].
  destruct (vr_after reads) as [fence|]; [|done].
  destruct (sameCanonicalTip before fence) eqn:Htip; [|done]. cbn in H. case_bool_decide; [|done]. subst canonical.
  exists height, hash, before, fence, claimed. split_and!; try done; lia.
Qed.

(** C18. A delivery is called verified only for a block callback whose claimed block the local node
    itself served under the claimed index hash, byte for byte the canonical block that it served at the
    claimed height below its tip, while the canonical tip
    was the same before and after the comparison and at most [MAX_HEADER_PROOF_DEPTH] above. *)
Theorem verified_blocks_are_canonical o id e :
  limitsSchema limits = true -> observer_reachable o -> ib_table (os_inbox o) !! id = Some e ->
  dl_state e = ds_verified ->
  exists d reads height hash before fence block,
    Shown d reads /\ about_same d e /\ dl_endpointKind e = ep_new_block /\
    cc_blockHeight (dl_claim e) = Some height /\ cc_indexBlockHash (dl_claim e) = Some hash /\
    vr_before reads = Ok before /\ vr_after reads = Ok fence /\ sameCanonicalTip before fence = true /\
    vr_claimedBlock reads hash = Ok block /\
    vr_canonicalBlock reads height (ti_tip_block_id before.2) = Ok block /\
    height <= ti_tip_height before.2 < height + MAX_HEADER_PROOF_DEPTH.
Proof.
  intros Hl Hr He Hs. destruct (oi_evidence _ (reachable_inv o Hl Hr) id e He Hs) as (d & reads & Hsh & Ha & Hv).
  destruct (verified_reads _ _ Hv) as (Hk & height & hash & before & fence & block & Hh & Hi & H).
  exists d, reads, height, hash, before, fence, block. destruct Ha as [Hek Hec Hcl Hf].
  split_and!; try apply H; try done; congruence.
Qed.

(** While the processor is started, a delivery in processing is the one whose verification is
    under way: no interruption, failed update or restart leaves one behind. *)
Theorem no_delivery_is_stuck o id e :
  limitsSchema limits = true -> observer_reachable o -> os_started o = true ->
  ib_table (os_inbox o) !! id = Some e -> dl_state e = ds_processing ->
  exists processed attempts d, os_phase o = ph_verifying processed attempts id d /\ about_same d e.
Proof.
  intros Hl Hr Hst He Hs. pose proof (reachable_inv o Hl Hr) as Hi.
  pose proof (oi_processing _ Hi Hst id e He Hs) as Hv.
  destruct (os_phase o) as [| | |processed attempts id' d|] eqn:Hph; try done. cbn in Hv. subst id'.
  exists processed, attempts, d. split; [done|]. destruct (oi_phase _ Hi _ _ _ _ Hph) as (e' & He' & Ha). congruence.
Qed.

End Process.
