(* ===== verification/ObserverStatus.v ===== *)
(** * The observer: the status equals the table

    The repository keeps running totals and its last status in memory (ObserverInbox).  Through
    every history of its operations, of status reads, of commits by other connections and of
    restarts, the status it returns is the one a full read of the table gives. *)

From S2P Require Import Prelude Text CanonicalJson OperationPlan SweepPlan Recipe LiveReader.
From S2P Require Import ObserverInbox ObserverInboxCorrect.

Open Scope string_scope.
Open Scope list_scope.
Open Scope Z_scope.

Section Status.

Context (parseJson : string -> option Wire) (jsonValid : string -> bool).

Inductive InboxOperation :=
  | op_accept (proposedId : string) (i : DeliveryInput) (limits : InboxLimits)
  | op_recover (recoveredAt : Z)
  | op_claim (claimedAt : Z)
  | op_finish (id : string) (st : DeliveryState) (reason : string) (completedAt : Z)
  | op_retry (id reason : string) (retriedAt nextAttemptAt : Z)
  | op_prune (observedAt : Z).

(** The commits of an operation, the newest first. *)
Definition op_commits (op : InboxOperation) (s : Inbox) : list Inbox :=
  match op with
  | op_accept proposedId i limits => (acceptDelivery parseJson jsonValid proposedId i limits s).2
  | op_recover recoveredAt => (recoverDeliveries recoveredAt s).2
  | op_claim claimedAt => (claimNextDelivery claimedAt s).2
  | op_finish id st reason completedAt => (finishDelivery id st reason completedAt s).2
  | op_retry id reason retriedAt nextAttemptAt => (retryDelivery id reason retriedAt nextAttemptAt s).2
  | op_prune observedAt => (prunePayloads observedAt s).2
  end.

Definition op_possible (op : InboxOperation) (s : Inbox) : Prop :=
  match op with op_accept proposedId _ _ => fresh_id proposedId s | _ => True end.

(** Another connection commits a table: SQLite raises [data_version]. *)
Definition foreign_commit (t : Table) (dataVersion : Z) (s : Inbox) : Inbox :=
  {| ib_table := t; ib_dataVersion := dataVersion; ib_revision := ib_revision s; ib_totals := ib_totals s;
     ib_status := ib_status s |}.

Inductive inbox_step : Inbox -> Inbox -> Prop :=
  | inbox_commits op s s' : op_possible op s -> s' ∈ op_commits op s -> inbox_step s s'
  | inbox_status s : inbox_step s (status s).2
  | inbox_foreign t dataVersion s : ib_dataVersion s < dataVersion -> inbox_step s (foreign_commit t dataVersion s)
  | inbox_reopens dataVersion s : inbox_step s (opened (ib_table s) dataVersion).

Lemma op_exact op s s' : op_possible op s -> s' ∈ op_commits op s -> exact s -> exact s'.
Proof.
  intros Hp Hin. destruct op; cbn in Hp, Hin; eapply pr_exact.
  - exact (accept_progress parseJson jsonValid limits proposedId i s Hp s' Hin).
  - exact (recover_progress defaultInboxLimits _ _ _ Hin).
  - exact (claim_progress defaultInboxLimits _ _ _ Hin).
  - exact (finish_progress defaultInboxLimits _ _ _ _ _ _ Hin).
  - exact (retry_progress defaultInboxLimits _ _ _ _ _ _ Hin).
  - exact (prune_progress defaultInboxLimits _ _ _ Hin).
Qed.

Lemma foreign_exact t dataVersion s : ib_dataVersion s < dataVersion -> exact s -> exact (foreign_commit t dataVersion s).
Proof.
  intros Hlt [Ht Hs]. split; cbn.
  - intros version value H. destruct (Ht _ _ H). split; [lia|]. intros. exfalso. lia.
  - intros revision version value H. destruct (Hs _ _ _ H) as (? & ? & _). split_and!; [lia..|]. intros. exfalso. lia.
Qed.

Lemma step_exact s s' : inbox_step s s' -> exact s -> exact s'.
Proof.
  intros [op s0 s1 Hp Hin|s0|t dataVersion s0 Hlt|dataVersion s0] He.
  - by eapply op_exact.
  - by apply status_exact.
  - by apply foreign_exact.
  - by split.
Qed.

(** C20. The status the repository returns, made of running totals and of a status it remembers, is
    the one a full read of the table gives: after every sequence of its commits, status reads,
    commits of other connections that leave any table, and restarts. *)
Theorem status_equals_the_table t dataVersion s :
  rtc inbox_step (opened t dataVersion) s ->
  (status s).1 ≡ readStatus (readTotals every_row (ib_table s)) (ib_table s).
Proof.
  intros H. apply status_exact. assert (He : exact (opened t dataVersion)) by by split.
  revert He. induction H as [|a b c Hs _ IH]; [done|]. intros He. by apply IH, (step_exact a).
Qed.

End Status.
