(* ===== verification/ObserverDrain.v ===== *)
(** * The observer: the drain serves the queue

    The drain loop of [ObserverInboxProcessor] while time passes and the process does other things:
    callbacks come in, the retry timer notifies, the status is read.  A delivery that the node
    cannot settle yet becomes due again every retry interval, so the loop need not become idle for
    good: what is bounded is its work until a given time, by the tries the deliveries can make until
    then, and what is promised is that an idle loop has served every delivery that was due when it
    was asked. *)

From S2P Require Import Prelude Text CanonicalJson OperationPlan SweepPlan Recipe LiveReader.
From S2P Require Import AnchorCapture ObserverInbox ObserverInboxCorrect ObserverProcess ObserverCorrect.

Open Scope string_scope.
Open Scope list_scope.
Open Scope Z_scope.

(** ** The tries of a delivery *)

(** The tries a delivery that is due at [at_] can make until [horizon], one every [interval]. *)
Definition tries_from (interval horizon at_ : Z) : Z :=
  if at_ <=? horizon then 1 + (horizon - at_) / interval else 0.

Definition row_tries (interval horizon : Z) (d : Delivery) : Z :=
  if is_pending d then tries_from interval horizon (dl_nextAttemptAt d) else 0.

Definition inbox_tries (interval horizon : Z) (t : Table) : Z := sum_rows (row_tries interval horizon) t.

Section Tries.

Context (interval horizon : Z) (interval_positive : 0 < interval).

Abbreviation tries := (tries_from interval horizon).
Abbreviation weight := (row_tries interval horizon).
Abbreviation total := (inbox_tries interval horizon).

Lemma tries_nonneg at_ : 0 <= tries at_.
Proof using interval_positive.
  unfold tries_from. destruct (at_ <=? horizon) eqn:H; [|done].
  assert (0 <= (horizon - at_) / interval) by (apply Z.div_pos; lia). lia.
Qed.

Lemma tries_mono at_ at' : at_ <= at' -> tries at' <= tries at_.
Proof using interval_positive.
  intros H. pose proof (tries_nonneg at_). unfold tries_from in *.
  destruct (at' <=? horizon) eqn:H1; [|done]. rewrite (proj2 (Z.leb_le _ _)) by lia.
  assert ((horizon - at') / interval <= (horizon - at_) / interval) by (apply Z.div_le_mono; lia). lia.
Qed.

(** A try that is put off by the interval is used up. *)
Lemma tries_used at_ now : at_ <= now -> at_ <= horizon -> tries (now + interval) + 1 <= tries at_.
Proof using interval_positive.
  intros H Hh. etransitivity; [|apply (tries_mono at_ at_); done].
  assert (tries (now + interval) <= tries (at_ + interval)) by (apply tries_mono; lia).
  assert (tries (at_ + interval) + 1 <= tries at_); [|lia].
  unfold tries_from. rewrite (proj2 (Z.leb_le _ _) Hh). destruct (_ <=? _) eqn:H1.
  - replace (horizon - at_) with (horizon - (at_ + interval) + 1 * interval) by lia. rewrite Z.div_add by lia. lia.
  - assert (0 <= (horizon - at_) / interval) by (apply Z.div_pos; lia). lia.
Qed.

Lemma weight_nonneg d : 0 <= weight d.
Proof using interval_positive. unfold row_tries. destruct (is_pending d); [apply tries_nonneg|done]. Qed.

Lemma total_nonneg t : 0 <= total t.
Proof using interval_positive. apply sum_rows_nonneg. intros. apply weight_nonneg. Qed.

Lemma total_le (t t' : Table) :
  (forall id d', t' !! id = Some d' -> exists d, t !! id = Some d /\ weight d' <= weight d) -> total t' <= total t.
Proof using interval_positive. apply sum_rows_sub. intros. apply weight_nonneg. Qed.

Lemma total_insert (t : Table) id d d' :
  t !! id = Some d -> total (<[id := d']> t) = total t - weight d + weight d'.
Proof using Type.
  intros Hd. unfold inbox_tries. rewrite <- (insert_delete_id t id d Hd) at 2.
  rewrite <- insert_delete_eq. rewrite !sum_rows_insert by apply lookup_delete_eq. lia.
Qed.

(** A row keeps its next attempt, and its state unless it leaves the queue. *)
Definition calm_row (d d' : Delivery) : Prop :=
  dl_nextAttemptAt d' = dl_nextAttemptAt d /\ (dl_state d' = dl_state d \/ terminal (dl_state d') = true).

Lemma calm_weight d d' : calm_row d d' -> weight d' <= weight d.
Proof using interval_positive.
  intros [Hn Hs]. pose proof (weight_nonneg d). unfold row_tries, is_pending in *. rewrite Hn. destruct Hs as [->|Hs]; [done|].
  by destruct (dl_state d').
Qed.

Lemma total_calm (t t' : Table) :
  (forall id d', t' !! id = Some d' -> exists d, t !! id = Some d /\ calm_row d d') -> total t' <= total t.
Proof using interval_positive. intros H. apply total_le. intros id d' Hd'. destruct (H id d' Hd') as (d & Hd & Hc). eauto using calm_weight. Qed.

End Tries.

(** ** What a callback does to the rows *)

Definition calm_but (proposedId : string) (receivedAt : Z) (s s' : Inbox) : Prop :=
  forall id d', ib_table s' !! id = Some d' ->
    (exists d, ib_table s !! id = Some d /\ calm_row d d') \/
    id = proposedId /\ ib_table s !! id = None /\
      (dl_nextAttemptAt d' = receivedAt \/ terminal (dl_state d') = true) /\ dl_state d' <> ds_processing.

Lemma calm_row_refl d : calm_row d d.
Proof. split; auto. Qed.

Lemma calm_row_trans a b c : calm_row a b -> calm_row b c -> calm_row a c.
Proof. intros [Hn Hs] [Hn' Hs']. split; [congruence|]. destruct Hs' as [->|]; auto. Qed.

Lemma prune_calm observedAt s id d' :
  ib_table (after s (prunePayloads observedAt s).2) !! id = Some d' ->
  exists d, ib_table s !! id = Some d /\ calm_row d d'.
Proof.
  unfold prunePayloads. destruct (within_retention _ _); cbn; [intros H; exists d'; split; [done|apply calm_row_refl]|].
  rewrite lookup_update_rows. destruct (ib_table s !! id) as [d|]; [|done]. intros [= <-]. exists d. split; [done|].
  destruct (existsb _ _); [by split; auto|apply calm_row_refl].
Qed.

Lemma accept_calm parseJson jsonValid limits proposedId i s :
  ib_table s !! proposedId = None ->
  calm_but proposedId (di_receivedAt i) s (after s (acceptDelivery parseJson jsonValid proposedId i limits s).2).
Proof.
  intros Hf. assert (Hid : forall s, calm_but proposedId (di_receivedAt i) s s)
    by (intros s0 id d Hd; left; exists d; split; [done|apply calm_row_refl]).
  unfold acceptDelivery, demand_inbox. destruct (observerDeliveryInputSchema parseJson i && _) eqn:Hi; [|apply Hid].
  rewrite bind_run. cbn [mret store_ret after List.hd]. rewrite bind_run. unfold mutate.
  destruct (accept_write _ _ _ _ _) as [[[[id st] attempts] t']|e] eqn:Hw; [|apply Hid].
  set (s1 := {| ib_table := t' |}).
  assert (H1 : calm_but proposedId (di_receivedAt i) s s1).
  { apply accept_write_inv in Hw as (t1 & st1 & reason & id1 & row & Ht1 & Hf1 & _ & Ht & Hrow); [|done].
    assert (Hback : forall j e, t1 !! j = Some e -> exists d, ib_table s !! j = Some d /\ calm_row d e).
    { intros j e He. destruct Ht1 as [(_ & -> & _)|(_ & _ & _ & ->)]; [exists e; split; [done|apply calm_row_refl]|].
      rewrite lookup_update_rows in He. destruct (ib_table s !! j) as [d|]; [|done]. injection He as <-.
      exists d. split; [done|]. destruct (same_position i d); [by split; [|right]|apply calm_row_refl]. }
    intros j e' He'. change (ib_table s1) with t' in He'. rewrite Ht in He'.
    apply lookup_insert_Some in He' as [[<- <-]|[Hn He']]; [|left; by apply Hback].
    destruct Hrow as [(-> & -> & _)|(Hn & d & Hd & _ & ->)].
    - right. split_and!; [done|done|by left|]. cbn. destruct Ht1 as [(_ & _ & -> & _)|(_ & -> & _)]; [|done].
      apply andb_true_iff in Hi as [Hi _]. unfold observerDeliveryInputSchema in Hi.
      assert (Hst : di_state i ∈ [ds_claimed; ds_quarantined; ds_expired]) by by breflect.
      rewrite !elem_of_cons in Hst. by destruct Hst as [->|[->|[->|[]%not_elem_of_nil]]].
    - left. destruct (Hback _ _ Hd) as (d0 & Hd0 & Hc). exists d0. split; [done|]. eapply calm_row_trans; [exact Hc|].
      split; [done|]. unfold received_again. cbn. case_bool_decide; auto. }
  rewrite bind_run. cbn [after List.hd]. case_bool_decide; [done|]. cbn [mret store_ret].
  pose proof (prune_calm (di_receivedAt i) s1) as Hp. destruct (prunePayloads (di_receivedAt i) s1) as [[n|e] l] eqn:Hpr.
  2: { exfalso. unfold prunePayloads in Hpr. by destruct (within_retention _ _). }
  cbn in Hp |- *. intros j e' He'.
  assert (He1 : exists d1, t' !! j = Some d1 /\ calm_row d1 e') by (apply Hp; by destruct l).
  destruct He1 as (d1 & Hd1 & Hc). destruct (H1 j d1 Hd1) as [(d & Hd & Hc1)|(Hj & Hnone & Hnext & Hpr1)].
  - left. exists d. split; [done|]. by eapply calm_row_trans.
  - right. destruct Hc as [Hnx Hst]. split_and!; [done..| |].
    + destruct Hnext as [Hnext|Hnext]; [left; congruence|]. right. destruct Hst as [->|]; done.
    + destruct Hst as [->|Hst]; [done|]. by destruct (dl_state e').
Qed.

(** ** Settling the delivery that was verified *)

Lemma verify_reasons d reads outcome :
  verifyObserverDelivery d reads = Ok outcome ->
  match outcome with
  | finish_as st reason => terminal st = true /\ reasonSchema reason = true
  | retry_later reason => reasonSchema reason = true
  end.
Proof.
  unfold verifyObserverDelivery, verifyStacksBlockDelivery, verifyBurnBlockDelivery, compareBlocks, mbind, result_bind.
  intros H. repeat (case_match; simplify_eq; try done); by split.
Qed.

Lemma after_prune observedAt s s1 :
  after s ((prunePayloads observedAt s1).2 ++ [s1]) = after s1 (prunePayloads observedAt s1).2.
Proof. unfold prunePayloads. by destruct (within_retention _ _). Qed.

Section Settle.

Context (interval horizon : Z) (interval_positive : 0 < interval).

Abbreviation weight := (row_tries interval horizon).
Abbreviation total := (inbox_tries interval horizon).

Lemma settles_total id f s s' :
  settles id f s s' -> (forall d, ib_table s !! id = Some d -> dl_nextAttemptAt d <= horizon) ->
  (forall d, ib_table s !! id = Some d -> weight (f d) + 1 <= tries_from interval horizon (dl_nextAttemptAt d)) ->
  total (ib_table s') + 1 <= total (ib_table s).
Proof using Type.
  intros (d & Hd & Hs & Ht) Hh Hf. rewrite Ht, (total_insert _ _ _ _ d) by done. specialize (Hf d Hd).
  enough (weight d = tries_from interval horizon (dl_nextAttemptAt d)) by lia.
  unfold row_tries, is_pending. by rewrite Hs.
Qed.

Lemma finished_weight id st reason completedAt s :
  terminal st = true -> (forall d, ib_table s !! id = Some d -> dl_nextAttemptAt d <= horizon) ->
  forall d, ib_table s !! id = Some d ->
  weight (with_state st reason (Some completedAt) completedAt d) + 1 <= tries_from interval horizon (dl_nextAttemptAt d).
Proof using interval_positive.
  intros Ht Hh d Hd. specialize (Hh d Hd). unfold row_tries, is_pending. cbn.
  assert (bool_decide (st ∈ [ds_claimed; ds_processing]) = false) as -> by by destruct st.
  unfold tries_from. rewrite (proj2 (Z.leb_le _ _) Hh).
  assert (0 <= (horizon - dl_nextAttemptAt d) / interval) by (apply Z.div_pos; lia). lia.
Qed.

Lemma requeued_weight id reason now s :
  (forall d, ib_table s !! id = Some d -> dl_nextAttemptAt d <= now /\ dl_nextAttemptAt d <= horizon) ->
  forall d, ib_table s !! id = Some d ->
  weight (requeued reason (now + interval) now d) + 1 <= tries_from interval horizon (dl_nextAttemptAt d).
Proof using interval_positive. intros H d Hd. destruct (H d Hd). unfold row_tries. cbn. by apply tries_used. Qed.

(** A settled delivery has used up a try, and the return of the drain gives none back. *)
Lemma settled_total id outcome completedAt retriedAt s r l :
  Settled interval id outcome completedAt retriedAt s r l -> completedAt <= retriedAt ->
  processing_only (fun j => j = id) (ib_table s) ->
  (forall d, ib_table s !! id = Some d -> dl_nextAttemptAt d <= completedAt /\ dl_nextAttemptAt d <= horizon) ->
  match r with
  | Ok (goes_on_batch _) => total (ib_table (after s l)) + 1 <= total (ib_table s)
  | _ => total (ib_table (after s l)) <= total (ib_table s)
  end.
Proof using interval_positive.
  intros H Hle Hp Hn.
  assert (Hh : forall d, ib_table s !! id = Some d -> dl_nextAttemptAt d <= horizon) by (intros d Hd; apply (Hn d Hd)).
  assert (Hnow : forall now, now = completedAt \/ now = retriedAt -> forall d, ib_table s !! id = Some d ->
    dl_nextAttemptAt d <= now /\ dl_nextAttemptAt d <= horizon)
    by (intros now Hx d Hd; destruct (Hn d Hd); split; [destruct Hx as [->| ->]; lia|done]).
  destruct H as [st reason s1 _ Ht Hs|reason s1 _ Hs|reason now s1 Hx Hs|now s1 Hx Hr]; cbn [after List.hd].
  - rewrite after_prune. assert (total (ib_table (after s1 (prunePayloads completedAt s1).2)) <= total (ib_table s1)).
    { apply total_calm; [done|]. apply prune_calm. }
    pose proof (settles_total _ _ _ _ Hs Hh (finished_weight id _ _ _ _ Ht Hh)). lia.
  - apply (settles_total _ _ _ _ Hs Hh). apply requeued_weight, Hnow. by left.
  - pose proof (settles_total _ _ _ _ Hs Hh (requeued_weight id reason now s (Hnow now Hx))). lia.
  - apply total_le; [done|]. intros j d' Hd'. rewrite Hr, lookup_update_rows in Hd'.
    destruct (ib_table s !! j) as [d|] eqn:Hd; [|done]. injection Hd' as <-. exists d. split; [done|].
    destruct (is_processing j d) eqn:Hpr; [|done]. unfold is_processing in Hpr. breflect.
    pose proof (Hp j d Hd Hpr) as ->. destruct (Hnow now Hx d Hd) as [Hle' _].
    unfold row_tries, is_pending. rewrite Hpr. cbn. by apply tries_mono.
Qed.

(** A verification that answered settles its delivery, when that is still in processing. *)
Lemma settle_answered messageOf id outcome completedAt retriedAt s e d reads :
  verifyObserverDelivery d reads = Ok outcome -> ib_table s !! id = Some e -> dl_state e = ds_processing ->
  exists b : bool,
    (settle_verified messageOf interval id (Ok outcome) completedAt retriedAt s).1 = Ok (goes_on_batch b).
Proof using interval_positive.
  intros Hv He Hs. pose proof (verify_reasons _ _ _ Hv) as Hr. unfold ObserverProcess.settle_verified.
  destruct outcome as [st reason|reason].
  - destruct Hr as [Ht Hreason]. unfold catch_inbox. rewrite (bind_run (finishDelivery id st reason completedAt)).
    destruct (finish_cases id st reason completedAt s) as [(s1 & -> & _)|[_ Hno]]; [by exists true|].
    by destruct (Hno Ht Hreason e He).
  - rewrite bind_run. destruct (returnToQueue_cases interval id reason completedAt s) as ([] & s' & -> & Hse);
      [|by exists false]. by destruct (proj2 Hse Hr interval_positive e He).
Qed.

End Settle.

(** ** Runs until a time *)

Section Drain.

Context (parseJson : string -> option Wire) (jsonValid : string -> bool) (sha256 : list Z -> string)
        (issueText : EndpointKind -> Wire -> string) (messageOf : InboxError -> string)
        (limits : InboxLimits) (retryIntervalMs maxBatchSize : Z) (Shown : Delivery -> VerifyReads -> Prop).

(** The runs until [horizon].  An undisturbed run is one in which the processor may process, and
    every verification gets an answer and finds its delivery still in processing: a failed or
    overtaken one makes the drain return, to go on at the next tick of the timer. *)
Context (horizon : Z) (undisturbed : bool).

Abbreviation perform := (perform parseJson jsonValid sha256 issueText messageOf limits retryIntervalMs maxBatchSize).
Abbreviation possible := (possible Shown).
Abbreviation total := (inbox_tries retryIntervalMs horizon).
Abbreviation table o := (ib_table (os_inbox o)).

(** A step of the processor, from one time to another. *)
Inductive processes : Z -> Observer -> Z -> Observer -> Prop :=
  | processes_loop clock o processed canProcess :
      os_phase o = ph_loop processed -> (undisturbed = true -> canProcess = true) ->
      processes clock o clock (perform (act_loop canProcess) o).1
  | processes_claim clock o processed attempts now :
      os_phase o = ph_batch processed attempts -> clock <= now <= horizon ->
      processes clock o now (perform (act_claim now) o).1
  | processes_answer clock o processed attempts id d reads completedAt retriedAt :
      os_phase o = ph_verifying processed attempts id d -> Shown d reads ->
      clock <= completedAt <= retriedAt ->
      (undisturbed = true ->
         (exists outcome, verifyObserverDelivery d reads = Ok outcome) /\
         exists e, table o !! id = Some e /\ dl_state e = ds_processing) ->
      processes clock o retriedAt (perform (act_answered reads completedAt retriedAt) o).1
  | processes_yielded clock o processed :
      os_phase o = ph_yielding processed -> processes clock o clock (perform act_yielded o).1.

(** The node can answer a verification that is under way. *)
Definition answerable (o : Observer) : Prop :=
  forall processed attempts id d, os_phase o = ph_verifying processed attempts id d ->
  exists reads, Shown d reads /\
    (undisturbed = true ->
       (exists outcome, verifyObserverDelivery d reads = Ok outcome) /\
       exists e, table o !! id = Some e /\ dl_state e = ds_processing).

(** What else happens, and the work it may make. *)
Inductive interferes : Z -> Observer -> Z -> Z -> Observer -> Prop :=
  | interferes_callback clock o endpointKind c proposedId now :
      possible (act_callback endpointKind c proposedId now) o -> clock <= now ->
      interferes clock o (12 * tries_from retryIntervalMs horizon now) now
        (perform (act_callback endpointKind c proposedId now) o).1
  | interferes_status clock o : interferes clock o 0 clock (perform act_status o).1
  | interferes_notify clock o : interferes clock o 7 clock (perform act_notify o).1.

(** [drain_run clock o steps work clock' o']: the processor made [steps] steps. *)
Inductive drain_run : Z -> Observer -> nat -> Z -> Z -> Observer -> Prop :=
  | drain_ends clock o : drain_run clock o 0 0 clock o
  | run_processes clock o clock1 o1 steps work clock' o' :
      processes clock o clock1 o1 -> drain_run clock1 o1 steps work clock' o' ->
      drain_run clock o (S steps) work clock' o'
  | run_interferes clock o cost clock1 o1 steps work clock' o' :
      interferes clock o cost clock1 o1 -> drain_run clock1 o1 steps work clock' o' ->
      drain_run clock o steps (cost + work) clock' o'.

Section Serves.

Context (interval_positive : 0 < retryIntervalMs) (batch_positive : 1 <= maxBatchSize).

(** *** The invariant of the loop and its measure *)

Record draining (clock : Z) (o : Observer) : Prop := {
  dr_inv : obs_inv limits Shown o;
  dr_started : os_started o = true;
  dr_phase : match os_phase o with
             | ph_verifying _ attempts id _ =>
                 attempts <= maxBatchSize /\
                 forall e, table o !! id = Some e -> dl_nextAttemptAt e <= clock /\ dl_nextAttemptAt e <= horizon
             | ph_batch _ attempts => attempts <= maxBatchSize
             | ph_yielding _ => os_drainRequested o = true
             | _ => True
             end;
}.

Definition phase_rank (p : Phase) : Z :=
  match p with
  | ph_idle => 0
  | ph_loop _ => 1
  | ph_yielding _ => 2
  | ph_batch _ attempts => if attempts <? maxBatchSize then 3 else 9
  | ph_verifying _ _ _ _ => 2
  end.

Definition drain_rank (o : Observer) : Z :=
  12 * total (table o) + (if os_drainRequested o then 6 else 0) + phase_rank (os_phase o).

Lemma drain_rank_nonneg o : 0 <= drain_rank o.
Proof using interval_positive.
  unfold drain_rank, phase_rank. pose proof (total_nonneg retryIntervalMs horizon interval_positive (table o)).
  destruct (os_drainRequested o), (os_phase o); try case_match; lia.
Qed.

Lemma end_drain_unasked o : os_phase (end_drain (set_drain false o)) = ph_idle /\
  os_drainRequested (end_drain (set_drain false o)) = false /\ os_inbox (end_drain (set_drain false o)) = os_inbox o /\
  os_started (end_drain (set_drain false o)) = os_started o.
Proof using Type. unfold end_drain. cbn. by rewrite andb_false_r. Qed.

Lemma idle_draining clock o' :
  obs_inv limits Shown o' -> os_started o' = true -> os_phase o' = ph_idle -> draining clock o'.
Proof using Type. intros Hi Hst Hph. split; [done|done|by rewrite Hph]. Qed.

Lemma loop_drains clock o processed canProcess :
  draining clock o -> os_phase o = ph_loop processed ->
  draining clock (perform (act_loop canProcess) o).1 /\ drain_rank (perform (act_loop canProcess) o).1 < drain_rank o.
Proof using batch_positive.
  intros Hdr He. pose proof Hdr as [Hi Hst _].
  pose proof (loop_inv parseJson jsonValid sha256 issueText messageOf limits retryIntervalMs maxBatchSize Shown
    canProcess o Hi) as Hi'.
  unfold ObserverProcess.perform in *. rewrite He, Hst in *. cbn [andb] in *.
  destruct (os_drainRequested o) eqn:Hd; [destruct canProcess|]; cbn [fst] in *; unfold drain_rank; rewrite He, Hd.
  - split; [split; cbn; [done|done|lia]|]. cbn. destruct (0 <? maxBatchSize) eqn:Hb; lia.
  - destruct (end_drain_unasked o) as (Hp & Hq & Hb & Hs).
    split; [apply idle_draining; [done|by rewrite ?Hs|done]|]. rewrite Hp, Hq, Hb. cbn. lia.
  - assert (Heq : end_drain o = set_phase ph_idle o) by (unfold end_drain; cbn; by rewrite Hst, Hd).
    rewrite Heq in *. split; [by apply idle_draining|]. cbn. rewrite Hd. lia.
Qed.

Lemma yield_drains clock o processed :
  draining clock o -> os_phase o = ph_yielding processed ->
  draining clock (perform act_yielded o).1 /\ drain_rank (perform act_yielded o).1 < drain_rank o.
Proof using Type.
  intros [Hi Hst Hph] He.
  pose proof (perform_inv parseJson jsonValid sha256 issueText messageOf limits retryIntervalMs maxBatchSize Shown
    act_yielded o Hi I) as Hi'.
  unfold ObserverProcess.perform, drain_rank in *. rewrite He in *. cbn in *. split; [by split|lia].
Qed.

Lemma end_batch_rank processed attempts o o1 :
  os_phase o = ph_batch processed attempts -> attempts <= maxBatchSize -> os_drainRequested o1 = os_drainRequested o ->
  table o1 = table o -> drain_rank (end_batch maxBatchSize processed attempts o1) < drain_rank o.
Proof using batch_positive.
  intros He Hle Hd Ht. unfold end_batch, drain_rank. rewrite He.
  destruct (attempts =? maxBatchSize) eqn:Hfull; cbn; rewrite Ht, ?Hd.
  - apply Z.eqb_eq in Hfull. subst attempts. rewrite Z.ltb_irrefl. destruct (os_drainRequested o); lia.
  - apply Z.eqb_neq in Hfull. rewrite (proj2 (Z.ltb_lt _ _)) by lia. lia.
Qed.

Lemma end_batch_draining clock processed attempts o1 :
  obs_inv limits Shown (end_batch maxBatchSize processed attempts o1) -> os_started o1 = true ->
  draining clock (end_batch maxBatchSize processed attempts o1).
Proof using Type. intros Hi Hst. split; [done|..]; unfold end_batch; by destruct (_ =? _). Qed.

Lemma claim_drains clock o processed attempts now :
  draining clock o -> os_phase o = ph_batch processed attempts -> clock <= now <= horizon ->
  draining now (perform (act_claim now) o).1 /\ drain_rank (perform (act_claim now) o).1 < drain_rank o.
Proof using batch_positive.
  intros [Hi Hst Hph] He Hnow.
  pose proof (claim_inv parseJson jsonValid sha256 issueText messageOf limits retryIntervalMs maxBatchSize Shown
    now o Hi) as Hi'.
  unfold ObserverProcess.perform in *. rewrite He, Hst, ?andb_true_r in *.
  destruct (attempts <? maxBatchSize) eqn:Hlt; cbn [fst] in *;
    [|by split; [apply end_batch_draining|apply end_batch_rank]].
  destruct (claim_cases now (os_inbox o)) as (r & s' & Heq & Hr). rewrite Heq in *. destruct r as [[id d']|]; cbn [fst] in *.
  - destruct Hr as (d & Hd & Hdue & -> & Ht). unfold is_due in Hdue. apply andb_prop in Hdue as [Hs Hdue].
    apply bool_decide_eq_true in Hs. apply Z.leb_le in Hdue. apply Z.ltb_lt in Hlt. split.
    + split; [done|done|]. cbn. rewrite Ht. split; [lia|]. intros e. rewrite lookup_insert_eq. intros [= <-]. cbn. lia.
    + unfold drain_rank. rewrite He. cbn. rewrite Ht, (total_insert _ _ _ _ d), (proj2 (Z.ltb_lt _ _)) by done.
      enough (row_tries retryIntervalMs horizon (taken now d) = row_tries retryIntervalMs horizon d) by lia.
      unfold row_tries, is_pending. cbn. by rewrite Hs.
  - destruct Hr as [Ht _]. cbn [after List.hd] in *. by split; [apply end_batch_draining|apply end_batch_rank].
Qed.

Lemma answered_drains clock o processed attempts id d reads completedAt retriedAt :
  draining clock o -> os_phase o = ph_verifying processed attempts id d -> Shown d reads ->
  clock <= completedAt <= retriedAt ->
  draining retriedAt (perform (act_answered reads completedAt retriedAt) o).1 /\
  drain_rank (perform (act_answered reads completedAt retriedAt) o).1 < drain_rank o.
Proof using interval_positive batch_positive.
  intros [Hi Hst Hph] He Hsh Hnow.
  assert (Hpos : possible (act_answered reads completedAt retriedAt) o) by (cbn; by rewrite He).
  pose proof (perform_inv parseJson jsonValid sha256 issueText messageOf limits retryIntervalMs maxBatchSize Shown
    (act_answered reads completedAt retriedAt) o Hi Hpos) as Hi'.
  pose proof (oi_processing _ _ _ Hi Hst) as Hpr. unfold ObserverProcess.perform in *. rewrite He in *. destruct Hph as [Hle Hn].
  pose proof (settle_verified_settled messageOf retryIntervalMs id (verifyObserverDelivery d reads) completedAt retriedAt
    (os_inbox o)) as Hse.
  pose proof (settled_total retryIntervalMs horizon interval_positive _ _ _ _ _ _ _ Hse (proj2 Hnow) Hpr) as Htotal.
  destruct (settle_verified _ _ _ _ _) as [r l]. cbn [fst snd] in *.
  assert (Ht : match r with
               | Ok (goes_on_batch _) => total (ib_table (after (os_inbox o) l)) + 1 <= total (table o)
               | _ => total (ib_table (after (os_inbox o) l)) <= total (table o)
               end) by (apply Htotal; intros e He'; destruct (Hn e He'); split; lia).
  destruct r as [[done_|]|e]; cbn [fst] in *; unfold drain_rank; rewrite He.
  - split; [by split|]. cbn. destruct (attempts <? maxBatchSize); destruct (os_drainRequested o); lia.
  - destruct (end_drain_unasked (set_inbox (after (os_inbox o) l) o)) as (Hp & Hq & Hb & Hs).
    split; [apply idle_draining; [done|by rewrite ?Hs|done]|]. rewrite Hp, Hq, Hb. cbn. destruct (os_drainRequested o); lia.
  - destruct (end_drain_unasked (set_inbox (after (os_inbox o) l) o)) as (Hp & Hq & Hb & Hs).
    split; [apply idle_draining; [done|by rewrite ?Hs|done]|]. rewrite Hp, Hq, Hb. cbn. destruct (os_drainRequested o); lia.
Qed.

Lemma processes_drains clock o clock' o' :
  processes clock o clock' o' -> draining clock o -> draining clock' o' /\ drain_rank o' < drain_rank o.
Proof using interval_positive batch_positive.
  intros H Hdr. destruct H as [clock o processed canProcess He _|clock o processed attempts now He Hn
    |clock o processed attempts id d reads completedAt retriedAt He Hs Hn _|clock o processed He].
  - by eapply loop_drains.
  - by eapply claim_drains.
  - by eapply answered_drains.
  - by eapply yield_drains.
Qed.

(** *** What happens meanwhile *)

Lemma notify_phase o :
  os_started o = true ->
  os_drainRequested (notify o) = true /\ os_phase (notify o) = match os_phase o with ph_idle => ph_loop 0 | p => p end.
Proof using Type. intros Hs. unfold notify, begin_drain. rewrite Hs. cbn. by destruct (os_phase o) eqn:Hp; cbn; rewrite ?Hp. Qed.

(** The rows of the callback's new inbox. *)
Lemma callback_rows endpointKind c proposedId now o :
  possible (act_callback endpointKind c proposedId now) o ->
  let o' := (perform (act_callback endpointKind c proposedId now) o).1 in
  os_phase o' = os_phase o /\ os_started o' = os_started o /\ os_drainRequested o' = os_drainRequested o /\
  calm_but proposedId now (os_inbox o) (os_inbox o').
Proof using Type.
  intros Hp. cbn [ObserverProcess.perform]. unfold accept_callback.
  destruct (callback_payload _ _) as [reply|[body payload]].
  { cbn. split_and!; [done..|]. intros id d Hd. left. exists d. split; [done|apply calm_row_refl]. }
  pose proof (accept_calm parseJson jsonValid limits proposedId (delivery_input sha256 issueText endpointKind body payload now)
    (os_inbox o) Hp) as Hc.
  assert (Hr : di_receivedAt (delivery_input sha256 issueText endpointKind body payload now) = now)
    by (unfold delivery_input; by destruct (deliveryClaim _ _ _) as [[? ?] ?]).
  rewrite Hr in Hc. destruct (acceptDelivery _ _ _ _ _ _) as [r l]. by destruct r as [a|[]]; cbn in *.
Qed.

Lemma calm_total proposedId now s s' :
  calm_but proposedId now s s' ->
  total (ib_table s') <= total (ib_table s) + tries_from retryIntervalMs horizon now.
Proof using interval_positive.
  intros H. pose proof (tries_nonneg retryIntervalMs horizon interval_positive now) as Hpos.
  destruct (ib_table s' !! proposedId) as [d'|] eqn:Hd'.
  - destruct (H _ _ Hd') as [(d & Hd & _)|(_ & Hnone & Hx & _)].
    + enough (total (ib_table s') <= total (ib_table s)) by lia. apply total_calm; [done|]. intros id e He.
      destruct (H id e He) as [|(-> & Hn & _)]; [done|congruence].
    + rewrite <- (insert_delete_id _ _ _ Hd'). unfold inbox_tries at 1. rewrite sum_rows_insert by apply lookup_delete_eq.
      assert (Hw : row_tries retryIntervalMs horizon d' <= tries_from retryIntervalMs horizon now).
      { unfold row_tries. destruct Hx as [->|Hx]; [by destruct (is_pending d')|].
        unfold is_pending. by destruct (dl_state d'). }
      enough (total (delete proposedId (ib_table s')) <= total (ib_table s)) by (unfold inbox_tries in *; lia).
      apply total_calm; [done|]. intros id e [Hne He]%lookup_delete_Some.
      destruct (H id e He) as [|(-> & _)]; [done|congruence].
  - enough (total (ib_table s') <= total (ib_table s)) by lia. apply total_calm; [done|]. intros id e He.
    destruct (H id e He) as [|(-> & _)]; [done|congruence].
Qed.

Lemma interferes_drains clock o cost clock' o' :
  interferes clock o cost clock' o' -> draining clock o -> draining clock' o' /\ drain_rank o' <= drain_rank o + cost.
Proof using interval_positive.
  intros H [Hi Hst Hph]. destruct H as [clock o endpointKind c proposedId now Hp Hle|clock o|clock o].
  - pose proof (perform_inv parseJson jsonValid sha256 issueText messageOf limits retryIntervalMs maxBatchSize Shown
      _ o Hi Hp) as Hi'.
    destruct (callback_rows _ _ _ _ _ Hp) as (Hph' & Hst' & Hd' & Hc). pose proof (calm_total _ _ _ _ Hc) as Ht.
    set (o' := (perform _ o).1) in *. split.
    + split; [done|congruence|]. rewrite Hph', Hd'. destruct (os_phase o) as [| | |p a id d|] eqn:He; try done.
      destruct Hph as [Ha Hn]. split; [done|]. intros e' He'.
      destruct (Hc id e' He') as [(e & Hrow & [Hnx _])|(-> & Hnone & _)].
      * rewrite Hnx. destruct (Hn e Hrow). lia.
      * destruct (oi_phase _ _ _ Hi _ _ _ _ He) as (e & Hrow & _). congruence.
    + unfold drain_rank. rewrite Hph', Hd'. lia.
  - pose proof (status_inv parseJson jsonValid sha256 issueText messageOf limits retryIntervalMs maxBatchSize Shown o Hi) as Hi'.
    assert (Ht : table (perform act_status o).1 = table o).
    { cbn. unfold status. destruct (ib_status _) as [[[r v] x]|]; [|done]. by destruct (_ && _). }
    split; [|unfold drain_rank; rewrite Ht; cbn; lia]. split; [done|done|]. rewrite Ht. exact Hph.
  - pose proof (perform_inv parseJson jsonValid sha256 issueText messageOf limits retryIntervalMs maxBatchSize Shown
      act_notify o Hi I) as Hi'.
    cbn [ObserverProcess.perform fst] in *. destruct (notify_control o) as (Hs & Hst' & _).
    destruct (notify_phase o Hst) as [Hd Hp]. split.
    + split; [done|congruence|]. rewrite Hs, Hp, Hd. by destruct (os_phase o).
    + unfold drain_rank. rewrite Hs, Hp, Hd. destruct (os_drainRequested o), (os_phase o); cbn; try case_match; lia.
Qed.

Lemma run_drains clock o steps work clock' o' :
  drain_run clock o steps work clock' o' -> draining clock o ->
  draining clock' o' /\ Z.of_nat steps <= drain_rank o - drain_rank o' + work.
Proof using interval_positive batch_positive.
  induction 1 as [clock o|clock o clock1 o1 steps work clock' o' Hp _ IH|clock o cost clock1 o1 steps work clock' o' Hn _ IH];
    intros Hdr; [split; [done|lia]|..].
  - destruct (processes_drains _ _ _ _ Hp Hdr) as [Hdr1 Hlt]. destruct (IH Hdr1). split; [done|lia].
  - destruct (interferes_drains _ _ _ _ _ Hn Hdr) as [Hdr1 Hle]. destruct (IH Hdr1). split; [done|lia].
Qed.

(** *** The deliveries that were due *)

(** Of the deliveries in [asked], none waits that was due at [askedAt]. *)
Definition served (asked : Table) (askedAt : Z) (t : Table) : Prop :=
  forall id d, is_Some (asked !! id) -> t !! id = Some d -> dl_state d = ds_claimed -> askedAt < dl_nextAttemptAt d.

Record serving (asked : Table) (askedAt clock : Z) (o : Observer) : Prop := {
  se_clock : askedAt <= clock;
  se_rows : forall id, is_Some (asked !! id) -> is_Some (table o !! id);
  se_phase : match os_phase o with
             | ph_idle => served asked askedAt (table o)
             | ph_batch _ _ | ph_verifying _ _ _ _ => True
             | _ => os_drainRequested o = true \/ served asked askedAt (table o)
             end;
}.

(** No action loses a row. *)
Lemma rows_stay a o asked askedAt clock :
  obs_inv limits Shown o -> possible a o -> serving asked askedAt clock o ->
  forall id, is_Some (asked !! id) -> is_Some (table (perform a o).1 !! id).
Proof using Type.
  intros Hi Hp Hs id Hid. destruct (se_rows _ _ _ _ Hs id Hid) as [d Hd].
  destruct (step_forward parseJson jsonValid sha256 issueText messageOf limits retryIntervalMs maxBatchSize Shown o _ Hi
    (step_performs _ _ _ _ _ _ _ _ _ _ _ Hp)) as [_ Hf].
  destruct (Hf id d Hd) as (d' & -> & _). done.
Qed.

Lemma processes_serves clock o clock' o' asked askedAt :
  undisturbed = true -> processes clock o clock' o' -> draining clock o -> serving asked askedAt clock o ->
  serving asked askedAt clock' o'.
Proof using interval_positive.
  intros Hu H [Hi Hst Hph] Hse. destruct H as [clock o processed canProcess He Hc|clock o processed attempts now He Hn
    |clock o processed attempts id d reads completedAt retriedAt He Hs Hn Ha|clock o processed He].
  - pose proof (rows_stay (act_loop canProcess) o _ _ _ Hi I Hse) as Hrows. split; [apply Hse|done|]. rewrite (Hc Hu).
    pose proof (se_phase _ _ _ _ Hse) as Hs. unfold ObserverProcess.perform. rewrite He, Hst in *.
    destruct (os_drainRequested o) eqn:Hd; [done|]. cbn [andb fst]. unfold end_drain. cbn. rewrite Hst, Hd. cbn.
    by destruct Hs.
  - pose proof (rows_stay (act_claim now) o _ _ _ Hi I Hse) as Hrows. pose proof (se_clock _ _ _ _ Hse) as Hck.
    split; [lia|done|]. rewrite He in Hph. unfold ObserverProcess.perform. rewrite He, Hst, andb_true_r.
    destruct (attempts <? maxBatchSize) eqn:Hlt; cbn [fst].
    2: { unfold end_batch. rewrite (proj2 (Z.eqb_eq _ _)) by lia. by left. }
    destruct (claim_cases now (os_inbox o)) as (r & s' & -> & Hr). destruct r as [[id d']|]; [done|]. cbn [fst].
    destruct Hr as [Ht Hnone]. unfold end_batch. rewrite (proj2 (Z.eqb_neq _ _)) by lia. right. cbn. rewrite Ht.
    intros id d _ Hd Hcl. specialize (Hnone id d Hd). unfold is_due in Hnone. rewrite Hcl in Hnone. cbn in Hnone. apply Z.leb_gt in Hnone. lia.
  - assert (Hp : possible (act_answered reads completedAt retriedAt) o) by (cbn; by rewrite He).
    pose proof (rows_stay _ o _ _ _ Hi Hp Hse) as Hrows. pose proof (se_clock _ _ _ _ Hse) as Hck.
    split; [lia|done|]. destruct (Ha Hu) as [[outcome Hv] (e & Hrow & Hpr)]. unfold ObserverProcess.perform. rewrite He, Hv.
    destruct (settle_answered retryIntervalMs interval_positive messageOf id outcome completedAt retriedAt (os_inbox o) e d
      reads Hv Hrow Hpr) as [b Hb].
    destruct (settle_verified _ _ _ _ _) as [r l]. cbn in Hb. by subst r.
  - pose proof (rows_stay act_yielded o _ _ _ Hi I Hse) as Hrows. split; [apply Hse|done|].
    rewrite He in Hph. unfold ObserverProcess.perform. rewrite He. by left.
Qed.

Lemma interferes_serves clock o cost clock' o' asked askedAt :
  interferes clock o cost clock' o' -> draining clock o -> serving asked askedAt clock o ->
  serving asked askedAt clock' o'.
Proof using Type.
  intros H [Hi Hst _] Hse. pose proof (se_clock _ _ _ _ Hse) as Hck.
  destruct H as [clock o endpointKind c proposedId now Hp Hle|clock o|clock o].
  - pose proof (rows_stay _ o _ _ _ Hi Hp Hse) as Hrows.
    destruct (callback_rows _ _ _ _ _ Hp) as (Hph' & _ & Hd' & Hc). pose proof (se_phase _ _ _ _ Hse) as Hs.
    set (o' := (perform _ o).1) in *. split; [lia|done|]. rewrite Hph', Hd'.
    assert (Hkeep : served asked askedAt (table o) -> served asked askedAt (table o')).
    { intros Hold id d' Hid Hd Hcl. destruct (Hc id d' Hd) as [(d & Hrow & [Hnx Hx])|(-> & Hnone & _)].
      - rewrite Hnx. apply (Hold id d Hid Hrow). destruct Hx as [<-|Hx]; [done|by rewrite Hcl in Hx].
      - destruct (se_rows _ _ _ _ Hse proposedId Hid) as [d Hrow]. congruence. }
    destruct (os_phase o); try done; [by apply Hkeep|..]; destruct Hs; auto.
  - assert (Ht : table (perform act_status o).1 = table o).
    { cbn. unfold status. destruct (ib_status _) as [[[r v] x]|]; [|done]. by destruct (_ && _). }
    split; [done|rewrite Ht; apply Hse|]. rewrite Ht. exact (se_phase _ _ _ _ Hse).
  - cbn [ObserverProcess.perform fst]. destruct (notify_control o) as (Hs & _ & _). destruct (notify_phase o Hst) as [Hd Hp].
    split; [done|rewrite Hs; apply Hse|]. rewrite Hp, Hd. destruct (os_phase o); auto.
Qed.

Lemma run_serves clock o steps work clock' o' asked askedAt :
  undisturbed = true -> drain_run clock o steps work clock' o' -> draining clock o -> serving asked askedAt clock o ->
  serving asked askedAt clock' o'.
Proof using interval_positive batch_positive.
  intros Hu. induction 1 as [clock o|clock o clock1 o1 steps work clock' o' Hp _ IH
    |clock o cost clock1 o1 steps work clock' o' Hn _ IH]; intros Hdr Hse; [done|..].
  - apply IH; [by eapply processes_drains|by eapply processes_serves].
  - apply IH; [by eapply interferes_drains|by eapply interferes_serves].
Qed.

(** The processor is never stuck before the horizon. *)
Lemma processes_on clock o :
  os_phase o <> ph_idle -> clock <= horizon ->
  answerable o ->
  exists clock' o', processes clock o clock' o'.
Proof using Type.
  intros Hn Hle Ha. destruct (os_phase o) as [|processed|processed attempts|processed attempts id d|processed] eqn:He;
    [done|..].
  - do 2 eexists. by apply (processes_loop _ _ processed true).
  - exists clock. eexists. apply (processes_claim _ _ processed attempts clock); [done|lia].
  - destruct (Ha _ _ _ _ He) as (reads & Hs & Hu). exists clock. eexists.
    apply (processes_answer _ _ processed attempts id d reads clock clock); [done|done|lia|done].
  - do 2 eexists. by apply (processes_yielded _ _ processed).
Qed.

End Serves.

(** C21. The drain loop works a bounded time and serves its queue, while the clock goes on, callbacks
    come in, the timer notifies and the status is read.  Until any time [horizon] an asked processor
    makes at most 12 steps for each try its deliveries can make until then (one when due and one every
    retry interval), 7 for the request, and the work that callbacks and further requests bring; it is
    stuck in no phase but the idle one.  And when nothing disturbs it (the processor may process,
    the node answers, no callback quarantines the delivery under verification), an idle loop has
    finished every delivery that was in the inbox when it was asked, or put it off to a time after that.
    The runs have no stop and a clock that does not go back. *)
Theorem drain_serves_the_queue askedAt o steps work clock o' :
  limitsSchema limits = true -> 0 < retryIntervalMs -> 1 <= maxBatchSize ->
  observer_reachable parseJson jsonValid sha256 issueText messageOf limits retryIntervalMs maxBatchSize Shown o ->
  os_started o = true -> os_phase o = ph_idle -> drain_run askedAt (notify o) steps work clock o' ->
  Z.of_nat steps <= 12 * inbox_tries retryIntervalMs horizon (table o) + 7 + work /\
  (os_phase o' <> ph_idle -> clock <= horizon -> answerable o' -> exists clock1 o1, processes clock o' clock1 o1) /\
  (undisturbed = true -> os_phase o' = ph_idle -> forall id, is_Some (table o !! id) ->
     exists d, table o' !! id = Some d /\
       (terminal (dl_state d) = true \/ dl_state d = ds_claimed /\ askedAt < dl_nextAttemptAt d)).
Proof.
  intros Hl Hint Hb Hr Hst Hph Hrun.
  pose proof (reachable_inv _ _ _ _ _ _ _ _ _ o Hl Hr) as Hi.
  destruct (notify_control o) as (Hs & Hst' & _). destruct (notify_phase o Hst) as [Hd Hp]. rewrite Hph in Hp.
  assert (Hdr : draining askedAt (notify o)).
  { split; [|congruence|by rewrite Hp].
    exact (perform_inv parseJson jsonValid sha256 issueText messageOf limits retryIntervalMs maxBatchSize Shown act_notify o Hi I). }
  destruct (run_drains Hint Hb _ _ _ _ _ _ Hrun Hdr) as [Hdr' Hsteps]. split_and!.
  - pose proof (drain_rank_nonneg Hint o'). unfold drain_rank at 1 in Hsteps. rewrite Hp, Hd, Hs in Hsteps.
    cbn [phase_rank] in Hsteps. lia.
  - apply processes_on.
  - intros Hu Hidle id Hid.
    assert (Hse : serving (table o) askedAt askedAt (notify o)).
    { split; [done|by rewrite Hs|]. rewrite Hp. by left. }
    pose proof (run_serves Hint Hb _ _ _ _ _ _ _ _ Hu Hrun Hdr Hse) as [_ Hrows Hserved]. rewrite Hidle in Hserved.
    destruct (Hrows id Hid) as [d Hrow]. exists d. split; [done|].
    pose proof (oi_processing _ _ _ (dr_inv _ _ Hdr') (dr_started _ _ Hdr') id d Hrow) as Hpr. rewrite Hidle in Hpr.
    pose proof (Hserved id d Hid Hrow) as Hx. destruct (dl_state d) eqn:Hst1; try (by left); [right; auto|by destruct Hpr].
Qed.

End Drain.
