(* ===== verification/ObserverReconcile.v ===== *)
(** * The observer: reconciliation scheduler and gap monitor

    apps/sidekick/src/observer-reconciliation.ts and observer-gap-monitor.ts, joined the way
    apps/sidekick/src/main.ts does.  The scheduler keeps a state per domain of work; a timer that
    fires, the end of a run and every call are actions of their own, in any order.  Synchronous
    code reads the clock once.  [JSON.parse] and [deserializeCV] are parameters, the work itself
    is an outcome.  Latencies are kept in milliseconds. *)

From S2P Require Import Prelude Text Clarity OperationPlan LiveReader ObserverInbox ObserverProcess.

Open Scope string_scope.
Open Scope list_scope.
Open Scope Z_scope.

(** ** State *)

Inductive Domain := dm_current | dm_manager_activity | dm_rewards | dm_roster.

#[global] Instance Domain_eq_dec : EqDecision Domain.
Proof. solve_decision. Defined.

Record CallbackLatency := {
  lt_samples : Z;
  lt_sum : Z;
  lt_max : Z;
  lt_last : option Z;
  lt_withinTwoSeconds : Z;
  lt_le1 : Z;
  lt_le2 : Z;
  lt_le5 : Z;
  lt_le10 : Z;
  lt_le30 : Z;
}.

(** A run in flight: the heights it fences, the callback it answers, and its abort signal. *)
Record DomainRun := {
  rn_stacksHeight : option Z;
  rn_burnHeight : option Z;
  rn_callbackReceivedAt : option Z;
  rn_aborted : bool;
}.

(** [MutableDomainState]; [running] is that there is an active run. *)
Record DomainState := {
  dm_pending : bool;
  dm_active : option DomainRun;
  dm_timer : bool;
  dm_requests : Z;
  dm_coalescedRequests : Z;
  dm_successes : Z;
  dm_failuresTotal : Z;
  dm_consecutiveFailures : Z;
  dm_requestedStacksHeight : option Z;
  dm_requestedBurnHeight : option Z;
  dm_pendingCallbackReceivedAt : option Z;
  dm_lastRequestedAt : option Z;
  dm_lastStartedAt : option Z;
  dm_lastSuccessAt : option Z;
  dm_lastFailureAt : option Z;
  dm_lastError : option string;
  dm_nextRetryAt : option Z;
  dm_callbackLatency : CallbackLatency;
}.

Definition dm_running (st : DomainState) : bool := bool_decide (dm_active st <> None).

Definition no_latency : CallbackLatency :=
  {| lt_samples := 0; lt_sum := 0; lt_max := 0; lt_last := None; lt_withinTwoSeconds := 0; lt_le1 := 0;
     lt_le2 := 0; lt_le5 := 0; lt_le10 := 0; lt_le30 := 0 |}.

Definition domainState : DomainState :=
  {| dm_pending := false; dm_active := None; dm_timer := false; dm_requests := 0; dm_coalescedRequests := 0;
     dm_successes := 0; dm_failuresTotal := 0; dm_consecutiveFailures := 0; dm_requestedStacksHeight := None;
     dm_requestedBurnHeight := None; dm_pendingCallbackReceivedAt := None; dm_lastRequestedAt := None;
     dm_lastStartedAt := None; dm_lastSuccessAt := None; dm_lastFailureAt := None; dm_lastError := None;
     dm_nextRetryAt := None; dm_callbackLatency := no_latency |}.

Record Scheduler := {
  sd_started : bool;
  sd_states : Domain -> DomainState;
  sd_backfillTimer : bool;
}.

Definition newScheduler : Scheduler :=
  {| sd_started := false; sd_states := fun _ => domainState; sd_backfillTimer := false |}.

Definition update_domain (d : Domain) (f : DomainState -> DomainState) (s : Scheduler) : Scheduler :=
  {| sd_started := sd_started s;
     sd_states := fun d' => if decide (d' = d) then f (sd_states s d') else sd_states s d';
     sd_backfillTimer := sd_backfillTimer s |}.

Definition set_sd_started (b : bool) (s : Scheduler) : Scheduler :=
  {| sd_started := b; sd_states := sd_states s; sd_backfillTimer := sd_backfillTimer s |}.
Definition set_backfillTimer (b : bool) (s : Scheduler) : Scheduler :=
  {| sd_started := sd_started s; sd_states := sd_states s; sd_backfillTimer := b |}.

(** Constants and options. *)
Definition DEFAULT_FAILURE_DELAY_MS : Z := 15000.
Definition DEFAULT_MAX_BACKOFF_MS : Z := 5 * 60000.

(** ** Requests *)

(** What a request knows; a receipt time is the text and its [Date.parse]. *)
Record RequestAnchor := {
  ra_stacksHeight : option Z;
  ra_burnHeight : option Z;
  ra_callbackReceivedAt : option (option Z);
}.

Definition no_anchor : RequestAnchor :=
  {| ra_stacksHeight := None; ra_burnHeight := None; ra_callbackReceivedAt := None |}.

Inductive RequestError := height_negative | receipt_time_invalid.

Definition maxHeight (current next : option Z) : result RequestError (option Z) :=
  match next with
  | None => Ok current
  | Some n =>
      if negb (safe_nonnegative n) then Err height_negative
      else Ok (Some (match current with None => n | Some c => Z.max c n end))
  end.

Definition earlier (current : option Z) (at_ : Z) : option Z :=
  Some (match current with None => at_ | Some c => Z.min c at_ end).

(** The first assignments of [request]: they stay when a later one throws. *)
Definition counted_request (st : DomainState) : DomainState :=
  {| dm_pending := true; dm_active := dm_active st; dm_timer := dm_timer st;
     dm_requests := dm_requests st + 1;
     dm_coalescedRequests := if dm_pending st || dm_running st then dm_coalescedRequests st + 1
                             else dm_coalescedRequests st;
     dm_successes := dm_successes st; dm_failuresTotal := dm_failuresTotal st;
     dm_consecutiveFailures := dm_consecutiveFailures st;
     dm_requestedStacksHeight := dm_requestedStacksHeight st; dm_requestedBurnHeight := dm_requestedBurnHeight st;
     dm_pendingCallbackReceivedAt := dm_pendingCallbackReceivedAt st; dm_lastRequestedAt := dm_lastRequestedAt st;
     dm_lastStartedAt := dm_lastStartedAt st; dm_lastSuccessAt := dm_lastSuccessAt st;
     dm_lastFailureAt := dm_lastFailureAt st; dm_lastError := dm_lastError st;
     dm_nextRetryAt := dm_nextRetryAt st; dm_callbackLatency := dm_callbackLatency st |}.

Definition with_request (stacks burn callback lastRequestedAt : option Z) (st : DomainState) : DomainState :=
  {| dm_pending := dm_pending st; dm_active := dm_active st; dm_timer := dm_timer st;
     dm_requests := dm_requests st; dm_coalescedRequests := dm_coalescedRequests st;
     dm_successes := dm_successes st; dm_failuresTotal := dm_failuresTotal st;
     dm_consecutiveFailures := dm_consecutiveFailures st;
     dm_requestedStacksHeight := stacks; dm_requestedBurnHeight := burn;
     dm_pendingCallbackReceivedAt := callback; dm_lastRequestedAt := lastRequestedAt;
     dm_lastStartedAt := dm_lastStartedAt st; dm_lastSuccessAt := dm_lastSuccessAt st;
     dm_lastFailureAt := dm_lastFailureAt st; dm_lastError := dm_lastError st;
     dm_nextRetryAt := dm_nextRetryAt st; dm_callbackLatency := dm_callbackLatency st |}.

(** The rest of the assignments: the domain after them, and whether one threw. *)
Definition recorded_request (anchor : RequestAnchor) (now : Z) (st : DomainState) : option RequestError * DomainState :=
  match maxHeight (dm_requestedStacksHeight st) (ra_stacksHeight anchor) with
  | Err e => (Some e, st)
  | Ok stacks =>
      let st := with_request stacks (dm_requestedBurnHeight st) (dm_pendingCallbackReceivedAt st)
                  (dm_lastRequestedAt st) st in
      match maxHeight (dm_requestedBurnHeight st) (ra_burnHeight anchor) with
      | Err e => (Some e, st)
      | Ok burn =>
          let st := with_request stacks burn (dm_pendingCallbackReceivedAt st) (dm_lastRequestedAt st) st in
          match ra_callbackReceivedAt anchor with
          | Some None => (Some receipt_time_invalid, st)
          | Some (Some at_) =>
              (None, with_request stacks burn (earlier (dm_pendingCallbackReceivedAt st) at_) (Some now) st)
          | None => (None, with_request stacks burn (dm_pendingCallbackReceivedAt st) (Some now) st)
          end
      end
  end.

Definition with_timer (timer : bool) (nextRetryAt : option Z) (st : DomainState) : DomainState :=
  {| dm_pending := dm_pending st; dm_active := dm_active st; dm_timer := timer;
     dm_requests := dm_requests st; dm_coalescedRequests := dm_coalescedRequests st;
     dm_successes := dm_successes st; dm_failuresTotal := dm_failuresTotal st;
     dm_consecutiveFailures := dm_consecutiveFailures st;
     dm_requestedStacksHeight := dm_requestedStacksHeight st; dm_requestedBurnHeight := dm_requestedBurnHeight st;
     dm_pendingCallbackReceivedAt := dm_pendingCallbackReceivedAt st; dm_lastRequestedAt := dm_lastRequestedAt st;
     dm_lastStartedAt := dm_lastStartedAt st; dm_lastSuccessAt := dm_lastSuccessAt st;
     dm_lastFailureAt := dm_lastFailureAt st; dm_lastError := dm_lastError st;
     dm_nextRetryAt := nextRetryAt; dm_callbackLatency := dm_callbackLatency st |}.

(** [#schedule] *)
Definition schedule (d : Domain) (delayMs now : Z) (s : Scheduler) : Scheduler :=
  let st := sd_states s d in
  if negb (sd_started s) || dm_timer st || dm_running st then s
  else update_domain d (with_timer true (if 0 <? delayMs then Some (now + delayMs) else None)) s.

(** [request]: the scheduler after it, and whether it threw. *)
Definition request (d : Domain) (anchor : RequestAnchor) (now : Z) (s : Scheduler) : option RequestError * Scheduler :=
  let '(thrown, st) := recorded_request anchor now (counted_request (sd_states s d)) in
  let s := update_domain d (fun _ => st) s in
  match thrown with
  | Some e => (Some e, s)
  | None => (None, if sd_started s && negb (dm_running st) && negb (dm_timer st) then schedule d 0 now s else s)
  end.

(** A request without an anchor does not throw. *)
Definition requested (d : Domain) (now : Z) (s : Scheduler) : Scheduler := (request d no_anchor now s).2.

Definition requestCatchUp (now : Z) (s : Scheduler) : Scheduler :=
  requested dm_roster now (requested dm_rewards now (requested dm_manager_activity now (requested dm_current now s))).

(** [#scheduleManagerActivityBackfill] *)
Definition scheduleBackfill (s : Scheduler) : Scheduler :=
  if negb (sd_started s) || sd_backfillTimer s then s else set_backfillTimer true s.

Definition start (now : Z) (s : Scheduler) : Scheduler :=
  if sd_started s then s
  else
    let s := requested dm_rewards now (requested dm_manager_activity now (requested dm_current now (set_sd_started true s))) in
    let s := if dm_pending (sd_states s dm_roster) then schedule dm_roster 0 now s else s in
    scheduleBackfill s.

(** Its timer fires. *)
Definition backfill_fires (now : Z) (s : Scheduler) : Scheduler :=
  if sd_backfillTimer s
  then
    let s := set_backfillTimer false s in
    if sd_started s then scheduleBackfill (requested dm_rewards now (requested dm_manager_activity now s)) else s
  else s.

(** ** Runs *)

(** How the work of a run ends: a rate limit may say when to come back. *)
Inductive RunEnd := run_succeeds | run_fails (message : string) (retryAfterMs : option Z).

Definition recordCallbackLatency (ms : Z) (l : CallbackLatency) : CallbackLatency :=
  let ms := Z.max 0 ms in
  let within limit n := if ms <=? limit then n + 1 else n in
  {| lt_samples := lt_samples l + 1; lt_sum := lt_sum l + ms; lt_max := Z.max (lt_max l) ms; lt_last := Some ms;
     lt_withinTwoSeconds := within 2000 (lt_withinTwoSeconds l); lt_le1 := within 1000 (lt_le1 l);
     lt_le2 := within 2000 (lt_le2 l); lt_le5 := within 5000 (lt_le5 l); lt_le10 := within 10000 (lt_le10 l);
     lt_le30 := within 30000 (lt_le30 l) |}.

Definition begun (now : Z) (st : DomainState) : DomainState :=
  {| dm_pending := false;
     dm_active := Some {| rn_stacksHeight := dm_requestedStacksHeight st; rn_burnHeight := dm_requestedBurnHeight st;
                          rn_callbackReceivedAt := dm_pendingCallbackReceivedAt st; rn_aborted := false |};
     dm_timer := dm_timer st;
     dm_requests := dm_requests st; dm_coalescedRequests := dm_coalescedRequests st;
     dm_successes := dm_successes st; dm_failuresTotal := dm_failuresTotal st;
     dm_consecutiveFailures := dm_consecutiveFailures st;
     dm_requestedStacksHeight := dm_requestedStacksHeight st; dm_requestedBurnHeight := dm_requestedBurnHeight st;
     dm_pendingCallbackReceivedAt := None; dm_lastRequestedAt := dm_lastRequestedAt st;
     dm_lastStartedAt := Some now; dm_lastSuccessAt := dm_lastSuccessAt st;
     dm_lastFailureAt := dm_lastFailureAt st; dm_lastError := dm_lastError st;
     dm_nextRetryAt := dm_nextRetryAt st; dm_callbackLatency := dm_callbackLatency st |}.

Definition succeeded (run : DomainRun) (now : Z) (st : DomainState) : DomainState :=
  {| dm_pending := dm_pending st; dm_active := None; dm_timer := dm_timer st;
     dm_requests := dm_requests st; dm_coalescedRequests := dm_coalescedRequests st;
     dm_successes := dm_successes st + 1; dm_failuresTotal := dm_failuresTotal st; dm_consecutiveFailures := 0;
     dm_requestedStacksHeight := dm_requestedStacksHeight st; dm_requestedBurnHeight := dm_requestedBurnHeight st;
     dm_pendingCallbackReceivedAt := dm_pendingCallbackReceivedAt st; dm_lastRequestedAt := dm_lastRequestedAt st;
     dm_lastStartedAt := dm_lastStartedAt st; dm_lastSuccessAt := Some now;
     dm_lastFailureAt := dm_lastFailureAt st; dm_lastError := None; dm_nextRetryAt := dm_nextRetryAt st;
     dm_callbackLatency := match rn_callbackReceivedAt run with
                           | Some at_ => recordCallbackLatency (now - at_) (dm_callbackLatency st)
                           | None => dm_callbackLatency st
                           end |}.

Definition failed (run : DomainRun) (message : string) (now : Z) (st : DomainState) : DomainState :=
  {| dm_pending := true; dm_active := None; dm_timer := dm_timer st;
     dm_requests := dm_requests st; dm_coalescedRequests := dm_coalescedRequests st;
     dm_successes := dm_successes st; dm_failuresTotal := dm_failuresTotal st + 1;
     dm_consecutiveFailures := dm_consecutiveFailures st + 1;
     dm_requestedStacksHeight := dm_requestedStacksHeight st; dm_requestedBurnHeight := dm_requestedBurnHeight st;
     dm_pendingCallbackReceivedAt := match rn_callbackReceivedAt run with
                                     | Some at_ => earlier (dm_pendingCallbackReceivedAt st) at_
                                     | None => dm_pendingCallbackReceivedAt st
                                     end;
     dm_lastRequestedAt := dm_lastRequestedAt st;
     dm_lastStartedAt := dm_lastStartedAt st; dm_lastSuccessAt := dm_lastSuccessAt st;
     dm_lastFailureAt := Some now; dm_lastError := Some (slice500 message); dm_nextRetryAt := dm_nextRetryAt st;
     dm_callbackLatency := dm_callbackLatency st |}.

(** The state of an aborted run of a stopped scheduler. *)
Definition dropped (st : DomainState) : DomainState :=
  {| dm_pending := dm_pending st; dm_active := None; dm_timer := dm_timer st;
     dm_requests := dm_requests st; dm_coalescedRequests := dm_coalescedRequests st;
     dm_successes := dm_successes st; dm_failuresTotal := dm_failuresTotal st;
     dm_consecutiveFailures := dm_consecutiveFailures st;
     dm_requestedStacksHeight := dm_requestedStacksHeight st; dm_requestedBurnHeight := dm_requestedBurnHeight st;
     dm_pendingCallbackReceivedAt := dm_pendingCallbackReceivedAt st; dm_lastRequestedAt := dm_lastRequestedAt st;
     dm_lastStartedAt := dm_lastStartedAt st; dm_lastSuccessAt := dm_lastSuccessAt st;
     dm_lastFailureAt := dm_lastFailureAt st; dm_lastError := dm_lastError st;
     dm_nextRetryAt := dm_nextRetryAt st; dm_callbackLatency := dm_callbackLatency st |}.

(** What [stop] does to a domain. *)
Definition stopped (st : DomainState) : DomainState :=
  {| dm_pending := false;
     dm_active := (fun run => {| rn_stacksHeight := rn_stacksHeight run; rn_burnHeight := rn_burnHeight run;
                                 rn_callbackReceivedAt := rn_callbackReceivedAt run; rn_aborted := true |})
                  <$> dm_active st;
     dm_timer := false;
     dm_requests := dm_requests st; dm_coalescedRequests := dm_coalescedRequests st;
     dm_successes := dm_successes st; dm_failuresTotal := dm_failuresTotal st;
     dm_consecutiveFailures := dm_consecutiveFailures st;
     dm_requestedStacksHeight := dm_requestedStacksHeight st; dm_requestedBurnHeight := dm_requestedBurnHeight st;
     dm_pendingCallbackReceivedAt := None; dm_lastRequestedAt := dm_lastRequestedAt st;
     dm_lastStartedAt := dm_lastStartedAt st; dm_lastSuccessAt := dm_lastSuccessAt st;
     dm_lastFailureAt := dm_lastFailureAt st; dm_lastError := dm_lastError st;
     dm_nextRetryAt := None; dm_callbackLatency := dm_callbackLatency st |}.

Definition stop (s : Scheduler) : Scheduler :=
  {| sd_started := false; sd_states := fun d => stopped (sd_states s d); sd_backfillTimer := false |}.

Section Scheduler.

Context (failureDelayMs maxBackoffMs : Z).

(** [#run] up to the work. *)
Definition run (d : Domain) (canRun : bool) (now : Z) (s : Scheduler) : Scheduler :=
  let st := sd_states s d in
  if negb (sd_started s) || dm_running st || negb (dm_pending st) then s
  else if negb canRun then schedule d failureDelayMs now s
  else update_domain d (begun now) s.

(** The timer of a domain fires. *)
Definition timer_fires (d : Domain) (canRun : bool) (now : Z) (s : Scheduler) : Scheduler :=
  if dm_timer (sd_states s d) then run d canRun now (update_domain d (with_timer false None) s) else s.

(** The delay before the next attempt; [failures] counts this one. *)
Definition retryDelay (retryAfterMs : option Z) (failures : Z) : Z :=
  match retryAfterMs with
  | Some ms => Z.min maxBackoffMs (Z.max 1000 ms)
  | None => Z.min maxBackoffMs (failureDelayMs * 2 ^ Z.max 0 (failures - 1))
  end.

(** [finally] *)
Definition after_run (d : Domain) (delayMs now : Z) (s : Scheduler) : Scheduler :=
  let st := sd_states s d in
  if sd_started s && dm_pending st && negb (dm_timer st) then schedule d delayMs now s else s.

(** The work of the active run ends. *)
Definition run_ends (d : Domain) (e : RunEnd) (now : Z) (s : Scheduler) : Scheduler :=
  match dm_active (sd_states s d) with
  | None => s
  | Some active =>
      match e with
      | run_succeeds => after_run d 0 now (update_domain d (succeeded active now) s)
      | run_fails message retryAfterMs =>
          if negb (sd_started s) && rn_aborted active then after_run d 0 now (update_domain d dropped s)
          else
            let s := update_domain d (failed active message now) s in
            after_run d (retryDelay retryAfterMs (dm_consecutiveFailures (sd_states s d))) now s
      end
  end.

End Scheduler.

(** ** Hints of a verified delivery *)

Section Hints.

Context (parseJson : string -> option Wire) (deserializeCV : string -> option ClarityValue)
        (managerPrincipal : string).

Definition literal_schema (s : string) (w : Wire) : option string := string_schema (String.eqb s) w.

(** [managerPrintEventSchema]: the contract and the raw value of a committed print. *)
Definition managerPrintEventSchema (w : Wire) : option (string * option string) :=
  fields ← wire_entries w;
  _ ← entry "type" fields ≫= literal_schema "contract_event";
  _ ← (entry "committed" fields ≫= fun c => match c with wire_bool true => Some tt | _ => None end);
  event ← entry "contract_event" fields ≫= wire_entries;
  contract ← entry "contract_identifier" event ≫= string_schema (fun _ => true);
  _ ← entry "topic" event ≫= literal_schema "print";
  match entry "raw_value" event with
  | None => Some (contract, None)
  | Some (wire_string raw) => Some (contract, Some raw)
  | Some _ => None
  end.

(** [blockTriggerSchema] of the stored body; [None] when it does not parse. *)
Definition triggerEvents (rawPayloadJson : string) : option (list Wire) :=
  body ← parseJson rawPayloadJson;
  fields ← wire_entries body;
  entry "events" fields ≫= arraySchema.

(** [Array.some] with a callback that may throw, under a [catch] that says [false]. *)
Fixpoint some_caught {A} (P : A -> option bool) (l : list A) : bool :=
  match l with
  | [] => false
  | a :: l => match P a with Some true => true | Some false => some_caught P l | None => false end
  end.

Definition any_event (rawPayloadJson : string) (P : Wire -> option bool) : bool :=
  match triggerEvents rawPayloadJson with Some events => some_caught P events | None => false end.

Definition containsContractPrint (rawPayloadJson contractPrincipal : string) : bool :=
  any_event rawPayloadJson (fun candidate => Some
    match managerPrintEventSchema candidate with
    | Some (contract, _) => String.eqb contract contractPrincipal
    | None => false
    end).

(** The tuple a print of the contract carries: [Some None] when it is no such event. *)
Definition print_tuple (contractPrincipal : string) (candidate : Wire)
    : option (option (list (string * ClarityValue))) :=
  match managerPrintEventSchema candidate with
  | Some (contract, Some raw) =>
      if negb (String.eqb contract contractPrincipal) || negb (nonempty raw) then Some None
      else match Codecs.decodeClarityHex deserializeCV raw with
           | Ok (CTuple fields) => Some (Some fields)
           | Ok _ => Some None
           | Err _ => None
           end
  | _ => Some None
  end.

Definition names_manager (fields : list (string * ClarityValue)) : bool :=
  existsb (fun field => match property field fields with
                        | Some (CPrincipalStandard p) | Some (CPrincipalContract p) => String.eqb p managerPrincipal
                        | _ => false
                        end) ["signer"; "old-signer"; "signer-manager"].

Definition containsRelevantPox5Print (rawPayloadJson contractPrincipal : string) : bool :=
  any_event rawPayloadJson (fun candidate =>
    from_option names_manager false <$> print_tuple contractPrincipal candidate).

Definition calculates_rewards (fields : list (string * ClarityValue)) : bool :=
  match property "topic" fields with
  | Some (CStringASCII s) | Some (CStringUTF8 s) => String.eqb s "calculate-rewards"
  | _ => false
  end.

Definition containsPox5RewardCalculationPrint (rawPayloadJson contractPrincipal : string) : bool :=
  any_event rawPayloadJson (fun candidate =>
    from_option calculates_rewards false <$> print_tuple contractPrincipal candidate).

(** The requests [notifyProcessed] makes, in order. *)
Definition processedRequests (pox5ContractId : option string) (d : Delivery) (st : DeliveryState) (reason : string)
    : list (Domain * RequestAnchor) :=
  if bool_decide (dl_endpointKind d = ep_new_block) && bool_decide (st = ds_verified) then
    let anchor := {| ra_stacksHeight := cc_blockHeight (dl_claim d); ra_burnHeight := None;
                     ra_callbackReceivedAt := Some (Some (dl_firstReceivedAt d)) |} in
    let managerPrint := containsContractPrint (dl_rawPayloadJson d) managerPrincipal in
    [(dm_current, if managerPrint then anchor else no_anchor)] ++
    (if managerPrint then [(dm_manager_activity, anchor)] else []) ++
    match pox5ContractId with
    | Some contract =>
        if nonempty contract
        then (if containsRelevantPox5Print (dl_rawPayloadJson d) contract
              then [(dm_current, anchor); (dm_roster, anchor)] else []) ++
             (if containsPox5RewardCalculationPrint (dl_rawPayloadJson d) contract
              then [(dm_current, anchor); (dm_rewards, anchor)] else [])
        else []
    | None => []
    end
  else if bool_decide (dl_endpointKind d = ep_new_burn_block) && bool_decide (st = ds_expired) &&
          startsWith reason "trigger-consumed;"
  then [(dm_current, {| ra_stacksHeight := None; ra_burnHeight := cc_burnBlockHeight (dl_claim d);
                        ra_callbackReceivedAt := Some (Some (dl_firstReceivedAt d)) |})]
  else [].

(** A throw leaves the rest unrequested. *)
Fixpoint make_requests (l : list (Domain * RequestAnchor)) (now : Z) (s : Scheduler) : option RequestError * Scheduler :=
  match l with
  | [] => (None, s)
  | (d, anchor) :: l =>
      let '(thrown, s) := request d anchor now s in
      match thrown with Some e => (Some e, s) | None => make_requests l now s end
  end.

Definition notifyProcessed (pox5ContractId : option string) (d : Delivery) (st : DeliveryState) (reason : string)
    (now : Z) (s : Scheduler) : option RequestError * Scheduler :=
  make_requests (processedRequests pox5ContractId d st reason) now s.

End Hints.

(** ** The gap monitor *)

Inductive GapHealth := gap_not_started | gap_unknown | gap_healthy | gap_degraded.

Inductive GapReason :=
  | gr_not_started | gr_awaiting_first_node_sample | gr_node_check_failed | gr_awaiting_next_node_advance
  | gr_observer_catch_up_window | gr_observer_current | gr_observer_behind_node.

#[global] Instance GapHealth_eq_dec : EqDecision GapHealth.
Proof. solve_decision. Defined.

(** [ObserverGapStatus]; the silence is in milliseconds. *)
Record GapStatus := {
  gs_started : bool;
  gs_status : GapHealth;
  gs_reason : GapReason;
  gs_checksTotal : Z;
  gs_failuresTotal : Z;
  gs_consecutiveFailures : Z;
  gs_startedAt : option Z;
  gs_checkedAt : option Z;
  gs_baselineStacksHeight : option Z;
  gs_nodeStacksHeight : option Z;
  gs_observerStacksHeight : option Z;
  gs_stacksGap : option Z;
  gs_observerSilence : option Z;
  gs_lastError : option string;
}.

(** [gm_active]: the check in flight, by when it began and whether it was aborted. *)
Record GapMonitor := {
  gm_started : bool;
  gm_startedAt : option Z;
  gm_baseline : option Z;
  gm_timer : bool;
  gm_active : option (Z * bool);
  gm_lastNotified : option Z;
  gm_status : GapStatus;
}.

Definition emptyStatus : GapStatus :=
  {| gs_started := false; gs_status := gap_not_started; gs_reason := gr_not_started; gs_checksTotal := 0;
     gs_failuresTotal := 0; gs_consecutiveFailures := 0; gs_startedAt := None; gs_checkedAt := None;
     gs_baselineStacksHeight := None; gs_nodeStacksHeight := None; gs_observerStacksHeight := None;
     gs_stacksGap := None; gs_observerSilence := None; gs_lastError := None |}.

Definition newGapMonitor : GapMonitor :=
  {| gm_started := false; gm_startedAt := None; gm_baseline := None; gm_timer := false; gm_active := None;
     gm_lastNotified := None; gm_status := emptyStatus |}.

(** [#schedule] *)
Definition gap_schedule (m : GapMonitor) : GapMonitor :=
  if negb (gm_started m) || gm_timer m then m
  else {| gm_started := gm_started m; gm_startedAt := gm_startedAt m; gm_baseline := gm_baseline m; gm_timer := true;
          gm_active := gm_active m; gm_lastNotified := gm_lastNotified m; gm_status := gm_status m |}.

Definition gap_start (now : Z) (m : GapMonitor) : GapMonitor :=
  if gm_started m then m
  else gap_schedule
    {| gm_started := true; gm_startedAt := Some now; gm_baseline := gm_baseline m; gm_timer := gm_timer m;
       gm_active := gm_active m; gm_lastNotified := gm_lastNotified m;
       gm_status := {| gs_started := true; gs_status := gap_unknown; gs_reason := gr_awaiting_first_node_sample;
                       gs_checksTotal := 0; gs_failuresTotal := 0; gs_consecutiveFailures := 0;
                       gs_startedAt := Some now; gs_checkedAt := None; gs_baselineStacksHeight := None;
                       gs_nodeStacksHeight := None; gs_observerStacksHeight := None; gs_stacksGap := None;
                       gs_observerSilence := None; gs_lastError := None |} |}.

Definition gap_stop (m : GapMonitor) : GapMonitor :=
  {| gm_started := false; gm_startedAt := gm_startedAt m; gm_baseline := gm_baseline m; gm_timer := false;
     gm_active := (fun '(at_, _) => (at_, true)) <$> gm_active m; gm_lastNotified := gm_lastNotified m;
     gm_status := gm_status m |}.

(** The timer fires: [#check] up to the answer of the node. *)
Definition gap_timer_fires (now : Z) (m : GapMonitor) : GapMonitor :=
  if gm_timer m
  then {| gm_started := gm_started m; gm_startedAt := gm_startedAt m; gm_baseline := gm_baseline m; gm_timer := false;
          gm_active := if negb (gm_started m) || bool_decide (gm_active m <> None) then gm_active m
                       else Some (now, false);
          gm_lastNotified := gm_lastNotified m; gm_status := gm_status m |}
  else m.

(** What a check concludes of the tip height and the last verified block. *)
Record GapFinding := {
  fi_observerHeight : option Z;
  fi_stacksGap : option Z;
  fi_silence : option Z;
  fi_degraded : bool;
  fi_reason : GapReason;
}.

Definition gap_finding (intervalMs checkedAt tip baseline : Z) (startedAt : option Z)
    (lastVerified : option (Z * string * Z * Z)) : GapFinding :=
  let observerHeight := (fun '(height, _, _, _) => height) <$> lastVerified in
  let receivedAt := (fun '(_, _, received, _) => received) <$> lastVerified in
  let stacksGap := (fun height => Z.max 0 (tip - height)) <$> observerHeight in
  let silence := (fun origin => Z.max 0 (checkedAt - origin)) <$>
                 (match receivedAt with Some r => Some r | None => startedAt end) in
  let callbackSinceStart := match receivedAt, startedAt with
                            | Some r, Some s => s <=? r
                            | _, _ => false
                            end in
  let advanced := baseline <? tip in
  let hasGap := match stacksGap with Some g => 0 <? g | None => false end in
  let behind := callbackSinceStart && hasGap &&
                match silence with Some q => intervalMs <=? q | None => false end in
  let missedFirst := negb callbackSinceStart && advanced &&
                     (intervalMs <=? checkedAt - default checkedAt startedAt) in
  let degraded := behind || missedFirst in
  {| fi_observerHeight := observerHeight; fi_stacksGap := stacksGap; fi_silence := silence; fi_degraded := degraded;
     fi_reason := if degraded then gr_observer_behind_node
                  else if negb advanced && negb callbackSinceStart then gr_awaiting_next_node_advance
                  else if hasGap then gr_observer_catch_up_window
                  else gr_observer_current |}.

Definition gap_settled (m : GapMonitor) (baseline lastNotified : option Z) (status : GapStatus) : GapMonitor :=
  {| gm_started := gm_started m; gm_startedAt := gm_startedAt m; gm_baseline := baseline; gm_timer := gm_timer m;
     gm_active := None; gm_lastNotified := lastNotified; gm_status := status |}.

(** The node answers: the height [onGap] is called with, and the monitor after it.  A left
    answer is the message of an error. *)
Definition gap_answered (intervalMs : Z) (answer : string + Z) (inbox : string + OperationalStatus) (m : GapMonitor)
    : option Z * GapMonitor :=
  match gm_active m with
  | None => (None, m)
  | Some (checkedAt, aborted) =>
      let st := gm_status m in
      let fails message baseline :=
        (None, gap_schedule (gap_settled m baseline (gm_lastNotified m)
          {| gs_started := true; gs_status := gap_unknown; gs_reason := gr_node_check_failed;
             gs_checksTotal := gs_checksTotal st + 1; gs_failuresTotal := gs_failuresTotal st + 1;
             gs_consecutiveFailures := gs_consecutiveFailures st + 1; gs_startedAt := gs_startedAt st;
             gs_checkedAt := Some checkedAt; gs_baselineStacksHeight := gs_baselineStacksHeight st;
             gs_nodeStacksHeight := gs_nodeStacksHeight st; gs_observerStacksHeight := gs_observerStacksHeight st;
             gs_stacksGap := gs_stacksGap st; gs_observerSilence := gs_observerSilence st;
             gs_lastError := Some (slice500 message) |})) in
      match answer with
      | inl message =>
          if negb (gm_started m) && aborted then (None, gap_settled m (gm_baseline m) (gm_lastNotified m) st)
          else fails message (gm_baseline m)
      | inr tip =>
          if negb (gm_started m) then (None, gap_settled m (gm_baseline m) (gm_lastNotified m) st)
          else
            match inbox with
            | inl message => fails message (gm_baseline m)
            | inr inbox =>
                let baseline := default tip (gm_baseline m) in
                let f := gap_finding intervalMs checkedAt tip baseline (gm_startedAt m) (op_lastVerifiedStacksBlock inbox) in
                let notify := fi_degraded f && match gm_lastNotified m with None => true | Some n => n <? tip end in
                (if notify then Some tip else None,
                 gap_schedule (gap_settled m (Some baseline) (if notify then Some tip else gm_lastNotified m)
                   {| gs_started := true; gs_status := if fi_degraded f then gap_degraded else gap_healthy;
                      gs_reason := fi_reason f; gs_checksTotal := gs_checksTotal st + 1;
                      gs_failuresTotal := gs_failuresTotal st; gs_consecutiveFailures := 0;
                      gs_startedAt := gs_startedAt st; gs_checkedAt := Some checkedAt;
                      gs_baselineStacksHeight := Some baseline; gs_nodeStacksHeight := Some tip;
                      gs_observerStacksHeight := fi_observerHeight f; gs_stacksGap := fi_stacksGap f;
                      gs_observerSilence := fi_silence f; gs_lastError := None |}))
            end
      end
  end.

(** ** The two together

    [onGap] requests the current state at the height of the node; a delivery that was processed
    and a full inbox make their requests. *)

Record Reconciliation := { rc_scheduler : Scheduler; rc_gap : GapMonitor }.

Definition newReconciliation : Reconciliation := {| rc_scheduler := newScheduler; rc_gap := newGapMonitor |}.

Definition with_scheduler (s : Scheduler) (r : Reconciliation) : Reconciliation :=
  {| rc_scheduler := s; rc_gap := rc_gap r |}.
Definition with_gap (m : GapMonitor) (r : Reconciliation) : Reconciliation :=
  {| rc_scheduler := rc_scheduler r; rc_gap := m |}.

Definition gap_anchor (tip : Z) : RequestAnchor :=
  {| ra_stacksHeight := Some tip; ra_burnHeight := None; ra_callbackReceivedAt := None |}.

Definition reconcile_gap (intervalMs : Z) (answer : string + Z) (inbox : string + OperationalStatus) (now : Z)
    (r : Reconciliation) : Reconciliation :=
  let '(notified, m) := gap_answered intervalMs answer inbox (rc_gap r) in
  let s := match notified with
           | Some tip => (request dm_current (gap_anchor tip) now (rc_scheduler r)).2
           | None => rc_scheduler r
           end in
  {| rc_scheduler := s; rc_gap := m |}.

Section System.

Context (parseJson : string -> option Wire) (deserializeCV : string -> option ClarityValue)
        (managerPrincipal : string) (failureDelayMs maxBackoffMs intervalMs : Z).

Inductive RcAction :=
  | rc_start (now : Z)
  | rc_stop
  | rc_request (d : Domain) (anchor : RequestAnchor) (now : Z)
  | rc_catch_up (now : Z)
  | rc_processed (pox5ContractId : option string) (d : Delivery) (st : DeliveryState) (reason : string) (now : Z)
  | rc_backfill (now : Z)
  | rc_timer (d : Domain) (canRun : bool) (now : Z)
  | rc_ends (d : Domain) (e : RunEnd) (now : Z)
  | rc_gap_start (now : Z)
  | rc_gap_stop
  | rc_gap_timer (now : Z)
  | rc_gap_answer (answer : string + Z) (inbox : string + OperationalStatus) (now : Z).

Definition rc_act (a : RcAction) (r : Reconciliation) : Reconciliation :=
  let s := rc_scheduler r in
  match a with
  | rc_start now => with_scheduler (start now s) r
  | rc_stop => with_scheduler (stop s) r
  | rc_request d anchor now => with_scheduler (request d anchor now s).2 r
  | rc_catch_up now => with_scheduler (requestCatchUp now s) r
  | rc_processed pox5ContractId d st reason now =>
      with_scheduler (notifyProcessed parseJson deserializeCV managerPrincipal pox5ContractId d st reason now s).2 r
  | rc_backfill now => with_scheduler (backfill_fires now s) r
  | rc_timer d canRun now => with_scheduler (timer_fires failureDelayMs d canRun now s) r
  | rc_ends d e now => with_scheduler (run_ends failureDelayMs maxBackoffMs d e now s) r
  | rc_gap_start now => with_gap (gap_start now (rc_gap r)) r
  | rc_gap_stop => with_gap (gap_stop (rc_gap r)) r
  | rc_gap_timer now => with_gap (gap_timer_fires now (rc_gap r)) r
  | rc_gap_answer answer inbox now => reconcile_gap intervalMs answer inbox now r
  end.

(** Heights and times come from checked sources: the node's schema and the inbox. *)
Definition anchor_ok (anchor : RequestAnchor) : Prop :=
  (forall h, ra_stacksHeight anchor = Some h -> safe_nonnegative h = true) /\
  (forall h, ra_burnHeight anchor = Some h -> safe_nonnegative h = true) /\ ra_callbackReceivedAt anchor <> Some None.

Definition rc_valid (a : RcAction) : Prop :=
  match a with
  | rc_request _ anchor _ => anchor_ok anchor
  | rc_processed _ d _ _ _ =>
      all_some safe_nonnegative (cc_blockHeight (dl_claim d)) = true /\
      all_some safe_nonnegative (cc_burnBlockHeight (dl_claim d)) = true
  | rc_gap_answer (inr tip) _ _ => safe_nonnegative tip = true
  | _ => True
  end.

Fixpoint rc_run (l : list RcAction) (r : Reconciliation) : Reconciliation :=
  match l with [] => r | a :: l => rc_run l (rc_act a r) end.

End System.
