(* ===== verification/ObserverReconcileCorrect.v ===== *)
(** * The observer: no request is lost

    Of the scheduler and the gap monitor of [ObserverReconcile]: every request for work is served
    by a run that begins after it and fences at least its heights, or is still scheduled or under
    way; failed work is retried within its bounds; the gap monitor reports each height once. *)

From S2P Require Import Prelude Text Clarity OperationPlan LiveReader ObserverInbox ObserverProcess ObserverReconcile.

Open Scope string_scope.
Open Scope list_scope.
Open Scope Z_scope.

(** ** Requests *)

Lemma update_same d f s : sd_states (update_domain d f s) d = f (sd_states s d).
Proof. cbn. by rewrite decide_True. Qed.

Lemma update_other d d' f s : d' <> d -> sd_states (update_domain d f s) d' = sd_states s d'.
Proof. intros H. cbn. by rewrite decide_False. Qed.

(** At least the height that was asked for. *)
Definition height_ge (have want : option Z) : Prop :=
  match want with None => True | Some w => exists h, have = Some h /\ w <= h end.

Lemma height_ge_refl h : height_ge h h.
Proof. destruct h as [h|]; [|done]. exists h. by split. Qed.

Lemma height_ge_trans a b c : height_ge a b -> height_ge b c -> height_ge a c.
Proof.
  destruct c as [c|]; [|done]. intros Hab (y & -> & Hy). destruct Hab as (x & -> & Hx). exists x. split; [done|lia].
Qed.

Lemma maxHeight_ge current next h : maxHeight current next = Ok h -> height_ge h current /\ height_ge h next.
Proof.
  unfold maxHeight. destruct next as [n|]; [|by intros [= ->]; split; [apply height_ge_refl|]].
  destruct (negb _); [done|]. intros [= <-]. destruct current as [c|]; cbn; split; try done; eexists; (split; [done|lia]).
Qed.

(** What no action but [stop] and the beginning of a run takes back. *)
Record keeps (st st' : DomainState) : Prop := {
  kp_pending : dm_pending st = true -> dm_pending st' = true;
  kp_stacks : height_ge (dm_requestedStacksHeight st') (dm_requestedStacksHeight st);
  kp_burn : height_ge (dm_requestedBurnHeight st') (dm_requestedBurnHeight st);
  kp_active : dm_active st' = dm_active st;
}.

#[global] Instance keeps_preorder : PreOrder keeps.
Proof.
  split.
  - intros st. split; [done|apply height_ge_refl..|done].
  - intros a b c [] []. split; [auto|by eapply height_ge_trans..|congruence].
Qed.

Lemma recorded_request_keeps anchor now st :
  keeps st (recorded_request anchor now st).2 /\
  dm_timer (recorded_request anchor now st).2 = dm_timer st /\
  ((recorded_request anchor now st).1 = None ->
   height_ge (dm_requestedStacksHeight (recorded_request anchor now st).2) (ra_stacksHeight anchor) /\
   height_ge (dm_requestedBurnHeight (recorded_request anchor now st).2) (ra_burnHeight anchor)).
Proof.
  unfold recorded_request. destruct (maxHeight (dm_requestedStacksHeight st) _) as [stacks|e] eqn:Hs.
  2: { by split; [apply keeps_preorder|]. }
  destruct (maxHeight_ge _ _ _ Hs) as [Hs1 Hs2]. cbn [dm_requestedBurnHeight with_request].
  destruct (maxHeight (dm_requestedBurnHeight st) _) as [burn|e] eqn:Hb; cbn.
  2: { split; [split; cbn; [done|done|apply height_ge_refl|done]|done]. }
  destruct (maxHeight_ge _ _ _ Hb) as [Hb1 Hb2].
  destruct (ra_callbackReceivedAt anchor) as [[at_|]|]; cbn; (split; [by split|done]).
Qed.

Lemma anchor_ok_records anchor now st : anchor_ok anchor -> (recorded_request anchor now st).1 = None.
Proof.
  intros (Hs & Hb & Hc). unfold recorded_request, maxHeight.
  destruct (ra_stacksHeight anchor) as [s|]; [rewrite (Hs s eq_refl)|]; cbn;
    (destruct (ra_burnHeight anchor) as [b|]; [rewrite (Hb b eq_refl)|]; cbn);
    by destruct (ra_callbackReceivedAt anchor) as [[|]|].
Qed.

Lemma no_anchor_ok : anchor_ok no_anchor.
Proof. by split_and!. Qed.

(** ** The invariant: what is pending will run *)

Definition awake (started : bool) (st : DomainState) : Prop :=
  (dm_timer st = true -> started = true /\ dm_running st = false) /\
  (started = true -> dm_pending st = true -> dm_timer st = true \/ dm_running st = true).

Definition all_awake (s : Scheduler) : Prop := forall d, awake (sd_started s) (sd_states s d).

Lemma schedule_spec d delayMs now s :
  sd_started (schedule d delayMs now s) = sd_started s /\
  (forall d', d' <> d -> sd_states (schedule d delayMs now s) d' = sd_states s d') /\
  keeps (sd_states s d) (sd_states (schedule d delayMs now s) d) /\
  dm_pending (sd_states (schedule d delayMs now s) d) = dm_pending (sd_states s d) /\
  (dm_timer (sd_states (schedule d delayMs now s) d) =
     dm_timer (sd_states s d) || sd_started s && negb (dm_running (sd_states s d))).
Proof.
  unfold schedule. destruct (sd_started s) eqn:Hs; cbn [negb orb andb].
  2: { rewrite orb_false_r. by split_and!. }
  destruct (dm_timer (sd_states s d)) eqn:Ht; cbn [orb]; [by split_and!|].
  destruct (dm_running (sd_states s d)) eqn:Hr; cbn [negb]; [by split_and!|].
  split_and!; [done| |rewrite update_same..]; [intros; by apply update_other| | |done]; [|done].
  split; cbn; [done|apply height_ge_refl..|done].
Qed.

Lemma schedule_cases d delayMs now s :
  schedule d delayMs now s = s \/ exists timer next, schedule d delayMs now s = update_domain d (with_timer timer next) s.
Proof. unfold schedule. destruct (_ || _); [by left|right]. by do 2 eexists. Qed.

Lemma schedule_awake d delayMs now s :
  (forall d', d' <> d -> awake (sd_started s) (sd_states s d')) ->
  (dm_timer (sd_states s d) = true -> sd_started s = true /\ dm_running (sd_states s d) = false) ->
  all_awake (schedule d delayMs now s).
Proof.
  intros Ho Ht d'. destruct (schedule_spec d delayMs now s) as (-> & Hother & Hk & Hp & Htm).
  destruct (decide (d' = d)) as [->|Hn]; [|rewrite Hother by done; by apply Ho].
  assert (Hr : dm_running (sd_states (schedule d delayMs now s) d) = dm_running (sd_states s d))
    by (unfold dm_running; by rewrite (kp_active _ _ Hk)).
  split; rewrite ?Htm, ?Hr; destruct (dm_timer (sd_states s d)) eqn:Htt, (sd_started s), (dm_running (sd_states s d));
    cbn in *; auto; try done; naive_solver.
Qed.

Lemma request_keeps d anchor now s d' :
  keeps (sd_states s d') (sd_states (request d anchor now s).2 d') /\
  sd_started (request d anchor now s).2 = sd_started s.
Proof.
  unfold request. destruct (recorded_request_keeps anchor now (counted_request (sd_states s d))) as (Hk & _ & _).
  destruct (recorded_request anchor now (counted_request (sd_states s d))) as [thrown st] eqn:Hrec. cbn in Hk.
  assert (Hk0 : keeps (sd_states s d) st).
  { etransitivity; [|exact Hk]. split; cbn; [done|apply height_ge_refl..|done]. }
  assert (Hu : keeps (sd_states s d') (sd_states (update_domain d (fun _ => st) s) d')).
  { destruct (decide (d' = d)) as [->|Hn]; [by rewrite update_same|by rewrite update_other]. }
  destruct thrown; cbn [snd]; [by split|]. destruct (_ && _); [|by split].
  destruct (schedule_spec d 0 now (update_domain d (fun _ => st) s)) as (Hs & Hother & Hks & _). split; [|by rewrite Hs].
  etransitivity; [exact Hu|]. destruct (decide (d' = d)) as [->|Hn]; [done|by rewrite Hother].
Qed.

(** A request that does not throw is recorded. *)
Lemma request_records d anchor now s :
  anchor_ok anchor ->
  let st := sd_states (request d anchor now s).2 d in
  dm_pending st = true /\ height_ge (dm_requestedStacksHeight st) (ra_stacksHeight anchor) /\
  height_ge (dm_requestedBurnHeight st) (ra_burnHeight anchor).
Proof.
  intros Ha. pose proof (anchor_ok_records anchor now (counted_request (sd_states s d)) Ha) as Hn. unfold request.
  destruct (recorded_request_keeps anchor now (counted_request (sd_states s d))) as (Hk & _ & Hge).
  destruct (recorded_request anchor now (counted_request (sd_states s d))) as [thrown st] eqn:Hrec. cbn in Hn, Hk, Hge.
  subst thrown. destruct (Hge eq_refl) as [Hs Hb]. pose proof (kp_pending _ _ Hk eq_refl) as Hp. cbn [snd].
  destruct (_ && _); [|by rewrite update_same].
  destruct (schedule_spec d 0 now (update_domain d (fun _ => st) s)) as (_ & _ & [Hp' Hs' Hb' _] & _).
  rewrite update_same in *. split_and!; [by apply Hp'|by eapply height_ge_trans..].
Qed.

Lemma request_other d anchor now s d' : d' <> d -> sd_states (request d anchor now s).2 d' = sd_states s d'.
Proof.
  intros Hd. unfold request. destruct (recorded_request _ _ _) as [thrown st].
  destruct thrown; cbn [snd]; [by apply update_other|]. destruct (_ && _); [|by apply update_other].
  destruct (schedule_spec d 0 now (update_domain d (fun _ => st) s)) as (_ & Ho & _).
  rewrite Ho by done. by apply update_other.
Qed.

(** A request wakes its domain. *)
Lemma request_wakes d anchor now s :
  anchor_ok anchor ->
  (dm_timer (sd_states s d) = true -> sd_started s = true /\ dm_running (sd_states s d) = false) ->
  awake (sd_started s) (sd_states (request d anchor now s).2 d).
Proof.
  intros Ha Htimer. pose proof (anchor_ok_records anchor now (counted_request (sd_states s d)) Ha) as Hn. unfold request.
  destruct (recorded_request_keeps anchor now (counted_request (sd_states s d))) as (Hk & Ht & _).
  destruct (recorded_request anchor now (counted_request (sd_states s d))) as [thrown st] eqn:Hrec. cbn in Hn, Hk, Ht.
  subst thrown. cbn [snd].
  assert (Hr : dm_running st = dm_running (sd_states s d)) by (unfold dm_running; by rewrite (kp_active _ _ Hk)).
  change (sd_started (update_domain d (fun _ => st) s)) with (sd_started s).
  destruct (sd_started s && negb (dm_running st) && negb (dm_timer st)) eqn:Hgo.
  - destruct (schedule_spec d 0 now (update_domain d (fun _ => st) s)) as (_ & _ & Hks & _ & Htm).
    rewrite update_same in Hks, Htm. change (sd_started (update_domain d (fun _ => st) s)) with (sd_started s) in Htm.
    apply andb_prop in Hgo as [[Hst Hrun]%andb_prop Htim].
    assert (dm_running (sd_states (schedule d 0 now (update_domain d (fun _ => st) s)) d) = false) as Hr'.
    { unfold dm_running. rewrite (kp_active _ _ Hks). by apply negb_true_iff in Hrun. }
    split; rewrite Htm, Hst, Hrun; cbn; [by rewrite Hr'|]. intros _ _. left. by rewrite orb_true_r.
  - rewrite update_same. split; [by rewrite Ht, Hr|]. intros Hst _. rewrite Hst in Hgo. cbn in Hgo.
    destruct (dm_running st), (dm_timer st); auto; done.
Qed.

Lemma request_awake d anchor now s : anchor_ok anchor -> all_awake s -> all_awake (request d anchor now s).2.
Proof.
  intros Ha Hs d'. rewrite (proj2 (request_keeps d anchor now s d)). destruct (decide (d' = d)) as [->|Hn].
  - apply request_wakes; [done|apply Hs].
  - rewrite request_other by done. apply Hs.
Qed.

Lemma requested_awake d now s : all_awake s -> all_awake (requested d now s).
Proof. apply request_awake, no_anchor_ok. Qed.

Lemma requested_keeps d now s d' : keeps (sd_states s d') (sd_states (requested d now s) d').
Proof. apply request_keeps. Qed.

Lemma requested_started d now s : sd_started (requested d now s) = sd_started s.
Proof. by apply (request_keeps d no_anchor now s d). Qed.

(** Several requests. *)
Lemma make_requests_spec l now s :
  (Forall (fun p => anchor_ok p.2) l -> all_awake s -> all_awake (make_requests l now s).2) /\
  (forall d, keeps (sd_states s d) (sd_states (make_requests l now s).2 d)) /\
  sd_started (make_requests l now s).2 = sd_started s.
Proof.
  revert s. induction l as [|[d anchor] l IH]; intros s; [done|]. cbn.
  pose proof (fun d' => request_keeps d anchor now s d') as Hk.
  pose proof (request_awake d anchor now s) as Ha.
  destruct (request d anchor now s) as [thrown s1] eqn:Hreq. cbn [snd] in *.
  destruct (IH s1) as (IHa & IHk & IHs). destruct thrown as [e|]; cbn [snd].
  - split_and!; [intros [? ?]%Forall_cons; auto|intros d'; apply Hk|apply (Hk d)].
  - split_and!.
    + intros [? ?]%Forall_cons Hs. apply IHa; [done|auto].
    + intros d'. etransitivity; [apply Hk|apply IHk].
    + rewrite IHs. apply (Hk d).
Qed.

Lemma processedRequests_ok parseJson deserializeCV managerPrincipal pox5ContractId d st reason :
  all_some safe_nonnegative (cc_blockHeight (dl_claim d)) = true ->
  all_some safe_nonnegative (cc_burnBlockHeight (dl_claim d)) = true ->
  Forall (fun p => anchor_ok p.2)
    (processedRequests parseJson deserializeCV managerPrincipal pox5ContractId d st reason).
Proof.
  intros Hs Hb. unfold processedRequests.
  set (anchor := {| ra_stacksHeight := cc_blockHeight (dl_claim d) |}).
  assert (Ha : anchor_ok anchor).
  { split_and!; [|done..]. intros h Hh. cbn in Hh. by rewrite Hh in Hs. }
  destruct (_ && bool_decide (st = ds_verified)).
  - repeat (case_match; cbn);
      repeat first [exact Ha|exact no_anchor_ok|apply Forall_nil_2|apply Forall_cons_2].
  - destruct (_ && _); [|apply Forall_nil_2]. apply Forall_cons_2; [|apply Forall_nil_2].
    split_and!; [done| |done]. intros h Hh. cbn in Hh. by rewrite Hh in Hb.
Qed.

Lemma start_awake now s : all_awake s -> all_awake (start now s).
Proof.
  intros Hs. unfold start. destruct (sd_started s) eqn:Hst; [done|].
  assert (Hidle : forall d, dm_timer (sd_states s d) = false).
  { intros d. destruct (dm_timer (sd_states s d)) eqn:Ht; [|done]. destruct (proj1 (Hs d) Ht). congruence. }
  set (s0 := set_sd_started true s). set (s1 := requested dm_current now s0).
  set (s2 := requested dm_manager_activity now s1). set (s3 := requested dm_rewards now s2).
  assert (Hw : forall d s', sd_started s' = true -> dm_timer (sd_states s' d) = false ->
    awake true (sd_states (requested d now s') d)).
  { intros d s' Hst' Ht. rewrite <- Hst'. apply request_wakes; [apply no_anchor_ok|]. by rewrite Ht. }
  assert (H1 : sd_started s1 = true) by by unfold s1; rewrite requested_started.
  assert (H2 : sd_started s2 = true) by by unfold s2; rewrite requested_started.
  assert (H3 : sd_started s3 = true) by by unfold s3; rewrite requested_started.
  assert (Ho : forall d d' s', d' <> d -> sd_states (requested d now s') d' = sd_states s' d')
    by (intros; by apply request_other).
  assert (Hall : forall d, d <> dm_roster -> awake true (sd_states s3 d)).
  { intros [] Hd; try done; unfold s3, s2, s1; rewrite ?Ho by done; apply Hw; try done;
      rewrite ?Ho by done; apply Hidle. }
  assert (Hroster : sd_states s3 dm_roster = sd_states s dm_roster)
    by by unfold s3, s2, s1; rewrite ?Ho.
  assert (Hfinal : forall s', sd_started s' = true -> (forall d, awake true (sd_states s' d)) ->
    all_awake (scheduleBackfill s')).
  { intros s' Hs' Ha d. unfold scheduleBackfill. destruct (negb (sd_started s') || sd_backfillTimer s'); cbn; rewrite Hs'; apply Ha. }
  destruct (dm_pending (sd_states s3 dm_roster)) eqn:Hp.
  - destruct (schedule_spec dm_roster 0 now s3) as (Hss & Hso & Hk & Hpp & Ht). apply Hfinal; [by rewrite Hss|].
    intros d. destruct (decide (d = dm_roster)) as [->|Hd]; [|by rewrite Hso; [apply Hall|]].
    assert (Hr : dm_running (sd_states (schedule dm_roster 0 now s3) dm_roster) = dm_running (sd_states s3 dm_roster))
      by (unfold dm_running; by rewrite (kp_active _ _ Hk)).
    rewrite Hroster, Hidle, H3, orb_false_l, andb_true_l in Ht. rewrite Hroster in Hr.
    split; rewrite Ht, Hr; [by intros ->%negb_true_iff|]. intros _ _. by destruct (dm_running _); [right|left].
  - apply Hfinal; [done|]. intros d. destruct (decide (d = dm_roster)) as [->|Hd]; [|by apply Hall].
    split; [by rewrite Hroster, Hidle|]. intros _. by rewrite Hp.
Qed.

Section Actions.

Context (parseJson : string -> option Wire) (deserializeCV : string -> option ClarityValue)
        (managerPrincipal : string) (failureDelayMs maxBackoffMs intervalMs : Z).

Abbreviation act := (rc_act parseJson deserializeCV managerPrincipal failureDelayMs maxBackoffMs intervalMs).

Lemma backfill_awake now s : all_awake s -> all_awake (backfill_fires now s).
Proof.
  intros Hs. unfold backfill_fires. destruct (sd_backfillTimer s); [|done].
  assert (H0 : all_awake (set_backfillTimer false s)) by exact Hs.
  change (sd_started (set_backfillTimer false s)) with (sd_started s). destruct (sd_started s); [|done].
  pose proof (requested_awake dm_rewards now _ (requested_awake dm_manager_activity now _ H0)) as H.
  unfold scheduleBackfill. by destruct (_ || _).
Qed.

(** One domain changed, and it is awake. *)
Lemma update_awake d f s :
  all_awake s -> awake (sd_started s) (f (sd_states s d)) -> all_awake (update_domain d f s).
Proof.
  intros Hs Hf d'. destruct (decide (d' = d)) as [->|Hn]; [by rewrite update_same|by rewrite update_other; [apply Hs|]].
Qed.

Lemma timer_awake d canRun now s : all_awake s -> all_awake (timer_fires failureDelayMs d canRun now s).
Proof.
  intros Hs. unfold timer_fires. destruct (dm_timer (sd_states s d)) eqn:Ht; [|done].
  destruct (proj1 (Hs d) Ht) as [Hst Hr]. set (s0 := update_domain d (with_timer false None) s).
  unfold run. rewrite (update_same d (with_timer false None) s : sd_states s0 d = _).
  change (sd_started s0) with (sd_started s). rewrite Hst. cbn [negb orb].
  change (dm_running (with_timer false None (sd_states s d))) with (dm_running (sd_states s d)). rewrite Hr. cbn [orb].
  destruct (dm_pending (with_timer false None (sd_states s d))) eqn:Hp; cbn [negb].
  - destruct canRun; cbn [negb].
    + intros d'. destruct (decide (d' = d)) as [->|Hn].
      * rewrite update_same. split; [|by intros _]. unfold s0. rewrite update_same. done.
      * rewrite update_other by done. unfold s0. rewrite update_other by done. apply Hs.
    + refine (schedule_awake d failureDelayMs now s0 _ _); unfold s0; [intros d' Hn; rewrite update_other by done; apply Hs|].
      by rewrite update_same.
  - apply update_awake; [done|]. split; [done|]. by rewrite Hp.
Qed.

Lemma after_run_awake d delayMs now s :
  (forall d', d' <> d -> awake (sd_started s) (sd_states s d')) ->
  dm_timer (sd_states s d) = false -> dm_running (sd_states s d) = false -> all_awake (after_run d delayMs now s).
Proof.
  intros Ho Ht Hr. unfold after_run. rewrite Ht, andb_true_r. destruct (sd_started s && dm_pending (sd_states s d)) eqn:Hgo.
  - refine (schedule_awake d delayMs now s Ho _). by rewrite Ht.
  - intros d'. destruct (decide (d' = d)) as [->|Hn]; [|by apply Ho]. split; [by rewrite Ht|].
    intros Hst Hp. by rewrite Hst, Hp in Hgo.
Qed.

Lemma ends_awake d e now s : all_awake s -> all_awake (run_ends failureDelayMs maxBackoffMs d e now s).
Proof.
  intros Hs. unfold run_ends. destruct (dm_active (sd_states s d)) as [active|] eqn:Ha; [|done].
  assert (Ht : dm_timer (sd_states s d) = false).
  { destruct (dm_timer (sd_states s d)) eqn:Ht; [|done]. destruct (proj1 (Hs d) Ht) as [_ Hr].
    unfold dm_running in Hr. by rewrite Ha in Hr. }
  assert (H : forall f delayMs, dm_active (f (sd_states s d)) = None ->
    dm_timer (f (sd_states s d)) = dm_timer (sd_states s d) -> all_awake (after_run d delayMs now (update_domain d f s))).
  { intros f delayMs Hn Htf. apply after_run_awake; rewrite ?update_same.
    - intros d' Hd. rewrite update_other by done. apply Hs.
    - by rewrite Htf.
    - unfold dm_running. by rewrite Hn. }
  destruct e; [|destruct (_ && _)]; by apply H.
Qed.

Lemma act_awake a r : rc_valid a -> all_awake (rc_scheduler r) -> all_awake (rc_scheduler (act a r)).
Proof.
  intros Hv Hs. destruct a as [now| |d anchor now|now|contract d st reason now|now|d canRun now|d e now|now| |now|answer inbox now];
    cbn [rc_act with_scheduler with_gap rc_scheduler]; try exact Hs.
  - by apply start_awake.
  - by split.
  - by apply request_awake.
  - by do 4 apply requested_awake.
  - destruct Hv. by apply make_requests_spec; [apply processedRequests_ok|].
  - by apply backfill_awake.
  - by apply timer_awake.
  - by apply ends_awake.
  - unfold reconcile_gap. destruct (gap_answered _ _ _ _) as [notified m] eqn:Hg. cbn [rc_scheduler].
    destruct notified as [tip|]; [|done]. apply request_awake; [|done]. split_and!; [|done..].
    intros h [= <-]. unfold gap_answered in Hg. destruct (gm_active _) as [[checkedAt aborted]|]; [|done].
    destruct answer as [message|height]; [by destruct (_ && _)|]. destruct (negb _); [done|].
    destruct inbox as [message|inbox]; [done|]. cbn in Hv.
    destruct (fi_degraded _ && _); [by injection Hg as <- _|done].
Qed.

(** *** What an action does to the work of a domain *)

Definition same_heights (st st' : DomainState) : Prop :=
  dm_requestedStacksHeight st' = dm_requestedStacksHeight st /\ dm_requestedBurnHeight st' = dm_requestedBurnHeight st.

Inductive moves (started : bool) (d : Domain) (a : RcAction) (st st' : DomainState) : Prop :=
  | moves_keeps : keeps st st' -> moves started d a st st'
  | moves_begins canRun now active :
      a = rc_timer d canRun now -> dm_active st = None -> dm_active st' = Some active ->
      rn_stacksHeight active = dm_requestedStacksHeight st -> rn_burnHeight active = dm_requestedBurnHeight st ->
      same_heights st st' -> moves started d a st st'
  | moves_ends e now active :
      a = rc_ends d e now -> dm_active st = Some active -> dm_active st' = None -> same_heights st st' ->
      (dm_pending st = true -> dm_pending st' = true) ->
      (e <> run_succeeds -> started = true -> dm_pending st' = true) -> moves started d a st st'.

Lemma schedule_keeps d delayMs now s d' : keeps (sd_states s d') (sd_states (schedule d delayMs now s) d').
Proof.
  destruct (schedule_spec d delayMs now s) as (_ & Ho & Hk & _).
  destruct (decide (d' = d)) as [->|Hn]; [done|by rewrite Ho].
Qed.

Lemma scheduleBackfill_states s : sd_states (scheduleBackfill s) = sd_states s.
Proof. unfold scheduleBackfill. by destruct (_ || _). Qed.

Lemma start_keeps now s d : keeps (sd_states s d) (sd_states (start now s) d).
Proof.
  unfold start. destruct (sd_started s); [done|]. rewrite scheduleBackfill_states.
  set (s3 := requested dm_rewards now _). assert (H : keeps (sd_states s d) (sd_states s3 d)).
  { unfold s3. do 2 (etransitivity; [|apply requested_keeps]). apply (requested_keeps dm_current now (set_sd_started true s)). }
  destruct (dm_pending _); [|done]. etransitivity; [exact H|apply schedule_keeps].
Qed.

Lemma with_timer_keeps timer nextRetryAt st : keeps st (with_timer timer nextRetryAt st).
Proof. by split; [|apply height_ge_refl..|]. Qed.

Lemma timer_moves d0 d canRun now s :
  moves (sd_started s) d (rc_timer d0 canRun now) (sd_states s d)
    (sd_states (timer_fires failureDelayMs d0 canRun now s) d).
Proof.
  unfold timer_fires. destruct (dm_timer (sd_states s d0)); [|by apply moves_keeps].
  set (s0 := update_domain d0 (with_timer false None) s).
  assert (H0 : keeps (sd_states s d) (sd_states s0 d)).
  { unfold s0. destruct (decide (d = d0)) as [->|Hn]; [rewrite update_same; apply with_timer_keeps|by rewrite update_other]. }
  unfold run. destruct (_ || _) eqn:Hgo; [by apply moves_keeps|]. destruct (negb canRun).
  { apply moves_keeps. etransitivity; [exact H0|apply schedule_keeps]. }
  destruct (decide (d = d0)) as [->|Hn]; [|rewrite update_other by done; by apply moves_keeps].
  apply orb_false_iff in Hgo as [[_ Hr]%orb_false_iff _]. rewrite update_same.
  assert (Hs0 : sd_states s0 d0 = with_timer false None (sd_states s d0)) by apply update_same.
  rewrite Hs0 in *. eapply moves_begins; [reflexivity| |reflexivity|done..].
  unfold dm_running in Hr. cbn in Hr. by destruct (dm_active (sd_states s d0)).
Qed.

Lemma after_run_keeps d0 d delayMs now s : keeps (sd_states s d) (sd_states (after_run d0 delayMs now s) d).
Proof. unfold after_run. destruct (_ && _); [apply schedule_keeps|done]. Qed.

Lemma ends_moves d0 d e now s :
  moves (sd_started s) d (rc_ends d0 e now) (sd_states s d)
    (sd_states (run_ends failureDelayMs maxBackoffMs d0 e now s) d).
Proof.
  unfold run_ends. destruct (dm_active (sd_states s d0)) as [active|] eqn:Ha; [|by apply moves_keeps].
  assert (Hother : forall f delayMs, d <> d0 ->
    keeps (sd_states s d) (sd_states (after_run d0 delayMs now (update_domain d0 f s)) d)).
  { intros f delayMs Hn. etransitivity; [|apply after_run_keeps]. by rewrite update_other. }
  assert (Hsame : forall f delayMs, d = d0 -> dm_active (f (sd_states s d0)) = None ->
    same_heights (sd_states s d0) (f (sd_states s d0)) ->
    (dm_pending (sd_states s d0) = true -> dm_pending (f (sd_states s d0)) = true) ->
    (e <> run_succeeds -> sd_started s = true -> dm_pending (f (sd_states s d0)) = true) ->
    moves (sd_started s) d (rc_ends d0 e now) (sd_states s d)
      (sd_states (after_run d0 delayMs now (update_domain d0 f s)) d)).
  { intros f delayMs -> Hn [Hh1 Hh2] Hp Hf.
    assert (Hst : forall st', same_heights (f (sd_states s d0)) st' -> dm_pending st' = dm_pending (f (sd_states s d0)) ->
      dm_active st' = dm_active (f (sd_states s d0)) ->
      moves (sd_started s) d0 (rc_ends d0 e now) (sd_states s d0) st').
    { intros st' [Hx Hy] Hpp Haa. eapply moves_ends; [reflexivity|exact Ha|congruence|split; congruence|..];
        rewrite Hpp; auto. }
    unfold after_run. destruct (_ && _); [|apply Hst; rewrite update_same; done].
    destruct (schedule_cases d0 delayMs now (update_domain d0 f s)) as [->|(t & n & ->)]; apply Hst; by rewrite ?update_same. }
  destruct (decide (d = d0)) as [Hd|Hd].
  - destruct e as [|message retryAfterMs]; [by apply Hsame|]. destruct (negb (sd_started s) && rn_aborted active) eqn:Hdrop.
    + apply Hsame; try done. intros _ Hst. by rewrite Hst in Hdrop.
    + by apply Hsame.
  - apply moves_keeps. destruct e; [|destruct (_ && _)]; by apply Hother.
Qed.

Lemma ends_inactive d e now s active :
  dm_active (sd_states s d) = Some active ->
  dm_active (sd_states (run_ends failureDelayMs maxBackoffMs d e now s) d) = None.
Proof.
  intros Ha. unfold run_ends. rewrite Ha.
  assert (H : forall f delayMs, dm_active (f (sd_states s d)) = None ->
    dm_active (sd_states (after_run d delayMs now (update_domain d f s)) d) = None).
  { intros f delayMs Hn. rewrite (kp_active _ _ (after_run_keeps d d delayMs now (update_domain d f s))).
    by rewrite update_same. }
  destruct e; [|destruct (_ && _)]; by apply H.
Qed.

Lemma act_moves a r d :
  a <> rc_stop -> moves (sd_started (rc_scheduler r)) d a (sd_states (rc_scheduler r) d)
                    (sd_states (rc_scheduler (act a r)) d).
Proof.
  intros Hn.
  destruct a as [now| |d0 anchor now|now|contract x st reason now|now|d0 canRun now|d0 e now|now| |now|answer inbox now];
    cbn [rc_act with_scheduler with_gap rc_scheduler]; try done; try (by apply moves_keeps).
  - apply moves_keeps, start_keeps.
  - apply moves_keeps, request_keeps.
  - apply moves_keeps. unfold requestCatchUp. do 4 (etransitivity; [|apply requested_keeps]). done.
  - apply moves_keeps. apply make_requests_spec.
  - apply moves_keeps. unfold backfill_fires. destruct (sd_backfillTimer _); [|done]. destruct (sd_started _); [|done].
    rewrite scheduleBackfill_states. do 2 (etransitivity; [|apply requested_keeps]). done.
  - apply timer_moves.
  - apply ends_moves.
  - apply moves_keeps. unfold reconcile_gap. destruct (gap_answered _ _ _ _) as [[tip|] m]; [apply request_keeps|done].
Qed.

Lemma act_started a r :
  a <> rc_stop -> sd_started (rc_scheduler r) = true -> sd_started (rc_scheduler (act a r)) = true.
Proof.
  intros Hn Hst.
  assert (Hsch : forall d delayMs now s, sd_started (schedule d delayMs now s) = sd_started s) by (intros; apply schedule_spec).
  assert (Hback : forall s, sd_started (scheduleBackfill s) = sd_started s)
    by (intros; unfold scheduleBackfill; by destruct (_ || _)).
  destruct a as [now| |d0 anchor now|now|contract x st reason now|now|d0 canRun now|d0 e now|now| |now|answer inbox now];
    cbn [rc_act with_scheduler with_gap rc_scheduler]; try done.
  - unfold start. by rewrite Hst.
  - by rewrite (proj2 (request_keeps d0 anchor now _ d0)).
  - unfold requestCatchUp. by rewrite !requested_started.
  - unfold notifyProcessed. by rewrite (proj2 (proj2 (make_requests_spec _ _ _))).
  - unfold backfill_fires. destruct (sd_backfillTimer _); [|done].
    change (sd_started (set_backfillTimer false (rc_scheduler r))) with (sd_started (rc_scheduler r)). rewrite Hst.
    by rewrite Hback, !requested_started.
  - unfold timer_fires. destruct (dm_timer _); [|done]. unfold run. destruct (_ || _); [done|].
    destruct (negb canRun); [by rewrite Hsch|done].
  - unfold run_ends. destruct (dm_active _); [|done].
    assert (Hrun : forall delayMs s, sd_started s = true -> sd_started (after_run d0 delayMs now s) = true).
    { intros delayMs s Hs. unfold after_run. destruct (_ && _); [by rewrite Hsch|done]. }
    destruct e; [|destruct (_ && _)]; by apply Hrun.
  - unfold reconcile_gap. destruct (gap_answered _ _ _ _) as [[tip|] m]; [|done].
    cbn [rc_scheduler]. by rewrite (proj2 (request_keeps dm_current (gap_anchor tip) now _ dm_current)).
Qed.

(** ** Requests are served *)

Abbreviation run_of := (rc_run parseJson deserializeCV managerPrincipal failureDelayMs maxBackoffMs intervalMs).
Abbreviation domain_of d r := (sd_states (rc_scheduler r) d).

Definition heights_ge (stacks burn : option Z) (anchor : RequestAnchor) : Prop :=
  height_ge stacks (ra_stacksHeight anchor) /\ height_ge burn (ra_burnHeight anchor).

Definition run_covers (active : DomainRun) (anchor : RequestAnchor) : Prop :=
  heights_ge (rn_stacksHeight active) (rn_burnHeight active) anchor.

(** Among [l] from [r], a run of the domain begins with at least the heights, and is still active
    before the rest. *)
Definition begins_in (d : Domain) (anchor : RequestAnchor) (l : list RcAction) (r : Reconciliation) (active : DomainRun) : Prop :=
  exists l1 canRun now l2, l = l1 ++ rc_timer d canRun now :: l2 /\
    dm_active (domain_of d (run_of l1 r)) = None /\
    dm_active (domain_of d (run_of (l1 ++ [rc_timer d canRun now]) r)) = Some active /\
    (forall e now', rc_ends d e now' ∉ l2) /\ run_covers active anchor.

(** ... and ends in success. *)
Definition served (d : Domain) (anchor : RequestAnchor) (l : list RcAction) (r : Reconciliation) : Prop :=
  exists l1 l2 now active, l = l1 ++ rc_ends d run_succeeds now :: l2 /\ begins_in d anchor l1 r active /\
    dm_active (domain_of d (run_of l1 r)) = Some active.

Lemma run_app l l' r : run_of (l ++ l') r = run_of l' (run_of l r).
Proof. revert r. induction l as [|a l IH]; intros r; [done|apply IH]. Qed.

Lemma run_snoc l a r : run_of (l ++ [a]) r = act a (run_of l r).
Proof. by rewrite run_app. Qed.

Inductive owed (d : Domain) (anchor : RequestAnchor) (l : list RcAction) (r : Reconciliation) : Prop :=
  | owed_pending : dm_pending (domain_of d (run_of l r)) = true -> owed d anchor l r
  | owed_running active :
      begins_in d anchor l r active -> dm_active (domain_of d (run_of l r)) = Some active -> owed d anchor l r
  | owed_served : served d anchor l r -> owed d anchor l r.

Lemma begins_in_snoc d anchor l a r active :
  (forall e now, a <> rc_ends d e now) -> begins_in d anchor l r active -> begins_in d anchor (l ++ [a]) r active.
Proof.
  intros Ha (l1 & canRun & now & l2 & -> & Hn & Hs & Hl & Hc). exists l1, canRun, now, (l2 ++ [a]).
  split_and!; [by rewrite <- app_assoc|done|done| |done]. intros e now' [H|H%list_elem_of_singleton]%elem_of_app.
  - by apply (Hl e now').
  - by apply (Ha e now').
Qed.

Lemma end_cases e : e = run_succeeds \/ e <> run_succeeds.
Proof. destruct e; [by left|by right]. Qed.

Lemma owed_snoc d anchor l a r :
  a <> rc_stop -> sd_started (rc_scheduler (run_of l r)) = true ->
  heights_ge (dm_requestedStacksHeight (domain_of d (run_of l r)))
    (dm_requestedBurnHeight (domain_of d (run_of l r))) anchor ->
  owed d anchor l r -> owed d anchor (l ++ [a]) r.
Proof.
  intros Hn Hst [Hs Hb] Ho. pose proof (act_moves a (run_of l r) d Hn) as Hm. rewrite <- run_snoc in Hm.
  destruct Ho as [Hp|active Hbe Hact|(l1 & l2 & now & active & -> & Hbe & Hact)].
  - destruct Hm as [[Hk _ _ _]|canRun now active -> Hnone Hact Hrs Hrb _|e now active -> _ _ _ Hk _].
    + apply owed_pending. auto.
    + apply (owed_running _ _ _ _ active); [|done]. exists l, canRun, now, [].
      split_and!; [done|done|done|by intros ?? ?%not_elem_of_nil|]. split; [by rewrite Hrs|by rewrite Hrb].
    + apply owed_pending. auto.
  - destruct Hm as [[Hp _ _ Ha]|canRun now active' -> Hnone _ _ _ _|e now active' -> Hact' Hnone _ Hp Hf].
    + apply (owed_running _ _ _ _ active); [|congruence]. apply begins_in_snoc; [|done]. intros e now ->.
      rewrite run_snoc in Ha. cbn [rc_act with_scheduler rc_scheduler] in Ha.
      by rewrite (ends_inactive d e now _ active Hact), Hact in Ha.
    + congruence.
    + destruct (end_cases e) as [->|He].
      * apply owed_served. exists l, [], now, active. split_and!; [done|done|congruence].
      * apply owed_pending. by apply Hf.
  - apply owed_served. exists l1, (l2 ++ [a]), now, active. by rewrite <- app_assoc.
Qed.

Lemma moves_heights started d a st st' anchor :
  moves started d a st st' ->
  heights_ge (dm_requestedStacksHeight st) (dm_requestedBurnHeight st) anchor ->
  heights_ge (dm_requestedStacksHeight st') (dm_requestedBurnHeight st') anchor.
Proof.
  intros Hm [Hs Hb]. destruct Hm as [[_ Hks Hkb _]|? ? ? _ _ _ _ _ [H1 H2]|? ? ? _ _ _ [H1 H2] _ _].
  - split; by eapply height_ge_trans.
  - split; [by rewrite H1|by rewrite H2].
  - split; [by rewrite H1|by rewrite H2].
Qed.

Lemma owed_run d anchor l r :
  rc_stop ∉ l -> sd_started (rc_scheduler r) = true -> dm_pending (domain_of d r) = true ->
  heights_ge (dm_requestedStacksHeight (domain_of d r)) (dm_requestedBurnHeight (domain_of d r)) anchor ->
  sd_started (rc_scheduler (run_of l r)) = true /\
  heights_ge (dm_requestedStacksHeight (domain_of d (run_of l r)))
    (dm_requestedBurnHeight (domain_of d (run_of l r))) anchor /\ owed d anchor l r.
Proof.
  intros Hns Hst Hp Hh. induction l as [|a l IH] using rev_ind.
  - split_and!; [done|done|]. by apply owed_pending.
  - apply not_elem_of_app in Hns as [Hl Ha]. destruct (IH Hl) as (Hst' & Hh' & Ho).
    assert (Hn : a <> rc_stop) by (intros ->; by apply Ha, list_elem_of_singleton).
    pose proof (act_moves a (run_of l r) d Hn) as Hm. rewrite run_snoc. split_and!.
    + by apply act_started.
    + by eapply moves_heights.
    + by apply owed_snoc.
Qed.

Lemma run_awake l r :
  Forall rc_valid l -> all_awake (rc_scheduler r) -> all_awake (rc_scheduler (run_of l r)).
Proof.
  intros Hv. revert r. induction Hv as [|a l Ha _ IH]; intros r Hr; [done|]. cbn. by apply IH, act_awake.
Qed.

Lemma new_awake : all_awake newScheduler.
Proof. by split. Qed.

(** No request is lost: after a request to a started scheduler, and until it is stopped, the
    request has been served by a successful run that began after it and fenced at least its
    heights, or work of the domain is under way, or is pending with its timer set. *)
Theorem requests_are_served history r d anchor now l :
  Forall rc_valid history -> r = run_of history newReconciliation -> sd_started (rc_scheduler r) = true ->
  anchor_ok anchor -> Forall rc_valid l -> rc_stop ∉ l ->
  let r1 := act (rc_request d anchor now) r in
  served d anchor l r1 \/ dm_running (domain_of d (run_of l r1)) = true \/
  dm_pending (domain_of d (run_of l r1)) = true /\ dm_timer (domain_of d (run_of l r1)) = true.
Proof.
  intros Hh -> Hst Ha Hl Hns r1. set (r := run_of history newReconciliation) in *.
  pose proof (run_awake history newReconciliation Hh new_awake) as Hr.
  assert (Hr1 : all_awake (rc_scheduler r1)) by by apply act_awake.
  destruct (request_records d anchor now (rc_scheduler r) Ha) as (Hp & Hs & Hb).
  assert (Hst1 : sd_started (rc_scheduler r1) = true) by by apply act_started.
  destruct (owed_run d anchor l r1 Hns Hst1 Hp (conj Hs Hb)) as (Hst' & _ & Ho).
  destruct Ho as [Hpend|active _ Hact|Hsv].
  - right. destruct (proj2 (run_awake l r1 Hl Hr1 d) Hst' Hpend) as [Ht|Hrun]; [by right|by left].
  - right. left. unfold dm_running. by rewrite Hact.
  - by left.
Qed.

(** Failed work of a started scheduler stays pending and is tried again after the delay of its
    back-off, which is positive and bounded; what the failed run answered is not forgotten. *)
Theorem failed_work_is_retried history r d message retryAfterMs now active :
  0 < failureDelayMs -> 0 < maxBackoffMs -> Forall rc_valid history ->
  r = run_of history newReconciliation -> sd_started (rc_scheduler r) = true ->
  dm_active (domain_of d r) = Some active ->
  let st := domain_of d (act (rc_ends d (run_fails message retryAfterMs) now) r) in
  let delay := retryDelay failureDelayMs maxBackoffMs retryAfterMs (dm_consecutiveFailures (domain_of d r) + 1) in
  dm_active st = None /\ dm_pending st = true /\ dm_timer st = true /\ dm_nextRetryAt st = Some (now + delay) /\
  0 < delay <= maxBackoffMs /\
  forall at_, rn_callbackReceivedAt active = Some at_ ->
    exists at', dm_pendingCallbackReceivedAt st = Some at' /\ at' <= at_.
Proof.
  intros Hd Hb Hh -> Hst Hact. set (r := run_of history newReconciliation) in *.
  pose proof (run_awake history newReconciliation Hh new_awake d) as [Htimer _].
  change (run_of history newReconciliation) with r in Htimer.
  assert (Ht : dm_timer (domain_of d r) = false).
  { apply not_true_iff_false. intros [_ Hr]%Htimer. unfold dm_running in Hr. by rewrite Hact in Hr. }
  set (delay := retryDelay _ _ _ _).
  assert (Hdelay : 0 < delay <= maxBackoffMs).
  { unfold delay, retryDelay. destruct retryAfterMs; [lia|].
    assert (0 < failureDelayMs * 2 ^ Z.max 0 (dm_consecutiveFailures (domain_of d r) + 1 - 1)) by
      (apply Z.mul_pos_pos; [done|apply Z.pow_pos_nonneg; lia]). lia. }
  cbn [rc_act with_scheduler rc_scheduler]. unfold run_ends. rewrite Hact, Hst. cbn [negb andb].
  rewrite update_same. cbn [dm_consecutiveFailures failed]. fold delay.
  unfold after_run. rewrite update_same. cbn [sd_started update_domain dm_pending failed dm_timer].
  rewrite Hst, Ht. cbn [andb negb]. unfold schedule. rewrite update_same.
  cbn [sd_started update_domain dm_timer failed]. rewrite Hst, Ht. cbn [negb orb].
  change (dm_running (failed active message now (domain_of d r))) with false. cbv iota.
  rewrite !update_same. cbn [dm_active dm_pending dm_timer dm_nextRetryAt with_timer failed].
  rewrite (proj2 (Z.ltb_lt 0 delay)) by lia. split_and!; try done; [lia..|].
  intros at_ Hat. cbn. rewrite Hat. eexists. split; [reflexivity|]. destruct (dm_pendingCallbackReceivedAt _); lia.
Qed.

End Actions.

(** ** The gap monitor *)

(** A reported gap is one: the node is ahead of what the observer verified, or advanced without any
    callback, for at least the interval; and each height is reported once, in growing order. *)
Theorem reported_gap_is_real intervalMs answer inbox m tip m' :
  gap_answered intervalMs answer inbox m = (Some tip, m') ->
  answer = inr tip /\ gm_started m = true /\ gm_lastNotified m' = Some tip /\
  match gm_lastNotified m with Some n => n < tip | None => True end /\
  exists status checkedAt, inbox = inr status /\ gm_active m = Some (checkedAt, snd (default (0, false) (gm_active m))) /\
    match op_lastVerifiedStacksBlock status with
    | Some (height, _, received, _) =>
        (height < tip /\ intervalMs <= Z.max 0 (checkedAt - received)) \/
        default tip (gm_baseline m) < tip /\
        forall s, gm_startedAt m = Some s -> received < s /\ intervalMs <= checkedAt - s
    | None => default tip (gm_baseline m) < tip /\ forall s, gm_startedAt m = Some s -> intervalMs <= checkedAt - s
    end.
Proof.
  unfold gap_answered. destruct (gm_active m) as [[checkedAt aborted]|]; [|done].
  destruct answer as [message|height]; [by destruct (_ && _)|]. destruct (gm_started m) eqn:Hst; [|done]. cbn [negb].
  destruct inbox as [message|status]; [done|]. set (f := gap_finding _ _ _ _ _ _).
  destruct (fi_degraded f) eqn:Hdeg; [|done]. cbn [andb].
  destruct (match gm_lastNotified m with None => true | Some n => n <? height end) eqn:Hlast; [|done].
  intros [= <- <-]. split_and!; [done|done| |by destruct (gm_lastNotified m); [apply Z.ltb_lt|]|].
  { unfold gap_schedule. by destruct (_ || _). }
  exists status, checkedAt. split_and!; [done|done|]. unfold f, gap_finding in Hdeg. cbn [fi_degraded] in Hdeg.
  destruct (op_lastVerifiedStacksBlock status) as [[[[h idx] received] completed]|]; cbn in Hdeg.
  - apply orb_true_iff in Hdeg as [Hx|Hx].
    + apply andb_prop in Hx as [[_ Hg]%andb_prop Hq]. left. apply Z.ltb_lt in Hg. apply Z.leb_le in Hq. lia.
    + apply andb_prop in Hx as [[Hc Hadv]%andb_prop Hi]. right. split; [by apply Z.ltb_lt|]. intros s Hs.
      rewrite Hs in Hc, Hi. cbn in Hc, Hi. apply negb_true_iff, Z.leb_gt in Hc. apply Z.leb_le in Hi. lia.
  - apply andb_prop in Hdeg as [Hadv Hi]. split; [by apply Z.ltb_lt|]. intros s Hs. rewrite Hs in Hi.
    by apply Z.leb_le.
Qed.
