(* ===== verification/ObserverScenario.v ===== *)
(** * The observer: a run, and the theorems at it

    One block callback is acknowledged, verified against the node and called verified, with a
    duplicate before and a status read after; the witnesses of the observer's theorems are at this
    run. *)

From S2P Require Import Prelude Text CanonicalJson OperationPlan SweepPlan Recipe LiveReader.
From S2P Require Import AnchorCapture ObserverInbox ObserverInboxCorrect ObserverProcess ObserverCorrect.
From S2P Require Import ObserverStatus ObserverDrain ObserverReconcile ObserverReconcileCorrect.

Open Scope string_scope.
Open Scope list_scope.
Open Scope Z_scope.

Module ConcreteObserver.

Definition hash_of (c : string) : string := String.concat "" (repeat c 64).
Definition block_payload : Wire :=
  wire_object [("block_hash", wire_string ("0x" ++ hash_of "b")); ("block_height", wire_number (num_int 120));
    ("index_block_hash", wire_string ("0x" ++ hash_of "c")); ("events", wire_array []);
    ("transactions", wire_array [])].

Definition parse (s : string) : option Wire := if String.eqb s "block-120" then Some block_payload else None.
Definition valid (s : string) : bool := true.
Definition digest (bytes : list Z) : string := hash_of "d".
Definition issues (k : EndpointKind) (w : Wire) : string := "invalid".
Definition messages (e : InboxError) : string := "failed".

Definition tip : NodeInfo * NodeTenureInfo :=
  ({| ni_burn_block_height := 900; ni_stacks_tip_height := 125; ni_stacks_tip := Some (hash_of "e") |},
   {| ti_tip_block_id := hash_of "e"; ti_tip_height := 125; ti_reward_cycle := 5 |}).

Definition node_reads : VerifyReads :=
  {| vr_before := Ok tip; vr_claimedBlock _ := Ok [1; 2; 3]; vr_canonicalBlock _ _ := Ok [1; 2; 3]; vr_after := Ok tip;
     vr_info := Ok tip.1 |}.

Definition shows (d : Delivery) (reads : VerifyReads) : Prop := reads = node_reads.

Definition block_callback : Callback :=
  {| cb_body := Some "block-120"; cb_contentType := Some "Application/JSON; charset=utf-8" |}.

Abbreviation acts := (perform parse valid digest issues messages defaultInboxLimits 15000 100).
Abbreviation allowed := (possible shows).
Abbreviation steps := (observer_step parse valid digest issues messages defaultInboxLimits 15000 100 shows).

Fixpoint run (l : list Action) (o : Observer) : Observer :=
  match l with [] => o | a :: l => run l (acts a o).1 end.

Fixpoint allowed_run (l : list Action) (o : Observer) : Prop :=
  match l with [] => True | a :: l => allowed a o /\ allowed_run l (acts a o).1 end.

Lemma run_steps l : forall o, allowed_run l o -> rtc steps o (run l o).
Proof.
  induction l as [|a l IH]; intros o; [intros _; apply rtc_refl|]. intros [Ha Hl].
  apply (rtc_l _ _ (acts a o).1); [by constructor|by apply IH].
Qed.

(** The processor starts with an empty inbox, and is idle. *)
Definition startup : list Action := [act_start 0; act_loop true; act_claim 10; act_loop true].

(** The callback, twice, and its verification. *)
Definition delivered : list Action :=
  [act_callback ep_new_block block_callback "delivery-1" 20; act_callback ep_new_block block_callback "delivery-2" 30].

Definition verification : list Action :=
  [act_notify; act_loop true; act_claim 40; act_status].

Definition answered : list Action := [act_answered node_reads 50 50; act_claim 60; act_loop true].

Definition at_rest : Observer := run (startup ++ delivered) (initial_observer 1).
Definition in_progress : Observer := run (startup ++ delivered ++ verification) (initial_observer 1).
Definition finished : Observer := run (startup ++ delivered ++ verification ++ answered) (initial_observer 1).

Lemma run_allowed : allowed_run (startup ++ delivered ++ verification ++ answered) (initial_observer 1).
Proof. vm_compute. by repeat split. Qed.
Lemma in_progress_allowed : allowed_run (startup ++ delivered ++ verification) (initial_observer 1).
Proof. vm_compute. by repeat split. Qed.
Lemma at_rest_allowed : allowed_run (startup ++ delivered) (initial_observer 1).
Proof. vm_compute. by repeat split. Qed.
Lemma startup_allowed : allowed_run startup (initial_observer 1).
Proof. vm_compute. by repeat split. Qed.

Definition state_of (id : string) (o : Observer) : option (DeliveryState * Z) :=
  (fun d => (dl_state d, dl_deliveryAttempts d)) <$> ib_table (os_inbox o) !! id.

Example received : state_of "delivery-1" at_rest = Some (ds_claimed, 2) /\ os_phase at_rest = ph_idle.
Proof. by vm_compute. Qed.
Example at_rest_started : os_started at_rest = true.
Proof. by vm_compute. Qed.
Example taken_now : state_of "delivery-1" in_progress = Some (ds_processing, 2) /\ os_started in_progress = true.
Proof. by vm_compute. Qed.
Example verified_now : state_of "delivery-1" finished = Some (ds_verified, 2) /\ os_phase finished = ph_idle.
Proof. by vm_compute. Qed.

Lemma limits_valid : limitsSchema defaultInboxLimits = true.
Proof. reflexivity. Qed.

Lemma run_reachable l : allowed_run l (initial_observer 1) ->
  observer_reachable parse valid digest issues messages defaultInboxLimits 15000 100 shows (run l (initial_observer 1)).
Proof. intros H. exists 1. by apply run_steps. Qed.

Definition started_up : Observer := run startup (initial_observer 1).

Definition acknowledgement : AcceptedDelivery :=
  {| ad_deliveryId := "delivery-1"; ad_duplicate := false; ad_state := ds_claimed; ad_deliveryAttempts := 1 |}.

Definition first_callback : Action := act_callback ep_new_block block_callback "delivery-1" 20.

Lemma first_reply :
  exists l, accept_callback parse valid digest issues defaultInboxLimits ep_new_block block_callback "delivery-1" 20
    started_up = (reply_accepted acknowledgement, (acts first_callback started_up).1, l).
Proof.
  assert (H : (accept_callback parse valid digest issues defaultInboxLimits ep_new_block block_callback "delivery-1" 20
    started_up).1.1 = reply_accepted acknowledgement) by (vm_compute; reflexivity).
  unfold first_callback. cbn [perform]. destruct (accept_callback _ _ _ _ _ _ _ _ _ _) as [[r o] l].
  cbn [fst] in H |- *. subst r. by exists l.
Qed.

Definition rest : list Action := List.tl delivered ++ verification ++ answered.

Lemma rest_allowed : allowed_run rest (acts first_callback started_up).1.
Proof. vm_compute. by repeat split. Qed.

Lemma new_delivery : ib_table (os_inbox started_up) !! "delivery-1" = None.
Proof. by vm_compute. Qed.

Lemma acknowledged_callback_is_kept_witness :
  exists body d, cb_body block_callback = Some body /\
    ib_table (os_inbox (run rest (acts first_callback started_up).1)) !! "delivery-1" = Some d /\
    dl_endpointKind d = ep_new_block /\ rtc delivery_edge ds_claimed (dl_state d) /\ 1 <= dl_deliveryAttempts d /\
    (dl_contentSha256 d = digest (text_bytes body) \/ dl_state d = ds_quarantined).
Proof.
  destruct first_reply as [l Hl].
  exact (acknowledged_callback_is_kept parse valid digest issues messages defaultInboxLimits 15000 100 shows
    started_up ep_new_block block_callback "delivery-1" 20 acknowledgement _ l _ limits_valid
    (run_reachable startup startup_allowed) new_delivery Hl (run_steps rest _ rest_allowed)).
Defined.

Lemma inbox_stays_in_order_witness :
  table_ok defaultInboxLimits (ib_table (os_inbox finished)) /\ within_bounds (ib_table (os_inbox finished)).
Proof.
  exact (inbox_stays_in_order parse valid digest issues messages defaultInboxLimits 15000 100 shows finished
    limits_valid (run_reachable _ run_allowed)).
Defined.

Lemma row_of id o st n : state_of id o = Some (st, n) -> exists d, ib_table (os_inbox o) !! id = Some d /\ dl_state d = st.
Proof. unfold state_of. destruct (ib_table (os_inbox o) !! id) as [d|]; [|done]. intros [= <- _]. by exists d. Qed.

Lemma verified_blocks_are_canonical_witness :
  exists e d reads height hash before fence block, ib_table (os_inbox finished) !! "delivery-1" = Some e /\
    shows d reads /\ about_same d e /\ dl_endpointKind e = ep_new_block /\
    cc_blockHeight (dl_claim e) = Some height /\ cc_indexBlockHash (dl_claim e) = Some hash /\
    vr_before reads = Ok before /\ vr_after reads = Ok fence /\ sameCanonicalTip before fence = true /\
    vr_claimedBlock reads hash = Ok block /\
    vr_canonicalBlock reads height (ti_tip_block_id before.2) = Ok block /\
    height <= ti_tip_height before.2 < height + MAX_HEADER_PROOF_DEPTH.
Proof.
  destruct (row_of "delivery-1" finished ds_verified 2 (proj1 verified_now)) as (e & He & Hs).
  destruct (verified_blocks_are_canonical parse valid digest issues messages defaultInboxLimits 15000 100 shows finished
    "delivery-1" e limits_valid (run_reachable _ run_allowed) He Hs) as (d & reads & height & hash & before & fence & block & H).
  exists e, d, reads, height, hash, before, fence, block. exact (conj He H).
Defined.

Lemma no_delivery_is_stuck_witness :
  exists e processed attempts d, ib_table (os_inbox in_progress) !! "delivery-1" = Some e /\
    os_phase in_progress = ph_verifying processed attempts "delivery-1" d /\ about_same d e.
Proof.
  destruct (row_of "delivery-1" in_progress ds_processing 2 (proj1 taken_now)) as (e & He & Hs).
  destruct (no_delivery_is_stuck parse valid digest issues messages defaultInboxLimits 15000 100 shows in_progress
    "delivery-1" e limits_valid (run_reachable _ in_progress_allowed) (proj2 taken_now) He Hs)
    as (processed & attempts & d & H).
  exists e, processed, attempts, d. exact (conj He H).
Defined.

(** The processor is asked at 40; a duplicate and a status read come while the node is asked. *)
Abbreviation drains := (drain_run parse valid digest issues messages defaultInboxLimits 15000 100 shows 100 true).
Abbreviation drains_by := (processes parse valid digest issues messages defaultInboxLimits 15000 100 shows 100 true).

Definition asked : Observer := notify at_rest.
Definition duplicate : Action := act_callback ep_new_block block_callback "delivery-3" 45.
Definition drained1 : Observer := (acts (act_loop true) asked).1.
Definition drained2 : Observer := (acts (act_claim 40) drained1).1.
Definition drained3 : Observer := (acts duplicate drained2).1.
Definition drained4 : Observer := (acts act_status drained3).1.
Definition drained5 : Observer := (acts (act_answered node_reads 50 50) drained4).1.
Definition drained6 : Observer := (acts (act_claim 60) drained5).1.
Definition drained7 : Observer := (acts (act_loop true) drained6).1.

Lemma drained_phases :
  os_phase asked = ph_loop 0 /\ os_phase drained1 = ph_batch 0 0 /\
  ib_table (os_inbox drained2) !! "delivery-3" = None /\
  (exists d, os_phase drained4 = ph_verifying 0 1 "delivery-1" d) /\
  state_of "delivery-1" drained4 = Some (ds_processing, 3) /\
  os_phase drained5 = ph_batch 1 1 /\ os_phase drained6 = ph_loop 1 /\ os_phase drained7 = ph_idle.
Proof. vm_compute. split_and!; try done. by eexists. Qed.

Lemma node_answers d : exists outcome, verifyObserverDelivery d node_reads = Ok outcome.
Proof.
  unfold verifyObserverDelivery, verifyStacksBlockDelivery, verifyBurnBlockDelivery, compareBlocks.
  cbn -[sameCanonicalTip Z.ltb Z.leb Z.add Z.sub]. repeat case_match; by eexists.
Qed.

Abbreviation then_processes := (run_processes parse valid digest issues messages defaultInboxLimits 15000 100 shows 100 true).
Abbreviation then_interferes := (run_interferes parse valid digest issues messages defaultInboxLimits 15000 100 shows 100 true).

Lemma drain_runs : drains 40 asked 5 12 60 drained7.
Proof.
  destruct drained_phases as (H0 & H1 & H2 & (d & H4) & Hp & H5 & H6 & _).
  refine (then_processes 40 asked 40 drained1 4 12 60 drained7 _ _).
  { exact (processes_loop _ _ _ _ _ _ _ _ _ _ _ 40 asked 0 true H0 (fun _ => eq_refl)). }
  refine (then_processes 40 drained1 40 drained2 3 12 60 drained7 _ _).
  { refine (processes_claim _ _ _ _ _ _ _ _ _ _ _ 40 drained1 0 0 40 H1 _). lia. }
  refine (then_interferes 40 drained2 12 45 drained3 3 0 60 drained7 _ _).
  { refine (interferes_callback _ _ _ _ _ _ _ _ _ 100 40 drained2 _ _ "delivery-3" 45 H2 _). lia. }
  refine (then_interferes 45 drained3 0 45 drained4 3 0 60 drained7 _ _).
  { exact (interferes_status _ _ _ _ _ _ _ _ _ 100 45 drained3). }
  refine (then_processes 45 drained4 50 drained5 2 0 60 drained7 _ _).
  { refine (processes_answer _ _ _ _ _ _ _ _ _ _ _ 45 drained4 0 1 "delivery-1" d node_reads 50 50 H4 eq_refl _ _); [lia|].
    intros _. exact (conj (node_answers d) (row_of _ _ _ _ Hp)). }
  refine (then_processes 50 drained5 60 drained6 1 0 60 drained7 _ _).
  { refine (processes_claim _ _ _ _ _ _ _ _ _ _ _ 50 drained5 1 1 60 H5 _). lia. }
  refine (then_processes 60 drained6 60 drained7 0 0 60 drained7 _ _).
  { exact (processes_loop _ _ _ _ _ _ _ _ _ _ _ 60 drained6 1 true H6 (fun _ => eq_refl)). }
  exact (drain_ends _ _ _ _ _ _ _ _ _ _ _ 60 drained7).
Qed.

Lemma drain_serves_the_queue_witness :
  5 <= 12 * inbox_tries 15000 100 (ib_table (os_inbox at_rest)) + 7 + 12 /\
  forall id, is_Some (ib_table (os_inbox at_rest) !! id) ->
  exists d, ib_table (os_inbox (drained7)) !! id = Some d /\
    (terminal (dl_state d) = true \/ dl_state d = ds_claimed /\ 40 < dl_nextAttemptAt d).
Proof.
  destruct (drain_serves_the_queue parse valid digest issues messages defaultInboxLimits 15000 100 shows 100 true 40 at_rest
    5 12 60 (drained7) limits_valid eq_refl ltac:(lia) (run_reachable _ at_rest_allowed)
    at_rest_started (proj2 received) drain_runs) as (Hn & _ & Hs).
  exact (conj Hn (Hs eq_refl (proj2 (proj2 (proj2 (proj2 (proj2 (proj2 (proj2 drained_phases))))))))).
Defined.

(** The status after an operation, a status read, and the commit of another connection. *)
Definition one_claim : Inbox := List.hd (opened ∅ 1) (op_commits parse valid (op_claim 5) (opened ∅ 1)).
Definition other_table : Inbox := foreign_commit (ib_table (os_inbox finished)) 2 (status one_claim).2.

Lemma status_equals_the_table_witness :
  (status other_table).1 ≡ readStatus (readTotals every_row (ib_table other_table)) (ib_table other_table).
Proof.
  refine (status_equals_the_table parse valid ∅ 1 other_table _).
  apply (rtc_l _ _ one_claim); [apply (inbox_commits _ _ (op_claim 5)); [exact I|by left]|].
  apply (rtc_l _ _ (status one_claim).2); [apply inbox_status|].
  apply rtc_once. apply inbox_foreign. by vm_compute.
Defined.

End ConcreteObserver.

(** The scheduler starts, a verified block asks for the rewards, and the work fails once. *)
Module ConcreteReconcile.

Definition no_text (s : string) : option Wire := None.
Definition no_value (s : string) : option Clarity.ClarityValue := None.

Definition history : list RcAction := [rc_start 0; rc_timer dm_current true 1; rc_ends dm_current run_succeeds 2].
Definition block_anchor : RequestAnchor :=
  {| ra_stacksHeight := Some 120; ra_burnHeight := None; ra_callbackReceivedAt := Some (Some 20) |}.
Definition work : list RcAction :=
  [rc_timer dm_rewards true 5; rc_ends dm_rewards (run_fails "timeout" None) 6; rc_timer dm_rewards true 20000;
   rc_ends dm_rewards run_succeeds 20010].

Abbreviation acts := (rc_run no_text no_value "manager" DEFAULT_FAILURE_DELAY_MS DEFAULT_MAX_BACKOFF_MS 15000).
Abbreviation act := (rc_act no_text no_value "manager" DEFAULT_FAILURE_DELAY_MS DEFAULT_MAX_BACKOFF_MS 15000).

Definition asked : Reconciliation := act (rc_request dm_rewards block_anchor 3) (acts history newReconciliation).
Definition worked : Reconciliation := acts work asked.

Example work_done :
  let st := sd_states (rc_scheduler worked) dm_rewards in
  dm_pending st = false /\ dm_running st = false /\ dm_successes st = 1 /\ dm_failuresTotal st = 1 /\
  dm_requestedStacksHeight st = Some 120.
Proof. by vm_compute. Qed.

Lemma block_anchor_ok : anchor_ok block_anchor.
Proof. split_and!; [|done..]. by intros h [= <-]. Qed.

Lemma history_valid : Forall rc_valid history.
Proof. by repeat constructor. Qed.
Lemma work_valid : Forall rc_valid work.
Proof. by repeat constructor. Qed.
Lemma work_unstopped : rc_stop ∉ work.
Proof. unfold work. rewrite !not_elem_of_cons. split_and!; try done. by intros ?%not_elem_of_nil. Qed.

Lemma requests_are_served_witness :
  served no_text no_value "manager" DEFAULT_FAILURE_DELAY_MS DEFAULT_MAX_BACKOFF_MS 15000 dm_rewards block_anchor work
    asked.
Proof.
  destruct (requests_are_served no_text no_value "manager" DEFAULT_FAILURE_DELAY_MS DEFAULT_MAX_BACKOFF_MS 15000 history
    (acts history newReconciliation) dm_rewards block_anchor 3 work history_valid eq_refl eq_refl block_anchor_ok
    work_valid work_unstopped) as [H|[H|[H _]]].
  - exact H.
  - destruct work_done as (_ & Hr & _). exfalso. exact (eq_true_false_abs _ H Hr).
  - destruct work_done as (Hp & _). exfalso. exact (eq_true_false_abs _ H Hp).
Defined.

End ConcreteReconcile.
