(* ===== verification/EngineTables.v ===== *)
(** * The tables of the transaction engine

    Migrations 14 and 15 of apps/sidekick/src/storage/migrations.ts, the row types of
    apps/sidekick/src/transaction-engine/repository.ts, and its transactions.  A row is the columns its trigger makes immutable (its
    binding) and the ones that change; documents are held themselves where the tables hold their
    canonical JSON.  Instants are texts, as in the tables, and order as texts.  Each operation is
    one transaction: it returns a value and the database it committed, or throws and leaves the
    database as it was.  The CHECK constraints, unique indexes and foreign keys of the tables
    guard every write. *)

From S2P Require Import Prelude Text CanonicalJson Principals OperationPlan ChainAnchor TransactionJob.

Open Scope string_scope.
Open Scope list_scope.
Open Scope Z_scope.

(** ** Rows *)

Record AttestationIdentity := {
  ai_issuer : string;
  ai_revision : Z;
  ai_payloadSha256 : string;
}.

#[global] Instance AttestationIdentity_eq_dec : EqDecision AttestationIdentity.
Proof. solve_decision. Defined.

(** The immutable columns of [transaction_jobs]. *)
Record JobBinding := {
  jb_idempotencyKey : string;
  jb_operationScopeKey : string;
  jb_adapterId : string;
  jb_adapterRevision : Z;
  jb_managerPrincipal : string;
  jb_intentSha256 : string;
  jb_policySha256 : string;
  jb_intent : Json;
  jb_policy : Json;
  jb_chainAnchor : Anchor.ChainAnchor;
  jb_attestation : AttestationIdentity;
  jb_createdAt : string;
}.

Record JobRow := {
  tj_binding : JobBinding;
  tj_state : Job.TransactionJobState;
  tj_stateVersion : Z;
  tj_blockReason : option string;
  tj_supersessionReason : option string;
  tj_supersededByJobId : option string;
  tj_updatedAt : string;
}.

Inductive NonceReservationState := ns_reserved | ns_ambiguous | ns_resolved.

Record NonceBinding := {
  nb_gasPayerPrincipal : string;
  nb_jobId : string;
  nb_nonce : string;
  nb_observedAccountNonce : string;
  nb_createdAt : string;
}.

Record NonceRow := {
  nr_binding : NonceBinding;
  nr_state : NonceReservationState;
  nr_stateVersion : Z;
  nr_foreignActivity : bool;
  nr_updatedAt : string;
  nr_resolvedAt : option string;
}.

Inductive TransactionAttemptState :=
  | as_signed | as_submitted | as_ambiguous | as_confirmed | as_rejected | as_reconciled.

Inductive TransactionExecutionStatus := ex_success | ex_abort_by_response | ex_abort_by_post_condition.

(** [StoredTransactionInclusion] *)
Record Inclusion := {
  in_txid : string;
  in_executionStatus : TransactionExecutionStatus;
  in_stacksBlockHeight : Z;
  in_blockHash : string;
  in_indexBlockHash : string;
  in_canonical : bool;
  in_observedAt : string;
}.

Record AttemptBinding := {
  ab_jobId : string;
  ab_attemptNumber : Z;
  ab_nonceReservationId : string;
  ab_feeUstx : string;
  ab_feePolicyRevision : Z;
  ab_signedTransactionRef : string;
  ab_precomputedTxid : string;
  ab_createdAt : string;
}.

Record AttemptRow := {
  ta_binding : AttemptBinding;
  ta_state : TransactionAttemptState;
  ta_stateVersion : Z;
  ta_submissionResult : option Json;
  ta_inclusion : option Inclusion;
  ta_submittedAt : option string;
  ta_resolvedAt : option string;
  ta_updatedAt : string;
}.

Record ApprovalBinding := {
  pb_jobId : string;
  pb_intentSha256 : string;
  pb_policySha256 : string;
  pb_approvalSha256 : string;
  pb_approval : Json;
  pb_actor : string;
  pb_createdAt : string;
  pb_expiresAt : string;
}.

(** When and why an approval was invalidated: two columns that are null together. *)
Record ApprovalRow := {
  pr_binding : ApprovalBinding;
  pr_invalidated : option (string * string);
  pr_approvalVersion : Z;
}.

Inductive ReconciliationOutcome :=
  | ro_pending | ro_satisfied | ro_not_satisfied | ro_external_success | ro_noncanonical
  | ro_ambiguous | ro_blocked.

(** A row of [transaction_reconciliation_observations], all of it immutable. *)
Record ObservationRow := {
  or_jobId : string;
  or_predicateSha256 : string;
  or_predicate : Json;
  or_chainAnchor : Anchor.ChainAnchor;
  or_authoritative : bool;
  or_canonical : bool;
  or_finalityDepth : Z;
  or_outcome : ReconciliationOutcome;
  or_effectRemaining : bool;
  or_reason : option string;
  or_observedAt : string;
}.

(** A row of a control table: the reason, the actor and the instant. *)
Record Control := { ct_reason : string; ct_actor : string; ct_at : string }.

#[global] Instance Json_eq_dec : EqDecision Json.
Proof.
  unfold EqDecision, RelDecision; fix go 1. intros [|b|n|s|l|l] [|b'|n'|s'|l'|l']; try (right; discriminate); [by left| | | | |].
  - destruct (decide (b = b')) as [->|]; [by left | right; congruence].
  - destruct (decide (n = n')) as [->|]; [by left | right; congruence].
  - destruct (decide (s = s')) as [->|]; [by left | right; congruence].
  - destruct (@list_eq_dec Json go l l') as [->|]; [by left | right; congruence].
  - assert (Hp : EqDecision (string * Json)).
    { intros [k v] [k' v']. destruct (decide (k = k')) as [->|]; [|right; congruence].
      destruct (go v v') as [->|]; [by left | right; congruence]. }
    destruct (@list_eq_dec _ Hp l l') as [->|]; [by left | right; congruence].
Defined.

#[global] Instance JobBinding_eq_dec : EqDecision JobBinding.
Proof. solve_decision. Defined.
#[global] Instance NonceReservationState_eq_dec : EqDecision NonceReservationState.
Proof. solve_decision. Defined.
#[global] Instance NonceBinding_eq_dec : EqDecision NonceBinding.
Proof. solve_decision. Defined.
#[global] Instance TransactionAttemptState_eq_dec : EqDecision TransactionAttemptState.
Proof. solve_decision. Defined.
#[global] Instance TransactionExecutionStatus_eq_dec : EqDecision TransactionExecutionStatus.
Proof. solve_decision. Defined.
#[global] Instance Inclusion_eq_dec : EqDecision Inclusion.
Proof. solve_decision. Defined.
#[global] Instance AttemptBinding_eq_dec : EqDecision AttemptBinding.
Proof. solve_decision. Defined.
#[global] Instance ApprovalBinding_eq_dec : EqDecision ApprovalBinding.
Proof. solve_decision. Defined.
#[global] Instance ReconciliationOutcome_eq_dec : EqDecision ReconciliationOutcome.
Proof. solve_decision. Defined.
#[global] Instance ObservationRow_eq_dec : EqDecision ObservationRow.
Proof. solve_decision. Defined.

(** The tables.  [engine_force_observe_control] has at most one row; of the attestations only the
    identity is read. *)
Record EngineDb := {
  jobs : gmap string JobRow;
  nonces : gmap string NonceRow;
  attempts : gmap string AttemptRow;
  approvals : gmap string ApprovalRow;
  evidence : gmap string ObservationRow;
  forced : option Control;
  disabled : gmap string Control;
  attestations : gmap string (Z * string);
}.

Definition with_jobs (m : gmap string JobRow) (d : EngineDb) : EngineDb :=
  {| jobs := m; nonces := nonces d; attempts := attempts d; approvals := approvals d;
     evidence := evidence d; forced := forced d; disabled := disabled d; attestations := attestations d |}.
Definition with_nonces (m : gmap string NonceRow) (d : EngineDb) : EngineDb :=
  {| jobs := jobs d; nonces := m; attempts := attempts d; approvals := approvals d;
     evidence := evidence d; forced := forced d; disabled := disabled d; attestations := attestations d |}.
Definition with_attempts (m : gmap string AttemptRow) (d : EngineDb) : EngineDb :=
  {| jobs := jobs d; nonces := nonces d; attempts := m; approvals := approvals d;
     evidence := evidence d; forced := forced d; disabled := disabled d; attestations := attestations d |}.
Definition with_approvals (m : gmap string ApprovalRow) (d : EngineDb) : EngineDb :=
  {| jobs := jobs d; nonces := nonces d; attempts := attempts d; approvals := m;
     evidence := evidence d; forced := forced d; disabled := disabled d; attestations := attestations d |}.
Definition with_evidence (m : gmap string ObservationRow) (d : EngineDb) : EngineDb :=
  {| jobs := jobs d; nonces := nonces d; attempts := attempts d; approvals := approvals d;
     evidence := m; forced := forced d; disabled := disabled d; attestations := attestations d |}.
Definition with_forced (c : Control) (d : EngineDb) : EngineDb :=
  {| jobs := jobs d; nonces := nonces d; attempts := attempts d; approvals := approvals d;
     evidence := evidence d; forced := Some c; disabled := disabled d; attestations := attestations d |}.
Definition with_disabled (m : gmap string Control) (d : EngineDb) : EngineDb :=
  {| jobs := jobs d; nonces := nonces d; attempts := attempts d; approvals := approvals d;
     evidence := evidence d; forced := forced d; disabled := m; attestations := attestations d |}.

(** ** Constraints of the tables *)

Definition is_null {A} (o : option A) : bool := if o is Some _ then false else true.

(** [state NOT IN ('reconciled', 'superseded')] *)
Definition active_job (r : JobRow) : bool :=
  negb (bool_decide (tj_state r ∈ [Job.reconciled; Job.superseded])).

Definition job_checks (id : string) (r : JobRow) : bool :=
  let b := tj_binding r in
  (0 <? jb_adapterRevision b) && (String.length (jb_intentSha256 b) =? 64)%nat &&
  (String.length (jb_policySha256 b) =? 64)%nat && (0 <? ai_revision (jb_attestation b)) &&
  (String.length (ai_payloadSha256 (jb_attestation b)) =? 64)%nat && (0 <=? tj_stateVersion r) &&
  Bool.eqb (bool_decide (tj_state r = Job.blocked)) (negb (is_null (tj_blockReason r))) &&
  Bool.eqb (bool_decide (tj_state r = Job.superseded)) (negb (is_null (tj_supersessionReason r))) &&
  (is_null (tj_supersededByJobId r) || bool_decide (tj_state r = Job.superseded)) &&
  negb (bool_decide (tj_supersededByJobId r = Some id)).

(** The partial indexes [transaction_jobs_one_active_checkpoint] and [_one_active_scope]. *)
Definition jobs_apart (r s : JobRow) : bool :=
  negb (active_job r && active_job s &&
        (String.eqb (jb_idempotencyKey (tj_binding r)) (jb_idempotencyKey (tj_binding s)) ||
         String.eqb (jb_operationScopeKey (tj_binding r)) (jb_operationScopeKey (tj_binding s)))).

(** [length(x) > 0 AND x NOT GLOB '*[^0-9]*'] *)
Definition digits (s : string) : bool := negb (String.eqb s "") && forallb is_digit (chars s).

Definition nonce_checks (r : NonceRow) : bool :=
  digits (nb_nonce (nr_binding r)) && digits (nb_observedAccountNonce (nr_binding r)) &&
  (0 <=? nr_stateVersion r) &&
  Bool.eqb (bool_decide (nr_state r = ns_resolved)) (negb (is_null (nr_resolvedAt r))).

(** [gas_payer_nonce_one_unresolved] *)
Definition nonces_apart (r s : NonceRow) : bool :=
  negb (is_null (nr_resolvedAt r) && is_null (nr_resolvedAt s) &&
        String.eqb (nb_gasPayerPrincipal (nr_binding r)) (nb_gasPayerPrincipal (nr_binding s))).

Definition attempt_checks (r : AttemptRow) : bool :=
  let b := ta_binding r in
  (ab_attemptNumber b =? 1) && digits (ab_feeUstx b) && (0 <? ab_feePolicyRevision b) &&
  (String.length (ab_precomputedTxid b) =? 66)%nat && (0 <=? ta_stateVersion r).

(** UNIQUE (job_id) and UNIQUE (precomputed_txid) *)
Definition attempts_apart (r s : AttemptRow) : bool :=
  negb (String.eqb (ab_jobId (ta_binding r)) (ab_jobId (ta_binding s))) &&
  negb (String.eqb (ab_precomputedTxid (ta_binding r)) (ab_precomputedTxid (ta_binding s))).

Definition approval_checks (r : ApprovalRow) : bool :=
  let b := pr_binding r in
  (String.length (pb_intentSha256 b) =? 64)%nat && (String.length (pb_policySha256 b) =? 64)%nat &&
  (String.length (pb_approvalSha256 b) =? 64)%nat && (0 <=? pr_approvalVersion r).

(** [transaction_approvals_one_active] *)
Definition approvals_apart (r s : ApprovalRow) : bool :=
  negb (is_null (pr_invalidated r) && is_null (pr_invalidated s) &&
        String.eqb (pb_jobId (pr_binding r)) (pb_jobId (pr_binding s))).

Definition observation_checks (r : ObservationRow) : bool :=
  (String.length (or_predicateSha256 r) =? 64)%nat && (0 <=? or_finalityDepth r).

(** Every row passes its checks, and any two rows of a table the unique indexes. *)
Definition table_ok {R} (checks : string -> R -> bool) (apart : R -> R -> bool) (m : gmap string R) : Prop :=
  map_Forall (fun id r => checks id r = true /\
    map_Forall (fun id' s => id = id' \/ apart r s = true) m) m.

(** A foreign key column. *)
Definition refers {R S} (key : R -> option string) (m : gmap string R) (target : gmap string S) : Prop :=
  map_Forall (fun _ r => match key r with Some k => is_Some (target !! k) | None => True end) m.

#[global] Instance refers_dec {R S} key (m : gmap string R) (target : gmap string S) :
  Decision (refers key m target).
Proof. unfold refers. apply map_Forall_dec. intros _ r. destruct (key r); apply _. Defined.

#[global] Instance table_ok_dec {R} checks apart (m : gmap string R) : Decision (table_ok checks apart m).
Proof. unfold table_ok. apply _. Defined.

Record schema_ok (d : EngineDb) : Prop := {
  ok_jobs : table_ok job_checks jobs_apart (jobs d);
  ok_nonces : table_ok (fun _ => nonce_checks) nonces_apart (nonces d);
  ok_attempts : table_ok (fun _ => attempt_checks) attempts_apart (attempts d);
  ok_approvals : table_ok (fun _ => approval_checks) approvals_apart (approvals d);
  ok_evidence : table_ok (fun _ => observation_checks) (fun _ _ => true) (evidence d);
  ok_superseded : refers tj_supersededByJobId (jobs d) (jobs d);
  ok_nonce_job : refers (fun r => Some (nb_jobId (nr_binding r))) (nonces d) (jobs d);
  ok_attempt_job : refers (fun r => Some (ab_jobId (ta_binding r))) (attempts d) (jobs d);
  ok_attempt_nonce : refers (fun r => Some (ab_nonceReservationId (ta_binding r))) (attempts d) (nonces d);
  ok_approval_job : refers (fun r => Some (pb_jobId (pr_binding r))) (approvals d) (jobs d);
  ok_evidence_job : refers (fun r => Some (or_jobId r)) (evidence d) (jobs d);
}.

#[global] Instance schema_ok_dec d : Decision (schema_ok d).
Proof.
  refine (cast_if (decide (
    table_ok job_checks jobs_apart (jobs d) /\
    table_ok (fun _ => nonce_checks) nonces_apart (nonces d) /\
    table_ok (fun _ => attempt_checks) attempts_apart (attempts d) /\
    table_ok (fun _ => approval_checks) approvals_apart (approvals d) /\
    table_ok (fun _ => observation_checks) (fun _ _ => true) (evidence d) /\
    refers tj_supersededByJobId (jobs d) (jobs d) /\
    refers (fun r => Some (nb_jobId (nr_binding r))) (nonces d) (jobs d) /\
    refers (fun r => Some (ab_jobId (ta_binding r))) (attempts d) (jobs d) /\
    refers (fun r => Some (ab_nonceReservationId (ta_binding r))) (attempts d) (nonces d) /\
    refers (fun r => Some (pb_jobId (pr_binding r))) (approvals d) (jobs d) /\
    refers (fun r => Some (or_jobId r)) (evidence d) (jobs d))));
  [split; tauto | intros []; tauto].
Defined.

(** ** Errors *)

(** The messages of [TransactionEngineConflictError]. *)
Inductive Conflict :=
  | hash_differs | attestation_not_accepted | different_durable_work | older_chain_facts
  | self_supersession | needs_signed_commitment | forced_to_observe | adapter_disabled
  | superseding_job_missing | nonce_transition | txid_bound | approval_not_active | approval_not_bound
  | reservation_differs | gas_payer_busy | attempt_exists | attempt_transition | submission_result_missing
  | inclusion_not_bound | inclusion_not_confirming | observation_job_missing | observation_bound
  | cursor_invalid | cursor_filters.

(** [TransactionEngineCasError], [TransactionEngineConflictError] and its subclass
    [InFlightLogicalJobConflictError], [InvalidTransactionJobTransitionError], a value a schema
    refuses, a constraint of the tables, and any other throw. *)
Inductive EngineError :=
  | engine_cas
  | engine_conflict (c : Conflict)
  | in_flight (jobId : string) (state : Job.TransactionJobState)
  | invalid_transition (e : Job.InvalidTransactionJobTransitionError)
  | engine_schema | engine_sql | engine_other.

(** ** Computations inside a transaction *)

Definition engine_tx (A : Type) : Type := EngineDb -> result EngineError (A * EngineDb).

#[global] Instance engine_ret : MRet engine_tx := fun A a d => Ok (a, d).
#[global] Instance engine_bind : MBind engine_tx := fun A B k m d =>
  match m d with Ok (a, d') => k a d' | Err e => Err e end.

Definition throw_tx {A} (e : EngineError) : engine_tx A := fun _ => Err e.
Definition check_tx (b : bool) (e : EngineError) : engine_tx unit := if b then mret tt else throw_tx e.
Definition conflict_unless (b : bool) (c : Conflict) : engine_tx unit := check_tx b (engine_conflict c).
Definition read_tx {A} (f : EngineDb -> A) : engine_tx A := fun d => Ok (f d, d).
Definition of_result_tx {A} (r : result EngineError A) : engine_tx A :=
  match r with Ok a => mret a | Err e => throw_tx e end.

(** A method of the repository: the value or the throw, and the database afterwards. *)
Definition engine_op (A : Type) : Type := EngineDb -> result EngineError A * EngineDb.

(** [transaction]: BEGIN IMMEDIATE with COMMIT, or ROLLBACK on a throw. *)
Definition transaction {A} (m : engine_tx A) : engine_op A := fun d =>
  match m d with Ok (a, d') => (Ok a, d') | Err e => (Err e, d) end.

(** A statement: the constraints hold afterwards, or it throws. *)
Definition write_tx (f : EngineDb -> EngineDb) : engine_tx unit := fun d =>
  if bool_decide (schema_ok (f d)) then Ok (tt, f d) else Err engine_sql.

(** [UPDATE ... SET f WHERE p] on a table whose trigger keeps [binding]; the changed rows are
    counted. *)
Section Update.
  Context {R B : Type} `{EqDecision B} (binding : R -> B) (table : EngineDb -> gmap string R)
    (put : gmap string R -> EngineDb -> EngineDb).

Definition update_tx (p : string -> R -> bool) (f : R -> R) : engine_tx nat := fun d =>
    let changed := filter (fun '(id, r) => p id r = true) (table d) in
    if bool_decide (map_Forall (fun _ r => binding (f r) = binding r) changed)
    then (_ ← write_tx (put ((f <$> changed) ∪ table d)); mret (size changed)) d
    else Err engine_sql.

(** [INSERT]; a duplicate key throws. *)
Definition insert_tx (id : string) (r : R) : engine_tx unit := fun d =>
    if bool_decide (table d !! id = None) then write_tx (put (<[id := r]> (table d))) d else Err engine_sql.

(** [requireChanges]: exactly one row. *)
Definition update_one (p : string -> R -> bool) (f : R -> R) : engine_tx unit :=
    n ← update_tx p f; check_tx (n =? 1)%nat engine_cas.

End Update.

Abbreviation update_jobs := (update_tx tj_binding jobs with_jobs).
Abbreviation update_job := (update_one tj_binding jobs with_jobs).
Abbreviation update_approvals := (update_tx pr_binding approvals with_approvals).
Abbreviation update_nonce := (update_one nr_binding nonces with_nonces).
Abbreviation update_attempt := (update_one ta_binding attempts with_attempts).

(** [SELECT] of a table: the rows that satisfy [p], in the given order. *)
Definition select {R} (order : string * R -> string * R -> Z) (p : string -> R -> bool)
    (m : gmap string R) : list (string * R) :=
  js_sort order (List.filter (fun '(id, r) => p id r) (map_to_list m)).

(** A SELECT whose WHERE matches one row at most. *)
Definition find {R} (p : string -> R -> bool) (m : gmap string R) : option (string * R) :=
  head (List.filter (fun '(id, r) => p id r) (map_to_list m)).

(** ORDER BY [time] DESC, id DESC, and the reverse. *)
Definition newest_first {R} (time : R -> string) (left right : string * R) : Z :=
  let c := code_unit_compare (time right.2) (time left.2) in
  if c =? 0 then code_unit_compare right.1 left.1 else c.
Definition oldest_first {R} (time : R -> string) (left right : string * R) : Z := newest_first time right left.

(** [[...new Set(l)]]: the first occurrence of every value. *)
Definition distinct {A} `{EqDecision A} (l : list A) : list A := rev (remove_dups (rev l)).

Definition tj_createdAt (r : JobRow) : string := jb_createdAt (tj_binding r).
