(* ===== verification/EngineStore.v ===== *)
(** * The store of the transaction engine

    [TransactionEngineRepository] of apps/sidekick/src/transaction-engine/repository.ts over
    [EngineTables]: the logical jobs and their transitions, pages of jobs, approvals, the nonces of
    the gas payers, signed attempts, the evidence of reconciliations and the two irreversible
    controls.  Identifiers a method draws when none is given are part of its input. *)

From S2P Require Import Prelude Text CanonicalJson Principals OperationPlan ChainAnchor TransactionJob WalletRequest EngineTables.

Open Scope string_scope.
Open Scope list_scope.
Open Scope Z_scope.

(** ** Documents *)

Section EngineStore.

Context (isUuid isDatetime : string -> bool) (validateStacksAddress : string -> bool)
  (sha256 : list Z -> string).

(** [canonicalDocument]: the keys are sorted by code units here. *)
Definition canonicalText (v : Json) : string := canonicalJson code_unit_compare v.
Definition documentSha256 (v : Json) : string := sha256 (text_bytes (canonicalText v)).
Definition documentValue (v : Json) : Json := normal code_unit_compare v.

Definition identifier (s : string) : bool := length_between 1 500 s.
Definition principal (s : string) : bool := validatePrincipal validateStacksAddress s.
Definition txid_ok (s : string) : bool := prefixed_hex is_lower_hex 64 s.
Definition issuer_start (c : ascii) : bool := is_digit c || in_range "a" "z" c.
Definition issuer_char (c : ascii) : bool :=
  issuer_start c || Ascii.eqb c "." || Ascii.eqb c "_" || Ascii.eqb c "-".
Definition issuer (s : string) : bool :=
  match chars s with
  | [] => false
  | c :: rest => issuer_start c && forallb issuer_char rest && (List.length rest <=? 99)%nat
  end.
Definition anchor_ok (a : Anchor.ChainAnchor) : bool := is_ok (Anchor.parseChainAnchor a).
Definition text_between (lo hi : nat) (o : option string) : bool :=
  match o with Some s => length_between lo hi s | None => false end.

(** ** Schemas of rows *)

Definition jobRowSchema (id : string) (r : JobRow) : bool :=
  let b := tj_binding r in
  isUuid id && identifier (jb_idempotencyKey b) && identifier (jb_operationScopeKey b) &&
  identifier (jb_adapterId b) && Anchor.positiveInt (jb_adapterRevision b) &&
  principal (jb_managerPrincipal b) && hash64 (jb_intentSha256 b) && hash64 (jb_policySha256 b) &&
  issuer (ai_issuer (jb_attestation b)) && Anchor.positiveInt (ai_revision (jb_attestation b)) &&
  hash64 (ai_payloadSha256 (jb_attestation b)) && Anchor.nonnegativeInt (tj_stateVersion r) &&
  match tj_supersededByJobId r with Some s => isUuid s | None => true end &&
  isDatetime (jb_createdAt b) && isDatetime (tj_updatedAt r).

Definition nonceRowSchema (id : string) (r : NonceRow) : bool :=
  let b := nr_binding r in
  isUuid id && principal (nb_gasPayerPrincipal b) && isUuid (nb_jobId b) && uintText (nb_nonce b) &&
  uintText (nb_observedAccountNonce b) && Anchor.nonnegativeInt (nr_stateVersion r) &&
  isDatetime (nb_createdAt b) && isDatetime (nr_updatedAt r) &&
  match nr_resolvedAt r with Some t => isDatetime t | None => true end.

Definition inclusionSchema (i : Inclusion) : bool :=
  txid_ok (in_txid i) && Anchor.nonnegativeInt (in_stacksBlockHeight i) && txid_ok (in_blockHash i) &&
  txid_ok (in_indexBlockHash i) && isDatetime (in_observedAt i).

Definition attemptRowSchema (id : string) (r : AttemptRow) : bool :=
  let b := ta_binding r in
  isUuid id && isUuid (ab_jobId b) && Anchor.positiveInt (ab_attemptNumber b) &&
  isUuid (ab_nonceReservationId b) && uintText (ab_feeUstx b) &&
  Anchor.positiveInt (ab_feePolicyRevision b) && nonempty (ab_signedTransactionRef b) &&
  txid_ok (ab_precomputedTxid b) && Anchor.nonnegativeInt (ta_stateVersion r) &&
  match ta_submittedAt r with Some t => isDatetime t | None => true end &&
  match ta_resolvedAt r with Some t => isDatetime t | None => true end &&
  isDatetime (ab_createdAt b) && isDatetime (ta_updatedAt r).

Definition approvalRowSchema (id : string) (r : ApprovalRow) : bool :=
  let b := pr_binding r in
  isUuid id && isUuid (pb_jobId b) && hash64 (pb_intentSha256 b) && hash64 (pb_policySha256 b) &&
  hash64 (pb_approvalSha256 b) && nonempty (pb_actor b) && isDatetime (pb_createdAt b) &&
  isDatetime (pb_expiresAt b) &&
  match pr_invalidated r with Some (t, _) => isDatetime t | None => true end &&
  Anchor.nonnegativeInt (pr_approvalVersion r).

Definition observationRowSchema (id : string) (r : ObservationRow) : bool :=
  isUuid id && isUuid (or_jobId r) && hash64 (or_predicateSha256 r) &&
  Anchor.nonnegativeInt (or_finalityDepth r) && isDatetime (or_observedAt r).

Definition controlSchema (c : Control) : bool :=
  length_between 1 1000 (ct_reason c) && length_between 1 500 (ct_actor c) && isDatetime (ct_at c).

(** The parsed row of a query, with its key. *)
Definition parsed {R} (schema : string -> R -> bool) (o : option (string * R)) : engine_tx (option (string * R)) :=
  match o with
  | None => mret None
  | Some (id, r) => _ ← check_tx (schema id r) engine_schema; mret (Some (id, r))
  end.

(** [jobRow] *)
Definition jobRow (id : string) : engine_tx (option JobRow) :=
  _ ← check_tx (isUuid id) engine_schema;
  o ← read_tx (fun d => jobs d !! id);
  match o with
  | None => mret None
  | Some r => _ ← check_tx (jobRowSchema id r) engine_schema; mret (Some r)
  end.

(** [mapJob]: the sealed anchor has to parse. *)
Definition mapJob (id : string) (r : JobRow) : engine_tx (string * JobRow) :=
  _ ← check_tx (anchor_ok (jb_chainAnchor (tj_binding r))) engine_schema; mret (id, r).

Definition mapFound (o : option (string * JobRow)) : engine_tx (option (string * JobRow)) :=
  o ← parsed jobRowSchema o;
  match o with Some (id, r) => x ← mapJob id r; mret (Some x) | None => mret None end.

Definition mapAttemptRow (id : string) (r : AttemptRow) : engine_tx (string * AttemptRow) :=
  _ ← check_tx (match ta_inclusion r with Some i => inclusionSchema i | None => true end) engine_schema;
  mret (id, r).

(** [.map((row) => f(row))] *)
Fixpoint map_tx {A B} (f : A -> engine_tx B) (l : list A) : engine_tx (list B) :=
  match l with
  | [] => mret []
  | x :: rest => y ← f x; ys ← map_tx f rest; mret (y :: ys)
  end.

(** ** Reads of jobs *)

Definition getLogicalJob (jobId : string) : engine_op (option (string * JobRow)) := transaction (
  o ← jobRow jobId;
  match o with Some r => x ← mapJob jobId r; mret (Some x) | None => mret None end).

Definition getLogicalJobByTxid (txid : string) : engine_op (option (string * JobRow)) := transaction (
  _ ← check_tx (txid_ok txid) engine_schema;
  o ← read_tx (fun d =>
        '(_, a) ← find (fun _ a => String.eqb (ab_precomputedTxid (ta_binding a)) txid) (attempts d);
        pair (ab_jobId (ta_binding a)) <$> jobs d !! ab_jobId (ta_binding a));
  mapFound o).

(** ORDER BY updated_at DESC, job_id ASC *)
Definition updated_order (left right : string * JobRow) : Z :=
  let c := code_unit_compare (tj_updatedAt right.2) (tj_updatedAt left.2) in
  if c =? 0 then code_unit_compare left.1 right.1 else c.

Definition getLogicalJobSupersededBy (jobId : string) : engine_op (option (string * JobRow)) := transaction (
  _ ← check_tx (isUuid jobId) engine_schema;
  o ← read_tx (fun d => head (select updated_order
        (fun _ r => bool_decide (tj_supersededByJobId r = Some jobId)) (jobs d)));
  mapFound o).

Definition of_scope (scope : string) (r : JobRow) : bool :=
  String.eqb (jb_operationScopeKey (tj_binding r)) scope.
Definition of_checkpoint (key : string) (r : JobRow) : bool :=
  String.eqb (jb_idempotencyKey (tj_binding r)) key.

Definition getActiveLogicalJob (key : string) : engine_op (option (string * JobRow)) := transaction (
  _ ← check_tx (identifier key) engine_schema;
  o ← read_tx (fun d => find (fun _ r => of_checkpoint key r && active_job r) (jobs d));
  mapFound o).

Definition getActiveLogicalJobForScope (scope : string) : engine_op (option (string * JobRow)) := transaction (
  _ ← check_tx (identifier scope) engine_schema;
  o ← read_tx (fun d => find (fun _ r => of_scope scope r && active_job r) (jobs d));
  mapFound o).

Definition getLatestLogicalJobForScope (scope : string) : engine_op (option (string * JobRow)) := transaction (
  _ ← check_tx (identifier scope) engine_schema;
  o ← read_tx (fun d => head (select (newest_first tj_createdAt) (fun _ r => of_scope scope r) (jobs d)));
  mapFound o).

Record LogicalJobStats := { js_total : Z; js_active : Z; js_awaitingApproval : Z; js_ambiguous : Z }.

Definition count_where {R} (p : R -> bool) (m : gmap string R) : Z :=
  Z.of_nat (size (filter (fun '(_, r) => p r = true) m)).

Definition logicalJobStats (d : EngineDb) : LogicalJobStats :=
  {| js_total := Z.of_nat (size (jobs d)); js_active := count_where active_job (jobs d);
     js_awaitingApproval := count_where (fun r => bool_decide (tj_state r = Job.awaiting_approval)) (jobs d);
     js_ambiguous := count_where (fun r => bool_decide (tj_state r = Job.ambiguous)) (jobs d) |}.

(** ** Pages of jobs *)

Definition stateText (s : Job.TransactionJobState) : string :=
  match s with
  | Job.prepared => "prepared" | Job.preflighted => "preflighted"
  | Job.awaiting_approval => "awaiting_approval" | Job.nonce_reserved => "nonce_reserved"
  | Job.broadcast => "broadcast" | Job.confirmed => "confirmed" | Job.reconciled => "reconciled"
  | Job.blocked => "blocked" | Job.superseded => "superseded" | Job.ambiguous => "ambiguous"
  | Job.noncanonical_reobserve => "noncanonical_reobserve"
  end.

(** The base64url JSON of a cursor, by its content. *)
Record JobCursor := { cu_createdAt : string; cu_jobId : string; cu_filterSha256 : string }.

(** The [cursor] is what its text decodes to; [Some None] is a text that is not JSON. *)
Record LogicalJobListOptions := {
  lo_limit : option Z;
  lo_cursor : option (option JobCursor);
  lo_adapterId : option string;
  lo_managerPrincipal : option string;
  lo_states : list Job.TransactionJobState;
}.

Record LogicalJobPage := {
  lp_items : list (string * JobRow);
  lp_nextCursor : option JobCursor;
  lp_total : Z;
}.

Definition or_null (o : option string) : Json := match o with Some s => JStr s | None => JNull end.

Definition filterStates (states : list Job.TransactionJobState) : list string :=
  js_sort code_unit_compare (map stateText (distinct states)).

Definition filterSha256 (o : LogicalJobListOptions) : string :=
  documentSha256 (JObj [("adapterId", or_null (lo_adapterId o));
                        ("managerPrincipal", or_null (lo_managerPrincipal o));
                        ("states", JArr (map JStr (filterStates (lo_states o))))]).

Definition decodeJobCursor (cursor : option JobCursor) (filter : string) : engine_tx JobCursor :=
  match cursor with
  | None => throw_tx (engine_conflict cursor_invalid)
  | Some c =>
      _ ← check_tx (isDatetime (cu_createdAt c) && isUuid (cu_jobId c) && hash64 (cu_filterSha256 c)) engine_schema;
      _ ← conflict_unless (String.eqb (cu_filterSha256 c) filter) cursor_filters;
      mret c
  end.

(** The WHERE clause of the filters, and of a page after a cursor. *)
Definition job_matches (o : LogicalJobListOptions) (r : JobRow) : bool :=
  match lo_adapterId o with Some a => String.eqb (jb_adapterId (tj_binding r)) a | None => true end &&
  match lo_managerPrincipal o with Some m => String.eqb (jb_managerPrincipal (tj_binding r)) m | None => true end &&
  (bool_decide (lo_states o = []) || bool_decide (tj_state r ∈ lo_states o)).

Definition after_cursor (cursor : option JobCursor) (id : string) (r : JobRow) : bool :=
  match cursor with
  | None => true
  | Some c =>
      (code_unit_compare (tj_createdAt r) (cu_createdAt c) <? 0) ||
      (String.eqb (tj_createdAt r) (cu_createdAt c) && (code_unit_compare id (cu_jobId c) <? 0))
  end.

Definition given_ok (p : string -> bool) (o : option string) : bool :=
  match o with Some s => p s | None => true end.

Definition listLogicalJobs (o : LogicalJobListOptions) : engine_op LogicalJobPage := transaction (
  let limit := default 50 (lo_limit o) in
  _ ← check_tx ((1 <=? limit) && (limit <=? 200) && given_ok identifier (lo_adapterId o) &&
                given_ok principal (lo_managerPrincipal o)) engine_schema;
  cursor ← match lo_cursor o with
           | None => mret None
           | Some c => c ← decodeJobCursor c (filterSha256 o); mret (Some c)
           end;
  total ← read_tx (fun d => count_where (job_matches o) (jobs d));
  rows ← read_tx (fun d => take (Z.to_nat (limit + 1))
           (select (newest_first tj_createdAt) (fun id r => job_matches o r && after_cursor cursor id r) (jobs d)));
  _ ← map_tx (fun '(id, r) => check_tx (jobRowSchema id r) engine_schema) rows;
  let hasMore := (limit <? Z.of_nat (List.length rows)) in
  let pageRows := if hasMore then take (Z.to_nat limit) rows else rows in
  items ← map_tx (fun '(id, r) => mapJob id r) pageRows;
  mret {| lp_items := items;
          lp_nextCursor :=
            match last pageRows with
            | Some (id, r) =>
                if hasMore then Some {| cu_createdAt := tj_createdAt r; cu_jobId := id;
                                        cu_filterSha256 := filterSha256 o |}
                else None
            | None => None
            end;
          lp_total := total |}).

(** ** Creating jobs *)

(** [CreateLogicalJobInput], with the given or generated ID. *)
Record CreateLogicalJobInput := {
  cj_jobId : string;
  cj_idempotencyKey : string;
  cj_operationScopeKey : option string;
  cj_adapterId : string;
  cj_adapterRevision : Z;
  cj_managerPrincipal : string;
  cj_intent : Json;
  cj_intentSha256 : string;
  cj_policy : Json;
  cj_policySha256 : string;
  cj_chainAnchor : Anchor.ChainAnchor;
  cj_attestation : AttestationIdentity;
  cj_createdAt : string;
}.

Definition parseCreateLogicalJobInput (i : CreateLogicalJobInput) : result EngineError JobBinding :=
  _ ← require (hash64 (cj_intentSha256 i) && hash64 (cj_policySha256 i)) engine_schema;
  _ ← require (String.eqb (documentSha256 (cj_intent i)) (cj_intentSha256 i)) (engine_conflict hash_differs);
  _ ← require (String.eqb (documentSha256 (cj_policy i)) (cj_policySha256 i)) (engine_conflict hash_differs);
  anchor ← match Anchor.parseChainAnchor (cj_chainAnchor i) with Ok a => Ok a | Err _ => Err engine_schema end;
  let scope := default (cj_idempotencyKey i) (cj_operationScopeKey i) in
  _ ← require (isUuid (cj_jobId i) && identifier (cj_idempotencyKey i) && identifier scope &&
               identifier (cj_adapterId i) && Anchor.positiveInt (cj_adapterRevision i) &&
               principal (cj_managerPrincipal i) && issuer (ai_issuer (cj_attestation i)) &&
               Anchor.positiveInt (ai_revision (cj_attestation i)) &&
               hash64 (ai_payloadSha256 (cj_attestation i)) && isDatetime (cj_createdAt i)) engine_schema;
  Ok {| jb_idempotencyKey := cj_idempotencyKey i; jb_operationScopeKey := scope;
        jb_adapterId := cj_adapterId i; jb_adapterRevision := cj_adapterRevision i;
        jb_managerPrincipal := cj_managerPrincipal i; jb_intentSha256 := cj_intentSha256 i;
        jb_policySha256 := cj_policySha256 i; jb_intent := documentValue (cj_intent i);
        jb_policy := documentValue (cj_policy i); jb_chainAnchor := anchor;
        jb_attestation := cj_attestation i; jb_createdAt := cj_createdAt i |}.

(** [jobMatchesInput]: everything but the ID and the instant of creation. *)
Definition jobMatchesInput (r : JobRow) (v : JobBinding) : bool :=
  let b := tj_binding r in
  String.eqb (jb_idempotencyKey b) (jb_idempotencyKey v) &&
  String.eqb (jb_operationScopeKey b) (jb_operationScopeKey v) &&
  String.eqb (jb_adapterId b) (jb_adapterId v) && (jb_adapterRevision b =? jb_adapterRevision v) &&
  String.eqb (jb_managerPrincipal b) (jb_managerPrincipal v) &&
  String.eqb (jb_intentSha256 b) (jb_intentSha256 v) &&
  String.eqb (jb_policySha256 b) (jb_policySha256 v) &&
  String.eqb (canonicalText (jb_intent b)) (canonicalText (jb_intent v)) &&
  String.eqb (canonicalText (jb_policy b)) (canonicalText (jb_policy v)) &&
  bool_decide (jb_chainAnchor b = jb_chainAnchor v) &&
  bool_decide (jb_attestation b = jb_attestation v).

(** [assertAcceptedJobAttestation] *)
Definition assertAcceptedJobAttestation (v : JobBinding) : engine_tx unit :=
  accepted ← read_tx (fun d => attestations d !! ai_issuer (jb_attestation v));
  conflict_unless (bool_decide (accepted = Some (ai_revision (jb_attestation v),
                                                 ai_payloadSha256 (jb_attestation v))))
    attestation_not_accepted.

Definition new_job (v : JobBinding) : JobRow :=
  {| tj_binding := v; tj_state := Job.prepared; tj_stateVersion := 0; tj_blockReason := None;
     tj_supersessionReason := None; tj_supersededByJobId := None; tj_updatedAt := jb_createdAt v |}.

(** [insertPreparedJob] *)
Definition insertPreparedJob (id : string) (v : JobBinding) : engine_tx JobRow :=
  _ ← insert_tx jobs with_jobs id (new_job v);
  o ← read_tx (fun d => jobs d !! id);
  match o with
  | None => throw_tx engine_other
  | Some r => _ ← check_tx (jobRowSchema id r) engine_schema; mret r
  end.

(** The latest job of the checkpoint that is not superseded. *)
Definition sameIdempotency (v : JobBinding) (d : EngineDb) : option (string * JobRow) :=
  head (select (newest_first tj_createdAt)
    (fun _ r => of_checkpoint (jb_idempotencyKey v) r && negb (bool_decide (tj_state r = Job.superseded)))
    (jobs d)).

Definition createLogicalJob (i : CreateLogicalJobInput) : engine_op (string * JobRow * bool) := transaction (
  v ← of_result_tx (parseCreateLogicalJobInput i);
  _ ← assertAcceptedJobAttestation v;
  o ← read_tx (sameIdempotency v);
  existing ← parsed jobRowSchema o;
  match existing with
  | Some (id, r) =>
      if jobMatchesInput r v then x ← mapJob id r; mret (x, false)
      else throw_tx (engine_conflict different_durable_work)
  | None => r ← insertPreparedJob (cj_jobId i) v; x ← mapJob (cj_jobId i) r; mret (x, true)
  end).

(** ** Changing jobs *)

(** [UPDATE transaction_jobs SET state, state_version + 1, ...] *)
Definition job_to (s : Job.TransactionJobState) (block supersession by_ : option string) (at_ : string)
    (r : JobRow) : JobRow :=
  {| tj_binding := tj_binding r; tj_state := s; tj_stateVersion := tj_stateVersion r + 1;
     tj_blockReason := block; tj_supersessionReason := supersession; tj_supersededByJobId := by_;
     tj_updatedAt := at_ |}.

Definition job_related (by_ : string) (r : JobRow) : JobRow :=
  {| tj_binding := tj_binding r; tj_state := tj_state r; tj_stateVersion := tj_stateVersion r;
     tj_blockReason := tj_blockReason r; tj_supersessionReason := tj_supersessionReason r;
     tj_supersededByJobId := Some by_; tj_updatedAt := tj_updatedAt r |}.

(** [WHERE job_id = ? AND state = ? AND state_version = ?] *)
Definition job_at (jobId : string) (s : Job.TransactionJobState) (version : Z) (id : string) (r : JobRow) : bool :=
  String.eqb id jobId && bool_decide (tj_state r = s) && (tj_stateVersion r =? version).

Definition invalidated (at_ reason : string) (r : ApprovalRow) : ApprovalRow :=
  {| pr_binding := pr_binding r; pr_invalidated := Some (at_, reason);
     pr_approvalVersion := pr_approvalVersion r + 1 |}.

(** [WHERE job_id = ? AND invalidated_at IS NULL] *)
Definition approval_of (jobId : string) (_ : string) (r : ApprovalRow) : bool :=
  String.eqb (pb_jobId (pr_binding r)) jobId && is_null (pr_invalidated r).

Definition of_transition {A} (r : result Job.InvalidTransactionJobTransitionError A) : engine_tx A :=
  match r with Ok a => mret a | Err e => throw_tx (invalid_transition e) end.

Definition supersedable : list Job.TransactionJobState :=
  [Job.prepared; Job.preflighted; Job.awaiting_approval; Job.blocked; Job.noncanonical_reobserve].

(** The active job of the scope makes way. *)
Definition supersede (v : JobBinding) (changedAt reason : string) (id : string) (active : JobRow)
    : engine_tx unit :=
  activeAnchor ← of_result_tx (match Anchor.parseChainAnchor (jb_chainAnchor (tj_binding active)) with
                               | Ok a => Ok a | Err _ => Err engine_schema end);
  _ ← conflict_unless (negb (
        (Anchor.stacksBlockHeight (jb_chainAnchor v) <? Anchor.stacksBlockHeight activeAnchor) ||
        (Anchor.burnBlockHeight (jb_chainAnchor v) <? Anchor.burnBlockHeight activeAnchor))) older_chain_facts;
  _ ← check_tx (bool_decide (tj_state active ∈ supersedable)) (in_flight id (tj_state active));
  _ ← of_transition (Job.assertTransactionJobTransition (tj_state active) Job.superseded);
  _ ← update_job (job_at id (tj_state active) (tj_stateVersion active))
        (job_to Job.superseded None (Some reason) None changedAt);
  _ ← update_approvals (approval_of id) (invalidated changedAt ("job-superseded:" ++ reason)%string);
  mret tt.

Definition createOrSupersedeLogicalJob (i : CreateLogicalJobInput) (changedAt reason : string)
    : engine_op (string * JobRow * bool * option string) := transaction (
  v ← of_result_tx (parseCreateLogicalJobInput i);
  _ ← check_tx (isDatetime changedAt && length_between 1 2000 reason) engine_schema;
  _ ← assertAcceptedJobAttestation v;
  o ← read_tx (sameIdempotency v);
  existing ← parsed jobRowSchema o;
  match existing with
  | Some (id, r) =>
      if jobMatchesInput r v then x ← mapJob id r; mret (x, false, None)
      else throw_tx (engine_conflict different_durable_work)
  | None =>
      o ← read_tx (fun d => find (fun _ r => of_scope (jb_operationScopeKey v) r && active_job r) (jobs d));
      active ← parsed jobRowSchema o;
      _ ← match active with
          | Some (id, r) => supersede v changedAt reason id r
          | None => mret tt
          end;
      r ← insertPreparedJob (cj_jobId i) v;
      _ ← match active with
          | Some (id, _) =>
              update_job (fun k s => String.eqb k id && bool_decide (tj_state s = Job.superseded))
                (job_related (cj_jobId i))
          | None => mret tt
          end;
      x ← mapJob (cj_jobId i) r;
      mret (x, true, fst <$> active)
  end).

(** [authorityControlReason] *)
Definition authorityControlReason (adapterId : string) (d : EngineDb) : option Conflict :=
  match forced d with
  | Some _ => Some forced_to_observe
  | None => match disabled d !! adapterId with Some _ => Some adapter_disabled | None => None end
  end.

Definition refuse_controlled (adapterId : string) : engine_tx unit :=
  c ← read_tx (authorityControlReason adapterId);
  match c with Some c => throw_tx (engine_conflict c) | None => mret tt end.

Record TransitionInput := {
  ti_jobId : string;
  ti_expectedState : Job.TransactionJobState;
  ti_expectedStateVersion : Z;
  ti_nextState : Job.TransactionJobState;
  ti_changedAt : string;
  ti_blockReason : option string;
  ti_supersessionReason : option string;
  ti_supersededByJobId : option string;
}.

(** States that need authority, and states that end every approval of the job. *)
Definition authorityStates : list Job.TransactionJobState :=
  [Job.awaiting_approval; Job.nonce_reserved; Job.broadcast].
Definition revokingStates : list Job.TransactionJobState :=
  [Job.prepared; Job.confirmed; Job.blocked; Job.superseded; Job.reconciled; Job.noncanonical_reobserve].

(** The reason columns of the next state. *)
Definition next_block (i : TransitionInput) : option string :=
  if decide (ti_nextState i = Job.blocked) then ti_blockReason i else None.
Definition next_supersession (i : TransitionInput) : option string :=
  if decide (ti_nextState i = Job.superseded) then ti_supersessionReason i else None.
Definition next_related (i : TransitionInput) : option string :=
  if decide (ti_nextState i = Job.superseded) then ti_supersededByJobId i else None.

Definition transitionLogicalJob (i : TransitionInput) : engine_op (string * JobRow) := transaction (
  let id := ti_jobId i in
  let next := ti_nextState i in
  _ ← check_tx (isUuid id && Anchor.nonnegativeInt (ti_expectedStateVersion i) && isDatetime (ti_changedAt i))
        engine_schema;
  _ ← of_transition (Job.assertTransactionJobTransition (ti_expectedState i) next);
  _ ← check_tx (negb (bool_decide (next = Job.blocked)) || text_between 1 2000 (ti_blockReason i)) engine_schema;
  _ ← check_tx (negb (bool_decide (next = Job.superseded)) || text_between 1 2000 (ti_supersessionReason i))
        engine_schema;
  _ ← check_tx (given_ok isUuid (next_related i)) engine_schema;
  _ ← conflict_unless (negb (bool_decide (next_related i = Some id))) self_supersession;
  _ ← conflict_unless (negb (bool_decide (ti_expectedState i = Job.awaiting_approval) &&
                             bool_decide (next = Job.nonce_reserved))) needs_signed_commitment;
  o ← jobRow id;
  match o with
  | None => throw_tx engine_cas
  | Some existing =>
      _ ← check_tx (bool_decide (tj_state existing = ti_expectedState i) &&
                    (tj_stateVersion existing =? ti_expectedStateVersion i)) engine_cas;
      _ ← (if bool_decide (next ∈ authorityStates)
           then refuse_controlled (jb_adapterId (tj_binding existing)) else mret tt);
      _ ← match next_related i with
          | None => mret tt
          | Some by_ => o ← jobRow by_; conflict_unless (negb (is_null o)) superseding_job_missing
          end;
      _ ← update_job (job_at id (ti_expectedState i) (ti_expectedStateVersion i))
            (job_to next (next_block i) (next_supersession i) (next_related i) (ti_changedAt i));
      _ ← (if bool_decide (next ∈ revokingStates)
           then n ← update_approvals (approval_of id)
                      (invalidated (ti_changedAt i) ("job-transition:" ++ stateText next)%string);
                mret tt
           else mret tt);
      updated ← jobRow id;
      match updated with None => throw_tx engine_other | Some r => mapJob id r end
  end).

(** ** Approvals and nonces *)

Definition mapApproval (o : option (string * ApprovalRow)) : engine_tx (option (string * ApprovalRow)) :=
  parsed approvalRowSchema o.

Definition getLatestApproval (jobId : string) : engine_op (option (string * ApprovalRow)) := transaction (
  _ ← check_tx (isUuid jobId) engine_schema;
  o ← read_tx (fun d => head (select (newest_first (fun r => pb_createdAt (pr_binding r)))
                  (fun _ r => String.eqb (pb_jobId (pr_binding r)) jobId) (approvals d)));
  mapApproval o).

Definition keyed {R} (id : string) (m : gmap string R) : option (string * R) := pair id <$> m !! id.

Definition getNonceReservation (id : string) : engine_op (option (string * NonceRow)) := transaction (
  _ ← check_tx (isUuid id) engine_schema;
  o ← read_tx (fun d => keyed id (nonces d));
  parsed nonceRowSchema o).

(** [WHERE job_id = ? ... ORDER BY created_at DESC, reservation_id DESC LIMIT 1] *)
Definition nonce_of_job (p : NonceRow -> bool) (jobId : string) (d : EngineDb) : option (string * NonceRow) :=
  head (select (newest_first (fun r => nb_createdAt (nr_binding r)))
    (fun _ r => String.eqb (nb_jobId (nr_binding r)) jobId && p r) (nonces d)).

Definition getNonceReservationForJob (jobId : string) : engine_op (option (string * NonceRow)) := transaction (
  _ ← check_tx (isUuid jobId) engine_schema;
  o ← read_tx (nonce_of_job (fun _ => true) jobId);
  parsed nonceRowSchema o).

Record NonceTransitionInput := {
  ni_reservationId : string;
  ni_expectedState : NonceReservationState;
  ni_expectedStateVersion : Z;
  ni_nextState : NonceReservationState;
  ni_foreignActivity : bool;
  ni_changedAt : string;
}.

(** The refused moves of a reservation. *)
Definition nonce_refused (i : NonceTransitionInput) : bool :=
  (bool_decide (ni_expectedState i = ns_reserved) &&
   negb (bool_decide (ni_nextState i ∈ [ns_ambiguous; ns_resolved]))) ||
  (bool_decide (ni_expectedState i = ns_ambiguous) && negb (bool_decide (ni_nextState i = ns_resolved)) &&
   negb (bool_decide (ni_nextState i = ns_ambiguous) && ni_foreignActivity i)).

Definition nonce_to (i : NonceTransitionInput) (r : NonceRow) : NonceRow :=
  {| nr_binding := nr_binding r; nr_state := ni_nextState i; nr_stateVersion := nr_stateVersion r + 1;
     nr_foreignActivity := ni_foreignActivity i; nr_updatedAt := ni_changedAt i;
     nr_resolvedAt := if decide (ni_nextState i = ns_resolved) then Some (ni_changedAt i) else None |}.

Definition transitionNonceReservation (i : NonceTransitionInput) : engine_op (string * NonceRow) := transaction (
  let id := ni_reservationId i in
  _ ← check_tx (isUuid id && negb (bool_decide (ni_expectedState i = ns_resolved)) &&
                Anchor.nonnegativeInt (ni_expectedStateVersion i)) engine_schema;
  _ ← conflict_unless (negb (nonce_refused i)) nonce_transition;
  _ ← check_tx (isDatetime (ni_changedAt i)) engine_schema;
  _ ← update_nonce (fun k r => String.eqb k id && bool_decide (nr_state r = ni_expectedState i) &&
                               (nr_stateVersion r =? ni_expectedStateVersion i)) (nonce_to i);
  o ← read_tx (fun d => keyed id (nonces d));
  o ← parsed nonceRowSchema o;
  match o with None => throw_tx engine_other | Some x => mret x end).

(** ** Signed attempts *)

(** [CommitApprovedSignedAttemptInput], with the given or generated IDs. *)
Record CommitInput := {
  co_attemptId : string;
  co_reservationId : string;
  co_jobId : string;
  co_expectedJobStateVersion : Z;
  co_approvalId : string;
  co_expectedApprovalVersion : Z;
  co_expectedApprovalSha256 : string;
  co_gasPayerPrincipal : string;
  co_nonce : string;
  co_observedAccountNonce : string;
  co_feeUstx : string;
  co_feePolicyRevision : Z;
  co_signedTransactionRef : string;
  co_precomputedTxid : string;
  co_committedAt : string;
}.

Definition commitInputSchema (i : CommitInput) : bool :=
  isUuid (co_attemptId i) && isUuid (co_reservationId i) && isUuid (co_jobId i) &&
  Anchor.nonnegativeInt (co_expectedJobStateVersion i) && isUuid (co_approvalId i) &&
  Anchor.nonnegativeInt (co_expectedApprovalVersion i) && hash64 (co_expectedApprovalSha256 i) &&
  principal (co_gasPayerPrincipal i) && uintText (co_nonce i) && uintText (co_observedAccountNonce i) &&
  uintText (co_feeUstx i) && Anchor.positiveInt (co_feePolicyRevision i) &&
  length_between 1 10000 (co_signedTransactionRef i) && txid_ok (co_precomputedTxid i) &&
  isDatetime (co_committedAt i).

Record CommittedAttempt := {
  ca_job : string * JobRow;
  ca_reservation : string * NonceRow;
  ca_attempt : string * AttemptRow;
  ca_created : bool;
}.

Definition reservation_matches (i : CommitInput) (r : NonceRow) : bool :=
  String.eqb (nb_gasPayerPrincipal (nr_binding r)) (co_gasPayerPrincipal i) &&
  String.eqb (nb_nonce (nr_binding r)) (co_nonce i) &&
  String.eqb (nb_observedAccountNonce (nr_binding r)) (co_observedAccountNonce i).

Definition attempt_matches (i : CommitInput) (r : AttemptRow) : bool :=
  let b := ta_binding r in
  String.eqb (ab_jobId b) (co_jobId i) && String.eqb (ab_feeUstx b) (co_feeUstx i) &&
  (ab_feePolicyRevision b =? co_feePolicyRevision i) &&
  String.eqb (ab_signedTransactionRef b) (co_signedTransactionRef i).

(** An exact stored ID is a prior durable fact: it is returned, and nothing is written. *)
Definition committed_before (i : CommitInput) (id : string) (existing : AttemptRow) : engine_tx CommittedAttempt :=
  o ← read_tx (fun d => keyed (ab_nonceReservationId (ta_binding existing)) (nonces d));
  job ← jobRow (ab_jobId (ta_binding existing));
  match o, job with
  | Some (rid, res), Some job =>
      _ ← check_tx (nonceRowSchema rid res) engine_schema;
      _ ← conflict_unless (attempt_matches i existing &&
                           String.eqb (nb_jobId (nr_binding res)) (co_jobId i) &&
                           reservation_matches i res) txid_bound;
      j ← mapJob (ab_jobId (ta_binding existing)) job;
      a ← mapAttemptRow id existing;
      mret {| ca_job := j; ca_reservation := (rid, res); ca_attempt := a; ca_created := false |}
  | _, _ => throw_tx engine_other
  end.

(** The exact approval: active, unexpired, and bound to the job's hashes. *)
Definition checked_approval (i : CommitInput) (job : JobRow) : engine_tx unit :=
  o ← read_tx (fun d => approvals d !! co_approvalId i);
  match o with
  | None => throw_tx (engine_conflict approval_not_active)
  | Some r =>
      let b := pr_binding r in
      _ ← conflict_unless (String.eqb (pb_jobId b) (co_jobId i) &&
                           (pr_approvalVersion r =? co_expectedApprovalVersion i) &&
                           is_null (pr_invalidated r) &&
                           (0 <? code_unit_compare (pb_expiresAt b) (co_committedAt i))) approval_not_active;
      _ ← check_tx (approvalRowSchema (co_approvalId i) r) engine_schema;
      conflict_unless (String.eqb (pb_approvalSha256 b) (co_expectedApprovalSha256 i) &&
                       String.eqb (pb_intentSha256 b) (jb_intentSha256 (tj_binding job)) &&
                       String.eqb (pb_policySha256 b) (jb_policySha256 (tj_binding job))) approval_not_bound
  end.

(** The transition takes no reason columns along: they are null before it. *)
Definition job_reserved (at_ : string) (r : JobRow) : JobRow :=
  {| tj_binding := tj_binding r; tj_state := Job.nonce_reserved; tj_stateVersion := tj_stateVersion r + 1;
     tj_blockReason := tj_blockReason r; tj_supersessionReason := tj_supersessionReason r;
     tj_supersededByJobId := tj_supersededByJobId r; tj_updatedAt := at_ |}.

Definition reserve_job (i : CommitInput) (job : JobRow) : engine_tx JobRow :=
  if bool_decide (tj_state job = Job.awaiting_approval) then
    _ ← update_job (job_at (co_jobId i) Job.awaiting_approval (co_expectedJobStateVersion i))
          (job_reserved (co_committedAt i));
    o ← jobRow (co_jobId i);
    match o with None => throw_tx engine_other | Some r => mret r end
  else mret job.

Definition new_nonce (i : CommitInput) : NonceRow :=
  {| nr_binding := {| nb_gasPayerPrincipal := co_gasPayerPrincipal i; nb_jobId := co_jobId i;
                      nb_nonce := co_nonce i; nb_observedAccountNonce := co_observedAccountNonce i;
                      nb_createdAt := co_committedAt i |};
     nr_state := ns_reserved; nr_stateVersion := 0; nr_foreignActivity := false;
     nr_updatedAt := co_committedAt i; nr_resolvedAt := None |}.

(** The job's unresolved reservation, which has to match, or a new one for a free gas payer. *)
Definition reserve_nonce (i : CommitInput) : engine_tx (string * NonceRow) :=
  o ← read_tx (nonce_of_job (fun r => is_null (nr_resolvedAt r)) (co_jobId i));
  match o with
  | Some (rid, r) =>
      _ ← check_tx (nonceRowSchema rid r) engine_schema;
      _ ← conflict_unless (reservation_matches i r) reservation_differs;
      mret (rid, r)
  | None =>
      busy ← read_tx (fun d => find (fun _ r =>
               String.eqb (nb_gasPayerPrincipal (nr_binding r)) (co_gasPayerPrincipal i) &&
               is_null (nr_resolvedAt r)) (nonces d));
      _ ← conflict_unless (is_null busy) gas_payer_busy;
      _ ← insert_tx nonces with_nonces (co_reservationId i) (new_nonce i);
      o ← read_tx (fun d => keyed (co_reservationId i) (nonces d));
      o ← parsed nonceRowSchema o;
      match o with None => throw_tx engine_other | Some x => mret x end
  end.

Definition new_attempt (i : CommitInput) (reservationId : string) : AttemptRow :=
  {| ta_binding := {| ab_jobId := co_jobId i; ab_attemptNumber := 1; ab_nonceReservationId := reservationId;
                      ab_feeUstx := co_feeUstx i; ab_feePolicyRevision := co_feePolicyRevision i;
                      ab_signedTransactionRef := co_signedTransactionRef i;
                      ab_precomputedTxid := co_precomputedTxid i; ab_createdAt := co_committedAt i |};
     ta_state := as_signed; ta_stateVersion := 0; ta_submissionResult := None; ta_inclusion := None;
     ta_submittedAt := None; ta_resolvedAt := None; ta_updatedAt := co_committedAt i |}.

Definition attempt_row (id : string) : engine_tx (option AttemptRow) :=
  o ← read_tx (fun d => attempts d !! id);
  match o with
  | None => mret None
  | Some r => _ ← check_tx (attemptRowSchema id r) engine_schema; mret (Some r)
  end.

(** A commitment that is not on record yet. *)
Definition commit_new (i : CommitInput) : engine_tx CommittedAttempt :=
  o ← jobRow (co_jobId i);
  match o with
  | None => throw_tx engine_cas
  | Some job =>
      _ ← check_tx (bool_decide (tj_state job ∈ [Job.awaiting_approval; Job.nonce_reserved]) &&
                    (tj_stateVersion job =? co_expectedJobStateVersion i)) engine_cas;
      _ ← refuse_controlled (jb_adapterId (tj_binding job));
      _ ← checked_approval i job;
      job ← reserve_job i job;
      res ← reserve_nonce i;
      taken ← read_tx (fun d => find (fun _ a => String.eqb (ab_jobId (ta_binding a)) (co_jobId i)) (attempts d));
      _ ← conflict_unless (is_null taken) attempt_exists;
      _ ← insert_tx attempts with_attempts (co_attemptId i) (new_attempt i res.1);
      created ← attempt_row (co_attemptId i);
      match created with
      | None => throw_tx engine_other
      | Some a =>
          j ← mapJob (co_jobId i) job;
          a ← mapAttemptRow (co_attemptId i) a;
          mret {| ca_job := j; ca_reservation := res; ca_attempt := a; ca_created := true |}
      end
  end.

Definition commitApprovedSignedAttempt (i : CommitInput) : engine_op CommittedAttempt := transaction (
  _ ← check_tx (commitInputSchema i) engine_schema;
  o ← read_tx (fun d => find (fun _ a => String.eqb (ab_precomputedTxid (ta_binding a)) (co_precomputedTxid i))
                  (attempts d));
  match o with
  | Some (id, existing) =>
      _ ← check_tx (attemptRowSchema id existing) engine_schema;
      committed_before i id existing
  | None => commit_new i
  end).

(** ** Attempts *)

Definition getAttempt (id : string) : engine_op (option (string * AttemptRow)) := transaction (
  _ ← check_tx (isUuid id) engine_schema;
  o ← attempt_row id;
  match o with None => mret None | Some r => x ← mapAttemptRow id r; mret (Some x) end).

(** [ORDER BY attempt_number]; a job has one attempt, so the order is no matter. *)
Definition attempt_order (left right : string * AttemptRow) : Z :=
  ab_attemptNumber (ta_binding left.2) - ab_attemptNumber (ta_binding right.2).

Definition parse_attempt (x : string * AttemptRow) : engine_tx (string * AttemptRow) :=
  _ ← check_tx (attemptRowSchema x.1 x.2) engine_schema; mapAttemptRow x.1 x.2.

Definition listAttempts_tx (jobId : string) : engine_tx (list (string * AttemptRow)) :=
  _ ← check_tx (isUuid jobId) engine_schema;
  rows ← read_tx (fun d => select attempt_order
           (fun _ a => String.eqb (ab_jobId (ta_binding a)) jobId) (attempts d));
  map_tx parse_attempt rows.
Definition listAttempts (jobId : string) : engine_op (list (string * AttemptRow)) :=
  transaction (listAttempts_tx jobId).

Definition listOwnedTransactionIds (d : EngineDb) : list string :=
  distinct (map (fun '(_, a) => ab_precomputedTxid (ta_binding a)) (map_to_list (attempts d))).

Definition sqliteBatchSize : nat := 400.

(** ORDER BY job_id ASC, attempt_number ASC *)
Definition activity_order (left right : string * AttemptRow) : Z :=
  let c := code_unit_compare (ab_jobId (ta_binding left.2)) (ab_jobId (ta_binding right.2)) in
  if c =? 0 then attempt_order left right else c.

(** One query per batch of IDs. *)
Fixpoint attempt_batches (fuel : nat) (ids : list string) : engine_tx (list (string * AttemptRow)) :=
  match fuel, ids with
  | S fuel, _ :: _ =>
      rows ← read_tx (fun d => select activity_order
               (fun _ a => bool_decide (ab_jobId (ta_binding a) ∈ take sqliteBatchSize ids)) (attempts d));
      found ← map_tx parse_attempt rows;
      more ← attempt_batches fuel (drop sqliteBatchSize ids);
      mret (found ++ more)
  | _, _ => mret []
  end.

(** [attempts.set(jobId, [...values, attempt])] *)
Fixpoint group_attempt (x : string * AttemptRow) (m : list (string * list (string * AttemptRow)))
    : list (string * list (string * AttemptRow)) :=
  match m with
  | [] => [(ab_jobId (ta_binding x.2), [x])]
  | (job, l) :: rest =>
      if String.eqb job (ab_jobId (ta_binding x.2)) then (job, l ++ [x]) :: rest
      else (job, l) :: group_attempt x rest
  end.

Definition listAttemptsForActivity (jobIds : list string)
    : engine_op (list (string * list (string * AttemptRow))) := transaction (
  _ ← check_tx (forallb isUuid jobIds) engine_schema;
  rows ← attempt_batches (List.length jobIds) (distinct jobIds);
  mret (fold_left (fun m x => group_attempt x m) rows [])).

(** [attemptTransitions] *)
Definition attemptTransitions (s : TransactionAttemptState) : list TransactionAttemptState :=
  match s with
  | as_signed => [as_submitted; as_ambiguous; as_rejected]
  | as_submitted => [as_confirmed; as_ambiguous; as_rejected]
  | as_ambiguous => [as_submitted; as_confirmed; as_rejected]
  | as_confirmed => [as_ambiguous; as_reconciled]
  | as_rejected => []
  | as_reconciled => []
  end.

Record AttemptTransitionInput := {
  at_attemptId : string;
  at_expectedState : TransactionAttemptState;
  at_expectedStateVersion : Z;
  at_nextState : TransactionAttemptState;
  at_changedAt : string;
  at_submissionResult : option Json;
  at_inclusion : option Inclusion;
}.

(** The attempt at the expected state and version. *)
Definition attempt_at (id : string) (s : TransactionAttemptState) (version : Z) : engine_tx AttemptRow :=
  o ← attempt_row id;
  match o with
  | None => throw_tx engine_cas
  | Some r => _ ← check_tx (bool_decide (ta_state r = s) && (ta_stateVersion r =? version)) engine_cas; mret r
  end.

(** [WHERE attempt_id = ? AND state = ? AND state_version = ?] *)
Definition attempt_is (attemptId : string) (s : TransactionAttemptState) (version : Z)
    (id : string) (r : AttemptRow) : bool :=
  String.eqb id attemptId && bool_decide (ta_state r = s) && (ta_stateVersion r =? version).

Definition or_else {A} (new old : option A) : option A := match new with Some a => Some a | None => old end.

Definition attempt_to (i : AttemptTransitionInput) (r : AttemptRow) : AttemptRow :=
  {| ta_binding := ta_binding r; ta_state := at_nextState i; ta_stateVersion := ta_stateVersion r + 1;
     ta_submissionResult := or_else (documentValue <$> at_submissionResult i) (ta_submissionResult r);
     ta_inclusion := or_else (at_inclusion i) (ta_inclusion r);
     ta_submittedAt := or_else (ta_submittedAt r)
       (if decide (at_nextState i ∈ [as_submitted; as_ambiguous]) then Some (at_changedAt i) else None);
     ta_resolvedAt := if decide (at_nextState i ∈ [as_rejected; as_reconciled]) then Some (at_changedAt i)
                      else ta_resolvedAt r;
     ta_updatedAt := at_changedAt i |}.

Definition confirming (o : option Inclusion) : bool :=
  match o with Some i => bool_decide (in_executionStatus i = ex_success) && in_canonical i | None => false end.

Definition stored_attempt (id : string) : engine_tx (string * AttemptRow) :=
  o ← attempt_row id;
  match o with None => throw_tx engine_other | Some r => mapAttemptRow id r end.

Definition transitionAttempt (i : AttemptTransitionInput) : engine_op (string * AttemptRow) := transaction (
  let id := at_attemptId i in
  _ ← check_tx (isUuid id && Anchor.nonnegativeInt (at_expectedStateVersion i)) engine_schema;
  _ ← conflict_unless (bool_decide (at_nextState i ∈ attemptTransitions (at_expectedState i))) attempt_transition;
  _ ← check_tx (isDatetime (at_changedAt i) &&
                match at_inclusion i with Some n => inclusionSchema n | None => true end) engine_schema;
  _ ← conflict_unless (negb (bool_decide (at_nextState i ∈ [as_submitted; as_ambiguous]) &&
                             bool_decide (at_expectedState i = as_signed) && is_null (at_submissionResult i)))
        submission_result_missing;
  existing ← attempt_at id (at_expectedState i) (at_expectedStateVersion i);
  _ ← conflict_unless (match at_inclusion i with
                       | Some n => String.eqb (in_txid n) (ab_precomputedTxid (ta_binding existing))
                       | None => true end) inclusion_not_bound;
  _ ← conflict_unless (negb (bool_decide (at_nextState i = as_confirmed)) || confirming (at_inclusion i))
        inclusion_not_confirming;
  _ ← update_attempt (attempt_is id (at_expectedState i) (at_expectedStateVersion i)) (attempt_to i);
  stored_attempt id).

Definition attempt_included (n : Inclusion) (changedAt : string) (r : AttemptRow) : AttemptRow :=
  {| ta_binding := ta_binding r; ta_state := ta_state r; ta_stateVersion := ta_stateVersion r + 1;
     ta_submissionResult := ta_submissionResult r; ta_inclusion := Some n;
     ta_submittedAt := ta_submittedAt r; ta_resolvedAt := ta_resolvedAt r; ta_updatedAt := changedAt |}.

Definition updateAmbiguousAttemptInclusion (id : string) (expectedVersion : Z) (inclusion : Inclusion)
    (changedAt : string) : engine_op (string * AttemptRow) := transaction (
  _ ← check_tx (isUuid id && Anchor.nonnegativeInt expectedVersion && inclusionSchema inclusion &&
                isDatetime changedAt) engine_schema;
  existing ← attempt_at id as_ambiguous expectedVersion;
  _ ← conflict_unless (String.eqb (in_txid inclusion) (ab_precomputedTxid (ta_binding existing)))
        inclusion_not_bound;
  _ ← update_attempt (attempt_is id as_ambiguous expectedVersion) (attempt_included inclusion changedAt);
  stored_attempt id).

(** ** Evidence *)

Record ObservationInput := {
  oi_observationId : string;
  oi_jobId : string;
  oi_predicate : Json;
  oi_predicateSha256 : string;
  oi_chainAnchor : Anchor.ChainAnchor;
  oi_authoritative : bool;
  oi_canonical : bool;
  oi_finalityDepth : Z;
  oi_outcome : ReconciliationOutcome;
  oi_effectRemaining : bool;
  oi_reason : option string;
  oi_observedAt : string;
}.

Definition new_observation (i : ObservationInput) (anchor : Anchor.ChainAnchor) : ObservationRow :=
  {| or_jobId := oi_jobId i; or_predicateSha256 := oi_predicateSha256 i;
     or_predicate := documentValue (oi_predicate i); or_chainAnchor := anchor;
     or_authoritative := oi_authoritative i; or_canonical := oi_canonical i;
     or_finalityDepth := oi_finalityDepth i; or_outcome := oi_outcome i;
     or_effectRemaining := oi_effectRemaining i; or_reason := oi_reason i; or_observedAt := oi_observedAt i |}.

(** The columns of a repeated observation, the predicate by its text. *)
Definition same_observation (r s : ObservationRow) : bool :=
  String.eqb (or_jobId r) (or_jobId s) && String.eqb (or_predicateSha256 r) (or_predicateSha256 s) &&
  String.eqb (canonicalText (or_predicate r)) (canonicalText (or_predicate s)) &&
  bool_decide (or_chainAnchor r = or_chainAnchor s) &&
  Bool.eqb (or_authoritative r) (or_authoritative s) && Bool.eqb (or_canonical r) (or_canonical s) &&
  (or_finalityDepth r =? or_finalityDepth s) && bool_decide (or_outcome r = or_outcome s) &&
  Bool.eqb (or_effectRemaining r) (or_effectRemaining s) && bool_decide (or_reason r = or_reason s) &&
  String.eqb (or_observedAt r) (or_observedAt s).

Definition mapObservation (id : string) (r : ObservationRow) : engine_tx (string * ObservationRow) :=
  _ ← check_tx (observationRowSchema id r && anchor_ok (or_chainAnchor r)) engine_schema; mret (id, r).

Definition appendReconciliationObservation (i : ObservationInput)
    : engine_op (string * ObservationRow * bool) := transaction (
  let id := oi_observationId i in
  _ ← check_tx (isUuid id && isUuid (oi_jobId i) && hash64 (oi_predicateSha256 i)) engine_schema;
  _ ← conflict_unless (String.eqb (documentSha256 (oi_predicate i)) (oi_predicateSha256 i)) hash_differs;
  anchor ← of_result_tx (match Anchor.parseChainAnchor (oi_chainAnchor i) with
                         | Ok a => Ok a | Err _ => Err engine_schema end);
  _ ← check_tx (Anchor.nonnegativeInt (oi_finalityDepth i) && given_ok (length_between 1 2000) (oi_reason i) &&
                isDatetime (oi_observedAt i)) engine_schema;
  job ← jobRow (oi_jobId i);
  _ ← conflict_unless (negb (is_null job)) observation_job_missing;
  existing ← read_tx (fun d => evidence d !! id);
  match existing with
  | Some r =>
      _ ← check_tx (observationRowSchema id r) engine_schema;
      _ ← conflict_unless (same_observation r (new_observation i anchor)) observation_bound;
      x ← mapObservation id r; mret (x, false)
  | None =>
      _ ← insert_tx evidence with_evidence id (new_observation i anchor);
      o ← read_tx (fun d => evidence d !! id);
      match o with None => throw_tx engine_other | Some r => x ← mapObservation id r; mret (x, true) end
  end).

(** ORDER BY observed_at, observation_id *)
Definition listReconciliationObservations_tx (jobId : string) : engine_tx (list (string * ObservationRow)) :=
  _ ← check_tx (isUuid jobId) engine_schema;
  rows ← read_tx (fun d => select (oldest_first or_observedAt) (fun _ r => String.eqb (or_jobId r) jobId) (evidence d));
  map_tx (fun '(id, r) => mapObservation id r) rows.
Definition listReconciliationObservations (jobId : string) : engine_op (list (string * ObservationRow)) :=
  transaction (listReconciliationObservations_tx jobId).

(** ** Controls *)

Definition parsed_control (o : option Control) : engine_tx (option Control) :=
  match o with
  | None => mret None
  | Some c => _ ← check_tx (controlSchema c) engine_schema; mret (Some c)
  end.

Definition getForceObserveControl_tx : engine_tx (option Control) :=
  o ← read_tx forced; parsed_control o.
Definition getForceObserveControl : engine_op (option Control) := transaction getForceObserveControl_tx.

Record ControlResult := { cr_control : Control; cr_created : bool; cr_invalidatedApprovals : nat }.

Definition stored_control (read : engine_tx (option Control)) (n : nat) : engine_tx ControlResult :=
  o ← read;
  match o with
  | None => throw_tx engine_other
  | Some c => mret {| cr_control := c; cr_created := true; cr_invalidatedApprovals := n |}
  end.

Definition forceObserve (c : Control) : engine_op ControlResult := transaction (
  _ ← check_tx (controlSchema c) engine_schema;
  existing ← getForceObserveControl_tx;
  match existing with
  | Some old => mret {| cr_control := old; cr_created := false; cr_invalidatedApprovals := 0 |}
  | None =>
      _ ← write_tx (with_forced c);
      n ← update_approvals (fun _ r => is_null (pr_invalidated r))
            (invalidated (ct_at c) "emergency-force-observe");
      stored_control getForceObserveControl_tx n
  end).

(** [adapterId] is checked again by the nested read. *)
Definition getDisabledAdapterControl_tx (adapterId : string) : engine_tx (option Control) :=
  _ ← check_tx (identifier adapterId) engine_schema;
  o ← read_tx (fun d => disabled d !! adapterId); parsed_control o.
Definition getDisabledAdapterControl (adapterId : string) : engine_op (option Control) :=
  transaction (getDisabledAdapterControl_tx adapterId).

Definition listDisabledAdapterControls : engine_op (list (string * Control)) := transaction (
  rows ← read_tx (fun d => select (fun l r => code_unit_compare l.1 r.1) (fun _ _ => true) (disabled d));
  map_tx (fun '(id, c) => _ ← check_tx (identifier id && controlSchema c) engine_schema; mret (id, c)) rows).

(** [job_id IN (SELECT job_id FROM transaction_jobs WHERE adapter_id = ?)] *)
Definition approval_of_adapter (adapterId : string) (d : EngineDb) (_ : string) (r : ApprovalRow) : bool :=
  is_null (pr_invalidated r) &&
  match jobs d !! pb_jobId (pr_binding r) with
  | Some j => String.eqb (jb_adapterId (tj_binding j)) adapterId
  | None => false
  end.

Definition disableAdapter (adapterId : string) (c : Control) : engine_op ControlResult := transaction (
  _ ← check_tx (identifier adapterId && controlSchema c) engine_schema;
  existing ← getDisabledAdapterControl_tx adapterId;
  match existing with
  | Some old => mret {| cr_control := old; cr_created := false; cr_invalidatedApprovals := 0 |}
  | None =>
      _ ← write_tx (fun d => with_disabled (<[adapterId := c]> (disabled d)) d);
      n ← (fun d => update_approvals (approval_of_adapter adapterId d) (invalidated (ct_at c) "adapter-disabled") d);
      stored_control (getDisabledAdapterControl_tx adapterId) n
  end).

(** ** What may be called *)

(** The operations that write; the other methods only read. *)
Inductive EngineCall :=
  | call_create (i : CreateLogicalJobInput)
  | call_supersede (i : CreateLogicalJobInput) (changedAt reason : string)
  | call_transition (i : TransitionInput)
  | call_nonce (i : NonceTransitionInput)
  | call_commit (i : CommitInput)
  | call_attempt (i : AttemptTransitionInput)
  | call_inclusion (id : string) (version : Z) (inclusion : Inclusion) (changedAt : string)
  | call_observe (i : ObservationInput)
  | call_force (c : Control)
  | call_disable (adapterId : string) (c : Control).

(** The error of the call, if any, and the database afterwards. *)
Definition outcome {A} (r : result EngineError A * EngineDb) : option EngineError * EngineDb :=
  (match r.1 with Ok _ => None | Err e => Some e end, r.2).

Definition run_call (c : EngineCall) (d : EngineDb) : option EngineError * EngineDb :=
  match c with
  | call_create i => outcome (createLogicalJob i d)
  | call_supersede i at_ reason => outcome (createOrSupersedeLogicalJob i at_ reason d)
  | call_transition i => outcome (transitionLogicalJob i d)
  | call_nonce i => outcome (transitionNonceReservation i d)
  | call_commit i => outcome (commitApprovedSignedAttempt i d)
  | call_attempt i => outcome (transitionAttempt i d)
  | call_inclusion id v n at_ => outcome (updateAmbiguousAttemptInclusion id v n at_ d)
  | call_observe i => outcome (appendReconciliationObservation i d)
  | call_force c => outcome (forceObserve c d)
  | call_disable a c => outcome (disableAdapter a c d)
  end.

(** One call, whatever it is. *)
Definition calls_step (d d' : EngineDb) : Prop := exists c, (run_call c d).2 = d'.

End EngineStore.
