(* ===== verification/EngineProtocol.v ===== *)
(** * What the transaction engine's store may do

    [engine_step] is the abstract specification of the store: what one transaction of it does to
    the tables, and under which conditions.  Every call of [EngineStore] either throws and leaves
    the database as it was, returns without a write, or makes one such step into a database that
    satisfies the constraints of the tables. *)

From S2P Require Import Prelude Text CanonicalJson Principals OperationPlan ChainAnchor TransactionJob WalletRequest EngineTables EngineStore.

Open Scope string_scope.
Open Scope list_scope.
Open Scope Z_scope.

(** ** The protocol *)

(** The approvals after an invalidation. *)
Definition revoked (p : string -> ApprovalRow -> bool) (at_ reason : string) (d : EngineDb)
    : gmap string ApprovalRow :=
  (invalidated at_ reason <$> filter (fun '(id, r) => p id r = true) (approvals d)) ∪ approvals d.

(** The currently accepted attestation of the issuer. *)
Definition accepted (v : JobBinding) (d : EngineDb) : Prop :=
  attestations d !! ai_issuer (jb_attestation v) =
  Some (ai_revision (jb_attestation v), ai_payloadSha256 (jb_attestation v)).

Definition not_older (v : JobBinding) (r : JobRow) : Prop :=
  Anchor.stacksBlockHeight (jb_chainAnchor (tj_binding r)) <= Anchor.stacksBlockHeight (jb_chainAnchor v) /\
  Anchor.burnBlockHeight (jb_chainAnchor (tj_binding r)) <= Anchor.burnBlockHeight (jb_chainAnchor v).

(** The transition of a job: approvals end with it when the next state asks for that. *)
Definition moved (i : TransitionInput) (r : JobRow) (d : EngineDb) : EngineDb :=
  with_approvals
    (if decide (ti_nextState i ∈ revokingStates)
     then revoked (approval_of (ti_jobId i)) (ti_changedAt i)
            ("job-transition:" ++ stateText (ti_nextState i))%string d
     else approvals d)
    (with_jobs (<[ti_jobId i := job_to (ti_nextState i) (next_block i) (next_supersession i) (next_related i)
                                  (ti_changedAt i) r]> (jobs d)) d).

(** An active approval that has not expired and binds exactly this job and this commitment. *)
Definition approved (i : CommitInput) (job : JobRow) (d : EngineDb) : Prop :=
  exists a, approvals d !! co_approvalId i = Some a /\ pr_invalidated a = None /\
    pr_approvalVersion a = co_expectedApprovalVersion i /\
    0 < code_unit_compare (pb_expiresAt (pr_binding a)) (co_committedAt i) /\
    pb_jobId (pr_binding a) = co_jobId i /\
    pb_approvalSha256 (pr_binding a) = co_expectedApprovalSha256 i /\
    pb_intentSha256 (pr_binding a) = jb_intentSha256 (tj_binding job) /\
    pb_policySha256 (pr_binding a) = jb_policySha256 (tj_binding job).

(** The reservation of a commitment: the job's own unresolved one, or a new one of a gas payer
    that has no unresolved one. *)
Definition reserved_for (i : CommitInput) (rid : string) (d : EngineDb) (m : gmap string NonceRow) : Prop :=
  (m = nonces d /\ exists r, nonces d !! rid = Some r /\ nr_resolvedAt r = None /\
     nb_jobId (nr_binding r) = co_jobId i /\ reservation_matches i r = true) \/
  (m = <[rid := new_nonce i]> (nonces d) /\ rid = co_reservationId i /\ nonces d !! rid = None /\
   (forall k r, nonces d !! k = Some r -> nb_gasPayerPrincipal (nr_binding r) = co_gasPayerPrincipal i ->
      is_Some (nr_resolvedAt r))).

Definition committed_job (i : CommitInput) (job : JobRow) : JobRow :=
  if decide (tj_state job = Job.awaiting_approval) then job_reserved (co_committedAt i) job else job.

Inductive engine_step (d : EngineDb) : EngineDb -> Prop :=
  | st_created id v :
      jobs d !! id = None -> accepted v d ->
      engine_step d (with_jobs (<[id := new_job v]> (jobs d)) d)
  | st_superseded id v old r at_ reason :
      jobs d !! id = None -> accepted v d -> jobs d !! old = Some r -> active_job r = true ->
      tj_state r ∈ supersedable ->
      jb_operationScopeKey (tj_binding r) = jb_operationScopeKey v -> not_older v r ->
      engine_step d (with_approvals (revoked (approval_of old) at_ ("job-superseded:" ++ reason)%string d)
        (with_jobs (<[old := job_related id (job_to Job.superseded None (Some reason) None at_ r)]>
                      (<[id := new_job v]> (jobs d))) d))
  | st_moved i r :
      jobs d !! ti_jobId i = Some r -> tj_state r = ti_expectedState i ->
      Job.step (ti_expectedState i) (ti_nextState i) ->
      ~ (ti_expectedState i = Job.awaiting_approval /\ ti_nextState i = Job.nonce_reserved) ->
      (ti_nextState i ∈ authorityStates -> authorityControlReason (jb_adapterId (tj_binding r)) d = None) ->
      engine_step d (moved i r d)
  | st_nonce i r :
      nonces d !! ni_reservationId i = Some r -> nr_state r = ni_expectedState i ->
      ni_expectedState i <> ns_resolved -> nonce_refused i = false ->
      engine_step d (with_nonces (<[ni_reservationId i := nonce_to i r]> (nonces d)) d)
  | st_committed i job rid m :
      jobs d !! co_jobId i = Some job -> tj_state job ∈ [Job.awaiting_approval; Job.nonce_reserved] ->
      authorityControlReason (jb_adapterId (tj_binding job)) d = None -> approved i job d ->
      reserved_for i rid d m -> attempts d !! co_attemptId i = None ->
      (forall k a, attempts d !! k = Some a ->
         ab_jobId (ta_binding a) <> co_jobId i /\ ab_precomputedTxid (ta_binding a) <> co_precomputedTxid i) ->
      engine_step d (with_attempts (<[co_attemptId i := new_attempt i rid]> (attempts d))
        (with_nonces m (with_jobs (<[co_jobId i := committed_job i job]> (jobs d)) d)))
  | st_attempt i r :
      attempts d !! at_attemptId i = Some r -> ta_state r = at_expectedState i ->
      at_nextState i ∈ attemptTransitions (at_expectedState i) ->
      (forall n, at_inclusion i = Some n -> in_txid n = ab_precomputedTxid (ta_binding r)) ->
      (at_nextState i = as_confirmed -> confirming (at_inclusion i) = true) ->
      (at_expectedState i = as_signed -> at_nextState i ∈ [as_submitted; as_ambiguous] ->
       is_Some (at_submissionResult i)) ->
      engine_step d (with_attempts (<[at_attemptId i := attempt_to i r]> (attempts d)) d)
  | st_inclusion id r n at_ :
      attempts d !! id = Some r -> ta_state r = as_ambiguous ->
      in_txid n = ab_precomputedTxid (ta_binding r) ->
      engine_step d (with_attempts (<[id := attempt_included n at_ r]> (attempts d)) d)
  | st_observed id o :
      evidence d !! id = None -> is_Some (jobs d !! or_jobId o) ->
      engine_step d (with_evidence (<[id := o]> (evidence d)) d)
  | st_forced c :
      forced d = None ->
      engine_step d (with_approvals (revoked (fun _ r => is_null (pr_invalidated r)) (ct_at c)
        "emergency-force-observe" d) (with_forced c d))
  | st_disabled a c :
      disabled d !! a = None ->
      engine_step d (with_approvals (revoked (approval_of_adapter a d) (ct_at c) "adapter-disabled" d)
        (with_disabled (<[a := c]> (disabled d)) d)).

(** ** Weakest preconditions of transactions *)

Definition wp {A} (m : engine_tx A) (d : EngineDb) (Q : A -> EngineDb -> Prop) : Prop :=
  match m d with Ok (a, d') => Q a d' | Err _ => True end.

Lemma ewp_bind {A B} (m : engine_tx A) (k : A -> engine_tx B) d Q :
  wp m d (fun a d' => wp (k a) d' Q) -> wp (m ≫= k) d Q.
Proof. unfold wp, mbind, engine_bind. by destruct (m d) as [[a d']|]. Qed.

Lemma ewp_mono {A} (m : engine_tx A) d (P Q : A -> EngineDb -> Prop) :
  wp m d P -> (forall a d', P a d' -> Q a d') -> wp m d Q.
Proof. unfold wp. destruct (m d) as [[a d']|]; auto. Qed.

Lemma ewp_ret {A} (a : A) d (Q : A -> EngineDb -> Prop) : Q a d -> wp (mret a) d Q.
Proof. done. Qed.
Lemma ewp_throw {A} e d (Q : A -> EngineDb -> Prop) : wp (throw_tx e) d Q.
Proof. done. Qed.
Lemma wp_check b e d (Q : unit -> EngineDb -> Prop) : (b = true -> Q tt d) -> wp (check_tx b e) d Q.
Proof. destruct b; unfold wp; cbn; auto. Qed.
Lemma wp_conflict b c d (Q : unit -> EngineDb -> Prop) : (b = true -> Q tt d) -> wp (conflict_unless b c) d Q.
Proof. apply wp_check. Qed.
Lemma wp_read {A} (f : EngineDb -> A) d (Q : A -> EngineDb -> Prop) : Q (f d) d -> wp (read_tx f) d Q.
Proof. done. Qed.
Lemma ewp_result {A} (r : result EngineError A) d (Q : A -> EngineDb -> Prop) :
  (forall a, r = Ok a -> Q a d) -> wp (of_result_tx r) d Q.
Proof. destruct r; unfold wp; cbn; auto. Qed.
Lemma ewp_transition {A} (r : result Job.InvalidTransactionJobTransitionError A) d (Q : A -> EngineDb -> Prop) :
  (forall a, r = Ok a -> Q a d) -> wp (of_transition r) d Q.
Proof. destruct r; unfold wp; cbn; auto. Qed.
Lemma wp_write f d (Q : unit -> EngineDb -> Prop) : (schema_ok (f d) -> Q tt (f d)) -> wp (write_tx f) d Q.
Proof. intros H. unfold wp, write_tx. case_bool_decide; auto. Qed.

(** A transaction either commits what [wp] says or leaves the database alone. *)
Lemma transaction_wp {A} (m : engine_tx A) d (R : EngineDb -> Prop) :
  R d -> wp m d (fun _ d' => R d') -> R (outcome (transaction m d)).2.
Proof. unfold wp, outcome, transaction. by destruct (m d) as [[a d']|]. Qed.

(** What a call that returned has done. *)
Lemma transaction_ok {A} (m : engine_tx A) d x e (Q : A -> EngineDb -> Prop) :
  transaction m d = (Ok x, e) -> wp m d Q -> Q x e.
Proof. unfold wp, transaction. destruct (m d) as [[a d']|]; [|done]. by intros [= -> ->]. Qed.

(** A method: what it returns and leaves behind, unless it throws. *)
Definition op_spec {A} (op : engine_op A) (d : EngineDb) (Q : A -> EngineDb -> Prop) : Prop :=
  match op d with (Ok a, d') => Q a d' | (Err _, d') => d' = d end.

Lemma op_spec_wp {A} (m : engine_tx A) d Q : wp m d Q -> op_spec (transaction m) d Q.
Proof. unfold wp, op_spec, transaction. by destruct (m d) as [[a d']|]. Qed.

Lemma op_spec_outcome {A} (op : engine_op A) d (Q : A -> EngineDb -> Prop) (R : EngineDb -> Prop) :
  op_spec op d Q -> R d -> (forall a d', Q a d' -> R d') -> R (outcome (op d)).2.
Proof. unfold op_spec, outcome. destruct (op d) as [[a|e] d']; cbn; [eauto|by intros ->]. Qed.

Ltac wp_step :=
  lazymatch goal with
  | |- wp (mbind _ _) _ _ => apply ewp_bind
  | |- wp (mret _) _ _ => apply ewp_ret
  | |- wp (throw_tx _) _ _ => apply ewp_throw
  | |- wp (check_tx _ _) _ _ => apply wp_check; intros ?
  | |- wp (conflict_unless _ _) _ _ => apply wp_conflict; intros ?
  | |- wp (read_tx _) _ _ => apply wp_read
  | |- wp (of_result_tx _) _ _ => apply ewp_result; intros ? ?
  | |- wp (of_transition _) _ _ => apply ewp_transition; intros ? ?
  end.

(** ** Statements *)

Section Statements.
  Context {R B : Type} `{EqDecision B} (binding : R -> B) (table : EngineDb -> gmap string R)
    (put : gmap string R -> EngineDb -> EngineDb).

Lemma wp_update p f d (Q : nat -> EngineDb -> Prop) :
    (let m := filter (fun '(id, r) => p id r = true) (table d) in
     schema_ok (put ((f <$> m) ∪ table d) d) -> Q (size m) (put ((f <$> m) ∪ table d) d)) ->
    wp (update_tx binding table put p f) d Q.
  Proof.
    intros H. unfold wp, update_tx. case_bool_decide as Hb; [|done].
    unfold mbind, engine_bind, write_tx. case_bool_decide as Hs; [|done]. by apply H.
  Qed.

  (** Rows picked by their key: at most one. *)
Lemma filter_key p id (m : gmap string R) :
    (forall k r, p k r = true -> k = id) ->
    filter (fun '(k, r) => p k r = true) m =
    match m !! id with Some r => if p id r then {[id := r]} else ∅ | None => ∅ end.
  Proof.
    intros Hp. apply map_eq. intros k. rewrite map_lookup_filter.
    destruct (decide (k = id)) as [->|Hk].
    - destruct (m !! id) as [r|] eqn:Hr; cbn; [|by rewrite lookup_empty].
      destruct (p id r) eqn:E; cbn.
      + by rewrite option_guard_True, lookup_singleton_eq.
      + by rewrite option_guard_False, lookup_empty.
    - transitivity (None : option R).
      + destruct (m !! k) as [r|]; cbn; [|done]. rewrite option_guard_False; [done|].
        intros E. by apply Hp in E.
      + symmetry. destruct (m !! id) as [r|]; [|apply lookup_empty].
        destruct (p id r); [by rewrite lookup_singleton_ne | apply lookup_empty].
  Qed.

Lemma wp_update_one p f id d (Q : unit -> EngineDb -> Prop) :
    (forall k r, p k r = true -> k = id) ->
    (forall r, table d !! id = Some r -> p id r = true ->
       schema_ok (put (<[id := f r]> (table d)) d) -> Q tt (put (<[id := f r]> (table d)) d)) ->
    wp (update_one binding table put p f) d Q.
  Proof.
    intros Hp H. unfold update_one. apply ewp_bind, wp_update. cbn zeta.
    rewrite (filter_key p id) by done. destruct (table d !! id) as [r|] eqn:Hr.
    - destruct (p id r) eqn:E.
      + intros Hs. apply wp_check. intros _. rewrite map_fmap_singleton in *.
        rewrite <- insert_union_singleton_l in *. by apply H.
      + intros _. apply wp_check. rewrite map_size_empty. done.
    - intros _. apply wp_check. rewrite map_size_empty. done.
  Qed.

Lemma wp_insert id r d (Q : unit -> EngineDb -> Prop) :
    (table d !! id = None -> schema_ok (put (<[id := r]> (table d)) d) -> Q tt (put (<[id := r]> (table d)) d)) ->
    wp (insert_tx table put id r) d Q.
  Proof. intros H. unfold insert_tx, wp. case_bool_decide; [|done]. apply wp_write. auto. Qed.

End Statements.

Lemma wp_revoke p at_ reason d (Q : nat -> EngineDb -> Prop) :
  (forall n, schema_ok (with_approvals (revoked p at_ reason d) d) ->
     Q n (with_approvals (revoked p at_ reason d) d)) ->
  wp (update_approvals p (invalidated at_ reason)) d Q.
Proof. intros H. apply wp_update. intros m. apply H. Qed.

Lemma revoked_lookup p at_ reason d id :
  revoked p at_ reason d !! id = (fun r => if p id r then invalidated at_ reason r else r) <$> approvals d !! id.
Proof.
  unfold revoked. rewrite lookup_union, lookup_fmap, map_lookup_filter.
  destruct (approvals d !! id) as [r|]; [|done]. cbn.
  destruct (p id r) eqn:Hp; cbn; [by rewrite option_guard_True | by rewrite option_guard_False].
Qed.

Lemma job_at_key jobId s v k r : job_at jobId s v k r = true -> k = jobId.
Proof. unfold job_at. intros H. by breflect. Qed.
Lemma attempt_is_key id s v k r : attempt_is id s v k r = true -> k = id.
Proof. unfold attempt_is. intros H. by breflect. Qed.

(** A row found by a query is a row of the table that satisfies its condition. *)
Lemma find_spec {R} p (m : gmap string R) id r :
  find p m = Some (id, r) -> m !! id = Some r /\ p id r = true.
Proof.
  unfold find. intros H. assert (Hin : (id, r) ∈ List.filter (fun '(id, r) => p id r) (map_to_list m)).
  { destruct (List.filter _ _); [done|]. injection H as ->. constructor. }
  apply list_elem_of_In, filter_In in Hin as [Hin Hp]. split; [|done].
  by apply elem_of_map_to_list, list_elem_of_In.
Qed.

Lemma find_none {R} p (m : gmap string R) id r :
  find p m = None -> m !! id = Some r -> p id r = false.
Proof.
  unfold find. intros H Hr%elem_of_map_to_list%list_elem_of_In.
  destruct (p id r) eqn:Hp; [|done].
  assert (Hin : In (id, r) (List.filter (fun '(id, r) => p id r) (map_to_list m))) by by apply filter_In.
  by destruct (List.filter _ _).
Qed.

Lemma select_spec {R} order p (m : gmap string R) id r :
  (id, r) ∈ select order p m <-> m !! id = Some r /\ p id r = true.
Proof.
  unfold select. rewrite elem_of_js_sort, list_elem_of_In, filter_In, <- list_elem_of_In, elem_of_map_to_list.
  done.
Qed.

Lemma head_elem {A} (l : list A) x : head l = Some x -> x ∈ l.
Proof. destruct l; [done|]. intros [= ->]. constructor. Qed.

Lemma parse_heights a b : Anchor.parseChainAnchor a = Ok b ->
  Anchor.stacksBlockHeight b = Anchor.stacksBlockHeight a /\ Anchor.burnBlockHeight b = Anchor.burnBlockHeight a.
Proof.
  unfold Anchor.parseChainAnchor. destruct (negb _); [done|]. cbn zeta.
  destruct (Anchor.anchorIssues _); [|done]. by intros [= <-].
Qed.

(** ** Calls make steps *)

Section Refinement.

Context (isUuid isDatetime validateStacksAddress : string -> bool) (sha256 : list Z -> string).

(** Nothing was written, or one step was made and the tables' constraints hold. *)
Definition steps_or_stays (d d' : EngineDb) : Prop := d' = d \/ (engine_step d d' /\ schema_ok d').

Lemma wp_stay {A} (m : engine_tx A) d : wp m d (fun _ d' => d' = d) -> wp m d (fun _ d' => steps_or_stays d d').
Proof. intros H. eapply ewp_mono; [apply H|]. by left. Qed.

Lemma wp_jobRow id d (Q : option JobRow -> EngineDb -> Prop) :
  (jobs d !! id = None \/ isUuid id = true -> Q (jobs d !! id) d) ->
  wp (jobRow isUuid isDatetime validateStacksAddress id) d Q.
Proof.
  intros H. unfold jobRow. repeat wp_step. destruct (jobs d !! id) as [r|] eqn:E; repeat wp_step; apply H; auto.
Qed.

Lemma wp_mapJob id r d (Q : string * JobRow -> EngineDb -> Prop) : Q (id, r) d -> wp (mapJob id r) d Q.
Proof. intros H. unfold mapJob. by repeat wp_step. Qed.

Lemma wp_parsed {R} schema (o : option (string * R)) d (Q : option (string * R) -> EngineDb -> Prop) :
  Q o d -> wp (parsed schema o) d Q.
Proof. intros H. destruct o as [[id r]|]; cbn; by repeat wp_step. Qed.

Lemma wp_map {A C} (f : A -> engine_tx C) l d :
  (forall x, wp (f x) d (fun _ d' => d' = d)) -> wp (map_tx f l) d (fun _ d' => d' = d).
Proof.
  intros H. induction l as [|x l IH]; cbn; [done|]. wp_step. eapply ewp_mono; [apply H|].
  intros y d' ->. wp_step. eapply ewp_mono; [apply IH|]. by intros ys d' ->.
Qed.

Lemma wp_assertAccepted v d (Q : unit -> EngineDb -> Prop) :
  (accepted v d -> Q tt d) -> wp (assertAcceptedJobAttestation v) d Q.
Proof. intros H. unfold assertAcceptedJobAttestation. repeat wp_step. breflect. by apply H. Qed.

Lemma wp_insertJob id v d (Q : JobRow -> EngineDb -> Prop) :
  (jobs d !! id = None -> schema_ok (with_jobs (<[id := new_job v]> (jobs d)) d) ->
   Q (new_job v) (with_jobs (<[id := new_job v]> (jobs d)) d)) ->
  wp (insertPreparedJob isUuid isDatetime validateStacksAddress id v) d Q.
Proof.
  intros H. unfold insertPreparedJob. apply ewp_bind, wp_insert. intros Hn Hs. repeat wp_step. cbn.
  rewrite lookup_insert_eq. repeat wp_step. by apply H.
Qed.

Lemma create_steps i d :
  steps_or_stays d (outcome (createLogicalJob isUuid isDatetime validateStacksAddress sha256 i d)).2.
Proof.
  apply (transaction_wp _ _ (steps_or_stays d)); [by left|]. wp_step. wp_step. wp_step. apply wp_assertAccepted. intros Ha.
  do 2 wp_step. wp_step. apply wp_parsed.
  destruct (sameIdempotency _ _) as [[id r]|].
  - destruct (jobMatchesInput _ _); [|done]. wp_step. apply wp_mapJob. wp_step. by left.
  - wp_step. apply wp_insertJob. intros Hn Hs. wp_step. apply wp_mapJob. wp_step. right.
    split; [by apply st_created|done].
Qed.

Lemma wp_supersede v at_ reason id r d (Q : unit -> EngineDb -> Prop) :
  jobs d !! id = Some r ->
  (tj_state r ∈ supersedable -> not_older v r ->
   Q tt (with_approvals (revoked (approval_of id) at_ ("job-superseded:" ++ reason)%string d)
          (with_jobs (<[id := job_to Job.superseded None (Some reason) None at_ r]> (jobs d)) d))) ->
  wp (supersede v at_ reason id r) d Q.
Proof.
  intros Hr H. unfold supersede. do 2 wp_step.
  destruct (Anchor.parseChainAnchor _) as [b|] eqn:Hb; [|done].
  injection H0 as ->. apply parse_heights in Hb as [Hs Hburn]. repeat wp_step. breflect.
  eapply wp_update_one; [intros k s; apply job_at_key|]. intros s Hs' _ _. assert (s = r) as -> by congruence.
  wp_step. apply wp_revoke. intros n _. wp_step. apply H; [done|]. split; lia.
Qed.

Lemma supersede_steps i at_ reason d :
  steps_or_stays d (outcome (createOrSupersedeLogicalJob isUuid isDatetime validateStacksAddress sha256 i at_ reason d)).2.
Proof.
  apply (transaction_wp _ _ (steps_or_stays d)); [by left|]. do 4 wp_step. wp_step. apply wp_assertAccepted.
  intros Ha. do 3 wp_step. apply wp_parsed. destruct (sameIdempotency _ _) as [[id r]|].
  { destruct (jobMatchesInput _ _); [|done]. wp_step. apply wp_mapJob. wp_step. by left. }
  do 3 wp_step. apply wp_parsed.
  destruct (find _ (jobs d)) as [[old r]|] eqn:Hf.
  - apply find_spec in Hf as [Hr [Hscope Hact]%andb_true_iff]. unfold of_scope in Hscope. breflect.
    wp_step. apply wp_supersede; [done|]. intros Hsup Hold. wp_step. apply wp_insertJob. cbn. intros Hn _.
    assert (Hne : old <> cj_jobId i) by (intros ->; by rewrite lookup_insert_eq in Hn).
    wp_step. apply (wp_update_one _ _ _ _ _ old).
    { intros k s E. by breflect. }
    cbn. intros s. rewrite lookup_insert_ne, lookup_insert_eq by done. intros [= <-] _ Hs. wp_step.
    apply wp_mapJob. wp_step. right. rewrite lookup_insert_ne in Hn by done.
    rewrite (insert_insert_ne _ (cj_jobId i) old) in * by done. rewrite insert_insert_eq in *.
    split; [|done]. by apply (st_superseded d (cj_jobId i) a old r at_ reason).
  - wp_step. wp_step. wp_step. apply wp_insertJob. intros Hn Hs. do 2 wp_step. wp_step. apply wp_mapJob. wp_step.
    right. split; [by apply st_created|done].
Qed.

Lemma wp_refuse a d (Q : unit -> EngineDb -> Prop) :
  (authorityControlReason a d = None -> Q tt d) -> wp (refuse_controlled a) d Q.
Proof. intros H. unfold refuse_controlled. do 2 wp_step. destruct (authorityControlReason a d); wp_step. by apply H. Qed.

(** A guarded part of a transaction. *)
Lemma wp_when {Q : unit -> EngineDb -> Prop} (b : bool) (m : engine_tx unit) d :
  (b = true -> wp m d Q) -> (b = false -> Q tt d) -> wp (if b then m else mret tt) d Q.
Proof. destruct b; intros H1 H2; [by apply H1 | by apply ewp_ret, H2]. Qed.

(** The superseding job is looked up. *)
Lemma wp_related o d (Q : unit -> EngineDb -> Prop) :
  Q tt d ->
  wp (match o with
      | None => mret tt
      | Some by_ => o ← jobRow isUuid isDatetime validateStacksAddress by_;
                    conflict_unless (negb (is_null o)) superseding_job_missing
      end) d Q.
Proof. intros H. destruct o; repeat wp_step; [|done]. apply wp_jobRow. intros _. by repeat wp_step. Qed.

Lemma wp_reread id (Q : string * JobRow -> EngineDb -> Prop) d :
  (forall r, jobs d !! id = Some r -> Q (id, r) d) ->
  wp (o ← jobRow isUuid isDatetime validateStacksAddress id;
      match o with None => throw_tx engine_other | Some r => mapJob id r end) d Q.
Proof.
  intros H. wp_step. apply wp_jobRow. intros _. destruct (jobs d !! id) as [r|] eqn:E; [|done].
  apply wp_mapJob. by apply H.
Qed.

(** What a transition has checked and done. *)
Record transitioned (i : TransitionInput) (d : EngineDb) (x : string * JobRow) (d' : EngineDb) : Prop := {
  tr_row : exists r, jobs d !! ti_jobId i = Some r /\ tj_state r = ti_expectedState i /\ d' = moved i r d /\
    (ti_nextState i ∈ authorityStates -> authorityControlReason (jb_adapterId (tj_binding r)) d = None);
  tr_step : Job.step (ti_expectedState i) (ti_nextState i);
  tr_signed : ~ (ti_expectedState i = Job.awaiting_approval /\ ti_nextState i = Job.nonce_reserved);
  tr_schema : schema_ok d';
  tr_result : x.1 = ti_jobId i /\ jobs d' !! ti_jobId i = Some x.2;
}.

Lemma transition_op_spec i d :
  op_spec (transitionLogicalJob isUuid isDatetime validateStacksAddress i) d (transitioned i d).
Proof.
  apply op_spec_wp. cbn zeta. repeat wp_step. apply wp_jobRow. intros _.
  destruct (jobs d !! ti_jobId i) as [r|] eqn:Hr; [|done]. repeat wp_step. breflect.
  set (P := ti_nextState i ∈ authorityStates -> authorityControlReason (jb_adapterId (tj_binding r)) d = None).
  apply (ewp_mono _ _ (fun _ d' => d' = d /\ P)).
  { apply wp_when; [|intros Hn%bool_decide_eq_false; split; [done|]; intros Hin; contradiction].
    intros _. apply wp_refuse. intros Hc. split; [done|]. by intros _. }
  intros _ d' [-> HP]. repeat wp_step. apply wp_related. repeat wp_step.
  eapply wp_update_one; [intros k s; apply job_at_key|]. intros s Hs _ Hok.
  assert (s = r) as -> by congruence. clear Hs.
  wp_step. apply (ewp_mono _ _ (fun _ d' => d' = moved i r d /\ schema_ok d')).
  - apply wp_when; unfold moved.
    + intros Hb. breflect. rewrite decide_True by done. wp_step. apply wp_revoke. intros n Hs. by wp_step.
    + intros Hb. breflect. rewrite decide_False by done. done.
  - intros _ d' [-> Hs]. apply wp_reread. intros s Hs'. split; [by exists r|by destruct a| |done|done].
    intros [He Hn]. by rewrite He, Hn in *.
Qed.

Lemma transition_steps i d :
  steps_or_stays d (outcome (transitionLogicalJob isUuid isDatetime validateStacksAddress i d)).2.
Proof.
  eapply op_spec_outcome; [apply transition_op_spec|by left|].
  intros x d' [(r & Hr & Hs & -> & Hc) Hstep Hn Hok _]. right. split; [by apply st_moved|done].
Qed.

Lemma nonce_steps i d :
  steps_or_stays d (outcome (transitionNonceReservation isUuid isDatetime validateStacksAddress i d)).2.
Proof.
  apply (transaction_wp _ _ (steps_or_stays d)); [by left|]. cbn zeta. repeat wp_step. breflect.
  apply (wp_update_one _ _ _ _ _ (ni_reservationId i)); [intros k s E; by breflect|]. intros r Hr Hp Hs.
  repeat wp_step. apply wp_parsed. unfold keyed. cbn [nonces with_nonces].
  rewrite lookup_insert_eq. cbn [fmap option_fmap option_map]. wp_step. right.
  split; [|done]. breflect. by apply st_nonce.
Qed.

Lemma wp_attempt_row id d (Q : option AttemptRow -> EngineDb -> Prop) :
  Q (attempts d !! id) d -> wp (attempt_row isUuid isDatetime id) d Q.
Proof. intros H. unfold attempt_row. repeat wp_step. destruct (attempts d !! id); by repeat wp_step. Qed.

Lemma wp_mapAttempt id r d (Q : string * AttemptRow -> EngineDb -> Prop) :
  Q (id, r) d -> wp (mapAttemptRow isDatetime id r) d Q.
Proof. intros H. unfold mapAttemptRow. by repeat wp_step. Qed.

Lemma wp_attempt_at id s v d (Q : AttemptRow -> EngineDb -> Prop) :
  (forall r, attempts d !! id = Some r -> ta_state r = s -> Q r d) ->
  wp (attempt_at isUuid isDatetime id s v) d Q.
Proof.
  intros H. unfold attempt_at. wp_step. apply wp_attempt_row. destruct (attempts d !! id) as [r|]; [|done].
  repeat wp_step. breflect. by apply H.
Qed.

Lemma wp_stored_attempt id d (Q : string * AttemptRow -> EngineDb -> Prop) :
  (forall x, Q x d) -> wp (stored_attempt isUuid isDatetime id) d Q.
Proof.
  intros H. unfold stored_attempt. wp_step. apply wp_attempt_row. destruct (attempts d !! id); [|done].
  by apply wp_mapAttempt.
Qed.

Lemma attempt_steps i d : steps_or_stays d (outcome (transitionAttempt isUuid isDatetime i d)).2.
Proof.
  apply (transaction_wp _ _ (steps_or_stays d)); [by left|]. cbn zeta. repeat wp_step.
  apply wp_attempt_at. intros r Hr Hst. repeat wp_step. breflect.
  eapply wp_update_one; [intros k s; apply attempt_is_key|]. intros s Hs _ Hok.
  assert (s = r) as -> by congruence. apply wp_stored_attempt. intros _. right. split; [|done].
  apply st_attempt; try done.
  - intros n Hn. rewrite Hn in *. by breflect.
  - intros Hc. rewrite Hc, bool_decide_true in * by done. done.
  - intros He Hin. destruct (at_submissionResult i); [done|]. rewrite He, !bool_decide_true in * by done. done.
Qed.

Lemma inclusion_steps id v n at_ d :
  steps_or_stays d (outcome (updateAmbiguousAttemptInclusion isUuid isDatetime id v n at_ d)).2.
Proof.
  apply (transaction_wp _ _ (steps_or_stays d)); [by left|]. repeat wp_step.
  apply wp_attempt_at. intros r Hr Hst. repeat wp_step. breflect.
  eapply wp_update_one; [intros k s; apply attempt_is_key|]. intros s Hs _ Hok.
  assert (s = r) as -> by congruence. apply wp_stored_attempt. intros _. right. split; [|done].
  by apply st_inclusion.
Qed.

(** An observation is there already, or is new evidence of a stored job. *)
Definition observed (i : ObservationInput) (d d' : EngineDb) : Prop :=
  d' = d \/ exists o, evidence d !! oi_observationId i = None /\ or_jobId o = oi_jobId i /\
    is_Some (jobs d !! or_jobId o) /\
    d' = with_evidence (<[oi_observationId i := o]> (evidence d)) d /\ schema_ok d'.

Lemma observe_spec i d :
  op_spec (appendReconciliationObservation isUuid isDatetime validateStacksAddress sha256 i) d
    (fun _ d' => observed i d d').
Proof.
  apply op_spec_wp. cbn zeta. repeat wp_step. apply wp_jobRow. intros _.
  repeat wp_step. breflect. destruct (evidence d !! oi_observationId i) as [r|] eqn:He.
  - repeat wp_step. unfold mapObservation. repeat wp_step. by left.
  - wp_step. apply wp_insert. intros Hn Hs. repeat wp_step. cbn. rewrite lookup_insert_eq. unfold mapObservation.
    repeat wp_step. right. exists (new_observation i a). split_and!; [done|done| |done|done]. cbn.
    destruct (jobs d !! oi_jobId i); [eauto|done].
Qed.

Lemma observe_steps i d :
  steps_or_stays d
    (outcome (appendReconciliationObservation isUuid isDatetime validateStacksAddress sha256 i d)).2.
Proof.
  eapply op_spec_outcome; [apply observe_spec|by left|].
  intros _ d' [->|(o & Hn & _ & Hj & -> & Hs)]; [by left|]. right. split; [by apply st_observed|done].
Qed.

Lemma wp_parsed_control o d (Q : option Control -> EngineDb -> Prop) : Q o d -> wp (parsed_control isDatetime o) d Q.
Proof. intros H. destruct o; cbn; by repeat wp_step. Qed.

Lemma force_steps c d : steps_or_stays d (outcome (forceObserve isDatetime c d)).2.
Proof.
  apply (transaction_wp _ _ (steps_or_stays d)); [by left|]. unfold getForceObserveControl_tx, stored_control.
  repeat wp_step. apply wp_parsed_control. destruct (forced d) eqn:Hf; [by left|].
  wp_step. apply wp_write. intros _. wp_step. apply wp_revoke. intros n Hs. repeat wp_step.
  apply wp_parsed_control. right. split; [exact (st_forced d c Hf)|done].
Qed.

Lemma disable_steps a c d : steps_or_stays d (outcome (disableAdapter isDatetime a c d)).2.
Proof.
  apply (transaction_wp _ _ (steps_or_stays d)); [by left|]. unfold getDisabledAdapterControl_tx, stored_control.
  repeat wp_step. apply wp_parsed_control. destruct (disabled d !! a) eqn:Hd; [by left|].
  wp_step. apply wp_write. intros _.
  wp_step. refine (wp_revoke (approval_of_adapter a _) (ct_at c) "adapter-disabled" _ _ _). intros n Hs.
  repeat wp_step. apply wp_parsed_control. cbn. rewrite lookup_insert_eq. right.
  split; [exact (st_disabled d a c Hd)|done].
Qed.

(** The unresolved reservation of a commitment. *)
Lemma wp_reserve_nonce i d (Q : string * NonceRow -> EngineDb -> Prop) :
  (forall rid res m, reserved_for i rid d m -> Q (rid, res) (with_nonces m d)) ->
  wp (reserve_nonce isUuid isDatetime validateStacksAddress i) d Q.
Proof.
  intros H. unfold reserve_nonce. repeat wp_step.
  destruct (nonce_of_job _ (co_jobId i) d) as [[rid r]|] eqn:Hf.
  - repeat wp_step. replace d with (with_nonces (nonces d) d) by by destruct d.
    apply H. left. split; [done|]. exists r.
    apply head_elem, select_spec in Hf as [Hr [Hj Hn]%andb_true_iff]. breflect.
    split_and!; try done. by destruct (nr_resolvedAt r).
  - repeat wp_step. apply wp_insert. intros Hn Hs. repeat wp_step. apply wp_parsed. unfold keyed.
    cbn [nonces with_nonces]. rewrite lookup_insert_eq. cbn [fmap option_fmap option_map]. wp_step. apply H.
    right. split_and!; try done. intros k r Hk Hp.
    destruct (find _ (nonces d)) eqn:Hb; [done|]. pose proof (find_none _ _ _ _ Hb Hk) as Hnone. cbn in Hnone.
    rewrite Hp, String.eqb_refl in Hnone. destruct (nr_resolvedAt r); [eauto|done].
Qed.

Lemma wp_checked_approval i job d (Q : unit -> EngineDb -> Prop) :
  (approved i job d -> Q tt d) -> wp (checked_approval isUuid isDatetime i job) d Q.
Proof.
  intros H. unfold checked_approval. repeat wp_step. destruct (approvals d !! co_approvalId i) as [a|] eqn:Ha; [|done].
  cbn zeta. repeat wp_step. breflect. apply H. exists a. split_and!; try done.
  by destruct (pr_invalidated a).
Qed.

(** The job becomes the owner of a nonce. *)
Lemma wp_reserve_job i job d (Q : JobRow -> EngineDb -> Prop) :
  jobs d !! co_jobId i = Some job ->
  (forall j, Q j (with_jobs (<[co_jobId i := committed_job i job]> (jobs d)) d)) ->
  wp (reserve_job isUuid isDatetime validateStacksAddress i job) d Q.
Proof.
  intros Hj H. unfold reserve_job, committed_job in *. case_bool_decide as Hs.
  - wp_step. eapply wp_update_one; [intros k s; apply job_at_key|]. intros s Hs' _ _.
    assert (s = job) as -> by congruence. wp_step. apply wp_jobRow. intros _. cbn.
    rewrite lookup_insert_eq. wp_step. specialize (H (job_reserved (co_committedAt i) job)).
    by rewrite decide_True in H by done.
  - wp_step. specialize (H job). rewrite decide_False, insert_id in H by done. by destruct d.
Qed.

Lemma commit_steps i d :
  steps_or_stays d (outcome (commitApprovedSignedAttempt isUuid isDatetime validateStacksAddress i d)).2.
Proof.
  apply (transaction_wp _ _ (steps_or_stays d)); [by left|]. repeat wp_step.
  destruct (find _ (attempts d)) as [[id existing]|] eqn:Htx.
  - wp_step. wp_step. apply wp_stay. unfold committed_before. repeat wp_step. apply wp_jobRow. intros _.
    destruct (keyed _ (nonces d)) as [[rid res]|]; [|done].
    destruct (jobs d !! ab_jobId (ta_binding existing)) as [j|]; [|done].
    repeat wp_step. apply wp_mapJob. wp_step. apply wp_mapAttempt. by wp_step.
  - unfold commit_new. wp_step. apply wp_jobRow. intros _.
    destruct (jobs d !! co_jobId i) as [job|] eqn:Hj; [|done]. repeat wp_step. breflect.
    apply wp_refuse. intros Hc. wp_step. apply wp_checked_approval. intros Ha. wp_step.
    apply wp_reserve_job; [done|]. intros j. wp_step. apply wp_reserve_nonce. intros rid res m Hm.
    repeat wp_step. apply wp_insert. cbn. intros Hn Hs. wp_step. apply wp_attempt_row. cbn.
    rewrite lookup_insert_eq. wp_step. apply wp_mapJob. wp_step. apply wp_mapAttempt. wp_step. right.
    split; [|done]. apply (st_committed d i job rid m); try done.
    intros k a Hk.
    match goal with Hx : is_null (find ?p _) = true |- _ =>
      change (is_null (find p (attempts d)) = true) in Hx; destruct (find p (attempts d)) eqn:Hb; [done|] end.
    split.
    + pose proof (find_none _ _ _ _ Hb Hk) as Hno. cbn in Hno. by breflect.
    + pose proof (find_none _ _ _ _ Htx Hk) as Hno. cbn in Hno. by breflect.
Qed.

(** C24. Each call of the store throws and leaves the database as it was, or returns without a write,
    or makes one step of the protocol into a database that satisfies the tables' constraints. *)
Theorem calls_refine_protocol c d :
  steps_or_stays d (run_call isUuid isDatetime validateStacksAddress sha256 c d).2.
Proof.
  destruct c; [apply create_steps | apply supersede_steps | apply transition_steps | apply nonce_steps
    | apply commit_steps | apply attempt_steps | apply inclusion_steps | apply observe_steps
    | apply force_steps | apply disable_steps].
Qed.

End Refinement.
