(* ===== verification/EngineCorrect.v ===== *)
(** * What the store of the transaction engine guarantees

    Invariants of the steps of [EngineProtocol], hence of every history of calls: records are only
    extended along their state machines, what is signed was approved, and a control that was set
    ends all authority it covers, for ever. *)

From S2P Require Import Prelude Text CanonicalJson Principals OperationPlan ChainAnchor TransactionJob WalletRequest EngineTables EngineStore EngineProtocol.

Open Scope string_scope.
Open Scope list_scope.
Open Scope Z_scope.

(** ** Records are only extended *)

Definition attempt_edge (s t : TransactionAttemptState) : Prop := t ∈ attemptTransitions s.

(** A row and what became of it. *)
Record job_grows (r r' : JobRow) : Prop := {
  jg_binding : tj_binding r' = tj_binding r;
  jg_path : rtc Job.step (tj_state r) (tj_state r');
  jg_version : tj_stateVersion r <= tj_stateVersion r';
  jg_same : tj_stateVersion r' = tj_stateVersion r -> tj_state r' = tj_state r;
}.

Record nonce_grows (r r' : NonceRow) : Prop := {
  ng_binding : nr_binding r' = nr_binding r;
  ng_resolved : nr_state r = ns_resolved -> r' = r;
}.

Record attempt_grows (r r' : AttemptRow) : Prop := {
  ag_binding : ta_binding r' = ta_binding r;
  ag_path : rtc attempt_edge (ta_state r) (ta_state r');
  ag_included : is_Some (ta_inclusion r) -> is_Some (ta_inclusion r');
}.

Record approval_grows (r r' : ApprovalRow) : Prop := {
  pg_binding : pr_binding r' = pr_binding r;
  pg_invalidated : is_Some (pr_invalidated r) -> r' = r;
}.

(** Every row of [m] is in [m'], and became what [R] says. *)
Definition grows {A} (R : A -> A -> Prop) (m m' : gmap string A) : Prop :=
  forall id r, m !! id = Some r -> exists r', m' !! id = Some r' /\ R r r'.

Record engine_extends (d d' : EngineDb) : Prop := {
  ee_jobs : grows job_grows (jobs d) (jobs d');
  ee_nonces : grows nonce_grows (nonces d) (nonces d');
  ee_attempts : grows attempt_grows (attempts d) (attempts d');
  ee_approvals : grows approval_grows (approvals d) (approvals d');
  ee_evidence : grows eq (evidence d) (evidence d');
  ee_forced : forall c, forced d = Some c -> forced d' = Some c;
  ee_disabled : grows eq (disabled d) (disabled d');
  ee_attestations : attestations d' = attestations d;
  ee_no_approval : forall id, approvals d !! id = None -> approvals d' !! id = None;
}.

#[global] Instance job_grows_preorder : PreOrder job_grows.
Proof.
  split; [split; (done || lia)|]. intros r s t [H1 H2 H3 H4] [K1 K2 K3 K4]. split; [congruence|by etrans|lia|].
  intros Hv. rewrite K4, H4; [done|lia..].
Qed.
#[global] Instance nonce_grows_preorder : PreOrder nonce_grows.
Proof.
  split; [by split|]. intros r s t [H1 H2] [K1 K2]. split; [congruence|].
  intros Hr. pose proof (H2 Hr) as ->. auto.
Qed.
#[global] Instance attempt_grows_preorder : PreOrder attempt_grows.
Proof. split; [by split|]. intros r s t [H1 H2 H3] [K1 K2 K3]. split; [congruence|by etrans|auto]. Qed.
#[global] Instance approval_grows_preorder : PreOrder approval_grows.
Proof.
  split; [by split|]. intros r s t [H1 H2] [K1 K2]. split; [congruence|].
  intros Hr. pose proof (H2 Hr) as ->. auto.
Qed.

#[global] Instance grows_preorder {A} (R : A -> A -> Prop) `{!PreOrder R} : PreOrder (grows R).
Proof.
  split.
  - intros m id r H. exists r. split; [done|reflexivity].
  - intros a b c Hab Hbc id r (s & Hs & Hr)%Hab. apply Hbc in Hs as (t & Ht & Hs). exists t. split; [done|by etrans].
Qed.

#[global] Instance engine_extends_preorder : PreOrder engine_extends.
Proof.
  split.
  - intros d. split; try reflexivity; auto.
  - intros a b c [] []. split; try (by etrans); auto.
Qed.

(** A row is written, or is new. *)
Lemma grows_insert {A} (R : A -> A -> Prop) `{!PreOrder R} m id x :
  (forall r, m !! id = Some r -> R r x) -> grows R m (<[id := x]> m).
Proof.
  intros H k r Hk. destruct (decide (k = id)) as [->|Hn].
  - exists x. rewrite lookup_insert_eq. auto.
  - exists r. rewrite lookup_insert_ne by done. split; [done|reflexivity].
Qed.

Lemma grows_new {A} (R : A -> A -> Prop) `{!PreOrder R} m id x : m !! id = None -> grows R m (<[id := x]> m).
Proof. intros H. apply grows_insert; [done|]. congruence. Qed.

Lemma grows_update {A} (R : A -> A -> Prop) `{!PreOrder R} m id r x :
  m !! id = Some r -> R r x -> grows R m (<[id := x]> m).
Proof. intros H Hr. apply grows_insert; [done|]. intros s Hs. by assert (s = r) as -> by congruence. Qed.

(** Only active approvals are invalidated. *)
Lemma revoked_grows p at_ reason d :
  (forall id r, p id r = true -> pr_invalidated r = None) ->
  grows approval_grows (approvals d) (revoked p at_ reason d).
Proof.
  intros Hp id r Hr. rewrite revoked_lookup, Hr. cbn. destruct (p id r) eqn:E; eexists; (split; [done|]).
  - split; [done|]. intros [? Hi]. rewrite (Hp _ _ E) in Hi. done.
  - reflexivity.
Qed.

Lemma revoked_none p at_ reason d id : approvals d !! id = None -> revoked p at_ reason d !! id = None.
Proof. intros H. by rewrite revoked_lookup, H. Qed.

Lemma is_null_true {A} (o : option A) : is_null o = true -> o = None.
Proof. by destruct o. Qed.

Lemma approval_of_active job id r : approval_of job id r = true -> pr_invalidated r = None.
Proof. unfold approval_of. intros [_ H]%andb_true_iff. by apply is_null_true. Qed.
Lemma approval_of_adapter_active a d id r : approval_of_adapter a d id r = true -> pr_invalidated r = None.
Proof. unfold approval_of_adapter. intros [H _]%andb_true_iff. by apply is_null_true. Qed.

Lemma job_to_grows s b p k at_ r : Job.step (tj_state r) s -> job_grows r (job_to s b p k at_ r).
Proof. intros H. split; cbn; [done|by apply rtc_once|lia|lia]. Qed.

Lemma supersedable_steps s : s ∈ supersedable -> Job.step s Job.superseded.
Proof.
  intros H. apply Job.step_transitions. destruct s; try (not_in H); cbn; set_solver.
Qed.

Lemma committed_grows i job :
  tj_state job ∈ [Job.awaiting_approval; Job.nonce_reserved] -> job_grows job (committed_job i job).
Proof.
  intros H. unfold committed_job. case_decide as Hs; [|reflexivity].
  split; cbn; [done| |lia|lia]. apply rtc_once, Job.step_transitions. rewrite Hs. cbn. set_solver.
Qed.

Lemma reserved_grows i rid d m : reserved_for i rid d m -> grows nonce_grows (nonces d) m.
Proof. intros [[-> _]|(-> & _ & Hn & _)]; [reflexivity | by apply grows_new; [apply _|]]. Qed.

(** Tables a step does not touch. *)
Ltac untouched := try reflexivity; try done; try (apply revoked_grows; eauto using approval_of_active, approval_of_adapter_active, is_null_true; done).

Lemma jobs_extend d m : grows job_grows (jobs d) m -> engine_extends d (with_jobs m d).
Proof. intros H. split; untouched. Qed.
Lemma nonces_extend d m : grows nonce_grows (nonces d) m -> engine_extends d (with_nonces m d).
Proof. intros H. split; untouched. Qed.
Lemma attempts_extend d m : grows attempt_grows (attempts d) m -> engine_extends d (with_attempts m d).
Proof. intros H. split; untouched. Qed.
Lemma revoked_extends p at_ reason d :
  (forall id r, p id r = true -> pr_invalidated r = None) ->
  engine_extends d (with_approvals (revoked p at_ reason d) d).
Proof. intros H. split; untouched; cbn; auto using revoked_none. Qed.

Lemma moved_extends i r d :
  jobs d !! ti_jobId i = Some r -> Job.step (tj_state r) (ti_nextState i) -> engine_extends d (moved i r d).
Proof.
  intros Hr Hs. unfold moved. etrans.
  { eapply (jobs_extend d), grows_update; [apply _|exact Hr|]. apply job_to_grows, Hs. }
  case_decide; [|by split; untouched].
  apply (revoked_extends (approval_of _) _ _ (with_jobs _ d)). apply approval_of_active.
Qed.

Lemma superseded_extends id v old r at_ reason d :
  jobs d !! id = None -> jobs d !! old = Some r -> tj_state r ∈ supersedable ->
  grows job_grows (jobs d)
    (<[old := job_related id (job_to Job.superseded None (Some reason) None at_ r)]> (<[id := new_job v]> (jobs d))).
Proof.
  intros Hn Hr Hs. etrans; [by apply (grows_new _ _ _ (new_job v) Hn)|].
  assert (id <> old) by congruence.
  apply (grows_update _ _ _ r); [by rewrite lookup_insert_ne|].
  etrans; [by apply (job_to_grows Job.superseded None (Some reason) None at_), supersedable_steps|].
  split; cbn; (done || lia).
Qed.

Lemma attempt_to_grows i r :
  ta_state r = at_expectedState i -> at_nextState i ∈ attemptTransitions (at_expectedState i) ->
  attempt_grows r (attempt_to i r).
Proof.
  intros Hs Hin. split; cbn; [done|apply rtc_once; by rewrite Hs|].
  intros [n ->]. destruct (at_inclusion i); cbn; eauto.
Qed.

Lemma nonce_to_grows i r :
  nr_state r = ni_expectedState i -> ni_expectedState i <> ns_resolved -> nonce_grows r (nonce_to i r).
Proof. intros Hs Hn. split; cbn; [done|congruence]. Qed.

Lemma committed_extends i job rid m d :
  jobs d !! co_jobId i = Some job -> tj_state job ∈ [Job.awaiting_approval; Job.nonce_reserved] ->
  reserved_for i rid d m -> attempts d !! co_attemptId i = None ->
  engine_extends d (with_attempts (<[co_attemptId i := new_attempt i rid]> (attempts d))
        (with_nonces m (with_jobs (<[co_jobId i := committed_job i job]> (jobs d)) d))).
Proof.
  intros Hj Hs Hm Hn. etrans.
  { eapply (jobs_extend d), grows_update; [apply _|exact Hj|]. by apply (committed_grows i). }
  etrans; [by eapply nonces_extend, reserved_grows|]. by apply attempts_extend, grows_new; [apply _|].
Qed.

Lemma step_extends d d' : engine_step d d' -> engine_extends d d'.
Proof.
  destruct 1.
  - by apply jobs_extend, grows_new; [apply _|].
  - etrans; [by eapply (jobs_extend d), superseded_extends|].
    exact (revoked_extends (approval_of old) at_ _ (with_jobs _ d) (approval_of_active old)).
  - apply moved_extends; [done|]. congruence.
  - eapply nonces_extend, grows_update; [apply _|done|]. by apply nonce_to_grows.
  - by apply (committed_extends i job).
  - eapply attempts_extend, grows_update; [apply _|done|]. by apply attempt_to_grows.
  - eapply attempts_extend, grows_update; [apply _|done|]. by split; cbn.
  - split; untouched. by apply grows_new; [apply _|].
  - split; untouched; cbn; [congruence | auto using revoked_none].
  - split; untouched; cbn; auto using revoked_none. by apply grows_new; [apply _|].
Qed.

(** ** Soundness of the tables *)

(** The evidence behind a signed attempt: its job, a reservation of the same job, and an approval
    of exactly the job's intent and policy that had not expired when the attempt was signed. *)
Definition authorized (d : EngineDb) (b : AttemptBinding) : Prop :=
  exists job res pid p,
    jobs d !! ab_jobId b = Some job /\
    nonces d !! ab_nonceReservationId b = Some res /\ nb_jobId (nr_binding res) = ab_jobId b /\
    approvals d !! pid = Some p /\ pb_jobId (pr_binding p) = ab_jobId b /\
    pb_intentSha256 (pr_binding p) = jb_intentSha256 (tj_binding job) /\
    pb_policySha256 (pr_binding p) = jb_policySha256 (tj_binding job) /\
    0 < code_unit_compare (pb_expiresAt (pr_binding p)) (ab_createdAt b).

(** What an attempt's state stands for: its inclusion is its own, a confirmation rests on a
    canonical success, and what was submitted has its result. *)
Definition attempt_state_ok (a : AttemptRow) : Prop :=
  (forall n, ta_inclusion a = Some n -> in_txid n = ab_precomputedTxid (ta_binding a)) /\
  (ta_state a = as_confirmed -> confirming (ta_inclusion a) = true) /\
  (ta_state a ∈ [as_submitted; as_ambiguous; as_confirmed; as_reconciled] -> is_Some (ta_submissionResult a)).

Definition signing_states : list Job.TransactionJobState :=
  [Job.nonce_reserved; Job.broadcast; Job.ambiguous].

Record engine_sound (d : EngineDb) : Prop := {
  es_schema : schema_ok d;
  es_controls : forall a id p j, authorityControlReason a d <> None -> approvals d !! id = Some p ->
    jobs d !! pb_jobId (pr_binding p) = Some j -> jb_adapterId (tj_binding j) = a -> is_Some (pr_invalidated p);
  es_authorized : forall id a, attempts d !! id = Some a -> authorized d (ta_binding a);
  es_attempts : forall id a, attempts d !! id = Some a -> attempt_state_ok a;
  es_signing : forall id r, jobs d !! id = Some r -> tj_state r ∈ signing_states ->
    exists k a, attempts d !! k = Some a /\ ab_jobId (ta_binding a) = id;
}.

Lemma authorized_extends d d' b : engine_extends d d' -> authorized d b -> authorized d' b.
Proof.
  intros He (job & res & pid & p & Hj & Hr & Hrj & Hp & Hpj & Hi & Hpo & Hx).
  apply (ee_jobs _ _ He) in Hj as (job' & Hj & Gj). apply (ee_nonces _ _ He) in Hr as (res' & Hr & Gr).
  apply (ee_approvals _ _ He) in Hp as (p' & Hp & Gp).
  destruct Gj as [Bj _ _ _], Gr as [Br _], Gp as [Bp _].
  exists job', res', pid, p'. rewrite Bj, Br, Bp. by split_and!.
Qed.

(** A foreign key leads to a row. *)
Lemma refers_some {R S} (key : R -> string) (m : gmap string R) (t : gmap string S) id r :
  refers (fun r => Some (key r)) m t -> m !! id = Some r -> is_Some (t !! key r).
Proof. intros H Hr. exact (H id r Hr). Qed.

Lemma control_persists a d d' : engine_extends d d' ->
  authorityControlReason a d <> None -> authorityControlReason a d' <> None.
Proof.
  intros He H. unfold authorityControlReason in *. destruct (forced d) as [c|] eqn:Hf.
  - by rewrite (ee_forced _ _ He _ Hf).
  - destruct (disabled d !! a) as [c|] eqn:Hd; [|done]. apply (ee_disabled _ _ He) in Hd as (c' & -> & _).
    by destruct (forced d').
Qed.

(** The controls change only with the two steps that set one. *)
Lemma control_set a d d' : engine_step d d' ->
  authorityControlReason a d = None -> authorityControlReason a d' <> None ->
  forall id p j, approvals d' !! id = Some p -> jobs d' !! pb_jobId (pr_binding p) = Some j ->
    jb_adapterId (tj_binding j) = a -> is_Some (pr_invalidated p).
Proof.
  intros H Hn Hs. destruct H; try (exfalso; by apply Hs); intros id p j Hp Hj Ha; cbn in *.
  - rewrite revoked_lookup in Hp. destruct (approvals d !! id) as [p0|] eqn:E; [|done].
    cbn in Hp. injection Hp as <-. destruct (pr_invalidated p0) eqn:Hi; cbn; rewrite ?Hi; cbn; eauto.
  - rewrite revoked_lookup in Hp. destruct (approvals d !! id) as [p0|] eqn:E; [|done].
    cbn in Hp. injection Hp as <-. destruct (decide (a0 = jb_adapterId (tj_binding j))) as [->|Hne].
    + destruct (approval_of_adapter _ _ _ _) eqn:Hof; cbn; [eauto|]. unfold approval_of_adapter in Hof.
      rewrite Hj, String.eqb_refl, andb_true_r in Hof. destruct (pr_invalidated p0); [eauto|done].
    + exfalso. apply Hs. unfold authorityControlReason in *. cbn. subst a. by rewrite lookup_insert_ne.
Qed.

Lemma controls_sound d d' : engine_step d d' -> engine_sound d ->
  forall a id p j, authorityControlReason a d' <> None -> approvals d' !! id = Some p ->
    jobs d' !! pb_jobId (pr_binding p) = Some j -> jb_adapterId (tj_binding j) = a -> is_Some (pr_invalidated p).
Proof.
  intros Hst Hok a id p' j' Hc Hp' Hj' Ha. pose proof (step_extends _ _ Hst) as He.
  destruct (authorityControlReason a d) eqn:Hd; [|by eapply control_set].
  destruct (approvals d !! id) as [p|] eqn:Hp; [|by rewrite (ee_no_approval _ _ He _ Hp) in Hp'].
  destruct (ee_approvals _ _ He _ _ Hp) as (q & Hq & Gq). assert (q = p') as -> by congruence.
  pose proof (pg_binding _ _ Gq) as Bq. rewrite Bq in Hj'.
  destruct (refers_some (fun r => pb_jobId (pr_binding r)) _ _ _ _ (ok_approval_job _ (es_schema _ Hok)) Hp) as [j Hj].
  destruct (ee_jobs _ _ He _ _ Hj) as (k & Hk & Gk). assert (k = j') as -> by congruence.
  assert (Hi : is_Some (pr_invalidated p)).
  { apply (es_controls _ Hok a id p j); try done; [congruence|]. by rewrite <- (jg_binding _ _ Gk). }
  by rewrite (pg_invalidated _ _ Gq Hi).
Qed.

(** An attempt after a step: one that was there, or the one committed now. *)
Lemma step_attempts d d' id a' : engine_step d d' -> attempts d' !! id = Some a' ->
  (exists a, attempts d !! id = Some a /\ ta_binding a' = ta_binding a /\
     (attempt_state_ok a -> attempt_state_ok a')) \/
  (exists i job rid m, id = co_attemptId i /\ a' = new_attempt i rid /\ jobs d !! co_jobId i = Some job /\
     tj_state job ∈ [Job.awaiting_approval; Job.nonce_reserved] /\
     authorityControlReason (jb_adapterId (tj_binding job)) d = None /\ approved i job d /\
     reserved_for i rid d m /\ nonces d' = m /\ jobs d' !! co_jobId i = Some (committed_job i job) /\
     approvals d' = approvals d).
Proof.
  intros Hst Ha. assert (Hsame : attempts d !! id = Some a' ->
    exists a, attempts d !! id = Some a /\ ta_binding a' = ta_binding a /\
      (attempt_state_ok a -> attempt_state_ok a')) by (intros H; by exists a').
  destruct Hst; cbn in Ha; auto.
  - destruct (decide (id = co_attemptId i)) as [->|Hne].
    + right. rewrite lookup_insert_eq in Ha. injection Ha as <-.
      exists i, job, rid, m. split_and!; try done. cbn. by rewrite lookup_insert_eq.
    + left. rewrite lookup_insert_ne in Ha by done. auto.
  - left. destruct (decide (id = at_attemptId i)) as [->|Hne]; [|rewrite lookup_insert_ne in Ha by done; auto].
    rewrite lookup_insert_eq in Ha. injection Ha as <-. exists r. split_and!; [done|done|].
    intros (Hin & Hc & Hsub). split_and!; cbn.
    + intros n. destruct (at_inclusion i) as [n'|]; cbn; [intros [= ->]; auto|auto].
    + intros Hn. specialize (H3 Hn). destruct (at_inclusion i); done.
    + intros Hn. destruct (at_submissionResult i) as [s|] eqn:Hs; cbn; [eauto|].
      destruct (ta_state r) eqn:Er; try (apply Hsub; is_in); rewrite <- H0 in H1.
      * exfalso. destruct H4 as [? H4]; [done| |done].
        destruct (at_nextState i); try is_in; by not_in Hn || not_in H1.
      * by not_in H1.
  - left. destruct (decide (id = id0)) as [->|Hne]; [|rewrite lookup_insert_ne in Ha by done; auto].
    rewrite lookup_insert_eq in Ha. injection Ha as <-. exists r. split_and!; [done|done|].
    intros (Hin & Hc & Hsub). split_and!; cbn; [by intros m [= <-]|congruence|done].
Qed.

Lemma reserved_row i rid d m : reserved_for i rid d m ->
  exists res, m !! rid = Some res /\ nb_jobId (nr_binding res) = co_jobId i /\
    nb_gasPayerPrincipal (nr_binding res) = co_gasPayerPrincipal i /\ nb_nonce (nr_binding res) = co_nonce i /\
    nr_resolvedAt res = None.
Proof.
  intros [(-> & r & Hr & Hn & Hj & Hm)|(-> & -> & _ & _)].
  - exists r. unfold reservation_matches in Hm. breflect. by split_and!.
  - exists (new_nonce i). by rewrite lookup_insert_eq.
Qed.

Lemma new_attempt_authorized i job rid m d d' :
  jobs d' !! co_jobId i = Some (committed_job i job) -> approved i job d -> reserved_for i rid d m ->
  nonces d' = m -> approvals d' = approvals d -> authorized d' (ta_binding (new_attempt i rid)).
Proof.
  intros Hj (p & Hp & _ & _ & Hx & Hpj & _ & Hi & Hpo) Hr%reserved_row Hm Ha.
  destruct Hr as (res & Hres & Hresj & _).
  exists (committed_job i job), res, (co_approvalId i), p. rewrite Hm, Ha.
  assert (tj_binding (committed_job i job) = tj_binding job) as ->.
  { unfold committed_job. by case_decide. }
  by split_and!.
Qed.

(** A job that owns a nonce has its attempt. *)
Lemma signing_sound d d' : engine_step d d' -> engine_sound d ->
  forall id r, jobs d' !! id = Some r -> tj_state r ∈ signing_states ->
    exists k a, attempts d' !! k = Some a /\ ab_jobId (ta_binding a) = id.
Proof.
  intros Hst Hok id r' Hr' Hs'. pose proof (step_extends _ _ Hst) as He.
  assert (Hkeep : forall r, jobs d !! id = Some r -> tj_state r ∈ signing_states ->
    exists k a, attempts d' !! k = Some a /\ ab_jobId (ta_binding a) = id).
  { intros r Hr Hs. destruct (es_signing _ Hok _ _ Hr Hs) as (k & a & Ha & Hj).
    apply (ee_attempts _ _ He) in Ha as (a' & Ha & [Ba _ _]). exists k, a'. split; congruence. }
  destruct Hst; cbn in Hr'; eauto.
  - destruct (decide (id = id0)) as [->|Hne]; [|rewrite lookup_insert_ne in Hr' by done; eauto].
    rewrite lookup_insert_eq in Hr'. injection Hr' as <-. by not_in Hs'.
  - destruct (decide (id = old)) as [->|Hne].
    { rewrite lookup_insert_eq in Hr'. injection Hr' as <-. by not_in Hs'. }
    rewrite lookup_insert_ne in Hr' by done.
    destruct (decide (id = id0)) as [->|Hne']; [|rewrite lookup_insert_ne in Hr' by done; eauto].
    rewrite lookup_insert_eq in Hr'. injection Hr' as <-. by not_in Hs'.
  - destruct (decide (id = ti_jobId i)) as [->|Hne]; [|rewrite lookup_insert_ne in Hr' by done; eauto].
    rewrite lookup_insert_eq in Hr'. injection Hr' as <-. cbn in Hs'.
    apply (Hkeep r H). apply Job.step_transitions in H1. rewrite H0 in *.
    destruct (ti_nextState i); try (not_in Hs'); destruct (ti_expectedState i); try (not_in H1); try is_in.
    by destruct H2.
  - destruct (decide (id = co_jobId i)) as [->|Hne]; [|rewrite lookup_insert_ne in Hr' by done; eauto].
    exists (co_attemptId i), (new_attempt i rid). cbn. by rewrite lookup_insert_eq.
Qed.

Lemma step_sound d d' : engine_step d d' -> schema_ok d' -> engine_sound d -> engine_sound d'.
Proof.
  intros Hst Hs Hok. pose proof (step_extends _ _ Hst) as He. split; [done| | | |].
  - by eapply controls_sound.
  - intros id a' Ha. destruct (step_attempts _ _ _ _ Hst Ha)
      as [(a & Ha0 & -> & _)|(i & job & rid & m & -> & -> & _ & _ & _ & Hap & Hr & Hm & Hj & Hp)].
    + eapply authorized_extends, es_authorized; done.
    + by eapply new_attempt_authorized.
  - intros id a' Ha. destruct (step_attempts _ _ _ _ Hst Ha)
      as [(a & Ha0 & _ & Hk)|(i & job & rid & m & -> & -> & _)].
    + eapply Hk, es_attempts; done.
    + split_and!; cbn; [done..|]. intros Hin. by not_in Hin.
  - by apply signing_sound with d.
Qed.

(** ** Histories of calls *)

Section Histories.

Context (isUuid isDatetime validateStacksAddress : string -> bool) (sha256 : list Z -> string).

Abbreviation call := (run_call isUuid isDatetime validateStacksAddress sha256).
Abbreviation history := (rtc (calls_step isUuid isDatetime validateStacksAddress sha256)).

(** A relation to the first database that every step keeps holds of every later one. *)
Lemma history_keeps (P : EngineDb -> Prop) d d' :
  engine_sound d -> P d -> history d d' ->
  (forall e e', engine_sound e -> P e -> engine_step e e' -> P e') ->
  engine_sound d' /\ P d'.
Proof.
  intros Hok HP Hh Hstep. induction Hh as [d|d e d' [c Hc] _ IH]; [done|].
  pose proof (calls_refine_protocol isUuid isDatetime validateStacksAddress sha256 c d) as Hr.
  rewrite Hc in Hr. destruct Hr as [->|[Hst Hs]]; [by apply IH|].
  apply IH; [by eapply step_sound | by eapply Hstep].
Qed.

(** C22. Whatever calls are made, in whatever order and with whatever failures, the tables stay sound: one
    active job per scope and per checkpoint, one attempt per job and per transaction ID, one
    unresolved nonce per gas payer and one active approval per job; every signed attempt has an
    approval of exactly its job's intent and policy that had not expired, and a nonce of the same
    job; a job that owns a nonce or was broadcast has its attempt; a confirmed attempt has a
    canonical success of its own transaction; where authority was withdrawn nothing is approved. *)
Theorem engine_stays_sound d d' : engine_sound d -> history d d' -> engine_sound d'.
Proof. intros Hok Hh. by apply (history_keeps (fun _ => True) d d' Hok I Hh). Qed.

(** C25. No record of the store is lost or rewritten: jobs keep what they seal and move only along the
    transition table, attempts keep their transaction, nonce and fee and move along theirs, resolved
    nonces and invalidated approvals stay as they are, evidence and controls never change, and no
    call creates an approval. *)
Theorem engine_records_are_kept d d' : history d d' -> engine_extends d d'.
Proof.
  induction 1 as [d|d e d' [c Hc] _ IH]; [reflexivity|]. transitivity e; [|exact IH].
  pose proof (calls_refine_protocol isUuid isDatetime validateStacksAddress sha256 c d) as Hr.
  rewrite Hc in Hr. destruct Hr as [->|[Hst _]]; [reflexivity | by apply step_extends].
Qed.

(** *** Withdrawn authority *)

(** The jobs of the adapter that could sign or be sent, and the attempts of its jobs, are those of
    [d]. *)
Definition no_new_authority (a : string) (d e : EngineDb) : Prop :=
  engine_extends d e /\ authorityControlReason a e <> None /\
  (forall id r, jobs e !! id = Some r -> jb_adapterId (tj_binding r) = a -> tj_state r ∈ authorityStates ->
     jobs d !! id = Some r) /\
  (forall id t j, attempts e !! id = Some t -> jobs e !! ab_jobId (ta_binding t) = Some j ->
     jb_adapterId (tj_binding j) = a -> is_Some (attempts d !! id)).

Lemma step_authority e e' id r :
  engine_step e e' -> jobs e' !! id = Some r -> tj_state r ∈ authorityStates ->
  authorityControlReason (jb_adapterId (tj_binding r)) e <> None -> jobs e !! id = Some r.
Proof.
  intros Hst Hr Hs Hc. destruct Hst; cbn in Hr; try done.
  - destruct (decide (id = id0)) as [->|Hne]; [|by rewrite lookup_insert_ne in Hr].
    rewrite lookup_insert_eq in Hr. injection Hr as <-. by not_in Hs.
  - destruct (decide (id = old)) as [->|Hne].
    { rewrite lookup_insert_eq in Hr. injection Hr as <-. by not_in Hs. }
    rewrite lookup_insert_ne in Hr by done.
    destruct (decide (id = id0)) as [->|Hne']; [|by rewrite lookup_insert_ne in Hr].
    rewrite lookup_insert_eq in Hr. injection Hr as <-. by not_in Hs.
  - destruct (decide (id = ti_jobId i)) as [->|Hne]; [|by rewrite lookup_insert_ne in Hr].
    rewrite lookup_insert_eq in Hr. injection Hr as <-. cbn in *. by destruct Hc; auto.
  - destruct (decide (id = co_jobId i)) as [->|Hne]; [|by rewrite lookup_insert_ne in Hr].
    rewrite lookup_insert_eq in Hr. injection Hr as <-. unfold committed_job in *. by case_decide.
Qed.

Lemma step_no_new_authority a d e e' :
  engine_sound e -> no_new_authority a d e -> engine_step e e' -> no_new_authority a d e'.
Proof.
  intros Hok (He & Hc & Hj & Ht) Hst. pose proof (step_extends _ _ Hst) as Hx.
  split_and!; [by etrans | by eapply control_persists | |].
  - intros id r Hr Ha Hs. apply Hj; [|done..]. eapply step_authority; [done..|]. by rewrite Ha.
  - intros id t j Hr Hjob Ha. destruct (step_attempts _ _ _ _ Hst Hr)
      as [(t0 & Ht0 & Hb & _)|(i & job & rid & m & -> & -> & Hjb & _ & Hn & _ & _ & _ & Hjc & _)].
    + rewrite Hb in Hjob.
      destruct (refers_some (fun r => ab_jobId (ta_binding r)) _ _ _ _ (ok_attempt_job _ (es_schema _ Hok)) Ht0)
        as [j0 Hj0].
      destruct (ee_jobs _ _ Hx _ _ Hj0) as (j1 & Hj1 & Gj). assert (j1 = j) as -> by congruence.
      eapply Ht; [done..|]. by rewrite <- (jg_binding _ _ Gj).
    + exfalso. cbn in Hjob. assert (j = committed_job i job) as -> by congruence.
      apply Hc. rewrite <- Ha. unfold committed_job. by case_decide.
Qed.

Lemma force_sets c d x e : forceObserve isDatetime c d = (Ok x, e) -> forced e <> None.
Proof.
  intros H. refine (transaction_ok _ d x e (fun _ e => forced e <> None) H _).
  unfold getForceObserveControl_tx, stored_control. repeat wp_step. apply wp_parsed_control.
  destruct (forced d) eqn:Hf; [by wp_step; rewrite Hf|]. wp_step. apply wp_write. intros _. wp_step.
  apply wp_revoke. intros n _. repeat wp_step. by apply wp_parsed_control.
Qed.

Lemma disable_sets a c d x e : disableAdapter isDatetime a c d = (Ok x, e) -> disabled e !! a <> None.
Proof.
  intros H. refine (transaction_ok _ d x e (fun _ e => disabled e !! a <> None) H _).
  unfold getDisabledAdapterControl_tx, stored_control. repeat wp_step. apply wp_parsed_control.
  destruct (disabled d !! a) eqn:Hf; [by wp_step; rewrite Hf|]. wp_step. apply wp_write. intros _. wp_step.
  refine (wp_revoke (approval_of_adapter a _) (ct_at c) "adapter-disabled" _ _ _). intros n _.
  repeat wp_step. apply wp_parsed_control. cbn [disabled with_disabled with_approvals].
  rewrite lookup_insert_eq. wp_step. cbn. by rewrite lookup_insert_eq.
Qed.

(** The two controls. *)
Inductive withdraws (a : string) : EngineCall -> Prop :=
  | withdraws_all c : withdraws a (call_force c)
  | withdraws_adapter c : withdraws a (call_disable a c).

Lemma withdrawn a w d e : withdraws a w -> call w d = (None, e) -> authorityControlReason a e <> None.
Proof.
  intros Hw H. unfold authorityControlReason. destruct Hw; cbn in H; unfold outcome in H.
  - destruct (forceObserve _ _ _) as [[x|] e'] eqn:Hf; [|done]. injection H as <-. apply force_sets in Hf. cbn.
    by destruct (forced e').
  - destruct (disableAdapter _ _ _ _) as [[x|] e'] eqn:Hf; [|done]. injection H as <-. apply disable_sets in Hf.
    cbn. destruct (forced e'); [done|]. by destruct (disabled e' !! a).
Qed.

(** C23. Forcing the engine to observe, or disabling an adapter, is final: after the call has returned,
    whatever is called, the control stays, no approval of a job it covers is active, no such job
    enters a state that awaits approval, owns a nonce or is sent, and nothing more is signed for
    one. *)
Theorem withdrawn_authority_is_final a w d0 d e :
  engine_sound d0 -> withdraws a w -> call w d0 = (None, d) -> history d e ->
  authorityControlReason a e <> None /\
  (forall id p j, approvals e !! id = Some p -> jobs e !! pb_jobId (pr_binding p) = Some j ->
     jb_adapterId (tj_binding j) = a -> is_Some (pr_invalidated p)) /\
  (forall id r, jobs e !! id = Some r -> jb_adapterId (tj_binding r) = a -> tj_state r ∈ authorityStates ->
     jobs d !! id = Some r) /\
  (forall id t j, attempts e !! id = Some t -> jobs e !! ab_jobId (ta_binding t) = Some j ->
     jb_adapterId (tj_binding j) = a -> is_Some (attempts d !! id)).
Proof.
  intros Hok Hw Hcall Hh. assert (Hd : engine_sound d).
  { apply (history_keeps (fun _ => True) d0 d Hok I); [|done]. apply rtc_once. exists w. by rewrite Hcall. }
  destruct (history_keeps (no_new_authority a d) d e Hd) as [He (_ & Hc & Hj & Ht)]; [|done| |].
  - split_and!; [reflexivity | by eapply withdrawn | done | eauto].
  - apply step_no_new_authority.
  - split_and!; [done| |done|done]. intros id p j Hp Hjp Ha. by eapply es_controls.
Qed.

(** *** Commitments *)

(** A row found by a condition that no other row satisfies. *)
Lemma find_unique {R} p (m : gmap string R) id r :
  m !! id = Some r -> p id r = true -> (forall k s, m !! k = Some s -> p k s = true -> k = id) ->
  find p m = Some (id, r).
Proof.
  intros Hr Hp Hu. destruct (find p m) as [[k s]|] eqn:Hf.
  - apply find_spec in Hf as [Hk Hpk]. pose proof (Hu k s Hk Hpk) as ->. congruence.
  - pose proof (find_none _ _ _ _ Hf Hr). congruence.
Qed.

Lemma table_apart {R} checks apart (m : gmap string R) id k r s :
  table_ok checks apart m -> m !! id = Some r -> m !! k = Some s -> id <> k -> apart r s = true.
Proof. intros H Hr Hs Hn. destruct (H id r Hr) as [_ H2]. destruct (H2 k s Hs); [done|done]. Qed.

Lemma wp_committed_before i id t d :
  wp (committed_before isUuid isDatetime validateStacksAddress i id t) d
    (fun x d' => d' = d /\ ca_created x = false /\ (ca_attempt x).1 = id).
Proof.
  unfold committed_before. wp_step. wp_step. wp_step. apply wp_jobRow. intros _.
  destruct (keyed _ (nonces d)) as [[rid res]|]; [|done].
  destruct (jobs d !! ab_jobId (ta_binding t)) as [j|]; [|done].
  repeat wp_step. apply wp_mapJob. wp_step. apply wp_mapAttempt. by wp_step.
Qed.

(** The row of a transaction that is on record. *)
Lemma find_txid d id t txid : engine_sound d -> attempts d !! id = Some t ->
  ab_precomputedTxid (ta_binding t) = txid ->
  find (fun _ a => String.eqb (ab_precomputedTxid (ta_binding a)) txid) (attempts d) = Some (id, t).
Proof.
  intros Hok Ht <-. apply find_unique; [done|by apply String.eqb_eq|].
  intros k s Hs Heq. breflect. destruct (decide (k = id)) as [|Hne]; [done|].
  pose proof (table_apart _ _ _ _ _ _ _ (ok_attempts _ (es_schema _ Hok)) Hs Ht Hne) as Ha.
  unfold attempts_apart in Ha. by breflect.
Qed.

Lemma commit_on_record i d id t : engine_sound d -> attempts d !! id = Some t ->
  ab_precomputedTxid (ta_binding t) = co_precomputedTxid i ->
  wp (_ ← check_tx (commitInputSchema isUuid isDatetime validateStacksAddress i) engine_schema;
      o ← read_tx (fun d => find (fun _ a => String.eqb (ab_precomputedTxid (ta_binding a)) (co_precomputedTxid i))
                      (attempts d));
      match o with
      | Some (id, existing) =>
          _ ← check_tx (attemptRowSchema isUuid isDatetime id existing) engine_schema;
          committed_before isUuid isDatetime validateStacksAddress i id existing
      | None => commit_new isUuid isDatetime validateStacksAddress i
      end) d (fun x d' => d' = d /\ ca_created x = false /\ (ca_attempt x).1 = id).
Proof.
  intros Hok Ht Htx. do 4 wp_step. rewrite (find_txid _ _ _ _ Hok Ht Htx). wp_step. wp_step.
  apply wp_committed_before.
Qed.

(** C26. A signed transaction is committed once: when it is on record, then in every later state a call
    to commit it again writes nothing, and returns the attempt on record or throws; its job never
    has another attempt. *)
Theorem committed_once d e id t i :
  engine_sound d -> attempts d !! id = Some t -> history d e ->
  co_precomputedTxid i = ab_precomputedTxid (ta_binding t) ->
  (call (call_commit i) e).2 = e /\
  (forall x e', commitApprovedSignedAttempt isUuid isDatetime validateStacksAddress i e = (Ok x, e') ->
     ca_created x = false /\ (ca_attempt x).1 = id) /\
  (forall k s, attempts e !! k = Some s -> ab_jobId (ta_binding s) = ab_jobId (ta_binding t) -> k = id).
Proof.
  intros Hok Ht Hh Htx.
  destruct (history_keeps (fun e => engine_extends d e) d e Hok) as [He Hx]; [reflexivity|done| |].
  { intros u v _ Hu Hst. etrans; [exact Hu|by apply step_extends]. }
  destruct (ee_attempts _ _ Hx _ _ Ht) as (t' & Ht' & [Hb _ _]).
  pose proof (commit_on_record i e id t' He Ht') as Hw. rewrite Hb in Hw. specialize (Hw (eq_sym Htx)).
  split_and!.
  - cbn. refine (transaction_wp _ _ (fun e' => e' = e) eq_refl _). eapply ewp_mono; [exact Hw|]. by intros x d' [-> _].
  - intros x e' H. refine (transaction_ok _ e x e' (fun x _ => ca_created x = false /\ (ca_attempt x).1 = id) H _).
    eapply ewp_mono; [exact Hw|]. by intros y d' [_ ?].
  - intros k s Hs Hj. destruct (decide (k = id)) as [|Hne]; [done|].
    pose proof (table_apart _ _ _ _ _ _ _ (ok_attempts _ (es_schema _ He)) Hs Ht' Hne) as Ha.
    unfold attempts_apart in Ha. rewrite Hj, Hb in Ha. by breflect.
Qed.

End Histories.
