(* ===== verification/EngineListing.v ===== *)
(** * Pages of logical jobs

    [listLogicalJobs] of [EngineStore] cuts one order of the jobs into pages: the page after a
    cursor is the part of the list behind the row the cursor names.  A client that follows the
    cursors therefore reads the whole list, each job once. *)

From S2P Require Import Prelude Text CanonicalJson Principals OperationPlan ChainAnchor TransactionJob WalletRequest EngineTables EngineStore EngineProtocol.

Open Scope string_scope.
Open Scope list_scope.
Open Scope Z_scope.

(** ** The order of the rows *)

Section Order.
  Context {R : Type} (time : R -> string).

Lemma newest_first_anti (x y : string * R) : newest_first time x y < 0 <-> 0 < newest_first time y x.
  Proof.
    unfold newest_first. pose proof (code_unit_compare_anti (time y.2) (time x.2)) as H1.
    pose proof (code_unit_compare_anti (time x.2) (time y.2)) as H2.
    pose proof (code_unit_compare_anti y.1 x.1) as H3.
    destruct (code_unit_compare (time y.2) (time x.2) =? 0) eqn:E1,
      (code_unit_compare (time x.2) (time y.2) =? 0) eqn:E2; breflect; lia.
  Qed.

Lemma code_unit_compare_refl s : code_unit_compare s s = 0.
  Proof.
    pose proof (code_unit_compare_anti s s). lia.
  Qed.

  (** Strictly less, or equal and then as the rest says. *)
Lemma newest_first_cases (x y : string * R) :
    newest_first time x y <= 0 <->
    code_unit_compare (time y.2) (time x.2) < 0 \/ (time y.2 = time x.2 /\ code_unit_compare y.1 x.1 <= 0).
  Proof.
    unfold newest_first. destruct (code_unit_compare (time y.2) (time x.2) =? 0) eqn:E; breflect.
    - pose proof (code_unit_compare_eq _ _ E). split; [auto|]. intros [?|[_ ?]]; lia.
    - split; [lia|]. intros [?|[Heq ?]]; [lia|]. rewrite Heq, code_unit_compare_refl in E. done.
  Qed.

Lemma newest_first_trans (x y z : string * R) :
    cmp_le (newest_first time) x y -> cmp_le (newest_first time) y z -> cmp_le (newest_first time) x z.
  Proof.
    unfold cmp_le. rewrite !newest_first_cases. intros [H1|[E1 H1]] [H2|[E2 H2]].
    - left. pose proof (code_unit_compare_trans (time z.2) (time y.2) (time x.2)).
      destruct (Z.eq_dec (code_unit_compare (time z.2) (time x.2)) 0) as [E|]; [|lia].
      apply code_unit_compare_eq in E. rewrite <- E in H1.
      apply code_unit_compare_anti in H1. lia.
    - left. by rewrite E2.
    - left. by rewrite <- E1.
    - right. split; [congruence|]. by eapply code_unit_compare_trans.
  Qed.

Lemma newest_first_tie (x y : string * R) : newest_first time x y = 0 -> x.1 = y.1.
  Proof.
    unfold newest_first. destruct (_ =? 0) eqn:E; breflect; [|done]. intros H. symmetry. by apply code_unit_compare_eq.
  Qed.

Lemma select_sorted p (m : gmap string R) :
    StronglySorted (cmp_le (newest_first time)) (select (newest_first time) p m).
  Proof. apply js_sort_sorted; [apply newest_first_anti | apply newest_first_trans]. Qed.

Lemma select_perm {order : string * R -> string * R -> Z} p (m : gmap string R) :
    Permutation (select order p m) (List.filter (fun '(id, r) => p id r) (map_to_list m)).
  Proof. apply js_sort_perm. Qed.

Lemma select_nodup {order : string * R -> string * R -> Z} p (m : gmap string R) : NoDup (select order p m).
  Proof.
    rewrite select_perm. pose proof (NoDup_map_to_list m) as H. induction H as [|x l Hx Hl IH]; cbn; [constructor|].
    destruct x as [id r]. destruct (p id r); [|done]. constructor; [|done].
    intros Hin. apply Hx. apply list_elem_of_In, filter_In in Hin as [Hin _]. by apply list_elem_of_In.
  Qed.

  (** Selecting with one more condition is filtering the selection. *)
Lemma select_filter p q (m : gmap string R) :
    select (newest_first time) (fun id r => p id r && q id r) m =
    List.filter (fun '(id, r) => q id r) (select (newest_first time) p m).
  Proof.
    apply (StronglySorted_perm_unique (cmp_le (newest_first time))).
    - intros [i r] [j s] Hx Hy H1 H2. apply select_spec in Hx as [Hx _]. apply select_spec in Hy as [Hy _].
      assert (Ht : newest_first time (i, r) (j, s) = 0).
      { unfold cmp_le in *. pose proof (newest_first_anti (i, r) (j, s)). lia. }
      apply newest_first_tie in Ht. cbn in Ht. subst. congruence.
    - apply select_sorted.
    - generalize (select_sorted p m). generalize (select (newest_first time) p m).
      induction l as [|[i r] l IH]; cbn; intros Hs; [constructor|]. apply StronglySorted_inv in Hs as [Hs Hf].
      destruct (q i r); [|by apply IH]. constructor; [by apply IH|].
      rewrite Forall_forall in *. intros y Hy. apply Hf. apply list_elem_of_In, filter_In in Hy as [Hy _].
      by apply list_elem_of_In.
    - apply NoDup_Permutation; [apply NoDup_ListNoDup, select_nodup | |].
      + apply List.NoDup_filter, NoDup_ListNoDup, select_nodup.
      + intros [i r]. rewrite filter_In, <- !list_elem_of_In, !select_spec, andb_true_iff. tauto.
  Qed.

  (** The rows behind [x] are the rest of the sorted list. *)
Lemma filter_after l x k :
    StronglySorted (cmp_le (newest_first time)) (l ++ x :: k) ->
    (forall y, y ∈ l ++ k -> y.1 <> x.1) ->
    List.filter (fun y => newest_first time x y <? 0) (l ++ x :: k) = k.
  Proof.
    intros Hs Hne. induction l as [|y l IH]; cbn in *.
    - apply StronglySorted_inv in Hs as [_ Hf].
      assert (newest_first time x x <? 0 = false) as ->.
      { pose proof (newest_first_anti x x). destruct (Z.ltb_spec (newest_first time x x) 0); [lia|done]. }
      rewrite Forall_forall in Hf. clear -Hf Hne. induction k as [|z k IH]; cbn; [done|].
      assert (newest_first time x z <? 0 = true) as ->.
      { assert (Hz : cmp_le (newest_first time) x z) by (apply Hf; constructor). unfold cmp_le in Hz.
        destruct (Z.eq_dec (newest_first time x z) 0) as [E|]; [|lia].
        apply newest_first_tie in E. destruct (Hne z); [constructor|congruence]. }
      f_equal. apply IH; [intros w Hw; apply Hf; by constructor | intros w Hw; apply Hne; by constructor].
    - apply StronglySorted_inv in Hs as [Hs Hf]. rewrite Forall_forall in Hf.
      assert (newest_first time x y <? 0 = false) as ->.
      { assert (Hy : cmp_le (newest_first time) y x).
        { apply Hf. apply elem_of_app. right. constructor. }
        unfold cmp_le in Hy. pose proof (newest_first_anti x y).
        destruct (Z.ltb_spec (newest_first time x y) 0); [lia|done]. }
      apply IH; [done|]. intros z Hz. apply Hne. by constructor.
  Qed.

End Order.

(** ** Following the cursors *)

Section Pages.

Context (isUuid isDatetime validateStacksAddress : string -> bool) (sha256 : list Z -> string).

Definition with_cursor (c : option JobCursor) (o : LogicalJobListOptions) : LogicalJobListOptions :=
  {| lo_limit := lo_limit o; lo_cursor := Some <$> c; lo_adapterId := lo_adapterId o;
     lo_managerPrincipal := lo_managerPrincipal o; lo_states := lo_states o |}.

(** Reading page after page; [None]: a page threw, or the fuel ran out. *)
Fixpoint follow (fuel : nat) (o : LogicalJobListOptions) (cursor : option JobCursor) (d : EngineDb)
    : option (list (string * JobRow)) :=
  match fuel with
  | O => None
  | S fuel =>
      match (listLogicalJobs isUuid isDatetime validateStacksAddress sha256 (with_cursor cursor o) d).1 with
      | Err _ => None
      | Ok page =>
          match lp_nextCursor page with
          | None => Some (lp_items page)
          | Some c => app (lp_items page) <$> follow fuel o (Some c) d
          end
      end
  end.

(** The options and the rows pass their schemas, and the digest has the form of one. *)
Record readable_list (o : LogicalJobListOptions) (d : EngineDb) : Prop := {
  rl_limit : 1 <= default 50 (lo_limit o) <= 200;
  rl_adapter : given_ok identifier (lo_adapterId o) = true;
  rl_manager : given_ok (principal validateStacksAddress) (lo_managerPrincipal o) = true;
  rl_digest : hash64 (filterSha256 sha256 o) = true;
  rl_rows : map_Forall (fun id r => jobRowSchema isUuid isDatetime validateStacksAddress id r = true /\
    anchor_ok (jb_chainAnchor (tj_binding r)) = true) (jobs d);
}.

Definition cursor_of (o : LogicalJobListOptions) (x : string * JobRow) : JobCursor :=
  {| cu_createdAt := tj_createdAt x.2; cu_jobId := x.1; cu_filterSha256 := filterSha256 sha256 o |}.

Definition behind (o : LogicalJobListOptions) (cursor : option JobCursor) (d : EngineDb) : list (string * JobRow) :=
  select (newest_first tj_createdAt) (fun id r => job_matches o r && after_cursor cursor id r) (jobs d).

(** The cut of a list into a page. *)
Definition page_of (o : LogicalJobListOptions) (rows : list (string * JobRow)) (d : EngineDb) : LogicalJobPage :=
  let limit := Z.to_nat (default 50 (lo_limit o)) in
  {| lp_items := take limit rows;
     lp_nextCursor := if (limit <? List.length rows)%nat
                      then cursor_of o <$> last (take limit rows) else None;
     lp_total := count_where (job_matches o) (jobs d) |}.

Lemma after_cursor_order o x id r :
  after_cursor (Some (cursor_of o x)) id r = (newest_first tj_createdAt x (id, r) <? 0).
Proof.
  unfold after_cursor, newest_first. cbn. set (c := code_unit_compare (tj_createdAt r) (tj_createdAt x.2)).
  destruct (c =? 0) eqn:E; breflect.
  - apply code_unit_compare_eq in E as Heq. rewrite Heq, String.eqb_refl. subst c. by rewrite E.
  - assert (Hne : tj_createdAt r <> tj_createdAt x.2).
    { intros Heq. apply E. subst c. rewrite Heq. apply code_unit_compare_refl. }
    apply String.eqb_neq in Hne. by rewrite Hne, orb_false_r.
Qed.

Lemma map_tx_each {A B} (f : A -> engine_tx B) (g : A -> B) l d :
  (forall x, x ∈ l -> f x d = Ok (g x, d)) -> map_tx f l d = Ok (map g l, d).
Proof.
  induction l as [|x l IH]; intros H; cbn; [done|].
  unfold mbind, engine_bind. rewrite H by constructor.
  rewrite IH; [done|]. intros y Hy. apply H. by constructor.
Qed.

(** A cursor the pages give out. *)
Definition own_cursor (o : LogicalJobListOptions) (c : option JobCursor) (d : EngineDb) : Prop :=
  match c with None => True | Some c => exists x, c = cursor_of o x /\ jobs d !! x.1 = Some x.2 end.

Lemma tx_run_bind {A B} (m : engine_tx A) (k : A -> engine_tx B) d a d' :
  m d = Ok (a, d') -> (m ≫= k) d = k a d'.
Proof. intros H. unfold mbind, engine_bind. by rewrite H. Qed.
Lemma tx_run_check {B} b e (k : unit -> engine_tx B) d : b = true -> (check_tx b e ≫= k) d = k tt d.
Proof. by intros ->. Qed.
Lemma run_read {A B} (f : EngineDb -> A) (k : A -> engine_tx B) d : (read_tx f ≫= k) d = k (f d) d.
Proof. done. Qed.

(** Rows read from the table pass their schemas. *)
Lemma parse_rows o c n d : readable_list o d ->
  map_tx (fun '(id, r) => check_tx (jobRowSchema isUuid isDatetime validateStacksAddress id r) engine_schema)
    (take n (behind o c d)) d = Ok (map (fun _ => tt) (take n (behind o c d)), d).
Proof.
  intros Hl. apply map_tx_each. intros [id r] Hx. assert (Hin : (id, r) ∈ behind o c d).
  { rewrite <- (take_drop n). apply elem_of_app. by left. }
  apply select_spec in Hin as [Hr _]. destruct (rl_rows _ _ Hl id r Hr) as [H _]. by rewrite H.
Qed.

Lemma map_rows o c n d : readable_list o d ->
  map_tx (fun '(id, r) => mapJob id r) (take n (behind o c d)) d = Ok (take n (behind o c d), d).
Proof.
  intros Hl. rewrite (map_tx_each _ (fun x => x)); [by rewrite map_id|]. intros [id r] Hx.
  assert (Hin : (id, r) ∈ behind o c d).
  { rewrite <- (take_drop n). apply elem_of_app. by left. }
  apply select_spec in Hin as [Hr _]. destruct (rl_rows _ _ Hl id r Hr) as [_ H].
  unfold mapJob. by rewrite tx_run_check.
Qed.

Lemma own_cursor_decodes o c d : readable_list o d -> own_cursor o c d ->
  (match lo_cursor (with_cursor c o) with
   | None => mret None
   | Some c => c ← decodeJobCursor isUuid isDatetime c (filterSha256 sha256 o); mret (Some c)
   end) d = Ok (c, d).
Proof.
  intros Hl Hc. destruct c as [c|]; [|done]. destruct Hc as ([id r] & -> & Hr). cbn [with_cursor lo_cursor fmap option_fmap option_map].
  destruct (rl_rows _ _ Hl id r Hr) as [Hs _]. unfold jobRowSchema in Hs. breflect.
  unfold decodeJobCursor. rewrite tx_run_bind with (a := cursor_of o (id, r)) (d' := d); [done|].
  rewrite tx_run_check by (cbn; rewrite (rl_digest _ _ Hl); unfold tj_createdAt; by rewrite !andb_true_iff).
  unfold conflict_unless. rewrite tx_run_check by apply String.eqb_refl. done.
Qed.

Lemma list_page o c d : readable_list o d -> own_cursor o c d ->
  listLogicalJobs isUuid isDatetime validateStacksAddress sha256 (with_cursor c o) d =
  (Ok (page_of o (behind o c d) d), d).
Proof.
  intros Hl Hc. unfold listLogicalJobs, transaction. cbn zeta. pose proof (rl_limit _ _ Hl) as Hlim.
  cbn [lo_limit with_cursor lo_adapterId lo_managerPrincipal].
  change (filterSha256 sha256 (with_cursor c o)) with (filterSha256 sha256 o).
  change (job_matches (with_cursor c o)) with (job_matches o).
  set (limit := default 50 (lo_limit o)) in *.
  rewrite tx_run_check.
  2: { rewrite (rl_adapter _ _ Hl), (rl_manager _ _ Hl), !andb_true_r. apply andb_true_iff. split; lia. }
  rewrite (tx_run_bind _ _ d c d) by by apply own_cursor_decodes.
  rewrite run_read, run_read.
  change (select (newest_first tj_createdAt) _ (jobs d)) with (behind o c d).
  set (n := Z.to_nat limit). assert (Z.to_nat (limit + 1) = S n) as -> by lia.
  rewrite (tx_run_bind _ _ d _ d (parse_rows o c (S n) d Hl)).
  assert (Hmore : (limit <? Z.of_nat (List.length (take (S n) (behind o c d)))) =
                  (n <? List.length (behind o c d))%nat).
  { rewrite length_take. destruct (Nat.ltb_spec n (List.length (behind o c d))); [apply Z.ltb_lt | apply Z.ltb_ge]; lia. }
  rewrite Hmore. clear Hmore.
  assert (Hpage : (if (n <? List.length (behind o c d))%nat then take n (take (S n) (behind o c d))
                   else take (S n) (behind o c d)) = take n (behind o c d)).
  { destruct (Nat.ltb_spec n (List.length (behind o c d))).
    - rewrite take_take. f_equal. lia.
    - rewrite !take_ge by lia. done. }
  rewrite Hpage. rewrite (tx_run_bind _ _ d _ d (map_rows o c n d Hl)).
  unfold page_of. fold limit n. clear Hpage.
  destruct (n <? List.length (behind o c d))%nat; cbn;
    by destruct (last (take n (behind o c d))) as [[id r]|].
Qed.

(** What is behind the last row of a page is the rest. *)
Lemma behind_rest o l x k d :
  select (newest_first tj_createdAt) (fun _ => job_matches o) (jobs d) = l ++ x :: k ->
  behind o (Some (cursor_of o x)) d = k.
Proof.
  intros H. unfold behind. rewrite (select_filter tj_createdAt (fun _ => job_matches o)), H.
  rewrite <- (filter_after tj_createdAt l x k) at 2.
  - apply filter_ext. intros [id r]. apply after_cursor_order.
  - rewrite <- H. apply select_sorted.
  - intros y Hy Heq. pose proof (select_nodup (order := newest_first tj_createdAt)
      (fun _ => job_matches o) (jobs d)) as Hn. rewrite H in Hn.
    assert (Hyx : y = x).
    { assert (Hin : y ∈ l ++ x :: k) by (rewrite elem_of_app in *; rewrite elem_of_cons; tauto).
      assert (Hix : x ∈ l ++ x :: k) by (rewrite elem_of_app, elem_of_cons; tauto).
      rewrite <- H in Hin, Hix. destruct x as [i r], y as [j s]. cbn in Heq. subst j.
      apply select_spec in Hin as [? _]. apply select_spec in Hix as [? _]. congruence. }
    subst y. apply NoDup_app in Hn as (_ & Hd & [Hx _]%NoDup_cons).
    apply elem_of_app in Hy as [Hy|Hy]; [|done]. apply (Hd x Hy). constructor.
Qed.

Lemma behind_start o d : behind o None d = select (newest_first tj_createdAt) (fun _ => job_matches o) (jobs d).
Proof.
  unfold behind. rewrite (select_filter tj_createdAt (fun _ => job_matches o)).
  induction (select _ _ _) as [|[id r] l IH]; cbn; [done|]. f_equal. exact IH.
Qed.

Lemma follow_behind o c d l fuel : readable_list o d -> own_cursor o c d ->
  select (newest_first tj_createdAt) (fun _ => job_matches o) (jobs d) = l ++ behind o c d ->
  (List.length (behind o c d) < fuel)%nat ->
  follow fuel o c d = Some (behind o c d).
Proof.
  intros Hl. revert c l. induction fuel as [|fuel IH]; intros c l Hc Hs Hf; [lia|].
  cbn [follow]. rewrite list_page by done. cbn [fst page_of lp_nextCursor lp_items].
  set (n := Z.to_nat (default 50 (lo_limit o))) in *. pose proof (rl_limit _ _ Hl) as Hlim.
  set (rest := behind o c d) in *.
  destruct (Nat.ltb_spec n (List.length rest)) as [Hlt|Hge]; [|by rewrite take_ge].
  assert (Hne : exists x k, take n rest = k ++ [x]).
  { destruct (exists_last (l := take n rest)) as (k & x & Hk); [|eauto].
    intros E. apply (f_equal List.length) in E. rewrite length_take in E. cbn in E. lia. }
  destruct Hne as (x & k & Hk). rewrite Hk, last_snoc. cbn [fmap option_fmap option_map].
  assert (Hsplit : rest = (k ++ [x]) ++ drop n rest) by (rewrite <- Hk; symmetry; apply take_drop).
  assert (Hb : behind o (Some (cursor_of o x)) d = drop n rest).
  { apply (behind_rest o (l ++ k)). rewrite Hs, Hsplit at 1. by rewrite <- !app_assoc. }
  rewrite (IH (Some (cursor_of o x)) (l ++ k ++ [x])).
  - cbn. f_equal. by rewrite Hb, <- Hsplit.
  - exists x. split; [done|]. assert (Hin : x ∈ select (newest_first tj_createdAt) (fun _ => job_matches o) (jobs d)).
    { rewrite Hs, Hsplit, !elem_of_app, elem_of_cons. tauto. }
    destruct x as [id r]. by apply select_spec in Hin as [? _].
  - rewrite Hb, Hs, Hsplit at 1. by rewrite <- !app_assoc.
  - rewrite Hb, length_drop. lia.
Qed.

(** C27. Following the cursors from the first page reads every job that passes the filters, newest first
    and each once, in at most one page more than there are jobs. *)
Theorem pages_list_every_job o d fuel :
  readable_list o d -> (size (jobs d) < fuel)%nat ->
  exists items, follow fuel o None d = Some items /\
    StronglySorted (cmp_le (newest_first tj_createdAt)) items /\ NoDup (items.*1) /\
    (forall id r, (id, r) ∈ items <-> jobs d !! id = Some r /\ job_matches o r = true).
Proof.
  intros Hl Hf. exists (behind o None d). rewrite (follow_behind o None d []); [|done|done|by rewrite behind_start|].
  - rewrite behind_start. split_and!; [done|apply select_sorted| |intros id r; exact (select_spec _ (fun _ => job_matches o) _ id r)].
    apply NoDup_fmap_fst; [|apply select_nodup]. intros id r s Hr Hs.
    apply select_spec in Hr as [? _]. apply select_spec in Hs as [? _]. congruence.
  - rewrite behind_start. unfold select. rewrite js_sort_length.
    eapply Nat.le_lt_trans; [|exact Hf]. rewrite <- length_map_to_list. apply filter_length_le.
Qed.

End Pages.
