(* ===== verification/EngineScenario.v ===== *)
(** * The transaction engine on concrete jobs

    Two jobs of an engine: one is approved, signed, submitted and confirmed, then the engine is
    forced to observe.  The theorems about the store and its pages are applied to this history. *)

From S2P Require Import Prelude Text CanonicalJson Principals OperationPlan ChainAnchor TransactionJob WalletRequest EngineTables EngineStore EngineProtocol EngineCorrect EngineListing.

Open Scope string_scope.
Open Scope list_scope.
Open Scope Z_scope.

Module EngineScenario.

Definition isUuid (s : string) : bool := (String.length s =? 36)%nat.
Definition isDatetime (s : string) : bool := (String.length s =? 20)%nat.
Definition sha256 : list Z -> string := Concrete.checksum.

Abbreviation call := (run_call isUuid isDatetime Concrete.validAddress sha256).
Abbreviation step := (calls_step isUuid isDatetime Concrete.validAddress sha256).

(** The calls one after the other, whatever they return. *)
Definition run (l : list EngineCall) (d : EngineDb) : EngineDb := fold_left (fun d c => (call c d).2) l d.

Lemma run_history l d : rtc step d (run l d).
Proof.
  revert d. induction l as [|c l IH]; intros d; [reflexivity|].
  etrans; [apply rtc_once; by exists c | apply IH].
Qed.

(** ** The work *)

Definition key (n : Z) : string := ("0f0e0d0c-0b0a-4908-8706-0504030201" ++ Concrete.hex_byte n)%string.
Definition at_ (n : Z) : string := ("2026-03-01T00:00:" ++ Concrete.hex_byte n ++ "Z")%string.
Definition manager : string := "SPM.manager".

Definition anchor : Anchor.ChainAnchor :=
  {| Anchor.stacksBlockHeight := 500; Anchor.indexBlockHash := "0x" ++ Concrete.checksum [1];
     Anchor.burnBlockHeight := 2060; Anchor.rewardCycle := 20; Anchor.rewardCycleLength := 100;
     Anchor.prepareCycleLength := 10; Anchor.cyclePosition := 60; Anchor.phase := Anchor.phase_reward;
     Anchor.checkpoint := Anchor.second_half |}.

Definition accepted : AttestationIdentity :=
  {| ai_issuer := "labs"; ai_revision := 1; ai_payloadSha256 := Concrete.checksum [9] |}.

Definition intent (n : Z) : Json := JObj [("kind", JStr "claim"); ("number", JNum n)].
Definition policy : Json := JObj [("maximumFeeUstx", JStr "2500")].

Definition prepared (n : Z) (adapter : string) : CreateLogicalJobInput :=
  {| cj_jobId := key n; cj_idempotencyKey := ("work-" ++ Concrete.hex_byte n)%string;
     cj_operationScopeKey := None; cj_adapterId := adapter; cj_adapterRevision := 2;
     cj_managerPrincipal := manager; cj_intent := intent n; cj_intentSha256 := documentSha256 sha256 (intent n);
     cj_policy := policy; cj_policySha256 := documentSha256 sha256 policy; cj_chainAnchor := anchor;
     cj_attestation := accepted; cj_createdAt := at_ n |}.

Definition move (n : Z) (from : Job.TransactionJobState) (version : Z) (to : Job.TransactionJobState) (t : Z) : EngineCall :=
  call_transition
    {| ti_jobId := key n; ti_expectedState := from; ti_expectedStateVersion := version; ti_nextState := to;
       ti_changedAt := at_ t; ti_blockReason := None; ti_supersessionReason := None; ti_supersededByJobId := None |}.

(** Two jobs of two adapters, both awaiting approval. *)
Definition empty_tables : EngineDb :=
  {| jobs := ∅; nonces := ∅; attempts := ∅; approvals := ∅; evidence := ∅; forced := None; disabled := ∅;
     attestations := {[ai_issuer accepted := (ai_revision accepted, ai_payloadSha256 accepted)]} |}.

Definition proposed : EngineDb := Eval vm_compute in run
  [call_create (prepared 1 "claims"); move 1 Job.prepared 0 Job.preflighted 2;
   move 1 Job.preflighted 1 Job.awaiting_approval 3;
   call_create (prepared 4 "claims"); move 4 Job.prepared 0 Job.preflighted 5;
   move 4 Job.preflighted 1 Job.awaiting_approval 6] empty_tables.

(** An earlier release of the program wrote approvals; no call of this store does. *)
Definition approval (n : Z) : ApprovalRow :=
  {| pr_binding := {| pb_jobId := key n; pb_intentSha256 := documentSha256 sha256 (intent n);
                      pb_policySha256 := documentSha256 sha256 policy; pb_approvalSha256 := Concrete.checksum [n];
                      pb_approval := JNull; pb_actor := "operator"; pb_createdAt := at_ 7; pb_expiresAt := at_ 64 |};
     pr_invalidated := None; pr_approvalVersion := 0 |}.

Definition approved : EngineDb :=
  Eval vm_compute in with_approvals {[key 17 := approval 1; key 20 := approval 4]} proposed.

Definition txid (n : Z) : string := ("0x" ++ Concrete.checksum [n])%string.

Definition signed (n t : Z) : CommitInput :=
  {| co_attemptId := key (32 + n); co_reservationId := key (48 + n); co_jobId := key n;
     co_expectedJobStateVersion := 2; co_approvalId := key (16 + n); co_expectedApprovalVersion := 0;
     co_expectedApprovalSha256 := Concrete.checksum [n]; co_gasPayerPrincipal := "SPW"; co_nonce := "7";
     co_observedAccountNonce := "7"; co_feeUstx := "300"; co_feePolicyRevision := 1;
     co_signedTransactionRef := "vault"; co_precomputedTxid := txid n; co_committedAt := at_ t |}.

Definition inclusion : Inclusion :=
  {| in_txid := txid 1; in_executionStatus := ex_success; in_stacksBlockHeight := 510;
     in_blockHash := txid 80; in_indexBlockHash := txid 81; in_canonical := true; in_observedAt := at_ 19 |}.

Definition tried (from : TransactionAttemptState) (version : Z) (to : TransactionAttemptState) (t : Z)
    (result : option Json) (n : option Inclusion) : EngineCall :=
  call_attempt
    {| at_attemptId := key 33; at_expectedState := from; at_expectedStateVersion := version; at_nextState := to;
       at_changedAt := at_ t; at_submissionResult := result; at_inclusion := n |}.

(** The first job is signed and confirmed; of the second nothing is signed, its gas payer is busy. *)
Definition signing_calls : list EngineCall := [call_commit (signed 1 16); call_commit (signed 4 17)].
Definition confirming_calls : list EngineCall :=
  [move 1 Job.nonce_reserved 3 Job.broadcast 18; tried as_signed 0 as_submitted 18 (Some (JBool true)) None;
   tried as_submitted 1 as_confirmed 19 None (Some inclusion); move 1 Job.broadcast 4 Job.confirmed 19].
Definition committed : EngineDb := Eval vm_compute in run signing_calls approved.
Definition confirmed : EngineDb := Eval vm_compute in run confirming_calls committed.

(** The engine is forced to observe, and the second job is tried again. *)
Definition control : Control := {| ct_reason := "incident"; ct_actor := "operator"; ct_at := at_ 20 |}.
Definition later_calls : list EngineCall :=
  [call_nonce {| ni_reservationId := key 49; ni_expectedState := ns_reserved; ni_expectedStateVersion := 0;
                 ni_nextState := ns_resolved; ni_foreignActivity := false; ni_changedAt := at_ 21 |};
   call_commit (signed 4 22); call_disable "claims" control].
Definition halted : EngineDb := Eval vm_compute in (call (call_force control) confirmed).2.
Definition later : EngineDb := Eval vm_compute in run later_calls halted.

Lemma committed_run : run signing_calls approved = committed.
Proof. vm_compute. reflexivity. Qed.
Lemma confirmed_run : run confirming_calls committed = confirmed.
Proof. vm_compute. reflexivity. Qed.
Lemma halted_call : call (call_force control) confirmed = (None, halted).
Proof. vm_compute. reflexivity. Qed.
Lemma later_run : run later_calls halted = later.
Proof. vm_compute. reflexivity. Qed.

Lemma to_committed : rtc step approved committed.
Proof. rewrite <- committed_run. apply run_history. Qed.
Lemma to_confirmed : rtc step committed confirmed.
Proof. rewrite <- confirmed_run. apply run_history. Qed.
Lemma to_halted : rtc step confirmed halted.
Proof. apply rtc_once. exists (call_force control). by rewrite halted_call. Qed.
Lemma to_later : rtc step halted later.
Proof. rewrite <- later_run. apply run_history. Qed.

(** What happened: one attempt, confirmed; no approval is active; both controls are set. *)
Definition seen (d : EngineDb) : list Job.TransactionJobState * list TransactionAttemptState * list bool * bool * nat :=
  (map (fun x => tj_state x.2) (map_to_list (jobs d)), map (fun x => ta_state x.2) (map_to_list (attempts d)),
   map (fun x => is_null (pr_invalidated x.2)) (map_to_list (approvals d)), is_null (forced d), size (disabled d)).

Lemma approved_seen : seen approved = ([Job.awaiting_approval; Job.awaiting_approval], [], [true; true], true, 0%nat).
Proof. vm_compute. reflexivity. Qed.
Lemma confirmed_seen :
  seen confirmed = ([Job.confirmed; Job.awaiting_approval], [as_confirmed], [false; true], true, 0%nat).
Proof. vm_compute. reflexivity. Qed.
Lemma later_seen :
  seen later = ([Job.confirmed; Job.awaiting_approval], [as_confirmed], [false; false], false, 1%nat).
Proof. vm_compute. reflexivity. Qed.

(** ** The theorems applied *)

(** Tables on which nothing was signed and no control is set. *)
Lemma unsigned_sound d :
  schema_ok d -> attempts d = ∅ -> forced d = None -> disabled d = ∅ ->
  map_Forall (fun _ r => tj_state r ∉ signing_states) (jobs d) -> engine_sound d.
Proof.
  intros Hs Ha Hf Hd Hj. split; [done| |by rewrite Ha..|].
  - intros a id p j Hc. unfold authorityControlReason in Hc. by rewrite Hf, Hd in Hc.
  - intros id r Hr Hin. by destruct (Hj id r Hr).
Qed.

Lemma approved_sound : engine_sound approved.
Proof.
  apply unsigned_sound; [apply (bool_decide_unpack _)|..|apply (bool_decide_unpack _)]; vm_compute; done.
Qed.

Lemma history_to_later : rtc step approved later.
Proof. etrans; [apply to_committed|]. etrans; [apply to_confirmed|]. etrans; [apply to_halted|apply to_later]. Qed.

Lemma confirmed_sound : engine_sound confirmed.
Proof.
  refine (proj1 (history_keeps isUuid isDatetime Concrete.validAddress sha256 (fun _ => True) _ _ approved_sound I _ _)); [|done].
  etrans; [apply to_committed|apply to_confirmed].
Qed.

Lemma engine_stays_sound_witness : engine_sound approved /\ engine_sound later.
Proof.
  split; [exact approved_sound|].
  exact (engine_stays_sound isUuid isDatetime Concrete.validAddress sha256 approved later approved_sound history_to_later).
Defined.

Lemma engine_records_are_kept_witness : engine_extends approved later /\ attempts later <> ∅.
Proof.
  split; [|vm_compute; discriminate].
  exact (engine_records_are_kept isUuid isDatetime Concrete.validAddress sha256 approved later history_to_later).
Defined.

Lemma withdrawn_authority_is_final_witness :
  forced halted = Some control /\
  (forall id p j, approvals later !! id = Some p -> jobs later !! pb_jobId (pr_binding p) = Some j ->
     jb_adapterId (tj_binding j) = "claims" -> is_Some (pr_invalidated p)).
Proof.
  split; [vm_compute; reflexivity|].
  exact (proj1 (proj2 (withdrawn_authority_is_final isUuid isDatetime Concrete.validAddress sha256 "claims"
    (call_force control) confirmed halted later confirmed_sound (withdraws_all _ control) halted_call
    to_later))).
Defined.

(** The attempt of the first job as it was signed. *)
Definition attempt : AttemptRow := new_attempt (signed 1 16) (key 49).

Lemma committed_attempt : attempts committed !! key 33 = Some attempt.
Proof. vm_compute. reflexivity. Qed.

Lemma committed_sound : engine_sound committed.
Proof.
  refine (proj1 (history_keeps isUuid isDatetime Concrete.validAddress sha256 (fun _ => True) _ _ approved_sound I _ _)); [|done].
  apply to_committed.
Qed.

Lemma committed_once_witness :
  (call (call_commit (signed 1 23)) confirmed).2 = confirmed /\ attempts confirmed !! key 33 <> Some attempt.
Proof.
  split; [|vm_compute; discriminate].
  exact (proj1 (committed_once isUuid isDatetime Concrete.validAddress sha256 committed confirmed (key 33) attempt
    (signed 1 23) committed_sound committed_attempt to_confirmed eq_refl)).
Defined.

(** One job to a page. *)
Definition options : LogicalJobListOptions :=
  {| lo_limit := Some 1; lo_cursor := None; lo_adapterId := Some "claims"; lo_managerPrincipal := None;
     lo_states := [] |}.

Lemma readable_jobs : readable_list isUuid isDatetime Concrete.validAddress sha256 options later.
Proof.
  split; [cbn; lia|vm_compute; reflexivity..|]. apply (bool_decide_unpack _). vm_compute. done.
Qed.

Lemma pages_list_every_job_witness :
  size (jobs later) = 2%nat /\
  exists items, follow isUuid isDatetime Concrete.validAddress sha256 3 options None later = Some items /\
    NoDup (items.*1).
Proof.
  split; [vm_compute; reflexivity|].
  assert (Hs : (size (jobs later) < 3)%nat) by (vm_compute; lia).
  destruct (pages_list_every_job isUuid isDatetime Concrete.validAddress sha256 options later 3 readable_jobs Hs)
    as (items & Hf & _ & Hn & _).
  exists items. by split.
Defined.

End EngineScenario.
