(* ===== verification/ClaimDocuments.v ===== *)
(** * The documents of legacy manager claims

    The schemas apps/sidekick/src/transaction-engine/manager-claim-observer.ts and
    manager-claim-observation-service.ts read a stored job's intent, policy and sealed plan with,
    and packages/api-contracts/src/engine.ts for the review material inside the intent.  A schema
    is a reader of parsed JSON: [None] is the thrown [ZodError]. *)

From S2P Require Import Prelude Text CanonicalJson Principals OperationPlan ChainAnchor Broadcast WalletRequest EngineTables EngineStore.

Open Scope string_scope.
Open Scope list_scope.
Open Scope Z_scope.

(** ** Readers *)

Definition strict (names : list string) (v : Json) : option (list Json) :=
  match v with
  | JObj entries =>
      if forallb (fun '(k, _) => existsb (String.eqb k) names) entries
      then mapM (fun name => field name entries) names else None
  | _ => None
  end.

(** An object that may have other keys: [passthrough]. *)
Definition loose (names : list string) (v : Json) : option (list Json) :=
  match v with JObj entries => mapM (fun name => field name entries) names | _ => None end.

Definition text (p : string -> bool) (v : Json) : option string :=
  match v with JStr s => if p s then Some s else None | _ => None end.
Definition number (p : Z -> bool) (v : Json) : option Z :=
  match v with JNum n => if p n then Some n else None | _ => None end.
Definition one_of (l : list string) : Json -> option string := text (fun s => existsb (String.eqb s) l).
Definition literal_number (n : Z) : Json -> option Z := number (fun m => m =? n).
Definition boolean (v : Json) : option bool := match v with JBool b => Some b | _ => None end.
Definition array {A} (f : Json -> option A) (v : Json) : option (list A) :=
  match v with JArr l => mapM f l | _ => None end.

(** [/^[0-9a-f]{64}$/i], lower-cased. *)
Definition digest_text (v : Json) : option string :=
  toLowerCase <$> text (fun s => hash64 (toLowerCase s)) v.

Definition isText (lo hi : nat) : Json -> option string := text (length_between lo hi).

(** ** The review material *)

(** The fee of the review, all that is used of it. *)
Record ReviewFee := { rf_estimatedFeeUstx : string; rf_maximumFeeUstx : string }.

Definition engineAdapterIdentitySchema (v : Json) : option unit :=
  l ← strict ["id"; "revision"] v;
  match l with
  | [id; revision] => _ ← isText 1 500 id; _ ← number Anchor.positiveInt revision; Some tt
  | _ => None
  end.

Definition callArgument (v : Json) : option unit :=
  l ← strict ["name"; "clarityValue"; "displayValue"] v;
  match l with
  | [name; clarity; display] =>
      _ ← isText 1 500 name; _ ← isText 1 10000 clarity; _ ← isText 1 10000 display; Some tt
  | _ => None
  end.

Definition engineCallSchema (v : Json) : option unit :=
  l ← strict ["contract"; "functionName"; "arguments"] v;
  match l with
  | [contract; name; args] => _ ← isText 1 500 contract; _ ← isText 1 500 name; _ ← array callArgument args; Some tt
  | _ => None
  end.

Definition phaseOf (s : string) : Anchor.Phase :=
  if String.eqb s "reward" then Anchor.phase_reward else Anchor.phase_prepare.
Definition checkpointOf (s : string) : Anchor.Checkpoint :=
  if String.eqb s "first-half" then Anchor.first_half else Anchor.second_half.

(** [engineChainAnchorSchema]: the block hash in lower case only. *)
Definition engineChainAnchorSchema (v : Json) : option unit :=
  l ← strict ["stacksBlockHeight"; "indexBlockHash"; "burnBlockHeight"; "rewardCycle"; "rewardCycleLength";
              "prepareCycleLength"; "cyclePosition"; "phase"; "checkpoint"] v;
  match l with
  | [height; hash; burn; cycle; len; prepare; position; phase; checkpoint] =>
      height ← number Anchor.nonnegativeInt height; hash ← text txid_ok hash;
      burn ← number Anchor.nonnegativeInt burn; cycle ← number Anchor.nonnegativeInt cycle;
      len ← number Anchor.positiveInt len; prepare ← number Anchor.nonnegativeInt prepare;
      position ← number Anchor.nonnegativeInt position; phase ← one_of ["reward"; "prepare"] phase;
      checkpoint ← one_of ["first-half"; "second-half"] checkpoint;
      if bool_decide (Anchor.anchorIssues
           {| Anchor.stacksBlockHeight := height; Anchor.indexBlockHash := hash; Anchor.burnBlockHeight := burn;
              Anchor.rewardCycle := cycle; Anchor.rewardCycleLength := len; Anchor.prepareCycleLength := prepare;
              Anchor.cyclePosition := position; Anchor.phase := phaseOf phase;
              Anchor.checkpoint := checkpointOf checkpoint |} = [])
      then Some tt else None
  | _ => None
  end.

Definition engineCheckpointSchema (v : Json) : option unit :=
  l ← strict ["rewardCycle"; "calculationCheckpoint"; "lastRewardComputeHeight"; "rewardsPerToken"] v;
  match l with
  | [cycle; checkpoint; height; perToken] =>
      _ ← number Anchor.nonnegativeInt cycle; _ ← one_of ["first-half"; "second-half"] checkpoint;
      _ ← number Anchor.nonnegativeInt height; _ ← text uintText perToken; Some tt
  | _ => None
  end.

Definition recipientSchema (v : Json) : option unit :=
  l ← strict ["kind"; "principal"] v;
  match l with
  | [kind; p] => _ ← one_of ["manager"; "principal"; "contract"] kind; _ ← isText 1 500 p; Some tt
  | _ => None
  end.

Definition assetSchema (v : Json) : option unit :=
  l ← strict ["assetId"; "symbol"; "maximumOutflow"; "unit"] v;
  match l with
  | [id; symbol; outflow; unit_] =>
      _ ← isText 1 500 id; _ ← isText 1 32 symbol; _ ← text uintText outflow; _ ← isText 1 32 unit_; Some tt
  | _ => None
  end.

Definition engineExpectedEffectSchema (v : Json) : option unit :=
  l ← strict ["recipient"; "asset"; "postconditions"; "reconciliationPredicate"] v;
  match l with
  | [recipient; asset; conditions; predicate] =>
      _ ← recipientSchema recipient; _ ← assetSchema asset; conditions ← array (isText 1 10000) conditions;
      _ ← isText 1 10000 predicate; if bool_decide (conditions = []) then None else Some tt
  | _ => None
  end.

Definition feeSnapshotReview (v : Json) : option unit :=
  l ← strict ["state"; "feeBips"; "source"] v;
  match l with
  | [state; bips; source] =>
      _ ← one_of ["missing"; "present"] state;
      _ ← match bips with JNull => Some 0 | _ => number Anchor.nonnegativeInt bips end;
      _ ← isText 1 500 source; Some tt
  | _ => None
  end.

Definition engineFeeReviewSchema (v : Json) : option ReviewFee :=
  l ← strict ["snapshot"; "estimatedFeeUstx"; "maximumFeeUstx"; "policyRevision"] v;
  match l with
  | [snapshot; estimated; maximum; revision] =>
      _ ← feeSnapshotReview snapshot; estimated ← text uintText estimated; maximum ← text uintText maximum;
      _ ← number Anchor.positiveInt revision;
      Some {| rf_estimatedFeeUstx := estimated; rf_maximumFeeUstx := maximum |}
  | _ => None
  end.

(** [managerClaimReviewMaterialSchema]: the review without its hashes. *)
Definition managerClaimReviewMaterialSchema (v : Json) : option ReviewFee :=
  l ← strict ["adapter"; "network"; "managerPrincipal"; "call"; "anchor"; "checkpoint"; "expectedEffect"; "fee";
              "expectedPostState"] v;
  match l with
  | [adapter; network; manager; call; anchor; checkpoint; effect; fee; post] =>
      _ ← engineAdapterIdentitySchema adapter; _ ← isText 1 100 network; _ ← isText 1 500 manager;
      _ ← engineCallSchema call; _ ← engineChainAnchorSchema anchor; _ ← engineCheckpointSchema checkpoint;
      _ ← engineExpectedEffectSchema effect; fee ← engineFeeReviewSchema fee; _ ← isText 1 10000 post; Some fee
  | _ => None
  end.

(** ** The intent *)

Record ClaimFee := { cf_present : bool; cf_effectiveFeeBips : string }.

(** [ManagerClaimReconciliationPredicate] *)
Record ClaimPredicate := {
  pc_managerContract : string;
  pc_rewardCycle : string;
  pc_calculationCheckpoint : string;
  pc_lastRewardComputeBurnHeight : Z;
  pc_rewardsPerToken : string;
  pc_bondBucketsSha256 : string;
  pc_effectiveFeeBips : string;
  pc_asset : string;
  pc_sender : string;
  pc_recipient : string;
  pc_amountSats : string;
}.

Record ClaimProfile := {
  pf_id : string;
  pf_recognitionTier : string;
  pf_expectedSourceSha256 : string;
  pf_observedSourceSha256 : string;
}.

(** [ManagerClaimIntentRecord], with what is used of its review. *)
Record ClaimIntent := {
  cn_operationScopeKey : string;
  cn_profile : ClaimProfile;
  cn_attestation : AttestationIdentity;
  cn_fee : ReviewFee;
  cn_sealedPlan : Json;
  cn_reconciliation : ClaimPredicate;
}.

Definition recognitionTiers : list string :=
  ["reference-built-in"; "reference-render"; "custom-observe"; "unrecognized"].

(** [/^[1-9]\d*$/] *)
Definition positiveText (s : string) : bool := uintText s && negb (String.eqb s "0").

Section ClaimDocuments.

Context (validateStacksAddress : string -> bool).

(** [contractPrincipalSchema] and [standardPrincipalSchema] of the observer. *)
Definition contract_text (s : string) : bool := includes_dot s && principal validateStacksAddress s.
Definition standard_text (s : string) : bool := negb (includes_dot s) && principal validateStacksAddress s.

Definition checkpointPredicate (v : Json) : option (string * Z * string) :=
  l ← strict ["calculationCheckpoint"; "lastRewardComputeBurnHeight"; "rewardsPerToken"] v;
  match l with
  | [checkpoint; height; perToken] =>
      checkpoint ← one_of ["first-half"; "second-half"] checkpoint;
      height ← number Anchor.positiveInt height; perToken ← text uintText perToken;
      Some (checkpoint, height, perToken)
  | _ => None
  end.

Definition presentFee (v : Json) : option string :=
  l ← strict ["state"; "effectiveFeeBips"] v;
  match l with
  | [state; bips] => _ ← one_of ["present"] state; text uintText bips
  | _ => None
  end.

Definition effectPredicate (v : Json) : option (string * string * string * string) :=
  l ← strict ["asset"; "sender"; "recipient"; "amountSats"] v;
  match l with
  | [asset; sender; recipient; amount] =>
      asset ← text nonempty asset; sender ← text contract_text sender; recipient ← text contract_text recipient;
      amount ← text positiveText amount; Some (asset, sender, recipient, amount)
  | _ => None
  end.

(** [storedPredicateSchema] *)
Definition storedPredicateSchema (v : Json) : option ClaimPredicate :=
  l ← strict ["schemaVersion"; "kind"; "managerContract"; "rewardCycle"; "rewardCheckpoint"; "bondBucketsSha256";
              "expectedFeeSnapshot"; "expectedEffect"] v;
  match l with
  | [version; kind; manager; cycle; checkpoint; buckets; fee; effect] =>
      _ ← literal_number 1 version; _ ← one_of ["reference-manager-claim-rewards"] kind;
      manager ← text contract_text manager; cycle ← text uintText cycle;
      c ← checkpointPredicate checkpoint; buckets ← digest_text buckets; fee ← presentFee fee;
      e ← effectPredicate effect;
      let '(checkpoint, height, perToken) := c in
      let '(asset, sender, recipient, amount) := e in
      Some {| pc_managerContract := manager; pc_rewardCycle := cycle; pc_calculationCheckpoint := checkpoint;
              pc_lastRewardComputeBurnHeight := height; pc_rewardsPerToken := perToken;
              pc_bondBucketsSha256 := buckets; pc_effectiveFeeBips := fee; pc_asset := asset;
              pc_sender := sender; pc_recipient := recipient; pc_amountSats := amount |}
  | _ => None
  end.

Definition profileSchema (v : Json) : option ClaimProfile :=
  l ← strict ["id"; "recognitionTier"; "expectedSourceSha256"; "observedSourceSha256"] v;
  match l with
  | [id; tier; expected; observed] =>
      id ← text issuer id; tier ← one_of recognitionTiers tier;
      expected ← digest_text expected; observed ← digest_text observed;
      Some {| pf_id := id; pf_recognitionTier := tier; pf_expectedSourceSha256 := expected;
              pf_observedSourceSha256 := observed |}
  | _ => None
  end.

Definition attestationSchema (v : Json) : option AttestationIdentity :=
  l ← strict ["issuer"; "revision"; "payloadSha256"] v;
  match l with
  | [name; revision; payload] =>
      name ← text issuer name; revision ← number Anchor.positiveInt revision; payload ← digest_text payload;
      Some {| ai_issuer := name; ai_revision := revision; ai_payloadSha256 := payload |}
  | _ => None
  end.

(** [storedIntentSchema]; [sealedPlan] is unknown and may be missing. *)
Definition parseManagerClaimIntentRecord (v : Json) : option ClaimIntent :=
  let plan := match v with JObj entries => default JNull (field "sealedPlan" entries) | _ => JNull end in
  let rest := match v with
              | JObj entries => JObj (List.filter (fun '(k, _) => negb (String.eqb k "sealedPlan")) entries)
              | v => v end in
  l ← strict ["schemaVersion"; "kind"; "operationScopeKey"; "managerProfile"; "acceptedAttestation"; "review";
              "reconciliation"] rest;
  match l with
  | [version; kind; scope; profile; attestation; review; predicate] =>
      _ ← literal_number 1 version; _ ← one_of ["reference-manager-claim-rewards"] kind;
      scope ← text nonempty scope; profile ← profileSchema profile;
      attestation ← attestationSchema attestation; fee ← managerClaimReviewMaterialSchema review;
      predicate ← storedPredicateSchema predicate;
      Some {| cn_operationScopeKey := scope; cn_profile := profile; cn_attestation := attestation;
              cn_fee := fee; cn_sealedPlan := plan; cn_reconciliation := predicate |}
  | _ => None
  end.

End ClaimDocuments.

(** The predicate as a document again, as it is hashed and stored. *)
Definition predicate_json (p : ClaimPredicate) : Json :=
  JObj [("schemaVersion", JNum 1); ("kind", JStr "reference-manager-claim-rewards");
    ("managerContract", JStr (pc_managerContract p)); ("rewardCycle", JStr (pc_rewardCycle p));
    ("rewardCheckpoint", JObj [("calculationCheckpoint", JStr (pc_calculationCheckpoint p));
       ("lastRewardComputeBurnHeight", JNum (pc_lastRewardComputeBurnHeight p));
       ("rewardsPerToken", JStr (pc_rewardsPerToken p))]);
    ("bondBucketsSha256", JStr (pc_bondBucketsSha256 p));
    ("expectedFeeSnapshot", JObj [("state", JStr "present"); ("effectiveFeeBips", JStr (pc_effectiveFeeBips p))]);
    ("expectedEffect", JObj [("asset", JStr (pc_asset p)); ("sender", JStr (pc_sender p));
       ("recipient", JStr (pc_recipient p)); ("amountSats", JStr (pc_amountSats p))])].

(** ** The policy *)

(** [storedPolicySchema]: the authority flags follow the sealed mode. *)
Definition parseManagerClaimPolicyRecord (v : Json) : option unit :=
  l ← strict ["schemaVersion"; "kind"; "mode"; "adapterEnabled"; "rewardsPaused"; "maximumFeeUstx";
              "estimatedFeeUstx"; "approvalRequired"; "nonceReservationAllowed"; "signingAllowed";
              "broadcastAllowed"] v;
  match l with
  | [version; kind; mode; enabled; paused; maximum; estimated; approval; nonce; signing; sending] =>
      _ ← literal_number 1 version; _ ← one_of ["reference-manager-claim-rewards-policy"] kind;
      mode ← one_of ["observe"; "assist"] mode; _ ← boolean enabled; _ ← boolean paused;
      _ ← text uintText maximum; _ ← text uintText estimated;
      flags ← mapM boolean [approval; nonce; signing; sending];
      if forallb (Bool.eqb (String.eqb mode "assist")) flags then Some tt else None
  | _ => None
  end.

(** ** The sealed plan *)

Record SealedBucket := {
  sb_bondIndex : string;
  sb_managerSharesSats : string;
  sb_earnedSats : string;
  sb_fee : ClaimFee;
}.

(** What the observation reads of the sealed plan. *)
Record SealedPlan := {
  sl_principal : string;
  sl_publicKey : string;
  sl_nonce : string;
  sl_stxEarnedSats : string;
  sl_bondBuckets : list SealedBucket;
}.

Definition sealedFee (v : Json) : option ClaimFee :=
  l ← strict ["state"; "effectiveFeeBips"] v;
  match l with
  | [state; bips] =>
      state ← one_of ["absent"; "present"] state; bips ← text uintText bips;
      Some {| cf_present := String.eqb state "present"; cf_effectiveFeeBips := bips |}
  | _ => None
  end.

Definition sealedBucket (v : Json) : option SealedBucket :=
  l ← loose ["bondIndex"; "managerSharesSats"; "earnedSats"; "feeSnapshot"] v;
  match l with
  | [index; shares; earned; fee] =>
      index ← text uintText index; shares ← text uintText shares; earned ← text uintText earned;
      fee ← sealedFee fee;
      Some {| sb_bondIndex := index; sb_managerSharesSats := shares; sb_earnedSats := earned; sb_fee := fee |}
  | _ => None
  end.

Definition planMaterial (v : Json) : option SealedPlan :=
  l ← loose ["sender"; "transaction"; "stxEarnedSats"; "bondBuckets"] v;
  match l with
  | [sender; transaction; earned; buckets] =>
      s ← strict ["principal"; "publicKey"] sender; t ← loose ["nonce"] transaction;
      match s, t with
      | [p; key], [nonce] =>
          p ← text nonempty p; key ← text nonempty key; nonce ← text uintText nonce;
          earned ← text uintText earned; buckets ← array sealedBucket buckets;
          Some {| sl_principal := p; sl_publicKey := key; sl_nonce := nonce; sl_stxEarnedSats := earned;
                  sl_bondBuckets := buckets |}
      | _, _ => None
      end
  | _ => None
  end.

(** [storedPlanExecutionSchema] *)
Definition storedPlanExecutionSchema (v : Json) : option SealedPlan :=
  l ← loose ["material"] v;
  match l with [material] => planMaterial material | _ => None end.
