(* ===== verification/ManagerClaim.v ===== *)
(** * The observation of legacy manager claims

    apps/sidekick/src/transaction-engine/manager-claim-observer.ts
    ([ObserveManagerClaimPlanner]) and manager-claim-observation-service.ts
    ([ManagerClaimObservationService]): from one anchored view of the rewards, a stored claim whose
    effect is complete is blocked, confirmed or reconciled; no new work is made.  The planner runs
    without interruption over the store of [EngineStore], each of its calls a transaction of its
    own; the service awaits the API's proofs before it calls the planner, and other calls of the
    store may happen meanwhile. *)

From S2P Require Import Prelude Text CanonicalJson Bonds ChainAnchor TransactionJob Principals OperationPlan SweepPlan Recipe WalletRequest WalletFacts EngineTables EngineStore ClaimDocuments.

Open Scope string_scope.
Open Scope list_scope.
Open Scope Z_scope.

(** ** Errors and results *)

(** A throw of the store, a [ZodError], or a [ManagerClaimObserveError]. *)
Inductive ClaimError :=
  | claim_store (e : EngineError)
  | claim_schema | no_durable_job | legacy_read_only.

(** The outcome of [ManagerClaimObserveResult] that the service uses. *)
Inductive PlannerStatus := pl_planned | pl_blocked | pl_reconciled.

Record PlannerResult := {
  ps_status : PlannerStatus;
  ps_job : string * JobRow;
}.

(** Several transactions after each other: what was committed stays when a later one throws. *)
Definition claim_m (A : Type) : Type := EngineDb -> result ClaimError A * EngineDb.

#[global] Instance claim_ret : MRet claim_m := fun A a d => (Ok a, d).
#[global] Instance claim_bind : MBind claim_m := fun A B k m d =>
  match m d with (Ok a, d') => k a d' | (Err e, d') => (Err e, d') end.

Definition throw_claim {A} (e : ClaimError) : claim_m A := fun d => (Err e, d).
Definition check_claim (b : bool) (e : ClaimError) : claim_m unit := if b then mret tt else throw_claim e.
Definition some_claim {A} (o : option A) : claim_m A :=
  match o with Some a => mret a | None => throw_claim claim_schema end.

(** A call of the repository. *)
Definition store {A} (op : engine_op A) : claim_m A := fun d =>
  let '(r, d') := op d in
  (match r with Ok a => Ok a | Err e => Err (claim_store e) end, d').

(** After what other calls made of the tables. *)
Definition later {A} (f : EngineDb -> EngineDb) (m : claim_m A) : claim_m A := fun d => m (f d).

(** ** The facts of one observation *)

Record ClaimGasPayer := {
  gp_principal : string;
  gp_publicKey : string;
  gp_observedNonce : Z;
  gp_estimatedFeeUstx : Z;
  gp_maximumFeeUstx : Z;
}.

(** [ManagerClaimObserveFacts]; [of_completion] is the evidence of an effect that is complete, and
    [None] means the effect remains.  The constants of the service ([schemaVersion], [controls] and
    the flags of [authoritative]) are left out. *)
Record ObserveFacts := {
  of_observedAt : string;
  of_kind : Network;
  of_chainId : Z;
  of_contract : string;
  of_profileId : string;
  of_recognitionTier : string;
  of_sourceSha256 : string;
  of_observedSourceSha256 : string;
  of_chainAnchor : Anchor.ChainAnchor;
  of_attestation : AttestationIdentity;
  of_pox5 : string;
  of_sbtcToken : string;
  of_rewardCycle : Z;
  of_checkpoint : Anchor.Checkpoint;
  of_lastRewardComputeBurnHeight : Z;
  of_rewardsPerToken : Z;
  of_stxEarnedSats : Z;
  of_bondBuckets : list ManagerClaimBondBucket;
  of_observedSignerEarnedSats : Z;
  of_feeSnapshot : FeeSnapshot;
  of_expectedSignerOutflowSats : Z;
  of_gasPayer : ClaimGasPayer;
  of_completion : option string;
  of_finalityDepth : Z;
}.

Definition MANAGER_CLAIM_REWARDS_ADAPTER_ID : string := "reference-manager-claim-rewards".
Definition MANAGER_CLAIM_REWARDS_ADAPTER_REVISION : Z := 2.

Definition feeBips (f : FeeSnapshot) : bool :=
  (0 <=? fs_effectiveFeeBips f) && (fs_effectiveFeeBips f <=? 9999).

Definition bucketSchema (b : ManagerClaimBondBucket) : bool :=
  (0 <=? mb_bondIndex b) && (0 <=? mb_managerSharesSats b) && (0 <=? mb_earnedSats b) && feeBips (mb_feeSnapshot b).

(** [/^(02|03)[0-9a-f]{64}$/i] *)
Definition publicKeyText (s : string) : bool :=
  let t := toLowerCase s in
  bool_decide (String.length t = 66%nat) && (startsWith t "02" || startsWith t "03") &&
  forallb is_lower_hex (chars t).

Definition bucketTotal (v : ObserveFacts) : Z :=
  of_stxEarnedSats v + foldr (fun b n => mb_earnedSats b + n) 0 (of_bondBuckets v).

Definition digest_ok (s : string) : bool := hash64 (toLowerCase s).

Section ManagerClaim.

Context (isUuid isDatetime validateStacksAddress : string -> bool) (sha256 : list Z -> string).

(** The shape of the facts. *)
Definition observeShape (v : ObserveFacts) : bool :=
  isDatetime (of_observedAt v) && uint32 (of_chainId v) &&
  contract_text validateStacksAddress (of_contract v) && issuer (of_profileId v) &&
  existsb (String.eqb (of_recognitionTier v)) recognitionTiers && digest_ok (of_sourceSha256 v) &&
  digest_ok (of_observedSourceSha256 v) && anchor_ok (of_chainAnchor v) &&
  issuer (ai_issuer (of_attestation v)) && Anchor.positiveInt (ai_revision (of_attestation v)) &&
  digest_ok (ai_payloadSha256 (of_attestation v)) && contract_text validateStacksAddress (of_pox5 v) &&
  contract_text validateStacksAddress (of_sbtcToken v) && (0 <=? of_rewardCycle v) &&
  Anchor.positiveInt (of_lastRewardComputeBurnHeight v) && (0 <=? of_rewardsPerToken v) &&
  (0 <=? of_stxEarnedSats v) && forallb bucketSchema (of_bondBuckets v) &&
  (List.length (of_bondBuckets v) <=? MAX_BOND_PERIODS_PER_CYCLE)%nat &&
  (0 <=? of_observedSignerEarnedSats v) && feeBips (of_feeSnapshot v) && (0 <? of_expectedSignerOutflowSats v) &&
  standard_text validateStacksAddress (gp_principal (of_gasPayer v)) &&
  publicKeyText (gp_publicKey (of_gasPayer v)) && (0 <=? gp_observedNonce (of_gasPayer v)) &&
  (0 <? gp_estimatedFeeUstx (of_gasPayer v)) && (0 <? gp_maximumFeeUstx (of_gasPayer v)) &&
  match of_completion v with Some e => digest_ok e | None => true end &&
  Anchor.nonnegativeInt (of_finalityDepth v).

(** [superRefine]: the checkpoint is the completed calculation of the anchor, and the amounts agree
    with the effect. *)
Definition observeRefined (v : ObserveFacts) : bool :=
  match Anchor.deriveRewardCalculationTarget (of_chainAnchor v) None with
  | Err _ => false
  | Ok target =>
      (Anchor.targetRewardCycle target =? of_rewardCycle v) &&
      bool_decide (Anchor.calculationCheckpoint target = of_checkpoint v) &&
      (Anchor.expectedLastRewardComputeBurnHeight target =? of_lastRewardComputeBurnHeight v)
  end &&
  match of_completion v with
  | None => (bucketTotal v =? of_observedSignerEarnedSats v) && negb (of_observedSignerEarnedSats v =? 0) &&
            (of_expectedSignerOutflowSats v =? of_observedSignerEarnedSats v)
  | Some _ => (of_observedSignerEarnedSats v =? 0) && fs_present (of_feeSnapshot v)
  end.

Definition managerClaimObserveFactsSchema (v : ObserveFacts) : bool := observeShape v && observeRefined v.

(** ** Identities *)

(** [managerClaimOperationScopeKey] *)
Definition managerClaimOperationScopeKey (kind : Network) (chainId : Z) (managerContract : string) (rewardCycle : Z)
    (checkpoint : Anchor.Checkpoint) (lastHeight rewardsPerToken : Z) : string :=
  ("manager-claim-scope:" ++ documentSha256 sha256 (JObj [
    ("schemaVersion", JNum 1);
    ("adapter", JObj [("id", JStr MANAGER_CLAIM_REWARDS_ADAPTER_ID);
                      ("revision", JNum MANAGER_CLAIM_REWARDS_ADAPTER_REVISION)]);
    ("network", JObj [("kind", JStr (network_text kind)); ("chainId", JNum chainId)]);
    ("managerContract", JStr managerContract); ("rewardCycle", JStr (bigint_toString rewardCycle));
    ("calculationCheckpoint", JStr (checkpointText checkpoint));
    ("lastRewardComputeBurnHeight", JNum lastHeight);
    ("rewardsPerToken", JStr (bigint_toString rewardsPerToken))]))%string.

Definition operationScopeKey (v : ObserveFacts) : string :=
  managerClaimOperationScopeKey (of_kind v) (of_chainId v) (of_contract v) (of_rewardCycle v) (of_checkpoint v)
    (of_lastRewardComputeBurnHeight v) (of_rewardsPerToken v).

(** [deterministicUuid] *)
Definition deterministicUuid (material : Json) : string :=
  let hash := documentSha256 sha256 material in
  let part from to := String.substring from (to - from) hash in
  (part 0 8 ++ "-" ++ part 8 12 ++ "-5" ++ part 13 16 ++ "-a" ++ part 17 20 ++ "-" ++ part 20 32)%nat%string.

(** [bondBucketsDigest] *)
Definition bondBucketsDigest (v : ObserveFacts) : string :=
  documentSha256 sha256 (JObj [
    ("schemaVersion", JNum 1); ("kind", JStr "manager-claim-bond-buckets");
    ("stxEarnedSats", JStr (bigint_toString (of_stxEarnedSats v)));
    ("bondBuckets", JArr (map bond_json (of_bondBuckets v)))]).

(** [storedManagerClaimRecords], with the digest of its predicate. *)
Definition storedManagerClaimRecords (job : JobRow) : option (ClaimIntent * string) :=
  intent ← parseManagerClaimIntentRecord validateStacksAddress (jb_intent (tj_binding job));
  _ ← parseManagerClaimPolicyRecord (jb_policy (tj_binding job));
  Some (intent, documentSha256 sha256 (predicate_json (cn_reconciliation intent))).

(** [completionBlocks] is empty: the evidence binds this claim.  The digests of the facts are
    compared in lower case, as their schema leaves them. *)
Definition completion_binds (v : ObserveFacts) (intent : ClaimIntent) : bool :=
  let p := cn_reconciliation intent in
  String.eqb (pc_managerContract p) (of_contract v) &&
  String.eqb (pc_rewardCycle p) (bigint_toString (of_rewardCycle v)) &&
  String.eqb (pc_calculationCheckpoint p) (checkpointText (of_checkpoint v)) &&
  (pc_lastRewardComputeBurnHeight p =? of_lastRewardComputeBurnHeight v) &&
  String.eqb (pc_rewardsPerToken p) (bigint_toString (of_rewardsPerToken v)) &&
  String.eqb (pc_bondBucketsSha256 p) (bondBucketsDigest v) &&
  String.eqb (pc_effectiveFeeBips p) (bigint_toString (fs_effectiveFeeBips (of_feeSnapshot v))) &&
  String.eqb (pc_amountSats p) (bigint_toString (of_expectedSignerOutflowSats v)) &&
  String.eqb (pf_id (cn_profile intent)) (of_profileId v) &&
  String.eqb (pf_expectedSourceSha256 (cn_profile intent)) (toLowerCase (of_sourceSha256 v)) &&
  String.eqb (pf_observedSourceSha256 (cn_profile intent)) (toLowerCase (of_observedSourceSha256 v)) &&
  String.eqb (ai_issuer (cn_attestation intent)) (ai_issuer (of_attestation v)) &&
  (ai_revision (cn_attestation intent) =? ai_revision (of_attestation v)) &&
  String.eqb (ai_payloadSha256 (cn_attestation intent)) (toLowerCase (ai_payloadSha256 (of_attestation v))).

Definition outcomeText (o : ReconciliationOutcome) : string :=
  match o with
  | ro_pending => "pending" | ro_satisfied => "satisfied" | ro_not_satisfied => "not_satisfied"
  | ro_external_success => "external_success" | ro_noncanonical => "noncanonical"
  | ro_ambiguous => "ambiguous" | ro_blocked => "blocked"
  end.

(** The facts' anchor after its schema. *)
Definition facts_anchor (v : ObserveFacts) : Anchor.ChainAnchor :=
  match Anchor.parseChainAnchor (of_chainAnchor v) with Ok a => a | Err _ => of_chainAnchor v end.

(** ** The planner *)

(** [appendObservation] *)
Definition appendObservation (jobId : string) (v : ObserveFacts) (records : ClaimIntent * string)
    (outcome : ReconciliationOutcome) (effectRemaining : bool) (reason : option string) : claim_m unit :=
  let '(intent, digest) := records in
  let id := deterministicUuid (JObj [
    ("jobId", JStr jobId); ("predicateSha256", JStr digest); ("chainAnchor", anchor_json (facts_anchor v));
    ("outcome", JStr (outcomeText outcome)); ("effectRemaining", JBool effectRemaining);
    ("reason", or_null reason); ("completionEvidenceSha256", or_null (toLowerCase <$> of_completion v));
    ("observedAt", JStr (of_observedAt v))]) in
  _ ← store (appendReconciliationObservation isUuid isDatetime validateStacksAddress sha256
    {| oi_observationId := id; oi_jobId := jobId; oi_predicate := predicate_json (cn_reconciliation intent);
       oi_predicateSha256 := digest; oi_chainAnchor := facts_anchor v; oi_authoritative := true;
       oi_canonical := true; oi_finalityDepth := of_finalityDepth v; oi_outcome := outcome;
       oi_effectRemaining := effectRemaining; oi_reason := reason; oi_observedAt := of_observedAt v |});
  mret tt.

(** The transition of a job the planner has read. *)
Definition transition_to (v : ObserveFacts) (job : string * JobRow) (next : Job.TransactionJobState)
    (blockReason : option string) : claim_m (string * JobRow) :=
  store (transitionLogicalJob isUuid isDatetime validateStacksAddress
    {| ti_jobId := job.1; ti_expectedState := tj_state job.2; ti_expectedStateVersion := tj_stateVersion job.2;
       ti_nextState := next; ti_changedAt := of_observedAt v; ti_blockReason := blockReason;
       ti_supersessionReason := None; ti_supersededByJobId := None |}).

Definition mismatch : string := "external-completion-mismatch".

(** A canonical success of the attempt's own transaction. *)
Definition local_success (a : AttemptRow) : bool := confirming (ta_inclusion a).
Definition unresolved_attempt (a : AttemptRow) : bool :=
  bool_decide (ta_state a ∈ [as_signed; as_submitted; as_ambiguous; as_confirmed]).

(** [reconcileExternalCompletion] *)
Definition reconcileExternalCompletion (finalityDepth : Z) (v : ObserveFacts) (job : string * JobRow)
    (records : ClaimIntent * string) : claim_m PlannerResult :=
  let state := tj_state job.2 in
  if negb (completion_binds v records.1) then
    blockedJob ← (if bool_decide (state ∈ [Job.blocked; Job.reconciled]) then mret job
                  else transition_to v job Job.blocked (Some mismatch));
    _ ← appendObservation blockedJob.1 v records ro_blocked true (Some mismatch);
    mret {| ps_status := pl_blocked; ps_job := blockedJob |}
  else
    attempts ← store (listAttempts isUuid isDatetime job.1);
    let success := existsb (fun x => local_success x.2) attempts in
    _ ← appendObservation job.1 v records (if success then ro_satisfied else ro_external_success) false None;
    let competes := existsb (fun x => unresolved_attempt x.2) attempts && negb success in
    if negb (bool_decide (state = Job.reconciled)) && ((of_finalityDepth v <? finalityDepth) || competes) then
      confirming ← (if bool_decide (state = Job.confirmed) then mret job
                    else transition_to v job Job.confirmed None);
      mret {| ps_status := pl_planned; ps_job := confirming |}
    else
      reconciled ← (if bool_decide (state = Job.reconciled) then mret job
                    else transition_to v job Job.reconciled None);
      mret {| ps_status := pl_reconciled; ps_job := reconciled |}.

(** [ObserveManagerClaimPlanner.observe] *)
Definition planner_observe (finalityDepth : Z) (v : ObserveFacts) : claim_m PlannerResult :=
  _ ← check_claim (managerClaimObserveFactsSchema v) claim_schema;
  match of_completion v with
  | None => throw_claim legacy_read_only
  | Some _ =>
      let scope := operationScopeKey v in
      active ← store (getActiveLogicalJobForScope isUuid isDatetime validateStacksAddress scope);
      match active with
      | Some job =>
          records ← some_claim (storedManagerClaimRecords job.2);
          reconcileExternalCompletion finalityDepth v job records
      | None =>
          latest ← store (getLatestLogicalJobForScope isUuid isDatetime validateStacksAddress scope);
          match latest with
          | Some job =>
              if bool_decide (tj_state job.2 = Job.reconciled) then
                records ← some_claim (storedManagerClaimRecords job.2);
                reconcileExternalCompletion finalityDepth v job records
              else throw_claim no_durable_job
          | None => throw_claim no_durable_job
          end
      end
  end.

(** ** The service *)

Inductive ClaimBlockCode :=
  | network_fingerprint_mismatch | manager_ineligible | manager_fingerprint_mismatch
  | reward_status_unavailable | reward_checkpoint_mismatch | reward_calculation_pending.

Inductive IdleReason :=
  | no_claimable_effect | buckets_present_nothing_claimable | external_completion_without_local_work
  | no_matching_active_work | manual_wallet_available.

(** [ManagerClaimObservationOutcome] *)
Inductive ClaimOutcome :=
  | co_result (reconciled : bool) (job : string * JobRow)
  | co_idle (reason : IdleReason)
  | co_blocked (blocks : list ClaimBlockCode).

(** [ManagerClaimObservationInput], and what the snapshot and the status of [WalletFacts] leave
    out: whether the source was matched against a known one, and whether the calculation is
    pending. *)
Record ObservationPass := {
  op_setup : OperatorSnapshot;
  op_sourceKnown : bool;
  op_rewards : option RewardStatus;
  op_calculationPending : bool;
  op_observedAt : string;
  op_samePassConfirmedJobIds : list string;
  op_reconcileOnly : bool;
}.

Definition code_if (b : bool) (c : ClaimBlockCode) : list ClaimBlockCode := if b then [c] else [].

(** [staticBlocks]; the four networks all have a kind. *)
Definition staticBlocks (i : ObservationPass) (checkpoint : option ManagerClaimCheckpoint) : list ClaimBlockCode :=
  let s := op_setup i in
  code_if (negb (os_compatibilityMatched s) || is_null (truthy (os_pox5ContractId s)) ||
           is_null (truthy (os_sbtcTokenContract s)) || (os_nodeNetworkId s <? 0)) network_fingerprint_mismatch ++
  code_if (negb (existsb (String.eqb (os_sourceTier s)) ["reference-built-in"; "reference-render"]) ||
           is_null (os_sourceProfileId s)) manager_ineligible ++
  code_if (is_null (truthy (os_sourceSha256 s)) || negb (op_sourceKnown i)) manager_fingerprint_mismatch ++
  match op_rewards i, checkpoint with
  | None, _ => [reward_status_unavailable]
  | Some _, None => if op_calculationPending i then [reward_calculation_pending] else [reward_checkpoint_mismatch]
  | Some _, Some _ => []
  end.

(** The API, by proof and by call: it may answer differently every time. *)
Context (getStatus : nat -> nat -> result unit AnchorProof.ApiStatus)
  (getBlock : nat -> nat -> Z -> result unit AnchorProof.StacksBlockSummary).

Definition proof_of (k : nat) (planned current : Anchor.ChainAnchor) : result unit AnchorProof.CanonicalAnchorProof :=
  AnchorProof.proveCanonicalAnchorRelationship (getStatus k) (getBlock k) planned current None.

(** The first earlier anchor that is proven, unless a proof is unavailable before it. *)
Fixpoint provenDepth (k : nat) (anchors : list Anchor.ChainAnchor) (current : Anchor.ChainAnchor) : Z :=
  match anchors with
  | [] => 0
  | a :: rest =>
      match proof_of k a current with
      | Ok (AnchorProof.proven _ _) => Anchor.stacksBlockHeight current - Anchor.stacksBlockHeight a
      | Ok (AnchorProof.invalid _) => provenDepth (S k) rest current
      | _ => 0
      end
  end.

Definition completing_observation (r : ObservationRow) : bool :=
  or_authoritative r && or_canonical r && bool_decide (or_outcome r = ro_external_success) &&
  negb (or_effectRemaining r).

(** [completionFinalityDepth] *)
Definition completionFinalityDepth (jobId : string) (current : Anchor.ChainAnchor) (samePass : list string) : claim_m Z :=
  attempts ← store (listAttempts isUuid isDatetime jobId);
  let inclusions := omap (fun x => ta_inclusion x.2) attempts in
  match inclusions with
  | _ :: _ =>
      match List.find (fun n => confirming (Some n)) inclusions with
      | Some n =>
          if negb (existsb (String.eqb jobId) samePass) ||
             (Anchor.stacksBlockHeight current <? in_stacksBlockHeight n) then mret 0
          else mret (Anchor.stacksBlockHeight current - in_stacksBlockHeight n)
      | None => mret 0
      end
  | [] =>
      observations ← store (listReconciliationObservations isUuid isDatetime jobId);
      mret (provenDepth 0
        (map (fun x => or_chainAnchor x.2) (List.filter (fun x => completing_observation x.2) observations)) current)
  end.

Definition completion_json (jobId : string) (anchor : Anchor.ChainAnchor) (c : ManagerClaimCheckpoint) : Json :=
  JObj [("schemaVersion", JNum 1); ("kind", JStr "manager-claim-completion"); ("jobId", JStr jobId);
    ("chainAnchor", anchor_json anchor); ("feeSnapshot", fee_json (mk_feeSnapshot c));
    ("checkpoint", JObj [("rewardCycle", JStr (bigint_toString (mk_rewardCycle c)));
       ("calculationCheckpoint", JStr (checkpointText (mk_checkpoint c)));
       ("lastRewardComputeBurnHeight", JNum (mk_lastRewardComputeBurnHeight c));
       ("rewardsPerToken", JStr (bigint_toString (mk_rewardsPerToken c)))])].

(** [BigInt] of a text the schema has matched. *)
Definition big (s : string) : Z := default 0 (BigInt s).

(** [sealedBondBuckets] *)
Definition sealedBondBuckets (plan : SealedPlan) : list ManagerClaimBondBucket :=
  map (fun b => {| mb_bondIndex := big (sb_bondIndex b); mb_managerSharesSats := big (sb_managerSharesSats b);
                   mb_earnedSats := big (sb_earnedSats b);
                   mb_feeSnapshot := {| fs_present := cf_present (sb_fee b);
                                        fs_effectiveFeeBips := big (cf_effectiveFeeBips (sb_fee b)) |} |})
    (sl_bondBuckets plan).

(** The facts of a completed claim: what is on the chain now, and the buckets and the amount as they
    were sealed. *)
Definition completion_facts (i : ObservationPass) (c : ManagerClaimCheckpoint) (job : string * JobRow)
    (pox5 sbtcToken : string) (intent : ClaimIntent) (plan : SealedPlan) (depth : Z) : ObserveFacts :=
  let s := op_setup i in
  {| of_observedAt := op_observedAt i; of_kind := managerClaimNetworkKind s; of_chainId := os_nodeNetworkId s;
     of_contract := os_managerPrincipal s; of_profileId := default "unrecognized" (os_sourceProfileId s);
     of_recognitionTier := os_sourceTier s; of_sourceSha256 := default "" (os_sourceSha256 s);
     of_observedSourceSha256 := default "" (os_sourceSha256 s); of_chainAnchor := os_chainAnchor s;
     of_attestation := jb_attestation (tj_binding job.2); of_pox5 := pox5; of_sbtcToken := sbtcToken;
     of_rewardCycle := mk_rewardCycle c; of_checkpoint := mk_checkpoint c;
     of_lastRewardComputeBurnHeight := mk_lastRewardComputeBurnHeight c;
     of_rewardsPerToken := mk_rewardsPerToken c; of_stxEarnedSats := big (sl_stxEarnedSats plan);
     of_bondBuckets := sealedBondBuckets plan; of_observedSignerEarnedSats := mk_expectedSignerOutflowSats c;
     of_feeSnapshot := mk_feeSnapshot c;
     of_expectedSignerOutflowSats := big (pc_amountSats (cn_reconciliation intent));
     of_gasPayer := {| gp_principal := sl_principal plan; gp_publicKey := sl_publicKey plan;
                       gp_observedNonce := big (sl_nonce plan);
                       gp_estimatedFeeUstx := big (rf_estimatedFeeUstx (cn_fee intent));
                       gp_maximumFeeUstx := big (rf_maximumFeeUstx (cn_fee intent)) |};
     of_completion := Some (documentSha256 sha256 (completion_json job.1 (os_chainAnchor s) c));
     of_finalityDepth := depth |}.

(** What is left to do after the reads: nothing, or the planner. *)
Inductive ServicePlan := sp_answer (o : ClaimOutcome) | sp_complete (v : ObserveFacts).

(** [reconcileCompleted] up to the planner's call. *)
Definition reconcileCompleted (i : ObservationPass) (c : ManagerClaimCheckpoint) (job : string * JobRow)
    (pox5 sbtcToken : string) : claim_m ServicePlan :=
  intent ← some_claim (parseManagerClaimIntentRecord validateStacksAddress (jb_intent (tj_binding job.2)));
  _ ← some_claim (parseManagerClaimPolicyRecord (jb_policy (tj_binding job.2)));
  plan ← some_claim (storedPlanExecutionSchema (cn_sealedPlan intent));
  depth ← completionFinalityDepth job.1 (os_chainAnchor (op_setup i)) (op_samePassConfirmedJobIds i);
  mret (sp_complete (completion_facts i c job pox5 sbtcToken intent plan depth)).

(** [ManagerClaimObservationService.observe] up to the planner's call. *)
Definition service_reads (i : ObservationPass) : claim_m ServicePlan :=
  let s := op_setup i in
  let checkpoint := managerClaimCheckpoint s (op_rewards i) in
  match staticBlocks i checkpoint, checkpoint, os_pox5ContractId s, os_sbtcTokenContract s with
  | [], Some c, Some pox5, Some sbtcToken =>
      let scope := managerClaimOperationScopeKey (managerClaimNetworkKind s) (os_nodeNetworkId s)
        (os_managerPrincipal s) (mk_rewardCycle c) (mk_checkpoint c) (mk_lastRewardComputeBurnHeight c)
        (mk_rewardsPerToken c) in
      match mk_effect c with
      | claim_none => mret (sp_answer (co_idle no_claimable_effect))
      | claim_buckets_idle => mret (sp_answer (co_idle buckets_present_nothing_claimable))
      | claim_remaining =>
          if negb (op_reconcileOnly i) then mret (sp_answer (co_idle manual_wallet_available))
          else
            active ← store (getActiveLogicalJobForScope isUuid isDatetime validateStacksAddress scope);
            match active with
            | None => mret (sp_answer (co_idle no_matching_active_work))
            | Some job =>
                _ ← some_claim (storedManagerClaimRecords job.2);
                mret (sp_answer (co_result false job))
            end
      | claim_completed =>
          active ← store (getActiveLogicalJobForScope isUuid isDatetime validateStacksAddress scope);
          found ← match active with
                  | Some job => mret (Some job)
                  | None => store (getLatestLogicalJobForScope isUuid isDatetime validateStacksAddress scope)
                  end;
          match found with
          | None => mret (sp_answer (co_idle external_completion_without_local_work))
          | Some job => reconcileCompleted i c job pox5 sbtcToken
          end
      end
  | blocks, _, _, _ => mret (sp_answer (co_blocked blocks))
  end.

(** The whole pass.  [meanwhile] is what other calls made of the tables while the proofs were
    awaited. *)
Definition service_observe (finalityDepth : Z) (i : ObservationPass) (meanwhile : EngineDb -> EngineDb)
    : claim_m ClaimOutcome :=
  plan ← service_reads i;
  match plan with
  | sp_answer o => mret o
  | sp_complete v =>
      result ← later meanwhile (planner_observe finalityDepth v);
      mret (co_result (match ps_status result with pl_reconciled => true | _ => false end) (ps_job result))
  end.

(** The pass as [SidekickTransactionEngineRuntime] makes it: no job was confirmed in it. *)
Definition runtime_pass (i : ObservationPass) (maintenanceOnly : bool) : ObservationPass :=
  {| op_setup := op_setup i; op_sourceKnown := op_sourceKnown i; op_rewards := op_rewards i;
     op_calculationPending := op_calculationPending i; op_observedAt := op_observedAt i;
     op_samePassConfirmedJobIds := []; op_reconcileOnly := maintenanceOnly |}.

(** One round of the maintenance timer: nothing to do without unfinished work; [fresh] is the
    observation it reads. *)
Definition maintenance_round (finalityDepth : Z) (fresh : ObservationPass) (meanwhile : EngineDb -> EngineDb)
    : claim_m (option ClaimOutcome) :=
  page ← store (listLogicalJobs isUuid isDatetime validateStacksAddress sha256
    {| lo_limit := Some 1; lo_cursor := None; lo_adapterId := None; lo_managerPrincipal := None;
       lo_states := List.filter (fun s => negb (bool_decide (s ∈ [Job.reconciled; Job.superseded])))
                      Job.transactionJobStates |});
  if lp_total page =? 0 then mret None
  else o ← service_observe finalityDepth (runtime_pass fresh true) meanwhile; mret (Some o).

End ManagerClaim.
