(* ===== verification/ManagerClaimCorrect.v ===== *)
(** * What observing legacy claims may do

    A pass of [ManagerClaim] only closes work: it blocks, confirms or reconciles the one job of the
    observed scope, and it reconciles it only on final evidence that binds the sealed claim. *)

From S2P Require Import Prelude Text CanonicalJson Bonds ChainAnchor TransactionJob Principals OperationPlan SweepPlan Recipe WalletRequest WalletFacts EngineTables EngineStore EngineProtocol EngineCorrect ClaimDocuments ManagerClaim.

Open Scope string_scope.
Open Scope list_scope.
Open Scope Z_scope.

(** ** Weakest preconditions of passes *)

Definition cwp {A} (m : claim_m A) (d : EngineDb) (Q : result ClaimError A -> EngineDb -> Prop) : Prop :=
  let '(r, d') := m d in Q r d'.

Lemma cwp_bind {A B} (m : claim_m A) (k : A -> claim_m B) d Q :
  cwp m d (fun r d' => match r with Ok a => cwp (k a) d' Q | Err e => Q (Err e) d' end) -> cwp (m ≫= k) d Q.
Proof. unfold cwp, mbind, claim_bind. by destruct (m d) as [[a|e] d']. Qed.

Lemma cwp_mono {A} (m : claim_m A) d (P Q : result ClaimError A -> EngineDb -> Prop) :
  cwp m d P -> (forall r d', P r d' -> Q r d') -> cwp m d Q.
Proof. unfold cwp. destruct (m d) as [r d']. auto. Qed.

Lemma cwp_ret {A} (a : A) d (Q : result ClaimError A -> EngineDb -> Prop) : Q (Ok a) d -> cwp (mret a) d Q.
Proof. done. Qed.
Lemma cwp_throw {A} e d (Q : result ClaimError A -> EngineDb -> Prop) : Q (Err e) d -> cwp (throw_claim e) d Q.
Proof. done. Qed.
Lemma cwp_check b e d (Q : result ClaimError unit -> EngineDb -> Prop) :
  (b = true -> Q (Ok tt) d) -> (b = false -> Q (Err e) d) -> cwp (check_claim b e) d Q.
Proof. destruct b; intros H1 H2; [by apply H1 | by apply H2]. Qed.
Lemma cwp_some {A} (o : option A) d (Q : result ClaimError A -> EngineDb -> Prop) :
  (forall a, o = Some a -> Q (Ok a) d) -> (o = None -> Q (Err claim_schema) d) -> cwp (some_claim o) d Q.
Proof. destruct o; intros H1 H2; [by apply H1 | by apply H2]. Qed.

Lemma cwp_store {A} (op : engine_op A) d P (Q : result ClaimError A -> EngineDb -> Prop) :
  op_spec op d P -> (forall a d', P a d' -> Q (Ok a) d') -> (forall e, Q (Err (claim_store e)) d) ->
  cwp (store op) d Q.
Proof. unfold op_spec, cwp, store. destruct (op d) as [[a|e] d']; [auto|]. by intros ->. Qed.

Section Reads.

Context (isUuid isDatetime validateStacksAddress : string -> bool) (sha256 : list Z -> string).

Lemma mapFound_spec (o : option (string * JobRow)) d (Q : option (string * JobRow) -> EngineDb -> Prop) :
  Q o d -> wp (mapFound isUuid isDatetime validateStacksAddress o) d Q.
Proof.
  intros H. unfold mapFound. wp_step. apply wp_parsed. destruct o as [[id r]|]; [|by wp_step].
  wp_step. apply wp_mapJob. by wp_step.
Qed.

(** The active job of a scope, if there is one. *)
Lemma active_spec scope d :
  op_spec (getActiveLogicalJobForScope isUuid isDatetime validateStacksAddress scope) d (fun o d' => d' = d /\
    match o with
    | Some (id, r) => jobs d !! id = Some r /\ of_scope scope r = true /\ active_job r = true
    | None => forall id r, jobs d !! id = Some r -> of_scope scope r = true -> active_job r = false
    end).
Proof.
  apply op_spec_wp. repeat wp_step. apply mapFound_spec. split; [done|].
  destruct (find _ (jobs d)) as [[id r]|] eqn:Hf.
  - apply find_spec in Hf as [Hr Hp]. by apply andb_true_iff in Hp as [? ?].
  - intros id r Hr Hs. pose proof (find_none _ _ _ _ Hf Hr) as Hn. cbn in Hn. by rewrite Hs in Hn.
Qed.

Lemma latest_job_spec scope d :
  op_spec (getLatestLogicalJobForScope isUuid isDatetime validateStacksAddress scope) d (fun o d' => d' = d /\
    match o with Some (id, r) => jobs d !! id = Some r /\ of_scope scope r = true | None => True end).
Proof.
  apply op_spec_wp. repeat wp_step. apply mapFound_spec. split; [done|].
  destruct (head _) as [[id r]|] eqn:Hf; [|done]. apply head_elem, select_spec in Hf. done.
Qed.

(** [map_tx] of a reader that returns its row. *)
Lemma wp_map_id {A} (f : A -> engine_tx A) l d :
  (forall x, wp (f x) d (fun y d' => y = x /\ d' = d)) -> wp (map_tx f l) d (fun ys d' => ys = l /\ d' = d).
Proof.
  intros H. induction l as [|x l IH]; cbn; [done|]. wp_step. eapply ewp_mono; [apply H|].
  intros y d' [-> ->]. wp_step. eapply ewp_mono; [apply IH|]. by intros ys d' [-> ->].
Qed.

Lemma attempts_spec jobId d :
  op_spec (listAttempts isUuid isDatetime jobId) d (fun l d' => d' = d /\
    forall k a, (k, a) ∈ l <-> attempts d !! k = Some a /\ ab_jobId (ta_binding a) = jobId).
Proof.
  apply op_spec_wp. unfold listAttempts_tx. repeat wp_step.
  eapply ewp_mono; [apply wp_map_id|].
  { intros [k a]. unfold parse_attempt. repeat wp_step. by apply wp_mapAttempt. }
  intros ys d' [-> ->]. split; [done|]. intros k a. rewrite select_spec, String.eqb_eq. done.
Qed.

Lemma observations_spec jobId d :
  op_spec (listReconciliationObservations isUuid isDatetime jobId) d (fun l d' => d' = d /\
    forall k o, (k, o) ∈ l <-> evidence d !! k = Some o /\ or_jobId o = jobId).
Proof.
  apply op_spec_wp. unfold listReconciliationObservations_tx. repeat wp_step.
  eapply ewp_mono; [apply wp_map_id|].
  { intros [k o]. unfold mapObservation. by repeat wp_step. }
  intros ys d' [-> ->]. split; [done|]. intros k o. rewrite select_spec, String.eqb_eq. done.
Qed.

(** ** What the planner may close *)

Section Closing.

Context (finalityDepth : Z) (v : ObserveFacts).

(** The facts, the claim they are about, and what is known of the attempts when it is reconciled. *)
Definition final_evidence (e : EngineDb) (id : string) (r : JobRow) : Prop :=
  exists intent digest,
    storedManagerClaimRecords validateStacksAddress sha256 r = Some (intent, digest) /\
    completion_binds sha256 v intent = true /\ finalityDepth <= of_finalityDepth v /\
    (forall k a, attempts e !! k = Some a -> ab_jobId (ta_binding a) = id -> unresolved_attempt a = true ->
       exists k' a', attempts e !! k' = Some a' /\ ab_jobId (ta_binding a') = id /\ local_success a' = true).

(** The job of the scope, closed or blocked. *)
Definition closed_job (e d' : EngineDb) (id : string) : Prop :=
  exists r r', jobs e !! id = Some r /\ jobs d' !! id = Some r' /\ tj_binding r' = tj_binding r /\
    of_scope (operationScopeKey sha256 v) r = true /\ active_job r = true /\
    managerClaimObserveFactsSchema isDatetime validateStacksAddress v = true /\ is_Some (of_completion v) /\
    Job.step (tj_state r) (tj_state r') /\
    (tj_state r' = Job.blocked \/ tj_state r' = Job.confirmed \/
     (tj_state r' = Job.reconciled /\ final_evidence e id r)).

Record closing (e d' : EngineDb) : Prop := {
  cl_attempts : attempts d' = attempts e;
  cl_nonces : nonces d' = nonces e;
  cl_forced : forced d' = forced e;
  cl_disabled : disabled d' = disabled e;
  cl_jobs : forall id, jobs d' !! id = jobs e !! id \/ closed_job e d' id;
}.

Lemma closing_refl e : closing e e.
Proof. split; auto. Qed.

Lemma closing_evidence e d m : closing e d -> closing e (with_evidence m d).
Proof. intros []. by split. Qed.

Lemma observed_closing i e d d' : closing e d -> observed i d d' -> closing e d'.
Proof. intros H [->|(o & _ & _ & _ & -> & _)]; [done|by apply closing_evidence]. Qed.

(** A transition of the scope's job. *)
Lemma moved_closing i e d r :
  jobs d = jobs e -> attempts d = attempts e -> nonces d = nonces e -> forced d = forced e ->
  disabled d = disabled e -> jobs e !! ti_jobId i = Some r -> tj_state r = ti_expectedState i ->
  Job.step (ti_expectedState i) (ti_nextState i) ->
  of_scope (operationScopeKey sha256 v) r = true ->
  managerClaimObserveFactsSchema isDatetime validateStacksAddress v = true -> is_Some (of_completion v) ->
  (ti_nextState i = Job.blocked \/ ti_nextState i = Job.confirmed \/
   (ti_nextState i = Job.reconciled /\ final_evidence e (ti_jobId i) r)) ->
  closing e (moved i r d).
Proof.
  intros Hj Ha Hn Hf Hd Hr Hs Hstep Hscope Hv Hc Hnext. split; cbn; try done.
  intros id. rewrite Hj. destruct (decide (id = ti_jobId i)) as [->|Hne].
  2: { left. by rewrite lookup_insert_ne. }
  right. exists r. eexists. cbn. rewrite Hj, lookup_insert_eq. split_and!; try done; cbn.
  - unfold active_job. apply negb_true_iff, bool_decide_eq_false. rewrite Hs.
    apply Job.step_transitions in Hstep. destruct (ti_expectedState i); try (not_in Hstep); intros Hin; by not_in Hin.
  - by rewrite Hs.
Qed.

Abbreviation observe_tx := (appendObservation isUuid isDatetime validateStacksAddress sha256).
Abbreviation transition_tx := (transition_to isUuid isDatetime validateStacksAddress v).

Lemma cwp_append jobId records outcome remaining reason e d :
  closing e d -> cwp (observe_tx jobId v records outcome remaining reason) d (fun _ d' => closing e d').
Proof.
  intros H. unfold appendObservation. destruct records as [intent digest]. apply cwp_bind.
  eapply cwp_store; [apply observe_spec| |done]. intros a d' Ho. apply cwp_ret.
  exact (observed_closing _ _ _ _ H Ho).
Qed.

Lemma cwp_transition id r next block e d :
  jobs d = jobs e -> attempts d = attempts e -> nonces d = nonces e -> forced d = forced e ->
  disabled d = disabled e -> closing e d -> jobs e !! id = Some r ->
  of_scope (operationScopeKey sha256 v) r = true ->
  managerClaimObserveFactsSchema isDatetime validateStacksAddress v = true -> is_Some (of_completion v) ->
  (next = Job.blocked \/ next = Job.confirmed \/ (next = Job.reconciled /\ final_evidence e id r)) ->
  cwp (transition_tx (id, r) next block) d (fun _ d' => closing e d').
Proof.
  intros Hj Ha Hn Hf Hd Hcl Hr Hscope Hv Hc Hnext. unfold transition_to.
  eapply cwp_store; [apply transition_op_spec| |done].
  intros x d' [(s & Hs & Hst & -> & _) Hstep _ _ _]. cbn in *.
  assert (s = r) as -> by congruence. by apply moved_closing.
Qed.

(** The planner's part for one stored job. *)
Lemma reconcile_closing id r records e :
  jobs e !! id = Some r -> of_scope (operationScopeKey sha256 v) r = true ->
  managerClaimObserveFactsSchema isDatetime validateStacksAddress v = true -> is_Some (of_completion v) ->
  storedManagerClaimRecords validateStacksAddress sha256 r = Some records ->
  cwp (reconcileExternalCompletion isUuid isDatetime validateStacksAddress sha256 finalityDepth v (id, r) records) e
    (fun _ d' => closing e d').
Proof.
  intros Hr Hscope Hv Hc Hrec. unfold reconcileExternalCompletion. cbn zeta.
  destruct (completion_binds sha256 v records.1) eqn:Hb; cbn [negb].
  - apply cwp_bind. eapply cwp_store; [apply attempts_spec| |by intros; apply closing_refl].
    intros l d' [-> Hl]. cbn zeta. apply cwp_bind.
    set (success := existsb (fun x => local_success x.2) l).
    apply (cwp_mono _ _ (fun _ d => closing e d /\ jobs d = jobs e /\ attempts d = attempts e /\
      nonces d = nonces e /\ forced d = forced e /\ disabled d = disabled e)).
    { unfold appendObservation. destruct records as [intent digest]. apply cwp_bind.
      eapply cwp_store; [apply observe_spec| |intros x; cbn; split_and!; try done; apply closing_refl].
      intros a d' Ho. apply cwp_ret. pose proof (observed_closing _ _ _ _ (closing_refl e) Ho) as Hcl.
      destruct Ho as [->|(o & _ & _ & _ & -> & _)]; by split_and!. }
    intros res d (Hcl & Hj & Ha & Hn & Hf & Hd). destruct res; [|done].
    destruct (negb _ && _) eqn:Hgo.
    + apply cwp_bind. destruct (bool_decide (tj_state (id, r).2 = Job.confirmed)); [exact Hcl|].
      eapply cwp_mono; [by apply (cwp_transition id r Job.confirmed None e d); auto|].
      intros [x|] d' Hx; [by apply cwp_ret|done].
    + apply cwp_bind.
      destruct (bool_decide (tj_state (id, r).2 = Job.reconciled)) eqn:Hrc; [exact Hcl|].
      cbn [negb andb] in Hgo. apply orb_false_iff in Hgo as [Hdepth Hcomp]. breflect.
      eapply cwp_mono; [apply (cwp_transition id r Job.reconciled None e d); auto|].
      * right. right. split; [done|]. destruct records as [intent digest]. exists intent, digest.
        split_and!; [done|done|lia|]. intros k b Hk Hid Hun.
        assert (Hex : existsb (fun x => unresolved_attempt x.2) l = true).
        { apply existsb_exists. exists (k, b). split; [|done]. apply list_elem_of_In, Hl. done. }
        rewrite Hex in Hcomp. cbn in Hcomp. apply negb_false_iff in Hcomp.
        apply existsb_exists in Hcomp as ([k' b'] & Hin & Hs). apply list_elem_of_In, Hl in Hin as [? ?].
        by exists k', b'.
      * intros [x|] d' Hx; [by apply cwp_ret|done].
  - apply cwp_bind. eapply (cwp_mono _ _ (fun _ d => closing e d)).
    + case_bool_decide; [apply cwp_ret, closing_refl|]. apply cwp_transition; auto using closing_refl.
    + intros [x|] d Hcl; [|done]. apply cwp_bind.
      eapply cwp_mono; [by apply cwp_append|]. intros [y|] d' Hd'; [by apply cwp_ret|done].
Qed.

Lemma planner_closing e :
  cwp (planner_observe isUuid isDatetime validateStacksAddress sha256 finalityDepth v) e (fun _ d' => closing e d').
Proof.
  unfold planner_observe. apply cwp_bind, cwp_check; intros Hv; [|apply closing_refl].
  destruct (of_completion v) eqn:Hc; [|apply cwp_throw, closing_refl]. cbn zeta.
  apply cwp_bind. eapply cwp_store; [apply active_spec| |by intros; apply closing_refl].
  intros [[id r]|] d' [-> Ho].
  - destruct Ho as (Hr & Hs & _). apply cwp_bind, cwp_some; [|intros; apply closing_refl].
    intros records Hrec. by apply reconcile_closing.
  - apply cwp_bind. eapply cwp_store; [apply latest_job_spec| |by intros; apply closing_refl].
    intros [[id r]|] d' [-> Hl]; [|apply cwp_throw, closing_refl].
    case_bool_decide; [|apply cwp_throw, closing_refl]. destruct Hl as [Hr Hs].
    apply cwp_bind, cwp_some; [|intros; apply closing_refl].
    intros records Hrec. by apply reconcile_closing.
Qed.

End Closing.
End Reads.

(** ** The service *)

(** Tables a pass decides on. *)
Definition same_claims (d e : EngineDb) : Prop :=
  jobs e = jobs d /\ attempts e = attempts d /\ evidence e = evidence d.

Section Service.

Context (isUuid isDatetime validateStacksAddress : string -> bool) (sha256 : list Z -> string)
  (getStatus : nat -> nat -> result unit AnchorProof.ApiStatus)
  (getBlock : nat -> nat -> Z -> result unit AnchorProof.StacksBlockSummary).

Abbreviation call := (run_call isUuid isDatetime validateStacksAddress sha256).

(** The calls other parts of the running program make: the two controls. *)
Definition control_step (d d' : EngineDb) : Prop := exists a w, withdraws a w /\ (call w d).2 = d'.

Lemma force_same c d : op_spec (forceObserve isDatetime c) d (fun _ d' => same_claims d d').
Proof.
  apply op_spec_wp. unfold getForceObserveControl_tx, stored_control.
  repeat wp_step. apply wp_parsed_control. destruct (forced d); [by wp_step|].
  wp_step. apply wp_write. intros _. wp_step. apply wp_revoke. intros n _. repeat wp_step.
  by apply wp_parsed_control.
Qed.

Lemma disable_same a c d : op_spec (disableAdapter isDatetime a c) d (fun _ d' => same_claims d d').
Proof.
  apply op_spec_wp. unfold getDisabledAdapterControl_tx, stored_control.
  repeat wp_step. apply wp_parsed_control. destruct (disabled d !! a); [by wp_step|].
  wp_step. apply wp_write. intros _. wp_step.
  refine (wp_revoke (approval_of_adapter a _) (ct_at c) "adapter-disabled" _ _ _). intros n _.
  repeat wp_step. apply wp_parsed_control. cbn [disabled with_disabled with_approvals].
  rewrite lookup_insert_eq. by wp_step.
Qed.

Lemma controls_same d e : rtc control_step d e -> same_claims d e.
Proof.
  induction 1 as [|d e f (a & w & Hw & He) _ (IH1 & IH2 & IH3)]; [done|].
  assert (Hs : same_claims d e).
  { rewrite <- He. destruct Hw; cbn.
    - by refine (op_spec_outcome _ d _ (same_claims d) (force_same c d) _ _).
    - by refine (op_spec_outcome _ d _ (same_claims d) (disable_same a c d) _ _). }
  destruct Hs as (H1 & H2 & H3). unfold same_claims. split_and!; congruence.
Qed.

(** The evidence of a finality depth when no job was confirmed in the pass: no attempt of the job was
    ever included, and an earlier observation of the completed effect lies [depth] blocks below on
    the chain of the current anchor. *)
Definition proven_completion (d : EngineDb) (id : string) (current : Anchor.ChainAnchor) (depth : Z) : Prop :=
  (forall k a, attempts d !! k = Some a -> ab_jobId (ta_binding a) = id -> ta_inclusion a = None) /\
  exists k o n tip hash, evidence d !! k = Some o /\ or_jobId o = id /\ completing_observation o = true /\
    proof_of getStatus getBlock n (or_chainAnchor o) current = Ok (AnchorProof.proven tip hash) /\
    depth = Anchor.stacksBlockHeight current - Anchor.stacksBlockHeight (or_chainAnchor o).

Lemma provenDepth_proof k l current :
  0 < provenDepth getStatus getBlock k l current ->
  exists a n tip hash, a ∈ l /\ proof_of getStatus getBlock n a current = Ok (AnchorProof.proven tip hash) /\
    provenDepth getStatus getBlock k l current = Anchor.stacksBlockHeight current - Anchor.stacksBlockHeight a.
Proof.
  revert k. induction l as [|a l IH]; intros k; cbn; [lia|].
  destruct (proof_of getStatus getBlock k a current) as [[tip hash|reason|reason]|] eqn:Hp; try lia.
  - intros _. exists a, k, tip, hash. split_and!; [constructor|done|done].
  - intros (b & n & tip & hash & Hin & Hb & Hd)%IH. exists b, n, tip, hash. split_and!; [by constructor|done|done].
Qed.

Lemma depth_spec id current d :
  cwp (completionFinalityDepth isUuid isDatetime getStatus getBlock id current []) d (fun r d' => d' = d /\
    match r with Ok depth => 0 < depth -> proven_completion d id current depth | Err _ => True end).
Proof.
  unfold completionFinalityDepth. apply cwp_bind. eapply cwp_store; [apply attempts_spec| |done].
  intros l d' [-> Hl]. cbn zeta. destruct (omap _ l) as [|n rest] eqn:Hom.
  - apply cwp_bind. eapply cwp_store; [apply observations_spec| |done]. intros obs d' [-> Hobs].
    apply cwp_ret. split; [done|].
    intros (a & m & tip & hash & Ha & Hp & Hd)%provenDepth_proof.
    split.
    + intros k b Hk Hb. destruct (ta_inclusion b) as [n|] eqn:Hi; [|done]. exfalso.
      assert (Hn : n ∈ omap (fun x => ta_inclusion x.2) l).
      { apply list_elem_of_omap. exists (k, b). split; [by apply Hl|done]. }
      rewrite Hom in Hn. by apply elem_of_nil in Hn.
    + apply list_elem_of_In, in_map_iff in Ha as ([k o] & <- & [Hin Hco]%filter_In).
      apply list_elem_of_In, Hobs in Hin as [Ho Hj]. by exists k, o, m, tip, hash.
  - destruct (List.find _ _) as [n'|]; [|by apply cwp_ret]. cbn [existsb negb orb]. by apply cwp_ret.
Qed.

(** The job a pass may close, and the depth it found for it. *)
Lemma reads_spec i d : op_samePassConfirmedJobIds i = [] ->
  cwp (service_reads isUuid isDatetime validateStacksAddress sha256 getStatus getBlock i) d (fun r d' => d' = d /\
    match r with
    | Ok (sp_complete v) => exists id r0, jobs d !! id = Some r0 /\
        of_scope (operationScopeKey sha256 v) r0 = true /\
        (active_job r0 = true \/ forall k s, jobs d !! k = Some s ->
           of_scope (operationScopeKey sha256 v) s = true -> active_job s = false) /\
        (0 < of_finalityDepth v -> proven_completion d id (os_chainAnchor (op_setup i)) (of_finalityDepth v))
    | _ => True
    end).
Proof.
  intros Hsame. unfold service_reads. cbn zeta.
  destruct (staticBlocks i _); [|by apply cwp_ret].
  destruct (managerClaimCheckpoint _ _) as [c|]; [|by apply cwp_ret].
  destruct (os_pox5ContractId (op_setup i)) as [pox5|]; [|by apply cwp_ret].
  destruct (os_sbtcTokenContract (op_setup i)) as [token|]; [|by apply cwp_ret].
  destruct (mk_effect c); try by apply cwp_ret.
  - destruct (negb _); [by apply cwp_ret|]. apply cwp_bind. eapply cwp_store; [apply active_spec| |done].
    intros [[id r]|] d' [-> _]; [|by apply cwp_ret]. apply cwp_bind, cwp_some; [|done].
    intros a _. by apply cwp_ret.
  - set (scope := managerClaimOperationScopeKey _ _ _ _ _ _ _ _).
    apply cwp_bind. eapply cwp_store; [apply active_spec| |done]. intros active d' [-> Ha].
    apply cwp_bind.
    apply (cwp_mono _ _ (fun r d' => d' = d /\ match r with
      | Ok (Some (id, r0)) => jobs d !! id = Some r0 /\ of_scope scope r0 = true /\
          (active_job r0 = true \/ forall k s, jobs d !! k = Some s -> of_scope scope s = true -> active_job s = false)
      | _ => True end)).
    { destruct active as [[id r0]|]; [apply cwp_ret; naive_solver|].
      eapply cwp_store; [apply latest_job_spec| |done]. intros [[id r0]|] d' [-> Hl]; [|done]. naive_solver. }
    intros [[[id r0]|]|e] d' [-> Hf]; [|by apply cwp_ret|done].
    unfold reconcileCompleted. apply cwp_bind, cwp_some; [|done]. intros intent _.
    apply cwp_bind, cwp_some; [|done]. intros [] _. apply cwp_bind, cwp_some; [|done]. intros plan _.
    apply cwp_bind. rewrite Hsame. eapply cwp_mono; [apply depth_spec|].
    intros [depth|e] d' [-> Hd]; [|done]. apply cwp_ret. split; [done|].
    exists id, r0. destruct Hf as (Hr & Hs & Hact). split_and!; done.
Qed.

Abbreviation pass := (service_observe isUuid isDatetime validateStacksAddress sha256 getStatus getBlock).

(** What a pass did: nothing, or what the planner closes of the job its reads were about. *)
Lemma pass_spec finalityDepth i meanwhile d :
  op_samePassConfirmedJobIds i = [] ->
  cwp (pass finalityDepth i meanwhile) d (fun _ d' => d' = d \/
    exists v id r0, jobs d !! id = Some r0 /\ of_scope (operationScopeKey sha256 v) r0 = true /\
      (active_job r0 = true \/ forall k s, jobs d !! k = Some s ->
         of_scope (operationScopeKey sha256 v) s = true -> active_job s = false) /\
      (0 < of_finalityDepth v -> proven_completion d id (os_chainAnchor (op_setup i)) (of_finalityDepth v)) /\
      closing isDatetime validateStacksAddress sha256 finalityDepth v (meanwhile d) d').
Proof.
  intros Hsame. unfold service_observe. apply cwp_bind. eapply cwp_mono; [by apply reads_spec|].
  intros [[o|v]|e] d' [-> Hv]; [by left|..|by left].
  destruct Hv as (id & r0 & Hr & Hs & Ha & Hd). apply cwp_bind. unfold later.
  change (cwp (fun d => planner_observe isUuid isDatetime validateStacksAddress sha256 finalityDepth v (meanwhile d)) d)
    with (cwp (planner_observe isUuid isDatetime validateStacksAddress sha256 finalityDepth v) (meanwhile d)).
  eapply cwp_mono; [apply planner_closing|]. intros [x|e] d' Hcl; [apply cwp_ret|]; right; by exists v, id, r0.
Qed.

(** The active job of a scope is the only one. *)
Lemma active_job_unique d scope id k r s : schema_ok d -> jobs d !! id = Some r -> jobs d !! k = Some s ->
  of_scope scope r = true -> of_scope scope s = true -> active_job r = true -> active_job s = true -> id = k.
Proof.
  intros Hok Hr Hs Hrs Hss Ha Hb. destruct (decide (id = k)) as [|Hne]; [done|exfalso].
  pose proof (table_apart _ _ _ _ _ _ _ (ok_jobs _ Hok) Hr Hs Hne) as H. unfold jobs_apart, of_scope in *.
  breflect. rewrite Ha, Hb in H. cbn in H. rewrite Hrs, Hss, String.eqb_refl, orb_true_r in H. done.
Qed.

(** Observing legacy claims makes no work: no job, attempt or nonce is added or touched, except that
    an active job moves along the transition table to blocked, confirmed or reconciled, and that
    only of a pass whose facts pass their schema. *)
Theorem passes_only_close finalityDepth i meanwhile d r d' :
  op_samePassConfirmedJobIds i = [] -> rtc control_step d (meanwhile d) ->
  pass finalityDepth i meanwhile d = (r, d') ->
  attempts d' = attempts d /\
  forall id, jobs d' !! id = jobs d !! id \/
    exists s s', jobs d !! id = Some s /\ jobs d' !! id = Some s' /\ tj_binding s' = tj_binding s /\
      active_job s = true /\ Job.step (tj_state s) (tj_state s') /\
      tj_state s' ∈ [Job.blocked; Job.confirmed; Job.reconciled].
Proof.
  intros Hsame Hh Hp. pose proof (pass_spec finalityDepth i meanwhile d Hsame) as H. unfold cwp in H.
  rewrite Hp in H. destruct H as [->|(v & k & r0 & _ & _ & _ & _ & Hcl)]; [by split; auto|].
  apply controls_same in Hh as (Hj & Ha & _). split; [by rewrite (cl_attempts _ _ _ _ _ _ _ Hcl), Ha|].
  intros id. destruct (cl_jobs _ _ _ _ _ _ _ Hcl id) as [->|(s & s' & Hs & Hs' & Hb & _ & Hact & _ & _ & Hst & Hn)];
    rewrite Hj in *; [by left|right].
  exists s, s'. split_and!; try done. destruct Hn as [->|[->|[-> _]]]; is_in.
Qed.

(** What a pass that reconciles an active job rests on. *)
Lemma reconciled_evidence finalityDepth i meanwhile d r d' id s s' :
  1 <= finalityDepth -> schema_ok d -> op_samePassConfirmedJobIds i = [] -> rtc control_step d (meanwhile d) ->
  pass finalityDepth i meanwhile d = (r, d') ->
  jobs d !! id = Some s -> active_job s = true -> jobs d' !! id = Some s' -> tj_state s' = Job.reconciled ->
  (exists v intent digest, storedManagerClaimRecords validateStacksAddress sha256 s = Some (intent, digest) /\
     managerClaimObserveFactsSchema isDatetime validateStacksAddress v = true /\
     of_scope (operationScopeKey sha256 v) s = true /\ completion_binds sha256 v intent = true) /\
  (forall k a, attempts d !! k = Some a -> ab_jobId (ta_binding a) = id -> unresolved_attempt a = false) /\
  (exists depth, finalityDepth <= depth /\ proven_completion d id (os_chainAnchor (op_setup i)) depth).
Proof.
  intros Hfd Hok Hsame Hh Hp Hs Hact Hs' Hrec.
  pose proof (pass_spec finalityDepth i meanwhile d Hsame) as H. unfold cwp in H. rewrite Hp in H.
  assert (Hne : jobs d' !! id <> jobs d !! id).
  { rewrite Hs, Hs'. intros [= ->]. unfold active_job in Hact. rewrite Hrec in Hact. done. }
  destruct H as [->|(v & k & r0 & Hr0 & Hscope & Hone & Hdepth & Hcl)]; [done|].
  apply controls_same in Hh as (Hj & Ha & _).
  destruct (cl_jobs _ _ _ _ _ _ _ Hcl id) as [Heq|Hc]; [by rewrite Heq, Hj in Hne|].
  destruct Hc as (t & t' & Ht & Ht' & _ & Hts & _ & Hv & _ & _ & Hn). rewrite Hj in Ht.
  assert (t = s) as -> by congruence. assert (t' = s') as -> by congruence.
  destruct Hn as [Hn|[Hn|[_ (intent & digest & Hst & Hb & Hfin & Hun)]]]; [congruence..|].
  assert (Hk : k = id).
  { destruct Hone as [Hone|Hnone]; [by eapply (active_job_unique d)|]. by rewrite (Hnone _ _ Hs Hts) in Hact. }
  subst k. assert (Hpc : proven_completion d id (os_chainAnchor (op_setup i)) (of_finalityDepth v))
    by (apply Hdepth; lia).
  split_and!; [by exists v, intent, digest| |by exists (of_finalityDepth v)].
  intros k a Hk Hid. destruct (unresolved_attempt a) eqn:Hu; [|done].
  rewrite Ha in Hun. destruct (Hun k a Hk Hid Hu) as (k' & a' & Hk' & Hid' & Hsuc).
  destruct Hpc as [Hnone _]. unfold local_success in Hsuc. by rewrite (Hnone _ _ Hk' Hid') in Hsuc.
Qed.

(** C28. A legacy claim is reconciled only on final evidence: the observed completion binds the sealed
    predicate, profile and attestation of the job, none of its attempts is unresolved, and an
    earlier stored observation of the same completion is proven, by canonical blocks read inside
    one unchanged tip, to lie at least the configured depth below on the current chain. *)
Theorem reconciled_claim_is_final finalityDepth i meanwhile d r d' id s s' :
  1 <= finalityDepth -> schema_ok d -> op_samePassConfirmedJobIds i = [] -> rtc control_step d (meanwhile d) ->
  pass finalityDepth i meanwhile d = (r, d') ->
  jobs d !! id = Some s -> active_job s = true -> jobs d' !! id = Some s' -> tj_state s' = Job.reconciled ->
  (exists v intent digest, storedManagerClaimRecords validateStacksAddress sha256 s = Some (intent, digest) /\
     managerClaimObserveFactsSchema isDatetime validateStacksAddress v = true /\
     of_scope (operationScopeKey sha256 v) s = true /\ completion_binds sha256 v intent = true) /\
  (forall k a, attempts d !! k = Some a -> ab_jobId (ta_binding a) = id -> unresolved_attempt a = false) /\
  (exists depth, finalityDepth <= depth /\ proven_completion d id (os_chainAnchor (op_setup i)) depth).
Proof. apply reconciled_evidence. Qed.

(** A claim whose own transaction was once recorded as included is never reconciled: the pass asks for
    a confirmation made in the same pass, and the runtime passes none. *)
Theorem included_claim_stays_open finalityDepth i maintenanceOnly meanwhile d r d' id s s' k a :
  1 <= finalityDepth -> schema_ok d -> rtc control_step d (meanwhile d) ->
  pass finalityDepth (runtime_pass i maintenanceOnly) meanwhile d = (r, d') ->
  jobs d !! id = Some s -> active_job s = true -> jobs d' !! id = Some s' ->
  attempts d !! k = Some a -> ab_jobId (ta_binding a) = id -> is_Some (ta_inclusion a) ->
  tj_state s' <> Job.reconciled.
Proof.
  intros Hfd Hok Hh Hp Hs Hact Hs' Hk Hid [n Hn] Hrec.
  assert (H : exists depth, finalityDepth <= depth /\ proven_completion d id (os_chainAnchor (op_setup i)) depth).
  { by eapply (reconciled_evidence finalityDepth (runtime_pass i maintenanceOnly)). }
  destruct H as (depth & _ & Hnone & _). by rewrite (Hnone _ _ Hk Hid) in Hn.
Qed.

End Service.
