(* ===== verification/ManagerClaimScenario.v ===== *)
(** * A legacy claim observed to its end

    A claim that an earlier release sealed was executed by somebody else.  The first pass sees the
    completed effect and confirms the job; the second, ten blocks later on the same chain,
    reconciles it. *)

From S2P Require Import Prelude Text CanonicalJson Bonds ChainAnchor TransactionJob Principals OperationPlan SweepPlan Recipe WalletRequest WalletFacts EngineTables EngineStore EngineProtocol EngineCorrect EngineScenario ClaimDocuments ManagerClaim ManagerClaimCorrect.

Open Scope string_scope.
Open Scope list_scope.
Open Scope Z_scope.

Module ManagerClaimScenario.

Import EngineScenario.

Definition block_hash (height : Z) : string := ("0x" ++ Concrete.checksum [height])%string.

(** The anchor at a height of one burn block. *)
Definition anchor_at (height : Z) : Anchor.ChainAnchor :=
  {| Anchor.stacksBlockHeight := height; Anchor.indexBlockHash := block_hash height;
     Anchor.burnBlockHeight := 2060; Anchor.rewardCycle := 20; Anchor.rewardCycleLength := 100;
     Anchor.prepareCycleLength := 10; Anchor.cyclePosition := 60; Anchor.phase := Anchor.phase_reward;
     Anchor.checkpoint := Anchor.second_half |}.

(** An API that stands at block 520. *)
Definition getStatus (_ _ : nat) : result unit AnchorProof.ApiStatus :=
  Ok {| AnchorProof.tip_block_height := 520; AnchorProof.tip_block_hash := block_hash 520;
        AnchorProof.tip_index_block_hash := block_hash 520; AnchorProof.tip_burn_block_height := 2060 |}.
Definition getBlock (_ _ : nat) (height : Z) : result unit AnchorProof.StacksBlockSummary :=
  Ok {| AnchorProof.canonical := true; AnchorProof.height := height;
        AnchorProof.index_block_hash := block_hash height; AnchorProof.burn_block_height := 2060 |}.

(** ** What is on the chain *)

Definition pox5 : string := "SPM.pox-5".
Definition source : string := Concrete.checksum [11].

Definition setup (height : Z) : OperatorSnapshot :=
  {| os_chainAnchor := anchor_at height; os_network := wn_mainnet; os_checks := [];
     os_nodeNetworkId := 1; os_pox5ContractId := Some pox5; os_sbtcTokenContract := Some "SPM.sbtc-token";
     os_pox5SourceSha256 := None; os_firstRewardCycleId := Some 10; os_compatibilityMatched := true;
     os_profileId := None; os_profileRevision := None; os_managerPrincipal := manager; os_attachAllowed := true;
     os_capabilities := []; os_sourceTier := "reference-built-in"; os_sourceSha256 := Some source;
     os_sourceProfileId := Some "reference"; os_registration := None |}.

(** Nothing is left to claim, and the fee of the claim is pinned. *)
Definition rewards (height : Z) : RewardStatus :=
  {| rs_ready := true; rs_managerPrincipal := manager; rs_pox5ContractId := pox5; rs_rewardCycle := 20;
     rs_burnBlockHeight := 2060; rs_stacksTipHeight := height; rs_ingested := true;
     rs_lastRewardComputeBurnHeight := "2049"; rs_lastComputedRewardCycle := Some "20";
     rs_rewardsPerToken := "900"; rs_signerEarned := "0";
     rs_buckets := [{| bu_bondIndex := None; bu_managerSharesSats := "100"; bu_signerEarned := "0";
                       bu_feeSnapshotBips := Some "500"; bu_participating := true |}];
     rs_configuredFeeBips := "600"; rs_managerFeeSnapshotBips := Some "500" |}.

Definition observation (height t : Z) : ObservationPass :=
  {| op_setup := setup height; op_sourceKnown := true; op_rewards := Some (rewards height);
     op_calculationPending := false; op_observedAt := at_ t; op_samePassConfirmedJobIds := [];
     op_reconcileOnly := true |}.

(** ** The sealed claim *)

Definition attested : Json :=
  JObj [("issuer", JStr (ai_issuer accepted)); ("revision", JNum (ai_revision accepted));
        ("payloadSha256", JStr (ai_payloadSha256 accepted))].

Definition review : Json := JObj [
  ("adapter", JObj [("id", JStr MANAGER_CLAIM_REWARDS_ADAPTER_ID); ("revision", JNum 2)]);
  ("network", JStr "mainnet"); ("managerPrincipal", JStr manager);
  ("call", JObj [("contract", JStr manager); ("functionName", JStr "claim-rewards"); ("arguments", JArr [])]);
  ("anchor", WalletFacts.anchor_json (anchor_at 490));
  ("checkpoint", JObj [("rewardCycle", JNum 20); ("calculationCheckpoint", JStr "first-half");
     ("lastRewardComputeHeight", JNum 2049); ("rewardsPerToken", JStr "900")]);
  ("expectedEffect", JObj [("recipient", JObj [("kind", JStr "manager"); ("principal", JStr manager)]);
     ("asset", JObj [("assetId", JStr "sbtc"); ("symbol", JStr "sBTC"); ("maximumOutflow", JStr "400");
                     ("unit", JStr "sats")]);
     ("postconditions", JArr [JStr "will send 400"]); ("reconciliationPredicate", JStr "claimed")]);
  ("fee", JObj [("snapshot", JObj [("state", JStr "present"); ("feeBips", JNum 500); ("source", JStr "chain")]);
     ("estimatedFeeUstx", JStr "200"); ("maximumFeeUstx", JStr "300"); ("policyRevision", JNum 1)]);
  ("expectedPostState", JStr "nothing is claimable")].

Definition sealed : Json := JObj [("material", JObj [
  ("sender", JObj [("principal", JStr "SPW"); ("publicKey", JStr Concrete.key)]);
  ("transaction", JObj [("nonce", JStr "7")]); ("stxEarnedSats", JStr "400"); ("bondBuckets", JArr [])])].

Definition predicate : ClaimPredicate :=
  {| pc_managerContract := manager; pc_rewardCycle := "20"; pc_calculationCheckpoint := "first-half";
     pc_lastRewardComputeBurnHeight := 2049; pc_rewardsPerToken := "900";
     pc_bondBucketsSha256 := documentSha256 sha256 (JObj [("schemaVersion", JNum 1);
       ("kind", JStr "manager-claim-bond-buckets"); ("stxEarnedSats", JStr "400"); ("bondBuckets", JArr [])]);
     pc_effectiveFeeBips := "500"; pc_asset := "sbtc"; pc_sender := pox5; pc_recipient := manager;
     pc_amountSats := "400" |}.

Definition scope : string :=
  managerClaimOperationScopeKey sha256 mainnet 1 manager 20 Anchor.first_half 2049 900.

Definition claim : Json := JObj [
  ("schemaVersion", JNum 1); ("kind", JStr "reference-manager-claim-rewards"); ("operationScopeKey", JStr scope);
  ("managerProfile", JObj [("id", JStr "reference"); ("recognitionTier", JStr "reference-built-in");
     ("expectedSourceSha256", JStr source); ("observedSourceSha256", JStr source)]);
  ("acceptedAttestation", attested); ("review", review); ("sealedPlan", sealed);
  ("reconciliation", predicate_json predicate)].

Definition claim_policy : Json := JObj [
  ("schemaVersion", JNum 1); ("kind", JStr "reference-manager-claim-rewards-policy"); ("mode", JStr "observe");
  ("adapterEnabled", JBool true); ("rewardsPaused", JBool false); ("maximumFeeUstx", JStr "300");
  ("estimatedFeeUstx", JStr "200"); ("approvalRequired", JBool false); ("nonceReservationAllowed", JBool false);
  ("signingAllowed", JBool false); ("broadcastAllowed", JBool false)].

Definition sealed_claim : CreateLogicalJobInput :=
  {| cj_jobId := key 1; cj_idempotencyKey := "claim-20"; cj_operationScopeKey := Some scope;
     cj_adapterId := MANAGER_CLAIM_REWARDS_ADAPTER_ID; cj_adapterRevision := 2; cj_managerPrincipal := manager;
     cj_intent := claim; cj_intentSha256 := documentSha256 sha256 claim; cj_policy := claim_policy;
     cj_policySha256 := documentSha256 sha256 claim_policy; cj_chainAnchor := anchor_at 490;
     cj_attestation := accepted; cj_createdAt := at_ 1 |}.

(** ** The passes *)

Definition pass (height t : Z) (d : EngineDb) : result ClaimError ClaimOutcome * EngineDb :=
  service_observe isUuid isDatetime Concrete.validAddress sha256 getStatus getBlock 6 (observation height t)
    (fun d => d) d.

Definition found : EngineDb := Eval vm_compute in run [call_create sealed_claim] empty_tables.
Definition once : EngineDb := Eval vm_compute in (pass 500 2 found).2.
Definition twice : EngineDb := Eval vm_compute in (pass 510 3 once).2.

Definition once_outcome : result ClaimError ClaimOutcome := Eval vm_compute in (pass 500 2 found).1.
Definition twice_outcome : result ClaimError ClaimOutcome := Eval vm_compute in (pass 510 3 once).1.

Lemma first_pass : pass 500 2 found = (once_outcome, once).
Proof. vm_compute. reflexivity. Qed.
Lemma second_pass : pass 510 3 once = (twice_outcome, twice).
Proof. vm_compute. reflexivity. Qed.

Definition job_of (d : EngineDb) : option JobRow := jobs d !! key 1.
Definition sight (d : EngineDb) : option Job.TransactionJobState * list ReconciliationOutcome :=
  (tj_state <$> job_of d, map (fun x => or_outcome x.2) (map_to_list (evidence d))).

Lemma claim_seen :
  sight found = (Some Job.prepared, []) /\ sight once = (Some Job.confirmed, [ro_external_success]) /\
  sight twice = (Some Job.reconciled, [ro_external_success; ro_external_success]).
Proof. vm_compute. split_and!; reflexivity. Qed.

(** The same claim after its own transaction was seen to succeed. *)
Definition included_attempt : AttemptRow :=
  attempt_to {| at_attemptId := key 33; at_expectedState := as_submitted; at_expectedStateVersion := 1;
                at_nextState := as_confirmed; at_changedAt := at_ 19; at_submissionResult := Some (JBool true);
                at_inclusion := Some inclusion |} attempt.
Definition included : EngineDb :=
  with_attempts {[key 33 := included_attempt]} (with_nonces {[key 49 := new_nonce (signed 1 16)]} found).
Definition included_once : EngineDb := Eval vm_compute in (pass 500 2 included).2.
Definition still_open : EngineDb := Eval vm_compute in (pass 510 3 included_once).2.
Definition still_open_outcome : result ClaimError ClaimOutcome := Eval vm_compute in (pass 510 3 included_once).1.

Lemma included_pass : (pass 500 2 included).2 = included_once.
Proof. vm_compute. reflexivity. Qed.
Lemma third_pass : pass 510 3 included_once = (still_open_outcome, still_open).
Proof. vm_compute. reflexivity. Qed.

Lemma included_seen : sight still_open = (Some Job.confirmed, [ro_satisfied; ro_satisfied]).
Proof. vm_compute. reflexivity. Qed.

(** ** The theorems applied *)

Lemma unchanged d : rtc (control_step isUuid isDatetime Concrete.validAddress sha256) d d.
Proof. reflexivity. Qed.

(** A job, read of concrete tables. *)
Definition the_job (d : EngineDb) : JobRow := default (new_job {|
  jb_idempotencyKey := ""; jb_operationScopeKey := ""; jb_adapterId := ""; jb_adapterRevision := 0;
  jb_managerPrincipal := ""; jb_intentSha256 := ""; jb_policySha256 := ""; jb_intent := JNull; jb_policy := JNull;
  jb_chainAnchor := anchor; jb_attestation := accepted; jb_createdAt := "" |}) (job_of d).

Lemma once_job : jobs once !! key 1 = Some (the_job once).
Proof. vm_compute. reflexivity. Qed.
Lemma twice_job : jobs twice !! key 1 = Some (the_job twice).
Proof. vm_compute. reflexivity. Qed.
Lemma included_job : jobs included_once !! key 1 = Some (the_job included_once).
Proof. vm_compute. reflexivity. Qed.
Lemma still_open_job : jobs still_open !! key 1 = Some (the_job still_open).
Proof. vm_compute. reflexivity. Qed.

Lemma passes_only_close_witness :
  attempts once = attempts found /\ jobs once !! key 1 <> jobs found !! key 1.
Proof.
  split; [|vm_compute; discriminate].
  exact (proj1 (passes_only_close isUuid isDatetime Concrete.validAddress sha256 getStatus getBlock 6
    (observation 500 2) (fun d => d) found _ once eq_refl (unchanged _) first_pass)).
Defined.

Lemma once_schema : schema_ok once.
Proof. apply (bool_decide_unpack _). vm_compute. done. Qed.

Lemma included_schema : schema_ok included_once.
Proof. apply (bool_decide_unpack _). vm_compute. done. Qed.

Lemma once_active : active_job (the_job once) = true.
Proof. vm_compute. reflexivity. Qed.
Lemma twice_reconciled : tj_state (the_job twice) = Job.reconciled.
Proof. vm_compute. reflexivity. Qed.

Lemma reconciled_claim_is_final_witness :
  tj_state (the_job twice) = Job.reconciled /\
  exists depth, 6 <= depth /\
    proven_completion getStatus getBlock once (key 1) (os_chainAnchor (op_setup (observation 510 3))) depth.
Proof.
  assert (Hd : 1 <= 6) by lia. split; [exact twice_reconciled|].
  exact (proj2 (proj2 (reconciled_claim_is_final isUuid isDatetime Concrete.validAddress sha256 getStatus getBlock 6
    (observation 510 3) (fun d => d) once twice_outcome twice (key 1) (the_job once) (the_job twice) Hd
    once_schema eq_refl (unchanged once) second_pass once_job once_active twice_job twice_reconciled))).
Defined.

Lemma included_active : active_job (the_job included_once) = true.
Proof. vm_compute. reflexivity. Qed.
Lemma included_on_record : attempts included_once !! key 33 = Some included_attempt.
Proof. vm_compute. reflexivity. Qed.
Lemma included_confirmed : tj_state (the_job included_once) = Job.confirmed.
Proof. vm_compute. reflexivity. Qed.
Lemma included_inclusion : is_Some (ta_inclusion included_attempt).
Proof. by eexists. Qed.

Lemma included_claim_stays_open_witness :
  tj_state (the_job included_once) = Job.confirmed /\ tj_state (the_job still_open) <> Job.reconciled.
Proof.
  assert (Hd : 1 <= 6) by lia. split; [exact included_confirmed|].
  exact (included_claim_stays_open isUuid isDatetime Concrete.validAddress sha256 getStatus getBlock 6
    (observation 510 3) true (fun d => d) included_once still_open_outcome still_open
    (key 1) (the_job included_once) (the_job still_open) (key 33) included_attempt Hd included_schema
    (unchanged _) third_pass included_job included_active still_open_job included_on_record eq_refl included_inclusion).
Defined.

End ManagerClaimScenario.
